(* ===== verification/_CoqProject ===== *)
-Q . S2P
Prelude.v
CBuf.v
CMem.v
PbCore.v
PbIter.v
PbEncode.v
PbSize.v
PbEncodeSpec.v
PbWire.v
PbIn.v
PbReadSpec.v
PbDecode.v
PbTheorems.v
UvHeap.v
UvHeapSpec.v
UvTimer.v
UvTimerSpec.v
UvTheorems.v
Base64.v
Base64Spec.v
Base64Block.v
Base64Stream.v
Base64Theorems.v
UvInet.v
UvInetSpec.v
UvInetText.v
UvInetNtop.v
UvInetTheorems.v
UvIdna.v
UvIdnaUtf8.v
Punycode.v
UvIdnaSpec.v
UvIdnaTheorems.v
CProc.v
Cbs.v
CbsSpec.v
Cbb.v
CbbSpec.v
CbbOps.v
DerInt.v
CbbDoc.v
CbbKeep.v
DocRead.v
Oid.v
OidSpec.v
SetOf.v
BytesTheorems.v
Bn.v
BnSpec.v
Asn1String.v
Asn1Int.v
Asn1IntSpec.v
Asn1Bits.v
Calendar.v
Asn1Time.v
Asn1TimeSpec.v
Asn1TimeText.v
Asn1TimePrint.v
Asn1Object.v
BioPair.v
BioSpec.v
BioTheorems.v
LHash.v
LHashSpec.v
LHashOps.v
LHashWalk.v
LHashTheorems.v
Unicode.v
Stack.v
UnicodeTheorems.v
StackSpec.v
StackTheorems.v
SipHash.v
Ber.v
BerSpec.v
BerConvert.v
BerString.v
BerTheorems.v
Asn1Theorems.v
BnTheorems.v
