(* ===== verification/Prelude.v ===== *)
(** * A verification library for the C code the POMPOM application ships

    POMPOM is an iOS application written in Swift.  The C code it is built
    from comes with its pods: Firebase Firestore talks to its server through
    gRPC, which brings nanopb (the messages), libuv (the event loop) and
    BoringSSL (TLS and encodings).  The library models those routines of the
    three that are plain C with no system call inside, and proves what their
    callers rely on.  All paths below are relative to [src/POMPOM/Pods].

    ** Conventions

    - Integers are [Z]; every operation of the C code that can leave the range
      of its type is wrapped explicitly ([wrapu], [wraps] of this file).
    - [None] as the result of a model is undefined behaviour of the C code: an
      access outside an object, through a null pointer, a failed assertion.
      Error returns are ordinary results.  A theorem that says a function
      returns [Some] therefore says that the C code is memory safe there.
    - Loops that are not structural take fuel.  Running out is [None] too (in
      the nanopb monad a separate outcome [no_fuel]), and each definition
      passes an amount that the theorems show to be enough: the number of bytes
      left, the size of the heap, ten or eleven rounds for a varint, 32 rounds
      for the path in a heap of 32-bit size.  The nesting depth of messages is
      the one fuel that stays a parameter ([pb_encode], [pb_decode]): the C
      code recurses as deep as the message types nest, and the theorems hold for
      every depth.
    - Memory is modelled at two levels.  [CMem] has blocks of cells addressed
      by pointers, for nanopb, which finds the members of a message through
      offsets in descriptor tables.  [CBuf] has single arrays with an index,
      for code that fills one output array.  libuv's heap and timers live in a
      map from addresses to nodes.
    - Callbacks (the streams' read and write functions, nanopb's field
      callbacks, timers' callbacks), allocation failure, and the comparison
      function of a heap are parameters.  What a theorem needs of them is a
      named hypothesis or a class ([ByteSource], [StrictWeak]) with instances.

    ** nanopb (nanopb/pb_common.c, pb_encode.c, pb_decode.c)

    [PbCore] has the streams, field descriptors and the state-and-error monad;
    [PbIter] the iterator of pb_common.c; [PbEncode] the encoder;
    [PbIn] and [PbDecode] the decoder.  The mutual recursion between messages
    and fields is tied at the end of [PbEncode] and [PbDecode]; the function
    tables PB_ENCODERS and PB_DECODERS are definitions by case on the type.
    - [PbSize], [PbEncodeSpec]: an encoder computation has one output, which
      sizing streams count and buffers receive.  Hence encode_agrees: the size
      pb_get_encoded_size announces is the size pb_encode writes, a large enough
      buffer gets exactly those bytes, and a small one is an error.
    - [PbWire], [PbIn], [PbReadSpec]: the wire format as functions on byte
      lists, the writers emit it, and the readers take it off any stream that
      satisfies [ByteSource]; round trips, behaviour on malformed input, skipping
      and substreams.
    - [PbWire] also has a concrete message on which the theorems are exercised.

    ** libuv heap and timers (Libuv-gRPC/src/heap-inl.h, timer.c)

    [UvHeap] models the pointer structure assignment by assignment and
    relates it to an array in level order; [UvHeapSpec] proves that
    insertion and removal of any node keep the array a heap.  [UvTimer] models
    timer.c over it, [UvTimerSpec] the invariant of a loop's timers (the heap
    holds exactly the active ones, ordered by due time and start id).
    [UvTheorems] states the contracts: a priority queue of timers, a poll
    timeout that is never past a due time, and termination of uv__run_timers.

    ** libuv addresses (Libuv-gRPC/src/inet.c, strscpy.c)

    [UvInet] models both files.  [UvInetSpec]: bounded copies, IPv4 text.
    [UvInetText], [UvInetNtop]: reading any string is defined, reading
    well-formed text, and what is written.  [UvInetTheorems] states the
    exact language of IPv4 text and the round trips.

    ** BoringSSL base64 (BoringSSL-GRPC/src/crypto/base64/base64.c)

    [Base64] models the file with the constant-time comparisons it uses;
    [Base64Spec] is RFC 4648 on lists; [Base64Block] and [Base64Stream] relate
    the block and the streaming functions to it; [Base64Theorems] states the
    equivalences and round trips.

    ** libuv internationalised host names (Libuv-gRPC/src/idna.c)

    [UvIdna] models the file.  [Punycode] is RFC 3492 with mathematical
    integers, encoder and decoder, and their round trip; [UvIdnaUtf8] is UTF-8
    and what the decoder of the code makes of any bytes; [UvIdnaSpec] relates
    the loops to the encoder.  [UvIdnaTheorems] states correctness on UTF-8
    names, the round trip through the decoder of the RFC and safety on other
    bytes, with the examples of three defects.

    ** BoringSSL byte strings (BoringSSL-GRPC/src/crypto/bytestring/cbs.c, cbb.c)

    [CProc] is the protocol of functions that return 0 or 1.  [Cbs] models
    cbs.c, on the bytes a CBS spans; [Cbb] models cbb.c, with one buffer and the
    CBBs that write to it by address, children linked by pointers as in the
    code; [Oid] has the text of object identifiers (the end of both files),
    [SetOf] the sorting of a SET OF.  A reallocation succeeds as a parameter
    says; recursion of CBB_flush has as much fuel as there are CBBs, the loops
    over input as many rounds as there are bytes.
    - [CbsSpec], [DerInt]: X.690 as functions from values to bytes -
      identifier and length octets, elements, shortest integers - and the readers
      accept exactly these.
    - [CbbSpec]: triples for builders; a chain of open children stands for nested
      contents ([chain], [flat]) and flushing computes [collapse].  [CbbOps],
      [CbbDoc]: what each operation appends.  A builder fails for two
      reasons only, a length that does not fit its prefix, and [hopeless], a buffer
      that cannot grow.
    - [CbbDoc]: documents, the calls that write them and their encoding, from
      CBB_init to CBB_finish; [CbbKeep]: whatever happens, CBB_cleanup stays
      defined; [DocRead]: cbs.c reads documents back.
    - [OidSpec], [SetOf]: object identifiers in both directions; the order
      of a SET OF is lexicographic and the result depends only on the elements.
    - [BytesTheorems] states the properties.


    ** BoringSSL BER conversion (BoringSSL-GRPC/src/crypto/bytestring/ber.c)

    [Ber] models the file over [Cbs] and [Cbb].  Its recursive functions have a
    unit of fuel for each byte of the input; an element within an element and
    the element behind it are both shorter by two bytes.  [BerSpec]: which elements the reader accepts, input as a
    tree, and the answer of the walk that looks for BER; [BerConvert]: the DER
    form of a tree, and that the converter writes it; [BerString]: the result is
    DER, what a local builder collects is released on every error, and strings
    in chunks.
    [BerTheorems]: DER is returned as it is, one element of BER that shows what
    it is ([shown]) becomes its DER form, every other input is dealt with safely;
    idempotence; and three examples in which the function does not do what its
    comments say.  [finds] is what the walk of the code leaves in its flag, not a
    notion of BER.

    ** BoringSSL hash tables (BoringSSL-GRPC/src/crypto/lhash/lhash.c)

    [LHash] models the file on a store of items by address, with the chains as
    the code links them; hash and comparison functions, the results of
    allocation and the callback of OPENSSL_lh_doall_arg are arguments.
    Fuel for a chain is the number of items in the store.  [LHashSpec]: when a
    store is a table, and what resizing keeps; [LHashOps], [LHashWalk]:
    the operations, the walk and the load factor.  [LHashTheorems]:
    a finite map, a bounded load, and a callback once for each element even
    if it deletes them.

    ** BoringSSL stacks (BoringSSL-GRPC/src/crypto/stack/stack.c)

    [Stack] models the file: an array with cells that were never written, its
    length, the sorted flag and the comparison function.  [StackSpec]: arrays
    and lists, growing, linear and binary search, sorting, copying, releasing.  [StackTheorems]: any sequence of operations
    is defined, and agrees with lists unless it replaces an element of a sorted
    stack out of order, which sk_set does without clearing the flag.

    ** BoringSSL characters and SipHash (crypto/bytestring/unicode.c, crypto/siphash/siphash.c)

    [Unicode] models unicode.c over [Cbs] and [Cbb]; [UnicodeTheorems] has the
    four encodings as functions: readers accept exactly the encodings, writers
    write them.  [SipHash] models siphash.c and gives the
    definition of the hash by words, their equality and the test vector of the
    authors.

    ** BoringSSL ASN.1 (BoringSSL-GRPC/src/crypto/asn1)

    [Asn1String] has the ASN1_STRING and the functions of asn1_lib.c on it,
    [Asn1Int] a_int.c and a_enum.c, [Asn1Bits] a_bitstr.c, [Asn1Time]
    time_support.c, a_utctm.c, a_gentm.c and a_time.c, [Asn1Object] the headers
    of elements, the rest of asn1_lib.c.  What OPENSSL_malloc returns for each
    size is a parameter, with any contents.  gmtime, which the C library
    provides, is the proleptic Gregorian calendar, defined in [Asn1Time].
    - [Asn1IntSpec]: the two's complement in place, contents octets, DER or not,
      machine integers, order, BIGNUMs (of [Bn]) in both directions.  [Asn1Bits]: a string of bits is a set of numbers.
    - [Calendar]: days and dates as mathematics.  [Asn1TimeSpec]: Julian days
      and the adjustment; it is exact for years up to 1000000 and for offsets
      whose parts fit an int (offset_ok), where no intermediate overflows.
      [Asn1TimeText]: the grammar of times and what the readers make of a text;
      [Asn1TimePrint]: writing, comparing and converting times.
    - [Asn1Theorems] states the properties, with the edges at which the code
      does not do what it means to.

    ** BoringSSL BIO pairs (BoringSSL-GRPC/src/crypto/bio/pair.c, bio.c)

    [BioPair] models pair.c, and bio.c as far as it is used on BIO pairs, on a
    store of BIOs by address with reference counts; the results of allocation
    are arguments.  The two loops take two rounds at most, which is the fuel
    they get; BIO_free has a unit for each BIO in the store, BIO_write_all one
    for each byte.  [BioSpec]: a ring buffer is a queue, and each call on a pair
    is the call on two bounded queues.  [BioTheorems]: any sequence of calls,
    delivery of whole messages, creation with failing allocations, release.

    ** BoringSSL multiple-precision integers (BoringSSL-GRPC/src/crypto/fipsmodule/bn)

    [Bn] models bytes.c, add.c, the arithmetic parts of bn.c, cmp.c and shift.c,
    the loops over words of generic.c and, of mul.c, multiplication by the
    schoolbook method and by a word, for 64-bit words with a 128-bit type.
    BIGNUMs are in a store by address, so that a result may be an operand; what
    OPENSSL_malloc returns for each size is a parameter, with any contents.
    Fuel is the number of words or bytes a loop goes over.  [BnSpec]: words and
    their value, what every operation does to the numbers, signs and widths,
    when it finds no room, and the bits and bytes of numbers.  [BnTheorems]:
    any sequence of operations is the same sequence on integers, products of
    arrays of words, conversion to and from bytes, and two cases in which the
    sign of the old contents remains.
    ** Not modelled

    System calls, threads and the event loop proper of libuv; cryptography,
    certificates and TLS of BoringSSL; gRPC, upb, Abseil, leveldb and Firestore
    (C++ or driven by generated tables); the Swift sources.  Within the modelled
    files: EVP_ENCODE_CTX_free and the releasing functions of ASN.1 strings,
    which only release memory; the conversions between ASN.1
    enumerated values and BIGNUMs; the d2i and i2d templates; of the BIGNUMs the Karatsuba and comba
    multiplication, squaring, division, Montgomery arithmetic, gcd, primes and
    BN_CTX (their scratch space is a stack of BIGNUMs of a pool, their inner
    loops assembly on most platforms); and the
    configurations of nanopb the application does not build (PB_FIELD_16BIT,
    PB_BUFFER_ONLY, PB_WITHOUT_64BIT, PB_NO_ERRMSG). *)
From stdpp Require Export base numbers list gmap strings.
From Stdlib Require Export ZArith Lia.

(** ** Scope and fixed-width integers

    A C unsigned integer of [w] bits is a [Z] kept in [0 .. 2^w - 1] by
    [wrapu w]; a signed one is kept in [-2^(w-1) .. 2^(w-1) - 1] by [wraps w]
    (two's complement, which is what every compiler of the iOS tool chain
    does for the conversions the code relies on). *)
Declare Scope c_scope.
Delimit Scope c_scope with C.
#[global] Open Scope Z_scope.

Definition wrapu (w z : Z) : Z := z mod 2 ^ w.
Definition wraps (w z : Z) : Z := (z + 2 ^ (w - 1)) mod 2 ^ w - 2 ^ (w - 1).

Abbreviation u8 := (wrapu 8).
Abbreviation u16 := (wrapu 16).
Abbreviation u32 := (wrapu 32).
Abbreviation u64 := (wrapu 64).
Abbreviation s8 := (wraps 8).
Abbreviation s16 := (wraps 16).
Abbreviation s32 := (wraps 32).
Abbreviation s64 := (wraps 64).

(** [in_u w z]: [z] is a value of the unsigned type of width [w]. *)
Definition in_u (w z : Z) : Prop := 0 <= z < 2 ^ w.
Definition in_s (w z : Z) : Prop := - 2 ^ (w - 1) <= z < 2 ^ (w - 1).

#[global] Instance in_u_dec w z : Decision (in_u w z).
Proof. unfold in_u. apply _. Defined.
#[global] Instance in_s_dec w z : Decision (in_s w z).
Proof. unfold in_s. apply _. Defined.

Create HintDb cint.
Create Rewrite HintDb cint.

Lemma wrapu_range w z : 0 <= w -> in_u w (wrapu w z).
Proof. intros. unfold in_u, wrapu. apply Z.mod_pos_bound. lia. Qed.

Lemma wrapu_id w z : in_u w z -> wrapu w z = z.
Proof. unfold in_u, wrapu. intros. by apply Z.mod_small. Qed.

Lemma wraps_range w z : 0 < w -> in_s w (wraps w z).
Proof.
  intros. unfold in_s, wraps.
  pose proof (Z.mod_pos_bound (z + 2 ^ (w - 1)) (2 ^ w)) as Hb.
  assert (2 ^ w = 2 * 2 ^ (w - 1)) as E.
  { rewrite <- Z.pow_succ_r by lia. f_equal. lia. }
  assert (0 < 2 ^ (w - 1)) by lia. lia.
Qed.

Lemma wraps_id w z : 0 < w -> in_s w z -> wraps w z = z.
Proof.
  unfold in_s, wraps. intros Hw Hz.
  assert (2 ^ w = 2 * 2 ^ (w - 1)) as E.
  { rewrite <- Z.pow_succ_r by lia. f_equal. lia. }
  rewrite Z.mod_small by lia. lia.
Qed.

(** Converting to signed and back to unsigned at the same width loses
    nothing, in either order. *)
Lemma wraps_wrapu w z : 0 < w -> wraps w (wrapu w z) = wraps w z.
Proof.
  intros. unfold wraps, wrapu. by rewrite Z.add_mod_idemp_l by lia.
Qed.

Lemma wrapu_wraps w z : 0 < w -> wrapu w (wraps w z) = wrapu w z.
Proof.
  intros. unfold wraps, wrapu.
  rewrite Zminus_mod_idemp_l. f_equal. lia.
Qed.

Lemma wrapu_add_sub w a b : 0 <= w -> wrapu w (wrapu w (a - b) + b) = wrapu w a.
Proof. intros. unfold wrapu. rewrite Z.add_mod_idemp_l by lia. f_equal. lia. Qed.

#[export] Hint Resolve wrapu_range wraps_range : cint.
#[export] Hint Rewrite wraps_wrapu wrapu_wraps using lia : cint.

(** ** Bit operations as arithmetic *)

Lemma land_ones_mod x n : 0 <= n -> Z.land x (2 ^ n - 1) = x mod 2 ^ n.
Proof.
  intros. rewrite <- Z.land_ones by lia.
  by rewrite Z.ones_equiv, <- Z.sub_1_r.
Qed.

Lemma land_1 x : Z.land x 1 = x mod 2.
Proof. apply (land_ones_mod x 1). lia. Qed.

Lemma land_7F x : Z.land x 127 = x mod 128.
Proof. apply (land_ones_mod x 7). lia. Qed.

Lemma land_FF x : Z.land x 255 = x mod 256.
Proof. apply (land_ones_mod x 8). lia. Qed.

Lemma testbit_small x n i : 0 <= x < 2 ^ n -> n <= i -> Z.testbit x i = false.
Proof.
  intros Hx Hi. destruct (decide (0 <= n)).
  - rewrite <- (Z.mod_small x (2 ^ n)) by lia. by apply Z.mod_pow2_bits_high.
  - rewrite Z.pow_neg_r in Hx by lia. lia.
Qed.

Lemma mapM_Some {A} (l : list A) : mapM id (Some <$> l) = Some l.
Proof. induction l as [|x l IH]; [done|]. cbn. cbn in IH. by rewrite IH. Qed.

(** Disjoint bit ranges: [lor] is addition. *)
Lemma lor_shiftl_add a b n :
  0 <= n -> 0 <= a < 2 ^ n -> Z.lor a (Z.shiftl b n) = a + b * 2 ^ n.
Proof.
  intros Hn Ha. rewrite <- Z.shiftl_mul_pow2 by lia.
  assert (Z.land a (Z.shiftl b n) = 0) as Hd.
  { apply Z.bits_inj'. intros i Hi. rewrite Z.land_spec, Z.bits_0.
    destruct (decide (i < n)).
    - rewrite (Z.shiftl_spec_low _ _ _ l). apply andb_false_r.
    - rewrite (testbit_small a n) by lia. done. }
  pose proof (Z.add_lor_land a (Z.shiftl b n)). lia.
Qed.

Lemma lor_range a b n :
  0 <= n -> 0 <= a < 2 ^ n -> 0 <= b < 2 ^ n -> 0 <= Z.lor a b < 2 ^ n.
Proof.
  intros Hn Ha Hb.
  assert (Z.lor a b = Z.lor a b mod 2 ^ n) as ->.
  { apply Z.bits_inj'. intros i Hi. destruct (decide (i < n)).
    - by rewrite Z.mod_pow2_bits_low.
    - rewrite Z.mod_pow2_bits_high by lia.
      by rewrite Z.lor_spec, !(testbit_small _ n) by lia. }
  apply Z.mod_pos_bound. lia.
Qed.

Lemma lor_80 x : 0 <= x < 128 -> Z.lor x 128 = x + 128.
Proof. intros. exact (lor_shiftl_add x 1 7 ltac:(lia) ltac:(lia)). Qed.

Lemma shiftr_div x n : 0 <= n -> Z.shiftr x n = x / 2 ^ n.
Proof. apply Z.shiftr_div_pow2. Qed.

(** Facts about one byte are decided by evaluation on its 256 values. *)
Lemma byte_all (P : Z -> bool) :
  forallb P (Z.of_nat <$> seq 0 256) = true -> forall b, in_u 8 b -> P b = true.
Proof.
  intros Hall b Hb. unfold in_u in Hb. rewrite forallb_forall in Hall. apply Hall.
  apply list_elem_of_In, list_elem_of_fmap. exists (Z.to_nat b).
  split; [lia|]. apply elem_of_seq. lia.
Qed.

(** [by_byte b]: prove a boolean equation about the byte [b] by evaluating it
    on every byte. *)
Ltac by_byte b :=
  pattern b;
  lazymatch goal with
  | |- ?Q b =>
      let P := eval cbv beta in (fun x : Z => bool_decide (Q x)) in
      cut (P b = true);
      [ intros ?HH; apply bool_decide_eq_true in HH; exact HH
      | refine (byte_all P _ b _); [ vm_compute; reflexivity | unfold in_u; lia ] ]
  end.

(** The continuation bit of a byte. *)
Lemma land_80 b : in_u 8 b -> Z.land b 128 = if decide (b < 128) then 0 else 128.
Proof. intros Hb. unfold in_u in Hb. by_byte b. Qed.

(** Prove a decidable fact about closed values by evaluating it. *)
Ltac decided := apply (bool_decide_unpack _); vm_compute; exact I.
