(* ===== verification/CBuf.v ===== *)
(** * The C language: arrays, text, arithmetic

    Arrays of bytes with checked accesses, decimal text and C strings, and signed
    arithmetic with its overflow. *)
From S2P Require Import Prelude.

(** ** Buffers

    A C array of bytes as a list, with accesses that have no result outside it
    (undefined behaviour).  The routines that take [const] input arrays and
    fill one output array are modelled on these; the decoders and encoders
    that follow pointers through structures use [CMem]. *)

(** The size of a pointer in bytes. *)
Definition sizeof_pointer : Z := 8.

(** ** Replacing a piece of a list *)

Definition splice {A} (o : nat) (v cs : list A) : list A :=
  take o cs ++ v ++ drop (o + length v) cs.

Lemma length_splice {A} (o : nat) (v cs : list A) :
  (o + length v <= length cs)%nat -> length (splice o v cs) = length cs.
Proof.
  intros. unfold splice. rewrite !length_app, length_take, length_drop. lia.
Qed.

Lemma splice_read {A} (o : nat) (v cs : list A) :
  (o + length v <= length cs)%nat -> take (length v) (drop o (splice o v cs)) = v.
Proof.
  intros. unfold splice. rewrite drop_app_length' by (rewrite length_take; lia).
  by rewrite take_app_length.
Qed.

Lemma splice_read_before {A} (o : nat) (v cs : list A) (o' n : nat) :
  (o' + n <= o)%nat -> (o + length v <= length cs)%nat ->
  take n (drop o' (splice o v cs)) = take n (drop o' cs).
Proof.
  intros. unfold splice. rewrite drop_app_le by (rewrite length_take; lia).
  rewrite take_app_le by (rewrite length_drop, length_take; lia).
  rewrite skipn_firstn_comm, take_take. f_equal. lia.
Qed.

Lemma splice_read_after {A} (o : nat) (v cs : list A) (o' n : nat) :
  (o + length v <= o')%nat -> (o + length v <= length cs)%nat ->
  take n (drop o' (splice o v cs)) = take n (drop o' cs).
Proof.
  intros. unfold splice.
  rewrite drop_app_ge by (rewrite length_take; lia).
  rewrite drop_app_ge by (rewrite length_take; lia).
  rewrite drop_drop. do 2 f_equal. rewrite length_take. lia.
Qed.

(** Two adjacent pieces are one piece. *)
Lemma splice_splice {A} (o : nat) (a b cs : list A) :
  (o + length a + length b <= length cs)%nat ->
  splice (o + length a) b (splice o a cs) = splice o (a ++ b) cs.
Proof.
  intros. unfold splice.
  rewrite take_app_ge by (rewrite length_take; lia).
  rewrite take_app_le by (rewrite length_take; lia).
  rewrite drop_app_ge by (rewrite length_take; lia).
  rewrite drop_app_ge by (rewrite length_take; lia).
  rewrite drop_drop, length_app, length_take, <- !app_assoc.
  rewrite (take_ge a) by lia. do 4 f_equal. lia.
Qed.

(** ** Accesses *)

(** The [n] elements at index [i]. *)
Definition rds {A} (buf : list A) (i n : Z) : option (list A) :=
  if bool_decide (0 <= i /\ 0 <= n /\ i + n <= Z.of_nat (length buf))
  then Some (take (Z.to_nat n) (drop (Z.to_nat i) buf)) else None.

Definition rd {A} (buf : list A) (i : Z) : option A :=
  if bool_decide (0 <= i) then buf !! Z.to_nat i else None.

(** Store the elements [v] at index [i]. *)
Definition wrs {A} (buf : list A) (i : Z) (v : list A) : option (list A) :=
  if bool_decide (0 <= i /\ i + Z.of_nat (length v) <= Z.of_nat (length buf))
  then Some (splice (Z.to_nat i) v buf) else None.

Definition wr {A} (buf : list A) (i : Z) (x : A) : option (list A) := wrs buf i [x].

Lemma wrs_app {A} (buf : list A) i a b :
  wrs buf i (a ++ b) = buf' ← wrs buf i a; wrs buf' (i + Z.of_nat (length a)) b.
Proof.
  unfold wrs. rewrite length_app. case_bool_decide as H1; case_bool_decide as H2;
    cbn [mbind option_bind]; try lia; try done.
  - rewrite length_splice by lia. rewrite bool_decide_eq_true_2 by lia. f_equal.
    rewrite <- splice_splice by lia. f_equal. lia.
  - rewrite length_splice by lia. by rewrite bool_decide_eq_false_2 by lia.
Qed.

Lemma wr_wrs {A} (buf : list A) i x v :
  (buf' ← wr buf i x; wrs buf' (i + 1) v) = wrs buf i (x :: v).
Proof. symmetry. exact (wrs_app buf i [x] v). Qed.

Lemma wrs_Some {A} (buf : list A) i v buf' :
  wrs buf i v = Some buf' <->
  0 <= i /\ i + Z.of_nat (length v) <= Z.of_nat (length buf) /\ buf' = splice (Z.to_nat i) v buf.
Proof.
  unfold wrs. case_bool_decide as Hr; split.
  - intros [= <-]. tauto.
  - by intros (_ & _ & ->).
  - done.
  - intros (? & ? & _). by destruct Hr.
Qed.

Lemma wrs_length {A} (buf : list A) i v buf' : wrs buf i v = Some buf' -> length buf' = length buf.
Proof. intros (? & ? & ->)%wrs_Some. rewrite length_splice by lia. done. Qed.

Lemma rds_wrs {A} (buf : list A) i v buf' :
  wrs buf i v = Some buf' -> rds buf' i (Z.of_nat (length v)) = Some v.
Proof.
  intros H. pose proof (wrs_length _ _ _ _ H). apply wrs_Some in H as (? & ? & ->). unfold rds.
  rewrite bool_decide_eq_true_2 by lia. rewrite Nat2Z.id. by rewrite splice_read by lia.
Qed.

Lemma rds_all {A} (buf : list A) : rds buf 0 (Z.of_nat (length buf)) = Some buf.
Proof. unfold rds. rewrite bool_decide_eq_true_2 by lia. rewrite Nat2Z.id. cbn. by rewrite take_ge. Qed.

Lemma rd_app {A} (a : list A) x b : rd (a ++ x :: b) (Z.of_nat (length a)) = Some x.
Proof. unfold rd. rewrite bool_decide_eq_true_2 by lia. rewrite Nat2Z.id. by apply list_lookup_middle. Qed.

Lemma wrs_nil {A} (buf : list A) i : 0 <= i <= Z.of_nat (length buf) -> wrs buf i [] = Some buf.
Proof.
  intros Hi. apply wrs_Some. cbn. split_and!; [lia..|]. unfold splice. cbn.
  by rewrite Nat.add_0_r, take_drop.
Qed.

Lemma rd_at {A} (pre l : list A) k :
  0 <= k -> rd (pre ++ l) (Z.of_nat (length pre) + k) = l !! Z.to_nat k.
Proof.
  intros Hk. unfold rd. rewrite bool_decide_eq_true_2 by lia.
  rewrite lookup_app_r by lia. f_equal. lia.
Qed.

Lemma rd_at0 {A} (pre l : list A) : rd (pre ++ l) (Z.of_nat (length pre)) = l !! 0%nat.
Proof. pose proof (rd_at pre l 0) as E. rewrite Z.add_0_r in E. by apply E. Qed.

(** A store that covers the end of the one before it. *)
Lemma wrs_wrs {A} (buf : list A) i x y b :
  (buf' ← wrs buf i [x]; wrs buf' i (y :: b)) = wrs buf i (y :: b).
Proof.
  unfold wrs. case_bool_decide as H1; case_bool_decide as H2; cbn [mbind option_bind]; cbn [length] in *;
    try lia; try done.
  - rewrite length_splice by (cbn; lia). rewrite bool_decide_eq_true_2 by lia. f_equal.
    unfold splice. rewrite take_app_length' by (rewrite length_take; lia). do 2 f_equal. cbn [length].
    rewrite drop_app_ge by (rewrite length_take; lia). rewrite length_take, drop_app_ge by (cbn; lia).
    rewrite drop_drop. f_equal. cbn. lia.
  - rewrite length_splice by (cbn; lia). by rewrite bool_decide_eq_false_2 by lia.
Qed.

Lemma wrs_over {A} (buf : list A) i a x y b :
  (buf' ← wrs buf i (a ++ [x]); wrs buf' (i + Z.of_nat (length a)) (y :: b)) = wrs buf i (a ++ y :: b).
Proof. rewrite !wrs_app. destruct (wrs buf i a); [|done]. apply wrs_wrs. Qed.

Lemma rds_at {A} (pre l post : list A) :
  rds (pre ++ l ++ post) (Z.of_nat (length pre)) (Z.of_nat (length l)) = Some l.
Proof.
  unfold rds. rewrite bool_decide_eq_true_2 by (rewrite !length_app; lia).
  rewrite !Nat2Z.id, drop_app_length, take_app_length. done.
Qed.

Lemma rds_prefix {A} (l post : list A) : rds (l ++ post) 0 (Z.of_nat (length l)) = Some l.
Proof. exact (rds_at [] l post). Qed.

(** Overwriting the middle of a list. *)
Lemma wrs_mid {A} (x y z v : list A) i :
  i = Z.of_nat (length x) -> length v = length y -> wrs (x ++ y ++ z) i v = Some (x ++ v ++ z).
Proof.
  intros -> Hl. apply wrs_Some. rewrite !length_app. split_and!; [lia|lia|].
  unfold splice. rewrite Nat2Z.id, take_app_length, drop_app_ge by lia.
  replace (length x + length v - length x)%nat with (length y) by lia. by rewrite drop_app_length.
Qed.

(** ** Text of the C library

    What [printf] makes of numbers, [snprintf] to an array, and strings up to
    their terminator.  Characters are bytes. *)

(** The digits of a number as [printf] writes them, lower case. *)
Fixpoint digits (fuel : nat) (base n : Z) (acc : list Z) : list Z :=
  match fuel with
  | O => acc
  | S fuel' =>
      let d := n mod base in
      let acc := (if d <? 10 then 48 + d else 87 + d) :: acc in
      if n <? base then acc else digits fuel' base (n / base) acc
  end.

Definition fmt_u (n : Z) : list Z := digits 10 10 n [].
Definition fmt_x (n : Z) : list Z := digits 8 16 n [].

(** The characters before the terminator; [None] when there is none. *)
Fixpoint c_str (s : list Z) : option (list Z) :=
  match s with
  | [] => None
  | c :: s' => if c =? 0 then Some [] else l ← c_str s'; Some (c :: l)
  end.

(** [snprintf] to a local array of [size] bytes: what it holds. *)
Definition snprintf (size : Z) (text : list Z) : list Z := take (Z.to_nat (size - 1)) text ++ [0].

(** A number with [w] digits at least, as the format [%0wd] writes it. *)
Definition fmt_0d (w n : Z) : list Z :=
  let text := fmt_u (Z.abs n) in
  let sign := if n <? 0 then [45] else [] in
  sign ++ replicate (Z.to_nat (w - Z.of_nat (length sign) - Z.of_nat (length text))) 48 ++ text.

(** [memcmp], known by the sign: the difference of the first two bytes that
    differ. *)
Fixpoint memcmp (a b : list Z) : Z :=
  match a, b with
  | x :: a', y :: b' => if x =? y then memcmp a' b' else x - y
  | _, _ => 0
  end.

(** ** Checked signed arithmetic

    Signed overflow is undefined behaviour: [i32 z] and [i64 z] are the result
    [z] of an operation on [int] and on [long] where it is representable. *)

Definition i32 (z : Z) : option Z := if bool_decide (in_s 32 z) then Some z else None.
Definition i64 (z : Z) : option Z := if bool_decide (in_s 64 z) then Some z else None.

Definition INT_MAX := 2 ^ 31 - 1.
Definition LONG_MAX := 2 ^ 63 - 1.

Lemma i32_in z : in_s 32 z -> i32 z = Some z.
Proof. intros H. unfold i32. by rewrite bool_decide_eq_true_2. Qed.

Lemma i64_in z : in_s 64 z -> i64 z = Some z.
Proof. intros H. unfold i64. by rewrite bool_decide_eq_true_2. Qed.

Lemma i32_out z : ~ in_s 32 z -> i32 z = None.
Proof. intros H. unfold i32. by rewrite bool_decide_eq_false_2. Qed.

Lemma int_bounds z : - 2147483648 <= z < 2147483648 -> in_s 32 z.
Proof. done. Qed.

Lemma long_bounds z : - 9223372036854775808 <= z < 9223372036854775808 -> in_s 64 z.
Proof. done. Qed.

(** Step over the checks of a computation whose results are in range. *)
Ltac in_range := first [apply int_bounds | apply long_bounds]; lia.
Ltac check_one :=
  lazymatch goal with
  | |- mbind _ (i32 ?z) = _ => rewrite (i32_in z) by in_range
  | |- mbind _ (i64 ?z) = _ => rewrite (i64_in z) by in_range
  end; cbn [mbind option_bind].
Ltac checked := repeat check_one.
