(* ===== verification/CMem.v ===== *)
(** * The C memory

    Objects are blocks of cells, as in CompCert: a pointer is a block number
    and an offset, distinct objects never overlap, and an access outside an
    object, to a freed object or through the null pointer has no result
    (undefined behaviour).  A cell holds a byte, one of the eight bytes of a
    stored pointer, or nothing yet.  Little-endian, 64-bit pointers: the
    layout of the arm64 and x86-64 targets the application is built for. *)
From S2P Require Import Prelude CBuf.

(** ** Pointers *)

Record ptr := mk_ptr { blk : Z; off : Z }.

(** [NULL] is offset 0 of block 0, a block no memory ever holds. *)
Definition NULL : ptr := mk_ptr 0 0.

Definition ptr_add (p : ptr) (n : Z) : ptr := mk_ptr (blk p) (off p + n).

#[global] Instance ptr_eq_dec : EqDecision ptr.
Proof. solve_decision. Defined.

Lemma ptr_add_0 p : ptr_add p 0 = p.
Proof. destruct p. unfold ptr_add. cbn. f_equal. lia. Qed.

Lemma ptr_add_add p a b : ptr_add (ptr_add p a) b = ptr_add p (a + b).
Proof. unfold ptr_add. cbn. f_equal. lia. Qed.

(** ** Cells and blocks *)

Inductive cell :=
| Undef
| Byte (b : Z)
| Frag (p : ptr) (i : Z).

#[global] Instance cell_eq_dec : EqDecision cell.
Proof. solve_decision. Defined.

(** [blocks] maps the live objects to their contents; [next] is a block
    number no object has had yet. *)
Record mem := mk_mem { blocks : gmap Z (list cell); next : Z }.

(** ** Accesses *)

(** The [n] cells at [p], when they all lie inside a live object. *)
Definition load_cells (m : mem) (p : ptr) (n : Z) : option (list cell) :=
  match blocks m !! blk p with
  | Some cs =>
      if bool_decide (0 <= off p /\ 0 <= n /\ off p + n <= Z.of_nat (length cs))
      then Some (take (Z.to_nat n) (drop (Z.to_nat (off p)) cs))
      else None
  | None => None
  end.

(** Overwrite the cells at [p]; only inside a live object. *)
Definition store_cells (m : mem) (p : ptr) (v : list cell) : option mem :=
  match blocks m !! blk p with
  | Some cs =>
      if bool_decide (0 <= off p /\ off p + Z.of_nat (length v) <= Z.of_nat (length cs))
      then Some (mk_mem (<[blk p := splice (Z.to_nat (off p)) v cs]> (blocks m))
                        (next m))
      else None
  | None => None
  end.

(** A new object of [n] uninitialised bytes. *)
Definition alloc (m : mem) (n : Z) : ptr * mem :=
  (mk_ptr (next m) 0,
   mk_mem (<[next m := replicate (Z.to_nat n) Undef]> (blocks m)) (next m + 1)).

(** End the life of an object; only through a pointer to its first byte. *)
Definition free (m : mem) (p : ptr) : option mem :=
  match blocks m !! blk p with
  | Some _ => if bool_decide (off p = 0)
              then Some (mk_mem (delete (blk p) (blocks m)) (next m)) else None
  | None => None
  end.

(** ** Values *)

(** The bytes of a range; none of its cells may be anything else. *)
Fixpoint all_bytes (cs : list cell) : option (list Z) :=
  match cs with
  | [] => Some []
  | Byte b :: cs' =>
      if bool_decide (in_u 8 b)
      then match all_bytes cs' with Some l => Some (b :: l) | None => None end
      else None
  | _ => None
  end.

(** Little-endian integers. *)
Fixpoint le_combine (bs : list Z) : Z :=
  match bs with
  | [] => 0
  | b :: bs' => b + 2 ^ 8 * le_combine bs'
  end.

Fixpoint le_split (n : nat) (z : Z) : list Z :=
  match n with
  | O => []
  | S n' => z mod 2 ^ 8 :: le_split n' (z / 2 ^ 8)
  end.

Definition load_bytes (m : mem) (p : ptr) (n : Z) : option (list Z) :=
  match load_cells m p n with Some cs => all_bytes cs | None => None end.

Definition store_bytes (m : mem) (p : ptr) (bs : list Z) : option mem :=
  store_cells m p (Byte <$> bs).

(** An unsigned integer of [n] bytes; its signed reading is [wraps (8 * n)]. *)
Definition load_int (m : mem) (p : ptr) (n : Z) : option Z :=
  match load_bytes m p n with Some bs => Some (le_combine bs) | None => None end.

Definition store_int (m : mem) (p : ptr) (n : Z) (z : Z) : option mem :=
  store_bytes m p (le_split (Z.to_nat n) z).

Definition ptr_size : Z := 8.

Definition ptr_cells (p : ptr) : list cell :=
  if bool_decide (p = NULL) then replicate 8 (Byte 0)
  else Frag p <$> [0; 1; 2; 3; 4; 5; 6; 7].

(** A pointer in memory is eight fragments of one pointer, in order, or eight
    zero bytes: a zeroed structure holds null pointers. *)
Definition load_ptr (m : mem) (p : ptr) : option ptr :=
  match load_cells m p ptr_size with
  | Some ((Frag q 0 :: _) as cs) => if bool_decide (cs = ptr_cells q) then Some q else None
  | Some cs => if bool_decide (cs = ptr_cells NULL) then Some NULL else None
  | None => None
  end.

Definition store_ptr (m : mem) (p q : ptr) : option mem := store_cells m p (ptr_cells q).

(** [memset] to zero and [memcpy]. *)
Definition mem_zero (m : mem) (p : ptr) (n : Z) : option mem :=
  store_cells m p (replicate (Z.to_nat n) (Byte 0)).

Definition mem_copy (m : mem) (dst src : ptr) (n : Z) : option mem :=
  match load_cells m src n with Some cs => store_cells m dst cs | None => None end.

(** [realloc]: a new object that keeps the common prefix; the old object, if
    any, dies.  ([realloc(NULL, n)] is [malloc(n)].) *)
Definition realloc_ok (m : mem) (p : ptr) (n : Z) : option (ptr * mem) :=
  if bool_decide (p = NULL) then Some (alloc m n)
  else match blocks m !! blk p with
       | Some old =>
           match free m p with
           | Some m1 =>
               let '(q, m2) := alloc m1 n in
               match store_cells m2 q (take (Z.to_nat n) old) with
               | Some m3 => Some (q, m3)
               | None => None
               end
           | None => None
           end
       | None => None
       end.

(** ** Lemmas: little-endian integers *)

Lemma length_le_split n z : length (le_split n z) = n.
Proof. revert z. induction n; intros; cbn; auto. Qed.

Lemma le_split_bytes n z : Forall (in_u 8) (le_split n z).
Proof.
  revert z. induction n; intros; cbn; constructor; auto.
  apply (wrapu_range 8). lia.
Qed.

Lemma le_combine_split n z : le_combine (le_split n z) = z mod 2 ^ (8 * Z.of_nat n).
Proof.
  revert z. induction n as [|n IH]; intros; cbn [le_split le_combine].
  - by rewrite Z.mod_1_r.
  - rewrite IH. replace (8 * Z.of_nat (S n)) with (8 + 8 * Z.of_nat n) by lia.
    rewrite Z.pow_add_r by lia. rewrite Z.rem_mul_r by lia. lia.
Qed.

Lemma le_combine_bound bs :
  Forall (in_u 8) bs -> in_u (8 * Z.of_nat (length bs)) (le_combine bs).
Proof.
  unfold in_u. induction 1 as [|b bs Hb _ IH]; cbn [le_combine length].
  - done.
  - replace (8 * Z.of_nat (S (length bs))) with (8 + 8 * Z.of_nat (length bs)) by lia.
    rewrite Z.pow_add_r by lia. nia.
Qed.

Lemma pow8_S n : 2 ^ (8 * Z.of_nat (S n)) = 256 * 2 ^ (8 * Z.of_nat n).
Proof. replace (8 * Z.of_nat (S n)) with (8 + 8 * Z.of_nat n) by lia. by rewrite Z.pow_add_r by lia. Qed.

Lemma le_combine_app l1 l2 :
  le_combine (l1 ++ l2) = le_combine l1 + 2 ^ (8 * Z.of_nat (length l1)) * le_combine l2.
Proof.
  induction l1 as [|b l1 IH]; [cbn [app le_combine length]; change (2 ^ (8 * Z.of_nat 0)) with 1; lia|].
  cbn [app le_combine length]. rewrite IH, pow8_S. lia.
Qed.

Lemma le_split_combine bs :
  Forall (in_u 8) bs -> le_split (length bs) (le_combine bs) = bs.
Proof.
  induction 1 as [|b bs Hb _ IH]; cbn [le_split le_combine length]; [done|].
  unfold in_u in Hb. f_equal.
  - rewrite (Z.mul_comm (2 ^ 8)), Z_mod_plus_full. by apply Z.mod_small.
  - rewrite (Z.mul_comm (2 ^ 8)), Z.div_add, Z.div_small by lia. exact IH.
Qed.

Lemma all_bytes_fmap bs : Forall (in_u 8) bs -> all_bytes (Byte <$> bs) = Some bs.
Proof.
  induction 1 as [|b bs Hb _ IH]; cbn; [done|].
  by rewrite bool_decide_eq_true_2, IH by done.
Qed.

Lemma all_bytes_Some cs bs :
  all_bytes cs = Some bs -> cs = Byte <$> bs /\ Forall (in_u 8) bs.
Proof.
  revert bs. induction cs as [|c cs IH]; intros bs; cbn; [by intros [= <-]|].
  destruct c; try done. case_bool_decide; [|done].
  destruct (all_bytes cs) eqn:E; [|done].
  intros [= <-]. destruct (IH l eq_refl) as [-> ?]. split; [done|]. by constructor.
Qed.

(** ** Lemmas: reading what was written *)

Create HintDb cmem.

Lemma load_cells_Some m p n cs :
  load_cells m p n = Some cs <->
  exists bl, blocks m !! blk p = Some bl /\ 0 <= off p /\ 0 <= n /\
    off p + n <= Z.of_nat (length bl) /\
    cs = take (Z.to_nat n) (drop (Z.to_nat (off p)) bl).
Proof.
  unfold load_cells. destruct (blocks m !! blk p) as [bl|].
  - case_bool_decide as Hr; split.
    + intros [= <-]. exists bl. tauto.
    + intros (bl' & [= <-] & _ & _ & _ & ->). done.
    + done.
    + intros (bl' & [= <-] & ?). tauto.
  - split; [done|]. by intros (bl' & ? & _).
Qed.

Lemma load_cells_length m p n cs :
  load_cells m p n = Some cs -> Z.of_nat (length cs) = n.
Proof.
  intros (bl & _ & ? & ? & ? & ->)%load_cells_Some.
  rewrite length_take, length_drop. lia.
Qed.

Lemma store_cells_Some m p v m' :
  store_cells m p v = Some m' <->
  exists bl, blocks m !! blk p = Some bl /\ 0 <= off p /\
    off p + Z.of_nat (length v) <= Z.of_nat (length bl) /\
    m' = mk_mem (<[blk p := splice (Z.to_nat (off p)) v bl]> (blocks m)) (next m).
Proof.
  unfold store_cells. destruct (blocks m !! blk p) as [bl|].
  - case_bool_decide as Hr; split.
    + intros [= <-]. exists bl. tauto.
    + intros (bl' & [= <-] & _ & _ & ->). done.
    + done.
    + intros (bl' & [= <-] & ?). tauto.
  - split; [done|]. by intros (bl' & ? & _).
Qed.

(** A store succeeds exactly where a load of that length does. *)
Lemma store_cells_ok m p v cs :
  load_cells m p (Z.of_nat (length v)) = Some cs -> exists m', store_cells m p v = Some m'.
Proof.
  intros (bl & ? & ? & ? & ? & _)%load_cells_Some.
  eexists. apply store_cells_Some. eauto.
Qed.

Lemma store_cells_load m p v m' :
  store_cells m p v = Some m' -> exists cs, load_cells m p (Z.of_nat (length v)) = Some cs.
Proof.
  intros (bl & ? & ? & ? & _)%store_cells_Some. eexists. apply load_cells_Some.
  exists bl. split_and!; [done|lia|lia|done|done].
Qed.

Lemma load_store_same m p v m' :
  store_cells m p v = Some m' -> load_cells m' p (Z.of_nat (length v)) = Some v.
Proof.
  intros (bl & Hb & ? & ? & ->)%store_cells_Some. apply load_cells_Some.
  eexists. cbn. rewrite lookup_insert_eq. split; [done|].
  rewrite length_splice by lia. split_and!; try lia.
  rewrite Nat2Z.id, splice_read by lia. done.
Qed.

Lemma load_store_block m p v m' q n :
  store_cells m p v = Some m' -> blk p <> blk q -> load_cells m' q n = load_cells m q n.
Proof.
  intros (bl & Hb & ? & ? & ->)%store_cells_Some Hne.
  unfold load_cells. cbn. by rewrite lookup_insert_ne.
Qed.

Lemma load_store_disjoint m p v m' q n :
  store_cells m p v = Some m' ->
  blk p <> blk q \/ off q + n <= off p \/ off p + Z.of_nat (length v) <= off q ->
  load_cells m' q n = load_cells m q n.
Proof.
  intros Hs Hd. destruct (decide (blk p = blk q)) as [He|]; [|by eapply load_store_block].
  apply store_cells_Some in Hs as (bl & Hb & ? & ? & ->).
  unfold load_cells. cbn. rewrite <- He, lookup_insert_eq, Hb.
  rewrite length_splice by lia. case_bool_decide; [|done]. f_equal.
  destruct Hd as [?|[?|?]]; [done|apply splice_read_before|apply splice_read_after]; lia.
Qed.

Lemma load_bytes_Some m p n bs :
  load_bytes m p n = Some bs ->
  load_cells m p n = Some (Byte <$> bs) /\ Forall (in_u 8) bs /\ Z.of_nat (length bs) = n.
Proof.
  unfold load_bytes. destruct (load_cells m p n) as [cs|] eqn:E; [|done].
  intros [-> Hb]%all_bytes_Some. apply load_cells_length in E as Hl.
  rewrite length_fmap in Hl. done.
Qed.

Lemma load_int_range m p n z : load_int m p n = Some z -> in_u (8 * n) z.
Proof.
  unfold load_int. destruct (load_bytes m p n) as [bs|] eqn:E; [|done].
  intros [= <-]. apply load_bytes_Some in E as (_ & Hb & <-). by apply le_combine_bound.
Qed.

(** Splitting and joining adjacent ranges. *)
Lemma load_store_int m p n z m' :
  0 <= n -> store_int m p n z = Some m' -> load_int m' p n = Some (z mod 2 ^ (8 * n)).
Proof.
  intros Hn Hst. unfold store_int, store_bytes in Hst. apply load_store_same in Hst.
  rewrite length_fmap, length_le_split, Z2Nat.id in Hst by done.
  unfold load_int, load_bytes. rewrite Hst, all_bytes_fmap by apply le_split_bytes.
  rewrite le_combine_split, Z2Nat.id by done. done.
Qed.

Lemma store_int_ok m p n z cs :
  load_cells m p n = Some cs -> exists m', store_int m p n z = Some m'.
Proof.
  intros Hl. unfold store_int, store_bytes. apply (store_cells_ok _ _ _ cs).
  apply load_cells_Some in Hl as Hl'. destruct Hl' as (_ & _ & _ & Hn & _).
  rewrite length_fmap, length_le_split, Z2Nat.id by done. done.
Qed.

Lemma load_cells_app m p a b x y :
  load_cells m p a = Some x -> load_cells m (ptr_add p a) b = Some y ->
  load_cells m p (a + b) = Some (x ++ y).
Proof.
  intros (bl & Hb & ? & ? & ? & ->)%load_cells_Some (bl' & Hb' & ? & ? & ? & ->)%load_cells_Some.
  cbn in *. rewrite Hb in Hb'. injection Hb' as <-.
  apply load_cells_Some. exists bl. split_and!; [done|lia..|].
  rewrite !Z2Nat.inj_add by lia.
  by rewrite <- (drop_drop bl), <- take_take_drop.
Qed.

Lemma load_cells_split m p a b cs :
  0 <= a -> 0 <= b -> load_cells m p (a + b) = Some cs ->
  load_cells m p a = Some (take (Z.to_nat a) cs) /\
  load_cells m (ptr_add p a) b = Some (drop (Z.to_nat a) cs).
Proof.
  intros Ha Hb' (bl & Hb & ? & ? & ? & ->)%load_cells_Some.
  split; apply load_cells_Some; exists bl; cbn.
  - rewrite take_take. split_and!; [done|lia..|]. f_equal. lia.
  - rewrite skipn_firstn_comm, drop_drop. split_and!; [done|lia..|].
    f_equal; [lia|]. f_equal. lia.
Qed.

Lemma load_cells_0 m p n cs : load_cells m p n = Some cs -> load_cells m p 0 = Some [].
Proof.
  intros (bl & ? & ? & ? & ? & _)%load_cells_Some. apply load_cells_Some.
  exists bl. split_and!; auto; lia.
Qed.

(** Allocation does not disturb the live objects of a well-formed memory. *)
Definition mem_wf (m : mem) : Prop :=
  0 < next m /\ blocks m !! 0 = None /\ forall b, next m <= b -> blocks m !! b = None.

Lemma alloc_wf m n p m' : mem_wf m -> alloc m n = (p, m') -> mem_wf m'.
Proof.
  intros (H0 & Hn & Hw) [= <- <-]. split_and!; cbn; [lia| |].
  - rewrite lookup_insert_ne by lia. done.
  - intros b ?. rewrite lookup_insert_ne by lia. apply Hw. lia.
Qed.

Lemma alloc_load m n p m' q k cs :
  mem_wf m -> alloc m n = (p, m') -> load_cells m q k = Some cs ->
  load_cells m' q k = Some cs /\ blk q <> blk p.
Proof.
  intros (H0 & Hn & Hw) [= <- <-] (bl & Hb & ?)%load_cells_Some. cbn.
  assert (blk q <> next m).
  { intros He. rewrite He, Hw in Hb; [done|lia]. }
  split; [|done]. apply load_cells_Some. exists bl. cbn.
  rewrite lookup_insert_ne by done. done.
Qed.

Lemma store_cells_wf m p v m' : mem_wf m -> store_cells m p v = Some m' -> mem_wf m'.
Proof.
  intros (H0 & Hn & Hw) (bl & Hb & ? & ? & ->)%store_cells_Some. split_and!; cbn; [lia| |].
  - rewrite lookup_insert_ne; [done|]. intros He. rewrite He in Hb. congruence.
  - intros b ?. rewrite lookup_insert_ne; [by apply Hw|].
    intros He. rewrite He, Hw in Hb; done.
Qed.

#[export] Hint Resolve store_cells_wf load_store_same : cmem.

(** Two adjacent stores are one store. *)
Lemma store_cells_app m p a b :
  store_cells m p (a ++ b) =
  match store_cells m p a with
  | Some m1 => store_cells m1 (ptr_add p (Z.of_nat (length a))) b
  | None => None
  end.
Proof.
  unfold store_cells. destruct (blocks m !! blk p) as [bl|] eqn:Hb; [|done].
  rewrite length_app. cbn [blk off ptr_add].
  repeat case_bool_decide; cbn [blocks blk off ptr_add next]; try lia; try done.
  - rewrite lookup_insert_eq. rewrite length_splice by lia.
    rewrite bool_decide_eq_true_2 by lia. do 2 f_equal.
    rewrite insert_insert_eq. f_equal. rewrite <- splice_splice by lia. f_equal. lia.
  - rewrite lookup_insert_eq. rewrite length_splice by lia.
    by rewrite bool_decide_eq_false_2 by lia.
Qed.

Lemma store_cells_nil m p cs n : load_cells m p n = Some cs -> store_cells m p [] = Some m.
Proof.
  intros (bl & Hb & ? & ? & ? & _)%load_cells_Some. apply store_cells_Some.
  exists bl. cbn. split_and!; [done|lia|lia|]. destruct m as [bs nx]. cbn in *. f_equal.
  unfold splice. cbn. rewrite Nat.add_0_r, take_drop. by rewrite insert_id.
Qed.

(** What a store leaves of a larger window that contains it. *)
Lemma store_window m p v m' n cs :
  store_cells m p v = Some m' -> load_cells m p n = Some cs ->
  Z.of_nat (length v) <= n ->
  load_cells m' p n = Some (v ++ drop (length v) cs).
Proof.
  intros Hs Hl Hn.
  replace n with (Z.of_nat (length v) + (n - Z.of_nat (length v))) in Hl |- * by lia.
  apply load_cells_split in Hl as [_ Hl]; [|lia..].
  apply load_cells_app; [by eapply load_store_same|].
  erewrite load_store_disjoint; [rewrite Hl; do 2 f_equal; lia|exact Hs|]. cbn. lia.
Qed.

(** ** Memories that agree outside one object *)

Definition frame (B : Z) (m0 m : mem) : Prop :=
  blocks m0 !! B = None /\ forall b, b <> B -> blocks m0 !! b = blocks m !! b.

Lemma frame_load B m0 m p n cs :
  frame B m0 m -> load_cells m0 p n = Some cs -> load_cells m p n = Some cs /\ blk p <> B.
Proof.
  intros [Hn Ha] (bl & Hb & ?)%load_cells_Some.
  assert (blk p <> B) as Hne by (intros He; rewrite He in Hb; congruence).
  split; [|done]. apply load_cells_Some. exists bl. by rewrite <- Ha.
Qed.

Lemma frame_store B m0 m p v m' :
  frame B m0 m -> blk p = B -> store_cells m p v = Some m' -> frame B m0 m'.
Proof.
  intros [Hn Ha] HB (bl & Hb & ? & ? & ->)%store_cells_Some. split; [done|].
  intros b Hne. cbn. rewrite lookup_insert_ne by congruence. by apply Ha.
Qed.

Lemma frame_load_bytes B m0 m p n bs :
  frame B m0 m -> load_bytes m0 p n = Some bs -> load_bytes m p n = Some bs.
Proof.
  intros Hf. unfold load_bytes. destruct (load_cells m0 p n) eqn:E; [|done].
  by destruct (frame_load _ _ _ _ _ _ Hf E) as [-> _].
Qed.

Lemma frame_load_int B m0 m p n z :
  frame B m0 m -> load_int m0 p n = Some z -> load_int m p n = Some z.
Proof.
  intros Hf. unfold load_int. destruct (load_bytes m0 p n) eqn:E; [|done].
  by rewrite (frame_load_bytes _ _ _ _ _ _ Hf E).
Qed.

Lemma frame_load_ptr B m0 m p q :
  frame B m0 m -> load_ptr m0 p = Some q -> load_ptr m p = Some q.
Proof.
  intros Hf. unfold load_ptr. destruct (load_cells m0 p ptr_size) eqn:E; [|done].
  by destruct (frame_load _ _ _ _ _ _ Hf E) as [-> _].
Qed.

#[export] Hint Resolve frame_load_int frame_load_ptr frame_load_bytes frame_store : cmem.
