(* ===== verification/PbCore.v ===== *)
(** * nanopb: streams, field descriptors and the error-state monad

    Models the declarations of [pb.h], [pb_encode.h] and [pb_decode.h] in the
    configuration the application builds nanopb with
    ([PB_FIELD_32BIT=1 PB_NO_PACKED_STRUCTS=1 PB_ENABLE_MALLOC=1], see
    Pods/Target Support Files/nanopb/nanopb.release.xcconfig): [pb_size_t] is
    [uint32_t], 64-bit integers and error messages are enabled. *)
From S2P Require Import Prelude CMem.

(** ** The monad of the library's functions

    Almost every nanopb function returns [bool], changes the stream it is
    given and the message in memory, and passes a failure of a callee on to
    its own caller ([if (!f(...)) return false;]).  [M S A] is that protocol:
    [Ret] is the return of [true], [Fail] the return of [false], both with the
    final stream and memory; [Undefined] is C's undefined behaviour, and
    [NoFuel] says that the fuel given to a recursive model function was too
    small, which the termination theorems exclude. *)
Inductive outcome (S A : Type) :=
| Ret (a : A) (s : S) (m : mem)
| Fail (s : S) (m : mem)
| Undefined
| NoFuel.
Arguments Ret {S A}. Arguments Fail {S A}.
Arguments Undefined {S A}. Arguments NoFuel {S A}.

Definition M (S A : Type) : Type := S -> mem -> outcome S A.

#[export] Instance M_ret S : MRet (M S) := fun A a s m => Ret a s m.

#[export] Instance M_bind S : MBind (M S) := fun A B k c s m =>
  match c s m with
  | Ret a s' m' => k a s' m'
  | Fail s' m' => Fail s' m'
  | Undefined => Undefined
  | NoFuel => NoFuel
  end.

Section Monad.
Context {S : Type}.

Definition return_false {A} : M S A := fun s m => Fail s m.
Definition undefined {A} : M S A := fun _ _ => Undefined.
Definition no_fuel {A} : M S A := fun _ _ => NoFuel.
Definition get : M S S := fun s m => Ret s s m.
Definition put (s' : S) : M S unit := fun _ m => Ret tt s' m.

(** Run [c] and hand its boolean result to the caller. *)
Definition status (c : M S unit) : M S bool := fun s m =>
  match c s m with
  | Ret _ s' m' => Ret true s' m'
  | Fail s' m' => Ret false s' m'
  | Undefined => Undefined
  | NoFuel => NoFuel
  end.

(** Return with a boolean. *)
Definition return_bool (b : bool) : M S unit := if b then mret tt else return_false.

(** Memory operations: undefined where the access is. *)
Definition of_option {A} (o : option A) : M S A := fun s m =>
  match o with Some a => Ret a s m | None => Undefined end.
Definition reading {A} (f : mem -> option A) : M S A := fun s m =>
  match f m with Some a => Ret a s m | None => Undefined end.
Definition writing (f : mem -> option mem) : M S unit := fun s m =>
  match f m with Some m' => Ret tt s m' | None => Undefined end.
End Monad.

(** Run a computation on another stream and keep the current one: what the C
    code does with a local [substream].  The result holds the final substream
    and the callee's boolean. *)
Definition on_stream {S} (sub : S) (c : M S unit) : M S (bool * S) := fun s m =>
  match c sub m with
  | Ret _ sub' m' => Ret (true, sub') s m'
  | Fail sub' m' => Ret (false, sub') s m'
  | Undefined => Undefined
  | NoFuel => NoFuel
  end.

(** [PB_SET_ERROR] and [PB_RETURN_ERROR]: the first message stays. *)
Class HasErrmsg (S : Type) := {
  get_errmsg : S -> option string;
  set_errmsg : option string -> S -> S }.

Definition PB_SET_ERROR {S} `{HasErrmsg S} (msg : string) (s : S) : S :=
  match get_errmsg s with Some _ => s | None => set_errmsg (Some msg) s end.

Definition PB_RETURN_ERROR {S A} `{HasErrmsg S} (msg : string) : M S A :=
  fun s m => Fail (PB_SET_ERROR msg s) m.

(** ** Streams *)

Record pb_ostream := mk_ostream {
  o_callback : ptr;
  o_state : ptr;
  max_size : Z;
  bytes_written : Z;
  o_errmsg : option string }.

Record pb_istream := mk_istream {
  i_callback : ptr;
  i_state : ptr;
  bytes_left : Z;
  i_errmsg : option string }.

#[export] Instance ostream_errmsg : HasErrmsg pb_ostream := {|
  get_errmsg := o_errmsg;
  set_errmsg e s := mk_ostream (o_callback s) (o_state s) (max_size s) (bytes_written s) e |}.

#[export] Instance istream_errmsg : HasErrmsg pb_istream := {|
  get_errmsg := i_errmsg;
  set_errmsg e s := mk_istream (i_callback s) (i_state s) (bytes_left s) e |}.

Definition PB_OSTREAM_SIZING : pb_ostream := mk_ostream NULL NULL 0 0 None.

(** The two callbacks of the library itself, as code addresses. *)
Definition buf_write_fn : ptr := mk_ptr (-1) 0.
Definition buf_read_fn : ptr := mk_ptr (-2) 0.

(** ** Field descriptors *)

Definition SIZE_MAX : Z := 2 ^ 64 - 1.
Definition PB_SIZE_MAX : Z := 2 ^ 32 - 1.
Definition sizeof_pb_size_t : Z := 4.
Definition PB_MAX_REQUIRED_FIELDS : Z := 64.

Record pb_field := mk_field {
  tag : Z;
  type : Z;
  data_offset : Z;
  size_offset : Z;
  data_size : Z;
  array_size : Z;
  field_ptr : ptr }.

Definition PB_LAST_FIELD : pb_field := mk_field 0 0 0 0 0 0 NULL.

Definition PB_LTYPE_BOOL := 0x00.
Definition PB_LTYPE_VARINT := 0x01.
Definition PB_LTYPE_UVARINT := 0x02.
Definition PB_LTYPE_SVARINT := 0x03.
Definition PB_LTYPE_FIXED32 := 0x04.
Definition PB_LTYPE_FIXED64 := 0x05.
Definition PB_LTYPE_LAST_PACKABLE := 0x05.
Definition PB_LTYPE_BYTES := 0x06.
Definition PB_LTYPE_STRING := 0x07.
Definition PB_LTYPE_SUBMESSAGE := 0x08.
Definition PB_LTYPE_EXTENSION := 0x09.
Definition PB_LTYPE_FIXED_LENGTH_BYTES := 0x0A.
Definition PB_LTYPE_MASK := 0x0F.

Definition PB_HTYPE_REQUIRED := 0x00.
Definition PB_HTYPE_OPTIONAL := 0x10.
Definition PB_HTYPE_REPEATED := 0x20.
Definition PB_HTYPE_ONEOF := 0x30.
Definition PB_HTYPE_MASK := 0x30.

Definition PB_ATYPE_STATIC := 0x00.
Definition PB_ATYPE_POINTER := 0x80.
Definition PB_ATYPE_CALLBACK := 0x40.
Definition PB_ATYPE_MASK := 0xC0.

Definition PB_ATYPE (x : Z) : Z := Z.land x PB_ATYPE_MASK.
Definition PB_HTYPE (x : Z) : Z := Z.land x PB_HTYPE_MASK.
Definition PB_LTYPE (x : Z) : Z := Z.land x PB_LTYPE_MASK.

(** Wire types; the decoder can also meet the values 3, 4, 6 and 7. *)
Definition PB_WT_VARINT := 0.
Definition PB_WT_64BIT := 1.
Definition PB_WT_STRING := 2.
Definition PB_WT_32BIT := 5.

(** [offsetof(pb_bytes_array_t, bytes)] and [PB_BYTES_ARRAY_T_ALLOCSIZE]. *)
Definition bytes_offset : Z := sizeof_pb_size_t.
Definition PB_BYTES_ARRAY_T_ALLOCSIZE (n : Z) : Z := wrapu 64 (n + bytes_offset).

(** Layouts of [pb_callback_t], [pb_extension_t] and [pb_extension_type_t]. *)
Definition callback_funcs_off : Z := 0.
Definition callback_arg_off : Z := 8.
Definition extension_type_off : Z := 0.
Definition extension_dest_off : Z := 8.
Definition extension_next_off : Z := 16.
Definition extension_found_off : Z := 24.
Definition extension_type_decode_off : Z := 0.
Definition extension_type_encode_off : Z := 8.
Definition extension_type_arg_off : Z := 16.

(** ** The program around the library

    Constant descriptor arrays by the block they live in, the functions the
    user of the library supplies by their code address, and the allocator's
    decision on whether a request succeeds.  User functions are arbitrary:
    the theorems that need something of them say so.  [env_ptr_byte p i] is the
    [i]-th byte of the machine representation of pointer [p]. *)
Record env := mk_env {
  env_fields : gmap Z (list pb_field);
  env_writer : ptr -> option (list cell -> M pb_ostream unit);
  env_reader : ptr -> option (Z -> M pb_istream (list Z));
  env_encode : ptr -> option (pb_field -> ptr -> M pb_ostream unit);
  env_decode : ptr -> option (pb_field -> ptr -> M pb_istream unit);
  env_ext_encode : ptr -> option (ptr -> M pb_ostream unit);
  env_ext_decode : ptr -> option (ptr -> Z -> Z -> M pb_istream unit);
  env_malloc_ok : mem -> Z -> bool;
  env_ptr_byte : ptr -> Z -> Z }.

(** The members of a descriptor are values of their C types. *)
Definition field_ok (f : pb_field) : Prop :=
  in_u 32 (tag f) /\ in_u 8 (type f) /\ in_u 32 (data_offset f) /\ in_s 32 (size_offset f) /\
  in_u 32 (data_size f) /\ in_u 32 (array_size f).

#[export] Instance field_ok_dec f : Decision (field_ok f).
Proof. unfold field_ok. apply _. Defined.

Definition env_ok (e : env) : Prop := map_Forall (fun _ fs => Forall field_ok fs) (env_fields e).

(** The descriptor array a pointer names. *)
Definition fields_at (e : env) (p : ptr) : option (list pb_field) :=
  if bool_decide (off p = 0) then env_fields e !! blk p else None.

(** A program without user functions whose allocator never fails. *)
Definition plain_env (fields : gmap Z (list pb_field)) : env :=
  mk_env fields (fun _ => None) (fun _ => None) (fun _ => None) (fun _ => None)
         (fun _ => None) (fun _ => None) (fun _ _ => true) (fun _ _ => 1).

(** ** Typed accesses *)
Section Access.
Context {S : Type}.
Definition load_u (w : Z) (p : ptr) : M S Z := reading (fun m => load_int m p (w / 8)).
Definition load_s (w : Z) (p : ptr) : M S Z := z ← load_u w p; mret (wraps w z).
Definition store_i (w : Z) (p : ptr) (z : Z) : M S unit :=
  writing (fun m => store_int m p (w / 8) z).
Definition load_size (p : ptr) : M S Z := load_u 32 p.
Definition store_size (p : ptr) (z : Z) : M S unit := store_i 32 p z.
Definition load_p (p : ptr) : M S ptr := reading (fun m => load_ptr m p).
Definition store_p (p q : ptr) : M S unit := writing (fun m => store_ptr m p q).
End Access.

(** ** Monad lemmas *)

Lemma bind_Ret {S A B} (c : M S A) (k : A -> M S B) s m a s' m' :
  c s m = Ret a s' m' -> (c ≫= k) s m = k a s' m'.
Proof. intros E. unfold mbind, M_bind. by rewrite E. Qed.

Lemma bind_Fail {S A B} (c : M S A) (k : A -> M S B) s m s' m' :
  c s m = Fail s' m' -> (c ≫= k) s m = Fail s' m'.
Proof. intros E. unfold mbind, M_bind. by rewrite E. Qed.

Lemma bind_inv {S A B} (c : M S A) (k : A -> M S B) s m b s' m' :
  (c ≫= k) s m = Ret b s' m' ->
  exists a s1 m1, c s m = Ret a s1 m1 /\ k a s1 m1 = Ret b s' m'.
Proof. unfold mbind, M_bind. destruct (c s m); try done. eauto. Qed.

Lemma mret_eq {S A} (a : A) (s : S) m : (mret a : M S A) s m = Ret a s m.
Proof. reflexivity. Qed.

(** [runs c s m s' m']: [c] returns [true]. *)
Definition runs {S A} (c : M S A) (s : S) (m : mem) (a : A) (s' : S) (m' : mem) : Prop :=
  c s m = Ret a s' m'.

(** Split a successful run at its binds. *)
Ltac inv_ret :=
  repeat match goal with
  | H : (_ ≫= _) _ _ = Ret _ _ _ |- _ =>
      let a := fresh "a" in let s := fresh "s" in let m := fresh "m" in
      let H1 := fresh "Hr" in
      apply bind_inv in H as (a & s & m & H1 & H)
  end.
