(* ===== verification/PbIter.v ===== *)
(** * nanopb: the field iterator ([pb_common.c])

    The iterator walks a descriptor array that ends in a field of tag 0 and
    keeps, next to the position, the address of the current member in the
    message structure.  It reads descriptors only, never the message, so its
    operations are pure functions; [None] is an access outside the array. *)
From S2P Require Import Prelude CMem PbCore.

Record pb_field_iter := mk_iter {
  start : list pb_field;
  pos : nat;
  required_field_index : Z;
  dest_struct : ptr;
  pData : ptr;
  pSize : ptr }.

Definition pb_field_iter_begin (fields : list pb_field) (dest : ptr)
  : option (bool * pb_field_iter) :=
  f ← fields !! 0%nat;
  let it :=
    if bool_decide (dest = NULL) then mk_iter fields 0 0 dest NULL NULL
    else let d := ptr_add dest (data_offset f) in
         mk_iter fields 0 0 dest d (ptr_add d (size_offset f)) in
  Some (bool_decide (tag f ≠ 0), it).

(** The distance from one member to the next ([prev_size] in the code). *)
Definition advance_size (prev : pb_field) : Z :=
  if bool_decide (PB_ATYPE (type prev) = PB_ATYPE_STATIC ∧
                  PB_HTYPE (type prev) = PB_HTYPE_REPEATED)
  then wrapu 64 (data_size prev * array_size prev)
  else if bool_decide (PB_ATYPE (type prev) = PB_ATYPE_POINTER) then ptr_size
  else data_size prev.

Definition inside_union (prev cur : pb_field) : bool :=
  bool_decide (PB_HTYPE (type prev) = PB_HTYPE_ONEOF ∧
               PB_HTYPE (type cur) = PB_HTYPE_ONEOF ∧
               data_offset cur = PB_SIZE_MAX).

Definition pb_field_iter_next (it : pb_field_iter) : option (bool * pb_field_iter) :=
  prev ← start it !! pos it;
  if bool_decide (tag prev = 0) then Some (false, it)
  else
    cur ← start it !! S (pos it);
    if bool_decide (tag cur = 0) then
      '(_, it') ← pb_field_iter_begin (start it) (dest_struct it);
      Some (false, it')
    else if inside_union prev cur then
      Some (true, mk_iter (start it) (S (pos it)) (required_field_index it)
                          (dest_struct it) (pData it) (pSize it))
    else
      let prev_size := advance_size prev in
      let req := if bool_decide (PB_HTYPE (type prev) = PB_HTYPE_REQUIRED)
                 then wrapu 32 (required_field_index it + 1)
                 else required_field_index it in
      let d := ptr_add (pData it) (prev_size + data_offset cur) in
      Some (true, mk_iter (start it) (S (pos it)) req (dest_struct it) d
                          (ptr_add d (size_offset cur))).

(** The [do .. while (iter->pos != start)] loops stop when the position comes
    back to where the search began; [fuel] bounds the rounds, [None] when it
    runs out, and [search_fuel] is shown to be enough. *)
Fixpoint iter_search (fuel : nat) (found : pb_field -> bool) (start_pos : nat)
    (it : pb_field_iter) : option (bool * pb_field_iter) :=
  match fuel with
  | O => None
  | S fuel =>
      f ← start it !! pos it;
      if found f then Some (true, it)
      else
        '(_, it') ← pb_field_iter_next it;
        if bool_decide (pos it' = start_pos) then Some (false, it')
        else iter_search fuel found start_pos it'
  end.

Lemma iter_search_S fuel found s0 it :
  iter_search (S fuel) found s0 it =
  (f ← start it !! pos it;
   if found f then Some (true, it)
   else '(_, it') ← pb_field_iter_next it;
        if bool_decide (pos it' = s0) then Some (false, it')
        else iter_search fuel found s0 it').
Proof. reflexivity. Qed.

Definition search_fuel (it : pb_field_iter) : nat := S (length (start it)).

Definition is_wanted (t : Z) (f : pb_field) : bool :=
  bool_decide (tag f = t ∧ PB_LTYPE (type f) ≠ PB_LTYPE_EXTENSION).

Definition pb_field_iter_find (it : pb_field_iter) (t : Z) : option (bool * pb_field_iter) :=
  iter_search (search_fuel it) (is_wanted t) (pos it) it.

Definition is_extension (f : pb_field) : bool :=
  bool_decide (PB_LTYPE (type f) = PB_LTYPE_EXTENSION).

(** [find_extension_field] of [pb_decode.c], the same loop. *)
Definition find_extension_field (it : pb_field_iter) : option (bool * pb_field_iter) :=
  iter_search (search_fuel it) is_extension (pos it) it.

(** ** Descriptor arrays and positions *)

(** A descriptor array: proper fields, then the terminator. *)
Record fields_wf (fields : list pb_field) (n : nat) : Prop := {
  fw_length : length fields = S n;
  fw_proper : forall i f, (i < n)%nat -> fields !! i = Some f -> tag f ≠ 0;
  fw_last : forall f, fields !! n = Some f -> tag f = 0 }.

(** The index of the required field at position [i]: how many required fields
    come before it, unless the step into the position is inside a union. *)
Fixpoint layout_at (fields : list pb_field) (base : ptr) (i : nat) : option (ptr * Z) :=
  match i with
  | O => f ← fields !! 0%nat; Some (ptr_add base (data_offset f), 0)
  | S i' =>
      '(d, r) ← layout_at fields base i';
      prev ← fields !! i';
      cur ← fields !! S i';
      if inside_union prev cur then Some (d, r)
      else Some (ptr_add d (advance_size prev + data_offset cur),
                 if bool_decide (PB_HTYPE (type prev) = PB_HTYPE_REQUIRED)
                 then wrapu 32 (r + 1) else r)
  end.

(** The iterator state that belongs to position [i] of the message at [dest]. *)
Definition iter_at (fields : list pb_field) (dest : ptr) (i : nat) (it : pb_field_iter) : Prop :=
  start it = fields ∧ pos it = i ∧ dest_struct it = dest ∧
  layout_at fields dest i = Some (pData it, required_field_index it).

Section Iterator.
Context (fields : list pb_field) (n : nat) (dest : ptr).
Hypothesis wf : fields_wf fields n.
Hypothesis nonempty : (0 < n)%nat.
Hypothesis dest_nonnull : dest ≠ NULL.

Lemma fields_lookup i : (i <= n)%nat -> exists f, fields !! i = Some f.
Proof.
  intros. apply lookup_lt_is_Some. rewrite (fw_length _ _ wf). lia.
Qed.

Lemma begin_spec :
  exists it, pb_field_iter_begin fields dest = Some (true, it) ∧ iter_at fields dest 0 it.
Proof.
  destruct (fields_lookup 0) as [f Hf]; [lia|].
  unfold pb_field_iter_begin. rewrite Hf. cbn.
  rewrite bool_decide_eq_true_2 by (eapply fw_proper; eauto).
  rewrite bool_decide_eq_false_2 by done.
  eexists; split; [done|]. unfold iter_at. cbn. by rewrite Hf.
Qed.

(** One step: the next position, or back to the first after the last. *)
Lemma next_spec i it :
  (i < n)%nat -> iter_at fields dest i it ->
  exists b it', pb_field_iter_next it = Some (b, it') ∧
    if bool_decide (S i < n)%nat then b = true ∧ iter_at fields dest (S i) it'
    else b = false ∧ iter_at fields dest 0 it'.
Proof.
  intros Hi (Hs & Hp & Hd & Hl). unfold pb_field_iter_next. rewrite Hs, Hp.
  destruct (fields_lookup i) as [f Hf]; [lia|].
  destruct (fields_lookup (S i)) as [g Hg]; [lia|].
  rewrite Hf. cbn [mbind option_bind].
  rewrite bool_decide_eq_false_2 by (eapply fw_proper; eauto).
  rewrite Hg. cbn [mbind option_bind].
  destruct (decide (S i < n)%nat) as [Hn|Hn].
  - rewrite (bool_decide_eq_true_2 (S i < n)%nat) by done.
    rewrite bool_decide_eq_false_2 by (eapply fw_proper; eauto).
    destruct (inside_union f g) eqn:Hu.
    + eexists _, _. split; [done|]. split; [done|].
      unfold iter_at. cbn [start pos dest_struct pData required_field_index].
      cbn [layout_at]. rewrite Hl, Hf. cbn. rewrite Hg. cbn. by rewrite Hu.
    + eexists _, _. split; [done|]. split; [done|].
      unfold iter_at. cbn [start pos dest_struct pData required_field_index].
      cbn [layout_at]. rewrite Hl, Hf. cbn. rewrite Hg. cbn. by rewrite Hu.
  - rewrite (bool_decide_eq_false_2 (S i < n)%nat) by done.
    assert (S i = n) as HSi by lia.
    rewrite bool_decide_eq_true_2 by (eapply (fw_last _ _ wf); by rewrite <- HSi).
    rewrite Hd. destruct begin_spec as (it' & Hb & Hat). rewrite Hb. cbn. eauto.
Qed.

(** The member address of a position is a function of the position: whatever
    way the iterator got there, it points at the same member. *)
Lemma iter_at_unique i it1 it2 :
  iter_at fields dest i it1 -> iter_at fields dest i it2 ->
  pData it1 = pData it2 ∧ required_field_index it1 = required_field_index it2.
Proof. intros (_ & _ & _ & H1) (_ & _ & _ & H2). rewrite H1 in H2. by injection H2. Qed.

Definition succ_pos (i : nat) : nat := if bool_decide (S i < n)%nat then S i else 0%nat.

(** The search examines the positions from the current one on, cyclically,
    and stops at the first that fits or after one full round. *)
Lemma search_spec found s0 k i it :
  (i < n)%nat -> (s0 < n)%nat -> iter_at fields dest i it ->
  (* [k] positions are left before the round is complete *)
  i = ((s0 + (n - k)) mod n)%nat -> (1 <= k <= n)%nat ->
  exists b it' j, iter_search (S k) found s0 it = Some (b, it') ∧
    (j < n)%nat ∧ iter_at fields dest j it' ∧
    if b then (exists f, fields !! j = Some f ∧ found f = true)
    else j = s0 ∧ forall d f, (n - k <= d < n)%nat ->
           fields !! ((s0 + d) mod n)%nat = Some f -> found f = false.
Proof.
  revert i it. induction k as [|k IH]; intros i it Hi Hs Hat Hik Hk; [lia|].
  pose proof Hat as (Hst & Hp & _ & _).
  rewrite iter_search_S, Hst, Hp.
  destruct (fields_lookup i) as [f Hf]; [lia|]. rewrite Hf. cbn [mbind option_bind].
  destruct (found f) eqn:Hfound.
  { eexists _, _, i. split; [done|]. eauto. }
  destruct (next_spec i it Hi Hat) as (b & it' & Hn & Hspec). rewrite Hn.
  cbn [mbind option_bind].
  assert (iter_at fields dest (succ_pos i) it') as Hat'.
  { unfold succ_pos. revert Hspec. case_bool_decide; tauto. }
  clear Hspec.
  assert (succ_pos i < n)%nat as Hsi by (unfold succ_pos; case_bool_decide; lia).
  assert (succ_pos i = (s0 + (n - k)) mod n)%nat as Hsucc.
  { unfold succ_pos. assert (s0 + (n - k) = s0 + (n - S k) + 1)%nat as -> by lia.
    rewrite <- Nat.Div0.add_mod_idemp_l, <- Hik.
    case_bool_decide.
    - rewrite Nat.mod_small; lia.
    - replace (i + 1)%nat with n by lia. by rewrite Nat.Div0.mod_same. }
  assert (forall g, fields !! ((s0 + (n - S k)) mod n)%nat = Some g -> found g = false) as Hhere.
  { intros g. rewrite <- Hik, Hf. by intros [= <-]. }
  pose proof Hat' as (_ & Hp' & _). rewrite Hp'.
  case_bool_decide as Hback.
  - eexists _, _, (succ_pos i). split; [done|]. split; [done|]. split; [done|].
    split; [done|]. intros d g Hd.
    assert (k = 0)%nat.
    { rewrite Hsucc in Hback. destruct (decide (k = 0)%nat); [done|].
      exfalso. destruct (decide (s0 + (n - k) < n))%nat.
      - rewrite Nat.mod_small in Hback; lia.
      - assert ((s0 + (n - k)) mod n = s0 + (n - k) - n)%nat as E.
        { symmetry. apply (Nat.mod_unique _ _ 1); lia. }
        lia. }
    replace d with (n - S k)%nat by lia. apply Hhere.
  - assert (1 <= k)%nat.
    { destruct k; [|lia]. exfalso. apply Hback. rewrite Hsucc.
      replace (s0 + (n - 0))%nat with (s0 + 1 * n)%nat by lia.
      rewrite Nat.Div0.mod_add, Nat.mod_small; lia. }
    destruct (IH (succ_pos i) it') as (b' & it'' & j & Hrun & Hj & Hatj & Hres);
      [done|done|done|done|lia|].
    eexists b', it'', j. split; [exact Hrun|]. split; [done|]. split; [done|].
    destruct b'; [done|]. destruct Hres as [-> Hall]. split; [done|].
    intros d g Hd. destruct (decide (d = n - S k)%nat) as [->|]; [apply Hhere|].
    apply Hall. lia.
Qed.

(** More fuel than one round changes nothing. *)
Lemma search_mono found s0 k k' it r :
  (k <= k')%nat -> iter_search k found s0 it = Some r -> iter_search k' found s0 it = Some r.
Proof.
  revert k' it. induction k as [|k IH]; intros k' it Hk; [done|].
  destruct k' as [|k']; [lia|]. cbn.
  destruct (start it !! pos it); cbn; [|done]. destruct (found p); [done|].
  destruct (pb_field_iter_next it) as [[b it']|]; cbn; [|done].
  case_bool_decide; [done|]. intros. apply IH; [lia|done].
Qed.

(** The complete specification of the two searches. *)
Lemma iter_search_spec found i it :
  (i < n)%nat -> iter_at fields dest i it ->
  exists b it' j, iter_search (search_fuel it) found (pos it) it = Some (b, it') ∧
    (j < n)%nat ∧ iter_at fields dest j it' ∧
    if b then (exists f, fields !! j = Some f ∧ found f = true)
    else j = i ∧ forall k f, (k < n)%nat -> fields !! k = Some f -> found f = false.
Proof.
  intros Hi Hat. pose proof Hat as (Hst & Hp & _ & _).
  destruct (search_spec found i n i it) as (b & it' & j & Hrun & Hj & Hatj & Hres);
    [done|done|done| |lia|].
  { rewrite Nat.sub_diag, Nat.add_0_r, Nat.mod_small; lia. }
  exists b, it', j. split_and!; [|done|done|].
  { rewrite Hp. eapply search_mono; [|exact Hrun].
    unfold search_fuel. rewrite Hst, (fw_length _ _ wf). lia. }
  destruct b; [done|]. destruct Hres as [-> Hall]. split; [done|].
  intros k f Hk Hf. destruct (decide (i <= k)%nat).
  - apply (Hall (k - i)%nat); [lia|].
    replace (i + (k - i))%nat with k by lia. by rewrite Nat.mod_small.
  - apply (Hall (n + k - i)%nat); [lia|].
    replace (i + (n + k - i))%nat with (k + 1 * n)%nat by lia.
    by rewrite Nat.Div0.mod_add, Nat.mod_small.
Qed.
End Iterator.
