(* ===== verification/PbEncode.v ===== *)
(** * nanopb: the encoder ([pb_encode.c])

    Output streams and the primitive encoders, then the encoder of messages. *)
From S2P Require Import Prelude CMem PbCore PbIter.

(** ** nanopb: output streams and the primitive encoders ([pb_encode.c])

    [buf_write], [pb_write] and the public helpers from [pb_encode_varint] to
    [pb_encode_string].  The helpers are computations in the monad of
    [PbCore] over [pb_ostream]. *)

(** What a [const pb_byte_t *buf] argument points at: nothing, a local array
    of the caller, or the message in memory. *)
Inductive bsrc :=
| SrcNull
| SrcLocal (bs : list Z)
| SrcMem (p : ptr).

Definition src_cell (m : mem) (src : bsrc) (i : Z) : option cell :=
  match src with
  | SrcNull => None
  | SrcLocal bs => Byte <$> bs !! Z.to_nat i
  | SrcMem p => match load_cells m (ptr_add p i) 1 with Some [c] => Some c | _ => None end
  end.

(** The copying loop of [buf_write], byte by byte from index [i] on. *)
Fixpoint copy_loop (n : nat) (i : Z) (dest : ptr) (src : bsrc) (m : mem) : option mem :=
  match n with
  | O => Some m
  | S n' =>
      match src_cell m src i with
      | Some c =>
          match store_cells m (ptr_add dest i) [c] with
          | Some m' => copy_loop n' (i + 1) dest src m'
          | None => None
          end
      | None => None
      end
  end.

(** The [count] cells a user callback is handed. *)
Fixpoint src_cells (n : nat) (i : Z) (src : bsrc) (m : mem) : option (list cell) :=
  match n with
  | O => Some []
  | S n' => match src_cell m src i, src_cells n' (i + 1) src m with
            | Some c, Some cs => Some (c :: cs)
            | _, _ => None
            end
  end.

Definition set_o_state (p : ptr) (s : pb_ostream) : pb_ostream :=
  mk_ostream (o_callback s) p (max_size s) (bytes_written s) (o_errmsg s).

Definition set_bytes_written (n : Z) (s : pb_ostream) : pb_ostream :=
  mk_ostream (o_callback s) (o_state s) (max_size s) n (o_errmsg s).

Definition pb_ostream_from_buffer (buf : ptr) (bufsize : Z) : pb_ostream :=
  mk_ostream buf_write_fn buf bufsize 0 None.

Definition buf_write (src : bsrc) (count : Z) : M pb_ostream unit :=
  s ← get;
  let dest := o_state s in
  put (set_o_state (ptr_add dest count) s);;
  writing (copy_loop (Z.to_nat count) 0 dest src).

(** The buffer [pb_encode_varint] fills, up to the end of its loop; [room] is
    what is left of its ten bytes. *)
Fixpoint varint_loop (room : nat) (value : Z) : option (list Z) :=
  if value =? 0 then Some []
  else match room with
       | O => None
       | S room' =>
           match varint_loop room' (Z.shiftr value 7) with
           | Some bs => Some (u8 (Z.lor (Z.land value 0x7F) 0x80) :: bs)
           | None => None
           end
       end.

(** [buffer[i-1] &= 0x7F]. *)
Fixpoint clear_last (bs : list Z) : list Z :=
  match bs with
  | [] => []
  | [b] => [Z.land b 0x7F]
  | b :: bs' => b :: clear_last bs'
  end.

Section Out.
Context (e : env).

(** [stream->callback(stream, buf, count)]. *)
Definition ostream_callback (src : bsrc) (count : Z) : M pb_ostream unit :=
  s ← get;
  if bool_decide (o_callback s = buf_write_fn) then buf_write src count
  else match env_writer e (o_callback s) with
       | Some f => cs ← reading (src_cells (Z.to_nat count) 0 src); f cs
       | None => undefined
       end.

Definition pb_write (src : bsrc) (count : Z) : M pb_ostream unit :=
  s ← get;
  (if (0 <? count) && negb (bool_decide (o_callback s = NULL)) then
     if (wrapu 64 (bytes_written s + count) <? bytes_written s)
        || (max_size s <? wrapu 64 (bytes_written s + count))
     then PB_RETURN_ERROR "stream full"
     else ok ← status (ostream_callback src count);
          if ok : bool then mret tt else PB_RETURN_ERROR "io error"
   else mret tt);;
  s' ← get;
  put (set_bytes_written (wrapu 64 (bytes_written s' + count)) s').

Definition pb_encode_varint (value : Z) : M pb_ostream unit :=
  if value <=? 0x7F then pb_write (SrcLocal [u8 value]) 1
  else
    bs ← of_option (varint_loop 10 value);
    pb_write (SrcLocal (clear_last bs)) (Z.of_nat (length bs)).

(** [zigzagged] in [pb_encode_svarint]; [value] is an [int64_t]. *)
Definition zigzag (value : Z) : Z :=
  if value <? 0 then wrapu 64 (Z.lnot (wrapu 64 (Z.shiftl (wrapu 64 value) 1)))
  else wrapu 64 (Z.shiftl (wrapu 64 value) 1).

Definition pb_encode_svarint (value : Z) : M pb_ostream unit :=
  pb_encode_varint (zigzag value).

Definition fixed32_bytes (val : Z) : list Z :=
  [ Z.land val 0xFF; Z.land (Z.shiftr val 8) 0xFF;
    Z.land (Z.shiftr val 16) 0xFF; Z.land (Z.shiftr val 24) 0xFF ].

Definition pb_encode_fixed32 (value : ptr) : M pb_ostream unit :=
  val ← load_u 32 value;
  pb_write (SrcLocal (fixed32_bytes val)) 4.

Definition fixed64_bytes (val : Z) : list Z :=
  [ Z.land val 0xFF; Z.land (Z.shiftr val 8) 0xFF;
    Z.land (Z.shiftr val 16) 0xFF; Z.land (Z.shiftr val 24) 0xFF;
    Z.land (Z.shiftr val 32) 0xFF; Z.land (Z.shiftr val 40) 0xFF;
    Z.land (Z.shiftr val 48) 0xFF; Z.land (Z.shiftr val 56) 0xFF ].

Definition pb_encode_fixed64 (value : ptr) : M pb_ostream unit :=
  val ← load_u 64 value;
  pb_write (SrcLocal (fixed64_bytes val)) 8.

Definition pb_encode_tag (wiretype field_number : Z) : M pb_ostream unit :=
  pb_encode_varint (Z.lor (wrapu 64 (Z.shiftl field_number 3)) wiretype).

(** The wire type of a field's encoding, [None] in the [default] case. *)
Definition wiretype_of (f : pb_field) : option Z :=
  let lt := PB_LTYPE (type f) in
  if (lt =? PB_LTYPE_BOOL) || (lt =? PB_LTYPE_VARINT) || (lt =? PB_LTYPE_UVARINT)
     || (lt =? PB_LTYPE_SVARINT) then Some PB_WT_VARINT
  else if lt =? PB_LTYPE_FIXED32 then Some PB_WT_32BIT
  else if lt =? PB_LTYPE_FIXED64 then Some PB_WT_64BIT
  else if (lt =? PB_LTYPE_BYTES) || (lt =? PB_LTYPE_STRING) || (lt =? PB_LTYPE_SUBMESSAGE)
          || (lt =? PB_LTYPE_FIXED_LENGTH_BYTES) then Some PB_WT_STRING
  else None.

Definition pb_encode_tag_for_field (f : pb_field) : M pb_ostream unit :=
  match wiretype_of f with
  | Some wt => pb_encode_tag wt (tag f)
  | None => PB_RETURN_ERROR "invalid field type"
  end.

Definition pb_encode_string (src : bsrc) (size : Z) : M pb_ostream unit :=
  pb_encode_varint size;;
  pb_write src size.
End Out.

(** ** nanopb: the message encoder ([pb_encode.c])

    The mutual recursion of the C file (a message encodes its fields, a
    submessage field encodes a message) is tied by [pb_encode], which counts
    the nesting depth with its fuel; everything else takes the encoder of the
    next level as the argument [enc]. *)

(** [for (i = 0; i < count; i++) { body p; p += step; }]. *)
Fixpoint array_loop (n : nat) (p : ptr) (step : Z) (body : ptr -> M pb_ostream unit)
  : M pb_ostream unit :=
  match n with
  | O => mret tt
  | S n' => body p;; array_loop n' (ptr_add p step) step body
  end.

(** [safe_read_bool]: [sizeof(bool)] is 1. *)
Definition safe_read_bool (p : ptr) : M pb_ostream bool :=
  b ← load_u 8 p;
  mret (negb (b =? 0)).

(** The loop of [pb_enc_string]: at most [max_size] characters up to the
    terminator.  [fuel] bounds the characters; for a pointer field [max_size]
    is [SIZE_MAX] and the end of the object is met first. *)
Fixpoint strnlen_loop (fuel : nat) (p : ptr) (size max_size : Z) : M pb_ostream Z :=
  if size <? max_size then
    match fuel with
    | O => no_fuel
    | S fuel' =>
        c ← load_u 8 p;
        if c =? 0 then mret size
        else strnlen_loop fuel' (ptr_add p 1) (size + 1) max_size
    end
  else mret size.

(** One more character than the object holds. *)
Definition strlen_fuel (m : mem) (p : ptr) : option nat :=
  match blocks m !! blk p with Some cs => Some (S (length cs)) | None => None end.

Section Encode.
Context (e : env).

(** The byte-per-byte comparison with zero that ends
    [pb_check_proto3_default_value].  It may run over a stored pointer. *)
Definition raw_byte (m : mem) (p : ptr) : option Z :=
  match load_cells m p 1 with
  | Some [Byte b] => Some b
  | Some [Frag q i] => Some (env_ptr_byte e q i)
  | _ => None
  end.

Fixpoint all_zero (n : nat) (p : ptr) : M pb_ostream bool :=
  match n with
  | O => mret true
  | S n' => b ← reading (fun m => raw_byte m p);
            if b =? 0 then all_zero n' (ptr_add p 1) else mret false
  end.

(** *** Field encoders *)

Definition pb_enc_bool (f : pb_field) (src : ptr) : M pb_ostream unit :=
  b ← safe_read_bool src;
  pb_encode_varint e (if b : bool then 1 else 0).

(** The [int_least8_t] .. [int64_t] ladder shared by two encoders. *)
Definition load_signed_by_size (f : pb_field) (src : ptr) : M pb_ostream Z :=
  if data_size f =? 1 then load_s 8 src
  else if data_size f =? 2 then load_s 16 src
  else if data_size f =? 4 then load_s 32 src
  else if data_size f =? 8 then load_s 64 src
  else PB_RETURN_ERROR "invalid data_size".

Definition pb_enc_varint (f : pb_field) (src : ptr) : M pb_ostream unit :=
  value ← load_signed_by_size f src;
  pb_encode_varint e (wrapu 64 value).

Definition pb_enc_uvarint (f : pb_field) (src : ptr) : M pb_ostream unit :=
  value ← (if data_size f =? 1 then load_u 8 src
           else if data_size f =? 2 then load_u 16 src
           else if data_size f =? 4 then load_u 32 src
           else if data_size f =? 8 then load_u 64 src
           else PB_RETURN_ERROR "invalid data_size");
  pb_encode_varint e value.

Definition pb_enc_svarint (f : pb_field) (src : ptr) : M pb_ostream unit :=
  value ← load_signed_by_size f src;
  pb_encode_svarint e value.

Definition pb_enc_fixed32 (f : pb_field) (src : ptr) : M pb_ostream unit :=
  pb_encode_fixed32 e src.

Definition pb_enc_fixed64 (f : pb_field) (src : ptr) : M pb_ostream unit :=
  pb_encode_fixed64 e src.

Definition pb_enc_bytes (f : pb_field) (src : ptr) : M pb_ostream unit :=
  if bool_decide (src = NULL) then pb_encode_string e SrcNull 0
  else
    (if bool_decide (PB_ATYPE (type f) = PB_ATYPE_STATIC) then
       size ← load_size src;
       if wrapu 64 (data_size f - bytes_offset) <? size
       then PB_RETURN_ERROR "bytes size exceeded" else mret tt
     else mret tt);;
    size ← load_size src;
    pb_encode_string e (SrcMem (ptr_add src bytes_offset)) size.

Definition pb_enc_string (f : pb_field) (src : ptr) : M pb_ostream unit :=
  let max := if bool_decide (PB_ATYPE (type f) = PB_ATYPE_POINTER)
             then SIZE_MAX else data_size f in
  size ← (if bool_decide (src = NULL) || (max <=? 0) then mret 0
          else fuel ← reading (fun m => strlen_fuel m src);
               strnlen_loop fuel src 0 max);
  pb_encode_string e (if bool_decide (src = NULL) then SrcNull else SrcMem src) size.

Definition pb_enc_fixed_length_bytes (f : pb_field) (src : ptr) : M pb_ostream unit :=
  pb_encode_string e (SrcMem src) (data_size f).

(** *** Submessages, arrays and fields, given the message encoder *)
Section Level.
Context (enc : ptr -> ptr -> M pb_ostream unit).

Definition pb_encode_submessage (fields src : ptr) : M pb_ostream unit :=
  '(ok, sub) ← on_stream PB_OSTREAM_SIZING (enc fields src);
  if negb ok then
    s ← get; put (set_errmsg (o_errmsg sub) s);; return_false
  else
    let size := wrapu 64 (bytes_written sub) in
    pb_encode_varint e size;;
    s ← get;
    if bool_decide (o_callback s = NULL) then pb_write e SrcNull size
    else if max_size s <? wrapu 64 (bytes_written s + size)
    then PB_RETURN_ERROR "stream full"
    else
      '(ok2, sub2) ← on_stream (mk_ostream (o_callback s) (o_state s) size 0 None)
                               (enc fields src);
      s' ← get;
      put (mk_ostream (o_callback s') (o_state sub2) (max_size s')
                      (wrapu 64 (bytes_written s' + bytes_written sub2))
                      (o_errmsg sub2));;
      if negb (bytes_written sub2 =? size) then PB_RETURN_ERROR "submsg size changed"
      else return_bool ok2.

Definition pb_enc_submessage (f : pb_field) (src : ptr) : M pb_ostream unit :=
  if bool_decide (field_ptr f = NULL) then PB_RETURN_ERROR "invalid field descriptor"
  else pb_encode_submessage (field_ptr f) src.

(** The table [PB_ENCODERS]; calling its null entry, or past its end, is
    undefined. *)
Definition PB_ENCODERS (lt : Z) : pb_field -> ptr -> M pb_ostream unit :=
  if lt =? PB_LTYPE_BOOL then pb_enc_bool
  else if lt =? PB_LTYPE_VARINT then pb_enc_varint
  else if lt =? PB_LTYPE_UVARINT then pb_enc_uvarint
  else if lt =? PB_LTYPE_SVARINT then pb_enc_svarint
  else if lt =? PB_LTYPE_FIXED32 then pb_enc_fixed32
  else if lt =? PB_LTYPE_FIXED64 then pb_enc_fixed64
  else if lt =? PB_LTYPE_BYTES then pb_enc_bytes
  else if lt =? PB_LTYPE_STRING then pb_enc_string
  else if lt =? PB_LTYPE_SUBMESSAGE then pb_enc_submessage
  else if lt =? PB_LTYPE_FIXED_LENGTH_BYTES then pb_enc_fixed_length_bytes
  else fun _ _ => undefined.

(** [size] of a packed array: computed, or measured on a sizing stream. *)
Definition packed_size (f : pb_field) (data : ptr) (count : Z)
    (func : pb_field -> ptr -> M pb_ostream unit) : M pb_ostream Z :=
  if PB_LTYPE (type f) =? PB_LTYPE_FIXED32 then mret (wrapu 64 (4 * count))
  else if PB_LTYPE (type f) =? PB_LTYPE_FIXED64 then mret (wrapu 64 (8 * count))
  else
    '(ok, sizestream) ← on_stream PB_OSTREAM_SIZING
         (array_loop (Z.to_nat count) data (data_size f) (func f));
    if negb ok then return_false else mret (wrapu 64 (bytes_written sizestream)).

Definition encode_array (f : pb_field) (data : ptr) (count : Z)
    (func : pb_field -> ptr -> M pb_ostream unit) : M pb_ostream unit :=
  if count =? 0 then mret tt
  else if negb (bool_decide (PB_ATYPE (type f) = PB_ATYPE_POINTER))
          && (array_size f <? count)
  then PB_RETURN_ERROR "array max size exceeded"
  else if PB_LTYPE (type f) <=? PB_LTYPE_LAST_PACKABLE then
    pb_encode_tag e PB_WT_STRING (tag f);;
    size ← packed_size f data count func;
    pb_encode_varint e size;;
    s ← get;
    if bool_decide (o_callback s = NULL) then pb_write e SrcNull size
    else array_loop (Z.to_nat count) data (data_size f) (func f)
  else
    array_loop (Z.to_nat count) data (data_size f) (fun p =>
      pb_encode_tag_for_field e f;;
      if bool_decide (PB_ATYPE (type f) = PB_ATYPE_POINTER) &&
         ((PB_LTYPE (type f) =? PB_LTYPE_STRING) || (PB_LTYPE (type f) =? PB_LTYPE_BYTES))
      then q ← load_p p; func f q
      else func f p).

(** *** A field, by its allocation type *)

Definition encode_basic_field (is_default : pb_field -> ptr -> M pb_ostream bool)
    (f : pb_field) (data0 : ptr) : M pb_ostream unit :=
  let func := PB_ENCODERS (PB_LTYPE (type f)) in
  (* [pSize]: an address in the message, or the local [implicit_has] *)
  let size_addr := if bool_decide (size_offset f ≠ 0)
                   then Some (ptr_add data0 (size_offset f)) else None in
  implicit_has0 ←
    (if bool_decide (size_offset f ≠ 0) then mret true
     else if bool_decide (PB_HTYPE (type f) = PB_HTYPE_OPTIONAL)
     then d ← is_default f data0; mret (negb d)
     else mret true);
  '(data, implicit_has) ←
    (if bool_decide (PB_ATYPE (type f) = PB_ATYPE_POINTER)
     then q ← load_p data0; mret (q, bool_decide (q ≠ NULL))
     else mret (data0, implicit_has0));
  if bool_decide (PB_HTYPE (type f) = PB_HTYPE_REQUIRED) then
    if bool_decide (data = NULL) then PB_RETURN_ERROR "missing required field"
    else pb_encode_tag_for_field e f;; func f data
  else if bool_decide (PB_HTYPE (type f) = PB_HTYPE_OPTIONAL) then
    has ← match size_addr with
          | Some a => safe_read_bool a
          | None => mret implicit_has
          end;
    if has : bool then pb_encode_tag_for_field e f;; func f data else mret tt
  else if bool_decide (PB_HTYPE (type f) = PB_HTYPE_REPEATED) then
    count ← match size_addr with
            | Some a => load_size a
            | None => mret (array_size f)
            end;
    encode_array f data count func
  else (* PB_HTYPE_ONEOF *)
    which ← match size_addr with
            | Some a => load_size a
            | None => undefined
            end;
    if which =? tag f then pb_encode_tag_for_field e f;; func f data else mret tt.

Definition encode_callback_field (f : pb_field) (data : ptr) : M pb_ostream unit :=
  func ← load_p (ptr_add data callback_funcs_off);
  if bool_decide (func = NULL) then mret tt
  else match env_encode e func with
       | Some g =>
           ok ← status (g f (ptr_add data callback_arg_off));
           if ok : bool then mret tt else PB_RETURN_ERROR "callback error"
       | None => undefined
       end.

Definition encode_field (is_default : pb_field -> ptr -> M pb_ostream bool)
    (f : pb_field) (data : ptr) : M pb_ostream unit :=
  let at_ := PB_ATYPE (type f) in
  if bool_decide (at_ = PB_ATYPE_STATIC ∨ at_ = PB_ATYPE_POINTER)
  then encode_basic_field is_default f data
  else if bool_decide (at_ = PB_ATYPE_CALLBACK) then encode_callback_field f data
  else PB_RETURN_ERROR "invalid field type".

Definition default_extension_encoder (is_default : pb_field -> ptr -> M pb_ostream bool)
    (extension : ptr) : M pb_ostream unit :=
  ty ← load_p (ptr_add extension extension_type_off);
  arg ← load_p (ptr_add ty extension_type_arg_off);
  fs ← of_option (fields_at e arg);
  f ← of_option (fs !! 0%nat);
  if bool_decide (PB_ATYPE (type f) = PB_ATYPE_POINTER)
  then encode_field is_default f (ptr_add extension extension_dest_off)
  else dest ← load_p (ptr_add extension extension_dest_off);
       encode_field is_default f dest.

(** The extension list; [fuel] bounds its length. *)
Fixpoint extension_list (is_default : pb_field -> ptr -> M pb_ostream bool)
    (fuel : nat) (extension : ptr) : M pb_ostream unit :=
  if bool_decide (extension = NULL) then mret tt
  else match fuel with
       | O => no_fuel
       | S fuel' =>
           ty ← load_p (ptr_add extension extension_type_off);
           enc_fn ← load_p (ptr_add ty extension_type_encode_off);
           (if bool_decide (enc_fn = NULL)
            then default_extension_encoder is_default extension
            else match env_ext_encode e enc_fn with
                 | Some g => g extension
                 | None => undefined
                 end);;
           nxt ← load_p (ptr_add extension extension_next_off);
           extension_list is_default fuel' nxt
       end.

Definition encode_extension_field (is_default : pb_field -> ptr -> M pb_ostream bool)
    (fuel : nat) (data : ptr) : M pb_ostream unit :=
  extension ← load_p data;
  extension_list is_default fuel extension.
End Level.

(** The [do .. while (pb_field_iter_next(&iter))] loop over the fields:
    [rounds] is the number of descriptors, which a full pass never exceeds. *)
Fixpoint field_loop {A} (stop : A) (rounds : nat) (it : pb_field_iter)
    (body : pb_field -> ptr -> M pb_ostream (option A)) : M pb_ostream A :=
  match rounds with
  | O => no_fuel
  | S rounds' =>
      f ← of_option (start it !! pos it);
      r ← body f (pData it);
      match r with
      | Some a => mret a
      | None =>
          '(more, it') ← of_option (pb_field_iter_next it);
          if more : bool then field_loop stop rounds' it' body else mret stop
      end
  end.

(** [pb_check_proto3_default_value]; [fuel] bounds the nesting of statically
    allocated submessages. *)
Fixpoint pb_check_proto3_default_value (fuel : nat) (f : pb_field) (data : ptr)
  : M pb_ostream bool :=
  match fuel with
  | O => no_fuel
  | S fuel' =>
    let ty := type f in
    let size_addr := ptr_add data (size_offset f) in
    if bool_decide (PB_HTYPE ty = PB_HTYPE_REQUIRED) then mret false
    else if bool_decide (PB_HTYPE ty = PB_HTYPE_REPEATED ∧ size_offset f ≠ 0)
    then n ← load_size size_addr; mret (n =? 0)
    else if bool_decide (PB_HTYPE ty = PB_HTYPE_REPEATED ∧ PB_ATYPE ty = PB_ATYPE_STATIC)
    then mret false
    else if bool_decide (PB_HTYPE ty = PB_HTYPE_ONEOF)
    then n ← load_size size_addr; mret (n =? 0)
    else if bool_decide (PB_HTYPE ty = PB_HTYPE_OPTIONAL ∧ size_offset f ≠ 0)
    then b ← safe_read_bool size_addr; mret (negb b)
    else if bool_decide (PB_ATYPE ty = PB_ATYPE_STATIC ∧ PB_LTYPE ty = PB_LTYPE_BYTES)
    then n ← load_size data; mret (n =? 0)
    else if bool_decide (PB_ATYPE ty = PB_ATYPE_STATIC ∧ PB_LTYPE ty = PB_LTYPE_STRING)
    then c ← load_u 8 data; mret (c =? 0)
    else if bool_decide (PB_ATYPE ty = PB_ATYPE_STATIC ∧
                         PB_LTYPE ty = PB_LTYPE_FIXED_LENGTH_BYTES)
    then mret (data_size f =? 0)
    else if bool_decide (PB_ATYPE ty = PB_ATYPE_STATIC ∧ PB_LTYPE ty = PB_LTYPE_SUBMESSAGE)
    then
      fs ← of_option (fields_at e (field_ptr f));
      '(nonempty, it) ← of_option (pb_field_iter_begin fs data);
      if nonempty : bool then
        field_loop true (length fs) it (fun g d =>
          z ← pb_check_proto3_default_value fuel' g d;
          mret (if z : bool then None else Some false))
      else mret true
    else if bool_decide (PB_ATYPE ty = PB_ATYPE_POINTER) &&
            (PB_LTYPE_LAST_PACKABLE <? PB_LTYPE ty)
    then q ← load_p data; mret (bool_decide (q = NULL))
    else all_zero (Z.to_nat (data_size f)) data
  end.

(** *** Messages *)

Definition encode_message (fuel : nat) (enc : ptr -> ptr -> M pb_ostream unit)
    (fields src : ptr) : M pb_ostream unit :=
  fs ← of_option (fields_at e fields);
  '(nonempty, it) ← of_option (pb_field_iter_begin fs src);
  if negb nonempty then mret tt
  else
    field_loop tt (length fs) it (fun f d =>
      (if PB_LTYPE (type f) =? PB_LTYPE_EXTENSION
       then encode_extension_field enc (pb_check_proto3_default_value fuel) fuel d
       else encode_field enc (pb_check_proto3_default_value fuel) f d);;
      mret None).

Fixpoint pb_encode (fuel : nat) (fields src : ptr) : M pb_ostream unit :=
  match fuel with
  | O => no_fuel
  | S fuel' => encode_message fuel (pb_encode fuel') fields src
  end.

Definition pb_encode_delimited (fuel : nat) (fields src : ptr) : M pb_ostream unit :=
  pb_encode_submessage (pb_encode fuel) fields src.

Definition pb_encode_nullterminated (fuel : nat) (fields src : ptr) : M pb_ostream unit :=
  pb_encode fuel fields src;;
  pb_write e (SrcLocal [0]) 1.

(** [pb_get_encoded_size]: the size, when the encoder returns [true]. *)
Definition pb_get_encoded_size (fuel : nat) (fields src : ptr) : M pb_ostream Z :=
  '(ok, sub) ← on_stream PB_OSTREAM_SIZING (pb_encode fuel fields src);
  if negb ok then return_false else mret (bytes_written sub).
End Encode.
