(* ===== verification/PbSize.v ===== *)
(** * nanopb: measuring and writing agree

    [pb_encode_submessage], the packed arrays and [pb_get_encoded_size] run
    the encoder first on a stream without a callback, which only counts, and
    rely on the second run writing exactly that many bytes.  This file defines
    what it means for an encoder computation to have one output that every
    kind of stream sees, and proves the rules by which computations built from
    [pb_write] and reads of the message inherit it. *)
From S2P Require Import Prelude CMem PbCore PbIter PbEncode.

(** ** Kinds of streams *)

(** A stream that only counts ([PB_OSTREAM_SIZING]). *)
Definition sizing (s : pb_ostream) : Prop := o_callback s = NULL.

(** A stream whose callback accepts any data, up to 2^62 bytes in total, and
    drops it; it counts in [o_state], as a user callback may.  Unlike a sizing
    stream it makes the encoder read all of the message. *)
Definition sink_fn : ptr := mk_ptr (-3) 0.
Definition sink_limit : Z := 2 ^ 62.

Definition sink_callback (cs : list cell) : M pb_ostream unit :=
  s ← get;
  if off (o_state s) + Z.of_nat (length cs) <? sink_limit
  then put (set_o_state (ptr_add (o_state s) (Z.of_nat (length cs))) s)
  else return_false.

Definition sink (s : pb_ostream) : Prop :=
  o_callback s = sink_fn /\ o_errmsg s = None /\
  0 <= bytes_written s <= off (o_state s) /\ off (o_state s) < sink_limit /\
  bytes_written s <= max_size s /\ max_size s < 2 ^ 64.

(** A stream onto object [B], as [pb_ostream_from_buffer] makes it; all the
    room the stream believes in is there. *)
Definition onto (B : Z) (s : pb_ostream) (m : mem) : Prop :=
  o_callback s = buf_write_fn /\ o_errmsg s = None /\ blk (o_state s) = B /\
  0 <= bytes_written s <= max_size s /\ max_size s < 2 ^ 64 /\
  exists cs, load_cells m (o_state s) (max_size s - bytes_written s) = Some cs.

(** The streams after [n] more bytes. *)
Definition counted (n : Z) (s : pb_ostream) : pb_ostream :=
  set_bytes_written (wrapu 64 (bytes_written s + n)) s.
Definition advanced (n : Z) (s : pb_ostream) : pb_ostream :=
  set_o_state (ptr_add (o_state s) n) (counted n s).

Definition len {A} (l : list A) : Z := Z.of_nat (length l).

(** ** One output for every stream *)

(** The memories in which the message of [m0] looks the same: [m0] itself and
    those that differ in one object that holds no part of it. *)
Definition sees (m0 m : mem) : Prop := m = m0 \/ exists B, frame B m0 m.

(** [emits c m0 a bs]: on message memory [m0], [c] returns [true] with value
    [a], and its output is [bs], whatever the stream:
    - a sizing stream counts [length bs];
    - a stream onto an object that holds no part of the message receives [bs],
      if there is room;
    - and the call fails with "stream full" if there is not. *)
Record emits {A} (c : M pb_ostream A) (m0 : mem) (a : A) (bs : list cell) : Prop := {
  em_sizing : forall s m, sees m0 m -> sizing s -> in_u 64 (bytes_written s) ->
    c s m = Ret a (counted (len bs) s) m;
  em_write : forall B s m, frame B m0 m -> onto B s m ->
    bytes_written s + len bs <= max_size s ->
    exists m', store_cells m (o_state s) bs = Some m' /\ c s m = Ret a (advanced (len bs) s) m';
  em_full : forall B s m, frame B m0 m -> onto B s m ->
    max_size s < bytes_written s + len bs < 2 ^ 64 ->
    exists s' m', c s m = Fail s' m' /\ o_errmsg s' = Some "stream full"%string }.

(** [quiet c]: on a sizing stream a successful run changes nothing in memory. *)
Definition quiet {A} (c : M pb_ostream A) : Prop :=
  forall s m a s' m', sizing s -> c s m = Ret a s' m' -> m' = m /\ sizing s'.

(** [consistent c]: [c] is quiet, and whenever it can send its output to a
    sink, it has one output for every stream. *)
Record consistent {A} (c : M pb_ostream A) : Prop := {
  co_quiet : quiet c;
  co_emits : forall m0 s a s' m', sink s -> c s m0 = Ret a s' m' ->
    exists bs, m' = m0 /\ s' = advanced (len bs) s /\ sink s' /\
               bytes_written s' = bytes_written s + len bs /\ emits c m0 a bs }.

Lemma len_app {A} (x y : list A) : len (x ++ y) = len x + len y.
Proof. unfold len. rewrite length_app. lia. Qed.

Lemma len_nil {A} : len (@nil A) = 0.
Proof. reflexivity. Qed.

Lemma len_nonneg {A} (x : list A) : 0 <= len x.
Proof. unfold len. lia. Qed.

Lemma counted_0 s : 0 <= bytes_written s < 2 ^ 64 -> counted 0 s = s.
Proof.
  intros. unfold counted, set_bytes_written. rewrite Z.add_0_r, wrapu_id by done. by destruct s.
Qed.

Lemma counted_counted a b s : counted b (counted a s) = counted (a + b) s.
Proof.
  unfold counted, set_bytes_written. cbn. f_equal. unfold wrapu.
  rewrite Z.add_mod_idemp_l by lia. f_equal. lia.
Qed.

Lemma advanced_advanced a b s : advanced b (advanced a s) = advanced (a + b) s.
Proof.
  pose proof (counted_counted a b s) as E. unfold advanced, counted, set_bytes_written, set_o_state in *.
  cbn in *. injection E as E. rewrite E, ptr_add_add. done.
Qed.

Lemma advanced_0 s : 0 <= bytes_written s < 2 ^ 64 -> advanced 0 s = s.
Proof. intros. unfold advanced. rewrite counted_0, ptr_add_0 by done. by destruct s. Qed.

Lemma sink_advanced s n :
  sink s -> 0 <= n -> bytes_written s + n <= max_size s ->
  off (o_state s) + n < sink_limit ->
  sink (advanced n s) /\ bytes_written (advanced n s) = bytes_written s + n.
Proof.
  intros (? & ? & ? & ? & ? & ?) Hn Hb Hk. unfold advanced, counted, sink. cbn.
  rewrite wrapu_id by (unfold in_u, sink_limit in *; lia). split; [|done].
  split_and!; [done|done|lia..].
Qed.

(** After writing, the stream is still onto the object, with the rest of the
    room. *)
Lemma onto_advanced B s m bs m' :
  onto B s m -> bytes_written s + len bs <= max_size s ->
  store_cells m (o_state s) bs = Some m' ->
  onto B (advanced (len bs) s) m' /\
  bytes_written (advanced (len bs) s) = bytes_written s + len bs.
Proof.
  intros (Hc & He & HB & Hbw & Hmax & cs & Hcs) Hfit Hst.
  assert (wrapu 64 (bytes_written s + len bs) = bytes_written s + len bs) as E.
  { apply wrapu_id. unfold in_u, len in *. lia. }
  unfold onto, advanced, counted. cbn. rewrite E.
  pose proof (len_nonneg bs).
  split; [|done]. split_and!; try done; try lia.
  pose proof (store_window _ _ _ _ _ _ Hst Hcs) as Hw. unfold len in *.
  specialize (Hw ltac:(lia)).
  replace (max_size s - bytes_written s) with
    (Z.of_nat (length bs) + (max_size s - (bytes_written s + Z.of_nat (length bs)))) in Hw by lia.
  apply load_cells_split in Hw as [_ Hw]; [|lia..]. eauto.
Qed.

(** ** The rules *)

Lemma emits_ret {A} (a : A) m0 : emits (mret a) m0 a [].
Proof.
  split; rewrite len_nil.
  - intros s m _ _ Hb. by rewrite counted_0.
  - intros B s m _ (_ & _ & _ & Hbw & ? & cs & Hcs) _. exists m. split; [by eapply store_cells_nil|].
    unfold advanced. rewrite counted_0, ptr_add_0 by lia. by destruct s.
  - intros B s m _ (_ & _ & _ & Hbw & _) Hfull. rewrite ?len_nil in Hfull. lia.
Qed.

Lemma consistent_ret {A} (a : A) : consistent (mret a).
Proof.
  split; [by intros s m b s' m' Hs [= <- <- <-]|].
  intros m0 s b s' m' Hs [= <- <- <-]. exists []. pose proof Hs as (_ & _ & ? & ? & ?).
  unfold sink_limit in *.
  rewrite len_nil, advanced_0 by lia. split_and!; [done|done|done|lia|apply emits_ret].
Qed.

Lemma emits_bind {A B} (c : M pb_ostream A) (k : A -> M pb_ostream B) m0 a b bs1 bs2 :
  emits c m0 a bs1 -> emits (k a) m0 b bs2 -> emits (c ≫= k) m0 b (bs1 ++ bs2).
Proof.
  intros Hc Hk. split.
  - intros s m Hm Hs Hb. rewrite (bind_Ret _ _ _ _ _ _ _ (em_sizing _ _ _ _ Hc s m Hm Hs Hb)).
    rewrite len_app, <- counted_counted. apply (em_sizing _ _ _ _ Hk); [done|done|].
    apply (wrapu_range 64). lia.
  - intros B' s m Hf Ho Hfit. rewrite len_app in Hfit. pose proof (len_nonneg bs2).
    destruct (em_write _ _ _ _ Hc B' s m Hf Ho) as (m1 & Hst & Hrun); [lia|].
    rewrite (bind_Ret _ _ _ _ _ _ _ Hrun).
    destruct (onto_advanced B' s m bs1 m1 Ho ltac:(lia) Hst) as [Ho1 Hbw1].
    assert (frame B' m0 m1) as Hf1 by (eapply frame_store; [exact Hf| |exact Hst]; apply Ho).
    destruct (em_write _ _ _ _ Hk B' _ m1 Hf1 Ho1) as (m2 & Hst2 & Hrun2).
    { rewrite Hbw1. cbn. lia. }
    exists m2. split; [by rewrite store_cells_app, Hst|].
    by rewrite Hrun2, len_app, advanced_advanced.
  - intros B' s m Hf Ho Hfull. rewrite len_app in Hfull.
    pose proof (len_nonneg bs1). pose proof (len_nonneg bs2).
    destruct (decide (bytes_written s + len bs1 <= max_size s)) as [Hfit|Hno].
    + destruct (em_write _ _ _ _ Hc B' s m Hf Ho Hfit) as (m1 & Hst & Hrun).
      rewrite (bind_Ret _ _ _ _ _ _ _ Hrun).
      destruct (onto_advanced _ _ _ _ _ Ho Hfit Hst) as [Ho1 Hbw1].
      assert (frame B' m0 m1) as Hf1 by (eapply frame_store; [exact Hf| |exact Hst]; apply Ho).
      destruct (em_full _ _ _ _ Hk B' _ m1 Hf1 Ho1) as (s' & m' & Hr & He).
      { rewrite Hbw1. cbn. lia. }
      eauto.
    + destruct (em_full _ _ _ _ Hc B' s m Hf Ho) as (s' & m' & Hr & He); [lia..|].
      rewrite (bind_Fail _ _ _ _ _ _ Hr). eauto.
Qed.

(** A bind, with what is known of the value in between. *)
Definition returns {A} (c : M pb_ostream A) (P : A -> Prop) : Prop :=
  forall s m a s' m', c s m = Ret a s' m' -> P a.

Lemma consistent_bind' {A B} (c : M pb_ostream A) P (k : A -> M pb_ostream B) :
  consistent c -> returns c P -> (forall a, P a -> consistent (k a)) -> consistent (c ≫= k).
Proof.
  intros Hc HP Hk. split.
  { intros s m b s' m' Hs (a & s1 & m1 & H1 & H2)%bind_inv.
    destruct (co_quiet _ Hc _ _ _ _ _ Hs H1) as [-> Hs1].
    exact (co_quiet _ (Hk a (HP _ _ _ _ _ H1)) _ _ _ _ _ Hs1 H2). }
  intros m0 s b s' m' Hs (a & s1 & m1 & H1 & H2)%bind_inv.
  destruct (co_emits _ Hc _ _ _ _ _ Hs H1) as (bs1 & -> & -> & Hs1 & Hb1 & E1).
  destruct (co_emits _ (Hk a (HP _ _ _ _ _ H1)) _ _ _ _ _ Hs1 H2)
    as (bs2 & -> & -> & Hs2 & Hb2 & E2).
  rewrite advanced_advanced, <- len_app in *.
  exists (bs1 ++ bs2). split_and!; [done|done|done| |by eapply emits_bind].
  rewrite Hb2, Hb1, len_app. lia.
Qed.

Lemma consistent_bind {A B} (c : M pb_ostream A) (k : A -> M pb_ostream B) :
  consistent c -> (forall a, consistent (k a)) -> consistent (c ≫= k).
Proof. intros Hc Hk. by apply (consistent_bind' c (fun _ => True)). Qed.

(** Computations without output that depend on the message only. *)
Definition pure_read {A} (c : M pb_ostream A) : Prop :=
  forall m0 s a s' m', c s m0 = Ret a s' m' ->
  s' = s /\ m' = m0 /\
  forall m s1, sees m0 m -> c s1 m = Ret a s1 m.

Lemma pure_read_emits {A} (c : M pb_ostream A) m0 a :
  (forall s m, sees m0 m -> c s m = Ret a s m) -> emits c m0 a [].
Proof.
  intros Hsee. split; rewrite len_nil.
  - intros s1 m Hm _ Hb1. by rewrite counted_0, Hsee.
  - intros B s1 m Hf (_ & _ & _ & Hbw & ? & cs & Hcs) _. exists m.
    split; [by eapply store_cells_nil|]. rewrite Hsee by (right; eauto). f_equal.
    unfold advanced. rewrite counted_0, ptr_add_0 by lia. by destruct s1.
  - intros B s1 m _ (_ & _ & _ & Hbw & _) Hfull. lia.
Qed.

Lemma pure_read_consistent {A} (c : M pb_ostream A) : pure_read c -> consistent c.
Proof.
  intros Hp. split.
  { intros s m a s' m' Hs Hr. by destruct (Hp _ _ _ _ _ Hr) as (-> & -> & _). }
  intros m0 s a s' m' Hs Hr. pose proof Hs as (_ & _ & ? & ? & ?). unfold sink_limit in *.
  destruct (Hp _ _ _ _ _ Hr) as (-> & -> & Hsee).
  exists []. rewrite len_nil, advanced_0 by lia. split_and!; [done|done|done|lia|].
  apply pure_read_emits. auto.
Qed.

Lemma pure_ret {A} (a : A) : pure_read (mret a).
Proof. intros m0 s b s' m' [= <- <- <-]. done. Qed.

Lemma pure_bind {A B} (c : M pb_ostream A) (k : A -> M pb_ostream B) :
  pure_read c -> (forall a, pure_read (k a)) -> pure_read (c ≫= k).
Proof.
  intros Hc Hk m0 s b s' m' (a & s1 & m1 & H1 & H2)%bind_inv.
  destruct (Hc _ _ _ _ _ H1) as (-> & -> & Hs1).
  destruct (Hk a _ _ _ _ _ H2) as (-> & -> & Hs2).
  split_and!; [done|done|].
  intros m s1 Hm. rewrite (bind_Ret _ _ _ _ _ _ _ (Hs1 m s1 Hm)). eauto.
Qed.

Lemma pure_of_option {A} (o : option A) : pure_read (of_option o).
Proof.
  intros m0 s a s' m'. unfold of_option. destruct o; [|done]. by intros [= <- <- <-].
Qed.

Lemma pure_reading {A} (f : mem -> option A) :
  (forall B m0 m a, frame B m0 m -> f m0 = Some a -> f m = Some a) -> pure_read (reading f).
Proof.
  intros Hf m0 s a s' m'. unfold reading. destruct (f m0) eqn:E; [|done].
  intros [= <- <- <-]. split_and!; [done..|]. intros m s1 [->|[B Hfr]]; [by rewrite E|].
  by rewrite (Hf _ _ _ _ Hfr E).
Qed.

Lemma pure_false {A} : pure_read (return_false : M _ A).
Proof. by intros m0 s a s' m'. Qed.

Lemma pure_error {A} msg : pure_read (PB_RETURN_ERROR msg : M _ A).
Proof. by intros m0 s a s' m'. Qed.

Lemma pure_undefined {A} : pure_read (undefined : M _ A).
Proof. by intros m0 s a s' m'. Qed.

Lemma pure_no_fuel {A} : pure_read (no_fuel : M _ A).
Proof. by intros m0 s a s' m'. Qed.

Lemma pure_load_u w p : pure_read (load_u w p).
Proof. apply pure_reading. eauto with cmem. Qed.

Lemma pure_load_p p : pure_read (load_p p).
Proof. apply pure_reading. eauto with cmem. Qed.

(** ** Writing *)

Lemma src_cells_length n i src m cs : src_cells n i src m = Some cs -> length cs = n.
Proof.
  revert i cs. induction n as [|n IH]; intros i cs; cbn; [by intros [= <-]|].
  destruct (src_cell m src i), (src_cells n (i + 1) src m) eqn:E; try done.
  intros [= <-]. cbn. f_equal. eauto.
Qed.

Lemma src_cell_frame B m0 m src i c :
  frame B m0 m -> src_cell m0 src i = Some c -> src_cell m src i = Some c.
Proof.
  intros Hf. destruct src as [|bs|p]; cbn; [done|done|].
  destruct (load_cells m0 (ptr_add p i) 1) as [l|] eqn:E; [|done].
  by destruct (frame_load _ _ _ _ _ _ Hf E) as [-> _].
Qed.

(** The copying loop is one store of the source cells, since the message does
    not overlap the output. *)
Lemma copy_loop_store B m0 n : forall i src m dest cs w,
  frame B m0 m -> blk dest = B -> src_cells n i src m0 = Some cs ->
  load_cells m (ptr_add dest i) (Z.of_nat n) = Some w ->
  exists m', copy_loop n i dest src m = Some m' /\
             store_cells m (ptr_add dest i) cs = Some m'.
Proof.
  induction n as [|n IH]; intros i src m dest cs w Hf HB Hcs Hw; cbn in *.
  { injection Hcs as <-. exists m. split; [done|]. by eapply store_cells_nil. }
  destruct (src_cell m0 src i) as [c|] eqn:Hc; [|done].
  destruct (src_cells n (i + 1) src m0) as [cs'|] eqn:Hcs'; [|done].
  injection Hcs as <-. rewrite (src_cell_frame _ _ _ _ _ _ Hf Hc).
  replace (Z.of_nat (S n)) with (Z.of_nat (length [c]) + Z.of_nat n) in Hw by (cbn; lia).
  pose proof Hw as Hw1. apply load_cells_split in Hw1 as [Hw1 _]; [|cbn; lia..].
  destruct (store_cells_ok _ _ _ _ Hw1) as [m1 Hm1]. rewrite Hm1.
  pose proof (store_window _ _ _ _ _ _ Hm1 Hw ltac:(lia)) as Hw2.
  apply load_cells_split in Hw2 as [_ Hw2]; [|cbn; lia..].
  rewrite ptr_add_add in Hw2.
  assert (frame B m0 m1) as Hf1 by (eapply frame_store; [exact Hf| |exact Hm1]; done).
  destruct (IH (i + 1) src m1 dest cs' _ Hf1 HB Hcs' Hw2) as (m' & Hcopy & Hstore).
  exists m'. split; [done|]. change (c :: cs') with ([c] ++ cs').
  rewrite store_cells_app, Hm1, ptr_add_add. done.
Qed.

Section Rules.
Context (e : env).
Hypothesis sink_writer : env_writer e sink_fn = Some sink_callback.

Lemma emits_write src count m0 cs :
  0 <= count -> src_cells (Z.to_nat count) 0 src m0 = Some cs ->
  emits (pb_write e src count) m0 tt cs.
Proof.
  intros Hc Hcs. pose proof (src_cells_length _ _ _ _ _ Hcs) as Hl.
  assert (len cs = count) as Hlen by (unfold len; lia).
  split; rewrite Hlen.
  - intros s m _ Hs Hb. unfold pb_write, mbind, M_bind, get. cbn.
    rewrite (bool_decide_eq_true_2 _ Hs), andb_false_r. done.
  - intros B s m Hf (Hcb & He & HB & Hbw & Hmax & w & Hw) Hfit.
    assert (wrapu 64 (bytes_written s + count) = bytes_written s + count) as Hwr.
    { apply wrapu_id. unfold in_u. lia. }
    replace (max_size s - bytes_written s)
      with (count + (max_size s - bytes_written s - count)) in Hw by lia.
    apply load_cells_split in Hw as [Hw _]; [|lia..].
    destruct (copy_loop_store B m0 (Z.to_nat count) 0 src m (o_state s) cs
                (take (Z.to_nat count) w)) as (m' & Hcopy & Hstore); auto.
    { rewrite ptr_add_0, Z2Nat.id by lia. exact Hw. }
    rewrite ptr_add_0 in Hstore. exists m'. split; [done|].
    unfold pb_write, mbind, M_bind, get. cbn. rewrite Hwr.
    rewrite bool_decide_eq_false_2 by (rewrite Hcb; done). cbn.
    destruct (Z.ltb_spec 0 count) as [Hpos|Hz]; cbn.
    + destruct (Z.ltb_spec (bytes_written s + count) (bytes_written s)); [lia|].
      destruct (Z.ltb_spec (max_size s) (bytes_written s + count)); [lia|]. cbn.
      unfold mbind, M_bind, status, ostream_callback, get, buf_write, writing, put.
      unfold mbind, M_bind. cbn. rewrite (bool_decide_eq_true_2 _ Hcb). cbn.
      rewrite Hcopy. cbn. done.
    + assert (count = 0) as -> by lia. cbn in *.
      injection Hcopy as <-. f_equal. unfold advanced, counted. rewrite ptr_add_0.
      by destruct s.
  - intros B s m Hf (Hcb & He & HB & Hbw & Hmax & w & Hw) Hfull.
    exists (PB_SET_ERROR "stream full" s), m.
    split; [|unfold PB_SET_ERROR; cbn; by rewrite He].
    unfold pb_write, mbind, M_bind, get. cbn.
    rewrite bool_decide_eq_false_2 by (rewrite Hcb; done). cbn.
    rewrite (proj2 (Z.ltb_lt 0 count)) by lia. cbn.
    replace ((wrapu 64 (bytes_written s + count) <? bytes_written s) ||
             (max_size s <? wrapu 64 (bytes_written s + count))) with true; [done|].
    symmetry. apply orb_true_iff. right. apply Z.ltb_lt.
    rewrite wrapu_id; [lia|unfold in_u; lia].
Qed.

Lemma consistent_write src count : in_u 64 count -> consistent (pb_write e src count).
Proof.
  intros [Hc Hc64]. split.
  { intros s m a s' m' Hs. unfold pb_write, mbind, M_bind, get. cbn.
    rewrite (bool_decide_eq_true_2 _ Hs), andb_false_r. by intros [= <- <- <-]. }
  intros m0 s a s' m' Hs Hr. pose proof Hs as (Hcb & _ & Hbw & Hk & Hfit0 & Hmax).
  unfold sink_limit in Hk.
  assert (exists cs, src_cells (Z.to_nat count) 0 src m0 = Some cs /\ m' = m0 /\
            s' = advanced count s /\ bytes_written s + count <= max_size s /\
            off (o_state s) + count < sink_limit) as
    (cs & Hcs & -> & -> & Hfit & Hlim).
  { revert Hr. unfold pb_write, mbind, M_bind, get. cbn. rewrite Hcb.
    rewrite bool_decide_eq_false_2 by done. rewrite andb_true_r.
    destruct (Z.ltb_spec 0 count) as [Hpos|Hz].
    - destruct (_ || _) eqn:Hchk; [done|]. apply orb_false_iff in Hchk as [Hc1 Hc2].
      apply Z.ltb_ge in Hc1, Hc2.
      unfold mbind, M_bind, status, ostream_callback, get, mbind, M_bind, reading. cbn.
      rewrite Hcb, bool_decide_eq_false_2, sink_writer by done.
      destruct (src_cells (Z.to_nat count) 0 src m0) as [cs|] eqn:E; cbn; [|done].
      pose proof (src_cells_length _ _ _ _ _ E) as Hl.
      unfold sink_callback, mbind, M_bind, get, put. cbn.
      rewrite Hl, Z2Nat.id by lia.
      destruct (Z.ltb_spec (off (o_state s) + count) sink_limit) as [Hlim|]; cbn; [|done].
      intros [= <- <-]. exists cs. split_and!; try done.
      unfold sink_limit in Hlim.
      rewrite wrapu_id in Hc2; [done|unfold in_u; lia].
    - assert (count = 0) as -> by lia. intros [= <- <-]. exists [].
      split_and!; [done|done| |lia|unfold sink_limit; lia].
      rewrite advanced_0 by lia. unfold set_bytes_written.
      rewrite Z.add_0_r, wrapu_id by (unfold in_u; lia). by destruct s. }
  destruct a. exists cs. pose proof (src_cells_length _ _ _ _ _ Hcs).
  assert (len cs = count) as -> by (unfold len; lia).
  destruct (sink_advanced s count Hs Hc Hfit Hlim) as [? ?].
  split_and!; [done..|]. by apply emits_write.
Qed.

Lemma varint_loop_length room v bs : varint_loop room v = Some bs -> (length bs <= room)%nat.
Proof.
  revert v bs. induction room as [|room IH]; intros v bs; cbn; destruct (v =? 0);
    try (intros [= <-]; cbn; lia); try done.
  destruct (varint_loop room (Z.shiftr v 7)) eqn:E; [|done].
  intros [= <-]. cbn. apply IH in E. lia.
Qed.

Lemma consistent_varint v : consistent (pb_encode_varint e v).
Proof.
  unfold pb_encode_varint. destruct (v <=? 0x7F).
  { apply consistent_write. unfold in_u. lia. }
  apply (consistent_bind' _ (fun bs => (length bs <= 10)%nat)).
  - apply pure_read_consistent, pure_of_option.
  - intros s m a s' m'. unfold of_option. destruct (varint_loop 10 v) eqn:E; [|done].
    intros [= <- _ _]. by eapply varint_loop_length.
  - intros bs Hl. apply consistent_write. unfold in_u. lia.
Qed.

Lemma consistent_error {A} msg : consistent (PB_RETURN_ERROR msg : M _ A).
Proof. apply pure_read_consistent, pure_error. Qed.

Lemma consistent_load_u w p : consistent (load_u w p).
Proof. apply pure_read_consistent, pure_load_u. Qed.

Lemma consistent_load_p p : consistent (load_p p).
Proof. apply pure_read_consistent, pure_load_p. Qed.

Lemma consistent_of_option {A} (o : option A) : consistent (of_option o).
Proof. apply pure_read_consistent, pure_of_option. Qed.

Lemma consistent_undefined {A} : consistent (undefined : M _ A).
Proof. apply pure_read_consistent, pure_undefined. Qed.

Lemma consistent_no_fuel {A} : consistent (no_fuel : M _ A).
Proof. apply pure_read_consistent, pure_no_fuel. Qed.

Lemma consistent_false {A} : consistent (return_false : M _ A).
Proof. apply pure_read_consistent, pure_false. Qed.

Lemma returns_load_u w p : 0 <= w -> w mod 8 = 0 -> returns (load_u w p) (in_u w).
Proof.
  intros Hw Hw8 s m a s' m'. unfold load_u, reading.
  destruct (load_int m p (w / 8)) eqn:E; [|done]. intros [= <- _ _].
  apply load_int_range in E. replace (8 * (w / 8)) with w in E; [done|].
  rewrite (Z.div_mod w 8) at 1; lia.
Qed.

(** Whatever [f] makes of a failure, a successful run is a run of [c]. *)
Lemma consistent_status (c : M pb_ostream unit) msg :
  consistent c ->
  consistent (ok ← status c; if ok : bool then mret tt else PB_RETURN_ERROR msg).
Proof.
  intros Hc.
  assert (forall s m0 a s' m', (ok ← status c; if ok : bool then mret tt else PB_RETURN_ERROR msg)
            s m0 = Ret a s' m' -> c s m0 = Ret tt s' m') as Hok.
  { intros s m0 a s' m' Hr. revert Hr. unfold mbind, M_bind, status.
    destruct (c s m0) as [[] s1 m1|s1 m1| |]; [by intros [= _ <- <-]|done..]. }
  split.
  { intros s m a s' m' Hs Hr%Hok. eapply co_quiet; eauto. }
  intros m0 s a s' m' Hs Hrun%Hok.
  destruct a. destruct (co_emits _ Hc _ _ _ _ _ Hs Hrun) as (bs & -> & -> & Hs' & Hb & E).
  exists bs. split_and!; [done..|]. split.
  - intros s1 m Hm Hs1 Hb1. unfold mbind, M_bind, status.
    by rewrite (em_sizing _ _ _ _ E s1 m Hm Hs1 Hb1).
  - intros B s1 m Hf Ho Hfit. destruct (em_write _ _ _ _ E B s1 m Hf Ho Hfit) as (m' & ? & Hw).
    exists m'. split; [done|]. unfold mbind, M_bind, status. by rewrite Hw.
  - intros B s1 m Hf Ho Hfull.
    destruct (em_full _ _ _ _ E B s1 m Hf Ho Hfull) as (s2 & m' & Hw & He).
    exists s2, m'. unfold mbind, M_bind, status. rewrite Hw.
    split; [|done]. cbn. unfold PB_RETURN_ERROR, PB_SET_ERROR. cbn. by rewrite He.
Qed.

Lemma consistent_array_loop n p step body :
  (forall q, consistent (body q)) -> consistent (array_loop n p step body).
Proof.
  intros Hb. revert p. induction n as [|n IH]; intros p; cbn [array_loop]; [apply consistent_ret|].
  apply consistent_bind; auto.
Qed.
End Rules.

Create HintDb consist.
#[export] Hint Resolve consistent_ret consistent_varint consistent_error consistent_load_u
  consistent_load_p consistent_of_option consistent_undefined consistent_no_fuel
  consistent_false : consist.

(** Work through a computation: split binds and case distinctions, close the
    leaves with the rules. *)
Ltac consist :=
  repeat first
    [ solve [eauto with consist]
    | match goal with
      | |- consistent (_ ≫= _) => apply consistent_bind; [|intros ?]
      | |- consistent (match ?x with _ => _ end) => destruct x eqn:?
      | |- consistent (let _ := _ in _) => cbv zeta
      end ].
