(* ===== verification/PbEncodeSpec.v ===== *)
(** * nanopb: the encoder has one output

    The rules of [PbSize] applied to every function of [PbEncode], up to
    [pb_encode] itself: the size a sizing stream measures is the number of
    bytes written, the bytes written do not depend on the stream, and a stream
    that is too small makes the call fail instead of being overrun. *)
From S2P Require Import Prelude CMem PbCore PbIter PbEncode PbSize.

Section Spec.
Context (e : env).
Hypothesis sink_writer : env_writer e sink_fn = Some sink_callback.
Hypothesis descriptors_ok : env_ok e.
(** The user's encoder callbacks write the same data every time they are
    called for the same message, as the contract of [pb_callback_t] asks. *)
Hypothesis user_encode : forall p g f a, env_encode e p = Some g -> consistent (g f a).
Hypothesis user_ext_encode : forall p g x, env_ext_encode e p = Some g -> consistent (g x).

Lemma fields_at_ok p fs : fields_at e p = Some fs -> Forall field_ok fs.
Proof.
  unfold fields_at. case_bool_decide; [|done]. apply (descriptors_ok (blk p)).
Qed.

Hint Extern 1 (consistent (pb_encode_varint _ _)) =>
  apply (consistent_varint e sink_writer) : consist.

Lemma consistent_string src size : in_u 64 size -> consistent (pb_encode_string e src size).
Proof.
  intros. unfold pb_encode_string. consist. by apply consistent_write.
Qed.

Lemma consistent_svarint v : consistent (pb_encode_svarint e v).
Proof. unfold pb_encode_svarint. consist. Qed.

Lemma consistent_tag wt n : consistent (pb_encode_tag e wt n).
Proof. unfold pb_encode_tag. consist. Qed.

Lemma consistent_tag_for_field f : consistent (pb_encode_tag_for_field e f).
Proof. unfold pb_encode_tag_for_field. destruct (wiretype_of f); [apply consistent_tag|consist]. Qed.

Lemma consistent_fixed32 p : consistent (pb_encode_fixed32 e p).
Proof. unfold pb_encode_fixed32. consist. apply consistent_write; [done|]. unfold in_u. lia. Qed.

Lemma consistent_fixed64 p : consistent (pb_encode_fixed64 e p).
Proof. unfold pb_encode_fixed64. consist. apply consistent_write; [done|]. unfold in_u. lia. Qed.

Hint Resolve consistent_svarint consistent_tag consistent_tag_for_field consistent_fixed32
  consistent_fixed64 : consist.

Lemma consistent_load_s w p : consistent (load_s w p).
Proof. unfold load_s. consist. Qed.
Hint Resolve consistent_load_s : consist.

Lemma consistent_load_size p : consistent (load_size p).
Proof. unfold load_size. consist. Qed.
Hint Resolve consistent_load_size : consist.

Lemma consistent_safe_read_bool p : consistent (safe_read_bool p).
Proof. unfold safe_read_bool. consist. Qed.
Hint Resolve consistent_safe_read_bool : consist.

Lemma returns_load_size p : returns (load_size p) (in_u 32).
Proof. apply returns_load_u; [lia|done]. Qed.

Lemma in_u_32_64 n : in_u 32 n -> in_u 64 n.
Proof. unfold in_u. lia. Qed.

Lemma consistent_enc_bytes f src : field_ok f -> consistent (pb_enc_bytes e f src).
Proof.
  intros. unfold pb_enc_bytes. case_bool_decide.
  { apply consistent_string. unfold in_u. lia. }
  apply consistent_bind; [consist|intros _].
  apply (consistent_bind' _ (in_u 32)); [consist|apply returns_load_size|].
  intros. by apply consistent_string, in_u_32_64.
Qed.

Lemma consistent_strnlen fuel p size max : consistent (strnlen_loop fuel p size max).
Proof.
  revert p size. induction fuel as [|fuel IH]; intros p size; cbn [strnlen_loop]; consist.
Qed.

Lemma returns_strnlen fuel p size max :
  0 <= size <= max -> max < 2 ^ 64 -> returns (strnlen_loop fuel p size max) (in_u 64).
Proof.
  revert p size. induction fuel as [|fuel IH]; intros p size Hs Hm s m a s' m'; cbn [strnlen_loop];
    destruct (Z.ltb_spec size max); try done.
  - intros [= <- _ _]. unfold in_u. lia.
  - intros (c & s1 & m1 & _ & Hk)%bind_inv. destruct (c =? 0).
    + injection Hk as <- _ _. unfold in_u. lia.
    + eapply IH; [..|exact Hk]; lia.
  - intros [= <- _ _]. unfold in_u. lia.
Qed.

Lemma consistent_strlen_fuel p : consistent (reading (fun m => strlen_fuel m p)).
Proof.
  apply pure_read_consistent, pure_reading. intros B m0 m a [Hn Ha]. unfold strlen_fuel.
  destruct (blocks m0 !! blk p) as [cs|] eqn:E; [|done]. intros [= <-].
  rewrite <- Ha, E; [done|]. intros He. rewrite He in E. congruence.
Qed.
Hint Resolve consistent_strnlen consistent_strlen_fuel : consist.

Lemma consistent_enc_string f src : field_ok f -> consistent (pb_enc_string e f src).
Proof.
  intros (_ & _ & _ & _ & Hds & _). unfold pb_enc_string. cbv zeta.
  set (max := if bool_decide _ then SIZE_MAX else data_size f).
  assert (0 <= max < 2 ^ 64) as Hmax.
  { subst max. unfold SIZE_MAX, in_u in *. case_bool_decide; lia. }
  apply (consistent_bind' _ (in_u 64)); [consist| |intros; by apply consistent_string].
  intros s m a s' m'. destruct (_ || _).
  { intros [= <- _ _]. unfold in_u. lia. }
  intros (k & s1 & m1 & _ & Hk)%bind_inv. eapply returns_strnlen; [..|exact Hk]; lia.
Qed.

Lemma consistent_load_signed f src : consistent (load_signed_by_size f src).
Proof. unfold load_signed_by_size. consist. Qed.
Hint Resolve consistent_load_signed : consist.

(** *** Packed arrays *)

(** Counting a known number of bytes on a sizing stream, writing them on any
    other. *)
Lemma emits_get_null (c : M pb_ostream unit) m0 bs :
  emits c m0 tt bs -> in_u 64 (len bs) ->
  emits (s ← get; if bool_decide (o_callback s = NULL) then pb_write e SrcNull (len bs) else c)
        m0 tt bs.
Proof.
  intros [E1 E2 E3] Hlen. split.
  - intros s m Hm Hs Hb. unfold mbind, M_bind, get. rewrite (bool_decide_eq_true_2 _ Hs).
    unfold pb_write, mbind, M_bind, get. cbn.
    by rewrite (bool_decide_eq_true_2 _ Hs), andb_false_r.
  - intros B s m Hf Ho Hfit. unfold mbind, M_bind, get. pose proof Ho as (Hc & _).
    rewrite bool_decide_eq_false_2 by (rewrite Hc; done). by apply E2 with B.
  - intros B s m Hf Ho Hfull. unfold mbind, M_bind, get. pose proof Ho as (Hc & _).
    rewrite bool_decide_eq_false_2 by (rewrite Hc; done). by apply E3 with B.
Qed.

(** The output of a write is as long as it was asked to be. *)
Lemma emits_write_length src k m0 bs :
  in_u 64 k -> in_u 64 (len bs) -> emits (pb_write e src k) m0 tt bs -> len bs = k.
Proof.
  intros Hk Hl E.
  pose proof (em_sizing _ _ _ _ E PB_OSTREAM_SIZING m0 ltac:(by left) ltac:(done) ltac:(done)) as Hz.
  unfold pb_write, mbind, M_bind, get in Hz. cbn in Hz. rewrite andb_false_r in Hz. injection Hz as Hz.
  rewrite !wrapu_id in Hz; done.
Qed.

(** On a sink, a loop over elements of [k] bytes each writes [k] per round. *)
Definition fixed_width (c : M pb_ostream unit) (k : Z) : Prop :=
  forall s m s' m', sink s -> c s m = Ret tt s' m' -> bytes_written s' = bytes_written s + k.

Lemma sink_range s : sink s -> 0 <= bytes_written s < 2 ^ 62.
Proof. intros (_ & _ & ? & ? & _). unfold sink_limit in *. lia. Qed.

Lemma fixed_width_write src k : in_u 64 k -> fixed_width (pb_write e src k) k.
Proof.
  intros Hk s m s' m' Hs Hr.
  destruct (co_emits _ (consistent_write e sink_writer src k Hk) _ _ _ _ _ Hs Hr)
    as (bs & -> & -> & Hs' & Hb & E).
  rewrite Hb. f_equal. eapply emits_write_length; [done| |done].
  apply sink_range in Hs, Hs'. pose proof (len_nonneg bs). unfold in_u. lia.
Qed.

Lemma fixed_width_loop n p step body k :
  (forall q, consistent (body q)) -> (forall q, fixed_width (body q) k) ->
  fixed_width (array_loop n p step body) (k * Z.of_nat n).
Proof.
  intros Hc Hw. revert p. induction n as [|n IH]; intros p s m s' m' Hs; cbn [array_loop].
  { intros [= <- _]. lia. }
  intros (a & s1 & m1 & H1 & H2)%bind_inv. destruct a.
  destruct (co_emits _ (Hc p) _ _ _ _ _ Hs H1) as (bs & -> & _ & Hs1 & _).
  rewrite (IH _ _ _ _ _ Hs1 H2), (Hw _ _ _ _ _ Hs H1). lia.
Qed.

Lemma on_stream_sizing_counted (c : M pb_ostream unit) m0 bs s m :
  emits c m0 tt bs -> sees m0 m -> in_u 64 (len bs) ->
  on_stream PB_OSTREAM_SIZING c s m =
  Ret (true, set_bytes_written (len bs) PB_OSTREAM_SIZING) s m.
Proof.
  intros E Hm Hl. unfold on_stream.
  rewrite (em_sizing _ _ _ _ E PB_OSTREAM_SIZING m Hm ltac:(done) ltac:(done)).
  unfold counted. cbn. by rewrite wrapu_id.
Qed.

Lemma quiet_on_stream (c : M pb_ostream unit) s m sub ok s' m' :
  quiet c -> on_stream PB_OSTREAM_SIZING c s m = Ret (ok, sub) s' m' ->
  s' = s /\ (ok = true -> m' = m).
Proof.
  intros Hq. unfold on_stream. destruct (c PB_OSTREAM_SIZING m) eqn:E; intros [= <- <- <- <-];
    (split; [done|]); intros; [|done].
  by destruct (Hq PB_OSTREAM_SIZING _ _ _ _ (eq_refl _) E).
Qed.

(** *** Submessages, arrays and fields *)
Section Level.
Context (enc : ptr -> ptr -> M pb_ostream unit).
Hypothesis enc_consistent : forall fields src, consistent (enc fields src).

(** The length prefix and the second run of [pb_encode_submessage], stream
    by stream. *)
Section Submessage.
Context (fields src : ptr) (m0 : mem) (bs vs : list cell).
Hypothesis body : emits (enc fields src) m0 tt bs.
Hypothesis body_length : in_u 64 (len bs).
Hypothesis prefix : emits (pb_encode_varint e (len bs)) m0 tt vs.

(** The first run measures the body. *)
Lemma submessage_measured s m :
  sees m0 m ->
  pb_encode_submessage e enc fields src s m =
  (pb_encode_varint e (len bs);;
   s ← get;
   if bool_decide (o_callback s = NULL) then pb_write e SrcNull (len bs)
   else if max_size s <? wrapu 64 (bytes_written s + len bs)
   then PB_RETURN_ERROR "stream full"
   else
     '(ok2, sub2) ← on_stream (mk_ostream (o_callback s) (o_state s) (len bs) 0 None)
                              (enc fields src);
     s' ← get;
     put (mk_ostream (o_callback s') (o_state sub2) (max_size s')
                     (wrapu 64 (bytes_written s' + bytes_written sub2))
                     (o_errmsg sub2));;
     if negb (bytes_written sub2 =? len bs) then PB_RETURN_ERROR "submsg size changed"
     else return_bool ok2) s m.
Proof.
  intros Hm. unfold pb_encode_submessage. unfold mbind at 1, M_bind at 1.
  rewrite (on_stream_sizing_counted _ _ _ _ _ body Hm body_length). cbn [negb].
  by rewrite wrapu_id by (cbn; done).
Qed.

Lemma submessage_sizing s m :
  sees m0 m -> sizing s -> in_u 64 (bytes_written s) ->
  pb_encode_submessage e enc fields src s m = Ret tt (counted (len (vs ++ bs)) s) m.
Proof.
  intros Hm Hs Hb. rewrite submessage_measured by done.
  rewrite (bind_Ret _ _ _ _ _ _ _ (em_sizing _ _ _ _ prefix s m Hm Hs Hb)).
  unfold mbind, M_bind, get. rewrite (bool_decide_eq_true_2 _ Hs).
  unfold pb_write, mbind, M_bind, get. cbn.
  rewrite (bool_decide_eq_true_2 _ Hs), andb_false_r. unfold put.
  by rewrite len_app, <- counted_counted.
Qed.

(** The stream after the prefix, when there is room for it. *)
Lemma submessage_prefix B s m :
  frame B m0 m -> onto B s m -> bytes_written s + len vs <= max_size s ->
  exists m1, store_cells m (o_state s) vs = Some m1 /\
    pb_encode_varint e (len bs) s m = Ret tt (advanced (len vs) s) m1 /\
    frame B m0 m1 /\ onto B (advanced (len vs) s) m1 /\
    bytes_written (advanced (len vs) s) = bytes_written s + len vs /\
    bool_decide (o_callback (advanced (len vs) s) = NULL) = false.
Proof.
  intros Hf Ho Hfit.
  destruct (em_write _ _ _ _ prefix B s m Hf Ho Hfit) as (m1 & Hst & Hrun).
  destruct (onto_advanced B s m vs m1 Ho Hfit Hst) as [Ho1 Hbw1].
  exists m1. split_and!; [done|done| |done|done|].
  - eapply frame_store; [exact Hf| |exact Hst]; apply Ho.
  - apply bool_decide_eq_false_2. destruct Ho1 as [-> _]. done.
Qed.

Lemma submessage_write B s m :
  frame B m0 m -> onto B s m -> bytes_written s + len (vs ++ bs) <= max_size s ->
  exists m', store_cells m (o_state s) (vs ++ bs) = Some m' /\
    pb_encode_submessage e enc fields src s m = Ret tt (advanced (len (vs ++ bs)) s) m'.
Proof.
  intros Hf Ho Hfit. rewrite len_app in *. pose proof (len_nonneg bs).
  rewrite submessage_measured by (right; eauto).
  destruct (submessage_prefix B s m Hf Ho) as (m1 & Hst & Hrun & Hf1 & Ho1 & Hbw1 & Hcb); [lia|].
  rewrite (bind_Ret _ _ _ _ _ _ _ Hrun). set (s1 := advanced (len vs) s) in *.
  assert (max_size s1 = max_size s) as Hms by done.
  pose proof Ho1 as (Hc & He & HB & Hbw & Hmax & cs & Hcs).
  unfold mbind at 1, M_bind at 1, get. rewrite Hcb.
  rewrite (wrapu_id 64) by (unfold in_u in *; lia).
  destruct (Z.ltb_spec (max_size s1) (bytes_written s1 + len bs)) as [Hbad|_]; [exfalso; lia|].
  assert (onto B (mk_ostream (o_callback s1) (o_state s1) (len bs) 0 None) m1) as Hsub.
  { unfold onto. cbn. destruct body_length. split_and!; try done.
    replace (max_size s1 - bytes_written s1) with
      (len bs - 0 + (max_size s1 - bytes_written s1 - len bs)) in Hcs by lia.
    apply load_cells_split in Hcs as [Hcs _]; [|lia..]. eauto. }
  destruct (em_write _ _ _ _ body B _ m1 Hf1 Hsub) as (m2 & Hst2 & Hrun2); [cbn; lia|].
  cbn in Hst2. exists m2. split; [by rewrite store_cells_app, Hst|].
  unfold mbind at 1, M_bind at 1, on_stream. rewrite Hrun2.
  unfold mbind, M_bind, get, put. cbn.
  rewrite Z.add_0_l, (wrapu_id 64 (len bs)) by done. rewrite Z.eqb_refl. cbn.
  f_equal. rewrite <- advanced_advanced. fold s1.
  unfold advanced, counted, set_o_state, set_bytes_written. cbn. f_equal.
  change (o_errmsg s = None) in He. by rewrite He.
Qed.

Lemma submessage_full B s m :
  frame B m0 m -> onto B s m -> max_size s < bytes_written s + len (vs ++ bs) < 2 ^ 64 ->
  exists s' m', pb_encode_submessage e enc fields src s m = Fail s' m' /\
                o_errmsg s' = Some "stream full"%string.
Proof.
  intros Hf Ho Hfull. rewrite len_app in Hfull. pose proof (len_nonneg bs).
  rewrite submessage_measured by (right; eauto).
  destruct (decide (bytes_written s + len vs <= max_size s)) as [Hfit|Hno].
  - destruct (submessage_prefix B s m Hf Ho Hfit)
      as (m1 & Hst & Hrun & Hf1 & Ho1 & Hbw1 & Hcb).
    rewrite (bind_Ret _ _ _ _ _ _ _ Hrun). set (s1 := advanced (len vs) s) in *.
    assert (max_size s1 = max_size s) as Hms by done.
    pose proof Ho1 as (Hc & He & HB & Hbw & Hmax & cs & Hcs).
    unfold mbind at 1, M_bind at 1, get. rewrite Hcb.
    rewrite (wrapu_id 64) by (unfold in_u in *; lia).
    rewrite (proj2 (Z.ltb_lt _ _)) by lia.
    eexists _, m1. split; [done|]. unfold PB_SET_ERROR. cbn. cbn in He. by rewrite He.
  - pose proof (len_nonneg vs).
    destruct (em_full _ _ _ _ prefix B s m Hf Ho) as (s' & m' & Hr & He); [lia|].
    rewrite (bind_Fail _ _ _ _ _ _ Hr). eauto.
Qed.

Lemma emits_submessage : emits (pb_encode_submessage e enc fields src) m0 tt (vs ++ bs).
Proof.
  split; [apply submessage_sizing|apply submessage_write|apply submessage_full].
Qed.
End Submessage.

Lemma consistent_submessage fields src : consistent (pb_encode_submessage e enc fields src).
Proof.
  split.
  { intros s m a s' m' Hs. unfold pb_encode_submessage. intros ([ok sub] & s1 & m1 & H1 & H2)%bind_inv.
    destruct (quiet_on_stream _ _ _ _ _ _ _ (co_quiet _ (enc_consistent fields src)) H1) as [-> Hm].
    destruct ok; cbn [negb] in H2; [|by apply bind_inv in H2 as (? & ? & ? & ? & (? & ? & ? & ? & ?)%bind_inv)].
    rewrite (Hm eq_refl) in H2. apply bind_inv in H2 as (v & s2 & m2 & H2 & H3).
    destruct (co_quiet _ (consistent_varint e sink_writer _) _ _ _ _ _ Hs H2) as [-> Hs2].
    unfold mbind, M_bind, get in H3. rewrite (bool_decide_eq_true_2 _ Hs2) in H3.
    eapply (co_quiet _ (consistent_write e sink_writer SrcNull _ _)); eauto.
    Unshelve. apply (wrapu_range 64). lia. }
  intros m0 s a s' m' Hs Hrun. unfold pb_encode_submessage in Hrun.
  apply bind_inv in Hrun as ([ok sub] & s1 & m1 & H1 & H2).
  destruct (quiet_on_stream _ _ _ _ _ _ _ (co_quiet _ (enc_consistent fields src)) H1) as [-> Hm].
  destruct ok; cbn [negb] in H2; [|by apply bind_inv in H2 as (? & ? & ? & ? & (? & ? & ? & ? & ?)%bind_inv)].
  rewrite (Hm eq_refl) in H2. apply bind_inv in H2 as (v & s2 & m2 & H2 & H3).
  destruct (co_emits _ (consistent_varint e sink_writer _) _ _ _ _ _ Hs H2)
    as (vs & -> & Es2 & Hs2 & Hbw2 & Ev).
  set (size := wrapu 64 (bytes_written sub)) in *.
  assert (in_u 64 size) as Hsize by (apply (wrapu_range 64); lia).
  pose proof Hs2 as (Hc2 & He2 & Hb2 & Hk2 & Hf2 & Hmax2).
  unfold mbind at 1, M_bind at 1, get in H3.
  rewrite bool_decide_eq_false_2 in H3 by (rewrite Hc2; done).
  destruct (Z.ltb_spec (max_size s2) (wrapu 64 (bytes_written s2 + size))) as [|Hchk]; [done|].
  unfold mbind at 1, M_bind at 1, on_stream in H3.
  set (sub0 := mk_ostream (o_callback s2) (o_state s2) size 0 None) in *.
  assert (sink sub0) as Hsub.
  { subst sub0. unfold sink. cbn. destruct Hsize. split_and!; try done. lia. }
  destruct (enc fields src sub0 m0) as [[] sub2 m2|sub2 m2| |] eqn:Henc; try done.
  2: { unfold mbind, M_bind, get, put in H3. cbn in H3. by destruct (negb _). }
  destruct (co_emits _ (enc_consistent fields src) _ _ _ _ _ Hsub Henc)
    as (bs & -> & Esub2 & Hsub2 & Hbs & E).
  pose proof (len_nonneg bs). cbn in Hbs. rewrite Z.add_0_l in Hbs. pose proof (sink_range _ Hsub2).
  assert (in_u 64 (len bs)) as Hlen by (unfold in_u in *; lia).
  unfold mbind, M_bind, get, put in H3. cbn in H3. rewrite Hbs in H3.
  destruct (Z.eqb_spec (len bs) size) as [Heq|]; cbn in H3; [|done].
  injection H3 as <- <- <-. destruct v. rewrite <- Heq in Ev, Hchk.
  assert (off (o_state s2) + len bs < sink_limit) as Hlim.
  { destruct Hsub2 as (_ & _ & _ & Hk & _). rewrite Esub2 in Hk. by cbn in Hk. }
  unfold sink_limit in Hk2, Hlim.
  rewrite wrapu_id in Hchk by (unfold in_u; lia).
  destruct (sink_advanced s2 (len bs) Hs2 ltac:(lia) Hchk Hlim) as [Hs3 Hbw3].
  assert (mk_ostream (o_callback s2) (o_state sub2) (max_size s2)
            (wrapu 64 (bytes_written s2 + len bs)) (o_errmsg sub2) = advanced (len bs) s2) as ->.
  { rewrite Esub2. unfold advanced, counted, set_o_state, set_bytes_written. cbn. f_equal.
    by rewrite He2. }
  exists (vs ++ bs). split_and!; [done| |done| |by apply emits_submessage].
  - rewrite len_app, <- advanced_advanced, <- Es2. done.
  - rewrite len_app, Hbw3, Hbw2. lia.
Qed.

Lemma PB_ENCODERS_consistent lt f src :
  field_ok f -> consistent (PB_ENCODERS e enc lt f src).
Proof.
  intros Hf. pose proof Hf as (_ & _ & _ & _ & Hds & _). unfold PB_ENCODERS.
  unfold pb_enc_bool, pb_enc_varint, pb_enc_uvarint, pb_enc_svarint, pb_enc_fixed32,
    pb_enc_fixed64, pb_enc_submessage, pb_enc_fixed_length_bytes.
  repeat match goal with |- consistent ((if ?b then _ else _) _ _) => destruct b end;
    try solve [consist].
  - by apply consistent_enc_bytes.
  - by apply consistent_enc_string.
  - case_bool_decide; [consist|apply consistent_submessage].
  - apply consistent_string. by apply in_u_32_64.
Qed.

(** The first part of [encode_array]'s packed branch reads only. *)
Lemma packed_size_quiet f data count func s m a s' m' :
  quiet (array_loop (Z.to_nat count) data (data_size f) (func f)) ->
  packed_size f data count func s m = Ret a s' m' -> s' = s /\ m' = m /\ in_u 64 a.
Proof.
  intros Hq. unfold packed_size.
  destruct (_ =? _); [intros [= <- <- <-]; split_and!; try done; apply (wrapu_range 64); lia|].
  destruct (_ =? _); [intros [= <- <- <-]; split_and!; try done; apply (wrapu_range 64); lia|].
  intros ([ok sub] & s1 & m1 & H1 & H2)%bind_inv.
  destruct (quiet_on_stream _ _ _ _ _ _ _ Hq H1) as [-> Hm].
  destruct ok; cbn in H2; [|done]. injection H2 as <- <- <-.
  split_and!; [done|by apply Hm|apply (wrapu_range 64); lia].
Qed.

Lemma fixed_loop_length n p step body k s m (bs : list cell) m' :
  (forall q, consistent (body q)) -> (forall q, fixed_width (body q) k) ->
  sink s -> array_loop n p step body s m = Ret tt (advanced (len bs) s) m' ->
  bytes_written (advanced (len bs) s) = bytes_written s + len bs ->
  len bs = k * Z.of_nat n.
Proof.
  intros Hc Hw Hs Hr Hb. pose proof (fixed_width_loop n p step body k Hc Hw _ _ _ _ Hs Hr). lia.
Qed.

Lemma fixed_width_fixed32 q : fixed_width (pb_encode_fixed32 e q) 4.
Proof.
  intros s m s' m' Hs (val & sa & ma & Ha & Hb)%bind_inv.
  unfold load_u, reading in Ha. destruct (load_int m q (32 / 8)); [|done].
  injection Ha as <- <- <-. by eapply fixed_width_write; [| |exact Hb].
Qed.

Lemma fixed_width_fixed64 q : fixed_width (pb_encode_fixed64 e q) 8.
Proof.
  intros s m s' m' Hs (val & sa & ma & Ha & Hb)%bind_inv.
  unfold load_u, reading in Ha. destruct (load_int m q (64 / 8)); [|done].
  injection Ha as <- <- <-. by eapply fixed_width_write; [| |exact Hb].
Qed.

(** The size that prefixes a packed array is the length of what follows,
    computed or measured. *)
Lemma packed_size_announces f data count s s1 m0 m1 m2 size (bs : list cell) :
  let func := PB_ENCODERS e enc (PB_LTYPE (type f)) in
  let loop := array_loop (Z.to_nat count) data (data_size f) (func f) in
  in_u 32 count -> in_u 64 (len bs) -> emits loop m0 tt bs ->
  packed_size f data count func s m0 = Ret size s m1 ->
  sink s1 -> loop s1 m0 = Ret tt (advanced (len bs) s1) m2 ->
  bytes_written (advanced (len bs) s1) = bytes_written s1 + len bs ->
  size = len bs /\ emits (packed_size f data count func) m0 (len bs) [].
Proof.
  intros func loop [Hc0 Hc32] Hlen E Hps Hs1 Hrun Hbw. unfold packed_size in *.
  subst loop func.
  destruct (Z.eqb_spec (PB_LTYPE (type f)) PB_LTYPE_FIXED32) as [E32|N32].
  { rewrite E32 in Hrun. cbn in Hrun. injection Hps as <- _.
    eapply (fixed_loop_length _ _ _ _ 4) in Hrun;
      [|apply consistent_fixed32|apply fixed_width_fixed32|done|done].
    rewrite Z2Nat.id in Hrun by lia.
    rewrite Hrun, wrapu_id by (unfold in_u; lia). split; [done|apply emits_ret]. }
  destruct (Z.eqb_spec (PB_LTYPE (type f)) PB_LTYPE_FIXED64) as [E64|N64].
  { rewrite E64 in Hrun. cbn in Hrun. injection Hps as <- _.
    eapply (fixed_loop_length _ _ _ _ 8) in Hrun;
      [|apply consistent_fixed64|apply fixed_width_fixed64|done|done].
    rewrite Z2Nat.id in Hrun by lia.
    rewrite Hrun, wrapu_id by (unfold in_u; lia). split; [done|apply emits_ret]. }
  pose proof (fun s m Hm => on_stream_sizing_counted _ m0 bs s m E Hm Hlen) as Hon.
  split.
  - unfold mbind, M_bind in Hps. rewrite Hon in Hps by (by left). cbn in Hps.
    rewrite wrapu_id in Hps by done. by injection Hps as <-.
  - apply pure_read_emits. intros s0 m Hm. unfold mbind, M_bind. rewrite Hon by done. cbn.
    by rewrite wrapu_id.
Qed.

Lemma consistent_packed f data count :
  field_ok f -> in_u 32 count ->
  let func := PB_ENCODERS e enc (PB_LTYPE (type f)) in
  let loop := array_loop (Z.to_nat count) data (data_size f) (func f) in
  consistent (size ← packed_size f data count func;
              pb_encode_varint e size;;
              (s ← get; if bool_decide (o_callback s = NULL)
                        then pb_write e SrcNull size else loop)).
Proof.
  intros Hf Hcount func loop.
  assert (consistent loop) as Hloop.
  { apply consistent_array_loop. intros. by apply PB_ENCODERS_consistent. }
  split.
  { intros s m a s' m' Hs (size & s1 & m1 & H1 & H2)%bind_inv.
    destruct (packed_size_quiet _ _ _ _ _ _ _ _ _ (co_quiet _ Hloop) H1) as (-> & -> & Hsize).
    apply bind_inv in H2 as (v & s2 & m2 & H2 & H3).
    destruct (co_quiet _ (consistent_varint e sink_writer _) _ _ _ _ _ Hs H2) as [-> Hs2].
    unfold mbind, M_bind, get in H3. rewrite (bool_decide_eq_true_2 _ Hs2) in H3.
    eapply (co_quiet _ (consistent_write e sink_writer SrcNull size Hsize)); eauto. }
  intros m0 s a s' m' Hs (size & s1 & m1 & H1 & H2)%bind_inv.
  destruct (packed_size_quiet _ _ _ _ _ _ _ _ _ (co_quiet _ Hloop) H1) as (-> & -> & Hsize).
  apply bind_inv in H2 as (v & s2 & m2 & H2 & H3). destruct v.
  destruct (co_emits _ (consistent_varint e sink_writer _) _ _ _ _ _ Hs H2)
    as (vs & -> & Es2 & Hs2 & Hbw2 & Ev).
  unfold mbind, M_bind, get in H3. pose proof Hs2 as (Hc2 & _).
  rewrite bool_decide_eq_false_2 in H3 by (rewrite Hc2; done). destruct a.
  destruct (co_emits _ Hloop _ _ _ _ _ Hs2 H3) as (bs & -> & -> & Hs3 & Hbw3 & E).
  pose proof (sink_range _ Hs2). pose proof (sink_range _ Hs3). pose proof (len_nonneg bs).
  assert (in_u 64 (len bs)) as Hlen by (unfold in_u; lia).
  destruct (packed_size_announces f data count s s2 m0 m0 m0 size bs) as [-> Eps]; auto.
  exists (vs ++ bs). rewrite Es2, advanced_advanced, <- len_app in *.
  split_and!; [done|done|done| |].
  { rewrite Hbw3, Hbw2, len_app. lia. }
  change (vs ++ bs) with ([] ++ (vs ++ bs)).
  eapply emits_bind; [exact Eps|]. eapply emits_bind; [exact Ev|].
  by apply emits_get_null.
Qed.

Lemma consistent_encode_array f data count :
  field_ok f -> in_u 32 count ->
  consistent (encode_array e f data count (PB_ENCODERS e enc (PB_LTYPE (type f)))).
Proof.
  intros Hf Hc. unfold encode_array.
  destruct (_ =? _); [consist|]. destruct (_ && _); [consist|].
  destruct (_ <=? _).
  - apply consistent_bind; [consist|intros _]. by apply consistent_packed.
  - apply consistent_array_loop. intros q. consist; by apply PB_ENCODERS_consistent.
Qed.

Context (is_default : pb_field -> ptr -> M pb_ostream bool).
Hypothesis is_default_consistent : forall f d, field_ok f -> consistent (is_default f d).

Lemma consistent_tag_and_value f data :
  field_ok f ->
  consistent (pb_encode_tag_for_field e f;; PB_ENCODERS e enc (PB_LTYPE (type f)) f data).
Proof. intros Hf. consist. by apply PB_ENCODERS_consistent. Qed.

Lemma consistent_basic_field f data :
  field_ok f -> consistent (encode_basic_field e enc is_default f data).
Proof.
  intros Hf. pose proof Hf as (_ & _ & _ & _ & _ & Has). unfold encode_basic_field.
  cbv zeta. apply consistent_bind.
  { repeat case_bool_decide; consist. }
  intros has0. apply consistent_bind; [case_bool_decide; consist|].
  intros [d has]. case_bool_decide.
  { case_bool_decide; [consist|by apply consistent_tag_and_value]. }
  case_bool_decide.
  { apply consistent_bind; [case_bool_decide; consist|].
    intros []; [by apply consistent_tag_and_value|consist]. }
  case_bool_decide.
  - apply (consistent_bind' _ (in_u 32)).
    + case_bool_decide; consist.
    + case_bool_decide; [apply returns_load_size|]. by intros s m a s' m' [= <- _ _].
    + intros. by apply consistent_encode_array.
  - apply consistent_bind; [case_bool_decide; consist|].
    intros w. destruct (_ =? _); [by apply consistent_tag_and_value|consist].
Qed.

Lemma consistent_field f data :
  field_ok f -> consistent (encode_field e enc is_default f data).
Proof.
  intros Hf. unfold encode_field. cbv zeta.
  case_bool_decide; [by apply consistent_basic_field|].
  case_bool_decide; [|consist]. unfold encode_callback_field.
  apply consistent_bind; [consist|intros q]. case_bool_decide; [consist|].
  destruct (env_encode e q) eqn:E; [|consist].
  apply consistent_status. eauto.
Qed.

Lemma consistent_extension_list fuel x :
  consistent (extension_list e enc is_default fuel x).
Proof.
  revert x. induction fuel as [|fuel IH]; intros x; cbn [extension_list];
    (case_bool_decide; [consist|]); [consist|].
  apply consistent_bind; [consist|intros ty]. apply consistent_bind; [consist|intros fn].
  apply consistent_bind.
  - case_bool_decide.
    + unfold default_extension_encoder.
      apply consistent_bind; [consist|intros ty']. apply consistent_bind; [consist|intros arg].
      apply (consistent_bind' _ (Forall field_ok)); [consist| |].
      { intros s m a s' m'. unfold of_option. destruct (fields_at e arg) eqn:E; [|done].
        intros [= <- _ _]. by eapply fields_at_ok. }
      intros fs Hfs. apply (consistent_bind' _ field_ok); [consist| |].
      { intros s m a s' m'. unfold of_option. destruct (fs !! 0%nat) eqn:E; [|done].
        intros [= <- _ _]. by eapply Forall_lookup_1. }
      intros f Hf. case_bool_decide; [by apply consistent_field|].
      apply consistent_bind; [consist|intros d]. by apply consistent_field.
    + destruct (env_ext_encode e fn) eqn:E; [eauto|consist].
  - intros _. apply consistent_bind; [consist|intros nxt]. apply IH.
Qed.
End Level.

(** *** Loops over the fields of a message *)

Lemma begin_start fs d b it : pb_field_iter_begin fs d = Some (b, it) -> start it = fs.
Proof.
  unfold pb_field_iter_begin. destruct (fs !! 0%nat); cbn; [|done].
  repeat destruct (bool_decide _); by intros [= <- <-].
Qed.

Lemma next_start it b it' : pb_field_iter_next it = Some (b, it') -> start it' = start it.
Proof.
  unfold pb_field_iter_next.
  destruct (start it !! pos it); cbn; [|done]. destruct (bool_decide _); [by intros [= <- <-]|].
  destruct (start it !! S (pos it)); cbn; [|done]. destruct (bool_decide _).
  - destruct (pb_field_iter_begin _ _) as [[b2 it2]|] eqn:E; cbn; [|done].
    intros [= <- <-]. by eapply begin_start.
  - destruct (inside_union _ _); by intros [= <- <-].
Qed.

Lemma consistent_field_loop {A} (stop : A) rounds it body :
  Forall field_ok (start it) ->
  (forall f d, field_ok f -> consistent (body f d)) ->
  consistent (field_loop stop rounds it body).
Proof.
  intros Hs Hb. revert it Hs. induction rounds as [|rounds IH]; intros it Hs;
    cbn [field_loop]; [consist|].
  apply (consistent_bind' _ field_ok); [consist| |].
  { intros s m a s' m'. unfold of_option. destruct (start it !! pos it) eqn:E; [|done].
    intros [= <- _ _]. by eapply Forall_lookup_1. }
  intros f Hf. apply consistent_bind; [by apply Hb|].
  intros [r|]; [consist|].
  apply (consistent_bind' _ (fun r => start r.2 = start it)); [consist| |].
  { intros s m a s' m'. unfold of_option.
    destruct (pb_field_iter_next it) as [[b it']|] eqn:E; [|done].
    intros [= <- _ _]. by eapply next_start. }
  intros [[] it'] Hst; cbn in Hst; [apply IH; by rewrite Hst|consist].
Qed.

(** A message: its descriptor array, its first field, then the loop. *)
Lemma consistent_message {A} fields data (stop : A) (k : list pb_field -> pb_field_iter -> M pb_ostream A) :
  (forall fs it, Forall field_ok fs -> start it = fs -> consistent (k fs it)) ->
  consistent (fs ← of_option (fields_at e fields);
              '(nonempty, it) ← of_option (pb_field_iter_begin fs data);
              if nonempty : bool then k fs it else mret stop).
Proof.
  intros Hk. apply (consistent_bind' _ (Forall field_ok)); [consist| |].
  { intros s m a s' m'. unfold of_option. destruct (fields_at e fields) eqn:E; [|done].
    intros [= <- _ _]. by eapply fields_at_ok. }
  intros fs Hfs. apply (consistent_bind' _ (fun r => start r.2 = fs)); [consist| |].
  { intros s m a s' m'. unfold of_option.
    destruct (pb_field_iter_begin fs data) as [[b it]|] eqn:E; [|done].
    intros [= <- _ _]. by eapply begin_start. }
  intros [[] it] Hst; cbn in Hst; [auto|consist].
Qed.

Lemma consistent_all_zero n p : consistent (all_zero e n p).
Proof.
  revert p. induction n as [|n IH]; intros p; cbn [all_zero]; [consist|].
  apply consistent_bind.
  - apply pure_read_consistent, pure_reading. intros B m0 m a Hf. unfold raw_byte.
    destruct (load_cells m0 p 1) as [l|] eqn:E; [|done].
    by destruct (frame_load _ _ _ _ _ _ Hf E) as [-> _].
  - intros b. destruct (_ =? _); [apply IH|consist].
Qed.

Lemma consistent_proto3_default fuel f d :
  field_ok f -> consistent (pb_check_proto3_default_value e fuel f d).
Proof.
  revert f d. induction fuel as [|fuel IH]; intros f d Hf;
    cbn [pb_check_proto3_default_value]; [consist|]. cbv zeta.
  repeat match goal with
  | |- consistent (if ?b then _ else _) => destruct b
  end; try solve [consist]; [|apply consistent_all_zero].
  apply consistent_message. intros fs it Hfs Hst.
  apply consistent_field_loop; [by rewrite Hst|].
  intros g x Hg. apply consistent_bind; [by apply IH|intros []; consist].
Qed.

Lemma consistent_pb_encode fuel fields src : consistent (pb_encode e fuel fields src).
Proof.
  revert fields src. induction fuel as [|fuel IH]; intros fields src;
    cbn [pb_encode]; [consist|]. unfold encode_message.
  assert (forall k : list pb_field -> pb_field_iter -> M pb_ostream unit,
    (fs ← of_option (fields_at e fields);
     '(nonempty, it) ← of_option (pb_field_iter_begin fs src);
     if negb nonempty then mret tt else k fs it) =
    (fs ← of_option (fields_at e fields);
     '(nonempty, it) ← of_option (pb_field_iter_begin fs src);
     if nonempty : bool then k fs it else mret tt)) as Hneg.
  { intros k. unfold of_option. destruct (fields_at e fields) as [fs|]; [|done].
    unfold mbind, M_bind. by destruct (pb_field_iter_begin fs src) as [[[] it]|]. }
  rewrite (Hneg (fun fs it => field_loop tt (length fs) it _)).
  apply consistent_message. intros fs it Hfs Hst.
  apply consistent_field_loop; [by rewrite Hst|].
  intros f d Hf. apply consistent_bind; [|intros _; consist].
  destruct (_ =? _).
  - unfold encode_extension_field. apply consistent_bind; [consist|intros x].
    apply consistent_extension_list; auto using consistent_proto3_default.
  - apply consistent_field; auto using consistent_proto3_default.
Qed.
End Spec.
