(* ===== verification/PbWire.v ===== *)
(** * nanopb: the wire format

    The protocol buffers wire format with the writers that emit it, and a sample
    message. *)
From S2P Require Import Prelude CMem PbCore PbIter PbEncode PbSize.

(** ** The protocol buffers wire format, and nanopb's writers

    The encodings of the protocol buffers documentation, as functions from
    values to byte lists, independent of the C code: base-128 varints, zigzag,
    little-endian fixed-width integers, keys.  Then: every primitive encoder of
    [pb_encode.c] emits the encoding of its argument. *)

(** ** Varints *)

(** Base 128, least significant group first, the high bit of a byte saying
    that more follow.  Ten groups hold any 64-bit value. *)
Fixpoint leb128 (groups : nat) (v : Z) : list Z :=
  match groups with
  | O => []
  | S groups' => if v <? 128 then [v] else v mod 128 + 128 :: leb128 groups' (v / 128)
  end.

Definition varint (v : Z) : list Z := leb128 10 v.

Fixpoint leb_value (bs : list Z) : Z :=
  match bs with
  | [] => 0
  | b :: bs' => b mod 128 + 128 * leb_value bs'
  end.

(** One complete varint: continuation bytes, then a last one. *)
Fixpoint is_varint (bs : list Z) : bool :=
  match bs with
  | [] => false
  | [b] => bool_decide (0 <= b < 128)
  | b :: bs' => bool_decide (128 <= b < 256) && is_varint bs'
  end.

Lemma is_varint_cons b bs : bs <> [] ->
  is_varint (b :: bs) = bool_decide (128 <= b < 256) && is_varint bs.
Proof. by destruct bs. Qed.

(** Split a varint at its first byte. *)
Lemma is_varint_inv bs : is_varint bs = true ->
  exists b bs', bs = b :: bs' /\
    ((bs' = [] /\ 0 <= b < 128) \/ (128 <= b < 256 /\ is_varint bs' = true)).
Proof.
  destruct bs as [|b [|c bs]]; [done| |].
  - intros H%bool_decide_eq_true. exists b, []. auto.
  - rewrite is_varint_cons by done. intros [H%bool_decide_eq_true H2]%andb_true_iff.
    exists b, (c :: bs). auto.
Qed.

Lemma leb128_nonempty n v : (0 < n)%nat -> leb128 n v <> [].
Proof. destruct n; [lia|]. cbn. by destruct (v <? 128). Qed.

Lemma leb128_length n v : (length (leb128 n v) <= n)%nat.
Proof.
  revert v. induction n as [|n IH]; intros v; cbn; [lia|].
  destruct (v <? 128); cbn; [lia|]. pose proof (IH (v / 128)). lia.
Qed.

Lemma pow128_S n : 128 ^ Z.of_nat (S n) = 128 * 128 ^ Z.of_nat n.
Proof. rewrite Nat2Z.inj_succ, Z.pow_succ_r; lia. Qed.

Lemma leb128_div n v : 0 <= v < 128 ^ Z.of_nat (S n) -> 0 <= v / 128 < 128 ^ Z.of_nat n.
Proof.
  rewrite pow128_S. intros. split; [apply Z.div_pos; lia|]. apply Z.div_lt_upper_bound; lia.
Qed.

Lemma leb128_spec n v : (0 < n)%nat -> 0 <= v < 128 ^ Z.of_nat n ->
  is_varint (leb128 n v) = true /\ leb_value (leb128 n v) = v.
Proof.
  revert v. induction n as [|n IH]; intros v Hn Hv; [lia|]. cbn [leb128].
  destruct (Z.ltb_spec v 128).
  - cbn. rewrite bool_decide_eq_true_2, Z.mod_small by lia. split; [done|lia].
  - destruct n as [|n].
    { change (128 ^ Z.of_nat 1) with 128 in Hv. lia. }
    apply leb128_div in Hv. destruct (IH (v / 128)) as [H1 H2]; [lia|done|].
    pose proof (Z.mod_pos_bound v 128 ltac:(lia)).
    rewrite is_varint_cons by (apply leb128_nonempty; lia).
    rewrite bool_decide_eq_true_2 by lia. split; [done|].
    cbn [leb_value]. rewrite H2.
    replace (v mod 128 + 128) with (v mod 128 + 1 * 128) by lia.
    rewrite Z.mod_add, Z.mod_mod by lia. pose proof (Z.div_mod v 128). lia.
Qed.

Lemma in_u_64_pow v : in_u 64 v -> 0 <= v < 128 ^ Z.of_nat 10.
Proof. unfold in_u. change (128 ^ Z.of_nat 10) with (2 ^ 70). lia. Qed.

Lemma varint_is_varint v : in_u 64 v -> is_varint (varint v) = true.
Proof. intros Hv%in_u_64_pow. apply leb128_spec; [lia|done]. Qed.

Lemma varint_value v : in_u 64 v -> leb_value (varint v) = v.
Proof. intros Hv%in_u_64_pow. apply leb128_spec; [lia|done]. Qed.

Lemma varint_length v : (length (varint v) <= 10)%nat.
Proof. apply leb128_length. Qed.

Lemma is_varint_bytes bs : is_varint bs = true -> Forall (in_u 8) bs.
Proof.
  induction bs as [|b bs IH]; [done|].
  intros (b' & bs' & [= <- <-] & [[-> Hb]|[Hb Hv]])%is_varint_inv;
    (constructor; [unfold in_u; lia|auto]).
Qed.

Lemma leb_value_bound bs : 0 <= leb_value bs < 128 ^ Z.of_nat (length bs).
Proof.
  induction bs as [|b bs IH]; [cbn; lia|]. cbn [leb_value length]. rewrite pow128_S.
  pose proof (Z.mod_pos_bound b 128 ltac:(lia)). lia.
Qed.

(** The shape of an encoding: continuation bytes for the low groups, then the
    top group. *)
Definition continuation (b : Z) : Prop := 128 <= b < 256.

Lemma leb128_cons n v : 128 <= v ->
  leb128 (S n) v = v mod 128 + 128 :: leb128 n (v / 128).
Proof. intros. cbn. by rewrite (proj2 (Z.ltb_ge v 128)). Qed.

Lemma mod_pow128_S v n :
  0 <= v -> v mod 128 ^ Z.of_nat (S n) = v mod 128 + 128 * ((v / 128) mod 128 ^ Z.of_nat n).
Proof.
  intros. rewrite pow128_S, Z.rem_mul_r by lia. done.
Qed.

Lemma div_pow128_S v n : 0 <= v -> v / 128 ^ Z.of_nat (S n) = v / 128 / 128 ^ Z.of_nat n.
Proof. intros. rewrite pow128_S, Z.div_div by lia. done. Qed.

(** The first [a] groups of a value that has more. *)
Lemma leb128_split a n v : 128 ^ Z.of_nat a <= v ->
  exists cs, leb128 (a + n) v = cs ++ leb128 n (v / 128 ^ Z.of_nat a) /\ length cs = a /\
    Forall continuation cs /\ leb_value cs = v mod 128 ^ Z.of_nat a.
Proof.
  revert v. induction a as [|a IH]; intros v Hv.
  - exists []. change (128 ^ Z.of_nat 0) with 1 in *. rewrite Z.div_1_r. by rewrite Z.mod_1_r.
  - assert (0 < 128 ^ Z.of_nat a) by lia. rewrite pow128_S in Hv.
    destruct (IH (v / 128)) as (cs & Hl & Hlen & Hcs & Hval).
    { apply Z.div_le_lower_bound; lia. }
    exists (v mod 128 + 128 :: cs). cbn [Nat.add]. rewrite leb128_cons, Hl by lia.
    pose proof (Z.mod_pos_bound v 128 ltac:(lia)).
    rewrite div_pow128_S, mod_pow128_S by lia. split_and!; [done|cbn; lia| |].
    + constructor; [unfold continuation; lia|done].
    + cbn [leb_value]. rewrite Hval. f_equal.
      replace (v mod 128 + 128) with (v mod 128 + 1 * 128) by lia.
      by rewrite Z.mod_add, Z.mod_mod by lia.
Qed.

(** The number of groups of a value. *)
Lemma pow128_bracket k v : 0 <= v < 128 ^ Z.of_nat (S k) ->
  exists a, (a <= k)%nat /\ v / 128 ^ Z.of_nat a < 128 /\ 0 <= v / 128 ^ Z.of_nat a /\
            ((0 < a)%nat -> 128 ^ Z.of_nat a <= v).
Proof.
  induction k as [|k IH]; intros Hv.
  - exists 0%nat. change (128 ^ Z.of_nat 1) with 128 in Hv. change (128 ^ Z.of_nat 0) with 1.
    rewrite Z.div_1_r. lia.
  - destruct (decide (v < 128 ^ Z.of_nat (S k))) as [Hlt|Hge].
    + destruct (IH ltac:(lia)) as (a & ? & ?). exists a. split; [lia|done].
    + exists (S k). rewrite (pow128_S (S k)) in Hv. assert (0 < 128 ^ Z.of_nat (S k)) by lia.
      split_and!; [lia| |apply Z.div_pos; lia|lia]. apply Z.div_lt_upper_bound; lia.
Qed.

(** All of a small value's encoding: at most [k] groups below the last. *)
Lemma leb128_shape k n v : (k < n)%nat -> 0 <= v < 128 ^ Z.of_nat (S k) ->
  exists cs l, leb128 n v = cs ++ [l] /\ (length cs <= k)%nat /\ Forall continuation cs /\
    0 <= l < 128 /\ v = leb_value cs + l * 128 ^ len cs /\ (cs <> [] -> 128 ^ len cs <= v).
Proof.
  intros Hk Hv. destruct (pow128_bracket k v Hv) as (a & Ha & Hl & Hl0 & Hle).
  pose proof (Z.div_mod v (128 ^ Z.of_nat a) ltac:(lia)) as Hdm.
  destruct (decide (a = 0)%nat) as [->|Hne].
  - exists [], v. change (128 ^ Z.of_nat 0) with 1 in *. rewrite Z.div_1_r in *.
    destruct n; [lia|]. cbn [leb128]. rewrite (proj2 (Z.ltb_lt v 128)) by lia.
    change (len (@nil Z)) with 0. split_and!; try done; cbn; lia.
  - destruct (leb128_split a (n - a) v ltac:(apply Hle; lia)) as (cs & E & Hlen & Hcs & Hval).
    exists cs, (v / 128 ^ Z.of_nat a). replace (a + (n - a))%nat with n in E by lia.
    unfold len. rewrite E, Hlen, Hval. split_and!; try done; try lia.
    destruct (n - a)%nat eqn:En; [lia|]. cbn [leb128]. by rewrite (proj2 (Z.ltb_lt _ 128)) by lia.
Qed.

(** ** Zigzag *)

(** 0, -1, 1, -2, ... numbered from 0. *)
Definition zz (v : Z) : Z := if v <? 0 then -2 * v - 1 else 2 * v.
Definition unzz (u : Z) : Z := if Z.even u then u / 2 else - (u / 2) - 1.

Lemma unzz_zz v : unzz (zz v) = v.
Proof.
  unfold unzz, zz. destruct (Z.ltb_spec v 0).
  - replace (-2 * v - 1) with (1 + 2 * (-v - 1)) by lia.
    rewrite Z.even_add_mul_2. change (Z.even 1) with false. cbn [negb].
    replace (1 + 2 * (- v - 1)) with (1 + (- v - 1) * 2) by lia.
    rewrite Z.div_add by lia. change (1 / 2) with 0. lia.
  - replace (2 * v) with (0 + 2 * v) by lia. rewrite Z.even_add_mul_2. cbn [Z.even].
    replace (0 + 2 * v) with (0 + v * 2) by lia. rewrite Z.div_add by lia.
    change (0 / 2) with 0. lia.
Qed.

Lemma zz_range v : in_s 64 v -> in_u 64 (zz v).
Proof. unfold in_s, in_u, zz. destruct (Z.ltb_spec v 0); lia. Qed.

(** ** The primitive encoders *)

Lemma shiftl_1 x : Z.shiftl x 1 = 2 * x.
Proof. rewrite Z.shiftl_mul_pow2 by lia. lia. Qed.

(** The C expression for zigzag. *)
Lemma zigzag_zz v : in_s 64 v -> zigzag v = zz v.
Proof.
  intros Hv. unfold zigzag, zz. pose proof Hv as Hr. unfold in_s in Hr.
  rewrite !shiftl_1. destruct (Z.ltb_spec v 0).
  - unfold wrapu. rewrite Z.mul_mod_idemp_r by lia.
    rewrite <- (Z.mod_unique (2 * v) (2 ^ 64) (-1) (2 * v + 2 ^ 64)) by lia.
    unfold Z.lnot. symmetry. apply (Z.mod_unique _ _ (-1)); lia.
  - unfold wrapu. rewrite Z.mul_mod_idemp_r by lia. apply Z.mod_small. lia.
Qed.

Lemma varint_loop_leb n v : 0 < v < 128 ^ Z.of_nat n ->
  exists bs, varint_loop n v = Some bs /\ clear_last bs = leb128 n v /\ bs <> [] /\
             length bs = length (leb128 n v).
Proof.
  revert v. induction n as [|n IH]; intros v Hv; [cbn in Hv; lia|].
  assert (u8 (Z.lor (Z.land v 127) 128) = v mod 128 + 128) as E.
  { rewrite land_7F. pose proof (Z.mod_pos_bound v 128 ltac:(lia)).
    rewrite lor_80, wrapu_id by (unfold in_u; lia). done. }
  cbn [varint_loop leb128]. rewrite E. destruct (Z.eqb_spec v 0) as [|_]; [lia|].
  rewrite shiftr_div by lia. change (2 ^ 7) with 128.
  pose proof (leb128_div n v ltac:(lia)) as Hd.
  pose proof (Z.mod_pos_bound v 128 ltac:(lia)).
  destruct (Z.ltb_spec v 128).
  - rewrite Z.div_small by lia. exists [v mod 128 + 128].
    replace (varint_loop n 0) with (Some (@nil Z)) by (by destruct n).
    split_and!; [done| |done|done]. cbn. f_equal. rewrite land_7F.
    replace (v mod 128 + 128) with (v mod 128 + 1 * 128) by lia.
    rewrite Z.mod_add, Z.mod_mod, Z.mod_small by lia. done.
  - pose proof (Z.div_le_lower_bound v 128 1 ltac:(lia) ltac:(lia)).
    destruct (IH (v / 128)) as (bs & -> & Hc & Hne & Hl); [lia|].
    eexists. split_and!; [done| |done|cbn; lia].
    destruct bs; [done|]. cbn. f_equal. done.
Qed.

Lemma src_cells_local bs m : src_cells (length bs) 0 (SrcLocal bs) m = Some (Byte <$> bs).
Proof.
  assert (forall pre, src_cells (length bs) (Z.of_nat (length pre)) (SrcLocal (pre ++ bs)) m
                      = Some (Byte <$> bs)) as H; [|by apply (H [])].
  induction bs as [|b bs IH]; intros pre; [done|]. cbn.
  rewrite Nat2Z.id, (list_lookup_middle pre bs b (length pre)) by done. cbn.
  specialize (IH (pre ++ [b])). rewrite length_app, <- app_assoc in IH. cbn in IH.
  replace (Z.of_nat (length pre) + 1) with (Z.of_nat (length pre + 1)) by lia.
  by rewrite IH.
Qed.

(** ** Keys and fixed-width integers *)

(** A field's number and the wire type of its value. *)
Definition key (n wt : Z) : Z := 8 * n + wt.

Lemma key_range n wt : in_u 3 wt -> in_u 32 n -> in_u 64 (key n wt).
Proof. unfold in_u, key. lia. Qed.

Lemma key_lor n wt : in_u 3 wt -> in_u 32 n -> Z.lor (wrapu 64 (Z.shiftl n 3)) wt = key n wt.
Proof.
  intros Hwt Hn. unfold key, in_u in *.
  rewrite wrapu_id by (unfold in_u; rewrite Z.shiftl_mul_pow2; lia).
  rewrite Z.lor_comm, lor_shiftl_add by lia. lia.
Qed.

Lemma fixed32_le v : fixed32_bytes v = le_split 4 v.
Proof.
  unfold fixed32_bytes. cbn [le_split].
  rewrite !land_FF, !shiftr_div by lia. rewrite !Z.div_div by lia. done.
Qed.

Lemma fixed64_le v : fixed64_bytes v = le_split 8 v.
Proof.
  unfold fixed64_bytes. cbn [le_split].
  rewrite !land_FF, !shiftr_div by lia. rewrite !Z.div_div by lia. done.
Qed.

Section Writers.
Context (e : env).

Lemma emits_local bs n m0 :
  n = len bs -> emits (pb_write e (SrcLocal bs) n) m0 tt (Byte <$> bs).
Proof.
  intros ->. apply emits_write; [apply len_nonneg|].
  unfold len. rewrite Nat2Z.id. apply src_cells_local.
Qed.

Lemma emits_varint v m0 : in_u 64 v -> emits (pb_encode_varint e v) m0 tt (Byte <$> varint v).
Proof.
  intros Hv. unfold pb_encode_varint, varint. destruct (Z.leb_spec v 127).
  - cbn [leb128]. rewrite (proj2 (Z.ltb_lt v 128)) by lia. unfold in_u in Hv.
    rewrite wrapu_id by (unfold in_u; lia). by apply emits_local.
  - apply in_u_64_pow in Hv. destruct (varint_loop_leb 10 v ltac:(lia)) as (bs & -> & <- & _ & Hl).
    rewrite <- (app_nil_l (Byte <$> _)). eapply emits_bind.
    { apply pure_read_emits. done. }
    apply emits_local. unfold len. revert Hl. clear. intros Hl.
    f_equal. induction bs as [|b [|c bs]]; done.
Qed.

Lemma emits_svarint v m0 :
  in_s 64 v -> emits (pb_encode_svarint e v) m0 tt (Byte <$> varint (zz v)).
Proof.
  intros Hv. unfold pb_encode_svarint. rewrite zigzag_zz by done.
  by apply emits_varint, zz_range.
Qed.

Lemma emits_tag wt n m0 :
  in_u 3 wt -> in_u 32 n -> emits (pb_encode_tag e wt n) m0 tt (Byte <$> varint (key n wt)).
Proof.
  intros Hwt Hn. unfold pb_encode_tag. rewrite key_lor by done.
  by apply emits_varint, key_range.
Qed.

Lemma emits_load_u w p v m0 : load_int m0 p (w / 8) = Some v -> emits (load_u w p) m0 v [].
Proof.
  intros Hv. apply pure_read_emits. intros s m [->|[B Hf]]; unfold load_u, reading.
  - by rewrite Hv.
  - by rewrite (frame_load_int _ _ _ _ _ _ Hf Hv).
Qed.

Lemma emits_fixed32 p v m0 :
  load_int m0 p 4 = Some v -> emits (pb_encode_fixed32 e p) m0 tt (Byte <$> le_split 4 v).
Proof.
  intros Hv. unfold pb_encode_fixed32. rewrite <- (app_nil_l (Byte <$> _)).
  eapply emits_bind; [by apply emits_load_u|].
  rewrite fixed32_le. by apply emits_local.
Qed.

Lemma emits_fixed64 p v m0 :
  load_int m0 p 8 = Some v -> emits (pb_encode_fixed64 e p) m0 tt (Byte <$> le_split 8 v).
Proof.
  intros Hv. unfold pb_encode_fixed64. rewrite <- (app_nil_l (Byte <$> _)).
  eapply emits_bind; [by apply emits_load_u|].
  rewrite fixed64_le. by apply emits_local.
Qed.

(** A string or byte array: its length, then its bytes. *)
Lemma emits_string bs m0 :
  in_u 64 (len bs) ->
  emits (pb_encode_string e (SrcLocal bs) (len bs)) m0 tt (Byte <$> varint (len bs) ++ bs).
Proof.
  intros Hl. unfold pb_encode_string. rewrite fmap_app.
  eapply emits_bind; [by apply emits_varint|by apply emits_local].
Qed.
End Writers.

(** ** nanopb: a sample message

    Descriptors and the memory image of one message, as the generator lays
    them out, on which the theorems about nanopb are exercised:
<<
      struct Inner { int32_t x; };
      struct Outer { int32_t a; pb_size_t xs_count; uint32_t xs[3];
                     bool has_sub; Inner sub; char s[8]; };
>> *)

Definition inner_fields : list pb_field :=
  [ mk_field 1 (PB_ATYPE_STATIC + PB_HTYPE_REQUIRED + PB_LTYPE_VARINT) 0 0 4 0 NULL;
    PB_LAST_FIELD ].

Definition inner_ptr : ptr := mk_ptr 101 0.
Definition outer_ptr : ptr := mk_ptr 100 0.

Definition outer_fields : list pb_field :=
  [ mk_field 1 (PB_ATYPE_STATIC + PB_HTYPE_REQUIRED + PB_LTYPE_VARINT) 0 0 4 0 NULL;
    mk_field 2 (PB_ATYPE_STATIC + PB_HTYPE_REPEATED + PB_LTYPE_UVARINT) 4 (-4) 4 3 NULL;
    mk_field 3 (PB_ATYPE_STATIC + PB_HTYPE_OPTIONAL + PB_LTYPE_SUBMESSAGE) 4 (-4) 4 0 inner_ptr;
    mk_field 4 (PB_ATYPE_STATIC + PB_HTYPE_REQUIRED + PB_LTYPE_STRING) 0 0 8 0 NULL;
    PB_LAST_FIELD ].

Definition sample_descriptors : gmap Z (list pb_field) :=
  {[ 100 := outer_fields; 101 := inner_fields ]}.

(** Its program: no user functions but the sink. *)
Definition sample_env : env :=
  mk_env sample_descriptors
    (fun p => if bool_decide (p = sink_fn) then Some sink_callback else None)
    (fun _ => None) (fun _ => None) (fun _ => None) (fun _ => None) (fun _ => None)
    (fun _ _ => true) (fun _ _ => 1).

(** [{ .a = -1, .xs = {1, 300}, .has_sub = true, .sub = { 150 }, .s = "hi" }] in block 1. *)
Definition sample_message : list cell := Byte <$>
  [ 255; 255; 255; 255;  2; 0; 0; 0;  1; 0; 0; 0;  44; 1; 0; 0;  0; 0; 0; 0;
    1; 0; 0; 0;  150; 0; 0; 0;  104; 105; 0; 0; 0; 0; 0; 0 ].

Definition sample_ptr : ptr := mk_ptr 1 0.
Definition sample_mem : mem := mk_mem {[ 1 := sample_message ]} 10.

(** The same memory with an output buffer of [n] bytes in block 2. *)
Definition sample_buf : ptr := mk_ptr 2 0.
Definition with_buffer (n : nat) : mem :=
  mk_mem (<[2 := replicate n Undef]> (blocks sample_mem)) 10.

Definition sink_stream : pb_ostream := mk_ostream sink_fn (mk_ptr 5 0) (2 ^ 62) 0 None.

Lemma sample_env_ok : env_ok sample_env.
Proof. unfold env_ok. apply (bool_decide_unpack _). vm_compute. exact I. Qed.

Lemma sample_sink : sink sink_stream.
Proof. unfold sink, sink_limit. cbn. split_and!; (done || lia). Qed.

(** The wire bytes of the sample message. *)
Definition sample_wire : list Z :=
  [ 8; 255; 255; 255; 255; 255; 255; 255; 255; 255; 1;
    18; 3; 1; 172; 2;  26; 3; 8; 150; 1;  34; 2; 104; 105 ].

Example sample_encodes :
  pb_encode sample_env 3 outer_ptr sample_ptr sink_stream sample_mem =
  Ret tt (advanced 25 sink_stream) sample_mem.
Proof. vm_compute. reflexivity. Qed.

Example sample_to_buffer :
  match pb_encode sample_env 3 outer_ptr sample_ptr (pb_ostream_from_buffer sample_buf 32)
          (with_buffer 32) with
  | Ret _ s m => (bytes_written s, load_bytes m sample_buf 25)
  | _ => (0, None)
  end = (25, Some sample_wire).
Proof. vm_compute. reflexivity. Qed.
