(* ===== verification/PbIn.v ===== *)
(** * nanopb: input ([pb_decode.c])

    Input streams and the primitive decoders, then what a stream delivers. *)
From S2P Require Import Prelude CMem PbCore PbEncode PbSize PbWire.

(** ** nanopb: input streams and the primitive decoders ([pb_decode.c])

    From [buf_read] to [pb_close_string_substream], and the public helpers
    [pb_decode_svarint], [pb_decode_fixed32] and [pb_decode_fixed64]. *)

(** The destination of a read: nothing (skip), the message in memory, or a
    local array of the caller, whose contents are then the result. *)
Inductive bdst :=
| DstNull
| DstMem (p : ptr)
| DstLocal.

Definition set_i_state (p : ptr) (s : pb_istream) : pb_istream :=
  mk_istream (i_callback s) p (bytes_left s) (i_errmsg s).

Definition set_bytes_left (n : Z) (s : pb_istream) : pb_istream :=
  mk_istream (i_callback s) (i_state s) n (i_errmsg s).

Definition pb_istream_from_buffer (buf : ptr) (bufsize : Z) : pb_istream :=
  mk_istream buf_read_fn buf bufsize None.

Section Try.
Context {S : Type} `{HasErrmsg S}.

(** Run [c]; its result when it returns [true], [None] when it returns [false]. *)
Definition try_ {A} (c : M S A) : M S (option A) := fun s m =>
  match c s m with
  | Ret a s' m' => Ret (Some a) s' m'
  | Fail s' m' => Ret None s' m'
  | Undefined => Undefined
  | NoFuel => NoFuel
  end.

Definition set_error (msg : string) : M S unit := fun s m => Ret tt (PB_SET_ERROR msg s) m.

(** [if (!f(...)) PB_RETURN_ERROR(stream, msg);] *)
Definition or_error {A} (msg : string) (c : M S A) : M S A :=
  r ← try_ c;
  match r with Some a => mret a | None => PB_RETURN_ERROR msg end.

(** A local variable whose address is taken: an object of [n] bytes that
    lives until the function returns, whatever it returns. *)
Definition with_local {A} (n : Z) (k : ptr -> M S A) : M S A := fun s m =>
  let '(p, m1) := alloc m n in
  match k p s m1 with
  | Ret a s' m' => match free m' p with Some m2 => Ret a s' m2 | None => Undefined end
  | Fail s' m' => match free m' p with Some m2 => Fail s' m2 | None => Undefined end
  | Undefined => Undefined
  | NoFuel => NoFuel
  end.
End Try.

Definition buf_read (dst : bdst) (count : Z) : M pb_istream (list Z) :=
  s ← get;
  let source := i_state s in
  put (set_i_state (ptr_add source count) s);;
  match dst with
  | DstNull => mret []
  | DstMem p => writing (copy_loop (Z.to_nat count) 0 p (SrcMem source));; mret []
  | DstLocal => reading (fun m => load_bytes m source count)
  end.

Section In.
Context (e : env).

(** [stream->callback(stream, buf, count)]. *)
Definition istream_callback (dst : bdst) (count : Z) : M pb_istream (list Z) :=
  s ← get;
  if bool_decide (i_callback s = buf_read_fn) then buf_read dst count
  else match env_reader e (i_callback s) with
       | Some f =>
           bs ← f count;
           match dst with
           | DstNull => mret []
           | DstMem p => writing (fun m => store_bytes m p bs);; mret []
           | DstLocal => mret bs
           end
       | None => undefined
       end.

(** The part of [pb_read] after the skipping of input. *)
Definition read_checked (dst : bdst) (count : Z) : M pb_istream (list Z) :=
  if count =? 0 then mret []
  else
    s ← get;
    if bytes_left s <? count then PB_RETURN_ERROR "end-of-stream"
    else
      bs ← or_error "io error" (istream_callback dst count);
      s' ← get;
      put (set_bytes_left (wrapu 64 (bytes_left s' - count)) s');;
      mret bs.

(** Skipping input of a stream that is not a buffer, 16 bytes at a time
    through the local array [tmp]. *)
Fixpoint skip_loop (rounds : nat) (count : Z) : M pb_istream (list Z) :=
  if 16 <? count then
    match rounds with
    | O => no_fuel
    | S rounds' => read_checked DstLocal 16;; skip_loop rounds' (count - 16)
    end
  else read_checked DstLocal count;; mret [].

Definition pb_read (dst : bdst) (count : Z) : M pb_istream (list Z) :=
  if count =? 0 then mret []
  else
    s ← get;
    match dst with
    | DstNull => if bool_decide (i_callback s ≠ buf_read_fn)
                 then skip_loop (Z.to_nat (count / 16)) count
                 else read_checked DstNull count
    | _ => read_checked dst count
    end.

(** [pb_byte_t byte; pb_read(stream, &byte, 1)]. *)
Definition read_one : M pb_istream Z :=
  bs ← pb_read DstLocal 1;
  of_option (bs !! 0%nat).

Definition pb_readbyte : M pb_istream Z :=
  s ← get;
  if bytes_left s =? 0 then PB_RETURN_ERROR "end-of-stream"
  else
    bs ← or_error "io error" (istream_callback DstLocal 1);
    s' ← get;
    put (set_bytes_left (wrapu 64 (bytes_left s' - 1)) s');;
    of_option (bs !! 0%nat).

(** *** Varints *)

Definition more (byte : Z) : bool := negb (Z.land byte 0x80 =? 0).

(** The multibyte loop of [pb_decode_varint32_eof].  [bitpos] is a
    [uint_fast8_t], 8 bits wide on the platforms of the application.  The
    result is [None] where the C function returns [false]. *)
Fixpoint varint32_loop (fuel : nat) (bitpos result : Z) : M pb_istream (option Z) :=
  match fuel with
  | O => no_fuel
  | S fuel' =>
    b ← try_ pb_readbyte;
    match b with
    | None => mret None
    | Some byte =>
      let sign_extension := if bitpos <? 63 then 0xFF else 0x01 in
      if (32 <=? bitpos) && (negb (Z.land byte 0x7F =? 0) &&
           ((Z.shiftr result 31 =? 0) || negb (byte =? sign_extension)))
      then set_error "varint overflow";; mret None
      else
        let result' := if 32 <=? bitpos then result
                       else Z.lor result (wrapu 32 (Z.shiftl (Z.land byte 0x7F) bitpos)) in
        let bitpos' := wrapu 8 (bitpos + 7) in
        if more byte then varint32_loop fuel' bitpos' result'
        else if (bitpos' =? 35) && negb (Z.land byte 0x70 =? 0)
        then set_error "varint overflow";; mret None
        else mret (Some result')
    end
  end.

(** The value read, or [None] with the end-of-file flag. *)
Definition pb_decode_varint32_eof : M pb_istream (option Z * bool) :=
  b ← try_ pb_readbyte;
  match b with
  | None => s ← get; mret (None, bytes_left s =? 0)
  | Some byte =>
      if Z.land byte 0x80 =? 0 then mret (Some byte, false)
      else
        s ← get;
        r ← varint32_loop (S (Z.to_nat (bytes_left s))) 7 (Z.land byte 0x7F);
        mret (r, false)
  end.

Definition pb_decode_varint32 : M pb_istream Z :=
  '(r, _) ← pb_decode_varint32_eof;
  match r with Some v => mret v | None => return_false end.

(** Eleven rounds are always enough: at [bitpos = 70] the loop stops. *)
Fixpoint varint_read_loop (fuel : nat) (bitpos result : Z) : M pb_istream Z :=
  match fuel with
  | O => no_fuel
  | S fuel' =>
      if 64 <=? bitpos then PB_RETURN_ERROR "varint overflow"
      else
        byte ← pb_readbyte;
        let result' := Z.lor result (wrapu 64 (Z.shiftl (Z.land byte 0x7F) bitpos)) in
        if more byte then varint_read_loop fuel' (wrapu 8 (bitpos + 7)) result'
        else mret result'
  end.

Definition pb_decode_varint : M pb_istream Z := varint_read_loop 11 0 0.

Fixpoint skip_varint_loop (fuel : nat) : M pb_istream unit :=
  match fuel with
  | O => no_fuel
  | S fuel' => byte ← read_one;
               if more byte then skip_varint_loop fuel' else mret tt
  end.

Definition pb_skip_varint : M pb_istream unit :=
  s ← get; skip_varint_loop (S (Z.to_nat (bytes_left s))).

Definition pb_skip_string : M pb_istream unit :=
  length ← pb_decode_varint32;
  pb_read DstNull length;;
  mret tt.

(** [Some (wire_type, tag)] when the C function returns [true]; the flag is
    [*eof]. *)
Definition pb_decode_tag : M pb_istream (option (Z * Z) * bool) :=
  '(r, eof) ← pb_decode_varint32_eof;
  match r with
  | None => mret (None, eof)
  | Some temp =>
      if temp =? 0 then mret (None, true)
      else mret (Some (Z.land temp 7, Z.shiftr temp 3), false)
  end.

Definition pb_skip_field (wire_type : Z) : M pb_istream unit :=
  if wire_type =? PB_WT_VARINT then pb_skip_varint
  else if wire_type =? PB_WT_64BIT then pb_read DstNull 8;; mret tt
  else if wire_type =? PB_WT_STRING then pb_skip_string
  else if wire_type =? PB_WT_32BIT then pb_read DstNull 4;; mret tt
  else PB_RETURN_ERROR "invalid wire_type".

(** The [do .. while] loop of [read_raw_value]: the number of
    bytes put in the buffer at [buf]. *)
Fixpoint raw_varint_loop (room : nat) (size : Z) (buf : ptr) : M pb_istream Z :=
  match room with
  | O => return_false
  | S room' =>
      pb_read (DstMem buf) 1;;
      b ← load_u 8 buf;
      if more b then raw_varint_loop room' (size + 1) (ptr_add buf 1)
      else mret (size + 1)
  end.

(** The result is the final [*size]. *)
Definition read_raw_value (wire_type : Z) (buf : ptr) (max_size : Z) : M pb_istream Z :=
  if wire_type =? PB_WT_VARINT then raw_varint_loop (Z.to_nat max_size) 0 buf
  else if wire_type =? PB_WT_64BIT then pb_read (DstMem buf) 8;; mret 8
  else if wire_type =? PB_WT_32BIT then pb_read (DstMem buf) 4;; mret 4
  else PB_RETURN_ERROR "invalid wire_type".

(** *** Substreams *)

Definition pb_make_string_substream : M pb_istream pb_istream :=
  size ← pb_decode_varint32;
  s ← get;
  if bytes_left s <? size then PB_RETURN_ERROR "parent stream too short"
  else
    put (set_bytes_left (wrapu 64 (bytes_left s - size)) s);;
    mret (set_bytes_left size s).

Definition pb_close_string_substream (substream : pb_istream) : M pb_istream unit :=
  '(ok, sub) ← (if negb (bytes_left substream =? 0)
                then on_stream substream (pb_read DstNull (bytes_left substream);; mret tt)
                else mret (true, substream));
  if negb ok then return_false
  else
    s ← get;
    put (mk_istream (i_callback s) (i_state sub) (bytes_left s) (i_errmsg sub)).

(** *** Scalars *)

Definition unzigzag (value : Z) : Z :=
  if negb (Z.land value 1 =? 0) then wraps 64 (Z.lnot (Z.shiftr value 1))
  else wraps 64 (Z.shiftr value 1).

Definition pb_decode_svarint : M pb_istream Z :=
  value ← pb_decode_varint;
  mret (unzigzag value).

Definition read_le32 (b : list Z) : Z :=
  Z.lor (Z.lor (Z.lor (Z.shiftl (b !!! 0%nat) 0) (Z.shiftl (b !!! 1%nat) 8))
               (Z.shiftl (b !!! 2%nat) 16))
        (wrapu 32 (Z.shiftl (b !!! 3%nat) 24)).

Definition pb_decode_fixed32 (dest : ptr) : M pb_istream unit :=
  bytes ← pb_read DstLocal 4;
  store_i 32 dest (read_le32 bytes).

Definition read_le64 (b : list Z) : Z :=
  foldl Z.lor 0 (imap (fun i x => Z.shiftl x (8 * Z.of_nat i)) (take 8 b)).

Definition pb_decode_fixed64 (dest : ptr) : M pb_istream unit :=
  bytes ← pb_read DstLocal 8;
  store_i 64 dest (read_le64 bytes).
End In.

(** ** nanopb: what a stream delivers, and the primitive decoders

    [ByteSource] states what the decoder relies on in a stream callback; the
    buffer streams of the library and list-backed user callbacks implement it.
    Against that interface: [consumes c m a bs], the decoder [c] takes exactly
    the bytes [bs] from the stream and yields [a]. *)

(** ** The interface of a stream *)

(** [R cb st m bs]: a stream with callback [cb] in state [st] can deliver at
    least the bytes [bs] in memory [m].  [B] is the object the data is in; a
    stream does not change when other objects do. *)
Class ByteSource (e : env) (B : Z) (R : ptr -> ptr -> mem -> list Z -> Prop) := {
  source_bytes : forall cb st m bs, R cb st m bs -> Forall (in_u 8) bs;
  source_local : forall s m a b,
    R (i_callback s) (i_state s) m (a ++ b) -> 0 < len a ->
    exists st', istream_callback e DstLocal (len a) s m = Ret a (set_i_state st' s) m /\
                R (i_callback s) st' m b;
  source_null : forall s m a b,
    R (i_callback s) (i_state s) m (a ++ b) -> 0 < len a -> i_callback s = buf_read_fn ->
    exists st', istream_callback e DstNull (len a) s m = Ret [] (set_i_state st' s) m /\
                R (i_callback s) st' m b;
  source_mem : forall s m p a b cs,
    R (i_callback s) (i_state s) m (a ++ b) -> 0 < len a -> blk p <> B ->
    load_cells m p (len a) = Some cs ->
    exists st' m', store_bytes m p a = Some m' /\
      istream_callback e (DstMem p) (len a) s m = Ret [] (set_i_state st' s) m' /\
      R (i_callback s) st' m' b;
  source_frame : forall cb st m m' bs,
    R cb st m bs -> blocks m' !! B = blocks m !! B -> R cb st m' bs }.

(** *** Buffers: [pb_istream_from_buffer] *)

Definition buffer_at (B : Z) (cb st : ptr) (m : mem) (bs : list Z) : Prop :=
  cb = buf_read_fn /\ blk st = B /\ load_bytes m st (len bs) = Some bs.

Lemma load_bytes_app m p x y :
  load_bytes m p (len (x ++ y)) = Some (x ++ y) ->
  load_bytes m p (len x) = Some x /\ load_bytes m (ptr_add p (len x)) (len y) = Some y.
Proof.
  intros (Hc & Hb & _)%load_bytes_Some. rewrite len_app in Hc.
  apply Forall_app in Hb as [Hx Hy]. rewrite fmap_app in Hc.
  apply load_cells_split in Hc as [H1 H2]; [|apply len_nonneg..].
  assert (Z.to_nat (len x) = length (Byte <$> x)) as E by (unfold len; rewrite length_fmap; lia).
  rewrite E, take_app_length in H1. rewrite E, drop_app_length in H2.
  unfold load_bytes. rewrite H1, H2, !all_bytes_fmap by done. done.
Qed.

Lemma src_cells_mem n m st i cs :
  load_cells m (ptr_add st i) (Z.of_nat n) = Some cs -> src_cells n i (SrcMem st) m = Some cs.
Proof.
  revert i cs. induction n as [|n IH]; intros i cs Hl; cbn.
  { apply load_cells_length in Hl. by destruct cs. }
  replace (Z.of_nat (S n)) with (1 + Z.of_nat n) in Hl by lia.
  pose proof (load_cells_length _ _ _ _ Hl) as Hlen.
  apply load_cells_split in Hl as [H1 H2]; [|lia..]. rewrite ptr_add_add in H2.
  destruct cs as [|c cs]; [cbn in Hlen; lia|].
  change (take (Z.to_nat 1) (c :: cs)) with [c] in H1.
  change (drop (Z.to_nat 1) (c :: cs)) with cs in H2.
  by rewrite H1, (IH _ _ H2).
Qed.

(** Copying between different objects is one store. *)
Lemma copy_loop_bytes m st p a cs :
  load_bytes m st (len a) = Some a -> blk p <> blk st -> load_cells m p (len a) = Some cs ->
  exists m', store_bytes m p a = Some m' /\
             copy_loop (Z.to_nat (len a)) 0 p (SrcMem st) m = Some m'.
Proof.
  intros (Ha & _ & _)%load_bytes_Some Hne Hp.
  set (m0 := mk_mem (delete (blk p) (blocks m)) (next m)).
  assert (frame (blk p) m0 m) as Hf.
  { split; cbn; [by rewrite lookup_delete_eq|]. intros b Hb. by rewrite lookup_delete_ne. }
  destruct (copy_loop_store (blk p) m0 (Z.to_nat (len a)) 0 (SrcMem st) m p (Byte <$> a) cs)
    as (m' & Hcopy & Hstore); [done|done| | |].
  - apply src_cells_mem. rewrite ptr_add_0, Z2Nat.id by apply len_nonneg.
    rewrite <- Ha. unfold load_cells. cbn. by rewrite lookup_delete_ne.
  - by rewrite ptr_add_0, Z2Nat.id by apply len_nonneg.
  - rewrite ptr_add_0 in Hstore. eauto.
Qed.

Lemma store_bytes_other m p bs m' B :
  store_bytes m p bs = Some m' -> blk p <> B -> blocks m' !! B = blocks m !! B.
Proof.
  intros (cs & _ & _ & _ & ->)%store_cells_Some Hne. cbn. by rewrite lookup_insert_ne.
Qed.

#[export] Instance buffer_source e B : ByteSource e B (buffer_at B).
Proof.
  split.
  - by intros cb st m bs (_ & _ & (_ & H & _)%load_bytes_Some).
  - intros s m a b (Hcb & HB & [H1 H2]%load_bytes_app) Ha.
    exists (ptr_add (i_state s) (len a)). split; [|done].
    unfold istream_callback, mbind, M_bind, get. rewrite (bool_decide_eq_true_2 _ Hcb).
    unfold buf_read, mbind, M_bind, get, put, reading. by rewrite H1.
  - intros s m a b (Hcb & HB & [H1 H2]%load_bytes_app) Ha _.
    exists (ptr_add (i_state s) (len a)). split; [|done].
    unfold istream_callback, mbind, M_bind, get. by rewrite (bool_decide_eq_true_2 _ Hcb).
  - intros s m p a b cs (Hcb & HB & [H1 H2]%load_bytes_app) Ha Hp Hcs.
    destruct (copy_loop_bytes m (i_state s) p a cs H1 ltac:(congruence) Hcs) as (m' & Hst & Hcp).
    exists (ptr_add (i_state s) (len a)), m'. split_and!; [done| |split_and!; [done|done|]].
    + unfold istream_callback, mbind, M_bind, get. rewrite (bool_decide_eq_true_2 _ Hcb).
      unfold buf_read, mbind, M_bind, get, put, writing. by rewrite Hcp.
    + rewrite <- H2. unfold load_bytes, load_cells. cbn. rewrite HB.
      by rewrite (store_bytes_other _ _ _ _ B Hst).
  - intros cb st m m' bs (Hcb & HB & Hl) E. split_and!; [done|done|].
    rewrite <- Hl. unfold load_bytes, load_cells. by rewrite HB, E.
Qed.

(** *** A user callback that delivers a fixed list of bytes and keeps its
    position in [stream->state] *)

Definition list_reader (data : list Z) (count : Z) : M pb_istream (list Z) :=
  s ← get;
  let o := off (i_state s) in
  if o + count <=? len data
  then put (set_i_state (ptr_add (i_state s) count) s);;
       mret (take (Z.to_nat count) (drop (Z.to_nat o) data))
  else return_false.

Definition list_at (fn : ptr) (data : list Z) (cb st : ptr) (m : mem) (bs : list Z) : Prop :=
  cb = fn /\ 0 <= off st /\ exists tl, drop (Z.to_nat (off st)) data = bs ++ tl.

Lemma list_source e fn data :
  env_reader e fn = Some (list_reader data) -> fn <> buf_read_fn -> Forall (in_u 8) data ->
  ByteSource e 0 (list_at fn data).
Proof.
  intros He Hfn Hdata.
  assert (forall s m a b, list_at fn data (i_callback s) (i_state s) m (a ++ b) ->
    0 < len a ->
    list_reader data (len a) s m = Ret a (set_i_state (ptr_add (i_state s) (len a)) s) m /\
    list_at fn data (i_callback s) (ptr_add (i_state s) (len a)) m b /\
    bool_decide (i_callback s = buf_read_fn) = false) as Hread.
  { intros s m a b (Hcb & Ho & tl & Hd) Ha. rewrite <- app_assoc in Hd.
    pose proof (f_equal length Hd) as Hl. rewrite length_drop, !length_app in Hl.
    unfold list_reader, mbind, M_bind, get, put. split_and!.
    - destruct (Z.leb_spec (off (i_state s) + len a) (len data)) as [_|Hbad].
      + rewrite Hd. unfold len. by rewrite Nat2Z.id, take_app_length.
      + unfold len in *. lia.
    - split_and!; [done|cbn; lia|]. exists tl. cbn. unfold len. rewrite Z2Nat.inj_add, Nat2Z.id by lia.
      by rewrite <- drop_drop, Hd, drop_app_length.
    - apply bool_decide_eq_false_2. congruence. }
  split.
  - intros cb st m bs (_ & _ & tl & Hd). apply (Forall_drop _ (Z.to_nat (off st))) in Hdata.
    rewrite Hd in Hdata. by apply Forall_app in Hdata as [? _].
  - intros s m a b Hs Ha. destruct (Hread _ _ _ _ Hs Ha) as (Hr & Hs' & Hb).
    eexists; split; [|exact Hs']. unfold istream_callback, mbind, M_bind, get.
    destruct Hs as (Hcb & _). by rewrite Hb, Hcb, He, Hr.
  - intros s m a b (Hcb & _) _ Hbuf. congruence.
  - intros s m p a b cs Hs Ha Hp Hcs. destruct (Hread _ _ _ _ Hs Ha) as (Hr & Hs' & Hb).
    destruct (store_cells_ok m p (Byte <$> a) cs) as [m' Hm'].
    { rewrite length_fmap. done. }
    eexists _, m'; split_and!; [done| |exact Hs'].
    unfold istream_callback, mbind, M_bind, get. destruct Hs as (Hcb & _).
    rewrite Hb, Hcb, He, Hr. unfold writing, store_bytes. by rewrite Hm'.
  - done.
Qed.
