(* ===== verification/PbReadSpec.v ===== *)
(** * nanopb: the primitive decoders, against the wire format

    What [pb_decode_varint], [pb_decode_varint32], [pb_decode_tag],
    [pb_skip_field], the substreams and the fixed-width readers do on every
    input, for any stream that satisfies [ByteSource]. *)
From S2P Require Import Prelude CMem PbCore PbEncode PbSize PbWire PbIn.

(** ** Parsing a varint *)

Inductive vresult :=
| VOk (v : Z) (rest : list Z)
| VShort
| VLong.

(** At most [groups] bytes of a varint from the front of [bs]. *)
Fixpoint parse_varint (groups : nat) (bs : list Z) : vresult :=
  match groups, bs with
  | O, _ => VLong
  | _, [] => VShort
  | S groups', b :: bs' =>
      if b <? 128 then VOk b bs'
      else match parse_varint groups' bs' with
           | VOk v rest => VOk (b mod 128 + 128 * v) rest
           | r => r
           end
  end.

Lemma parse_varint_complete n bs rest :
  is_varint bs = true -> (length bs <= n)%nat ->
  parse_varint n (bs ++ rest) = VOk (leb_value bs) rest.
Proof.
  revert bs. induction n as [|n IH]; intros bs (b & bs' & -> & Hcase)%is_varint_inv Hl;
    cbn in Hl; [lia|].
  cbn [app parse_varint leb_value]. destruct Hcase as [[-> Hb]|[Hb Hv]].
  - rewrite (proj2 (Z.ltb_lt b 128)) by lia. cbn. rewrite Z.mod_small by lia.
    f_equal. lia.
  - rewrite (proj2 (Z.ltb_ge b 128)) by lia. by rewrite IH by (done || lia).
Qed.

(** ** Reading from a source *)

Section Read.
Context {e : env} {B : Z} {R : ptr -> ptr -> mem -> list Z -> Prop} `{BS : !ByteSource e B R}.

(** The stream [s] still has the bytes [bs], and [tl] follow them in the
    data that it shares with enclosing streams. *)
Definition source (s : pb_istream) (m : mem) (bs tl : list Z) : Prop :=
  R (i_callback s) (i_state s) m (bs ++ tl) /\ bytes_left s = len bs /\ in_u 64 (len bs).

Definition same_stream (s s' : pb_istream) : Prop :=
  i_callback s' = i_callback s /\ i_errmsg s' = i_errmsg s.

(** [c] yields [a], takes exactly the bytes [bs] and leaves memory [m']. *)
Definition consumes {A} (c : M pb_istream A) (m : mem) (a : A) (bs : list Z) (m' : mem) : Prop :=
  forall s rest tl, source s m (bs ++ rest) tl ->
  exists s', c s m = Ret a s' m' /\ source s' m' rest tl /\ same_stream s s'.

(** [c] returns [false], for reason [msg] unless an error was pending. *)
Definition fails {A} (c : M pb_istream A) (s : pb_istream) (m : mem) (msg : string) : Prop :=
  exists s' m', c s m = Fail s' m' /\ i_errmsg s' = Some (default msg (i_errmsg s)).

Lemma consumes_ret {A} (a : A) m : consumes (mret a) m a [] m.
Proof. intros s rest tl Hs. exists s. done. Qed.

Lemma same_stream_trans s1 s2 s3 : same_stream s1 s2 -> same_stream s2 s3 -> same_stream s1 s3.
Proof. unfold same_stream. intros [-> ->] [-> ->]. done. Qed.

Lemma consumes_bind {A A'} (c : M pb_istream A) (k : A -> M pb_istream A') m a m1 b m2 bs1 bs2 :
  consumes c m a bs1 m1 -> consumes (k a) m1 b bs2 m2 ->
  consumes (c ≫= k) m b (bs1 ++ bs2) m2.
Proof.
  intros Hc Hk s rest tl Hs. rewrite <- app_assoc in Hs.
  destruct (Hc s _ tl Hs) as (s1 & E1 & Hs1 & S1).
  destruct (Hk s1 _ tl Hs1) as (s2 & E2 & Hs2 & S2).
  exists s2. split_and!; [|done|by eapply same_stream_trans].
  by rewrite (bind_Ret _ _ _ _ _ _ _ E1).
Qed.

Lemma consumes_then {A A'} (c : M pb_istream A) (k : A -> M pb_istream A') m a m1 b m2 bs1 bs2 bs :
  bs = bs1 ++ bs2 -> consumes c m a bs1 m1 -> consumes (k a) m1 b bs2 m2 ->
  consumes (c ≫= k) m b bs m2.
Proof. intros ->. apply consumes_bind. Qed.

Lemma source_range s m b bs tl : source s m (b :: bs) tl -> in_u 8 b.
Proof.
  intros [Hs%source_bytes _]. by inversion Hs.
Qed.

Lemma fails_error {A} msg s m : fails (PB_RETURN_ERROR msg : M _ A) s m msg.
Proof.
  eexists _, m. split; [done|]. unfold PB_SET_ERROR. cbn. by destruct (i_errmsg s) eqn:E.
Qed.

Lemma fails_bind {A A'} (c : M pb_istream A) (k : A -> M pb_istream A') s m msg :
  fails c s m msg -> fails (c ≫= k) s m msg.
Proof. intros (s' & m' & E & He). exists s', m'. by rewrite (bind_Fail _ _ _ _ _ _ E). Qed.

Lemma fails_after {A A'} (c : M pb_istream A) (k : A -> M pb_istream A') s m a s1 m1 msg :
  c s m = Ret a s1 m1 -> same_stream s s1 -> fails (k a) s1 m1 msg -> fails (c ≫= k) s m msg.
Proof.
  intros E [_ He] (s' & m' & Ek & Hk). exists s', m'. rewrite (bind_Ret _ _ _ _ _ _ _ E).
  by rewrite <- He.
Qed.

(** Delivered bytes leave the rest. *)
Lemma source_after s m m' a bs tl st :
  source s m (a ++ bs) tl -> R (i_callback s) st m' (bs ++ tl) ->
  source (set_bytes_left (wrapu 64 (bytes_left s - len a)) (set_i_state st s)) m' bs tl.
Proof.
  intros (_ & Hleft & Hr) HR. unfold source. cbn.
  rewrite Hleft, len_app. replace (len a + len bs - len a) with (len bs) by lia.
  rewrite len_app in Hr. pose proof (len_nonneg a). pose proof (len_nonneg bs).
  unfold in_u in *. rewrite wrapu_id by (unfold in_u; lia). split_and!; [done|done|lia..].
Qed.

Lemma readbyte_spec b m : consumes (pb_readbyte e) m b [b] m.
Proof.
  intros s bs tl Hs. pose proof Hs as (HR & Hleft & Hrange). cbn in HR.
  destruct (source_local s m [b] (bs ++ tl) HR ltac:(done)) as (st' & Hcall & HR').
  eexists. split_and!; [|by eapply source_after|done].
  unfold pb_readbyte. unfold mbind at 1, M_bind at 1, get.
  rewrite (proj2 (Z.eqb_neq _ _)) by (rewrite Hleft; unfold len; cbn [app length]; lia).
  unfold or_error, try_, mbind, M_bind, get, put. change (len [b]) with 1 in Hcall.
  rewrite Hcall. done.
Qed.

Lemma readbyte_eof s m tl : source s m [] tl -> fails (pb_readbyte e) s m "end-of-stream".
Proof.
  intros (_ & Hleft & _). unfold pb_readbyte, fails, mbind, M_bind, get. rewrite Hleft.
  apply fails_error.
Qed.

(** *** 64-bit varints *)

Lemma varint_step b bitpos result :
  in_u 8 b -> 0 <= bitpos <= 63 -> 0 <= result < 2 ^ bitpos ->
  let r := Z.lor result (wrapu 64 (Z.shiftl (Z.land b 0x7F) bitpos)) in
  0 <= r < 2 ^ (bitpos + 7) /\
  r = (result + b mod 128 * 2 ^ bitpos) mod 2 ^ 64.
Proof.
  intros Hb Hbp Hr r. subst r. rewrite land_7F.
  assert (wrapu 64 (Z.shiftl (b mod 128) bitpos)
          = Z.shiftl (b mod 128 mod 2 ^ (64 - bitpos)) bitpos) as ->.
  { unfold wrapu. rewrite !Z.shiftl_mul_pow2 by lia.
    replace (2 ^ 64) with (2 ^ (64 - bitpos) * 2 ^ bitpos)
      by (rewrite <- Z.pow_add_r by lia; f_equal; lia).
    rewrite Zmult_mod_distr_r. done. }
  rewrite lor_shiftl_add by lia.
  pose proof (Z.mod_pos_bound (b mod 128) (2 ^ (64 - bitpos)) ltac:(lia)) as Hm.
  pose proof (Z.mod_le (b mod 128) (2 ^ (64 - bitpos))) as Hle.
  pose proof (Z.mod_pos_bound b 128 ltac:(lia)) as Hb128.
  assert (2 ^ 64 = 2 ^ (64 - bitpos) * 2 ^ bitpos) as E64.
  { rewrite <- Z.pow_add_r by lia. f_equal. lia. }
  assert (2 ^ (bitpos + 7) = 128 * 2 ^ bitpos) as E7 by (rewrite Z.pow_add_r; lia).
  assert (0 < 2 ^ bitpos) by lia. assert (0 < 2 ^ (64 - bitpos)) by lia.
  split; [rewrite E7; nia|].
  symmetry. rewrite E64 at 1. rewrite Z.add_mod, Zmult_mod_distr_r by lia.
  rewrite (Z.mod_small result) by nia. apply Z.mod_small. nia.
Qed.

Definition value_at (bitpos result v : Z) : Z := (result + v * 2 ^ bitpos) mod 2 ^ 64.

Lemma varint_read_loop_spec n bitpos result bs s m tl :
  bitpos = 7 * (10 - Z.of_nat n) -> (n <= 10)%nat -> 0 <= result < 2 ^ bitpos ->
  source s m bs tl ->
  match parse_varint n bs with
  | VOk v rest => exists s', varint_read_loop e (S n) bitpos result s m
                             = Ret (value_at bitpos result v) s' m /\
                             source s' m rest tl /\ same_stream s s'
  | VShort => fails (varint_read_loop e (S n) bitpos result) s m "end-of-stream"
  | VLong => fails (varint_read_loop e (S n) bitpos result) s m "varint overflow"
  end.
Proof.
  revert bitpos result bs s. induction n as [|n IH]; intros bitpos result bs s Hbp Hn Hres Hs.
  { cbn [parse_varint]. subst bitpos. apply fails_error. }
  cbn [parse_varint]. remember (S n) as k. cbn [varint_read_loop]. subst k.
  rewrite (proj2 (Z.leb_gt 64 bitpos)) by lia.
  destruct bs as [|b bs]; [by apply fails_bind, readbyte_eof with tl|].
  destruct (readbyte_spec b m s bs tl Hs) as (s1 & E1 & Hs1 & S1).
  pose proof (source_range _ _ _ _ _ Hs) as Hb.
  destruct (varint_step b bitpos result Hb ltac:(lia) Hres) as [Hr' Er'].
  assert (more b = negb (b <? 128)) as Em.
  { unfold more. rewrite land_80 by done. destruct (Z.ltb_spec b 128);
      destruct (decide (b < 128)); (done || lia). }
  destruct (Z.ltb_spec b 128) as [Hlt|Hge].
  - exists s1. rewrite (bind_Ret _ _ _ _ _ _ _ E1), Em. cbn [negb]. rewrite Er'.
    unfold value_at, in_u in *. rewrite (Z.mod_small b) by lia. done.
  - pose proof (IH (bitpos + 7) _ bs s1 ltac:(lia) ltac:(lia) Hr' Hs1) as Hrec.
    assert (wrapu 8 (bitpos + 7) = bitpos + 7) as Ew by (apply wrapu_id; unfold in_u; lia).
    destruct (parse_varint n bs) as [v rest| |].
    + destruct Hrec as (s' & Es' & Hs' & S'). exists s'. rewrite (bind_Ret _ _ _ _ _ _ _ E1), Em.
      cbn [negb]. rewrite Ew, Es'. split_and!; [|done|by eapply same_stream_trans].
      f_equal. unfold value_at. rewrite Er', Z.add_mod_idemp_l by lia. f_equal.
      rewrite Z.pow_add_r by lia. change (2 ^ 7) with 128. lia.
    + eapply fails_after; [exact E1|done|]. rewrite Em. cbn [negb]. by rewrite Ew.
    + eapply fails_after; [exact E1|done|]. rewrite Em. cbn [negb]. by rewrite Ew.
Qed.
(** [pb_decode_varint] on every input. *)
Lemma decode_varint_spec bs s m tl :
  source s m bs tl ->
  match parse_varint 10 bs with
  | VOk v rest => exists s', pb_decode_varint e s m = Ret (v mod 2 ^ 64) s' m /\
                             source s' m rest tl /\ same_stream s s'
  | VShort => fails (pb_decode_varint e) s m "end-of-stream"
  | VLong => fails (pb_decode_varint e) s m "varint overflow"
  end.
Proof.
  intros Hs. pose proof (varint_read_loop_spec 10 0 0 bs s m tl) as H.
  unfold value_at in H. unfold pb_decode_varint.
  specialize (H eq_refl ltac:(lia) ltac:(lia) Hs).
  destruct (parse_varint 10 bs); try done. by rewrite Z.add_0_l, Z.mul_1_r in H.
Qed.

Lemma consumes_varint v m : in_u 64 v -> consumes (pb_decode_varint e) m v (varint v) m.
Proof.
  intros Hv s rest tl Hs. pose proof (decode_varint_spec _ _ _ _ Hs) as H.
  rewrite parse_varint_complete in H by (apply varint_is_varint || apply varint_length; done).
  rewrite varint_value, (Z.mod_small v) in H by done. done.
Qed.

(** *** 32-bit varints *)

Lemma more_high b : 128 <= b < 256 -> more b = true.
Proof.
  intros. unfold more. rewrite land_80 by (unfold in_u; lia). by destruct (decide (b < 128)); [lia|].
Qed.

Lemma more_low b : 0 <= b < 128 -> more b = false.
Proof.
  intros. unfold more. rewrite land_80 by (unfold in_u; lia). by destruct (decide (b < 128)); [|lia].
Qed.

(** What one round makes of a byte at [bitpos < 32]. *)
Lemma varint32_step b bitpos result :
  in_u 8 b -> 0 <= bitpos < 32 -> 0 <= result < 2 ^ bitpos ->
  let r := Z.lor result (wrapu 32 (Z.shiftl (Z.land b 0x7F) bitpos)) in
  0 <= r < 2 ^ Z.min 32 (bitpos + 7) /\
  r = (result + b mod 128 * 2 ^ bitpos) mod 2 ^ 32.
Proof.
  intros Hb Hbp Hr r. subst r. rewrite land_7F.
  assert (2 ^ 32 = 2 ^ (32 - bitpos) * 2 ^ bitpos) as E32.
  { rewrite <- Z.pow_add_r by lia. f_equal. lia. }
  assert (wrapu 32 (Z.shiftl (b mod 128) bitpos)
          = Z.shiftl (b mod 128 mod 2 ^ (32 - bitpos)) bitpos) as ->.
  { unfold wrapu. rewrite !Z.shiftl_mul_pow2 by lia.
    rewrite E32, Zmult_mod_distr_r. done. }
  rewrite lor_shiftl_add by lia.
  pose proof (Z.mod_pos_bound (b mod 128) (2 ^ (32 - bitpos)) ltac:(lia)) as Hm.
  pose proof (Z.mod_le (b mod 128) (2 ^ (32 - bitpos))) as Hle.
  pose proof (Z.mod_pos_bound b 128 ltac:(lia)) as Hb128.
  assert (2 ^ (bitpos + 7) = 128 * 2 ^ bitpos) as E7 by (rewrite Z.pow_add_r; lia).
  assert (0 < 2 ^ bitpos) by lia. assert (0 < 2 ^ (32 - bitpos)) by lia.
  split.
  - destruct (Z.min_spec 32 (bitpos + 7)) as [[_ ->]|[_ ->]]; [rewrite E32|rewrite E7]; nia.
  - symmetry. rewrite E32 at 1. rewrite Z.add_mod, Zmult_mod_distr_r by lia.
    rewrite (Z.mod_small result) by nia. apply Z.mod_small. nia.
Qed.

Lemma try_readbyte b bs s m tl :
  source s m (b :: bs) tl ->
  exists s', try_ (pb_readbyte e) s m = Ret (Some b) s' m /\ source s' m bs tl /\ same_stream s s'.
Proof.
  intros Hs. destruct (readbyte_spec b m s bs tl Hs) as (s' & E & ? & ?).
  exists s'. unfold try_. by rewrite E.
Qed.

(** The first groups, as long as more bytes follow them. *)
Lemma varint32_low cs bitpos result fuel bs s m tl :
  Forall continuation cs -> 0 <= bitpos -> bitpos + 7 * len cs <= 35 ->
  0 <= result < 2 ^ Z.min 32 bitpos -> source s m (cs ++ bs) tl ->
  exists s', source s' m bs tl /\ same_stream s s' /\
    varint32_loop e (length cs + fuel) bitpos result s m =
    varint32_loop e fuel (bitpos + 7 * len cs) ((result + leb_value cs * 2 ^ bitpos) mod 2 ^ 32) s' m.
Proof.
  revert bitpos result s. induction cs as [|b cs IH]; intros bitpos result s Hcs Hbp Hlen Hres Hs.
  { exists s. split_and!; [done|done|]. cbn [length Nat.add leb_value].
    assert (2 ^ Z.min 32 bitpos <= 2 ^ 32) by (apply Z.pow_le_mono_r; lia).
    rewrite Z.mul_0_l, Z.add_0_r, Z.mod_small by lia. f_equal. unfold len. cbn. lia. }
  inversion Hcs as [|x l Hb Hcs']; subst x l. unfold continuation in Hb.
  assert (len (b :: cs) = 1 + len cs) as El by (unfold len; cbn; lia). rewrite El in Hlen |- *.
  pose proof (len_nonneg cs).
  destruct (try_readbyte b (cs ++ bs) s m tl Hs) as (s1 & E1 & Hs1 & S1).
  rewrite Z.min_r in Hres by lia.
  destruct (varint32_step b bitpos result ltac:(unfold in_u; lia) ltac:(lia) Hres) as [Hr' Er'].
  destruct (IH (bitpos + 7) _ s1 Hcs' ltac:(lia) ltac:(lia) Hr' Hs1) as (s' & Hs' & S' & E').
  exists s'. split_and!; [done|by eapply same_stream_trans|].
  cbn [length Nat.add varint32_loop]. rewrite (bind_Ret _ _ _ _ _ _ _ E1).
  rewrite (proj2 (Z.leb_gt 32 bitpos)) by lia. cbn [andb].
  rewrite more_high by done. rewrite (wrapu_id 8) by (unfold in_u; lia).
  rewrite E', Er'. f_equal; [lia|]. rewrite Z.add_mod_idemp_l by lia. f_equal.
  cbn [leb_value]. rewrite Z.pow_add_r by lia. change (2 ^ 7) with 128. lia.
Qed.

(** The last byte, below bit 32: a fifth byte holds only four more bits. *)
Lemma varint32_last l bitpos result fuel bs s m tl :
  0 <= l < 128 -> 0 <= bitpos <= 21 \/ bitpos = 28 -> 0 <= result < 2 ^ bitpos -> source s m (l :: bs) tl ->
  exists s', source s' m bs tl /\
    (if decide (result + l * 2 ^ bitpos < 2 ^ 32)
     then same_stream s s' /\
          varint32_loop e (S fuel) bitpos result s m = Ret (Some (result + l * 2 ^ bitpos)) s' m
     else i_errmsg s' = Some (default "varint overflow"%string (i_errmsg s)) /\
          varint32_loop e (S fuel) bitpos result s m = Ret None s' m).
Proof.
  intros Hl Hbp Hres Hs. destruct (try_readbyte l bs s m tl Hs) as (s1 & E1 & Hs1 & S1).
  destruct (varint32_step l bitpos result ltac:(unfold in_u; lia) ltac:(lia) Hres) as [Hr' Er'].
  cbn [varint32_loop]. rewrite (bind_Ret _ _ _ _ _ _ _ E1).
  rewrite (proj2 (Z.leb_gt 32 bitpos)) by lia. cbn [andb].
  rewrite more_low by done. rewrite (wrapu_id 8) by (unfold in_u; lia).
  rewrite (Z.mod_small l) in Er' by lia. rewrite Er'.
  assert ((Z.land l 112 =? 0) = (l mod 128 <? 16)) as -> by by_byte l.
  rewrite (Z.mod_small l) by lia.
  assert (result + l * 2 ^ bitpos < 2 ^ 32 <-> bitpos <> 28 \/ l < 16) as Hiff.
  { destruct (decide (bitpos = 28)) as [->|Hne]; [lia|].
    assert (2 ^ bitpos <= 2 ^ 21) by (apply Z.pow_le_mono_r; lia). nia. }
  destruct (decide (result + l * 2 ^ bitpos < 2 ^ 32)) as [Hlt|Hge].
  - exists s1. split_and!; [done|done|].
    rewrite Z.mod_small by nia. destruct (Z.eqb_spec (bitpos + 7) 35); [|done].
    by rewrite (proj2 (Z.ltb_lt l 16)) by lia.
  - exists (PB_SET_ERROR "varint overflow" s1). split; [|split].
    + destruct Hs1 as (HR & ? & ?). unfold source, PB_SET_ERROR. cbn. by destruct (i_errmsg s1).
    + destruct S1 as [_ Eq]. unfold PB_SET_ERROR. cbn. rewrite <- Eq. by destruct (i_errmsg s1) eqn:E.
    + assert (bitpos = 28) as -> by lia. by rewrite (proj2 (Z.ltb_ge l 16)) by lia.
Qed.

(** The first byte has its continuation bit: the loop takes over. *)
Lemma varint32_eof_more b bs s m tl :
  continuation b -> source s m (b :: bs) tl ->
  exists s', source s' m bs tl /\ same_stream s s' /\
    pb_decode_varint32_eof e s m =
    (r ← varint32_loop e (S (length bs)) 7 (b mod 128); mret (r, false)) s' m.
Proof.
  intros Hb Hs. unfold continuation in Hb.
  destruct (try_readbyte b bs s m tl Hs) as (s1 & E1 & Hs1 & S1).
  exists s1. split_and!; [done|done|]. unfold pb_decode_varint32_eof.
  rewrite (bind_Ret _ _ _ _ _ _ _ E1). rewrite land_80 by (unfold in_u; lia).
  destruct (decide (b < 128)); [lia|]. cbn [Z.eqb]. unfold mbind, M_bind, get.
  destruct Hs1 as (_ & -> & _). unfold len. by rewrite Nat2Z.id, land_7F.
Qed.

(** Values below 2^35: five bytes at most. *)
Lemma varint32_small v s m rest tl :
  0 <= v < 2 ^ 35 -> source s m (varint v ++ rest) tl ->
  exists s', source s' m rest tl /\
    (if decide (v < 2 ^ 32)
     then same_stream s s' /\ pb_decode_varint32_eof e s m = Ret (Some v, false) s' m
     else i_errmsg s' = Some (default "varint overflow"%string (i_errmsg s)) /\
          pb_decode_varint32_eof e s m = Ret (None, false) s' m).
Proof.
  intros Hv Hs. unfold varint in Hs.
  destruct (leb128_shape 4 10 v ltac:(lia) Hv) as (cs & l & E & Hlen & Hcs & Hl & Hval & _).
  rewrite E in Hs. destruct cs as [|b cs].
  - cbn in Hval. rewrite Z.mul_1_r, Z.add_0_l in Hval. subst v.
    destruct (try_readbyte l rest s m tl Hs) as (s1 & E1 & Hs1 & S1).
    exists s1. split; [done|]. rewrite decide_True by lia. split; [done|].
    unfold pb_decode_varint32_eof. rewrite (bind_Ret _ _ _ _ _ _ _ E1).
    rewrite land_80 by (unfold in_u; lia). by rewrite decide_True by lia.
  - inversion Hcs as [|x y Hb Hcs']; subst x y.
    rewrite <- app_assoc in Hs. cbn [app] in Hs.
    destruct (varint32_eof_more _ _ _ _ _ Hb Hs) as (s1 & Hs1 & S1 & ->).
    pose proof (Z.mod_pos_bound b 128 ltac:(lia)). cbn in Hlen.
    replace (S (length (cs ++ l :: rest))) with (length cs + S (S (length rest)))%nat
      by (rewrite length_app; cbn; lia).
    destruct (varint32_low cs 7 (b mod 128) (S (S (length rest))) (l :: rest) s1 m tl Hcs')
      as (s2 & Hs2 & S2 & Eloop); [lia|unfold len; lia|by change (2 ^ Z.min 32 7) with 128|done|].
    unfold mbind, M_bind. rewrite Eloop.
    assert (leb_value (b :: cs) = b mod 128 + leb_value cs * 2 ^ 7) as Hlow by (cbn; lia).
    pose proof (leb_value_bound (b :: cs)) as Hbound. rewrite Hlow in Hval, Hbound.
    assert (128 ^ Z.of_nat (length (b :: cs)) = 2 ^ (7 + 7 * len cs)) as E128.
    { change 128 with (2 ^ 7). rewrite <- Z.pow_mul_r by lia. f_equal. unfold len. cbn. lia. }
    unfold len in Hval at 1. rewrite E128 in Hval, Hbound.
    rewrite Z.mod_small by (split; [lia|]; eapply Z.lt_le_trans;
      [apply Hbound|apply Z.pow_le_mono_r; unfold len; lia]).
    destruct (varint32_last l (7 + 7 * len cs) (b mod 128 + leb_value cs * 2 ^ 7)
                (S (length rest)) rest s2 m tl) as (s3 & Hs3 & Hcase); [done|unfold len; lia|lia|done|].
    exists s3. split; [done|]. rewrite <- Hval in Hcase.
    destruct S1 as [Sa1 Sb1], S2 as [Sa2 Sb2].
    destruct (decide (v < 2 ^ 32)); destruct Hcase as [Sc ->].
    + split; [|done]. destruct Sc. split; congruence.
    + split; [|done]. by rewrite Sc, Sb2, Sb1.
Qed.

(** Beyond bit 32 a group that is neither zero nor the sign overflows; a
    last byte before bit 63 is never the sign. *)
Lemma varint32_high k : forall n w bitpos result fuel rest s m tl,
  (k <= n)%nat -> 0 < w < 128 ^ Z.of_nat k -> 32 <= bitpos -> bitpos + 7 * Z.of_nat k <= 63 ->
  (length (leb128 n w) <= fuel)%nat -> source s m (leb128 n w ++ rest) tl ->
  exists s', varint32_loop e fuel bitpos result s m = Ret None s' m /\
             i_errmsg s' = Some (default "varint overflow"%string (i_errmsg s)).
Proof.
  induction k as [|k IH]; intros n w bitpos result fuel rest s m tl Hkn Hw Hlo Hhi Hfuel Hs;
    [cbn in Hw; lia|].
  destruct n as [|n]; [lia|]. cbn [leb128] in Hs, Hfuel.
  assert (exists b bs, source s m (b :: bs) tl /\
     ((b = w /\ w < 128) \/ (more b = true /\ 128 <= w /\ bs = leb128 n (w / 128) ++ rest)))
    as (b & bs & Hb & Hcase).
  { destruct (Z.ltb_spec w 128); [exists w, rest; by auto|].
    pose proof (Z.mod_pos_bound w 128 ltac:(lia)).
    eexists _, _. split; [exact Hs|]. right. split_and!; [apply more_high; lia|done|done]. }
  destruct fuel as [|fuel]; [by destruct (w <? 128); cbn in Hfuel; lia|].
  destruct (try_readbyte b bs s m tl Hb) as (s1 & E1 & Hs1 & S1).
  cbn [varint32_loop]. rewrite (bind_Ret _ _ _ _ _ _ _ E1).
  rewrite (proj2 (Z.leb_le 32 bitpos)) by lia. cbn [andb].
  assert (exists s',
    (set_error "varint overflow";; mret None) s1 m = Ret (@None Z) s' m /\
    i_errmsg s' = Some (default "varint overflow"%string (i_errmsg s))) as Hov.
  { eexists. split; [done|]. destruct S1 as [_ <-]. unfold PB_SET_ERROR. cbn.
    by destruct (i_errmsg s1) eqn:Ee. }
  rewrite (proj2 (Z.ltb_lt bitpos 63)) by lia.
  destruct Hcase as [[-> Hlt]|(Hmore & Hge & ->)].
  - rewrite (proj2 (Z.eqb_neq (Z.land w 127) 0)) by (rewrite land_7F, Z.mod_small; lia).
    rewrite (proj2 (Z.eqb_neq w 255)) by lia. cbn [negb andb]. rewrite orb_true_r.
    exact Hov.
  - destruct (negb _ && _); [exact Hov|].
    rewrite Hmore, wrapu_id by (unfold in_u; lia).
    destruct (IH n (w / 128) (bitpos + 7) result fuel rest s1 m tl) as (s' & E' & He'); try lia.
    + split; [|apply leb128_div; lia]. pose proof (Z.div_le_lower_bound w 128 1). lia.
    + rewrite (proj2 (Z.ltb_ge w 128)) in Hfuel by lia. cbn in Hfuel. lia.
    + done.
    + exists s'. split; [done|]. rewrite He'. by destruct S1 as [_ ->].
Qed.

(** Ten bytes that sign-extend: the groups beyond bit 35 are passed over. *)
Lemma varint32_sign b bitpos result fuel bs s m tl :
  32 <= bitpos <= 63 -> 2 ^ 31 <= result < 2 ^ 32 ->
  b = (if bitpos <? 63 then 0xFF else 0x01) -> source s m (b :: bs) tl ->
  exists s', source s' m bs tl /\ same_stream s s' /\
    varint32_loop e (S fuel) bitpos result s m =
    if bitpos <? 63 then varint32_loop e fuel (bitpos + 7) result s' m
    else Ret (Some result) s' m.
Proof.
  intros Hbp Hres Hb Hs. destruct (try_readbyte b bs s m tl Hs) as (s1 & E1 & Hs1 & S1).
  exists s1. split_and!; [done|done|]. cbn [varint32_loop].
  rewrite (bind_Ret _ _ _ _ _ _ _ E1), (proj2 (Z.leb_le 32 bitpos)) by lia.
  rewrite (proj2 (Z.eqb_neq (Z.shiftr result 31) 0))
    by (rewrite shiftr_div by lia; pose proof (Z.div_le_lower_bound result (2 ^ 31) 1); lia).
  rewrite <- Hb, Z.eqb_refl. cbn [negb orb]. rewrite !andb_false_r.
  rewrite wrapu_id by (unfold in_u; lia).
  destruct (Z.ltb_spec bitpos 63); subst b; [done|].
  by rewrite (proj2 (Z.eqb_neq (bitpos + 7) 35)) by lia.
Qed.

Lemma varint32_signs k : forall bitpos result fuel bs s m tl,
  bitpos = 63 - 7 * Z.of_nat k -> 32 <= bitpos -> 2 ^ 31 <= result < 2 ^ 32 ->
  source s m (replicate k 255 ++ 1 :: bs) tl ->
  exists s', source s' m bs tl /\ same_stream s s' /\
    varint32_loop e (S k + fuel) bitpos result s m = Ret (Some result) s' m.
Proof.
  induction k as [|k IH]; intros bitpos result fuel bs s m tl Hbp Hlo Hres Hs; cbn [replicate app] in Hs.
  - destruct (varint32_sign 1 bitpos result fuel bs s m tl) as (s1 & Hs1 & S1 & E1);
      [lia|done|by rewrite (proj2 (Z.ltb_ge bitpos 63)) by lia|done|].
    rewrite (proj2 (Z.ltb_ge bitpos 63)) in E1 by lia. eauto.
  - destruct (varint32_sign 255 bitpos result (S k + fuel) (replicate k 255 ++ 1 :: bs) s m tl) as (s1 & Hs1 & S1 & E1);
      [lia|done|by rewrite (proj2 (Z.ltb_lt bitpos 63)) by lia|done|].
    rewrite (proj2 (Z.ltb_lt bitpos 63)) in E1 by lia.
    destruct (IH (bitpos + 7) result fuel bs s1 m tl) as (s2 & Hs2 & S2 & E2);
      [lia|lia|done|done|].
    exists s2. split_and!; [done|by eapply same_stream_trans|].
    change (S (S k) + fuel)%nat with (S (S k + fuel)). by rewrite E1, E2.
Qed.

(** Five continuation bytes: the loop is at bit 35, the low 32 bits read. *)
Lemma varint32_prefix v n s m rest tl :
  2 ^ 35 <= v -> source s m (leb128 (5 + n) v ++ rest) tl ->
  exists s', source s' m (leb128 n (v / 2 ^ 35) ++ rest) tl /\ same_stream s s' /\
    pb_decode_varint32_eof e s m =
    (r ← varint32_loop e (S (length (leb128 n (v / 2 ^ 35) ++ rest))) 35 (v mod 2 ^ 32);
     mret (r, false)) s' m.
Proof.
  intros Hv Hs. destruct (leb128_split 5 n v Hv) as (cs & E & Hlen & Hcs & Hval).
  change (128 ^ Z.of_nat 5) with (2 ^ 35) in *. rewrite E, <- app_assoc in Hs.
  destruct cs as [|b cs]; [done|]. cbn in Hlen.
  inversion Hcs as [|x y Hb Hcs']; subst x y. cbn [app] in Hs.
  destruct (varint32_eof_more _ _ _ _ _ Hb Hs) as (s1 & Hs1 & S1 & ->).
  set (bs := leb128 n (v / 2 ^ 35) ++ rest) in *.
  replace (S (length (cs ++ bs))) with (length cs + S (length bs))%nat
    by (rewrite length_app; lia).
  destruct (varint32_low cs 7 (b mod 128) (S (length bs)) bs s1 m tl Hcs')
    as (s2 & Hs2 & S2 & Eloop); [lia|unfold len; lia| |done|].
  { change (2 ^ Z.min 32 7) with 128. apply Z.mod_pos_bound. lia. }
  exists s2. split_and!; [done|by eapply same_stream_trans|].
  unfold mbind, M_bind. rewrite Eloop. cbn [leb_value] in Hval.
  replace (b mod 128 + leb_value cs * 2 ^ 7) with (v mod 2 ^ 35) by lia.
  change (2 ^ 35) with (2 ^ 32 * 2 ^ 3). rewrite Z.rem_mul_r by lia.
  rewrite (Z.mul_comm (2 ^ 32)), Z.mod_add, Z.mod_mod by lia.
  replace (7 + 7 * len cs) with 35 by (unfold len; lia). done.
Qed.

(** The 64-bit encoding of any value that is not a sign-extended [int32_t]
    and has at most nine bytes is refused. *)
Lemma varint32_overflow v s m rest tl :
  2 ^ 32 <= v < 2 ^ 63 -> source s m (varint v ++ rest) tl ->
  exists s', pb_decode_varint32_eof e s m = Ret (None, false) s' m /\
             i_errmsg s' = Some (default "varint overflow"%string (i_errmsg s)).
Proof.
  intros Hv Hs. destruct (decide (v < 2 ^ 35)).
  { destruct (varint32_small v s m rest tl) as (s' & _ & H); [lia|done|].
    rewrite decide_False in H by lia. destruct H. eauto. }
  destruct (varint32_prefix v 5 s m rest tl ltac:(lia) Hs) as (s1 & Hs1 & S1 & ->).
  destruct (varint32_high 4 5 (v / 2 ^ 35) 35 (v mod 2 ^ 32)
              (S (length (leb128 5 (v / 2 ^ 35) ++ rest))) rest s1 m tl) as (s' & E' & He');
    try lia; [|rewrite length_app; lia|done|].
  - pose proof (Z.div_le_lower_bound v (2 ^ 35) 1). change (128 ^ Z.of_nat 4) with (2 ^ 28).
    pose proof (Z.div_lt_upper_bound v (2 ^ 35) (2 ^ 28)). lia.
  - exists s'. unfold mbind, M_bind. rewrite E'. split; [done|].
    rewrite He'. by destruct S1 as [_ ->].
Qed.

(** A negative [int32_t], which encoders sign-extend to 64 bits. *)
Lemma varint32_negative v s m rest tl :
  2 ^ 64 - 2 ^ 31 <= v < 2 ^ 64 -> source s m (varint v ++ rest) tl ->
  exists s', pb_decode_varint32_eof e s m = Ret (Some (v mod 2 ^ 32), false) s' m /\
             source s' m rest tl /\ same_stream s s'.
Proof.
  intros Hv Hs.
  destruct (varint32_prefix v 5 s m rest tl ltac:(lia) Hs) as (s1 & Hs1 & S1 & ->).
  assert (v / 2 ^ 35 = 2 ^ 29 - 1) as Ew.
  { symmetry. apply (Z.div_unique _ _ _ (v - 2 ^ 35 * (2 ^ 29 - 1))); lia. }
  assert (v mod 2 ^ 32 = v - 2 ^ 64 + 2 ^ 32) as Er.
  { symmetry. apply (Z.mod_unique _ _ (2 ^ 32 - 1)); lia. }
  rewrite Ew in *. change (leb128 5 (2 ^ 29 - 1)) with [255; 255; 255; 255; 1] in *. rewrite Er.
  assert (2 ^ 31 <= v - 2 ^ 64 + 2 ^ 32 < 2 ^ 32) as Hres by lia.
  set (result := v - 2 ^ 64 + 2 ^ 32) in *. cbn [app length] in *.
  unfold mbind, M_bind.
  destruct (varint32_signs 4 35 result (S (length rest)) rest s1 m tl)
    as (s2 & Hs2 & S2 & E2); [done|lia|done|done|].
  cbn [Nat.add] in E2. rewrite E2. exists s2.
  split_and!; [done|done|by eapply same_stream_trans].
Qed.

Lemma consumes_varint32 v m : in_u 32 v -> consumes (pb_decode_varint32 e) m v (varint v) m.
Proof.
  unfold in_u. intros Hv s rest tl Hs.
  destruct (varint32_small v s m rest tl ltac:(lia) Hs) as (s' & Hs' & H).
  rewrite decide_True in H by lia. destruct H as [S' E].
  exists s'. split_and!; [|done|done]. unfold pb_decode_varint32.
  by rewrite (bind_Ret _ _ _ _ _ _ _ E).
Qed.

(** *** Keys *)

Lemma consumes_tag n wt m :
  in_u 3 wt -> 0 < key n wt < 2 ^ 32 ->
  consumes (pb_decode_tag e) m (Some (wt, n), false) (varint (key n wt)) m.
Proof.
  unfold in_u. intros Hwt Hk s rest tl Hs.
  destruct (varint32_small (key n wt) s m rest tl ltac:(lia) Hs) as (s' & Hs' & H).
  rewrite decide_True in H by lia. destruct H as [S' E].
  exists s'. split_and!; [|done|done]. unfold pb_decode_tag.
  rewrite (bind_Ret _ _ _ _ _ _ _ E), (proj2 (Z.eqb_neq (key n wt) 0)) by lia.
  rewrite mret_eq. change 7 with (2 ^ 3 - 1). rewrite land_ones_mod, shiftr_div by lia.
  unfold key. change (2 ^ 3) with 8 in *.
  rewrite <- (Z.mod_unique (8 * n + wt) 8 n wt), <- (Z.div_unique (8 * n + wt) 8 n wt) by lia. done.
Qed.

(** The end of a message is where its data ends, or a zero byte. *)
Lemma tag_eof s m tl : source s m [] tl ->
  exists s', pb_decode_tag e s m = Ret (None, true) s' m /\ source s' m [] tl.
Proof.
  intros Hs. destruct (readbyte_eof s m tl Hs) as (s' & m' & E & He).
  assert (m' = m /\ bytes_left s' = 0 /\ i_callback s' = i_callback s /\ i_state s' = i_state s)
    as (-> & Hl & Hcb & Hst).
  { revert E. destruct Hs as (_ & Hleft & _). unfold pb_readbyte, mbind, M_bind, get.
    rewrite Hleft. unfold PB_RETURN_ERROR, PB_SET_ERROR.
    cbn. intros [= <- <-]. split_and!; by destruct (i_errmsg s). }
  exists s'. split.
  - unfold pb_decode_tag, pb_decode_varint32_eof, mbind, M_bind, try_, get. rewrite E.
    by rewrite Hl.
  - destruct Hs as (HR & _ & ?). unfold source. by rewrite Hl, Hcb, Hst.
Qed.

Lemma tag_zero s m rest tl : source s m (0 :: rest) tl ->
  exists s', pb_decode_tag e s m = Ret (None, true) s' m /\ source s' m rest tl.
Proof.
  intros Hs. destruct (varint32_small 0 s m rest tl ltac:(lia) Hs) as (s' & Hs' & _ & E).
  exists s'. split; [|done]. unfold pb_decode_tag. by rewrite (bind_Ret _ _ _ _ _ _ _ E).
Qed.

(** *** Raw reads *)

Lemma read_checked_local a m : consumes (read_checked e DstLocal (len a)) m a a m.
Proof.
  intros s bs tl Hs. pose proof Hs as (HR & Hleft & Hrange). unfold read_checked.
  pose proof (len_nonneg a). destruct (Z.eqb_spec (len a) 0) as [Hz|Hnz].
  { destruct a; [|unfold len in Hz; cbn in Hz; lia]. exists s. done. }
  rewrite <- app_assoc in HR.
  destruct (source_local s m a (bs ++ tl) HR ltac:(lia)) as (st' & Hcall & HR').
  eexists. split_and!; [|by eapply source_after|done].
  unfold mbind at 1, M_bind at 1, get.
  rewrite (proj2 (Z.ltb_ge _ _)) by (rewrite Hleft, len_app; pose proof (len_nonneg bs); lia).
  unfold or_error, try_, mbind, M_bind, get, put. by rewrite Hcall.
Qed.

Lemma read_short {dst} k s m bs tl :
  source s m bs tl -> len bs < k -> fails (read_checked e dst k) s m "end-of-stream".
Proof.
  intros (_ & Hleft & _) Hk. pose proof (len_nonneg bs). unfold read_checked.
  rewrite (proj2 (Z.eqb_neq k 0)) by lia. unfold fails, mbind, M_bind, get.
  rewrite Hleft, (proj2 (Z.ltb_lt _ _)) by lia. apply fails_error.
Qed.

Lemma consumes_read_local a m : consumes (pb_read e DstLocal (len a)) m a a m.
Proof.
  intros s bs tl Hs. unfold pb_read. destruct (Z.eqb_spec (len a) 0) as [Hz|Hnz].
  { destruct a; [|unfold len in Hz; cbn in Hz; lia]. exists s. done. }
  unfold mbind, M_bind, get. by apply read_checked_local.
Qed.

(** Skipping in pieces of sixteen bytes. *)
Lemma consumes_skip_loop rounds : forall a m,
  len a <= 16 * Z.of_nat rounds + 15 -> consumes (skip_loop e rounds (len a)) m [] a m.
Proof.
  induction rounds as [|rounds IH]; intros a m Hl; cbn [skip_loop].
  - rewrite (proj2 (Z.ltb_ge 16 (len a))) by lia. 
    eapply consumes_then; [symmetry; apply app_nil_r|apply read_checked_local|apply consumes_ret].
  - destruct (Z.ltb_spec 16 (len a)).
    + assert (len (take 16 a) = 16) as E by (unfold len in *; rewrite length_take; lia).
      assert (len (drop 16 a) = len a - 16) as E' by (unfold len in *; rewrite length_drop; lia).
      eapply (consumes_then _ _ _ (take 16 a));
        [symmetry; apply take_drop|rewrite <- E; apply read_checked_local|].
      rewrite <- E'. apply IH. lia.
    + eapply consumes_then; [symmetry; apply app_nil_r|apply read_checked_local|apply consumes_ret].
Qed.

(** [pb_read(stream, NULL, count)], on a buffer and on any other stream. *)
Lemma consumes_skip a m : consumes (pb_read e DstNull (len a)) m [] a m.
Proof.
  intros s bs tl Hs. unfold pb_read. pose proof (len_nonneg a).
  destruct (Z.eqb_spec (len a) 0) as [Hz|Hnz].
  { destruct a; [|unfold len in Hz; cbn in Hz; lia]. exists s. done. }
  unfold mbind at 1, M_bind at 1, get. case_bool_decide as Hcb.
  { apply consumes_skip_loop; [|done]. pose proof (Z.div_mod (len a) 16 ltac:(lia)).
    pose proof (Z.mod_pos_bound (len a) 16 ltac:(lia)). pose proof (Z.div_pos (len a) 16). lia. }
  pose proof Hs as (HR & Hleft & Hrange). rewrite <- app_assoc in HR.
  destruct (source_null s m a (bs ++ tl) HR ltac:(lia) Hcb) as (st' & Hcall & HR').
  eexists. split_and!; [|by eapply source_after|done].
  unfold read_checked. rewrite (proj2 (Z.eqb_neq _ _)) by lia.
  unfold mbind at 1, M_bind at 1, get.
  rewrite (proj2 (Z.ltb_ge _ _)) by (rewrite Hleft, len_app; pose proof (len_nonneg bs); lia).
  unfold or_error, try_, mbind, M_bind, get, put. by rewrite Hcall.
Qed.

Lemma consumes_skip_unit n a m : n = len a -> consumes (pb_read e DstNull n;; mret tt) m tt a m.
Proof.
  intros ->. eapply consumes_then; [symmetry; apply app_nil_r|apply consumes_skip|apply consumes_ret].
Qed.

(** [pb_read] into the message: the bytes are stored at [p]. *)
Lemma consumes_read_mem p a m m' :
  store_bytes m p a = Some m' -> blk p <> B -> consumes (pb_read e (DstMem p) (len a)) m [] a m'.
Proof.
  intros Hst Hp s bs tl Hs. unfold pb_read. pose proof (len_nonneg a).
  pose proof Hst as [w Hw]%store_cells_load. rewrite length_fmap in Hw. fold (len a) in Hw.
  destruct (Z.eqb_spec (len a) 0) as [Hz|Hnz].
  { destruct a; [|unfold len in Hz; cbn in Hz; lia].
    unfold store_bytes in Hst. cbn in Hst. rewrite (store_cells_nil m p w 0 Hw) in Hst.
    injection Hst as <-. exists s. done. }
  unfold mbind at 1, M_bind at 1, get. pose proof Hs as (HR & Hleft & Hrange).
  rewrite <- app_assoc in HR.
  destruct (source_mem s m p a (bs ++ tl) w HR ltac:(lia) Hp Hw) as (st' & m1 & Hst1 & Hcall & HR').
  rewrite Hst in Hst1. injection Hst1 as <-.
  eexists. split_and!; [|by eapply source_after|done].
  unfold read_checked. rewrite (proj2 (Z.eqb_neq _ _)) by lia.
  unfold mbind at 1, M_bind at 1, get.
  rewrite (proj2 (Z.ltb_ge _ _)) by (rewrite Hleft, len_app; pose proof (len_nonneg bs); lia).
  unfold or_error, try_, mbind, M_bind, get, put. by rewrite Hcall.
Qed.

(** *** Skipping a field *)

(** The encodings of one value of each wire type. *)
Definition wire_value (wt : Z) (bs : list Z) : Prop :=
  (wt = PB_WT_VARINT /\ is_varint bs = true) \/
  (wt = PB_WT_64BIT /\ length bs = 8%nat) \/
  (wt = PB_WT_STRING /\ exists payload, in_u 32 (len payload) /\
                        bs = varint (len payload) ++ payload) \/
  (wt = PB_WT_32BIT /\ length bs = 4%nat).

Lemma consumes_read_one b m : consumes (read_one e) m b [b] m.
Proof.
  unfold read_one. eapply (consumes_then _ _ _ [b]); [symmetry; apply app_nil_r| |].
  - apply (consumes_read_local [b]).
  - apply consumes_ret.
Qed.

Lemma consumes_skip_varint_loop bs : forall fuel m,
  is_varint bs = true -> (length bs <= fuel)%nat -> consumes (skip_varint_loop e fuel) m tt bs m.
Proof.
  induction bs as [|b bs IH]; intros fuel m Hv Hfuel; [done|].
  apply is_varint_inv in Hv as (b' & bs' & [= <- <-] & Hcase).
  destruct fuel as [|fuel]; [cbn in Hfuel; lia|]. cbn [skip_varint_loop].
  change (b :: bs) with ([b] ++ bs). eapply consumes_bind; [apply consumes_read_one|].
  destruct Hcase as [[-> Hb]|[Hb Hv]].
  - rewrite more_low by done. apply consumes_ret.
  - rewrite more_high by done. apply IH; [done|]. cbn in Hfuel. lia.
Qed.

Lemma consumes_skip_field wt bs m : wire_value wt bs -> consumes (pb_skip_field e wt) m tt bs m.
Proof.
  intros [[-> Hv]|[[-> Hl]|[(-> & payload & Hp & ->)|[-> Hl]]]]; unfold pb_skip_field; cbn [Z.eqb].
  - intros s rest tl Hs. unfold pb_skip_varint, mbind, M_bind, get.
    eapply consumes_skip_varint_loop; [done| |exact Hs].
    destruct Hs as (_ & -> & _). unfold len. rewrite Nat2Z.id, length_app. lia.
  - apply consumes_skip_unit. unfold len. lia.
  - unfold pb_skip_string. eapply consumes_bind; [by apply consumes_varint32|].
    by apply consumes_skip_unit.
  - apply consumes_skip_unit. unfold len. lia.
Qed.

(** *** Substreams *)

Lemma make_substream payload s m rest tl :
  in_u 32 (len payload) ->
  source s m (varint (len payload) ++ payload ++ rest) tl ->
  exists sub s', pb_make_string_substream e s m = Ret sub s' m /\
    source sub m payload (rest ++ tl) /\ same_stream s sub /\ same_stream s s' /\
    bytes_left s' = len rest.
Proof.
  intros Hp Hs.
  destruct (consumes_varint32 _ m Hp s _ tl Hs) as (s1 & E1 & (HR & Hleft & Hr) & S1).
  unfold pb_make_string_substream. rewrite (bind_Ret _ _ _ _ _ _ _ E1).
  rewrite len_app in Hleft. pose proof (len_nonneg rest). pose proof (len_nonneg payload).
  unfold mbind, M_bind, get, put.
  rewrite (proj2 (Z.ltb_ge _ _)) by lia.
  eexists _, _. split; [done|]. unfold source, same_stream. cbn.
  destruct S1 as [Ecb ->]. rewrite Ecb, <- app_assoc in *. unfold in_u in *.
  rewrite len_app in Hr. rewrite wrapu_id by (unfold in_u; lia). split_and!; (done || lia).
Qed.

(** Closing skips what the reader of the substream left, and the parent goes
    on behind the substream. *)
Lemma close_substream sub s m remaining rest tl :
  source sub m remaining (rest ++ tl) -> i_callback sub = i_callback s ->
  bytes_left s = len rest -> in_u 64 (len rest) ->
  exists s', pb_close_string_substream e sub s m = Ret tt s' m /\ source s' m rest tl /\
             i_callback s' = i_callback s /\ i_errmsg s' = i_errmsg sub.
Proof.
  intros Hsub Hcb Hleft Hr. unfold pb_close_string_substream.
  assert (exists sub', (if negb (bytes_left sub =? 0)
                then on_stream sub (pb_read e DstNull (bytes_left sub);; mret tt)
                else mret (true, sub)) s m = Ret (true, sub') s m /\
            source sub' m [] (rest ++ tl) /\ same_stream sub sub') as (sub' & E & Hs' & [C' E']).
  { pose proof Hsub as (_ & Hl & _). destruct (Z.eqb_spec (bytes_left sub) 0) as [Hz|Hnz]; cbn [negb].
    - exists sub. split_and!; try done. rewrite Hl in Hz.
      by destruct remaining; [|unfold len in Hz; cbn in Hz; lia].
    - destruct (consumes_skip remaining m sub [] (rest ++ tl)) as (sub' & E & Hs' & S').
      { by rewrite app_nil_r. }
      exists sub'. split; [|done]. unfold on_stream, mbind, M_bind. by rewrite Hl, E. }
  rewrite (bind_Ret _ _ _ _ _ _ _ E). cbn [negb]. unfold mbind, M_bind, get, put.
  eexists. split; [done|]. destruct Hs' as (HR & _ & _). unfold source. cbn.
  rewrite C', Hcb in HR. done.
Qed.

(** *** Scalars *)

Lemma unzigzag_unzz u : in_u 64 u -> unzigzag u = unzz u.
Proof.
  unfold in_u. intros Hu. unfold unzigzag, unzz.
  change 1 with (2 ^ 1 - 1) at 1. rewrite land_ones_mod, shiftr_div by lia.
  change (2 ^ 1) with 2. rewrite Zmod_even.
  pose proof (Z.div_pos u 2). pose proof (Z.div_lt_upper_bound u 2 (2 ^ 63)).
  destruct (Z.even u); cbn.
  - apply (wraps_id 64); [lia|]. unfold in_s. lia.
  - unfold Z.lnot. rewrite <- Z.sub_1_r. apply (wraps_id 64); [lia|]. unfold in_s. lia.
Qed.

Lemma consumes_svarint v m : in_s 64 v -> consumes (pb_decode_svarint e) m v (varint (zz v)) m.
Proof.
  intros Hv. unfold pb_decode_svarint.
  eapply consumes_then; [symmetry; apply app_nil_r|by apply consumes_varint, zz_range|].
  rewrite unzigzag_unzz, unzz_zz by (by apply zz_range). apply consumes_ret.
Qed.

(** A store into the message does not touch the input. *)
Lemma consumes_store_i w p z m m' :
  store_int m p (w / 8) z = Some m' -> blk p <> B -> consumes (store_i w p z) m tt [] m'.
Proof.
  intros Hst Hp s rest tl (HR & Hl & Hr). exists s. split_and!; [|split_and!; [|done..]|done].
  - unfold store_i, writing. by rewrite Hst.
  - eapply source_frame; [exact HR|]. by eapply store_bytes_other.
Qed.

Lemma lor_byte_add a b n : 0 <= n -> 0 <= a < 2 ^ n -> Z.lor a (Z.shiftl b n) = a + 2 ^ n * b.
Proof. intros. rewrite lor_shiftl_add by done. lia. Qed.

Lemma read_le32_combine bs :
  Forall (in_u 8) bs -> length bs = 4%nat -> read_le32 bs = le_combine bs.
Proof.
  intros Hb Hl. destruct bs as [|a [|b [|c [|d [|]]]]]; try done.
  repeat (apply Forall_cons in Hb as [? Hb]). clear Hl Hb. unfold in_u in *.
  change (read_le32 [a; b; c; d]) with (Z.lor (Z.lor (Z.lor (Z.shiftl a 0) (Z.shiftl b 8))
    (Z.shiftl c 16)) (wrapu 32 (Z.shiftl d 24))). cbn [le_combine].
  rewrite wrapu_id by (unfold in_u; rewrite Z.shiftl_mul_pow2; lia).
  rewrite Z.shiftl_0_r, (lor_byte_add a b 8), (lor_byte_add _ c 16), (lor_byte_add _ d 24) by lia.
  lia.
Qed.

Lemma read_le64_combine bs :
  Forall (in_u 8) bs -> length bs = 8%nat -> read_le64 bs = le_combine bs.
Proof.
  intros Hb Hl. destruct bs as [|a [|b [|c [|d [|f [|g [|h [|i [|]]]]]]]]]; try done.
  repeat (apply Forall_cons in Hb as [? Hb]). clear Hl Hb. unfold in_u in *.
  change (read_le64 [a; b; c; d; f; g; h; i]) with
    (Z.lor (Z.lor (Z.lor (Z.lor (Z.lor (Z.lor (Z.lor (Z.lor 0 (Z.shiftl a 0)) (Z.shiftl b 8))
      (Z.shiftl c 16)) (Z.shiftl d 24)) (Z.shiftl f 32)) (Z.shiftl g 40)) (Z.shiftl h 48))
      (Z.shiftl i 56)).
  cbn [le_combine]. rewrite Z.lor_0_l, Z.shiftl_0_r, (lor_byte_add a b 8), (lor_byte_add _ c 16),
    (lor_byte_add _ d 24), (lor_byte_add _ f 32), (lor_byte_add _ g 40), (lor_byte_add _ h 48),
    (lor_byte_add _ i 56) by lia. lia.
Qed.

Lemma consumes_fixed32 v dest m m' :
  in_u 32 v -> store_int m dest 4 v = Some m' -> blk dest <> B ->
  consumes (pb_decode_fixed32 e dest) m tt (le_split 4 v) m'.
Proof.
  intros Hv Hst Hd. unfold pb_decode_fixed32.
  eapply (consumes_then _ _ _ (le_split 4 v)); [symmetry; apply app_nil_r| |].
  - apply (consumes_read_local (le_split 4 v)).
  - rewrite read_le32_combine by (apply le_split_bytes || apply length_le_split).
    rewrite le_combine_split. change (2 ^ (8 * Z.of_nat 4)) with (2 ^ 32).
    rewrite Z.mod_small by apply Hv. by apply consumes_store_i.
Qed.

Lemma consumes_fixed64 v dest m m' :
  in_u 64 v -> store_int m dest 8 v = Some m' -> blk dest <> B ->
  consumes (pb_decode_fixed64 e dest) m tt (le_split 8 v) m'.
Proof.
  intros Hv Hst Hd. unfold pb_decode_fixed64.
  eapply (consumes_then _ _ _ (le_split 8 v)); [symmetry; apply app_nil_r| |].
  - apply (consumes_read_local (le_split 8 v)).
  - rewrite read_le64_combine by (apply le_split_bytes || apply length_le_split).
    rewrite le_combine_split. change (2 ^ (8 * Z.of_nat 8)) with (2 ^ 64).
    rewrite Z.mod_small by apply Hv. by apply consumes_store_i.
Qed.
End Read.
