(* ===== verification/PbDecode.v ===== *)
(** * nanopb: the message decoder ([pb_decode.c])

    As in [PbEncode], the recursion through submessages is tied at the end:
    [dec init fields dest] stands for [pb_decode] ([init = true]) or
    [pb_decode_noinit] one level down.  [pb_release] and
    [pb_message_set_to_defaults] recurse on their own fuel. *)
From S2P Require Import Prelude CMem PbCore PbIter PbEncode PbIn.

(** [pb_free(p)]: nothing for the null pointer. *)
Definition free_p {S} (p : ptr) : M S unit :=
  if bool_decide (p = NULL) then mret tt else writing (fun m => free m p).

(** [iter_from_extension]: the fake iterator for an extension's own field. *)
Definition iter_from_extension (e : env) {S} (extension : ptr) : M S pb_field_iter :=
  ty ← load_p (ptr_add extension extension_type_off);
  arg ← load_p (ptr_add ty extension_type_arg_off);
  fs ← of_option (fields_at e arg);
  dest ← load_p (ptr_add extension extension_dest_off);
  '(_, it) ← of_option (pb_field_iter_begin fs dest);
  f ← of_option (fs !! 0%nat);
  let data := if bool_decide (PB_ATYPE (type f) = PB_ATYPE_POINTER)
              then ptr_add extension extension_dest_off else dest in
  mret (mk_iter (start it) (pos it) (required_field_index it) (dest_struct it)
                data (ptr_add extension extension_found_off)).

(** A do-while pass over all fields of a message from its first one. *)
Fixpoint pass_loop {S} (rounds : nat) (it : pb_field_iter)
    (body : pb_field_iter -> M S unit) : M S unit :=
  match rounds with
  | O => no_fuel
  | Datatypes.S rounds' =>
      body it;;
      '(more, it') ← of_option (pb_field_iter_next it);
      if more : bool then pass_loop rounds' it' body else mret tt
  end.

(** A pass over a linked list of extensions; [fuel] bounds its length. *)
Fixpoint extension_pass {S} (fuel : nat) (ext : ptr) (body : ptr -> M S unit) : M S unit :=
  if bool_decide (ext = NULL) then mret tt
  else match fuel with
       | O => no_fuel
       | Datatypes.S fuel' =>
           body ext;;
           nxt ← load_p (ptr_add ext extension_next_off);
           extension_pass fuel' nxt body
       end.

Definition is_packable_string (wire_type : Z) (f : pb_field) : bool :=
  (wire_type =? PB_WT_STRING) && (PB_LTYPE (type f) <=? PB_LTYPE_LAST_PACKABLE).

Definition string_or_bytes (f : pb_field) : bool :=
  (PB_LTYPE (type f) =? PB_LTYPE_STRING) || (PB_LTYPE (type f) =? PB_LTYPE_BYTES).

Definition cur_field {S} (it : pb_field_iter) : M S pb_field := of_option (start it !! pos it).

Section Defaults.
Context (e : env) {S : Type}.

(** [pb_field_set_to_default], given [pb_message_set_to_defaults] for the
    nested messages and itself for the extensions' fields. *)
Definition set_to_default_step (fuel : nat) (self : pb_field_iter -> M S unit)
    (message : ptr -> ptr -> M S unit) (it : pb_field_iter) : M S unit :=
  f ← cur_field it;
  let ty := type f in
  if PB_LTYPE ty =? PB_LTYPE_EXTENSION then
    ext ← load_p (pData it);
    extension_pass fuel ext (fun x =>
      store_i 8 (ptr_add x extension_found_off) 0;;
      ext_iter ← iter_from_extension e x;
      self ext_iter)
  else if bool_decide (PB_ATYPE ty = PB_ATYPE_STATIC) then
    let has := bool_decide (PB_HTYPE ty = PB_HTYPE_OPTIONAL ∧ pSize it ≠ pData it) in
    let counted := negb has && bool_decide (PB_HTYPE ty = PB_HTYPE_REPEATED ∨
                                            PB_HTYPE ty = PB_HTYPE_ONEOF) in
    (if has then store_i 8 (pSize it) 0
     else if counted then store_size (pSize it) 0 else mret tt);;
    if counted then mret tt
    else if PB_LTYPE ty =? PB_LTYPE_SUBMESSAGE then message (field_ptr f) (pData it)
    else if bool_decide (field_ptr f ≠ NULL)
    then writing (fun m => mem_copy m (pData it) (field_ptr f) (data_size f))
    else writing (fun m => mem_zero m (pData it) (data_size f))
  else if bool_decide (PB_ATYPE ty = PB_ATYPE_POINTER) then
    store_p (pData it) NULL;;
    if bool_decide (PB_HTYPE ty = PB_HTYPE_REPEATED ∨ PB_HTYPE ty = PB_HTYPE_ONEOF)
    then store_size (pSize it) 0 else mret tt
  else mret tt.

Definition message_set_to_defaults_step (field : pb_field_iter -> M S unit)
    (fields dest : ptr) : M S unit :=
  fs ← of_option (fields_at e fields);
  '(nonempty, it) ← of_option (pb_field_iter_begin fs dest);
  if nonempty : bool then pass_loop (length fs) it field else mret tt.

Fixpoint pb_field_set_to_default (fuel : nat) (it : pb_field_iter) : M S unit :=
  match fuel with
  | O => no_fuel
  | Datatypes.S fuel' =>
      set_to_default_step fuel (pb_field_set_to_default fuel')
        (message_set_to_defaults_step (pb_field_set_to_default fuel')) it
  end.

Definition pb_message_set_to_defaults (fuel : nat) : ptr -> ptr -> M S unit :=
  message_set_to_defaults_step (pb_field_set_to_default fuel).
End Defaults.

Section Release.
Context (e : env) {S : Type}.

(** [for (; count > 0; count--)] over items [step] bytes apart. *)
Fixpoint item_loop (count : nat) (p : ptr) (step : Z) (body : ptr -> M S unit) : M S unit :=
  match count with
  | O => mret tt
  | Datatypes.S count' => body p;; item_loop count' (ptr_add p step) step body
  end.

(** How many submessages a field holds. *)
Definition release_count (f : pb_field) (it : pb_field_iter) : M S Z :=
  let ty := type f in
  if bool_decide (PB_HTYPE ty = PB_HTYPE_REPEATED) then
    count ← (if bool_decide (PB_ATYPE ty = PB_ATYPE_STATIC ∧ pSize it = pData it)
             then mret (array_size f) else load_size (pSize it));
    mret (if bool_decide (PB_ATYPE ty = PB_ATYPE_STATIC) && (array_size f <? count)
          then array_size f else count)
  else mret 1.

Definition release_single_step (fuel : nat) (self : pb_field_iter -> M S unit)
    (release : ptr -> ptr -> M S unit) (it : pb_field_iter) : M S unit :=
  f ← cur_field it;
  let ty := type f in
  inactive ← (if bool_decide (PB_HTYPE ty = PB_HTYPE_ONEOF)
              then which ← load_size (pSize it); mret (negb (which =? tag f))
              else mret false);
  if inactive : bool then mret tt
  else
    (if PB_LTYPE ty =? PB_LTYPE_EXTENSION then
       ext ← load_p (pData it);
       extension_pass fuel ext (fun x =>
         ext_iter ← iter_from_extension e x; self ext_iter)
     else if bool_decide (PB_LTYPE ty = PB_LTYPE_SUBMESSAGE ∧
                          PB_ATYPE ty ≠ PB_ATYPE_CALLBACK) then
       item ← (if bool_decide (PB_ATYPE ty = PB_ATYPE_POINTER)
               then load_p (pData it) else mret (pData it));
       count ← release_count f it;
       if bool_decide (item ≠ NULL)
       then item_loop (Z.to_nat count) item (data_size f) (release (field_ptr f))
       else mret tt
     else mret tt);;
    if bool_decide (PB_ATYPE ty = PB_ATYPE_POINTER) then
      (if bool_decide (PB_HTYPE ty = PB_HTYPE_REPEATED) && string_or_bytes f then
         item ← load_p (pData it);
         count ← load_size (pSize it);
         item_loop (Z.to_nat count) item ptr_size (fun x =>
           q ← load_p x; free_p q;; store_p x NULL)
       else mret tt);;
      (if bool_decide (PB_HTYPE ty = PB_HTYPE_REPEATED)
       then store_size (pSize it) 0 else mret tt);;
      q ← load_p (pData it);
      free_p q;;
      store_p (pData it) NULL
    else mret tt.

Definition release_step (single : pb_field_iter -> M S unit) (fields dest : ptr) : M S unit :=
  if bool_decide (dest = NULL) then mret tt
  else
    fs ← of_option (fields_at e fields);
    '(nonempty, it) ← of_option (pb_field_iter_begin fs dest);
    if nonempty : bool then pass_loop (length fs) it single else mret tt.

Fixpoint pb_release_single_field (fuel : nat) (it : pb_field_iter) : M S unit :=
  match fuel with
  | O => no_fuel
  | Datatypes.S fuel' =>
      release_single_step fuel (pb_release_single_field fuel')
        (release_step (pb_release_single_field fuel')) it
  end.

Definition pb_release (fuel : nat) : ptr -> ptr -> M S unit :=
  release_step (pb_release_single_field fuel).
End Release.

Section Decode.
Context (e : env).

Definition allocate_field (data : ptr) (data_size array_size : Z) : M pb_istream unit :=
  p ← load_p data;
  if (data_size =? 0) || (array_size =? 0) then PB_RETURN_ERROR "invalid size"
  else
    let check_limit := 2 ^ 32 in
    if ((check_limit <=? data_size) || (check_limit <=? array_size)) &&
       (SIZE_MAX / array_size <? data_size)
    then PB_RETURN_ERROR "size too large"
    else
      let n := wrapu 64 (array_size * data_size) in
      ok ← reading (fun m => Some (env_malloc_ok e m n));
      if negb ok then PB_RETURN_ERROR "realloc failed"
      else
        q ← (fun s m => match realloc_ok m p n with
                        | Some (q, m') => Ret q s m'
                        | None => Undefined
                        end);
        store_p data q.

Definition initialize_pointer_field (fuel : nat) (item : ptr) (f : pb_field)
  : M pb_istream unit :=
  if string_or_bytes f then store_p item NULL
  else if PB_LTYPE (type f) =? PB_LTYPE_SUBMESSAGE then
    writing (fun m => mem_zero m item (data_size f));;
    pb_message_set_to_defaults e fuel (field_ptr f) item
  else mret tt.

(** *** Field decoders *)

Definition pb_dec_bool (f : pb_field) (dest : ptr) : M pb_istream unit :=
  value ← pb_decode_varint32 e;
  store_i 8 dest (if value =? 0 then 0 else 1).

(** The public wrapper, which passes a null descriptor. *)
Definition pb_decode_bool (dest : ptr) : M pb_istream unit := pb_dec_bool PB_LAST_FIELD dest.

(** The ladder of assignments to [clamped]: store at the field's width
    and return the stored value as read back at that type. *)
Definition store_clamped (signed : bool) (f : pb_field) (dest : ptr) (v : Z)
  : M pb_istream Z :=
  let cast w := if signed then wraps w v else wrapu w v in
  if data_size f =? 8 then store_i 64 dest v;; mret (cast 64)
  else if data_size f =? 4 then store_i 32 dest v;; mret (cast 32)
  else if data_size f =? 2 then store_i 16 dest v;; mret (cast 16)
  else if data_size f =? 1 then store_i 8 dest v;; mret (cast 8)
  else PB_RETURN_ERROR "invalid data_size".

Definition check_clamped (signed : bool) (f : pb_field) (dest : ptr) (v : Z)
  : M pb_istream unit :=
  clamped ← store_clamped signed f dest v;
  if negb (clamped =? v) then PB_RETURN_ERROR "integer too large" else mret tt.

Definition pb_dec_varint (f : pb_field) (dest : ptr) : M pb_istream unit :=
  value ← pb_decode_varint e;
  let svalue := if data_size f =? 8 then wraps 64 value else wraps 32 value in
  check_clamped true f dest svalue.

Definition pb_dec_uvarint (f : pb_field) (dest : ptr) : M pb_istream unit :=
  value ← pb_decode_varint e;
  check_clamped false f dest value.

Definition pb_dec_svarint (f : pb_field) (dest : ptr) : M pb_istream unit :=
  value ← pb_decode_svarint e;
  check_clamped true f dest value.

Definition pb_dec_fixed32 (f : pb_field) (dest : ptr) : M pb_istream unit :=
  pb_decode_fixed32 e dest.

Definition pb_dec_fixed64 (f : pb_field) (dest : ptr) : M pb_istream unit :=
  pb_decode_fixed64 e dest.

Definition pb_dec_bytes (f : pb_field) (dest : ptr) : M pb_istream unit :=
  size ← pb_decode_varint32 e;
  if PB_SIZE_MAX <? size then PB_RETURN_ERROR "bytes overflow"
  else
    let alloc_size := PB_BYTES_ARRAY_T_ALLOCSIZE size in
    if alloc_size <? size then PB_RETURN_ERROR "size too large"
    else
      bdest ←
        (if bool_decide (PB_ATYPE (type f) = PB_ATYPE_POINTER) then
           s ← get;
           if bytes_left s <? size then PB_RETURN_ERROR "end-of-stream"
           else allocate_field dest alloc_size 1;; load_p dest
         else if data_size f <? alloc_size then PB_RETURN_ERROR "bytes overflow"
         else mret dest);
      store_size bdest size;;
      pb_read e (DstMem (ptr_add bdest bytes_offset)) size;;
      mret tt.

Definition pb_dec_string (f : pb_field) (dest0 : ptr) : M pb_istream unit :=
  size ← pb_decode_varint32 e;
  (* [size + 1] is computed in [uint32_t] *)
  let alloc_size := wrapu 32 (size + 1) in
  if alloc_size <? size then PB_RETURN_ERROR "size too large"
  else
    dest ←
      (if bool_decide (PB_ATYPE (type f) = PB_ATYPE_POINTER) then
         s ← get;
         if bytes_left s <? size then PB_RETURN_ERROR "end-of-stream"
         else allocate_field dest0 alloc_size 1;; load_p dest0
       else if data_size f <? alloc_size then PB_RETURN_ERROR "string overflow"
       else mret dest0);
    ok ← status (pb_read e (DstMem dest) size;; mret tt);
    store_i 8 (ptr_add dest size) 0;;
    return_bool ok.

Definition pb_dec_fixed_length_bytes (f : pb_field) (dest : ptr) : M pb_istream unit :=
  size ← pb_decode_varint32 e;
  if PB_SIZE_MAX <? size then PB_RETURN_ERROR "bytes overflow"
  else if size =? 0 then writing (fun m => mem_zero m dest (data_size f))
  else if negb (size =? data_size f)
  then PB_RETURN_ERROR "incorrect fixed length bytes size"
  else pb_read e (DstMem dest) (data_size f);; mret tt.

Section Level.
Context (fuel : nat) (dec : bool -> ptr -> ptr -> M pb_istream unit).

(** Decode on the substream, close it, and return the decoder's status. *)
Definition closing (sub : pb_istream) (c : M pb_istream unit) : M pb_istream unit :=
  '(ok, sub') ← on_stream sub c;
  pb_close_string_substream e sub';;
  return_bool ok.

Definition pb_dec_submessage (f : pb_field) (dest : ptr) : M pb_istream unit :=
  substream ← pb_make_string_substream e;
  if bool_decide (field_ptr f = NULL) then PB_RETURN_ERROR "invalid field descriptor"
  else closing substream
         (dec (bool_decide (PB_HTYPE (type f) = PB_HTYPE_REPEATED)) (field_ptr f) dest).

(** The table [PB_DECODERS]. *)
Definition PB_DECODERS (lt : Z) : pb_field -> ptr -> M pb_istream unit :=
  if lt =? PB_LTYPE_BOOL then pb_dec_bool
  else if lt =? PB_LTYPE_VARINT then pb_dec_varint
  else if lt =? PB_LTYPE_UVARINT then pb_dec_uvarint
  else if lt =? PB_LTYPE_SVARINT then pb_dec_svarint
  else if lt =? PB_LTYPE_FIXED32 then pb_dec_fixed32
  else if lt =? PB_LTYPE_FIXED64 then pb_dec_fixed64
  else if lt =? PB_LTYPE_BYTES then pb_dec_bytes
  else if lt =? PB_LTYPE_STRING then pb_dec_string
  else if lt =? PB_LTYPE_SUBMESSAGE then pb_dec_submessage
  else if lt =? PB_LTYPE_FIXED_LENGTH_BYTES then pb_dec_fixed_length_bytes
  else fun _ _ => undefined.

(** The packed-array loop of [decode_static_field], on the substream. *)
Fixpoint packed_static_loop (rounds : nat) (f : pb_field) (it : pb_field_iter)
  : M pb_istream unit :=
  s ← get;
  size ← load_size (pSize it);
  if (0 <? bytes_left s) && (size <? array_size f) then
    match rounds with
    | O => no_fuel
    | S rounds' =>
        PB_DECODERS (PB_LTYPE (type f)) f (ptr_add (pData it) (data_size f * size));;
        n ← load_size (pSize it);
        store_size (pSize it) (n + 1);;
        packed_static_loop rounds' f it
    end
  else mret tt.

Definition decode_static_field (wire_type : Z) (it : pb_field_iter) : M pb_istream unit :=
  f ← cur_field it;
  let ty := type f in
  let func := PB_DECODERS (PB_LTYPE ty) in
  if bool_decide (PB_HTYPE ty = PB_HTYPE_REQUIRED) then func f (pData it)
  else if bool_decide (PB_HTYPE ty = PB_HTYPE_OPTIONAL) then
    (if bool_decide (pSize it ≠ pData it) then store_i 8 (pSize it) 1 else mret tt);;
    func f (pData it)
  else if bool_decide (PB_HTYPE ty = PB_HTYPE_REPEATED) then
    if is_packable_string wire_type f then
      sub ← pb_make_string_substream e;
      '(ok, sub') ← on_stream sub
           (packed_static_loop (S (Z.to_nat (bytes_left sub))) f it);
      if negb (bytes_left sub' =? 0) then PB_RETURN_ERROR "array overflow"
      else pb_close_string_substream e sub';; return_bool ok
    else
      size ← load_size (pSize it);
      store_size (pSize it) (size + 1);;
      if array_size f <=? size then PB_RETURN_ERROR "array overflow"
      else func f (ptr_add (pData it) (data_size f * size))
  else (* PB_HTYPE_ONEOF *)
    (if PB_LTYPE ty =? PB_LTYPE_SUBMESSAGE then
       which ← load_size (pSize it);
       if negb (which =? tag f) then
         writing (fun m => mem_zero m (pData it) (data_size f));;
         pb_message_set_to_defaults e fuel (field_ptr f) (pData it)
       else mret tt
     else mret tt);;
    store_size (pSize it) (tag f);;
    func f (pData it).

(** The packed-array loop of [decode_pointer_field], on the substream.
    [Some msg] is the message the function sets on the parent stream. *)
Fixpoint packed_pointer_loop (rounds : nat) (f : pb_field) (it : pb_field_iter)
    (allocated_size : Z) : M pb_istream (option string) :=
  s ← get;
  if bytes_left s =? 0 then mret None
  else match rounds with
       | O => no_fuel
       | S rounds' =>
         size ← load_size (pSize it);
         if size =? PB_SIZE_MAX then mret (Some "too many array entries")
         else
           let grow := allocated_size <? size + 1 in
           let remain := (bytes_left s - 1) / data_size f + 1 in
           let allocated' :=
             if grow then
               if remain <? wrapu 64 (PB_SIZE_MAX - allocated_size)
               then allocated_size + remain else allocated_size + 1
             else allocated_size in
           (if grow && (data_size f =? 0) then undefined (* division by zero *)
            else if grow then allocate_field (pData it) (data_size f) allocated'
            else mret tt);;
           base ← load_p (pData it);
           let item := ptr_add base (data_size f * size) in
           (if bool_decide (item = NULL) then return_false else mret tt);;
           initialize_pointer_field fuel item f;;
           PB_DECODERS (PB_LTYPE (type f)) f item;;
           n ← load_size (pSize it);
           store_size (pSize it) (n + 1);;
           packed_pointer_loop rounds' f it allocated'
       end.

Definition decode_pointer_field (wire_type : Z) (it : pb_field_iter) : M pb_istream unit :=
  f ← cur_field it;
  let ty := type f in
  let func := PB_DECODERS (PB_LTYPE ty) in
  if bool_decide (PB_HTYPE ty ≠ PB_HTYPE_REPEATED) then
    (if PB_LTYPE ty =? PB_LTYPE_SUBMESSAGE then
       q ← load_p (pData it);
       if bool_decide (q ≠ NULL) then pb_release_single_field e fuel it else mret tt
     else mret tt);;
    (if bool_decide (PB_HTYPE ty = PB_HTYPE_ONEOF)
     then store_size (pSize it) (tag f) else mret tt);;
    if string_or_bytes f then func f (pData it)
    else
      allocate_field (pData it) (data_size f) 1;;
      item ← load_p (pData it);
      initialize_pointer_field fuel item f;;
      item ← load_p (pData it);
      func f item
  else if is_packable_string wire_type f then
    allocated_size ← load_size (pSize it);
    sub ← pb_make_string_substream e;
    '(r, sub') ← (fun s m =>
        match packed_pointer_loop (S (Z.to_nat (bytes_left sub))) f it allocated_size sub m with
        | Ret r sub' m' => Ret (r, true, sub') s m'
        | Fail sub' m' => Ret (None, false, sub') s m'
        | Undefined => Undefined
        | NoFuel => NoFuel
        end);
    let '(msg, ok) := r in
    match msg with
    | Some t => s ← get; put (set_errmsg (Some t) s)
    | None => mret tt
    end;;
    pb_close_string_substream e sub';;
    return_bool (ok && match msg with Some _ => false | None => true end)
  else
    size ← load_size (pSize it);
    if size =? PB_SIZE_MAX then PB_RETURN_ERROR "too many array entries"
    else
      allocate_field (pData it) (data_size f) (wrapu 32 (size + 1));;
      base ← load_p (pData it);
      let item := ptr_add base (data_size f * size) in
      store_size (pSize it) (size + 1);;
      initialize_pointer_field fuel item f;;
      func f item.

(** The callback loop: [do .. while (substream.bytes_left)]. *)
Fixpoint callback_loop (rounds : nat) (call : M pb_istream unit) : M pb_istream unit :=
  match rounds with
  | O => no_fuel
  | S rounds' =>
      call;;
      s ← get;
      if bytes_left s =? 0 then mret tt else callback_loop rounds' call
  end.

Definition decode_callback_field (wire_type : Z) (it : pb_field_iter) : M pb_istream unit :=
  f ← cur_field it;
  func ← (if bool_decide (pData it = NULL) then mret NULL
          else load_p (ptr_add (pData it) callback_funcs_off));
  if bool_decide (func = NULL) then pb_skip_field e wire_type
  else
    g ← of_option (env_decode e func);
    let call := g f (ptr_add (pData it) callback_arg_off) in
    if wire_type =? PB_WT_STRING then
      sub ← pb_make_string_substream e;
      '(ok, sub') ← on_stream sub (callback_loop fuel call);
      if negb ok then PB_RETURN_ERROR "callback failed"
      else pb_close_string_substream e sub'
    else
      with_local 10 (fun buffer =>
        size ← read_raw_value e wire_type buffer 10;
        '(ok, _) ← on_stream (pb_istream_from_buffer buffer size) call;
        return_bool ok).

(** [pb_release_union_field]: the iterator it leaves behind. *)
Definition pb_release_union_field (it : pb_field_iter) : M pb_istream pb_field_iter :=
  f ← cur_field it;
  let new_tag := tag f in
  old_tag ← load_size (pSize it);
  if (old_tag =? 0) || (old_tag =? new_tag) then mret it
  else
    '(found, it1) ← of_option (pb_field_iter_find it old_tag);
    if negb found then PB_RETURN_ERROR "invalid union tag"
    else
      pb_release_single_field e fuel it1;;
      '(found', it2) ← of_option (pb_field_iter_find it1 new_tag);
      if negb found' then PB_RETURN_ERROR "iterator error"
      else
        g ← cur_field it2;
        (if bool_decide (PB_ATYPE (type g) = PB_ATYPE_POINTER)
         then store_p (pData it2) NULL else mret tt);;
        mret it2.

(** [decode_field]; the result is the iterator, which releasing the old
    member of a union may have moved. *)
Definition decode_field (wire_type : Z) (it0 : pb_field_iter) : M pb_istream pb_field_iter :=
  f0 ← cur_field it0;
  it ← (if bool_decide (PB_HTYPE (type f0) = PB_HTYPE_ONEOF)
        then pb_release_union_field it0 else mret it0);
  f ← cur_field it;
  let at_ := PB_ATYPE (type f) in
  (if bool_decide (at_ = PB_ATYPE_STATIC) then decode_static_field wire_type it
   else if bool_decide (at_ = PB_ATYPE_POINTER) then decode_pointer_field wire_type it
   else if bool_decide (at_ = PB_ATYPE_CALLBACK) then decode_callback_field wire_type it
   else PB_RETURN_ERROR "invalid field type");;
  mret it.

Definition default_extension_decoder (extension : ptr) (t wire_type : Z)
  : M pb_istream unit :=
  ty ← load_p (ptr_add extension extension_type_off);
  arg ← load_p (ptr_add ty extension_type_arg_off);
  fs ← of_option (fields_at e arg);
  f ← of_option (fs !! 0%nat);
  if negb (tag f =? t) then mret tt
  else
    it ← iter_from_extension e extension;
    store_i 8 (ptr_add extension extension_found_off) 1;;
    decode_field wire_type it;;
    mret tt.

(** The loop of [decode_extension]: the next handler is tried while nothing
    has been read. *)
Fixpoint decode_extension_loop (rounds : nat) (ext : ptr) (left0 t wire_type : Z)
  : M pb_istream unit :=
  s ← get;
  if bool_decide (ext = NULL) || negb (left0 =? bytes_left s) then mret tt
  else match rounds with
       | O => no_fuel
       | S rounds' =>
           ty ← load_p (ptr_add ext extension_type_off);
           dec_fn ← load_p (ptr_add ty extension_type_decode_off);
           (if bool_decide (dec_fn = NULL)
            then default_extension_decoder ext t wire_type
            else match env_ext_decode e dec_fn with
                 | Some g => g ext t wire_type
                 | None => undefined
                 end);;
           nxt ← load_p (ptr_add ext extension_next_off);
           decode_extension_loop rounds' nxt left0 t wire_type
       end.

Definition decode_extension (t wire_type : Z) (it : pb_field_iter) : M pb_istream unit :=
  ext ← load_p (pData it);
  s ← get;
  decode_extension_loop fuel ext (bytes_left s) t wire_type.

(** *** Messages *)

(** The local variables of [pb_decode_noinit]. *)
Record noinit_state := mk_noinit {
  ni_iter : pb_field_iter;
  ni_seen : Z * Z;                      (* [fields_seen[2]] *)
  ni_ext_start : Z;                     (* [extension_range_start] *)
  ni_fixed : option nat }.              (* [fixed_count_field], by position *)

Definition set_seen (idx : Z) (seen : Z * Z) : Z * Z :=
  let tmp := Z.shiftl 1 (Z.land idx 31) in
  if Z.shiftr idx 5 =? 0 then (Z.lor seen.1 tmp, seen.2) else (seen.1, Z.lor seen.2 tmp).

(** A tag no field of the message has: an extension, or data to skip.
    [Some st] is [continue] after an extension took the field. *)
Definition unknown_field (st : noinit_state) (it : pb_field_iter) (t wire_type : Z)
  : M pb_istream noinit_state :=
  '(st1, handled) ←
    (if ni_ext_start st <=? t then
       '(found, it1) ← of_option (find_extension_field it);
       f ← cur_field it1;
       let ext_start := if found : bool then tag f else 2 ^ 32 - 1 in
       let st1 := mk_noinit it1 (ni_seen st) ext_start (ni_fixed st) in
       if ext_start <=? t then
         s ← get;
         decode_extension t wire_type it1;;
         s' ← get;
         mret (st1, negb (bytes_left s =? bytes_left s'))
       else mret (st1, false)
     else mret (mk_noinit it (ni_seen st) (ni_ext_start st) (ni_fixed st), false));
  (if handled : bool then mret tt else pb_skip_field e wire_type);;
  mret st1.

Definition fixed_count_incomplete (fcs : ptr) (fs : list pb_field) (fixed : option nat)
  : M pb_istream bool :=
  match fixed with
  | None => mret false
  | Some i => f ← of_option (fs !! i);
              n ← load_size fcs;
              mret (negb (n =? array_size f))
  end.

(** A tag of the message: the bookkeeping, then the field itself.  [fcs] is
    the address of [fixed_count_size]. *)
Definition known_field (fcs : ptr) (st : noinit_state) (it : pb_field_iter) (wire_type : Z)
  : M pb_istream noinit_state :=
  f ← cur_field it;
  '(it1, fixed) ←
    (if bool_decide (PB_HTYPE (type f) = PB_HTYPE_REPEATED ∧ pSize it = pData it) then
       (if bool_decide (ni_fixed st ≠ Some (pos it)) then
          bad ← fixed_count_incomplete fcs (start it) (ni_fixed st);
          if bad : bool then PB_RETURN_ERROR "wrong size for fixed count field"
          else store_size fcs 0
        else mret tt);;
       mret (mk_iter (start it) (pos it) (required_field_index it) (dest_struct it)
                     (pData it) fcs, Some (pos it))
     else mret (it, ni_fixed st));
  let seen := if bool_decide (PB_HTYPE (type f) = PB_HTYPE_REQUIRED) &&
                 (required_field_index it1 <? PB_MAX_REQUIRED_FIELDS)
              then set_seen (required_field_index it1) (ni_seen st) else ni_seen st in
  it2 ← decode_field wire_type it1;
  mret (mk_noinit it2 seen (ni_ext_start st) fixed).

(** The [while (stream->bytes_left)] loop. *)
Fixpoint noinit_loop (rounds : nat) (fcs : ptr) (st : noinit_state)
  : M pb_istream noinit_state :=
  s ← get;
  if bytes_left s =? 0 then mret st
  else match rounds with
       | O => no_fuel
       | S rounds' =>
           '(r, eof) ← pb_decode_tag e;
           match r with
           | None => if eof : bool then mret st else return_false
           | Some (wire_type, t) =>
               '(found, it) ← of_option (pb_field_iter_find (ni_iter st) t);
               st' ← (if found : bool then known_field fcs st it wire_type
                      else unknown_field st it t wire_type);
               noinit_loop rounds' fcs st'
           end
       end.

(** The loop that finds the number of required fields. *)
Fixpoint count_required (rounds : nat) (it : pb_field_iter) : option (Z * Z * pb_field_iter) :=
  match rounds with
  | O => None
  | S rounds' =>
      f ← start it !! pos it;
      '(more, it') ← pb_field_iter_next it;
      if more : bool then count_required rounds' it'
      else Some (required_field_index it, type f, it')
  end.

Definition required_missing (req_field_count : Z) (seen : Z * Z) : bool :=
  let allbits := 2 ^ 32 - 1 in
  let whole := Z.shiftr req_field_count 5 in
  let rest := Z.land req_field_count 31 in
  ((0 <? whole) && negb (seen.1 =? allbits)) ||
  ((1 <? whole) && negb (seen.2 =? allbits)) ||
  (negb (rest =? 0) &&
   negb ((if whole =? 0 then seen.1 else seen.2) =? Z.shiftr allbits (32 - rest))).

Definition check_required (st : noinit_state) : M pb_istream unit :=
  '(req0, last_type, it) ←
    of_option (count_required (S (length (start (ni_iter st)))) (ni_iter st));
  f ← cur_field it;
  let req1 := if bool_decide (PB_HTYPE last_type = PB_HTYPE_REQUIRED ∧ tag f ≠ 0)
              then wrapu 32 (req0 + 1) else req0 in
  let req := if PB_MAX_REQUIRED_FIELDS <? req1 then PB_MAX_REQUIRED_FIELDS else req1 in
  if (0 <? req) && required_missing req (ni_seen st)
  then PB_RETURN_ERROR "missing required field" else mret tt.

Definition decode_noinit_body (fields dest : ptr) : M pb_istream unit :=
  with_local sizeof_pb_size_t (fun fcs =>
    store_size fcs 0;;
    fs ← of_option (fields_at e fields);
    '(_, it) ← of_option (pb_field_iter_begin fs dest);
    s ← get;
    st ← noinit_loop (Z.to_nat (bytes_left s)) fcs (mk_noinit it (0, 0) 0 None);
    bad ← fixed_count_incomplete fcs (start (ni_iter st)) (ni_fixed st);
    if bad : bool then PB_RETURN_ERROR "wrong size for fixed count field"
    else check_required st).

(** [pb_decode] in terms of [pb_decode_noinit]. *)
Definition decode_init_body (noinit : ptr -> ptr -> M pb_istream unit)
    (fields dest : ptr) : M pb_istream unit :=
  pb_message_set_to_defaults e fuel fields dest;;
  ok ← status (noinit fields dest);
  (if negb ok then pb_release e fuel fields dest else mret tt);;
  return_bool ok.
End Level.

(** [decode fuel true] is [pb_decode] and [decode fuel false]
    [pb_decode_noinit], for messages nested less than [fuel] deep. *)
Fixpoint decode (fuel : nat) (init : bool) (fields dest : ptr) : M pb_istream unit :=
  match fuel with
  | O => no_fuel
  | S fuel' =>
      let noinit := decode_noinit_body fuel (decode fuel') in
      if init then decode_init_body fuel noinit fields dest else noinit fields dest
  end.

Definition pb_decode (fuel : nat) : ptr -> ptr -> M pb_istream unit := decode fuel true.
Definition pb_decode_noinit (fuel : nat) : ptr -> ptr -> M pb_istream unit := decode fuel false.

Definition pb_decode_delimited (fuel : nat) (fields dest : ptr) : M pb_istream unit :=
  substream ← pb_make_string_substream e;
  closing substream (pb_decode fuel fields dest).

Definition pb_decode_delimited_noinit (fuel : nat) (fields dest : ptr) : M pb_istream unit :=
  substream ← pb_make_string_substream e;
  closing substream (pb_decode_noinit fuel fields dest).

Definition pb_decode_nullterminated (fuel : nat) : ptr -> ptr -> M pb_istream unit :=
  pb_decode fuel.
End Decode.
