(* ===== verification/PbTheorems.v ===== *)
(** * nanopb: the properties

    What an application relies on: the size nanopb announces is the size it
    writes, output never overruns its buffer, the primitive encoders and
    decoders are inverse to each other, the decoders accept and refuse what the
    wire format says, and a field is skipped, or confined to its substream,
    exactly.  The lemmas are in the component files. *)
From S2P Require Import Prelude CMem PbCore PbIter PbEncode PbSize PbEncodeSpec PbWire PbIn PbReadSpec.

(** ** Encoding *)

(** What it means that a computation has the output [bs]: a buffer of [n]
    bytes receives exactly [bs] if they fit, and otherwise the call returns
    [false] with "stream full". *)
Definition writes_exactly (c : M pb_ostream unit) (m : mem) (bs : list cell) : Prop :=
  forall buf n w m1, frame (blk buf) m m1 -> load_cells m1 buf n = Some w -> n < 2 ^ 64 ->
    if len bs <=? n
    then exists m2, store_cells m1 buf bs = Some m2 /\
         c (pb_ostream_from_buffer buf n) m1
         = Ret tt (mk_ostream buf_write_fn (ptr_add buf (len bs)) n (len bs) None) m2
    else len bs < 2 ^ 64 ->
         exists s2 m2, c (pb_ostream_from_buffer buf n) m1 = Fail s2 m2 /\
                       o_errmsg s2 = Some "stream full"%string.

Lemma emits_writes c m bs : emits c m tt bs -> writes_exactly c m bs.
Proof.
  intros E buf n w m1 Hf Hw Hn.
  assert (onto (blk buf) (pb_ostream_from_buffer buf n) m1) as Ho.
  { unfold onto. cbn. apply load_cells_length in Hw as Hl. split_and!; try done; [lia|].
    rewrite Z.sub_0_r. eauto. }
  pose proof (len_nonneg bs). destruct (Z.leb_spec (len bs) n).
  - destruct (em_write _ _ _ _ E _ _ _ Hf Ho) as (m2 & Hst & Hrun); [cbn; lia|].
    exists m2. split; [done|]. rewrite Hrun. unfold advanced, counted. cbn.
    unfold set_o_state, set_bytes_written. cbn. by rewrite Z.add_0_l, wrapu_id by (unfold in_u; lia).
  - intros Hl. apply (em_full _ _ _ _ E _ _ _ Hf Ho). cbn. lia.
Qed.

Section Encode.
Context (e : env).
Hypothesis sink_writer : env_writer e sink_fn = Some sink_callback.
Hypothesis descriptors_ok : env_ok e.
Hypothesis user_encode : forall p g f a, env_encode e p = Some g -> consistent (g f a).
Hypothesis user_ext_encode : forall p g x, env_ext_encode e p = Some g -> consistent (g x).

Lemma encode_output fuel fields src s m s' m' :
  sink s -> pb_encode e fuel fields src s m = Ret tt s' m' ->
  exists bs, m' = m /\ bytes_written s' = bytes_written s + len bs /\ in_u 62 (len bs) /\
             emits (pb_encode e fuel fields src) m tt bs.
Proof.
  intros Hs Hrun.
  destruct (co_emits _ (consistent_pb_encode e sink_writer descriptors_ok user_encode
    user_ext_encode fuel fields src) _ _ _ _ _ Hs Hrun) as (bs & -> & _ & Hs' & Hb & E).
  apply sink_range in Hs, Hs'. pose proof (len_nonneg bs). exists bs.
  unfold in_u. split_and!; (done || lia).
Qed.

(** C1.  Whenever a message can be encoded at all (to a callback that accepts
    everything), its encoding is one byte string [bs]: the size
    [pb_get_encoded_size] announces is the length of [bs], a buffer receives
    exactly [bs] and nothing around it changes, and a buffer that is too small
    gives "stream full", never an overrun. *)
Theorem encode_agrees fuel fields src s m s' m' :
  sink s -> pb_encode e fuel fields src s m = Ret tt s' m' ->
  exists bs, m' = m /\ bytes_written s' = bytes_written s + len bs /\
    (forall s1 m1, sees m m1 ->
       pb_get_encoded_size e fuel fields src s1 m1 = Ret (len bs) s1 m1) /\
    writes_exactly (pb_encode e fuel fields src) m bs.
Proof.
  intros Hs (bs & -> & Hb & Hl & E)%encode_output; [|done].
  exists bs. split_and!; [done|done| |by apply emits_writes].
  intros s1 m1 Hm. unfold pb_get_encoded_size, mbind, M_bind.
  by rewrite (on_stream_sizing_counted _ _ _ _ _ E Hm) by (unfold in_u in *; lia).
Qed.

(**  [pb_encode_delimited] writes the length of the message as a varint
    and then the very bytes [pb_encode] writes; in particular the second run
    of the encoder never disagrees with the first ("submsg size changed"). *)
Theorem encode_delimited_agrees fuel fields src s m s' m' :
  sink s -> pb_encode e fuel fields src s m = Ret tt s' m' ->
  exists bs, writes_exactly (pb_encode e fuel fields src) m bs /\
    writes_exactly (pb_encode_delimited e fuel fields src) m
      ((Byte <$> varint (len bs)) ++ bs).
Proof.
  intros Hs (bs & -> & Hb & Hl & E)%encode_output; [|done].
  exists bs. split; [by apply emits_writes|]. apply emits_writes, emits_submessage; [done|..].
  - unfold in_u in *. lia.
  - apply emits_varint. unfold in_u in *. lia.
Qed.
End Encode.

Lemma sample_user_encode p g f a :
  env_encode sample_env p = Some g -> consistent (g f a).
Proof. done. Qed.

Lemma sample_user_ext p g x : env_ext_encode sample_env p = Some g -> consistent (g x).
Proof. done. Qed.

Lemma encode_agrees_witness :
  exists bs, sample_mem = sample_mem /\ bytes_written (advanced 25 sink_stream) = 0 + len bs /\
    (forall s1 m1, sees sample_mem m1 ->
       pb_get_encoded_size sample_env 3 outer_ptr sample_ptr s1 m1 = Ret (len bs) s1 m1) /\
    writes_exactly (pb_encode sample_env 3 outer_ptr sample_ptr) sample_mem bs.
Proof.
  apply (encode_agrees sample_env eq_refl sample_env_ok sample_user_encode sample_user_ext
           3 outer_ptr sample_ptr sink_stream sample_mem _ _ sample_sink).
  vm_compute. reflexivity.
Defined.

Lemma encode_delimited_agrees_witness :
  exists bs, writes_exactly (pb_encode sample_env 3 outer_ptr sample_ptr) sample_mem bs /\
    writes_exactly (pb_encode_delimited sample_env 3 outer_ptr sample_ptr) sample_mem
      ((Byte <$> varint (len bs)) ++ bs).
Proof.
  eapply (encode_delimited_agrees sample_env eq_refl sample_env_ok sample_user_encode
           sample_user_ext 3 outer_ptr sample_ptr sink_stream sample_mem _ _ sample_sink).
  vm_compute. reflexivity.
Defined.

(** ** Round trips through a buffer *)

(** The memory without one object. *)
Definition without (b : Z) (m : mem) : mem := mk_mem (delete b (blocks m)) (next m).

Lemma frame_without b m : frame b (without b m) m.
Proof.
  split; cbn; [by rewrite lookup_delete_eq|]. intros c Hc. by rewrite lookup_delete_ne.
Qed.

(** What was written to a buffer can be read from it. *)
Lemma buffer_written B st m m' bs :
  store_cells m st (Byte <$> bs) = Some m' -> blk st = B -> Forall (in_u 8) bs -> len bs < 2 ^ 64 ->
  source (R := buffer_at B) (pb_istream_from_buffer st (len bs)) m' bs [].
Proof.
  intros Hst HB Hb Hl. unfold source, buffer_at. cbn. rewrite app_nil_r.
  pose proof (len_nonneg bs). unfold in_u. split_and!; try done.
  unfold load_bytes. apply load_store_same in Hst. rewrite length_fmap in Hst.
  unfold len. by rewrite Hst, all_bytes_fmap.
Qed.

(** Encode to a buffer with [c], then decode what was written with [d]. *)
Lemma through_buffer {A} (c : M pb_ostream unit) (d : M pb_istream A) a bs buf n w m m3 :
  emits c (without (blk buf) m) tt (Byte <$> bs) -> Forall (in_u 8) bs ->
  load_cells m buf n = Some w -> len bs <= n < 2 ^ 64 ->
  (forall m2, store_bytes m buf bs = Some m2 ->
     consumes (R := buffer_at (blk buf)) d m2 a bs (m3 m2)) ->
  exists s2 m2 s3, c (pb_ostream_from_buffer buf n) m = Ret tt s2 m2 /\
    store_bytes m buf bs = Some m2 /\ bytes_written s2 = len bs /\
    d (pb_istream_from_buffer buf (bytes_written s2)) m2 = Ret a s3 (m3 m2) /\
    bytes_left s3 = 0.
Proof.
  intros Hc Hb Hw Hn Hd. pose proof (len_nonneg bs).
  pose proof (emits_writes _ _ _ Hc buf n w m (frame_without _ _) Hw ltac:(lia)) as Hrun.
  assert (len (Byte <$> bs) = len bs) as El by (unfold len; by rewrite length_fmap).
  rewrite El, (proj2 (Z.leb_le _ _)) in Hrun by lia. destruct Hrun as (m2 & Hst & Hrun).
  pose proof (buffer_written (blk buf) buf m m2 bs Hst eq_refl Hb ltac:(lia)) as Hsrc.
  rewrite <- (app_nil_r bs) in Hsrc at 2.
  destruct (Hd m2 Hst _ [] [] Hsrc) as (s3 & Hdec & (_ & Hleft & _) & _).
  eexists _, m2, s3. split; [exact Hrun|]. done.
Qed.

(** A 64-bit value written by [pb_encode_varint] is what
    [pb_decode_varint] reads back, and it reads all that was written. *)
Theorem varint_roundtrip e v buf n w m :
  in_u 64 v -> load_cells m buf n = Some w -> 10 <= n < 2 ^ 64 ->
  exists s2 m2 s3, pb_encode_varint e v (pb_ostream_from_buffer buf n) m = Ret tt s2 m2 /\
    bytes_written s2 = len (varint v) /\
    pb_decode_varint e (pb_istream_from_buffer buf (bytes_written s2)) m2 = Ret v s3 m2 /\
    bytes_left s3 = 0.
Proof.
  intros Hv Hw Hn. pose proof (varint_length v).
  destruct (through_buffer _ (pb_decode_varint e) v (varint v) buf n w m id
    (emits_varint e v _ Hv) (is_varint_bytes _ (varint_is_varint v Hv)) Hw)
    as (s2 & m2 & s3 & ? & _ & ? & ? & ?); [unfold len; lia| |by eauto 10].
  intros m2 _. by apply consumes_varint.
Qed.

Lemma varint_roundtrip_witness :
  exists s2 m2 s3,
    pb_encode_varint sample_env (2 ^ 64 - 1) (pb_ostream_from_buffer sample_buf 10) (with_buffer 10)
    = Ret tt s2 m2 /\ bytes_written s2 = 10 /\
    pb_decode_varint sample_env (pb_istream_from_buffer sample_buf (bytes_written s2)) m2
    = Ret (2 ^ 64 - 1) s3 m2 /\ bytes_left s3 = 0.
Proof.
  eapply (varint_roundtrip sample_env (2 ^ 64 - 1) sample_buf 10 _ (with_buffer 10)).
  - unfold in_u. lia.
  - vm_compute. reflexivity.
  - lia.
Defined.

(**  The same for signed values and their zigzag encoding: small magnitudes
    of either sign have short encodings, and no value is lost. *)
Theorem svarint_roundtrip e v buf n w m :
  in_s 64 v -> load_cells m buf n = Some w -> 10 <= n < 2 ^ 64 ->
  exists s2 m2 s3, pb_encode_svarint e v (pb_ostream_from_buffer buf n) m = Ret tt s2 m2 /\
    bytes_written s2 = len (varint (zz v)) /\
    pb_decode_svarint e (pb_istream_from_buffer buf (bytes_written s2)) m2 = Ret v s3 m2 /\
    bytes_left s3 = 0.
Proof.
  intros Hv Hw Hn. pose proof (varint_length (zz v)).
  destruct (through_buffer _ (pb_decode_svarint e) v (varint (zz v)) buf n w m id
    (emits_svarint e v _ Hv) (is_varint_bytes _ (varint_is_varint _ (zz_range v Hv))) Hw)
    as (s2 & m2 & s3 & ? & _ & ? & ? & ?); [unfold len; lia| |by eauto 10].
  intros m2 _. by apply consumes_svarint.
Qed.

Lemma svarint_roundtrip_witness :
  exists s2 m2 s3,
    pb_encode_svarint sample_env (- 2 ^ 63) (pb_ostream_from_buffer sample_buf 10) (with_buffer 10)
    = Ret tt s2 m2 /\ bytes_written s2 = len (varint (zz (- 2 ^ 63))) /\
    pb_decode_svarint sample_env (pb_istream_from_buffer sample_buf (bytes_written s2)) m2
    = Ret (- 2 ^ 63) s3 m2 /\ bytes_left s3 = 0.
Proof.
  eapply (svarint_roundtrip sample_env (- 2 ^ 63) sample_buf 10 _ (with_buffer 10)).
  - unfold in_s. lia.
  - vm_compute. reflexivity.
  - lia.
Defined.

(**  A key written by [pb_encode_tag] gives [pb_decode_tag] its wire type
    and field number back, for every field number the 32-bit decoder can hold. *)
Theorem tag_roundtrip e wt num buf n w m :
  in_u 3 wt -> 0 < num < 2 ^ 29 -> load_cells m buf n = Some w -> 10 <= n < 2 ^ 64 ->
  exists s2 m2 s3, pb_encode_tag e wt num (pb_ostream_from_buffer buf n) m = Ret tt s2 m2 /\
    pb_decode_tag e (pb_istream_from_buffer buf (bytes_written s2)) m2
    = Ret (Some (wt, num), false) s3 m2 /\ bytes_left s3 = 0.
Proof.
  intros Hwt Hnum Hw Hn. pose proof (varint_length (key num wt)).
  assert (in_u 32 num) as Hnum' by (unfold in_u; lia).
  assert (0 < key num wt < 2 ^ 32) as Hkey by (unfold key, in_u in *; lia).
  destruct (through_buffer _ (pb_decode_tag e) (Some (wt, num), false) (varint (key num wt))
    buf n w m id (emits_tag e wt num _ Hwt Hnum')
    (is_varint_bytes _ (varint_is_varint _ (key_range _ _ Hwt Hnum'))) Hw)
    as (s2 & m2 & s3 & ? & _ & ? & ? & ?); [unfold len; lia| |by eauto 10].
  intros m2 _. by apply consumes_tag.
Qed.

Lemma tag_roundtrip_witness :
  exists s2 m2 s3,
    pb_encode_tag sample_env 5 19999 (pb_ostream_from_buffer sample_buf 10) (with_buffer 10)
    = Ret tt s2 m2 /\
    pb_decode_tag sample_env (pb_istream_from_buffer sample_buf (bytes_written s2)) m2
    = Ret (Some (5, 19999), false) s3 m2 /\ bytes_left s3 = 0.
Proof.
  eapply (tag_roundtrip sample_env 5 19999 sample_buf 10 _ (with_buffer 10)).
  - unfold in_u. lia.
  - lia.
  - vm_compute. reflexivity.
  - lia.
Defined.

(** Writing [k] bytes of a value to a buffer and reading them to [dest]. *)
Lemma fixed_through (k : nat) (c : M pb_ostream unit) (d : M pb_istream unit) v dest buf n w m x :
  in_u (8 * Z.of_nat k) v -> emits c (without (blk buf) m) tt (Byte <$> le_split k v) ->
  (forall m2 m3, store_int m2 dest (Z.of_nat k) v = Some m3 ->
     consumes (R := buffer_at (blk buf)) d m2 tt (le_split k v) m3) ->
  blk dest <> blk buf -> load_cells m buf n = Some w -> Z.of_nat k <= n < 2 ^ 64 ->
  load_cells m dest (Z.of_nat k) = Some x ->
  exists s2 m2 s3 m3, c (pb_ostream_from_buffer buf n) m = Ret tt s2 m2 /\
    d (pb_istream_from_buffer buf (bytes_written s2)) m2 = Ret tt s3 m3 /\
    bytes_left s3 = 0 /\ load_int m3 dest (Z.of_nat k) = Some v.
Proof.
  intros Hv Hc Hd Hne Hw Hn Hx.
  assert (forall m2, store_bytes m buf (le_split k v) = Some m2 ->
            exists m3, store_int m2 dest (Z.of_nat k) v = Some m3) as Hstore.
  { intros m2 Hst. apply (store_int_ok _ _ _ _ x). rewrite <- Hx.
    by eapply load_store_block. }
  assert (len (le_split k v) = Z.of_nat k) as El by (unfold len; by rewrite length_le_split).
  destruct (through_buffer c d tt (le_split k v) buf n w m
    (fun m2 => default m2 (store_int m2 dest (Z.of_nat k) v)) Hc (le_split_bytes k v) Hw)
    as (s2 & m2 & s3 & E1 & Hst & _ & E2 & E3); [lia| |].
  - intros m2 Hst. destruct (Hstore m2 Hst) as [m3 Hm3]. rewrite Hm3. cbn. by apply Hd.
  - destruct (Hstore m2 Hst) as [m3 Hm3]. rewrite Hm3 in E2. cbn in E2.
    exists s2, m2, s3, m3. split_and!; [done..|].
    erewrite load_store_int by (done || lia). by rewrite Z.mod_small by apply Hv.
Qed.

(**  [pb_encode_fixed32] and [pb_decode_fixed32], and their 64-bit
    versions, move the value at one address to another unchanged. *)
Theorem fixed_roundtrip e p dest v buf n w m x (wide : bool) :
  let k := if wide then 8 else 4 in
  let encode := if wide then pb_encode_fixed64 e p else pb_encode_fixed32 e p in
  let decode := if wide then pb_decode_fixed64 e dest else pb_decode_fixed32 e dest in
  blk dest <> blk buf -> blk p <> blk buf ->
  load_cells m buf n = Some w -> k <= n < 2 ^ 64 -> load_cells m dest k = Some x ->
  load_int m p k = Some v ->
  exists s2 m2 s3 m3, encode (pb_ostream_from_buffer buf n) m = Ret tt s2 m2 /\
    decode (pb_istream_from_buffer buf (bytes_written s2)) m2 = Ret tt s3 m3 /\
    bytes_left s3 = 0 /\ load_int m3 dest k = Some v.
Proof.
  intros k encode decode Hd Hp Hw Hn Hx Hv.
  assert (load_int (without (blk buf) m) p k = Some v) as Hv0.
  { rewrite <- Hv. unfold load_int, load_bytes, load_cells. cbn. by rewrite lookup_delete_ne. }
  apply load_int_range in Hv as Hr. subst k encode decode. destruct wide.
  - apply (fixed_through 8 _ _ v dest buf n w m x); auto using emits_fixed64.
    intros. apply consumes_fixed64; auto.
  - apply (fixed_through 4 _ _ v dest buf n w m x); auto using emits_fixed32.
    intros. apply consumes_fixed32; auto.
Qed.

Lemma fixed_roundtrip_witness :
  exists s2 m2 s3 m3,
    pb_encode_fixed64 sample_env (mk_ptr 1 8) (pb_ostream_from_buffer sample_buf 8) (with_buffer 8)
    = Ret tt s2 m2 /\
    pb_decode_fixed64 sample_env (mk_ptr 1 28) (pb_istream_from_buffer sample_buf (bytes_written s2)) m2
    = Ret tt s3 m3 /\ bytes_left s3 = 0 /\ load_int m3 (mk_ptr 1 28) 8 = Some 1288490188801.
Proof.
  eapply (fixed_roundtrip sample_env (mk_ptr 1 8) (mk_ptr 1 28) 1288490188801 sample_buf 8 _
            (with_buffer 8) _ true).
  - done.
  - done.
  - vm_compute. reflexivity.
  - lia.
  - vm_compute. reflexivity.
  - vm_compute. reflexivity.
Defined.

(** ** Iterating over a message *)

Section Fields.
Context (fields : list pb_field) (n : nat) (dest : ptr).
Hypothesis wf : fields_wf fields n.
Hypothesis nonempty : (0 < n)%nat.
Hypothesis dest_nonnull : dest ≠ NULL.

(** The iterator after [k] calls of [pb_field_iter_next]. *)
Fixpoint visited (k : nat) : option pb_field_iter :=
  match k with
  | O => '(_, it) ← pb_field_iter_begin fields dest; Some it
  | S k' => it ← visited k'; '(_, it') ← pb_field_iter_next it; Some it'
  end.

Lemma visited_at k : (k < n)%nat -> exists it, visited k = Some it /\ iter_at fields dest k it.
Proof.
  induction k as [|k IH]; intros Hk; cbn.
  - destruct (begin_spec fields n dest wf nonempty dest_nonnull) as (it & -> & Hat). eauto.
  - destruct (IH ltac:(lia)) as (it & -> & Hat). cbn.
    destruct (next_spec fields n dest wf nonempty dest_nonnull k it ltac:(lia) Hat)
      as (b & it' & -> & Hb).
    rewrite bool_decide_eq_true_2 in Hb by lia. cbn. destruct Hb as [_ Hb]. eauto.
Qed.

(**  Iterating visits every field of the message once, in order, with
    the member address its descriptors imply, and then says that it is done
    and is back at the first field. *)
Theorem iteration_complete k :
  (k < n)%nat ->
  exists it it' b, visited k = Some it /\ pb_field_iter_next it = Some (b, it') /\
    pos it = k /\ (exists r, layout_at fields dest k = Some (pData it, r)) /\
    b = bool_decide (S k < n)%nat /\
    iter_at fields dest (if b then S k else 0%nat) it'.
Proof.
  intros Hk. destruct (visited_at k Hk) as (it & Hv & Hat).
  destruct (next_spec fields n dest wf nonempty dest_nonnull k it Hk Hat) as (b & it' & Hn & Hb).
  exists it, it', b. pose proof Hat as (_ & Hp & _ & Hl).
  split_and!; [done|done|done|eauto| |]; revert Hb; case_bool_decide; intros [-> ?]; done.
Qed.

(**  From any position, [pb_field_iter_find] finds a field with the tag,
    whatever the order of the fields on the wire, at the address the
    descriptors imply; it returns [false] exactly when the message has no such
    field, and then it is where it started.  It always returns. *)
Theorem find_complete i it t :
  (i < n)%nat -> iter_at fields dest i it ->
  exists b it' j, pb_field_iter_find it t = Some (b, it') /\
    (j < n)%nat /\ iter_at fields dest j it' /\
    (b = true -> exists f, fields !! j = Some f /\ tag f = t /\ PB_LTYPE (type f) <> PB_LTYPE_EXTENSION) /\
    (b = false -> j = i /\ forall k f, (k < n)%nat -> fields !! k = Some f -> tag f = t ->
                           PB_LTYPE (type f) = PB_LTYPE_EXTENSION).
Proof.
  intros Hi Hat. unfold pb_field_iter_find.
  destruct (iter_search_spec fields n dest wf nonempty dest_nonnull (is_wanted t) i it Hi Hat)
    as (b & it' & j & Hrun & Hj & Hatj & Hres).
  exists b, it', j. split_and!; [done|done|done|intros ->|intros ->].
  - destruct Hres as (f & Hf & Hw). unfold is_wanted in Hw. apply bool_decide_eq_true in Hw. eauto.
  - destruct Hres as [-> Hall]. split; [done|]. intros k f Hk Hf Ht.
    pose proof (Hall k f Hk Hf) as Hw. unfold is_wanted in Hw. apply bool_decide_eq_false in Hw.
    destruct (decide (PB_LTYPE (type f) = PB_LTYPE_EXTENSION)); [done|]. exfalso. auto.
Qed.
End Fields.

Lemma outer_wf : fields_wf outer_fields 4.
Proof.
  split; [done| |by intros f [= <-]].
  intros i f Hi Hf. do 4 (destruct i as [|i]; [by injection Hf as <-|]). lia.
Qed.

Lemma iteration_complete_witness :
  exists it it' b, visited outer_fields sample_ptr 2 = Some it /\
    pb_field_iter_next it = Some (b, it') /\ pos it = 2%nat /\
    (exists r, layout_at outer_fields sample_ptr 2 = Some (pData it, r)) /\
    b = bool_decide (3 < 4)%nat /\ iter_at outer_fields sample_ptr (if b then 3 else 0%nat) it'.
Proof. apply (iteration_complete outer_fields 4 sample_ptr outer_wf); [lia|done|lia]. Defined.

Lemma find_complete_witness :
  exists b it' j,
    pb_field_iter_find (mk_iter outer_fields 2 1 sample_ptr (mk_ptr 1 24) (mk_ptr 1 20)) 2
    = Some (b, it') /\ (j < 4)%nat /\ iter_at outer_fields sample_ptr j it' /\
    (b = true -> exists f, outer_fields !! j = Some f /\ tag f = 2 /\
                           PB_LTYPE (type f) <> PB_LTYPE_EXTENSION) /\
    (b = false -> j = 2%nat /\ forall k f, (k < 4)%nat -> outer_fields !! k = Some f -> tag f = 2 ->
                               PB_LTYPE (type f) = PB_LTYPE_EXTENSION).
Proof.
  apply (find_complete outer_fields 4 sample_ptr outer_wf); [lia|done|lia|].
  vm_compute. auto.
Defined.

(** ** Decoding any input *)

(** A source for the sample program: the bytes [bs] in block 2. *)
Definition input_mem (bs : list Z) : mem := mk_mem {[ 2 := Byte <$> bs ]} 10.

Lemma input_source bs tl : Forall (in_u 8) (bs ++ tl) -> len bs < 2 ^ 64 ->
  source (R := buffer_at 2) (pb_istream_from_buffer sample_buf (len bs)) (input_mem (bs ++ tl)) bs tl.
Proof.
  intros Hb Hl. pose proof (len_nonneg bs). split_and!; [|done|unfold in_u; lia].
  split_and!; [done|done|]. unfold load_bytes, load_cells.
  change (blocks (input_mem (bs ++ tl)) !! blk (i_state (pb_istream_from_buffer sample_buf (len bs))))
    with (({[ 2 := Byte <$> bs ++ tl ]} : gmap Z (list cell)) !! 2).
  change (off (i_state _)) with 0.
  rewrite lookup_singleton_eq, bool_decide_eq_true_2
    by (rewrite length_fmap; pose proof (len_nonneg (bs ++ tl)); unfold len in *; lia).
  unfold len. rewrite Nat2Z.id. change (Z.to_nat 0) with 0%nat. rewrite drop_0, take_ge
    by (by rewrite length_fmap). by rewrite all_bytes_fmap.
Qed.

Section Decode.
Context {e : env} {B : Z} {R : ptr -> ptr -> mem -> list Z -> Prop} `{BS : !ByteSource e B R}.

(**  [pb_decode_varint] on every input: it parses at most ten bytes of
    base-128 groups and leaves the stream right behind them; an input that
    ends too early is "end-of-stream", one that goes on for longer is
    "varint overflow".  It always returns. *)
Theorem decode_varint_total s m bs tl :
  source (R := R) s m bs tl ->
  match parse_varint 10 bs with
  | VOk v rest => exists s', pb_decode_varint e s m = Ret (v mod 2 ^ 64) s' m /\
                             source (R := R) s' m rest tl
  | VShort => fails (pb_decode_varint e) s m "end-of-stream"
  | VLong => fails (pb_decode_varint e) s m "varint overflow"
  end.
Proof.
  intros Hs. pose proof (decode_varint_spec bs s m tl Hs) as H.
  destruct (parse_varint 10 bs); [|done..]. destruct H as (s' & ? & ? & _). eauto.
Qed.

(**  [pb_decode_varint32] on the encoding of any value a conforming
    encoder can write for a 32-bit field: it returns an unsigned value as it
    is, the low half of a sign-extended negative one, and refuses what lies
    between with "varint overflow". *)
Theorem decode_varint32_range v s m rest tl :
  in_u 64 v -> source (R := R) s m (varint v ++ rest) tl ->
  (v < 2 ^ 32 -> exists s', pb_decode_varint32 e s m = Ret v s' m /\
                            source (R := R) s' m rest tl) /\
  (2 ^ 32 <= v < 2 ^ 63 -> fails (pb_decode_varint32 e) s m "varint overflow") /\
  (2 ^ 64 - 2 ^ 31 <= v -> exists s', pb_decode_varint32 e s m = Ret (v mod 2 ^ 32) s' m /\
                                      source (R := R) s' m rest tl).
Proof.
  unfold in_u. intros Hv Hs. split_and!; intros Hr.
  - destruct (consumes_varint32 v m ltac:(unfold in_u; lia) s rest tl Hs) as (s' & ? & ? & _). eauto.
  - destruct (varint32_overflow v s m rest tl Hr Hs) as (s' & E & He).
    exists s', m. unfold pb_decode_varint32. by rewrite (bind_Ret _ _ _ _ _ _ _ E).
  - destruct (varint32_negative v s m rest tl ltac:(lia) Hs) as (s' & E & ? & _).
    exists s'. split; [|done]. unfold pb_decode_varint32. by rewrite (bind_Ret _ _ _ _ _ _ _ E).
Qed.

(** C2.  [pb_skip_field] takes exactly one encoded value of its wire type off
    the stream, whatever follows, so decoding resumes at the next key. *)
Theorem skip_field_exact wt bs s m rest tl :
  wire_value wt bs -> source (R := R) s m (bs ++ rest) tl ->
  exists s', pb_skip_field e wt s m = Ret tt s' m /\ source (R := R) s' m rest tl.
Proof.
  intros Hw Hs. destruct (consumes_skip_field wt bs m Hw s rest tl Hs) as (s' & ? & ? & _). eauto.
Qed.

(** C3.  A length-delimited field is confined to its substream: the
    substream holds the payload and nothing else, and however much of it a
    reader has left unread ([remaining]), in whatever memory [m'] with the
    same input, closing the substream puts the parent behind the payload. *)
Theorem substream_confined payload s m rest tl :
  in_u 32 (len payload) ->
  source (R := R) s m (varint (len payload) ++ payload ++ rest) tl ->
  exists sub s', pb_make_string_substream e s m = Ret sub s' m /\
    source (R := R) sub m payload (rest ++ tl) /\
    forall sub' m' remaining,
      source (R := R) sub' m' remaining (rest ++ tl) -> i_callback sub' = i_callback sub ->
      exists s'', pb_close_string_substream e sub' s' m' = Ret tt s'' m' /\
                  source (R := R) s'' m' rest tl.
Proof.
  intros Hp Hs. destruct (make_substream payload s m rest tl Hp Hs)
    as (sub & s' & E & Hsub & [Csub _] & [Cs' _] & Hleft).
  exists sub, s'. split_and!; [done|done|]. intros sub' m' remaining Hsub' Hcb.
  destruct (close_substream sub' s' m' remaining rest tl) as (s'' & ? & ? & _); [done| |done| |by eauto].
  - congruence.
  - destruct Hs as (_ & _ & Hr). rewrite !len_app in Hr. pose proof (len_nonneg payload).
    pose proof (len_nonneg rest). pose proof (len_nonneg (varint (len payload))).
    unfold in_u in *. lia.
Qed.
End Decode.

Lemma decode_varint_total_witness :
  exists s', pb_decode_varint sample_env (pb_istream_from_buffer sample_buf 3)
               (input_mem [172; 2; 7]) = Ret 300 s' (input_mem [172; 2; 7]) /\
             source (R := buffer_at 2) s' (input_mem [172; 2; 7]) [7] [].
Proof.
  apply (decode_varint_total (e := sample_env) (pb_istream_from_buffer sample_buf 3)
           (input_mem [172; 2; 7]) [172; 2; 7] []).
  apply (input_source [172; 2; 7] []); [|done]. repeat constructor; done.
Defined.

Lemma decode_varint32_range_witness :
  exists s', pb_decode_varint32 sample_env (pb_istream_from_buffer sample_buf 3)
               (input_mem [172; 2; 7]) = Ret 300 s' (input_mem [172; 2; 7]) /\
             source (R := buffer_at 2) s' (input_mem [172; 2; 7]) [7] [].
Proof.
  destruct (decode_varint32_range (e := sample_env) (R := buffer_at 2) 300
              (pb_istream_from_buffer sample_buf 3) (input_mem [172; 2; 7]) [7] []) as [H _].
  - unfold in_u. lia.
  - apply (input_source [172; 2; 7] []); [|done]. repeat constructor; done.
  - apply H. lia.
Defined.

Lemma skip_field_exact_witness :
  exists s', pb_skip_field sample_env 2 (pb_istream_from_buffer sample_buf 4)
               (input_mem [2; 104; 105; 8]) = Ret tt s' (input_mem [2; 104; 105; 8]) /\
             source (R := buffer_at 2) s' (input_mem [2; 104; 105; 8]) [8] [].
Proof.
  apply (skip_field_exact (e := sample_env) 2 [2; 104; 105]).
  - right. right. left. split; [done|]. exists [104; 105]. done.
  - apply (input_source [2; 104; 105; 8] []); [|done]. repeat constructor; done.
Defined.

Lemma substream_confined_witness :
  exists sub s', pb_make_string_substream sample_env (pb_istream_from_buffer sample_buf 4)
                   (input_mem [2; 104; 105; 8]) = Ret sub s' (input_mem [2; 104; 105; 8]) /\
    source (R := buffer_at 2) sub (input_mem [2; 104; 105; 8]) [104; 105] [8] /\
    forall sub' m' remaining,
      source (R := buffer_at 2) sub' m' remaining [8] -> i_callback sub' = i_callback sub ->
      exists s'', pb_close_string_substream sample_env sub' s' m' = Ret tt s'' m' /\
                  source (R := buffer_at 2) s'' m' [8] [].
Proof.
  apply (substream_confined (e := sample_env) (R := buffer_at 2) [104; 105]
           (pb_istream_from_buffer sample_buf 4) (input_mem [2; 104; 105; 8]) [8] []).
  - done.
  - apply (input_source [2; 104; 105; 8] []); [|done]. repeat constructor; done.
Defined.

(** The bit position of [pb_decode_varint32_eof] is an 8-bit number: after 37
    continuation bytes it has wrapped to 3, and a varint of 38 bytes is decoded
    as 8 where a longer value should be refused. *)
Example varint32_bitpos_wraps :
  exists s', pb_decode_varint32 sample_env (pb_istream_from_buffer sample_buf 38)
               (input_mem (replicate 37 128 ++ [1])) = Ret 8 s' (input_mem (replicate 37 128 ++ [1])).
Proof. eexists. vm_compute. reflexivity. Qed.
