(* ===== verification/UvHeap.v ===== *)
(** * libuv: the binary heap

    The pointer structure of [heap-inl.h], and its view as an array in level order. *)
From S2P Require Import Prelude.

(** ** libuv: the pointer-based binary min heap ([heap-inl.h])

    Nodes are linked by [left], [right] and [parent]; the heap knows its root
    and its size, and finds the place of the last node from the binary digits
    of the size.  The operations are modelled on the linked structure, pointer
    assignment by pointer assignment. *)

(** ** Data *)

(** Addresses of nodes are integers, [None] is [NULL]. *)
Record heap_node := mk_node {
  left : option Z;
  right : option Z;
  parent : option Z }.

(** [struct heap], and the memory its nodes live in. *)
Record heap := mk_heap {
  min : option Z;
  nelts : Z;
  nodes : gmap Z heap_node }.

#[global] Instance heap_node_eq_dec : EqDecision heap_node.
Proof. solve_decision. Defined.

Definition set_left (v : option Z) (n : heap_node) : heap_node := mk_node v (right n) (parent n).
Definition set_right (v : option Z) (n : heap_node) : heap_node := mk_node (left n) v (parent n).
Definition set_parent (v : option Z) (n : heap_node) : heap_node := mk_node (left n) (right n) v.

(** ** Memory accesses: [None] where a null or dangling pointer is followed *)

Definition with_nodes (ns : gmap Z heap_node) (h : heap) : heap := mk_heap (min h) (nelts h) ns.

(** [x->field = v]. *)
Definition modify (x : Z) (f : heap_node -> heap_node) (h : heap) : option heap :=
  n ← nodes h !! x;
  Some (with_nodes (<[x := f n]> (nodes h)) h).

(** [if (p != NULL) p->field = v]. *)
Definition modify_opt (p : option Z) (f : heap_node -> heap_node) (h : heap) : option heap :=
  match p with Some x => modify x f h | None => Some h end.

(** What a [struct heap_node **] points at. *)
Inductive slot :=
| SMin
| SLeft (x : Z)
| SRight (x : Z).

Definition read_slot (h : heap) (s : slot) : option (option Z) :=
  match s with
  | SMin => Some (min h)
  | SLeft x => left <$> nodes h !! x
  | SRight x => right <$> nodes h !! x
  end.

Definition write_slot (s : slot) (v : option Z) (h : heap) : option heap :=
  match s with
  | SMin => Some (mk_heap v (nelts h) (nodes h))
  | SLeft x => modify x (set_left v) h
  | SRight x => modify x (set_right v) h
  end.

(** ** Operations *)

Definition heap_init (h : heap) : heap := mk_heap None 0 (nodes h).

Definition heap_min (h : heap) : option Z := min h.

(** The two assignments that make [x] the parent of its children. *)
Definition adopt (x : Z) (h : heap) : option heap :=
  n ← nodes h !! x;
  h1 ← modify_opt (left n) (set_parent (Some x)) h;
  n1 ← nodes h1 !! x;
  modify_opt (right n1) (set_parent (Some x)) h1.

(** Make [new] what [g] (or the root, when there is no [g]) links to instead
    of [old]. *)
Definition replace_link (g : option Z) (old new : Z) (h : heap) : option heap :=
  match g with
  | None => Some (mk_heap (Some new) (nelts h) (nodes h))
  | Some x =>
      n ← nodes h !! x;
      if bool_decide (left n = Some old) then modify x (set_left (Some new)) h
      else modify x (set_right (Some new)) h
  end.

(** The exchange of the contents of the two nodes; the result has the other
    child of the former parent. *)
Definition exchange_links (par child : Z) (h : heap) : option (heap * option Z) :=
  p ← nodes h !! par;
  c ← nodes h !! child;
  let h1 := with_nodes (<[child := p]> (<[par := c]> (nodes h))) h in
  h2 ← modify par (set_parent (Some child)) h1;
  c2 ← nodes h2 !! child;
  if bool_decide (left c2 = Some child)
  then h3 ← modify child (set_left (Some par)) h2; Some (h3, right c2)
  else h3 ← modify child (set_right (Some par)) h2; Some (h3, left c2).

Definition heap_node_swap (h : heap) (par child : Z) : option heap :=
  '(h3, sibling) ← exchange_links par child h;
  h4 ← modify_opt sibling (set_parent (Some child)) h3;
  h6 ← adopt par h4;
  c6 ← nodes h6 !! child;
  replace_link (parent c6) par child h6.

(** The loop that turns a size into a path: [k] turns, the first one in the
    lowest bit of [path].  An [unsigned int] is halved at most 31 times. *)
Fixpoint path_loop (fuel : nat) (path k n : Z) : Z * Z :=
  match fuel with
  | O => (path, k)
  | S fuel' =>
      if 2 <=? n then path_loop fuel' (wrapu 32 (Z.lor (Z.shiftl path 1) (Z.land n 1))) (k + 1) (n / 2)
      else (path, k)
  end.

(** One turn: the address of the [left] or [right] link of the node that
    [child] points at. *)
Definition step_slot (h : heap) (path : Z) (child : slot) : option slot :=
  v ← read_slot h child;
  x ← v;
  Some (if Z.land path 1 =? 1 then SRight x else SLeft x).

(** The walk along the path; it leaves the last two slots. *)
Fixpoint walk (h : heap) (k : nat) (path : Z) (par child : slot) : option (slot * slot) :=
  match k with
  | O => Some (par, child)
  | S k' =>
      next ← step_slot h path child;
      walk h k' (Z.shiftr path 1) child next
  end.

Definition set_nelts (n : Z) (h : heap) : heap := mk_heap (min h) n (nodes h).

Section Ops.
Context (less_than : Z -> Z -> bool).

(** [while (x->parent != NULL && less_than(x, x->parent)) heap_node_swap(..)]. *)
Fixpoint sift_up (fuel : nat) (h : heap) (x : Z) : option heap :=
  n ← nodes h !! x;
  match parent n with
  | None => Some h
  | Some p =>
      if less_than x p then
        match fuel with
        | O => None
        | S fuel' => h' ← heap_node_swap h p x; sift_up fuel' h' x
        end
      else Some h
  end.

Definition heap_insert (h : heap) (newnode : Z) : option heap :=
  h1 ← modify newnode (fun _ => mk_node None None None) h;
  let '(path, k) := path_loop 32 0 0 (wrapu 32 (1 + nelts h1)) in
  '(par, child) ← walk h1 (Z.to_nat k) path SMin SMin;
  v ← read_slot h1 par;
  h2 ← modify newnode (set_parent v) h1;
  h3 ← write_slot child (Some newnode) h2;
  let h4 := set_nelts (wrapu 32 (nelts h3 + 1)) h3 in
  sift_up (Z.to_nat (nelts h4)) h4 newnode.

(** The smallest of a node and its children. *)
Definition smallest_of (h : heap) (child : Z) : option Z :=
  n ← nodes h !! child;
  let s1 := match left n with
            | Some l => if less_than l child then l else child
            | None => child
            end in
  Some (match right n with
        | Some r => if less_than r s1 then r else s1
        | None => s1
        end).

Fixpoint sift_down (fuel : nat) (h : heap) (child : Z) : option heap :=
  smallest ← smallest_of h child;
  if bool_decide (smallest = child) then Some h
  else match fuel with
       | O => None
       | S fuel' => h' ← heap_node_swap h child smallest; sift_down fuel' h' child
       end.

Definition heap_remove (h : heap) (node : Z) : option heap :=
  if nelts h =? 0 then Some h
  else
    let '(path, k) := path_loop 32 0 0 (nelts h) in
    '(_, max) ← walk h (Z.to_nat k) path SMin SMin;
    let h1 := set_nelts (wrapu 32 (nelts h - 1)) h in
    v ← read_slot h1 max;
    h2 ← write_slot max None h1;
    child ← v;
    if bool_decide (child = node) then
      Some (if bool_decide (min h2 = Some child) then mk_heap None (nelts h2) (nodes h2) else h2)
    else
      n ← nodes h2 !! node;
      h3 ← modify child (fun _ => mk_node (left n) (right n) (parent n)) h2;
      h5 ← adopt child h3;
      n5 ← nodes h5 !! node;
      h6 ← replace_link (parent n5) node child h5;
      h7 ← sift_down (Z.to_nat (nelts h6)) h6 child;
      sift_up (Z.to_nat (nelts h7)) h7 child.

Definition heap_dequeue (h : heap) : option heap :=
  match min h with
  | Some x => heap_remove h x
  | None => if nelts h =? 0 then Some h else None
  end.
End Ops.

(** ** libuv: the heap as an array

    [rep l h]: the linked structure [h] holds the nodes of [l] in level order.
    Swapping a node with its parent, linking a new last node, unlinking the
    last node and replacing a node by another are the corresponding changes of
    the array; no null pointer is followed on the way. *)

(** ** The array of a heap *)

(** The [i]-th node in level order, from 1; there is no node 0. *)
Definition item (l : list Z) (i : nat) : option Z :=
  match i with O => None | S j => l !! j end.

(** The links of the node at place [i]. *)
Definition node_of (l : list Z) (i : nat) : heap_node :=
  mk_node (item l (2 * i)) (item l (2 * i + 1)) (item l (i / 2)).

Record rep (l : list Z) (h : heap) : Prop := {
  rep_min : min h = item l 1;
  rep_nelts : nelts h = Z.of_nat (length l);
  rep_small : Z.of_nat (length l) < 2 ^ 32;
  rep_nodup : NoDup l;
  rep_node : forall i x, item l i = Some x -> nodes h !! x = Some (node_of l i) }.

Lemma item_Some l i x : item l i = Some x -> (1 <= i <= length l)%nat.
Proof. destruct i; [done|]. cbn. intros H%lookup_lt_Some. lia. Qed.

Lemma item_in l i : (1 <= i <= length l)%nat -> exists x, item l i = Some x.
Proof. destruct i; [lia|]. intros. cbn. apply lookup_lt_is_Some. lia. Qed.

Lemma item_None l i : (length l < i)%nat -> item l i = None.
Proof. destruct i; [lia|]. intros. cbn. apply lookup_ge_None. lia. Qed.

Lemma item_elem l i x : item l i = Some x -> x ∈ l.
Proof. destruct i; [done|]. cbn. apply list_elem_of_lookup_2. Qed.

Lemma elem_item l x : x ∈ l -> exists i, item l i = Some x.
Proof. intros [i Hi]%list_elem_of_lookup. by exists (S i). Qed.

Lemma item_inj l i j x : NoDup l -> item l i = Some x -> item l j = Some x -> i = j.
Proof.
  destruct i, j; try done. cbn. intros Hn Hi Hj. f_equal. by eapply NoDup_lookup.
Qed.

(** Exchange the nodes at two places. *)
Definition swap_items (p i : nat) (l : list Z) : list Z :=
  match item l p, item l i with
  | Some a, Some c => <[pred p := c]> (<[pred i := a]> l)
  | _, _ => l
  end.

Lemma item_insert l k x j :
  (1 <= k <= length l)%nat -> item (<[pred k := x]> l) j = if decide (j = k) then Some x else item l j.
Proof.
  intros Hk. destruct j as [|j]; cbn.
  { case_decide; [lia|done]. }
  destruct k as [|k]; [lia|]. cbn. case_decide as E.
  - injection E as ->. apply list_lookup_insert_eq. lia.
  - apply list_lookup_insert_ne. congruence.
Qed.

Lemma item_swap p i l a c j :
  item l p = Some a -> item l i = Some c ->
  item (swap_items p i l) j = if decide (j = p) then Some c else if decide (j = i) then Some a else item l j.
Proof.
  intros Ha Hc. unfold swap_items. rewrite Ha, Hc.
  pose proof (item_Some _ _ _ Ha). pose proof (item_Some _ _ _ Hc).
  rewrite item_insert by (rewrite length_insert; lia). case_decide; [done|].
  by rewrite item_insert by lia.
Qed.

Lemma swap_length p i l : length (swap_items p i l) = length l.
Proof. unfold swap_items. destruct (item l p), (item l i); by rewrite ?length_insert. Qed.

Lemma swap_perm p i l : swap_items p i l ≡ₚ l.
Proof.
  unfold swap_items. destruct (item l p) as [a|] eqn:Ha, (item l i) as [c|] eqn:Hc; try done.
  destruct p as [|p], i as [|i]; try done. cbn in *.
  destruct (decide (p = i)) as [->|Hne].
  { replace c with a by congruence. by rewrite !list_insert_id by (rewrite ?list_insert_id by done; done). }
  apply Permutation_insert_swap; done.
Qed.

Lemma swap_nodup p i l : NoDup l -> NoDup (swap_items p i l).
Proof. by rewrite swap_perm. Qed.

(** *** Updates, node by node *)

Definition alter_opt (p : option Z) (f : heap_node -> heap_node) (m : gmap Z heap_node)
  : gmap Z heap_node := match p with Some x => alter f x m | None => m end.

Lemma lookup_alter_opt p f m y :
  alter_opt p f m !! y = if decide (p = Some y) then f <$> m !! y else m !! y.
Proof.
  destruct p as [x|]; cbn; [|by rewrite decide_False].
  destruct (decide (x = y)) as [->|Hne].
  - by rewrite lookup_alter_eq, decide_True.
  - rewrite lookup_alter_ne by done. by rewrite decide_False by congruence.
Qed.

Lemma modify_alter x f h n :
  nodes h !! x = Some n -> modify x f h = Some (with_nodes (alter_opt (Some x) f (nodes h)) h).
Proof.
  intros Hx. unfold modify. rewrite Hx. cbn [mbind option_bind]. do 2 f_equal. apply map_eq. intros y.
  rewrite lookup_alter_opt. destruct (decide (x = y)) as [->|].
  - by rewrite lookup_insert_eq, decide_True, Hx.
  - rewrite lookup_insert_ne by done. by rewrite decide_False by congruence.
Qed.

Lemma modify_opt_alter p f h :
  (forall x, p = Some x -> is_Some (nodes h !! x)) ->
  modify_opt p f h = Some (with_nodes (alter_opt p f (nodes h)) h).
Proof.
  intros Hp. destruct p as [x|]; cbn.
  - destruct (Hp x eq_refl) as [n Hn]. by rewrite (modify_alter _ _ _ _ Hn).
  - by destruct h.
Qed.

Lemma is_Some_alter_opt p f m x : is_Some (m !! x) -> is_Some (alter_opt p f m !! x).
Proof. intros [n Hn]. rewrite lookup_alter_opt, Hn. case_decide; eauto. Qed.

Lemma adopt_alter x h n :
  nodes h !! x = Some n -> left n <> Some x ->
  (forall y, left n = Some y \/ right n = Some y -> is_Some (nodes h !! y)) ->
  adopt x h = Some (with_nodes (alter_opt (right n) (set_parent (Some x))
                                 (alter_opt (left n) (set_parent (Some x)) (nodes h))) h).
Proof.
  intros Hx Hl Hlive. unfold adopt. rewrite Hx. cbn [mbind option_bind].
  rewrite modify_opt_alter by auto. cbn [mbind option_bind with_nodes nodes].
  rewrite lookup_alter_opt, decide_False, Hx by done. cbn [mbind option_bind].
  rewrite modify_opt_alter by (intros; cbn; apply is_Some_alter_opt; auto). done.
Qed.

Lemma replace_link_alter g old new h :
  (forall x, g = Some x -> is_Some (nodes h !! x)) ->
  replace_link g old new h =
  Some (mk_heap (match g with None => Some new | Some _ => min h end) (nelts h)
         (alter_opt g (fun n => if bool_decide (left n = Some old) then set_left (Some new) n
                                else set_right (Some new) n) (nodes h))).
Proof.
  intros Hlive. destruct g as [x|]; [|done]. destruct (Hlive x eq_refl) as [n Hn].
  cbn [replace_link]. rewrite Hn. cbn [mbind option_bind].
  assert (forall f f' : heap_node -> heap_node, f n = f' n ->
            modify x f h = Some (mk_heap (min h) (nelts h) (alter_opt (Some x) f' (nodes h)))) as Hm.
  { intros f f' E. unfold modify. rewrite Hn. cbn [mbind option_bind]. unfold with_nodes. do 2 f_equal.
    apply map_eq. intros y. rewrite lookup_alter_opt. destruct (decide (x = y)) as [->|].
    - rewrite lookup_insert_eq, decide_True, Hn by done. cbn. by rewrite E.
    - rewrite lookup_insert_ne by done. by rewrite decide_False by congruence. }
  case_bool_decide as E; apply Hm; by rewrite ?(bool_decide_eq_true_2 _ E), ?(bool_decide_eq_false_2 _ E).
Qed.

(** Decide equations between places. *)
Ltac eval_places :=
  repeat match goal with
  | |- context [decide (?x = ?y :> nat)] =>
      first [rewrite (decide_False (P := x = y)) by lia | rewrite (decide_True (P := x = y)) by lia]
  end.

Section Swap.
Context (l : list Z) (h : heap) (p i : nat) (a c : Z).
Hypothesis Hrep : rep l h.
Hypothesis Hp : item l p = Some a.
Hypothesis Hi : item l i = Some c.
Hypothesis Hchild : (i / 2)%nat = p.

(** The other child of place [p]. *)
Definition sib : nat := (4 * p + 1 - i)%nat.

Lemma child_cases : (1 <= p)%nat /\ (i = 2 * p \/ i = 2 * p + 1)%nat.
Proof.
  pose proof (item_Some _ _ _ Hp). split; [lia|].
  pose proof (Nat.div_mod_eq i 2). pose proof (Nat.mod_upper_bound i 2). lia.
Qed.

(** The memory when the two nodes have exchanged their links, and after the
    swap, when their neighbours know. *)
Definition exchanged : gmap Z heap_node :=
  <[c := mk_node (if decide (i = 2 * p)%nat then Some a else item l (2 * p))
                 (if decide (i = 2 * p)%nat then item l (2 * p + 1) else Some a)
                 (item l (p / 2))]>
  (<[a := mk_node (item l (2 * i)) (item l (2 * i + 1)) (Some c)]> (nodes h)).

Definition swapped_nodes : gmap Z heap_node :=
  let N4 := alter_opt (item l sib) (set_parent (Some c)) exchanged in
  let N5 := alter_opt (item l (2 * i)) (set_parent (Some a)) N4 in
  let N6 := alter_opt (item l (2 * i + 1)) (set_parent (Some a)) N5 in
  alter_opt (item l (p / 2))
    (fun n => if bool_decide (left n = Some a) then set_left (Some c) n else set_right (Some c) n) N6.

Definition swapped : heap :=
  mk_heap (if decide (p = 1)%nat then Some c else min h) (nelts h) swapped_nodes.

Lemma swap_distinct : a <> c.
Proof.
  pose proof child_cases. intros E. pose proof Hi as Hi'. rewrite <- E in Hi'.
  pose proof (item_inj _ _ _ _ (rep_nodup _ _ Hrep) Hp Hi'). lia.
Qed.

Ltac index := pose proof child_cases; pose proof (Nat.div_mod_eq p 2);
  pose proof (Nat.mod_upper_bound p 2); unfold sib in *; lia.

(** Places with different numbers hold different nodes. *)
Lemma item_other k j y : item l j = Some y -> k <> j -> item l k <> Some y.
Proof. intros Hj Hne Hk. by apply Hne, (item_inj l k j y (rep_nodup _ _ Hrep)). Qed.

Lemma item_test {A} k j y (X Y : A) :
  item l j = Some y ->
  (if decide (item l k = Some y) then X else Y) = if decide (k = j) then X else Y.
Proof.
  intros Hj. destruct (decide (k = j)) as [->|Hne]; [by rewrite decide_True|].
  by rewrite decide_False by (by apply (item_other k j)).
Qed.

Lemma rep_swapped : rep (swap_items p i l) swapped.
Proof.
  pose proof swap_distinct as Hac. pose proof child_cases as [Hp1 Hcase].
  pose proof (fun j => item_swap p i l a c j Hp Hi) as Hsw.
  split.
  - cbn [swapped min]. rewrite Hsw, (rep_min _ _ Hrep). repeat case_decide; (done || lia).
  - cbn [swapped nelts]. rewrite swap_length. apply Hrep.
  - rewrite swap_length. apply Hrep.
  - apply swap_nodup, Hrep.
  - intros j y Hj. cbn [swapped nodes]. unfold swapped_nodes, exchanged.
    rewrite Hsw in Hj. rewrite !lookup_alter_opt. unfold node_of. rewrite !Hsw.
    destruct (decide (j = p)) as [Ej|Hjp]; [|destruct (decide (j = i)) as [Ej|Hji]].
    + (* the child, now at place [p] *)
      injection Hj as <-. rewrite lookup_insert_eq.
      rewrite !(decide_False (P := item l _ = Some c)) by (apply (item_other _ i); [done|index]).
      subst j. f_equal. f_equal; repeat case_decide; (done || index).
    + (* the parent, now at place [i] *)
      injection Hj as <-. rewrite lookup_insert_ne, lookup_insert_eq by done.
      rewrite !(decide_False (P := item l _ = Some a)) by (apply (item_other _ p); [done|index]).
      subst j. f_equal. f_equal; repeat case_decide; (done || index).
    + assert (y <> a) as Hya by (intros ->; by apply (item_other j p a)).
      assert (y <> c) as Hyc by (intros ->; by apply (item_other j i c)).
      pose proof (item_Some _ _ _ Hj). rewrite !(item_test _ j) by done.
      rewrite !lookup_insert_ne, (rep_node _ _ Hrep j y Hj) by done. unfold node_of.
      pose proof (Nat.div_mod_eq j 2). pose proof (Nat.mod_upper_bound j 2).
      pose proof (Nat.div_mod_eq p 2). pose proof (Nat.mod_upper_bound p 2). 
      destruct (decide (j = p / 2)%nat) as [Ejp|Ejp].
      { unfold sib. eval_places. cbn [fmap option_fmap option_map left].
        destruct (decide (p = 2 * (p / 2))%nat) as [Ep|Ep].
        - rewrite bool_decide_eq_true_2 by (by rewrite Ejp, <- Ep). eval_places. done.
        - rewrite bool_decide_eq_false_2 by (apply (item_other _ p); [done|lia]). eval_places. done. }
      assert (j = sib \/ j = 2 * i \/ j = 2 * i + 1 \/
              (j <> sib /\ j <> 2 * i /\ j <> 2 * i + 1))%nat as Hrole by lia.
      unfold sib in *. destruct Hcase as [Ei|Ei], Hrole as [?|[?|[?|?]]];
        try (exfalso; lia); eval_places; done.
Qed.

(** The nodes around the two are in memory all the time. *)
Lemma exchanged_live k x : item l k = Some x -> is_Some (exchanged !! x).
Proof.
  intros Hk. unfold exchanged. destruct (decide (x = c)) as [->|]; [rewrite lookup_insert_eq; eauto|].
  destruct (decide (x = a)) as [->|]; [rewrite lookup_insert_ne, lookup_insert_eq by done; eauto|].
  rewrite !lookup_insert_ne by done. rewrite (rep_node _ _ Hrep k x Hk). eauto.
Qed.

Lemma exchange_spec (f : heap_node -> heap_node) :
  f (node_of l p) = mk_node (if decide (i = 2 * p)%nat then Some a else item l (2 * p))
                            (if decide (i = 2 * p)%nat then item l (2 * p + 1) else Some a)
                            (item l (p / 2)) ->
  alter_opt (Some c) f (alter_opt (Some a) (set_parent (Some c))
    (<[c := node_of l p]> (<[a := node_of l i]> (nodes h)))) = exchanged.
Proof.
  intros Hf. pose proof swap_distinct as Hac. unfold exchanged. apply map_eq. intros y.
  rewrite !lookup_alter_opt. destruct (decide (y = c)) as [->|Hyc].
  - rewrite lookup_insert_eq, decide_True, decide_False by congruence.
    rewrite lookup_insert_eq. cbn. by rewrite Hf.
  - rewrite (decide_False (P := Some c = Some y)), !(lookup_insert_ne _ c) by congruence.
    destruct (decide (y = a)) as [->|Hya].
    + by rewrite !lookup_insert_eq, decide_True.
    + by rewrite decide_False, !lookup_insert_ne by congruence.
Qed.

(** The node itself is none of its neighbours. *)
Lemma neighbours_ne x k : (x = a \/ x = c) -> k <> p -> k <> i -> item l k <> Some x.
Proof. intros [-> | ->] ? ?; [by apply (item_other k p)|by apply (item_other k i)]. Qed.

Lemma exchange_run : exchange_links a c h = Some (with_nodes exchanged h, item l sib).
Proof.
  pose proof swap_distinct as Hac. pose proof child_cases as [Hp1 Hcase]. unfold exchange_links.
  rewrite (rep_node _ _ Hrep p a Hp), (rep_node _ _ Hrep i c Hi). cbn [mbind option_bind].
  set (h1 := with_nodes _ h).
  assert (nodes h1 !! a = Some (node_of l i)) as Ha1
    by (cbn; by rewrite lookup_insert_ne, lookup_insert_eq by done).
  rewrite (modify_alter _ _ _ _ Ha1). cbn [mbind option_bind].
  set (h2 := with_nodes _ h1).
  assert (nodes h2 !! c = Some (node_of l p)) as Hc2.
  { cbn [h2 with_nodes nodes]. rewrite lookup_alter_opt, decide_False by congruence. apply lookup_insert_eq. }
  rewrite Hc2. cbn [mbind option_bind].
  destruct (decide (i = 2 * p)%nat) as [Ei|Ei].
  - rewrite bool_decide_eq_true_2 by (cbn [node_of left]; by rewrite <- Ei).
    rewrite (modify_alter _ _ _ _ Hc2). cbn [mbind option_bind].
    unfold h2, h1. cbn [with_nodes nodes]. rewrite exchange_spec by (by rewrite !decide_True).
    cbn [node_of right]. do 3 f_equal. index.
  - rewrite bool_decide_eq_false_2 by (cbn [node_of left]; apply neighbours_ne; [by right|lia|lia]).
    rewrite (modify_alter _ _ _ _ Hc2). cbn [mbind option_bind].
    unfold h2, h1. cbn [with_nodes nodes]. rewrite exchange_spec by (by rewrite !decide_False).
    cbn [node_of left]. do 3 f_equal. index.
Qed.

Lemma exchanged_a : exchanged !! a = Some (mk_node (item l (2 * i)) (item l (2 * i + 1)) (Some c)).
Proof. unfold exchanged. rewrite lookup_insert_ne by (symmetry; apply swap_distinct). apply lookup_insert_eq. Qed.

Lemma exchanged_c : parent <$> exchanged !! c = Some (item l (p / 2)).
Proof. unfold exchanged. by rewrite lookup_insert_eq. Qed.

(** [heap_node_swap] follows no null pointer and leaves that memory. *)
Lemma node_swap_spec : heap_node_swap h a c = Some swapped.
Proof.
  pose proof child_cases as [Hp1 Hcase].
  assert (p / 2 <> p /\ p / 2 <> i /\ sib <> p /\ sib <> i /\ 2 * i <> p /\ 2 * i <> i /\
          2 * i + 1 <> p /\ 2 * i + 1 <> i)%nat as Hne by (split_and!; index).
  unfold heap_node_swap. rewrite exchange_run. cbn [mbind option_bind].
  rewrite modify_opt_alter by (intros; by eapply exchanged_live). cbn [mbind option_bind with_nodes nodes].
  rewrite (adopt_alter _ _ (mk_node (item l (2 * i)) (item l (2 * i + 1)) (Some c)));
    cbn [with_nodes nodes left right].
  2: { rewrite lookup_alter_opt, decide_False by (apply neighbours_ne; tauto). apply exchanged_a. }
  2: { apply neighbours_ne; tauto. }
  2: { intros y [Hy|Hy]; apply is_Some_alter_opt; by eapply exchanged_live. }
  cbn [mbind option_bind with_nodes nodes].
  assert (forall x, x = a \/ x = c -> forall f1 f2 f3,
    alter_opt (item l (2 * i + 1)) f1 (alter_opt (item l (2 * i)) f2 (alter_opt (item l sib) f3 exchanged)) !! x
    = exchanged !! x) as Hfar.
  { intros x Hx f1 f2 f3. rewrite !lookup_alter_opt, !decide_False; [done|apply neighbours_ne; tauto..]. }
  rewrite Hfar by auto. pose proof exchanged_c as Hc. destruct (exchanged !! c) as [cn|]; [|done].
  injection Hc as Hc. cbn [mbind option_bind]. rewrite Hc.
  rewrite replace_link_alter by (intros; cbn; do 3 apply is_Some_alter_opt; by eapply exchanged_live).
  unfold swapped, swapped_nodes. cbn [min nelts nodes with_nodes]. do 2 f_equal.
  destruct (decide (p = 1)%nat) as [E1|Hp2]; [by rewrite E1|].
  destruct (item_in l (p / 2)) as [g Hg]; [pose proof (item_Some _ _ _ Hp); index|].
  change (Nat.divmod p 1 0 1).1 with (p / 2)%nat. by rewrite Hg.
Qed.

(** Nodes that are not in the heap are left alone. *)
Lemma swapped_frame y : y ∉ l -> nodes swapped !! y = nodes h !! y.
Proof.
  intros Hy. assert (forall k, item l k <> Some y) as Hk by (intros k E; by apply Hy, (item_elem l k)).
  cbn [swapped nodes]. unfold swapped_nodes, exchanged. rewrite !lookup_alter_opt, !decide_False by done.
  rewrite !lookup_insert_ne; [done|intros ->; by apply (Hk p)|intros ->; by apply (Hk i)].
Qed.
End Swap.

(** ** The place of the last node *)

(** The slot that links to place [i]. *)
Definition slot_at (l : list Z) (i : nat) : option slot :=
  if bool_decide (i = 1)%nat then Some SMin
  else x ← item l (i / 2); Some (if Nat.odd i then SRight x else SLeft x).

Definition turn (path : Z) : nat := if Z.land path 1 =? 1 then 1 else 0.

(** The place one gets to from place [i] by [k] turns. *)
Fixpoint follow (i k : nat) (path : Z) : nat :=
  match k with O => i | S k' => follow (2 * i + turn path) k' (Z.shiftr path 1) end.

Lemma turn_le path : (turn path <= 1)%nat.
Proof. unfold turn. case_match; lia. Qed.

Lemma follow_grows k : forall i path, (1 <= i)%nat -> (i * 2 ^ k <= follow i k path)%nat.
Proof.
  induction k as [|k IH]; intros i path Hi; cbn; [lia|].
  pose proof (IH (2 * i + turn path)%nat (Z.shiftr path 1) ltac:(lia)). cbn in *. nia.
Qed.

(** Pushing the last bit of an index onto the path. *)
Lemma follow_push n k path :
  0 <= path -> follow (Z.to_nat (Z.of_nat n / 2)) (S k) (Z.lor (Z.shiftl path 1) (Z.land (Z.of_nat n) 1))
  = follow n k path.
Proof.
  intros Hp. cbn [follow]. f_equal.
  - unfold turn. rewrite Z.land_lor_distr_l, <- Z.land_assoc. change (Z.land 1 1) with 1.
    replace (Z.land (Z.shiftl path 1) 1) with 0.
    2: { rewrite land_1, Z.shiftl_mul_pow2 by lia. by rewrite Z.mod_mul. }
    rewrite Z.lor_0_l, land_1. pose proof (Z.div_mod (Z.of_nat n) 2 ltac:(lia)).
    pose proof (Z.mod_pos_bound (Z.of_nat n) 2 ltac:(lia)). case_match; lia.
  - apply Z.bits_inj'. intros j Hj. rewrite Z.shiftr_spec, Z.lor_spec, Z.shiftl_spec by lia.
    rewrite Z.land_spec. replace (j + 1 - 1) with j by lia.
    assert (Z.testbit 1 (j + 1) = false) as ->.
    { rewrite <- (Z.pow_0_r 2), Z.pow2_bits_eqb by lia. lia. }
    by rewrite andb_false_r, orb_false_r.
Qed.

Lemma path_loop_spec fuel : forall path k n,
  (1 <= n)%nat -> Z.of_nat n < 2 ^ Z.of_nat fuel -> (k + fuel = 32)%nat -> 0 <= path < 2 ^ Z.of_nat k ->
  exists path' k', path_loop fuel path (Z.of_nat k) (Z.of_nat n) = (path', Z.of_nat k') /\
    follow 1 k' path' = follow n k path.
Proof.
  induction fuel as [|fuel IH]; intros path k n Hn Hlt Hk Hp; [cbn in Hlt; lia|].
  cbn [path_loop]. destruct (Z.leb_spec 2 (Z.of_nat n)).
  - set (path1 := Z.lor (Z.shiftl path 1) (Z.land (Z.of_nat n) 1)).
    assert (0 <= path1 < 2 ^ Z.of_nat (S k)) as Hp1.
    { rewrite Nat2Z.inj_succ, Z.pow_succ_r by lia. subst path1. rewrite Z.lor_comm, lor_shiftl_add.
      - rewrite land_1. pose proof (Z.mod_pos_bound (Z.of_nat n) 2 ltac:(lia)). lia.
      - lia.
      - rewrite land_1. apply Z.mod_pos_bound. lia. }
    rewrite wrapu_id. 2: { unfold in_u. pose proof (Z.pow_le_mono_r 2 (Z.of_nat (S k)) 32). lia. }
    pose proof (Z.div_mod (Z.of_nat n) 2 ltac:(lia)).
    pose proof (Z.mod_pos_bound (Z.of_nat n) 2 ltac:(lia)).
    rewrite Nat2Z.inj_succ, Z.pow_succ_r in Hlt by lia.
    destruct (IH path1 (S k) (Z.to_nat (Z.of_nat n / 2))) as (path' & k' & E & F); [lia|lia|lia|done|].
    rewrite Z2Nat.id, Nat2Z.inj_succ in E by lia. unfold Z.succ in E.
    exists path', k'. split; [exact E|]. rewrite F. apply follow_push. lia.
  - exists path, k. split; [done|]. replace n with 1%nat by lia. done.
Qed.
