(* ===== verification/UvHeapSpec.v ===== *)
(** * libuv: the heap operations implement a priority queue

    On top of [UvHeapRep]: finding the last place, inserting, removing any
    node, and that the array stays ordered. *)
From S2P Require Import Prelude UvHeap.

(** ** Walking to a place *)

Lemma odd_double_turn i path : Nat.odd (2 * i + turn path) = (Z.land path 1 =? 1).
Proof.
  unfold turn. destruct (Z.land path 1 =? 1).
  - replace (2 * i + 1)%nat with (1 + 2 * i)%nat by lia. by rewrite Nat.odd_add_mul_2.
  - rewrite Nat.add_0_r. replace (2 * i)%nat with (0 + 2 * i)%nat by lia.
    by rewrite Nat.odd_add_mul_2.
Qed.

Lemma half_double i b : (b <= 1)%nat -> ((2 * i + b) / 2)%nat = i.
Proof.
  intros. symmetry. apply (Nat.div_unique _ 2 i b); lia.
Qed.

Lemma odd_half i : i = (2 * (i / 2) + (if Nat.odd i then 1 else 0))%nat.
Proof.
  destruct (Nat.odd i) eqn:Ho.
  - apply Nat.odd_spec in Ho as [q ->]. rewrite half_double; lia.
  - assert (Nat.Even i) as [q ->] by (apply Nat.even_spec; rewrite <- Nat.negb_odd; by rewrite Ho).
    replace (2 * q)%nat with (2 * q + 0)%nat at 2 by lia. rewrite half_double; lia.
Qed.

Section Walk.
Context (l : list Z) (h : heap).
Hypothesis Hrep : rep l h.

Lemma read_slot_at i s : slot_at l i = Some s -> (1 <= i)%nat -> read_slot h s = Some (item l i).
Proof.
  unfold slot_at. case_bool_decide as E.
  - intros [= <-] _. cbn. by rewrite (rep_min _ _ Hrep), E.
  - destruct (item l (i / 2)) as [x|] eqn:Hx; cbn; [|done]. intros [= <-] Hi.
    pose proof (rep_node _ _ Hrep _ _ Hx) as Hn. pose proof (Nat.div_mod_eq i 2).
    pose proof (odd_half i) as Ho.
    destruct (Nat.odd i); cbn [read_slot]; rewrite Hn; cbn [fmap option_fmap option_map node_of left right];
      do 2 f_equal; lia.
Qed.

Lemma step_slot_at path i s x :
  slot_at l i = Some s -> item l i = Some x ->
  exists s', step_slot h path s = Some s' /\ slot_at l (2 * i + turn path) = Some s'.
Proof.
  intros Hs Hx. pose proof (item_Some _ _ _ Hx). unfold step_slot.
  rewrite (read_slot_at i s Hs) by lia. cbn [mbind option_bind]. rewrite Hx. cbn [mbind option_bind].
  eexists. split; [done|]. unfold slot_at. pose proof (turn_le path).
  rewrite bool_decide_eq_false_2 by lia. rewrite half_double, Hx by done. cbn [mbind option_bind].
  by rewrite odd_double_turn.
Qed.

Lemma walk_spec k : forall path i par s,
  (1 <= i)%nat -> slot_at l i = Some s -> (follow i k path <= S (length l))%nat ->
  exists s', slot_at l (follow i k path) = Some s' /\
    if decide (k = 0)%nat then walk h k path par s = Some (par, s')
    else exists sp, slot_at l (follow i k path / 2) = Some sp /\ walk h k path par s = Some (sp, s').
Proof.
  induction k as [|k IH]; intros path i par s Hi Hs Hf.
  { exists s. done. }
  cbn [follow walk] in *. pose proof (turn_le path) as Ht.
  pose proof (follow_grows k (2 * i + turn path) (Z.shiftr path 1) ltac:(lia)) as Hg.
  assert (1 <= 2 ^ k)%nat by (apply Nat.neq_0_lt_0, Nat.pow_nonzero; lia).
  destruct (item_in l i) as [x Hx]; [nia|].
  destruct (step_slot_at path i s x Hs Hx) as (s1 & E1 & Hs1). rewrite E1. cbn [mbind option_bind].
  destruct (IH (Z.shiftr path 1) (2 * i + turn path)%nat s s1 ltac:(lia) Hs1 Hf) as (s' & Hs' & Hw).
  exists s'. split; [done|]. rewrite decide_False by lia. destruct (decide (k = 0)%nat) as [->|Hk].
  - exists s. cbn [follow]. rewrite half_double by done. done.
  - done.
Qed.

(** The path of a place leads to its slot. *)
Lemma walk_to n :
  (1 <= n <= S (length l))%nat -> Z.of_nat n < 2 ^ 32 ->
  exists path k s sp, path_loop 32 0 0 (Z.of_nat n) = (path, Z.of_nat k) /\
    walk h k path SMin SMin = Some (sp, s) /\ slot_at l n = Some s /\
    slot_at l (if decide (n = 1)%nat then 1 else n / 2) = Some sp.
Proof.
  intros Hn Hlt. destruct (path_loop_spec 32 0 0 n) as (path & k & E & F); [lia|done|done|done|].
  cbn [follow] in F. exists path, k.
  destruct (walk_spec k path 1 SMin SMin) as (s' & Hs' & Hw); [lia|done|lia|].
  rewrite F in *. exists s'. destruct (decide (k = 0)%nat) as [->|Hk].
  - cbn in F. subst n. exists SMin. done.
  - destruct Hw as (sp & Hsp & Hw). exists sp. rewrite decide_False; [done|].
    pose proof (follow_grows k 1 path ltac:(lia)) as Hg. rewrite F in Hg.
    destruct k; [done|]. cbn in Hg. pose proof (Nat.pow_nonzero 2 k). lia.
Qed.
End Walk.

(** ** Linking, unlinking and replacing *)

Definition set_child (odd : bool) (v : option Z) (n : heap_node) : heap_node :=
  if odd then set_right v n else set_left v n.

Lemma write_slot_at l i s v h :
  slot_at l i = Some s -> (forall x, item l (i / 2) = Some x -> is_Some (nodes h !! x)) ->
  write_slot s v h = Some (mk_heap (if decide (i = 1)%nat then v else min h) (nelts h)
                             (alter_opt (item l (i / 2)) (set_child (Nat.odd i) v) (nodes h))).
Proof.
  unfold slot_at. case_bool_decide as E.
  - intros [= <-] _. by rewrite decide_True, E.
  - destruct (item l (i / 2)) as [x|] eqn:Hx; cbn [mbind option_bind]; [|done]. intros [= <-] Hl.
    destruct (Hl x eq_refl) as [n Hn]. rewrite decide_False by done.
    destruct (Nat.odd i); cbn [write_slot]; by rewrite (modify_alter _ _ _ _ Hn).
Qed.

Lemma item_app_last l x j :
  item (l ++ [x]) j = if decide (j = S (length l)) then Some x else item l j.
Proof.
  destruct j as [|j]; cbn; [done|]. destruct (decide (S j = S (length l))) as [E|Hne].
  - injection E as ->. by rewrite lookup_app_r, Nat.sub_diag by lia.
  - destruct (decide (j < length l)%nat); [by rewrite lookup_app_l|].
    rewrite lookup_ge_None_2 by (rewrite length_app; cbn; lia). by rewrite lookup_ge_None_2 by lia.
Qed.

Lemma item_removed l j :
  item (take (pred (length l)) l) j = if decide (j = length l) then None else item l j.
Proof.
  destruct j as [|j]; cbn; [by case_decide|].
  destruct (decide (S j = length l)) as [E|Hne].
  - rewrite <- E. cbn. apply lookup_take_ge. lia.
  - destruct (decide (j < pred (length l))%nat); [by rewrite lookup_take_lt|].
    rewrite lookup_take_ge by lia. by rewrite lookup_ge_None_2 by lia.
Qed.

Section Relink.
Context (l : list Z) (h : heap).
Hypothesis Hrep : rep l h.

(** A new last node. *)
Lemma rep_link x :
  x ∉ l -> Z.of_nat (S (length l)) < 2 ^ 32 ->
  let i := S (length l) in
  rep (l ++ [x])
    (mk_heap (if decide (i = 1)%nat then Some x else min h) (Z.of_nat i)
       (alter_opt (item l (i / 2)) (set_child (Nat.odd i) (Some x))
          (<[x := mk_node None None (item l (i / 2))]> (nodes h)))).
Proof.
  intros Hx Hlt i. pose proof (Nat.div_mod_eq i 2). pose proof (Nat.mod_upper_bound i 2 ltac:(lia)).
  pose proof (odd_half i) as Ho.
  split; cbn [min nelts nodes].
  - rewrite item_app_last, (rep_min _ _ Hrep). fold i. repeat case_decide; (done || lia).
  - rewrite length_app. cbn. f_equal. lia.
  - rewrite length_app. cbn. rewrite Nat.add_1_r. done.
  - apply NoDup_app. split_and!; [apply Hrep| |apply NoDup_singleton].
    intros y Hy ->%list_elem_of_singleton. done.
  - intros j y Hj. rewrite lookup_alter_opt. unfold node_of. rewrite !item_app_last in *. fold i in Hj |- *.
    destruct (decide (j = i)) as [->|Hji].
    + injection Hj as <-. rewrite decide_False by (intros ?%item_elem; done).
      rewrite lookup_insert_eq. eval_places.
      by rewrite (item_None l (2 * i)), (item_None l (2 * i + 1)) by lia.
    + pose proof (item_Some _ _ _ Hj). rewrite (item_test l h Hrep (i / 2) j y) by done.
      rewrite lookup_insert_ne by (intros ->; by apply Hx, (item_elem l j)).
      rewrite (rep_node _ _ Hrep j y Hj). unfold node_of.
      pose proof (Nat.div_mod_eq j 2). pose proof (Nat.mod_upper_bound j 2 ltac:(lia)).
      destruct (decide (i / 2 = j)%nat) as [Ej|Ej].
      * destruct (Nat.odd i); eval_places; done.
      * eval_places. done.
Qed.

(** The last node gone. *)
Lemma rep_unlink :
  let i := length l in
  (1 <= i)%nat ->
  rep (take (pred i) l)
    (mk_heap (if decide (i = 1)%nat then None else min h) (Z.of_nat (pred i))
       (alter_opt (item l (i / 2)) (set_child (Nat.odd i) None) (nodes h))).
Proof.
  intros i Hi. pose proof (Nat.div_mod_eq i 2). pose proof (Nat.mod_upper_bound i 2 ltac:(lia)).
  pose proof (odd_half i) as Ho.
  split; cbn [min nelts nodes].
  - rewrite (rep_min _ _ Hrep). unfold i. rewrite item_removed. repeat case_decide; (done || lia).
  - rewrite length_take. f_equal. lia.
  - rewrite length_take. pose proof (rep_small _ _ Hrep). lia.
  - eapply sublist_NoDup; [apply Hrep|apply sublist_take].
  - intros j y Hj. rewrite lookup_alter_opt. unfold node_of, i in *. rewrite !item_removed in *.
    destruct (decide (j = length l)) as [|Hji]; [done|]. pose proof (item_Some _ _ _ Hj).
    rewrite (item_test l h Hrep _ j y) by done. rewrite (rep_node _ _ Hrep j y Hj). unfold node_of.
    pose proof (Nat.div_mod_eq j 2). pose proof (Nat.mod_upper_bound j 2 ltac:(lia)).
    destruct (decide (length l / 2 = j)%nat) as [Ej|Ej].
    + destruct (Nat.odd (length l)); eval_places; done.
    + eval_places. done.
Qed.

(** The node at place [i] replaced by a node outside. *)
Lemma rep_replace i node x :
  item l i = Some node -> x ∉ l ->
  rep (<[pred i := x]> l)
    (mk_heap (if decide (i = 1)%nat then Some x else min h) (nelts h)
       (alter_opt (item l (i / 2))
          (fun n => if bool_decide (left n = Some node) then set_left (Some x) n else set_right (Some x) n)
          (alter_opt (item l (2 * i + 1)) (set_parent (Some x))
             (alter_opt (item l (2 * i)) (set_parent (Some x)) (<[x := node_of l i]> (nodes h)))))).
Proof.
  intros Hi Hx. pose proof (item_Some _ _ _ Hi) as Hin.
  pose proof (Nat.div_mod_eq i 2). pose proof (Nat.mod_upper_bound i 2 ltac:(lia)).
  pose proof (fun j => item_insert l i x j Hin) as Hins.
  assert (forall k, item l k <> Some x) as Hk by (intros k ?%item_elem; done).
  split; cbn [min nelts nodes].
  - rewrite (rep_min _ _ Hrep), Hins. repeat case_decide; (done || lia).
  - rewrite length_insert. apply Hrep.
  - rewrite length_insert. apply Hrep.
  - apply NoDup_alt. intros a b y Ha Hb.
    pose proof (Hins (S a)) as Ea. pose proof (Hins (S b)) as Eb. cbn [item] in Ea, Eb.
    rewrite Ha in Ea. rewrite Hb in Eb.
    pose proof (Hk (S a)) as Ka. pose proof (Hk (S b)) as Kb. cbn [item] in Ka, Kb.
    destruct (decide (S a = i)), (decide (S b = i)); [lia|congruence..|].
    apply (NoDup_lookup l a b y); [apply Hrep|done..].
  - intros j y Hj. rewrite !lookup_alter_opt. unfold node_of. rewrite !Hins in *.
    destruct (decide (j = i)) as [->|Hji].
    + injection Hj as <-. rewrite !decide_False, lookup_insert_eq by done. unfold node_of.
      eval_places. done.
    + pose proof (item_Some _ _ _ Hj). rewrite !(item_test l h Hrep _ j y) by done.
      rewrite lookup_insert_ne by (intros ->; by apply (Hk j)).
      rewrite (rep_node _ _ Hrep j y Hj). unfold node_of.
      pose proof (Nat.div_mod_eq j 2). pose proof (Nat.mod_upper_bound j 2 ltac:(lia)).
      destruct (decide (j = i / 2)%nat) as [Ej|Ej].
      { eval_places. cbn [fmap option_fmap option_map left].
        destruct (decide (i = 2 * j)%nat) as [Ei|Ei].
        - rewrite bool_decide_eq_true_2 by (by rewrite <- Ei). eval_places. done.
        - rewrite bool_decide_eq_false_2 by (apply (item_other l h Hrep _ i); [done|lia]).
          eval_places. done. }
      assert (j = 2 * i \/ j = 2 * i + 1 \/ (j <> 2 * i /\ j <> 2 * i + 1))%nat as [?|[?|?]] by lia;
        eval_places; done.
Qed.
End Relink.

(** ** Order *)

(** What the heap asks of its comparison: a strict weak order. *)
Class StrictWeak (less : Z -> Z -> bool) := {
  sw_asym : forall x y, less x y = true -> less y x = false;
  sw_trans : forall x y z, less y x = false -> less z y = false -> less z x = false }.

(** [changes l h l' h']: the heap went from [l] to [l'], and no other node's
    memory changed. *)
Definition same_outside (l : list Z) (h h' : heap) : Prop :=
  forall y, y ∉ l -> nodes h' !! y = nodes h !! y.

Section Sift.
Context (less : Z -> Z -> bool) `{SW : !StrictWeak less}.

(** The node at place [i] is not less than its parent. *)
Definition pair_ok (l : list Z) (i : nat) : Prop :=
  forall x y, item l i = Some x -> item l (i / 2) = Some y -> less x y = false.

Definition ordered (l : list Z) : Prop := forall i, pair_ok l i.

(** The children of place [i] are not less than its parent. *)
Definition bridge (l : list Z) (i : nat) : Prop :=
  forall j x g, (j / 2)%nat = i -> item l j = Some x -> item l (i / 2) = Some g -> less x g = false.

(** Ordered but for the pair of [i] and its parent. *)
Definition up_inv (l : list Z) (i : nat) : Prop :=
  (forall j, j <> i -> pair_ok l j) /\ bridge l i.

(** Ordered but for the pairs place [i] is in. *)
Definition down_inv (l : list Z) (i : nat) : Prop :=
  (forall j, j <> i -> (j / 2)%nat <> i -> pair_ok l j) /\ bridge l i.

(** The root of an ordered heap is a minimum. *)
Lemma ordered_min l m : ordered l -> item l 1 = Some m -> forall x, x ∈ l -> less x m = false.
Proof.
  intros Ho Hm x [i Hi]%elem_item. revert x Hi.
  induction (lt_wf i) as [i _ IH]. intros x Hi.
  destruct (decide (i = 1)%nat) as [->|Hne].
  - replace x with m by congruence. destruct (less m m) eqn:E; [|done].
    by rewrite (sw_asym _ _ E) in E.
  - pose proof (item_Some _ _ _ Hi).
    pose proof (Nat.div_mod_eq i 2). pose proof (Nat.mod_upper_bound i 2 ltac:(lia)).
    destruct (item_in l (i / 2)) as [y Hy]; [lia|].
    apply (sw_trans m y x); [apply (IH (i / 2)%nat); [lia|done]|by apply (Ho i)].
Qed.

Ltac halves i := pose proof (Nat.div_mod_eq i 2); pose proof (Nat.mod_upper_bound i 2 ltac:(lia)).

Lemma up_inv_swap l i x p :
  up_inv l i -> item l i = Some x -> item l (i / 2) = Some p -> less x p = true ->
  up_inv (swap_items (i / 2) i l) (i / 2).
Proof.
  intros [Hok Hbr] Hx Hp Hlt. pose proof (item_Some _ _ _ Hx). pose proof (item_Some _ _ _ Hp).
  pose proof (fun j => item_swap (i / 2) i l p x j Hp Hx) as Hsw. halves i.
  assert (pair_ok l (i / 2)) as HokP by (apply Hok; lia).
  split.
  - intros j Hj y z. rewrite !Hsw, (decide_False (P := j = _)) by done. halves j. intros Hy Hz.
    destruct (decide (j = i)) as [->|Hji].
    + rewrite decide_True in Hz by done. injection Hy as <-. injection Hz as <-. by apply sw_asym.
    + destruct (decide (j / 2 = i / 2)%nat) as [E|E].
      { injection Hz as <-. apply (sw_trans x p y); [by apply sw_asym|].
        apply (Hok j Hji); [done|by rewrite E]. }
      destruct (decide (j / 2 = i)%nat) as [E'|E'].
      * injection Hz as <-. by apply (Hbr j y p E').
      * by apply (Hok j Hji).
  - intros j y g Hj. rewrite !Hsw. halves j. halves (i / 2)%nat.
    rewrite (decide_False (P := (j = i / 2)%nat)) by lia.
    rewrite (decide_False (P := (i / 2 / 2 = i / 2)%nat)), (decide_False (P := (i / 2 / 2 = i)%nat)) by lia.
    destruct (decide (j = i)) as [->|Hji]; intros Hy Hg.
    + injection Hy as <-. by apply HokP.
    + apply (sw_trans g p y); [by apply HokP|]. apply (Hok j Hji); [done|by rewrite Hj].
Qed.

Lemma up_inv_root l i x : up_inv l i -> item l i = Some x -> item l (i / 2) = None -> ordered l.
Proof.
  intros [Hok _] Hx Hn j y z Hy Hz. destruct (decide (j = i)) as [->|]; [congruence|by apply (Hok j)].
Qed.

Lemma sift_up_spec fuel : forall l h i x,
  rep l h -> item l i = Some x -> up_inv l i -> (i <= S fuel)%nat ->
  exists l' h', sift_up less fuel h x = Some h' /\ rep l' h' /\ l' ≡ₚ l /\ ordered l' /\
    same_outside l h h'.
Proof.
  induction fuel as [|fuel IH]; intros l h i x Hrep Hx Hinv Hfuel;
    pose proof (item_Some _ _ _ Hx); cbn [sift_up]; rewrite (rep_node _ _ Hrep i x Hx);
    cbn [mbind option_bind node_of parent];
    destruct (item l (i / 2)) as [p|] eqn:Hp.
  1: { exfalso. replace i with 1%nat in Hp by lia. done. }
  1, 3: exists l, h; split_and!; try done; by eapply up_inv_root.
  destruct (less x p) eqn:Hlt.
  - rewrite (node_swap_spec l h (i / 2) i p x Hrep Hp Hx eq_refl). cbn [mbind option_bind].
    pose proof (rep_swapped l h (i / 2) i p x Hrep Hp Hx eq_refl) as Hrep'.
    pose proof (fun j => item_swap (i / 2) i l p x j Hp Hx) as Hsw. halves i.
    destruct (IH _ _ (i / 2)%nat x Hrep') as (l' & h' & E & Hr & Hperm & Ho & Hout).
    { by rewrite Hsw, decide_True. }
    { by eapply up_inv_swap. }
    { lia. }
    exists l', h'. split_and!; [done|done|by rewrite Hperm, swap_perm|done|].
    intros y Hy. rewrite Hout by (by rewrite swap_perm).
    by apply (swapped_frame l h (i / 2) i p x).
  - exists l, h. split_and!; try done. destruct Hinv as [Hok _]. intros j y z Hy Hz.
    destruct (decide (j = i)) as [->|]; [congruence|by apply (Hok j)].
Qed.

(** The child a node is exchanged with, or the node itself when it is not
    greater than its children. *)
Lemma smallest_spec l h i x :
  rep l h -> item l i = Some x ->
  exists s, smallest_of less h x = Some s /\
    ((s = x /\ forall j y, (j / 2)%nat = i -> item l j = Some y -> less y x = false) \/
     (exists j, (j / 2)%nat = i /\ item l j = Some s /\ s <> x /\ less s x = true /\
        forall k y, (k / 2)%nat = i -> item l k = Some y -> k <> j -> less y s = false)).
Proof.
  intros Hrep Hx. pose proof (item_Some _ _ _ Hx) as Hi. unfold smallest_of.
  rewrite (rep_node _ _ Hrep i x Hx). cbn [mbind option_bind node_of left right].
  eexists; split; [done|].
  assert (2 * i / 2 = i)%nat as E0 by (rewrite <- (half_double i 0) at 2 by lia; f_equal; lia).
  assert ((2 * i + 1) / 2 = i)%nat as E1 by (apply half_double; lia).
  assert (forall j y, (j / 2)%nat = i -> item l j = Some y -> (j = 2 * i \/ j = 2 * i + 1)%nat) as Hch.
  { intros j y Hj _. halves j. lia. }
  assert (forall j y, item l j = Some y -> j <> i -> y <> x) as Hne.
  { intros j y Hy Hj ->. by apply Hj, (item_inj l j i x (rep_nodup _ _ Hrep)). }
  destruct (item l (2 * i)) as [a|] eqn:Ha, (item l (2 * i + 1)) as [b|] eqn:Hb.
  - destruct (less a x) eqn:Lax.
    + destruct (less b a) eqn:Lba; right.
      * exists (2 * i + 1)%nat. split_and!; [done|done|apply (Hne _ b Hb); lia| |].
        -- destruct (less b x) eqn:Lbx; [done|]. pose proof (sw_asym _ _ Lba) as Lab.
           by rewrite (sw_trans x b a Lbx Lab) in Lax.
        -- intros k y Hk Hy Hkj. destruct (Hch k y Hk Hy) as [-> | ->]; [|done].
           replace y with a by congruence. by apply sw_asym.
      * exists (2 * i)%nat. split_and!; [done|done|apply (Hne _ a Ha); lia|done|].
        intros k y Hk Hy Hkj. destruct (Hch k y Hk Hy) as [-> | ->]; [done|]. congruence.
    + destruct (less b x) eqn:Lbx; [right|left].
      * exists (2 * i + 1)%nat. split_and!; [done|done|apply (Hne _ b Hb); lia|done|].
        intros k y Hk Hy Hkj. destruct (Hch k y Hk Hy) as [-> | ->]; [|done].
        replace y with a by congruence. apply (sw_trans b x a); [by apply sw_asym|done].
      * split; [done|]. intros j y Hj Hy. destruct (Hch j y Hj Hy) as [-> | ->]; congruence.
  - destruct (less a x) eqn:Lax; [right|left].
    + exists (2 * i)%nat. split_and!; [done|done|apply (Hne _ a Ha); lia|done|].
      intros k y Hk Hy Hkj. destruct (Hch k y Hk Hy) as [-> | ->]; congruence.
    + split; [done|]. intros j y Hj Hy. destruct (Hch j y Hj Hy) as [-> | ->]; congruence.
  - destruct (less b x) eqn:Lbx; [right|left].
    + exists (2 * i + 1)%nat. split_and!; [done|done|apply (Hne _ b Hb); lia|done|].
      intros k y Hk Hy Hkj. destruct (Hch k y Hk Hy) as [-> | ->]; congruence.
    + split; [done|]. intros j y Hj Hy. destruct (Hch j y Hj Hy) as [-> | ->]; congruence.
  - left. split; [done|]. intros j y Hj Hy. destruct (Hch j y Hj Hy) as [-> | ->]; congruence.
Qed.

Lemma down_inv_stop l i x :
  down_inv l i -> item l i = Some x ->
  (forall j y, (j / 2)%nat = i -> item l j = Some y -> less y x = false) -> up_inv l i.
Proof.
  intros [Hok Hbr] Hx Hch. split; [|done]. intros j Hj y z Hy Hz.
  destruct (decide (j / 2 = i)%nat) as [E|E]; [|by apply (Hok j)].
  rewrite E in Hz. replace z with x by congruence. by apply (Hch j).
Qed.

Lemma down_inv_swap l i j x s :
  down_inv l i -> (j / 2)%nat = i -> item l i = Some x -> item l j = Some s -> less s x = true ->
  (forall k y, (k / 2)%nat = i -> item l k = Some y -> k <> j -> less y s = false) ->
  down_inv (swap_items i j l) j.
Proof.
  intros [Hok Hbr] Hj Hx Hs Hlt Hsib. pose proof (item_Some _ _ _ Hx). pose proof (item_Some _ _ _ Hs).
  pose proof (fun k => item_swap i j l x s k Hx Hs) as Hsw. halves j.
  split.
  - intros k Hkj Hk2 y z. rewrite !Hsw. halves k.
    rewrite (decide_False (P := k = j)), (decide_False (P := (k / 2 = j)%nat)) by done.
    destruct (decide (k = i)) as [->|Hki].
    + rewrite (decide_False (P := (i / 2 = i)%nat)) by lia. intros [= <-] Hz. by apply (Hbr j s z).
    + intros Hy. destruct (decide (k / 2 = i)%nat) as [E|E]; intros Hz.
      * injection Hz as <-. by apply (Hsib k y E).
      * by apply (Hok k).
  - intros k y g Hk. rewrite !Hsw. halves k.
    rewrite (decide_False (P := k = i)), (decide_False (P := k = j)), (decide_True (P := (j / 2 = i)%nat))
      by (done || lia).
    intros Hy [= <-]. apply (Hok k); [lia|lia|done|by rewrite Hk].
Qed.

Lemma sift_down_spec fuel : forall l h i x,
  rep l h -> item l i = Some x -> down_inv l i -> (length l <= i + fuel)%nat ->
  exists l' h' i', sift_down less fuel h x = Some h' /\ rep l' h' /\ l' ≡ₚ l /\
    item l' i' = Some x /\ up_inv l' i' /\ same_outside l h h'.
Proof.
  induction fuel as [|fuel IH]; intros l h i x Hrep Hx Hinv Hfuel; cbn [sift_down];
    destruct (smallest_spec l h i x Hrep Hx) as (s & Es & Hcase); rewrite Es; cbn [mbind option_bind];
    destruct Hcase as [[-> Hch]|(j & Hj & Hs & Hsx & Hlt & Hsib)].
  1, 3: exists l, h, i; rewrite bool_decide_eq_true_2 by done; split_and!; try done;
    by eapply down_inv_stop.
  - exfalso. pose proof (item_Some _ _ _ Hs). pose proof (item_Some _ _ _ Hx). halves j. lia.
  - rewrite bool_decide_eq_false_2 by done. pose proof (item_Some _ _ _ Hx). halves j.
    rewrite (node_swap_spec l h i j x s Hrep Hx Hs Hj). cbn [mbind option_bind].
    pose proof (rep_swapped l h i j x s Hrep Hx Hs Hj) as Hrep'.
    pose proof (fun k => item_swap i j l x s k Hx Hs) as Hsw.
    destruct (IH _ _ j x Hrep') as (l' & h' & i' & E & Hr & Hperm & Hi' & Hup & Hout).
    { by rewrite Hsw, decide_False, decide_True by lia. }
    { by eapply down_inv_swap. }
    { rewrite swap_length. lia. }
    exists l', h', i'. split_and!; [done|done|by rewrite Hperm, swap_perm|done|done|].
    intros y Hy. rewrite Hout by (by rewrite swap_perm). by apply (swapped_frame l h i j x s).
Qed.
End Sift.

(** ** Insertion and removal *)

Lemma rep_frame l h h' :
  rep l h -> min h' = min h -> nelts h' = nelts h ->
  (forall y, y ∈ l -> nodes h' !! y = nodes h !! y) -> rep l h'.
Proof.
  intros Hrep Hm Hn Hs. split; try apply Hrep.
  - rewrite Hm. apply Hrep.
  - rewrite Hn. apply Hrep.
  - intros i x Hx. rewrite Hs by (by eapply item_elem). by apply Hrep.
Qed.

Lemma rep_live l h i x : rep l h -> item l i = Some x -> is_Some (nodes h !! x).
Proof. intros Hrep Hx. rewrite (rep_node _ _ Hrep i x Hx). eauto. Qed.

(** The links of [heap_insert], before the new node moves up. *)
Lemma insert_link l h x :
  rep l h -> x ∉ l -> is_Some (nodes h !! x) -> Z.of_nat (S (length l)) < 2 ^ 32 ->
  forall less, exists h4, rep (l ++ [x]) h4 /\ same_outside (x :: l) h h4 /\
    heap_insert less h x = sift_up less (S (length l)) h4 x.
Proof.
  intros Hrep Hx [n0 Hn0] Hlt less. set (i := S (length l)). unfold heap_insert.
  rewrite (modify_alter _ _ _ _ Hn0). cbn [mbind option_bind].
  set (h1 := with_nodes _ h).
  assert (rep l h1) as Hrep1.
  { apply (rep_frame l h); try done. intros y Hy. cbn [h1 with_nodes nodes].
    rewrite lookup_alter_opt, decide_False; [done|]. intros [= ->]. done. }
  change (nelts h1) with (nelts h). rewrite (rep_nelts _ _ Hrep).
  replace (1 + Z.of_nat (length l)) with (Z.of_nat i) by lia. rewrite wrapu_id by (unfold in_u; lia).
  destruct (walk_to l h1 Hrep1 i ltac:(lia) Hlt) as (path & k & s & sp & -> & Hw & Hs & Hsp).
  rewrite Nat2Z.id, Hw. cbn [mbind option_bind].
  assert (read_slot h1 sp = Some (item l (i / 2))) as ->.
  { pose proof (Nat.div_mod_eq i 2). pose proof (Nat.mod_upper_bound i 2 ltac:(lia)).
    rewrite (read_slot_at l h1 Hrep1 _ _ Hsp) by (case_decide; lia). case_decide as E; [|done].
    rewrite E. cbn. by destruct l. }
  cbn [mbind option_bind].
  assert (nodes h1 !! x = Some (mk_node None None None)) as Hx1.
  { cbn [h1 with_nodes nodes]. by rewrite lookup_alter_opt, decide_True, Hn0. }
  rewrite (modify_alter _ _ _ _ Hx1). cbn [mbind option_bind].
  rewrite (write_slot_at l i s).
  2: done.
  2: { intros y Hy. cbn [with_nodes nodes]. apply is_Some_alter_opt. by eapply rep_live. }
  cbn [mbind option_bind set_nelts min nelts nodes with_nodes h1].
  rewrite (rep_nelts _ _ Hrep), wrapu_id by (unfold in_u; lia).
  assert (alter_opt (Some x) (set_parent (item l (i / 2)))
            (alter_opt (Some x) (fun _ => mk_node None None None) (nodes h))
          = <[x := mk_node None None (item l (i / 2))]> (nodes h)) as ->.
  { apply map_eq. intros y. rewrite !lookup_alter_opt. destruct (decide (x = y)) as [<-|Hxy].
    - by rewrite lookup_insert_eq, !decide_True, Hn0.
    - by rewrite lookup_insert_ne, !decide_False by congruence. }
  eexists. split_and!; [apply (rep_link l h Hrep x Hx Hlt)| |].
  - intros y Hy. cbn [nodes]. apply not_elem_of_cons in Hy as [Hyx Hyl].
    rewrite lookup_alter_opt, decide_False, lookup_insert_ne by (done || intros ?%item_elem; done). done.
  - by replace (Z.of_nat (length l) + 1) with (Z.of_nat i) by lia; rewrite Nat2Z.id.
Qed.

Section Ops.
Context (less : Z -> Z -> bool) `{SW : !StrictWeak less}.

Lemma up_inv_link l x : ordered less l -> up_inv less (l ++ [x]) (S (length l)).
Proof.
  intros Ho. split.
  - intros j Hj y z Hy. pose proof (item_Some _ _ _ Hy) as Hb. rewrite length_app in Hb. cbn in Hb.
    pose proof (Nat.div_mod_eq j 2). pose proof (Nat.mod_upper_bound j 2 ltac:(lia)).
    rewrite item_app_last, decide_False in Hy by done.
    rewrite item_app_last, decide_False by lia. by apply (Ho j).
  - intros j y g Hj Hy. pose proof (item_Some _ _ _ Hy) as Hb. rewrite length_app in Hb. cbn in Hb.
    pose proof (Nat.div_mod_eq j 2). pose proof (Nat.mod_upper_bound j 2 ltac:(lia)). lia.
Qed.

Lemma heap_insert_spec l h x :
  rep l h -> ordered less l -> x ∉ l -> is_Some (nodes h !! x) -> Z.of_nat (S (length l)) < 2 ^ 32 ->
  exists l' h', heap_insert less h x = Some h' /\ rep l' h' /\ l' ≡ₚ x :: l /\ ordered less l' /\
    same_outside (x :: l) h h'.
Proof.
  intros Hrep Ho Hx Hlive Hlt.
  destruct (insert_link l h x Hrep Hx Hlive Hlt less) as (h4 & Hrep4 & Hout4 & ->).
  destruct (sift_up_spec less (S (length l)) _ _ (S (length l)) x Hrep4)
    as (l' & h' & E & Hr & Hperm & Ho' & Hout); [|by apply up_inv_link|lia|].
  { by rewrite item_app_last, decide_True. }
  exists l', h'. split_and!; [done|done| |done|].
  - rewrite Hperm. by rewrite Permutation_app_comm.
  - intros y Hy. rewrite Hout; [by apply Hout4|]. by rewrite Permutation_app_comm.
Qed.

Lemma ordered_removed l : ordered less l -> ordered less (take (pred (length l)) l).
Proof.
  intros Ho j x y. rewrite !item_removed. destruct (decide (j = length l)); [done|].
  destruct (decide (j / 2 = length l)%nat); [done|]. apply Ho.
Qed.

Lemma down_inv_replace l i node c :
  ordered less l -> item l i = Some node -> down_inv less (<[pred i := c]> l) i.
Proof.
  intros Ho Hi. pose proof (item_Some _ _ _ Hi) as Hin.
  pose proof (fun j => item_insert l i c j Hin) as Hins. split.
  - intros j Hj Hj2 x y. rewrite !Hins, !decide_False by done. apply Ho.
  - intros j x g Hj. pose proof (Nat.div_mod_eq j 2). pose proof (Nat.mod_upper_bound j 2 ltac:(lia)).
    pose proof (Nat.div_mod_eq i 2). pose proof (Nat.mod_upper_bound i 2 ltac:(lia)).
    rewrite !Hins, !decide_False by lia. intros Hx Hg.
    apply (sw_trans g node x); [by apply (Ho i)|]. apply (Ho j); [done|by rewrite Hj].
Qed.

Lemma replace_perm (l : list Z) i node c :
  item l i = Some node -> node :: <[pred i := c]> l ≡ₚ c :: l.
Proof.
  destruct i as [|k]; [done|]. cbn. intros Hk. pose proof (lookup_lt_Some _ _ _ Hk).
  rewrite insert_take_drop by done. rewrite <- (take_drop_middle l k node Hk) at 3.
  rewrite <- !Permutation_middle. apply Permutation_swap.
Qed.

Lemma last_perm (l : list Z) c : item l (length l) = Some c -> l ≡ₚ c :: take (pred (length l)) l.
Proof.
  intros Hc. destruct (length l) as [|k] eqn:El; [done|]. cbn in Hc |- *.
  rewrite <- (take_drop_middle l k c Hc) at 1. rewrite drop_ge by lia. by rewrite Permutation_app_comm.
Qed.

(** Unlinking the last node. *)
Lemma remove_last l h :
  rep l h -> (1 <= length l)%nat ->
  exists path k sp s c h2, path_loop 32 0 0 (nelts h) = (path, Z.of_nat k) /\
    walk h k path SMin SMin = Some (sp, s) /\ item l (length l) = Some c /\
    read_slot h s = Some (Some c) /\
    write_slot s None (set_nelts (wrapu 32 (nelts h - 1)) h) = Some h2 /\
    rep (take (pred (length l)) l) h2 /\ (c ∉ take (pred (length l)) l) /\
    is_Some (nodes h2 !! c) /\ same_outside l h h2.
Proof.
  intros Hrep Hn. pose proof (rep_small _ _ Hrep) as Hsmall.
  destruct (walk_to l h Hrep (length l) ltac:(lia) Hsmall) as (path & k & s & sp & Hp & Hw & Hs & _).
  destruct (item_in l (length l)) as [c Hc]; [lia|].
  rewrite (rep_nelts _ _ Hrep), wrapu_id by (unfold in_u; lia).
  exists path, k, sp, s, c. eexists. split_and!; [done|done|done| | | | | |].
  - rewrite (read_slot_at l h Hrep _ _ Hs) by lia. by rewrite Hc.
  - apply (write_slot_at l (length l) s); [done|]. intros x Hx. apply (rep_live l h _ x Hrep Hx).
  - replace (Z.of_nat (length l) - 1) with (Z.of_nat (pred (length l))) by lia.
    by apply (rep_unlink l h Hrep).
  - intros (j & Hj)%elem_item. rewrite item_removed in Hj. case_decide; [done|].
    by pose proof (item_inj l j (length l) c (rep_nodup _ _ Hrep) Hj Hc).
  - cbn [nodes set_nelts]. apply is_Some_alter_opt. by eapply rep_live.
  - intros y Hy. cbn [nodes set_nelts]. rewrite lookup_alter_opt, decide_False; [done|].
    intros ?%item_elem. done.
Qed.

(** Putting a node that is outside in the place of another. *)
Lemma replace_links l h i node c :
  rep l h -> item l i = Some node -> c ∉ l -> is_Some (nodes h !! c) ->
  exists h6, rep (<[pred i := c]> l) h6 /\ same_outside (c :: l) h h6 /\
    (n ← nodes h !! node;
     h3 ← modify c (fun _ => mk_node (left n) (right n) (parent n)) h;
     h5 ← adopt c h3;
     n5 ← nodes h5 !! node;
     replace_link (parent n5) node c h5) = Some h6.
Proof.
  intros Hrep Hi Hc [nc Hnc]. pose proof (item_Some _ _ _ Hi) as Hin.
  assert (forall k, item l k <> Some c) as Hk by (intros k ?%item_elem; done).
  assert (node <> c) as Hne by (intros ->; by apply (Hk i)).
  eexists. split_and!; [by apply (rep_replace l h Hrep i node c)| |].
  { intros y [Hyc Hyl]%not_elem_of_cons. cbn [nodes].
    rewrite !lookup_alter_opt, !decide_False by (intros ?%item_elem; done). by rewrite lookup_insert_ne. }
  rewrite (rep_node _ _ Hrep i node Hi). cbn [mbind option_bind].
  rewrite (modify_alter _ _ _ _ Hnc). cbn [mbind option_bind].
  assert (alter_opt (Some c) (fun _ => mk_node (left (node_of l i)) (right (node_of l i)) (parent (node_of l i)))
            (nodes h) = <[c := node_of l i]> (nodes h)) as ->.
  { apply map_eq. intros y. rewrite lookup_alter_opt. destruct (decide (c = y)) as [<-|Hxy].
    - by rewrite lookup_insert_eq, decide_True, Hnc.
    - by rewrite lookup_insert_ne, decide_False by congruence. }
  assert (forall k x, item l k = Some x -> is_Some (<[c := node_of l i]> (nodes h) !! x)) as Hlive.
  { intros k x Hx. rewrite lookup_insert_ne by (intros ->; by apply (Hk k)). by eapply rep_live. }
  rewrite (adopt_alter _ _ (node_of l i)); cbn [with_nodes nodes node_of left right].
  2: apply lookup_insert_eq.
  2: apply Hk.
  2: { intros y [Hy|Hy]; by eapply Hlive. }
  cbn [mbind option_bind with_nodes nodes].
  rewrite !lookup_alter_opt, !decide_False by (apply (item_other l h Hrep _ i); [done|lia]).
  rewrite lookup_insert_ne, (rep_node _ _ Hrep i node Hi) by done. cbn [mbind option_bind].
  change (parent (node_of l i)) with (item l (i / 2)).
  rewrite replace_link_alter by (intros; cbn [nodes]; do 2 apply is_Some_alter_opt; by eapply Hlive).
  cbn [min nelts nodes]. do 2 f_equal. destruct (decide (i = 1)%nat) as [->|Hi1]; [done|].
  pose proof (Nat.div_mod_eq i 2). pose proof (Nat.mod_upper_bound i 2 ltac:(lia)).
  destruct (item_in l (i / 2)) as [g Hg]; [lia|]. change (Nat.divmod i 1 0 1).1 with (i / 2)%nat.
  by rewrite Hg.
Qed.

(** The replacement moved down, then up. *)
Lemma settle l h i c :
  rep l h -> item l i = Some c -> down_inv less l i ->
  exists l' h', (h7 ← sift_down less (Z.to_nat (nelts h)) h c;
                 sift_up less (Z.to_nat (nelts h7)) h7 c) = Some h' /\
    rep l' h' /\ l' ≡ₚ l /\ ordered less l' /\ same_outside l h h'.
Proof.
  intros Hrep Hc Hinv.
  destruct (sift_down_spec less (Z.to_nat (nelts h)) l h i c Hrep Hc Hinv)
    as (l1 & h1 & i1 & E1 & Hr1 & Hp1 & Hi1 & Hup & Hout1).
  { rewrite (rep_nelts _ _ Hrep). lia. }
  rewrite E1. cbn [mbind option_bind]. pose proof (item_Some _ _ _ Hi1).
  destruct (sift_up_spec less (Z.to_nat (nelts h1)) l1 h1 i1 c Hr1 Hi1 Hup)
    as (l2 & h2 & E2 & Hr2 & Hp2 & Ho2 & Hout2).
  { rewrite (rep_nelts _ _ Hr1). lia. }
  exists l2, h2. split_and!; [done|done|by rewrite Hp2|done|].
  intros y Hy. rewrite Hout2 by (by rewrite Hp1). by apply Hout1.
Qed.

Lemma heap_remove_spec l h node :
  rep l h -> ordered less l -> node ∈ l ->
  exists l' h', heap_remove less h node = Some h' /\ rep l' h' /\ l ≡ₚ node :: l' /\ ordered less l' /\
    same_outside l h h'.
Proof.
  intros Hrep Ho Hnode. destruct (elem_item _ _ Hnode) as [i Hi].
  pose proof (item_Some _ _ _ Hi) as Hin.
  destruct (remove_last l h Hrep ltac:(lia))
    as (path & k & sp & s & c & h2 & Hp & Hw & Hc & Hrd & Hwr & Hrep2 & Hcl & Hlive & Hout2).
  pose proof (last_perm l c Hc) as Hperm. pose proof (ordered_removed l Ho) as Ho2.
  unfold heap_remove.
  assert ((nelts h =? 0) = false) as -> by (rewrite (rep_nelts _ _ Hrep); lia).
  rewrite Hp, Nat2Z.id, Hw. cbn [mbind option_bind].
  replace (read_slot (set_nelts (wrapu 32 (nelts h - 1)) h) s) with (read_slot h s) by (by destruct s).
  rewrite Hrd. cbn [mbind option_bind]. rewrite Hwr. cbn [mbind option_bind].
  destruct (decide (c = node)) as [->|Hne].
  { rewrite bool_decide_eq_true_2 by done.
    rewrite bool_decide_eq_false_2 by (rewrite (rep_min _ _ Hrep2); intros ?%item_elem; done).
    eexists _, h2. split_and!; done. }
  rewrite bool_decide_eq_false_2 by done.
  set (l1 := take (pred (length l)) l) in *.
  assert (item l1 i = Some node) as Hi1.
  { subst l1. rewrite item_removed, decide_False; [done|]. intros ->. congruence. }
  destruct (replace_links l1 h2 i node c Hrep2 Hi1 Hcl Hlive) as (h6 & Hrep6 & Hout6 & E6).
  destruct (settle _ h6 i c Hrep6) as (l' & h' & E' & Hr' & Hp' & Ho' & Hout').
  { rewrite item_insert by (by eapply item_Some). by rewrite decide_True. }
  { by eapply down_inv_replace. }
  exists l', h'. pose proof (replace_perm l1 i node c Hi1) as Hrp.
  assert (l ≡ₚ node :: l') as Hall by (by rewrite Hp', Hrp).
  split_and!; [|done|done|done|].
  - rewrite <- E'. clear E'. revert E6. destruct (nodes h2 !! node) as [n|]; cbn [mbind option_bind]; [|done].
    destruct (modify _ _ _) as [h3|]; cbn [mbind option_bind]; [|done].
    destruct (adopt _ _) as [h5|]; cbn [mbind option_bind]; [|done].
    destruct (nodes h5 !! node) as [n5|]; cbn [mbind option_bind]; [|done]. by intros ->.
  - intros y Hy. assert (y ∉ c :: l1) as Hy1 by (by rewrite <- Hperm).
    rewrite Hout', Hout6, Hout2; [done|done|done|].
    intros Hin'. apply Hy1. rewrite <- Hrp. by apply list_elem_of_further.
Qed.

(** Dequeuing removes the minimum, and does nothing to an empty heap. *)
Lemma heap_dequeue_spec l h :
  rep l h -> ordered less l ->
  match heap_min h with
  | None => l = [] /\ heap_dequeue less h = Some h
  | Some x => (forall y, y ∈ l -> less y x = false) /\
      exists l' h', heap_dequeue less h = Some h' /\ rep l' h' /\ l ≡ₚ x :: l' /\ ordered less l' /\
        same_outside l h h'
  end.
Proof.
  intros Hrep Ho. unfold heap_min, heap_dequeue. rewrite (rep_min _ _ Hrep).
  destruct (item l 1) as [x|] eqn:Hx.
  - split; [by apply (ordered_min less l x)|]. apply heap_remove_spec; [done|done|by eapply item_elem].
  - destruct l; [|done]. split; [done|]. by rewrite (rep_nelts _ _ Hrep).
Qed.
End Ops.

(** ** No node's memory goes away *)

Definition keeps (h h' : heap) : Prop := forall y, is_Some (nodes h !! y) -> is_Some (nodes h' !! y).

Lemma keeps_refl h : keeps h h.
Proof. by intros y. Qed.

Lemma keeps_trans h1 h2 h3 : keeps h1 h2 -> keeps h2 h3 -> keeps h1 h3.
Proof. unfold keeps. auto. Qed.

Lemma modify_keeps x f h h' : modify x f h = Some h' -> keeps h h'.
Proof.
  unfold modify. destruct (nodes h !! x) as [n|]; cbn; [|done]. intros [= <-] y Hy. cbn.
  destruct (decide (x = y)) as [->|]; [by rewrite lookup_insert_eq|by rewrite lookup_insert_ne].
Qed.

Lemma modify_opt_keeps p f h h' : modify_opt p f h = Some h' -> keeps h h'.
Proof. destruct p; [apply modify_keeps|by intros [= <-] ?]. Qed.

Lemma write_slot_keeps s v h h' : write_slot s v h = Some h' -> keeps h h'.
Proof. destruct s; [by intros [= <-] ?|apply modify_keeps..]. Qed.

Lemma adopt_keeps x h h' : adopt x h = Some h' -> keeps h h'.
Proof.
  unfold adopt. intros (n & _ & (h1 & E1 & (n1 & _ & E2)%bind_Some)%bind_Some)%bind_Some.
  eapply keeps_trans; eapply modify_opt_keeps; eassumption.
Qed.

Lemma replace_link_keeps g a b h h' : replace_link g a b h = Some h' -> keeps h h'.
Proof.
  destruct g; cbn [replace_link]; [|by intros [= <-] ?]. intros (n & _ & E)%bind_Some.
  case_bool_decide; by eapply modify_keeps.
Qed.

Lemma swap_keeps h a b h' : heap_node_swap h a b = Some h' -> keeps h h'.
Proof.
  unfold heap_node_swap, exchange_links.
  intros ([h3 sib] & E1 & (h4 & E4 & (h6 & E6 & (c6 & _ & E7)%bind_Some)%bind_Some)%bind_Some)%bind_Some.
  apply bind_Some in E1 as (p & Hp & (c & Hc & (h2 & E2 & (c2 & _ & E3)%bind_Some)%bind_Some)%bind_Some).
  assert (keeps h2 h3) as K23.
  { case_bool_decide; apply bind_Some in E3 as (h3' & E3 & [= <- _]); by eapply modify_keeps. }
  assert (keeps h h2) as K2.
  { eapply keeps_trans; [|by eapply modify_keeps]. intros y Hy. cbn.
    destruct (decide (b = y)) as [->|]; [rewrite lookup_insert_eq; eauto|rewrite lookup_insert_ne by done].
    destruct (decide (a = y)) as [->|]; [rewrite lookup_insert_eq; eauto|by rewrite lookup_insert_ne]. }
  apply modify_opt_keeps in E4. apply adopt_keeps in E6. apply replace_link_keeps in E7.
  unfold keeps in *. auto 10.
Qed.

Section Keeps.
Context (less : Z -> Z -> bool).

Lemma sift_up_keeps fuel : forall h x h', sift_up less fuel h x = Some h' -> keeps h h'.
Proof.
  induction fuel as [|fuel IH]; intros h x h'; cbn [sift_up]; intros (n & _ & E)%bind_Some;
    destruct (parent n) as [p|]; try (injection E as <-; apply keeps_refl);
    destruct (less x p); try (injection E as <-; apply keeps_refl); [done|].
  apply bind_Some in E as (h1 & E1 & E2). eauto using keeps_trans, swap_keeps.
Qed.

Lemma sift_down_keeps fuel : forall h x h', sift_down less fuel h x = Some h' -> keeps h h'.
Proof.
  induction fuel as [|fuel IH]; intros h x h'; cbn [sift_down]; intros (n & _ & E)%bind_Some;
    case_bool_decide; try (injection E as <-; apply keeps_refl); [done|].
  apply bind_Some in E as (h1 & E1 & E2). eauto using keeps_trans, swap_keeps.
Qed.

Lemma insert_keeps h x h' : heap_insert less h x = Some h' -> keeps h h'.
Proof.
  unfold heap_insert. intros (h1 & E1 & E)%bind_Some. destruct (path_loop _ _ _ _) as [path k].
  apply bind_Some in E as ([par child] & _ & (v & _ & (h2 & E2 & (h3 & E3 & E4)%bind_Some)%bind_Some)%bind_Some).
  apply sift_up_keeps in E4. apply write_slot_keeps in E3. apply modify_keeps in E2, E1.
  intros y Hy. apply E4. cbn [set_nelts nodes]. auto.
Qed.

Lemma remove_keeps h x h' : heap_remove less h x = Some h' -> keeps h h'.
Proof.
  unfold heap_remove. destruct (nelts h =? 0); [intros [= <-]; apply keeps_refl|].
  destruct (path_loop _ _ _ _) as [path k].
  intros ([sp max] & _ & (v & _ & (h2 & E2 & (c & _ & E)%bind_Some)%bind_Some)%bind_Some)%bind_Some.
  apply write_slot_keeps in E2. assert (keeps h h2) as K2 by exact E2. clear E2.
  case_bool_decide; [injection E as <-; by case_bool_decide|].
  apply bind_Some in E as (n & _ & (h3 & E3 & (h5 & E5 & (n5 & _ & (h6 & E6 & (h7 & E7 & E8)%bind_Some)
    %bind_Some)%bind_Some)%bind_Some)%bind_Some).
  apply modify_keeps in E3. apply adopt_keeps in E5. apply replace_link_keeps in E6.
  apply sift_down_keeps in E7. apply sift_up_keeps in E8. unfold keeps in *. auto 10.
Qed.
End Keeps.

Lemma ordered_ext (less1 less2 : Z -> Z -> bool) l :
  (forall x y, x ∈ l -> y ∈ l -> less1 x y = less2 x y) -> ordered less1 l -> ordered less2 l.
Proof.
  intros He Ho i x y Hx Hy. rewrite <- He by (by eapply item_elem). by apply (Ho i).
Qed.
