(* ===== verification/UvTimer.v ===== *)
(** * libuv: timers ([timer.c] and the handle macros of [uv-common.h])

    Timers of one loop.  A timer is named by its address, which is also the
    name of the [heap_node] inside it ([container_of]).  The timers' memory is
    a map from addresses; the user's callbacks are a parameter. *)
From S2P Require Import Prelude UvHeap UvHeapSpec.

(** ** Data *)

Definition UV_HANDLE_CLOSING := 0x1.
Definition UV_HANDLE_CLOSED := 0x2.
Definition UV_HANDLE_ACTIVE := 0x4.
Definition UV_HANDLE_REF := 0x8.
Definition UV_EINVAL := -22.
Definition INT_MAX := 2 ^ 31 - 1.

(** [uv_timer_t] without its heap node; [timer_cb] names a function. *)
Record uv_timer := mk_timer {
  flags : Z;
  timer_cb : option Z;
  timeout : Z;
  repeat : Z;
  start_id : Z }.

Record uv_loop := mk_loop {
  time : Z;
  timer_counter : Z;
  active_handles : Z;
  timer_heap : heap;
  timers : gmap Z uv_timer;
  handle_queue : list Z }.

Definition set_timer (h : Z) (t : uv_timer) (l : uv_loop) : uv_loop :=
  mk_loop (time l) (timer_counter l) (active_handles l) (timer_heap l) (<[h := t]> (timers l))
          (handle_queue l).

Definition set_heap (hp : heap) (l : uv_loop) : uv_loop :=
  mk_loop (time l) (timer_counter l) (active_handles l) hp (timers l) (handle_queue l).

Definition set_active_handles (n : Z) (l : uv_loop) : uv_loop :=
  mk_loop (time l) (timer_counter l) n (timer_heap l) (timers l) (handle_queue l).

Definition set_flags (f : Z) (t : uv_timer) : uv_timer :=
  mk_timer f (timer_cb t) (timeout t) (repeat t) (start_id t).

(** ** Handles *)

Definition uv__is_active (t : uv_timer) : bool := negb (Z.land (flags t) UV_HANDLE_ACTIVE =? 0).
Definition uv__is_closing (t : uv_timer) : bool :=
  negb (Z.land (flags t) (Z.lor UV_HANDLE_CLOSING UV_HANDLE_CLOSED) =? 0).
Definition uv__has_ref (t : uv_timer) : bool := negb (Z.land (flags t) UV_HANDLE_REF =? 0).

Definition uv__handle_start (l : uv_loop) (h : Z) : option uv_loop :=
  t ← timers l !! h;
  if uv__is_active t then Some l
  else
    let t' := set_flags (Z.lor (flags t) UV_HANDLE_ACTIVE) t in
    let l' := set_timer h t' l in
    Some (if uv__has_ref t' then set_active_handles (wrapu 32 (active_handles l' + 1)) l' else l').

Definition uv__handle_stop (l : uv_loop) (h : Z) : option uv_loop :=
  t ← timers l !! h;
  if negb (uv__is_active t) then Some l
  else
    let t' := set_flags (Z.land (flags t) (Z.lnot UV_HANDLE_ACTIVE)) t in
    let l' := set_timer h t' l in
    Some (if uv__has_ref t' then set_active_handles (wrapu 32 (active_handles l' - 1)) l' else l').

(** ** Timers *)

(** Nodes of the heap are live timers; what a dangling one would read is
    undefined in C and zero here. *)
Definition timer_at (l : uv_loop) (h : Z) : uv_timer :=
  default (mk_timer 0 None 0 0 0) (timers l !! h).

Definition timer_less_than (l : uv_loop) (ha hb : Z) : bool :=
  let a := timer_at l ha in
  let b := timer_at l hb in
  if timeout a <? timeout b then true
  else if timeout b <? timeout a then false
  else start_id a <? start_id b.

(** [uv_timer_init]: the flags of [uv__handle_init], which also queues the
    handle. *)
Definition uv_timer_init (l : uv_loop) (h : Z) : option (Z * uv_loop) :=
  t ← timers l !! h;
  let l1 := set_timer h (mk_timer UV_HANDLE_REF None (timeout t) 0 (start_id t)) l in
  Some (0, mk_loop (time l1) (timer_counter l1) (active_handles l1) (timer_heap l1) (timers l1)
                   (handle_queue l1 ++ [h])).

Definition uv_timer_stop (l : uv_loop) (h : Z) : option (Z * uv_loop) :=
  t ← timers l !! h;
  if negb (uv__is_active t) then Some (0, l)
  else
    hp ← heap_remove (timer_less_than l) (timer_heap l) h;
    l' ← uv__handle_stop (set_heap hp l) h;
    Some (0, l').

Definition uv_timer_start (l : uv_loop) (h : Z) (cb : option Z) (tmo rep_ : Z)
  : option (Z * uv_loop) :=
  t ← timers l !! h;
  if uv__is_closing t || bool_decide (cb = None) then Some (UV_EINVAL, l)
  else
    '(_, l1) ← (if uv__is_active t then uv_timer_stop l h else Some (0, l));
    t1 ← timers l1 !! h;
    let sum := wrapu 64 (time l1 + tmo) in
    let clamped_timeout := if sum <? tmo then 2 ^ 64 - 1 else sum in
    let l2 := set_timer h (mk_timer (flags t1) cb clamped_timeout rep_ (timer_counter l1))
                (mk_loop (time l1) (wrapu 64 (timer_counter l1 + 1)) (active_handles l1)
                         (timer_heap l1) (timers l1) (handle_queue l1)) in
    hp ← heap_insert (timer_less_than l2) (timer_heap l2) h;
    l3 ← uv__handle_start (set_heap hp l2) h;
    Some (0, l3).

Definition uv_timer_again (l : uv_loop) (h : Z) : option (Z * uv_loop) :=
  t ← timers l !! h;
  if bool_decide (timer_cb t = None) then Some (UV_EINVAL, l)
  else if negb (repeat t =? 0) then
    '(_, l1) ← uv_timer_stop l h;
    t1 ← timers l1 !! h;
    '(_, l2) ← uv_timer_start l1 h (timer_cb t1) (repeat t1) (repeat t1);
    Some (0, l2)
  else Some (0, l).

Definition uv_timer_set_repeat (l : uv_loop) (h rep_ : Z) : option uv_loop :=
  t ← timers l !! h;
  Some (set_timer h (mk_timer (flags t) (timer_cb t) (timeout t) rep_ (start_id t)) l).

Definition uv_timer_get_repeat (l : uv_loop) (h : Z) : option Z :=
  t ← timers l !! h;
  Some (repeat t).

Definition uv__next_timeout (l : uv_loop) : option Z :=
  match heap_min (timer_heap l) with
  | None => Some (-1)
  | Some h =>
      t ← timers l !! h;
      if timeout t <=? time l then Some 0
      else
        let diff := wrapu 64 (timeout t - time l) in
        Some (if INT_MAX <? diff then INT_MAX else diff)
  end.

Definition uv__timer_close (l : uv_loop) (h : Z) : option uv_loop :=
  '(_, l') ← uv_timer_stop l h;
  Some l'.

(** [uv__run_timers]: a user callback may do anything to the loop.  The result
    also lists the timers that fired, in order. *)
Section Run.
Context (callback : Z -> Z -> uv_loop -> option uv_loop).

(** One round: [None] in the inner option when no timer is due. *)
Definition run_timer (l : uv_loop) : option (option (Z * uv_loop)) :=
  match heap_min (timer_heap l) with
  | None => Some None
  | Some h =>
      t ← timers l !! h;
      if time l <? timeout t then Some None
      else
        '(_, l1) ← uv_timer_stop l h;
        '(_, l2) ← uv_timer_again l1 h;
        t2 ← timers l2 !! h;
        cb ← timer_cb t2;
        l3 ← callback cb h l2;
        Some (Some (h, l3))
  end.

Fixpoint uv__run_timers (fuel : nat) (l : uv_loop) : option (list Z * uv_loop) :=
  r ← run_timer l;
  match r with
  | None => Some ([], l)
  | Some (h, l') =>
      match fuel with
      | O => None
      | S fuel' => '(fired, l'') ← uv__run_timers fuel' l'; Some (h :: fired, l'')
      end
  end.
End Run.
