(* ===== verification/UvTimerSpec.v ===== *)
(** * libuv: timers are a priority queue

    The invariant of a loop's timers, what starting and stopping a timer do to
    the set of active timers, and how timers fire. *)
From stdpp Require Import sorting.
From S2P Require Import Prelude UvHeap UvHeapSpec UvTimer.

(** ** Flags *)

Lemma land_bit f k : 0 <= k -> (Z.land f (2 ^ k) =? 0) = negb (Z.testbit f k).
Proof.
  intros Hk. destruct (Z.testbit f k) eqn:E; cbn.
  - apply Z.eqb_neq. intros Hz. apply (f_equal (fun z => Z.testbit z k)) in Hz.
    by rewrite Z.land_spec, E, Z.pow2_bits_true, Z.bits_0 in Hz by lia.
  - apply Z.eqb_eq, Z.bits_inj'. intros i Hi. rewrite Z.land_spec, Z.bits_0, Z.pow2_bits_eqb by lia.
    destruct (Z.eqb_spec k i) as [->|]; [by rewrite E|apply andb_false_r].
Qed.

Lemma is_active_bit t : uv__is_active t = Z.testbit (flags t) 2.
Proof. unfold uv__is_active. rewrite (land_bit _ 2) by lia. apply negb_involutive. Qed.

Lemma has_ref_bit t : uv__has_ref t = Z.testbit (flags t) 3.
Proof. unfold uv__has_ref. rewrite (land_bit _ 3) by lia. apply negb_involutive. Qed.

Definition activate (t : uv_timer) : uv_timer := set_flags (Z.lor (flags t) UV_HANDLE_ACTIVE) t.
Definition deactivate (t : uv_timer) : uv_timer :=
  set_flags (Z.land (flags t) (Z.lnot UV_HANDLE_ACTIVE)) t.

Lemma active_activate t : uv__is_active (activate t) = true.
Proof. rewrite is_active_bit. cbn [activate deactivate set_flags flags]. rewrite Z.lor_spec. apply orb_true_r. Qed.

Lemma active_deactivate t : uv__is_active (deactivate t) = false.
Proof. rewrite is_active_bit. cbn [activate deactivate set_flags flags]. rewrite Z.land_spec. apply andb_false_r. Qed.

Lemma testbit_4 i : i <> 2 -> 0 <= i -> Z.testbit UV_HANDLE_ACTIVE i = false.
Proof. intros. change UV_HANDLE_ACTIVE with (2 ^ 2). rewrite Z.pow2_bits_eqb by lia. lia. Qed.

Lemma ref_activate t : uv__has_ref (activate t) = uv__has_ref t.
Proof. rewrite !has_ref_bit. cbn [activate deactivate set_flags flags]. rewrite Z.lor_spec. apply orb_false_r. Qed.

Lemma ref_deactivate t : uv__has_ref (deactivate t) = uv__has_ref t.
Proof. rewrite !has_ref_bit. cbn [activate deactivate set_flags flags]. rewrite Z.land_spec. apply andb_true_r. Qed.

Lemma closing_activate t : uv__is_closing (activate t) = uv__is_closing t.
Proof.
  unfold uv__is_closing. cbn [activate set_flags flags]. rewrite Z.land_lor_distr_l.
  change (Z.land UV_HANDLE_ACTIVE (Z.lor UV_HANDLE_CLOSING UV_HANDLE_CLOSED)) with 0.
  by rewrite Z.lor_0_r.
Qed.

Lemma closing_deactivate t : uv__is_closing (deactivate t) = uv__is_closing t.
Proof. unfold uv__is_closing. cbn [deactivate set_flags flags]. by rewrite <- Z.land_assoc. Qed.

(** The flag of an inactive timer is clear already. *)
Lemma deactivate_inactive t : uv__is_active t = false -> deactivate t = t.
Proof.
  rewrite is_active_bit. intros Ha. unfold deactivate, set_flags. destruct t as [f cb tm rp id]. cbn [flags timer_cb timeout repeat start_id] in *.
  f_equal. apply Z.bits_inj'. intros i Hi. rewrite Z.land_spec, Z.lnot_spec by done.
  destruct (decide (i = 2)) as [->|]; [by rewrite Ha|]. by rewrite testbit_4, andb_true_r.
Qed.

(** ** The invariant *)

#[export] Instance timer_strict_weak l : StrictWeak (timer_less_than l).
Proof.
  split; intros; unfold timer_less_than in *;
    repeat match goal with |- context [Z.ltb ?a ?b] => destruct (Z.ltb_spec a b)
                         | H : context [Z.ltb ?a ?b] |- _ => destruct (Z.ltb_spec a b) end;
    (done || lia).
Qed.

Lemma less_ext l l' :
  (forall h, timeout (timer_at l' h) = timeout (timer_at l h) /\
             start_id (timer_at l' h) = start_id (timer_at l h)) ->
  forall x y, timer_less_than l' x y = timer_less_than l x y.
Proof.
  intros H x y. unfold timer_less_than. destruct (H x) as [-> ->], (H y) as [-> ->]. done.
Qed.

Definition is_active (l : uv_loop) (h : Z) : Prop :=
  exists t, timers l !! h = Some t /\ uv__is_active t = true.

(** What [uv_timer_start] makes sure of: an active timer is not being closed,
    has a callback and values in range. *)
Definition startable (t : uv_timer) : Prop :=
  uv__is_closing t = false /\ timer_cb t <> None /\ in_u 64 (timeout t) /\ in_u 64 (repeat t).

(** [queued l arr]: the heap of the loop holds exactly the active timers,
    in the order of the array [arr], the next one to fire first. *)
Record queued (l : uv_loop) (arr : list Z) : Prop := {
  qd_rep : rep arr (timer_heap l);
  qd_ordered : ordered (timer_less_than l) arr;
  qd_active : forall h, h ∈ arr <-> is_active l h;
  qd_nodes : forall h t, timers l !! h = Some t -> is_Some (nodes (timer_heap l) !! h);
  qd_live : forall h t, timers l !! h = Some t -> uv__is_active t = true -> startable t }.

Definition timers_ok (l : uv_loop) : Prop := exists arr, queued l arr.

(** ** Stopping *)

(** The loop after [h] was stopped: only [h]'s flag, the heap and the count of
    active handles change. *)
Record stopped (l : uv_loop) (h : Z) (t : uv_timer) (l' : uv_loop) : Prop := {
  st_timers : timers l' = <[h := deactivate t]> (timers l);
  st_time : time l' = time l;
  st_counter : timer_counter l' = timer_counter l;
  st_queue : handle_queue l' = handle_queue l;
  st_handles : active_handles l' = if uv__is_active t && uv__has_ref t
                                   then wrapu 32 (active_handles l - 1) else active_handles l }.

Lemma timer_at_insert l h t x :
  timer_at (set_timer h t l) x = if decide (h = x) then t else timer_at l x.
Proof.
  unfold timer_at. cbn. case_decide as E; [subst; by rewrite lookup_insert_eq|by rewrite lookup_insert_ne].
Qed.

Lemma stop_spec l h t arr :
  queued l arr -> timers l !! h = Some t ->
  exists l' arr', uv_timer_stop l h = Some (0, l') /\ stopped l h t l' /\ queued l' arr' /\
    (uv__is_active t = true -> arr ≡ₚ h :: arr') /\ (uv__is_active t = false -> l' = l /\ arr' = arr).
Proof.
  intros Hq Ht. unfold uv_timer_stop. rewrite Ht. cbn [mbind option_bind].
  destruct (uv__is_active t) eqn:Ha; cbn [negb].
  2: { exists l, arr. split_and!; try done. split; try done; [|by rewrite Ha].
       rewrite deactivate_inactive by done. by rewrite insert_id. }
  destruct Hq as [Hrep Ho Hact Hnodes Hlive].
  destruct (heap_remove_spec (timer_less_than l) arr (timer_heap l) h Hrep Ho)
    as (arr' & hp & E & Hrep' & Hperm & Ho' & _); [apply Hact; eexists; done|].
  rewrite E. cbn [mbind option_bind]. unfold uv__handle_stop. cbn [set_heap timers].
  rewrite Ht. cbn [mbind option_bind]. rewrite Ha. cbn [negb]. fold (deactivate t).
  eexists _, arr'. split_and!; [reflexivity| | |done|done].
  - rewrite ref_deactivate. split; destruct (uv__has_ref t) eqn:Hr; rewrite ?Ha; done.
  - set (l1 := if uv__has_ref _ then _ else _).
    assert (timers l1 = <[h := deactivate t]> (timers l)) as Et by (subst l1; by case_match).
    assert (timer_heap l1 = hp) as Eh by (subst l1; by case_match).
    assert (NoDup (h :: arr')) as Hnd by (rewrite <- Hperm; apply Hrep).
    apply NoDup_cons in Hnd as [Hnot _].
    split; rewrite ?Eh.
    + done.
    + eapply ordered_ext; [|exact Ho']. intros x y _ _. symmetry. apply less_ext. intros x'.
      unfold timer_at. rewrite Et. destruct (decide (h = x')) as [<-|];
        [by rewrite lookup_insert_eq, Ht|by rewrite lookup_insert_ne].
    + intros x. unfold is_active. rewrite Et. destruct (decide (h = x)) as [<-|Hne].
      * rewrite lookup_insert_eq. split; [done|]. intros (t' & [= <-] & Ha').
        by rewrite active_deactivate in Ha'.
      * rewrite lookup_insert_ne by done. rewrite <- (Hact x), Hperm, elem_of_cons. intuition congruence.
    + intros x t' Hx. eapply remove_keeps; [exact E|]. rewrite Et in Hx.
      destruct (decide (h = x)) as [<-|Hne]; [by eapply Hnodes|].
      rewrite lookup_insert_ne in Hx by done. by eapply Hnodes.
    + intros x t' Hx Ha'. rewrite Et in Hx. destruct (decide (h = x)) as [<-|Hne].
      * rewrite lookup_insert_eq in Hx. injection Hx as <-. by rewrite active_deactivate in Ha'.
      * rewrite lookup_insert_ne in Hx by done. by eapply Hlive.
Qed.

(** ** Starting *)

(** The due time of a timer started now: it saturates. *)
Definition due_time (now tmo : Z) : Z := Z.min (now + tmo) (2 ^ 64 - 1).

Lemma clamped_due now tmo :
  in_u 64 now -> in_u 64 tmo ->
  (if wrapu 64 (now + tmo) <? tmo then 2 ^ 64 - 1 else wrapu 64 (now + tmo)) = due_time now tmo.
Proof.
  unfold in_u, due_time, wrapu. intros Hn Ht.
  destruct (decide (now + tmo < 2 ^ 64)).
  - rewrite (Z.mod_small (now + tmo)) by lia. destruct (Z.ltb_spec (now + tmo) tmo); lia.
  - assert ((now + tmo) mod 2 ^ 64 = now + tmo - 2 ^ 64) as ->
      by (symmetry; apply (Z.mod_unique _ _ 1); lia).
    destruct (Z.ltb_spec (now + tmo - 2 ^ 64) tmo); lia.
Qed.

Definition restarted (l : uv_loop) (t : uv_timer) (cb : Z) (tmo rep_ : Z) : uv_timer :=
  mk_timer (Z.lor (flags t) UV_HANDLE_ACTIVE) (Some cb) (due_time (time l) tmo) rep_ (timer_counter l).

Record started (l : uv_loop) (h : Z) (t : uv_timer) (cb tmo rep_ : Z) (l' : uv_loop) : Prop := {
  sd_timers : timers l' = <[h := restarted l t cb tmo rep_]> (timers l);
  sd_time : time l' = time l;
  sd_counter : timer_counter l' = wrapu 64 (timer_counter l + 1);
  sd_queue : handle_queue l' = handle_queue l;
  sd_handles : active_handles l' = if negb (uv__is_active t) && uv__has_ref t
                                   then wrapu 32 (active_handles l + 1) else active_handles l }.

Lemma flags_restart t : Z.lor (flags (deactivate t)) UV_HANDLE_ACTIVE = Z.lor (flags t) UV_HANDLE_ACTIVE.
Proof.
  cbn [deactivate set_flags flags]. apply Z.bits_inj'. intros i Hi.
  rewrite !Z.lor_spec, Z.land_spec, Z.lnot_spec by done.
  destruct (Z.testbit UV_HANDLE_ACTIVE i), (Z.testbit (flags t) i); done.
Qed.

(** Inserting an inactive timer [h] with new fields [t2]. *)
Lemma insert_timer l h t2 arr :
  queued l arr -> (h ∉ arr) -> is_Some (timers l !! h) -> Z.of_nat (S (length arr)) < 2 ^ 32 ->
  startable t2 ->
  forall l2, timers l2 = <[h := t2]> (timers l) -> timer_heap l2 = timer_heap l ->
  exists hp arr', heap_insert (timer_less_than l2) (timer_heap l2) h = Some hp /\
    arr' ≡ₚ h :: arr /\
    forall l3, timers l3 = <[h := activate t2]> (timers l) -> timer_heap l3 = hp -> queued l3 arr'.
Proof.
  intros [Hrep Ho Hact Hnodes Hlive] Hnot [t Ht] Hlt Hst l2 Et2 Eh2. rewrite Eh2.
  assert (forall x, h <> x -> timer_at l2 x = timer_at l x) as Hat.
  { intros x Hx. unfold timer_at. by rewrite Et2, lookup_insert_ne. }
  destruct (heap_insert_spec (timer_less_than l2) arr (timer_heap l) h)
    as (arr' & hp & E & Hrep' & Hperm & Ho' & _); [done| |done|by eapply Hnodes|done|].
  { eapply ordered_ext; [|exact Ho]. intros x y Hx Hy. unfold timer_less_than.
    rewrite !Hat by (intros ->; done). done. }
  exists hp, arr'. split_and!; [done|done|]. intros l3 Et3 Eh3. split; rewrite ?Eh3.
  - done.
  - eapply ordered_ext; [|exact Ho']. intros x y _ _. symmetry. apply less_ext. intros x'.
    unfold timer_at. rewrite Et3, Et2. destruct (decide (h = x')) as [<-|];
      [by rewrite !lookup_insert_eq|by rewrite !lookup_insert_ne].
  - intros x. unfold is_active. rewrite Et3, Hperm, elem_of_cons. destruct (decide (h = x)) as [<-|Hne].
    + rewrite lookup_insert_eq. split; [intros _; eexists; split; [done|apply active_activate]|by left].
    + rewrite lookup_insert_ne by done. rewrite <- (Hact x). intuition congruence.
  - intros x t' Hx. eapply insert_keeps; [exact E|]. rewrite Et3 in Hx.
    destruct (decide (h = x)) as [<-|Hne]; [by eapply Hnodes|].
    rewrite lookup_insert_ne in Hx by done. by eapply Hnodes.
  - intros x t' Hx Ha'. rewrite Et3 in Hx. destruct (decide (h = x)) as [<-|Hne].
    + rewrite lookup_insert_eq in Hx. injection Hx as <-. unfold startable.
      rewrite closing_activate. exact Hst.
    + rewrite lookup_insert_ne in Hx by done. by eapply Hlive.
Qed.

Lemma start_spec l h t arr cb tmo rep_ :
  queued l arr -> timers l !! h = Some t -> uv__is_closing t = false ->
  in_u 64 (time l) -> in_u 64 tmo -> in_u 64 rep_ -> in_u 32 (active_handles l) -> Z.of_nat (S (length arr)) < 2 ^ 32 ->
  exists l' arr', uv_timer_start l h (Some cb) tmo rep_ = Some (0, l') /\
    started l h t cb tmo rep_ l' /\ queued l' arr' /\ h ∈ arr' /\
    forall x, x <> h -> x ∈ arr' <-> x ∈ arr.
Proof.
  intros Hq Ht Hcl Htime Htmo Hrep_ Hah Hlt. unfold uv_timer_start. rewrite Ht. cbn [mbind option_bind].
  rewrite Hcl, bool_decide_eq_false_2 by done. cbn [orb].
  destruct (stop_spec l h t arr Hq Ht) as (l1 & arr1 & E1 & Hst & Hq1 & Hp1 & Hi1).
  assert ((if uv__is_active t then uv_timer_stop l h else Some (0, l)) = Some (0, l1)) as ->.
  { destruct (uv__is_active t) eqn:Ha; [done|]. by destruct (Hi1 eq_refl) as [-> _]. }
  cbn [mbind option_bind]. destruct Hst as [Et1 Etm1 Ec1 Eq1 Eh1].
  rewrite Et1, lookup_insert_eq. cbn [mbind option_bind]. rewrite Etm1, clamped_due by done.
  set (t2 := mk_timer (flags (deactivate t)) (Some cb) (due_time (time l) tmo) rep_ (timer_counter l1)).
  set (l2 := set_timer h t2 _).
  assert (h ∉ arr1) as Hnot.
  { rewrite (qd_active _ _ Hq1). intros (t' & Ht' & Ha'). rewrite Et1, lookup_insert_eq in Ht'.
    injection Ht' as <-. by rewrite active_deactivate in Ha'. }
  assert (length arr1 <= length arr)%nat as Hlen.
  { destruct (uv__is_active t) eqn:Ha; [rewrite (Hp1 eq_refl); cbn; lia|by destruct (Hi1 eq_refl) as [_ ->]]. }
  destruct (insert_timer l1 h t2 arr1 Hq1 Hnot) with (l2 := l2) as (hp & arr' & E2 & Hp2 & Hq2);
    [rewrite Et1, lookup_insert_eq; eauto|lia| |cbn; by rewrite Et1|done|].
  { split_and!; [by rewrite <- Hcl, <- (closing_deactivate t)|done| |done].
    unfold t2, due_time, in_u in *. cbn. lia. }
  rewrite E2. cbn [mbind option_bind]. unfold uv__handle_start.
  assert (timers (set_heap hp l2) !! h = Some t2) as Ht2 by (cbn; apply lookup_insert_eq).
  rewrite Ht2. cbn [mbind option_bind]. change (uv__is_active t2) with (uv__is_active (deactivate t)).
  rewrite active_deactivate. fold (activate t2).
  eexists _, arr'. split_and!; [reflexivity| | | |].
  - assert (activate t2 = restarted l t cb tmo rep_) as Ert.
    { unfold activate, restarted, set_flags. subst t2. cbn [flags timer_cb timeout repeat start_id].
      by rewrite flags_restart, Ec1. }
    assert (uv__has_ref (activate t2) = uv__has_ref t) as ->.
    { rewrite ref_activate. apply (ref_deactivate t). }
    split.
    + subst l2. destruct (uv__has_ref t); cbn [set_active_handles set_timer timers set_heap];
        by rewrite !insert_insert_eq, Ert.
    + by destruct (uv__has_ref t).
    + destruct (uv__has_ref t); cbn; by rewrite Ec1.
    + destruct (uv__has_ref t); cbn; by rewrite Eq1.
    + subst l2. destruct (uv__has_ref t); cbn [set_active_handles set_timer active_handles set_heap]; rewrite Eh1;
        destruct (uv__is_active t); cbn [andb negb]; try done.
      rewrite wrapu_add_sub by lia. by apply wrapu_id.
  - subst l2. apply Hq2; destruct (uv__has_ref (activate t2));
      cbn [set_active_handles set_timer timers timer_heap set_heap]; try done;
      by rewrite Et1, !insert_insert_eq.
  - rewrite Hp2. apply list_elem_of_here.
  - intros x Hx. rewrite Hp2, elem_of_cons. destruct (uv__is_active t) eqn:Ha.
    + rewrite (Hp1 eq_refl), elem_of_cons. intuition congruence.
    + destruct (Hi1 eq_refl) as [_ ->]. intuition congruence.
Qed.

(** ** The next timer *)

(** The earliest due time of the active timers decides how long to block:
    [-1] without any, 0 when one is due, at most [INT_MAX]. *)
Lemma next_timeout_spec l arr :
  queued l arr -> in_u 64 (time l) ->
  match arr with
  | [] => uv__next_timeout l = Some (-1)
  | h :: _ => exists t, timers l !! h = Some t /\
      (forall x tx, is_active l x -> timers l !! x = Some tx -> timeout t <= timeout tx) /\
      uv__next_timeout l = Some (Z.min INT_MAX (Z.max 0 (timeout t - time l)))
  end.
Proof.
  intros [Hrep Ho Hact Hnodes Hlive] Htime. unfold uv__next_timeout, heap_min.
  rewrite (rep_min _ _ Hrep). destruct arr as [|h arr]; [done|]. cbn [item lookup list_lookup].
  assert (is_active l h) as (t & Ht & Ha) by (apply Hact, list_elem_of_here).
  exists t. rewrite Ht. split; [done|]. split.
  - intros x tx Hx Htx. apply Hact in Hx.
    pose proof (ordered_min (timer_less_than l) (h :: arr) h Ho eq_refl x Hx) as Hmin.
    unfold timer_less_than, timer_at in Hmin. rewrite Ht, Htx in Hmin. cbn in Hmin.
    destruct (Z.ltb_spec (timeout tx) (timeout t)); [done|lia].
  - cbn [mbind option_bind]. destruct (Hlive h t Ht Ha) as (_ & _ & Hto & _). unfold in_u, INT_MAX in *.
    destruct (Z.leb_spec (timeout t) (time l)).
    + f_equal. lia.
    + rewrite wrapu_id by (unfold in_u; lia).
      destruct (Z.ltb_spec (2 ^ 31 - 1) (timeout t - time l)); f_equal; lia.
Qed.

(** ** Firing *)

(** What firing leaves of a timer: stopped, or armed again. *)
Definition refired (l : uv_loop) (t : uv_timer) : uv_timer :=
  if repeat t =? 0 then deactivate t
  else mk_timer (Z.lor (flags t) UV_HANDLE_ACTIVE) (timer_cb t) (due_time (time l) (repeat t))
                (repeat t) (timer_counter l).

(** The values of a loop the operations compute with. *)
Definition loop_ok (l : uv_loop) (arr : list Z) : Prop :=
  queued l arr /\ in_u 64 (time l) /\ in_u 32 (active_handles l) /\ Z.of_nat (S (length arr)) < 2 ^ 32.

Lemma stopped_handles l h t l' : stopped l h t l' -> in_u 32 (active_handles l) -> in_u 32 (active_handles l').
Proof. intros Hs Hh. rewrite (st_handles _ _ _ _ Hs). case_match; [by apply (wrapu_range 32)|done]. Qed.

Lemma started_handles l h t cb a b l' :
  started l h t cb a b l' -> in_u 32 (active_handles l) -> in_u 32 (active_handles l').
Proof. intros Hs Hh. rewrite (sd_handles _ _ _ _ _ _ _ Hs). case_match; [by apply (wrapu_range 32)|done]. Qed.

Lemma members_length (l1 l2 : list Z) : NoDup l1 -> (forall x, x ∈ l1 -> x ∈ l2) -> (length l1 <= length l2)%nat.
Proof. intros Hn Hs. by apply NoDup_incl_length; [apply NoDup_ListNoDup|intros x; rewrite <- !list_elem_of_In; apply Hs]. Qed.

(** [uv_timer_stop(handle); uv_timer_again(handle);]. *)
Lemma stop_again_spec l arr h t :
  loop_ok l arr -> timers l !! h = Some t -> uv__is_active t = true ->
  exists l1 l2 arr2, uv_timer_stop l h = Some (0, l1) /\ uv_timer_again l1 h = Some (0, l2) /\
    loop_ok l2 arr2 /\ time l2 = time l /\ timers l2 = <[h := refired l t]> (timers l) /\
    (forall x, x ∈ arr2 <-> (x <> h /\ x ∈ arr) \/ (x = h /\ repeat t <> 0)).
Proof.
  intros (Hq & Htime & Hah & Hlen) Ht Ha.
  destruct (qd_live _ _ Hq h t Ht Ha) as (Hcl & Hcb & Hto & Hrp).
  destruct (timer_cb t) as [cb|] eqn:Ecb; [|done].
  destruct (stop_spec l h t arr Hq Ht) as (l1 & arr1 & E1 & Hst & Hq1 & Hp1 & _).
  specialize (Hp1 Ha).
  assert (NoDup (h :: arr1)) as Hnd by (rewrite <- Hp1; apply Hq). apply NoDup_cons in Hnd as [Hnot _].
  assert (timers l1 !! h = Some (deactivate t)) as Ht1 by (rewrite (st_timers _ _ _ _ Hst); apply lookup_insert_eq).
  assert (length arr = S (length arr1)) as El by (by rewrite Hp1).
  exists l1. unfold uv_timer_again. rewrite Ht1. cbn [mbind option_bind].
  change (timer_cb (deactivate t)) with (timer_cb t). change (repeat (deactivate t)) with (repeat t).
  rewrite Ecb, bool_decide_eq_false_2 by done. unfold refired.
  destruct (Z.eqb_spec (repeat t) 0) as [Er|Er]; cbn [negb].
  - exists l1, arr1. split_and!; [done|done| |apply Hst|apply Hst|].
    + split_and!; [done|by rewrite (st_time _ _ _ _ Hst)|by eapply stopped_handles|lia].
    + intros x. rewrite Hp1, elem_of_cons. intuition congruence.
  - destruct (stop_spec l1 h (deactivate t) arr1 Hq1 Ht1) as (l1' & arr1' & E1' & _ & _ & _ & Hi).
    destruct (Hi (active_deactivate t)) as [-> _]. rewrite E1'. cbn [mbind option_bind].
    rewrite Ht1. cbn [mbind option_bind].
    change (timer_cb (deactivate t)) with (timer_cb t). change (repeat (deactivate t)) with (repeat t).
    rewrite Ecb.
    destruct (start_spec l1 h (deactivate t) arr1 cb (repeat t) (repeat t) Hq1 Ht1)
      as (l2 & arr2 & E2 & Hsd & Hq2 & Hin & Hmem);
      [by rewrite closing_deactivate|by rewrite (st_time _ _ _ _ Hst)|done|done|by eapply stopped_handles|lia|].
    rewrite E2. cbn [mbind option_bind]. exists l2, arr2.
    assert (forall x, x ∈ arr2 <-> (x <> h /\ x ∈ arr) \/ (x = h /\ repeat t <> 0)) as Hm2.
    { intros x. rewrite Hp1, elem_of_cons. destruct (decide (x = h)) as [->|Hne]; [tauto|].
      rewrite (Hmem x Hne). tauto. }
    split_and!; [done|done| | | |done].
    + split_and!; [done|by rewrite (sd_time _ _ _ _ _ _ _ Hsd), (st_time _ _ _ _ Hst)| |].
      * eapply started_handles; [exact Hsd|]. by eapply stopped_handles.
      * assert (length arr2 <= length arr)%nat; [|lia]. apply members_length; [apply Hq2|].
        intros x. rewrite Hm2, Hp1, elem_of_cons. tauto.
    + by rewrite (sd_time _ _ _ _ _ _ _ Hsd), (st_time _ _ _ _ Hst).
    + rewrite (sd_timers _ _ _ _ _ _ _ Hsd), (st_timers _ _ _ _ Hst), insert_insert_eq. f_equal.
      unfold restarted. by rewrite flags_restart, (st_time _ _ _ _ Hst), (st_counter _ _ _ _ Hst).
Qed.

Definition due (l : uv_loop) (h : Z) : bool := timeout (timer_at l h) <=? time l.

(** The order of firing: by due time, then by the order of starting. *)
Definition fires_before (l : uv_loop) (x y : Z) : Prop := timer_less_than l y x = false.

Lemma sorted_ext {A} (R1 R2 : A -> A -> Prop) (l : list A) :
  (forall x y, x ∈ l -> y ∈ l -> R1 x y -> R2 x y) -> StronglySorted R1 l -> StronglySorted R2 l.
Proof.
  induction l as [|a l IH]; intros HR Hs; [constructor|]. inversion Hs as [|? ? Hs' Ha]; subst.
  constructor.
  - apply IH; [|done]. intros. apply HR; try by apply list_elem_of_further. done.
  - apply Forall_forall. intros x Hx. rewrite Forall_forall in Ha.
    apply HR; [apply list_elem_of_here|by apply list_elem_of_further|by apply Ha].
Qed.

Lemma queued_ext l l' arr :
  queued l arr -> timers l' = timers l -> timer_heap l' = timer_heap l -> queued l' arr.
Proof.
  intros [H1 H2 H3 H4 H5] Et Eh. split; rewrite ?Et, ?Eh; try done.
  - eapply ordered_ext; [|exact H2]. intros. symmetry. apply less_ext. intros x'.
    unfold timer_at. by rewrite Et.
  - unfold is_active. rewrite Et. apply H3.
Qed.

Section Run.
Context (callback : Z -> Z -> uv_loop -> option uv_loop).

(** A callback that starts and stops no timer and does not move the clock. *)
Hypothesis passive : forall cb h l, exists l', callback cb h l = Some l' /\
  time l' = time l /\ timer_heap l' = timer_heap l /\ timers l' = timers l /\
  (in_u 32 (active_handles l) -> in_u 32 (active_handles l')).

(** The first timer is not due: none is. *)
Lemma none_due l h arr t :
  queued l (h :: arr) -> timers l !! h = Some t -> time l < timeout t ->
  forall x, x ∈ h :: arr -> due l x = false.
Proof.
  intros Hq Ht Hlt x Hx.
  pose proof (ordered_min (timer_less_than l) (h :: arr) h (qd_ordered _ _ Hq) eq_refl x Hx) as Hmin.
  unfold due. apply Z.leb_gt. unfold timer_less_than in Hmin.
  replace (timer_at l h) with t in Hmin by (unfold timer_at; by rewrite Ht).
  destruct (Z.ltb_spec (timeout (timer_at l x)) (timeout t)); [done|lia].
Qed.

(** One round fires the first timer, which is then not due any more. *)
Lemma run_timer_spec l h arr :
  loop_ok l (h :: arr) -> time l < 2 ^ 64 - 1 -> due l h = true ->
  exists t l3 arr3, timers l !! h = Some t /\ run_timer callback l = Some (Some (h, l3)) /\
    loop_ok l3 arr3 /\ time l3 = time l /\ timers l3 = <[h := refired l t]> (timers l) /\
    (forall x, x ∈ arr3 <-> (x <> h /\ x ∈ h :: arr) \/ (x = h /\ repeat t <> 0)) /\
    (h ∈ arr3 -> due l3 h = false) /\ (forall x, x <> h -> timer_at l3 x = timer_at l x).
Proof.
  intros Hok Hmax Hdue. pose proof Hok as (Hq & Htime & _).
  destruct (proj1 (qd_active _ _ Hq h)) as (t & Ht & Ha); [apply list_elem_of_here|].
  destruct (qd_live _ _ Hq h t Ht Ha) as (_ & Hcb & _ & Hrp).
  destruct (stop_again_spec l _ h t Hok Ht Ha) as (l1 & l2 & arr2 & E1 & E2 & Hok2 & Etm & Et2 & Hm).
  exists t. unfold run_timer, heap_min. rewrite (rep_min _ _ (qd_rep _ _ Hq)).
  cbn [item lookup list_lookup]. rewrite Ht. cbn [mbind option_bind].
  unfold due, timer_at in Hdue. rewrite Ht in Hdue. cbn in Hdue. apply Z.leb_le in Hdue.
  rewrite (proj2 (Z.ltb_ge _ _)) by done. rewrite E1. cbn [mbind option_bind].
  rewrite E2. cbn [mbind option_bind]. rewrite Et2, lookup_insert_eq. cbn [mbind option_bind].
  assert (timer_cb (refired l t) = timer_cb t) as -> by (unfold refired; by destruct (_ =? _)).
  destruct (timer_cb t) as [cb|]; [|done]. cbn [mbind option_bind].
  destruct (passive cb h l2) as (l3 & E3 & Etm3 & Eh3 & Et3 & Hah3). rewrite E3. cbn [mbind option_bind].
  exists l3, arr2. split_and!; [done|done| |congruence|by rewrite Et3|done| |].
  - destruct Hok2 as (Hq2 & ? & ? & ?). split_and!; [by eapply queued_ext|congruence|by apply Hah3|done].
  - rewrite Hm. intros [[? _]|[_ Hr]]; [done|]. unfold due, timer_at.
    rewrite Et3, Et2, lookup_insert_eq, Etm3, Etm. cbn. unfold refired.
    rewrite (proj2 (Z.eqb_neq _ _)) by done. cbn [timeout]. apply Z.leb_gt.
    unfold due_time, in_u in *. lia.
  - intros x Hx. unfold timer_at. by rewrite Et3, Et2, lookup_insert_ne.
Qed.

(** What a run of the timers does: the due timers fire, each once, in order;
    none is due afterwards; a timer that fired is stopped, or armed again when
    it repeats; the others are as before. *)
Record ran (l : uv_loop) (arr fired : list Z) (l' : uv_loop) (arr' : list Z) : Prop := {
  ran_ok : loop_ok l' arr';
  ran_time : time l' = time l;
  ran_fired : fired ≡ₚ filter (fun h => due l h = true) arr;
  ran_sorted : StronglySorted (fires_before l) fired;
  ran_done : forall x, x ∈ arr' -> due l' x = false;
  ran_others : forall x, x ∉ fired -> timers l' !! x = timers l !! x;
  ran_rearmed : forall x t, x ∈ fired -> timers l !! x = Some t ->
    exists t', timers l' !! x = Some t' /\ uv__is_active t' = negb (repeat t =? 0) /\
      (repeat t <> 0 -> timeout t' = due_time (time l) (repeat t)) }.

Lemma ran_nothing l arr : loop_ok l arr -> (forall x, x ∈ arr -> due l x = false) -> ran l arr [] l arr.
Proof.
  intros Hok Hnone. split; try done.
  - replace (filter _ arr) with (@nil Z); [done|]. revert Hnone. clear. intros Hnone.
    induction arr as [|a arr IH]; [done|]. rewrite filter_cons, decide_False.
    + apply IH. intros x Hx. by apply Hnone, list_elem_of_further.
    + rewrite Hnone by apply list_elem_of_here. done.
  - constructor.
  - by intros x t Hx%elem_of_nil.
Qed.

Lemma active_refired l t : uv__is_active (refired l t) = negb (repeat t =? 0).
Proof.
  unfold refired. destruct (repeat t =? 0); [apply active_deactivate|].
  rewrite is_active_bit. cbn [flags]. rewrite Z.lor_spec. apply orb_true_r.
Qed.

Lemma ran_cons l h arr t l3 arr3 fired l' arr' :
  loop_ok l (h :: arr) -> due l h = true -> timers l !! h = Some t ->
  time l3 = time l -> timers l3 = <[h := refired l t]> (timers l) ->
  filter (fun x => due l x = true) (h :: arr) ≡ₚ h :: filter (fun x => due l3 x = true) arr3 ->
  (h ∉ filter (fun x => due l3 x = true) arr3) ->
  ran l3 arr3 fired l' arr' -> ran l (h :: arr) (h :: fired) l' arr'.
Proof.
  intros (Hq & _) Hdue Ht Etm Et Hperm Hnot [R1 R2 R3 R4 R5 R6 R7].
  assert (h ∉ fired) as Hnf by (by rewrite R3).
  assert (forall x, x ∈ fired -> x <> h) as Hne by (intros x Hx ->; done).
  assert (forall x, x <> h -> timer_at l3 x = timer_at l x) as Hat
    by (intros x Hx; unfold timer_at; by rewrite Et, lookup_insert_ne).
  split.
  - done.
  - congruence.
  - by rewrite R3, Hperm.
  - constructor.
    + eapply sorted_ext; [|exact R4]. intros x y Hx%Hne Hy%Hne. unfold fires_before, timer_less_than.
      by rewrite !Hat.
    + apply Forall_forall. intros x Hx. apply (ordered_min _ (h :: arr) h (qd_ordered _ _ Hq) eq_refl).
      assert (x ∈ filter (fun x => due l x = true) (h :: arr)) as Hin
        by (rewrite Hperm, <- R3; by apply list_elem_of_further).
      by apply list_elem_of_filter in Hin as [_ ?].
  - done.
  - intros x [Hxh Hxf]%not_elem_of_cons. by rewrite R6, Et, lookup_insert_ne.
  - intros x tx Hx Htx. apply elem_of_cons in Hx as [->|Hx].
    + assert (tx = t) as -> by congruence. exists (refired l t).
      rewrite R6, Et, lookup_insert_eq, active_refired by done. split_and!; [done|done|].
      intros Hr. unfold refired. by rewrite (proj2 (Z.eqb_neq _ _)).
    + rewrite <- Etm. apply R7; [done|]. rewrite Et, lookup_insert_ne; [done|].
      intros ->. done.
Qed.

Lemma run_timers_spec fuel : forall l arr,
  loop_ok l arr -> time l < 2 ^ 64 - 1 -> (length (filter (fun h => due l h = true) arr) <= fuel)%nat ->
  exists fired l' arr', uv__run_timers callback fuel l = Some (fired, l') /\ ran l arr fired l' arr'.
Proof.
  induction fuel as [fuel IH] using lt_wf_ind. intros l arr Hok Hmax Hlen. pose proof Hok as (Hq & _).
  destruct arr as [|h arr].
  { exists [], l, []. split; [|by apply ran_nothing; [|intros x ?%elem_of_nil]].
    assert (run_timer callback l = Some None) as E
      by (unfold run_timer, heap_min; by rewrite (rep_min _ _ (qd_rep _ _ Hq))).
    destruct fuel; cbn [uv__run_timers]; by rewrite E. }
  destruct (proj1 (qd_active _ _ Hq h)) as (t & Ht & Ha); [apply list_elem_of_here|].
  destruct (due l h) eqn:Hdue.
  - destruct (run_timer_spec l h arr Hok Hmax Hdue)
      as (t' & l3 & arr3 & Ht' & E & Hok3 & Etm & Et & Hm & Hnd & Hat).
    assert (t' = t) as -> by congruence.
    assert (h ∉ filter (fun x => due l3 x = true) arr3) as Hnot.
    { intros [Hd Hin]%list_elem_of_filter. by rewrite (Hnd Hin) in Hd. }
    assert (filter (fun x => due l x = true) (h :: arr) ≡ₚ h :: filter (fun x => due l3 x = true) arr3) as Hperm.
    { destruct Hok3 as (Hq3 & _). apply NoDup_Permutation.
      - apply NoDup_filter, Hq.
      - constructor; [done|]. apply NoDup_filter, Hq3.
      - intros x. rewrite elem_of_cons, !list_elem_of_filter, Hm.
        destruct (decide (x = h)) as [->|Hx]; [rewrite elem_of_cons; tauto|].
        assert (due l3 x = due l x) as -> by (unfold due; by rewrite Hat, Etm). tauto. }
    assert (length (filter (fun x => due l3 x = true) arr3) < length (filter (fun x => due l x = true) (h :: arr)))%nat
      as Hdec by (rewrite Hperm; cbn; lia).
    destruct fuel as [|fuel]; [lia|].
    destruct (IH fuel ltac:(lia) l3 arr3 Hok3 ltac:(lia) ltac:(lia)) as (fired & l' & arr' & Er & Hran).
    exists (h :: fired), l', arr'. split.
    + cbn [uv__run_timers]. rewrite E. cbn [mbind option_bind]. rewrite Er. done.
    + by eapply ran_cons.
  - assert (time l < timeout t) as Hlt.
    { unfold due, timer_at in Hdue. rewrite Ht in Hdue. cbn in Hdue. by apply Z.leb_gt in Hdue. }
    exists [], l, (h :: arr). split; [|by apply ran_nothing; [|apply (none_due l h arr t)]].
    assert (run_timer callback l = Some None) as E.
    { unfold run_timer, heap_min. rewrite (rep_min _ _ (qd_rep _ _ Hq)). cbn [item lookup list_lookup].
      rewrite Ht. cbn [mbind option_bind]. by rewrite (proj2 (Z.ltb_lt _ _)). }
    destruct fuel; cbn [uv__run_timers]; by rewrite E.
Qed.
End Run.
