(* ===== verification/UvTheorems.v ===== *)
(** * libuv: the properties of the heap and of the timers

    The heap is a priority queue that never follows a null pointer; timers
    fire in order, once per due time, and the loop never sleeps past one. *)
From stdpp Require Import sorting.
From S2P Require Import Prelude UvHeap UvHeapSpec UvTimer UvTimerSpec.

(** ** Deciding the representation of a concrete heap *)

Definition check_rep (l : list Z) (h : heap) : bool :=
  bool_decide (min h = item l 1) && (nelts h =? Z.of_nat (length l)) &&
  (Z.of_nat (length l) <? 2 ^ 32) && bool_decide (NoDup l) &&
  forallb (fun i => match item l i with
                    | Some x => bool_decide (nodes h !! x = Some (node_of l i))
                    | None => true
                    end) (seq 1 (length l)).

Lemma check_rep_sound l h : check_rep l h = true -> rep l h.
Proof.
  unfold check_rep. rewrite !andb_true_iff.
  intros [[[[H1%bool_decide_eq_true H2%Z.eqb_eq] H3%Z.ltb_lt] H4%bool_decide_eq_true] H5].
  split; try done. intros i x Hx. rewrite forallb_forall in H5.
  specialize (H5 i). rewrite Hx in H5. apply (bool_decide_eq_true_1 _), H5, list_elem_of_In, elem_of_seq.
  pose proof (item_Some _ _ _ Hx). lia.
Qed.

Definition check_ordered (less : Z -> Z -> bool) (l : list Z) : bool :=
  forallb (fun i => match item l i, item l (i / 2) with
                    | Some x, Some y => negb (less x y)
                    | _, _ => true
                    end) (seq 1 (length l)).

Lemma check_ordered_sound less l : check_ordered less l = true -> ordered less l.
Proof.
  unfold check_ordered. rewrite forallb_forall. intros H i x y Hx Hy. specialize (H i).
  rewrite Hx, Hy in H. apply negb_true_iff, H, list_elem_of_In, elem_of_seq.
  pose proof (item_Some _ _ _ Hx). lia.
Qed.

#[export] Instance ltb_strict_weak : StrictWeak Z.ltb.
Proof. split; intros; lia. Qed.

(** Three nodes ordered by their address, and a fourth one outside. *)
Definition sample_heap : heap :=
  mk_heap (Some 1) 3
    {[ 1 := mk_node (Some 7) (Some 5) None; 7 := mk_node None None (Some 1);
       5 := mk_node None None (Some 1); 3 := mk_node None None None ]}.

(** ** The heap *)

(**  [heap_insert] of a node that is not in the heap: the linked structure
    is again a complete binary tree in heap order, its nodes are the old ones
    and the new one, no node outside changes, and no null pointer is followed. *)
Theorem insert_correct (less : Z -> Z -> bool) `{SW : !StrictWeak less} l h x :
  rep l h -> ordered less l -> (x ∉ l) -> is_Some (nodes h !! x) ->
  Z.of_nat (S (length l)) < 2 ^ 32 ->
  exists l' h', heap_insert less h x = Some h' /\ rep l' h' /\ l' ≡ₚ x :: l /\ ordered less l' /\
    same_outside (x :: l) h h'.
Proof. apply heap_insert_spec. done. Qed.

Lemma insert_correct_witness :
  exists l' h', heap_insert Z.ltb sample_heap 3 = Some h' /\ rep l' h' /\ l' ≡ₚ 3 :: [1; 7; 5] /\
    ordered Z.ltb l' /\ same_outside (3 :: [1; 7; 5]) sample_heap h'.
Proof.
  apply (insert_correct Z.ltb [1; 7; 5] sample_heap 3).
  - apply check_rep_sound. vm_compute. reflexivity.
  - apply check_ordered_sound. vm_compute. reflexivity.
  - apply (bool_decide_unpack _). vm_compute. exact I.
  - eexists. vm_compute. reflexivity.
  - cbn. lia.
Defined.

(** C4.  [heap_remove] of any node of the heap, not only of the minimum: what
    is left are the other nodes, again a complete tree in heap order. *)
Theorem remove_correct (less : Z -> Z -> bool) `{SW : !StrictWeak less} l h node :
  rep l h -> ordered less l -> node ∈ l ->
  exists l' h', heap_remove less h node = Some h' /\ rep l' h' /\ l ≡ₚ node :: l' /\
    ordered less l' /\ same_outside l h h'.
Proof. apply heap_remove_spec. done. Qed.

Lemma remove_correct_witness :
  exists l' h', heap_remove Z.ltb sample_heap 1 = Some h' /\ rep l' h' /\ [1; 7; 5] ≡ₚ 1 :: l' /\
    ordered Z.ltb l' /\ same_outside [1; 7; 5] sample_heap h'.
Proof.
  apply (remove_correct Z.ltb [1; 7; 5] sample_heap 1).
  - apply check_rep_sound. vm_compute. reflexivity.
  - apply check_ordered_sound. vm_compute. reflexivity.
  - apply list_elem_of_here.
Defined.

(** ** Timers *)

(** A loop at time 100 with an active timer 1 due at 100, an active repeating
    timer 2 due at 90 and an inactive timer 3. *)
Definition sample_loop : uv_loop :=
  mk_loop 100 7 2
    (mk_heap (Some 2) 2 {[ 1 := mk_node None None (Some 2); 2 := mk_node (Some 1) None None;
                           3 := mk_node None None None ]})
    {[ 1 := mk_timer 12 (Some 11) 100 0 5; 2 := mk_timer 12 (Some 12) 90 50 6;
       3 := mk_timer 8 None 0 0 0 ]} [1; 2; 3].

Lemma sample_queued : queued sample_loop [2; 1].
Proof.
  assert (forall h t, timers sample_loop !! h = Some t ->
            (h = 1 /\ t = mk_timer 12 (Some 11) 100 0 5) \/ (h = 2 /\ t = mk_timer 12 (Some 12) 90 50 6) \/
            (h = 3 /\ t = mk_timer 8 None 0 0 0)) as Hall.
  { intros h t Ht. cbn in Ht. rewrite !lookup_insert in Ht. repeat case_decide; subst; try done.
    - left. by injection Ht as <-.
    - right. left. by injection Ht as <-.
    - rewrite lookup_singleton in Ht. case_decide; [|done]. subst. injection Ht as <-. auto. }
  split.
  - apply check_rep_sound. vm_compute. reflexivity.
  - apply check_ordered_sound. vm_compute. reflexivity.
  - intros h. rewrite !elem_of_cons, elem_of_nil. split.
    + intros [->|[->|[]]]; eexists; (split; [vm_compute; reflexivity|reflexivity]).
    + intros (t & Ht & Ha). destruct (Hall h t Ht) as [[-> _]|[[-> _]|[-> ->]]]; [auto..|done].
  - intros h t Ht. destruct (Hall h t Ht) as [[-> _]|[[-> _]|[-> _]]]; eexists; vm_compute; reflexivity.
  - intros h t Ht Ha. destruct (Hall h t Ht) as [[_ ->]|[[_ ->]|[_ ->]]]; [| |done];
      (split_and!; [done|done|cbn; unfold in_u; lia..]).
Qed.

(** C5.  [uv_timer_start], on an active timer too: the due time is the loop's
    time plus the timeout, saturating at [UINT64_MAX] instead of wrapping, the
    timer takes the next start id, it is in the queue, every other timer is
    untouched, the queue stays a correct priority queue of the active timers,
    and the loop counts one more active handle exactly when the timer was
    inactive and referenced. *)
Theorem timer_start_correct l h t arr cb tmo rep_ :
  queued l arr -> timers l !! h = Some t -> uv__is_closing t = false ->
  in_u 64 (time l) -> in_u 64 tmo -> in_u 64 rep_ -> in_u 32 (active_handles l) ->
  Z.of_nat (S (length arr)) < 2 ^ 32 ->
  exists l' arr', uv_timer_start l h (Some cb) tmo rep_ = Some (0, l') /\
    started l h t cb tmo rep_ l' /\ queued l' arr' /\ h ∈ arr' /\
    forall x, x <> h -> x ∈ arr' <-> x ∈ arr.
Proof. apply start_spec. Qed.

Lemma timer_start_correct_witness :
  exists l' arr', uv_timer_start sample_loop 3 (Some 13) (2 ^ 64 - 50) 0 = Some (0, l') /\
    started sample_loop 3 (mk_timer 8 None 0 0 0) 13 (2 ^ 64 - 50) 0 l' /\ queued l' arr' /\ 3 ∈ arr' /\
    forall x, x <> 3 -> x ∈ arr' <-> x ∈ [2; 1].
Proof.
  apply (timer_start_correct sample_loop 3 (mk_timer 8 None 0 0 0) [2; 1] 13 (2 ^ 64 - 50) 0 sample_queued);
    [vm_compute; reflexivity..|unfold in_u; cbn; lia|unfold in_u; lia|unfold in_u; lia|unfold in_u; cbn; lia|cbn; lia].
Defined.

(**  [uv_timer_stop] always returns 0.  An active timer leaves the queue
    and nothing else does; the loop counts one active handle less when the
    timer is referenced.  Stopping an inactive timer changes nothing. *)
Theorem timer_stop_correct l h t arr :
  queued l arr -> timers l !! h = Some t ->
  exists l' arr', uv_timer_stop l h = Some (0, l') /\ stopped l h t l' /\ queued l' arr' /\
    (uv__is_active t = true -> arr ≡ₚ h :: arr') /\ (uv__is_active t = false -> l' = l /\ arr' = arr).
Proof. apply stop_spec. Qed.

Lemma timer_stop_correct_witness :
  exists l' arr', uv_timer_stop sample_loop 2 = Some (0, l') /\
    stopped sample_loop 2 (mk_timer 12 (Some 12) 90 50 6) l' /\ queued l' arr' /\
    (uv__is_active (mk_timer 12 (Some 12) 90 50 6) = true -> [2; 1] ≡ₚ 2 :: arr') /\
    (uv__is_active (mk_timer 12 (Some 12) 90 50 6) = false -> l' = sample_loop /\ arr' = [2; 1]).
Proof. apply (timer_stop_correct _ _ _ _ sample_queued). vm_compute. reflexivity. Defined.

(**  [uv__next_timeout] is -1 when no timer is active; otherwise it is the
    time to the earliest due time of all active timers, 0 when that is past
    and at most [INT_MAX]: the loop never blocks past a timer. *)
Theorem next_timeout_correct l arr :
  queued l arr -> in_u 64 (time l) ->
  match arr with
  | [] => uv__next_timeout l = Some (-1)
  | h :: _ => exists t, timers l !! h = Some t /\
      (forall x tx, is_active l x -> timers l !! x = Some tx -> timeout t <= timeout tx) /\
      uv__next_timeout l = Some (Z.min INT_MAX (Z.max 0 (timeout t - time l)))
  end.
Proof. apply next_timeout_spec. Qed.

Lemma next_timeout_correct_witness :
  uv__next_timeout sample_loop = Some 0 /\
  exists t, timers sample_loop !! 2 = Some t /\
      (forall x tx, is_active sample_loop x -> timers sample_loop !! x = Some tx -> timeout t <= timeout tx) /\
      uv__next_timeout sample_loop = Some (Z.min INT_MAX (Z.max 0 (timeout t - time sample_loop))).
Proof.
  split; [vm_compute; reflexivity|].
  apply (next_timeout_correct sample_loop [2; 1] sample_queued). unfold in_u. cbn. lia.
Defined.

(** C6.  [uv__run_timers], when the callbacks leave the timers alone: it
    returns, the timers that fire are exactly the due ones, each once, ordered
    by due time and then by start id; a timer that fired is stopped, or due
    again one repeat interval later; no timer is due afterwards. *)
Theorem run_timers_correct (callback : Z -> Z -> uv_loop -> option uv_loop)
  (passive : forall cb h l, exists l', callback cb h l = Some l' /\
     time l' = time l /\ timer_heap l' = timer_heap l /\ timers l' = timers l /\
     (in_u 32 (active_handles l) -> in_u 32 (active_handles l'))) l arr :
  loop_ok l arr -> time l < 2 ^ 64 - 1 ->
  exists fired l' arr', uv__run_timers callback (length arr) l = Some (fired, l') /\
    ran l arr fired l' arr'.
Proof.
  intros Hok Hmax. apply (run_timers_spec callback passive); [done|done|].
  apply length_filter.
Qed.

Lemma run_timers_correct_witness :
  exists fired l' arr', uv__run_timers (fun _ _ l => Some l) 2 sample_loop = Some (fired, l') /\
    ran sample_loop [2; 1] fired l' arr'.
Proof.
  apply (run_timers_correct (fun _ _ l => Some l)) with (arr := [2; 1]).
  - intros _ _ l. exists l. split_and!; [reflexivity..|exact (fun H => H)].
  - split_and!; [exact sample_queued|unfold in_u; cbn; lia|unfold in_u; cbn; lia|cbn; lia].
  - cbn. lia.
Defined.
