(* ===== verification/Base64.v ===== *)
(** * BoringSSL: base64 ([crypto/base64/base64.c])

    The constant-time table look-ups of [crypto/internal.h] on 64-bit words,
    block and streaming encoding and decoding.  Inputs are lists of bytes, the
    output array is a [CBuf] buffer with the index where [out] points. *)
From S2P Require Import Prelude CBuf.

(** ** Constant-time words ([crypto/internal.h]) *)

Definition constant_time_msb_w (a : Z) : Z := u64 (0 - Z.shiftr a 63).

Definition constant_time_is_zero_w (a : Z) : Z :=
  constant_time_msb_w (Z.land (u64 (Z.lnot a)) (u64 (a - 1))).

Definition constant_time_eq_w (a b : Z) : Z := constant_time_is_zero_w (Z.lxor a b).
Definition constant_time_eq_8 (a b : Z) : Z := u8 (constant_time_eq_w a b).

Definition constant_time_select_w (mask a b : Z) : Z :=
  Z.lor (Z.land mask a) (Z.land (u64 (Z.lnot mask)) b).

Definition constant_time_select_8 (mask a b : Z) : Z := u8 (constant_time_select_w mask a b).

Definition constant_time_lt_args_8 (a b : Z) : Z := u8 (constant_time_msb_w (u64 (a - b))).

Definition constant_time_in_range_8 (a mn mx : Z) : Z :=
  constant_time_lt_args_8 (u8 (a - mn)) (u8 (mx - mn + 1)).

(** ** The alphabet *)

Definition conv_bin2ascii (a0 : Z) : Z :=
  let a := Z.land a0 0x3f in
  let ret := constant_time_select_8 (constant_time_eq_8 a 62) 43 47 in
  let ret := constant_time_select_8 (constant_time_lt_args_8 a 62) (u8 (a - 52 + 48)) ret in
  let ret := constant_time_select_8 (constant_time_lt_args_8 a 52) (u8 (a - 26 + 97)) ret in
  constant_time_select_8 (constant_time_lt_args_8 a 26) (u8 (a + 65)) ret.

Definition base64_ascii_to_bin (a : Z) : Z :=
  let is_upper := constant_time_in_range_8 a 65 90 in
  let is_lower := constant_time_in_range_8 a 97 122 in
  let is_digit := constant_time_in_range_8 a 48 57 in
  let is_plus := constant_time_eq_8 a 43 in
  let is_slash := constant_time_eq_8 a 47 in
  let is_equals := constant_time_eq_8 a 61 in
  let ret := u8 (Z.land is_upper (a - 65)) in
  let ret := u8 (Z.lor ret (Z.land is_lower (a - 97 + 26))) in
  let ret := u8 (Z.lor ret (Z.land is_digit (a - 48 + 52))) in
  let ret := u8 (Z.lor ret (Z.land is_plus 62)) in
  let ret := u8 (Z.lor ret (Z.land is_slash 63)) in
  let is_valid := Z.lor (Z.lor (Z.lor (Z.lor (Z.lor is_upper is_lower) is_digit) is_plus) is_slash)
                        is_equals in
  u8 (Z.lor ret (Z.lnot is_valid)).

(** ** Lengths *)

(** The result is the return value and what [*out_len] is set to, if it is. *)
Definition EVP_EncodedLength (len : Z) : option Z :=
  if u64 (len + 2) <? len then None
  else
    let len := u64 (len + 2) / 3 in
    if negb (Z.shiftr (u64 (Z.shiftl len 2)) 2 =? len) then None
    else
      let len := u64 (Z.shiftl len 2) in
      if u64 (len + 1) <? len then None
      else Some (u64 (len + 1)).

Definition EVP_DecodedLength (len : Z) : option Z :=
  if negb (len mod 4 =? 0) then None else Some (u64 (len / 4 * 3)).

(** ** Encoding *)

(** The four characters of the 24 bits [l]; [n] input bytes make them up. *)
Definition encode_quad (l : Z) (n : Z) : list Z :=
  [conv_bin2ascii (u8 (Z.shiftr l 18)); conv_bin2ascii (u8 (Z.shiftr l 12));
   if n =? 1 then 61 else conv_bin2ascii (u8 (Z.shiftr l 6));
   if n <? 3 then 61 else conv_bin2ascii (u8 l)].

Fixpoint encode_block_loop (fuel : nat) (buf : list Z) (dst : Z) (src : list Z) (s : Z)
    (remaining ret : Z) : option (Z * Z * list Z) :=
  if remaining =? 0 then Some (ret, dst, buf)
  else match fuel with
  | O => None
  | S fuel' =>
      if 3 <=? remaining then
        s0 ← rd src s; s1 ← rd src (s + 1); s2 ← rd src (s + 2);
        let l := Z.lor (Z.lor (u32 (Z.shiftl s0 16)) (u32 (Z.shiftl s1 8))) s2 in
        buf ← wrs buf dst (encode_quad l 3);
        encode_block_loop fuel' buf (dst + 4) src (s + 3) (remaining - 3) (u64 (ret + 4))
      else
        s0 ← rd src s;
        let l := u32 (Z.shiftl s0 16) in
        l ← (if remaining =? 2 then s1 ← rd src (s + 1); Some (Z.lor l (u32 (Z.shiftl s1 8)))
             else Some l);
        buf ← wrs buf dst (encode_quad l remaining);
        encode_block_loop fuel' buf (dst + 4) src (s + 3) 0 (u64 (ret + 4))
  end.

(** [EVP_EncodeBlock(dst, src, src_len)]: the return value and the buffer. *)
Definition EVP_EncodeBlock (buf : list Z) (dst : Z) (src : list Z) (src_len : Z)
  : option (Z * list Z) :=
  '(ret, dst, buf) ← encode_block_loop (Z.to_nat src_len) buf dst src 0 src_len 0;
  buf ← wr buf dst 0;
  Some (ret, buf).

(** ** The streaming state *)

Record evp_encode_ctx := mk_ctx {
  data_used : Z;
  data : list Z;
  eof_seen : bool;
  error_encountered : bool }.

Definition sizeof_data : Z := 48.
Definition INT_MAX_ : Z := 2 ^ 31 - 1.

Definition set_data (used : Z) (d : list Z) (ctx : evp_encode_ctx) : evp_encode_ctx :=
  mk_ctx used d (eof_seen ctx) (error_encountered ctx).

Definition zero_ctx : evp_encode_ctx := mk_ctx 0 (replicate 48 0) false false.

(** [OPENSSL_malloc] may fail; [OPENSSL_memset] zeroes the new object. *)
Definition EVP_ENCODE_CTX_new (malloc_ok : bool) : option evp_encode_ctx :=
  if malloc_ok then Some zero_ctx else None.
Definition EVP_EncodeInit (ctx : evp_encode_ctx) : evp_encode_ctx := zero_ctx.
Definition EVP_DecodeInit (ctx : evp_encode_ctx) : evp_encode_ctx := zero_ctx.

(** The encoding of one full line, with its newline and a terminator that the
    next line overwrites. *)
Definition encode_line (buf : list Z) (out : Z) (line : list Z) : option (Z * Z * list Z) :=
  '(encoded, buf) ← EVP_EncodeBlock buf out line sizeof_data;
  let out := out + encoded in
  buf ← wr buf out 10;
  buf ← wr buf (out + 1) 0;
  Some (encoded, out + 1, buf).

(** The lines that need no copy into [ctx->data].  [None] for the total is the
    early return on overflow. *)
Fixpoint encode_update_loop (fuel : nat) (buf : list Z) (out : Z) (inp : list Z) (i in_len total : Z)
  : option (option Z * Z * Z * list Z) :=
  if in_len <? sizeof_data then Some (Some total, i, in_len, buf)
  else match fuel with
  | O => None
  | S fuel' =>
      line ← rds inp i sizeof_data;
      '(encoded, out, buf) ← encode_line buf out line;
      if u64 (total + encoded + 1) <? total then Some (None, i + sizeof_data, in_len - sizeof_data, buf)
      else encode_update_loop fuel' buf out inp (i + sizeof_data) (in_len - sizeof_data)
                              (u64 (total + u64 (encoded + 1)))
  end.

(** The loop and what follows it. *)
Definition encode_update_rest (ctx : evp_encode_ctx) (buf : list Z) (out : Z) (inp : list Z) (i in_len total : Z)
  : option (evp_encode_ctx * Z * list Z) :=
  '(total, i, in_len, buf) ← encode_update_loop (Z.to_nat in_len) buf out inp i in_len total;
  match total with
  | None => Some (ctx, 0, buf)
  | Some total =>
      d ← (if negb (in_len =? 0) then piece ← rds inp i in_len; wrs (data ctx) 0 piece
           else Some (data ctx));
      let total := if INT_MAX_ <? total then 0 else total in
      Some (set_data (u32 in_len) d ctx, total, buf)
  end.

(** [EVP_EncodeUpdate]: the context, [*out_len] and the buffer. *)
Definition EVP_EncodeUpdate (ctx : evp_encode_ctx) (buf : list Z) (out : Z) (inp : list Z) (in_len : Z)
  : option (evp_encode_ctx * Z * list Z) :=
  if in_len =? 0 then Some (ctx, 0, buf)
  else if negb (data_used ctx <? sizeof_data) then None
  else if in_len <? sizeof_data - data_used ctx then
    piece ← rds inp 0 in_len;
    d ← wrs (data ctx) (data_used ctx) piece;
    Some (set_data (u32 (data_used ctx + u32 in_len)) d ctx, 0, buf)
  else
    '(ctx, buf, out, i, in_len, total) ←
      (if negb (data_used ctx =? 0) then
         let todo := sizeof_data - data_used ctx in
         piece ← rds inp 0 todo;
         d ← wrs (data ctx) (data_used ctx) piece;
         '(encoded, out, buf) ← encode_line buf out d;
         Some (set_data 0 d ctx, buf, out, todo, in_len - todo, u64 (encoded + 1))
       else Some (ctx, buf, out, 0, in_len, 0));
    encode_update_rest ctx buf out inp i in_len total.

Definition EVP_EncodeFinal (ctx : evp_encode_ctx) (buf : list Z) (out : Z)
  : option (evp_encode_ctx * Z * list Z) :=
  if data_used ctx =? 0 then Some (ctx, 0, buf)
  else
    '(encoded, buf) ← EVP_EncodeBlock buf out (data ctx) (data_used ctx);
    buf ← wr buf (out + encoded) 10;
    let encoded := u64 (encoded + 1) in
    buf ← wr buf (out + encoded) 0;
    if INT_MAX_ <? encoded then None
    else Some (set_data 0 (data ctx) ctx, encoded, buf).

(** ** Decoding *)

(** [base64_decode_quad]: [Some None] is the error return; otherwise the number
    of bytes written and the buffer. *)
Definition base64_decode_quad (buf : list Z) (out : Z) (inp : list Z) (i : Z)
  : option (option (Z * list Z)) :=
  in0 ← rd inp i; in1 ← rd inp (i + 1); in2 ← rd inp (i + 2); in3 ← rd inp (i + 3);
  let a := base64_ascii_to_bin in0 in
  let b := base64_ascii_to_bin in1 in
  let c := base64_ascii_to_bin in2 in
  let d := base64_ascii_to_bin in3 in
  if (a =? 0xff) || (b =? 0xff) || (c =? 0xff) || (d =? 0xff) then Some None
  else
    let v := Z.lor (Z.lor (Z.lor (u32 (Z.shiftl a 18)) (u32 (Z.shiftl b 12))) (u32 (Z.shiftl c 6))) d in
    let padding_pattern :=
      Z.lor (Z.lor (Z.lor (Z.shiftl (Z.b2z (in0 =? 61)) 3) (Z.shiftl (Z.b2z (in1 =? 61)) 2))
                   (Z.shiftl (Z.b2z (in2 =? 61)) 1)) (Z.b2z (in3 =? 61)) in
    if padding_pattern =? 0 then
      buf ← wrs buf out [u8 (Z.shiftr v 16); u8 (Z.shiftr v 8); u8 v]; Some (Some (3, buf))
    else if padding_pattern =? 1 then
      buf ← wrs buf out [u8 (Z.shiftr v 16); u8 (Z.shiftr v 8)]; Some (Some (2, buf))
    else if padding_pattern =? 3 then
      buf ← wrs buf out [u8 (Z.shiftr v 16)]; Some (Some (1, buf))
    else Some None.

Definition is_space (c : Z) : bool := (c =? 32) || (c =? 9) || (c =? 13) || (c =? 10).

Definition set_error (ctx : evp_encode_ctx) : evp_encode_ctx :=
  mk_ctx (data_used ctx) (data ctx) (eof_seen ctx) true.

(** The loop over the characters; [None] in the inner option is the return of
    -1, in which the context records the error. *)
Fixpoint decode_update_loop (fuel : nat) (ctx : evp_encode_ctx) (buf : list Z) (out : Z)
    (inp : list Z) (i in_len bytes_out : Z)
  : option (option Z * evp_encode_ctx * list Z) :=
  if in_len <=? i then Some (Some bytes_out, ctx, buf)
  else match fuel with
  | O => None
  | S fuel' =>
      c ← rd inp i;
      if is_space c then decode_update_loop fuel' ctx buf out inp (i + 1) in_len bytes_out
      else if eof_seen ctx then Some (None, set_error ctx, buf)
      else
        d ← wr (data ctx) (data_used ctx) c;
        let ctx := set_data (u32 (data_used ctx + 1)) d ctx in
        if data_used ctx =? 4 then
          r ← base64_decode_quad buf out (data ctx) 0;
          match r with
          | None => Some (None, set_error ctx, buf)
          | Some (num_bytes_resulting, buf) =>
              let ctx := mk_ctx 0 (data ctx) (eof_seen ctx || (num_bytes_resulting <? 3))
                                (error_encountered ctx) in
              decode_update_loop fuel' ctx buf (out + num_bytes_resulting) inp (i + 1) in_len
                                 (u64 (bytes_out + num_bytes_resulting))
          end
        else decode_update_loop fuel' ctx buf out inp (i + 1) in_len bytes_out
  end.

(** [EVP_DecodeUpdate]: the return value, [*out_len], context and buffer. *)
Definition EVP_DecodeUpdate (ctx : evp_encode_ctx) (buf : list Z) (out : Z) (inp : list Z) (in_len : Z)
  : option (Z * Z * evp_encode_ctx * list Z) :=
  if error_encountered ctx then Some (-1, 0, ctx, buf)
  else
    '(r, ctx, buf) ← decode_update_loop (Z.to_nat in_len) ctx buf out inp 0 in_len 0;
    match r with
    | None => Some (-1, 0, ctx, buf)
    | Some bytes_out =>
        if INT_MAX_ <? bytes_out then Some (-1, 0, set_error ctx, buf)
        else Some (if eof_seen ctx then 0 else 1, bytes_out, ctx, buf)
    end.

Definition EVP_DecodeFinal (ctx : evp_encode_ctx) : Z * Z :=
  if error_encountered ctx || negb (data_used ctx =? 0) then (-1, 0) else (1, 0).

Fixpoint decode_base64_loop (fuel : nat) (buf : list Z) (out : Z) (inp : list Z) (base i in_len bytes_out : Z)
  : option (option Z * list Z) :=
  if in_len <=? i then Some (Some bytes_out, buf)
  else match fuel with
  | O => None
  | S fuel' =>
      r ← base64_decode_quad buf out inp (base + i);
      match r with
      | None => Some (None, buf)
      | Some (num_bytes_resulting, buf) =>
          if negb (num_bytes_resulting =? 3) && negb (i =? in_len - 4) then Some (None, buf)
          else decode_base64_loop fuel' buf (out + num_bytes_resulting) inp base (i + 4) in_len
                                  (u64 (bytes_out + num_bytes_resulting))
      end
  end.

(** [EVP_DecodeBase64(out, out_len, max_out, in, in_len)], with [in] at index
    [base] of its array: the return value, [*out_len] and the buffer. *)
Definition EVP_DecodeBase64 (buf : list Z) (out max_out : Z) (inp : list Z) (base in_len : Z)
  : option (Z * Z * list Z) :=
  if negb (in_len mod 4 =? 0) then Some (0, 0, buf)
  else match EVP_DecodedLength in_len with
  | None => Some (0, 0, buf)
  | Some max_len =>
      if max_out <? max_len then Some (0, 0, buf)
      else
        '(r, buf) ← decode_base64_loop (Z.to_nat in_len) buf out inp base 0 in_len 0;
        match r with
        | None => Some (0, 0, buf)
        | Some bytes_out => Some (1, bytes_out, buf)
        end
  end.

Fixpoint trim_front (fuel : nat) (src : list Z) (s src_len : Z) : option (Z * Z) :=
  if src_len <=? 0 then Some (s, src_len)
  else match fuel with
  | O => None
  | S fuel' =>
      c ← rd src s;
      if negb (c =? 32) && negb (c =? 9) then Some (s, src_len)
      else trim_front fuel' src (s + 1) (src_len - 1)
  end.

Fixpoint trim_back (fuel : nat) (src : list Z) (s src_len : Z) : option Z :=
  if src_len <=? 0 then Some src_len
  else match fuel with
  | O => None
  | S fuel' =>
      c ← rd src (s + (src_len - 1));
      if is_space c then trim_back fuel' src s (src_len - 1) else Some src_len
  end.

Fixpoint pad_loop (fuel : nat) (buf : list Z) (dst dst_len : Z) : option (Z * list Z) :=
  if dst_len mod 3 =? 0 then Some (dst_len, buf)
  else match fuel with
  | O => None
  | S fuel' => buf ← wr buf (dst + dst_len) 0; pad_loop fuel' buf dst (u64 (dst_len + 1))
  end.

(** [EVP_DecodeBlock]: the return value and the buffer. *)
Definition EVP_DecodeBlock (buf : list Z) (dst : Z) (src : list Z) (src_len : Z) : option (Z * list Z) :=
  '(s, src_len) ← trim_front (Z.to_nat src_len) src 0 src_len;
  src_len ← trim_back (Z.to_nat src_len) src s src_len;
  match EVP_DecodedLength src_len with
  | None => Some (-1, buf)
  | Some dst_len =>
      if INT_MAX_ <? dst_len then Some (-1, buf)
      else
        '(ok, dst_len, buf) ← EVP_DecodeBase64 buf dst dst_len src s src_len;
        if ok =? 0 then Some (-1, buf)
        else
          '(dst_len, buf) ← pad_loop 2 buf dst dst_len;
          if INT_MAX_ <? dst_len then None else Some (dst_len, buf)
  end.
