(* ===== verification/Base64Spec.v ===== *)
(** * BoringSSL: base64 against its reference definition

    RFC 4648 encoding and decoding as functions on lists, and the lemmas that
    the constant-time code computes them. *)
From S2P Require Import Prelude CBuf Base64.

(** ** The reference *)

Definition alphabet : list Z :=
  (fun c => Z.of_nat (Ascii.nat_of_ascii c)) <$>
  String.list_ascii_of_string "ABCDEFGHIJKLMNOPQRSTUVWXYZabcdefghijklmnopqrstuvwxyz0123456789+/".

Definition char (k : Z) : Z := default 0 (alphabet !! Z.to_nat k).

Definition val (c : Z) : option Z := (fun p => Z.of_nat p.1) <$> list_find (c =.) alphabet.

(** Three bytes are four characters, the last ones padding. *)
Fixpoint b64 (bs : list Z) : list Z :=
  match bs with
  | [] => []
  | [a] => [char (a / 4); char (a mod 4 * 16); 61; 61]
  | [a; b] => [char (a / 4); char (a mod 4 * 16 + b / 16); char (b mod 16 * 4); 61]
  | a :: b :: c :: bs' =>
      char (a / 4) :: char (a mod 4 * 16 + b / 16) :: char (b mod 16 * 4 + c / 64) :: char (c mod 64) ::
      b64 bs'
  end.

(** The bytes of one group of four characters. *)
Definition unquad (c0 c1 c2 c3 : Z) : option (list Z) :=
  v0 ← val c0; v1 ← val c1;
  if c3 =? 61 then
    if c2 =? 61 then Some [v0 * 4 + v1 / 16]
    else v2 ← val c2; Some [v0 * 4 + v1 / 16; v1 mod 16 * 16 + v2 / 4]
  else v2 ← val c2; v3 ← val c3; Some [v0 * 4 + v1 / 16; v1 mod 16 * 16 + v2 / 4; v2 mod 4 * 64 + v3].

(** Decode the complete groups of a text: the bytes, the characters left over
    and whether a padded group was seen, after which nothing may follow. *)
Fixpoint unb64 (eof : bool) (cs : list Z) {struct cs} : option (list Z * list Z * bool) :=
  match cs with
  | [] => Some ([], [], eof)
  | c0 :: cs1 =>
      if eof then None
      else match cs1 with
      | c1 :: c2 :: c3 :: cs' =>
          bs ← unquad c0 c1 c2 c3;
          '(bs', rest, eof') ← unb64 (bool_decide (length bs < 3)%nat) cs';
          Some (bs ++ bs', rest, eof')
      | _ => Some ([], cs, false)
      end
  end.

(** Induction in steps of three and of four elements. *)
Lemma list_ind3 {A} (P : list A -> Prop) :
  P [] -> (forall a, P [a]) -> (forall a b, P [a; b]) ->
  (forall a b c l, P l -> P (a :: b :: c :: l)) -> forall l, P l.
Proof.
  intros H0 H1 H2 H3. fix IH 1. intros [|a [|b [|c l]]]; [exact H0|apply H1|apply H2|apply H3, IH].
Qed.

Lemma list_ind4 {A} (P : list A -> Prop) :
  (forall l, (length l < 4)%nat -> P l) ->
  (forall a b c d l, P l -> P (a :: b :: c :: d :: l)) -> forall l, P l.
Proof.
  intros H0 H1. fix IH 1. intros [|a [|b [|c [|d l]]]]; try (apply H0; cbn; lia). apply H1, IH.
Qed.

(** ** The look-ups are the tables *)

Lemma conv_char a : in_u 8 a -> conv_bin2ascii a = char (a mod 64).
Proof. intros Ha. unfold in_u in Ha. by_byte a. Qed.

Lemma ascii_to_bin_val c :
  in_u 8 c -> base64_ascii_to_bin c = if c =? 61 then 0 else default 255 (val c).
Proof. intros Hc. unfold in_u in Hc. by_byte c. Qed.

Lemma val_bytes c : in_u 8 c -> match val c with Some v => 0 <= v < 64 /\ c <> 61 | None => True end.
Proof.
  intros Hc. unfold in_u in Hc.
  enough (match val c with Some v => bool_decide (0 <= v < 64 /\ c <> 61) | None => true end = true) as H.
  { destruct (val c); [|done]. by apply bool_decide_eq_true in H. }
  by_byte c.
Qed.

Lemma val_Some c v : in_u 8 c -> val c = Some v -> 0 <= v < 64 /\ c <> 61.
Proof. intros Hc E. pose proof (val_bytes c Hc) as H. by rewrite E in H. Qed.

Lemma val_char k : 0 <= k < 64 -> val (char k) = Some k.
Proof.
  intros Hk. assert (in_u 8 k) as Hb by (unfold in_u; lia).
  enough (bool_decide (k < 64) = false \/ val (char k) = Some k) as [H|H]; [|done|].
  { apply bool_decide_eq_false in H. lia. }
  by_byte k.
Qed.

Lemma char_range k : 0 <= k < 64 -> in_u 8 (char k) /\ char k <> 61 /\ is_space (char k) = false.
Proof.
  intros Hk. assert (in_u 8 k) as Hb by (unfold in_u; lia).
  enough (bool_decide (k < 64) = false \/ (in_u 8 (char k) /\ char k <> 61 /\ is_space (char k) = false))
    as [H|H]; [|done|].
  { apply bool_decide_eq_false in H. lia. }
  by_byte k.
Qed.

(** ** Lengths *)

Lemma length_b64 bs : Z.of_nat (length (b64 bs)) = 4 * ((Z.of_nat (length bs) + 2) / 3).
Proof.
  induction bs as [|a|a b|a b c bs IH] using list_ind3; [done|done|done|].
  cbn [b64 length]. rewrite !Nat2Z.inj_succ, IH.
  replace (Z.succ (Z.succ (Z.succ (Z.of_nat (length bs)))) + 2) with (Z.of_nat (length bs) + 2 + 1 * 3) by lia.
  rewrite Z.div_add by lia. lia.
Qed.

(** ** Decoding what was encoded *)

Lemma byte_split2 a : in_u 8 a -> 0 <= a / 4 < 64 /\ 0 <= a mod 4 * 16 < 64 /\ a / 4 * 4 + a mod 4 = a.
Proof. unfold in_u. intros. pose proof (Z.div_mod a 4). pose proof (Z.mod_pos_bound a 4). lia. Qed.

Lemma byte_split4 a : in_u 8 a -> 0 <= a / 16 < 16 /\ 0 <= a mod 16 < 16 /\ a / 16 * 16 + a mod 16 = a.
Proof. unfold in_u. intros. pose proof (Z.div_mod a 16). pose proof (Z.mod_pos_bound a 16). lia. Qed.

Lemma byte_split6 a : in_u 8 a -> 0 <= a / 64 < 4 /\ 0 <= a mod 64 < 64 /\ a / 64 * 64 + a mod 64 = a.
Proof. unfold in_u. intros. pose proof (Z.div_mod a 64). pose proof (Z.mod_pos_bound a 64). lia. Qed.

Lemma div_mod_parts q r n : 0 <= r < n -> (q * n + r) / n = q /\ (q * n + r) mod n = r.
Proof.
  intros. split; [symmetry; apply (Z.div_unique_pos _ _ _ r)|symmetry; apply (Z.mod_unique_pos _ _ q)]; lia.
Qed.

Lemma unquad_1 a : in_u 8 a -> unquad (char (a / 4)) (char (a mod 4 * 16)) 61 61 = Some [a].
Proof.
  intros Ha. pose proof (byte_split2 a Ha). unfold unquad.
  rewrite !val_char by lia. cbn. do 2 f_equal.
  destruct (div_mod_parts (a mod 4) 0 16) as [E _]; [lia|]. rewrite Z.add_0_r in E. lia.
Qed.

Lemma unquad_2 a b : in_u 8 a -> in_u 8 b ->
  unquad (char (a / 4)) (char (a mod 4 * 16 + b / 16)) (char (b mod 16 * 4)) 61 = Some [a; b].
Proof.
  intros Ha Hb. pose proof (byte_split2 a Ha). pose proof (byte_split4 b Hb). unfold unquad.
  destruct (char_range (b mod 16 * 4)) as (_ & Hne & _); [lia|].
  rewrite !val_char by lia. cbn [mbind option_bind]. rewrite Z.eqb_refl, (proj2 (Z.eqb_neq _ _) Hne).
  destruct (div_mod_parts (a mod 4) (b / 16) 16) as [E1 E2]; [lia|].
  destruct (div_mod_parts (b mod 16) 0 4) as [E3 _]; [lia|]. rewrite Z.add_0_r in E3.
  rewrite E1, E2, E3. repeat f_equal; lia.
Qed.

Lemma unquad_3 a b c : in_u 8 a -> in_u 8 b -> in_u 8 c ->
  unquad (char (a / 4)) (char (a mod 4 * 16 + b / 16)) (char (b mod 16 * 4 + c / 64)) (char (c mod 64))
  = Some [a; b; c].
Proof.
  intros Ha Hb Hc. pose proof (byte_split2 a Ha). pose proof (byte_split4 b Hb). pose proof (byte_split6 c Hc).
  unfold unquad. destruct (char_range (c mod 64)) as (_ & Hne & _); [lia|].
  rewrite !val_char by lia. cbn [mbind option_bind]. rewrite (proj2 (Z.eqb_neq _ _) Hne).
  destruct (div_mod_parts (a mod 4) (b / 16) 16) as [E1 E2]; [lia|].
  destruct (div_mod_parts (b mod 16) (c / 64) 4) as [E3 E4]; [lia|].
  rewrite E1, E2, E3, E4. repeat f_equal; lia.
Qed.

Lemma unb64_b64 bs :
  Forall (in_u 8) bs -> unb64 false (b64 bs) = Some (bs, [], negb (Z.of_nat (length bs) mod 3 =? 0)).
Proof.
  induction bs as [|a|a b|a b c bs IH] using list_ind3; intros Hbs.
  - done.
  - cbn [b64 unb64]. rewrite unquad_1 by (by inversion Hbs). done.
  - cbn [b64 unb64]. rewrite unquad_2 by (by inversion Hbs as [|? ? ? H]; inversion H). done.
  - apply Forall_cons in Hbs as [Ha [Hb [Hc Hbs]%Forall_cons]%Forall_cons].
    cbn [b64 unb64]. rewrite unquad_3 by done. cbn [mbind option_bind length].
    rewrite bool_decide_eq_false_2 by lia. rewrite IH by done. cbn [mbind option_bind app].
    do 4 f_equal. rewrite !Nat2Z.inj_succ.
    replace (Z.succ (Z.succ (Z.succ (Z.of_nat (length bs))))) with (Z.of_nat (length bs) + 1 * 3) by lia.
    by rewrite Z.mod_add.
Qed.

(** ** [EVP_EncodeBlock] *)

Lemma pack3 a b c :
  in_u 8 a -> in_u 8 b -> in_u 8 c ->
  Z.lor (Z.lor (u32 (Z.shiftl a 16)) (u32 (Z.shiftl b 8))) c = a * 65536 + b * 256 + c.
Proof.
  unfold in_u. intros Ha Hb Hc. rewrite !(wrapu_id 32) by (unfold in_u; rewrite Z.shiftl_mul_pow2; lia).
  rewrite (Z.lor_comm (Z.shiftl a 16)), (Z.shiftl_mul_pow2 b) by lia.
  rewrite (lor_shiftl_add (b * 2 ^ 8) a 16), Z.lor_comm by lia.
  replace (b * 2 ^ 8 + a * 2 ^ 16) with ((b + a * 2 ^ 8) * 2 ^ 8) by lia.
  rewrite <- Z.shiftl_mul_pow2, lor_shiftl_add by lia. lia.
Qed.

Lemma pack2 a b :
  in_u 8 a -> in_u 8 b -> Z.lor (u32 (Z.shiftl a 16)) (u32 (Z.shiftl b 8)) = a * 65536 + b * 256.
Proof. intros Ha Hb. rewrite <- (Z.lor_0_r (Z.lor _ _)), pack3; unfold in_u in *; lia. Qed.

Lemma pack1 a : in_u 8 a -> u32 (Z.shiftl a 16) = a * 65536.
Proof. intros Ha. pose proof (pack2 a 0 Ha) as E. cbn in E. rewrite Z.lor_0_r in E. rewrite E; unfold in_u; lia. Qed.

(** The characters of the four sextets. *)
Lemma conv_shift l k : 0 <= k -> conv_bin2ascii (u8 (Z.shiftr l k)) = char (l / 2 ^ k mod 64).
Proof.
  intros Hk. rewrite conv_char by (apply wrapu_range; lia). unfold wrapu.
  rewrite Z.shiftr_div_pow2 by done. f_equal. apply Z.mod_mod_divide. by exists 4.
Qed.

Lemma sextet_at l k q x r :
  0 <= k -> l = (q * 64 + x) * 2 ^ k + r -> 0 <= x < 64 -> 0 <= r < 2 ^ k -> l / 2 ^ k mod 64 = x.
Proof.
  intros Hk -> Hx Hr. rewrite (proj1 (div_mod_parts _ _ _ Hr)). by apply div_mod_parts.
Qed.

Lemma sextets a b c :
  in_u 8 a -> in_u 8 b -> in_u 8 c -> let l := a * 65536 + b * 256 + c in
  l / 2 ^ 18 mod 64 = a / 4 /\ l / 2 ^ 12 mod 64 = a mod 4 * 16 + b / 16 /\
  l / 2 ^ 6 mod 64 = b mod 16 * 4 + c / 64 /\ l / 2 ^ 0 mod 64 = c mod 64.
Proof.
  unfold in_u. intros Ha Hb Hc.
  pose proof (byte_split2 a Ha). pose proof (byte_split4 b Hb). pose proof (byte_split6 c Hc).
  set (a1 := a / 4) in *. set (a0 := a mod 4) in *. set (b1 := b / 16) in *. set (b0 := b mod 16) in *.
  set (c1 := c / 64) in *. set (c0 := c mod 64) in *.
  assert (0 <= a0 < 4) by (subst a0; lia).
  replace (a * 65536 + b * 256 + c)
    with (a1 * 2 ^ 18 + (a0 * 16 + b1) * 2 ^ 12 + (b0 * 4 + c1) * 2 ^ 6 + c0) by lia.
  split_and!; [apply (sextet_at _ _ 0 _ ((a0 * 16 + b1) * 2 ^ 12 + (b0 * 4 + c1) * 2 ^ 6 + c0))|
               apply (sextet_at _ _ a1 _ ((b0 * 4 + c1) * 2 ^ 6 + c0))|
               apply (sextet_at _ _ (a1 * 64 + (a0 * 16 + b1)) _ c0)|
               apply (sextet_at _ _ (a1 * 4096 + (a0 * 16 + b1) * 64 + (b0 * 4 + c1)) _ 0)]; lia.
Qed.

Lemma encode_quad_spec a b c n :
  in_u 8 a -> in_u 8 b -> in_u 8 c ->
  encode_quad (a * 65536 + b * 256 + c) n =
  [char (a / 4); char (a mod 4 * 16 + b / 16);
   if n =? 1 then 61 else char (b mod 16 * 4 + c / 64); if n <? 3 then 61 else char (c mod 64)].
Proof.
  intros Ha Hb Hc. destruct (sextets a b c Ha Hb Hc) as (E1 & E2 & E3 & E4). unfold encode_quad.
  rewrite <- (Z.shiftr_0_r (a * 65536 + b * 256 + c)) at 4. rewrite !conv_shift by lia.
  by rewrite E1, E2, E3, E4.
Qed.

(** *** The loop *)

Lemma char_triple_step fuel buf dst pre a b c rest n ret :
  in_u 8 a -> in_u 8 b -> in_u 8 c -> 3 <= n ->
  encode_block_loop (S fuel) buf dst (pre ++ a :: b :: c :: rest) (Z.of_nat (length pre)) n ret =
  buf' ← wrs buf dst (b64 [a; b; c]);
  encode_block_loop fuel buf' (dst + 4) ((pre ++ [a; b; c]) ++ rest) (Z.of_nat (length (pre ++ [a; b; c])))
    (n - 3) (u64 (ret + 4)).
Proof.
  intros Ha Hb Hc Hn. cbn [encode_block_loop]. rewrite (proj2 (Z.eqb_neq _ _)) by lia.
  rewrite (proj2 (Z.leb_le _ _)) by lia. rewrite rd_at0, !rd_at by lia.
  change (Z.to_nat 1) with 1%nat. change (Z.to_nat 2) with 2%nat. cbn [lookup list_lookup mbind option_bind].
  rewrite pack3, encode_quad_spec by done. cbn [Z.eqb Z.ltb Z.compare Pos.compare Pos.compare_cont Pos.eqb b64].
  rewrite length_app, Nat2Z.inj_add, <- app_assoc. done.
Qed.

Lemma last_step fuel buf dst pre bs rest ret :
  Forall (in_u 8) bs -> (length bs = 1 \/ length bs = 2)%nat ->
  encode_block_loop (S fuel) buf dst (pre ++ bs ++ rest) (Z.of_nat (length pre)) (Z.of_nat (length bs)) ret =
  buf' ← wrs buf dst (b64 bs); Some (u64 (ret + 4), dst + 4, buf').
Proof.
  intros Hbs Hl. destruct bs as [|a [|b [|]]]; try (cbn in Hl; lia); cbn [length app].
  - apply Forall_cons in Hbs as [Ha _]. change (Z.of_nat 1) with 1.
    cbn [encode_block_loop Z.eqb Pos.eqb Z.leb Z.compare Pos.compare Pos.compare_cont].
    rewrite rd_at0. cbn [lookup list_lookup mbind option_bind].
    rewrite pack1 by done. replace (a * 65536) with (a * 65536 + 0 * 256 + 0) by lia.
    rewrite encode_quad_spec by (done || by unfold in_u).
    cbn [Z.eqb Z.ltb Z.compare Pos.compare Pos.compare_cont Pos.eqb b64].
    change (0 / 16) with 0. rewrite Z.add_0_r. destruct (wrs _ _ _); [|done]. cbn [mbind option_bind].
    by destruct fuel.
  - apply Forall_cons in Hbs as [Ha [Hb _]%Forall_cons].
    change (Z.of_nat 2) with 2. cbn [encode_block_loop Z.eqb Z.leb Z.compare Pos.compare Pos.compare_cont Pos.eqb].
    rewrite rd_at0, rd_at by lia. change (Z.to_nat 1) with 1%nat. cbn [lookup list_lookup mbind option_bind].
    rewrite pack2 by done. replace (a * 65536 + b * 256) with (a * 65536 + b * 256 + 0) by lia.
    rewrite encode_quad_spec by (done || by unfold in_u).
    cbn [Z.eqb Z.ltb Z.compare Pos.compare Pos.compare_cont Pos.eqb b64].
    change (0 / 64) with 0. rewrite Z.add_0_r. destruct (wrs _ _ _); [|done]. cbn [mbind option_bind].
    by destruct fuel.
Qed.

Lemma encode_block_loop_spec bs : forall fuel pre post buf dst ret,
  Forall (in_u 8) bs -> (length bs <= fuel)%nat -> 0 <= ret ->
  ret + Z.of_nat (length (b64 bs)) < 2 ^ 64 -> 0 <= dst <= Z.of_nat (length buf) ->
  encode_block_loop fuel buf dst (pre ++ bs ++ post) (Z.of_nat (length pre)) (Z.of_nat (length bs)) ret =
  buf' ← wrs buf dst (b64 bs);
  Some (ret + Z.of_nat (length (b64 bs)), dst + Z.of_nat (length (b64 bs)), buf').
Proof.
  induction bs as [|a|a b|a b c bs IH] using list_ind3; intros fuel pre post buf dst ret Hbs Hf Hr Hmax Hd.
  - cbn [b64 length]. rewrite wrs_nil by done. cbn [mbind option_bind].
    destruct fuel; cbn [encode_block_loop Z.of_nat Z.eqb]; by rewrite !Z.add_0_r.
  - destruct fuel as [|fuel]; [cbn in Hf; lia|]. rewrite last_step by (cbn; auto).
    cbn [b64 length] in *. rewrite (wrapu_id 64) by (unfold in_u; lia). done.
  - destruct fuel as [|fuel]; [cbn in Hf; lia|]. rewrite last_step by (cbn; auto).
    cbn [b64 length] in *. rewrite (wrapu_id 64) by (unfold in_u; lia). done.
  - apply Forall_cons in Hbs as [Ha [Hb [Hc Hbs]%Forall_cons]%Forall_cons].
    destruct fuel as [|fuel]; [cbn in Hf; lia|]. cbn [app].
    rewrite char_triple_step by (done || cbn; lia).
    change (b64 (a :: b :: c :: bs)) with (b64 [a; b; c] ++ b64 bs) in *.
    rewrite (length_app (b64 _)) in *. rewrite wrs_app. destruct (wrs buf dst _) as [buf1|] eqn:E; [|done].
    cbn [mbind option_bind]. rewrite (wrapu_id 64) by (unfold in_u; cbn in *; lia).
    replace (Z.of_nat (length (a :: b :: c :: bs)) - 3) with (Z.of_nat (length bs)) by (cbn; lia).
    pose proof (wrs_length _ _ _ _ E). apply wrs_Some in E as (_ & Hfit & _).
    rewrite IH by (done || cbn in *; lia).
    change (Z.of_nat (length (b64 [a; b; c]))) with 4. destruct (wrs buf1 _ _); [|done]. cbn [mbind option_bind].
    rewrite ?Nat2Z.inj_add, ?Z.add_assoc. done.
Qed.

(** [EVP_EncodeBlock] stores the encoding and a terminator, or has no defined
    behaviour when they do not fit. *)
Lemma EVP_EncodeBlock_spec bs post buf dst :
  Forall (in_u 8) bs -> Z.of_nat (length (b64 bs)) < 2 ^ 64 -> 0 <= dst <= Z.of_nat (length buf) ->
  EVP_EncodeBlock buf dst (bs ++ post) (Z.of_nat (length bs)) =
  buf' ← wrs buf dst (b64 bs ++ [0]); Some (Z.of_nat (length (b64 bs)), buf').
Proof.
  intros Hbs Hmax Hd. unfold EVP_EncodeBlock.
  rewrite (encode_block_loop_spec bs _ [] post) by (done || lia).
  rewrite wrs_app. destruct (wrs buf dst (b64 bs)); [|done]. cbn [mbind option_bind]. rewrite Z.add_0_l.
  unfold wr. by destruct (wrs _ _ [0]).
Qed.

(** ** One group of four characters *)

Lemma pack4 a b c d :
  0 <= a < 64 -> 0 <= b < 64 -> 0 <= c < 64 -> 0 <= d < 64 ->
  Z.lor (Z.lor (Z.lor (u32 (Z.shiftl a 18)) (u32 (Z.shiftl b 12))) (u32 (Z.shiftl c 6))) d =
  a * 2 ^ 18 + b * 2 ^ 12 + c * 2 ^ 6 + d.
Proof.
  intros Ha Hb Hc Hd. rewrite !(wrapu_id 32) by (unfold in_u; rewrite Z.shiftl_mul_pow2; lia).
  rewrite (Z.lor_comm (Z.shiftl a 18)), (Z.shiftl_mul_pow2 b) by lia.
  rewrite (lor_shiftl_add (b * 2 ^ 12) a 18) by lia.
  rewrite (Z.lor_comm (b * 2 ^ 12 + a * 2 ^ 18)).
  replace (b * 2 ^ 12 + a * 2 ^ 18) with ((b + a * 2 ^ 6) * 2 ^ 12) by lia.
  rewrite (Z.shiftl_mul_pow2 c), <- (Z.shiftl_mul_pow2 (b + a * 2 ^ 6)), lor_shiftl_add by lia.
  rewrite Z.lor_comm. replace (c * 2 ^ 6 + (b + a * 2 ^ 6) * 2 ^ 12)
    with ((c + (b + a * 2 ^ 6) * 2 ^ 6) * 2 ^ 6) by lia.
  rewrite <- Z.shiftl_mul_pow2, lor_shiftl_add by lia. lia.
Qed.

Lemma byte_at l k q x r :
  0 <= k -> l = (q * 256 + x) * 2 ^ k + r -> 0 <= x < 256 -> 0 <= r < 2 ^ k -> u8 (Z.shiftr l k) = x.
Proof.
  intros Hk -> Hx Hr. rewrite Z.shiftr_div_pow2 by done. rewrite (proj1 (div_mod_parts _ _ _ Hr)).
  unfold wrapu. by apply div_mod_parts.
Qed.

Lemma quad_bytes a b c d :
  0 <= a < 64 -> 0 <= b < 64 -> 0 <= c < 64 -> 0 <= d < 64 ->
  let v := a * 2 ^ 18 + b * 2 ^ 12 + c * 2 ^ 6 + d in
  u8 (Z.shiftr v 16) = a * 4 + b / 16 /\ u8 (Z.shiftr v 8) = b mod 16 * 16 + c / 4 /\
  u8 v = c mod 4 * 64 + d.
Proof.
  intros Ha Hb Hc Hd v. subst v.
  pose proof (Z.div_mod b 16). pose proof (Z.mod_pos_bound b 16).
  pose proof (Z.div_mod c 4). pose proof (Z.mod_pos_bound c 4).
  set (b1 := b / 16) in *. set (b0 := b mod 16) in *. set (c1 := c / 4) in *. set (c0 := c mod 4) in *.
  split_and!.
  - apply (byte_at _ _ 0 _ (b0 * 2 ^ 12 + c * 2 ^ 6 + d)); lia.
  - apply (byte_at _ _ (a * 4 + b1) _ (c0 * 2 ^ 6 + d)); lia.
  - rewrite <- (Z.shiftr_0_r (_ + d)). apply (byte_at _ _ ((a * 4 + b1) * 256 + (b0 * 16 + c1)) _ 0); lia.
Qed.

(** What [base64_ascii_to_bin] gives on the three kinds of characters. *)
Lemma ascii_cases c :
  in_u 8 c ->
  (c = 61 /\ base64_ascii_to_bin c = 0 /\ val c = None) \/
  (c <> 61 /\ base64_ascii_to_bin c = 255 /\ val c = None) \/
  (exists v, c <> 61 /\ base64_ascii_to_bin c = v /\ val c = Some v /\ 0 <= v < 64).
Proof.
  intros Hc. rewrite (ascii_to_bin_val c Hc). destruct (Z.eqb_spec c 61) as [->|Hne]; [by left|].
  destruct (val c) as [v|] eqn:E; [|by right; left]. right. right. exists v.
  destruct (val_Some c v Hc E). done.
Qed.

(** Decide the comparisons of the characters and their values. *)
Ltac decide_tests :=
  repeat match goal with
  | H : ?c <> ?k |- context [?c =? ?k] => rewrite (proj2 (Z.eqb_neq c k) H)
  | H : 0 <= ?v < 64 |- context [?v =? 255] => rewrite (proj2 (Z.eqb_neq v 255)) by lia
  end;
  rewrite ?Z.eqb_refl; change (0 =? 255) with false; change (255 =? 255) with true; rewrite ?orb_true_r;
  cbn [orb].

Lemma base64_decode_quad_spec buf out pre c0 c1 c2 c3 post :
  in_u 8 c0 -> in_u 8 c1 -> in_u 8 c2 -> in_u 8 c3 ->
  base64_decode_quad buf out (pre ++ c0 :: c1 :: c2 :: c3 :: post) (Z.of_nat (length pre)) =
  match unquad c0 c1 c2 c3 with
  | None => Some None
  | Some bs => buf' ← wrs buf out bs; Some (Some (Z.of_nat (length bs), buf'))
  end.
Proof.
  intros H0 H1 H2 H3. unfold base64_decode_quad. rewrite rd_at0, !rd_at by lia.
  change (Z.to_nat 1) with 1%nat. change (Z.to_nat 2) with 2%nat. change (Z.to_nat 3) with 3%nat.
  cbn [lookup list_lookup mbind option_bind].
  destruct (ascii_cases c0 H0) as [(-> & -> & V0)|[(N0 & -> & V0)|(v0 & N0 & -> & V0 & ?)]];
  [..|destruct (ascii_cases c1 H1) as [(-> & -> & V1)|[(N1 & -> & V1)|(v1 & N1 & -> & V1 & ?)]]];
  unfold unquad; rewrite ?V0; cbn [mbind option_bind]; rewrite ?V1; cbn [mbind option_bind];
    decide_tests; [..|]; try done.
  - destruct (_ || _); [done|]. by destruct (c1 =? 61), (c2 =? 61), (c3 =? 61).
  - destruct (_ || _); [done|]. by destruct (c2 =? 61), (c3 =? 61).
  - destruct (ascii_cases c2 H2) as [(-> & -> & V2)|[(N2 & -> & V2)|(v2 & N2 & -> & V2 & ?)]];
    destruct (ascii_cases c3 H3) as [(-> & -> & V3)|[(N3 & -> & V3)|(v3 & N3 & -> & V3 & ?)]];
      decide_tests; rewrite ?V2, ?V3; try done; rewrite pack4 by lia; cbn [mbind option_bind].
    + destruct (quad_bytes v0 v1 0 0) as (-> & -> & _); [lia..|].
      cbn. by destruct (wrs _ _ _).
    + destruct (quad_bytes v0 v1 v2 0) as (-> & -> & _); [lia..|]. cbn. by destruct (wrs _ _ _).
    + destruct (quad_bytes v0 v1 v2 v3) as (-> & -> & ->); [lia..|]. cbn. by destruct (wrs _ _ _).
Qed.

Lemma b64_bytes bs : Forall (in_u 8) bs -> Forall (in_u 8) (b64 bs).
Proof.
  assert (forall k, 0 <= k < 64 -> in_u 8 (char k)) as Hk by (intros k Hk; by apply char_range).
  assert (in_u 8 61) by (unfold in_u; lia).
  induction bs as [|a|a b|a b c bs IH] using list_ind3; intros Hb; [constructor|..]; cbn [b64].
  - apply Forall_cons in Hb as [Ha _]. pose proof (byte_split2 a Ha).
    repeat constructor; try done; apply Hk; lia.
  - apply Forall_cons in Hb as [Ha [Hb _]%Forall_cons]. pose proof (byte_split2 a Ha). pose proof (byte_split4 b Hb).
    repeat constructor; try done; apply Hk; lia.
  - apply Forall_cons in Hb as [Ha [Hb [Hc Hr]%Forall_cons]%Forall_cons].
    pose proof (byte_split2 a Ha). pose proof (byte_split4 b Hb). pose proof (byte_split6 c Hc).
    repeat (apply Forall_cons; split; [apply Hk; lia|]). by apply IH.
Qed.
