(* ===== verification/Base64Block.v ===== *)
(** * BoringSSL: decoding a block of base64

    [EVP_DecodeBase64] and [EVP_DecodeBlock] compute the reference decoder,
    write nothing outside the announced output and report every error. *)
From S2P Require Import Prelude CBuf Base64 Base64Spec.

Lemma unquad_length c0 c1 c2 c3 bs : unquad c0 c1 c2 c3 = Some bs -> (1 <= length bs <= 3)%nat.
Proof.
  unfold unquad. intros H. repeat (case_match || destruct (val _)); cbn in H; simplify_eq; cbn; try lia.
Qed.

(** Only the [n] elements at [out] may have changed. *)
Definition within (buf : list Z) (out n : Z) (buf' : list Z) : Prop :=
  exists v, Z.of_nat (length v) <= n /\ wrs buf out v = Some buf'.

Lemma within_none buf out n : 0 <= out <= Z.of_nat (length buf) -> 0 <= n -> within buf out n buf.
Proof. intros. exists []. split; [done|]. by apply wrs_nil. Qed.

Lemma within_app buf out v buf1 n buf' :
  wrs buf out v = Some buf1 -> within buf1 (out + Z.of_nat (length v)) n buf' ->
  within buf out (Z.of_nat (length v) + n) buf'.
Proof.
  intros E (w & Hw & E'). exists (v ++ w). split; [rewrite length_app; lia|].
  rewrite wrs_app, E. done.
Qed.

Lemma within_weaken buf out n n' buf' : within buf out n buf' -> n <= n' -> within buf out n' buf'.
Proof. intros (v & ? & ?) ?. exists v. split; [lia|done]. Qed.

Lemma wrs_fits {A} (buf : list A) i v :
  0 <= i -> i + Z.of_nat (length v) <= Z.of_nat (length buf) -> exists buf', wrs buf i v = Some buf'.
Proof. intros. unfold wrs. rewrite bool_decide_eq_true_2 by lia. eauto. Qed.

(** The groups of a text of [4 * n] characters. *)
Lemma decode_base64_loop_spec cs : forall fuel buf out pre dn post bytes_out,
  Forall (in_u 8) cs -> Z.of_nat (length cs) mod 4 = 0 -> (length cs <= fuel)%nat ->
  0 <= out -> out + Z.of_nat (length cs) / 4 * 3 <= Z.of_nat (length buf) ->
  0 <= bytes_out -> bytes_out + Z.of_nat (length cs) < 2 ^ 64 ->
  exists r buf',
    decode_base64_loop fuel buf out (pre ++ dn ++ cs ++ post) (Z.of_nat (length pre))
      (Z.of_nat (length dn)) (Z.of_nat (length dn) + Z.of_nat (length cs)) bytes_out = Some (r, buf') /\
    match unb64 false cs with
    | Some (bs, _, _) => r = Some (bytes_out + Z.of_nat (length bs)) /\ wrs buf out bs = Some buf'
    | None => r = None /\ within buf out (Z.of_nat (length cs) / 4 * 3) buf'
    end.
Proof.
  induction cs as [cs Hl|c0 c1 c2 c3 cs IH] using list_ind4;
    intros fuel buf out pre dn post bytes_out Hcs Hm Hf Ho Hfit Hb Hmax.
  - destruct cs as [|? [|? [|? [|]]]]; [|vm_compute in Hm; discriminate..|cbn in Hl; lia].
    exists (Some bytes_out), buf. cbn [unb64 length]. rewrite !Z.add_0_r. split.
    + destruct fuel; cbn [decode_base64_loop]; rewrite Z.leb_refl; done.
    + split; [done|]. apply wrs_nil. change (Z.of_nat (length (@nil Z)) / 4 * 3) with 0 in Hfit. lia.
  - destruct fuel as [|fuel]; [cbn in Hf; lia|]. cbn [decode_base64_loop].
    apply Forall_cons in Hcs as [H0 [H1 [H2 [H3 Hcs]%Forall_cons]%Forall_cons]%Forall_cons].
    assert (Z.of_nat (length (c0 :: c1 :: c2 :: c3 :: cs)) = Z.of_nat (length cs) + 4) as El by (cbn; lia).
    rewrite El in *. rewrite (proj2 (Z.leb_gt _ _)) by lia.
    assert (Z.of_nat (length cs) mod 4 = 0) as Hm' by (rewrite <- Hm; symmetry; apply (Z.mod_add (Z.of_nat (length cs)) 1 4); lia).
    assert ((Z.of_nat (length cs) + 4) / 4 = Z.of_nat (length cs) / 4 + 1) as Ed by (apply (Z.div_add (Z.of_nat (length cs)) 1 4); lia).
    rewrite Ed in *. assert (0 <= Z.of_nat (length cs) / 4) by (apply Z.div_pos; lia).
    rewrite (app_assoc pre dn), <- Nat2Z.inj_add, <- length_app. cbn [app].
    rewrite base64_decode_quad_spec by done. cbn [unb64].
    destruct (unquad c0 c1 c2 c3) as [bs|] eqn:Eq; cbn [mbind option_bind].
    2: { exists None, buf. split; [done|]. split; [done|]. apply within_none; lia. }
    pose proof (unquad_length _ _ _ _ _ Eq) as Hlen.
    destruct (wrs_fits buf out bs) as (buf1 & E1); [lia..|]. rewrite E1. cbn [mbind option_bind].
    pose proof (wrs_length _ _ _ _ E1) as Hlen1.
    destruct (decide (length bs < 3)%nat) as [Hs|Hs].
    + rewrite bool_decide_eq_true_2 by done. rewrite (proj2 (Z.eqb_neq _ 3)) by lia. cbn [negb andb].
      destruct cs as [|c cs].
      * replace (_ =? _) with true by (symmetry; apply Z.eqb_eq; cbn; lia). cbn [negb unb64 mbind option_bind].
        rewrite app_nil_r. exists (Some (bytes_out + Z.of_nat (length bs))), buf1. split; [|done].
        rewrite wrapu_id by (unfold in_u; cbn in *; lia).
        destruct fuel; cbn [decode_base64_loop]; by rewrite Z.leb_refl.
      * rewrite (proj2 (Z.eqb_neq _ _)) by (cbn; lia). cbn [negb unb64 mbind option_bind].
        exists None, buf1. split; [done|]. split; [done|]. exists bs. split; [lia|done].
    + rewrite bool_decide_eq_false_2 by done. replace (_ =? 3) with true by lia. cbn [negb andb].
      rewrite wrapu_id by (unfold in_u; lia).
      destruct (IH fuel buf1 (out + Z.of_nat (length bs)) pre (dn ++ [c0; c1; c2; c3]) post
                  (bytes_out + Z.of_nat (length bs))) as (r & buf' & E & Hr); [done|done|cbn in Hf; lia|lia..|].
      exists r, buf'. rewrite <- (app_assoc pre dn). rewrite (length_app dn), Nat2Z.inj_add in E.
      rewrite <- app_assoc in E. cbn [app length] in E. change (Z.of_nat 4) with 4 in E.
      replace (Z.of_nat (length dn) + 4 + Z.of_nat (length cs))
        with (Z.of_nat (length dn) + (Z.of_nat (length cs) + 4)) in E by lia.
      split; [exact E|]. destruct (unb64 false cs) as [[[bs' rest] e]|]; cbn [mbind option_bind].
      * destruct Hr as [-> Ew]. rewrite length_app, Nat2Z.inj_add, wrs_app, E1. split; [f_equal; lia|done].
      * destruct Hr as [-> Hw]. split; [done|]. eapply within_weaken; [by eapply within_app|]. lia.
Qed.

Lemma EVP_DecodeBase64_spec pre cs post buf out max_out :
  Forall (in_u 8) cs -> Z.of_nat (length cs) < 2 ^ 64 -> 0 <= out ->
  out + Z.of_nat (length cs) / 4 * 3 <= Z.of_nat (length buf) ->
  exists r n buf',
    EVP_DecodeBase64 buf out max_out (pre ++ cs ++ post) (Z.of_nat (length pre)) (Z.of_nat (length cs))
      = Some (r, n, buf') /\
    match (if (Z.of_nat (length cs) mod 4 =? 0) && (Z.of_nat (length cs) / 4 * 3 <=? max_out)
           then unb64 false cs else None) with
    | Some (bs, _, _) => r = 1 /\ n = Z.of_nat (length bs) /\ wrs buf out bs = Some buf'
    | None => r = 0 /\ n = 0 /\ within buf out (Z.of_nat (length cs) / 4 * 3) buf'
    end.
Proof.
  intros Hcs Hmax Ho Hfit. set (n := Z.of_nat (length cs)) in *.
  assert (0 <= n / 4 * 3 <= n) as Hn by (pose proof (Z.div_mod n 4); pose proof (Z.mod_pos_bound n 4); lia).
  unfold EVP_DecodeBase64, EVP_DecodedLength. destruct (n mod 4 =? 0) eqn:Em; cbn [negb andb].
  2: { exists 0, 0, buf. split_and!; [done..|]. apply within_none; lia. }
  apply Z.eqb_eq in Em. rewrite wrapu_id by (unfold in_u; lia).
  destruct (Z.leb_spec (n / 4 * 3) max_out) as [Hle|Hgt].
  2: { rewrite (proj2 (Z.ltb_lt _ _)) by done. exists 0, 0, buf. split_and!; [done..|]. apply within_none; lia. }
  rewrite (proj2 (Z.ltb_ge _ _)) by done.
  destruct (decode_base64_loop_spec cs (Z.to_nat n) buf out pre [] post 0)
    as (r & buf' & E & Hr); [done|done|lia|done|done|lia|lia|].
  fold n in Hr. fold n in E. cbn [app length] in E. change (Z.of_nat 0) with 0 in E. rewrite Z.add_0_l in E. rewrite E. cbn [mbind option_bind].
  destruct (unb64 false cs) as [[[bs rest] e]|]; destruct Hr as [-> Hr].
  - rewrite Z.add_0_l. by exists 1, (Z.of_nat (length bs)), buf'.
  - by exists 0, 0, buf'.
Qed.

(** How many bytes the characters of a text stand for. *)
Lemma unb64_length cs : forall e bs rest e',
  unb64 e cs = Some (bs, rest, e') ->
  Z.of_nat (length cs) / 4 * 3 - (if e' then 2 else 0) <= Z.of_nat (length bs) <= Z.of_nat (length cs) / 4 * 3.
Proof.
  induction cs as [cs Hl|c0 c1 c2 c3 cs IH] using list_ind4; intros e bs rest e' H.
  - assert (Z.of_nat (length cs) / 4 = 0) as -> by (apply Z.div_small; lia).
    assert (bs = []) as ->; [|destruct e'; cbn; lia].
    destruct cs as [|? [|? [|? [|]]]]; cbn in H; [|destruct e..|cbn in Hl; lia]; by simplify_eq.
  - cbn [unb64] in H. destruct e; [done|]. destruct (unquad c0 c1 c2 c3) as [x|] eqn:Eq; [|done].
    cbn [mbind option_bind] in H. apply unquad_length in Eq.
    destruct (unb64 _ cs) as [[[bs' r] e1]|] eqn:E; [|done]. cbn [mbind option_bind] in H.
    assert (bs = x ++ bs' /\ e1 = e') as [-> ->] by (by injection H as <- <- <-).
    assert (Z.of_nat (length (c0 :: c1 :: c2 :: c3 :: cs)) / 4 = Z.of_nat (length cs) / 4 + 1) as ->.
    { rewrite <- Z.div_add by lia. f_equal. cbn. lia. }
    rewrite length_app, Nat2Z.inj_add. specialize (IH _ _ _ _ E).
    case_bool_decide; [|lia]. destruct cs as [|c cs]; [|by cbn in E; destruct cs as [|? [|? [|]]]; cbn in E].
    cbn in E. simplify_eq. cbn in *. lia.
Qed.

Lemma unb64_rest cs : forall e bs rest e',
  unb64 e cs = Some (bs, rest, e') -> Z.of_nat (length rest) = Z.of_nat (length cs) mod 4.
Proof.
  induction cs as [cs Hl|c0 c1 c2 c3 cs IH] using list_ind4; intros e bs rest e' H.
  - rewrite Z.mod_small by lia.
    destruct cs as [|? [|? [|? [|]]]]; cbn in H; [|destruct e..|cbn in Hl; lia]; by simplify_eq.
  - cbn [unb64] in H. destruct e; [done|]. destruct (unquad c0 c1 c2 c3) as [x|]; [|done].
    cbn [mbind option_bind] in H. destruct (unb64 _ cs) as [[[bs' r] e1]|] eqn:E; [|done].
    injection H as <- <- <-. rewrite (IH _ _ _ _ E). rewrite <- (Z.mod_add _ 1 4) by lia. f_equal. cbn. lia.
Qed.

(** ** [EVP_DecodeBlock] *)

Fixpoint drop_while (p : Z -> bool) (l : list Z) : list Z :=
  match l with
  | x :: l' => if p x then drop_while p l' else l
  | [] => []
  end.

Definition is_blank (c : Z) : bool := (c =? 32) || (c =? 9).

(** Blanks are trimmed in front, all white space at the end. *)
Definition trim (cs : list Z) : list Z := reverse (drop_while is_space (reverse (drop_while is_blank cs))).

Lemma drop_while_suffix p l : exists pre, l = pre ++ drop_while p l.
Proof.
  induction l as [|x l [pre IH]]; [by exists []|]. cbn. destruct (p x); [|by exists []].
  exists (x :: pre). by rewrite IH at 1.
Qed.

Lemma trim_front_spec cs : forall fuel pre,
  (length cs <= fuel)%nat ->
  exists pre', pre' ++ drop_while is_blank cs = pre ++ cs /\
    trim_front fuel (pre ++ cs) (Z.of_nat (length pre)) (Z.of_nat (length cs)) =
    Some (Z.of_nat (length pre'), Z.of_nat (length (drop_while is_blank cs))).
Proof.
  induction cs as [|c cs IH]; intros fuel pre Hf.
  - exists pre. split; [done|]. by destruct fuel.
  - destruct fuel as [|fuel]; [cbn in Hf; lia|]. cbn [trim_front drop_while].
    rewrite (proj2 (Z.leb_gt _ _)) by (cbn; lia). rewrite rd_at0. cbn [lookup list_lookup mbind option_bind].
    rewrite <- negb_orb. change ((c =? 32) || (c =? 9)) with (is_blank c). destruct (is_blank c); cbn [negb].
    + destruct (IH fuel (pre ++ [c])) as (pre' & E1 & E2); [cbn in Hf; lia|].
      rewrite <- app_assoc in E1, E2. exists pre'. split; [done|]. rewrite <- E2. f_equal.
      * rewrite length_app. cbn. lia.
      * cbn. lia.
    + by exists pre.
Qed.

Lemma trim_back_spec cs : forall fuel pre post,
  (length cs <= fuel)%nat ->
  trim_back fuel (pre ++ reverse cs ++ post) (Z.of_nat (length pre)) (Z.of_nat (length cs)) =
  Some (Z.of_nat (length (drop_while is_space cs))).
Proof.
  induction cs as [|c cs IH]; intros fuel pre post Hf; [by destruct fuel|].
  destruct fuel as [|fuel]; [cbn in Hf; lia|]. cbn [trim_back drop_while].
  rewrite (proj2 (Z.leb_gt _ _)) by (cbn; lia).
  replace (Z.of_nat (length (c :: cs)) - 1) with (Z.of_nat (length cs)) by (cbn; lia).
  rewrite reverse_cons, <- app_assoc, rd_at by lia. cbn [app].
  rewrite list_lookup_middle by (rewrite length_reverse; lia). cbn [mbind option_bind].
  destruct (is_space c); [|done]. apply IH. cbn in Hf. lia.
Qed.

Lemma pad_loop_spec buf dst n k :
  (k <= 2)%nat -> 0 <= n -> n + 2 < 2 ^ 64 -> (n + Z.of_nat k) mod 3 = 0 -> 0 <= dst ->
  dst + n + Z.of_nat k <= Z.of_nat (length buf) ->
  exists buf', wrs buf (dst + n) (replicate k 0) = Some buf' /\ pad_loop 2 buf dst n = Some (n + Z.of_nat k, buf').
Proof.
  intros Hk Hn Hmax Hm Hd Hfit. pose proof (Z.mod_pos_bound n 3).
  assert (n mod 3 = (- Z.of_nat k) mod 3) as Em.
  { replace n with (- Z.of_nat k + (n + Z.of_nat k)) at 1 by lia. by rewrite Z.add_mod, Hm, Z.add_0_r, Z.mod_mod by lia. }
  destruct k as [|[|[|]]]; [..|lia]; cbn [pad_loop replicate]; rewrite Em; cbn [Z.eqb Z.modulo Z.of_nat].
  - exists buf. rewrite Z.add_0_r. split; [|done]. apply wrs_nil. lia.
  - destruct (wrs_fits buf (dst + n) [0]) as (buf' & E); [lia|cbn; lia|]. exists buf'. split; [done|].
    change ((- Z.of_nat 1) mod 3 =? 0) with false. cbn iota. unfold wr. rewrite E. cbn [mbind option_bind].
    rewrite wrapu_id by (unfold in_u; lia). change (Z.of_nat 1) with 1 in *. by rewrite Hm.
  - destruct (wrs_fits buf (dst + n) [0; 0]) as (buf' & E); [lia|cbn; lia|]. exists buf'. split; [done|].
    change ((- Z.of_nat 2) mod 3 =? 0) with false. cbn iota. unfold wr.
    change [0; 0] with ([0] ++ [0]) in E. rewrite wrs_app in E.
    destruct (wrs buf (dst + n) [0]) as [buf1|]; [|done]. cbn [mbind option_bind] in *.
    change (Z.of_nat 2) with 2 in *. rewrite (wrapu_id 64 (n + 1)) by (unfold in_u; lia).
    assert (((n + 1) mod 3 =? 0) = false) as ->.
    { apply Z.eqb_neq. intros H0. replace (n + 2) with (n + 1 + 1) in Hm by lia.
      rewrite Z.add_mod, H0 in Hm by lia. done. }
    rewrite Z.add_assoc. change (length [0]) with 1%nat in E. change (Z.of_nat 1) with 1 in E. rewrite E. cbn [mbind option_bind].
    rewrite wrapu_id by (unfold in_u; lia). replace (n + 1 + 1) with (n + 2) by lia. by rewrite Hm.
Qed.

Lemma trims cs : exists pre post, cs = pre ++ trim cs ++ post /\
  trim_front (length cs) cs 0 (Z.of_nat (length cs)) =
    Some (Z.of_nat (length pre), Z.of_nat (length (trim cs ++ post))) /\
  trim_back (length (trim cs ++ post)) cs (Z.of_nat (length pre)) (Z.of_nat (length (trim cs ++ post))) =
    Some (Z.of_nat (length (trim cs))).
Proof.
  destruct (trim_front_spec cs (length cs) []) as (pre & E1 & E2); [lia|]. cbn [app length] in E1, E2.
  set (ds := drop_while is_blank cs) in *.
  destruct (drop_while_suffix is_space (reverse ds)) as (w & Ew).
  assert (ds = trim cs ++ reverse w) as Eds.
  { rewrite <- (reverse_involutive ds), Ew, reverse_app. done. }
  exists pre, (reverse w). rewrite <- Eds. split; [by symmetry|]. split; [exact E2|].
  pose proof (trim_back_spec (reverse ds) (length ds) pre []) as H.
  rewrite reverse_involutive, app_nil_r, length_reverse, E1 in H. rewrite H by lia. unfold trim. fold ds. by rewrite length_reverse.
Qed.

Lemma EVP_DecodeBlock_spec cs buf dst :
  Forall (in_u 8) cs -> Z.of_nat (length cs) < 2 ^ 64 -> 0 <= dst ->
  let n := Z.of_nat (length (trim cs)) / 4 * 3 in
  dst + n <= Z.of_nat (length buf) ->
  exists r buf', EVP_DecodeBlock buf dst cs (Z.of_nat (length cs)) = Some (r, buf') /\
    match (if (Z.of_nat (length (trim cs)) mod 4 =? 0) && (n <=? INT_MAX_)
           then unb64 false (trim cs) else None) with
    | Some (bs, _, _) =>
        r = n /\ wrs buf dst (bs ++ replicate (Z.to_nat (n - Z.of_nat (length bs))) 0) = Some buf'
    | None => r = -1 /\ within buf dst n buf'
    end.
Proof.
  intros Hcs Hmax Hd n Hfit. destruct (trims cs) as (pre & post & Ecs & E1 & E2).
  assert (Z.of_nat (length (trim cs)) <= Z.of_nat (length cs)) as Hlt by (rewrite Ecs at 2; rewrite !length_app; lia).
  assert (Forall (in_u 8) (trim cs)) as Ht by (rewrite Ecs in Hcs; apply Forall_app in Hcs as [_ [? _]%Forall_app]; done).
  assert (0 <= n <= Z.of_nat (length (trim cs))) as Hn.
  { subst n. pose proof (Z.div_mod (Z.of_nat (length (trim cs))) 4).
    pose proof (Z.mod_pos_bound (Z.of_nat (length (trim cs))) 4). lia. }
  unfold EVP_DecodeBlock. rewrite Nat2Z.id, E1. cbn [mbind option_bind]. rewrite Nat2Z.id, E2. cbn [mbind option_bind].
  unfold EVP_DecodedLength. destruct (Z.of_nat (length (trim cs)) mod 4 =? 0) eqn:Em; cbn [negb andb].
  2: { exists (-1), buf. split_and!; [done..|]. apply within_none; lia. }
  fold n. rewrite (wrapu_id 64 n) by (unfold in_u; lia).
  destruct (Z.leb_spec n INT_MAX_) as [Hi|Hi]; [rewrite (proj2 (Z.ltb_ge _ _)) by done|].
  2: { rewrite (proj2 (Z.ltb_lt _ _)) by done. exists (-1), buf. split_and!; [done..|]. apply within_none; lia. }
  destruct (EVP_DecodeBase64_spec pre (trim cs) post buf dst n) as (r & k & buf1 & E & Hr); [done|lia|done|done|].
  rewrite <- Ecs in E. rewrite E. cbn [mbind option_bind]. fold n in Hr.
  rewrite Em, Z.leb_refl in Hr. cbn [andb] in Hr.
  destruct (unb64 false (trim cs)) as [[[bs rest] e]|] eqn:Eu.
  2: { destruct Hr as (-> & -> & Hw). by exists (-1), buf1. }
  destruct Hr as (-> & -> & Hw). apply unb64_length in Eu. fold n in Eu. cbn [Z.eqb].
  pose proof (wrs_length _ _ _ _ Hw) as Hl1.
  destruct (pad_loop_spec buf1 dst (Z.of_nat (length bs)) (Z.to_nat (n - Z.of_nat (length bs))))
    as (buf' & Ew & Ep).
  { destruct e; lia. } { lia. } { unfold INT_MAX_ in *; lia. }
  { rewrite Z2Nat.id by lia. replace (_ + _) with n by lia. subst n. by rewrite Z.mod_mul. }
  { done. } { lia. }
  rewrite Ep. cbn [mbind option_bind]. rewrite Z2Nat.id by lia.
  replace (Z.of_nat (length bs) + (n - Z.of_nat (length bs))) with n by lia.
  rewrite (proj2 (Z.ltb_ge _ _)) by done. exists n, buf'. split_and!; [done..|].
  rewrite wrs_app, Hw. done.
Qed.

(** ** Lengths *)

(** [EVP_EncodedLength] is exact, and fails exactly when the length does not
    fit [size_t]. *)
Lemma EVP_EncodedLength_spec len :
  in_u 64 len ->
  EVP_EncodedLength len =
  if 4 * ((len + 2) / 3) + 1 <? 2 ^ 64 then Some (4 * ((len + 2) / 3) + 1) else None.
Proof.
  unfold in_u, EVP_EncodedLength. intros Hl.
  pose proof (Z.div_mod (len + 2) 3). pose proof (Z.mod_pos_bound (len + 2) 3).
  destruct (decide (len + 2 < 2 ^ 64)).
  - rewrite (wrapu_id 64 (len + 2)) by (unfold in_u; lia). rewrite (proj2 (Z.ltb_ge _ _)) by lia.
    set (q := (len + 2) / 3) in *. rewrite !Z.shiftl_mul_pow2 by lia. change (2 ^ 2) with 4.
    destruct (decide (q * 4 < 2 ^ 64)).
    + rewrite (wrapu_id 64 (q * 4)) by (unfold in_u; lia). rewrite Z.shiftr_div_pow2 by lia.
      change (2 ^ 2) with 4. rewrite Z.div_mul by lia. rewrite Z.eqb_refl. cbn [negb].
      rewrite wrapu_id by (unfold in_u; lia). rewrite (proj2 (Z.ltb_ge _ _)) by lia.
      rewrite (proj2 (Z.ltb_lt _ _)) by lia. f_equal. lia.
    + rewrite (proj2 (Z.ltb_ge (4 * q + 1) _)) by lia.
      assert (u64 (q * 4) = q * 4 - 2 ^ 64) as -> by (symmetry; apply (Z.mod_unique _ _ 1); lia).
      rewrite Z.shiftr_div_pow2 by lia. replace (q * 4 - 2 ^ 64) with ((q - 2 ^ 62) * 2 ^ 2) by lia.
      rewrite Z.div_mul by lia. rewrite (proj2 (Z.eqb_neq _ _)) by lia. done.
  - assert (u64 (len + 2) = len + 2 - 2 ^ 64) as -> by (symmetry; apply (Z.mod_unique _ _ 1); lia).
    rewrite (proj2 (Z.ltb_lt _ _)) by lia. rewrite (proj2 (Z.ltb_ge _ _)) by lia. done.
Qed.
