(* ===== verification/Base64Stream.v ===== *)
(** * BoringSSL: base64 streams

    Encoding and decoding in pieces gives the same result as in one go,
    however the input is cut. *)
From S2P Require Import Prelude CBuf Base64 Base64Spec Base64Block.

(** ** PEM lines: 48 bytes each, the last one shorter *)

Fixpoint full_lines (k : nat) (bs : list Z) : list Z :=
  match k with
  | O => []
  | S k' => (b64 (take 48 bs) ++ [10]) ++ full_lines k' (drop 48 bs)
  end.

Definition last_line (bs : list Z) : list Z := if bool_decide (bs = []) then [] else b64 bs ++ [10].

Definition pem (bs : list Z) : list Z :=
  full_lines (length bs / 48) bs ++ last_line (drop (48 * (length bs / 48)) bs).

Lemma pem_short bs : (length bs < 48)%nat -> pem bs = last_line bs.
Proof. intros H. unfold pem. rewrite Nat.div_small by lia. done. Qed.

Lemma pem_line l bs : length l = 48%nat -> pem (l ++ bs) = (b64 l ++ [10]) ++ pem bs.
Proof.
  intros Hl. unfold pem. rewrite length_app, Hl.
  replace ((48 + length bs) / 48)%nat with (S (length bs / 48)).
  2: { replace (48 + length bs)%nat with (length bs + 1 * 48)%nat by lia. rewrite Nat.div_add by lia. lia. }
  cbn [full_lines]. rewrite take_app_length' by done. rewrite drop_app_length' by done.
  rewrite <- app_assoc. do 3 f_equal. rewrite drop_app_ge by lia. f_equal. lia.
Qed.

Lemma pem_split k : forall q r, (48 * k <= length q)%nat ->
  pem (q ++ r) = full_lines k q ++ pem (drop (48 * k) q ++ r).
Proof.
  induction k as [|k IH]; intros q r Hk; [done|].
  rewrite <- (take_drop 48 q) at 1. rewrite <- app_assoc, pem_line by (rewrite length_take; lia).
  rewrite IH by (rewrite length_drop; lia). cbn [full_lines]. rewrite drop_drop, <- !app_assoc.
  replace (48 + 48 * k)%nat with (48 * S k)%nat by lia. done.
Qed.

Lemma length_b64_48 l : length l = 48%nat -> length (b64 l) = 64%nat.
Proof. intros Hl. pose proof (length_b64 l) as E. rewrite Hl in E. apply Nat2Z.inj. rewrite E. done. Qed.

Lemma length_full_lines k : forall bs, (48 * k <= length bs)%nat -> length (full_lines k bs) = (65 * k)%nat.
Proof.
  induction k as [|k IH]; intros bs Hk; [done|]. cbn [full_lines].
  rewrite !length_app, IH, length_b64_48 by (rewrite ?length_take, ?length_drop; lia). cbn. lia.
Qed.

(** ** Encoding *)

(** The lines and a terminator, or nothing when there is no line. *)
Definition emit (buf : list Z) (out : Z) (text : list Z) : option (list Z) :=
  match text with [] => Some buf | _ => wrs buf out (text ++ [0]) end.

Lemma emit_app buf out a b :
  a <> [] -> (buf' ← emit buf out a; emit buf' (out + Z.of_nat (length a)) b) = emit buf out (a ++ b).
Proof.
  intros Ha. destruct a as [|x a]; [done|]. destruct b as [|y b].
  - rewrite app_nil_r. cbn. by destruct (wrs _ _ _).
  - cbn [emit app]. rewrite <- app_assoc. exact (wrs_over buf out (x :: a) 0 y (b ++ [0])).
Qed.

Lemma emit_length buf out text buf' : emit buf out text = Some buf' -> length buf' = length buf.
Proof. destruct text; [by intros [= ->]|]. apply wrs_length. Qed.

Lemma encode_line_spec buf out line :
  length line = 48%nat -> Forall (in_u 8) line -> 0 <= out <= Z.of_nat (length buf) ->
  encode_line buf out line = buf' ← emit buf out (b64 line ++ [10]); Some (64, out + 65, buf').
Proof.
  intros Hl Hb Ho. unfold encode_line, sizeof_data. rewrite <- (app_nil_r line) at 1.
  change 48 with (Z.of_nat 48). rewrite <- Hl.
  pose proof (length_b64_48 line Hl) as Hlen.
  rewrite EVP_EncodeBlock_spec by (done || lia). rewrite Hlen. change (Z.of_nat 64) with 64.
  assert (emit buf out (b64 line ++ [10]) =
          (buf' ← wrs buf out (b64 line ++ [0]); wrs buf' (out + 64) [10; 0])) as ->.
  { change 64 with (Z.of_nat 64). rewrite <- Hlen, wrs_over.
    destruct (b64 line) as [|x l]; [done|]. cbn [emit app]. by rewrite <- app_assoc. }
  destruct (wrs buf out _) as [buf1|]; [|done]. cbn [mbind option_bind].
  change [10; 0] with ([10] ++ [0]). rewrite wrs_app. unfold wr. destruct (wrs buf1 _ [10]) as [buf2|]; [|done].
  cbn [mbind option_bind length]. change (Z.of_nat 1) with 1. destruct (wrs buf2 _ _); [|done].
  cbn [mbind option_bind]. do 3 f_equal. lia.
Qed.

Lemma encode_update_loop_spec k : forall fuel buf out pre bs rest total,
  length bs = (48 * k)%nat -> (length rest < 48)%nat -> Forall (in_u 8) bs -> (k <= fuel)%nat ->
  0 <= out -> out + 65 * Z.of_nat k + (if bool_decide (k = 0%nat) then 0 else 1) <= Z.of_nat (length buf) ->
  0 <= total -> total + 65 * Z.of_nat k < 2 ^ 64 ->
  exists buf', emit buf out (full_lines k bs) = Some buf' /\
    encode_update_loop fuel buf out (pre ++ bs ++ rest) (Z.of_nat (length pre))
      (Z.of_nat (length (bs ++ rest))) total =
    Some (Some (total + 65 * Z.of_nat k), Z.of_nat (length (pre ++ bs)), Z.of_nat (length rest), buf').
Proof.
  induction k as [|k IH]; intros fuel buf out pre bs rest total Hl Hr Hb Hf Ho Hfit Ht Hmax.
  - destruct bs; [|done]. exists buf. split; [done|]. cbn [app]. rewrite app_nil_r, !Z.add_0_r.
    destruct fuel; cbn [encode_update_loop]; unfold sizeof_data; by rewrite (proj2 (Z.ltb_lt _ _)) by lia.
  - destruct fuel as [|fuel]; [lia|]. cbn [encode_update_loop full_lines].
    rewrite bool_decide_eq_false_2 in Hfit by done.
    rewrite <- (take_drop 48 bs) in Hb |- *. set (l := take 48 bs) in *. set (bs' := drop 48 bs) in *.
    assert (length l = 48%nat) as Hl1 by (subst l; rewrite length_take; lia).
    assert (length bs' = 48 * k)%nat as Hl2 by (subst bs'; rewrite length_drop; lia).
    apply Forall_app in Hb as [Hb1 Hb2].
    rewrite take_app_length', drop_app_length' by done.
    unfold sizeof_data in *. rewrite (proj2 (Z.ltb_ge _ _)) by (rewrite !length_app; lia).
    rewrite <- (app_assoc l bs' rest).
    assert (rds (pre ++ l ++ bs' ++ rest) (Z.of_nat (length pre)) 48 = Some l) as ->
      by (pose proof (rds_at pre l (bs' ++ rest)) as E; by rewrite Hl1 in E).
    cbn [mbind option_bind].
    rewrite encode_line_spec by (done || lia).
    destruct (emit buf out (b64 l ++ [10])) as [buf1|] eqn:E1.
    2: { exfalso. destruct (wrs_fits buf out ((b64 l ++ [10]) ++ [0])) as (? & E); [done|rewrite !length_app, length_b64_48 by done; cbn; lia|].
         unfold emit in E1. destruct (b64 l ++ [10]); congruence. }
    pose proof (emit_length _ _ _ _ E1) as Hlb. cbn [mbind option_bind].
    rewrite (wrapu_id 64 (total + 64 + 1)), (proj2 (Z.ltb_ge _ _)) by (unfold in_u; lia).
    change (u64 (64 + 1)) with 65. rewrite wrapu_id by (unfold in_u; lia).
    destruct (IH fuel buf1 (out + 65) (pre ++ l) bs' rest (total + 65)) as (buf' & E2 & E3);
      [done|done|done|lia|lia|case_bool_decide; lia|lia|lia|].
    exists buf'. split.
    + rewrite <- emit_app by (by destruct (b64 l)). rewrite E1. cbn [mbind option_bind].
      rewrite length_app, length_b64_48 by done. exact E2.
    + rewrite <- !app_assoc in E3. rewrite (length_app pre), Nat2Z.inj_add, Hl1 in E3.
      replace (Z.of_nat (length (l ++ bs' ++ rest)) - 48) with (Z.of_nat (length (bs' ++ rest)))
        by (rewrite !length_app; lia).
      change (Z.of_nat 48) with 48 in E3. rewrite E3. do 4 f_equal. f_equal. lia.
Qed.

(** The context holds the bytes [p] of an unfinished line. *)
Record holds (ctx : evp_encode_ctx) (p : list Z) : Prop := {
  hd_used : data_used ctx = Z.of_nat (length p);
  hd_size : length (data ctx) = 48%nat;
  hd_less : (length p < 48)%nat;
  hd_data : take (length p) (data ctx) = p }.

Lemma holds_zero : holds zero_ctx [].
Proof. split; try done. cbn. lia. Qed.

Definition room (k : nat) : Z := 65 * Z.of_nat k + (if bool_decide (k = 0%nat) then 0 else 1).

Lemma encode_update_rest_spec k ctx buf out pre bs rest total :
  length (data ctx) = 48%nat ->
  length bs = (48 * k)%nat -> (length rest < 48)%nat -> Forall (in_u 8) bs ->
  0 <= out -> out + room k <= Z.of_nat (length buf) ->
  0 <= total -> total + 65 * Z.of_nat k <= INT_MAX_ ->
  exists ctx' buf', emit buf out (full_lines k bs) = Some buf' /\ holds ctx' rest /\
    encode_update_rest ctx buf out (pre ++ bs ++ rest) (Z.of_nat (length pre)) (Z.of_nat (length (bs ++ rest))) total
    = Some (ctx', total + 65 * Z.of_nat k, buf').
Proof.
  intros Hd Hl Hr Hb Ho Hfit Ht Hmax. unfold room, INT_MAX_ in *.
  destruct (encode_update_loop_spec k (Z.to_nat (Z.of_nat (length (bs ++ rest)))) buf out pre bs rest total)
    as (buf' & E1 & E2); try done; [rewrite length_app; lia|lia|lia|].
  unfold encode_update_rest. rewrite E2. cbn [mbind option_bind].
  assert (rds (pre ++ bs ++ rest) (Z.of_nat (length (pre ++ bs))) (Z.of_nat (length rest)) = Some rest) as Erd.
  { pose proof (rds_at (pre ++ bs) rest []) as E. by rewrite app_nil_r, <- app_assoc in E. }
  destruct (wrs_fits (data ctx) 0 rest) as (d & Ed); [lia|lia|].
  exists (set_data (u32 (Z.of_nat (length rest))) d ctx), buf'. split; [done|].
  rewrite (proj2 (Z.ltb_ge _ (total + _))) by (unfold INT_MAX_; lia).
  assert (wrapu 32 (Z.of_nat (length rest)) = Z.of_nat (length rest)) as -> by (apply wrapu_id; unfold in_u; lia).
  pose proof (wrs_length _ _ _ _ Ed) as Hdl. apply wrs_Some in Ed as Ed'. destruct Ed' as (_ & _ & ->).
  split.
  - split; cbn [set_data data_used data]; try done; [lia|]. change (Z.to_nat 0) with 0%nat.
    change (splice 0 rest (data ctx)) with (rest ++ drop (length rest) (data ctx)). by rewrite take_app_length.
  - destruct (Z.eqb_spec (Z.of_nat (length rest)) 0) as [E0|E0]; cbn [negb].
    + destruct rest; [|done]. done.
    + rewrite Erd. cbn [mbind option_bind]. rewrite Ed. done.
Qed.

Lemma div48 n k r : (n = 48 * k + r)%nat -> (r < 48)%nat -> (n / 48 = k)%nat.
Proof. intros -> Hr. symmetry. apply (Nat.div_unique _ 48 k r); lia. Qed.

Lemma full_lines_take k : forall bs, (48 * k <= length bs)%nat -> full_lines k bs = full_lines k (take (48 * k) bs).
Proof.
  induction k as [|k IH]; intros bs Hl; [done|]. cbn [full_lines].
  rewrite take_take, skipn_firstn_comm, (IH (drop 48 bs)) by (rewrite length_drop; lia).
  repeat f_equal; lia.
Qed.

(** The call that completes the line held back. *)
Lemma later_lines ctx p buf out inp todo k :
  length (data ctx) = 48%nat -> take (length p) (data ctx) = p -> p <> [] -> data_used ctx = Z.of_nat (length p) ->
  Forall (in_u 8) (p ++ inp) -> todo = 48 - Z.of_nat (length p) -> 0 <= todo <= Z.of_nat (length inp) ->
  0 <= out -> out + room (S k) <= Z.of_nat (length buf) -> 65 * Z.of_nat (S k) <= INT_MAX_ ->
  (48 * S k <= length (p ++ inp) < 48 * S k + 48)%nat ->
  exists ctx' buf',
    ('(ctx, buf, out, i, in_len, total) ←
       (piece ← rds inp 0 todo; d ← wrs (data ctx) (Z.of_nat (length p)) piece;
        '(encoded, out, buf) ← encode_line buf out d;
        Some (set_data 0 d ctx, buf, out, todo, Z.of_nat (length inp) - todo, u64 (encoded + 1)));
     encode_update_rest ctx buf out inp i in_len total) = Some (ctx', 65 * Z.of_nat (S k), buf') /\
    emit buf out (full_lines (S k) (p ++ inp)) = Some buf' /\ holds ctx' (drop (48 * S k) (p ++ inp)).
Proof.
  intros Hs Hd Hp Hu Hb -> Ht Ho Hfit Hmax Hlen. unfold room in Hfit. rewrite bool_decide_eq_false_2 in Hfit by done.
  rewrite <- (take_drop (48 - length p) inp) in Hb, Hlen |- *.
  set (piece := take (48 - length p) inp) in *. set (inp' := drop (48 - length p) inp) in *.
  assert (length piece = 48 - length p)%nat as Hl1 by (subst piece; rewrite length_take; lia).
  rewrite app_assoc in Hb, Hlen |- *. apply Forall_app in Hb as [Hb1 Hb2].
  assert (length (p ++ piece) = 48%nat) as Hl2 by (rewrite length_app; lia). rewrite length_app, Hl2 in Hlen.
  replace (48 - Z.of_nat (length p)) with (Z.of_nat (length piece)) by lia. rewrite rds_prefix. cbn [mbind option_bind].
  assert (wrs (data ctx) (Z.of_nat (length p)) piece = Some (p ++ piece)) as ->.
  { apply wrs_Some. split_and!; [lia..|]. unfold splice. rewrite Nat2Z.id, Hd, drop_ge, app_nil_r by lia. done. }
  cbn [mbind option_bind]. rewrite encode_line_spec by (done || lia).
  destruct (emit buf out (b64 (p ++ piece) ++ [10])) as [buf1|] eqn:E1.
  2: { exfalso. destruct (wrs_fits buf out ((b64 (p ++ piece) ++ [10]) ++ [0])) as (? & E);
         [done|rewrite !length_app, length_b64_48 by done; cbn; lia|].
       unfold emit in E1. destruct (b64 (p ++ piece) ++ [10]); congruence. }
  pose proof (emit_length _ _ _ _ E1) as Hlb. cbn [mbind option_bind]. change (u64 (64 + 1)) with 65.
  destruct (encode_update_rest_spec k (set_data 0 (p ++ piece) ctx) buf1 (out + 65) piece
              (take (48 * k) inp') (drop (48 * k) inp') 65) as (ctx' & buf' & E2 & Hh & E3);
    [done|rewrite length_take; lia|rewrite length_drop; lia|by apply Forall_take|lia
    |unfold room; case_bool_decide; lia|lia|lia|].
  rewrite take_drop in E3. exists ctx', buf'. split_and!.
  - rewrite length_app. replace (Z.of_nat (length piece + length inp') - Z.of_nat (length piece))
      with (Z.of_nat (length inp')) by lia. rewrite E3. do 3 f_equal. lia.
  - cbn [full_lines]. rewrite take_app_length', drop_app_length' by done.
    rewrite <- emit_app by (by destruct (b64 _)). rewrite E1. cbn [mbind option_bind].
    rewrite length_app, length_b64_48, full_lines_take by (done || lia). exact E2.
  - replace (48 * S k)%nat with (length (p ++ piece) + 48 * k)%nat by lia. by rewrite drop_app_add.
Qed.

(** One call: the complete lines come out, the rest is held back. *)
Lemma EVP_EncodeUpdate_spec ctx p buf out inp :
  holds ctx p -> Forall (in_u 8) (p ++ inp) ->
  let k := (length (p ++ inp) / 48)%nat in
  0 <= out -> out + room k <= Z.of_nat (length buf) -> 65 * Z.of_nat k <= INT_MAX_ ->
  exists ctx' buf', EVP_EncodeUpdate ctx buf out inp (Z.of_nat (length inp)) = Some (ctx', 65 * Z.of_nat k, buf') /\
    emit buf out (full_lines k (p ++ inp)) = Some buf' /\ holds ctx' (drop (48 * k) (p ++ inp)).
Proof.
  intros [Hu Hs Hl Hd] Hb k Ho Hfit Hmax.
  pose proof (Nat.div_mod (length (p ++ inp)) 48 ltac:(lia)) as Hdm. fold k in Hdm.
  pose proof (Nat.mod_upper_bound (length (p ++ inp)) 48 ltac:(lia)) as Hmd. clearbody k.
  unfold EVP_EncodeUpdate, sizeof_data in *. rewrite Hu. rewrite (proj2 (Z.ltb_lt (Z.of_nat (length p)) 48)) by lia.
  destruct (decide (inp = [])) as [->|Hne].
  { cbn [length Z.of_nat Z.eqb]. rewrite app_nil_r in *. assert (k = 0%nat) as -> by lia.
    by exists ctx, buf. }
  rewrite (proj2 (Z.eqb_neq (Z.of_nat (length inp)) 0)) by (destruct inp; cbn; [done|lia]). cbn [negb].
  rewrite length_app in *. destruct (Z.ltb_spec (Z.of_nat (length inp)) (48 - Z.of_nat (length p))) as [Hlt|Hge].
  - assert (k = 0%nat) as Ek by lia. rewrite Ek in *. rewrite rds_all. cbn [mbind option_bind].
    destruct (wrs_fits (data ctx) (Z.of_nat (length p)) inp) as (d & Ed); [lia|lia|]. rewrite Ed.
    cbn [mbind option_bind]. rewrite (wrapu_id 32 (Z.of_nat (length inp))), wrapu_id by (unfold in_u; lia).
    eexists _, buf. split; [done|]. split; [done|]. pose proof (wrs_length _ _ _ _ Ed). apply wrs_Some in Ed as (_ & _ & ->).
    change (drop (48 * 0) (p ++ inp)) with (p ++ inp).
    split; cbn [set_data data_used data]; rewrite ?length_app; [lia|lia|lia|].
    rewrite Nat2Z.id. unfold splice. rewrite Hd, app_assoc, <- length_app. by rewrite take_app_length.
  - destruct (decide (p = [])) as [->|Hp].
    + rewrite Z.eqb_refl. cbn [negb mbind option_bind app length Nat.add] in *.
      destruct (encode_update_rest_spec k ctx buf out [] (take (48 * k) inp) (drop (48 * k) inp) 0)
        as (ctx' & buf' & E1 & Hh & E2);
        [done|rewrite length_take; lia|rewrite length_drop; lia|by apply Forall_take|done|done|lia|lia|].
      exists ctx', buf'. rewrite take_drop in E2. rewrite <- (full_lines_take k inp) in E1 by lia. done.
    + rewrite (proj2 (Z.eqb_neq (Z.of_nat (length p)) 0)) by (destruct p; cbn; [done|lia]). cbn [negb].
      destruct k as [|k]; [lia|]. apply (later_lines _ _ _ _ _ _ k Hs Hd Hp); try done; [lia..|].
      rewrite length_app. lia.
Qed.

Lemma EVP_EncodeFinal_spec ctx p buf out :
  holds ctx p -> Forall (in_u 8) p -> 0 <= out ->
  out + Z.of_nat (length (last_line p)) + 1 <= Z.of_nat (length buf) ->
  exists ctx' buf', EVP_EncodeFinal ctx buf out = Some (ctx', Z.of_nat (length (last_line p)), buf') /\
    emit buf out (last_line p) = Some buf' /\ data_used ctx' = 0.
Proof.
  intros [Hu Hs Hl Hd] Hb Ho Hfit. unfold EVP_EncodeFinal, last_line in *. rewrite Hu.
  case_bool_decide as Hp.
  { subst p. by exists ctx, buf. }
  rewrite (proj2 (Z.eqb_neq _ _)) by (destruct p; cbn; [done|lia]).
  pose proof (length_b64 p) as Hlb.
  assert (Z.of_nat (length (b64 p)) <= 64) as Hle.
  { rewrite Hlb. assert ((Z.of_nat (length p) + 2) / 3 < 17); [apply Z.div_lt_upper_bound|]; lia. }
  rewrite length_app in *. cbn [length] in *. rewrite <- (take_drop (length p) (data ctx)), Hd.
  rewrite EVP_EncodeBlock_spec by (done || lia).
  assert (emit buf out (b64 p ++ [10]) =
          (buf' ← wrs buf out (b64 p ++ [0]); wrs buf' (out + Z.of_nat (length (b64 p))) ([10] ++ [0]))) as ->.
  { cbn [app]. rewrite wrs_over. destruct (b64 p) as [|x l]; [done|]. cbn [emit app]. by rewrite <- app_assoc. }
  destruct (wrs_fits buf out (b64 p ++ [0])) as (buf1 & E1); [lia|rewrite length_app; cbn; lia|].
  rewrite E1. cbn [mbind option_bind]. pose proof (wrs_length _ _ _ _ E1).
  destruct (wrs_fits buf1 (out + Z.of_nat (length (b64 p))) ([10] ++ [0])) as (buf2 & E2); [lia|cbn; lia|].
  rewrite E2. rewrite wrs_app in E2. unfold wr. destruct (wrs buf1 _ [10]) as [buf3|]; [|done]. cbn [mbind option_bind] in *.
  rewrite wrapu_id by (unfold in_u; lia). rewrite Z.add_assoc. change (Z.of_nat (length [10])) with 1 in E2. rewrite E2.
  cbn [mbind option_bind]. rewrite (proj2 (Z.ltb_ge _ _)) by (unfold INT_MAX_; lia).
  eexists _, buf2. split_and!; [rewrite Nat2Z.inj_add; done|done|done].
Qed.

(** A client: [EVP_EncodeUpdate] on each piece at the end of the output so far,
    then [EVP_EncodeFinal]. *)
Fixpoint encode_pieces (ctx : evp_encode_ctx) (buf : list Z) (out : Z) (pieces : list (list Z))
  : option (Z * list Z) :=
  match pieces with
  | [] => '(ctx, n, buf) ← EVP_EncodeFinal ctx buf out; Some (out + n, buf)
  | piece :: pieces' =>
      '(ctx, n, buf) ← EVP_EncodeUpdate ctx buf out piece (Z.of_nat (length piece));
      encode_pieces ctx buf (out + n) pieces'
  end.

Lemma length_pem_split k q r : (48 * k <= length q)%nat ->
  length (pem (q ++ r)) = (65 * k + length (pem (drop (48 * k) q ++ r)))%nat.
Proof. intros Hk. rewrite (pem_split k) by done. by rewrite length_app, length_full_lines. Qed.

Lemma encode_pieces_spec pieces : forall ctx p buf out,
  holds ctx p -> Forall (in_u 8) (p ++ concat pieces) -> 0 <= out ->
  out + Z.of_nat (length (pem (p ++ concat pieces))) + 1 <= Z.of_nat (length buf) ->
  Z.of_nat (length (pem (p ++ concat pieces))) <= INT_MAX_ ->
  exists buf', emit buf out (pem (p ++ concat pieces)) = Some buf' /\
    encode_pieces ctx buf out pieces = Some (out + Z.of_nat (length (pem (p ++ concat pieces))), buf').
Proof.
  induction pieces as [|piece pieces IH]; intros ctx p buf out Hh Hb Ho Hfit Hmax; cbn [concat encode_pieces] in *.
  - rewrite app_nil_r in *. rewrite pem_short in * by apply Hh.
    destruct (EVP_EncodeFinal_spec ctx p buf out Hh Hb Ho Hfit) as (ctx' & buf' & E1 & E2 & _).
    exists buf'. split; [done|]. by rewrite E1.
  - rewrite app_assoc in *. set (q := p ++ piece) in *. set (k := (length q / 48)%nat).
    assert (48 * k <= length q)%nat as Hk by (apply Nat.Div0.mul_div_le).
    rewrite (length_pem_split k q) in * by done.
    destruct (EVP_EncodeUpdate_spec ctx p buf out piece Hh) as (ctx' & buf1 & E1 & E2 & Hh');
      [by apply Forall_app in Hb as [? _]|done|fold q k; unfold room; case_bool_decide; lia|fold q k; lia|].
    fold q k in E1, E2, Hh'. rewrite E1. cbn [mbind option_bind].
    pose proof (emit_length _ _ _ _ E2).
    destruct (IH ctx' (drop (48 * k) q) buf1 (out + 65 * Z.of_nat k)) as (buf' & E3 & E4); [done| |lia..|].
    { rewrite <- (take_drop (48 * k) q), <- app_assoc in Hb. by apply Forall_app in Hb as [_ ?]. }
    exists buf'. split.
    + rewrite (pem_split k) by done. destruct (full_lines k q) eqn:Ef.
      * assert (k = 0%nat) as Ek by (pose proof (length_full_lines k q Hk) as E; rewrite Ef in E; cbn [length] in E; lia).
        rewrite Ek in *. cbn in E2. injection E2 as <-. by rewrite Z.add_0_r in E3.
      * rewrite <- Ef. rewrite <- Ef in E2. rewrite <- emit_app by (by rewrite Ef). rewrite E2. cbn [mbind option_bind].
        rewrite length_full_lines by done. rewrite Nat2Z.inj_mul. exact E3.
    + rewrite E4. do 2 f_equal. lia.
Qed.

(** ** Decoding *)

Abbreviation ink := (filter (fun c : Z => is_space c = false)).

Record dholds (ctx : evp_encode_ctx) (p : list Z) (e : bool) : Prop := {
  dh_used : data_used ctx = Z.of_nat (length p);
  dh_size : length (data ctx) = 48%nat;
  dh_data : take (length p) (data ctx) = p;
  dh_less : (length p < 4)%nat;
  dh_eof : eof_seen ctx = e;
  dh_excl : e = true -> p = [];
  dh_ok : error_encountered ctx = false }.

Lemma unb64_app a : forall e b,
  unb64 e (a ++ b) = '(x, r, e') ← unb64 e a; '(y, r', e'') ← unb64 e' (r ++ b); Some (x ++ y, r', e'').
Proof.
  induction a as [a Hl|c0 c1 c2 c3 a IH] using list_ind4; intros e b.
  - assert (forall o : option (list Z * list Z * bool), o = '(y, r', e'') ← o; Some ([] ++ y, r', e'')) as Hid
      by (by intros [[[? ?] ?]|]).
    destruct a as [|? [|? [|? [|]]]]; cbn [app]; [..|cbn in Hl; lia]; [apply Hid|..];
      (destruct e; [done|]; cbn [unb64 mbind option_bind app]; apply Hid).
  - cbn [app unb64]. destruct e; [done|]. destruct (unquad c0 c1 c2 c3) as [x|]; [|done]. cbn [mbind option_bind].
    rewrite IH. destruct (unb64 _ a) as [[[y r] e']|]; [|done]. cbn [mbind option_bind].
    destruct (unb64 e' (r ++ b)) as [[[z r'] e'']|]; [|done]. cbn [mbind option_bind]. by rewrite app_assoc.
Qed.

(** What the loop leaves, depending on the reference decoder. *)
Definition decoded (buf : list Z) (out n bytes_out : Z) (r : option Z) (ctx' : evp_encode_ctx) (buf' : list Z)
    (ref : option (list Z * list Z * bool)) : Prop :=
  match ref with
  | Some (bs, rest, e') =>
      r = Some (bytes_out + Z.of_nat (length bs)) /\ wrs buf out bs = Some buf' /\ dholds ctx' rest e'
  | None => r = None /\ within buf out n buf' /\ error_encountered ctx' = true
  end.

(** Decoded after a first piece [x]. *)
Lemma decoded_app buf out x buf1 n n' bytes_out r ctx' buf' ref :
  wrs buf out x = Some buf1 -> Z.of_nat (length x) + n <= n' ->
  decoded buf1 (out + Z.of_nat (length x)) n (bytes_out + Z.of_nat (length x)) r ctx' buf' ref ->
  decoded buf out n' bytes_out r ctx' buf' ('(y, rest, e) ← ref; Some (x ++ y, rest, e)).
Proof.
  intros Hx Hn. destruct ref as [[[y rest] e]|]; cbn [mbind option_bind decoded].
  - intros (-> & Hw & Hd). rewrite length_app, Nat2Z.inj_add, wrs_app, Hx. split_and!; [f_equal; lia|done|done].
  - intros (-> & Hw & He). split_and!; [done| |done]. eapply within_weaken; [by eapply within_app|done].
Qed.

Lemma dholds_push ctx p c :
  dholds ctx p false -> exists d, wr (data ctx) (data_used ctx) c = Some d /\ length d = 48%nat /\
    take (length (p ++ [c])) d = p ++ [c] /\ u32 (data_used ctx + 1) = Z.of_nat (length (p ++ [c])).
Proof.
  intros [Hu Hs Hd Hl _ _ _]. rewrite Hu. destruct (wrs_fits (data ctx) (Z.of_nat (length p)) [c]) as (d & E); [lia|cbn; lia|].
  exists d. pose proof (wrs_length _ _ _ _ E). split_and!; [done|lia| |].
  - apply wrs_Some in E as (_ & _ & ->). unfold splice. rewrite Nat2Z.id, Hd.
    rewrite app_assoc. apply take_app_length.
  - rewrite length_app. cbn. rewrite wrapu_id by (unfold in_u; lia). lia.
Qed.

Definition groups (n : nat) : Z := Z.of_nat n / 4 * 3.

Lemma groups_4 n : groups (4 + n) = groups n + 3.
Proof. unfold groups. replace (Z.of_nat (4 + n)) with (Z.of_nat n + 1 * 4) by lia. rewrite Z.div_add by lia. lia. Qed.

Lemma groups_mono a b : (a <= b)%nat -> groups a <= groups b.
Proof. intros H. unfold groups. assert (Z.of_nat a / 4 <= Z.of_nat b / 4) by (apply Z.div_le_mono; lia). lia. Qed.

Lemma groups_nonneg a : 0 <= groups a.
Proof. unfold groups. assert (0 <= Z.of_nat a / 4) by (apply Z.div_pos; lia). lia. Qed.

Lemma decoded_weaken buf out n n' bytes_out r ctx' buf' ref :
  decoded buf out n bytes_out r ctx' buf' ref -> n <= n' -> decoded buf out n' bytes_out r ctx' buf' ref.
Proof.
  destruct ref as [[[? ?] ?]|]; [done|]. intros (? & ? & ?) ?. split_and!; [done|by eapply within_weaken|done].
Qed.

(** A complete group is decoded before the loop goes on. *)
Lemma quad_step ctx d q m buf out bytes_out
    (loop : evp_encode_ctx -> list Z -> Z -> Z -> option (option Z * evp_encode_ctx * list Z)) cs :
  Z.of_nat (length q) = 4 -> length d = 48%nat -> take (length q) d = q -> Forall (in_u 8) q ->
  eof_seen ctx = false -> error_encountered ctx = false ->
  0 <= out -> out + groups (length q + m) <= Z.of_nat (length buf) ->
  0 <= bytes_out -> bytes_out + groups (length q + m) < 2 ^ 64 ->
  (forall ctx1 p1 e1 buf1 out1 bytes1, dholds ctx1 p1 e1 -> p1 = [] ->
     0 <= out1 -> out1 + groups m <= Z.of_nat (length buf1) -> 0 <= bytes1 -> bytes1 + groups m < 2 ^ 64 ->
     exists r ctx' buf', loop ctx1 buf1 out1 bytes1 = Some (r, ctx', buf') /\
       decoded buf1 out1 (groups m) bytes1 r ctx' buf' (unb64 e1 cs)) ->
  exists r ctx' buf',
    (r ← base64_decode_quad buf out d 0;
     match r with
     | None => Some (None, set_error (set_data 4 d ctx), buf)
     | Some (num, buf) =>
         loop (mk_ctx 0 d (eof_seen ctx || (num <? 3)) (error_encountered ctx)) buf (out + num) (u64 (bytes_out + num))
     end) = Some (r, ctx', buf') /\
    decoded buf out (groups (length q + m)) bytes_out r ctx' buf' (unb64 false (q ++ cs)).
Proof.
  intros Hq Hl Htk Hb He Herr Ho Hfit Hbo Hmax Hloop. pose proof (groups_nonneg m).
  destruct q as [|c0 [|c1 [|c2 [|c3 [|]]]]]; try (cbn in Hq; lia). cbn [length] in *. rewrite groups_4 in *.
  rewrite <- (take_drop 4 d), Htk.
  apply Forall_cons in Hb as [H0 [H1 [H2 [H3 _]%Forall_cons]%Forall_cons]%Forall_cons].
  pose proof (base64_decode_quad_spec buf out [] c0 c1 c2 c3 (drop 4 d) H0 H1 H2 H3) as E. cbn [app] in E |- *.
  change (Z.of_nat (length (@nil Z))) with 0 in E.
  rewrite E. cbn [unb64].
  destruct (unquad c0 c1 c2 c3) as [x|] eqn:Eq; cbn [mbind option_bind].
  2: { eexists _, _, _. split; [done|]. split_and!; [done| |done]. apply within_none; lia. }
  pose proof (unquad_length _ _ _ _ _ Eq).
  destruct (wrs_fits buf out x) as (buf1 & Ex); [lia..|]. rewrite Ex. cbn [mbind option_bind].
  pose proof (wrs_length _ _ _ _ Ex). rewrite wrapu_id by (unfold in_u; lia). rewrite He. cbn [orb].
  assert ((Z.of_nat (length x) <? 3) = bool_decide (length x < 3)%nat) as -> by (case_bool_decide; lia).
  edestruct (Hloop (mk_ctx 0 (c0 :: c1 :: c2 :: c3 :: drop 4 d) (bool_decide (length x < 3)%nat) (error_encountered ctx))
    [] (bool_decide (length x < 3)%nat) buf1 (out + Z.of_nat (length x)) (bytes_out + Z.of_nat (length x)))
    as (r & ctx' & buf' & E' & Hr); [|done|lia..|].
  - split; cbn; try done; [|lia]. rewrite length_drop. lia.
  - exists r, ctx', buf'. split; [done|]. eapply decoded_app; [done| |done]. lia.
Qed.

Lemma decode_update_loop_spec cs : forall fuel ctx p e buf out pre bytes_out,
  dholds ctx p e -> Forall (in_u 8) (p ++ cs) -> (length cs <= fuel)%nat ->
  0 <= out -> out + groups (length p + length cs) <= Z.of_nat (length buf) ->
  0 <= bytes_out -> bytes_out + groups (length p + length cs) < 2 ^ 64 ->
  exists r ctx' buf',
    decode_update_loop fuel ctx buf out (pre ++ cs) (Z.of_nat (length pre))
      (Z.of_nat (length pre) + Z.of_nat (length cs)) bytes_out = Some (r, ctx', buf') /\
    decoded buf out (groups (length p + length cs)) bytes_out r ctx' buf' (unb64 e (p ++ ink cs)).
Proof.
  induction cs as [|c cs IH]; intros fuel ctx p e buf out pre bytes_out Hd Hb Hf Ho Hfit Hbo Hmax.
  - change (ink []) with (@nil Z). rewrite !app_nil_r, Z.add_0_r. exists (Some bytes_out), ctx, buf. split.
    { destruct fuel; cbn [decode_update_loop]; by rewrite Z.leb_refl. }
    assert (unb64 e p = Some ([], p, e)) as ->.
    { destruct Hd as [_ _ _ Hl _ He _]. destruct e; [by rewrite He|].
      destruct p as [|? [|? [|? [|]]]]; try done. cbn in Hl. lia. }
    cbn. rewrite Z.add_0_r. split_and!; [done| |done]. apply wrs_nil. pose proof (groups_nonneg (length p + length (@nil Z))). lia.
  - destruct fuel as [|fuel]; [cbn in Hf; lia|]. cbn [decode_update_loop].
    rewrite (proj2 (Z.leb_gt _ _)) by (cbn; lia). rewrite rd_at0. cbn [lookup list_lookup mbind option_bind].
    assert (forall ctx1 p1 e1 buf1 out1 bytes1, dholds ctx1 p1 e1 -> Forall (in_u 8) (p1 ++ cs) ->
      0 <= out1 -> out1 + groups (length p1 + length cs) <= Z.of_nat (length buf1) ->
      0 <= bytes1 -> bytes1 + groups (length p1 + length cs) < 2 ^ 64 ->
      exists r ctx' buf', decode_update_loop fuel ctx1 buf1 out1 (pre ++ c :: cs) (Z.of_nat (length pre) + 1)
          (Z.of_nat (length pre) + Z.of_nat (length (c :: cs))) bytes1 = Some (r, ctx', buf') /\
        decoded buf1 out1 (groups (length p1 + length cs)) bytes1 r ctx' buf' (unb64 e1 (p1 ++ ink cs))) as IH'.
    { intros. destruct (IH fuel ctx1 p1 e1 buf1 out1 (pre ++ [c]) bytes1) as (r & ctx' & buf' & E & Hr);
        [done|done|cbn in Hf; lia|done..|]. exists r, ctx', buf'. split; [|done]. rewrite <- E, <- app_assoc. cbn [app].
      rewrite length_app, Nat2Z.inj_add. cbn [length]. f_equal; lia. }
    clear IH. pose proof (groups_nonneg (length p + length cs)).
    pose proof (groups_mono (length p + length cs) (length p + length (c :: cs)) ltac:(cbn; lia)).
    apply Forall_app in Hb as [Hb1 [Hc Hb2]%Forall_cons].
    rewrite filter_cons. destruct (is_space c) eqn:Es.
    { rewrite decide_False by done.
      destruct (IH' ctx p e buf out bytes_out) as (r & ctx' & buf' & E & Hr);
        [done|by apply Forall_app|done|lia|done|lia|].
      exists r, ctx', buf'. split; [done|]. eapply decoded_weaken; [exact Hr|done]. }
    rewrite decide_True by done. rewrite (dh_eof _ _ _ Hd). destruct e.
    { rewrite (dh_excl _ _ _ Hd eq_refl). exists None, (set_error ctx), buf. split; [done|]. split_and!; [done| |done].
      apply within_none; [lia|apply groups_nonneg]. }
    destruct (dholds_push ctx p c Hd) as (d & -> & Hl & Htk & ->). cbn [mbind option_bind set_data data_used data].
    pose proof (dh_less _ _ _ Hd) as Hlt. rewrite (app_assoc p [c] (ink cs) : p ++ c :: ink cs = (p ++ [c]) ++ ink cs).
    assert (length p + length (c :: cs) = length (p ++ [c]) + length cs)%nat as Elen by (rewrite length_app; cbn; lia).
    rewrite Elen in *. assert (Forall (in_u 8) (p ++ [c])) as Hb3 by (apply Forall_app; split; [done|by constructor]).
    destruct (Z.eqb_spec (Z.of_nat (length (p ++ [c]))) 4) as [E4|E4].
    + rewrite E4. cbn [set_data eof_seen error_encountered].
      apply (quad_step ctx d (p ++ [c]) (length cs) buf out bytes_out (fun ctx buf out bytes_out =>
        decode_update_loop fuel ctx buf out (pre ++ c :: cs) (Z.of_nat (length pre) + 1)
          (Z.of_nat (length pre) + Z.of_nat (length (c :: cs))) bytes_out)); try done; try apply Hd.
      intros ctx1 p1 e1 buf1 out1 bytes1 Hd1 -> ? ? ? ?. by apply (IH' ctx1 [] e1).
    + apply IH'; [|by apply Forall_app|done..].
      split; cbn [set_data data_used data eof_seen error_encountered]; try done; try apply Hd.
      clear -Hlt E4. rewrite length_app in *. cbn in *. lia.
Qed.

Lemma EVP_DecodeUpdate_spec ctx p e buf out inp :
  dholds ctx p e -> Forall (in_u 8) (p ++ inp) -> 0 <= out ->
  out + groups (length p + length inp) <= Z.of_nat (length buf) -> groups (length p + length inp) <= INT_MAX_ ->
  exists r n ctx' buf', EVP_DecodeUpdate ctx buf out inp (Z.of_nat (length inp)) = Some (r, n, ctx', buf') /\
    match unb64 e (p ++ ink inp) with
    | Some (bs, rest, e') =>
        r = (if e' then 0 else 1) /\ n = Z.of_nat (length bs) /\ wrs buf out bs = Some buf' /\ dholds ctx' rest e'
    | None => r = -1 /\ n = 0 /\ within buf out (groups (length p + length inp)) buf' /\
              error_encountered ctx' = true
    end.
Proof.
  intros Hd Hb Ho Hfit Hmax. unfold INT_MAX_ in Hmax. unfold EVP_DecodeUpdate. rewrite (dh_ok _ _ _ Hd).
  destruct (decode_update_loop_spec inp (Z.to_nat (Z.of_nat (length inp))) ctx p e buf out [] 0)
    as (r & ctx' & buf' & E & Hr); [done|done|lia|done|done|done|lia|].
  cbn [app] in E. change (Z.of_nat (length (@nil Z))) with 0 in E. rewrite Z.add_0_l in E. rewrite E.
  cbn [mbind option_bind]. pose proof (unb64_length (p ++ ink inp) e) as Hlen.
  destruct (unb64 e (p ++ ink inp)) as [[[bs rest] e']|]; cbn [decoded] in Hr.
  - destruct Hr as (-> & Hw & Hd'). rewrite Z.add_0_l. specialize (Hlen _ _ _ eq_refl).
    rewrite (proj2 (Z.ltb_ge _ _)).
    + rewrite (dh_eof _ _ _ Hd'). by eexists _, _, _, _.
    + pose proof (length_filter (fun c : Z => is_space c = false) inp).
      pose proof (groups_mono (length (p ++ ink inp)) (length p + length inp) ltac:(rewrite length_app; lia)).
      unfold INT_MAX_, groups in *. lia.
  - destruct Hr as (-> & Hw & He). by eexists _, _, _, _.
Qed.

(** A client: [EVP_DecodeUpdate] on each piece until an error, then
    [EVP_DecodeFinal]. *)
Fixpoint decode_pieces (ctx : evp_encode_ctx) (buf : list Z) (out : Z) (pieces : list (list Z))
  : option (option Z * list Z) :=
  match pieces with
  | [] => Some (if fst (EVP_DecodeFinal ctx) =? 1 then Some out else None, buf)
  | piece :: pieces' =>
      '(r, n, ctx, buf) ← EVP_DecodeUpdate ctx buf out piece (Z.of_nat (length piece));
      if r =? -1 then Some (None, buf) else decode_pieces ctx buf (out + n) pieces'
  end.

(** Room for the rest of the output, after some of it was produced. *)
Lemma groups_split (q : list Z) e bs rest e' n m :
  unb64 e q = Some (bs, rest, e') -> (length q <= n)%nat ->
  Z.of_nat (length bs) + groups (length rest + m) <= groups (n + m).
Proof.
  intros E Hn. pose proof (unb64_length _ _ _ _ _ E). pose proof (unb64_rest _ _ _ _ _ E) as Hr.
  pose proof (groups_mono (length q + m) (n + m) ltac:(lia)).
  enough (groups (length q + m) = Z.of_nat (length q) / 4 * 3 + groups (length rest + m)) as E' by (destruct e'; lia).
  unfold groups. rewrite !Nat2Z.inj_add, Hr.
  pose proof (Z.div_mod (Z.of_nat (length q)) 4 ltac:(lia)) as Hdm.
  replace (Z.of_nat (length q) + Z.of_nat m)
    with (Z.of_nat (length q) mod 4 + Z.of_nat m + Z.of_nat (length q) / 4 * 4) by lia.
  rewrite Z.div_add by lia. lia.
Qed.

Lemma unb64_rest_bytes q : forall e bs rest e',
  unb64 e q = Some (bs, rest, e') -> Forall (in_u 8) q -> Forall (in_u 8) rest.
Proof.
  induction q as [q Hl|c0 c1 c2 c3 q IH] using list_ind4; intros e bs rest e' E Hq.
  - destruct q as [|? [|? [|? [|]]]]; cbn in E; [|destruct e..|cbn in Hl; lia]; by simplify_eq.
  - cbn [unb64] in E. destruct e; [done|]. destruct (unquad c0 c1 c2 c3); [|done]. cbn [mbind option_bind] in E.
    destruct (unb64 _ q) as [[[? ?] ?]|] eqn:Eq; [|done]. injection E as _ <- _. apply (IH _ _ _ _ Eq).
    by apply Forall_cons in Hq as [_ [_ [_ [_ ?]%Forall_cons]%Forall_cons]%Forall_cons].
Qed.

Lemma decode_pieces_spec pieces : forall ctx p e buf out,
  dholds ctx p e -> Forall (in_u 8) (p ++ concat pieces) -> 0 <= out ->
  out + groups (length p + length (concat pieces)) <= Z.of_nat (length buf) ->
  groups (length p + length (concat pieces)) <= INT_MAX_ ->
  exists r buf', decode_pieces ctx buf out pieces = Some (r, buf') /\
    match unb64 e (p ++ ink (concat pieces)) with
    | Some (bs, [], _) => r = Some (out + Z.of_nat (length bs)) /\ wrs buf out bs = Some buf'
    | _ => r = None
    end.
Proof.
  induction pieces as [|piece pieces IH]; intros ctx p e buf out Hd Hb Ho Hfit Hmax; cbn [concat decode_pieces] in *.
  - change (ink []) with (@nil Z). rewrite app_nil_r. eexists _, buf. split; [done|].
    pose proof (groups_nonneg (length p + length (@nil Z))).
    unfold EVP_DecodeFinal. rewrite (dh_ok _ _ _ Hd), (dh_used _ _ _ Hd). destruct Hd as [_ _ _ Hl _ He _].
    destruct p as [|c0 p].
    + cbn. rewrite Z.add_0_r. split; [done|]. apply wrs_nil. lia.
    + assert (e = false) as -> by (destruct e; [by specialize (He eq_refl)|done]).
      rewrite (proj2 (Z.eqb_neq _ 0)) by (cbn; lia).
      destruct p as [|? [|? [|]]]; try done. cbn in Hl. lia.
  - rewrite filter_app, app_assoc, unb64_app. rewrite app_assoc in Hb. apply Forall_app in Hb as [Hb1 Hb2].
    rewrite length_app in *.
    pose proof (groups_mono (length p + length piece) (length p + (length piece + length (concat pieces))) ltac:(lia)).
    destruct (EVP_DecodeUpdate_spec ctx p e buf out piece Hd Hb1 Ho) as (r & n & ctx' & buf1 & E & Hr); [lia..|].
    rewrite E. cbn [mbind option_bind].
    destruct (unb64 e (p ++ ink piece)) as [[[bs rest] e']|] eqn:Eu; cbn [mbind option_bind].
    2: { destruct Hr as (-> & _). by eexists None, _. }
    destruct Hr as (-> & -> & Hw & Hd'). rewrite (proj2 (Z.eqb_neq _ (-1))) by (destruct e'; lia).
    pose proof (wrs_length _ _ _ _ Hw).
    pose proof (length_filter (fun c : Z => is_space c = false) piece) as Hfl.
    pose proof (groups_split _ _ _ _ _ (length p + length piece) (length (concat pieces)) Eu
                  ltac:(rewrite length_app; lia)) as Hg.
    rewrite <- Nat.add_assoc in Hg.
    destruct (IH ctx' rest e' buf1 (out + Z.of_nat (length bs))) as (r & buf' & E1 & Hr1); [done| |lia..|].
    { apply Forall_app; split; [|done]. eapply unb64_rest_bytes; [exact Eu|].
      apply Forall_app in Hb1 as [? Hi]. apply Forall_app; split; [done|].
      apply Forall_forall. intros x [_ Hx]%list_elem_of_filter. by eapply Forall_forall in Hi. }
    eexists _, _. split; [exact E1|].
    destruct (unb64 e' (rest ++ ink (concat pieces))) as [[[bs' rest'] e'']|]; cbn [mbind option_bind]; [|done].
    destruct rest'; [|done]. destruct Hr1 as [-> Hw1]. rewrite length_app, Nat2Z.inj_add, Z.add_assoc. split; [done|].
    rewrite wrs_app, Hw. done.
Qed.

(** ** White space *)

Lemma b64_app a b : (length a mod 3 = 0)%nat -> b64 (a ++ b) = b64 a ++ b64 b.
Proof.
  induction a as [|x|x y|x y z a IH] using list_ind3; intros H; try done. cbn [app b64]. rewrite IH; [done|].
  replace (length (x :: y :: z :: a)) with (length a + 1 * 3)%nat in H by (cbn; lia).
  by rewrite Nat.Div0.mod_add in H.
Qed.

Lemma ink_b64 bs : Forall (in_u 8) bs -> ink (b64 bs) = b64 bs.
Proof.
  assert (forall k l, 0 <= k < 64 -> ink l = l -> ink (char k :: l) = char k :: l) as Hk.
  { intros k l Hk E. rewrite filter_cons, decide_True by (by apply char_range). by rewrite E. }
  induction bs as [|a|a b|a b c bs IH] using list_ind3; intros Hb; [done|..]; cbn [b64].
  - apply Forall_cons in Hb as [Ha _]. pose proof (byte_split2 a Ha).
    by do 2 (apply Hk; [lia|]).
  - apply Forall_cons in Hb as [Ha [Hb _]%Forall_cons]. pose proof (byte_split2 a Ha). pose proof (byte_split4 b Hb).
    by do 3 (apply Hk; [lia|]).
  - apply Forall_cons in Hb as [Ha [Hb [Hc Hr]%Forall_cons]%Forall_cons].
    pose proof (byte_split2 a Ha). pose proof (byte_split4 b Hb). pose proof (byte_split6 c Hc).
    do 4 (apply Hk; [lia|]). by apply IH.
Qed.

Lemma ink_full_lines k : forall bs, Forall (in_u 8) bs -> (48 * k <= length bs)%nat ->
  ink (full_lines k bs) = b64 (take (48 * k) bs).
Proof.
  induction k as [|k IH]; intros bs Hb Hl; [done|]. cbn [full_lines].
  rewrite !filter_app, ink_b64, IH by (by apply Forall_take || by apply Forall_drop || (rewrite length_drop; lia)).
  change (ink [10]) with (@nil Z). rewrite app_nil_r, <- b64_app.
  - rewrite take_take_drop. do 2 f_equal. lia.
  - rewrite length_take. replace (48 `min` length bs)%nat with 48%nat by lia. done.
Qed.

(** The characters of a PEM text, without its line breaks. *)
Lemma ink_pem bs : Forall (in_u 8) bs -> ink (pem bs) = b64 bs.
Proof.
  intros Hb. unfold pem. set (k := (length bs / 48)%nat).
  assert (48 * k <= length bs)%nat as Hk by (apply Nat.Div0.mul_div_le).
  rewrite filter_app, ink_full_lines by done.
  assert (ink (last_line (drop (48 * k) bs)) = b64 (drop (48 * k) bs)) as ->.
  { unfold last_line. case_bool_decide as E; [by rewrite E|].
    rewrite filter_app, ink_b64 by (by apply Forall_drop). change (ink [10]) with (@nil Z). apply app_nil_r. }
  rewrite <- b64_app; [by rewrite take_drop|]. rewrite length_take.
  replace (Nat.min (48 * k) (length bs)) with (16 * k * 3)%nat by lia. apply Nat.Div0.mod_mul.
Qed.

Lemma pem_bytes bs : Forall (in_u 8) bs -> Forall (in_u 8) (pem bs).
Proof.
  assert (Forall (in_u 8) [10]) by (repeat constructor; unfold in_u; lia).
  assert (forall k l, Forall (in_u 8) l -> Forall (in_u 8) (full_lines k l)) as Hk.
  { induction k as [|k IH]; intros l Hl; [constructor|]. cbn [full_lines].
    apply Forall_app; split; [apply Forall_app; split; [|done]; by apply b64_bytes, Forall_take|].
    by apply IH, Forall_drop. }
  intros Hb. apply Forall_app; split; [by apply Hk|]. unfold last_line. case_bool_decide; [constructor|].
  apply Forall_app; split; [by apply b64_bytes, Forall_drop|done].
Qed.
