(* ===== verification/Base64Theorems.v ===== *)
(** * BoringSSL: the properties of base64

    Encoding and decoding against RFC 4648, in one go and in pieces. *)
From S2P Require Import Prelude CBuf Base64 Base64Spec Base64Block Base64Stream.

(** ** Blocks *)

(**  [EVP_EncodedLength] announces what [EVP_EncodeBlock] needs: in a
    buffer with that much room it stores the RFC 4648 encoding and a
    terminator, changes nothing else and returns the length without the
    terminator; the announcement fails only when the length exceeds [size_t]. *)
Theorem encode_block_correct bs buf dst :
  Forall (in_u 8) bs -> in_u 64 (Z.of_nat (length bs)) -> 0 <= dst ->
  match EVP_EncodedLength (Z.of_nat (length bs)) with
  | Some n =>
      n = Z.of_nat (length (b64 bs)) + 1 /\
      (dst + n <= Z.of_nat (length buf) ->
       exists buf', wrs buf dst (b64 bs ++ [0]) = Some buf' /\
         EVP_EncodeBlock buf dst bs (Z.of_nat (length bs)) = Some (n - 1, buf'))
  | None => 2 ^ 64 <= Z.of_nat (length (b64 bs)) + 1
  end.
Proof.
  intros Hb Hl Hd. rewrite EVP_EncodedLength_spec, length_b64 by done.
  destruct (Z.ltb_spec (4 * ((Z.of_nat (length bs) + 2) / 3) + 1) (2 ^ 64)); [|lia].
  split; [lia|]. intros Hfit. rewrite <- length_b64 in *.
  destruct (wrs_fits buf dst (b64 bs ++ [0])) as (buf' & E); [done|rewrite length_app; cbn; lia|].
  exists buf'. split; [done|]. rewrite <- (app_nil_r bs) at 1. rewrite EVP_EncodeBlock_spec by (done || lia).
  rewrite E. cbn [mbind option_bind]. do 2 f_equal. lia.
Qed.

Lemma encode_block_correct_witness :
  match EVP_EncodedLength (Z.of_nat (length [77; 97])) with
  | Some n =>
      n = Z.of_nat (length (b64 [77; 97])) + 1 /\
      (1 + n <= Z.of_nat (length (replicate 6 7)) ->
       exists buf', wrs (replicate 6 7) 1 (b64 [77; 97] ++ [0]) = Some buf' /\
         EVP_EncodeBlock (replicate 6 7) 1 [77; 97] (Z.of_nat (length [77; 97])) = Some (n - 1, buf'))
  | None => 2 ^ 64 <= Z.of_nat (length (b64 [77; 97])) + 1
  end.
Proof.
  apply (encode_block_correct [77; 97] (replicate 6 7) 1);
    [decided|decided|lia].
Defined.

(** C7.  [EVP_DecodeBase64] on every text and any limit on the output: it
    succeeds exactly when the text is a sequence of complete groups, padding
    only in the last one, and the limit covers three bytes per group; then it
    stores the decoded bytes and nothing else.  On every error it returns 0
    with a zero length and touches only the announced room. *)
Theorem decode_base64_correct pre cs post buf out max_out :
  Forall (in_u 8) cs -> Z.of_nat (length cs) < 2 ^ 64 -> 0 <= out ->
  out + Z.of_nat (length cs) / 4 * 3 <= Z.of_nat (length buf) ->
  exists r n buf',
    EVP_DecodeBase64 buf out max_out (pre ++ cs ++ post) (Z.of_nat (length pre)) (Z.of_nat (length cs))
      = Some (r, n, buf') /\
    match (if (Z.of_nat (length cs) mod 4 =? 0) && (Z.of_nat (length cs) / 4 * 3 <=? max_out)
           then unb64 false cs else None) with
    | Some (bs, _, _) => r = 1 /\ n = Z.of_nat (length bs) /\ wrs buf out bs = Some buf'
    | None => r = 0 /\ n = 0 /\ within buf out (Z.of_nat (length cs) / 4 * 3) buf'
    end.
Proof. apply EVP_DecodeBase64_spec. Qed.

(** "TWE=" between two other characters. *)
Lemma decode_base64_correct_witness :
  exists r n buf',
    EVP_DecodeBase64 (replicate 5 7) 1 3 ([48] ++ [84; 87; 69; 61] ++ [49]) 1 4 = Some (r, n, buf') /\
    r = 1 /\ n = Z.of_nat (length [77; 97]) /\ wrs (replicate 5 7) 1 [77; 97] = Some buf'.
Proof.
  apply (decode_base64_correct [48] [84; 87; 69; 61] [49] (replicate 5 7) 1 3);
    [decided|decided|lia|decided].
Defined.

(**  Decoding a block that was encoded gives the bytes back. *)
Theorem base64_roundtrip bs buf dst buf1 out max_out :
  Forall (in_u 8) bs -> Z.of_nat (length (b64 bs)) + 1 < 2 ^ 64 -> 0 <= dst ->
  dst + Z.of_nat (length (b64 bs)) + 1 <= Z.of_nat (length buf) ->
  0 <= out -> Z.of_nat (length (b64 bs)) / 4 * 3 <= max_out -> out + max_out <= Z.of_nat (length buf1) ->
  exists text n buf1', EVP_EncodeBlock buf dst bs (Z.of_nat (length bs)) = Some (n, text) /\
    EVP_DecodeBase64 buf1 out max_out text dst n = Some (1, Z.of_nat (length bs), buf1') /\
    wrs buf1 out bs = Some buf1'.
Proof.
  intros Hb Hmax Hd Hfit Ho Hmo Hfit1.
  destruct (wrs_fits buf dst (b64 bs ++ [0])) as (text & E); [done|rewrite length_app; cbn; lia|].
  pose proof (EVP_EncodeBlock_spec bs [] buf dst Hb) as Ee. rewrite app_nil_r, E in Ee. cbn [mbind option_bind] in Ee.
  apply wrs_Some in E as (_ & _ & ->). unfold splice in Ee. rewrite <- (app_assoc (b64 bs)) in Ee.
  eexists _, _. rewrite Ee by lia.
  destruct (EVP_DecodeBase64_spec (take (Z.to_nat dst) buf) (b64 bs) ([0] ++ drop (Z.to_nat dst + length (b64 bs ++ [0])) buf)
              buf1 out max_out) as (r & n & buf1' & E1 & Hr).
  { apply b64_bytes. done. } { lia. } { done. } { lia. }
  rewrite length_take in E1. replace (Z.of_nat (Nat.min (Z.to_nat dst) (length buf))) with dst in E1 by lia.
  assert (Z.of_nat (length (b64 bs)) mod 4 = 0) as Hm by (by rewrite length_b64, (Z.mul_comm 4), Z.mod_mul by lia).
  rewrite unb64_b64, Hm, (proj2 (Z.leb_le _ _)) in Hr by done. cbn [Z.eqb andb] in Hr. destruct Hr as (-> & -> & Hw).
  exists buf1'. done.
Qed.

Lemma base64_roundtrip_witness :
  exists text n buf1', EVP_EncodeBlock (replicate 10 7) 0 [1; 2; 250; 255] 4 = Some (n, text) /\
    EVP_DecodeBase64 (replicate 6 7) 0 6 text 0 n = Some (1, 4, buf1') /\
    wrs (replicate 6 7) 0 [1; 2; 250; 255] = Some buf1'.
Proof.
  apply (base64_roundtrip [1; 2; 250; 255] (replicate 10 7) 0 (replicate 6 7) 0 6);
    [decided|decided|lia|decided|lia|decided|decided].
Defined.

(**  [EVP_DecodeBlock] trims blanks in front and white space at the end
    and decodes what is left; the padding of the last group comes out as zero
    bytes, and the result counts them.  It returns -1 on every error. *)
Theorem decode_block_correct cs buf dst :
  Forall (in_u 8) cs -> Z.of_nat (length cs) < 2 ^ 64 -> 0 <= dst ->
  let n := Z.of_nat (length (trim cs)) / 4 * 3 in
  dst + n <= Z.of_nat (length buf) ->
  exists r buf', EVP_DecodeBlock buf dst cs (Z.of_nat (length cs)) = Some (r, buf') /\
    match (if (Z.of_nat (length (trim cs)) mod 4 =? 0) && (n <=? INT_MAX_)
           then unb64 false (trim cs) else None) with
    | Some (bs, _, _) =>
        r = n /\ wrs buf dst (bs ++ replicate (Z.to_nat (n - Z.of_nat (length bs))) 0) = Some buf'
    | None => r = -1 /\ within buf dst n buf'
    end.
Proof. apply EVP_DecodeBlock_spec. Qed.

(** " TWE=" and a newline. *)
Lemma decode_block_correct_witness :
  exists r buf', EVP_DecodeBlock (replicate 5 7) 1 [32; 84; 87; 69; 61; 10] 6 = Some (r, buf') /\
    r = 3 /\ wrs (replicate 5 7) 1 ([77; 97] ++ [0]) = Some buf'.
Proof.
  apply (decode_block_correct [32; 84; 87; 69; 61; 10] (replicate 5 7) 1);
    [decided|decided|lia|decided].
Defined.

(** The header promises that trailing minus signs are stripped too. *)
Example decode_block_minus :
  EVP_DecodeBlock (replicate 8 7) 0 [81; 85; 74; 68; 45] 5 = Some (-1, replicate 8 7).
Proof. reflexivity. Qed.

(** ** Streams *)

(** C8.  However the input of the streaming encoder is cut into pieces, the
    output is the PEM text of the whole input: 48 bytes to a line of 64
    characters and a newline. *)
Theorem encode_stream_correct pieces buf out ctx :
  Forall (in_u 8) (concat pieces) -> 0 <= out ->
  out + Z.of_nat (length (pem (concat pieces))) + 1 <= Z.of_nat (length buf) ->
  Z.of_nat (length (pem (concat pieces))) <= INT_MAX_ ->
  exists buf', emit buf out (pem (concat pieces)) = Some buf' /\
    encode_pieces (EVP_EncodeInit ctx) buf out pieces
      = Some (out + Z.of_nat (length (pem (concat pieces))), buf').
Proof. exact (encode_pieces_spec pieces zero_ctx [] buf out holds_zero). Qed.

Lemma encode_stream_correct_witness :
  exists buf', emit (replicate 80 7) 0 (pem (concat [replicate 40 1; []; replicate 9 2])) = Some buf' /\
    encode_pieces (EVP_EncodeInit zero_ctx) (replicate 80 7) 0 [replicate 40 1; []; replicate 9 2]
      = Some (70, buf').
Proof.
  apply (encode_stream_correct [replicate 40 1; []; replicate 9 2] (replicate 80 7) 0 zero_ctx);
    [decided|lia|decided|decided].
Defined.

(** C9.  However the text is cut into pieces, and with white space anywhere,
    the streaming decoder returns the decoding of its other characters, or an
    error when they are no sequence of complete groups with padding only at
    the end. *)
Theorem decode_stream_correct pieces buf out ctx :
  Forall (in_u 8) (concat pieces) -> 0 <= out ->
  out + groups (length (concat pieces)) <= Z.of_nat (length buf) ->
  groups (length (concat pieces)) <= INT_MAX_ ->
  exists r buf', decode_pieces (EVP_DecodeInit ctx) buf out pieces = Some (r, buf') /\
    match unb64 false (ink (concat pieces)) with
    | Some (bs, [], _) => r = Some (out + Z.of_nat (length bs)) /\ wrs buf out bs = Some buf'
    | _ => r = None
    end.
Proof.
  refine (decode_pieces_spec pieces zero_ctx [] false buf out _). split; try done. cbn. lia.
Qed.

Lemma decode_stream_correct_witness :
  exists r buf', decode_pieces (EVP_DecodeInit zero_ctx) (replicate 8 7) 1 [[84; 87]; [10; 69; 32]; [61]] = Some (r, buf') /\
    r = Some 3 /\ wrs (replicate 8 7) 1 [77; 97] = Some buf'.
Proof.
  apply (decode_stream_correct [[84; 87]; [10; 69; 32]; [61]] (replicate 8 7) 1 zero_ctx);
    [decided|lia|decided|decided].
Defined.

(**  A PEM text that the streaming encoder could have produced from
    [bs], cut into pieces anywhere, decodes to [bs]. *)
Theorem stream_roundtrip bs pieces buf out ctx :
  Forall (in_u 8) bs -> concat pieces = pem bs -> 0 <= out ->
  out + groups (length (pem bs)) <= Z.of_nat (length buf) -> groups (length (pem bs)) <= INT_MAX_ ->
  exists buf', decode_pieces (EVP_DecodeInit ctx) buf out pieces = Some (Some (out + Z.of_nat (length bs)), buf') /\
    wrs buf out bs = Some buf'.
Proof.
  intros Hb Hp Ho Hfit Hmax.
  destruct (decode_pieces_spec pieces zero_ctx [] false buf out) as (r & buf' & E & Hr).
  { split; try done. cbn. lia. } { rewrite Hp. by apply pem_bytes. } { done. }
  { rewrite Hp. done. } { rewrite Hp. done. }
  cbn [app] in Hr. rewrite Hp, ink_pem, unb64_b64 in Hr by done. destruct Hr as [-> Hw]. exists buf'. done.
Qed.

Lemma stream_roundtrip_witness :
  exists buf', decode_pieces (EVP_DecodeInit zero_ctx) (replicate 60 7) 0
      [take 30 (pem (replicate 49 200)); drop 30 (pem (replicate 49 200))] = Some (Some 49, buf') /\
    wrs (replicate 60 7) 0 (replicate 49 200) = Some buf'.
Proof.
  apply (stream_roundtrip (replicate 49 200) [take 30 (pem (replicate 49 200)); drop 30 (pem (replicate 49 200))]
           (replicate 60 7) 0 zero_ctx);
    [decided|decided|lia|decided|decided].
Defined.
