(* ===== verification/UvInet.v ===== *)
(** * libuv: Internet addresses ([inet.c], [strscpy.c])

    Addresses as bytes and as text.  Strings are lists of bytes with a zero
    byte somewhere; arrays are [CBuf] buffers; [snprintf], [sprintf], [strchr]
    and [strlen] are the C library's. *)
From S2P Require Import Prelude CBuf.

(** ** Constants of the target (Darwin) *)

Definition UV_EINVAL := -22.
Definition UV_ENOSPC := -28.
Definition UV_E2BIG := -7.
Definition UV_EAFNOSUPPORT := -47.
Definition AF_INET := 2.
Definition AF_INET6 := 30.
Definition SSIZE_MAX := 2 ^ 63 - 1.

Definition UV__INET_ADDRSTRLEN := 16.
Definition UV__INET6_ADDRSTRLEN := 46.

(** ** The C library *)

(** [strchr] for a character that is not zero, as an index. *)
Definition strchr (s : list Z) (c : Z) : option Z := (fun p => Z.of_nat p.1) <$> list_find (c =.) s.

Definition decimal : list Z := seqZ 48 10.
Definition xdigits_l : list Z := seqZ 48 10 ++ seqZ 97 6.
Definition xdigits_u : list Z := seqZ 48 10 ++ seqZ 65 6.

(** ** [uv__strscpy] *)

Fixpoint strscpy_loop (fuel : nat) (d : list Z) (at_ : Z) (s : list Z) (si i n : Z)
  : option (Z * list Z) :=
  if i <? n then
    match fuel with
    | O => None
    | S fuel' =>
        c ← rd s (si + i);
        d ← wr d (at_ + i) c;
        if c =? 0 then Some (if SSIZE_MAX <? i then UV_E2BIG else i, d)
        else strscpy_loop fuel' d at_ s si (u64 (i + 1)) n
    end
  else if i =? 0 then Some (0, d)
  else d ← wr d (at_ + (i - 1)) 0; Some (UV_E2BIG, d).

(** [uv__strscpy(d + at, s + si, n)]. *)
Definition uv__strscpy (d : list Z) (at_ : Z) (s : list Z) (si n : Z) : option (Z * list Z) :=
  strscpy_loop (Z.to_nat n) d at_ s si 0 n.

(** ** From bytes to text *)

Definition fmt_4 (a b c d : Z) : list Z :=
  fmt_u a ++ [46] ++ fmt_u b ++ [46] ++ fmt_u c ++ [46] ++ fmt_u d.

Definition inet_ntop4 (src : list Z) (si : Z) (dst : list Z) (di size : Z) : option (Z * list Z) :=
  a ← rd src si; b ← rd src (si + 1); c ← rd src (si + 2); d ← rd src (si + 3);
  let text := fmt_4 a b c d in
  let tmp := snprintf UV__INET_ADDRSTRLEN text in
  let l := Z.of_nat (length text) in
  if (l <=? 0) || (size <=? l) then Some (UV_ENOSPC, dst)
  else '(_, dst) ← uv__strscpy dst di tmp 0 size; Some (0, dst).

(** [words[i / 2] |= src[i] << ((1 - (i % 2)) << 3)]. *)
Fixpoint words_loop (fuel : nat) (i : Z) (src words : list Z) : option (list Z) :=
  match fuel with
  | O => Some words
  | S fuel' =>
      b ← rd src i;
      w ← rd words (i / 2);
      words ← wr words (i / 2) (Z.lor w (Z.shiftl b (Z.shiftl (1 - i mod 2) 3)));
      words_loop fuel' (i + 1) src words
  end.

Record run := mk_run { base : Z; len : Z }.

Definition better (best cur : run) : run :=
  if negb (base cur =? -1) && ((base best =? -1) || (len best <? len cur)) then cur else best.

(** The longest run of zero words, the first one of that length. *)
Fixpoint find_run (words : list Z) (i : Z) (best cur : run) : run :=
  match words with
  | [] => better best cur
  | w :: words' =>
      if w =? 0 then
        find_run words' (i + 1) best
          (if base cur =? -1 then mk_run i 1 else mk_run (base cur) (len cur + 1))
      else find_run words' (i + 1) (better best cur) (mk_run (-1) (len cur))
  end.

Definition best_run (words : list Z) : run :=
  let best := find_run words 0 (mk_run (-1) 0) (mk_run (-1) 0) in
  if negb (base best =? -1) && (len best <? 2) then mk_run (-1) (len best) else best.

(** One more character or string at [*tp++]. *)
Definition put (t : list Z * Z) (text : list Z) : option (list Z * Z) :=
  tmp ← wrs t.1 t.2 text; Some (tmp, t.2 + Z.of_nat (length text)).

(** The formatting loop; the inner result is an error of [inet_ntop4]. *)
Fixpoint ntop6_loop (fuel : nat) (i : Z) (src words : list Z) (best : run) (t : list Z * Z)
  : option (Z + list Z * Z) :=
  match fuel with
  | O => Some (inr t)
  | S fuel' =>
      if negb (base best =? -1) && (base best <=? i) && (i <? base best + len best) then
        t ← (if i =? base best then put t [58] else Some t);
        ntop6_loop fuel' (i + 1) src words best t
      else
        t ← (if negb (i =? 0) then put t [58] else Some t);
        w5 ← rd words 5; w7 ← rd words 7;
        if (i =? 6) && (base best =? 0) &&
           ((len best =? 6) || ((len best =? 7) && negb (w7 =? 1)) || ((len best =? 5) && (w5 =? 0xffff)))
        then
          '(err, tmp) ← inet_ntop4 src 12 t.1 t.2 (UV__INET6_ADDRSTRLEN - t.2);
          if negb (err =? 0) then Some (inl err)
          else
            s ← c_str (drop (Z.to_nat t.2) tmp);
            Some (inr (tmp, t.2 + Z.of_nat (length s)))
        else
          w ← rd words i;
          sprintf ← wrs t.1 t.2 (fmt_x w ++ [0]);
          ntop6_loop fuel' (i + 1) src words best (sprintf, t.2 + Z.of_nat (length (fmt_x w)))
  end.

Definition inet_ntop6 (src dst : list Z) (di size : Z) : option (Z * list Z) :=
  words ← words_loop 16 0 src (replicate 8 0);
  let best := best_run words in
  r ← ntop6_loop 8 0 src words best (replicate 46 0, 0);
  match r with
  | inl err => Some (err, dst)
  | inr t =>
      t ← (if negb (base best =? -1) && (base best + len best =? 8) then put t [58] else Some t);
      t ← put t [0];
      '(r, dst) ← uv__strscpy dst di t.1 0 size;
      Some (if r =? UV_E2BIG then UV_ENOSPC else 0, dst)
  end.

(** [uv_inet_ntop(af, src, dst, size)]. *)
Definition uv_inet_ntop (af : Z) (src dst : list Z) (di size : Z) : option (Z * list Z) :=
  if af =? AF_INET then inet_ntop4 src 0 dst di size
  else if af =? AF_INET6 then inet_ntop6 src dst di size
  else Some (UV_EAFNOSUPPORT, dst).

(** ** From text to bytes *)

Record state4 := mk_4 { saw_digit : bool; octets : Z; tmp4 : list Z; tp4 : Z }.

(** One character; the inner [None] is the return of [UV_EINVAL]. *)
Definition pton4_step (ch : Z) (st : state4) : option (option state4) :=
  match strchr decimal ch with
  | Some d =>
      t ← rd (tmp4 st) (tp4 st);
      let nw := t * 10 + d in
      if saw_digit st && (t =? 0) then Some None
      else if 255 <? nw then Some None
      else
        tmp ← wr (tmp4 st) (tp4 st) (u8 nw);
        if negb (saw_digit st) then
          if 4 <? octets st + 1 then Some None
          else Some (Some (mk_4 true (octets st + 1) tmp (tp4 st)))
        else Some (Some (mk_4 (saw_digit st) (octets st) tmp (tp4 st)))
  | None =>
      if (ch =? 46) && saw_digit st then
        if octets st =? 4 then Some None
        else
          tmp ← wr (tmp4 st) (tp4 st + 1) 0;
          Some (Some (mk_4 false (octets st) tmp (tp4 st + 1)))
      else Some None
  end.

Fixpoint pton4_loop (fuel : nat) (src : list Z) (s : Z) (st : state4) : option (option state4) :=
  ch ← rd src s;
  if ch =? 0 then Some (Some st)
  else match fuel with
  | O => None
  | S fuel' =>
      r ← pton4_step ch st;
      match r with
      | None => Some None
      | Some st' => pton4_loop fuel' src (s + 1) st'
      end
  end.

(** [inet_pton4(src + s, dst + d)]. *)
Definition inet_pton4 (src : list Z) (s : Z) (dst : list Z) (d : Z) : option (Z * list Z) :=
  r ← pton4_loop (length src) src s (mk_4 false 0 [0; 0; 0; 0] 0);
  match r with
  | None => Some (UV_EINVAL, dst)
  | Some st =>
      if octets st <? 4 then Some (UV_EINVAL, dst)
      else dst ← wrs dst d (tmp4 st); Some (0, dst)
  end.

(** Pointers into [tmp] and into the text are indices. *)
Record state6 := mk_6 {
  tmp6 : list Z;
  tp : Z;
  colonp : option Z;
  curtok : Z;
  seen_xdigits : Z;
  val6 : Z }.

Definition endp : Z := 16.

Definition xdigit (ch : Z) : option Z :=
  match strchr xdigits_l ch with
  | Some d => Some d
  | None => strchr xdigits_u ch
  end.

Definition store_word (tmp : list Z) (tp v : Z) : option (list Z) :=
  wrs tmp tp [Z.land (u8 (Z.shiftr v 8)) 0xff; Z.land (u8 v) 0xff].

(** What one character does: return an error, go on, or leave the loop. *)
Inductive outcome := Fail6 | Next (st : state6) | Break (st : state6).

Definition pton6_step (src : list Z) (s : Z) (ch : Z) (st : state6) : option outcome :=
  match xdigit ch with
  | Some d =>
      let v := Z.lor (u32 (Z.shiftl (val6 st) 4)) d in
      if 4 <? seen_xdigits st + 1 then Some Fail6
      else Some (Next (mk_6 (tmp6 st) (tp st) (colonp st) (curtok st) (seen_xdigits st + 1) v))
  | None =>
      if ch =? 58 then
        if seen_xdigits st =? 0 then
          match colonp st with
          | Some _ => Some Fail6
          | None => Some (Next (mk_6 (tmp6 st) (tp st) (Some (tp st)) s 0 (val6 st)))
          end
        else
          nxt ← rd src s;
          if nxt =? 0 then Some Fail6
          else if endp <? tp st + 2 then Some Fail6
          else
            tmp ← store_word (tmp6 st) (tp st) (val6 st);
            Some (Next (mk_6 tmp (tp st + 2) (colonp st) s 0 0))
      else if (ch =? 46) && (tp st + 4 <=? endp) then
        '(err, tmp) ← inet_pton4 src (curtok st) (tmp6 st) (tp st);
        if err =? 0 then Some (Break (mk_6 tmp (tp st + 4) (colonp st) (curtok st) 0 (val6 st)))
        else Some Fail6
      else Some Fail6
  end.

Fixpoint pton6_loop (fuel : nat) (src : list Z) (s : Z) (st : state6) : option (option state6) :=
  ch ← rd src s;
  if ch =? 0 then Some (Some st)
  else match fuel with
  | O => None
  | S fuel' =>
      r ← pton6_step src (s + 1) ch st;
      match r with
      | Fail6 => Some None
      | Break st' => Some (Some st')
      | Next st' => pton6_loop fuel' src (s + 1) st'
      end
  end.

(** The bytes behind the [::] move to the end. *)
Fixpoint shift_loop (fuel : nat) (tmp : list Z) (colon n i : Z) : option (list Z) :=
  if n <? i then Some tmp
  else match fuel with
  | O => None
  | S fuel' =>
      b ← rd tmp (colon + (n - i));
      tmp ← wr tmp (endp - i) b;
      tmp ← wr tmp (colon + (n - i)) 0;
      shift_loop fuel' tmp colon n (i + 1)
  end.

(** What follows the loop. *)
Definition pton6_finish (st : state6) (dst : list Z) (d : Z) : option (Z * list Z) :=
  r ← (if negb (seen_xdigits st =? 0) then
         if endp <? tp st + 2 then Some None
         else tmp ← store_word (tmp6 st) (tp st) (val6 st); Some (Some (tmp, tp st + 2))
       else Some (Some (tmp6 st, tp st)));
  match r with
  | None => Some (UV_EINVAL, dst)
  | Some (tmp, tp) =>
      r ← match colonp st with
          | Some colon =>
              if tp =? endp then Some None
              else tmp ← shift_loop 16 tmp colon (tp - colon) 1; Some (Some (tmp, endp))
          | None => Some (Some (tmp, tp))
          end;
      match r with
      | None => Some (UV_EINVAL, dst)
      | Some (tmp, tp) =>
          if negb (tp =? endp) then Some (UV_EINVAL, dst)
          else dst ← wrs dst d tmp; Some (0, dst)
      end
  end.

Definition inet_pton6 (src : list Z) (s : Z) (dst : list Z) (d : Z) : option (Z * list Z) :=
  c ← rd src s;
  start ← (if c =? 58 then
             c1 ← rd src (s + 1);
             Some (if negb (c1 =? 58) then None else Some (s + 1))
           else Some (Some s));
  match start with
  | None => Some (UV_EINVAL, dst)
  | Some s =>
      r ← pton6_loop (length src) src s (mk_6 (replicate 16 0) 0 None s 0 0);
      match r with
      | None => Some (UV_EINVAL, dst)
      | Some st => pton6_finish st dst d
      end
  end.

(** [uv_inet_pton(af, src, dst)]; [None] pointers are null.  The length in
    front of a zone is a pointer difference kept in an [int]: a negative one
    passes the test and is the size of the [memcpy], which is undefined. *)
Definition uv_inet_pton (af : Z) (src : option (list Z)) (dst : option (list Z)) : option (Z * option (list Z)) :=
  match src, dst with
  | Some src, Some dst =>
      if af =? AF_INET then '(r, dst) ← inet_pton4 src 0 dst 0; Some (r, Some dst)
      else if af =? AF_INET6 then
        str ← c_str src;
        match strchr str 37 with
        | Some n =>
            let len := s32 n in
            if UV__INET6_ADDRSTRLEN - 1 <? len then Some (UV_EINVAL, Some dst)
            else if len <? 0 then None
            else '(r, dst) ← inet_pton6 (take (Z.to_nat len) src ++ [0]) 0 dst 0; Some (r, Some dst)
        | None => '(r, dst) ← inet_pton6 src 0 dst 0; Some (r, Some dst)
        end
      else Some (UV_EAFNOSUPPORT, Some dst)
  | _, _ => Some (UV_EINVAL, dst)
  end.
