(* ===== verification/UvInetSpec.v ===== *)
(** * libuv: bounded copies and reading addresses

    Bounded copies and IPv4 text, then parsing IPv6 text. *)
From S2P Require Import Prelude CBuf UvInet.

(** ** libuv: bounded copies and IPv4 text

    [uv__strscpy] never writes past its bound; [inet_pton4] accepts exactly
    the texts [inet_ntop4] writes. *)

(** A character of a string. *)
Definition nonzero (c : Z) : Prop := in_u 8 c /\ c <> 0.

Lemma c_str_app s post : Forall nonzero s -> c_str (s ++ 0 :: post) = Some s.
Proof.
  induction 1 as [|c s [_ Hc] _ IH]; [done|]. cbn. by rewrite (proj2 (Z.eqb_neq c 0)), IH by done.
Qed.

(** ** [uv__strscpy] *)

Lemma strscpy_loop_fits rest : forall fuel d at_ pre dn post n,
  Forall nonzero rest -> 0 <= at_ -> at_ + n <= Z.of_nat (length d) -> n <= SSIZE_MAX ->
  n = Z.of_nat (length dn) + Z.of_nat fuel -> (length rest < fuel)%nat ->
  strscpy_loop fuel d at_ (pre ++ dn ++ rest ++ 0 :: post) (Z.of_nat (length pre)) (Z.of_nat (length dn)) n =
  buf ← wrs d (at_ + Z.of_nat (length dn)) (rest ++ [0]); Some (Z.of_nat (length dn) + Z.of_nat (length rest), buf).
Proof.
  unfold SSIZE_MAX.
  induction rest as [|c rest IH]; intros fuel d at_ pre dn post n Hnz Ha Hfit Hmax Hn Hf;
    (destruct fuel as [|fuel]; [cbn in Hf; lia|]); cbn [strscpy_loop];
    rewrite (proj2 (Z.ltb_lt _ n)) by lia; rewrite app_assoc, <- Nat2Z.inj_add, <- length_app, rd_at0;
    cbn [app lookup list_lookup mbind option_bind].
  - rewrite Z.eqb_refl, Z.add_0_r. unfold wr. destruct (wrs _ _ [0]); [|done]. cbn [mbind option_bind].
    rewrite (proj2 (Z.ltb_ge _ _)) by (unfold SSIZE_MAX; lia). done.
  - apply Forall_cons in Hnz as [[_ Hc] Hnz]. destruct (wr d _ c) as [d1|] eqn:Ed.
    2: { unfold wr, wrs in Ed. case_bool_decide as H; [done|]. cbn in H. lia. }
    cbn [mbind option_bind]. rewrite (proj2 (Z.eqb_neq c 0)) by done.
    rewrite (wrapu_id 64) by (unfold in_u; lia). pose proof (wrs_length _ _ _ _ Ed) as Hl.
    pose proof (IH fuel d1 at_ pre (dn ++ [c]) post n Hnz Ha) as E.
    rewrite !length_app, !Nat2Z.inj_add, <- !app_assoc in E. cbn [app length] in E. change (Z.of_nat 1) with 1 in E.
    rewrite <- app_assoc. rewrite E by (cbn in Hf; lia).
    pose proof (wr_wrs d (at_ + Z.of_nat (length dn)) c (rest ++ [0])) as Ew. rewrite Ed in Ew.
    cbn [mbind option_bind] in Ew. rewrite Z.add_assoc, Ew. cbn [app]. destruct (wrs d _ _); [|done].
    cbn [mbind option_bind length]. do 2 f_equal. lia.
Qed.

Lemma strscpy_loop_trunc fuel : forall rest d at_ pre dn post n,
  Forall nonzero rest -> 0 <= at_ -> at_ + n <= Z.of_nat (length d) -> n <= SSIZE_MAX -> 0 < n ->
  n = Z.of_nat (length dn) + Z.of_nat fuel -> (fuel <= length rest)%nat ->
  strscpy_loop fuel d at_ (pre ++ dn ++ rest ++ post) (Z.of_nat (length pre)) (Z.of_nat (length dn)) n =
  buf ← wrs d (at_ + Z.of_nat (length dn)) (take fuel rest); buf ← wr buf (at_ + (n - 1)) 0; Some (UV_E2BIG, buf).
Proof.
  unfold SSIZE_MAX.
  induction fuel as [|fuel IH]; intros rest d at_ pre dn post n Hnz Ha Hfit Hmax Hpos Hn Hl; cbn [strscpy_loop take].
  - rewrite (proj2 (Z.ltb_ge _ n)) by lia. rewrite (proj2 (Z.eqb_neq _ 0)) by lia. change (take 0 rest) with (@nil Z). rewrite wrs_nil by lia.
    cbn [mbind option_bind]. replace (Z.of_nat (length dn) - 1) with (n - 1) by lia. done.
  - destruct rest as [|c rest]; [cbn in Hl; lia|]. cbn [take]. rewrite (proj2 (Z.ltb_lt _ n)) by lia.
    rewrite app_assoc, <- Nat2Z.inj_add, <- length_app, rd_at0. cbn [app lookup list_lookup mbind option_bind].
    apply Forall_cons in Hnz as [[_ Hc] Hnz]. destruct (wr d _ c) as [d1|] eqn:Ed.
    2: { unfold wr, wrs in Ed. case_bool_decide as H; [done|]. cbn in H. lia. }
    cbn [mbind option_bind]. rewrite (proj2 (Z.eqb_neq c 0)) by done.
    rewrite (wrapu_id 64) by (unfold in_u; lia). pose proof (wrs_length _ _ _ _ Ed) as Hld.
    pose proof (IH rest d1 at_ pre (dn ++ [c]) post n Hnz Ha) as E.
    rewrite !length_app, !Nat2Z.inj_add, <- !app_assoc in E. cbn [app length] in E. change (Z.of_nat 1) with 1 in E.
    rewrite <- app_assoc. rewrite E by (cbn in Hl; lia).
    pose proof (wr_wrs d (at_ + Z.of_nat (length dn)) c (take fuel rest)) as Ew. rewrite Ed in Ew.
    cbn [mbind option_bind] in Ew. by rewrite Z.add_assoc, Ew.
Qed.

(** All of [uv__strscpy] for a string [s] and a bound [n]. *)
Lemma uv__strscpy_spec d at_ pre s post n :
  Forall nonzero s -> 0 <= at_ -> at_ + n <= Z.of_nat (length d) -> 0 <= n <= SSIZE_MAX ->
  uv__strscpy d at_ (pre ++ s ++ 0 :: post) (Z.of_nat (length pre)) n =
  if n =? 0 then Some (0, d)
  else if Z.of_nat (length s) <? n then buf ← wrs d at_ (s ++ [0]); Some (Z.of_nat (length s), buf)
  else buf ← wrs d at_ (take (Z.to_nat (n - 1)) s ++ [0]); Some (UV_E2BIG, buf).
Proof.
  intros Hnz Ha Hfit Hn. unfold uv__strscpy. destruct (Z.eqb_spec n 0) as [->|Hn0]; [done|].
  destruct (Z.ltb_spec (Z.of_nat (length s)) n) as [Hlt|Hge].
  - pose proof (strscpy_loop_fits s (Z.to_nat n) d at_ pre [] post n Hnz Ha Hfit) as E.
    cbn [app length] in E. change (Z.of_nat 0) with 0 in E. rewrite E by lia. by rewrite Z.add_0_r.
  - pose proof (strscpy_loop_trunc (Z.to_nat n) s d at_ pre [] (0 :: post) n Hnz Ha Hfit) as E.
    cbn [app length] in E. change (Z.of_nat 0) with 0 in E. rewrite E by lia. rewrite Z.add_0_r.
    destruct (lookup_lt_is_Some_2 s (Z.to_nat (n - 1))) as (c & Hc); [lia|].
    replace (Z.to_nat n) with (S (Z.to_nat (n - 1))) by lia.
    rewrite (take_S_r _ _ _ Hc). pose proof (wrs_over d at_ (take (Z.to_nat (n - 1)) s) c 0 []) as Ew.
    rewrite <- Ew. rewrite length_take. replace (Z.of_nat (Nat.min (Z.to_nat (n - 1)) (length s))) with (n - 1) by lia.
    unfold wr. by destruct (wrs d at_ _).
Qed.

(** ** Decimal octets *)

Lemma strchr_decimal c : in_u 8 c -> strchr decimal c = if (48 <=? c) && (c <? 58) then Some (c - 48) else None.
Proof. intros Hc. unfold in_u in Hc. by_byte c. Qed.

Lemma fmt_u_step n :
  in_u 8 n -> fmt_u n = if n <? 10 then [48 + n] else fmt_u (n / 10) ++ [48 + n mod 10].
Proof. intros Hn. unfold in_u in Hn. by_byte n. Qed.

Lemma fmt_u_chars n : in_u 8 n -> Forall (fun c => 48 <= c < 58) (fmt_u n) /\ (1 <= length (fmt_u n) <= 3)%nat.
Proof. intros Hn. unfold in_u in Hn. by_byte n. Qed.

(** ** The automaton of [inet_pton4] *)

Fixpoint steps4 (cs : list Z) (st : state4) : option (option state4) :=
  match cs with
  | [] => Some (Some st)
  | c :: cs' =>
      r ← pton4_step c st;
      match r with None => Some None | Some st' => steps4 cs' st' end
  end.

Lemma steps4_app a : forall b st,
  steps4 (a ++ b) st = r ← steps4 a st; match r with None => Some None | Some st' => steps4 b st' end.
Proof.
  induction a as [|c a IH]; intros b st; cbn [steps4 app mbind option_bind]; [done|].
  destruct (pton4_step c st) as [[st'|]|]; cbn [mbind option_bind]; [apply IH|done..].
Qed.

Lemma pton4_loop_steps cs : forall fuel pre post st,
  Forall nonzero cs -> (length cs <= fuel)%nat ->
  pton4_loop fuel (pre ++ cs ++ 0 :: post) (Z.of_nat (length pre)) st = steps4 cs st.
Proof.
  induction cs as [|c cs IH]; intros fuel pre post st Hnz Hf.
  - destruct fuel; cbn [pton4_loop]; by rewrite rd_at0.
  - destruct fuel as [|fuel]; [cbn in Hf; lia|]. cbn [pton4_loop steps4]. rewrite rd_at0.
    cbn [app lookup list_lookup mbind option_bind]. apply Forall_cons in Hnz as [[_ Hc] Hnz].
    rewrite (proj2 (Z.eqb_neq c 0)) by done. destruct (pton4_step c st) as [[st'|]|]; cbn [mbind option_bind]; [|done..].
    specialize (IH fuel (pre ++ [c]) post st' Hnz). rewrite <- app_assoc, length_app, Nat2Z.inj_add in IH.
    apply IH. cbn in Hf. lia.
Qed.

(** The state after the octets [os], with or without digits of one more. *)
Definition st4 (os : list Z) (saw : bool) (v : Z) : state4 :=
  mk_4 saw (Z.of_nat (length os) + Z.b2z saw) (os ++ v :: replicate (3 - length os) 0) (Z.of_nat (length os)).

Definition text4 (os : list Z) (saw : bool) (v : Z) : list Z :=
  concat ((fun o => fmt_u o ++ [46]) <$> os) ++ (if saw then fmt_u v else []).

Lemma wr_last os v rest (x : Z) :
  wr (os ++ v :: rest) (Z.of_nat (length os)) x = Some (os ++ x :: rest).
Proof.
  apply wrs_Some. split_and!; [lia|rewrite length_app; cbn; lia|]. unfold splice. rewrite Nat2Z.id.
  rewrite take_app_length. cbn [length app]. rewrite <- drop_drop, drop_app_length. done.
Qed.

Lemma step_digit c os saw v :
  48 <= c < 58 -> (length os <= 3)%nat -> 0 <= v <= 255 -> (saw = false -> v = 0) ->
  pton4_step c (st4 os saw v) =
  Some (if saw && (v =? 0) then None else if 255 <? v * 10 + (c - 48) then None
        else Some (st4 os true (v * 10 + (c - 48)))).
Proof.
  intros Hc Hl Hv Hs. unfold pton4_step. rewrite strchr_decimal by (unfold in_u; lia).
  replace ((48 <=? c) && (c <? 58)) with true by lia. cbn [st4 tmp4 tp4 saw_digit octets].
  rewrite rd_app. cbn [mbind option_bind]. destruct (saw && (v =? 0)); [done|].
  destruct (Z.ltb_spec 255 (v * 10 + (c - 48))); [done|]. rewrite wr_last. cbn [mbind option_bind].
  rewrite wrapu_id by (unfold in_u; lia). destruct saw; cbn [negb Z.b2z]; [done|].
  rewrite (proj2 (Z.ltb_ge 4 _)) by lia. unfold st4. cbn [Z.b2z]. by rewrite Z.add_0_r.
Qed.

Lemma step_dot os v :
  (length os <= 3)%nat ->
  pton4_step 46 (st4 os true v) = Some (if bool_decide (length os = 3%nat) then None else Some (st4 (os ++ [v]) false 0)).
Proof.
  intros Hl. unfold pton4_step. change (strchr decimal 46) with (@None Z). cbn [st4 tmp4 tp4 saw_digit octets Z.b2z].
  rewrite Z.eqb_refl. cbn [andb]. case_bool_decide as H3.
  - by rewrite (proj2 (Z.eqb_eq _ 4)) by lia.
  - rewrite (proj2 (Z.eqb_neq _ 4)) by lia. destruct (3 - length os)%nat as [|k] eqn:Ek; [lia|].
    cbn [replicate]. pose proof (wr_last (os ++ [v]) 0 (replicate k 0) 0) as E.
    rewrite length_app, Nat2Z.inj_add, <- app_assoc in E. cbn [app length] in E. change (Z.of_nat 1) with 1 in E.
    rewrite E. cbn [mbind option_bind]. unfold st4. rewrite length_app, Nat2Z.inj_add. cbn [length Z.b2z].
    rewrite <- app_assoc. cbn [app]. replace (3 - (length os + 1))%nat with k by lia. by rewrite Z.add_0_r.
Qed.

Lemma step_other c st : in_u 8 c -> ~ 48 <= c < 58 -> c <> 46 \/ saw_digit st = false -> pton4_step c st = Some None.
Proof.
  intros Hb Hc Ho. unfold pton4_step. rewrite strchr_decimal by done.
  replace ((48 <=? c) && (c <? 58)) with false by lia.
  destruct Ho as [Ho| ->]; [by rewrite (proj2 (Z.eqb_neq c 46))|by rewrite andb_false_r].
Qed.

Record valid4 (os : list Z) (saw : bool) (v : Z) : Prop := {
  v4_octets : Forall (in_u 8) os;
  v4_few : (length os <= 3)%nat;
  v4_value : in_u 8 v;
  v4_fresh : saw = false -> v = 0 }.

(** Every text leads to an error or to the state of the octets it spells. *)
Lemma steps4_sound cs : forall os saw v,
  Forall nonzero cs -> valid4 os saw v ->
  exists r, steps4 cs (st4 os saw v) = Some r /\
    match r with
    | None => True
    | Some st => exists os' saw' v', st = st4 os' saw' v' /\ valid4 os' saw' v' /\
        text4 os saw v ++ cs = text4 os' saw' v'
    end.
Proof.
  induction cs as [|c cs IH]; intros os saw v Hnz Hv.
  { exists (Some (st4 os saw v)). split; [done|]. exists os, saw, v. by rewrite app_nil_r. }
  apply Forall_cons in Hnz as [[Hb Hc] Hnz]. cbn [steps4]. destruct Hv as [Ho Hf Hv Hfr]. unfold in_u in Hv, Hb.
  destruct (decide (48 <= c < 58)) as [Hd|Hd].
  - rewrite step_digit by (done || lia). cbn [mbind option_bind].
    destruct (saw && (v =? 0)) eqn:E0; [by exists None|].
    destruct (Z.ltb_spec 255 (v * 10 + (c - 48))); [by exists None|].
    destruct (IH os true (v * 10 + (c - 48)) Hnz) as (r & Er & Hr); [split; [done|done|unfold in_u; lia|done]|].
    exists r. split; [done|]. destruct r as [st|]; [|done]. destruct Hr as (os' & saw' & v' & -> & Hv' & Et).
    exists os', saw', v'. split_and!; [done|done|]. rewrite <- Et. unfold text4. rewrite <- !app_assoc. f_equal.
    rewrite (fmt_u_step (v * 10 + (c - 48))) by (unfold in_u; lia). destruct saw; cbn [andb] in E0.
    + apply Z.eqb_neq in E0. rewrite (proj2 (Z.ltb_ge _ 10)) by lia.
      replace ((v * 10 + (c - 48)) / 10) with v by (apply (Z.div_unique_pos _ _ _ (c - 48)); lia).
      replace ((v * 10 + (c - 48)) mod 10) with (c - 48) by (apply (Z.mod_unique_pos _ _ v); lia).
      rewrite <- app_assoc. cbn [app]. do 2 f_equal. lia.
    + rewrite Hfr in * by done. rewrite (proj2 (Z.ltb_lt _ 10)) by lia. cbn [app]. f_equal. lia.
  - destruct (decide (c = 46 /\ saw = true)) as [[-> ->]|Ho'].
    2: { rewrite step_other; [by exists None|done|done|]. cbn. destruct saw; [left; intros ->; by apply Ho'|by right]. }
    rewrite step_dot by done. cbn [mbind option_bind]. case_bool_decide as H3; [by exists None|].
    destruct (IH (os ++ [v]) false 0 Hnz) as (r & Er & Hr).
    { split; [apply Forall_app; split; [done|by constructor]|rewrite length_app; cbn; lia|done|done]. }
    exists r. split; [done|]. destruct r as [st|]; [|done]. destruct Hr as (os' & saw' & v' & -> & Hv' & Et).
    exists os', saw', v'. split_and!; [done|done|]. rewrite <- Et. unfold text4.
    rewrite fmap_app, concat_app. cbn [fmap list_fmap concat]. rewrite !app_nil_r, <- !app_assoc. done.
Qed.

(** The digits of an octet lead to its value. *)
Lemma steps4_fmt_u v os :
  in_u 8 v -> (length os <= 3)%nat -> steps4 (fmt_u v) (st4 os false 0) = Some (Some (st4 os true v)).
Proof.
  intros Hv Hl. unfold in_u in Hv.
  assert (forall v, 0 <= v < 10 -> steps4 (fmt_u v) (st4 os false 0) = Some (Some (st4 os true v))) as H1.
  { intros w Hw. rewrite fmt_u_step by (unfold in_u; lia). rewrite (proj2 (Z.ltb_lt w 10)) by lia. cbn [steps4].
    rewrite step_digit by (done || lia). cbn [andb mbind option_bind]. rewrite (proj2 (Z.ltb_ge 255 _)) by lia.
    do 3 f_equal. lia. }
  assert (forall v, 0 <= v < 256 -> 10 <= v -> steps4 (fmt_u (v / 10)) (st4 os false 0) = Some (Some (st4 os true (v / 10))) ->
            steps4 (fmt_u v) (st4 os false 0) = Some (Some (st4 os true v))) as H2.
  { intros w Hw Hge E. rewrite (fmt_u_step w) by (unfold in_u; lia). rewrite (proj2 (Z.ltb_ge w 10)) by lia.
    rewrite steps4_app, E. cbn [mbind option_bind steps4].
    pose proof (Z.div_mod w 10 ltac:(lia)). pose proof (Z.mod_pos_bound w 10 ltac:(lia)).
    rewrite step_digit by (done || lia). cbn [andb mbind option_bind].
    rewrite (proj2 (Z.eqb_neq _ 0)), (proj2 (Z.ltb_ge 255 _)) by lia. do 3 f_equal. lia. }
  destruct (decide (v < 10)); [apply H1; lia|]. apply H2; [lia..|].
  destruct (decide (v / 10 < 10)); [apply H1; pose proof (Z.div_pos v 10); lia|].
  assert (v / 10 < 26) by (apply Z.div_lt_upper_bound; lia).
  assert (v / 10 / 10 < 10) by (apply Z.div_lt_upper_bound; lia).
  apply H2; [lia..|]. apply H1. split; [|done]. apply Z.div_pos; lia.
Qed.

Lemma steps4_fmt_4 a b c d :
  in_u 8 a -> in_u 8 b -> in_u 8 c -> in_u 8 d ->
  steps4 (fmt_4 a b c d) (st4 [] false 0) = Some (Some (st4 [a; b; c] true d)).
Proof.
  intros Ha Hb Hc Hd. unfold fmt_4.
  repeat (rewrite steps4_app, steps4_fmt_u by (done || (cbn; lia)); cbn [app steps4 mbind option_bind];
          rewrite step_dot by (cbn; lia); rewrite bool_decide_eq_false_2 by (cbn; lia); cbn [app mbind option_bind]).
  by rewrite steps4_fmt_u by (done || (cbn; lia)).
Qed.

(** ** [inet_pton4] and [inet_ntop4] *)

Lemma concat_text4 os v :
  length os = 3%nat -> exists a b c, os = [a; b; c] /\ text4 os true v = fmt_4 a b c v.
Proof.
  intros Hl. destruct os as [|a [|b [|c [|]]]]; try done. exists a, b, c. split; [done|].
  unfold text4, fmt_4. cbn [fmap list_fmap concat]. by rewrite app_nil_r, <- !app_assoc.
Qed.

(** Every string: either an error that leaves [dst] alone, or the octets whose
    canonical text the string is. *)
Lemma inet_pton4_spec pre cs post dst d :
  Forall nonzero cs -> 0 <= d -> d + 4 <= Z.of_nat (length dst) ->
  (inet_pton4 (pre ++ cs ++ 0 :: post) (Z.of_nat (length pre)) dst d = Some (UV_EINVAL, dst) /\
   forall a b c e, Forall (in_u 8) [a; b; c; e] -> cs <> fmt_4 a b c e) \/
  exists a b c e dst', Forall (in_u 8) [a; b; c; e] /\ cs = fmt_4 a b c e /\ wrs dst d [a; b; c; e] = Some dst' /\
    inet_pton4 (pre ++ cs ++ 0 :: post) (Z.of_nat (length pre)) dst d = Some (0, dst').
Proof.
  intros Hnz Hd Hfit. unfold inet_pton4.
  rewrite (pton4_loop_steps cs) by (done || (rewrite !length_app; lia)).
  change (mk_4 false 0 [0; 0; 0; 0] 0) with (st4 [] false 0).
  destruct (steps4_sound cs [] false 0 Hnz) as (r & Er & Hr); [by split; [|cbn; lia|..]|]. rewrite Er. cbn [mbind option_bind].
  assert (forall a b c e, Forall (in_u 8) [a; b; c; e] -> cs = fmt_4 a b c e -> r = Some (st4 [a; b; c] true e)) as Hall.
  { intros a b c e Hb ->. apply Forall_cons in Hb as [? [? [? [? _]%Forall_cons]%Forall_cons]%Forall_cons].
    rewrite steps4_fmt_4 in Er by done. congruence. }
  destruct r as [st|]; [|left; split; [done|]; intros a b c e Hb Hcs; by specialize (Hall a b c e Hb Hcs)].
  destruct Hr as (os & saw & v & -> & [Ho Hf Hv Hfr] & Et). cbn [app text4 concat fmap list_fmap] in Et.
  change (octets (st4 os saw v)) with (Z.of_nat (length os) + Z.b2z saw).
  destruct (Z.ltb_spec (Z.of_nat (length os) + Z.b2z saw) 4) as [Hlt|Hge].
  { left. split; [done|]. intros a b c e Hb Hcs. specialize (Hall a b c e Hb Hcs). injection Hall as _ Ho4 _ _.
    cbn in Ho4. lia. }
  right. assert (length os = 3%nat /\ saw = true) as [Hl ->] by (destruct saw; cbn in Hge; split; [lia|done|lia|lia]).
  destruct (concat_text4 os v Hl) as (a & b & c & -> & Et4). cbn [st4 tmp4 length Nat.sub replicate app].
  destruct (wrs dst d [a; b; c; v]) as [dst'|] eqn:Ew.
  2: { unfold wrs in Ew. case_bool_decide as H; [done|]. cbn in H. lia. }
  exists a, b, c, v, dst'. split_and!; [|by rewrite Et, Et4|done|done].
  apply (Forall_app _ [a; b; c] [v]). split; [done|]. constructor; [done|constructor].
Qed.

Lemma fmt_u_nonzero n : in_u 8 n -> Forall nonzero (fmt_u n).
Proof.
  intros Hn. eapply Forall_impl; [by apply fmt_u_chars|]. intros c Hc. cbn in Hc. unfold nonzero, in_u. lia.
Qed.

Lemma fmt_4_chars a b c d :
  Forall (in_u 8) [a; b; c; d] -> Forall nonzero (fmt_4 a b c d) /\ (7 <= length (fmt_4 a b c d) <= 15)%nat.
Proof.
  intros [Ha [Hb [Hc [Hd _]%Forall_cons]%Forall_cons]%Forall_cons]%Forall_cons. unfold fmt_4. split.
  - assert (Forall nonzero [46]) by (repeat constructor; unfold in_u; lia).
    repeat (apply Forall_app; split); try done; by apply fmt_u_nonzero.
  - rewrite !length_app. cbn [length]. destruct (fmt_u_chars a Ha) as [_ ?], (fmt_u_chars b Hb) as [_ ?],
      (fmt_u_chars c Hc) as [_ ?], (fmt_u_chars d Hd) as [_ ?]. lia.
Qed.

(** [inet_ntop4]: the dotted text and a terminator when they fit [size],
    otherwise an error that leaves [dst] alone. *)
Lemma inet_ntop4_spec pre a b c d post dst di size :
  Forall (in_u 8) [a; b; c; d] -> 0 <= di -> di + size <= Z.of_nat (length dst) -> 0 <= size <= SSIZE_MAX ->
  inet_ntop4 (pre ++ [a; b; c; d] ++ post) (Z.of_nat (length pre)) dst di size =
  if Z.of_nat (length (fmt_4 a b c d)) <? size
  then dst' ← wrs dst di (fmt_4 a b c d ++ [0]); Some (0, dst')
  else Some (UV_ENOSPC, dst).
Proof.
  intros Hb Hd Hfit Hs. destruct (fmt_4_chars a b c d Hb) as [Hnz Hl]. unfold inet_ntop4.
  rewrite rd_at0, !rd_at by lia. change (Z.to_nat 1) with 1%nat. change (Z.to_nat 2) with 2%nat.
  change (Z.to_nat 3) with 3%nat. cbn [lookup list_lookup app mbind option_bind].
  rewrite (proj2 (Z.leb_gt _ 0)) by lia. cbn [orb]. unfold snprintf, UV__INET_ADDRSTRLEN.
  rewrite (take_ge (fmt_4 a b c d)) by (change (Z.to_nat (16 - 1)) with 15%nat; lia).
  destruct (Z.ltb_spec (Z.of_nat (length (fmt_4 a b c d))) size) as [Hlt|Hge].
  - rewrite (proj2 (Z.leb_gt _ _)) by done.
    pose proof (uv__strscpy_spec dst di [] (fmt_4 a b c d) [] size Hnz Hd Hfit Hs) as E.
    cbn [app] in E. change (Z.of_nat (length (@nil Z))) with 0 in E. rewrite E.
    rewrite (proj2 (Z.eqb_neq size 0)) by lia. rewrite (proj2 (Z.ltb_lt _ _)) by done.
    by destruct (wrs dst di _).
  - by rewrite (proj2 (Z.leb_le _ _)) by done.
Qed.

Lemma fmt_4_inj a b c d a' b' c' d' :
  Forall (in_u 8) [a; b; c; d] -> Forall (in_u 8) [a'; b'; c'; d'] -> fmt_4 a b c d = fmt_4 a' b' c' d' ->
  [a; b; c; d] = [a'; b'; c'; d'].
Proof.
  intros [? [? [? [? _]%Forall_cons]%Forall_cons]%Forall_cons]%Forall_cons
         [? [? [? [? _]%Forall_cons]%Forall_cons]%Forall_cons]%Forall_cons E.
  pose proof (steps4_fmt_4 a b c d ltac:(done) ltac:(done) ltac:(done) ltac:(done)) as E1.
  rewrite E, steps4_fmt_4 in E1 by done. injection E1. congruence.
Qed.

(** ** libuv: parsing IPv6 text

    [inet_pton6] has defined behaviour on every string, and reads every
    well-formed text of eight words. *)

(** ** The final shift *)

Lemma wr_at {A} (pre : list A) x rest y :
  wr (pre ++ x :: rest) (Z.of_nat (length pre)) y = Some (pre ++ y :: rest).
Proof.
  apply wrs_Some. split_and!; [lia|rewrite length_app; cbn; lia|]. unfold splice. rewrite Nat2Z.id.
  rewrite take_app_length. cbn [length app]. rewrite <- drop_drop, drop_app_length. done.
Qed.

Lemma replicate_last g : replicate (S g) 0 = replicate g 0 ++ [0].
Proof. by rewrite replicate_S_end. Qed.

(** [n] bytes [R1 ++ R2], of which [R2] were moved already. *)
Lemma shift_loop_spec F g R1 : forall R2 fuel,
  (length F + length R1 + length R2 + S g = 16)%nat -> (length R1 <= fuel)%nat ->
  shift_loop fuel (F ++ R1 ++ replicate (S g) 0 ++ R2) (Z.of_nat (length F))
    (Z.of_nat (length R1 + length R2)) (Z.of_nat (length R2) + 1) =
  Some (F ++ replicate (S g) 0 ++ R1 ++ R2).
Proof.
  induction R1 as [|x R1 IH] using rev_ind; intros R2 fuel Hl Hf.
  - destruct fuel; cbn [shift_loop length Nat.add app]; by rewrite (proj2 (Z.ltb_lt _ _)) by lia.
  - rewrite length_app in *. cbn [length] in *. destruct fuel as [|fuel]; [lia|]. cbn [shift_loop].
    rewrite (proj2 (Z.ltb_ge _ _)) by lia.
    replace (Z.of_nat (length F) + (Z.of_nat (length R1 + 1 + length R2) - (Z.of_nat (length R2) + 1)))
      with (Z.of_nat (length (F ++ R1))) by (rewrite length_app; lia).
    assert (F ++ (R1 ++ [x]) ++ replicate (S g) 0 ++ R2 = (F ++ R1) ++ x :: replicate (S g) 0 ++ R2) as ->
      by (rewrite <- !app_assoc; done).
    rewrite rd_app. cbn [mbind option_bind]. rewrite replicate_last.
    assert ((F ++ R1) ++ x :: (replicate g 0 ++ [0]) ++ R2 = ((F ++ R1) ++ [x] ++ replicate g 0) ++ 0 :: R2) as ->
      by (rewrite <- !app_assoc; done).
    unfold endp. replace (16 - (Z.of_nat (length R2) + 1)) with (Z.of_nat (length ((F ++ R1) ++ [x] ++ replicate g 0)))
      by (rewrite !length_app, length_replicate; cbn; lia).
    rewrite wr_at. cbn [mbind option_bind].
    assert (((F ++ R1) ++ [x] ++ replicate g 0) ++ x :: R2 = (F ++ R1) ++ x :: replicate g 0 ++ x :: R2) as ->
      by (rewrite <- !app_assoc; done).
    rewrite wr_at. cbn [mbind option_bind]. specialize (IH (x :: R2) fuel). cbn [length] in IH.
    rewrite <- replicate_last, <- !app_assoc. change (0 :: replicate g 0 ++ x :: R2) with (replicate (S g) 0 ++ x :: R2).
    replace (Z.of_nat (length R1 + 1 + length R2)) with (Z.of_nat (length R1 + S (length R2))) by lia.
    replace (Z.of_nat (length R2) + 1 + 1) with (Z.of_nat (S (length R2)) + 1) by lia.
    rewrite IH by lia. done.
Qed.

(** ** The states of the parser *)

(** The bytes [B] so far, at the beginning of an array of zeros. *)
Definition st6 (B : list Z) (colon : option Z) (cur seen v : Z) : state6 :=
  mk_6 (B ++ replicate (16 - length B) 0) (Z.of_nat (length B)) colon cur seen v.

Definition word_bytes (w : Z) : list Z := [w / 256; w mod 256].

Lemma store_word_spec B w :
  in_u 16 w -> (length B + 2 <= 16)%nat ->
  store_word (B ++ replicate (16 - length B) 0) (Z.of_nat (length B)) w =
  Some ((B ++ word_bytes w) ++ replicate (16 - length (B ++ word_bytes w)) 0).
Proof.
  unfold in_u. intros Hw Hl. unfold store_word. rewrite !land_FF. unfold wrapu. rewrite Z.shiftr_div_pow2 by lia.
  change (2 ^ 8) with 256. rewrite !Z.mod_mod by lia.
  rewrite (Z.mod_small (w / 256)) by (split; [apply Z.div_pos|apply Z.div_lt_upper_bound]; lia).
  apply wrs_Some. rewrite !length_app, length_replicate. cbn [length word_bytes]. split_and!; [lia|lia|].
  unfold splice. rewrite Nat2Z.id, take_app_length, <- drop_drop, drop_app_length, <- app_assoc. f_equal.
  unfold word_bytes. rewrite drop_replicate. cbn [length app]. do 3 f_equal. lia.
Qed.

Lemma word_bytes_ok w : in_u 16 w -> Forall (in_u 8) (word_bytes w).
Proof.
  unfold in_u. intros Hw. repeat constructor; try apply Z.div_pos; try apply Z.div_lt_upper_bound;
    try apply Z.mod_pos_bound; lia.
Qed.

(** The value of a hexadecimal digit. *)
Lemma xdigit_char c d : in_u 8 c -> xdigit c = Some d -> 0 <= d < 16 /\ c <> 0 /\ c <> 58 /\ c <> 46.
Proof.
  intros Hc E. enough (match xdigit c with Some d => bool_decide (0 <= d < 16 /\ c <> 0 /\ c <> 58 /\ c <> 46)
                       | None => true end = true) as H by (rewrite E in H; by apply bool_decide_eq_true in H).
  unfold in_u in Hc. clear E. by_byte c.
Qed.

Lemma append_digit v d : 0 <= v < 2 ^ 12 -> 0 <= d < 16 -> Z.lor (u32 (Z.shiftl v 4)) d = v * 16 + d.
Proof.
  intros Hv Hd. rewrite (wrapu_id 32) by (unfold in_u; rewrite Z.shiftl_mul_pow2; lia).
  rewrite Z.lor_comm, (lor_shiftl_add d v 4) by lia. lia.
Qed.

(** ** Defined behaviour on every string *)

Record inv6 (st : state6) (B : list Z) (limit : Z) : Prop := {
  i6_shape : st = st6 B (colonp st) (curtok st) (seen_xdigits st) (val6 st);
  i6_room : (length B <= 16)%nat;
  i6_bytes : Forall (in_u 8) B;
  i6_colon : forall c, colonp st = Some c -> 0 <= c <= Z.of_nat (length B);
  i6_cur : 0 <= curtok st <= limit;
  i6_seen : 0 <= seen_xdigits st <= 4;
  i6_val : 0 <= val6 st < 16 ^ seen_xdigits st }.

Lemma i6_word st B limit : inv6 st B limit -> in_u 16 (val6 st).
Proof.
  intros [_ _ _ _ _ Hs Hv]. unfold in_u. pose proof (Z.pow_le_mono_r 16 (seen_xdigits st) 4).
  change (16 ^ 4) with (2 ^ 16) in *. lia.
Qed.

(** What the code after the loop needs. *)
Record done6 (st : state6) (B : list Z) : Prop := {
  d6_shape : st = st6 B (colonp st) (curtok st) (seen_xdigits st) (val6 st);
  d6_room : (length B <= 16)%nat;
  d6_bytes : Forall (in_u 8) B;
  d6_colon : forall c, colonp st = Some c -> 0 <= c <= Z.of_nat (length B);
  d6_word : seen_xdigits st <> 0 -> in_u 16 (val6 st) }.

Lemma inv6_done st B limit : inv6 st B limit -> done6 st B.
Proof. intros H. pose proof (i6_word _ _ _ H). destruct H. by split. Qed.

Lemma inet_pton4_at full post s dst d :
  Forall nonzero full -> 0 <= s <= Z.of_nat (length full) -> 0 <= d -> d + 4 <= Z.of_nat (length dst) ->
  inet_pton4 (full ++ 0 :: post) s dst d = Some (UV_EINVAL, dst) \/
  exists q dst', length q = 4%nat /\ Forall (in_u 8) q /\ wrs dst d q = Some dst' /\
    inet_pton4 (full ++ 0 :: post) s dst d = Some (0, dst').
Proof.
  intros Hnz Hs Hd Hfit.
  pose proof (inet_pton4_spec (take (Z.to_nat s) full) (drop (Z.to_nat s) full) post dst d) as H.
  rewrite app_assoc, take_drop, length_take in H. replace (Z.of_nat (Nat.min (Z.to_nat s) (length full))) with s in H by lia.
  destruct H as [[E _]|(a & b & c & e & dst' & Hb & _ & Ew & E)]; [by apply Forall_drop|done|done|by left|].
  right. by exists [a; b; c; e], dst'.
Qed.

Lemma pton6_step_total full post s c st B :
  Forall nonzero full -> full !! Z.to_nat (s - 1) = Some c -> 0 < s <= Z.of_nat (length full) -> inv6 st B s ->
  exists o, pton6_step (full ++ 0 :: post) s c st = Some o /\
    match o with
    | Fail6 => True
    | Next st' => exists B', inv6 st' B' s
    | Break st' => exists B', done6 st' B'
    end.
Proof.
  intros Hnz Hc Hs Hi. pose proof (i6_word _ _ _ Hi) as Hw. destruct Hi as [Hst Hl Hb Hcol Hcur Hseen Hval].
  assert (nonzero c) as [Hc8 Hc0] by (by eapply Forall_lookup_1 in Hc).
  unfold pton6_step. destruct (xdigit c) as [d|] eqn:Ed.
  { destruct (xdigit_char c d Hc8 Ed) as [Hd _]. destruct (Z.ltb_spec 4 (seen_xdigits st + 1)); [by exists Fail6|].
    eexists. split; [done|]. exists B. rewrite Hst in *. cbn [st6 tmp6 tp colonp curtok seen_xdigits val6] in *.
    assert (16 ^ seen_xdigits st <= 2 ^ 12) by (change (2 ^ 12) with (16 ^ 3); apply Z.pow_le_mono_r; lia).
    split; cbn [colonp curtok seen_xdigits val6]; try done; [lia|].
    rewrite append_digit, Z.pow_add_r by lia. lia. }
  destruct (c =? 58) eqn:E58.
  - destruct (Z.eqb_spec (seen_xdigits st) 0) as [E0|E0].
    + destruct (colonp st) eqn:Ecol; [by exists Fail6|]. eexists. split; [done|]. exists B. rewrite Hst in *.
      split; cbn [st6 tmp6 tp colonp curtok seen_xdigits val6] in *; try done; try lia; [intros ? [= <-]; lia|].
      by rewrite E0 in Hval.
    + assert (exists x, rd (full ++ 0 :: post) s = Some x) as (x & ->).
      { unfold rd. rewrite bool_decide_eq_true_2 by lia. apply lookup_lt_is_Some_2. rewrite length_app. cbn. lia. }
      cbn [mbind option_bind]. destruct (x =? 0); [by exists Fail6|].
      destruct (Z.ltb_spec endp (tp st + 2)) as [|Hroom]; [by exists Fail6|].
      rewrite Hst in Hroom |- *. cbn [st6 tmp6 tp colonp curtok seen_xdigits val6] in *. unfold endp in *.
      rewrite store_word_spec by (done || lia). cbn [mbind option_bind]. eexists. split; [done|].
      exists (B ++ word_bytes (val6 st)). split; cbn [tmp6 tp colonp curtok seen_xdigits val6]; try done; try lia.
      * unfold st6. f_equal. rewrite length_app. cbn. lia.
      * rewrite length_app. cbn. lia.
      * apply Forall_app. split; [done|]. by apply word_bytes_ok.
      * intros k Hk. specialize (Hcol k Hk). rewrite length_app. lia.
  - destruct ((c =? 46) && (tp st + 4 <=? endp)) eqn:E46; [|by exists Fail6].
    apply andb_true_iff in E46 as [_ Hroom%Z.leb_le]. rewrite Hst in Hroom |- *.
    cbn [st6 tmp6 tp colonp curtok seen_xdigits val6] in *. unfold endp in *.
    destruct (inet_pton4_at full post (curtok st) (B ++ replicate (16 - length B) 0) (Z.of_nat (length B)))
      as [->|(q & tmp & Hq & Hqb & Ew & ->)]; [done|lia|lia|rewrite length_app, length_replicate; lia|by exists Fail6|].
    cbn [mbind option_bind]. change (0 =? 0) with true. cbn iota. eexists. split; [done|]. exists (B ++ q).
    apply wrs_Some in Ew as (_ & _ & ->).
    split; cbn [tmp6 tp colonp curtok seen_xdigits val6]; rewrite ?length_app, ?Hq; try done; try lia.
    + unfold st6. rewrite length_app, Hq. f_equal; [|lia]. unfold splice.
      rewrite Nat2Z.id, take_app_length, <- drop_drop, drop_app_length, drop_replicate, <- app_assoc, Hq. do 3 f_equal. lia.
    + by apply Forall_app.
    + intros k Hk. specialize (Hcol k Hk). lia.
Qed.

Lemma pton6_loop_total full post fuel : forall s st B,
  Forall nonzero full -> 0 <= s <= Z.of_nat (length full) -> Z.of_nat (length full) <= s + Z.of_nat fuel ->
  inv6 st B s ->
  exists r, pton6_loop fuel (full ++ 0 :: post) s st = Some r /\
    match r with None => True | Some st' => exists B', done6 st' B' end.
Proof.
  induction fuel as [|fuel IH]; intros s st B Hnz Hs Hf Hi; cbn [pton6_loop].
  - assert (s = Z.of_nat (length full)) as -> by lia. rewrite rd_app. cbn [mbind option_bind]. rewrite Z.eqb_refl.
    eexists. split; [done|]. exists B. by eapply inv6_done.
  - destruct (decide (s = Z.of_nat (length full))) as [->|Hne].
    { rewrite rd_app. cbn [mbind option_bind]. rewrite Z.eqb_refl.
      eexists. split; [done|]. exists B. by eapply inv6_done. }
    destruct (lookup_lt_is_Some_2 full (Z.to_nat s)) as (c & Hc); [lia|].
    assert (rd (full ++ 0 :: post) s = Some c) as ->.
    { unfold rd. rewrite bool_decide_eq_true_2 by lia. by rewrite lookup_app_l by lia. }
    cbn [mbind option_bind]. assert (nonzero c) as [_ Hc0] by (by eapply Forall_lookup_1 in Hc).
    rewrite (proj2 (Z.eqb_neq c 0)) by done.
    destruct (pton6_step_total full post (s + 1) c st B) as (o & -> & Ho); [done| |lia| |].
    { replace (s + 1 - 1) with s by lia. done. }
    { destruct Hi as [? ? ? ? Hcu ? ?]. split; try done. lia. }
    cbn [mbind option_bind]. destruct o as [|st'|st']; [by exists None| |by exists (Some st')].
    destruct Ho as (B' & Hi'). apply (IH _ _ B'); try done; lia.
Qed.

Lemma pton6_finish_total st B dst d :
  done6 st B -> 0 <= d -> d + 16 <= Z.of_nat (length dst) ->
  pton6_finish st dst d = Some (UV_EINVAL, dst) \/
  exists v dst', length v = 16%nat /\ Forall (in_u 8) v /\ wrs dst d v = Some dst' /\ pton6_finish st dst d = Some (0, dst').
Proof.
  intros [Hst Hl Hb Hcol Hw] Hd Hfit. unfold pton6_finish.
  set (r := if negb (seen_xdigits st =? 0) then _ else _).
  assert (r = Some None \/ exists B', r = Some (Some (B' ++ replicate (16 - length B') 0, Z.of_nat (length B'))) /\
            (length B <= length B' <= 16)%nat /\ Forall (in_u 8) B') as Hr.
  { subst r. rewrite Hst. cbn [st6 tmp6 tp seen_xdigits val6]. destruct (Z.eqb_spec (seen_xdigits st) 0) as [E|E]; cbn [negb].
    - right. exists B. done.
    - unfold endp. destruct (Z.ltb_spec 16 (Z.of_nat (length B) + 2)); [by left|]. right.
      rewrite store_word_spec by (lia || by apply Hw). exists (B ++ word_bytes (val6 st)).
      cbn [mbind option_bind]. rewrite length_app. cbn [length word_bytes]. split_and!; [|lia|lia|].
      + do 3 f_equal. lia.
      + apply Forall_app. split; [done|]. by apply word_bytes_ok, Hw. }
  clearbody r. destruct Hr as [->|(B' & -> & Hl' & Hb')]; [by left|]. cbn [mbind option_bind].
  destruct (colonp st) as [colon|].
  - specialize (Hcol colon eq_refl). unfold endp. destruct (Z.eqb_spec (Z.of_nat (length B')) 16) as [|Hne]; [by left|].
    right.
    pose proof (shift_loop_spec (take (Z.to_nat colon) B') (15 - length B') (drop (Z.to_nat colon) B') [] 16) as E.
    rewrite length_take, length_drop in E. cbn [length] in E. rewrite !app_nil_r in E.
    replace (S (15 - length B')) with (16 - length B')%nat in E by lia.
    replace (Z.of_nat (Nat.min (Z.to_nat colon) (length B'))) with colon in E by lia.
    replace (Z.of_nat (length B' - Z.to_nat colon + 0)) with (Z.of_nat (length B') - colon) in E by lia.
    change (Z.of_nat 0 + 1) with 1 in E. rewrite (app_assoc (take _ _)), take_drop in E.
    rewrite E by lia. cbn [mbind option_bind]. rewrite Z.eqb_refl. cbn [negb].
    set (v := take _ B' ++ _). assert (length v = 16%nat) as Hv
      by (subst v; rewrite !length_app, length_take, length_drop, length_replicate; lia).
    assert (exists dst', wrs dst d v = Some dst') as (dst' & Ew).
    { unfold wrs. rewrite bool_decide_eq_true_2 by lia. by eexists. }
    exists v, dst'. rewrite Ew. split_and!; [done| |done|done]. subst v.
    repeat (apply Forall_app; split); [by apply Forall_take| |by apply Forall_drop].
    apply Forall_forall. intros x [-> _]%elem_of_replicate. unfold in_u. lia.
  - cbn [mbind option_bind]. unfold endp. destruct (Z.eqb_spec (Z.of_nat (length B')) 16) as [E|Hne]; cbn [negb]; [|by left].
    right. replace (16 - length B')%nat with 0%nat by lia. cbn [replicate]. rewrite app_nil_r.
    assert (exists dst', wrs dst d B' = Some dst') as (dst' & Ew).
    { unfold wrs. rewrite bool_decide_eq_true_2 by lia. by eexists. }
    exists B', dst'. rewrite Ew. split_and!; [lia|done|done|done].
Qed.

Lemma inet_pton6_total full post dst d :
  Forall nonzero full -> 0 <= d -> d + 16 <= Z.of_nat (length dst) ->
  inet_pton6 (full ++ 0 :: post) 0 dst d = Some (UV_EINVAL, dst) \/
  exists v dst', length v = 16%nat /\ Forall (in_u 8) v /\ wrs dst d v = Some dst' /\
    inet_pton6 (full ++ 0 :: post) 0 dst d = Some (0, dst').
Proof.
  intros Hnz Hd Hfit. unfold inet_pton6.
  assert (exists c0, rd (full ++ 0 :: post) 0 = Some c0 /\ (c0 <> 0 -> full <> [])) as (c0 & -> & Hc0)
    by (destruct full; eexists; (split; [reflexivity|done])).
  cbn [mbind option_bind]. set (start := if c0 =? 58 then _ else _).
  assert (exists st0, start = Some st0 /\
            match st0 with None => True | Some s => 0 <= s <= Z.of_nat (length full) end) as Hstart.
  { subst start. destruct (Z.eqb_spec c0 58) as [->|]; [|eexists; split; [reflexivity|cbn; lia]].
    destruct full as [|c1 full]; [by destruct Hc0|].
    assert (exists x, rd ((c1 :: full) ++ 0 :: post) (0 + 1) = Some x) as (x & ->) by (destruct full; by eexists).
    cbn [mbind option_bind]. eexists. split; [reflexivity|]. destruct (negb _); [done|]. cbn. lia. }
  destruct Hstart as (st0 & -> & Hs). cbn [mbind option_bind]. destruct st0 as [s|]; [|by left].
  destruct (pton6_loop_total full post (length (full ++ 0 :: post)) s (mk_6 (replicate 16 0) 0 None s 0 0) [])
    as (r & -> & Hr); [done|done|rewrite length_app; lia| |].
  { split; cbn; try done; lia. }
  cbn [mbind option_bind]. destruct r as [st|]; [|by left]. destruct Hr as (B & HB).
  by eapply pton6_finish_total.
Qed.
