(* ===== verification/UvInetText.v ===== *)
(** * libuv: reading well-formed IPv6 text

    What [inet_pton6] does on words in hexadecimal, on [::] and on a dotted
    quad at the end. *)
From S2P Require Import Prelude CBuf UvInet UvInetSpec.

(** ** Numbers in hexadecimal *)

Definition hexchar (d : Z) : Z := if d <? 10 then 48 + d else 87 + d.

Lemma digits_acc f b : forall n acc, digits f b n acc = digits f b n [] ++ acc.
Proof.
  induction f as [|f IH]; intros n acc; [done|]. cbn [digits]. destruct (n <? b); [done|].
  rewrite IH, (IH _ [_]), <- app_assoc. done.
Qed.

Lemma digits_step f n :
  digits (S f) 16 n [] = if n <? 16 then [hexchar (n mod 16)] else digits f 16 (n / 16) [] ++ [hexchar (n mod 16)].
Proof. cbn [digits]. destruct (n <? 16); [done|]. by rewrite digits_acc. Qed.

Lemma digits_more f : forall k n, 0 <= n < 16 ^ Z.of_nat (S f) -> digits (S f + k) 16 n [] = digits (S f) 16 n [].
Proof.
  induction f as [|f IH]; intros k n Hn.
  - change (16 ^ Z.of_nat 1) with 16 in Hn. cbn [Nat.add]. rewrite (digits_step k), (digits_step 0).
    by rewrite (proj2 (Z.ltb_lt n 16)) by lia.
  - change (S (S f) + k)%nat with (S (S f + k)). rewrite (digits_step (S f + k)), (digits_step (S f)).
    destruct (Z.ltb_spec n 16); [done|]. rewrite IH; [done|].
    split; [apply Z.div_pos; lia|]. apply Z.div_lt_upper_bound; [lia|].
    replace (16 * 16 ^ Z.of_nat (S f)) with (16 ^ Z.of_nat (S (S f))); [lia|].
    rewrite (Nat2Z.inj_succ (S f)), Z.pow_succ_r by lia. done.
Qed.

Lemma xdigit_hexchar d : 0 <= d < 16 -> xdigit (hexchar d) = Some d /\ nonzero (hexchar d) /\ hexchar d <> 58.
Proof.
  intros Hd. assert (in_u 8 d) as Hb by (unfold in_u; lia).
  enough (bool_decide (d < 16) = false \/ (xdigit (hexchar d) = Some d /\ in_u 8 (hexchar d) /\
            hexchar d <> 0 /\ hexchar d <> 58)) as [H|(? & ? & ? & ?)].
  - apply bool_decide_eq_false in H. lia.
  - done.
  - by_byte d.
Qed.

(** ** Runs of the loop *)

Definition reach (src : list Z) (s : Z) (st : state6) (s' : Z) (st' : state6) : Prop :=
  0 <= s <= s' /\ forall fuel, pton6_loop (Z.to_nat (s' - s) + fuel) src s st = pton6_loop fuel src s' st'.

Lemma reach_trans src s st s1 st1 s2 st2 :
  reach src s st s1 st1 -> reach src s1 st1 s2 st2 -> reach src s st s2 st2.
Proof.
  intros [H1 E1] [H2 E2]. split; [lia|]. intros fuel. rewrite <- E2, <- E1. f_equal. lia.
Qed.

Lemma reach_refl src s st : 0 <= s -> reach src s st s st.
Proof. intros. split; [lia|]. intros. f_equal. lia. Qed.

Lemma reach_step pre c post st st' :
  c <> 0 -> pton6_step (pre ++ c :: post) (Z.of_nat (length pre) + 1) c st = Some (Next st') ->
  reach (pre ++ c :: post) (Z.of_nat (length pre)) st (Z.of_nat (length (pre ++ [c]))) st'.
Proof.
  intros Hc E. rewrite length_app, Nat2Z.inj_add. cbn [length]. change (Z.of_nat 1) with 1. split; [lia|]. intros fuel.
  replace (Z.to_nat (Z.of_nat (length pre) + 1 - Z.of_nat (length pre)) + fuel)%nat with (S fuel) by lia.
  cbn [pton6_loop]. rewrite rd_app. cbn [mbind option_bind]. rewrite (proj2 (Z.eqb_neq c 0)), E by done. done.
Qed.

(** The digits of a number of at most four of them. *)
Lemma hex_reach f : forall n pre post tmp t col cur,
  (f <= 3)%nat -> 0 <= n < 16 ^ Z.of_nat (S f) ->
  reach (pre ++ digits (S f) 16 n [] ++ post) (Z.of_nat (length pre)) (mk_6 tmp t col cur 0 0)
    (Z.of_nat (length (pre ++ digits (S f) 16 n [])))
    (mk_6 tmp t col cur (Z.of_nat (length (digits (S f) 16 n []))) n) /\
  (1 <= length (digits (S f) 16 n []) <= S f)%nat /\ Forall nonzero (digits (S f) 16 n []) /\
  head (digits (S f) 16 n []) <> Some 58.
Proof.
  induction f as [|f IH]; intros n pre post tmp t col cur Hf Hn; rewrite digits_step;
    pose proof (Z.mod_pos_bound n 16 ltac:(lia)) as Hm; destruct (xdigit_hexchar (n mod 16) Hm) as (Hx & Hnz & H58);
    destruct (Z.ltb_spec n 16) as [Hlt|Hge].
  1, 3: cbn [length app head]; split_and!; [|lia|lia|constructor; [done|constructor]|congruence];
    apply reach_step; [apply Hnz|]; unfold pton6_step; rewrite Hx; cbn [seen_xdigits val6 tmp6 tp colonp curtok];
    rewrite (append_digit 0) by lia; rewrite Z.mod_small by lia; done.
  - change (16 ^ Z.of_nat 1) with 16 in Hn. lia.
  - assert (0 <= n / 16 < 16 ^ Z.of_nat (S f)) as Hd.
    { split; [apply Z.div_pos; lia|]. apply Z.div_lt_upper_bound; [lia|].
      replace (16 * 16 ^ Z.of_nat (S f)) with (16 ^ Z.of_nat (S (S f))); [lia|].
      rewrite (Nat2Z.inj_succ (S f)), Z.pow_succ_r by lia. done. }
    destruct (IH (n / 16) pre ([hexchar (n mod 16)] ++ post) tmp t col cur ltac:(lia) Hd) as (Hr & Hl & Hz & Hh).
    set (ds := digits (S f) 16 (n / 16) []) in *. rewrite <- app_assoc. split_and!.
    + eapply reach_trans; [exact Hr|]. rewrite app_assoc, (app_assoc pre ds [_]).
      rewrite (length_app ds). cbn [length]. apply reach_step; [apply Hnz|]. unfold pton6_step. rewrite Hx.
      cbn [seen_xdigits val6 tmp6 tp colonp curtok]. rewrite (proj2 (Z.ltb_ge 4 _)) by lia.
      assert (n / 16 < 2 ^ 12).
      { pose proof (Z.pow_le_mono_r 16 (Z.of_nat (S f)) 3 ltac:(lia) ltac:(lia)). change (2 ^ 12) with (16 ^ 3). lia. }
      rewrite append_digit by lia. do 3 f_equal; [lia|]. rewrite (Z.div_mod n 16) at 3 by lia. lia.
    + rewrite length_app. cbn. lia.
    + rewrite length_app. cbn [length]. lia.
    + apply Forall_app. split; [done|]. constructor; [done|constructor].
    + destruct ds; [cbn [length] in Hl; lia|done].
Qed.

Lemma fmt_x_digits w : in_u 16 w -> fmt_x w = digits 4 16 w [].
Proof. intros Hw. unfold in_u in Hw. apply (digits_more 3 4). done. Qed.

Lemma fmt_x_chars w : in_u 16 w ->
  (1 <= length (fmt_x w) <= 4)%nat /\ Forall nonzero (fmt_x w) /\ head (fmt_x w) <> Some 58.
Proof.
  intros Hw. rewrite fmt_x_digits by done. destruct (hex_reach 3 w [] [] [] 0 None 0) as (_ & ? & ? & ?); [lia|done|done].
Qed.

Lemma fmt_x_reach w pre post tmp t col cur :
  in_u 16 w ->
  reach (pre ++ fmt_x w ++ post) (Z.of_nat (length pre)) (mk_6 tmp t col cur 0 0)
    (Z.of_nat (length (pre ++ fmt_x w))) (mk_6 tmp t col cur (Z.of_nat (length (fmt_x w))) w).
Proof. intros Hw. rewrite fmt_x_digits by done. apply hex_reach; [lia|done]. Qed.

(** ** Words with their colons *)

Definition words_text (ws : list Z) : list Z := concat ((fun w => fmt_x w ++ [58]) <$> ws).
Definition words_bytes (ws : list Z) : list Z := concat (word_bytes <$> ws).

Lemma length_words_bytes ws : length (words_bytes ws) = (2 * length ws)%nat.
Proof. induction ws as [|w ws IH]; [done|]. unfold words_bytes in *. cbn. rewrite IH. lia. Qed.

Abbreviation at_ l := (Z.of_nat (length l)).

Lemma word_reach w pre c post B col :
  in_u 16 w -> c <> 0 -> (length B + 2 <= 16)%nat ->
  reach (pre ++ (fmt_x w ++ [58]) ++ c :: post) (at_ pre) (st6 B col (at_ pre) 0 0)
    (at_ (pre ++ fmt_x w ++ [58])) (st6 (B ++ word_bytes w) col (at_ (pre ++ fmt_x w ++ [58])) 0 0).
Proof.
  intros Hw Hc Hl. eapply reach_trans.
  { rewrite <- app_assoc. by apply fmt_x_reach. }
  destruct (fmt_x_chars w Hw) as (Hlen & _). rewrite <- app_assoc, (app_assoc pre), (app_assoc pre).
  apply reach_step; [done|]. unfold pton6_step. change (xdigit 58) with (@None Z). cbn [seen_xdigits val6 tmp6 tp colonp curtok].
  rewrite Z.eqb_refl, (proj2 (Z.eqb_neq _ 0)) by lia.
  pose proof (rd_app ((pre ++ fmt_x w) ++ [58]) c post) as E. rewrite <- app_assoc in E. cbn [app] in E.
  rewrite (length_app (_ ++ _) [58]), Nat2Z.inj_add in E. change (at_ [58]) with 1 in E. cbn [app]. rewrite E.
  cbn [mbind option_bind]. rewrite (proj2 (Z.eqb_neq c 0)) by done. unfold endp.
  rewrite (proj2 (Z.ltb_ge 16 _)) by lia. rewrite store_word_spec by done. cbn [mbind option_bind].
  do 2 f_equal. unfold st6. rewrite !(length_app _ [58]), !length_app. cbn [length word_bytes]. f_equal; lia.
Qed.

Lemma words_reach ws : forall pre c post B col,
  Forall (in_u 16) ws -> c <> 0 -> (length B + 2 * length ws <= 16)%nat ->
  reach (pre ++ words_text ws ++ c :: post) (at_ pre) (st6 B col (at_ pre) 0 0)
    (at_ (pre ++ words_text ws)) (st6 (B ++ words_bytes ws) col (at_ (pre ++ words_text ws)) 0 0).
Proof.
  induction ws as [|w ws IH]; intros pre c post B col Hws Hc Hl.
  - cbn [words_text fmap list_fmap concat words_bytes app]. rewrite !app_nil_r. apply reach_refl. lia.
  - apply Forall_cons in Hws as [Hw Hws]. unfold words_text, words_bytes in *. cbn [fmap list_fmap concat length] in *.
    set (rest := concat _) in *. rewrite <- (app_assoc (_ ++ [58])).
    assert (exists c' post', rest ++ c :: post = c' :: post' /\ c' <> 0) as (c' & post' & E & Hc').
    { subst rest. destruct ws as [|w' ws']; [by exists c, post|]. apply Forall_cons in Hws as [Hw' _].
      destruct (fmt_x_chars w' Hw') as (Hlen & Hnz & _). cbn [fmap list_fmap concat].
      destruct (fmt_x w') as [|x l]; [cbn in Hlen; lia|]. apply Forall_cons in Hnz as [[_ Hx] _]. by eexists x, _. }
    eapply reach_trans.
    { rewrite E. apply word_reach; [done|done|lia]. }
    specialize (IH (pre ++ fmt_x w ++ [58]) c post (B ++ word_bytes w) col Hws Hc).
    fold rest in IH. rewrite <- !app_assoc. repeat rewrite <- app_assoc in IH. apply IH. rewrite length_app. cbn [word_bytes length]. lia.
Qed.

(** ** The end of the text *)

(** The state of the parser holds the bytes [X] once its last word is stored. *)
Definition finished (st : state6) (X : list Z) : Prop :=
  (if negb (seen_xdigits st =? 0) then
     if endp <? tp st + 2 then Some None
     else tmp ← store_word (tmp6 st) (tp st) (val6 st); Some (Some (tmp, tp st + 2))
   else Some (Some (tmp6 st, tp st))) = Some (Some (X ++ replicate (16 - length X) 0, at_ X)).

Definition tail_ok (tail bytes : list Z) : Prop :=
  forall pre post B col fuel, (length B + length bytes <= 16)%nat -> (length tail <= fuel)%nat ->
  exists st', pton6_loop fuel (pre ++ tail ++ 0 :: post) (at_ pre) (st6 B col (at_ pre) 0 0) = Some (Some st') /\
    colonp st' = col /\ finished st' (B ++ bytes).

Lemma reach_loop src s st s' st' fuel :
  reach src s st s' st' -> (Z.to_nat (s' - s) <= fuel)%nat ->
  pton6_loop fuel src s st = pton6_loop (fuel - Z.to_nat (s' - s)) src s' st'.
Proof. intros [Hs E] Hf. rewrite <- E. f_equal. lia. Qed.

Lemma pton6_loop_end fuel pre post st : pton6_loop fuel (pre ++ 0 :: post) (at_ pre) st = Some (Some st).
Proof. destruct fuel; cbn [pton6_loop]; by rewrite rd_app. Qed.

Lemma tail_nil : tail_ok [] [].
Proof.
  intros pre post B col fuel Hl Hf. exists (st6 B col (at_ pre) 0 0). cbn [app].
  rewrite pton6_loop_end, app_nil_r. done.
Qed.

Lemma tail_word w : in_u 16 w -> tail_ok (fmt_x w) (word_bytes w).
Proof.
  intros Hw pre post B col fuel Hl Hf. destruct (fmt_x_chars w Hw) as (Hlen & _).
  cbn [word_bytes length] in Hl.
  eexists. split.
  - erewrite reach_loop; [|by apply fmt_x_reach|rewrite length_app; lia].
    rewrite app_assoc. apply pton6_loop_end.
  - split; [done|]. unfold finished. cbn [seen_xdigits tmp6 tp val6]. rewrite (proj2 (Z.eqb_neq _ 0)) by lia. cbn [negb].
    unfold endp. rewrite (proj2 (Z.ltb_ge 16 _)) by lia. rewrite store_word_spec by (done || lia). cbn [mbind option_bind].
    do 3 f_equal. rewrite length_app. cbn. lia.
Qed.

(** The digits of a first octet are read as a word before the dot is seen. *)
Lemma octet_reach v pre post tmp t col cur :
  in_u 8 v -> exists w, reach (pre ++ fmt_u v ++ post) (at_ pre) (mk_6 tmp t col cur 0 0)
    (at_ (pre ++ fmt_u v)) (mk_6 tmp t col cur (at_ (fmt_u v)) w).
Proof.
  intros Hv.
  assert (exists n, 0 <= n < 16 ^ 4 /\ fmt_u v = digits 4 16 n []) as (n & Hn & ->).
  { exists (v / 100 * 256 + v / 10 mod 10 * 16 + v mod 10).
    unfold in_u in Hv. by_byte v. }
  exists n. apply hex_reach; [lia|done].
Qed.

Lemma tail_quad a b c e :
  Forall (in_u 8) [a; b; c; e] -> tail_ok (fmt_4 a b c e) [a; b; c; e].
Proof.
  intros Hb pre post B col fuel Hl Hf. cbn [length] in Hl.
  destruct (fmt_4_chars a b c e Hb) as [Hnz _].
  assert (in_u 8 a) as Ha by (by apply Forall_cons in Hb as [? _]).
  destruct (fmt_u_chars a Ha) as [_ Hla].
  assert (Hsplit : fmt_4 a b c e = fmt_u a ++ 46 :: (fmt_u b ++ [46] ++ fmt_u c ++ [46] ++ fmt_u e)) by done.
  destruct (octet_reach a pre (46 :: (fmt_u b ++ [46] ++ fmt_u c ++ [46] ++ fmt_u e) ++ 0 :: post)
              (B ++ replicate (16 - length B) 0) (at_ B) col (at_ pre) Ha) as (w & Hr).
  destruct (inet_pton4_spec pre (fmt_4 a b c e) post (B ++ replicate (16 - length B) 0) (at_ B) Hnz)
    as [[_ Hno]|(a' & b' & c' & e' & tmp & Hb' & Eq & Ew & E4)];
    [lia|rewrite length_app, length_replicate; lia|by destruct (Hno a b c e Hb)|].
  assert ([a'; b'; c'; e'] = [a; b; c; e]) as Eb.
  { symmetry. by apply fmt_4_inj. }
  rewrite Eb in Ew. apply wrs_Some in Ew as (_ & _ & ->).
  eexists. split.
  - rewrite Hsplit in *. rewrite <- app_assoc in E4 |- *. cbn [app] in *.
    erewrite reach_loop; [|exact Hr|rewrite !length_app in *; cbn in *; lia].
    destruct (fuel - _)%nat as [|fuel'] eqn:Ef; [rewrite !length_app in *; cbn in *; lia|].
    cbn [pton6_loop]. rewrite (app_assoc pre (fmt_u a)), rd_app. cbn [mbind option_bind].
    change (46 =? 0) with false. cbn iota. rewrite <- (app_assoc pre (fmt_u a)).
    unfold pton6_step. change (xdigit 46) with (@None Z). change (46 =? 58) with false. change (46 =? 46) with true.
    cbn iota. cbn [tp tmp6 curtok andb]. unfold endp. rewrite (proj2 (Z.leb_le _ 16)) by lia.
    rewrite E4. cbn [mbind option_bind]. change (0 =? 0) with true. cbn iota. reflexivity.
  - split; [done|]. unfold finished. cbn [seen_xdigits tmp6 tp val6]. change (0 =? 0) with true. cbn [negb].
    do 3 f_equal; [|rewrite length_app; cbn; lia]. unfold splice. cbn [length].
    rewrite Nat2Z.id, take_app_length, <- drop_drop, drop_app_length, drop_replicate, <- app_assoc, length_app.
    cbn [length]. do 3 f_equal. lia.
Qed.

Lemma tail_words ws tail bytes c tail' :
  Forall (in_u 16) ws -> tail = c :: tail' -> c <> 0 -> tail_ok tail bytes ->
  tail_ok (words_text ws ++ tail) (words_bytes ws ++ bytes).
Proof.
  intros Hws -> Hc Ht pre post B col fuel Hl Hf. rewrite length_app, length_words_bytes in Hl. rewrite length_app in Hf.
  rewrite <- (app_assoc (words_text ws)). cbn [app].
  erewrite reach_loop; [|apply words_reach; [done|done|lia]|rewrite length_app; lia].
  rewrite app_assoc. destruct (Ht (pre ++ words_text ws) post (B ++ words_bytes ws) col
    (fuel - Z.to_nat (at_ (pre ++ words_text ws) - at_ pre))%nat) as (st' & E & Hcol & Hfin).
  - rewrite length_app, length_words_bytes. lia.
  - rewrite length_app. cbn [length] in *. lia.
  - exists st'. rewrite app_assoc. by split_and!.
Qed.

(** ** Finishing *)

Lemma finish_full st X dst d :
  finished st X -> colonp st = None -> length X = 16%nat -> 0 <= d -> d + 16 <= at_ dst ->
  pton6_finish st dst d = dst' ← wrs dst d X; Some (0, dst').
Proof.
  intros Hf Hc Hl Hd Hfit. unfold pton6_finish. unfold finished in Hf. rewrite Hf. cbn [mbind option_bind]. rewrite Hc.
  cbn [mbind option_bind]. rewrite Hl. unfold endp. change (Z.of_nat 16 =? 16) with true. cbn [negb Nat.sub replicate].
  by rewrite app_nil_r.
Qed.

Lemma finish_gap st F R dst d :
  finished st (F ++ R) -> colonp st = Some (at_ F) -> (length F + length R < 16)%nat ->
  0 <= d -> d + 16 <= at_ dst ->
  pton6_finish st dst d = dst' ← wrs dst d (F ++ replicate (16 - length F - length R) 0 ++ R); Some (0, dst').
Proof.
  intros Hf Hc Hl Hd Hfit. unfold pton6_finish. unfold finished in Hf. rewrite Hf. cbn [mbind option_bind]. rewrite Hc.
  unfold endp. rewrite (proj2 (Z.eqb_neq _ 16)) by (rewrite length_app; lia).
  pose proof (shift_loop_spec F (15 - length F - length R) R [] 16) as E. cbn [length] in E. rewrite !app_nil_r in E.
  rewrite length_app, <- app_assoc.
  replace (S (15 - length F - length R)) with (16 - (length F + length R))%nat in E by lia.
  replace (Z.of_nat (length F + length R) - at_ F) with (Z.of_nat (length R + 0)) by lia.
  change (Z.of_nat 0 + 1) with 1 in E. rewrite E by lia. cbn [mbind option_bind]. rewrite Z.eqb_refl. cbn [negb].
  by rewrite Nat.sub_add_distr.
Qed.

(** ** The two shapes of a text *)

Lemma colon_reach pre post B cur :
  reach (pre ++ 58 :: post) (at_ pre) (st6 B None cur 0 0)
    (at_ (pre ++ [58])) (st6 B (Some (at_ B)) (at_ (pre ++ [58])) 0 0).
Proof.
  apply reach_step; [done|]. unfold pton6_step. change (xdigit 58) with (@None Z).
  cbn [st6 seen_xdigits val6 tmp6 tp colonp curtok]. change (58 =? 58) with true. change (0 =? 0) with true. cbn iota.
  do 2 f_equal. unfold st6. rewrite length_app. cbn [length]. f_equal. lia.
Qed.

(** Without [::]. *)
Lemma parse_full T X post dst d :
  tail_ok T X -> length X = 16%nat -> head T <> Some 58 -> T <> [] -> 0 <= d -> d + 16 <= at_ dst ->
  inet_pton6 (T ++ 0 :: post) 0 dst d = dst' ← wrs dst d X; Some (0, dst').
Proof.
  intros Ht Hl Hh Hne Hd Hfit. unfold inet_pton6. destruct T as [|c T]; [done|].
  change (rd ((c :: T) ++ 0 :: post) 0) with (Some c). cbn [mbind option_bind].
  rewrite (proj2 (Z.eqb_neq c 58)) by (intros ->; done). cbn [mbind option_bind].
  destruct (Ht [] post [] None (length ((c :: T) ++ 0 :: post))) as (st' & E & Hcol & Hfin);
    [cbn; lia|rewrite length_app; lia|].
  change (st6 [] None (at_ []) 0 0) with (mk_6 (replicate 16 0) 0 None 0 0 0) in E.
  change (at_ (@nil Z)) with 0 in E. change ([] ++ ?l) with l in E. rewrite E. cbn [mbind option_bind].
  by apply finish_full.
Qed.

(** The words [first], a gap and the rest. *)
Definition gap_text (first tail : list Z) : list Z :=
  (if bool_decide (first = []) then [58] else []) ++ words_text first ++ [58] ++ tail.

Lemma parse_gap first tail bytes post dst d :
  Forall (in_u 16) first -> tail_ok tail bytes -> (2 * length first + length bytes < 16)%nat ->
  0 <= d -> d + 16 <= at_ dst ->
  inet_pton6 (gap_text first tail ++ 0 :: post) 0 dst d =
  dst' ← wrs dst d (words_bytes first ++ replicate (16 - 2 * length first - length bytes) 0 ++ bytes); Some (0, dst').
Proof.
  intros Hf Ht Hl Hd Hfit. unfold gap_text. set (pre := if bool_decide (first = []) then [58] else []).
  assert (exists st', pton6_loop (length ((pre ++ words_text first ++ [58] ++ tail) ++ 0 :: post))
            ((pre ++ words_text first ++ [58] ++ tail) ++ 0 :: post) (at_ pre) (st6 [] None (at_ pre) 0 0) = Some (Some st') /\
          colonp st' = Some (at_ (words_bytes first)) /\ finished st' (words_bytes first ++ bytes)) as (st' & E & Hcol & Hfin).
  { set (n := length _).
    assert (reach (pre ++ words_text first ++ 58 :: tail ++ 0 :: post) (at_ pre) (st6 [] None (at_ pre) 0 0)
              (at_ ((pre ++ words_text first) ++ [58]))
              (st6 (words_bytes first) (Some (at_ (words_bytes first))) (at_ ((pre ++ words_text first) ++ [58])) 0 0)) as Hr.
    { eapply reach_trans; [apply words_reach; [done|done|cbn; lia]|]. cbn [app]. rewrite app_assoc. apply colon_reach. }
    assert ((pre ++ words_text first ++ [58] ++ tail) ++ 0 :: post = pre ++ words_text first ++ 58 :: tail ++ 0 :: post) as Es
      by (rewrite <- !app_assoc; done).
    assert (n = length pre + length (words_text first) + 1 + length tail + 1 + length post)%nat as En
      by (subst n; rewrite !length_app; cbn; lia).
    rewrite Es. erewrite reach_loop; [|exact Hr|rewrite !length_app; cbn [length]; lia].
    destruct (Ht ((pre ++ words_text first) ++ [58]) post (words_bytes first) (Some (at_ (words_bytes first)))
                (n - Z.to_nat (at_ ((pre ++ words_text first) ++ [58%Z]) - at_ pre))%nat) as (st' & E & Hcol & Hfin).
    - rewrite length_words_bytes. lia.
    - rewrite !length_app. cbn [length]. lia.
    - exists st'. split_and!; [|done|done]. rewrite <- E, <- !app_assoc. done. }
  unfold inet_pton6.
  assert (exists c T, (pre ++ words_text first ++ [58] ++ tail) ++ 0 :: post = c :: T /\
            (if c =? 58 then head T = Some 58 /\ at_ pre = 1 else at_ pre = 0)) as (c & T & Es & Hc).
  { subst pre. case_bool_decide as Hfe; [subst first; by eexists 58, _|]. destruct first as [|w first]; [done|].
    apply Forall_cons in Hf as [Hw _]. destruct (fmt_x_chars w Hw) as (Hlen & _ & Hh). cbn [words_text fmap list_fmap concat app].
    destruct (fmt_x w) as [|c l]; [cbn in Hlen; lia|]. eexists c, _. split; [reflexivity|].
    rewrite (proj2 (Z.eqb_neq c 58)) by (intros ->; done). done. }
  rewrite Es in E |- *. change (rd (c :: T) 0) with (Some c). cbn [mbind option_bind].
  assert (exists (start : option Z), (if c =? 58 then c1 ← rd (c :: T) (0 + 1); Some (if negb (c1 =? 58) then None else Some (0 + 1))
            else Some (Some 0)) = Some (Some (at_ pre))) as [_ ->].
  { exists None. destruct (c =? 58); [|by rewrite Hc]. destruct Hc as [Hh ->]. destruct T as [|c1 T]; [done|].
    injection Hh as ->. done. }
  cbn [mbind option_bind].
  change (mk_6 (replicate 16 0) 0 None (at_ pre) 0 0) with (st6 [] None (at_ pre) 0 0). rewrite E. cbn [mbind option_bind].
  rewrite (finish_gap st' (words_bytes first) bytes) by (done || (rewrite length_words_bytes; lia)).
  by rewrite length_words_bytes.
Qed.
