(* ===== verification/UvInetNtop.v ===== *)
(** * libuv: writing IPv6 text

    The text [inet_ntop6] writes, that it fits the local array, and that
    [inet_pton6] reads it back. *)
From S2P Require Import Prelude CBuf UvInet UvInetSpec UvInetText.

(** ** The words *)

Lemma words_loop_step f i pre hi lo post dn zs :
  in_u 8 hi -> in_u 8 lo -> i = Z.of_nat (2 * length dn) -> length pre = (2 * length dn)%nat ->
  words_loop (S (S f)) i (pre ++ hi :: lo :: post) (dn ++ 0 :: zs) =
  words_loop f (i + 2) (pre ++ hi :: lo :: post) (dn ++ (hi * 256 + lo) :: zs).
Proof.
  unfold in_u. intros Hh Hlo -> Hp. cbn [words_loop].
  assert (Z.of_nat (2 * length dn) / 2 = at_ dn) as -> by (symmetry; apply (Z.div_unique_pos _ _ _ 0); lia).
  assert (Z.of_nat (2 * length dn) mod 2 = 0) as -> by (symmetry; apply (Z.mod_unique_pos _ _ (at_ dn)); lia).
  rewrite <- Hp, rd_app. cbn [mbind option_bind]. rewrite rd_app. cbn [mbind option_bind]. rewrite wr_at.
  cbn [mbind option_bind]. rewrite Hp.
  assert ((Z.of_nat (2 * length dn) + 1) / 2 = at_ dn) as -> by (symmetry; apply (Z.div_unique_pos _ _ _ 1); lia).
  assert ((Z.of_nat (2 * length dn) + 1) mod 2 = 1) as -> by (symmetry; apply (Z.mod_unique_pos _ _ (at_ dn)); lia).
  rewrite <- Hp, rd_at by lia. cbn [mbind option_bind]. change (Z.to_nat 1) with 1%nat. cbn [lookup list_lookup mbind option_bind].
  rewrite rd_app. cbn [mbind option_bind]. rewrite wr_at. cbn [mbind option_bind].
  change (Z.shiftl (1 - 0) 3) with 8. change (Z.shiftl (1 - 1) 3) with 0. rewrite Z.shiftl_0_r, Z.lor_0_l, Z.lor_comm.
  rewrite lor_shiftl_add by lia. rewrite <- Z.add_assoc. do 3 f_equal. lia.
Qed.

Lemma words_loop_spec ws : forall dn post,
  Forall (in_u 16) ws ->
  words_loop (2 * length ws) (Z.of_nat (2 * length dn)) (words_bytes dn ++ words_bytes ws ++ post)
    (dn ++ replicate (length ws) 0) = Some (dn ++ ws).
Proof.
  induction ws as [|w ws IH]; intros dn post Hws; [done|]. apply Forall_cons in Hws as [Hw Hws].
  replace (2 * length (w :: ws))%nat with (S (S (2 * length ws))) by (cbn; lia). cbn [length replicate].
  pose proof (word_bytes_ok w Hw) as Hb. unfold word_bytes in Hb. apply Forall_cons in Hb as [Hb1 [Hb2 _]%Forall_cons].
  unfold words_bytes at 2. cbn [fmap list_fmap concat word_bytes app].
  rewrite words_loop_step by (done || by rewrite length_words_bytes).
  assert (w / 256 * 256 + w mod 256 = w) as -> by (pose proof (Z.div_mod w 256); lia).
  specialize (IH (dn ++ [w]) post Hws). unfold words_bytes in IH at 1. rewrite fmap_app, concat_app in IH.
  cbn [fmap list_fmap concat] in IH. rewrite app_nil_r in IH. repeat rewrite <- app_assoc in IH. cbn [app word_bytes] in IH.
  rewrite length_app in IH. cbn [length] in IH. rewrite <- IH. f_equal. lia.
Qed.

(** ** The run of zeros *)

Definition zero_run (ws : list Z) (b n : Z) : Prop :=
  0 <= b /\ 1 <= n /\ b + n <= at_ ws /\ forall i, b <= Z.of_nat i < b + n -> ws !! i = Some 0.

Definition run_ok (ws : list Z) (r : run) : Prop := base r = -1 \/ zero_run ws (base r) (len r).

Lemma zero_run_app ws ws' b n : zero_run ws b n -> zero_run (ws ++ ws') b n.
Proof.
  intros (? & ? & Hl & Hz). split_and!; [done|done|rewrite length_app; lia|]. intros i Hi.
  rewrite lookup_app_l by lia. by apply Hz.
Qed.

Lemma run_ok_app ws ws' r : run_ok ws r -> run_ok (ws ++ ws') r.
Proof. intros [?|?]; [by left|right]. by apply zero_run_app. Qed.

Lemma run_ok_better ws best cur : run_ok ws best -> run_ok ws cur -> run_ok ws (better best cur).
Proof. unfold better. by case_match. Qed.

Lemma find_run_ok ws : forall dn best cur,
  run_ok dn best -> run_ok dn cur -> (base cur <> -1 -> base cur + len cur = at_ dn) ->
  run_ok (dn ++ ws) (find_run ws (at_ dn) best cur).
Proof.
  induction ws as [|w ws IH]; intros dn best cur Hb Hc Hcur; cbn [find_run].
  { rewrite app_nil_r. by apply run_ok_better. }
  replace (at_ dn + 1) with (at_ (dn ++ [w])) by (rewrite length_app; cbn; lia).
  replace (dn ++ w :: ws) with ((dn ++ [w]) ++ ws) by (by rewrite <- app_assoc).
  destruct (Z.eqb_spec w 0) as [->|Hw].
  - assert (forall b n, b + n = at_ dn -> (n = 0 \/ zero_run dn b n) -> 0 <= b -> zero_run (dn ++ [0]) b (n + 1)) as Hext.
    { intros b n E Hz Hb0. split_and!; [done|destruct Hz as [|(? & ? & _)]; lia|rewrite length_app; cbn; lia|].
      intros i Hi. destruct (decide (i = length dn)) as [->|Hne]; [by apply list_lookup_middle|].
      rewrite lookup_app_l by lia. destruct Hz as [->|(_ & _ & _ & Hz)]; [lia|]. apply Hz. lia. }
    apply IH; [by apply run_ok_app| |].
    + right. destruct (Z.eqb_spec (base cur) (-1)) as [E|E]; cbn [base len].
      * apply (Hext (at_ dn) 0); [lia|by left|lia].
      * destruct Hc as [|Hz]; [done|]. apply Hext; [by apply Hcur|by right|]. destruct Hz as (? & _). lia.
    + intros _. rewrite length_app. cbn [length]. destruct (Z.eqb_spec (base cur) (-1)) as [E|E]; cbn [base len]; [lia|].
      specialize (Hcur E). lia.
  - apply IH; [apply run_ok_app; by apply run_ok_better|by left|done].
Qed.

Lemma best_run_ok ws : base (best_run ws) = -1 \/ zero_run ws (base (best_run ws)) (len (best_run ws)).
Proof.
  unfold best_run. case_match; [by left|]. apply (find_run_ok ws [] (mk_run (-1) 0) (mk_run (-1) 0)); [by left|by left|done].
Qed.

(** ** The text *)

Definition in_run (best : run) (i : Z) : bool :=
  negb (base best =? -1) && (base best <=? i) && (i <? base best + len best).

Definition is_quad (best : run) (w5 w7 : Z) : bool :=
  (base best =? 0) && ((len best =? 6) || ((len best =? 7) && negb (w7 =? 1)) || ((len best =? 5) && (w5 =? 0xffff))).

(** The text of the words from index [i] on; [quad] replaces the last two. *)
Fixpoint text6 (best : run) (quad : option (list Z)) (i : Z) (ws : list Z) : list Z :=
  match ws with
  | [] => []
  | w :: ws' =>
      if in_run best i then (if i =? base best then [58] else []) ++ text6 best quad (i + 1) ws'
      else (if i =? 0 then [] else [58]) ++
           match (if i =? 6 then quad else None) with
           | Some q => q
           | None => fmt_x w ++ text6 best quad (i + 1) ws'
           end
  end.

(** The local array holds [text], and [tp] points behind it. *)
Definition holds_text (t : list Z * Z) (text : list Z) : Prop :=
  length t.1 = 46%nat /\ t.2 = at_ text /\ take (length text) t.1 = text.

Lemma wrs_text t text more :
  holds_text t text -> (length text + length more <= 46)%nat ->
  exists tmp, wrs t.1 t.2 more = Some tmp /\ tmp = text ++ more ++ drop (length text + length more) t.1 /\ length tmp = 46%nat.
Proof.
  intros (Hl & Ht & Htk) Hfit. rewrite Ht. unfold wrs. rewrite bool_decide_eq_true_2 by lia. eexists. split; [done|].
  unfold splice. rewrite Nat2Z.id, Htk. split; [done|]. rewrite !length_app, length_drop. lia.
Qed.

Lemma put_text t text more :
  holds_text t text -> (length text + length more <= 46)%nat ->
  exists t', put t more = Some t' /\ holds_text t' (text ++ more).
Proof.
  intros Hh Hfit. destruct (wrs_text t text more Hh Hfit) as (tmp & E & Et & Hl). unfold put. rewrite E. cbn [mbind option_bind].
  eexists. split; [done|]. split_and!; [done| |].
  - cbn. destruct Hh as (_ & -> & _). rewrite length_app. lia.
  - cbn. by rewrite Et, app_assoc, take_app_length.
Qed.

(** [sprintf] of a word, whose terminator the next character overwrites. *)
Lemma ntop6_word t text x (k : list Z * Z -> option (Z + list Z * Z)) (P : list Z * Z -> Prop) :
  holds_text t text -> (length text + length x + 1 <= 46)%nat ->
  (forall t', holds_text t' (text ++ x) -> exists t2, k t' = Some (inr t2) /\ P t2) ->
  exists t2, (sprintf ← wrs t.1 t.2 (x ++ [0]); k (sprintf, t.2 + at_ x)) = Some (inr t2) /\ P t2.
Proof.
  intros Hh Hfit Hk. destruct (wrs_text t text (x ++ [0]) Hh) as (tmp & E & Et & Hl); [rewrite length_app; cbn; lia|].
  rewrite E. cbn [mbind option_bind]. apply Hk. split_and!; [done| |].
  - cbn. destruct Hh as (_ & -> & _). rewrite length_app. lia.
  - cbn [fst]. rewrite Et, <- app_assoc, app_assoc. by rewrite take_app_length.
Qed.

Lemma ntop6_loop_spec src pre12 a b c d best words ws : forall dn i t text,
  src = pre12 ++ [a; b; c; d] -> length pre12 = 12%nat -> Forall (in_u 8) [a; b; c; d] ->
  words = dn ++ ws -> length words = 8%nat -> Forall (in_u 16) words -> i = at_ dn ->
  let quad := if is_quad best (words !!! 5%nat) (words !!! 7%nat) then Some (fmt_4 a b c d) else None in
  holds_text t text -> (length text + length (text6 best quad i ws) + 1 <= 46)%nat ->
  exists t', ntop6_loop (length ws) i src words best t = Some (inr t') /\ holds_text t' (text ++ text6 best quad i ws).
Proof.
  induction ws as [|w ws IH]; intros dn i t text Hsrc H12 Hb Hwords H8 Hw16 Hi quad Hh Hfit.
  { exists t. cbn [text6 app]. by rewrite app_nil_r. }
  cbn [length ntop6_loop text6] in *. change (negb (base best =? -1) && (base best <=? i) && (i <? base best + len best)) with (in_run best i).
  assert (i + 1 = at_ (dn ++ [w])) as Hi1 by (rewrite length_app; cbn; lia).
  assert (words = (dn ++ [w]) ++ ws) as Hw1 by (by rewrite <- app_assoc).
  destruct (in_run best i).
  - rewrite length_app in Hfit. destruct (i =? base best).
    + destruct (put_text t text [58] Hh) as (t1 & E1 & Hh1); [cbn [length] in *; lia|]. rewrite E1. cbn [mbind option_bind].
      destruct (IH (dn ++ [w]) (i + 1) t1 (text ++ [58])) as (t' & E & Hh'); try done; [rewrite length_app; cbn [length] in *; subst quad; lia|].
      exists t'. split; [done|]. by rewrite <- app_assoc in Hh'.
    + cbn [mbind option_bind]. apply (IH (dn ++ [w])); try done.
  - assert (rd words 5 = Some (words !!! 5%nat)) as E5 by (apply (list_lookup_lookup_total_lt words 5); lia).
    assert (rd words 7 = Some (words !!! 7%nat)) as E7 by (apply (list_lookup_lookup_total_lt words 7); lia).
    assert (rd words i = Some w) as Ei by (rewrite Hwords, Hi; apply rd_app).
    assert (exists t1, (if negb (i =? 0) then put t [58] else Some t) = Some t1 /\
              holds_text t1 (text ++ (if i =? 0 then [] else [58]))) as (t1 & -> & Hh1).
    { rewrite length_app in Hfit. destruct (i =? 0); cbn [negb length] in *; [exists t; by rewrite app_nil_r|].
      apply put_text; [done|cbn [length]; lia]. }
    cbn [mbind option_bind]. rewrite E5, E7. cbn [mbind option_bind].
    set (text1 := text ++ (if i =? 0 then [] else [58])) in *. rewrite length_app in Hfit.
    assert (length text1 = length text + length (if (i =? 0)%Z then [] else [58%Z]))%nat as Hl1 by (subst text1; apply length_app).
    rewrite app_assoc. fold text1. rewrite <- andb_assoc. fold (is_quad best (words !!! 5%nat) (words !!! 7%nat)).
    subst quad. destruct (is_quad best (words !!! 5%nat) (words !!! 7%nat)) eqn:Eq;
      [destruct (i =? 6) eqn:E6|rewrite andb_false_r; cbn iota in *]; cbn [andb] in *.
    + destruct (fmt_4_chars a b c d Hb) as [Hnz Hq].
      assert (inet_ntop4 src 12 t1.1 t1.2 (UV__INET6_ADDRSTRLEN - t1.2) =
              dst' ← wrs t1.1 t1.2 (fmt_4 a b c d ++ [0]); Some (0, dst')) as ->.
      { rewrite Hsrc. change 12 with (Z.of_nat 12). rewrite <- H12.
        pose proof Hh1 as (Hl46 & Ht2 & _).
        pose proof (inet_ntop4_spec pre12 a b c d [] t1.1 t1.2 (UV__INET6_ADDRSTRLEN - t1.2) Hb) as E.
        cbn [app] in E. rewrite E by (unfold UV__INET6_ADDRSTRLEN, SSIZE_MAX; lia).
        by rewrite (proj2 (Z.ltb_lt _ _)) by (unfold UV__INET6_ADDRSTRLEN; lia). }
      destruct (wrs_text t1 text1 (fmt_4 a b c d ++ [0]) Hh1) as (tmp & E & Et & Hl); [rewrite length_app; cbn [length]; lia|].
      rewrite E. cbn [mbind option_bind]. change (negb (0 =? 0)) with false. cbn iota.
      destruct Hh1 as (_ & Ht2 & _). rewrite Ht2, Nat2Z.id, Et, drop_app_length, <- app_assoc. cbn [app].
      rewrite c_str_app by done. cbn [mbind option_bind]. eexists. split; [reflexivity|]. split_and!.
      * rewrite Et in Hl. by rewrite <- app_assoc in Hl.
      * cbn [snd]. rewrite length_app. lia.
      * cbn [fst]. rewrite app_assoc. by rewrite take_app_length.
    + rewrite Ei. cbn [mbind option_bind]. rewrite length_app in Hfit.
      eapply ntop6_word; [exact Hh1|lia|]. intros t2 Hh2. destruct (IH (dn ++ [w]) (i + 1) t2 (text1 ++ fmt_x w)) as (t' & E & Hh');
        try done; [rewrite length_app; lia|]. exists t'. by rewrite <- app_assoc in Hh'.
    + rewrite Ei. cbn [mbind option_bind]. replace (if i =? 6 then None else None) with (@None (list Z)) in * by (by destruct (i =? 6)).
      rewrite length_app in Hfit.
      eapply ntop6_word; [exact Hh1|lia|]. intros t2 Hh2. destruct (IH (dn ++ [w]) (i + 1) t2 (text1 ++ fmt_x w)) as (t' & E & Hh');
        try done; [rewrite length_app; lia|]. exists t'. by rewrite <- app_assoc in Hh'.
Qed.

(** ** The shape of the text *)

(** Words with a colon in front of each, and between them. *)
Definition colons (ws : list Z) : list Z := concat ((fun w => 58 :: fmt_x w) <$> ws).
Definition joined (ws : list Z) : list Z := match ws with [] => [] | w :: ws' => fmt_x w ++ colons ws' end.

Lemma colons_app a b : colons (a ++ b) = colons a ++ colons b.
Proof. unfold colons. by rewrite fmap_app, concat_app. Qed.

Lemma words_text_app a b : words_text (a ++ b) = words_text a ++ words_text b.
Proof. unfold words_text. by rewrite fmap_app, concat_app. Qed.

Lemma words_bytes_app a b : words_bytes (a ++ b) = words_bytes a ++ words_bytes b.
Proof. unfold words_bytes. by rewrite fmap_app, concat_app. Qed.

Lemma joined_colon ws : forall w, fmt_x w ++ colons ws ++ [58] = words_text (w :: ws).
Proof.
  induction ws as [|w' ws IH]; intros w; unfold words_text, colons in *; cbn [fmap list_fmap concat] in *.
  - by rewrite app_nil_r.
  - rewrite <- IH, <- !app_assoc. done.
Qed.

Lemma joined_snoc ws w : joined (ws ++ [w]) = words_text ws ++ fmt_x w.
Proof.
  destruct ws as [|w0 ws]; [by apply app_nil_r|]. cbn [app joined]. rewrite colons_app, <- joined_colon, <- !app_assoc.
  unfold colons. cbn. by rewrite app_nil_r.
Qed.

Lemma tail_joined ws : Forall (in_u 16) ws -> tail_ok (joined ws) (words_bytes ws).
Proof.
  destruct ws as [|w ws _] using rev_ind; intros Hws; [apply tail_nil|].
  apply Forall_app in Hws as [Hws [Hw _]%Forall_cons]. rewrite joined_snoc, words_bytes_app.
  destruct (fmt_x_chars w Hw) as (Hl & Hnz & _). destruct (fmt_x w) as [|c l] eqn:E; [cbn in Hl; lia|].
  apply Forall_cons in Hnz as [[_ Hc] _]. eapply tail_words; [done|done|done|]. rewrite <- E.
  unfold words_bytes at 1. cbn [fmap list_fmap concat]. rewrite app_nil_r. by apply tail_word.
Qed.

Lemma colons_chars ws : Forall (in_u 16) ws -> (length (colons ws) <= 5 * length ws)%nat /\ Forall nonzero (colons ws).
Proof.
  induction 1 as [|w ws Hw _ [IH1 IH2]]; [done|]. destruct (fmt_x_chars w Hw) as (Hl & Hnz & _).
  unfold colons in *. cbn [fmap list_fmap concat]. split; [rewrite length_app; cbn [length]; lia|].
  cbn [app]. constructor; [by unfold nonzero, in_u|]. by apply Forall_app.
Qed.

Lemma words_text_chars ws :
  Forall (in_u 16) ws -> (length (words_text ws) <= 5 * length ws)%nat /\ Forall nonzero (words_text ws).
Proof.
  assert (Forall nonzero [58]) by (constructor; [by unfold nonzero, in_u|constructor]).
  induction 1 as [|w ws Hw _ [IH1 IH2]]; [done|]. destruct (fmt_x_chars w Hw) as (Hl & Hnz & _).
  unfold words_text in *. cbn [fmap list_fmap concat]. split; [rewrite !length_app; cbn [length]; lia|].
  apply Forall_app; split; [by apply Forall_app|done].
Qed.

Lemma joined_chars ws :
  Forall (in_u 16) ws -> (length (joined ws) <= 5 * length ws)%nat /\ Forall nonzero (joined ws).
Proof.
  intros Hws. destruct ws as [|w ws]; [done|]. apply Forall_cons in Hws as [Hw Hws].
  destruct (fmt_x_chars w Hw) as (Hl & Hnz & _), (colons_chars ws Hws) as [Hlc Hnc]. cbn [joined].
  split; [rewrite length_app; cbn [length]; lia|by apply Forall_app].
Qed.

Section Shape.
Context (best : run) (quad : option (list Z)).

(** No word from [i] on is in the run or replaced. *)
Lemma text6_rest ws : forall i,
  0 < i -> (forall j, i <= j < i + at_ ws -> in_run best j = false) -> (quad = None \/ 6 < i) ->
  text6 best quad i ws = colons ws.
Proof.
  induction ws as [|w ws IH]; intros i Hi Hrun Hq; [done|]. cbn [text6 length] in *.
  rewrite Hrun, (proj2 (Z.eqb_neq i 0)) by lia.
  replace (if i =? 6 then quad else None) with (@None (list Z)).
  2: { destruct (Z.eqb_spec i 6); [|done]. destruct Hq as [->|]; [done|lia]. }
  rewrite IH; [done|lia|intros j Hj; apply Hrun; lia|]. destruct Hq; [by left|right; lia].
Qed.

Lemma text6_first ws ws' : forall i,
  0 < i -> (forall j, i <= j < i + at_ ws -> in_run best j = false) -> quad = None ->
  text6 best quad i (ws ++ ws') = colons ws ++ text6 best quad (i + at_ ws) ws'.
Proof.
  induction ws as [|w ws IH]; intros i Hi Hrun Hq; [cbn; by rewrite Z.add_0_r|]. cbn [text6 length app] in *.
  rewrite Hrun, (proj2 (Z.eqb_neq i 0)) by lia. replace (if i =? 6 then quad else None) with (@None (list Z)).
  2: { rewrite Hq. by destruct (i =? 6). }
  rewrite IH; [|lia|intros j Hj; apply Hrun; lia|done]. unfold colons. cbn [fmap list_fmap concat app].
  rewrite <- app_assoc. replace (i + 1 + at_ ws) with (i + Z.of_nat (S (length ws))) by lia. done.
Qed.

Lemma text6_run zs ws : forall i,
  base best < i -> (forall j, i <= j < i + at_ zs -> in_run best j = true) ->
  text6 best quad i (zs ++ ws) = text6 best quad (i + at_ zs) ws.
Proof.
  induction zs as [|z zs IH]; intros i Hi Hrun; [cbn; by rewrite Z.add_0_r|]. cbn [text6 length app] in *.
  rewrite Hrun, (proj2 (Z.eqb_neq i (base best))) by lia. cbn [app].
  rewrite IH; [|lia|intros j Hj; apply Hrun; lia]. f_equal. lia.
Qed.
End Shape.

Lemma in_run_spec best i : base best <> -1 -> in_run best i = bool_decide (base best <= i < base best + len best).
Proof. intros Hb. unfold in_run. case_bool_decide; lia. Qed.

(** The colon behind a run at the end. *)
Definition last_colon (best : run) : list Z :=
  if negb (base best =? -1) && (base best + len best =? 8) then [58] else [].

(** The words around a run of zeros. *)
Lemma run_split ws b n :
  zero_run ws b n ->
  exists first rest, ws = first ++ replicate (Z.to_nat n) 0 ++ rest /\ at_ first = b /\ at_ rest = at_ ws - b - n.
Proof.
  intros (Hb & Hn & Hl & Hz). exists (take (Z.to_nat b) ws), (drop (Z.to_nat (b + n)) ws).
  rewrite length_take, length_drop. split_and!; [|lia|lia].
  apply list_eq. intros i. destruct (decide (Z.of_nat i < b)).
  { rewrite lookup_app_l by (rewrite length_take; lia). by rewrite lookup_take_lt by lia. }
  rewrite lookup_app_r by (rewrite length_take; lia). rewrite length_take.
  destruct (decide (Z.of_nat i < b + n)).
  - rewrite lookup_app_l by (rewrite length_replicate; lia). rewrite Hz by lia.
    symmetry. apply lookup_replicate. split; [done|lia].
  - rewrite lookup_app_r by (rewrite length_replicate; lia). rewrite length_replicate, lookup_drop. f_equal. lia.
Qed.

Definition text_of (best : run) (quad : option (list Z)) (words : list Z) : list Z :=
  text6 best quad 0 words ++ last_colon best.

Lemma text_no_run best w ws : base best = -1 -> text_of best None (w :: ws) = joined (w :: ws).
Proof.
  intros Hb. assert (forall j, in_run best j = false) as Hr by (intros j; unfold in_run; by rewrite Hb).
  unfold text_of, last_colon. rewrite Hb. cbn [text6 negb andb Z.eqb app]. rewrite Hr. cbn [app].
  change (if 0 =? 6 then None else None) with (@None (list Z)). rewrite (text6_rest _ _ ws (0 + 1)) by (done || lia || auto).
  by rewrite app_nil_r.
Qed.

(** A run, and no dotted quad behind it. *)
Lemma text_run best quad first n rest :
  base best = at_ first -> len best = Z.of_nat (S n) -> (length first + S n + length rest = 8)%nat ->
  (quad = None \/ (first = [] /\ 6 < at_ first + Z.of_nat (S n))) ->
  text_of best quad (first ++ replicate (S n) 0 ++ rest) = gap_text first (joined rest).
Proof.
  intros Hb Hn Hl Hq. assert (base best <> -1) as Hb1 by lia.
  assert (forall j, in_run best j = bool_decide (at_ first <= j < at_ first + Z.of_nat (S n))) as Hr
    by (intros j; rewrite in_run_spec, Hb, Hn; done).
  assert (text6 best quad (at_ first) (replicate (S n) 0 ++ rest) ++ last_colon best = [58] ++ [58] ++ joined rest) as Htail.
  { cbn [replicate app text6]. rewrite Hr, bool_decide_eq_true_2 by lia. rewrite Hb, Z.eqb_refl. cbn [app]. f_equal.
    rewrite text6_run; [|lia|intros j Hj; rewrite length_replicate in Hj; rewrite Hr, bool_decide_eq_true_2 by lia; done].
    rewrite length_replicate, text6_rest; [|lia|intros j Hj; rewrite Hr, bool_decide_eq_false_2 by lia; done|].
    2: { destruct Hq as [?|[_ ?]]; [by left|right; lia]. }
    unfold last_colon. rewrite (proj2 (Z.eqb_neq _ (-1))) by lia. cbn [negb andb]. rewrite Hb, Hn.
    destruct rest as [|w rest]; cbn [length] in Hl.
    - rewrite (proj2 (Z.eqb_eq _ 8)) by lia. done.
    - rewrite (proj2 (Z.eqb_neq _ 8)) by lia. rewrite app_nil_r. done. }
  unfold text_of, gap_text. destruct first as [|w first].
  - rewrite bool_decide_eq_true_2 by done. exact Htail.
  - rewrite bool_decide_eq_false_2 by done. assert (quad = None) as -> by (destruct Hq as [|[? _]]; done).
    cbn [app text6 length] in *. rewrite Hr, bool_decide_eq_false_2 by lia.
    change (if 0 =? 6 then None else None) with (@None (list Z)). change (if 0 =? 0 then [] else [58]) with (@nil Z). cbn [app].
    rewrite text6_first; [|lia|intros j Hj; rewrite Hr, bool_decide_eq_false_2 by lia; done|done].
    replace (0 + 1 + at_ first) with (Z.of_nat (S (length first))) by lia.
    rewrite <- !app_assoc. change (0 :: replicate n 0 ++ rest) with (replicate (S n) 0 ++ rest). rewrite Htail.
    rewrite <- joined_colon, <- !app_assoc. done.
Qed.

(** A dotted quad behind five or six zero words. *)
Lemma text_quad best q n mid w6 w7 :
  base best = 0 -> len best = Z.of_nat (S n) -> (S n + length mid = 6)%nat -> (length mid <= 1)%nat ->
  text_of best (Some q) (replicate (S n) 0 ++ mid ++ [w6; w7]) = gap_text [] (words_text mid ++ q).
Proof.
  intros Hb Hn Hl Hm.
  assert (forall j, in_run best j = bool_decide (0 <= j < Z.of_nat (S n))) as Hr
    by (intros j; rewrite in_run_spec, Hb, Hn by lia; done).
  unfold text_of, gap_text, last_colon. rewrite bool_decide_eq_true_2 by done.
  rewrite Hb, Hn, (proj2 (Z.eqb_neq _ 8)) by lia. rewrite andb_false_r, app_nil_r.
  cbn [replicate app text6]. rewrite Hr, bool_decide_eq_true_2 by lia. rewrite Hb, Z.eqb_refl. cbn [app]. f_equal.
  rewrite text6_run; [|lia|intros j Hj; rewrite length_replicate in Hj; rewrite Hr, bool_decide_eq_true_2 by lia; done].
  rewrite length_replicate. change (words_text []) with (@nil Z). cbn [app].
  assert (forall ws, text6 best (Some q) 6 (w6 :: ws) = 58 :: q) as Hq.
  { intros ws. cbn [text6]. rewrite Hr, bool_decide_eq_false_2 by lia. done. }
  destruct mid as [|w5 [|]]; cbn [length app] in *; [| |lia].
  - replace (0 + 1 + Z.of_nat n) with 6 by lia. apply Hq.
  - replace (0 + 1 + Z.of_nat n) with 5 by lia.
    assert (forall l, text6 best (Some q) 5 (w5 :: l) = 58 :: fmt_x w5 ++ text6 best (Some q) 6 l) as ->
      by (intros l; cbn [text6]; by rewrite Hr, bool_decide_eq_false_2 by lia).
    rewrite Hq. unfold words_text. cbn [fmap list_fmap concat]. rewrite app_nil_r, <- !app_assoc. done.
Qed.

(** What a text must be. *)
Definition good_text (T X : list Z) : Prop :=
  (length T <= 45)%nat /\ Forall nonzero T /\
  forall post dst d, 0 <= d -> d + 16 <= at_ dst ->
    inet_pton6 (T ++ 0 :: post) 0 dst d = dst' ← wrs dst d X; Some (0, dst').

Lemma zeros_bytes n : words_bytes (replicate n 0) = replicate (2 * n) 0.
Proof.
  induction n as [|n IH]; [done|]. replace (2 * S n)%nat with (S (S (2 * n))) by lia.
  unfold words_bytes in *. cbn [replicate fmap list_fmap concat]. by rewrite IH.
Qed.

Lemma good_gap first n tail bytes :
  Forall (in_u 16) first -> tail_ok tail bytes -> Forall nonzero tail ->
  (2 * length first + 2 * S n + length bytes = 16)%nat ->
  (5 * length first + 2 + length tail <= 45)%nat ->
  good_text (gap_text first tail) (words_bytes first ++ replicate (2 * S n) 0 ++ bytes).
Proof.
  intros Hf Ht Hnz Hl Hlt. destruct (words_text_chars first Hf) as [Hl1 Hn1].
  assert (Forall nonzero [58]) by (constructor; [by unfold nonzero, in_u|constructor]). split_and!.
  - unfold gap_text. rewrite !length_app. case_bool_decide; cbn [length]; lia.
  - unfold gap_text. repeat (apply Forall_app; split); try done. by case_bool_decide.
  - intros post dst d Hd Hfit. rewrite (parse_gap first tail bytes) by (done || lia).
    replace (16 - 2 * length first - length bytes)%nat with (2 * S n)%nat by lia. done.
Qed.

Lemma quad_good words a b c d best pre12 n rest :
  words = replicate (S n) 0 ++ rest -> length words = 8%nat -> Forall (in_u 16) rest ->
  words_bytes words = pre12 ++ [a; b; c; d] -> length pre12 = 12%nat -> Forall (in_u 8) [a; b; c; d] ->
  base best = 0 -> len best = Z.of_nat (S n) -> (n = 4 \/ n = 5)%nat ->
  good_text (text_of best (Some (fmt_4 a b c d)) words) (words_bytes words).
Proof.
  intros Ew H8 Hwr Hbytes H12 Hb E0 Hlen Hn. assert (length rest = 7 - n)%nat as Hlr.
  { rewrite Ew, length_app, length_replicate in H8. lia. }
  assert (exists mid w6 w7, rest = mid ++ [w6; w7] /\ length mid = (5 - n)%nat) as (mid & w6 & w7 & -> & Hm).
  { destruct rest as [|w6 [|w7 [|w8 [|]]]]; cbn in Hlr; try lia.
    - exists [], w6, w7. split; [done|cbn; lia].
    - exists [w6], w7, w8. split; [done|cbn; lia]. }
  apply Forall_app in Hwr as [Hwm _].
  rewrite Ew, !words_bytes_app, zeros_bytes in Hbytes. rewrite (app_assoc (replicate _ _)) in Hbytes.
  apply app_inj_2 in Hbytes as [_ Hquad]; [|done].
  rewrite Ew, (text_quad best (fmt_4 a b c d) n mid w6 w7) by (done || lia).
  rewrite !words_bytes_app, zeros_bytes, Hquad.
  destruct (fmt_4_chars a b c d Hb) as [Hnz Hlq], (words_text_chars mid Hwm) as [Hlm Hnm].
  assert (exists c0 l, fmt_4 a b c d = c0 :: l /\ c0 <> 0) as (c0 & l & Eq & Hc0).
  { destruct (fmt_4 a b c d) as [|c0 l]; [cbn in Hlq; lia|]. apply Forall_cons in Hnz as [[_ ?] _]. by exists c0, l. }
  apply (good_gap [] n); [done|eapply tail_words; [done|exact Eq|done|by apply tail_quad]|by apply Forall_app| |].
  - rewrite length_app, length_words_bytes. cbn [length]. lia.
  - rewrite length_app. cbn [length]. lia.
Qed.

(** Every text is good. *)
Lemma text_good words a b c d best pre12 :
  length words = 8%nat -> Forall (in_u 16) words -> words_bytes words = pre12 ++ [a; b; c; d] ->
  length pre12 = 12%nat -> Forall (in_u 8) [a; b; c; d] ->
  base best = -1 \/ zero_run words (base best) (len best) ->
  good_text (text_of best (if is_quad best (words !!! 5%nat) (words !!! 7%nat) then Some (fmt_4 a b c d) else None) words)
            (words_bytes words).
Proof.
  intros H8 Hw Hbytes H12 Hb [Hr|Hr].
  { unfold is_quad. rewrite Hr. change (-1 =? 0) with false. cbn [andb]. destruct words as [|w ws]; [done|].
    rewrite text_no_run by done. destruct (joined_chars _ Hw) as [Hl Hnz].
    pose proof Hw as [Hw0 _]%Forall_cons. destruct (fmt_x_chars w Hw0) as (Hlw & _ & Hh). split_and!; [cbn in *; lia|done|].
    intros post dst d' Hd Hfit. apply parse_full; try done; [by apply tail_joined|by rewrite length_words_bytes, H8| |];
      cbn [joined]; destruct (fmt_x w); [cbn in Hlw; lia|done|cbn in Hlw; lia|done]. }
  destruct (run_split _ _ _ Hr) as (first & rest & Ew & Hf & Hrest). pose proof Hr as (Hb0 & Hn1 & Hl & _).
  destruct (Z.to_nat (len best)) as [|n] eqn:En; [lia|]. assert (len best = Z.of_nat (S n)) as Hlen by lia.
  assert (Forall (in_u 16) first /\ Forall (in_u 16) rest) as [Hwf Hwr].
  { rewrite Ew in Hw. by apply Forall_app in Hw as [? [_ ?]%Forall_app]. }
  destruct (is_quad best (words !!! 5%nat) (words !!! 7%nat) && negb (len best =? 7)) eqn:Eq.
  - apply andb_true_iff in Eq as [Eq Eq7]. rewrite Eq. unfold is_quad in Eq.
    apply andb_true_iff in Eq as [E0%Z.eqb_eq Elen]. apply negb_true_iff, Z.eqb_neq in Eq7.
    assert (len best = 5 \/ len best = 6) as Hn by (destruct (Z.eqb_spec (len best) 6), (Z.eqb_spec (len best) 5), (Z.eqb_spec (len best) 7); auto; done).
    destruct first as [|]; [|cbn in Hf; lia]. cbn [app] in Ew.
    apply (quad_good words a b c d best pre12 n rest); try done; lia.
  - pose proof (text_run best (if is_quad best (words !!! 5%nat) (words !!! 7%nat) then Some (fmt_4 a b c d) else None)
                  first n rest) as E.
    rewrite <- Ew in E. rewrite E; [|done|done|lia|].
    + assert (words_bytes words = words_bytes first ++ replicate (2 * S n) 0 ++ words_bytes rest) as ->
        by (by rewrite Ew at 1; rewrite !words_bytes_app, zeros_bytes).
      destruct (joined_chars rest Hwr) as [Hlj Hnj].
      apply good_gap; [done|by apply tail_joined|done|rewrite length_words_bytes; lia|lia].
    + destruct (is_quad best _ _) eqn:Eq'; [right|by left]. cbn [andb] in Eq. apply negb_false_iff, Z.eqb_eq in Eq.
      unfold is_quad in Eq'. apply andb_true_iff in Eq' as [E0%Z.eqb_eq _]. destruct first; [|cbn in Hf; lia]. split; [done|cbn; lia].
Qed.

(** ** No other characters *)

(** Digits, colons and dots are between these two. *)
Definition addr_char (c : Z) : Prop := 46 <= c <= 102.

Lemma digits_addr f n acc :
  0 <= n -> Forall addr_char acc -> Forall addr_char (digits f 16 n acc).
Proof.
  revert n acc. induction f as [|f IH]; intros n acc Hn Ha; [done|]. cbn [digits].
  pose proof (Z.mod_pos_bound n 16 ltac:(lia)).
  assert (Forall addr_char ((if n mod 16 <? 10 then 48 + n mod 16 else 87 + n mod 16) :: acc)).
  { constructor; [|done]. unfold addr_char. destruct (Z.ltb_spec (n mod 16) 10); lia. }
  destruct (n <? 16); [done|]. apply IH; [apply Z.div_pos; lia|done].
Qed.

Lemma fmt_4_addr a b c d : Forall (in_u 8) [a; b; c; d] -> Forall addr_char (fmt_4 a b c d).
Proof.
  intros [Ha [Hb [Hc [Hd _]%Forall_cons]%Forall_cons]%Forall_cons]%Forall_cons. unfold fmt_4.
  assert (Forall addr_char [46]) by (constructor; [unfold addr_char; lia|constructor]).
  assert (forall v, in_u 8 v -> Forall addr_char (fmt_u v)).
  { intros v Hv. eapply Forall_impl; [by apply fmt_u_chars|]. intros x Hx. cbn in Hx. unfold addr_char. lia. }
  repeat (apply Forall_app; split); auto.
Qed.

Lemma text_addr best quad words :
  Forall (in_u 16) words -> match quad with Some q => Forall addr_char q | None => True end ->
  Forall addr_char (text_of best quad words).
Proof.
  intros Hw Hq. assert (Forall addr_char [58]) by (constructor; [unfold addr_char; lia|constructor]).
  assert (forall ws i, Forall (in_u 16) ws -> Forall addr_char (text6 best quad i ws)) as Ht.
  { induction ws as [|w ws IH]; intros i Hws; [constructor|]. apply Forall_cons in Hws as [Hw0 Hws]. cbn [text6].
    destruct (in_run best i); apply Forall_app;
      (split; [match goal with |- Forall _ (if ?b then _ else _) => destruct b; (done || constructor) end|]); [by apply IH|].
    destruct (if i =? 6 then quad else None) as [q|] eqn:E.
    - destruct (i =? 6); [|done]. by rewrite E in Hq.
    - apply Forall_app; split; [|by apply IH]. unfold in_u in Hw0. apply digits_addr; [lia|constructor]. }
  apply Forall_app; split; [by apply Ht|]. unfold last_colon. destruct (negb _ && _); (done || constructor).
Qed.

(** ** [inet_ntop6] *)

Lemma bytes_words k : forall src, length src = (2 * k)%nat -> Forall (in_u 8) src ->
  exists ws, src = words_bytes ws /\ Forall (in_u 16) ws /\ length ws = k.
Proof.
  induction k as [|k IH]; intros src Hl Hb.
  - exists []. by destruct src.
  - destruct src as [|hi [|lo src]]; cbn in Hl; try lia. apply Forall_cons in Hb as [Hh [Hlo Hb]%Forall_cons].
    destruct (IH src ltac:(lia) Hb) as (ws & -> & Hw & Hk). exists (hi * 256 + lo :: ws). unfold in_u in *. split_and!.
    + unfold words_bytes. cbn [fmap list_fmap concat]. unfold word_bytes at 2.
      assert ((hi * 256 + lo) / 256 = hi) as -> by (symmetry; apply (Z.div_unique_pos _ _ _ lo); lia).
      assert ((hi * 256 + lo) mod 256 = lo) as -> by (symmetry; apply (Z.mod_unique_pos _ _ hi); lia). done.
    + constructor; [unfold in_u; lia|done].
    + cbn. lia.
Qed.

(** The text of an address, whatever the buffer. *)
Lemma inet_ntop6_spec src :
  length src = 16%nat -> Forall (in_u 8) src ->
  exists T, good_text T src /\ Forall addr_char T /\
    forall dst di size, 0 <= di -> di + size <= at_ dst -> 0 <= size <= SSIZE_MAX ->
      inet_ntop6 src dst di size =
      if size =? 0 then Some (0, dst)
      else if at_ T <? size then dst' ← wrs dst di (T ++ [0]); Some (0, dst')
      else dst' ← wrs dst di (take (Z.to_nat (size - 1)) T ++ [0]); Some (UV_ENOSPC, dst').
Proof.
  intros Hl Hb. destruct (bytes_words 8 src Hl Hb) as (words & Esrc & Hw & H8).
  assert (exists pre12 a b c d, src = pre12 ++ [a; b; c; d] /\ length pre12 = 12%nat) as (pre12 & a & b & c & d & E12 & H12).
  { exists (take 12 src). destruct (drop 12 src) as [|a [|b [|c [|d [|]]]]] eqn:E;
      apply (f_equal length) in E as El; rewrite length_drop, Hl in El; cbn in El; try lia.
    exists a, b, c, d. rewrite <- E, take_drop, length_take. split; [done|lia]. }
  assert (Forall (in_u 8) [a; b; c; d]) as Hq by (rewrite E12 in Hb; by apply Forall_app in Hb as [_ ?]).
  set (best := best_run words). pose proof (best_run_ok words) as Hok. fold best in Hok.
  set (quad := if is_quad best (words !!! 5%nat) (words !!! 7%nat) then Some (fmt_4 a b c d) else None).
  pose proof (text_good words a b c d best pre12 H8 Hw) as Hgood. rewrite <- Esrc in Hgood.
  specialize (Hgood E12 H12 Hq Hok). fold quad in Hgood. exists (text_of best quad words). split; [done|].
  split; [apply text_addr; [done|subst quad; case_match; [by apply fmt_4_addr|done]]|].
  destruct Hgood as (H45 & Hnz & _). intros dst di size Hd Hfit Hs. unfold inet_ntop6.
  pose proof (words_loop_spec words [] [] Hw) as Ewords. rewrite H8 in Ewords. cbn [app words_bytes fmap list_fmap concat] in Ewords.
  rewrite app_nil_r, <- Esrc in Ewords. change (2 * 8)%nat with 16%nat in Ewords. change (Z.of_nat (2 * length (@nil Z))) with 0 in Ewords.
  rewrite Ewords. cbn [mbind option_bind]. fold best.
  unfold text_of in *. rewrite length_app in H45.
  destruct (ntop6_loop_spec src pre12 a b c d best words words [] 0 (replicate 46 0, 0) []) as (t & Et & Hh); try done.
  { fold quad. cbn [length]. lia. }
  rewrite H8 in Et. rewrite Et. cbn [mbind option_bind]. fold quad in Hh. cbn [app] in Hh.
  assert (exists t1, (if negb (base best =? -1) && (base best + len best =? 8) then put t [58] else Some t) = Some t1 /\
            holds_text t1 (text6 best quad 0 words ++ last_colon best)) as (t1 & -> & Hh1).
  { unfold last_colon in *. destruct (negb _ && _); [|exists t; by rewrite app_nil_r].
    apply put_text; [done|]. cbn [length] in *. lia. }
  cbn [mbind option_bind]. set (T := text6 best quad 0 words ++ last_colon best) in *.
  rewrite <- length_app in H45. fold T in H45.
  destruct (put_text t1 T [0] Hh1) as (t2 & -> & (Hl2 & _ & Htk)); [cbn [length]; lia|]. cbn [mbind option_bind].
  rewrite <- (take_drop (length (T ++ [0])) t2.1), Htk.
  pose proof (uv__strscpy_spec dst di [] T (drop (length (T ++ [0])) t2.1) size Hnz Hd Hfit Hs) as E.
  cbn [app] in E. change (Z.of_nat (length (@nil Z))) with 0 in E. rewrite <- app_assoc. cbn [app]. rewrite E.
  destruct (size =? 0); [done|]. destruct (at_ T <? size).
  - destruct (wrs dst di _); [|done]. cbn [mbind option_bind].
    rewrite (proj2 (Z.eqb_neq _ UV_E2BIG)) by (unfold UV_E2BIG; lia). done.
  - by destruct (wrs dst di _).
Qed.

(** ** [strchr] *)

Lemma strchr_none T : Forall addr_char T -> strchr T 37 = None.
Proof.
  intros HT. unfold strchr. assert (list_find (37 =.) T = None) as ->; [|done].
  apply list_find_None. eapply Forall_impl; [exact HT|]. unfold addr_char. cbn. lia.
Qed.

Lemma strchr_middle T rest : strchr T 37 = None -> strchr (T ++ 37 :: rest) 37 = Some (at_ T).
Proof.
  unfold strchr. destruct (list_find (37 =.) T) eqn:E; [done|]. intros _. apply list_find_None in E.
  assert (list_find (37 =.) (T ++ 37 :: rest) = Some (length T, 37)) as ->; [|done].
  apply list_find_Some. split_and!; [by apply list_lookup_middle|done|].
  intros j y Hj Hlt. rewrite lookup_app_l in Hj by done. by eapply Forall_lookup_1 in E.
Qed.

Lemma strchr_Some T c n : strchr T c = Some n -> 0 <= n /\ n < at_ T.
Proof.
  unfold strchr. destruct (list_find (c =.) T) as [[i x]|] eqn:E; [|done]. intros [= <-]. cbn.
  apply list_find_Some in E as (E & _). apply lookup_lt_Some in E. lia.
Qed.
