(* ===== verification/UvInetTheorems.v ===== *)
(** * libuv: the properties of Internet addresses

    Bounded copies, IPv4 and IPv6 text in both directions. *)
From S2P Require Import Prelude CBuf UvInet UvInetSpec UvInetText UvInetNtop.

(** [uv__strscpy] stores at most [n] bytes: all of the string and its
    terminator when they fit, and returns the length; otherwise the first
    [n - 1] characters and a terminator, and [UV_E2BIG]; nothing for a bound of
    zero. *)
Theorem strscpy_bounded d at_d pre s post n :
  Forall nonzero s -> 0 <= at_d -> at_d + n <= Z.of_nat (length d) -> 0 <= n <= SSIZE_MAX ->
  uv__strscpy d at_d (pre ++ s ++ 0 :: post) (Z.of_nat (length pre)) n =
  if n =? 0 then Some (0, d)
  else if Z.of_nat (length s) <? n then buf ← wrs d at_d (s ++ [0]); Some (Z.of_nat (length s), buf)
  else buf ← wrs d at_d (take (Z.to_nat (n - 1)) s ++ [0]); Some (UV_E2BIG, buf).
Proof. apply uv__strscpy_spec. Qed.

Lemma strscpy_bounded_witness :
  uv__strscpy [7; 7; 7; 7; 7] 1 ([9] ++ [65; 66; 67] ++ 0 :: []) 1 3 = Some (UV_E2BIG, [7; 65; 66; 0; 7]).
Proof.
  apply (strscpy_bounded [7; 7; 7; 7; 7] 1 [9] [65; 66; 67] [] 3);
    [repeat (constructor; [split; decided|]); constructor|lia|decided|decided].
Defined.

(**  [uv_inet_pton(AF_INET)] accepts exactly the dotted decimal texts of
    four octets without leading zeros, and stores the octets; every other
    string gives [UV_EINVAL] and leaves the destination alone. *)
Theorem pton4_exact cs post dst :
  Forall nonzero cs -> (4 <= length dst)%nat ->
  (uv_inet_pton AF_INET (Some (cs ++ 0 :: post)) (Some dst) = Some (UV_EINVAL, Some dst) /\
   forall a b c e, Forall (in_u 8) [a; b; c; e] -> cs <> fmt_4 a b c e) \/
  exists a b c e dst', Forall (in_u 8) [a; b; c; e] /\ cs = fmt_4 a b c e /\ wrs dst 0 [a; b; c; e] = Some dst' /\
    uv_inet_pton AF_INET (Some (cs ++ 0 :: post)) (Some dst) = Some (0, Some dst').
Proof.
  intros Hnz Hl. unfold uv_inet_pton. rewrite Z.eqb_refl.
  destruct (inet_pton4_spec [] cs post dst 0 Hnz) as [[E H]|(a & b & c & e & dst' & Hb & Ec & Ew & E)]; [lia|lia| |];
    cbn [app] in E; change (Z.of_nat (length (@nil Z))) with 0 in E; rewrite E; cbn [mbind option_bind].
  - by left.
  - right. by exists a, b, c, e, dst'.
Qed.

(** "1.2.03.4" *)
Lemma pton4_exact_witness :
  (uv_inet_pton AF_INET (Some ([49; 46; 50; 46; 48; 51; 46; 52] ++ 0 :: [])) (Some [7; 7; 7; 7])
     = Some (UV_EINVAL, Some [7; 7; 7; 7]) /\
   forall a b c e, Forall (in_u 8) [a; b; c; e] -> [49; 46; 50; 46; 48; 51; 46; 52] <> fmt_4 a b c e) \/
  exists a b c e dst', Forall (in_u 8) [a; b; c; e] /\ [49; 46; 50; 46; 48; 51; 46; 52] = fmt_4 a b c e /\
    wrs [7; 7; 7; 7] 0 [a; b; c; e] = Some dst' /\
    uv_inet_pton AF_INET (Some ([49; 46; 50; 46; 48; 51; 46; 52] ++ 0 :: [])) (Some [7; 7; 7; 7]) = Some (0, Some dst').
Proof.
  apply (pton4_exact [49; 46; 50; 46; 48; 51; 46; 52] [] [7; 7; 7; 7]);
    [repeat (constructor; [split; decided|]); constructor|cbn; lia].
Defined.

(**  IPv4: a text written by [uv_inet_ntop] is read back by
    [uv_inet_pton] as the same four octets, and the text was stored entirely
    or not at all. *)
Theorem inet4_roundtrip a b c d dst di size dst4 :
  Forall (in_u 8) [a; b; c; d] -> 0 <= di -> di + size <= Z.of_nat (length dst) -> 0 <= size <= SSIZE_MAX ->
  (4 <= length dst4)%nat ->
  if Z.of_nat (length (fmt_4 a b c d)) <? size then
    exists text post dst', uv_inet_ntop AF_INET [a; b; c; d] dst di size = Some (0, dst') /\
      drop (Z.to_nat di) dst' = text ++ 0 :: post /\
      exists dst4', wrs dst4 0 [a; b; c; d] = Some dst4' /\
        uv_inet_pton AF_INET (Some (text ++ 0 :: post)) (Some dst4) = Some (0, Some dst4')
  else uv_inet_ntop AF_INET [a; b; c; d] dst di size = Some (UV_ENOSPC, dst).
Proof.
  intros Hb Hd Hfit Hs Hl4. pose proof (inet_ntop4_spec [] a b c d [] dst di size Hb Hd Hfit Hs) as E.
  cbn [app] in E. change (Z.of_nat (length (@nil Z))) with 0 in E. change (uv_inet_ntop AF_INET [a; b; c; d] dst di size)
    with (inet_ntop4 [a; b; c; d] 0 dst di size). rewrite E.
  destruct (Z.ltb_spec (Z.of_nat (length (fmt_4 a b c d))) size) as [Hlt|]; [|done].
  destruct (fmt_4_chars a b c d Hb) as [Hnz _].
  destruct (wrs dst di (fmt_4 a b c d ++ [0])) as [dst'|] eqn:Ew.
  2: { unfold wrs in Ew. rewrite bool_decide_eq_true_2 in Ew; [done|]. rewrite length_app. cbn [length]. lia. }
  apply wrs_Some in Ew as (_ & _ & ->). eexists _, _, _. split; [reflexivity|].
  unfold splice. rewrite drop_app_length' by (rewrite length_take; lia). rewrite <- app_assoc. cbn [app].
  split; [reflexivity|]. unfold uv_inet_pton. rewrite Z.eqb_refl.
  destruct (inet_pton4_spec [] (fmt_4 a b c d) (drop (Z.to_nat di + length (fmt_4 a b c d ++ [0])) dst) dst4 0 Hnz)
    as [[_ H]|(a' & b' & c' & d' & dst4' & Hb' & Ec & Ew & E4)]; [lia|lia|by destruct (H a b c d Hb)|].
  cbn [app] in E4. change (Z.of_nat (length (@nil Z))) with 0 in E4. rewrite E4. cbn [mbind option_bind].
  exists dst4'. split; [|done]. rewrite (fmt_4_inj a b c d a' b' c' d') by done. done.
Qed.

Lemma inet4_roundtrip_witness :
  exists text post dst', uv_inet_ntop AF_INET [192; 168; 0; 1] (replicate 16 7) 1 12 = Some (0, dst') /\
    drop 1 dst' = text ++ 0 :: post /\
    exists dst4', wrs [0; 0; 0; 0] 0 [192; 168; 0; 1] = Some dst4' /\
      uv_inet_pton AF_INET (Some (text ++ 0 :: post)) (Some [0; 0; 0; 0]) = Some (0, Some dst4').
Proof.
  apply (inet4_roundtrip 192 168 0 1 (replicate 16 7) 1 12 [0; 0; 0; 0]);
    [decided|lia|decided|decided|cbn; lia].
Defined.

(** C10.  IPv6: every address has one text of at most 45 characters, with its
    zero words compressed and IPv4 addresses embedded; [uv_inet_ntop] stores
    it when it fits, and [uv_inet_pton] reads the same sixteen bytes from it,
    also with a zone identifier behind it. *)
Theorem inet6_roundtrip src :
  length src = 16%nat -> Forall (in_u 8) src ->
  exists T, (length T <= 45)%nat /\
    (forall dst di size, 0 <= di -> di + size <= Z.of_nat (length dst) -> Z.of_nat (length T) < size <= SSIZE_MAX ->
       exists dst', wrs dst di (T ++ [0]) = Some dst' /\ uv_inet_ntop AF_INET6 src dst di size = Some (0, dst')) /\
    (forall zone post dst, Forall nonzero zone -> (16 <= length dst)%nat ->
       exists dst', wrs dst 0 src = Some dst' /\
         uv_inet_pton AF_INET6 (Some (T ++ 0 :: post)) (Some dst) = Some (0, Some dst') /\
         uv_inet_pton AF_INET6 (Some (T ++ 37 :: zone ++ 0 :: post)) (Some dst) = Some (0, Some dst')).
Proof.
  intros Hl Hb. destruct (inet_ntop6_spec src Hl Hb) as (T & (H45 & Hnz & Hparse) & Haddr & Hntop).
  exists T. split; [done|]. split.
  - intros dst di size Hd Hfit Hs. change (uv_inet_ntop AF_INET6 src dst di size) with (inet_ntop6 src dst di size).
    rewrite Hntop by lia. rewrite (proj2 (Z.eqb_neq size 0)), (proj2 (Z.ltb_lt _ size)) by lia.
    unfold wrs. rewrite bool_decide_eq_true_2 by (rewrite length_app; cbn [length]; lia). by eexists.
  - intros zone post dst Hz Hl16. assert (exists dst', wrs dst 0 src = Some dst') as (dst' & Ew).
    { unfold wrs. rewrite bool_decide_eq_true_2 by lia. by eexists. }
    exists dst'. split; [done|]. unfold uv_inet_pton. change (AF_INET6 =? AF_INET) with false.
    change (AF_INET6 =? AF_INET6) with true. cbn iota.
    pose proof (strchr_none T Haddr) as Hn. split.
    + rewrite c_str_app by done. cbn [mbind option_bind]. rewrite Hn.
      rewrite Hparse by lia. by rewrite Ew.
    + assert (Forall nonzero (T ++ 37 :: zone)) as Hnz2.
      { apply Forall_app. split; [done|]. constructor; [split; [decided|done]|done]. }
      pose proof (c_str_app (T ++ 37 :: zone) post Hnz2) as E. rewrite <- app_assoc in E. cbn [app] in E. rewrite E.
      cbn [mbind option_bind]. rewrite strchr_middle by done. unfold UV__INET6_ADDRSTRLEN. cbn zeta.
      rewrite wraps_id by (unfold in_s; lia).
      rewrite !(proj2 (Z.ltb_ge _ _)) by lia. rewrite Nat2Z.id, take_app_length.
      rewrite Hparse by lia. by rewrite Ew.
Qed.

Lemma inet6_roundtrip_witness :
  exists T, (length T <= 45)%nat /\
    (forall dst di size, 0 <= di -> di + size <= Z.of_nat (length dst) -> Z.of_nat (length T) < size <= SSIZE_MAX ->
       exists dst', wrs dst di (T ++ [0]) = Some dst' /\
         uv_inet_ntop AF_INET6 [254; 128; 0; 0; 0; 0; 0; 0; 0; 0; 0; 0; 0; 0; 0; 1] dst di size = Some (0, dst')) /\
    (forall zone post dst, Forall nonzero zone -> (16 <= length dst)%nat ->
       exists dst', wrs dst 0 [254; 128; 0; 0; 0; 0; 0; 0; 0; 0; 0; 0; 0; 0; 0; 1] = Some dst' /\
         uv_inet_pton AF_INET6 (Some (T ++ 0 :: post)) (Some dst) = Some (0, Some dst') /\
         uv_inet_pton AF_INET6 (Some (T ++ 37 :: zone ++ 0 :: post)) (Some dst) = Some (0, Some dst')).
Proof.
  apply (inet6_roundtrip [254; 128; 0; 0; 0; 0; 0; 0; 0; 0; 0; 0; 0; 0; 0; 1]); [reflexivity|decided].
Defined.

(** C11.  [uv_inet_pton] has defined behaviour for every family and every
    string whose zone mark, if it has one, is less than 2^31 characters from
    its start (so that its distance fits the [int] it is kept in): it reads
    nothing behind the terminator and overruns neither its local arrays nor
    the destination; it stores a whole address on success and nothing on an
    error. *)
Theorem pton_total af cs post dst :
  Forall nonzero cs -> (16 <= length dst)%nat ->
  (forall n, strchr cs 37 = Some n -> n < 2 ^ 31) ->
  exists r dst', uv_inet_pton af (Some (cs ++ 0 :: post)) (Some dst) = Some (r, Some dst') /\
    (r <> 0 -> dst' = dst) /\
    (r = 0 -> exists v, length v = (if (af =? AF_INET)%Z then 4 else 16)%nat /\ Forall (in_u 8) v /\ wrs dst 0 v = Some dst').
Proof.
  intros Hnz Hl Hmark. unfold uv_inet_pton. destruct (Z.eqb_spec af AF_INET) as [->|Hne].
  { destruct (inet_pton4_spec [] cs post dst 0 Hnz) as [[E _]|(a & b & c & e & dst' & Hb & _ & Ew & E)]; [lia|lia| |];
      cbn [app] in E; change (Z.of_nat (length (@nil Z))) with 0 in E; rewrite E; cbn [mbind option_bind].
    - by exists UV_EINVAL, dst.
    - exists 0, dst'. split_and!; [done|done|]. intros _. by exists [a; b; c; e]. }
  destruct (af =? AF_INET6); [|by exists UV_EAFNOSUPPORT, dst].
  assert (forall full post', Forall nonzero full ->
    exists r dst', ('(r, dst') ← inet_pton6 (full ++ 0 :: post') 0 dst 0; Some (r, Some dst')) = Some (r, Some dst') /\
      (r <> 0 -> dst' = dst) /\ (r = 0 -> exists v, length v = 16%nat /\ Forall (in_u 8) v /\ wrs dst 0 v = Some dst')) as H6.
  { intros full post' Hf. destruct (inet_pton6_total full post' dst 0 Hf) as [->|(v & dst' & Hlv & Hbv & Ew & ->)]; [lia|lia| |].
    - by exists UV_EINVAL, dst.
    - exists 0, dst'. split_and!; [done|done|]. intros _. by exists v. }
  rewrite c_str_app by done. cbn [mbind option_bind]. destruct (strchr cs 37) as [n|] eqn:En; [|by apply H6].
  pose proof (Hmark n eq_refl) as Hn31. apply strchr_Some in En as [Hn0 Hn]. cbn zeta.
  rewrite wraps_id by (unfold in_s; lia). destruct (_ <? n); [by exists UV_EINVAL, dst|].
  rewrite (proj2 (Z.ltb_ge _ _)) by lia. rewrite take_app_le by lia. apply H6. by apply Forall_take.
Qed.

(** "1::2%" on a sixteen-byte destination *)
Lemma pton_total_witness :
  exists r dst', uv_inet_pton AF_INET6 (Some ([49; 58; 58; 50; 37] ++ 0 :: [])) (Some (replicate 16 7)) = Some (r, Some dst') /\
    (r <> 0 -> dst' = replicate 16 7) /\
    (r = 0 -> exists v, length v = 16%nat /\ Forall (in_u 8) v /\ wrs (replicate 16 7) 0 v = Some dst').
Proof.
  apply (pton_total AF_INET6 [49; 58; 58; 50; 37] [] (replicate 16 7));
    [repeat (constructor; [split; decided|]); constructor|cbn; lia|].
  intros n E. vm_compute in E. injection E as <-. lia.
Defined.

(** The bound is needed: behind 2^31 characters the distance of the mark is a
    negative [int], which passes the test of the length, and the copy into
    the local array is undefined. *)
Lemma pton_far_zone cs zone post dst :
  Forall nonzero cs -> strchr cs 37 = None -> Forall nonzero zone ->
  2 ^ 31 <= Z.of_nat (length cs) < 2 ^ 32 ->
  uv_inet_pton AF_INET6 (Some (cs ++ 37 :: zone ++ 0 :: post)) (Some dst) = None.
Proof.
  intros Hnz Hno Hz Hl. unfold uv_inet_pton. change (AF_INET6 =? AF_INET) with false.
  change (AF_INET6 =? AF_INET6) with true. cbn iota.
  assert (Forall nonzero (cs ++ 37 :: zone)) as Hnz2.
  { apply Forall_app. split; [done|]. constructor; [split; [decided|done]|done]. }
  pose proof (c_str_app (cs ++ 37 :: zone) post Hnz2) as E. rewrite <- app_assoc in E. cbn [app] in E. rewrite E.
  cbn [mbind option_bind]. rewrite strchr_middle by done. cbn zeta.
  assert (s32 (Z.of_nat (length cs)) = Z.of_nat (length cs) - 2 ^ 32) as ->.
  { unfold wraps. rewrite (Z.mod_eq _ (2 ^ 32)) by lia.
    replace ((Z.of_nat (length cs) + 2 ^ (32 - 1)) / 2 ^ 32) with 1; [lia|].
    apply Z.div_unique with (Z.of_nat (length cs) + 2 ^ (32 - 1) - 2 ^ 32); lia. }
  unfold UV__INET6_ADDRSTRLEN. rewrite (proj2 (Z.ltb_ge _ _)), (proj2 (Z.ltb_lt _ _)) by lia. done.
Qed.

(** A destination of no bytes: IPv4 reports that there is no space, IPv6
    reports success without having stored anything. *)
Lemma ntop_size_zero a b c d src dst :
  Forall (in_u 8) [a; b; c; d] -> length src = 16%nat -> Forall (in_u 8) src ->
  uv_inet_ntop AF_INET [a; b; c; d] dst 0 0 = Some (UV_ENOSPC, dst) /\
  uv_inet_ntop AF_INET6 src dst 0 0 = Some (0, dst).
Proof.
  intros Hq Hl Hb. split.
  - pose proof (inet_ntop4_spec [] a b c d [] dst 0 0 Hq) as E. change (uv_inet_ntop AF_INET [a; b; c; d] dst 0 0)
      with (inet_ntop4 ([] ++ [a; b; c; d] ++ []) (Z.of_nat (length (@nil Z))) dst 0 0). rewrite E by (unfold SSIZE_MAX; lia).
    by rewrite (proj2 (Z.ltb_ge _ 0)) by lia.
  - destruct (inet_ntop6_spec src Hl Hb) as (T & _ & _ & Hntop).
    change (uv_inet_ntop AF_INET6 src dst 0 0) with (inet_ntop6 src dst 0 0).
    by rewrite Hntop by (unfold SSIZE_MAX; lia).
Qed.
