(* ===== verification/UvIdna.v ===== *)
(** * libuv: internationalised host names ([idna.c])

    UTF-8 decoding and the Punycode encoder.  The input is an array of bytes in
    which the pointers [p], [s], [si], [st] are indices and [pe], [se] end a
    part of it; the output is a [CBuf] buffer that fills up to the index [de].
    [unsigned] has 32 bits. *)
From S2P Require Import Prelude CBuf UvInet.

(** ** UTF-8 *)

(** [(unsigned) -1]. *)
Definition NO_CODEPOINT := 2 ^ 32 - 1.

(** What follows the [switch], from the check of the continuation bits on. *)
Definition utf8_check (a b c d min : Z) : Z :=
  if negb (0x80 =? Z.land 0xC0 (Z.lxor (Z.lxor b c) d)) then NO_CODEPOINT
  else
    let b := Z.land b 63 in
    let c := Z.land c 63 in
    let d := Z.land d 63 in
    let a := Z.lor (Z.lor (Z.lor (u32 (Z.shiftl a 18)) (Z.shiftl b 12)) (Z.shiftl c 6)) d in
    if a <? min then NO_CODEPOINT
    else if 0x10FFFF <? a then NO_CODEPOINT
    else if (0xD800 <=? a) && (a <=? 0xDFFF) then NO_CODEPOINT
    else a.

(** The code point and the pointer behind it.  The [switch] is on [*p - pe],
    which is negative or 0 inside the string: every case but 1 and 2 is
    [default], and each falls through to the next. *)
Definition uv__utf8_decode1_slow (str : list Z) (p pe a : Z) : option (Z * Z) :=
  if 0xF7 <? a then Some (NO_CODEPOINT, p)
  else
    let v := p - pe in
    if negb ((v =? 1) || (v =? 2)) && (0xEF <? a) then
      b ← rd str p; c ← rd str (p + 1); d ← rd str (p + 2);
      Some (utf8_check (Z.land a 7) b c d 0x10000, p + 3)
    else if negb (v =? 1) && (0xDF <? a) then
      c ← rd str p; d ← rd str (p + 1);
      Some (utf8_check 0 (Z.lor 0x80 (Z.land a 15)) c d 0x800, p + 2)
    else if 0xBF <? a then
      d ← rd str p;
      Some (utf8_check 0 0x80 (Z.lor 0x80 (Z.land a 31)) d 0x80, p + 1)
    else Some (NO_CODEPOINT, p).

Definition uv__utf8_decode1 (str : list Z) (p pe : Z) : option (Z * Z) :=
  a ← rd str p;
  if a <? 128 then Some (a, p + 1) else uv__utf8_decode1_slow str (p + 1) pe a.

(** How one round of a loop ends: [continue] or the end of the body, [break],
    or a [return] from the function. *)
Inductive flow (S R : Type) :=
| Next (s : S)
| Break (s : S)
| Return (r : R).
Arguments Next {S R} s.
Arguments Break {S R} s.
Arguments Return {S R} r.

(** The loop [foreach_codepoint(c, &p, pe) body].  It decodes one more
    character at [pe] before it notices the end. *)
Fixpoint foreach_loop {S R} (fuel : nat) (str : list Z) (pe : Z)
    (body : Z -> S -> option (flow S R)) (p : Z) (s : S) : option (S + R) :=
  if pe <? p then Some (inl s)
  else match fuel with
  | O => None
  | Datatypes.S fuel' =>
      '(c, p) ← uv__utf8_decode1 str p pe;
      if pe <? p then Some (inl s)
      else
        f ← body c s;
        match f with
        | Next s => foreach_loop fuel' str pe body p s
        | Break s => Some (inl s)
        | Return r => Some (inr r)
        end
  end.

Definition foreach_codepoint {S R} (str : list Z) (p pe : Z)
    (body : Z -> S -> option (flow S R)) (s : S) : option (S + R) :=
  foreach_loop (Z.to_nat (pe - p + 1)) str pe body p s.

(** ** Output *)

Record out := mk_out { d_pos : Z; d_buf : list Z }.

(** [if ( *d < de) *( *d)++ = c;] *)
Definition put_char (de c : Z) (o : out) : option out :=
  if d_pos o <? de then b ← wr (d_buf o) (d_pos o) c; Some (mk_out (d_pos o + 1) b)
  else Some o.

Fixpoint put_chars (de : Z) (cs : list Z) (o : out) : option out :=
  match cs with
  | [] => Some o
  | c :: cs' => o ← put_char de c o; put_chars de cs' o
  end.

(** [abcdefghijklmnopqrstuvwxyz0123456789]. *)
Definition alphabet : list Z := seqZ 97 26 ++ seqZ 48 10.

(** [if ( *d < de) *( *d)++ = alphabet[t];] *)
Definition put_digit (de t : Z) (o : out) : option out :=
  if d_pos o <? de then c ← rd alphabet t; put_char de c o else Some o.

(** ** One label *)

(** The local variables the Punycode loops keep. *)
Record label_state := mk_label {
  delta : Z; bias : Z; h : Z; first : bool; todo : Z; dest : out }.

(** The loop that counts: [h] ASCII characters, [todo] others. *)
Definition count_body (c : Z) (s : Z * Z) : option (flow (Z * Z) Z) :=
  let '(h, todo) := s in
  Some (if c <? 128 then Next (u32 (h + 1), todo)
        else if c =? NO_CODEPOINT then Return UV_EINVAL
        else Next (h, u32 (todo + 1))).

(** The loop that copies the ASCII characters. *)
Definition ascii_body (de h c : Z) (s : Z * out) : option (flow (Z * out) Z) :=
  let '(x, o) := s in
  if 127 <? c then Some (Next (x, o))
  else
    o ← put_char de c o;
    let x := u32 (x + 1) in
    Some (if x =? h then Break (x, o) else Next (x, o)).

(** The loop that finds the next code point. *)
Definition min_body (n c m : Z) : option (flow Z Z) :=
  Some (Next (if (n <=? c) && (c <? m) then c else m)).

(** The digits of one number, most of all variables re-used. *)
Fixpoint digits_loop (fuel : nat) (de bias k q : Z) (o : out) : option out :=
  match fuel with
  | O => None
  | S fuel' =>
      let t := if bias <? k then u32 (k - bias) else 1 in
      let t := if 26 <? t then 26 else t in
      if q <? t then put_digit de q o
      else
        let x := u32 (q - t) in
        let y := u32 (36 - t) in
        o ← put_digit de (u32 (t + x mod y)) o;
        digits_loop fuel' de bias (u32 (k + 36)) (x / y) o
  end.

Fixpoint bias_loop (fuel : nat) (bias delta : Z) : option (Z * Z) :=
  if delta <=? 455 then Some (bias, delta)
  else match fuel with
  | O => None
  | S fuel' => bias_loop fuel' (u32 (bias + 36)) (delta / 35)
  end.

(** The body of the loop that encodes the occurrences of [n]. *)
Definition encode_body (de n c : Z) (s : label_state) : option (flow label_state (Z * out)) :=
  let delta' := if c <? n then u32 (delta s + 1) else delta s in
  if (c <? n) && (delta' =? 0) then Some (Return (UV_E2BIG, dest s))
  else if negb (c =? n) then
    Some (Next (mk_label delta' (bias s) (h s) (first s) (todo s) (dest s)))
  else
    o ← digits_loop 12 de (bias s) 36 delta' (dest s);
    let delta1 := delta' / 2 in
    let delta2 := if first s then delta1 / 350 else delta1 in
    let h' := u32 (h s + 1) in
    if h' =? 0 then None
    else
      let delta3 := u32 (delta2 + delta2 / h') in
      '(bias', delta4) ← bias_loop 10 0 delta3;
      let bias'' := u32 (bias' + u32 (36 * delta4) / u32 (delta4 + 38)) in
      Some (Next (mk_label 0 bias'' h' false (u32 (todo s - 1)) o)).

(** [while (todo > 0)]. *)
Fixpoint punycode_loop (fuel : nat) (str : list Z) (ss se de n : Z) (s : label_state)
  : option (Z * out) :=
  if todo s <=? 0 then Some (0, dest s)
  else match fuel with
  | O => None
  | S fuel' =>
      r ← foreach_codepoint (R := Z) str ss se (min_body n) NO_CODEPOINT;
      match r with
      | inr _ => None
      | inl m =>
          let x := u32 (m - n) in
          let y := u32 (h s + 1) in
          if y =? 0 then None
          else if (2 ^ 32 - 1 - delta s) / y <? x then Some (UV_E2BIG, dest s)
          else
            let s := mk_label (u32 (delta s + u32 (x * y))) (bias s) (h s) (first s)
                              (todo s) (dest s) in
            r ← foreach_codepoint str ss se (encode_body de m) s;
            match r with
            | inr res => Some res
            | inl s =>
                punycode_loop fuel' str ss se de (u32 (m + 1))
                  (mk_label (u32 (delta s + 1)) (bias s) (h s) (first s) (todo s) (dest s))
            end
      end
  end.

(** [uv__idna_toascii_label(s, se, &d, de)]: the return value and the output. *)
Definition uv__idna_toascii_label (str : list Z) (s se de : Z) (o : out) : option (Z * out) :=
  r ← foreach_codepoint str s se count_body (0, 0);
  match r with
  | inr err => Some (err, o)
  | inl (h, todo) =>
      o ← (if 0 <? todo then put_chars de [120; 110; 45; 45] o else Some o);
      r ← foreach_codepoint str s se (ascii_body de h) (0, o);
      match r with
      | inr err => Some (err, o)
      | inl (_, o) =>
          if todo =? 0 then Some (s32 h, o)
          else
            o ← (if 0 <? h then put_char de 45 o else Some o);
            punycode_loop (Z.to_nat todo) str s se de 128 (mk_label 0 72 h true todo o)
      end
  end.

(** ** Host names *)

(** The full stop and its three wide forms. *)
Definition is_dot (c : Z) : bool :=
  (c =? 46) || (c =? 0x3002) || (c =? 0xFF0E) || (c =? 0xFF61).

(** The loop over the labels that end in a dot: an error code, or the start of
    the last label. *)
Fixpoint toascii_loop (fuel : nat) (str : list Z) (se de s si : Z) (o : out)
  : option ((Z + Z) * out) :=
  if se <=? si then Some (inr s, o)
  else match fuel with
  | O => None
  | S fuel' =>
      let st := si in
      '(c, si) ← uv__utf8_decode1 str si se;
      if negb (is_dot c) then toascii_loop fuel' str se de s si o
      else
        '(rc, o) ← uv__idna_toascii_label str s st de o;
        if rc <? 0 then Some (inl rc, o)
        else
          o ← put_char de 46 o;
          toascii_loop fuel' str se de si si o
  end.

(** What follows the loop: the last label and the terminator. *)
Definition toascii_finish (str : list Z) (se d de : Z) (r : Z + Z) (o : out)
  : option (Z * list Z) :=
  match r with
  | inl rc => Some (rc, d_buf o)
  | inr s =>
      '(rc, o) ← (if s <? se then uv__idna_toascii_label str s se de o else Some (0, o));
      if rc <? 0 then Some (rc, d_buf o)
      else
        o ← put_char de 0 o;
        Some (d_pos o - d, d_buf o)
  end.

(** [uv__idna_toascii(s, se, d, de)]: the return value and the buffer. *)
Definition uv__idna_toascii (str : list Z) (s se : Z) (buf : list Z) (d de : Z)
  : option (Z * list Z) :=
  '(r, o) ← toascii_loop (Z.to_nat (se - s)) str se de s s (mk_out d buf);
  toascii_finish str se d de r o.

(** [bücher.example], and [π.com] followed by an ideographic full stop. *)
Example toascii_buecher :
  uv__idna_toascii ([98; 0xC3; 0xBC; 99; 104; 101; 114; 46; 97] ++ [0]) 0 9 (replicate 20 0) 0 20
  = Some (16, [120; 110; 45; 45; 98; 99; 104; 101; 114; 45; 107; 118; 97; 46; 97; 0; 0; 0; 0; 0]).
Proof. vm_compute. reflexivity. Qed.
