(* ===== verification/UvIdnaUtf8.v ===== *)
(** * libuv: UTF-8 decoding

    [uv__utf8_decode1] reads back the UTF-8 encoding of every Unicode scalar
    value, and returns nothing else than scalar values and [NO_CODEPOINT].  The
    loops [foreach_codepoint] are folds over the list of the code points. *)
From S2P Require Import Prelude CBuf UvInet UvIdna.

(** Quotients and remainders by constants are within the reach of [lia]. *)
#[local] Ltac Zify.zify_post_hook ::= Z.to_euclidean_division_equations.

(** ** The encoding *)

(** The scalar values of Unicode: no surrogates. *)
Definition scalar (c : Z) : Prop := 0 <= c <= 0x10FFFF /\ ~ (0xD800 <= c <= 0xDFFF).

#[global] Instance scalar_dec c : Decision (scalar c).
Proof. unfold scalar. apply _. Defined.

Definition utf8 (c : Z) : list Z :=
  if c <? 0x80 then [c]
  else if c <? 0x800 then [0xC0 + c / 64; 0x80 + c mod 64]
  else if c <? 0x10000 then [0xE0 + c / 4096; 0x80 + c / 64 mod 64; 0x80 + c mod 64]
  else [0xF0 + c / 262144; 0x80 + c / 4096 mod 64; 0x80 + c / 64 mod 64; 0x80 + c mod 64].

Definition utf8s (cps : list Z) : list Z := concat (utf8 <$> cps).

Lemma utf8_length c : (1 <= length (utf8 c) <= 4)%nat.
Proof. unfold utf8. repeat case_match; cbn; lia. Qed.

(** ** The bits of a sequence *)

Lemma land_C0_cont x : 0 <= x < 64 -> Z.land 0xC0 (0x80 + x) = 0x80.
Proof.
  intros Hx. cut (x < 64 -> Z.land 0xC0 (0x80 + x) = 0x80); [intros H; apply H; lia|].
  by_byte x.
Qed.

Lemma land_63_cont x : 0 <= x < 64 -> Z.land (0x80 + x) 63 = x.
Proof.
  intros Hx. rewrite (land_ones_mod _ 6) by lia. change (0x80 + x) with (2 * 2 ^ 6 + x).
  rewrite Z.add_comm, Z.mod_add by lia. apply Z.mod_small. lia.
Qed.

Lemma lor_80_add x : 0 <= x < 64 -> Z.lor 0x80 x = 0x80 + x.
Proof.
  intros Hx. rewrite Z.lor_comm. pose proof (lor_shiftl_add x 1 7) as E.
  change (Z.shiftl 1 7) with 0x80 in E. lia.
Qed.

Lemma land_C0_xor x y z :
  0 <= x < 64 -> 0 <= y < 64 -> 0 <= z < 64 ->
  Z.land 0xC0 (Z.lxor (Z.lxor (0x80 + x) (0x80 + y)) (0x80 + z)) = 0x80.
Proof.
  intros. assert (forall u v, Z.land 0xC0 (Z.lxor u v) = Z.lxor (Z.land 0xC0 u) (Z.land 0xC0 v)) as D.
  { intros. apply Z.bits_inj'. intros i Hi. rewrite !Z.land_spec, !Z.lxor_spec, !Z.land_spec.
    by destruct (Z.testbit 0xC0 i), (Z.testbit u i), (Z.testbit v i). }
  by rewrite !D, !land_C0_cont by done.
Qed.

Lemma join_bits a b c d :
  0 <= a < 8 -> 0 <= b < 64 -> 0 <= c < 64 -> 0 <= d < 64 ->
  Z.lor (Z.lor (Z.lor (u32 (Z.shiftl a 18)) (Z.shiftl b 12)) (Z.shiftl c 6)) d
  = a * 2 ^ 18 + b * 2 ^ 12 + c * 2 ^ 6 + d.
Proof.
  intros. rewrite wrapu_id by (unfold in_u; rewrite Z.shiftl_mul_pow2; lia).
  rewrite Z.lor_comm, (Z.lor_comm _ (Z.shiftl c 6)), (Z.lor_comm _ (Z.shiftl b 12)), !Z.lor_assoc.
  rewrite (lor_shiftl_add d c 6), (lor_shiftl_add _ b 12), (lor_shiftl_add _ a 18) by lia. lia.
Qed.

Lemma utf8_check_ok a b c d min :
  0 <= a < 8 -> 0 <= b < 64 -> 0 <= c < 64 -> 0 <= d < 64 ->
  let v := a * 2 ^ 18 + b * 2 ^ 12 + c * 2 ^ 6 + d in
  scalar v -> min <= v ->
  utf8_check a (0x80 + b) (0x80 + c) (0x80 + d) min = v.
Proof.
  intros ???? v [Hv Hs] Hm. unfold utf8_check. rewrite land_C0_xor, !land_63_cont, join_bits by done.
  fold v. cbn [negb Z.eqb]. replace (negb (128 =? 128)) with false by done.
  repeat match goal with |- context [?x <? ?y] => replace (x <? y) with false by (symmetry; lia) end.
  by replace ((0xD800 <=? v) && (v <=? 0xDFFF)) with false by (symmetry; lia).
Qed.

(** Whatever the bytes, the result is a scalar value that is not ASCII, or none. *)
Lemma utf8_check_scalar a b c d min :
  0x80 <= min -> utf8_check a b c d min = NO_CODEPOINT \/
                 (scalar (utf8_check a b c d min) /\ 0x80 <= utf8_check a b c d min).
Proof.
  intros Hm. unfold utf8_check, scalar. set (v := Z.lor _ _). destruct (negb _); [by left|].
  destruct (v <? min) eqn:E1; [by left|]. destruct (0x10FFFF <? v) eqn:E2; [by left|].
  destruct (_ && _) eqn:E3; [by left|]. right. lia.
Qed.

(** ** Decoding *)

Lemma some_pair (x y p q : Z) : x = y -> p = q -> Some (x, p) = Some (y, q).
Proof. congruence. Qed.

(** Decide the comparisons of the goal whose outcome [lia] knows. *)
Ltac decide_ltb :=
  repeat match goal with
  | |- context [?x <? ?y] =>
      first [replace (x <? y) with false by (symmetry; lia)
            |replace (x <? y) with true by (symmetry; lia)]
  | |- context [?x - ?y =? ?z] => replace (x - y =? z) with false by (symmetry; lia)
  end; cbn [negb orb andb].

(** The last steps of the decoding of a sequence with the continuation bits
    [b], [c], [d]. *)
Lemma check_code a b c d min v :
  v = a * 2 ^ 18 + b * 2 ^ 12 + c * 2 ^ 6 + d ->
  0 <= a < 8 -> 0 <= b < 64 -> 0 <= c < 64 -> 0 <= d < 64 -> scalar v -> min <= v ->
  utf8_check a (0x80 + b) (0x80 + c) (0x80 + d) min = v.
Proof. intros ->. intros. by apply utf8_check_ok. Qed.

Lemma decode1_utf8 pre c post pe :
  scalar c -> Z.of_nat (length pre) < pe ->
  uv__utf8_decode1 (pre ++ utf8 c ++ post) (Z.of_nat (length pre)) pe
  = Some (c, Z.of_nat (length pre) + Z.of_nat (length (utf8 c))).
Proof.
  intros Hc Hp. assert (0 <= c <= 0x10FFFF) as Hr by apply Hc. unfold uv__utf8_decode1, utf8.
  destruct (c <? 0x80) eqn:E1; [|destruct (c <? 0x800) eqn:E2; [|destruct (c <? 0x10000) eqn:E3]];
    rewrite rd_at0; cbn [app lookup list_lookup mbind option_bind length]; unfold uv__utf8_decode1_slow;
    decide_ltb; [done|..];
    rewrite <- ?Z.add_assoc, !rd_at by lia; cbn -[Z.lor Z.land Z.mul Z.div Z.modulo Z.add]; apply some_pair; try lia.
  - rewrite (land_ones_mod _ 5) by lia. replace ((192 + c / 64) mod 2 ^ 5) with (c / 64) by lia.
    rewrite lor_80_add by lia. apply (check_code 0 0); (done || lia).
  - rewrite (land_ones_mod _ 4) by lia. replace ((224 + c / 4096) mod 2 ^ 4) with (c / 4096) by lia.
    rewrite lor_80_add by lia. apply (check_code 0); (done || lia).
  - rewrite (land_ones_mod _ 3) by lia. replace ((240 + c / 262144) mod 2 ^ 3) with (c / 262144) by lia.
    apply check_code; (done || lia).
Qed.

Lemma rd_some {A} (l : list A) i : 0 <= i < Z.of_nat (length l) -> exists x, rd l i = Some x /\ x ∈ l.
Proof.
  intros Hi. unfold rd. rewrite bool_decide_eq_true_2 by lia.
  destruct (lookup_lt_is_Some_2 l (Z.to_nat i)) as [x Hx]; [lia|].
  exists x. split; [done|]. by eapply list_elem_of_lookup_2.
Qed.

(** Every result of the decoder is a scalar value or [NO_CODEPOINT]. *)
Definition codepoint (c : Z) : Prop := c = NO_CODEPOINT \/ scalar c.

Lemma check_codepoint a b c d min : 0x80 <= min -> codepoint (utf8_check a b c d min).
Proof. intros. destruct (utf8_check_scalar a b c d min) as [|[]]; [done|by left|by right]. Qed.

Lemma decode1_total str p pe :
  Forall (in_u 8) str -> 0 <= p -> p + 3 < Z.of_nat (length str) ->
  exists c p', uv__utf8_decode1 str p pe = Some (c, p') /\ p < p' <= p + 4 /\ codepoint c.
Proof.
  intros Hs Hp Hl. unfold uv__utf8_decode1.
  destruct (rd_some str p) as (a & -> & Ha); [lia|]. rewrite Forall_forall in Hs.
  apply Hs in Ha. unfold in_u in Ha. cbn [mbind option_bind].
  destruct (rd_some str (p + 1)) as (b & Hb & _); [lia|].
  destruct (rd_some str (p + 1 + 1)) as (c & Hc & _); [lia|].
  destruct (rd_some str (p + 1 + 2)) as (d & Hd & _); [lia|].
  unfold uv__utf8_decode1_slow. rewrite Hb, Hc, Hd.
  repeat match goal with |- context [if ?b then _ else _] => destruct b eqn:? end; cbn [mbind option_bind];
    do 2 eexists; (split; [reflexivity|]); (split; [lia|]);
    first [by left | right; unfold scalar; lia | apply check_codepoint; lia].
Qed.

(** ** The loops as folds *)

(** The code points a loop from [p] to [pe] visits. *)
Fixpoint codepoints_loop (fuel : nat) (str : list Z) (pe p : Z) : option (list Z) :=
  if pe <? p then Some []
  else match fuel with
  | O => None
  | S fuel' =>
      '(c, p) ← uv__utf8_decode1 str p pe;
      if pe <? p then Some [] else l ← codepoints_loop fuel' str pe p; Some (c :: l)
  end.

Definition codepoints (str : list Z) (p pe : Z) : option (list Z) :=
  codepoints_loop (Z.to_nat (pe - p + 1)) str pe p.

Section Fold.
Context {S R : Type} (body : Z -> S -> option (flow S R)).

Fixpoint run (l : list Z) (s : S) : option (S + R) :=
  match l with
  | [] => Some (inl s)
  | c :: l' =>
      f ← body c s;
      match f with
      | Next s => run l' s
      | Break s => Some (inl s)
      | Return r => Some (inr r)
      end
  end.

Lemma foreach_loop_run fuel str pe p l s :
  codepoints_loop fuel str pe p = Some l -> foreach_loop fuel str pe body p s = run l s.
Proof.
  revert p l s. induction fuel as [|fuel IH]; intros p l s; cbn [codepoints_loop foreach_loop].
  - by destruct (pe <? p); intros [= <-].
  - destruct (pe <? p); [by intros [= <-]|].
    destruct (uv__utf8_decode1 str p pe) as [[c p']|]; cbn [mbind option_bind]; [|done].
    destruct (pe <? p'); [by intros [= <-]|].
    destruct (codepoints_loop fuel str pe p') as [l'|] eqn:E; cbn [mbind option_bind]; [|done].
    intros [= <-]. cbn [run]. destruct (body c s) as [f|]; cbn [mbind option_bind]; [|done].
    destruct f; [|done..]. by apply IH.
Qed.

Lemma foreach_run str p pe l s :
  codepoints str p pe = Some l -> foreach_codepoint str p pe body s = run l s.
Proof. apply foreach_loop_run. Qed.
End Fold.

(** What may follow the part of a string a loop runs over: the loop decodes
    one character there, and reads at most two bytes of it. *)
Definition sentinel (post : list Z) : Prop :=
  exists x rest, post = x :: rest /\ (x < 0xC0 \/ 0xF7 < x \/ rest ≠ []).

Lemma decode1_sentinel pre post :
  sentinel post -> exists c p', uv__utf8_decode1 (pre ++ post) (Z.of_nat (length pre)) (Z.of_nat (length pre)) = Some (c, p')
                       /\ Z.of_nat (length pre) < p'.
Proof.
  intros (x & rest & -> & Hx). unfold uv__utf8_decode1, uv__utf8_decode1_slow. rewrite rd_at0.
  cbn [lookup list_lookup mbind option_bind].
  replace (Z.of_nat (length pre) + 1 - Z.of_nat (length pre) =? 1) with true by (symmetry; lia).
  replace (Z.of_nat (length pre) + 1 - Z.of_nat (length pre) =? 2) with false by (symmetry; lia).
  cbn [orb negb andb]. rewrite rd_at by lia.
  repeat match goal with |- context [if ?b then _ else _] => destruct b eqn:? end; eauto with lia.
  destruct rest as [|y rest]; [|cbn; eauto with lia].
  destruct Hx as [|[]]; [lia..|done].
Qed.

Lemma codepoints_loop_utf8 fuel pre cps post :
  Forall scalar cps -> sentinel post -> (length (utf8s cps) < fuel)%nat ->
  codepoints_loop fuel (pre ++ utf8s cps ++ post)
    (Z.of_nat (length pre) + Z.of_nat (length (utf8s cps))) (Z.of_nat (length pre)) = Some cps.
Proof.
  intros Hc Hp. revert fuel pre. induction Hc as [|c cps Hc Hcs IH]; intros fuel pre Hf;
    (destruct fuel as [|fuel]; [lia|]); cbn [codepoints_loop].
  - rewrite (proj2 (Z.ltb_ge _ _)) by lia. change (utf8s []) with (@nil Z). cbn [length app].
    rewrite Z.add_0_r. destruct (decode1_sentinel pre post Hp) as (c & p' & -> & ?). cbn [mbind option_bind].
    by rewrite (proj2 (Z.ltb_lt _ _)).
  - assert (utf8s (c :: cps) = utf8 c ++ utf8s cps) as E by done.
    rewrite E, length_app in *. pose proof (utf8_length c).
    rewrite (proj2 (Z.ltb_ge _ _)) by lia.
    rewrite <- (app_assoc (utf8 c)), decode1_utf8 by (done || lia). cbn [mbind option_bind].
    rewrite (proj2 (Z.ltb_ge _ _)) by lia. specialize (IH fuel (pre ++ utf8 c)).
    rewrite <- app_assoc, length_app, Nat2Z.inj_add in IH.
    replace (Z.of_nat (length pre) + Z.of_nat (length (utf8 c) + length (utf8s cps)))
      with (Z.of_nat (length pre) + Z.of_nat (length (utf8 c)) + Z.of_nat (length (utf8s cps))) by lia.
    rewrite IH by lia. done.
Qed.

Lemma codepoints_utf8 pre cps post :
  Forall scalar cps -> sentinel post ->
  codepoints (pre ++ utf8s cps ++ post) (Z.of_nat (length pre))
    (Z.of_nat (length pre) + Z.of_nat (length (utf8s cps))) = Some cps.
Proof. intros. apply codepoints_loop_utf8; [done..|lia]. Qed.

(** With three readable bytes behind the end, the list exists for all bytes. *)
Lemma codepoints_loop_total fuel str pe p :
  Forall (in_u 8) str -> 0 <= p -> pe + 3 < Z.of_nat (length str) -> pe - p + 1 <= Z.of_nat fuel ->
  exists l, codepoints_loop fuel str pe p = Some l /\ Forall codepoint l
    /\ Z.of_nat (length l) <= Z.max 0 (pe - p).
Proof.
  intros Hs. revert p. induction fuel as [|fuel IH]; intros p Hp Hl Hf; cbn [codepoints_loop].
  - rewrite (proj2 (Z.ltb_lt pe p)) by lia. exists []. cbn. split_and!; [done..|lia].
  - destruct (pe <? p) eqn:E; [exists []; cbn; split_and!; [done..|lia]|].
    destruct (decode1_total str p pe) as (c & p' & -> & Hp' & Hc); [done|lia..|]. cbn [mbind option_bind].
    destruct (pe <? p') eqn:E'; [exists []; cbn; split_and!; [done..|lia]|].
    destruct (IH p') as (l & -> & Hcl & Hln); [lia..|]. cbn [mbind option_bind].
    exists (c :: l). split_and!; [done|by constructor|cbn [length]; lia].
Qed.

Lemma codepoints_total str p pe :
  Forall (in_u 8) str -> 0 <= p -> pe + 3 < Z.of_nat (length str) ->
  exists l, codepoints str p pe = Some l /\ Forall codepoint l /\ Z.of_nat (length l) <= Z.max 0 (pe - p).
Proof. intros. apply codepoints_loop_total; [done..|lia]. Qed.
