(* ===== verification/Punycode.v ===== *)
(** * Punycode (RFC 3492)

    The reference the host name encoder of libuv is compared with: encoder and
    decoder of the RFC on lists of code points, with unbounded integers, and
    the proof that decoding gives back what was encoded. *)
From S2P Require Import Prelude.

#[local] Ltac Zify.zify_post_hook ::= Z.to_euclidean_division_equations.

(** ** Generalized variable-length integers *)

(** The threshold of the digit at position [k]; base 36, [tmin] 1, [tmax] 26. *)
Definition threshold (bias k : Z) : Z :=
  if k <=? bias then 1 else if bias + 26 <=? k then 26 else k - bias.

Fixpoint vint_loop (fuel : nat) (bias k q : Z) : list Z :=
  if q <? threshold bias k then [q]
  else match fuel with
  | O => []
  | S fuel' =>
      let t := threshold bias k in
      t + (q - t) mod (36 - t) :: vint_loop fuel' bias (k + 36) ((q - t) / (36 - t))
  end.

(** Every digit divides the number by ten at least. *)
Definition vint (bias q : Z) : list Z := vint_loop (S (Z.to_nat (Z.log2 q))) bias 36 q.

(** The number at the front of the digits, and what follows it. *)
Fixpoint read_vint (ds : list Z) (bias k w acc : Z) : option (Z * list Z) :=
  match ds with
  | [] => None
  | g :: ds' =>
      let t := threshold bias k in
      let acc := acc + g * w in
      if g <? t then Some (acc, ds') else read_vint ds' bias (k + 36) (w * (36 - t)) acc
  end.

Fixpoint adapt_loop (fuel : nat) (k delta : Z) : Z :=
  if delta <=? 455 then k + 36 * delta / (delta + 38)
  else match fuel with
  | O => k
  | S fuel' => adapt_loop fuel' (k + 36) (delta / 35)
  end.

(** [adapt(delta, numpoints, firsttime)]. *)
Definition adapt (delta numpoints : Z) (first : bool) : Z :=
  let delta := if first then delta / 700 else delta / 2 in
  let delta := delta + delta / numpoints in
  adapt_loop (S (Z.to_nat (Z.log2 delta))) 0 delta.

(** ** The encoder, as the numbers it writes *)

(** The smallest code point from [n] on. *)
Fixpoint next_cp (n : Z) (l : list Z) : option Z :=
  match l with
  | [] => None
  | c :: l' =>
      if n <=? c then Some (match next_cp n l' with Some m => Z.min c m | None => c end)
      else next_cp n l'
  end.

(** One pass over the string for the code point [n]: the numbers written, and
    [delta] after it. *)
Fixpoint pass (n : Z) (l : list Z) (delta : Z) : list Z * Z :=
  match l with
  | [] => ([], delta)
  | c :: l' =>
      if c <? n then pass n l' (delta + 1)
      else if c =? n then (delta :: (pass n l' 0).1, (pass n l' 0).2)
      else pass n l' delta
  end.

(** The passes; [h] code points are written so far. *)
Fixpoint rounds (fuel : nat) (l : list Z) (n h delta : Z) : list Z :=
  match fuel with
  | O => []
  | S fuel' =>
      match next_cp n l with
      | None => []
      | Some m =>
          let '(ds, delta') := pass m l (delta + (m - n) * (h + 1)) in
          ds ++ rounds fuel' l (m + 1) (h + Z.of_nat (length ds)) (delta' + 1)
      end
  end.

Definition basic (l : list Z) : list Z := filter (fun c => c < 128) l.

Definition deltas (l : list Z) : list Z :=
  rounds (length l) l 128 (Z.of_nat (length (basic l))) 0.

Fixpoint write_numbers (bias h : Z) (first : bool) (ds : list Z) : list Z :=
  match ds with
  | [] => []
  | d :: ds' => vint bias d ++ write_numbers (adapt d (h + 1) first) (h + 1) false ds'
  end.

Definition digit_char (g : Z) : Z := if g <? 26 then 97 + g else 22 + g.

Definition punycode (l : list Z) : list Z :=
  basic l ++ (if bool_decide (basic l = []) then [] else [45])
  ++ (digit_char <$> write_numbers 72 (Z.of_nat (length (basic l))) true (deltas l)).

(** ** The decoder *)

Definition char_digit (c : Z) : option Z :=
  if (97 <=? c) && (c <=? 122) then Some (c - 97)
  else if (65 <=? c) && (c <=? 90) then Some (c - 65)
  else if (48 <=? c) && (c <=? 57) then Some (c - 22)
  else None.

(** The state: the code point [n], the position [i], the text so far. *)
Definition insert_step (st : Z * Z * list Z) (v : Z) : Z * Z * list Z :=
  let '(n, i, o) := st in
  let len := Z.of_nat (length o) + 1 in
  let n := n + (i + v) / len in
  let i := (i + v) mod len in
  (n, i + 1, take (Z.to_nat i) o ++ n :: drop (Z.to_nat i) o).

Fixpoint decode_loop (fuel : nat) (bias : Z) (st : Z * Z * list Z) (ds : list Z) : option (list Z) :=
  match ds with
  | [] => Some st.2
  | _ =>
      match fuel with
      | O => None
      | S fuel' =>
          '(v, rest) ← read_vint ds bias 36 1 0;
          decode_loop fuel' (adapt v (Z.of_nat (length st.2) + 1) (st.1.2 =? 0)) (insert_step st v) rest
      end
  end.

(** The text before the last hyphen, and what follows it. *)
Fixpoint split_last (l : list Z) : option (list Z * list Z) :=
  match l with
  | [] => None
  | c :: l' =>
      match split_last l' with
      | Some (a, b) => Some (c :: a, b)
      | None => if c =? 45 then Some ([], l') else None
      end
  end.

Definition punycode_decode (l : list Z) : option (list Z) :=
  let '(a, b) := match split_last l with
                 | Some (c :: a, b) => (c :: a, b)
                 | _ => ([], l)
                 end in
  ds ← mapM char_digit b;
  decode_loop (length ds) 72 (128, 0, a) ds.

(** The example of section 7.1 (L): a Japanese title with ASCII letters. *)
Example rfc_example_L :
  punycode [0x33; 0x5E74; 0x42; 0x7D44; 0x91D1; 0x516B; 0x5148; 0x751F]
  = [51; 66; 45; 119; 119; 52; 99; 53; 101; 49; 56; 48; 101; 53; 55; 53; 97; 54; 53; 108; 115; 121; 50; 98]
  /\ punycode_decode (punycode [0x33; 0x5E74; 0x42; 0x7D44; 0x91D1; 0x516B; 0x5148; 0x751F])
     = Some [0x33; 0x5E74; 0x42; 0x7D44; 0x91D1; 0x516B; 0x5148; 0x751F].
Proof. split; vm_compute; reflexivity. Qed.

(** ** The integers *)

Lemma threshold_range bias k : 1 <= threshold bias k <= 26.
Proof. unfold threshold. repeat case_match; lia. Qed.

Lemma vint_shrink t q : 1 <= t <= 26 -> t <= q -> 0 <= (q - t) / (36 - t) <= q / 10.
Proof. nia. Qed.

Lemma log2_fuel q : 0 <= q -> q < 10 ^ Z.of_nat (S (Z.to_nat (Z.log2 q))).
Proof.
  intros Hq. rewrite Nat2Z.inj_succ, Z2Nat.id by apply Z.log2_nonneg.
  destruct (decide (q = 0)) as [->|]; [by vm_compute|].
  destruct (Z.log2_spec q) as [_ H]; [lia|].
  pose proof (Z.log2_nonneg q). eapply Z.lt_le_trans; [exact H|]. apply Z.pow_le_mono_l. lia.
Qed.

Lemma pow10_S f : 10 ^ Z.of_nat (S f) = 10 * 10 ^ Z.of_nat f.
Proof. rewrite Nat2Z.inj_succ, Z.pow_succ_r by lia. done. Qed.

(** Enough fuel is enough. *)
Lemma vint_loop_fuel f1 f2 bias k q :
  0 <= q -> q < 10 ^ Z.of_nat f1 -> q < 10 ^ Z.of_nat f2 ->
  vint_loop f1 bias k q = vint_loop f2 bias k q.
Proof.
  revert f2 k q. induction f1 as [|f1 IH]; intros f2 k q Hq H1 H2.
  - assert (q = 0) as -> by lia. pose proof (threshold_range bias k).
    destruct f2; cbn [vint_loop]; by rewrite (proj2 (Z.ltb_lt 0 _)) by lia.
  - destruct f2 as [|f2].
    + assert (q = 0) as -> by lia. pose proof (threshold_range bias k).
      cbn [vint_loop]. by rewrite (proj2 (Z.ltb_lt 0 _)) by lia.
    + rewrite pow10_S in H1, H2. cbn [vint_loop]. pose proof (threshold_range bias k) as Ht.
      destruct (q <? threshold bias k) eqn:E; [done|].
      pose proof (vint_shrink _ q Ht). f_equal. apply IH; lia.
Qed.

Lemma adapt_loop_fuel f1 f2 k d :
  0 <= d -> d < 10 ^ Z.of_nat f1 -> d < 10 ^ Z.of_nat f2 -> adapt_loop f1 k d = adapt_loop f2 k d.
Proof.
  revert f2 k d. induction f1 as [|f1 IH]; intros f2 k d Hd H1 H2.
  - assert (d = 0) as -> by lia. by destruct f2.
  - destruct f2 as [|f2].
    + assert (d = 0) as -> by lia. done.
    + rewrite pow10_S in H1, H2. cbn [adapt_loop]. destruct (d <=? 455) eqn:E; [done|]. apply IH; lia.
Qed.

(** Every digit fits the alphabet. *)
Lemma vint_loop_digits f bias k q :
  0 <= q -> Forall (fun g => 0 <= g < 36) (vint_loop f bias k q).
Proof.
  revert k q. induction f as [|f IH]; intros k q Hq; cbn [vint_loop];
    pose proof (threshold_range bias k) as Ht; destruct (q <? threshold bias k) eqn:E.
  - constructor; [lia|done].
  - done.
  - constructor; [lia|done].
  - pose proof (vint_shrink _ q Ht). constructor; [|apply IH; lia].
    pose proof (Z.mod_pos_bound (q - threshold bias k) (36 - threshold bias k)). lia.
Qed.

Lemma read_vint_loop f bias k q w acc rest :
  0 <= q -> q < 10 ^ Z.of_nat f ->
  read_vint (vint_loop f bias k q ++ rest) bias k w acc = Some (acc + q * w, rest).
Proof.
  revert k q w acc. induction f as [|f IH]; intros k q w acc Hq Hf; cbn [vint_loop];
    pose proof (threshold_range bias k) as Ht; destruct (q <? threshold bias k) eqn:E;
    cbn [app read_vint]; rewrite ?E; [done|lia|done|].
  rewrite pow10_S in Hf. pose proof (vint_shrink _ q Ht).
  set (t := threshold bias k) in *. pose proof (Z.mod_pos_bound (q - t) (36 - t)).
  rewrite (proj2 (Z.ltb_ge _ t)) by lia. rewrite IH by lia. do 2 f_equal.
  pose proof (Z.div_mod (q - t) (36 - t)). nia.
Qed.

Lemma read_vint_vint bias q rest :
  0 <= q -> read_vint (vint bias q ++ rest) bias 36 1 0 = Some (q, rest).
Proof. intros. unfold vint. rewrite read_vint_loop by (done || by apply log2_fuel). do 2 f_equal. lia. Qed.

Lemma vint_nonempty bias q : vint bias q ≠ [].
Proof. unfold vint. cbn [vint_loop]. by case_match. Qed.

Lemma vint_digits bias q : 0 <= q -> Forall (fun g => 0 <= g < 36) (vint bias q).
Proof. apply vint_loop_digits. Qed.

(** ** Decoding the numbers *)

(** Reading the digits back is inserting number by number. *)
Lemma decode_write f bias n i o ds :
  0 <= i -> Forall (fun d => 0 <= d) ds ->
  (length (write_numbers bias (Z.of_nat (length o)) (i =? 0)%Z ds) <= f)%nat ->
  decode_loop f bias (n, i, o) (write_numbers bias (Z.of_nat (length o)) (i =? 0) ds)
  = Some (foldl insert_step (n, i, o) ds).2.
Proof.
  intros Hi Hds. revert f bias n i o Hi. induction Hds as [|d ds Hd Hds IH]; intros f bias n i o Hi Hf.
  - by destruct f.
  - cbn [write_numbers foldl] in *. pose proof (vint_nonempty bias d) as Hn.
    destruct (vint bias d) as [|g gs] eqn:E; [done|]. rewrite length_app in Hf. cbn [length] in Hf.
    destruct f as [|f]; [lia|]. cbn [decode_loop app]. rewrite app_comm_cons, <- E, read_vint_vint by done.
    cbn [mbind option_bind snd fst].
    set (v := (i + d) mod (Z.of_nat (length o) + 1)).
    assert (0 <= v < Z.of_nat (length o) + 1) as Hv by (apply Z.mod_pos_bound; lia).
    specialize (IH f (adapt d (Z.of_nat (length o) + 1) (i =? 0))
                  (n + (i + d) / (Z.of_nat (length o) + 1)) (v + 1)
                  (take (Z.to_nat v) o ++ (n + (i + d) / (Z.of_nat (length o) + 1)) :: drop (Z.to_nat v) o)).
    assert (Z.of_nat (length (take (Z.to_nat v) o ++ (n + (i + d) / (Z.of_nat (length o) + 1)) :: drop (Z.to_nat v) o))
            = Z.of_nat (length o) + 1) as El.
    { rewrite length_app. cbn [length]. rewrite length_take, length_drop. lia. }
    rewrite El in IH. replace (v + 1 =? 0) with false in IH by (symmetry; lia).
    apply IH; lia.
Qed.

(** [st] is [delta] advances away from inserting [n] at position [r]. *)
Definition ahead (st : Z * Z * list Z) (delta n r : Z) : Prop :=
  let '(n0, i0, o) := st in
  n0 * (Z.of_nat (length o) + 1) + i0 + delta = n * (Z.of_nat (length o) + 1) + r.

Lemma insert_ahead n0 i0 o delta n r :
  ahead (n0, i0, o) delta n r -> 0 <= r <= Z.of_nat (length o) ->
  insert_step (n0, i0, o) delta = (n, r + 1, take (Z.to_nat r) o ++ n :: drop (Z.to_nat r) o).
Proof.
  unfold ahead, insert_step. intros Ha Hr. set (len := Z.of_nat (length o) + 1) in *.
  assert (i0 + delta = (n - n0) * len + r) as -> by lia.
  rewrite Z.div_add_l, (Z.add_comm (_ * len) r), Z.mod_add, Z.div_small, Z.mod_small by lia.
  replace (n0 + (n - n0 + 0)) with n by lia. done.
Qed.

Definition below (n : Z) (l : list Z) : list Z := filter (fun c => c < n) l.

Lemma below_app n l1 l2 : below n (l1 ++ l2) = below n l1 ++ below n l2.
Proof. apply filter_app. Qed.

Lemma below_cons_lt n c l : c < n -> below n (c :: l) = c :: below n l.
Proof. intros. unfold below. by rewrite filter_cons_True. Qed.

Lemma below_cons_ge n c l : n <= c -> below n (c :: l) = below n l.
Proof. intros. unfold below. rewrite filter_cons_False by lia. done. Qed.

Lemma below_length n l : (length (below n l) <= length l)%nat.
Proof. apply length_filter. Qed.

(** The numbers of one pass insert the occurrences of [n]. *)
Lemma pass_inserts n l2 l1 st delta :
  st.2 = below (n + 1) l1 ++ below n l2 ->
  ahead st delta n (Z.of_nat (length (below (n + 1) l1))) ->
  let '(ds, delta') := pass n l2 delta in
  let st' := foldl insert_step st ds in
  st'.2 = below (n + 1) (l1 ++ l2) /\
  ahead st' delta' n (Z.of_nat (length (below (n + 1) (l1 ++ l2)))).
Proof.
  revert l1 st delta. induction l2 as [|c l2 IH]; intros l1 [[n0 i0] o] delta; cbn [snd pass].
  - cbn [below filter foldl fst snd]. rewrite app_nil_r. intros -> Ha. by rewrite app_nil_r.
  - intros Ho Ha. specialize (IH (l1 ++ [c])). rewrite <- (app_assoc l1 [c] l2), (below_app (n + 1) l1 [c]) in IH.
    cbn [app] in IH.
    destruct (c <? n) eqn:E1; [|destruct (c =? n) eqn:E2].
    + rewrite below_cons_lt in Ho by lia. rewrite (below_cons_lt (n + 1) c []) in IH by lia.
      apply (IH (n0, i0, o)); cbn [snd].
      * by rewrite Ho, <- app_assoc.
      * unfold ahead in *. rewrite length_app. cbn. lia.
    + assert (c = n) as -> by lia. rewrite below_cons_ge in Ho by lia.
      rewrite (below_cons_lt (n + 1) n []) in IH by lia.
      cbn [fst snd foldl]. rewrite (insert_ahead _ _ _ _ n _ Ha) by (rewrite Ho, length_app; lia).
      rewrite Ho, Nat2Z.id, take_app_length, drop_app_length.
      destruct (pass n l2 0) as [ds delta'] eqn:Ep. cbn [fst snd].
      specialize (IH (n, Z.of_nat (length (below (n + 1) l1)) + 1, below (n + 1) l1 ++ n :: below n l2) 0).
      rewrite Ep in IH. apply IH; cbn [snd].
      * by rewrite <- app_assoc.
      * unfold ahead. rewrite !length_app. cbn [length below filter list_filter]. lia.
    + rewrite below_cons_ge in Ho by lia. rewrite (below_cons_ge (n + 1) c []) in IH by lia.
      apply (IH (n0, i0, o)); cbn [snd].
      * by rewrite Ho, app_nil_r.
      * rewrite app_nil_r. done.
Qed.

Lemma next_cp_Some n l m :
  next_cp n l = Some m -> n <= m /\ m ∈ l /\ forall c, c ∈ l -> n <= c -> m <= c.
Proof.
  revert m. induction l as [|c l IH]; intros m; cbn [next_cp]; [done|].
  destruct (n <=? c) eqn:E.
  - intros [= <-]. destruct (next_cp n l) as [m'|] eqn:En.
    + destruct (IH m' eq_refl) as (Hn & Hm & Hb). split_and!; [lia| |].
      * apply elem_of_cons. destruct (Z.min_spec c m') as [[? ->]|[? ->]]; auto.
      * intros c' [->|Hc']%elem_of_cons Hn'; [lia|]. specialize (Hb c' Hc' Hn'). lia.
    + split_and!; [lia|by left|]. intros c' [->|Hc']%elem_of_cons Hn'; [lia|].
      assert (forall l, next_cp n l = None -> c' ∈ l -> c' < n) as Hnone.
      { clear. intros l. induction l as [|x l IH]; cbn [next_cp]; [by intros _ ?%not_elem_of_nil|].
        destruct (n <=? x) eqn:E; [done|]. intros Hl [->|Hc]%elem_of_cons; [lia|auto]. }
      specialize (Hnone l En Hc'). lia.
  - intros Hm. destruct (IH m Hm) as (Hn & Hin & Hb). split_and!; [done|by right|].
    intros c' [->|Hc']%elem_of_cons Hn'; [lia|auto].
Qed.

Lemma next_cp_None n l : next_cp n l = None -> Forall (fun c => c < n) l.
Proof.
  induction l as [|x l IH]; cbn [next_cp]; [done|].
  destruct (n <=? x) eqn:E; [done|]. constructor; [lia|auto].
Qed.

Lemma below_gap n m l : n <= m -> (forall c, c ∈ l -> n <= c -> m <= c) -> below m l = below n l.
Proof.
  intros Hnm. induction l as [|c l IH]; [done|]. intros Hl.
  destruct (decide (c < n)).
  - rewrite !below_cons_lt by lia. f_equal. apply IH. intros. apply Hl; [by right|done].
  - assert (m <= c) by (apply Hl; [by left|lia]).
    rewrite !below_cons_ge by lia. apply IH. intros. apply Hl; [by right|done].
Qed.

Lemma below_all n l : Forall (fun c => c < n) l -> below n l = l.
Proof. induction 1; [done|]. rewrite below_cons_lt by done. by f_equal. Qed.

Lemma below_grows n m l : n <= m -> m ∈ l -> (length (below n l) < length (below (m + 1) l))%nat.
Proof.
  intros Hnm. assert (forall l, (length (below n l) <= length (below (m + 1) l))%nat) as Hle.
  { clear l. intros l. induction l as [|c l IH]; [done|]. destruct (decide (c < n)).
    - rewrite !below_cons_lt by lia. cbn. lia.
    - rewrite below_cons_ge by lia. destruct (decide (c < m + 1));
        [rewrite below_cons_lt by lia|rewrite below_cons_ge by lia]; cbn; lia. }
  induction l as [|c l IH]; [by intros ?%not_elem_of_nil|]. intros [->|Hin]%elem_of_cons.
  - rewrite below_cons_ge, below_cons_lt by lia. specialize (Hle l). cbn. lia.
  - specialize (IH Hin). destruct (decide (c < n)).
    + rewrite !below_cons_lt by lia. cbn. lia.
    + rewrite below_cons_ge by lia. destruct (decide (c < m + 1));
        [rewrite below_cons_lt by lia|rewrite below_cons_ge by lia]; cbn; lia.
Qed.

Lemma pass_length n l delta : Z.of_nat (length (pass n l delta).1)
  = Z.of_nat (length (below (n + 1) l)) - Z.of_nat (length (below n l)).
Proof.
  revert delta. induction l as [|c l IH]; intros delta; cbn [pass]; [done|].
  destruct (c <? n) eqn:E1; [|destruct (c =? n) eqn:E2].
  - rewrite !below_cons_lt by lia. cbn [length]. rewrite IH. lia.
  - rewrite below_cons_lt, below_cons_ge by lia. cbn [length fst]. rewrite Nat2Z.inj_succ, IH. lia.
  - rewrite !below_cons_ge by lia. apply IH.
Qed.

Lemma pass_nonneg n l delta : 0 <= delta -> Forall (fun d => 0 <= d) (pass n l delta).1 /\ 0 <= (pass n l delta).2.
Proof.
  revert delta. induction l as [|c l IH]; intros delta Hd; cbn [pass]; [done|].
  destruct (c <? n); [apply IH; lia|]. destruct (c =? n); [|by apply IH].
  destruct (IH 0); [done|]. cbn [fst snd]. auto.
Qed.

Lemma rounds_nonneg fuel l n h delta :
  0 <= h -> 0 <= delta -> Forall (fun d => 0 <= d) (rounds fuel l n h delta).
Proof.
  revert n h delta. induction fuel as [|fuel IH]; intros n h delta Hh Hd; cbn [rounds]; [done|].
  destruct (next_cp n l) as [m|] eqn:E; [|done]. apply next_cp_Some in E as (Hnm & _).
  destruct (pass m l (delta + (m - n) * (h + 1))) as [ds d'] eqn:Ep.
  destruct (pass_nonneg m l (delta + (m - n) * (h + 1))) as [H1 H2]; [nia|]. rewrite Ep in *. cbn [fst snd] in *.
  apply Forall_app. split; [done|]. apply IH; lia.
Qed.

(** The numbers of all passes turn the text below [n] into the whole text. *)
Lemma rounds_insert fuel l n st delta :
  st.2 = below n l -> ahead st delta n 0 ->
  (length l - length (below n l) <= fuel)%nat ->
  (foldl insert_step st (rounds fuel l n (Z.of_nat (length st.2)) delta)).2 = l.
Proof.
  revert n st delta. induction fuel as [|fuel IH]; intros n [[n0 i0] o] delta Ho Ha Hf; cbn [snd] in *; cbn [rounds].
  { cbn. rewrite Ho. destruct (next_cp n l) as [m|] eqn:E.
    - apply next_cp_Some in E as (Hnm & Hm & _). pose proof (below_grows n m l Hnm Hm).
      pose proof (below_length (m + 1) l). lia.
    - by apply below_all, next_cp_None. }
  destruct (next_cp n l) as [m|] eqn:E.
  - apply next_cp_Some in E as (Hnm & Hm & Hgap). pose proof (below_gap n m l Hnm Hgap) as Hb.
    pose proof (pass_inserts m l [] (n0, i0, o) (delta + (m - n) * (Z.of_nat (length o) + 1))) as Hp.
    change (below (m + 1) []) with (@nil Z) in Hp. cbn [app length snd] in Hp.
    specialize (Hp ltac:(by rewrite Ho, Hb) ltac:(unfold ahead in *; cbn; lia)).
    pose proof (pass_length m l (delta + (m - n) * (Z.of_nat (length o) + 1))) as Hl.
    destruct (pass m l _) as [ds d']. cbn [fst] in Hl. destruct Hp as [Ho' Ha'].
    cbv zeta in Ho', Ha'. rewrite foldl_app.
    destruct (foldl insert_step (n0, i0, o) ds) as [[n1 i1] o1].
    cbn [snd] in Ho'. specialize (IH (m + 1) (n1, i1, o1) (d' + 1)). cbn [snd] in IH.
    change (o1 = below (m + 1) l) in Ho'. rewrite <- Ho' in Ha', Hl.
    assert (Z.of_nat (length o) + Z.of_nat (length ds) = Z.of_nat (length o1)) as ->
      by (rewrite Ho, <- Hb; lia).
    apply IH; [done|unfold ahead in *; lia|].
    pose proof (below_grows n m l Hnm Hm). lia.
  - apply next_cp_None in E. cbn. by rewrite Ho, below_all.
Qed.

(** ** The round trip *)

Lemma char_digit_char g : 0 <= g < 36 -> char_digit (digit_char g) = Some g /\ digit_char g ≠ 45.
Proof.
  intros Hg. unfold char_digit, digit_char. destruct (g <? 26) eqn:E; split; try lia.
  - replace ((97 <=? 97 + g) && (97 + g <=? 122)) with true by lia. f_equal. lia.
  - replace ((97 <=? 22 + g) && (22 + g <=? 122)) with false by lia.
    replace ((65 <=? 22 + g) && (22 + g <=? 90)) with false by lia.
    replace ((48 <=? 22 + g) && (22 + g <=? 57)) with true by lia. f_equal. lia.
Qed.

Lemma write_digits bias h first ds :
  Forall (fun d => 0 <= d) ds -> Forall (fun g => 0 <= g < 36) (write_numbers bias h first ds).
Proof.
  intros Hds. revert bias h first. induction Hds as [|d ds Hd Hds IH]; intros; cbn [write_numbers]; [done|].
  apply Forall_app. split; [by apply vint_digits|apply IH].
Qed.

Lemma chars_digits gs : Forall (fun g => 0 <= g < 36) gs ->
  mapM char_digit (digit_char <$> gs) = Some gs /\ 45 ∉ (digit_char <$> gs).
Proof.
  induction 1 as [|g gs Hg Hgs [IH1 IH2]]; cbn; [split; [done|set_solver]|].
  destruct (char_digit_char g Hg) as [-> Hn]. cbn. rewrite IH1. cbn. split; [done|].
  apply not_elem_of_cons. split; [congruence|done].
Qed.

Lemma split_last_none l : 45 ∉ l -> split_last l = None.
Proof.
  induction l as [|c l IH]; [done|]. intros [Hc Hl]%not_elem_of_cons. cbn. rewrite IH by done.
  by rewrite (proj2 (Z.eqb_neq c 45)) by congruence.
Qed.

Lemma split_last_app a b : 45 ∉ b -> split_last (a ++ 45 :: b) = Some (a, b).
Proof.
  intros Hb. induction a as [|c a IH]; cbn; [by rewrite split_last_none|]. by rewrite IH.
Qed.

Lemma decode_deltas l :
  let gs := write_numbers 72 (Z.of_nat (length (basic l))) true (deltas l) in
  decode_loop (length gs) 72 (128, 0, basic l) gs = Some l.
Proof.
  intros gs. pose proof (decode_write (length gs) 72 128 0 (basic l) (deltas l)) as H.
  replace (0 =? 0) with true in H by done. unfold gs at 2.
  rewrite H; [|lia|apply rounds_nonneg; lia|unfold gs; done].
  f_equal. apply (rounds_insert (length l) l 128 (128, 0, basic l) 0); [done|unfold ahead; lia|lia].
Qed.

Lemma punycode_decode_encode l : punycode_decode (punycode l) = Some l.
Proof.
  unfold punycode, punycode_decode. set (gs := write_numbers _ _ _ _).
  assert (Forall (fun g => 0 <= g < 36) gs) as Hg by (apply write_digits, rounds_nonneg; lia).
  destruct (chars_digits gs Hg) as [Hm Hh].
  destruct (basic l) as [|b bs] eqn:Eb.
  - rewrite bool_decide_eq_true_2 by done. cbn [app]. rewrite split_last_none, Hm by done.
    cbn [mbind option_bind]. unfold gs. rewrite <- Eb. apply decode_deltas.
  - rewrite bool_decide_eq_false_2 by done. cbn [app]. change (b :: bs ++ ?x) with ((b :: bs) ++ x).
    rewrite split_last_app, Hm by done. cbn [mbind option_bind]. unfold gs. rewrite <- Eb. apply decode_deltas.
Qed.
