(* ===== verification/UvIdnaSpec.v ===== *)
(** * libuv: host name labels are Punycode

    The loops of [uv__idna_toascii_label] compute the RFC's encoder: on any
    list of code points the label is passed through, encoded, or refused with
    [UV_E2BIG] exactly when a number of the encoding does not fit 32 bits. *)
From S2P Require Import Prelude CBuf UvInet UvIdna UvIdnaUtf8 Punycode.

#[local] Ltac Zify.zify_post_hook ::= Z.to_euclidean_division_equations.

(** ** Output *)

Lemma put_chars_app de a b o : put_chars de (a ++ b) o = o' ← put_chars de a o; put_chars de b o'.
Proof.
  revert o. induction a as [|c a IH]; intros o; [done|]. cbn [app put_chars].
  destruct (put_char de c o); cbn [mbind option_bind]; [apply IH|done].
Qed.

Lemma put_digit_char de t o : 0 <= t < 36 -> put_digit de t o = put_char de (digit_char t) o.
Proof.
  intros Ht. unfold put_digit, put_char. destruct (d_pos o <? de); [|done].
  assert (rd alphabet t = Some (digit_char t)) as ->; [|done].
  assert (forall n, (n < 36)%nat -> rd alphabet (Z.of_nat n) = Some (digit_char (Z.of_nat n))) as H.
  { intros n Hn. do 36 (destruct n as [|n]; [reflexivity|]). lia. }
  rewrite <- (Z2Nat.id t) by lia. apply H. lia.
Qed.

(** ** The digits of one number *)

Lemma digits_loop_spec f de bias k q o :
  0 <= bias < 2 ^ 31 -> 36 <= k -> k + 36 * Z.of_nat f < 2 ^ 32 ->
  0 <= q < 2 ^ 32 -> q < 10 ^ Z.of_nat f ->
  digits_loop (S f) de bias k q o = put_chars de (digit_char <$> vint_loop f bias k q) o.
Proof.
  revert k q o. induction f as [|f IH]; intros k q o Hb Hk Hkf Hq Hf.
  all: assert ((if 26 <? (if bias <? k then u32 (k - bias) else 1) then 26
                else (if bias <? k then u32 (k - bias) else 1)) = threshold bias k) as Et.
  1, 3: unfold threshold; destruct (bias <? k) eqn:E;
    [rewrite wrapu_id by (unfold in_u; lia)|]; repeat case_match; lia.
  all: cbn [digits_loop vint_loop]; rewrite Et; pose proof (threshold_range bias k) as Ht;
    set (t := threshold bias k) in *; destruct (q <? t) eqn:E.
  - cbn [fmap list_fmap put_chars]. rewrite put_digit_char by lia. by destruct (put_char _ _ _).
  - exfalso. cbn in Hf. lia.
  - cbn [fmap list_fmap put_chars]. rewrite put_digit_char by lia. by destruct (put_char _ _ _).
  - rewrite pow10_S in Hf. pose proof (vint_shrink t q Ht).
    rewrite (wrapu_id 32 (q - t)), (wrapu_id 32 (36 - t)), (wrapu_id 32 (k + 36)) by (unfold in_u; lia).
    pose proof (Z.mod_pos_bound (q - t) (36 - t)).
    rewrite (wrapu_id 32 (t + _)) by (unfold in_u; lia).
    rewrite put_digit_char by lia. cbn [fmap list_fmap put_chars].
    destruct (put_char de _ o) as [o'|]; cbn [mbind option_bind]; [|done]. apply IH; lia.
Qed.

Lemma digits_spec de bias q o :
  0 <= bias < 2 ^ 31 -> 0 <= q < 2 ^ 32 ->
  digits_loop 12 de bias 36 q o = put_chars de (digit_char <$> vint bias q) o.
Proof.
  intros Hb Hq. rewrite (digits_loop_spec 11) by (cbn; lia). unfold vint.
  by rewrite (vint_loop_fuel 11 _ bias 36 q) by (try apply log2_fuel; cbn; lia).
Qed.

(** ** Bias adaptation *)

Lemma bias_loop_spec f b d :
  0 <= b -> b + 36 * Z.of_nat f < 2 ^ 31 -> 0 <= d < 2 ^ 32 -> d < 10 ^ Z.of_nat f ->
  exists b' d', bias_loop f b d = Some (b', d') /\ 0 <= d' <= 455 /\ b <= b' <= b + 36 * Z.of_nat f
    /\ b' + 36 * d' / (d' + 38) = adapt_loop f b d.
Proof.
  revert b d. induction f as [|f IH]; intros b d Hb Hbf Hd Hf; cbn [bias_loop adapt_loop].
  - assert (d = 0) as -> by (cbn in Hf; lia). cbn. exists b, 0. split_and!; (done || lia).
  - destruct (d <=? 455) eqn:E.
    + exists b, d. split_and!; (done || lia).
    + rewrite pow10_S in Hf. rewrite wrapu_id by (unfold in_u; lia).
      destruct (IH (b + 36) (d / 35)) as (b' & d' & E1 & E2 & E3 & E4); [lia..|].
      exists b', d'. split_and!; (done || lia).
Qed.

(** The code's adaptation, as one step. *)
Lemma adapt_spec d h' (first : bool) :
  0 <= d < 2 ^ 32 -> 1 <= h' ->
  let d1 := d / 2 in
  let d2 := if first then d1 / 350 else d1 in
  let d3 := u32 (d2 + d2 / h') in
  exists b' d4, bias_loop 10 0 d3 = Some (b', d4) /\
    u32 (b' + u32 (36 * d4) / u32 (d4 + 38)) = adapt d h' first /\
    0 <= adapt d h' first < 2 ^ 31.
Proof.
  intros Hd Hh d1 d2 d3. assert (0 <= d2 < 2 ^ 31) as Hd2 by (unfold d2, d1; destruct first; lia).
  assert (0 <= d2 / h' <= d2) as Hq by (split; [apply Z.div_pos|apply Z.div_le_upper_bound]; nia).
  assert (d3 = d2 + d2 / h') as E3 by (apply wrapu_id; unfold in_u; lia).
  destruct (bias_loop_spec 10 0 d3) as (b' & d4 & Eb & H4 & Hb & Ea); [cbn; lia..|].
  exists b', d4. rewrite (wrapu_id 32 (36 * d4)), (wrapu_id 32 (d4 + 38)) by (unfold in_u; lia).
  assert (0 <= 36 * d4 / (d4 + 38) <= 36) as Hr.
  { split; [apply Z.div_pos; lia|]. apply Z.div_le_upper_bound; lia. }
  assert (adapt d h' first = b' + 36 * d4 / (d4 + 38)) as Ead.
  { rewrite Ea, E3. unfold adapt. assert ((if first then d / 700 else d / 2) = d2) as ->.
    { unfold d2, d1. destruct first; [|done]. by rewrite Z.div_div. }
    apply adapt_loop_fuel; [lia|apply log2_fuel; lia|cbn; lia]. }
  rewrite wrapu_id by (unfold in_u; lia). split_and!; (done || lia).
Qed.

(** ** What is written when a number does not fit *)

(** The numbers before the first that needs more than 32 bits. *)
Fixpoint fitting (ds : list Z) : list Z :=
  match ds with
  | [] => []
  | d :: ds' => if d <? 2 ^ 32 then d :: fitting ds' else []
  end.

Definition too_big (ds : list Z) : bool := existsb (fun d => 2 ^ 32 <=? d) ds.

Lemma fitting_app a b : fitting (a ++ b) = if too_big a then fitting a else a ++ fitting b.
Proof.
  induction a as [|d a IH]; [done|]. cbn [app fitting too_big existsb]. rewrite IH.
  fold (too_big a). destruct (d <? 2 ^ 32) eqn:E1; destruct (2 ^ 32 <=? d) eqn:E2; try lia; cbn [orb]; [|done].
  by destruct (too_big a).
Qed.

Lemma fitting_all a : too_big a = false -> fitting a = a.
Proof. intros H. pose proof (fitting_app a []) as E. by rewrite app_nil_r, H, app_nil_r in E. Qed.

(** The variables of the encoder after the numbers [ds]. *)
Fixpoint numbers_end (bias h : Z) (first : bool) (ds : list Z) : Z * Z * bool :=
  match ds with
  | [] => (bias, h, first)
  | d :: ds' => numbers_end (adapt d (h + 1) first) (h + 1) false ds'
  end.

Lemma write_numbers_app bias h first a b :
  write_numbers bias h first (a ++ b)
  = write_numbers bias h first a ++
    (let '(bias', h', first') := numbers_end bias h first a in write_numbers bias' h' first' b).
Proof.
  revert bias h first. induction a as [|d a IH]; intros; [done|].
  cbn [app write_numbers numbers_end]. by rewrite IH, <- app_assoc.
Qed.

Lemma numbers_end_h bias h first ds :
  (numbers_end bias h first ds).1.2 = h + Z.of_nat (length ds).
Proof.
  revert bias h first. induction ds as [|d ds IH]; intros; cbn [numbers_end length fst snd]; [lia|].
  rewrite IH. lia.
Qed.

Lemma numbers_end_bias bias h first ds :
  0 <= h -> 0 <= bias < 2 ^ 31 -> Forall (fun d => 0 <= d < 2 ^ 32) ds ->
  0 <= (numbers_end bias h first ds).1.1 < 2 ^ 31.
Proof.
  intros Hh Hb Hds. revert bias h first Hh Hb. induction Hds as [|d ds Hd Hds IH]; intros; [done|].
  cbn [numbers_end]. apply IH; [lia|].
  destruct (adapt_spec d (h + 1) first) as (? & ? & _ & _ & H); [lia..|]. done.
Qed.

(** Text of the numbers that fit, in the output. *)
Definition put_numbers (de bias h : Z) (first : bool) (ds : list Z) (o : out) : option out :=
  put_chars de (digit_char <$> write_numbers bias h first (fitting ds)) o.

Lemma put_numbers_cons de bias h first d ds o :
  d < 2 ^ 32 ->
  put_numbers de bias h first (d :: ds) o
  = o' ← put_chars de (digit_char <$> vint bias d) o;
    put_numbers de (adapt d (h + 1) first) (h + 1) false ds o'.
Proof.
  intros Hd. unfold put_numbers. cbn [fitting]. rewrite (proj2 (Z.ltb_lt _ _)) by done.
  cbn [write_numbers]. by rewrite fmap_app, put_chars_app.
Qed.

Lemma put_numbers_app de bias h first a b o :
  too_big a = false ->
  put_numbers de bias h first (a ++ b) o
  = o' ← put_numbers de bias h first a o;
    let '(bias', h', first') := numbers_end bias h first a in put_numbers de bias' h' first' b o'.
Proof.
  intros Ha. unfold put_numbers. rewrite fitting_app, Ha, (fitting_all a Ha), write_numbers_app.
  destruct (numbers_end bias h first a) as [[bias' h'] first'].
  by rewrite fmap_app, put_chars_app.
Qed.

(** ** The loops *)

Definition ascii (c : Z) : bool := c <? 128.

Lemma count_run l h0 t0 :
  0 <= h0 -> 0 <= t0 -> h0 + t0 + Z.of_nat (length l) < 2 ^ 31 ->
  run count_body l (h0, t0)
  = Some (if existsb (Z.eqb NO_CODEPOINT) l then inr UV_EINVAL
          else inl (h0 + Z.of_nat (length (basic l)),
                    t0 + (Z.of_nat (length l) - Z.of_nat (length (basic l))))).
Proof.
  revert h0 t0. induction l as [|c l IH]; intros h0 t0 Hh Ht Hl; cbn [run existsb].
  - cbn. do 3 f_equal; lia.
  - cbn [length] in Hl. cbn [count_body mbind option_bind].
    destruct (c <? 128) eqn:E.
    + rewrite wrapu_id by (unfold in_u; lia). rewrite IH by lia.
      replace (NO_CODEPOINT =? c) with false by (unfold NO_CODEPOINT; lia). cbn [orb].
      assert (basic (c :: l) = c :: basic l) as -> by (apply below_cons_lt; lia). cbn [length].
      destruct (existsb _ l); [done|]. do 3 f_equal; lia.
    + rewrite Z.eqb_sym. destruct (NO_CODEPOINT =? c) eqn:E'; cbn [orb]; [done|].
      rewrite wrapu_id by (unfold in_u; lia). rewrite IH by lia.
      assert (basic (c :: l) = basic l) as -> by (apply below_cons_ge; lia). cbn [length].
      destruct (existsb _ l); [done|]. do 3 f_equal; lia.
Qed.

Lemma ascii_run de l h x o :
  0 <= x -> x + Z.of_nat (length (basic l)) = h -> h < 2 ^ 32 ->
  run (ascii_body de h) l (x, o) = o' ← put_chars de (basic l) o; Some (inl (h, o')).
Proof.
  revert x o. induction l as [|c l IH]; intros x o Hx Hh Hm; cbn [run].
  - cbn in *. do 3 f_equal. lia.
  - cbn [ascii_body]. destruct (127 <? c) eqn:E; cbn [mbind option_bind].
    + assert (basic (c :: l) = basic l) as Eb by (apply below_cons_ge; lia). rewrite Eb in *. by apply IH.
    + assert (basic (c :: l) = c :: basic l) as Eb by (apply below_cons_lt; lia). rewrite Eb in *.
      cbn [length put_chars] in *. destruct (put_char de c o) as [o'|]; cbn [mbind option_bind]; [|done].
      rewrite wrapu_id by (unfold in_u; lia). destruct (x + 1 =? h) eqn:E'.
      * assert (basic l = []) as -> by (apply nil_length_inv; lia). cbn. do 3 f_equal. lia.
      * apply IH; lia.
Qed.

Lemma min_run n l m0 :
  Forall (fun c => c < m0) l ->
  run (R := Z) (min_body n) l m0 = Some (inl (default m0 (next_cp n l))).
Proof.
  assert (forall m l, run (R := Z) (min_body n) l m
            = Some (inl (match next_cp n l with Some m' => if m' <? m then m' else m | None => m end))) as H.
  { clear l. intros m l. revert m. induction l as [|c l IH]; intros m; cbn [run next_cp]; [done|].
    cbn [min_body mbind option_bind]. rewrite IH. do 2 f_equal.
    destruct (n <=? c) eqn:E; cbn [andb]; [|done].
    destruct (next_cp n l) as [m'|]; repeat case_match; lia. }
  intros Hl. rewrite H. do 2 f_equal. destruct (next_cp n l) as [m'|] eqn:E; [|done]. cbn.
  apply next_cp_Some in E as (_ & Hm & _). rewrite Forall_forall in Hl. apply Hl in Hm.
  by rewrite (proj2 (Z.ltb_lt _ _)).
Qed.

Lemma fitting_big d ds : 2 ^ 32 <= d -> fitting (d :: ds) = [] /\ too_big (d :: ds) = true.
Proof.
  intros. cbn [fitting too_big existsb]. rewrite (proj2 (Z.ltb_ge d _)) by done.
  by rewrite (proj2 (Z.leb_le _ d)).
Qed.

(** The first number of a pass is at least the [delta] it starts with. *)
Lemma pass_first n l delta :
  n ∈ l -> exists d ds, (pass n l delta).1 = d :: ds /\ delta <= d.
Proof.
  revert delta. induction l as [|c l IH]; intros delta; [by intros ?%not_elem_of_nil|].
  intros Hin. cbn [pass]. destruct (c <? n) eqn:E1; [|destruct (c =? n) eqn:E2].
  - apply elem_of_cons in Hin as [->|Hin]; [lia|]. destruct (IH (delta + 1) Hin) as (d & ds & E & Hd).
    exists d, ds. split; [done|lia].
  - exists delta. eexists. split; [reflexivity|lia].
  - apply elem_of_cons in Hin as [->|Hin]; [lia|]. apply (IH delta Hin).
Qed.

Lemma pass_too_big n l delta : n ∈ l -> 2 ^ 32 <= delta ->
  fitting (pass n l delta).1 = [] /\ too_big (pass n l delta).1 = true.
Proof.
  intros Hin Hd. destruct (pass_first n l delta Hin) as (d & ds & -> & Hle). apply fitting_big. lia.
Qed.

(** [delta] after a pass counts characters only. *)
Lemma pass_tail n l delta : 0 <= delta ->
  0 <= (pass n l delta).2 <= delta + Z.of_nat (length l) /\
  (n ∈ l -> (pass n l delta).2 <= Z.of_nat (length l)).
Proof.
  revert delta. induction l as [|c l IH]; intros delta Hd; cbn [pass].
  - cbn. split; [lia|by intros ?%not_elem_of_nil].
  - cbn [length]. destruct (c <? n) eqn:E1; [|destruct (c =? n) eqn:E2]; cbn [snd].
    + destruct (IH (delta + 1)) as [H1 H2]; [lia|]. split; [lia|].
      intros [->|Hin]%elem_of_cons; [lia|]. specialize (H2 Hin). lia.
    + destruct (IH 0) as [H1 H2]; [lia|]. split; lia.
    + destruct (IH delta) as [H1 H2]; [lia|]. split; [lia|].
      intros [->|Hin]%elem_of_cons; [lia|]. specialize (H2 Hin). lia.
Qed.

(** One character, case by case. *)
Lemma encode_overflow de n c s :
  c < n -> delta s = 2 ^ 32 - 1 -> encode_body de n c s = Some (Return (UV_E2BIG, dest s)).
Proof.
  intros Hc Hd. unfold encode_body. rewrite (proj2 (Z.ltb_lt c n)) by done.
  by rewrite Hd.
Qed.

Lemma encode_less de n c s :
  c < n -> 0 <= delta s < 2 ^ 32 - 1 ->
  encode_body de n c s
  = Some (Next (mk_label (delta s + 1) (bias s) (h s) (first s) (todo s) (dest s))).
Proof.
  intros Hc Hd. unfold encode_body. rewrite (proj2 (Z.ltb_lt c n)) by done.
  rewrite wrapu_id by (unfold in_u; lia). rewrite (proj2 (Z.eqb_neq (_ + 1) 0)) by lia.
  by rewrite (proj2 (Z.eqb_neq c n)) by lia.
Qed.

Lemma encode_greater de n c s :
  n < c -> encode_body de n c s
  = Some (Next (mk_label (delta s) (bias s) (h s) (first s) (todo s) (dest s))).
Proof.
  intros Hc. unfold encode_body. rewrite (proj2 (Z.ltb_ge c n)) by lia.
  by rewrite (proj2 (Z.eqb_neq c n)) by lia.
Qed.

Lemma encode_hit de n s :
  0 <= delta s < 2 ^ 32 -> 0 <= bias s < 2 ^ 31 -> 0 <= h s < 2 ^ 31 -> 1 <= todo s < 2 ^ 32 ->
  encode_body de n n s
  = o ← put_chars de (digit_char <$> vint (bias s) (delta s)) (dest s);
    Some (Next (mk_label 0 (adapt (delta s) (h s + 1) (first s)) (h s + 1) false (todo s - 1) o)).
Proof.
  intros Hd Hb Hh Ht. unfold encode_body. rewrite Z.ltb_irrefl, Z.eqb_refl. cbn [andb negb].
  rewrite digits_spec by done. destruct (put_chars _ _ _) as [o|]; cbn [mbind option_bind]; [|done].
  destruct (adapt_spec (delta s) (h s + 1) (first s)) as (b' & d4 & Eb & Ea & _); [lia..|].
  rewrite (wrapu_id 32 (h s + 1)), (wrapu_id 32 (todo s - 1)) by (unfold in_u; lia).
  rewrite (proj2 (Z.eqb_neq (h s + 1) 0)) by lia. rewrite Eb. cbn [mbind option_bind]. by rewrite Ea.
Qed.

Lemma encode_run de n l s :
  0 <= delta s < 2 ^ 32 -> 0 <= bias s < 2 ^ 31 ->
  0 <= h s -> h s + todo s < 2 ^ 31 ->
  Z.of_nat (length (pass n l (delta s)).1) <= todo s ->
  n ∈ l \/ delta s + Z.of_nat (length l) < 2 ^ 32 -> Z.of_nat (length l) < 2 ^ 32 ->
  run (encode_body de n) l s
  = let '(ds, d') := pass n l (delta s) in
    o' ← put_numbers de (bias s) (h s) (first s) ds (dest s);
    Some (if too_big ds then inr (UV_E2BIG, o')
          else let '(b', h', f') := numbers_end (bias s) (h s) (first s) ds in
               inl (mk_label d' b' h' f' (todo s - Z.of_nat (length ds)) o')).
Proof.
  revert s. induction l as [|c l IH]; intros [d b h f t o]; cbn [delta bias UvIdna.h first todo dest];
    intros Hd Hb Hh Hl Ht Hn Hln; cbn [run].
  - cbn. do 3 f_equal. lia.
  - cbn [length pass] in *. destruct (c <? n) eqn:E1; [|destruct (c =? n) eqn:E2].
    + destruct (decide (d = 2 ^ 32 - 1)) as [->|Ed].
      * rewrite encode_overflow by (done || cbn; lia). cbn [mbind option_bind dest].
        assert (n ∈ l) as Hin by (destruct Hn as [[->|?]%elem_of_cons|?]; [lia|done|lia]).
        destruct (pass_too_big n l (2 ^ 32 - 1 + 1) Hin) as [Hf Hbig]; [lia|].
        destruct (pass n l _) as [ds d']. cbn [fst] in Hf, Hbig.
        unfold put_numbers. by rewrite Hf, Hbig.
      * rewrite encode_less by (cbn; lia). cbn [mbind option_bind delta bias UvIdna.h first todo dest].
        rewrite IH; cbn [delta bias UvIdna.h first todo dest]; [done|try lia..].
        destruct Hn as [[->|?]%elem_of_cons|?]; [lia|by left|right; lia].
    + assert (c = n) as -> by lia. cbn [fst length] in Ht.
      rewrite encode_hit by (cbn; lia). cbn [delta bias UvIdna.h first todo dest].
      destruct (adapt_spec d (h + 1) f) as (b' & d4 & _ & _ & Har); [lia..|].
      destruct (pass n l 0) as [ds d'] eqn:Ep. cbn [fst snd] in *. rewrite put_numbers_cons by lia.
      destruct (put_chars de (digit_char <$> vint b d) o) as [o'|]; cbn [mbind option_bind]; [|done].
      rewrite IH; cbn [delta bias UvIdna.h first todo dest]; rewrite ?Ep; cbn [fst]; try lia.
      cbn [too_big existsb numbers_end length]. replace (2 ^ 32 <=? d) with false by (symmetry; lia). cbn [orb].
      replace (t - Z.of_nat (S (length ds))) with (t - 1 - Z.of_nat (length ds)) by lia. done.
    + rewrite encode_greater by lia. cbn [mbind option_bind delta bias UvIdna.h first todo dest].
      rewrite IH; cbn [delta bias UvIdna.h first todo dest]; [done|try lia..].
      destruct Hn as [[->|?]%elem_of_cons|?]; [lia|by left|right; lia].
Qed.

Lemma below_full n l : (length l <= length (below n l))%nat -> Forall (fun c => c < n) l.
Proof.
  intros Hl. destruct (next_cp n l) as [m|] eqn:E; [|by apply next_cp_None].
  apply next_cp_Some in E as (Hnm & Hm & _). pose proof (below_grows n m l Hnm Hm).
  pose proof (below_length (m + 1) l). lia.
Qed.

Lemma next_cp_all n l : Forall (fun c => c < n) l -> next_cp n l = None.
Proof. induction 1; cbn; [done|]. by rewrite (proj2 (Z.leb_gt _ _)). Qed.

Lemma rounds_done rf n l h delta : Forall (fun c => c < n) l -> rounds rf l n h delta = [].
Proof. intros. destruct rf; [done|]. cbn. by rewrite next_cp_all. Qed.

Lemma too_big_false ds :
  too_big ds = false -> Forall (fun d => 0 <= d) ds -> Forall (fun d => 0 <= d < 2 ^ 32) ds.
Proof.
  intros Hb. induction 1 as [|d ds Hd _ IH]; [done|].
  cbn [too_big existsb] in Hb. apply orb_false_iff in Hb as [H1 H2]. constructor; [lia|by apply IH].
Qed.

(** The test for an overflow of the product is exact. *)
Lemma overflow_test d x y :
  0 <= d < 2 ^ 32 -> 0 <= x -> 1 <= y -> ((2 ^ 32 - 1 - d) / y <? x) = (2 ^ 32 <=? d + x * y).
Proof.
  intros. destruct (2 ^ 32 <=? d + x * y) eqn:E.
  - apply Z.ltb_lt. apply Z.div_lt_upper_bound; lia.
  - apply Z.ltb_ge. apply Z.div_le_lower_bound; lia.
Qed.

(** The [while] loop is the encoder's passes. *)
Lemma punycode_loop_spec fuel rf str ss se de n s l :
  codepoints str ss se = Some l -> Forall (fun c => 0 <= c < NO_CODEPOINT) l ->
  Z.of_nat (length l) < 2 ^ 31 -> 0 <= n ->
  h s = Z.of_nat (length (below n l)) -> todo s = Z.of_nat (length l) - h s ->
  todo s <= Z.of_nat fuel -> todo s <= Z.of_nat rf ->
  0 <= delta s < 2 ^ 32 -> 0 <= bias s < 2 ^ 31 ->
  punycode_loop fuel str ss se de n s
  = let ds := rounds rf l n (h s) (delta s) in
    o' ← put_numbers de (bias s) (h s) (first s) ds (dest s);
    Some (if too_big ds then UV_E2BIG else 0, o').
Proof.
  intros Hcp Hl Hlen. revert rf n s.
  induction fuel as [|fuel IH]; intros rf n s Hn Hh Ht Hfuel Hrf Hd Hb; cbn [punycode_loop].
  all: destruct (todo s <=? 0) eqn:E0; [rewrite rounds_done by (apply below_full; lia); done|].
  - lia.
  - destruct rf as [|rf]; [lia|]. cbn [rounds].
    rewrite (foreach_run _ _ _ _ l) by done. rewrite min_run by (eapply Forall_impl; [exact Hl|cbn; lia]).
    cbn [mbind option_bind].
    destruct (next_cp n l) as [m|] eqn:Em; cbn [default id].
    2: { apply next_cp_None in Em. rewrite (below_all n l Em) in Hh. lia. }
    apply next_cp_Some in Em as (Hnm & Hm & Hgap). pose proof (below_gap n m l Hnm Hgap) as Hbm.
    assert (0 <= m < NO_CODEPOINT) as Hmr by (rewrite Forall_forall in Hl; by apply Hl).
    unfold NO_CODEPOINT in Hmr. pose proof (below_length n l) as Hbl.
    rewrite (wrapu_id 32 (m - n)), (wrapu_id 32 (h s + 1)) by (unfold in_u; lia).
    rewrite (proj2 (Z.eqb_neq (h s + 1) 0)), overflow_test by lia.
    set (d1 := delta s + (m - n) * (h s + 1)).
    pose proof (pass_length m l d1) as Hpl. rewrite Hbm in Hpl. pose proof (pass_tail m l d1) as Hpt.
    pose proof (below_grows n m l Hnm Hm) as Hgr. pose proof (below_length (m + 1) l) as Hbl2.
    assert (0 <= d1) as Hd1 by (unfold d1; nia).
    destruct (2 ^ 32 <=? d1) eqn:Eo.
    + destruct (pass_too_big m l d1 Hm) as [Hf Hbig]; [lia|].
      destruct (pass m l d1) as [ds d']. cbn [fst] in Hf, Hbig. unfold put_numbers.
      rewrite fitting_app, Hbig, Hf. unfold too_big in *. rewrite existsb_app, Hbig. done.
    + rewrite (wrapu_id 32 (_ * _)), (wrapu_id 32 (delta s + _)) by (unfold in_u, d1 in *; nia). fold d1.
      rewrite (foreach_run _ _ _ _ l) by done.
      rewrite encode_run by (cbn [delta bias h first todo dest]; first [lia | by left]).
      cbn [delta bias h first todo dest].
      destruct (pass m l d1) as [ds d'] eqn:Ep. cbn [fst snd] in Hpl, Hpt.
      destruct Hpt as [Hp1 Hp2]; [done|]. specialize (Hp2 Hm).
      destruct (too_big ds) eqn:Eb.
      * unfold put_numbers at 2. rewrite fitting_app, Eb. fold (put_numbers de (bias s) (h s) (first s) ds (dest s)).
        unfold too_big in *. rewrite existsb_app, Eb. cbn [orb].
        by destruct (put_numbers de (bias s) (h s) (first s) ds (dest s)).
      * rewrite put_numbers_app by done.
        destruct (put_numbers de (bias s) (h s) (first s) ds (dest s)) as [o'|]; cbn [mbind option_bind]; [|done].
        pose proof (numbers_end_h (bias s) (h s) (first s) ds) as Eh.
        assert (Forall (fun d => 0 <= d < 2 ^ 32) ds) as Hds.
        { apply too_big_false; [done|]. pose proof (pass_nonneg m l d1 Hd1) as [H _]. by rewrite Ep in H. }
        pose proof (numbers_end_bias (bias s) (h s) (first s) ds ltac:(lia) Hb Hds) as Hbr.
        destruct (numbers_end (bias s) (h s) (first s) ds) as [[b' h'] f'] eqn:En. cbn [fst snd] in Eh, Hbr.
        cbn [delta bias h first todo dest].
        rewrite (wrapu_id 32 (d' + 1)), (wrapu_id 32 (m + 1)) by (unfold in_u; lia).
        rewrite (IH rf) by (cbn [delta bias h first todo dest]; try lia).
        cbn [delta bias h first todo dest]. rewrite <- Eh.
        unfold too_big in *. by rewrite existsb_app, Eb.
Qed.

(** ** One label *)

(** [xn--]. *)
Definition ace_prefix : list Z := [120; 110; 45; 45].

(** What a label becomes: the text written, and the return value. *)
Definition label_result (l : list Z) : list Z * Z :=
  if existsb (Z.eqb NO_CODEPOINT) l then ([], UV_EINVAL)
  else if forallb ascii l then (l, Z.of_nat (length l))
  else (ace_prefix ++ basic l ++ (if bool_decide (basic l = []) then [] else [45]) ++
        (digit_char <$> write_numbers 72 (Z.of_nat (length (basic l))) true (fitting (deltas l))),
        if too_big (deltas l) then UV_E2BIG else 0).

Lemma label_result_punycode l :
  existsb (Z.eqb NO_CODEPOINT) l = false -> forallb ascii l = false -> too_big (deltas l) = false ->
  label_result l = (ace_prefix ++ punycode l, 0).
Proof. intros H1 H2 H3. unfold label_result. by rewrite H1, H2, H3, fitting_all. Qed.

Lemma basic_ascii l : forallb ascii l = true -> basic l = l.
Proof.
  intros H. apply (below_all 128). rewrite Forall_forall. rewrite forallb_forall in H.
  intros c Hc. apply list_elem_of_In, H in Hc. unfold ascii in Hc. lia.
Qed.

Lemma basic_not_ascii l : forallb ascii l = false -> (length (basic l) < length l)%nat.
Proof.
  intros H. destruct (decide (length l <= length (basic l))%nat) as [Hl|]; [|lia].
  apply below_full in Hl. assert (forallb ascii l = true); [|congruence].
  apply forallb_forall. intros c Hc. rewrite Forall_forall in Hl.
  apply list_elem_of_In, Hl in Hc. unfold ascii. lia.
Qed.

Lemma codepoint_small l :
  Forall codepoint l -> existsb (Z.eqb NO_CODEPOINT) l = false ->
  Forall (fun c => 0 <= c < NO_CODEPOINT) l.
Proof.
  induction 1 as [|c l Hc Hl IH]; [done|]. cbn [existsb]. intros [H1 H2]%orb_false_iff.
  constructor; [|by apply IH]. destruct Hc as [->|[? _]]; [by rewrite Z.eqb_refl in H1|].
  unfold NO_CODEPOINT. lia.
Qed.

Lemma toascii_label_spec str s se de o l :
  codepoints str s se = Some l -> Forall codepoint l -> Z.of_nat (length l) < 2 ^ 31 ->
  uv__idna_toascii_label str s se de o
  = let '(text, rc) := label_result l in o' ← put_chars de text o; Some (rc, o').
Proof.
  intros Hcp Hl Hlen. unfold uv__idna_toascii_label, label_result.
  rewrite (foreach_run _ _ _ _ l), count_run by (done || lia). cbn [mbind option_bind].
  destruct (existsb _ l) eqn:Ee; [done|]. cbv beta iota. apply codepoint_small in Hl; [|done].
  pose proof (below_length 128 l) as Hbl. fold (basic l) in Hbl.
  rewrite !Z.add_0_l. destruct (forallb ascii l) eqn:Ea.
  - rewrite (basic_ascii l Ea), Z.sub_diag. cbn [Z.ltb Z.compare mbind option_bind].
    rewrite (foreach_run _ _ _ _ l), ascii_run, (basic_ascii l Ea) by (done || rewrite ?basic_ascii by done; lia).
    destruct (put_chars de l o) as [o'|]; cbn [mbind option_bind]; [|done].
    cbn [Z.eqb]. rewrite wraps_id by (unfold in_s; lia). done.
  - apply basic_not_ascii in Ea.
    rewrite (proj2 (Z.ltb_lt 0 (Z.of_nat (length l) - Z.of_nat (length (basic l))))) by lia. fold ace_prefix. rewrite put_chars_app.
    destruct (put_chars de ace_prefix o) as [o1|]; cbn [mbind option_bind]; [|done].
    rewrite (foreach_run _ _ _ _ l), ascii_run, put_chars_app by (done || lia).
    destruct (put_chars de (basic l) o1) as [o2|]; cbn [mbind option_bind]; [|done].
    rewrite (proj2 (Z.eqb_neq (Z.of_nat (length l) - Z.of_nat (length (basic l))) 0)) by lia.
    rewrite put_chars_app.
    assert ((if 0 <? Z.of_nat (length (basic l)) then put_char de 45 o2 else Some o2)
            = put_chars de (if bool_decide (basic l = []) then [] else [45]) o2) as ->.
    { destruct (basic l); [done|]. rewrite bool_decide_eq_false_2 by done. cbn.
      by destruct (put_char de 45 o2). }
    destruct (put_chars de (if bool_decide _ then _ else _) o2) as [o3|]; cbn [mbind option_bind]; [|done].
    rewrite (punycode_loop_spec _ (length l) str s se de 128 _ l); cbn [h todo delta bias first dest];
      try (done || lia).
Qed.

(** ** Host names *)

(** The text and the error a host name gives; [cur] is the label so far. *)
Fixpoint host_result (cur l : list Z) : list Z * option Z :=
  match l with
  | [] =>
      if bool_decide (cur = []) then ([], None)
      else let '(text, rc) := label_result cur in (text, if rc <? 0 then Some rc else None)
  | c :: l' =>
      if is_dot c then
        let '(text, rc) := label_result cur in
        if rc <? 0 then (text, Some rc)
        else let '(text', err) := host_result [] l' in (text ++ 46 :: text', err)
      else host_result (cur ++ [c]) l'
  end.

Lemma is_dot_sentinel c rest : is_dot c = true -> sentinel (utf8 c ++ rest).
Proof.
  unfold is_dot. intros H.
  assert (c = 46 \/ c = 0x3002 \/ c = 0xFF0E \/ c = 0xFF61) as [->|[->|[->| ->]]] by lia;
    cbn; do 2 eexists; (split; [reflexivity|]); first [by left | by right; right].
Qed.

Lemma utf8s_app a b : utf8s (a ++ b) = utf8s a ++ utf8s b.
Proof. unfold utf8s. by rewrite fmap_app, concat_app. Qed.

Lemma utf8s_nonempty c l : (0 < length (utf8s (c :: l)))%nat.
Proof. change (utf8s (c :: l)) with (utf8 c ++ utf8s l). rewrite length_app. pose proof (utf8_length c). lia. Qed.

(** What a host name's result amounts to, written to [o]. *)
Definition put_host (de d : Z) (res : list Z * option Z) (o : out) : option (Z * list Z) :=
  let '(text, err) := res in
  match err with
  | Some rc => o' ← put_chars de text o; Some (rc, d_buf o')
  | None => o' ← put_chars de (text ++ [0]) o; Some (d_pos o' - d, d_buf o')
  end.

Lemma put_host_app de d a text err o :
  put_host de d (a ++ text, err) o = o' ← put_chars de a o; put_host de d (text, err) o'.
Proof.
  destruct err; cbn [put_host]; rewrite <- ?app_assoc, put_chars_app; by destruct (put_chars de a o).
Qed.

Lemma scalar_codepoints l : Forall scalar l -> Forall codepoint l.
Proof. intros H. eapply Forall_impl; [exact H|]. by right. Qed.

(** The label of the code points [cur] at the front of [utf8s cur ++ rest]. *)
Lemma label_at pre cur rest de o :
  Forall scalar cur -> sentinel rest -> Z.of_nat (length cur) < 2 ^ 31 ->
  uv__idna_toascii_label (pre ++ utf8s cur ++ rest) (Z.of_nat (length pre))
    (Z.of_nat (length pre) + Z.of_nat (length (utf8s cur))) de o
  = let '(text, rc) := label_result cur in o' ← put_chars de text o; Some (rc, o').
Proof.
  intros Hc Hr Hl. apply toascii_label_spec; [by apply codepoints_utf8|by apply scalar_codepoints|done].
Qed.

Lemma toascii_loop_spec fuel pre cur l post d de o :
  Forall scalar cur -> Forall scalar l -> sentinel post ->
  Z.of_nat (length cur) + Z.of_nat (length l) < 2 ^ 31 -> (length l <= fuel)%nat ->
  let s := Z.of_nat (length pre) in
  let si := s + Z.of_nat (length (utf8s cur)) in
  let se := si + Z.of_nat (length (utf8s l)) in
  let str := pre ++ utf8s cur ++ utf8s l ++ post in
  ('(r, o') ← toascii_loop fuel str se de s si o; toascii_finish str se d de r o')
  = put_host de d (host_result cur l) o.
Proof.
  intros Hcur Hl Hpost. revert fuel pre cur o Hcur.
  induction Hl as [|c l Hc Hl IH]; intros fuel pre cur o Hcur Hlen Hfuel s si se str; cbn [host_result].
  - assert (se = si) as Ese by (unfold se; cbn; lia). rewrite Ese.
    assert (toascii_loop fuel str si de s si o = Some (inr s, o)) as ->.
    { destruct fuel; cbn [toascii_loop]; by rewrite (proj2 (Z.leb_le si si)) by lia. }
    cbn [mbind option_bind toascii_finish]. destruct cur as [|c cur].
    + rewrite bool_decide_eq_true_2 by done. rewrite (proj2 (Z.ltb_ge s si)) by (unfold si; cbn; lia).
      cbn. by destruct (put_char de 0 o).
    + rewrite bool_decide_eq_false_2 by done. pose proof (utf8s_nonempty c cur).
      rewrite (proj2 (Z.ltb_lt s si)) by (unfold si; lia). unfold str, s, si.
      change (utf8s [] ++ post) with post. rewrite label_at by (done || lia).
      destruct (label_result (c :: cur)) as [text rc].
      destruct (rc <? 0) eqn:Er; cbn [put_host]; rewrite ?put_chars_app;
        destruct (put_chars de text o) as [o'|]; cbn [mbind option_bind]; rewrite ?Er; try done.
      cbn. by destruct (put_char de 0 o').
  - change (utf8s (c :: l)) with (utf8 c ++ utf8s l) in *. pose proof (utf8_length c) as Hul.
    assert (se = si + Z.of_nat (length (utf8 c)) + Z.of_nat (length (utf8s l))) as Ese
      by (unfold se; rewrite length_app; lia).
    assert (str = (pre ++ utf8s cur) ++ utf8 c ++ utf8s l ++ post) as Estr
      by (unfold str; by rewrite <- !app_assoc).
    assert (Z.of_nat (length (pre ++ utf8s cur)) = si) as Esi by (rewrite length_app; unfold si, s; lia).
    cbn [length] in Hlen, Hfuel. destruct fuel as [|fuel]; [lia|]. cbn [toascii_loop].
    rewrite (proj2 (Z.leb_gt se si)) by lia.
    pose proof (decode1_utf8 (pre ++ utf8s cur) c (utf8s l ++ post) se Hc) as Hdec.
    rewrite <- Estr, Esi in Hdec. rewrite Hdec by lia. cbn [mbind option_bind].
    destruct (is_dot c) eqn:Edot; cbn [negb].
    + pose proof (label_at pre cur (utf8 c ++ utf8s l ++ post) de o Hcur) as Hlab.
      replace (pre ++ utf8s cur ++ utf8 c ++ utf8s l ++ post) with str in Hlab
        by (by rewrite Estr, <- !app_assoc).
      fold s in Hlab. fold si in Hlab.
      rewrite Hlab by (lia || by apply is_dot_sentinel).
      destruct (label_result cur) as [text rc].
      destruct (rc <? 0) eqn:Er.
      * cbn [put_host]. destruct (put_chars de text o) as [o'|]; cbn [mbind option_bind]; [|done]. by rewrite Er.
      * destruct (host_result [] l) as [text' err] eqn:Eh. rewrite put_host_app.
        destruct (put_chars de text o) as [o1|]; cbn [mbind option_bind]; [|done]. rewrite Er.
        change (46 :: text') with ([46] ++ text'). rewrite put_host_app. cbn [put_chars].
        destruct (put_char de 46 o1) as [o2|]; cbn [mbind option_bind]; [|done].
        specialize (IH fuel (pre ++ utf8s cur ++ utf8 c) [] o2). cbv zeta in IH.
        rewrite Eh in IH. rewrite <- IH by (done || cbn; lia).
        change (utf8s []) with (@nil Z). cbn [app length].
        replace (Z.of_nat (length (pre ++ utf8s cur ++ utf8 c))) with (si + Z.of_nat (length (utf8 c)))
          by (rewrite app_assoc, length_app; lia).
        rewrite Z.add_0_r, <- Ese. rewrite Estr, <- !app_assoc. done.
    + specialize (IH fuel pre (cur ++ [c]) o). cbv zeta in IH.
      rewrite utf8s_app, length_app in IH. change (utf8s [c]) with (utf8 c ++ []) in IH.
      rewrite app_nil_r, !length_app in IH. cbn [length] in IH.
      rewrite <- IH by (lia || by apply Forall_app_2; [|constructor]).
      replace (Z.of_nat (length pre) + Z.of_nat (length (utf8s cur) + length (utf8 c)))
        with (si + Z.of_nat (length (utf8 c))) by (unfold si, s; lia).
      rewrite <- Ese, Estr, <- !app_assoc. done.
Qed.

(** ** The output as a buffer *)

Lemma put_chars_buffer de cs o :
  0 <= d_pos o <= de -> de <= Z.of_nat (length (d_buf o)) ->
  let w := take (Z.to_nat (de - d_pos o)) cs in
  put_chars de cs o
  = Some (mk_out (d_pos o + Z.of_nat (length w)) (splice (Z.to_nat (d_pos o)) w (d_buf o))).
Proof.
  revert o. induction cs as [|c cs IH]; intros [p b]; cbn [d_pos d_buf]; intros Hp Hb; cbn [put_chars].
  - rewrite take_nil. cbn [length]. rewrite Z.add_0_r. do 2 f_equal. unfold splice. cbn.
    by rewrite Nat.add_0_r, take_drop.
  - unfold put_char. cbn [d_pos d_buf]. destruct (p <? de) eqn:E.
    + unfold wr, wrs. rewrite bool_decide_eq_true_2 by (cbn [length]; lia). cbn [mbind option_bind].
      rewrite IH by (cbn [d_pos d_buf]; rewrite ?length_splice by (cbn; lia); lia). cbn [d_pos d_buf].
      replace (Z.to_nat (de - p)) with (S (Z.to_nat (de - (p + 1)))) by lia. cbn [take length].
      set (w := take _ cs). assert (length w <= Z.to_nat (de - (p + 1)))%nat by (unfold w; rewrite length_take; lia).
      do 2 f_equal; [lia|]. replace (Z.to_nat (p + 1)) with (Z.to_nat p + length [c])%nat by (cbn; lia).
      rewrite splice_splice by (cbn [length]; lia). done.
    + cbn [mbind option_bind]. rewrite IH by (cbn [d_pos d_buf]; lia). cbn [d_pos d_buf].
      by replace (Z.to_nat (de - p)) with O by lia.
Qed.

Lemma put_chars_total de cs o :
  0 <= d_pos o <= de -> de <= Z.of_nat (length (d_buf o)) ->
  exists o', put_chars de cs o = Some o' /\ d_pos o <= d_pos o' <= de
    /\ length (d_buf o') = length (d_buf o).
Proof.
  intros Hp Hb. eexists. split; [by apply put_chars_buffer|]. cbn [d_pos d_buf].
  assert (Z.of_nat (length (take (Z.to_nat (de - d_pos o)) cs)) <= de - d_pos o) as Hl
    by (rewrite length_take; lia).
  split; [lia|]. apply length_splice. lia.
Qed.

(** ** Reading the labels back *)

(** The pieces of [l] between the elements that satisfy [p]. *)
Fixpoint split_on (p : Z -> bool) (cur l : list Z) : list (list Z) :=
  match l with
  | [] => [cur]
  | c :: l' => if p c then cur :: split_on p [] l' else split_on p (cur ++ [c]) l'
  end.

Definition label_decode (t : list Z) : option (list Z) :=
  if bool_decide (take 4 t = ace_prefix) then punycode_decode (drop 4 t) else Some t.

(** The labels a host name in ASCII stands for. *)
Definition host_decode (t : list Z) : option (list (list Z)) :=
  mapM label_decode (split_on (Z.eqb 46) [] t).

(** A label that does not already look encoded. *)
Definition not_encoded (l : list Z) : Prop := forallb ascii l = true -> take 4 l ≠ ace_prefix.

Lemma split_on_app p a cur l :
  existsb p a = false -> split_on p cur (a ++ l) = split_on p (cur ++ a) l.
Proof.
  revert cur. induction a as [|c a IH]; intros cur; cbn [app split_on existsb]; [by rewrite app_nil_r|].
  intros [Hc Ha]%orb_false_iff. rewrite Hc, IH by done. by rewrite <- app_assoc.
Qed.

Lemma label_result_nonneg l :
  0 <= (label_result l).2 ->
  existsb (Z.eqb NO_CODEPOINT) l = false /\
  (label_result l).1 = (if forallb ascii l then l else ace_prefix ++ punycode l).
Proof.
  unfold label_result. destruct (existsb _ l); [by intros H; exfalso; apply H|].
  destruct (forallb ascii l); [done|]. destruct (too_big (deltas l)) eqn:E; [by intros H; exfalso; apply H|].
  intros _. split; [done|]. unfold punycode. by rewrite fitting_all.
Qed.

Lemma digit_char_no_dot gs : Forall (fun g => 0 <= g < 36) gs -> existsb (Z.eqb 46) (digit_char <$> gs) = false.
Proof.
  induction 1 as [|g gs Hg _ IH]; [done|]. cbn [fmap list_fmap existsb].
  rewrite IH, orb_false_r. unfold digit_char. destruct (g <? 26) eqn:?; lia.
Qed.

Lemma filter_no_dot l : existsb is_dot l = false -> existsb (Z.eqb 46) (basic l) = false.
Proof.
  induction l as [|c l IH]; [done|]. cbn [existsb]. intros [Hc Hl]%orb_false_iff.
  destruct (decide (c < 128)).
  - change (basic (c :: l)) with (below 128 (c :: l)). rewrite below_cons_lt by done. cbn [existsb].
    fold (basic l). change (below 128 l) with (basic l). rewrite IH by done. unfold is_dot in Hc. lia.
  - change (basic (c :: l)) with (below 128 (c :: l)). rewrite below_cons_ge by lia. by apply IH.
Qed.

Lemma existsb_incl {A} (p q : A -> bool) l :
  (forall x, q x = true -> p x = true) -> existsb p l = false -> existsb q l = false.
Proof.
  intros H. induction l as [|x l IH]; [done|]. cbn. intros [Hp Hl]%orb_false_iff.
  rewrite IH by done. destruct (q x) eqn:E; [|done]. apply H in E. congruence.
Qed.

(** No label's text has a dot, and the text decodes to the label. *)
Lemma label_result_decode l :
  0 <= (label_result l).2 -> existsb is_dot l = false -> not_encoded l ->
  existsb (Z.eqb 46) (label_result l).1 = false /\ label_decode (label_result l).1 = Some l.
Proof.
  intros Hrc Hd Hn. apply label_result_nonneg in Hrc as [_ ->]. destruct (forallb ascii l) eqn:Ea.
  - split; [|by unfold label_decode; rewrite bool_decide_eq_false_2 by by apply Hn].
    apply (existsb_incl is_dot); [|done]. intros c Hc. unfold is_dot. lia.
  - split; [|exact (punycode_decode_encode l)].
    rewrite existsb_app. cbn [existsb orb ace_prefix]. unfold punycode.
    rewrite !existsb_app, filter_no_dot, digit_char_no_dot by (done || apply write_digits, rounds_nonneg; lia).
    by case_bool_decide.
Qed.

Lemma host_result_decode cur l text :
  host_result cur l = (text, None) -> existsb is_dot cur = false ->
  Forall not_encoded (split_on is_dot cur l) ->
  host_decode text = Some (split_on is_dot cur l).
Proof.
  unfold host_decode. revert cur text. induction l as [|c l IH]; intros cur text; cbn [host_result split_on].
  - intros Hr Hcur [Hn _]%Forall_cons.
    destruct (label_result_decode cur) as [H1 H2]; [|exact Hcur|exact Hn|].
    { case_bool_decide; [by subst|]. destruct (label_result cur) as [t rc]. cbn. destruct (rc <? 0) eqn:?; [done|lia]. }
    assert (text = (label_result cur).1) as ->.
    { case_bool_decide as Hb; [subst; by injection Hr|]. destruct (label_result cur). cbn. congruence. }
    rewrite <- (app_nil_r (label_result cur).1), split_on_app by done. cbn [app split_on mapM mbind option_bind].
    by rewrite H2.
  - destruct (is_dot c) eqn:Ec.
    + intros Hr Hcur [Hn Hns]%Forall_cons.
      destruct (label_result_decode cur) as [H1 H2]; [|exact Hcur|exact Hn|].
      { destruct (label_result cur) as [t rc]. cbn. destruct (rc <? 0) eqn:?; [done|lia]. }
      destruct (label_result cur) as [t rc]. cbn [fst] in H1, H2. destruct (rc <? 0); [done|].
      destruct (host_result [] l) as [text' err'] eqn:Eh. injection Hr as <- ->.
      rewrite split_on_app by done. cbn [app split_on]. replace (46 =? 46) with true by done.
      cbn [mapM]. rewrite H2. cbn [mbind option_bind]. by rewrite (IH [] text').
    + intros Hr Hcur Hn. apply IH; [done| |done].
      rewrite existsb_app, Hcur. cbn. by rewrite Ec.
Qed.

(** The error codes of the conversion. *)
Definition idna_error (rc : Z) : Prop := rc = UV_EINVAL \/ rc = UV_E2BIG.

Lemma label_result_code l : 0 <= (label_result l).2 \/ idna_error (label_result l).2.
Proof.
  unfold label_result, idna_error. destruct (existsb _ l); [right; by left|].
  destruct (forallb ascii l); [left; cbn; lia|]. destruct (too_big _); [right; by right|by left].
Qed.

(** The conversion of a host name fails with one of the two codes. *)
Lemma host_result_error l cur text err :
  host_result cur l = (text, Some err) -> idna_error err.
Proof.
  revert cur text. induction l as [|c l IH]; intros cur text; cbn [host_result].
  - case_bool_decide; [done|]. pose proof (label_result_code cur) as Hrc.
    destruct (label_result cur) as [t rc]. cbn [snd] in Hrc. destruct (rc <? 0) eqn:?; [|done].
    intros [= _ <-]. by destruct Hrc; [lia|].
  - destruct (is_dot c); [|apply IH]. pose proof (label_result_code cur) as Hrc.
    destruct (label_result cur) as [t rc]. cbn [snd] in Hrc. destruct (rc <? 0) eqn:?.
    + intros [= _ <-]. by destruct Hrc; [lia|].
    + destruct (host_result [] l) as [t' e'] eqn:E. intros [= _ ->]. by eapply IH.
Qed.

Lemma utf8s_length l : (length l <= length (utf8s l))%nat.
Proof.
  induction l as [|c l IH]; [done|]. change (utf8s (c :: l)) with (utf8 c ++ utf8s l).
  rewrite length_app. pose proof (utf8_length c). cbn [length]. lia.
Qed.

Lemma toascii_host cps post buf d de :
  Forall scalar cps -> sentinel post -> Z.of_nat (length cps) < 2 ^ 31 ->
  uv__idna_toascii (utf8s cps ++ post) 0 (Z.of_nat (length (utf8s cps))) buf d de
  = put_host de d (host_result [] cps) (mk_out d buf).
Proof.
  intros Hc Hp Hl. pose proof (utf8s_length cps).
  pose proof (toascii_loop_spec (Z.to_nat (Z.of_nat (length (utf8s cps)) - 0)) [] [] cps post d de
                (mk_out d buf)) as E. cbv zeta in E.
  change (utf8s []) with (@nil Z) in E. cbn [app length] in E.
  change (Z.of_nat 0) with 0 in E. rewrite !Z.add_0_l in E. apply E; (done || lia || constructor).
Qed.

(** ** Arbitrary bytes *)

Section Total.
Context (str : list Z) (se de : Z).
Context (Hstr : Forall (in_u 8) str) (Hse : se + 3 < Z.of_nat (length str)) (Hse' : se < 2 ^ 31).

Lemma label_total s e o :
  0 <= s -> e <= se -> 0 <= d_pos o <= de -> de <= Z.of_nat (length (d_buf o)) ->
  exists text rc o', uv__idna_toascii_label str s e de o = Some (rc, o') /\ put_chars de text o = Some o'
    /\ (0 <= rc \/ idna_error rc).
Proof.
  intros Hs He Hp Hb. destruct (codepoints_total str s e) as (l & Hl & Hcp & Hlen); [done|lia..|].
  pose proof (label_result_code l) as Hrc.
  rewrite (toascii_label_spec _ _ _ _ _ l) by (done || lia). destruct (label_result l) as [text rc].
  destruct (put_chars_total de text o) as (o' & E & _); [done..|]. rewrite E.
  by exists text, rc, o'.
Qed.

Lemma toascii_loop_total fuel s si o :
  0 <= s -> 0 <= si -> se - si <= Z.of_nat fuel -> 0 <= d_pos o <= de -> de <= Z.of_nat (length (d_buf o)) ->
  exists text r o', toascii_loop fuel str se de s si o = Some (r, o') /\ put_chars de text o = Some o' /\
    match r with inl rc => idna_error rc | inr s' => 0 <= s' end.
Proof.
  revert s si o. induction fuel as [|fuel IH]; intros s si o Hs Hsi Hf Hp Hb; cbn [toascii_loop];
    destruct (se <=? si) eqn:E.
  - by exists [], (inr s), o.
  - lia.
  - by exists [], (inr s), o.
  - destruct (decode1_total str si se) as (c & si' & -> & Hsi' & _); [done|lia..|]. cbn [mbind option_bind].
    destruct (is_dot c); cbn [negb]; [|apply IH; (done || lia)].
    destruct (label_total s si o) as (text & rc & o1 & -> & Hput & Hrc); [done|lia|done..|].
    cbn [mbind option_bind]. destruct (rc <? 0) eqn:Er.
    + exists text, (inl rc), o1. split_and!; [done..|]. by destruct Hrc; [lia|].
    + destruct (put_chars_total de (text ++ [46]) o) as (o2 & Hput2 & Hp2 & Hb2); [done..|].
      rewrite put_chars_app, Hput in Hput2. cbn in Hput2. destruct (put_char de 46 o1) as [o2'|] eqn:Ep; [|done].
      injection Hput2 as ->. cbn [mbind option_bind].
      destruct (IH si' si' o2) as (text' & r & o' & E1 & E2 & E3); [lia..|]. rewrite E1.
      exists (text ++ [46] ++ text'), r, o'. split_and!; [done| |done].
      rewrite put_chars_app, Hput. cbn. by rewrite Ep.
Qed.

Lemma toascii_total s buf d :
  0 <= s -> 0 <= d <= de -> de <= Z.of_nat (length buf) ->
  exists rc text, uv__idna_toascii str s se buf d de
    = Some (rc, splice (Z.to_nat d) text buf) /\ Z.of_nat (length text) <= de - d /\
    (rc = Z.of_nat (length text) \/ idna_error rc).
Proof.
  intros Hs Hd Hb. unfold uv__idna_toascii.
  destruct (toascii_loop_total (Z.to_nat (se - s)) s s (mk_out d buf)) as (text & r & o & -> & Hput & Hr);
    [lia|lia|lia|done..|]. cbn [mbind option_bind].
  assert (forall text o', put_chars de text (mk_out d buf) = Some o' ->
            let w := take (Z.to_nat (de - d)) text in
            Z.of_nat (length w) <= de - d /\
            d_pos o' - d = Z.of_nat (length w) /\ d_buf o' = splice (Z.to_nat d) w buf) as Hw.
  { intros t o' E w. rewrite put_chars_buffer in E by done. injection E as <-. cbn [d_pos d_buf].
    fold w. split_and!; [unfold w; rewrite length_take; lia|lia|done]. }
  destruct r as [rc|s']; cbn [toascii_finish].
  - destruct (Hw _ _ Hput) as (H1 & H2 & ->). eexists rc, _. split; [done|]. auto.
  - pose proof (put_chars_total de text (mk_out d buf)) as (? & E & Hp & Hbl); [done..|].
    rewrite Hput in E. injection E as <-. cbn [d_pos d_buf] in Hp, Hbl.
    assert (exists text' rc o', (if s' <? se then uv__idna_toascii_label str s' se de o else Some (0, o))
              = Some (rc, o') /\ put_chars de text' o = Some o' /\ (0 <= rc \/ idna_error rc))
      as (text' & rc & o' & -> & Hput' & Hrc).
    { destruct (s' <? se); [apply label_total; (done || lia)|]. exists [], 0, o. auto with lia. }
    assert (put_chars de (text ++ text') (mk_out d buf) = Some o') as Hput2 by (by rewrite put_chars_app, Hput).
    cbn [mbind option_bind]. destruct (rc <? 0) eqn:Er.
    + destruct (Hw _ _ Hput2) as (H1 & H2 & ->). eexists rc, _. split; [done|]. split; [done|].
      destruct Hrc; [lia|by right].
    + destruct (put_chars_total de ((text ++ text') ++ [0]) (mk_out d buf)) as (o2 & Hput3 & _); [done..|].
      destruct (Hw _ _ Hput3) as (H1 & H2 & H3). rewrite put_chars_app, Hput2 in Hput3. cbn in Hput3.
      destruct (put_char de 0 o') as [o2'|]; [|done]. injection Hput3 as ->. cbn [mbind option_bind].
      rewrite H2, H3. eexists _, _. split; [done|]. auto.
Qed.
End Total.
