(* ===== verification/UvIdnaTheorems.v ===== *)
(** * libuv: the properties of internationalised host names

    UTF-8 decoding, the conversion to ASCII against RFC 3492, and what the
    conversion does on strings that are not UTF-8. *)
From S2P Require Import Prelude CBuf UvInet UvIdna UvIdnaUtf8 Punycode UvIdnaSpec.

(**  [uv__utf8_decode1] inside a string, whatever the bytes: it returns a
    Unicode scalar value or [UINT32_MAX] and moves past one to four bytes; on
    the UTF-8 encoding of a scalar value it returns that value and moves
    exactly past its encoding. *)
Theorem utf8_decode_correct pre rest pe :
  Forall (in_u 8) (pre ++ rest) -> (3 < length rest)%nat -> Z.of_nat (length pre) < pe ->
  exists c p', uv__utf8_decode1 (pre ++ rest) (Z.of_nat (length pre)) pe = Some (c, p')
    /\ Z.of_nat (length pre) < p' <= Z.of_nat (length pre) + 4
    /\ (c = NO_CODEPOINT \/ scalar c)
    /\ forall c0 rest0, scalar c0 -> rest = utf8 c0 ++ rest0 ->
         c = c0 /\ p' = Z.of_nat (length pre) + Z.of_nat (length (utf8 c0)).
Proof.
  intros Hb Hr Hp. destruct (decode1_total (pre ++ rest) (Z.of_nat (length pre)) pe) as (c & p' & E & Hp' & Hc);
    [done|lia|rewrite length_app; lia|].
  exists c, p'. split_and!; [done|lia..|done|]. intros c0 rest0 Hs ->.
  rewrite decode1_utf8 in E by done. by injection E as <- <-.
Qed.

(** U+20AC in the middle of a string. *)
Lemma utf8_decode_correct_witness :
  exists c p', uv__utf8_decode1 ([65] ++ [0xE2; 0x82; 0xAC; 66; 0]) 1 5 = Some (c, p')
    /\ 1 < p' <= 1 + 4 /\ (c = NO_CODEPOINT \/ scalar c)
    /\ forall c0 rest0, scalar c0 -> [0xE2; 0x82; 0xAC; 66; 0] = utf8 c0 ++ rest0 ->
         c = c0 /\ p' = 1 + Z.of_nat (length (utf8 c0)).
Proof. apply (utf8_decode_correct [65] [0xE2; 0x82; 0xAC; 66; 0] 5); [decided|cbn; lia|cbn; lia]. Defined.

(** C12.  On a UTF-8 host name [uv__idna_toascii] writes, label by label, the
    ASCII labels as they are and the others as [xn--] and their Punycode
    encoding (RFC 3492), with full stops between them and a terminator, cut off
    at the end of the destination; it returns the number of bytes written.  It
    fails, with [UV_E2BIG], exactly when a number of the encoding does not fit
    32 bits.  Nothing outside the destination changes. *)
Theorem idna_toascii_correct cps post buf d de :
  Forall scalar cps -> sentinel post -> Z.of_nat (length cps) < 2 ^ 31 ->
  0 <= d <= de -> de <= Z.of_nat (length buf) ->
  let '(text, err) := host_result [] cps in
  let written := take (Z.to_nat (de - d)) (match err with None => text ++ [0] | Some _ => text end) in
  uv__idna_toascii (utf8s cps ++ post) 0 (Z.of_nat (length (utf8s cps))) buf d de
  = Some (match err with None => Z.of_nat (length written) | Some rc => rc end,
          splice (Z.to_nat d) written buf).
Proof.
  intros Hc Hp Hl Hd Hb.
  rewrite toascii_host by done.
  destruct (host_result [] cps) as [text [rc|]]; cbn [put_host]; rewrite put_chars_buffer by done;
    cbn [mbind option_bind d_pos d_buf]; do 2 f_equal; lia.
Qed.

(** "b\u00FC.de" into twelve bytes. *)
Lemma idna_toascii_correct_witness :
  let '(text, err) := host_result [] [98; 0xFC; 46; 100; 101] in
  let written := take (Z.to_nat (20 - 1)) (match err with None => text ++ [0] | Some _ => text end) in
  uv__idna_toascii (utf8s [98; 0xFC; 46; 100; 101] ++ [0]) 0
    (Z.of_nat (length (utf8s [98; 0xFC; 46; 100; 101]))) (replicate 20 7) 1 20
  = Some (match err with None => Z.of_nat (length written) | Some rc => rc end,
          splice 1 written (replicate 20 7)).
Proof.
  apply (idna_toascii_correct [98; 0xFC; 46; 100; 101] [0] (replicate 20 7) 1 20);
    [decided|exists 0, []; split; [done|by left]|decided|lia|decided].
Defined.

(** C13.  The ASCII form loses nothing: the RFC 3492 decoder applied to every
    label the conversion has written gives back the labels of the host name,
    provided that the destination has room and no ASCII label looks encoded
    already. *)
Theorem idna_roundtrip cps post buf d de rc buf' :
  Forall scalar cps -> sentinel post -> Z.of_nat (length cps) < 2 ^ 31 ->
  0 <= d <= de -> de <= Z.of_nat (length buf) ->
  Forall not_encoded (split_on is_dot [] cps) ->
  uv__idna_toascii (utf8s cps ++ post) 0 (Z.of_nat (length (utf8s cps))) buf d de = Some (rc, buf') ->
  0 <= rc < de - d ->
  exists text, rds buf' d rc = Some (text ++ [0]) /\ host_decode text = Some (split_on is_dot [] cps).
Proof.
  intros Hc Hp Hl Hd Hb Hn Hrun Hrc.
  rewrite toascii_host in Hrun by done.
  destruct (host_result [] cps) as [text [err|]] eqn:Eh; cbn [put_host] in Hrun;
    rewrite put_chars_buffer in Hrun by done; cbn [mbind option_bind d_pos d_buf] in Hrun; injection Hrun as Erc <-.
  - exfalso. pose proof (host_result_error _ _ _ _ Eh) as [->| ->]; unfold UV_EINVAL, UV_E2BIG in Erc; lia.
  - exists text. split; [|by apply host_result_decode].
    assert (length (take (Z.to_nat (de - d)) (text ++ [0])) = Z.to_nat rc) as Hw by lia.
    assert (take (Z.to_nat (de - d)) (text ++ [0]) = text ++ [0]) as Hall.
    { apply take_ge. rewrite length_take in Hw. lia. }
    rewrite Hall in *. unfold rds.
    rewrite bool_decide_eq_true_2 by (rewrite length_splice by lia; lia). f_equal.
    rewrite <- Hw. apply splice_read. lia.
Qed.

Lemma idna_roundtrip_witness :
  exists text, rds ([7] ++ [120; 110; 45; 45; 98; 45; 101; 104; 97; 46; 100; 101; 0] ++ replicate 6 7) 1 13
     = Some (text ++ [0]) /\
    host_decode text = Some (split_on is_dot [] [98; 0xFC; 46; 100; 101]).
Proof.
  apply (idna_roundtrip [98; 0xFC; 46; 100; 101] [0] (replicate 20 7) 1 20);
    [decided|exists 0, []; split; [done|by left]|decided|lia|decided| |vm_compute; reflexivity|lia].
  repeat constructor; by vm_compute.
Defined.

(**  On any bytes, UTF-8 or not, and with any destination, the conversion
    terminates, writes only inside the destination, and returns the number of
    bytes written or an error - provided that three bytes behind the end of the
    name can be read (see [decode1_past_the_end]). *)
Theorem idna_toascii_safe str s se buf d de :
  Forall (in_u 8) str -> 0 <= s -> se + 3 < Z.of_nat (length str) -> se < 2 ^ 31 ->
  0 <= d <= de -> de <= Z.of_nat (length buf) ->
  exists rc text,
    uv__idna_toascii str s se buf d de = Some (rc, splice (Z.to_nat d) text buf) /\
    Z.of_nat (length text) <= de - d /\
    (rc = Z.of_nat (length text) \/ rc = UV_EINVAL \/ rc = UV_E2BIG).
Proof. intros. by apply toascii_total. Qed.

Lemma idna_toascii_safe_witness :
  exists rc text,
    uv__idna_toascii [97; 0xF0; 46; 0xE3; 0x80; 0; 0; 0; 0] 0 5 [7; 7; 7; 7] 1 4
      = Some (rc, splice 1 text [7; 7; 7; 7]) /\
    Z.of_nat (length text) <= 4 - 1 /\
    (rc = Z.of_nat (length text) \/ rc = UV_EINVAL \/ rc = UV_E2BIG).
Proof.
  apply (idna_toascii_safe [97; 0xF0; 46; 0xE3; 0x80; 0; 0; 0; 0] 0 5 [7; 7; 7; 7] 1 4);
    [decided|lia|cbn; lia|lia|lia|cbn; lia].
Defined.

(** A name that ends in the first byte of a longer sequence is read past its
    terminator: the [switch] of [uv__utf8_decode1_slow] is on [*p - pe], the
    negative of what is left, and takes the case for long strings. *)
Example decode1_past_the_end :
  uv__utf8_decode1 [0xF0; 0] 0 1 = None /\ uv__idna_toascii [0xF0; 0] 0 1 (replicate 9 7) 0 9 = None.
Proof. split; vm_compute; reflexivity. Qed.

(** The test of the continuation bytes looks at their exclusive or, so that two
    wrong ones cancel out. *)
Example decode1_wrong_continuation :
  uv__utf8_decode1 [0xF1; 0x41; 0x41; 0x80; 0] 0 4 = Some (0x41040, 4).
Proof. vm_compute. reflexivity. Qed.

(** A name that fills the destination is not terminated, and the result does
    not show it. *)
Example toascii_no_terminator :
  uv__idna_toascii [97; 98; 99; 0] 0 3 [7; 7; 7] 0 3 = Some (3, [97; 98; 99]).
Proof. vm_compute. reflexivity. Qed.
