(* ===== verification/CProc.v ===== *)
(** * Functions that return 0 or 1

    The protocol of most BoringSSL functions: they change a state, return 1
    with their results in out parameters, or return 0, and their callers return
    0 as soon as a callee does. *)
From S2P Require Import Prelude.

(** [Done] is the return of 1 with the out parameter, [Bad] the return of 0;
    both keep the state as the function leaves it.  [Stuck] is undefined
    behaviour or a failed assertion. *)
Inductive result (S A : Type) :=
| Done (a : A) (s : S)
| Bad (s : S)
| Stuck.
Arguments Done {S A} a s.
Arguments Bad {S A} s.
Arguments Stuck {S A}.

Definition proc (S A : Type) : Type := S -> result S A.

#[export] Instance proc_ret S : MRet (proc S) := fun A a s => Done a s.

#[export] Instance proc_bind S : MBind (proc S) := fun A B k c s =>
  match c s with
  | Done a s' => k a s'
  | Bad s' => Bad s'
  | Stuck => Stuck
  end.

Section Proc.
Context {S : Type}.

Definition return_0 {A} : proc S A := fun s => Bad s.
Definition stuck {A} : proc S A := fun _ => Stuck.
Definition current : proc S S := fun s => Done s s.
Definition become (s : S) : proc S unit := fun _ => Done tt s.
Definition of_option {A} (o : option A) : proc S A :=
  fun s => match o with Some a => Done a s | None => Stuck end.

(** The return value, for a caller that goes on after a 0. *)
Definition status (c : proc S unit) : proc S bool := fun s =>
  match c s with
  | Done _ s' => Done true s'
  | Bad s' => Done false s'
  | Stuck => Stuck
  end.

(** Run [c] on another state and fail where it fails. *)
Definition on {T A} (other : T) (c : proc T A) : proc S (A * T) := fun s =>
  match c other with
  | Done a other' => Done (a, other') s
  | Bad _ => Bad s
  | Stuck => Stuck
  end.

Lemma bind_Done {A B} (c : proc S A) (k : A -> proc S B) s a s' :
  c s = Done a s' -> (x ← c; k x) s = k a s'.
Proof. unfold mbind, proc_bind. by intros ->. Qed.

Lemma proc_bind_assoc {A B C} (c : proc S A) (f : A -> proc S B) (g : B -> proc S C) s :
  ((y ← (x ← c; f x); g y) s) = ((x ← c; y ← f x; g y) s).
Proof. unfold mbind, proc_bind. by destruct (c s). Qed.

Lemma bind_cong {A B} (c c' : proc S A) (k : A -> proc S B) s :
  c s = c' s -> (x ← c; k x) s = (x ← c'; k x) s.
Proof. unfold mbind, proc_bind. by intros ->. Qed.

Lemma bind_Bad {A B} (c : proc S A) (k : A -> proc S B) s s' :
  c s = Bad s' -> (x ← c; k x) s = Bad s'.
Proof. unfold mbind, proc_bind. by intros ->. Qed.
End Proc.
