(* ===== verification/Cbs.v ===== *)
(** * BoringSSL: reading byte strings ([crypto/bytestring/cbs.c])

    A [CBS] is a pointer to constant bytes and a length.  The model keeps the
    bytes it spans; reading outside them has no result.  Almost every function
    returns [int], advances the [CBS] it is given and passes a failure of a
    callee on to its caller: [reader A] is that protocol of [CProc]. *)
From S2P Require Import Prelude CBuf CMem CProc.

Definition CBS := list Z.

Abbreviation reader := (proc CBS).

Definition CBS_len (cbs : CBS) : Z := Z.of_nat (length cbs).

(** ** Bytes *)

Definition CBS_init (data : list Z) : CBS := data.

Definition cbs_get (n : Z) : reader (list Z) := fun cbs =>
  if CBS_len cbs <? n then Bad cbs
  else Done (take (Z.to_nat n) cbs) (drop (Z.to_nat n) cbs).

Definition CBS_skip (len : Z) : reader unit := cbs_get len;; mret tt.

(** [OPENSSL_memdup]; [None] is the null pointer. *)
Definition OPENSSL_memdup (malloc_ok : bool) (data : list Z) : option (list Z) :=
  if CBS_len data =? 0 then None else if malloc_ok then Some data else None.

(** The return value, [*out_ptr] and [*out_len]. *)
Definition CBS_stow (malloc_ok : bool) (cbs : CBS) : bool * option (list Z) * Z :=
  if CBS_len cbs =? 0 then (true, None, 0)
  else match OPENSSL_memdup malloc_ok cbs with
       | None => (false, None, 0)
       | Some p => (true, Some p, CBS_len cbs)
       end.

Fixpoint OPENSSL_strnlen (s : list Z) (i : Z) : Z :=
  match s with
  | [] => i
  | c :: s' => if c =? 0 then i else OPENSSL_strnlen s' (i + 1)
  end.

Definition OPENSSL_strndup (malloc_ok : bool) (str : list Z) : option (list Z) :=
  let size := OPENSSL_strnlen str 0 in
  if u64 (size + 1) <? size then None
  else if malloc_ok then Some (take (Z.to_nat size) str ++ [0]) else None.

Definition CBS_strdup (malloc_ok : bool) (cbs : CBS) : option (list Z) :=
  OPENSSL_strndup malloc_ok cbs.

(** [memchr] of the C library, as an index. *)
Definition OPENSSL_memchr (s : list Z) (c : Z) : option nat := fst <$> list_find (c =.) s.

Definition CBS_contains_zero_byte (cbs : CBS) : bool := bool_decide (is_Some (OPENSSL_memchr cbs 0)).

(** Without a branch on the data. *)
Fixpoint memcmp_loop (a b : list Z) (x : Z) : option Z :=
  match a, b with
  | [], _ => Some x
  | p :: a', q :: b' => memcmp_loop a' b' (Z.lor x (Z.lxor p q))
  | _ :: _, [] => None
  end.

Definition CRYPTO_memcmp (a b : list Z) : option Z := memcmp_loop a b 0.

Definition CBS_mem_equal (cbs data : list Z) : option bool :=
  if negb (CBS_len data =? CBS_len cbs) then Some false
  else r ← CRYPTO_memcmp cbs data; Some (r =? 0).

(** ** Integers *)

Definition cbs_get_u (len : Z) : reader Z :=
  data ← cbs_get len;
  mret (foldl (fun result b => Z.lor (u64 (Z.shiftl result 8)) b) 0 data).

Definition CBS_get_u8 : reader Z :=
  v ← cbs_get 1; of_option (v !! 0%nat).

Definition CBS_get_u16 : reader Z := v ← cbs_get_u 2; mret (u16 v).
Definition CBS_get_u24 : reader Z := v ← cbs_get_u 3; mret (u32 v).
Definition CBS_get_u32 : reader Z := v ← cbs_get_u 4; mret (u32 v).
Definition CBS_get_u64 : reader Z := cbs_get_u 8.

(** The [__builtin_bswap] functions: the bytes in the opposite order. *)
Definition bswap (n : nat) (v : Z) : Z := le_combine (rev (le_split n v)).
Definition CRYPTO_bswap2 := bswap 2.
Definition CRYPTO_bswap4 := bswap 4.
Definition CRYPTO_bswap8 := bswap 8.

Definition CBS_get_u16le : reader Z := v ← CBS_get_u16; mret (CRYPTO_bswap2 v).
Definition CBS_get_u32le : reader Z := v ← CBS_get_u32; mret (CRYPTO_bswap4 v).
Definition CBS_get_u64le : reader Z := v ← CBS_get_u64; mret (CRYPTO_bswap8 v).

Definition CBS_get_last_u8 : reader Z := fun cbs =>
  if CBS_len cbs =? 0 then Bad cbs
  else match rd cbs (CBS_len cbs - 1) with
       | Some b => Done b (take (length cbs - 1) cbs)
       | None => Stuck
       end.

Definition CBS_get_bytes (len : Z) : reader CBS := v ← cbs_get len; mret (CBS_init v).

(** The bytes go to [out], at index [o] of its array. *)
Definition CBS_copy_bytes (out : list Z) (o len : Z) : reader (list Z) :=
  v ← cbs_get len; of_option (wrs out o v).

Definition cbs_get_length_prefixed (len_len : Z) : reader CBS :=
  len ← cbs_get_u len_len;
  if 3 <? len_len then stuck else CBS_get_bytes len.

Definition CBS_get_u8_length_prefixed := cbs_get_length_prefixed 1.
Definition CBS_get_u16_length_prefixed := cbs_get_length_prefixed 2.
Definition CBS_get_u24_length_prefixed := cbs_get_length_prefixed 3.

Definition CBS_get_until_first (c : Z) : reader CBS :=
  cbs ← current;
  match OPENSSL_memchr cbs c with
  | None => return_0
  | Some split => CBS_get_bytes (Z.of_nat split)
  end.

(** ** ASN.1 tags and lengths *)

Definition CBS_ASN1_TAG_SHIFT := 24.
Definition CBS_ASN1_CONSTRUCTED := Z.shiftl 0x20 CBS_ASN1_TAG_SHIFT.
Definition CBS_ASN1_TAG_NUMBER_MASK := Z.shiftl 1 (5 + CBS_ASN1_TAG_SHIFT) - 1.
Definition CBS_ASN1_BOOLEAN := 0x1.
Definition CBS_ASN1_INTEGER := 0x2.
Definition CBS_ASN1_OCTETSTRING := 0x4.

(** The [do .. while] loop; every round takes a byte. *)
Fixpoint base128_loop (fuel : nat) (v : Z) : reader Z :=
  match fuel with
  | O => stuck
  | S fuel' =>
      b ← CBS_get_u8;
      if negb (Z.shiftr v (64 - 7) =? 0) then return_0
      else if (v =? 0) && (b =? 0x80) then return_0
      else
        let v := Z.lor (u64 (Z.shiftl v 7)) (Z.land b 0x7f) in
        if negb (Z.land b 0x80 =? 0) then base128_loop fuel' v else mret v
  end.

Definition parse_base128_integer : reader Z :=
  cbs ← current; base128_loop (S (length cbs)) 0.

Definition parse_asn1_tag : reader Z :=
  tag_byte ← CBS_get_u8;
  let tag := u32 (Z.shiftl (Z.land tag_byte 0xe0) CBS_ASN1_TAG_SHIFT) in
  let tag_number := Z.land tag_byte 0x1f in
  if tag_number =? 0x1f then
    v ← parse_base128_integer;
    if (CBS_ASN1_TAG_NUMBER_MASK <? v) || (v <? 0x1f) then return_0
    else mret (Z.lor tag (u32 v))
  else mret (Z.lor tag tag_number).

(** What the header says: the tag, the length of the header, the length of the
    element and whether it is not DER. *)
Record header_info := mk_header {
  hd_tag : Z; hd_len : Z; el_len : Z; ber_found : bool }.

(** The header of [cbs], read from a copy. *)
Definition asn1_header (ber_ok : bool) (cbs : CBS) : reader header_info :=
  tag ← parse_asn1_tag;
  length_byte ← CBS_get_u8;
  header ← current;
  let header_len := u64 (CBS_len cbs - CBS_len header) in
  if Z.land length_byte 0x80 =? 0 then
    mret (mk_header tag header_len (u64 (length_byte + header_len)) false)
  else
    let num_bytes := Z.land length_byte 0x7f in
    if ber_ok && negb (Z.land tag CBS_ASN1_CONSTRUCTED =? 0) && (num_bytes =? 0) then
      mret (mk_header tag header_len header_len true)
    else if (num_bytes =? 0) || (4 <? num_bytes) then return_0
    else
      len64 ← cbs_get_u num_bytes;
      let long := len64 <? 128 in
      let wide := Z.shiftr len64 ((num_bytes - 1) * 8) =? 0 in
      if (long || wide) && negb ber_ok then return_0
      else if u64 (len64 + header_len + num_bytes) <? len64 then return_0
      else mret (mk_header tag (u64 (header_len + num_bytes))
                           (u64 (len64 + u64 (header_len + num_bytes))) (long || wide)).

(** The element with its header. *)
Definition cbs_get_any_asn1_element (ber_ok : bool) : reader (CBS * header_info) :=
  cbs ← current;
  '(i, _) ← on cbs (asn1_header ber_ok cbs);
  out ← CBS_get_bytes (el_len i);
  mret (out, i).

(** The element, its tag and the length of its header. *)
Definition CBS_get_any_asn1_element : reader (CBS * Z * Z) :=
  '(out, i) ← cbs_get_any_asn1_element false;
  mret (out, hd_tag i, hd_len i).

Definition CBS_get_any_ber_asn1_element : reader (CBS * Z * Z * bool) :=
  '(out, i) ← cbs_get_any_asn1_element true;
  mret (out, hd_tag i, hd_len i, ber_found i).

(** [if (!CBS_skip(out, header_len)) { assert(0); return 0; }] *)
Definition skip_header (out : CBS) (header_len : Z) : reader CBS := fun cbs =>
  match CBS_skip header_len out with
  | Done _ out' => Done out' cbs
  | _ => Stuck
  end.

(** The contents of the element and its tag. *)
Definition CBS_get_any_asn1 : reader (CBS * Z) :=
  '(out, tag, header_len) ← CBS_get_any_asn1_element;
  out ← skip_header out header_len;
  mret (out, tag).

Definition cbs_get_asn1 (tag_value : Z) (skip : bool) : reader CBS :=
  '(out, tag, header_len) ← CBS_get_any_asn1_element;
  if negb (tag =? tag_value) then return_0
  else if skip then skip_header out header_len
  else mret out.

Definition CBS_get_asn1 (tag_value : Z) : reader CBS := cbs_get_asn1 tag_value true.
Definition CBS_get_asn1_element (tag_value : Z) : reader CBS := cbs_get_asn1 tag_value false.

(** A look at the tag; [None] is undefined behaviour. *)
Definition CBS_peek_asn1_tag (cbs : CBS) (tag_value : Z) : option bool :=
  if CBS_len cbs <? 1 then Some false
  else match parse_asn1_tag cbs with
       | Done actual_tag _ => Some (tag_value =? actual_tag)
       | Bad _ => Some false
       | Stuck => None
       end.

(** ** ASN.1 values *)

(** Validity and sign of the contents of an INTEGER. *)
Definition CBS_is_valid_asn1_integer (cbs : CBS) : bool * bool :=
  match cbs with
  | [] => (false, false)
  | first_byte :: copy =>
      let is_negative := negb (Z.land first_byte 0x80 =? 0) in
      match copy with
      | [] => (true, is_negative)
      | second_byte :: _ =>
          (negb (((first_byte =? 0x00) && (Z.land second_byte 0x80 =? 0)) ||
                 ((first_byte =? 0xff) && negb (Z.land second_byte 0x80 =? 0))),
           is_negative)
      end
  end.

Definition CBS_is_unsigned_asn1_integer (cbs : CBS) : bool :=
  let '(valid, is_negative) := CBS_is_valid_asn1_integer cbs in valid && negb is_negative.

(** The loop over the bytes; [None] is the return of 0. *)
Fixpoint uint64_loop (out : Z) (data : list Z) : option Z :=
  match data with
  | [] => Some out
  | b :: data' =>
      if negb (Z.shiftr out 56 =? 0) then None
      else uint64_loop (Z.lor (u64 (Z.shiftl out 8)) b) data'
  end.

Definition CBS_get_asn1_uint64 : reader Z :=
  bytes ← CBS_get_asn1 CBS_ASN1_INTEGER;
  if negb (CBS_is_unsigned_asn1_integer bytes) then return_0
  else match uint64_loop 0 bytes with Some v => mret v | None => return_0 end.

(** The union of an [int64_t] and its bytes is little endian. *)
Definition CBS_get_asn1_int64 : reader Z :=
  bytes ← CBS_get_asn1 CBS_ASN1_INTEGER;
  let '(valid, is_negative) := CBS_is_valid_asn1_integer bytes in
  if negb valid then return_0
  else if 8 <? CBS_len bytes then return_0
  else
    u ← of_option (wrs (replicate 8 (if is_negative then 0xff else 0)) 0 (rev bytes));
    mret (s64 (le_combine u)).

Definition CBS_get_asn1_bool : reader bool :=
  bytes ← CBS_get_asn1 CBS_ASN1_BOOLEAN;
  if negb (CBS_len bytes =? 1) then return_0
  else
    value ← of_option (bytes !! 0%nat);
    if negb (value =? 0) && negb (value =? 0xff) then return_0
    else mret (negb (value =? 0)).

(** [*out] where the element is present. *)
Definition CBS_get_optional_asn1 (tag : Z) : reader (option CBS) :=
  cbs ← current;
  present ← of_option (CBS_peek_asn1_tag cbs tag);
  if present : bool then out ← CBS_get_asn1 tag; mret (Some out) else mret None.

Definition CBS_get_optional_asn1_octet_string (tag : Z) : reader (CBS * bool) :=
  child ← CBS_get_optional_asn1 tag;
  match child with
  | Some child =>
      '(out, child) ← on child (CBS_get_asn1 CBS_ASN1_OCTETSTRING);
      if negb (CBS_len child =? 0) then return_0 else mret (out, true)
  | None => mret ([], false)
  end.

Definition CBS_get_optional_asn1_uint64 (tag default_value : Z) : reader Z :=
  child ← CBS_get_optional_asn1 tag;
  match child with
  | Some child =>
      '(out, child) ← on child CBS_get_asn1_uint64;
      if negb (CBS_len child =? 0) then return_0 else mret out
  | None => mret default_value
  end.

Definition CBS_get_optional_asn1_bool (tag : Z) (default_value : bool) : reader bool :=
  child ← CBS_get_optional_asn1 tag;
  match child with
  | Some child =>
      '(child2, child) ← on child (CBS_get_asn1 CBS_ASN1_BOOLEAN);
      if negb (CBS_len child2 =? 1) || negb (CBS_len child =? 0) then return_0
      else
        boolean ← of_option (child2 !! 0%nat);
        if boolean =? 0 then mret false
        else if boolean =? 0xff then mret true
        else return_0
  | None => mret default_value
  end.

(** ** Bit strings *)

Definition CBS_is_valid_asn1_bitstring (cbs : CBS) : option bool :=
  match CBS_get_u8 cbs with
  | Done num_unused_bits input =>
      if 7 <? num_unused_bits then Some false
      else if num_unused_bits =? 0 then Some true
      else match CBS_get_last_u8 input with
           | Done last _ => Some (Z.land last (Z.shiftl 1 num_unused_bits - 1) =? 0)
           | Bad _ => Some false
           | Stuck => None
           end
  | Bad _ => Some false
  | Stuck => None
  end.

Definition CBS_asn1_bitstring_has_bit (cbs : CBS) (bit : Z) : option bool :=
  valid ← CBS_is_valid_asn1_bitstring cbs;
  if negb valid then Some false
  else
    let byte_num := u32 (Z.shiftr bit 3 + 1) in
    let bit_num := 7 - Z.land bit 7 in
    if byte_num <? CBS_len cbs then
      b ← rd cbs byte_num; Some (negb (Z.land b (Z.shiftl 1 bit_num) =? 0))
    else Some false.
