(* ===== verification/CbsSpec.v ===== *)
(** * BoringSSL: what the readers accept

    Big-endian integers, the base-128 integers of X.690 and the distinguished
    encoding of tags and lengths as functions from values to bytes; the readers
    of [Cbs] accept exactly these encodings. *)
From S2P Require Import Prelude CBuf CMem CProc Cbs.

#[local] Ltac Zify.zify_post_hook ::= Z.to_euclidean_division_equations.

Abbreviation bytes := (Forall (in_u 8)).

(** ** Big-endian integers *)

Definition be (n : nat) (v : Z) : list Z := rev (le_split n v).
Definition be_val (bs : list Z) : Z := le_combine (rev bs).

Lemma length_be n v : length (be n v) = n.
Proof. unfold be. by rewrite length_rev, length_le_split. Qed.

Lemma bytes_rev l : bytes l -> bytes (rev l).
Proof. rewrite !Forall_forall. intros H x Hx. apply H. by apply list_elem_of_In, in_rev, list_elem_of_In. Qed.

Lemma be_S n v : be (S n) v = be n (v / 256) ++ [v mod 256].
Proof. done. Qed.

Lemma be_bytes n v : bytes (be n v).
Proof. apply bytes_rev, le_split_bytes. Qed.

Lemma be_val_be n v : be_val (be n v) = v mod 2 ^ (8 * Z.of_nat n).
Proof. unfold be, be_val. by rewrite rev_involutive, le_combine_split. Qed.

Lemma be_be_val bs : bytes bs -> be (length bs) (be_val bs) = bs.
Proof.
  intros Hb. unfold be, be_val. rewrite <- (length_rev bs), le_split_combine by by apply bytes_rev.
  apply rev_involutive.
Qed.

Lemma be_val_bound bs : bytes bs -> 0 <= be_val bs < 2 ^ (8 * Z.of_nat (length bs)).
Proof. intros Hb. rewrite <- (length_rev bs). apply le_combine_bound. by apply bytes_rev. Qed.

Lemma be_val_snoc bs b : be_val (bs ++ [b]) = be_val bs * 256 + b.
Proof. unfold be_val. rewrite rev_app_distr. cbn [rev app le_combine]. lia. Qed.

Lemma be_val_cons b bs : be_val (b :: bs) = b * 2 ^ (8 * Z.of_nat (length bs)) + be_val bs.
Proof.
  induction bs as [|c bs IH] using rev_ind; [cbn; lia|].
  rewrite app_comm_cons, !be_val_snoc, IH, length_app. cbn [length].
  replace (8 * Z.of_nat (length bs + 1)) with (8 * Z.of_nat (length bs) + 8) by lia.
  rewrite Z.pow_add_r by lia. lia.
Qed.

Lemma be_val_app a b : be_val (a ++ b) = be_val a * 2 ^ (8 * Z.of_nat (length b)) + be_val b.
Proof.
  induction a as [|x a IH]; [change (be_val []) with 0; cbn [app]; lia|]. rewrite <- app_comm_cons, !be_val_cons, IH, length_app, Nat2Z.inj_add, Z.mul_add_distr_l, Z.pow_add_r by lia. lia.
Qed.

Lemma be_val_zeros k : be_val (replicate k 0) = 0.
Proof. induction k as [|k IH]; [done|]. cbn [replicate]. rewrite be_val_cons, IH. lia. Qed.

Lemma be_fold acc bs :
  bytes bs -> 0 <= acc -> acc * 2 ^ (8 * Z.of_nat (length bs)) + be_val bs < 2 ^ 64 ->
  foldl (fun result b => Z.lor (u64 (Z.shiftl result 8)) b) acc bs
  = acc * 2 ^ (8 * Z.of_nat (length bs)) + be_val bs.
Proof.
  intros Hb. revert acc. induction Hb as [|b bs Hb Hbs IH]; intros acc Ha Hlt; [cbn; lia|].
  cbn [foldl length] in *. unfold in_u in Hb. rewrite be_val_cons in *.
  replace (8 * Z.of_nat (S (length bs))) with (8 + 8 * Z.of_nat (length bs)) in * by lia.
  rewrite Z.pow_add_r in * by lia. set (p := 2 ^ (8 * Z.of_nat (length bs))) in *.
  assert (0 < p) by (unfold p; lia). pose proof (be_val_bound bs Hbs).
  assert (Z.lor (u64 (Z.shiftl acc 8)) b = acc * 256 + b) as ->.
  { rewrite wrapu_id by (unfold in_u; rewrite Z.shiftl_mul_pow2 by lia; nia).
    rewrite Z.lor_comm, lor_shiftl_add by lia. lia. }
  rewrite IH; nia.
Qed.

(** ** The readers of bytes *)

Lemma cbs_get_app v rest : cbs_get (Z.of_nat (length v)) (v ++ rest) = Done v rest.
Proof.
  unfold cbs_get, CBS_len. rewrite (proj2 (Z.ltb_ge _ _)) by (rewrite length_app; lia).
  by rewrite Nat2Z.id, take_app_length, drop_app_length.
Qed.

Lemma cbs_get_cases n cbs :
  0 <= n ->
  (CBS_len cbs < n /\ cbs_get n cbs = Bad cbs) \/
  exists v rest, cbs = v ++ rest /\ n = Z.of_nat (length v) /\ cbs_get n cbs = Done v rest.
Proof.
  intros Hn. unfold cbs_get. destruct (CBS_len cbs <? n) eqn:E; [left; split; [lia|done]|right].
  unfold CBS_len in E. exists (take (Z.to_nat n) cbs), (drop (Z.to_nat n) cbs).
  rewrite take_drop, length_take. split_and!; [done|lia|done].
Qed.

Lemma get_u8_eq cbs :
  CBS_get_u8 cbs = match cbs with [] => Bad [] | b :: rest => Done b rest end.
Proof.
  unfold CBS_get_u8, mbind, proc_bind, cbs_get, CBS_len. destruct cbs as [|b rest]; [done|].
  rewrite (proj2 (Z.ltb_ge _ _)) by (cbn [length]; lia). done.
Qed.

Lemma cbs_get_u_app v rest :
  bytes v -> (length v <= 8)%nat ->
  cbs_get_u (Z.of_nat (length v)) (v ++ rest) = Done (be_val v) rest.
Proof.
  intros Hv Hl. unfold cbs_get_u, mbind, proc_bind. rewrite cbs_get_app.
  unfold mret, proc_ret. f_equal. rewrite be_fold; [lia|done|lia|].
  pose proof (be_val_bound v Hv). assert (2 ^ (8 * Z.of_nat (length v)) <= 2 ^ 64) by (apply Z.pow_le_mono_r; lia).
  lia.
Qed.

Lemma cbs_get_u_cases n cbs :
  bytes cbs -> 0 <= n <= 8 ->
  (CBS_len cbs < n /\ cbs_get_u n cbs = Bad cbs) \/
  exists v rest, cbs = v ++ rest /\ n = Z.of_nat (length v) /\ cbs_get_u n cbs = Done (be_val v) rest.
Proof.
  intros Hb Hn. destruct (cbs_get_cases n cbs) as [[H1 H2]|(v & rest & -> & -> & _)]; [lia| |].
  - left. split; [done|]. unfold cbs_get_u, mbind, proc_bind. by rewrite H2.
  - right. exists v, rest. split_and!; [done..|]. apply Forall_app in Hb as [Hv _].
    apply cbs_get_u_app; [done|lia].
Qed.

(** ** Base-128 integers *)

(** All groups of seven bits, each with the continuation bit. *)
Fixpoint groups (fuel : nat) (v : Z) : list Z :=
  if v =? 0 then []
  else match fuel with
  | O => []
  | S fuel' => groups fuel' (v / 128) ++ [128 + v mod 128]
  end.

(** Ten groups are enough for 64 bits. *)
Definition base128 (v : Z) : list Z := groups 10 (v / 128) ++ [v mod 128].

Lemma pow_128_S f : 128 ^ Z.of_nat (S f) = 128 * 128 ^ Z.of_nat f.
Proof. rewrite Nat2Z.inj_succ, Z.pow_succ_r by lia. done. Qed.

Lemma groups_fuel f1 f2 v :
  0 <= v -> v < 128 ^ Z.of_nat f1 -> v < 128 ^ Z.of_nat f2 -> groups f1 v = groups f2 v.
Proof.
  revert f2 v. induction f1 as [|f1 IH]; intros [|f2] v Hv H1 H2; try rewrite pow_128_S in H1;
    try rewrite pow_128_S in H2.
  - done.
  - assert (v = 0) as -> by lia. done.
  - assert (v = 0) as -> by lia. done.
  - cbn [groups]. destruct (v =? 0); [done|]. f_equal. apply IH; lia.
Qed.

Lemma groups_step v g :
  0 <= v < 2 ^ 57 -> 0 <= g < 128 -> v * 128 + g <> 0 -> groups 10 (v * 128 + g) = groups 10 v ++ [128 + g].
Proof.
  intros Hv Hg Hn. rewrite (groups_fuel 10 11) by (cbn; lia). cbn [groups].
  rewrite (proj2 (Z.eqb_neq (v * 128 + g) 0)) by done.
  rewrite Z.div_add_l, (Z.div_small g), Z.add_0_r by lia.
  replace ((v * 128 + g) mod 128) with g by lia. done.
Qed.

Lemma groups_bytes f v : 0 <= v -> bytes (groups f v).
Proof.
  revert v. induction f as [|f IH]; intros v Hv; cbn [groups]; destruct (v =? 0); try done.
  apply Forall_app. split; [apply IH; lia|]. constructor; [unfold in_u; lia|done].
Qed.

Lemma base128_bytes v : 0 <= v -> bytes (base128 v).
Proof.
  intros Hv. apply Forall_app. split; [apply groups_bytes; lia|].
  constructor; [unfold in_u; lia|done].
Qed.

(** One round of the loop. *)
Lemma base128_round fuel v b rest :
  in_u 8 b -> 0 <= v ->
  base128_loop (S fuel) v (b :: rest) =
  if negb (v <? 2 ^ 57) then Bad rest
  else if (v =? 0) && (b =? 128) then Bad rest
  else if 128 <=? b then base128_loop fuel (v * 128 + (b - 128)) rest
  else Done (v * 128 + b) rest.
Proof.
  intros Hb Hv. cbn [base128_loop]. unfold mbind, proc_bind. rewrite get_u8_eq.
  unfold in_u in Hb. rewrite Z.shiftr_div_pow2 by lia.
  destruct (v <? 2 ^ 57) eqn:Ev; cbn [negb].
  - rewrite (proj2 (Z.eqb_eq (v / 2 ^ (64 - 7)) 0)) by lia. cbn [negb].
    destruct ((v =? 0) && (b =? 128)); [done|].
    assert (Z.lor (u64 (Z.shiftl v 7)) (Z.land b 127) = v * 128 + b mod 128) as ->.
    { rewrite wrapu_id by (unfold in_u; rewrite Z.shiftl_mul_pow2 by lia; lia).
      rewrite land_7F, Z.lor_comm, lor_shiftl_add by lia. lia. }
    rewrite land_80 by (unfold in_u; lia). destruct (decide (b < 128)) as [Hlt|Hge].
    + rewrite (proj2 (Z.leb_gt 128 b)) by lia. rewrite Z.mod_small by lia. done.
    + rewrite (proj2 (Z.leb_le 128 b)) by lia. cbn [Z.eqb negb]. f_equal. lia.
  - rewrite (proj2 (Z.eqb_neq (v / 2 ^ (64 - 7)) 0)) by lia. done.
Qed.

(** The loop is defined and reads exactly the minimal encodings. *)
Lemma base128_sound fuel v0 cbs :
  bytes cbs -> 0 <= v0 < 2 ^ 64 -> (length cbs < fuel)%nat ->
  (exists rest, base128_loop fuel v0 cbs = Bad rest) \/
  exists v c rest, base128_loop fuel v0 cbs = Done v rest /\ cbs = c ++ rest /\ 0 <= v < 2 ^ 64 /\
    groups 10 v0 ++ c = base128 v.
Proof.
  intros Hb. revert fuel v0. induction Hb as [|b cbs Hb Hcbs IH]; intros fuel v0 Hv Hf.
  - destruct fuel as [|fuel]; [lia|]. left. by exists [].
  - cbn [length] in Hf. destruct fuel as [|fuel]; [lia|]. rewrite base128_round by (done || lia).
    unfold in_u in Hb. destruct (v0 <? 2 ^ 57) eqn:Ev; cbn [negb]; [|left; by exists cbs].
    destruct ((v0 =? 0) && (b =? 128)) eqn:Ez; [left; by exists cbs|].
    destruct (128 <=? b) eqn:Eb.
    + destruct (IH fuel (v0 * 128 + (b - 128))) as [[rest E]|(v & c & rest & E & -> & Hr & Hg)]; [lia|lia| |].
      * left. by exists rest.
      * right. exists v, (b :: c), rest. split_and!; [done..|lia|lia|].
        rewrite groups_step in Hg by lia. replace (128 + (b - 128)) with b in Hg by lia.
        by rewrite <- app_assoc in Hg.
    + right. exists (v0 * 128 + b), [b], cbs. split_and!; [done..|lia|lia|]. unfold base128.
      rewrite Z.div_add_l, Z.div_small, Z.add_0_r by lia. f_equal. f_equal. lia.
Qed.

Lemma base128_groups f fuel v tail :
  0 <= v < 2 ^ 57 -> v < 128 ^ Z.of_nat f -> (length (groups f v) <= fuel)%nat ->
  base128_loop fuel 0 (groups f v ++ tail) = base128_loop (fuel - length (groups f v)) v tail.
Proof.
  revert v tail. induction f as [|f IH]; intros v tail Hv Hf Hl; cbn [groups] in *;
    destruct (v =? 0) eqn:E; cbn [app length] in *.
  1, 2, 3: rewrite Nat.sub_0_r; f_equal; cbn in Hf; lia.
  rewrite pow_128_S in Hf. rewrite length_app in *. cbn [length] in *. rewrite <- app_assoc.
  rewrite IH by lia. set (n := length (groups f (v / 128))) in *.
  replace (fuel - n)%nat with (S (fuel - (n + 1))) by lia. cbn [app].
  rewrite base128_round by (unfold in_u; lia).
  rewrite (proj2 (Z.ltb_lt (v / 128) (2 ^ 57))) by lia. cbn [negb].
  assert (((v / 128 =? 0) && (128 + v mod 128 =? 128)) = false) as -> by lia.
  rewrite (proj2 (Z.leb_le 128 _)) by lia. f_equal. lia.
Qed.

Lemma base128_complete v rest :
  0 <= v < 2 ^ 64 -> parse_base128_integer (base128 v ++ rest) = Done v rest.
Proof.
  intros Hv. unfold parse_base128_integer, mbind, proc_bind, current, base128.
  rewrite <- app_assoc, base128_groups by (cbn; first [lia | rewrite !length_app; lia]).
  cbn [app]. rewrite !length_app. cbn [length].
  set (n := length (groups 10 (v / 128))).
  replace (S (n + S (length rest)) - n)%nat with (S (S (length rest))) by lia.
  rewrite base128_round by (unfold in_u; lia).
  rewrite (proj2 (Z.ltb_lt (v / 128) (2 ^ 57))) by lia. cbn [negb].
  assert (((v / 128 =? 0) && (v mod 128 =? 128)) = false) as -> by lia.
  rewrite (proj2 (Z.leb_gt 128 _)) by lia. f_equal. lia.
Qed.

Lemma parse_base128_cases cbs :
  bytes cbs ->
  (exists rest, parse_base128_integer cbs = Bad rest) \/
  exists v rest, 0 <= v < 2 ^ 64 /\ cbs = base128 v ++ rest /\ parse_base128_integer cbs = Done v rest.
Proof.
  intros Hb. unfold parse_base128_integer, mbind, proc_bind, current.
  destruct (base128_sound (S (length cbs)) 0 cbs) as [H|(v & c & rest & E & -> & Hv & Hg)]; [done|lia|lia|by left|].
  right. exists v, rest. split_and!; [lia|lia| |done]. cbn in Hg. by rewrite Hg.
Qed.

(** ** Identifier octets *)

(** A tag as the library represents it: class and constructed bit on top of a
    tag number of 29 bits. *)
Definition asn1_tag (t : Z) : Prop := 0 <= t < 2 ^ 32.

Definition tag_bits (t : Z) : Z := t / 2 ^ 29 * 32.
Definition tag_num (t : Z) : Z := t mod 2 ^ 29.

Definition ident (t : Z) : list Z :=
  if tag_num t <? 31 then [tag_bits t + tag_num t] else (tag_bits t + 31) :: base128 (tag_num t).

Lemma ident_bytes t : asn1_tag t -> bytes (ident t).
Proof.
  unfold asn1_tag, ident, tag_bits, tag_num. intros Ht. case_match.
  - constructor; [unfold in_u; lia|done].
  - constructor; [unfold in_u; lia|apply base128_bytes; lia].
Qed.

Lemma land_1f b : Z.land b 31 = b mod 32.
Proof. apply (land_ones_mod b 5). lia. Qed.

Lemma land_e0 b : in_u 8 b -> Z.land b 0xe0 = b / 32 * 32.
Proof. intros Hb. unfold in_u in Hb. by_byte b. Qed.

Lemma join_tag x n : 0 <= x < 8 -> 0 <= n < 2 ^ 29 ->
  Z.lor (u32 (Z.shiftl (x * 32) CBS_ASN1_TAG_SHIFT)) n = x * 2 ^ 29 + n.
Proof.
  intros Hx Hn. unfold CBS_ASN1_TAG_SHIFT. rewrite Z.shiftl_mul_pow2 by lia.
  rewrite wrapu_id by (unfold in_u; lia). replace (x * 32 * 2 ^ 24) with (Z.shiftl x 29)
    by (rewrite Z.shiftl_mul_pow2; lia).
  rewrite Z.lor_comm, lor_shiftl_add; lia.
Qed.

Lemma parse_tag_eq b cbs :
  in_u 8 b ->
  parse_asn1_tag (b :: cbs) =
  if b mod 32 =? 31 then
    match parse_base128_integer cbs with
    | Done v rest => if (2 ^ 29 - 1 <? v) || (v <? 31) then Bad rest
                     else Done (b / 32 * 2 ^ 29 + v) rest
    | Bad rest => Bad rest
    | Stuck => Stuck
    end
  else Done (b / 32 * 2 ^ 29 + b mod 32) cbs.
Proof.
  intros Hb. unfold parse_asn1_tag, mbind, proc_bind. rewrite get_u8_eq.
  rewrite land_1f, land_e0 by done. unfold in_u in Hb.
  change CBS_ASN1_TAG_NUMBER_MASK with (2 ^ 29 - 1).
  destruct (b mod 32 =? 31) eqn:E.
  - destruct (parse_base128_integer cbs) as [v rest|rest|]; [|done..].
    destruct ((2 ^ 29 - 1 <? v) || (v <? 31)) eqn:Ev; [done|].
    rewrite (wrapu_id 32 v) by (unfold in_u; lia). by rewrite join_tag by lia.
  - by rewrite join_tag by lia.
Qed.

Lemma parse_tag_complete t rest :
  asn1_tag t -> parse_asn1_tag (ident t ++ rest) = Done t rest.
Proof.
  unfold asn1_tag. intros Ht. unfold ident. destruct (tag_num t <? 31) eqn:E; unfold tag_bits, tag_num in *;
    cbn [app]; rewrite parse_tag_eq by (unfold in_u; lia).
  - rewrite (proj2 (Z.eqb_neq _ 31)) by lia. f_equal. lia.
  - rewrite (proj2 (Z.eqb_eq _ 31)) by lia. rewrite base128_complete by lia.
    assert (((2 ^ 29 - 1 <? t mod 2 ^ 29) || (t mod 2 ^ 29 <? 31)) = false) as -> by lia.
    f_equal. lia.
Qed.

Lemma parse_tag_cases cbs :
  bytes cbs ->
  (exists rest, parse_asn1_tag cbs = Bad rest) \/
  exists t rest, asn1_tag t /\ cbs = ident t ++ rest /\ parse_asn1_tag cbs = Done t rest.
Proof.
  intros Hb. destruct Hb as [|b cbs Hb Hcbs]; [left; by exists []|].
  rewrite parse_tag_eq by done. unfold in_u in Hb. unfold asn1_tag, ident, tag_bits, tag_num.
  destruct (b mod 32 =? 31) eqn:E.
  - destruct (parse_base128_cases cbs Hcbs) as [[rest ->]|(v & rest & Hv & -> & ->)]; [left; by exists rest|].
    destruct ((2 ^ 29 - 1 <? v) || (v <? 31)) eqn:Ev; [left; by exists rest|].
    right. exists (b / 32 * 2 ^ 29 + v), rest. split_and!; [lia|lia| |done].
    rewrite (proj2 (Z.ltb_ge _ 31)) by lia. cbn [app]. f_equal; [lia|]. f_equal. f_equal. lia.
  - right. exists (b / 32 * 2 ^ 29 + b mod 32), cbs. split_and!; [lia|lia| |done].
    rewrite (proj2 (Z.ltb_lt _ 31)) by lia. cbn [app]. f_equal. lia.
Qed.

(** ** Length octets *)

(** The fewest bytes for a length of 32 bits. *)
Definition len_bytes (n : Z) : nat :=
  if n <? 2 ^ 8 then 1 else if n <? 2 ^ 16 then 2 else if n <? 2 ^ 24 then 3 else 4.

Definition der_length (n : Z) : list Z :=
  if n <? 128 then [n] else (128 + Z.of_nat (len_bytes n)) :: be (len_bytes n) n.

Lemma len_bytes_range n : (1 <= len_bytes n <= 4)%nat.
Proof. unfold len_bytes. repeat case_match; lia. Qed.

Lemma der_length_bytes n : 0 <= n -> bytes (der_length n).
Proof.
  intros Hn. unfold der_length. pose proof (len_bytes_range n).
  case_match; constructor; [unfold in_u; lia|done|unfold in_u; lia|apply be_bytes].
Qed.

Lemma len_bytes_fit n : 0 <= n < 2 ^ 32 -> n < 2 ^ (8 * Z.of_nat (len_bytes n)).
Proof. intros Hn. unfold len_bytes. repeat case_match; cbn; lia. Qed.

(** A value that needs all of its bytes is in the shortest form. *)
Lemma len_bytes_minimal k n :
  1 <= Z.of_nat k <= 4 -> 2 ^ (8 * (Z.of_nat k - 1)) <= n < 2 ^ (8 * Z.of_nat k) -> len_bytes n = k.
Proof.
  intros Hk Hn. unfold len_bytes.
  assert (k = 1 \/ k = 2 \/ k = 3 \/ k = 4)%nat as [->|[->|[->| ->]]] by lia; cbn in Hn;
    repeat case_match; lia.
Qed.

Lemma len_bytes_full n :
  128 <= n -> (n / 2 ^ ((Z.of_nat (len_bytes n) - 1) * 8) =? 0) = false.
Proof.
  intros Hn. apply Z.eqb_neq. unfold len_bytes.
  destruct (n <? 2 ^ 8) eqn:E1; [|destruct (n <? 2 ^ 16) eqn:E2; [|destruct (n <? 2 ^ 24) eqn:E3]].
  - change (2 ^ ((Z.of_nat 1 - 1) * 8)) with 1. lia.
  - change (2 ^ ((Z.of_nat 2 - 1) * 8)) with (2 ^ 8). lia.
  - change (2 ^ ((Z.of_nat 3 - 1) * 8)) with (2 ^ 16). lia.
  - change (2 ^ ((Z.of_nat 4 - 1) * 8)) with (2 ^ 24). lia.
Qed.

(** The bytes after the tag, when everything is as DER wants it. *)
Lemma header_rest_complete tag cbs hl0 n rest :
  0 <= n < 2 ^ 32 -> 0 <= hl0 < 2 ^ 60 ->
  CBS_len cbs = hl0 + Z.of_nat (length (der_length n)) + CBS_len rest -> CBS_len cbs < 2 ^ 63 ->
  parse_asn1_tag cbs = Done tag (der_length n ++ rest) ->
  asn1_header false cbs cbs
  = let hl := hl0 + Z.of_nat (length (der_length n)) in Done (mk_header tag hl (n + hl) false) rest.
Proof.
  intros Hn Hh Hlen Hmax Hp. unfold asn1_header, mbind, proc_bind. rewrite Hp, get_u8_eq.
  unfold der_length in *. destruct (n <? 128) eqn:E; cbn [app current length] in *.
  - rewrite land_80 by (unfold in_u; lia). rewrite decide_True by lia. cbn [Z.eqb].
    rewrite !wrapu_id by (unfold in_u, CBS_len in *; try rewrite wrapu_id; unfold in_u; lia).
    unfold mret, proc_ret. do 2 f_equal; unfold CBS_len in *; lia.
  - pose proof (len_bytes_range n). rewrite land_80 by (unfold in_u; lia). rewrite decide_False by lia.
    rewrite (proj2 (Z.eqb_neq 128 0)), land_7F by lia.
    replace ((128 + Z.of_nat (len_bytes n)) mod 128) with (Z.of_nat (len_bytes n)) by lia.
    cbn [andb]. rewrite (proj2 (Z.eqb_neq _ 0)), (proj2 (Z.ltb_ge 4 _)) by lia. cbn [orb].
    rewrite length_be in Hlen. rewrite length_be.
    rewrite <- (length_be (len_bytes n) n) at 1.
    rewrite cbs_get_u_app by (apply be_bytes || rewrite length_be; lia).
    rewrite be_val_be, Z.mod_small by (pose proof (len_bytes_fit n); lia).
    rewrite (proj2 (Z.ltb_ge n 128)), Z.shiftr_div_pow2 by lia.
    rewrite (len_bytes_full n) by lia.
    cbn [orb andb]. unfold CBS_len in *. rewrite length_app, length_be in *.
    rewrite (wrapu_id 64 (Z.of_nat (length cbs) - _)) by (unfold in_u; lia).
    rewrite (wrapu_id 64 (n + _ + _)) by (unfold in_u; lia).
    rewrite (proj2 (Z.ltb_ge _ n)) by lia.
    rewrite (wrapu_id 64 (_ + Z.of_nat (len_bytes n))), wrapu_id by (unfold in_u; lia).
    unfold mret, proc_ret. f_equal. f_equal; lia.
Qed.

Lemma header_complete t n rest :
  let cbs := ident t ++ der_length n ++ rest in
  asn1_tag t -> 0 <= n < 2 ^ 32 -> CBS_len cbs < 2 ^ 60 ->
  let hl := Z.of_nat (length (ident t)) + Z.of_nat (length (der_length n)) in
  asn1_header false cbs cbs = Done (mk_header t hl (n + hl) false) rest.
Proof.
  intros cbs Ht Hn Hl hl.
  assert (CBS_len cbs = Z.of_nat (length (ident t)) + Z.of_nat (length (der_length n)) + CBS_len rest) as Hlen.
  { unfold cbs, CBS_len. rewrite !length_app. lia. }
  rewrite (header_rest_complete t cbs (Z.of_nat (length (ident t))) n rest) by
    (done || (unfold CBS_len in *; lia) || by apply parse_tag_complete). done.
Qed.

(** The parser of headers is defined and accepts exactly the DER headers. *)
Lemma header_cases cbs :
  bytes cbs -> CBS_len cbs < 2 ^ 60 ->
  (exists rest, asn1_header false cbs cbs = Bad rest) \/
  exists t n rest, asn1_tag t /\ 0 <= n < 2 ^ 32 /\ cbs = ident t ++ der_length n ++ rest.
Proof.
  intros Hb Hl. unfold asn1_header. unfold mbind at 1, proc_bind at 1.
  destruct (parse_tag_cases cbs Hb) as [[rest ->]|(t & r & Ht & -> & ->)]; [left; by exists rest|].
  unfold mbind, proc_bind. rewrite get_u8_eq. apply Forall_app in Hb as [_ Hb].
  destruct Hb as [|b r Hb Hr]; [left; by exists []|]. unfold in_u in Hb. cbn [current].
  rewrite land_80 by (unfold in_u; lia). destruct (decide (b < 128)) as [Hlt|Hge].
  { right. exists t, b, r. split; [done|]. split; [lia|]. unfold der_length.
    by rewrite (proj2 (Z.ltb_lt b 128)) by lia. }
  change (128 =? 0) with false. rewrite land_7F. replace (b mod 128) with (b - 128) by lia. cbn [andb].
  destruct (b - 128 =? 0) eqn:E0; cbn [orb]; [left; by exists r|].
  destruct (4 <? b - 128) eqn:E4; [left; by exists r|].
  destruct (cbs_get_u_cases (b - 128) r Hr) as [[_ ->]|(v & rest & -> & Hk & ->)]; [lia|left; by exists r|].
  apply Forall_app in Hr as [Hv _]. pose proof (be_val_bound v Hv) as Hbv.
  destruct (be_val v <? 128) eqn:E1; cbn [orb negb andb]; [left; by exists rest|].
  rewrite Z.shiftr_div_pow2 by lia.
  destruct (be_val v / 2 ^ ((b - 128 - 1) * 8) =? 0) eqn:E2; cbn [orb negb andb]; [left; by exists rest|].
  right. assert (2 ^ (8 * Z.of_nat (length v)) <= 2 ^ 32) by (apply Z.pow_le_mono_r; lia).
  exists t, (be_val v), rest. split; [done|]. split; [lia|].
  unfold der_length. rewrite E1. assert (len_bytes (be_val v) = length v) as ->.
  { apply len_bytes_minimal; [lia|]. split; [|lia].
    replace ((b - 128 - 1) * 8) with (8 * (Z.of_nat (length v) - 1)) in E2 by lia.
    destruct (decide (be_val v < 2 ^ (8 * (Z.of_nat (length v) - 1)))) as [Hs|]; [|lia].
    rewrite Z.div_small in E2 by lia. done. }
  rewrite be_be_val by done. cbn [app]. replace (128 + Z.of_nat (length v)) with b by lia. done.
Qed.

(** ** Elements *)

(** The distinguished encoding of an element with the given contents. *)
Definition der (t : Z) (body : list Z) : list Z :=
  ident t ++ der_length (Z.of_nat (length body)) ++ body.

Definition der_header_len (t : Z) (body : list Z) : Z :=
  Z.of_nat (length (ident t)) + Z.of_nat (length (der_length (Z.of_nat (length body)))).

(** What an element may hold: 32-bit lengths are supported. *)
Definition der_ok (t : Z) (body : list Z) : Prop := asn1_tag t /\ Z.of_nat (length body) < 2 ^ 32.

Lemma der_length_app t body rest :
  CBS_len (der t body ++ rest) = der_header_len t body + Z.of_nat (length body) + CBS_len rest.
Proof. unfold der, der_header_len, CBS_len. rewrite !length_app. lia. Qed.

Lemma any_element_complete t body rest :
  der_ok t body -> CBS_len (der t body ++ rest) < 2 ^ 60 ->
  CBS_get_any_asn1_element (der t body ++ rest)
  = Done (der t body, t, der_header_len t body) rest.
Proof.
  intros [Ht Hn] Hl. pose proof (der_length_app t body rest) as Hlen.
  pose proof (header_complete t (Z.of_nat (length body)) (body ++ rest)) as Hh. cbv zeta in Hh.
  assert (ident t ++ der_length (Z.of_nat (length body)) ++ body ++ rest = der t body ++ rest) as E
    by (unfold der; by rewrite <- !app_assoc).
  rewrite E in Hh. specialize (Hh Ht ltac:(lia) Hl).
  unfold CBS_get_any_asn1_element, cbs_get_any_asn1_element, mbind, proc_bind, current, on.
  rewrite Hh. cbn [el_len hd_tag hd_len]. unfold CBS_get_bytes, mbind, proc_bind.
  replace (Z.of_nat (length body) + _) with (Z.of_nat (length (der t body))).
  - by rewrite cbs_get_app.
  - unfold der. rewrite !length_app. lia.
Qed.

(** Every other input is refused and left alone. *)
Lemma any_element_cases cbs :
  bytes cbs -> CBS_len cbs < 2 ^ 60 ->
  CBS_get_any_asn1_element cbs = Bad cbs \/
  exists t body rest, der_ok t body /\ cbs = der t body ++ rest.
Proof.
  intros Hb Hl.
  destruct (header_cases cbs Hb Hl) as [[rest E]|(t & n & r & Ht & Hn & ->)].
  { left. unfold CBS_get_any_asn1_element, cbs_get_any_asn1_element, mbind, proc_bind, current, on. by rewrite E. }
  destruct (decide (CBS_len r < n)) as [Hlt|Hge].
  - left. unfold CBS_get_any_asn1_element, cbs_get_any_asn1_element, mbind, proc_bind, current, on.
    rewrite header_complete by done. cbn [el_len]. unfold CBS_get_bytes, mbind, proc_bind, cbs_get.
    rewrite (proj2 (Z.ltb_lt _ _)); [done|]. unfold CBS_len in *. rewrite !length_app. lia.
  - right. exists t, (take (Z.to_nat n) r), (drop (Z.to_nat n) r).
    unfold CBS_len in Hge. assert (Z.of_nat (length (take (Z.to_nat n) r)) = n) as En by (rewrite length_take; lia).
    split; [split; [done|lia]|]. unfold der. rewrite En, <- !app_assoc, take_drop. done.
Qed.
