(* ===== verification/Cbb.v ===== *)
(** * BoringSSL: building byte strings ([crypto/bytestring/cbb.c])

    One buffer and the [CBB]s that write to it.  A [CBB] is named by its
    address; the [CBB]s of one serialisation share the buffer and form a chain
    of children with pending length prefixes.  A buffer byte that was never
    written holds [None].  Whether a reallocation succeeds is a parameter. *)
From S2P Require Import Prelude CBuf CMem CProc Cbs.

(** ** State *)

(** [struct cbb_buffer_st]; the capacity is the length of [buf]. *)
Record cbb_buffer := mk_buffer {
  buf : list (option Z);
  len : Z;
  can_resize : bool;
  error : bool }.

Definition cap (b : cbb_buffer) : Z := Z.of_nat (length (buf b)).

(** [struct cbb_st]; [has_base] says whether its [base] is the buffer or null. *)
Record cbb := mk_cbb {
  has_base : bool;
  child : option Z;
  offset : Z;
  pending_len_len : Z;
  pending_is_asn1 : bool;
  is_child : bool }.

(** The buffer, until it is released, and the [CBB]s in memory. *)
Record world := mk_world { base : option cbb_buffer; cbbs : gmap Z cbb }.

Abbreviation builder := (proc world).

Definition zero_cbb : cbb := mk_cbb false None 0 0 false false.

(** [*cbb]. *)
Definition deref (a : Z) : builder cbb := w ← current; of_option (cbbs w !! a).

Definition set_cbb (a : Z) (c : cbb) : builder unit :=
  w ← current; become (mk_world (base w) (<[a := c]> (cbbs w))).

Definition set_base (b : cbb_buffer) : builder unit :=
  w ← current; become (mk_world (Some b) (cbbs w)).

Definition set_child (ch : option Z) (c : cbb) : cbb :=
  mk_cbb (has_base c) ch (offset c) (pending_len_len c) (pending_is_asn1 c) (is_child c).
Definition set_has_base (x : bool) (c : cbb) : cbb :=
  mk_cbb x (child c) (offset c) (pending_len_len c) (pending_is_asn1 c) (is_child c).
Definition set_pending (o n : Z) (c : cbb) : cbb :=
  mk_cbb (has_base c) (child c) o n (pending_is_asn1 c) (is_child c).

(** [cbb->base], which the caller follows. *)
Definition the_base (a : Z) : builder cbb_buffer :=
  c ← deref a; w ← current;
  if has_base c then of_option (base w) else stuck.

(** [base->buf[i] = v]. *)
Definition poke (i v : Z) : builder unit :=
  w ← current;
  b ← of_option (base w);
  buf' ← of_option (wr (buf b) i (Some v));
  set_base (mk_buffer buf' (len b) (can_resize b) (error b)).

(** [base->error = 1; return 0;] *)
Definition fail_base {A} : builder A :=
  w ← current;
  b ← of_option (base w);
  set_base (mk_buffer (buf b) (len b) (can_resize b) true);; return_0.

(** A local variable of type [CBB]: its address is taken while it lives. *)
Definition with_local {A} (f : Z -> builder A) : builder A := fun w =>
  let a := fresh (dom (cbbs w)) in
  match f a w with
  | Done x w' => Done x (mk_world (base w') (delete a (cbbs w')))
  | Bad w' => Bad (mk_world (base w') (delete a (cbbs w')))
  | Stuck => Stuck
  end.

Section Builder.
Context (realloc_ok : Z -> bool).

(** ** The buffer *)

Definition CBB_zero (a : Z) : builder unit := set_cbb a zero_cbb.

(** The allocations of the buffer object and of its bytes may fail. *)
Definition cbb_init (base_ok : bool) (a : Z) (bytes : list (option Z)) : builder unit :=
  if negb base_ok then return_0
  else
    set_base (mk_buffer bytes 0 true false);;
    c ← deref a;
    set_cbb a (mk_cbb true (child c) (offset c) (pending_len_len c) (pending_is_asn1 c) false).

Definition CBB_init (buf_ok base_ok : bool) (a initial_capacity : Z) : builder unit :=
  CBB_zero a;;
  if (0 <? initial_capacity) && negb buf_ok then return_0
  else cbb_init base_ok a (replicate (Z.to_nat initial_capacity) None).

Definition CBB_init_fixed (base_ok : bool) (a : Z) (bytes : list (option Z)) : builder unit :=
  CBB_zero a;;
  cbb_init base_ok a bytes;;
  b ← the_base a;
  set_base (mk_buffer (buf b) (len b) false (error b)).

Definition CBB_cleanup (a : Z) : builder unit :=
  c ← deref a;
  if is_child c then stuck
  else
    (if has_base c then w ← current; become (mk_world None (cbbs w)) else mret tt);;
    set_cbb a (set_has_base false c).

(** The index of the first of [n] free bytes. *)
Definition cbb_buffer_reserve (n : Z) : builder Z :=
  w ← current;
  match base w with
  | None => return_0
  | Some b =>
      let newlen := u64 (len b + n) in
      if newlen <? len b then fail_base
      else if cap b <? newlen then
        let newcap := u64 (cap b * 2) in
        if negb (can_resize b) then fail_base
        else
          let newcap := if (newcap <? cap b) || (newcap <? newlen) then newlen else newcap in
          if realloc_ok newcap then
            set_base (mk_buffer (buf b ++ replicate (Z.to_nat (newcap - cap b)) None)
                                (len b) (can_resize b) (error b));;
            mret (len b)
          else fail_base
      else mret (len b)
  end.

Definition add_len (n : Z) : builder unit :=
  w ← current;
  b ← of_option (base w);
  set_base (mk_buffer (buf b) (u64 (len b + n)) (can_resize b) (error b)).

Definition cbb_buffer_add (n : Z) : builder Z :=
  out ← cbb_buffer_reserve n;
  add_len n;;
  mret out.

(** [buf[i] = v; v >>= 8] from the last byte to the first: what is left of [v]. *)
Fixpoint store_be (n : nat) (out v : Z) : builder Z :=
  match n with
  | O => mret v
  | S n' => poke (out + Z.of_nat n') (u8 v);; store_be n' out (Z.shiftr v 8)
  end.

Definition cbb_buffer_add_u (v len_len : Z) : builder unit :=
  if len_len =? 0 then mret tt
  else
    out ← cbb_buffer_add len_len;
    v ← store_be (Z.to_nat len_len) out v;
    if negb (v =? 0) then fail_base else mret tt.

(** ** Pending prefixes *)

(** The length octets CBB_flush needs for ASN.1: their number, the first one,
    and what goes into the others. *)
Definition asn1_len_len (n : Z) : option (Z * Z * Z) :=
  if 0xfffffffe <? n then None
  else if 0xffffff <? n then Some (5, 0x84, n)
  else if 0xffff <? n then Some (4, 0x83, n)
  else if 0xff <? n then Some (3, 0x82, n)
  else if 0x7f <? n then Some (2, 0x81, n)
  else Some (1, u8 n, 0).

(** [memmove(base->buf + i + extra, base->buf + i, n)]. *)
Definition move_bytes (i extra n : Z) : builder unit :=
  w ← current;
  b ← of_option (base w);
  piece ← of_option (rds (buf b) i n);
  buf' ← of_option (wrs (buf b) (i + extra) piece);
  set_base (mk_buffer buf' (len b) (can_resize b) (error b)).

(** The ASN.1 branch: the length that is left to write.  [a] is the address of
    the child. *)
Definition flush_asn1 (a child_start n : Z) : builder Z :=
  cc ← deref a;
  if negb (pending_len_len cc =? 1) then stuck
  else match asn1_len_len n with
  | None => fail_base
  | Some (len_len, initial_length_byte, n) =>
      (if negb (len_len =? 1) then
         let extra_bytes := len_len - 1 in
         ok ← status (cbb_buffer_add extra_bytes;; mret tt);
         if ok : bool then move_bytes child_start extra_bytes n else fail_base
       else mret tt);;
      poke (offset cc) initial_length_byte;;
      set_cbb a (set_pending (offset cc + 1) (len_len - 1) cc);;
      mret n
  end.

(** The end of a flush: the rest of the prefix, and the child is detached. *)
Definition flush_end (a ch n : Z) : builder unit :=
  cc ← deref ch;
  n ← store_be (Z.to_nat (pending_len_len cc)) (offset cc) n;
  if negb (n =? 0) then fail_base
  else
    cc ← deref ch;
    set_cbb ch (set_has_base false cc);;
    c ← deref a;
    set_cbb a (set_child None c).

(** The flush of [a] with the flush of its child at hand. *)
Definition flush_with (flush : Z -> builder unit) (a : Z) : builder unit :=
  c ← deref a;
  if negb (has_base c) then return_0
  else
    b ← the_base a;
    if error b then return_0
    else match child c with
    | None => mret tt
    | Some ch =>
        cc ← deref ch;
        if pending_len_len cc =? 0 then mret tt
        else
          let child_start := u64 (offset cc + pending_len_len cc) in
          ok ← status (flush ch);
          cc ← deref ch;
          b ← the_base a;
          if negb ok || (child_start <? offset cc) || (len b <? child_start) then fail_base
          else
            let n := len b - child_start in
            n ← (if pending_is_asn1 cc then flush_asn1 ch child_start n else mret n);
            flush_end a ch n
    end.

(** The recursion follows the chain of children. *)
Fixpoint flush_chain (fuel : nat) (a : Z) : builder unit :=
  match fuel with
  | O => stuck
  | S fuel' => flush_with (flush_chain fuel') a
  end.

Definition CBB_flush (a : Z) : builder unit :=
  w ← current; flush_chain (S (size (cbbs w))) a.

(** The bytes of the buffer, when [out_data] and [out_len] are given. *)
Definition CBB_finish (out_given : bool) (a : Z) : builder (list (option Z)) :=
  c ← deref a;
  if is_child c then return_0
  else
    CBB_flush a;;
    b ← the_base a;
    if can_resize b && negb out_given then return_0
    else
      CBB_cleanup a;;
      mret (take (Z.to_nat (len b)) (buf b)).

(** [CBB_data] and [CBB_len]: an index in the buffer and a length. *)
Definition CBB_data (a : Z) : builder Z :=
  c ← deref a;
  if bool_decide (child c <> None) then stuck
  else _ ← the_base a; mret (offset c + pending_len_len c).

Definition CBB_len (a : Z) : builder Z :=
  c ← deref a;
  b ← the_base a;
  if bool_decide (child c <> None) || (len b <? offset c + pending_len_len c) then stuck
  else mret (len b - offset c - pending_len_len c).

(** ** Opening a child *)

Fixpoint fill (n : nat) (out v : Z) : builder unit :=
  match n with
  | O => mret tt
  | S n' => poke out v;; fill n' (out + 1) v
  end.

(** [*out_contents] with its pending prefix, and [cbb->child]. *)
Definition open_child (a out_contents offset len_len : Z) (asn1 : bool) : builder unit :=
  set_cbb out_contents (mk_cbb true None offset len_len asn1 true);;
  c ← deref a;
  set_cbb a (set_child (Some out_contents) c).

Definition cbb_add_length_prefixed (a out_contents len_len : Z) : builder unit :=
  CBB_flush a;;
  b ← the_base a;
  let offset := len b in
  prefix_bytes ← cbb_buffer_add len_len;
  fill (Z.to_nat len_len) prefix_bytes 0;;
  open_child a out_contents offset len_len false.

Definition CBB_add_u8_length_prefixed (a out_contents : Z) := cbb_add_length_prefixed a out_contents 1.
Definition CBB_add_u16_length_prefixed (a out_contents : Z) := cbb_add_length_prefixed a out_contents 2.
Definition CBB_add_u24_length_prefixed (a out_contents : Z) := cbb_add_length_prefixed a out_contents 3.

(** ** Adding bytes *)

Definition cbb_add_u (a v len_len : Z) : builder unit :=
  CBB_flush a;; cbb_buffer_add_u v len_len.

Definition CBB_add_u8 (a value : Z) := cbb_add_u a value 1.
Definition CBB_add_u16 (a value : Z) := cbb_add_u a value 2.
Definition CBB_add_u24 (a value : Z) := cbb_add_u a value 3.
Definition CBB_add_u32 (a value : Z) := cbb_add_u a value 4.
Definition CBB_add_u64 (a value : Z) := cbb_add_u a value 8.
Definition CBB_add_u16le (a value : Z) := CBB_add_u16 a (CRYPTO_bswap2 value).
Definition CBB_add_u32le (a value : Z) := CBB_add_u32 a (CRYPTO_bswap4 value).
Definition CBB_add_u64le (a value : Z) := CBB_add_u64 a (CRYPTO_bswap8 value).

Definition CBB_add_space (a n : Z) : builder Z := CBB_flush a;; cbb_buffer_add n.
Definition CBB_reserve (a n : Z) : builder Z := CBB_flush a;; cbb_buffer_reserve n.

(** [memcpy(base->buf + out, data, len)]. *)
Definition copy_in (out : Z) (data : list Z) : builder unit :=
  w ← current;
  b ← of_option (base w);
  buf' ← of_option (wrs (buf b) out (Some <$> data));
  set_base (mk_buffer buf' (len b) (can_resize b) (error b)).

Definition CBB_add_bytes (a : Z) (data : list Z) : builder unit :=
  CBB_flush a;;
  dest ← cbb_buffer_add (Z.of_nat (length data));
  copy_in dest data.

Definition CBB_add_zeros (a n : Z) : builder unit :=
  out ← CBB_add_space a n;
  fill (Z.to_nat n) out 0.

Definition CBB_did_write (a n : Z) : builder unit :=
  c ← deref a;
  b ← the_base a;
  let newlen := u64 (len b + n) in
  if bool_decide (child c <> None) || (newlen <? len b) || (cap b <? newlen) then return_0
  else set_base (mk_buffer (buf b) newlen (can_resize b) (error b)).

Definition CBB_discard_child (a : Z) : builder unit :=
  c ← deref a;
  match child c with
  | None => mret tt
  | Some ch =>
      cc ← deref ch;
      b ← the_base a;
      set_base (mk_buffer (buf b) (offset cc) (can_resize b) (error b));;
      set_cbb ch (set_has_base false cc);;
      set_cbb a (set_child None c)
  end.

(** ** ASN.1 *)

(** The number of groups of seven bits. *)
Fixpoint count_groups (fuel : nat) (copy : Z) : Z :=
  match fuel with
  | O => 0
  | S fuel' => if copy <=? 0 then 0 else 1 + count_groups fuel' (Z.shiftr copy 7)
  end.

Fixpoint base128_bytes (n : nat) (a v : Z) : builder unit :=
  match n with
  | O => mret tt
  | S i =>
      let byte := Z.land (Z.shiftr v (7 * Z.of_nat i)) 0x7f in
      CBB_add_u8 a (if (0 <? i)%nat then Z.lor byte 0x80 else byte);;
      base128_bytes i a v
  end.

Definition add_base128_integer (a v : Z) : builder unit :=
  let len_len := count_groups 10 v in
  base128_bytes (Z.to_nat (if len_len =? 0 then 1 else len_len)) a v.

Definition CBB_add_asn1 (a out_contents tag : Z) : builder unit :=
  CBB_flush a;;
  let tag_bits := Z.land (u8 (Z.shiftr tag CBS_ASN1_TAG_SHIFT)) 0xe0 in
  let tag_number := Z.land tag CBS_ASN1_TAG_NUMBER_MASK in
  (if 0x1f <=? tag_number then
     CBB_add_u8 a (Z.lor tag_bits 0x1f);; add_base128_integer a tag_number
   else CBB_add_u8 a (u8 (Z.lor tag_bits tag_number)));;
  b ← the_base a;
  let offset := len b in
  CBB_add_u8 a 0;;
  open_child a out_contents offset 1 true.

(** The loop over the eight bytes, most significant first. *)
Fixpoint uint64_bytes (n : nat) (child value : Z) (started : bool) : builder bool :=
  match n with
  | O => mret started
  | S i =>
      let byte := Z.land (Z.shiftr value (8 * Z.of_nat i)) 0xff in
      if negb started && (byte =? 0) then uint64_bytes i child value false
      else
        (if negb started && negb (Z.land byte 0x80 =? 0) then CBB_add_u8 child 0 else mret tt);;
        CBB_add_u8 child byte;;
        uint64_bytes i child value true
  end.

Definition CBB_add_asn1_uint64 (a value : Z) : builder unit :=
  with_local (fun child =>
    CBB_add_asn1 a child CBS_ASN1_INTEGER;;
    started ← uint64_bytes 8 child value false;
    (if started : bool then mret tt else CBB_add_u8 child 0);;
    CBB_flush a).

(** The first byte to write: sign-extension bytes are skipped. *)
Fixpoint skip_sign (start : nat) (bytes : list Z) : nat :=
  match start with
  | O => O
  | S s => if (nth (S s) bytes 0 =? 0xff) && negb (Z.land (nth s bytes 0) 0x80 =? 0)
           then skip_sign s bytes else start
  end.

Fixpoint add_down (n : nat) (child : Z) (bytes : list Z) : builder unit :=
  match n with
  | O => mret tt
  | S i => CBB_add_u8 child (nth i bytes 0);; add_down i child bytes
  end.

Definition CBB_add_asn1_int64 (a value : Z) : builder unit :=
  if 0 <=? value then CBB_add_asn1_uint64 a value
  else
    let bytes := le_split 8 (u64 value) in
    let start := skip_sign 7 bytes in
    with_local (fun child =>
      CBB_add_asn1 a child CBS_ASN1_INTEGER;;
      add_down (S start) child bytes;;
      CBB_flush a).

Definition CBB_add_asn1_octet_string (a : Z) (data : list Z) : builder unit :=
  with_local (fun child =>
    CBB_add_asn1 a child CBS_ASN1_OCTETSTRING;;
    CBB_add_bytes child data;;
    CBB_flush a).

Definition CBB_add_asn1_bool (a : Z) (value : bool) : builder unit :=
  with_local (fun child =>
    CBB_add_asn1 a child CBS_ASN1_BOOLEAN;;
    CBB_add_u8 child (if value then 0xff else 0);;
    CBB_flush a).
End Builder.

(** SEQUENCE { INTEGER 300, OCTET STRING of 130 bytes }. *)
Example cbb_sequence :
  match (CBB_init true true 1 4;;
         CBB_add_asn1 (fun _ => true) 1 2 0x20000010;;
         CBB_add_asn1_uint64 (fun _ => true) 2 300;;
         CBB_add_asn1_octet_string (fun _ => true) 2 (replicate 130 7);;
         CBB_finish (fun _ => true) true 1) (mk_world None ∅) with
  | Done bs w => bs = Some <$> [0x30; 0x81; 137; 2; 2; 1; 44; 4; 0x81; 130] ++ replicate 130 7
                 /\ base w = None
  | _ => False
  end.
Proof. vm_compute. split; reflexivity. Qed.
