(* ===== verification/CbbSpec.v ===== *)
(** * BoringSSL: the builder writes what it should

    A chain of [CBB]s with pending prefixes stands for nested contents; flushing
    replaces every pending prefix by the length of what follows.  All rules are
    triples: what holds when a function returns 1, and what when it returns 0;
    undefined behaviour satisfies none. *)
From S2P Require Import Prelude CBuf CMem CProc Cbs CbsSpec Cbb.

#[local] Ltac Zify.zify_post_hook ::= Z.to_euclidean_division_equations.

(** ** Triples *)

Definition triple {S A} (r : result S A) (P : A -> S -> Prop) (B : S -> Prop) : Prop :=
  match r with Done a s => P a s | Bad s => B s | Stuck => False end.

Section Triple.
Context {S : Type}.

Lemma triple_bind {A C} (c : proc S A) (k : A -> proc S C) s (P : A -> S -> Prop) Q B :
  triple (c s) P B -> (forall a s', P a s' -> triple (k a s') Q B) -> triple ((x ← c; k x) s) Q B.
Proof. unfold mbind, proc_bind. destruct (c s) as [a s'|s'|]; cbn; auto. Qed.

Lemma triple_weaken {A} (r : result S A) (P P' : A -> S -> Prop) (B B' : S -> Prop) :
  triple r P B -> (forall a s, P a s -> P' a s) -> (forall s, B s -> B' s) -> triple r P' B'.
Proof. destruct r; cbn; auto. Qed.

Lemma triple_status {A} (c : proc S unit) (k : bool -> proc S A) s P B Q C :
  triple (c s) P B ->
  (forall s', P tt s' -> triple (k true s') Q C) ->
  (forall s', B s' -> triple (k false s') Q C) ->
  triple ((ok ← status c; k ok) s) Q C.
Proof. unfold status, mbind, proc_bind. destruct (c s) as [[] s'|s'|]; cbn; auto. Qed.

Lemma triple_ret {A} (a : A) (s : S) (P : A -> S -> Prop) B : P a s -> triple ((mret a : proc S A) s) P B.
Proof. done. Qed.
End Triple.

(** ** The buffer *)

Section Spec.
Context (realloc_ok : Z -> bool) (resizable : bool) (limit : Z).

(** The buffer holds the bytes [l] and is usable. *)
Record good (b : cbb_buffer) (l : list Z) : Prop := {
  g_buf : exists junk, buf b = (Some <$> l) ++ junk;
  g_len : len b = Z.of_nat (length l);
  g_max : len b < 2 ^ 64;
  g_error : error b = false;
  g_resize : can_resize b = resizable;
  g_cap : resizable = false -> cap b = limit }.

(** As [good], with [n] bytes behind [l] that have been reserved and not
    written yet. *)
Record room (b : cbb_buffer) (l : list Z) (n : Z) : Prop := {
  r_buf : exists hole junk, buf b = (Some <$> l) ++ hole ++ junk /\ Z.of_nat (length hole) = n;
  r_len : len b = Z.of_nat (length l) + n;
  r_max : len b < 2 ^ 64;
  r_error : error b = false;
  r_resize : can_resize b = resizable;
  r_cap : resizable = false -> cap b = limit }.

(** No buffer of [n] bytes can be had. *)
Definition hopeless (n : Z) : Prop :=
  (resizable = false /\ limit < n) \/ (exists m, realloc_ok m = false) \/ 2 ^ 64 <= n.

Lemma hopeless_mono n n' : hopeless n -> n <= n' -> hopeless n'.
Proof. unfold hopeless. intros [[? ?]|[?|?]] ?; [left; split; [done|lia]|auto|right; right; lia]. Qed.

(** The error flag is set; the [CBB]s are as they were. *)
Definition failed (w w' : world) : Prop :=
  cbbs w' = cbbs w /\ exists b, base w' = Some b /\ error b = true.

(** The world with another buffer. *)
Definition with_base (b : cbb_buffer) (w : world) : world := mk_world (Some b) (cbbs w).

Lemma fail_base_spec {A} w b (P : A -> world -> Prop) (B : world -> Prop) :
  base w = Some b -> (forall w', failed w w' -> B w') -> triple (fail_base (A := A) w) P B.
Proof.
  intros Hb HB. unfold fail_base, current, mbind, proc_bind, of_option. rewrite Hb.
  apply HB. split; [done|]. by eexists.
Qed.

Lemma deref_bind {A} w a c (k : cbb -> builder A) :
  cbbs w !! a = Some c -> (x ← deref a; k x) w = k c w.
Proof. intros Hc. unfold deref, current, mbind, proc_bind, of_option. by rewrite Hc. Qed.

Lemma the_base_bind {A} w a c b (k : cbb_buffer -> builder A) :
  cbbs w !! a = Some c -> has_base c = true -> base w = Some b -> (x ← the_base a; k x) w = k b w.
Proof.
  intros Hc Hh Hb. unfold the_base. unfold mbind at 1, proc_bind at 1. rewrite (deref_bind _ _ c) by done.
  unfold current, mbind, proc_bind, of_option. by rewrite Hh, Hb.
Qed.

Lemma set_cbb_bind {A} w a c (k : builder A) :
  (set_cbb a c;; k) w = k (mk_world (base w) (<[a := c]> (cbbs w))).
Proof. done. Qed.

Lemma buffer_add_spec w b l n :
  base w = Some b -> good b l -> 0 <= n < 2 ^ 64 ->
  triple (cbb_buffer_add realloc_ok n w)
    (fun out w' => out = Z.of_nat (length l) /\ exists b', w' = with_base b' w /\ room b' l n)
    (fun w' => failed w w' /\ hopeless (Z.of_nat (length l) + n)).
Proof.
  intros Hb [[junk Hbuf] Hlen Hmax Herr Hres Hcap] Hn. unfold cbb_buffer_add.
  assert (cap b = Z.of_nat (length l) + Z.of_nat (length junk)) as Hc.
  { unfold cap. rewrite Hbuf, length_app, length_fmap. lia. }
  eapply triple_bind with (P := fun out w' => out = Z.of_nat (length l) /\ Z.of_nat (length l) + n < 2 ^ 64 /\
    exists b', w' = with_base b' w /\ len b' = len b /\ error b' = false /\ can_resize b' = resizable /\
      (resizable = false -> cap b' = limit) /\
      exists junk', buf b' = (Some <$> l) ++ junk' /\ n <= Z.of_nat (length junk')).
  - unfold cbb_buffer_reserve, current, mbind, proc_bind. rewrite Hb.
    destruct (u64 (len b + n) <? len b) eqn:E1.
    { apply (fail_base_spec w b); [done|]. intros w' Hf. split; [done|]. right; right.
      destruct (decide (len b + n < 2 ^ 64)); [|lia]. rewrite wrapu_id in E1 by (unfold in_u; lia). lia. }
    assert (len b + n < 2 ^ 64) as Hno.
    { destruct (decide (len b + n < 2 ^ 64)); [done|]. unfold wrapu in E1.
      rewrite (Z.mod_eq _ (2 ^ 64)) in E1 by lia. assert ((len b + n) / 2 ^ 64 = 1) by lia. lia. }
    rewrite wrapu_id by (unfold in_u; lia).
    destruct (cap b <? len b + n) eqn:E2.
    2: { split; [done|]. split; [lia|]. exists b. split; [unfold with_base; by destruct w; cbn in *; subst|].
         split_and!; [done..|]. exists junk. split; [done|lia]. }
    destruct (can_resize b) eqn:Er; cbn [negb].
    2: { apply (fail_base_spec w b); [done|]. intros w' Hf. split; [done|]. left. split; [congruence|].
         rewrite <- Hcap by congruence. lia. }
    match goal with |- context [realloc_ok ?m] => set (newcap := m); destruct (realloc_ok newcap) eqn:Eo end.
    2: { apply (fail_base_spec w b); [done|]. intros w' Hf. split; [done|]. right; left. by exists newcap. }
    assert (len b + n <= newcap) as Hnew by (unfold newcap; destruct (_ || _) eqn:Ev; lia).
    clearbody newcap. cbn [set_base mbind mret]. split; [done|]. split; [lia|].
    eexists. split; [reflexivity|]. cbn [len error can_resize buf]. split_and!; [done|done|done|congruence|].
    exists (junk ++ replicate (Z.to_nat (newcap - cap b)) None).
    split; [by rewrite Hbuf, <- app_assoc|]. rewrite length_app, length_replicate. lia.
  - intros out w' (-> & Hno & b' & -> & Hl & He & Hr & Hc' & junk' & Hbuf' & Hj).
    unfold add_len, current, mbind, proc_bind, of_option. cbn [base with_base set_base mret].
    split; [done|]. eexists. split; [reflexivity|]. rewrite wrapu_id by (unfold in_u; lia).
    constructor; cbn [buf len error can_resize]; [|lia|lia|done..].
    exists (take (Z.to_nat n) junk'), (drop (Z.to_nat n) junk').
    rewrite take_drop, length_take. split; [done|lia].
Qed.

(** Filling the reserved bytes makes them part of the contents. *)
Lemma room_fill b l n v hole junk :
  room b l n -> buf b = (Some <$> l) ++ hole ++ junk -> Z.of_nat (length hole) = n ->
  Z.of_nat (length v) = n ->
  good (mk_buffer ((Some <$> l) ++ (Some <$> v) ++ junk) (len b) (can_resize b) (error b)) (l ++ v).
Proof.
  intros [_ Hlen Hmax Herr Hres Hcap] Hb Hh Hv. constructor; cbn [buf len error can_resize]; [..|done|done|].
  - exists junk. by rewrite fmap_app, <- app_assoc.
  - rewrite length_app. lia.
  - lia.
  - intros Hf. specialize (Hcap Hf). unfold cap in *. cbn [buf]. rewrite Hb in Hcap.
    rewrite !length_app, !length_fmap in *. lia.
Qed.

Lemma copy_in_spec w b l v :
  base w = Some b -> room b l (Z.of_nat (length v)) ->
  triple (copy_in (Z.of_nat (length l)) v w)
    (fun _ w' => exists b', w' = with_base b' w /\ good b' (l ++ v)) (fun _ => False).
Proof.
  intros Hb Hr. destruct (r_buf _ _ _ Hr) as (hole & junk & Hbuf & Hh).
  unfold copy_in, current, mbind, proc_bind, of_option. rewrite Hb, Hbuf.
  rewrite wrs_mid by (rewrite ?length_fmap; lia). eexists. split; [reflexivity|]. by eapply room_fill.
Qed.

(** The buffer with other bytes. *)
Definition set_buf (x : list (option Z)) (b : cbb_buffer) : cbb_buffer :=
  mk_buffer x (len b) (can_resize b) (error b).

Lemma poke_eq w b x y z i v :
  base w = Some b -> buf b = x ++ y :: z -> i = Z.of_nat (length x) ->
  poke i v w = Done tt (with_base (set_buf (x ++ Some v :: z) b) w).
Proof.
  intros Hb Hbuf Hi. unfold poke, current, mbind, proc_bind, of_option. rewrite Hb, Hbuf.
  unfold wr. change (y :: z) with ([y] ++ z). by rewrite wrs_mid.
Qed.

Lemma store_be_eq n w b x hole z out v :
  base w = Some b -> buf b = x ++ hole ++ z -> length hole = n -> out = Z.of_nat (length x) ->
  store_be n out v w
  = Done (v / 2 ^ (8 * Z.of_nat n)) (with_base (set_buf (x ++ (Some <$> be n v) ++ z) b) w).
Proof.
  revert w b hole z v. induction n as [|n IH]; intros w b hole z v Hb Hbuf Hh Ho; cbn [store_be].
  - apply nil_length_inv in Hh as ->. rewrite Z.div_1_r. cbn. f_equal. unfold with_base, set_buf.
    destruct w as [? m], b; cbn in *; subst. done.
  - destruct hole as [|y hole _] using rev_ind; [done|]. rewrite length_app in Hh. cbn [length] in Hh.
    rewrite <- app_assoc in Hbuf. cbn [app] in Hbuf. rewrite app_assoc in Hbuf.
    unfold mbind, proc_bind. rewrite (poke_eq w b (x ++ hole) y z) by (done || rewrite ?length_app; lia).
    rewrite (IH _ (set_buf ((x ++ hole) ++ Some (u8 v) :: z) b) hole (Some (u8 v) :: z)) by
      (done || (cbn [set_buf buf]; by rewrite <- app_assoc) || lia).
    f_equal.
    + rewrite Z.shiftr_div_pow2, Z.div_div by lia. f_equal.
      rewrite <- Z.pow_add_r by lia. f_equal. lia.
    + unfold with_base, set_buf. cbn [len can_resize error cbbs]. do 3 f_equal.
      rewrite be_S, fmap_app, <- app_assoc, Z.shiftr_div_pow2 by lia. done.
Qed.

Lemma fill_eq n w b x hole z out v :
  base w = Some b -> buf b = x ++ hole ++ z -> length hole = n -> out = Z.of_nat (length x) ->
  fill n out v w = Done tt (with_base (set_buf (x ++ (Some <$> replicate n v) ++ z) b) w).
Proof.
  revert w b x hole out. induction n as [|n IH]; intros w b x hole out Hb Hbuf Hh Ho; cbn [fill].
  - apply nil_length_inv in Hh as ->. cbn. unfold mret, proc_ret. f_equal. unfold with_base, set_buf.
    destruct w as [? m], b; cbn in *; subst. done.
  - destruct hole as [|y hole]; [done|]. cbn [length] in Hh. cbn [app] in Hbuf.
    unfold mbind, proc_bind. rewrite (poke_eq w b x y (hole ++ z)) by done.
    rewrite (IH _ (set_buf (x ++ Some v :: hole ++ z) b) (x ++ [Some v]) hole) by
      (done || (cbn [set_buf buf]; by rewrite <- app_assoc) || (rewrite length_app; cbn [length]; lia) || lia).
    f_equal. unfold with_base, set_buf. cbn [len can_resize error cbbs replicate fmap list_fmap].
    by rewrite <- app_assoc.
Qed.

(** Reserving bytes and writing the integer [v] of [k] bytes. *)
Lemma buffer_add_u_spec w b l k v :
  base w = Some b -> good b l -> (0 < k <= 8)%nat -> 0 <= v ->
  triple (cbb_buffer_add_u realloc_ok v (Z.of_nat k) w)
    (fun _ w' => v < 2 ^ (8 * Z.of_nat k) /\ exists b', w' = with_base b' w /\ good b' (l ++ be k v))
    (fun w' => failed w w' /\ (hopeless (Z.of_nat (length l) + Z.of_nat k) \/ 2 ^ (8 * Z.of_nat k) <= v)).
Proof.
  intros Hb Hg Hk Hv. unfold cbb_buffer_add_u. rewrite (proj2 (Z.eqb_neq (Z.of_nat k) 0)) by lia.
  eapply triple_bind.
  { eapply triple_weaken; [apply (buffer_add_spec w b l); [done|done|lia]|done|]. intros w' []. auto. }
  cbn. intros out w' (-> & b' & -> & Hr). destruct (r_buf _ _ _ Hr) as (hole & junk & Hbuf & Hh).
  unfold mbind, proc_bind. rewrite Nat2Z.id.
  rewrite (store_be_eq k _ b' (Some <$> l) hole junk) by (done || rewrite ?length_fmap; lia).
  destruct (v / 2 ^ (8 * Z.of_nat k) =? 0) eqn:E; cbn [negb].
  - split; [apply Z.eqb_eq, Z.div_small_iff in E; lia|]. eexists. split; [reflexivity|].
    eapply room_fill; [done..|]. rewrite length_be. lia.
  - eapply fail_base_spec; [done|]. intros w'' [H1 H2]. split; [by split|]. right.
    apply Z.eqb_neq in E. destruct (decide (2 ^ (8 * Z.of_nat k) <= v)) as [|Hn]; [done|].
    rewrite Z.div_small in E by lia. done.
Qed.

(** ** Chains of children *)

(** How the length of a child's contents is written. *)
Inductive kind := Fixed (n : nat) | Asn1.

Definition plen (k : kind) : nat := match k with Fixed n => n | Asn1 => 1 end.
Definition is_asn1 (k : kind) : bool := match k with Fixed _ => false | Asn1 => true end.

Definition length_prefix (k : kind) (n : Z) : option (list Z) :=
  match k with
  | Fixed m => if n <? 2 ^ (8 * Z.of_nat m) then Some (be m n) else None
  | Asn1 => if n <=? 0xfffffffe then Some (der_length n) else None
  end.

Record frame := mk_frame { f_kind : kind; f_addr : Z; f_bytes : list Z }.

(** The bytes in the buffer, pending prefixes still zero. *)
Fixpoint flat (bytes : list Z) (fs : list frame) : list Z :=
  bytes ++ match fs with
           | [] => []
           | f :: fs' => replicate (plen (f_kind f)) 0 ++ flat (f_bytes f) fs'
           end.

(** The bytes once all prefixes are written; [None] when one does not fit. *)
Fixpoint collapse (bytes : list Z) (fs : list frame) : option (list Z) :=
  match fs with
  | [] => Some bytes
  | f :: fs' =>
      c ← collapse (f_bytes f) fs';
      p ← length_prefix (f_kind f) (Z.of_nat (length c));
      Some (bytes ++ p ++ c)
  end.

(** The [CBB] at [a], whose contents start at [pos], and its children. *)
Fixpoint chain (m : gmap Z cbb) (pos a : Z) (bytes : list Z) (fs : list frame) : Prop :=
  exists c, m !! a = Some c /\ has_base c = true /\
  match fs with
  | [] => child c = None
  | f :: fs' =>
      child c = Some (f_addr f) /\
      (exists cc, m !! f_addr f = Some cc /\ offset cc = pos + Z.of_nat (length bytes) /\
         pending_len_len cc = Z.of_nat (plen (f_kind f)) /\ pending_is_asn1 cc = is_asn1 (f_kind f)) /\
      chain m (pos + Z.of_nat (length bytes) + Z.of_nat (plen (f_kind f))) (f_addr f) (f_bytes f) fs'
  end.

Definition addrs (fs : list frame) : list Z := f_addr <$> fs.

(** Every prefix has one byte at least. *)
Definition frames_ok (fs : list frame) : Prop := Forall (fun f => (0 < plen (f_kind f) <= 8)%nat) fs.

(** The buffer holds [pre] and then the contents of [a] and its children. *)
Definition chained (w : world) (pre : list Z) (a : Z) (bytes : list Z) (fs : list frame) : Prop :=
  exists b, base w = Some b /\ good b (pre ++ flat bytes fs) /\
    chain (cbbs w) (Z.of_nat (length pre)) a bytes fs /\ NoDup (a :: addrs fs) /\ frames_ok fs.

(** Only the [CBB]s [A] changed, and all of them are still there. *)
Definition changed (A : list Z) (w w' : world) : Prop :=
  (forall x, x ∉ A -> cbbs w' !! x = cbbs w !! x) /\
  (forall x, is_Some (cbbs w !! x) -> is_Some (cbbs w' !! x)).

(** ** The ASN.1 length *)

Lemma asn1_len_len_spec n :
  0 <= n ->
  match asn1_len_len n with
  | None => 0xfffffffe < n
  | Some (k, first, n') =>
      n <= 0xfffffffe /\ 1 <= k <= 5 /\ in_u 8 first /\ 0 <= n' < 2 ^ (8 * (k - 1)) /\
      der_length n = first :: be (Z.to_nat (k - 1)) n' /\ (k <> 1 -> n' = n)
  end.
Proof.
  intros Hn. unfold asn1_len_len, der_length, len_bytes, in_u.
  destruct (0xfffffffe <? n) eqn:E0; [lia|]. destruct (0xffffff <? n) eqn:E1.
  { replace (n <? 128) with false by lia. replace (n <? 2 ^ 8) with false by lia.
    replace (n <? 2 ^ 16) with false by lia. replace (n <? 2 ^ 24) with false by lia.
    split_and!; done || lia. }
  destruct (0xffff <? n) eqn:E2.
  { replace (n <? 128) with false by lia. replace (n <? 2 ^ 8) with false by lia.
    replace (n <? 2 ^ 16) with false by lia. replace (n <? 2 ^ 24) with true by lia.
    split_and!; done || lia. }
  destruct (0xff <? n) eqn:E3.
  { replace (n <? 128) with false by lia. replace (n <? 2 ^ 8) with false by lia.
    replace (n <? 2 ^ 16) with true by lia. split_and!; done || lia. }
  destruct (0x7f <? n) eqn:E4.
  { replace (n <? 128) with false by lia. replace (n <? 2 ^ 8) with true by lia.
    split_and!; done || lia. }
  replace (n <? 128) with true by lia. rewrite wrapu_id by (unfold in_u; lia).
  split_and!; done || lia.
Qed.

(** The buffer between the two steps of writing an ASN.1 length: the first
    length octet is there, the others are a gap in front of the contents. *)
Record gap (b : cbb_buffer) (p : list Z) (first : Z) (n : nat) (c : list Z) : Prop := {
  p_buf : exists hole junk, buf b = (Some <$> p) ++ Some first :: hole ++ (Some <$> c) ++ junk /\ length hole = n;
  p_len : len b = Z.of_nat (length p + 1 + n + length c);
  p_max : len b < 2 ^ 64;
  p_error : error b = false;
  p_resize : can_resize b = resizable;
  p_cap : resizable = false -> cap b = limit }.

Lemma move_bytes_spec w b p c extra :
  base w = Some b -> room b (p ++ [0] ++ c) extra -> 0 <= extra ->
  exists hole junk, length hole = Z.to_nat extra /\
    move_bytes (Z.of_nat (length p) + 1) extra (Z.of_nat (length c)) w
    = Done tt (with_base (set_buf ((Some <$> p) ++ Some 0 :: hole ++ (Some <$> c) ++ junk) b) w) /\
    length ((Some <$> p) ++ Some 0 :: hole ++ (Some <$> c) ++ junk) = length (buf b).
Proof.
  intros Hb [(hole & junk & Hbuf & Hh) _ _ _ _ _] He.
  assert (buf b = ((Some <$> p) ++ [Some 0]) ++ (Some <$> c) ++ hole ++ junk) as Hbuf'.
  { rewrite Hbuf, !fmap_app, <- !app_assoc. done. }
  set (h := take (Z.to_nat extra) ((Some <$> c) ++ hole)).
  exists h, junk. assert (length h = Z.to_nat extra) as Hlh.
  { unfold h. rewrite length_take, length_app, length_fmap. lia. }
  split; [done|].
  assert (wrs (buf b) (Z.of_nat (length p) + 1 + extra) (Some <$> c)
          = Some ((Some <$> p) ++ Some 0 :: h ++ (Some <$> c) ++ junk)) as Hw.
  { rewrite Hbuf'. replace ((Some <$> c) ++ hole ++ junk)
      with (h ++ drop (Z.to_nat extra) ((Some <$> c) ++ hole) ++ junk)
      by (unfold h; by rewrite app_assoc, take_drop, <- app_assoc).
    rewrite app_assoc, wrs_mid.
    - by rewrite <- !app_assoc.
    - rewrite !length_app, length_fmap, Hlh. cbn [length]. lia.
    - rewrite length_drop, length_app, !length_fmap. lia. }
  split; [|by eapply wrs_length].
  unfold move_bytes, current, mbind, proc_bind, of_option. rewrite Hb.
  assert (rds (buf b) (Z.of_nat (length p) + 1) (Z.of_nat (length c)) = Some (Some <$> c)) as ->.
  { rewrite Hbuf'. pose proof (rds_at ((Some <$> p) ++ [Some 0]) (Some <$> c) (hole ++ junk)) as E.
    rewrite length_app, !length_fmap in E. cbn [length] in E.
    rewrite <- E. f_equal. lia. }
  by rewrite Hw.
Qed.

Lemma flush_asn1_spec w b ch cc p c :
  base w = Some b -> good b (p ++ [0] ++ c) -> cbbs w !! ch = Some cc ->
  offset cc = Z.of_nat (length p) -> pending_len_len cc = 1 ->
  let n := Z.of_nat (length c) in
  triple (flush_asn1 realloc_ok ch (Z.of_nat (length p) + 1) n w)
    (fun n' w' => exists b' first k, n <= 0xfffffffe /\ w' = mk_world (Some b')
         (<[ch := set_pending (Z.of_nat (length p) + 1) (Z.of_nat k) cc]> (cbbs w)) /\
         gap b' p first k c /\ 0 <= n' < 2 ^ (8 * Z.of_nat k) /\ der_length n = first :: be k n')
    (fun w' => failed w w' /\
       (0xfffffffe < n \/ hopeless (Z.of_nat (length p) + Z.of_nat (length (der_length n)) + n))).
Proof.
  intros Hb Hg Hch Ho Hp n. unfold flush_asn1. rewrite (deref_bind _ _ cc), Hp by done.
  pose proof (asn1_len_len_spec n ltac:(lia)) as Hspec.
  destruct (asn1_len_len n) as [[[k first] n']|].
  2: { replace (1 =? 1) with true by done. cbn [negb]. eapply fail_base_spec; [done|]. intros w' Hf. split; [done|]. by left. }
  destruct Hspec as (Hmax & Hk & Hfirst & Hn' & Hder & Hsame).
  replace (1 =? 1) with true by done. cbn [negb].
  eapply triple_bind with (P := fun _ w1 => exists b1, w1 = with_base b1 w /\
     gap b1 p 0 (Z.to_nat (k - 1)) c).
  - destruct (k =? 1) eqn:Ek; cbn [negb].
    + assert (k = 1) as -> by lia. cbn. exists b. split; [by destruct w; cbn in *; subst|].
      destruct Hg as [[junk Hbuf] Hlen Hmx Herr Hres Hcap]. constructor; try done.
      * exists [], junk. split; [|done]. rewrite Hbuf, !fmap_app, <- !app_assoc. done.
      * rewrite Hlen, !length_app. cbn [length]. f_equal. lia.
    + specialize (Hsame ltac:(lia)). subst n'.
      eapply triple_status with
        (P := fun _ w' => exists b', w' = with_base b' w /\ room b' (p ++ [0] ++ c) (k - 1)).
      { eapply triple_bind; [apply (buffer_add_spec w b (p ++ [0] ++ c)); [done|done|lia]|].
        intros out w1 [_ H]. exact H. }
      * cbn. intros w1 (b1 & -> & Hr).
        destruct (move_bytes_spec (with_base b1 w) b1 p c (k - 1)) as (hole & junk & Hh & E & Hl); [done|done|lia|].
        fold n in E. rewrite E. eexists. split; [reflexivity|].
        destruct Hr as [_ Hlen Hmx Herr Hres Hcap]. constructor; cbn [set_buf buf len error can_resize]; try done.
        -- by exists hole, junk.
        -- rewrite Hlen, !length_app. cbn [length]. lia.
        -- intros Hf. specialize (Hcap Hf). unfold cap in *. cbn [set_buf buf]. lia.
      * cbn. intros w1 [[Hc1 (b1 & Hb1 & He1)] Hhope]. eapply fail_base_spec; [done|].
        intros w2 [Hc2 Hb2]. split; [split; [congruence|done]|]. right.
        eapply hopeless_mono; [done|]. rewrite Hder, !length_app. cbn [length]. rewrite length_be. lia.
  - intros _ w1 (b1 & -> & [(hole & junk & Hbuf & Hh) Hlen Hmx Herr Hres Hcap]).
    rewrite Ho. unfold mbind at 1, proc_bind at 1.
    rewrite (poke_eq _ b1 (Some <$> p) (Some 0) (hole ++ (Some <$> c) ++ junk)) by (done || by rewrite length_fmap).
    rewrite set_cbb_bind.
    exists (set_buf ((Some <$> p) ++ Some first :: hole ++ (Some <$> c) ++ junk) b1), first, (Z.to_nat (k - 1)).
    rewrite Z2Nat.id by lia. split_and!; [done|done| |lia|lia|done].
    constructor; cbn [set_buf buf len error can_resize]; try done.
    + by exists hole, junk.
    + intros Hf. specialize (Hcap Hf). unfold cap in *. cbn [set_buf buf]. rewrite Hbuf in Hcap.
      rewrite !length_app in *. cbn [length] in *. done.
Qed.

(** ** Flushing *)

Lemma set_child_None c : child c = None -> set_child None c = c.
Proof. destruct c. cbn. by intros ->. Qed.

Lemma flush_end_eq w b a ch ca cc x hole z n :
  base w = Some b -> cbbs w !! a = Some ca -> cbbs w !! ch = Some cc -> a <> ch ->
  buf b = x ++ hole ++ z -> offset cc = Z.of_nat (length x) ->
  pending_len_len cc = Z.of_nat (length hole) ->
  let b' := set_buf (x ++ (Some <$> be (length hole) n) ++ z) b in
  flush_end a ch n w
  = if n / 2 ^ (8 * Z.of_nat (length hole)) =? 0
    then Done tt (mk_world (Some b') (<[a := set_child None ca]> (<[ch := set_has_base false cc]> (cbbs w))))
    else fail_base (with_base b' w).
Proof.
  intros Hb Ha Hch Hne Hbuf Ho Hp b'. unfold flush_end. rewrite (deref_bind _ _ cc) by done.
  rewrite Hp, Ho, Nat2Z.id. unfold mbind at 1, proc_bind at 1.
  rewrite (store_be_eq (length hole) w b x hole z) by done.
  destruct (n / 2 ^ (8 * Z.of_nat (length hole)) =? 0); cbn [negb]; [|done].
  rewrite (deref_bind _ _ cc) by done. rewrite set_cbb_bind.
  rewrite (deref_bind _ _ ca) by (cbn; by rewrite lookup_insert_ne). done.
Qed.

(** Why a flush fails: a length does not fit its prefix, or there is no room. *)
Definition no_collapse (pre bytes : list Z) (fs : list frame) : Prop :=
  match collapse bytes fs with
  | None => True
  | Some c => hopeless (Z.of_nat (length pre + length c))
  end.

Definition flagged (w : world) : Prop := exists b, base w = Some b /\ error b = true.

Lemma changed_refl A w : changed A w w.
Proof. split; auto. Qed.

Lemma changed_trans A w1 w2 w3 : changed A w1 w2 -> changed A w2 w3 -> changed A w1 w3.
Proof.
  intros [H1 H1'] [H2 H2']. split; [|auto]. intros x Hx. by rewrite H2, H1.
Qed.

Lemma changed_sub A A' w w' : changed A w w' -> A ⊆ A' -> changed A' w w'.
Proof. intros [H1 H2] Hs. split; [|done]. intros x Hx. apply H1. intros Hin. by apply Hx, Hs. Qed.

Lemma changed_insert A w m b0 b a c :
  changed A w (mk_world b0 m) -> a ∈ A -> is_Some (cbbs w !! a) -> changed A w (mk_world b (<[a := c]> m)).
Proof.
  intros [H1 H2] Ha Hs. split; cbn [cbbs] in *.
  - intros x Hx. rewrite lookup_insert_ne by (intros ->; done). by apply H1.
  - intros x Hx. destruct (decide (x = a)) as [->|Hn]; [rewrite lookup_insert_eq; by eexists|].
    rewrite lookup_insert_ne by done. by apply H2.
Qed.

Lemma prefix_asn1 n : 0 <= n -> n <= 0xfffffffe -> length_prefix Asn1 n = Some (der_length n).
Proof. intros. cbn. by rewrite (proj2 (Z.leb_le _ _)). Qed.

(** The end of a flush, when the child's contents [c] are complete: its prefix
    is written and the child detached. *)
Definition closes (k : kind) (p c : list Z) (a ch : Z) (ca : cbb) (w : world) (r : result world unit) : Prop :=
  triple r
    (fun _ w' => exists b' q cc', length_prefix k (Z.of_nat (length c)) = Some q /\ good b' (p ++ q ++ c) /\
       w' = mk_world (Some b') (<[a := set_child None ca]> (<[ch := cc']> (cbbs w))))
    (fun w' => failed w w' /\ match length_prefix k (Z.of_nat (length c)) with
                              | None => True
                              | Some q => hopeless (Z.of_nat (length (p ++ q ++ c)))
                              end).

Lemma close_fixed m w b p c a ch ca cc :
  base w = Some b -> good b ((p ++ replicate m 0) ++ c) -> cbbs w !! a = Some ca -> cbbs w !! ch = Some cc -> a <> ch ->
  offset cc = Z.of_nat (length p) -> pending_len_len cc = Z.of_nat m ->
  closes (Fixed m) p c a ch ca w (flush_end a ch (Z.of_nat (length c)) w).
Proof.
  intros Hb Hg Ha Hcc Hne Ho Hp. pose proof Hg as [[junk Hbuf] Hlen Hmax _ _ Hcap]. unfold closes.
  set (hole := replicate m 0) in *. assert (length hole = m) as Hlh by apply length_replicate.
  rewrite (flush_end_eq w b a ch ca cc (Some <$> p) (Some <$> hole) ((Some <$> c) ++ junk));
    [|done..|by rewrite Hbuf, !fmap_app, <- !app_assoc|by rewrite length_fmap|by rewrite length_fmap, Hlh].
  rewrite length_fmap, Hlh. set (n := Z.of_nat (length c)). cbn [length_prefix].
  destruct (n / 2 ^ (8 * Z.of_nat m) =? 0) eqn:E.
  - apply Z.eqb_eq, Z.div_small_iff in E; [|lia]. rewrite (proj2 (Z.ltb_lt n _)) by lia.
    eexists _, (be m n), _. split; [done|]. split; [|reflexivity].
    assert (length (be m n) = m) as Hbe by apply length_be.
    destruct Hg as [_ _ _ Herr Hres _]. constructor; cbn [set_buf buf len error can_resize]; [| |done..|].
    + exists junk. by rewrite !fmap_app, <- !app_assoc.
    + rewrite Hlen, !length_app, Hbe, Hlh. lia.
    + intros Hf. specialize (Hcap Hf). unfold cap in *. cbn [set_buf buf]. rewrite Hbuf in Hcap.
      rewrite !length_app, !length_fmap, !length_app, ?Hbe, ?Hlh in *. lia.
  - eapply fail_base_spec; [done|]. intros w2 [Hc2 Hb2]. split; [by split|].
    rewrite (proj2 (Z.ltb_ge n _)); [done|]. apply Z.eqb_neq in E.
    destruct (decide (2 ^ (8 * Z.of_nat m) <= n)); [done|]. rewrite Z.div_small in E by lia. done.
Qed.

Lemma close_asn1 w b p c a ch ca cc :
  base w = Some b -> good b (p ++ [0] ++ c) -> cbbs w !! a = Some ca -> cbbs w !! ch = Some cc -> a <> ch ->
  offset cc = Z.of_nat (length p) -> pending_len_len cc = 1 ->
  closes Asn1 p c a ch ca w
    ((n ← flush_asn1 realloc_ok ch (Z.of_nat (length p) + 1) (Z.of_nat (length c)); flush_end a ch n) w).
Proof.
  intros Hb Hg Ha Hcc Hne Ho Hp. set (n := Z.of_nat (length c)). unfold closes. fold n. eapply triple_bind.
  { eapply triple_weaken; [by apply (flush_asn1_spec w b ch cc p c)|intros n' w2 H; exact H|].
    cbn beta. fold n. intros w2 [Hf Hwhy]. split; [done|]. cbn [length_prefix].
    destruct (n <=? 0xfffffffe) eqn:E; [|done]. destruct Hwhy as [Hbig|Hh]; [lia|].
    eapply hopeless_mono; [exact Hh|]. rewrite !length_app. lia. }
  cbn beta. fold n. intros n' w2 (b2 & first & kk & Hmx & -> & Hgap & Hn' & Hder).
  destruct Hgap as [(hole2 & junk2 & Hbuf2 & Hh2) Hlen2 Hmax2 Herr2 Hres2 Hcap2].
  rewrite (flush_end_eq _ b2 a ch ca (set_pending (Z.of_nat (length p) + 1) (Z.of_nat kk) cc)
             ((Some <$> p) ++ [Some first]) hole2 ((Some <$> c) ++ junk2) n');
    [|done|cbn [cbbs]; by rewrite lookup_insert_ne by done|cbn [cbbs]; by rewrite lookup_insert_eq
     |done|by rewrite Hbuf2, <- app_assoc
     |cbn [set_pending offset]; rewrite length_app, length_fmap; cbn [length]; lia
     |cbn [set_pending pending_len_len]; by rewrite Hh2].
  rewrite Hh2, (proj2 (Z.eqb_eq (n' / _) 0)) by (apply Z.div_small; lia).
  rewrite prefix_asn1 by lia. eexists _, (der_length n), _. split; [done|].
  split; [|cbn [cbbs]; by rewrite insert_insert_eq].
  constructor; cbn [set_buf buf len error can_resize]; [| |done..|].
  - exists junk2. rewrite Hder, !fmap_app, <- !app_assoc. cbn [app fmap list_fmap]. done.
  - rewrite Hlen2, Hder, !length_app. cbn [length]. rewrite length_be. f_equal. lia.
  - intros Hf. specialize (Hcap2 Hf). unfold cap in *. cbn [set_buf buf]. rewrite Hbuf2 in Hcap2.
    rewrite !length_app in *. cbn [length] in *. rewrite !length_app, !length_fmap, length_be in *. lia.
Qed.

Lemma close_child k w b p c a ch ca cc :
  base w = Some b -> good b ((p ++ replicate (plen k) 0) ++ c) -> cbbs w !! a = Some ca -> cbbs w !! ch = Some cc ->
  a <> ch -> offset cc = Z.of_nat (length p) -> pending_len_len cc = Z.of_nat (plen k) ->
  closes k p c a ch ca w
    ((n ← (if is_asn1 k then flush_asn1 realloc_ok ch (offset cc + Z.of_nat (plen k)) (Z.of_nat (length c))
           else mret (Z.of_nat (length c))); flush_end a ch n) w).
Proof.
  intros Hb Hg Ha Hcc Hne Ho Hp. destruct k as [m|]; cbn [is_asn1 plen] in *.
  - by apply (close_fixed m w b p c a ch ca cc).
  - rewrite Ho. apply (close_asn1 w b p c a ch ca cc); try done. by rewrite <- app_assoc in Hg.
Qed.

(** A prefix that fits is at least as long as the room for it. *)
Lemma plen_prefix k n q : length_prefix k n = Some q -> (plen k <= length q)%nat.
Proof.
  destruct k; cbn [length_prefix plen]; case_match; intros [= <-].
  - by rewrite length_be.
  - unfold der_length. case_match; cbn [length]; lia.
Qed.

(** What a flush does to the buffer and the chain. *)
Lemma flush_chain_spec fs fuel w pre a bytes ca :
  chained w pre a bytes fs -> (length fs < fuel)%nat -> cbbs w !! a = Some ca ->
  triple (flush_chain realloc_ok fuel a w)
    (fun _ w' => exists c b', collapse bytes fs = Some c /\ base w' = Some b' /\ good b' (pre ++ c) /\
       changed (a :: addrs fs) w w' /\ cbbs w' !! a = Some (set_child None ca))
    (fun w' => flagged w' /\ changed (a :: addrs fs) w w' /\ no_collapse pre bytes fs).
Proof.
  revert fuel w pre a bytes ca. induction fs as [|[k ch fb] fs IH]; intros fuel w pre a bytes ca (b & Hb & Hg & Hchain & Hnd & Hok) Hfuel Ha;
    (destruct fuel as [|fuel]; [cbn in Hfuel; lia|]); cbn [flush_chain]; unfold flush_with;
    rewrite (deref_bind _ _ ca) by done.
  - destruct Hchain as (c & Hc & Hbase & Hchild). rewrite Ha in Hc. injection Hc as <-.
    rewrite Hbase. cbn [negb].
    rewrite (the_base_bind _ _ ca b), (g_error _ _ Hg), Hchild by done. exists bytes, b. cbn [flat] in Hg. rewrite app_nil_r in Hg.
    split_and!; [done|done|done|apply changed_refl|by rewrite set_child_None].
  - cbn [f_kind f_addr f_bytes] in *.
    destruct Hchain as (c & Hc & Hbase & Hchild & (cc & Hcc & Ho & Hp & His) & Hchain).
    rewrite Ha in Hc. injection Hc as <-. rewrite Hbase. cbn [negb].
    rewrite (the_base_bind _ _ ca b), (g_error _ _ Hg), Hchild by done. cbn [negb].
    apply Forall_cons in Hok as [Hk Hok]. apply NoDup_cons in Hnd as [Hna Hnd].
    rewrite (deref_bind _ _ cc) by done. rewrite Hp, (proj2 (Z.eqb_neq (Z.of_nat _) 0)) by lia.
    cbn [f_kind f_addr f_bytes addrs fmap list_fmap] in *.
    set (f := mk_frame k ch fb) in *.
    set (hole := replicate (plen k) 0). set (p := pre ++ bytes).
    assert (Z.of_nat (length (p ++ hole)) = offset cc + Z.of_nat (plen k)) as Hpos.
    { unfold p, hole. rewrite !length_app, length_replicate. lia. }
    assert (pre ++ flat bytes (f :: fs) = (p ++ hole) ++ flat fb fs) as Eflat.
    { cbn [flat]. unfold p, hole. by rewrite <- !app_assoc. }
    rewrite Eflat in Hg. pose proof (g_len _ _ Hg) as Hlen0. pose proof (g_max _ _ Hg) as Hmax0.
    rewrite length_app in Hlen0.
    assert (a ∉ addrs (f :: fs)) as Hna' by done.
    assert (a <> ch) as Hne by (intros ->; apply Hna; by left).
    assert (forall w' : world, changed (ch :: addrs fs) w w' -> cbbs w' !! a = Some ca) as Hkeep.
    { intros w' [H _]. by rewrite H. }
    assert (forall w', changed (ch :: addrs fs) w w' -> changed (a :: addrs (f :: fs)) w w') as Hmore.
    { intros w' H. eapply changed_sub; [done|]. intros x Hx. by right. }
    rewrite (wrapu_id 64 (offset cc + _)) by (unfold in_u; lia).
    eapply triple_status.
    { apply (IH fuel w (p ++ hole) ch fb cc); [|cbn in Hfuel; lia|done].
      exists b. split_and!; [done|done| |done|done].
      replace (Z.of_nat (length (p ++ hole))) with (Z.of_nat (length pre) + Z.of_nat (length bytes) + Z.of_nat (plen k)) by lia.
      exact Hchain. }
    + intros w1 (c' & b1 & Hcol & Hb1 & Hg1 & Hch1 & Hcc1).
      rewrite (deref_bind _ _ (set_child None cc)) by done.
      rewrite (the_base_bind _ _ ca b1) by (done || by apply Hkeep).
      cbn [offset set_child pending_is_asn1 orb negb].
      pose proof (g_len _ _ Hg1) as Hlen1. rewrite length_app in Hlen1.
      rewrite (proj2 (Z.ltb_ge _ (offset cc))), (proj2 (Z.ltb_ge (len b1) _)) by lia. cbn [orb].
      replace (len b1 - (offset cc + Z.of_nat (plen k))) with (Z.of_nat (length c')) by lia.
      rewrite His. assert (collapse bytes (f :: fs) = p0 ← length_prefix k (Z.of_nat (length c')); Some (bytes ++ p0 ++ c')) as Ecol.
      { cbn [collapse f f_bytes f_kind]. by rewrite Hcol. }
      unfold no_collapse. rewrite Ecol. eapply triple_weaken;
        [apply (close_child k w1 b1 p c' a ch ca (set_child None cc)); try done; [by apply Hkeep|
         cbn [set_child offset]; unfold p; rewrite length_app; lia]| |].
      * intros _ w2 (b' & q & cc' & -> & Hg' & ->). exists (bytes ++ q ++ c'), b'. cbn [mbind option_bind].
        split; [done|]. split; [done|]. split; [unfold p in Hg'; by rewrite <- !app_assoc in *|]. split.
        -- do 2 (apply (changed_insert _ _ _ None); [|first [by left|right; by left]|by rewrite ?Ha, ?Hcc]).
           exact (Hmore _ Hch1).
        -- cbn [cbbs]. by rewrite lookup_insert_eq.
      * intros w2 [[Hc2 Hb2] Hno]. split; [done|]. split; [apply Hmore; split; rewrite Hc2; apply Hch1|].
        destruct (length_prefix k _) as [q|]; cbn [mbind option_bind]; [|done].
        eapply hopeless_mono; [exact Hno|]. unfold p. rewrite !length_app. lia.
    + intros w1 (Hfl & Hch1 & Hno).
      destruct (proj2 Hch1 ch) as [cc1 Hcc1]; [by rewrite Hcc|].
      destruct Hfl as (b1 & Hb1 & He1).
      rewrite (deref_bind _ _ cc1) by done.
      rewrite (the_base_bind _ _ ca b1) by (done || by apply Hkeep). cbn [negb orb].
      eapply fail_base_spec; [done|]. intros w2 [Hc2 Hb2].
      split; [done|]. split; [apply Hmore; split; rewrite Hc2; apply Hch1|].
      unfold no_collapse in *. cbn [collapse]. cbn [f f_bytes f_kind].
      destruct (collapse fb fs) as [c'|]; cbn [mbind option_bind]; [|done].
      destruct (length_prefix k (Z.of_nat (length c'))) as [q|] eqn:Eq; cbn [mbind option_bind]; [|done].
      eapply hopeless_mono; [exact Hno|]. unfold p, hole.
      pose proof (plen_prefix _ _ _ Eq).
      rewrite !length_app, length_replicate. lia.
Qed.
End Spec.
