(* ===== verification/CbbOps.v ===== *)
(** * BoringSSL: the operations of the builder

    What each operation appends: bytes, prefixes, tags and integers. *)
From S2P Require Import Prelude CBuf CMem CProc Cbs CbsSpec Cbb CbbSpec.

(** ** BoringSSL: the operations of the builder

    What each function of cbb.c adds to the contents of a [CBB] without open
    children, and how opening and flushing a child brackets what is written
    to it. *)

#[local] Ltac Zify.zify_post_hook ::= Z.to_euclidean_division_equations.

Section Ops.
Context (realloc_ok : Z -> bool) (resizable : bool) (limit : Z).

#[local] Abbreviation good := (good resizable limit).
#[local] Abbreviation room := (room resizable limit).
#[local] Abbreviation chained := (chained resizable limit).
#[local] Abbreviation hopeless := (hopeless realloc_ok resizable limit).

(** ** Flushing a chain *)

Lemma chain_dom m pos a bytes fs : chain m pos a bytes fs -> Forall (fun x => is_Some (m !! x)) (a :: addrs fs).
Proof.
  revert pos a bytes. induction fs as [|f fs IH]; intros pos a bytes (c & Hc & _ & H).
  - constructor; [by rewrite Hc|done].
  - destruct H as (_ & _ & H). constructor; [by rewrite Hc|]. exact (IH _ _ _ H).
Qed.

Lemma chain_size m pos a bytes fs :
  chain m pos a bytes fs -> NoDup (a :: addrs fs) -> (length fs < size m)%nat.
Proof.
  intros Hc Hnd. apply chain_dom in Hc.
  assert (list_to_set (a :: addrs fs) ⊆ dom m) as Hs.
  { intros x Hx. rewrite elem_of_list_to_set in Hx. rewrite Forall_forall in Hc. by apply elem_of_dom, Hc. }
  apply subseteq_size in Hs. rewrite size_list_to_set, size_dom in Hs by done.
  cbn [length] in Hs. unfold addrs in Hs. rewrite length_fmap in Hs. lia.
Qed.

Lemma chain_end m pos a c : m !! a = Some c -> has_base c = true -> child c = None -> forall bytes, chain m pos a bytes [].
Proof. intros. by exists c. Qed.

Lemma CBB_flush_spec w pre a bytes fs ca :
  chained w pre a bytes fs -> cbbs w !! a = Some ca ->
  triple (CBB_flush realloc_ok a w)
    (fun _ w' => exists c, collapse bytes fs = Some c /\ chained w' pre a c [] /\
       changed (a :: addrs fs) w w' /\ cbbs w' !! a = Some (set_child None ca))
    (fun w' => flagged w' /\ no_collapse realloc_ok resizable limit pre bytes fs).
Proof.
  intros Hch Ha. pose proof Hch as (b & Hb & _ & Hc & Hnd & _). pose proof (chain_size _ _ _ _ _ Hc Hnd).
  assert (has_base ca = true) as Hbase.
  { destruct fs; destruct Hc as (c & E & Hh & _); rewrite Ha in E; by injection E as <-. }
  unfold CBB_flush, current, mbind, proc_bind.
  eapply triple_weaken; [apply (flush_chain_spec realloc_ok resizable limit fs); [done|lia|done]| |].
  - intros _ w' (c & b' & Hcol & Hb' & Hg' & Hchg & Ha'). exists c. split_and!; [done| |done|done].
    exists b'. split_and!; [done|cbn; by rewrite app_nil_r|by eapply chain_end|cbn; apply NoDup_singleton|constructor].
  - intros w' (Hf & _ & Hn). done.
Qed.

(** ** Contents without open children *)

(** [a] is a usable [CBB] whose contents [bytes] end the buffer. *)
Definition open_at (w : world) (pre : list Z) (a : Z) (bytes : list Z) : Prop :=
  chained w pre a bytes [].

Lemma open_at_inv w pre a bytes :
  open_at w pre a bytes ->
  exists b ca, base w = Some b /\ good b (pre ++ bytes) /\ cbbs w !! a = Some ca /\
    has_base ca = true /\ child ca = None.
Proof.
  intros (b & Hb & Hg & (ca & Ha & Hh & Hc) & _). exists b, ca. cbn in Hg. by rewrite app_nil_r in Hg.
Qed.

Lemma open_at_intro w b ca pre a bytes :
  base w = Some b -> good b (pre ++ bytes) -> cbbs w !! a = Some ca -> has_base ca = true ->
  child ca = None -> open_at w pre a bytes.
Proof.
  intros. exists b. split_and!; [done|cbn; by rewrite app_nil_r|by exists ca|cbn; apply NoDup_singleton|constructor].
Qed.

(** A [CBB] without a child flushes to itself. *)
Lemma flush_open {A} w pre a bytes (k : builder A) :
  open_at w pre a bytes -> (CBB_flush realloc_ok a;; k) w = k w.
Proof.
  intros Ho. destruct (open_at_inv _ _ _ _ Ho) as (b & ca & Hb & Hg & Ha & Hh & Hc).
  unfold mbind at 1, proc_bind at 1. unfold CBB_flush, current. unfold mbind, proc_bind. cbn [flush_chain].
  unfold flush_with. rewrite (deref_bind _ _ ca), Hh by done. cbn [negb].
  by rewrite (the_base_bind _ _ ca b), (g_error _ _ _ _ Hg), Hc by done.
Qed.

(** What a step appends, and what the [CBB]s look like after it. *)
Definition appends (w : world) (pre : list Z) (a : Z) (bytes v : list Z) (w' : world) : Prop :=
  open_at w' pre a (bytes ++ v) /\ cbbs w' = cbbs w.

Definition cannot (pre bytes v : list Z) (w' : world) : Prop :=
  flagged w' /\ hopeless (Z.of_nat (length pre + length bytes + length v)).

Lemma with_base_open w b b' pre a bytes v :
  open_at w pre a bytes -> base w = Some b -> good b' ((pre ++ bytes) ++ v) ->
  appends w pre a bytes v (with_base b' w).
Proof.
  intros Ho _ Hg'. destruct (open_at_inv _ _ _ _ Ho) as (b0 & ca & _ & _ & Ha & Hh & Hc).
  split; [|done]. eapply open_at_intro; [done|by rewrite app_assoc|done..].
Qed.

Lemma failed_flagged w w' : failed w w' -> flagged w'.
Proof. by intros []. Qed.

Lemma add_bytes_spec w pre a bytes v :
  open_at w pre a bytes -> Z.of_nat (length v) < 2 ^ 64 ->
  triple (CBB_add_bytes realloc_ok a v w)
    (fun _ w' => appends w pre a bytes v w') (cannot pre bytes v).
Proof.
  intros Ho Hv. unfold CBB_add_bytes. rewrite (flush_open _ pre _ bytes) by done.
  destruct (open_at_inv _ _ _ _ Ho) as (b & ca & Hb & Hg & _).
  eapply triple_bind.
  { eapply triple_weaken; [apply (buffer_add_spec realloc_ok resizable limit w b (pre ++ bytes)); [done|done|lia]|done|].
    intros w' [Hf Hh]. split; [by eapply failed_flagged|]. rewrite length_app in Hh.
    eapply hopeless_mono; [exact Hh|lia]. }
  cbn. intros out w' (-> & b' & -> & Hr).
  eapply triple_weaken; [by eapply copy_in_spec| |done].
  intros _ w' (b'' & -> & Hg''). change (with_base b'' (with_base b' w)) with (with_base b'' w).
  by eapply with_base_open.
Qed.

Lemma add_u_spec w pre a bytes k v :
  open_at w pre a bytes -> (0 < k <= 8)%nat -> 0 <= v < 2 ^ (8 * Z.of_nat k) ->
  triple (cbb_add_u realloc_ok a v (Z.of_nat k) w)
    (fun _ w' => appends w pre a bytes (be k v) w') (cannot pre bytes (be k v)).
Proof.
  intros Ho Hk Hv. unfold cbb_add_u. rewrite (flush_open _ pre _ bytes) by done.
  destruct (open_at_inv _ _ _ _ Ho) as (b & ca & Hb & Hg & _).
  eapply triple_weaken; [apply (buffer_add_u_spec realloc_ok resizable limit w b (pre ++ bytes)); [done|done|lia|lia]| |].
  - intros _ w' (_ & b' & -> & Hg'). by eapply with_base_open.
  - intros w' [Hf [Hh|Hbig]]; [|lia]. split; [by eapply failed_flagged|].
    rewrite length_app in Hh. rewrite length_be. eapply hopeless_mono; [exact Hh|lia].
Qed.

Lemma be_1 v : 0 <= v < 256 -> be 1 v = [v].
Proof. intros. unfold be. cbn. f_equal. lia. Qed.

Lemma add_u8_spec w pre a bytes v :
  open_at w pre a bytes -> 0 <= v < 256 ->
  triple (CBB_add_u8 realloc_ok a v w)
    (fun _ w' => appends w pre a bytes [v] w') (cannot pre bytes [v]).
Proof.
  intros Ho Hv. pose proof (add_u_spec w pre a bytes 1 v Ho) as H. rewrite be_1 in H by done.
  apply H; [lia|exact Hv].
Qed.

(** Steps in sequence. *)
Lemma appends_bind {A} w pre a bytes u v (c : builder unit) (k : builder A) (P : A -> world -> Prop) :
  triple (c w) (fun _ w' => appends w pre a bytes u w') (cannot pre bytes u) ->
  (forall w', appends w pre a bytes u w' -> triple (k w') P (cannot pre (bytes ++ u) v)) ->
  triple ((c;; k) w) P (cannot pre bytes (u ++ v)).
Proof.
  intros Hc Hk. eapply triple_bind.
  - eapply triple_weaken; [exact Hc|intros a' s H; exact H|]. intros w' [Hf Hh]. split; [done|].
    eapply hopeless_mono; [exact Hh|]. rewrite length_app. lia.
  - intros x w' Hw'. eapply triple_weaken; [apply Hk, Hw'|intros y s H; exact H|]. intros w'' [Hf Hh]. split; [done|].
    eapply hopeless_mono; [exact Hh|]. rewrite !length_app. lia.
Qed.

Lemma appends_trans w w' w'' pre a bytes u v :
  appends w pre a bytes u w' -> appends w' pre a (bytes ++ u) v w'' -> appends w pre a bytes (u ++ v) w''.
Proof. intros [_ E1] [H2 E2]. split; [by rewrite app_assoc|congruence]. Qed.

Lemma appends_nil w pre a bytes : open_at w pre a bytes -> appends w pre a bytes [] w.
Proof. intros. split; [by rewrite app_nil_r|done]. Qed.

(** Two steps that append. *)
Lemma appends_seq w pre a bytes u v (c : builder unit) (k : builder unit) :
  triple (c w) (fun _ w' => appends w pre a bytes u w') (cannot pre bytes u) ->
  (forall w', open_at w' pre a (bytes ++ u) ->
     triple (k w') (fun _ w'' => appends w' pre a (bytes ++ u) v w'') (cannot pre (bytes ++ u) v)) ->
  triple ((c;; k) w) (fun _ w' => appends w pre a bytes (u ++ v) w') (cannot pre bytes (u ++ v)).
Proof.
  intros Hc Hk. eapply appends_bind; [exact Hc|]. intros w' Hw'.
  eapply triple_weaken; [apply Hk, Hw'| |done]. intros x w'' H. by eapply appends_trans.
Qed.

(** ** Children *)

Definition hole (k : kind) : list Z := replicate (plen k) 0.

(** [a] has the open child [ch], still empty; nothing else changed. *)
Definition opened (w : world) (pre : list Z) (a : Z) (bytes : list Z) (k : kind) (ch : Z) (w' : world) : Prop :=
  exists ca cc, cbbs w !! a = Some ca /\ child ca = None /\
    cbbs w' = <[a := set_child (Some ch) ca]> (<[ch := cc]> (cbbs w)) /\
    chained w' pre a bytes [mk_frame k ch []].

Lemma open_child_spec w b pre a bytes k ch :
  base w = Some b -> good b (pre ++ bytes ++ hole k) ->
  (exists ca, cbbs w !! a = Some ca /\ has_base ca = true /\ child ca = None) ->
  ch <> a -> (0 < plen k <= 8)%nat ->
  triple (open_child a ch (Z.of_nat (length pre + length bytes)) (Z.of_nat (plen k)) (is_asn1 k) w)
    (fun _ w' => opened w pre a bytes k ch w') (fun _ => False).
Proof.
  intros Hb Hg (ca & Ha & Hh & Hc) Hne Hk. unfold open_child. rewrite set_cbb_bind.
  rewrite (deref_bind _ _ ca) by (cbn; by rewrite lookup_insert_ne).
  unfold set_cbb, current, mbind, proc_bind, become. cbn [triple cbbs base].
  eexists ca, _. split; [done|]. split; [done|]. split; [reflexivity|].
  exists b. split; [done|]. split.
  { cbn [flat f_kind f_bytes]. by rewrite app_nil_r. }
  split; [|split; [|by constructor]].
  - eexists. cbn [cbbs f_addr f_kind f_bytes]. rewrite lookup_insert_eq. split; [done|]. split; [done|].
    split; [done|]. split.
    + eexists. rewrite lookup_insert_ne, lookup_insert_eq by done. split; [done|].
      cbn [offset pending_len_len pending_is_asn1]. split_and!; (done || lia).
    + eexists. rewrite lookup_insert_ne, lookup_insert_eq by done. split_and!; done.
  - cbn [addrs fmap list_fmap f_addr]. apply NoDup_cons. split; [|apply NoDup_singleton].
    rewrite list_elem_of_singleton. congruence.
Qed.

(** The child of an opened [CBB] can be written to. *)
Lemma opened_child w pre a bytes k ch w' :
  opened w pre a bytes k ch w' -> open_at w' (pre ++ bytes ++ hole k) ch [].
Proof.
  intros (ca & cc & _ & _ & _ & b & Hb & Hg & Hch & Hnd & Hok).
  destruct Hch as (c & _ & _ & _ & _ & Hch). cbn [f_kind f_addr f_bytes] in *.
  exists b. split; [done|]. split.
  { cbn [flat f_kind f_bytes] in *. rewrite !app_nil_r in *. unfold hole. exact Hg. }
  split; [|split; [apply NoDup_singleton|constructor]].
  unfold hole. rewrite !length_app, length_replicate, !Nat2Z.inj_add, !Z.add_assoc. exact Hch.
Qed.

(** After writing [s] to the child, the chain holds it. *)
Lemma opened_written w pre a bytes k ch w1 s w2 :
  opened w pre a bytes k ch w1 -> appends w1 (pre ++ bytes ++ hole k) ch [] s w2 ->
  chained w2 pre a bytes [mk_frame k ch s].
Proof.
  intros (ca & cc & _ & _ & _ & b & Hb & Hg & Hch & Hnd & Hok) [Ho Hc].
  destruct (open_at_inv _ _ _ _ Ho) as (b2 & ca2 & Hb2 & Hg2 & _).
  exists b2. split; [done|]. split.
  { cbn [flat f_kind f_bytes] in *. rewrite app_nil_r. unfold hole in Hg2. by rewrite <- !app_assoc in Hg2. }
  apply Forall_cons in Hok as [Hk _].
  split; [rewrite Hc; exact Hch|]. split; [exact Hnd|]. by constructor.
Qed.

(** Why a child with the contents [s] behind [hd] cannot be had. *)
Definition no_bracket (pre bytes hd : list Z) (k : kind) (s : list Z) (w' : world) : Prop :=
  flagged w' /\ match length_prefix k (Z.of_nat (length s)) with
                | None => True
                | Some p => hopeless (Z.of_nat (length pre + length bytes + length (hd ++ p ++ s)))
                end.

Lemma cannot_bracket pre bytes hd k s w' n :
  flagged w' -> hopeless n ->
  (forall p, (plen k <= length p)%nat -> n <= Z.of_nat (length pre + length bytes + length (hd ++ p ++ s))) ->
  no_bracket pre bytes hd k s w'.
Proof.
  intros Hf Hh Hle. split; [done|]. destruct (length_prefix _ _) as [p|] eqn:Ep; [|done].
  eapply hopeless_mono; [exact Hh|]. by apply Hle, (plen_prefix realloc_ok k (Z.of_nat (length s))).
Qed.

(** Flushing [a] once [s] has been written to its child. *)
Lemma flush_child_spec w pre a bytes hd k s ch ca0 w1 w2 :
  cbbs w !! a = Some ca0 -> child ca0 = None ->
  opened w pre a (bytes ++ hd) k ch w1 -> appends w1 (pre ++ (bytes ++ hd) ++ hole k) ch [] s w2 ->
  triple (CBB_flush realloc_ok a w2)
    (fun _ w' => exists p, length_prefix k (Z.of_nat (length s)) = Some p /\
       open_at w' pre a (bytes ++ hd ++ p ++ s) /\ changed [a; ch] w w' /\ cbbs w' !! a = Some ca0)
    (no_bracket pre bytes hd k s).
Proof.
  intros Ha0 Hc0 Hw1 Hw2. pose proof (opened_written _ _ _ _ _ _ _ _ _ Hw1 Hw2) as Hchain.
  destruct Hw1 as (ca & cc & Ha & Hcn & Hcbbs & _). destruct Hw2 as [_ Hcbbs2].
  rewrite Ha0 in Ha. injection Ha as <-.
  assert (cbbs w2 !! a = Some (set_child (Some ch) ca0)) as Ha2
    by (rewrite Hcbbs2, Hcbbs; by rewrite lookup_insert_eq).
  eapply triple_weaken; [apply (CBB_flush_spec _ _ _ _ _ _ Hchain Ha2)| |].
  - intros x3 w3 (c & Hcol & Ho3 & [Hchg1 Hchg2] & Ha3). cbn [collapse f_kind f_bytes mbind option_bind] in Hcol.
    destruct (length_prefix k (Z.of_nat (length s))) as [p|]; [|done]. injection Hcol as <-.
    exists p. split; [done|]. split; [by rewrite <- !app_assoc in Ho3|]. split; [split|].
    + intros x Hx. rewrite Hchg1 by (intros Hin; apply Hx; set_solver). rewrite Hcbbs2, Hcbbs.
      apply not_elem_of_cons in Hx as [Hx1 [Hx2 _]%not_elem_of_cons]. by rewrite !lookup_insert_ne by done.
    + intros x Hx. apply Hchg2. rewrite Hcbbs2, Hcbbs, lookup_insert_is_Some, lookup_insert_is_Some.
      destruct (decide (a = x)); [by left|right]. split; [done|]. destruct (decide (ch = x)); [by left|right]. done.
    + rewrite Ha3. f_equal. destruct ca0. cbn in *. by subst.
  - intros w3 [Hf Hno]. split; [done|]. unfold no_collapse in Hno.
    cbn [collapse f_kind f_bytes mbind option_bind] in Hno.
    destruct (length_prefix k (Z.of_nat (length s))) as [p|]; [|done].
    eapply hopeless_mono; [exact Hno|]. rewrite !length_app. lia.
Qed.

(** Open a child, write [s] to it, flush. *)
Lemma child_spec w pre a bytes hd k s ch ca0 (opening body : builder unit) :
  cbbs w !! a = Some ca0 -> child ca0 = None ->
  triple (opening w) (fun _ w' => opened w pre a (bytes ++ hd) k ch w') (cannot pre bytes (hd ++ hole k)) ->
  (forall w1, open_at w1 (pre ++ (bytes ++ hd) ++ hole k) ch [] ->
     triple (body w1) (fun _ w2 => appends w1 (pre ++ (bytes ++ hd) ++ hole k) ch [] s w2)
                      (cannot (pre ++ (bytes ++ hd) ++ hole k) [] s)) ->
  triple ((opening;; body;; CBB_flush realloc_ok a) w)
    (fun _ w' => exists p, length_prefix k (Z.of_nat (length s)) = Some p /\
       open_at w' pre a (bytes ++ hd ++ p ++ s) /\ changed [a; ch] w w' /\ cbbs w' !! a = Some ca0)
    (no_bracket pre bytes hd k s).
Proof.
  intros Ha0 Hc0 Hopen Hbody. eapply triple_bind.
  { eapply triple_weaken; [exact Hopen|intros x s' H; exact H|]. intros w' [Hf Hh].
    eapply cannot_bracket; [done|exact Hh|]. intros p Hp. unfold hole. rewrite !length_app, length_replicate. lia. }
  intros x1 w1 Hw1. eapply triple_bind.
  { eapply triple_weaken; [exact (Hbody _ (opened_child _ _ _ _ _ _ _ Hw1))|intros x s' H; exact H|]. intros w' [Hf Hh].
    eapply cannot_bracket; [done|exact Hh|]. intros p Hp. unfold hole.
    rewrite !length_app, length_replicate. cbn [length]. lia. }
  intros x2 w2 Hw2. by apply (flush_child_spec w pre a bytes hd k s ch ca0 w1 w2).
Qed.

(** A function with a local child that is closed at its end. *)
Lemma local_child_spec {A} w pre a bytes (f : Z -> builder A) (P : A -> list Z -> Prop) (B : world -> Prop) :
  open_at w pre a bytes ->
  (forall ch ca0, cbbs w !! ch = None -> cbbs w !! a = Some ca0 -> child ca0 = None ->
     triple (f ch w) (fun x w' => exists v, P x v /\ open_at w' pre a (bytes ++ v) /\ changed [a; ch] w w' /\
                                           cbbs w' !! a = Some ca0) B) ->
  (forall w' m, B w' -> B (mk_world (base w') m)) ->
  triple (with_local f w) (fun x w' => exists v, P x v /\ appends w pre a bytes v w') B.
Proof.
  intros Ho Hf HB. unfold with_local. set (ch := fresh (dom (cbbs w))).
  assert (cbbs w !! ch = None) as Hch by (apply not_elem_of_dom, is_fresh).
  destruct (open_at_inv _ _ _ _ Ho) as (b0 & ca0 & Hb0 & _ & Ha0 & Hh0 & Hc0).
  assert (ch <> a) as Hne by congruence.
  specialize (Hf ch ca0 Hch Ha0 Hc0). unfold triple in Hf |- *. destruct (f ch w) as [x w'|w'|]; [|by apply HB|done].
  destruct Hf as (v & Hv & Ho' & [Hchg1 Hchg2] & Ha'). exists v. split; [done|]. split.
  - destruct Ho' as (b & Hb & Hg & (c & Hc & Hrest) & Hnd & Hok). exists b. split_and!; try done.
    exists c. cbn [cbbs]. by rewrite lookup_delete_ne by congruence.
  - cbn [cbbs]. apply map_eq. intros y. destruct (decide (y = ch)) as [->|Hx].
    + by rewrite lookup_delete_eq, Hch.
    + rewrite lookup_delete_ne by done. destruct (decide (y = a)) as [->|Hxa]; [congruence|].
      apply Hchg1. rewrite !not_elem_of_cons; split_and!; [done|done|apply not_elem_of_nil].
Qed.

(** The same with a local child. *)
Lemma bracket_spec w pre a bytes hd k s (opening body : Z -> builder unit) :
  open_at w pre a bytes ->
  (forall ch, cbbs w !! ch = None ->
     triple (opening ch w) (fun _ w' => opened w pre a (bytes ++ hd) k ch w') (cannot pre bytes (hd ++ hole k))) ->
  (forall ch w1, open_at w1 (pre ++ (bytes ++ hd) ++ hole k) ch [] ->
     triple (body ch w1) (fun _ w2 => appends w1 (pre ++ (bytes ++ hd) ++ hole k) ch [] s w2)
                         (cannot (pre ++ (bytes ++ hd) ++ hole k) [] s)) ->
  triple (with_local (fun ch => opening ch;; body ch;; CBB_flush realloc_ok a) w)
    (fun _ w' => exists p, length_prefix k (Z.of_nat (length s)) = Some p /\
       appends w pre a bytes (hd ++ p ++ s) w')
    (no_bracket pre bytes hd k s).
Proof.
  intros Ho Hopen Hbody. eapply triple_weaken;
    [apply (local_child_spec w pre a bytes _ (fun _ v => exists p, length_prefix k (Z.of_nat (length s)) = Some p /\ v = hd ++ p ++ s)
              (no_bracket pre bytes hd k s) Ho)| |done].
  - intros ch ca0 Hch Ha0 Hc0.
    eapply triple_weaken; [apply (child_spec w pre a bytes hd k s ch ca0 (opening ch) (body ch) Ha0 Hc0 (Hopen ch Hch) (Hbody ch))| |done].
    intros x w' (p & Hp & H). exists (hd ++ p ++ s). split; [by exists p|]. exact H.
  - done.
  - intros x w' (v & (p & Hp & ->) & H). by exists p.
Qed.
End Ops.

(** ** BoringSSL: prefixes, tags and integers of the builder

    Length-prefixed and ASN.1 children write their prefix and their contents;
    tags are written as X.690 identifier octets. *)

(** ** Groups of seven bits *)

(** [n] groups of [v], from the most significant, all with the continuation bit. *)
Fixpoint high_groups (n : nat) (v : Z) : list Z :=
  match n with
  | O => []
  | S i => (128 + v / 128 ^ Z.of_nat i mod 128) :: high_groups i v
  end.

Lemma high_groups_snoc n v : 0 <= v -> high_groups (S n) v = high_groups n (v / 128) ++ [128 + v mod 128].
Proof.
  intros Hv. induction n as [|n IH]; [cbn; by rewrite Z.div_1_r|].
  change (high_groups (S (S n)) v) with ((128 + v / 128 ^ Z.of_nat (S n) mod 128) :: high_groups (S n) v).
  rewrite IH. cbn [high_groups app]. rewrite pow_128_S, Z.div_div by lia. done.
Qed.

Lemma count_groups_S f v :
  count_groups (S f) v = if v <=? 0 then 0 else 1 + count_groups f (v / 128).
Proof. cbn [count_groups]. by rewrite Z.shiftr_div_pow2 by lia. Qed.

Lemma count_groups_nonneg f v : 0 <= count_groups f v.
Proof.
  revert v. induction f as [|f IH]; intros v; [done|]. rewrite count_groups_S.
  specialize (IH (v / 128)). case_match; lia.
Qed.

Lemma groups_high f v : 0 <= v -> groups f v = high_groups (Z.to_nat (count_groups f v)) v.
Proof.
  revert v. induction f as [|f IH]; intros v Hv; cbn [groups].
  - by destruct (v =? 0).
  - rewrite count_groups_S. destruct (v =? 0) eqn:E; [by rewrite (proj2 (Z.leb_le v 0)) by lia|].
    rewrite (proj2 (Z.leb_gt v 0)) by lia. pose proof (count_groups_nonneg f (v / 128)).
    replace (Z.to_nat (1 + count_groups f (v / 128))) with (S (Z.to_nat (count_groups f (v / 128)))) by lia.
    rewrite high_groups_snoc, IH by lia. done.
Qed.

(** What the loop of add_base128_integer writes. *)
Fixpoint low_groups (n : nat) (v : Z) : list Z :=
  match n with
  | O => []
  | S i => (v / 128 ^ Z.of_nat i mod 128 + (if (0 <? i)%nat then 128 else 0)) :: low_groups i v
  end.

Lemma low_groups_high n v : 0 <= v -> low_groups (S n) v = high_groups n (v / 128) ++ [v mod 128].
Proof.
  intros Hv. induction n as [|n IH]; [cbn; rewrite Z.div_1_r; f_equal; lia|].
  change (low_groups (S (S n)) v) with ((v / 128 ^ Z.of_nat (S n) mod 128 + 128) :: low_groups (S n) v).
  rewrite IH. cbn [high_groups app]. rewrite pow_128_S, Z.div_div, Z.add_comm by lia. done.
Qed.

Lemma low_groups_base128 v :
  0 <= v < 2 ^ 64 ->
  low_groups (Z.to_nat (if count_groups 10 v =? 0 then 1 else count_groups 10 v)) v = base128 v.
Proof.
  intros Hv. unfold base128. rewrite count_groups_S. destruct (v <=? 0) eqn:E.
  - assert (v = 0) as -> by lia. done.
  - rewrite (groups_fuel 10 9) by (cbn; lia). rewrite groups_high by lia.
    pose proof (count_groups_nonneg 9 (v / 128)). set (n := count_groups 9 (v / 128)) in *.
    rewrite (proj2 (Z.eqb_neq (1 + n) 0)) by lia.
    replace (Z.to_nat (1 + n)) with (S (Z.to_nat n)) by lia. apply low_groups_high. lia.
Qed.

Section Asn1.
Context (realloc_ok : Z -> bool) (resizable : bool) (limit : Z).

#[local] Abbreviation open_at := (open_at resizable limit).
#[local] Abbreviation appends := (appends resizable limit).
#[local] Abbreviation opened := (opened resizable limit).
#[local] Abbreviation cannot := (cannot realloc_ok resizable limit).

(** [w] after the step [c], which appends [v] to [a] or finds no room. *)
Definition writes (c : builder unit) (w : world) (pre : list Z) (a : Z) (bytes v : list Z) : Prop :=
  triple (c w) (fun _ w' => appends w pre a bytes v w') (cannot pre bytes v).

Lemma writes_nil w pre a bytes : open_at w pre a bytes -> writes (mret tt) w pre a bytes [].
Proof. intros. by apply appends_nil. Qed.

Lemma writes_seq c k w pre a bytes u v :
  writes c w pre a bytes u ->
  (forall w', open_at w' pre a (bytes ++ u) -> writes k w' pre a (bytes ++ u) v) ->
  writes (c;; k) w pre a bytes (u ++ v).
Proof. intros. by eapply appends_seq. Qed.

Lemma writes_u8 w pre a bytes v :
  open_at w pre a bytes -> 0 <= v < 256 -> writes (CBB_add_u8 realloc_ok a v) w pre a bytes [v].
Proof. intros. by apply add_u8_spec. Qed.

Lemma base128_bytes_spec n w pre a bytes v :
  open_at w pre a bytes -> 0 <= v < 2 ^ 64 ->
  writes (base128_bytes realloc_ok n a v) w pre a bytes (low_groups n v).
Proof.
  intros Ho Hv. revert w bytes Ho. induction n as [|i IH]; intros w bytes Ho; cbn [base128_bytes low_groups].
  - by apply writes_nil.
  - apply (writes_seq _ _ _ _ _ _ [_]); [|intros w' Ho'; by apply IH].
    rewrite land_7F, Z.shiftr_div_pow2 by lia. rewrite Z.pow_mul_r by lia. change (2 ^ 7) with 128.
    set (g := v / 128 ^ Z.of_nat i mod 128). assert (0 <= g < 128) by (apply Z.mod_pos_bound; lia).
    assert ((if (0 <? i)%nat then Z.lor g 128 else g) = g + (if (0 <? i)%nat then 128 else 0)) as ->.
    { case_match; [|lia]. change 128 with (Z.shiftl 1 7) at 1. rewrite lor_shiftl_add by lia. done. }
    apply writes_u8; [done|]. case_match; lia.
Qed.

Lemma add_base128_spec w pre a bytes v :
  open_at w pre a bytes -> 0 <= v < 2 ^ 64 ->
  writes (add_base128_integer realloc_ok a v) w pre a bytes (base128 v).
Proof.
  intros Ho Hv. unfold add_base128_integer. rewrite <- low_groups_base128 by done.
  by apply base128_bytes_spec.
Qed.

(** The identifier octets and the rest of CBB_add_asn1. *)
Lemma tag_spec w pre a bytes t :
  open_at w pre a bytes -> asn1_tag t ->
  let tag_bits := Z.land (u8 (Z.shiftr t CBS_ASN1_TAG_SHIFT)) 0xe0 in
  let tag_number := Z.land t CBS_ASN1_TAG_NUMBER_MASK in
  writes (if 0x1f <=? tag_number then
            CBB_add_u8 realloc_ok a (Z.lor tag_bits 0x1f);; add_base128_integer realloc_ok a tag_number
          else CBB_add_u8 realloc_ok a (u8 (Z.lor tag_bits tag_number))) w pre a bytes (ident t).
Proof.
  intros Ho Ht. unfold asn1_tag in Ht. cbv zeta.
  change CBS_ASN1_TAG_NUMBER_MASK with (2 ^ 29 - 1). rewrite (land_ones_mod t 29) by lia.
  unfold CBS_ASN1_TAG_SHIFT. rewrite Z.shiftr_div_pow2 by lia. rewrite wrapu_id by (unfold in_u; lia).
  rewrite land_e0 by (unfold in_u; lia).
  assert (t / 2 ^ 24 / 32 * 32 = tag_bits t) as -> by (unfold tag_bits; lia).
  unfold ident, tag_num. assert (exists x, tag_bits t = Z.shiftl x 5 /\ 0 <= x < 8) as (x & -> & Hx).
  { exists (t / 2 ^ 29). rewrite Z.shiftl_mul_pow2 by lia. unfold tag_bits. lia. }
  assert (forall y, 0 <= y < 32 -> Z.lor (Z.shiftl x 5) y = Z.shiftl x 5 + y) as Hlor.
  { intros y Hy. rewrite Z.lor_comm, lor_shiftl_add, Z.shiftl_mul_pow2 by lia. lia. }
  assert (Z.shiftl x 5 = x * 32) as Es by (rewrite Z.shiftl_mul_pow2; lia).
  destruct (t mod 2 ^ 29 <? 31) eqn:E.
  - rewrite (proj2 (Z.leb_gt 31 _)) by lia. rewrite Hlor by lia. rewrite wrapu_id by (unfold in_u; lia).
    apply writes_u8; [done|lia].
  - rewrite (proj2 (Z.leb_le 31 _)) by lia. rewrite Hlor by lia.
    apply (writes_seq _ _ _ _ _ _ [_]); [apply writes_u8; [done|lia]|].
    intros w' Ho'. apply add_base128_spec; [done|lia].
Qed.

(** Opening a child behind [hd]. *)
Lemma open_after {A} w pre a bytes hd k ch (c : builder A) :
  open_at w pre a bytes -> (0 < plen k <= 8)%nat -> cbbs w !! ch = None ->
  triple (c w) (fun _ w' => appends w pre a bytes (hd ++ hole k) w') (cannot pre bytes (hd ++ hole k)) ->
  triple ((c;; open_child a ch (Z.of_nat (length pre + length (bytes ++ hd))) (Z.of_nat (plen k)) (is_asn1 k)) w)
    (fun _ w' => opened w pre a (bytes ++ hd) k ch w') (cannot pre bytes (hd ++ hole k)).
Proof.
  intros Ho Hk Hch Hc. eapply triple_bind; [exact Hc|]. intros x w1 [Ho1 Hc1].
  destruct (open_at_inv _ _ _ _ _ _ Ho1) as (b1 & ca & Hb1 & Hg1 & Ha & Hh & Hn).
  assert (ch <> a) as Hne by congruence.
  eapply triple_weaken; [apply (open_child_spec realloc_ok resizable limit w1 b1 pre a (bytes ++ hd) k ch)| |intros s' []].
  - exact Hb1.
  - rewrite <- !app_assoc. exact Hg1.
  - by exists ca.
  - done.
  - done.
  - intros y w2 (ca' & cc & Ha' & Hn' & Hcb & Hchain). exists ca', cc. by rewrite <- Hc1.
Qed.
End Asn1.
