(* ===== verification/DerInt.v ===== *)
(** * BoringSSL: ASN.1 integers and reading known tags

    The shortest contents octets of integers, and the readers of one tag. *)
From S2P Require Import Prelude CBuf CMem CProc Cbs CbsSpec Cbb.

(** ** ASN.1 integers

    The contents octets of INTEGER (X.690, 8.3): the shortest two's complement
    form, as a function of the value; how the builder makes it and how the
    reader recognises it. *)

#[local] Ltac Zify.zify_post_hook ::= Z.to_euclidean_division_equations.

(** ** The shortest form *)

(** [v] fits [l] bytes with a sign. *)
Definition fits (l : nat) (v : Z) : bool :=
  (- 2 ^ (8 * Z.of_nat l - 1) <=? v) && (v <? 2 ^ (8 * Z.of_nat l - 1)).

Fixpoint int_len_from (fuel l : nat) (v : Z) : nat :=
  match fuel with
  | O => l
  | S fuel' => if fits l v then l else int_len_from fuel' (S l) v
  end.

(** The number of bytes of [v]. *)
Definition int_len (v : Z) : nat := int_len_from (Z.to_nat (Z.log2 (Z.abs v))) 1 v.

Definition int_body (v : Z) : list Z := be (int_len v) (v mod 2 ^ (8 * Z.of_nat (int_len v))).

(** The value of contents octets. *)
Definition int_val (bs : list Z) : Z :=
  match bs with
  | [] => 0
  | b :: _ => if b <? 128 then be_val bs else be_val bs - 2 ^ (8 * Z.of_nat (length bs))
  end.

Lemma fits_S l v : (0 < l)%nat -> fits l v = true -> fits (S l) v = true.
Proof.
  unfold fits. intros Hl H. replace (8 * Z.of_nat (S l) - 1) with (8 + (8 * Z.of_nat l - 1)) by lia.
  rewrite Z.pow_add_r by lia. change (2 ^ 8) with 256.
  assert (0 < 2 ^ (8 * Z.of_nat l - 1)) by (apply Z.pow_pos_nonneg; lia).
  set (p := 2 ^ (8 * Z.of_nat l - 1)) in *. clearbody p. lia.
Qed.

Lemma fits_mono l l' v : (0 < l <= l')%nat -> fits l v = true -> fits l' v = true.
Proof.
  intros Hl. assert (exists d, l' = d + l)%nat as [d ->] by (exists (l' - l)%nat; lia).
  intros Hf. induction d as [|d IH]; [done|]. apply (fits_S (d + l)); [lia|]. apply IH. lia.
Qed.

Lemma fits_log2 v : fits (S (Z.to_nat (Z.log2 (Z.abs v)))) v = true.
Proof.
  unfold fits. destruct (decide (v = 0)) as [->|Hv]; [done|].
  destruct (Z.log2_spec (Z.abs v)) as [_ H]; [lia|]. pose proof (Z.log2_nonneg (Z.abs v)).
  set (k := Z.log2 (Z.abs v)) in *. clearbody k.
  assert (2 ^ Z.succ k <= 2 ^ (8 * Z.of_nat (S (Z.to_nat k)) - 1)) as Hp.
  { clear H. apply Z.pow_le_mono_r; lia. }
  set (p := 2 ^ (8 * _ - 1)) in *. set (q := 2 ^ Z.succ k) in *. clearbody p q. lia.
Qed.

Lemma int_len_from_spec fuel l v :
  (0 < l)%nat -> fits (fuel + l) v = true -> (l = 1 \/ fits (l - 1) v = false)%nat ->
  let n := int_len_from fuel l v in
  (0 < n)%nat /\ fits n v = true /\ (n = 1 \/ fits (n - 1) v = false)%nat.
Proof.
  revert l. induction fuel as [|fuel IH]; intros l Hl Hf Hm; cbn [int_len_from]; [done|].
  destruct (fits l v) eqn:E; [done|]. apply IH; [lia|by replace (fuel + S l)%nat with (S fuel + l)%nat by lia|].
  right. by replace (S l - 1)%nat with l by lia.
Qed.

Lemma int_len_spec v :
  (0 < int_len v)%nat /\ fits (int_len v) v = true /\ (int_len v = 1 \/ fits (int_len v - 1) v = false)%nat.
Proof.
  apply int_len_from_spec; [lia| |by left].
  replace (Z.to_nat (Z.log2 (Z.abs v)) + 1)%nat with (S (Z.to_nat (Z.log2 (Z.abs v)))) by lia. apply fits_log2.
Qed.

Lemma int_len_unique l v :
  (0 < l)%nat -> fits l v = true -> (l = 1 \/ fits (l - 1) v = false)%nat -> int_len v = l.
Proof.
  intros Hl Hf Hm. destruct (int_len_spec v) as (Hl' & Hf' & Hm').
  destruct (decide (int_len v = l)) as [|Hne]; [done|]. exfalso.
  destruct (decide (int_len v < l)%nat).
  - destruct Hm as [->|Hm]; [lia|]. rewrite (fits_mono (int_len v)) in Hm by (done || lia). done.
  - destruct Hm' as [Hm'|Hm']; [lia|]. rewrite (fits_mono l) in Hm' by (done || lia). done.
Qed.

(** ** Validity of contents octets *)

Lemma pow8_half n : 2 ^ (8 * Z.of_nat (S n) - 1) = 128 * 2 ^ (8 * Z.of_nat n).
Proof. replace (8 * Z.of_nat (S n) - 1) with (7 + 8 * Z.of_nat n) by lia. by rewrite Z.pow_add_r by lia. Qed.

Lemma pow8_pos n : 0 < 2 ^ (8 * Z.of_nat n).
Proof. apply Z.pow_pos_nonneg; lia. Qed.

(** The value of the contents fits their length and determines them. *)
Lemma int_val_fits bs : bytes bs -> bs <> [] -> fits (length bs) (int_val bs) = true.
Proof.
  intros Hb Hn. destruct Hb as [|b bs Hb Hbs]; [done|]. unfold in_u in Hb.
  unfold int_val, fits. cbn [length]. rewrite be_val_cons, pow8_half, pow8_S.
  pose proof (be_val_bound bs Hbs). set (p := 2 ^ (8 * Z.of_nat (length bs))) in *.
  destruct (b <? 128) eqn:E; nia.
Qed.

Lemma int_val_mod bs : bytes bs -> int_val bs mod 2 ^ (8 * Z.of_nat (length bs)) = be_val bs.
Proof.
  intros Hb. pose proof (be_val_bound bs Hb) as Hv. unfold int_val.
  destruct bs as [|b bs]; [done|]. destruct (b <? 128); [by apply Z.mod_small|].
  rewrite <- (Z.mod_small (be_val (b :: bs)) (2 ^ (8 * Z.of_nat (length (b :: bs))))) at 2 by done.
  rewrite <- (Z.mod_add (be_val (b :: bs) - _) 1) by lia. f_equal. lia.
Qed.

Lemma be_int_val bs : bytes bs -> be (length bs) (int_val bs mod 2 ^ (8 * Z.of_nat (length bs))) = bs.
Proof. intros Hb. rewrite int_val_mod by done. by apply be_be_val. Qed.

(** The test of the code: the first nine bits are not all equal. *)
Lemma valid_fits b c bs :
  bytes (b :: c :: bs) ->
  (CBS_is_valid_asn1_integer (b :: c :: bs)).1 = negb (fits (length (c :: bs)) (int_val (b :: c :: bs))).
Proof.
  intros Hb. apply Forall_cons in Hb as [Hb Hcs]. pose proof Hcs as Hcs'. apply Forall_cons in Hcs' as [Hc Hbs].
  cbn [CBS_is_valid_asn1_integer fst]. rewrite land_80 by done. unfold in_u in *.
  unfold fits, int_val. cbn [length]. rewrite pow8_half, be_val_cons, pow8_S, be_val_cons. cbn [length].
  rewrite pow8_S. pose proof (be_val_bound bs Hbs). pose proof (pow8_pos (length bs)).
  set (p := 2 ^ (8 * Z.of_nat (length bs))) in *. f_equal.
  destruct (decide (c < 128)) as [Hc1|Hc1]; cbn [Z.eqb negb]; replace (128 =? 0) with false by done; cbn [negb];
    rewrite ?andb_true_r, ?andb_false_r, ?orb_false_r, ?orb_false_l;
    destruct (b <? 128) eqn:Eb.
  - destruct (b =? 0) eqn:E0; [assert (b = 0) as -> by lia|]; symmetry.
    + apply andb_true_iff. split; [apply Z.leb_le|apply Z.ltb_lt]; nia.
    + apply andb_false_iff. right. apply Z.ltb_ge. nia.
  - replace (b =? 0) with false by lia. symmetry. apply andb_false_iff. left. apply Z.leb_gt. nia.
  - replace (b =? 255) with false by lia. symmetry. apply andb_false_iff. right. apply Z.ltb_ge. nia.
  - destruct (b =? 255) eqn:E0; [assert (b = 255) as -> by lia|]; symmetry.
    + apply andb_true_iff. split; [apply Z.leb_le|apply Z.ltb_lt]; nia.
    + apply andb_false_iff. left. apply Z.leb_gt. nia.
Qed.

(** Valid contents are exactly the shortest forms. *)
Lemma valid_int_body bs : bytes bs ->
  (CBS_is_valid_asn1_integer bs).1 = bool_decide (bs = int_body (int_val bs)).
Proof.
  intros Hb. destruct bs as [|b [|c bs]].
  - rewrite bool_decide_eq_false_2; [done|]. unfold int_body. intros E. apply (f_equal length) in E.
    rewrite length_be in E. destruct (int_len_spec (int_val [])) as (? & _). cbn [length] in E. lia.
  - rewrite bool_decide_eq_true_2; [done|]. unfold int_body.
    rewrite (int_len_unique 1); [symmetry; by apply (be_int_val [b])|lia|by apply (int_val_fits [b])|by left].
  - rewrite valid_fits by done. destruct (fits (length (c :: bs)) _) eqn:E; cbn [negb]; symmetry.
    + apply bool_decide_eq_false_2. intros Eq. apply (f_equal length) in Eq. unfold int_body in Eq.
      rewrite length_be in Eq. destruct (int_len_spec (int_val (b :: c :: bs))) as (_ & _ & [H|H]).
      * rewrite H in Eq. done.
      * rewrite <- Eq in H. cbn [length] in H, E. rewrite Nat.sub_succ, Nat.sub_0_r in H. congruence.
    + apply bool_decide_eq_true_2. unfold int_body.
      rewrite (int_len_unique (length (b :: c :: bs))).
      * symmetry. by apply be_int_val.
      * cbn; lia.
      * by apply int_val_fits.
      * right. cbn [length] in *. by rewrite Nat.sub_succ, Nat.sub_0_r.
Qed.

Lemma int_body_bytes v : bytes (int_body v).
Proof. apply be_bytes. Qed.

(** A value is determined by its residue and the range. *)
Lemma int_val_be l u :
  (0 < l)%nat -> fits l u = true -> int_val (be l (u mod 2 ^ (8 * Z.of_nat l))) = u.
Proof.
  intros Hl Hf. set (bs := be l _). assert (bytes bs) as Hb by apply be_bytes.
  assert (length bs = l) as Hlen by apply length_be.
  assert (bs <> []) as Hn by (intros E; apply (f_equal length) in E; rewrite Hlen in E; cbn [length] in E; lia).
  pose proof (int_val_fits bs Hb Hn) as Hv.
  pose proof (int_val_mod bs Hb) as Hm. rewrite Hlen in *. unfold bs in Hm at 2.
  rewrite be_val_be, Z.mod_mod in Hm by lia.
  unfold fits in *. destruct l as [|l]; [lia|]. rewrite pow8_half in *. rewrite pow8_S in Hm.
  pose proof (pow8_pos l). set (p := 2 ^ (8 * Z.of_nat l)) in *. set (x := int_val bs) in *. clearbody x p.
  assert (x = u + 256 * p * ((x - u) / (256 * p))) as E.
  { assert ((x - u) mod (256 * p) = 0) as Z0 by (rewrite Zminus_mod, Hm, Z.sub_diag; apply Z.mod_0_l; lia).
    pose proof (Z.div_mod (x - u) (256 * p)). lia. }
  set (q := (x - u) / (256 * p)) in *. clearbody q. assert (q = 0) by nia. subst q. lia.
Qed.

Lemma int_val_body v : int_val (int_body v) = v.
Proof. destruct (int_len_spec v) as (H1 & H2 & _). by apply int_val_be. Qed.

Lemma valid_body v : (CBS_is_valid_asn1_integer (int_body v)).1 = true.
Proof. rewrite valid_int_body by apply int_body_bytes. apply bool_decide_eq_true_2. by rewrite int_val_body. Qed.

(** The sign the code reports. *)
Lemma valid_negative bs : bytes bs -> bs <> [] ->
  (CBS_is_valid_asn1_integer bs).2 = (int_val bs <? 0).
Proof.
  intros Hb Hn. pose proof (be_val_bound bs Hb) as Hv. destruct Hb as [|b bs Hb Hbs]; [done|].
  assert ((CBS_is_valid_asn1_integer (b :: bs)).2 = negb (Z.land b 128 =? 0)) as ->.
  { cbn [CBS_is_valid_asn1_integer]. by destruct bs. }
  rewrite land_80 by done. unfold int_val. destruct (decide (b < 128)) as [H|H].
  - rewrite (proj2 (Z.ltb_lt b 128)) by lia. cbn [Z.eqb negb]. symmetry. apply Z.ltb_ge. lia.
  - rewrite (proj2 (Z.ltb_ge b 128)) by lia. symmetry. apply Z.ltb_lt. lia.
Qed.

(** ** Bytes of a value by position *)

Lemma be_cons n v : be (S n) v = v / 256 ^ Z.of_nat n mod 256 :: be n v.
Proof.
  revert v. induction n as [|n IH]; intros v; [unfold be; cbn; by rewrite Z.div_1_r|].
  rewrite be_S, IH, (be_S n v), Z.div_div, <- Z.pow_succ_r, <- Nat2Z.inj_succ by lia. done.
Qed.

Lemma nth_le_split n i v : (i < n)%nat -> nth i (le_split n v) 0 = v / 256 ^ Z.of_nat i mod 256.
Proof.
  revert i v. induction n as [|n IH]; intros i v Hi; [lia|]. destruct i as [|i]; cbn [le_split nth].
  - by rewrite Z.div_1_r.
  - rewrite IH, Z.div_div, <- Z.pow_succ_r, <- Nat2Z.inj_succ by lia. done.
Qed.

Lemma be_mod n v : be n (v mod 2 ^ (8 * Z.of_nat n)) = be n v.
Proof. rewrite <- be_val_be. rewrite <- (length_be n v) at 1. apply be_be_val, be_bytes. Qed.

Lemma be_small_cons n v : 0 <= v < 2 ^ (8 * Z.of_nat (S n)) -> be (S n) v = v / 2 ^ (8 * Z.of_nat n) :: be n v.
Proof.
  intros Hv. rewrite pow8_S in Hv. pose proof (pow8_pos n). rewrite be_cons.
  replace (256 ^ Z.of_nat n) with (2 ^ (8 * Z.of_nat n)) by (by rewrite Z.pow_mul_r by lia).
  rewrite Z.mod_small; [done|]. split; [apply Z.div_pos; lia|]. apply Z.div_lt_upper_bound; lia.
Qed.

(** Valid contents with the value [v] are [int_body v]. *)
Lemma int_body_unique bs : bytes bs -> (CBS_is_valid_asn1_integer bs).1 = true -> int_body (int_val bs) = bs.
Proof. intros Hb Hv. rewrite valid_int_body in Hv by done. by apply bool_decide_eq_true_1 in Hv. Qed.

(** The contents of a positive number: its bytes, after a zero byte where the
    first one would look negative. *)
Lemma int_body_pos i v :
  2 ^ (8 * Z.of_nat i) <= v < 2 ^ (8 * Z.of_nat (S i)) ->
  int_body v = (if 128 <=? v / 2 ^ (8 * Z.of_nat i) then [0] else []) ++ be (S i) v.
Proof.
  intros Hv. pose proof (pow8_pos i) as Hp. pose proof Hv as Hv'. rewrite pow8_S in Hv'.
  set (p := 2 ^ (8 * Z.of_nat i)) in *. set (q := v / p).
  assert (0 < q < 256) as Hq.
  { unfold q. split; [apply Z.div_str_pos; lia|apply Z.div_lt_upper_bound; lia]. }
  assert (be (S i) v = q :: be i v) as Eb by (rewrite be_small_cons by lia; done).
  assert (be_val (be (S i) v) = v) as Ev by (rewrite be_val_be, Z.mod_small; lia).
  assert (be_bytes' : bytes (be (S i) v)) by apply be_bytes.
  assert (Hland := land_80 q ltac:(unfold in_u; lia)).
  destruct (128 <=? q) eqn:E.
  - assert (int_val ([0] ++ be (S i) v) = v) as Eiv.
    { cbn [app int_val]. change (0 <? 128) with true. cbv iota. rewrite be_val_cons, Ev. lia. }
    rewrite <- Eiv at 1. apply int_body_unique; [constructor; [unfold in_u; lia|done]|]. rewrite Eb.
    cbn [app CBS_is_valid_asn1_integer fst]. rewrite Hland, decide_False by lia. done.
  - cbn [app]. assert (int_val (be (S i) v) = v) as Eiv.
    { rewrite Eb at 1. cbn [int_val]. rewrite (proj2 (Z.ltb_lt q 128)), <- Eb by lia. done. }
    rewrite <- Eiv at 1. apply int_body_unique; [done|]. rewrite Eb.
    cbn [CBS_is_valid_asn1_integer]. destruct (be i v) as [|c bs]; [done|]. cbn [fst].
    rewrite (proj2 (Z.eqb_neq q 0)), (proj2 (Z.eqb_neq q 255)) by lia. done.
Qed.

(** The bytes of a negative number that fits [S i] bytes. *)
Lemma neg_val i v : fits (S i) v = true -> (i < 8)%nat -> int_val (be (S i) (u64 v)) = v.
Proof.
  intros Hf Hi. rewrite <- be_mod. assert (u64 v mod 2 ^ (8 * Z.of_nat (S i)) = v mod 2 ^ (8 * Z.of_nat (S i))) as ->.
  { unfold wrapu. assert (2 ^ 64 = 2 ^ (8 * Z.of_nat (S i)) * 2 ^ (8 * Z.of_nat (7 - i))) as ->
      by (rewrite <- Z.pow_add_r by lia; f_equal; lia).
    pose proof (pow8_pos (S i)). pose proof (pow8_pos (7 - i)).
    set (p := 2 ^ (8 * Z.of_nat (S i))) in *. rewrite Z.rem_mul_r by lia.
    rewrite (Z.mul_comm p), Z.mod_add, Z.mod_mod by lia. done. }
  apply int_val_be; [lia|done].
Qed.

(** The loop that skips sign bytes finds the shortest form. *)
Lemma skip_sign_spec i v :
  v < 0 -> fits (S i) v = true -> (i < 8)%nat ->
  be (S (skip_sign i (le_split 8 (u64 v)))) (u64 v) = int_body v.
Proof.
  intros Hneg. induction i as [|i IH]; intros Hf Hi.
  - cbn [skip_sign]. rewrite <- (neg_val 0 v) at 2 by done. symmetry. apply int_body_unique; [apply be_bytes|done].
  - cbn [skip_sign]. rewrite !nth_le_split by lia. set (x := u64 v) in *.
    assert (be (S (S i)) x = x / 256 ^ Z.of_nat (S i) mod 256 :: x / 256 ^ Z.of_nat i mod 256 :: be i x) as Eb
      by by rewrite !be_cons.
    set (b := x / 256 ^ Z.of_nat (S i) mod 256) in *. set (c := x / 256 ^ Z.of_nat i mod 256) in *.
    pose proof (neg_val (S i) v Hf Hi) as Ev. fold x in Ev.
    pose proof (be_bytes (S (S i)) x) as Hb. rewrite Eb in Hb, Ev.
    pose proof (valid_fits b c _ Hb) as Hv. pose proof (valid_negative _ Hb ltac:(done)) as Hs.
    rewrite Ev in Hv, Hs. cbn [length] in Hv. rewrite length_be in Hv.
    cbn [CBS_is_valid_asn1_integer fst snd] in Hv, Hs. rewrite (proj2 (Z.ltb_lt v 0)) in Hs by done.
    destruct (b =? 0) eqn:E0; [assert (b = 0) as E by lia; rewrite E in Hs; done|]. cbn [andb orb] in Hv.
    destruct ((b =? 255) && negb (Z.land c 128 =? 0)) eqn:E; cbn [negb] in Hv.
    + apply IH; [by destruct (fits (S i) v)|lia].
    + rewrite Eb. symmetry. rewrite <- Ev. apply int_body_unique; [done|].
      cbn [CBS_is_valid_asn1_integer fst]. by rewrite E0, E.
Qed.

(** ** BoringSSL: reading elements of a known tag

    [CBS_get_asn1] and the readers of ASN.1 integers and booleans accept the
    distinguished encodings of their types, and nothing else. *)

(** A reader accepts the encodings [enc] of the values in [dom], and refuses
    every other input. *)
Definition accepts {A} (r : reader A) (dom : A -> Prop) (enc : A -> list Z) (cbs : CBS) : Prop :=
  (exists v rest, dom v /\ cbs = enc v ++ rest /\ r cbs = Done v rest) \/
  ((exists rest, r cbs = Bad rest) /\ forall v rest, dom v -> cbs <> enc v ++ rest).

(** ** Elements *)

Lemma der_bytes_body t body rest : bytes (der t body ++ rest) -> bytes body.
Proof.
  intros H. apply Forall_app in H as [H _]. apply Forall_app in H as [_ H]. by apply Forall_app in H as [_ H].
Qed.

Lemma skip_header_spec t body (cbs : CBS) :
  skip_header (der t body) (der_header_len t body) cbs = Done body cbs.
Proof.
  unfold skip_header, CBS_skip, mbind, proc_bind, der, der_header_len.
  rewrite app_assoc, <- Nat2Z.inj_add, <- length_app. by rewrite cbs_get_app.
Qed.

Lemma get_asn1_complete t body rest :
  der_ok t body -> CBS_len (der t body ++ rest) < 2 ^ 60 ->
  CBS_get_asn1 t (der t body ++ rest) = Done body rest.
Proof.
  intros Ht Hl. unfold CBS_get_asn1, cbs_get_asn1, mbind, proc_bind.
  rewrite any_element_complete by done. rewrite Z.eqb_refl. cbn [negb]. by rewrite skip_header_spec.
Qed.

Lemma get_asn1_cases t cbs :
  bytes cbs -> CBS_len cbs < 2 ^ 60 ->
  (exists rest, CBS_get_asn1 t cbs = Bad rest) \/
  exists body rest, der_ok t body /\ cbs = der t body ++ rest.
Proof.
  intros Hb Hl. destruct (any_element_cases cbs Hb Hl) as [E|(t' & body & rest & Hok & ->)].
  - left. unfold CBS_get_asn1, cbs_get_asn1, mbind, proc_bind. rewrite E. by eexists.
  - destruct (decide (t' = t)) as [->|Hne]; [right; by exists body, rest|]. left.
    unfold CBS_get_asn1, cbs_get_asn1, mbind, proc_bind. rewrite any_element_complete by done.
    rewrite (proj2 (Z.eqb_neq t' t)) by done. by eexists.
Qed.

(** An encoding can be split off in one way. *)
Lemma der_inj t t' body body' rest rest' :
  der_ok t body -> der_ok t' body' -> CBS_len (der t body ++ rest) < 2 ^ 60 ->
  der t body ++ rest = der t' body' ++ rest' -> t = t' /\ body = body' /\ rest = rest'.
Proof.
  intros H H' Hl E. pose proof (any_element_complete t body rest H Hl) as E1. rewrite E in E1, Hl.
  rewrite any_element_complete in E1 by done. injection E1 as E1 E2 E3 E4.
  pose proof (skip_header_spec t' body' []) as S1. rewrite E1, E3, skip_header_spec in S1.
  injection S1 as S1. by subst.
Qed.

(** A reader of contents behind [CBS_get_asn1]. *)
Lemma accepts_asn1 {A} t (k : CBS -> reader A) (dom : A -> Prop) (body : A -> list Z) cbs :
  asn1_tag t -> bytes cbs -> CBS_len cbs < 2 ^ 60 ->
  (forall v, dom v -> Z.of_nat (length (body v)) < 2 ^ 32) ->
  (forall c rest, bytes c ->
     (exists v, dom v /\ c = body v /\ k c rest = Done v rest) \/
     (k c rest = Bad rest /\ forall v, dom v -> c <> body v)) ->
  accepts (c ← CBS_get_asn1 t; k c) dom (fun v => der t (body v)) cbs.
Proof.
  intros Ht Hb Hl Hbody Hk. unfold accepts.
  destruct (get_asn1_cases t cbs Hb Hl) as [[r E]|(c & rest & Hok & ->)].
  - right. split; [exists r; by apply bind_Bad|]. intros v rest Hv ->.
    rewrite get_asn1_complete in E; [done| |done]. by split; [|apply Hbody].
  - rewrite (bind_Done _ _ _ c rest) by by apply get_asn1_complete.
    destruct (Hk c rest) as [(v & Hv & -> & E)|[E Hno]]; [by eapply der_bytes_body| |].
    + left. exists v, rest. done.
    + right. split; [by exists rest|]. intros v rest' Hv Heq.
      apply der_inj in Heq as (_ & -> & _); [by apply (Hno v)|done| |done]. by split; [|apply Hbody].
Qed.

(** ** Unsigned integers *)

Lemma uint64_loop_spec out data :
  bytes data -> in_u 64 out ->
  uint64_loop out data
  = let v := out * 2 ^ (8 * Z.of_nat (length data)) + be_val data in if v <? 2 ^ 64 then Some v else None.
Proof.
  intros Hb. revert out. induction Hb as [|b data Hb Hd IH]; intros out Ho; cbv zeta; unfold in_u in Ho.
  - cbn. rewrite (proj2 (Z.ltb_lt _ _)) by lia. f_equal. lia.
  - cbn [uint64_loop]. rewrite be_val_cons. cbn [length]. rewrite pow8_S, Z.shiftr_div_pow2 by lia.
    pose proof (pow8_pos (length data)). pose proof (be_val_bound data Hd). unfold in_u in Hb.
    set (p := 2 ^ (8 * Z.of_nat (length data))) in *.
    destruct (out / 2 ^ 56 =? 0) eqn:E; cbn [negb].
    + assert (Z.lor (u64 (Z.shiftl out 8)) b = out * 256 + b) as ->.
      { rewrite Z.shiftl_mul_pow2, wrapu_id by (unfold in_u; lia).
        rewrite Z.lor_comm. replace (out * 2 ^ 8) with (Z.shiftl out 8) by (by rewrite Z.shiftl_mul_pow2 by lia).
        rewrite lor_shiftl_add by lia. lia. }
      rewrite IH by (unfold in_u; lia). fold p. cbv zeta.
      replace ((out * 256 + b) * p + be_val data) with (out * (256 * p) + (b * p + be_val data)) by lia. done.
    + rewrite (proj2 (Z.ltb_ge _ (2 ^ 64))); [done|]. assert (2 ^ 56 <= out) by lia. nia.
Qed.

Definition u64_dom (v : Z) : Prop := 0 <= v < 2 ^ 64.
Definition s64_dom (v : Z) : Prop := - 2 ^ 63 <= v < 2 ^ 63.

Lemma int_len_le v l : (0 < l)%nat -> fits l v = true -> (int_len v <= l)%nat.
Proof.
  intros Hl Hf. destruct (int_len_spec v) as (_ & _ & [H|H]); [lia|].
  destruct (decide (int_len v <= l)%nat) as [|Hn]; [done|].
  rewrite (fits_mono l (int_len v - 1)) in H by (done || lia). done.
Qed.

Lemma length_int_body v : length (int_body v) = int_len v.
Proof. apply length_be. Qed.

Lemma valid_cases c : bytes c ->
  (CBS_is_valid_asn1_integer c = (false, (CBS_is_valid_asn1_integer c).2) /\ forall v, c <> int_body v) \/
  exists v, c = int_body v /\ CBS_is_valid_asn1_integer c = (true, v <? 0).
Proof.
  intros Hb. destruct (CBS_is_valid_asn1_integer c) as [[|] neg] eqn:E.
  - right. exists (int_val c). pose proof (int_body_unique c Hb) as Hu. rewrite E in Hu. specialize (Hu eq_refl).
    split; [done|]. destruct c as [|b c]; [done|]. pose proof (valid_negative (b :: c) Hb ltac:(done)) as Hn.
    rewrite E in Hn. cbn [snd] in Hn. by rewrite Hn.
  - left. split; [done|]. intros v ->. pose proof (valid_body v) as Hv. by rewrite E in Hv.
Qed.

Lemma int_body_nonneg v : 0 <= v -> be_val (int_body v) = v.
Proof.
  intros Hv. unfold int_body. rewrite be_val_be, Z.mod_mod by (pose proof (pow8_pos (int_len v)); lia).
  destruct (int_len_spec v) as (Hl & Hf & _). unfold fits in Hf. destruct (int_len v) as [|l]; [lia|].
  rewrite pow8_half in Hf. rewrite pow8_S. apply Z.mod_small. pose proof (pow8_pos l). lia.
Qed.

Lemma u64_fits v : u64_dom v -> fits 9 v = true.
Proof. unfold u64_dom, fits. intros H. change (2 ^ (8 * Z.of_nat 9 - 1)) with (2 ^ 71). lia. Qed.

Lemma s64_fits v : s64_dom v <-> fits 8 v = true.
Proof. unfold s64_dom, fits. change (2 ^ (8 * Z.of_nat 8 - 1)) with (2 ^ 63). lia. Qed.

Lemma get_uint64_accepts cbs :
  bytes cbs -> CBS_len cbs < 2 ^ 60 ->
  accepts CBS_get_asn1_uint64 u64_dom (fun v => der CBS_ASN1_INTEGER (int_body v)) cbs.
Proof.
  intros Hb Hl. apply accepts_asn1; [by unfold asn1_tag, CBS_ASN1_INTEGER|done|done| |].
  - intros v Hv. rewrite length_int_body. pose proof (int_len_le v 9 ltac:(lia) (u64_fits v Hv)). lia.
  - intros c rest Hc. unfold CBS_is_unsigned_asn1_integer.
    destruct (valid_cases c Hc) as [[-> Hno]|(v & -> & ->)]; [right; split; [done|intros v _; apply Hno]|].
    cbn [andb]. destruct (v <? 0) eqn:E; cbn [negb].
    + right. split; [done|]. unfold u64_dom. intros v' Hv' Heq. apply (f_equal int_val) in Heq.
      rewrite !int_val_body in Heq. lia.
    + rewrite uint64_loop_spec, int_body_nonneg by (done || lia). cbv zeta. rewrite Z.mul_0_l, Z.add_0_l.
      destruct (v <? 2 ^ 64) eqn:E2.
      * left. exists v. split; [unfold u64_dom; lia|done].
      * right. split; [done|]. unfold u64_dom. intros v' Hv' Heq. apply (f_equal int_val) in Heq.
        rewrite !int_val_body in Heq. lia.
Qed.

(** ** Signed integers *)

Lemma le_combine_sign k (neg : bool) :
  le_combine (replicate k (if neg then 0xff else 0)) = if neg then 2 ^ (8 * Z.of_nat k) - 1 else 0.
Proof.
  induction k as [|k IH]; [by destruct neg|]. cbn [replicate le_combine]. rewrite IH, pow8_S. destruct neg; lia.
Qed.

(** Sign-extending the contents and reading them as 64 bits. *)
Lemma sign_extend c :
  bytes c -> (0 < length c <= 8)%nat ->
  exists u, wrs (replicate 8 (if int_val c <? 0 then 0xff else 0)) 0 (rev c) = Some u /\
    s64 (le_combine u) = int_val c.
Proof.
  intros Hb Hl. set (s := if int_val c <? 0 then 0xff else 0).
  exists (rev c ++ replicate (8 - length c) s). split.
  { replace (replicate 8 s) with ([] ++ replicate (length c) s ++ replicate (8 - length c) s)
      by (cbn [app]; rewrite <- replicate_add; f_equal; lia).
    apply (wrs_mid [] _ _ _ 0); [done|]. by rewrite length_rev, length_replicate. }
  rewrite le_combine_app, length_rev. unfold s. rewrite le_combine_sign. change (le_combine (rev c)) with (be_val c).
  assert (c <> []) as Hn by (intros ->; cbn in Hl; lia). pose proof (int_val_fits c Hb Hn) as Hf.
  pose proof (be_val_bound c Hb) as Hv. pose proof (pow8_pos (length c)). pose proof (pow8_pos (8 - length c)) as Hq.
  assert (2 ^ (8 * Z.of_nat (length c)) * 2 ^ (8 * Z.of_nat (8 - length c)) = 2 ^ 64) as Hpq
    by (rewrite <- Z.pow_add_r by lia; f_equal; lia).
  assert (int_val c = be_val c \/ int_val c = be_val c - 2 ^ (8 * Z.of_nat (length c))) as Hiv
    by (unfold int_val; destruct c as [|b c]; [done|]; destruct (b <? 128); auto).
  apply (fits_mono _ 8) in Hf; [|lia]. apply s64_fits in Hf. unfold s64_dom in Hf.
  set (p := 2 ^ (8 * Z.of_nat (length c))) in *. set (q := 2 ^ (8 * Z.of_nat (8 - length c))) in *.
  assert (s64 (int_val c) = int_val c) as Hid by (apply wraps_id; unfold in_s; lia).
  destruct (int_val c <? 0) eqn:E.
  - destruct Hiv as [Hiv|Hiv]; [lia|]. rewrite <- Hid at 1. replace (be_val c + p * (q - 1)) with (int_val c + 2 ^ 64) by lia.
    unfold wraps. rewrite <- (Z.mod_add (int_val c + 2 ^ (64 - 1)) 1 (2 ^ 64)) by done. do 2 f_equal. lia.
  - destruct Hiv as [Hiv|Hiv]; [|lia]. rewrite Z.mul_0_r, Z.add_0_r, <- Hiv. done.
Qed.

Lemma get_int64_accepts cbs :
  bytes cbs -> CBS_len cbs < 2 ^ 60 ->
  accepts CBS_get_asn1_int64 s64_dom (fun v => der CBS_ASN1_INTEGER (int_body v)) cbs.
Proof.
  intros Hb Hl. apply accepts_asn1; [by unfold asn1_tag, CBS_ASN1_INTEGER|done|done| |].
  - intros v Hv. rewrite length_int_body. pose proof (int_len_le v 8 ltac:(lia) (proj1 (s64_fits v) Hv)). lia.
  - intros c rest Hc. destruct (valid_cases c Hc) as [[-> Hno]|(v & -> & ->)]; [right; split; [done|intros v _; apply Hno]|].
    cbn [negb]. destruct (8 <? CBS_len (int_body v)) eqn:E; unfold CBS_len in E; rewrite length_int_body in E.
    + right. split; [done|]. intros v' Hv' Heq. apply (f_equal int_val) in Heq. rewrite !int_val_body in Heq. subst v'.
      pose proof (int_len_le v 8 ltac:(lia) (proj1 (s64_fits v) Hv')). lia.
    + destruct (int_len_spec v) as (Hpos & Hf & _). apply (fits_mono _ 8) in Hf; [|lia].
      left. exists v. split; [by apply s64_fits|]. split; [done|].
      destruct (sign_extend (int_body v) Hc) as (u & Hu & Hv); [rewrite length_int_body; lia|].
      rewrite int_val_body in Hu, Hv. unfold mbind, proc_bind, of_option. rewrite Hu. by rewrite Hv.
Qed.

(** ** Booleans *)

Definition bool_body (b : bool) : list Z := [if b then 0xff else 0].

Lemma get_bool_accepts cbs :
  bytes cbs -> CBS_len cbs < 2 ^ 60 ->
  accepts CBS_get_asn1_bool (fun _ => True) (fun b => der CBS_ASN1_BOOLEAN (bool_body b)) cbs.
Proof.
  intros Hb Hl. apply accepts_asn1; [by unfold asn1_tag, CBS_ASN1_BOOLEAN|done|done|by intros []|].
  intros c rest Hc. destruct (CBS_len c =? 1) eqn:E1; cbn [negb].
  - destruct c as [|x [|y c]]; [done| |apply Z.eqb_eq in E1; unfold CBS_len in E1; cbn [length] in E1; lia].
    unfold mbind, proc_bind, of_option. change ([x] !! 0%nat) with (Some x). cbv iota beta.
    destruct (x =? 0) eqn:E2; [|destruct (x =? 255) eqn:E3]; cbn [negb andb].
    + left. exists false. assert (x = 0) as -> by lia. done.
    + left. exists true. assert (x = 255) as -> by lia. done.
    + right. split; [done|]. intros [] _ [= ->]; done.
  - right. split; [done|]. by intros [] _ ->.
Qed.
