(* ===== verification/CbbDoc.v ===== *)
(** * BoringSSL: documents of the builder

    ASN.1 values of the builder, and whole documents. *)
From S2P Require Import Prelude CBuf CMem CProc Cbs CbsSpec Cbb CbbSpec CbbOps DerInt.

(** ** BoringSSL: ASN.1 values of the builder

    [CBB_add_asn1] opens an element; the functions that add a whole value write
    its distinguished encoding. *)

#[local] Ltac Zify.zify_post_hook ::= Z.to_euclidean_division_equations.

Section Values.
Context (realloc_ok : Z -> bool) (resizable : bool) (limit : Z).

#[local] Abbreviation open_at := (open_at resizable limit).
#[local] Abbreviation appends := (appends resizable limit).
#[local] Abbreviation opened := (opened resizable limit).
#[local] Abbreviation cannot := (cannot realloc_ok resizable limit).
#[local] Abbreviation writes := (writes realloc_ok resizable limit).

(** ** Opening an element *)

Lemma opened_cbbs w w' pre a bytes k ch w'' :
  cbbs w' = cbbs w -> opened w' pre a bytes k ch w'' -> opened w pre a bytes k ch w''.
Proof. intros E (ca & cc & H). exists ca, cc. by rewrite <- E. Qed.

(** A child behind the bytes [hd] that [c] wrote: its prefix is reserved at the
    end of the buffer. *)
Lemma open_behind w pre a bytes hd k ch (c : builder unit) (reserve : builder unit) :
  open_at w pre a bytes -> (0 < plen k <= 8)%nat -> cbbs w !! ch = None ->
  writes c w pre a bytes hd ->
  (forall w', open_at w' pre a (bytes ++ hd) -> writes reserve w' pre a (bytes ++ hd) (hole k)) ->
  triple ((c;; b ← the_base a; reserve;; open_child a ch (len b) (Z.of_nat (plen k)) (is_asn1 k)) w)
    (fun _ w' => opened w pre a (bytes ++ hd) k ch w') (cannot pre bytes (hd ++ hole k)).
Proof.
  intros Ho Hk Hch Hc Hr. eapply appends_bind; [exact Hc|]. intros w1 [Ho1 Hc1].
  destruct (open_at_inv _ _ _ _ _ _ Ho1) as (b1 & ca & Hb1 & Hg1 & Ha & Hh & _).
  rewrite (the_base_bind _ _ ca b1) by done.
  replace (len b1) with (Z.of_nat (length pre + length ((bytes ++ hd) ++ [])))
    by (rewrite (g_len _ _ _ _ Hg1), app_nil_r, !length_app; lia).
  eapply triple_weaken;
    [apply (open_after realloc_ok resizable limit w1 pre a (bytes ++ hd) [] k ch reserve)| |intros w2 H; exact H].
  - done.
  - done.
  - by rewrite Hc1.
  - by apply Hr.
  - intros x w2 H. rewrite app_nil_r in H. by eapply opened_cbbs.
Qed.

Lemma add_asn1_spec w pre a bytes t ch :
  open_at w pre a bytes -> asn1_tag t -> cbbs w !! ch = None ->
  triple (CBB_add_asn1 realloc_ok a ch t w)
    (fun _ w' => opened w pre a (bytes ++ ident t) Asn1 ch w') (cannot pre bytes (ident t ++ hole Asn1)).
Proof.
  intros Ho Ht Hch. unfold CBB_add_asn1. rewrite (flush_open _ _ _ _ _ _ _ _ Ho). cbv zeta.
  apply (open_behind w pre a bytes (ident t) Asn1 ch _ (CBB_add_u8 realloc_ok a 0)); [done|cbn; lia|done|by apply tag_spec|].
  intros w' Ho'. by apply writes_u8.
Qed.

(** ** Length-prefixed children *)

Lemma reserve_spec n w pre a bytes :
  open_at w pre a bytes -> Z.of_nat n < 2 ^ 64 ->
  writes (out ← cbb_buffer_add realloc_ok (Z.of_nat n); fill n out 0) w pre a bytes (replicate n 0).
Proof.
  intros Ho Hn. destruct (open_at_inv _ _ _ _ _ _ Ho) as (b & ca & Hb & Hg & _).
  eapply triple_bind.
  { eapply triple_weaken; [apply (buffer_add_spec realloc_ok resizable limit w b (pre ++ bytes)); [done|done|lia]|done|].
    intros w' [Hf Hh]. split; [by eapply failed_flagged|]. rewrite length_app in Hh. rewrite length_replicate.
    eapply hopeless_mono; [exact Hh|lia]. }
  cbn. intros out w' (-> & b' & -> & Hr). destruct (r_buf _ _ _ _ _ Hr) as (hole & junk & Hbuf & Hh).
  rewrite (fill_eq realloc_ok n _ b' (Some <$> (pre ++ bytes)) hole junk) by (done || rewrite ?length_fmap; lia).
  eapply (with_base_open _ _ w b); [done|done|]. eapply (room_fill realloc_ok _ _ b'); [done|done|done|]. by rewrite length_replicate.
Qed.

Lemma add_length_prefixed_spec n w pre a bytes ch :
  open_at w pre a bytes -> (0 < n <= 8)%nat -> cbbs w !! ch = None ->
  triple (cbb_add_length_prefixed realloc_ok a ch (Z.of_nat n) w)
    (fun _ w' => opened w pre a bytes (Fixed n) ch w') (cannot pre bytes (hole (Fixed n))).
Proof.
  intros Ho Hn Hch. unfold cbb_add_length_prefixed. rewrite (flush_open _ _ _ _ _ _ _ _ Ho).
  pose proof (open_behind w pre a bytes [] (Fixed n) ch (mret tt)
    (out ← cbb_buffer_add realloc_ok (Z.of_nat n); fill n out 0) Ho Hn Hch) as H.
  rewrite app_nil_r in H. cbn [app plen is_asn1] in H.
  match goal with |- triple ?x _ _ => match type of H with _ -> _ -> triple ?y _ _ => assert (x = y) as -> end end.
  { unfold mbind, proc_bind, mret, proc_ret. rewrite Nat2Z.id. destruct (the_base a w); [|done..].
    by destruct (cbb_buffer_add realloc_ok (Z.of_nat n) _). }
  apply H; [by apply writes_nil|]. intros w' Ho'. apply reserve_spec; [done|lia].
Qed.

(** ** Whole elements *)

Lemma with_local_ext {A} (f g : Z -> builder A) w : (forall ch, f ch w = g ch w) -> with_local f w = with_local g w.
Proof. intros H. unfold with_local. by rewrite H. Qed.

Lemma element_spec w pre a bytes t s (f : Z -> builder unit) (body : Z -> builder unit) :
  open_at w pre a bytes -> asn1_tag t -> Z.of_nat (length s) <= 0xfffffffe ->
  (forall ch w1, f ch w1 = (CBB_add_asn1 realloc_ok a ch t;; body ch;; CBB_flush realloc_ok a) w1) ->
  (forall ch w1 pre', open_at w1 pre' ch [] -> writes (body ch) w1 pre' ch [] s) ->
  writes (with_local f) w pre a bytes (der t s).
Proof.
  intros Ho Ht Hl Hf Hbody. unfold writes.
  rewrite (with_local_ext f (fun ch => CBB_add_asn1 realloc_ok a ch t;; body ch;; CBB_flush realloc_ok a) w) by done.
  assert (length_prefix Asn1 (Z.of_nat (length s)) = Some (der_length (Z.of_nat (length s)))) as Ep
    by (apply prefix_asn1; lia).
  eapply triple_weaken; [eapply (bracket_spec realloc_ok resizable limit w pre a bytes (ident t) Asn1 s); [done| |]| |].
  - intros ch Hch. by apply add_asn1_spec.
  - intros ch w1 Ho1. by apply Hbody.
  - intros x w' (p & Hp & H). rewrite Ep in Hp. by injection Hp as <-.
  - intros w' [H1 H2]. rewrite Ep in H2. split; [done|]. eapply hopeless_mono; [exact H2|]. unfold der. lia.
Qed.

Lemma add_octet_string_spec w pre a bytes data :
  open_at w pre a bytes -> Z.of_nat (length data) <= 0xfffffffe ->
  writes (CBB_add_asn1_octet_string realloc_ok a data) w pre a bytes (der CBS_ASN1_OCTETSTRING data).
Proof.
  intros Ho Hl. eapply (element_spec _ _ _ _ _ _ _ (fun ch => CBB_add_bytes realloc_ok ch data)); [done|done|done|done|].
  intros ch w1 pre' Ho1. apply add_bytes_spec; [done|lia].
Qed.

Lemma add_bool_spec w pre a bytes v :
  open_at w pre a bytes -> writes (CBB_add_asn1_bool realloc_ok a v) w pre a bytes (der CBS_ASN1_BOOLEAN (bool_body v)).
Proof.
  intros Ho. eapply (element_spec _ _ _ _ _ _ _ (fun ch => CBB_add_u8 realloc_ok ch (if v then 0xff else 0))); [done|done|by destruct v|done|].
  intros ch w1 pre' Ho1. unfold bool_body. apply writes_u8; [done|]. destruct v; lia.
Qed.

(** ** Integers *)

(** A loop that appends [v] and returns [st]. *)
Definition writes_st (c : builder bool) (st : bool) (w : world) (pre : list Z) (a : Z) (bytes v : list Z) : Prop :=
  triple (c w) (fun x w' => x = st /\ appends w pre a bytes v w') (cannot pre bytes v).

Lemma writes_st_seq c k st w pre a bytes u v :
  writes c w pre a bytes u ->
  (forall w', open_at w' pre a (bytes ++ u) -> writes_st k st w' pre a (bytes ++ u) v) ->
  writes_st (c;; k) st w pre a bytes (u ++ v).
Proof.
  intros Hc Hk. eapply appends_bind; [exact Hc|]. intros w' Hw'.
  eapply triple_weaken; [apply Hk, Hw'| |done]. intros x w'' [-> H]. split; [done|]. by eapply appends_trans.
Qed.

Lemma octet_at v i : Z.land (Z.shiftr v (8 * Z.of_nat i)) 0xff = v / 256 ^ Z.of_nat i mod 256.
Proof. change 0xff with (Z.ones 8). rewrite Z.land_ones, Z.shiftr_div_pow2, Z.pow_mul_r by lia. done. Qed.

Lemma uint64_started n w pre ch bytes v :
  open_at w pre ch bytes -> writes_st (uint64_bytes realloc_ok n ch v true) true w pre ch bytes (be n v).
Proof.
  revert w bytes. induction n as [|i IH]; intros w bytes Ho; cbn [uint64_bytes].
  - split; [done|]. by apply appends_nil.
  - rewrite octet_at, be_cons. cbn [negb andb].
    match goal with |- writes_st (mret tt;; ?k) _ _ _ _ _ _ => change (writes_st k true w pre ch bytes
      (v / 256 ^ Z.of_nat i mod 256 :: be i v)) end.
    apply (writes_st_seq _ _ _ _ _ _ _ [_]); [apply writes_u8; [done|lia]|]. intros w' Ho'. by apply IH.
Qed.

Lemma uint64_bytes_spec n w pre ch bytes v :
  open_at w pre ch bytes -> 0 <= v < 2 ^ (8 * Z.of_nat n) ->
  writes_st (uint64_bytes realloc_ok n ch v false) (negb (v =? 0)) w pre ch bytes (if v =? 0 then [] else int_body v).
Proof.
  intros Ho. revert w bytes Ho. induction n as [|i IH]; intros w bytes Ho Hv; cbn [uint64_bytes].
  - assert (v = 0) as -> by (change (2 ^ (8 * Z.of_nat 0)) with 1 in Hv; lia). split; [done|]. by apply appends_nil.
  - rewrite octet_at. replace (256 ^ Z.of_nat i) with (2 ^ (8 * Z.of_nat i)) by (by rewrite Z.pow_mul_r by lia).
    pose proof (pow8_pos i). pose proof Hv as Hv'. rewrite pow8_S in Hv'. cbn [negb andb].
    rewrite (Z.mod_small (v / _)) by (split; [apply Z.div_pos; lia|apply Z.div_lt_upper_bound; lia]).
    destruct (v / 2 ^ (8 * Z.of_nat i) =? 0) eqn:E.
    + apply IH; [done|]. apply Z.eqb_eq, Z.div_small_iff in E; lia.
    + assert (2 ^ (8 * Z.of_nat i) <= v) as Hge.
      { destruct (decide (2 ^ (8 * Z.of_nat i) <= v)) as [|Hn]; [done|]. rewrite Z.div_small in E by lia. done. }
      rewrite (proj2 (Z.eqb_neq v 0)) by lia. rewrite (int_body_pos i), be_small_cons by lia.
      assert (Hq : 0 <= v / 2 ^ (8 * Z.of_nat i) < 256)
        by (split; [apply Z.div_pos; lia|apply Z.div_lt_upper_bound; lia]).
      set (q := v / 2 ^ (8 * Z.of_nat i)) in *.
      apply writes_st_seq.
      * rewrite land_80 by done. destruct (128 <=? q) eqn:Eq.
        -- rewrite decide_False by lia. by apply writes_u8.
        -- rewrite decide_True by lia. by apply writes_nil.
      * intros w1 Ho1. apply (writes_st_seq _ _ _ _ _ _ _ [q]); [by apply writes_u8|].
        intros w2 Ho2. by apply uint64_started.
Qed.

Lemma int_len_small v l : (0 < l)%nat -> fits l v = true -> Z.of_nat (length (int_body v)) <= Z.of_nat l.
Proof. intros Hl Hf. rewrite length_int_body. pose proof (int_len_le v l Hl Hf). lia. Qed.

Lemma add_uint64_spec w pre a bytes v :
  open_at w pre a bytes -> u64_dom v ->
  writes (CBB_add_asn1_uint64 realloc_ok a v) w pre a bytes (der CBS_ASN1_INTEGER (int_body v)).
Proof.
  intros Ho Hv. pose proof (int_len_small v 9 ltac:(lia) (u64_fits v Hv)).
  eapply (element_spec _ _ _ _ _ _ _ (fun ch => started ← uint64_bytes realloc_ok 8 ch v false;
            if started : bool then mret tt else CBB_add_u8 realloc_ok ch 0)); [done|done|lia| |].
  - intros ch w1. unfold mbind, proc_bind. destruct (CBB_add_asn1 _ _ _ _ _) as [? w2| |]; [|done..].
    by destruct (uint64_bytes _ _ _ _ _ w2).
  - intros ch w1 pre' Ho1. pose proof (uint64_bytes_spec 8 w1 pre' ch [] v Ho1 Hv) as H1.
    eapply triple_bind.
    { eapply triple_weaken; [exact H1|intros x s H2; exact H2|]. intros w2 [Hf Hh]. split; [done|].
      eapply hopeless_mono; [exact Hh|]. case_match; cbn [length]; lia. }
    intros x w2 [-> [Ho2 Hc2]]. destruct (v =? 0) eqn:E; cbn [negb].
    + assert (v = 0) as -> by lia. rewrite app_nil_r in Ho2.
      eapply triple_weaken; [apply (writes_u8 realloc_ok resizable limit w2 pre' ch [] 0); [done|lia]| |done].
      intros y w3 [Ho3 Hc3]. split; [done|congruence].
    + split; [done|congruence].
Qed.

Lemma add_down_spec n w pre ch bytes (x : Z) :
  open_at w pre ch bytes -> (n <= 8)%nat ->
  writes (add_down realloc_ok n ch (le_split 8 x)) w pre ch bytes (be n x).
Proof.
  revert w bytes. induction n as [|i IH]; intros w bytes Ho Hn; cbn [add_down]; [by apply writes_nil|].
  rewrite nth_le_split, be_cons by lia.
  apply (writes_seq _ _ _ _ _ _ _ _ _ [_]); [apply writes_u8; [done|lia]|]. intros w' Ho'. apply IH; [done|lia].
Qed.

Lemma skip_sign_le i bs : (skip_sign i bs <= i)%nat.
Proof. induction i as [|i IH]; cbn [skip_sign]; [done|]. case_match; lia. Qed.

Lemma add_int64_spec w pre a bytes v :
  open_at w pre a bytes -> s64_dom v ->
  writes (CBB_add_asn1_int64 realloc_ok a v) w pre a bytes (der CBS_ASN1_INTEGER (int_body v)).
Proof.
  intros Ho Hv. unfold CBB_add_asn1_int64. destruct (0 <=? v) eqn:E.
  - apply add_uint64_spec; [done|]. unfold s64_dom in Hv. unfold u64_dom. lia.
  - apply s64_fits in Hv. pose proof (int_len_small v 8 ltac:(lia) Hv).
    eapply (element_spec _ _ _ _ _ _ _ (fun ch => add_down realloc_ok
              (S (skip_sign 7 (le_split 8 (u64 v)))) ch (le_split 8 (u64 v)))); [done|done|lia|done|].
    intros ch w1 pre' Ho1. rewrite <- (skip_sign_spec 7 v) by (lia || done).
    apply add_down_spec; [done|]. pose proof (skip_sign_le 7 (le_split 8 (u64 v))). lia.
Qed.
End Values.

(** ** BoringSSL: building documents

    A document is what a caller of cbb.c writes: bytes, integers and ASN.1
    values in sequence, and children with a length prefix or an ASN.1 header
    around more of the same.  [build] is the sequence of calls, [encode] the
    bytes they should make. *)

Inductive value :=
| Bytes (bs : list Z)
| Zeros (n : nat)
| Unsigned (k : nat) (v : Z)
| Uint64 (v : Z)
| Int64 (v : Z)
| Octets (bs : list Z)
| Boolean (b : bool).

Inductive bracket :=
| Prefixed (n : nat)
| Element (t : Z).

Inductive doc :=
| Empty
| Value (v : value) (next : doc)
| Child (c : bracket) (inner next : doc).

Section Build.
Context (realloc_ok : Z -> bool).

Definition build_value (v : value) (a : Z) : builder unit :=
  match v with
  | Bytes bs => CBB_add_bytes realloc_ok a bs
  | Zeros n => CBB_add_zeros realloc_ok a (Z.of_nat n)
  | Unsigned k v => cbb_add_u realloc_ok a v (Z.of_nat k)
  | Uint64 v => CBB_add_asn1_uint64 realloc_ok a v
  | Int64 v => CBB_add_asn1_int64 realloc_ok a v
  | Octets bs => CBB_add_asn1_octet_string realloc_ok a bs
  | Boolean b => CBB_add_asn1_bool realloc_ok a b
  end.

Definition open (c : bracket) (a ch : Z) : builder unit :=
  match c with
  | Prefixed n => cbb_add_length_prefixed realloc_ok a ch (Z.of_nat n)
  | Element t => CBB_add_asn1 realloc_ok a ch t
  end.

Fixpoint build (d : doc) (a : Z) : builder unit :=
  match d with
  | Empty => mret tt
  | Value v next => build_value v a;; build next a
  | Child c inner next =>
      with_local (fun ch => open c a ch;; build inner ch;; CBB_flush realloc_ok a);;
      build next a
  end.
End Build.

Definition encode_value (v : value) : list Z :=
  match v with
  | Bytes bs => bs
  | Zeros n => replicate n 0
  | Unsigned k v => be k v
  | Uint64 v | Int64 v => der CBS_ASN1_INTEGER (int_body v)
  | Octets bs => der CBS_ASN1_OCTETSTRING bs
  | Boolean b => der CBS_ASN1_BOOLEAN (bool_body b)
  end.

(** The bytes in front of the length and the kind of the length. *)
Definition head (c : bracket) : list Z * kind :=
  match c with Prefixed n => ([], Fixed n) | Element t => (ident t, Asn1) end.

(** [None] when the contents of a child are too long for its prefix. *)
Fixpoint encode (d : doc) : option (list Z) :=
  match d with
  | Empty => Some []
  | Value v next => n ← encode next; Some (encode_value v ++ n)
  | Child c inner next =>
      i ← encode inner;
      p ← length_prefix (head c).2 (Z.of_nat (length i));
      n ← encode next;
      Some (((head c).1 ++ p ++ i) ++ n)
  end.

(** The arguments are in the range of their types; ASN.1 strings fit a length
    of 32 bits. *)
Definition value_ok (v : value) : Prop :=
  match v with
  | Bytes bs => bytes bs /\ Z.of_nat (length bs) < 2 ^ 64
  | Zeros n => Z.of_nat n < 2 ^ 64
  | Unsigned k v => (0 < k <= 8)%nat /\ 0 <= v < 2 ^ (8 * Z.of_nat k)
  | Uint64 v => u64_dom v
  | Int64 v => s64_dom v
  | Octets bs => bytes bs /\ Z.of_nat (length bs) <= 0xfffffffe
  | Boolean _ => True
  end.

Definition bracket_ok (c : bracket) : Prop :=
  match c with Prefixed n => (0 < n <= 3)%nat | Element t => asn1_tag t end.

Fixpoint doc_ok (d : doc) : Prop :=
  match d with
  | Empty => True
  | Value v next => value_ok v /\ doc_ok next
  | Child c inner next => bracket_ok c /\ doc_ok inner /\ doc_ok next
  end.

Section Spec.
Context (realloc_ok : Z -> bool) (resizable : bool) (limit : Z).

#[local] Abbreviation open_at := (open_at resizable limit).
#[local] Abbreviation appends := (appends resizable limit).
#[local] Abbreviation opened := (opened resizable limit).
#[local] Abbreviation cannot := (cannot realloc_ok resizable limit).
#[local] Abbreviation writes := (writes realloc_ok resizable limit).
#[local] Abbreviation hopeless := (hopeless realloc_ok resizable limit).

Lemma value_spec v w pre a bytes :
  open_at w pre a bytes -> value_ok v -> writes (build_value realloc_ok v a) w pre a bytes (encode_value v).
Proof.
  intros Ho Hv. destruct v; cbn [build_value encode_value value_ok] in *.
  - destruct Hv. by apply add_bytes_spec.
  - unfold writes, CBB_add_zeros. rewrite (bind_cong _ (cbb_buffer_add realloc_ok (Z.of_nat n)))
      by exact (flush_open realloc_ok resizable limit w pre a bytes (cbb_buffer_add realloc_ok (Z.of_nat n)) Ho).
    rewrite Nat2Z.id. by apply reserve_spec.
  - destruct Hv. by apply add_u_spec.
  - by apply add_uint64_spec.
  - by apply add_int64_spec.
  - destruct Hv. by apply add_octet_string_spec.
  - by apply add_bool_spec.
Qed.

Lemma open_spec c w pre a bytes ch :
  open_at w pre a bytes -> bracket_ok c -> cbbs w !! ch = None ->
  triple (open realloc_ok c a ch w)
    (fun _ w' => opened w pre a (bytes ++ (head c).1) (head c).2 ch w')
    (cannot pre bytes ((head c).1 ++ hole (head c).2)).
Proof.
  intros Ho Hc Hch. destruct c as [n|t]; cbn [open bracket_ok head fst snd app] in *.
  - rewrite app_nil_r. apply add_length_prefixed_spec; [done|lia|done].
  - by apply add_asn1_spec.
Qed.

(** A child whose contents cannot be written. *)
Lemma bracket_fails c w pre a bytes (body : Z -> builder unit) :
  open_at w pre a bytes -> bracket_ok c ->
  (forall ch w1 pre', open_at w1 pre' ch [] -> triple (body ch w1) (fun _ _ => False) flagged) ->
  triple (with_local (fun ch => open realloc_ok c a ch;; body ch;; CBB_flush realloc_ok a) w)
    (fun _ _ => False) flagged.
Proof.
  intros Ho Hc Hbody. unfold with_local. set (ch := fresh (dom (cbbs w))).
  assert (cbbs w !! ch = None) as Hch by (apply not_elem_of_dom, is_fresh).
  assert (triple ((open realloc_ok c a ch;; body ch;; CBB_flush realloc_ok a) w) (fun _ _ => False) flagged) as H.
  { eapply triple_bind; [eapply triple_weaken; [by eapply open_spec|intros x s H; exact H|by intros s []]|].
    intros x w1 Hw1. eapply triple_bind; [eapply Hbody, opened_child, Hw1|by intros y s []]. }
  unfold triple in H |- *. by destruct ((open realloc_ok c a ch;; _) w).
Qed.

(** A document appended to [a], or the reason why not. *)
Definition builds (d : doc) (w : world) (pre : list Z) (a : Z) (bytes : list Z) : Prop :=
  triple (build realloc_ok d a w)
    (fun _ w' => exists s, encode d = Some s /\ appends w pre a bytes s w')
    (fun w' => flagged w' /\ forall s, encode d = Some s ->
                 hopeless (Z.of_nat (length pre + length bytes + length s))).

Lemma build_spec d w pre a bytes : open_at w pre a bytes -> doc_ok d -> builds d w pre a bytes.
Proof.
  revert w pre a bytes. induction d as [|v next IH|c inner IHi next IH]; intros w pre a bytes Ho Hd;
    unfold builds; cbn [build encode doc_ok] in *.
  - exists []. split; [done|]. by apply appends_nil.
  - destruct Hd as [Hv Hd]. eapply triple_bind.
    { eapply triple_weaken; [by apply value_spec|intros x s H; exact H|]. intros w' [Hf Hh]. split; [done|].
      intros s. destruct (encode next) as [n|]; [|done]. intros [= <-].
      eapply hopeless_mono; [exact Hh|]. rewrite length_app. lia. }
    intros x w1 [Ho1 Hc1]. eapply triple_weaken; [by apply IH| |].
    + intros y w2 (s & -> & Hs). exists (encode_value v ++ s). split; [done|].
      eapply appends_trans; [|done]. by split.
    + intros w2 [Hf Hh]. split; [done|]. intros s. destruct (encode next) as [n|]; [|done]. intros [= <-].
      eapply hopeless_mono; [by apply Hh|]. rewrite !length_app. lia.
  - destruct Hd as (Hc & Hdi & Hd). set (k := (head c).2). set (hd := (head c).1).
    assert (triple (with_local (fun ch => open realloc_ok c a ch;; build realloc_ok inner ch;; CBB_flush realloc_ok a) w)
      (fun _ w' => exists i p, encode inner = Some i /\ length_prefix k (Z.of_nat (length i)) = Some p /\
         appends w pre a bytes (hd ++ p ++ i) w')
      (fun w' => flagged w' /\ forall i p, encode inner = Some i -> length_prefix k (Z.of_nat (length i)) = Some p ->
         hopeless (Z.of_nat (length pre + length bytes + length (hd ++ p ++ i))))) as Hchild.
    { destruct (encode inner) as [i|] eqn:Ei.
      - eapply triple_weaken;
          [apply (bracket_spec realloc_ok resizable limit w pre a bytes hd k i (open realloc_ok c a) (build realloc_ok inner))| |].
        + done.
        + intros ch Hch. by apply open_spec.
        + intros ch w1 Ho1. eapply triple_weaken; [exact (IHi w1 _ ch [] Ho1 Hdi)| |].
          * rewrite Ei. by intros x w2 (s & [= <-] & H).
          * intros w2 [Hf Hh]. split; [done|]. by apply Hh.
        + intros x w2 (p & Hp & H). by exists i, p.
        + intros w2 [Hf Hh]. split; [done|]. intros i' p [= <-] Hp. by rewrite Hp in Hh.
      - eapply triple_weaken; [apply (bracket_fails c w pre a bytes); [done|done|]| |].
        + intros ch w1 pre' Ho1. eapply triple_weaken; [exact (IHi w1 pre' ch [] Ho1 Hdi)| |by intros s []].
          rewrite Ei. by intros x w2 (s & ? & _).
        + done.
        + intros w2 Hf. by split. }
    eapply triple_bind.
    { eapply triple_weaken; [exact Hchild|intros x s H; exact H|]. intros w2 [Hf Hh]. split; [done|].
      intros s Hs. destruct (encode inner) as [i|]; [|done]. cbn [mbind option_bind] in Hs. fold k hd in Hs.
      destruct (length_prefix k _) as [p|] eqn:Ep; [|done]. cbn [mbind option_bind] in Hs.
      destruct (encode next) as [n|]; [|done]. injection Hs as <-.
      eapply hopeless_mono; [by apply (Hh i p)|]. rewrite !length_app. lia. }
    intros x w1 (i & p & Hi & Hp & Ho1 & Hc1). rewrite Hi. cbn [mbind option_bind]. fold k hd. rewrite Hp.
    cbn [mbind option_bind]. eapply triple_weaken; [by apply IH| |].
    + intros y w2 (s & -> & Hs). exists ((hd ++ p ++ i) ++ s). split; [done|].
      eapply appends_trans; [|exact Hs]. by split.
    + intros w2 [Hf Hh]. split; [done|]. intros s. destruct (encode next) as [n|]; [|done]. intros [= <-].
      eapply hopeless_mono; [by apply Hh|]. rewrite !length_app. lia.
Qed.
End Spec.

(** ** From the first call to the last *)

Section Document.
Context (realloc_ok : Z -> bool).

(** Where the bytes go: a buffer that grows, of some capacity at first, or an
    array of the caller. *)
Inductive target :=
| Growing (capacity : Z)
| Array (room : list (option Z)).

Definition start (t : target) (a : Z) : builder unit :=
  match t with
  | Growing n => CBB_init true true a n
  | Array room => CBB_init_fixed true a room
  end.

Definition growing (t : target) : bool := match t with Growing _ => true | Array _ => false end.
Definition room_of (t : target) : Z := match t with Growing n => n | Array room => Z.of_nat (length room) end.

Definition document (t : target) (d : doc) (a : Z) : builder (list (option Z)) :=
  start t a;; build realloc_ok d a;; CBB_finish realloc_ok true a.

(** There is no room for [n] bytes in [t]. *)
Definition no_room (t : target) (n : Z) : Prop := hopeless realloc_ok (growing t) (room_of t) n.

Definition root : cbb := mk_cbb true None 0 0 false false.

Lemma builder_start t a w :
  exists b, start t a w = Done tt (mk_world (Some b) (<[a := root]> (cbbs w))) /\
    good (growing t) (room_of t) b [].
Proof.
  destruct t as [n|room]; cbn [start growing room_of].
  - unfold CBB_init, CBB_zero. rewrite set_cbb_bind. rewrite andb_false_r. unfold cbb_init. cbn [negb].
    unfold set_base, current, become. unfold mbind at 1, proc_bind at 1. unfold mbind at 1, proc_bind at 1.
    rewrite (deref_bind _ _ zero_cbb) by (cbn [cbbs]; by rewrite lookup_insert_eq).
    unfold set_cbb, current, become, mbind, proc_bind. cbn [base cbbs]. rewrite insert_insert_eq.
    eexists. split; [reflexivity|]. constructor; cbn [buf len can_resize error]; try done. by eexists.
  - unfold CBB_init_fixed, CBB_zero. rewrite set_cbb_bind. unfold cbb_init. cbn [negb].
    unfold mbind at 1, proc_bind at 1.
    match goal with |- context [set_base ?b;; ?k] => set (b0 := b) end.
    unfold set_base at 1, current, become. unfold mbind at 1, proc_bind at 1. unfold mbind at 1, proc_bind at 1.
    rewrite (deref_bind _ _ zero_cbb) by (cbn [cbbs]; by rewrite lookup_insert_eq).
    unfold set_cbb, current, become. unfold mbind at 1, proc_bind at 1. cbn [base cbbs]. rewrite insert_insert_eq.
    rewrite (the_base_bind _ _ root b0) by (done || (cbn [cbbs]; by rewrite lookup_insert_eq)).
    unfold set_base, current, become, mbind, proc_bind. cbn [cbbs].
    eexists. split; [reflexivity|]. constructor; cbn [b0 buf len can_resize error]; try done. by exists room.
Qed.

Lemma finish_spec t w a s :
  open_at (growing t) (room_of t) w [] a s -> cbbs w !! a = Some root ->
  CBB_finish realloc_ok true a w = Done (Some <$> s) (mk_world None (<[a := zero_cbb]> (cbbs w))).
Proof.
  intros Ho Ha. unfold CBB_finish. rewrite (deref_bind _ _ root) by done. cbn [is_child root].
  rewrite (flush_open _ _ _ _ _ _ _ _ Ho). destruct (open_at_inv _ _ _ _ _ _ Ho) as (b & ca & Hb & Hg & _).
  rewrite (the_base_bind _ _ root b) by done. rewrite andb_false_r. unfold CBB_cleanup.
  unfold mbind at 1, proc_bind at 1. rewrite (deref_bind _ _ root) by done. cbn [is_child root has_base].
  unfold set_cbb, current, become, mbind, proc_bind, mret, proc_ret. cbn [base cbbs].
  destruct Hg as [[junk Hbuf] Hlen _ _ _ _]. cbn [app] in *. rewrite Hbuf, Hlen, Nat2Z.id.
  rewrite <- (length_fmap Some s) at 1. by rewrite take_app_length.
Qed.

Lemma document_spec t d a w :
  doc_ok d ->
  triple (document t d a w)
    (fun bs w' => exists s, encode d = Some s /\ bs = Some <$> s /\ w' = mk_world None (<[a := zero_cbb]> (cbbs w)))
    (fun w' => forall s, encode d = Some s -> no_room t (Z.of_nat (length s))).
Proof.
  intros Hd. unfold document. destruct (builder_start t a w) as (b & E & Hg).
  rewrite (bind_Done _ _ _ _ _ E). eapply triple_bind.
  { eapply triple_weaken; [apply (build_spec realloc_ok (growing t) (room_of t) d _ [] a []); [|done]|intros x s H; exact H|].
    - apply (open_at_intro _ _ _ b root); try done. cbn [cbbs]. by rewrite lookup_insert_eq.
    - intros w' [_ Hh] s Hs. specialize (Hh s Hs). cbn [length] in Hh. exact Hh. }
  intros x w1 (s & Hs & Ho & Hc). cbn [app] in Ho. rewrite (finish_spec t w1 a s) by
    (done || (rewrite Hc; cbn [cbbs]; by rewrite lookup_insert_eq)).
  exists s. split_and!; [done|done|]. rewrite Hc. cbn [cbbs]. by rewrite insert_insert_eq.
Qed.
End Document.
