(* ===== verification/CbbKeep.v ===== *)
(** * BoringSSL: a builder can always be released

    No function of cbb.c, whether it returns 1 or 0, takes a [CBB] away or
    turns a [CBB] into a child, so that CBB_cleanup is defined after every
    sequence of calls. *)
From S2P Require Import Prelude CBuf CMem CProc Cbs Cbb CbbSpec CbbDoc.

(** ** Functions that touch the buffer only *)

Definition base_only {A} (c : builder A) : Prop :=
  forall w, match c w with Done _ w' | Bad w' => cbbs w' = cbbs w | Stuck => True end.

Create HintDb keep.

Lemma base_only_bind {A B} (c : builder A) (k : A -> builder B) :
  base_only c -> (forall a, base_only (k a)) -> base_only (x ← c; k x).
Proof.
  intros Hc Hk w. unfold mbind, proc_bind. specialize (Hc w). destruct (c w) as [a w1|w1|]; [|done..].
  specialize (Hk a w1). destruct (k a w1); [congruence..|done].
Qed.

Lemma base_only_ret {A} (a : A) : base_only (mret a).
Proof. done. Qed.

Lemma base_only_return_0 {A} : base_only (return_0 (A := A)).
Proof. done. Qed.

Lemma base_only_stuck {A} : base_only (stuck (A := A)).
Proof. done. Qed.

Lemma base_only_of_option {A} (o : option A) : base_only (of_option o).
Proof. intros w. by destruct o. Qed.

Lemma base_only_current : base_only current.
Proof. done. Qed.

Lemma base_only_set_base b : base_only (set_base b).
Proof. done. Qed.

Lemma base_only_status c : base_only c -> base_only (status c).
Proof. intros H w. unfold status. specialize (H w). by destruct (c w). Qed.

Lemma base_only_on {A T} (t : T) (c : proc T A) : base_only (on t c).
Proof. intros w. unfold on. by destruct (c t). Qed.

#[export] Hint Resolve base_only_ret base_only_return_0 base_only_stuck base_only_of_option
  base_only_current base_only_set_base base_only_status base_only_on : keep.

(** Take a computation apart. *)
Ltac keep := repeat first
  [ progress intros
  | solve [eauto with keep nocore]
  | apply base_only_bind
  | apply base_only_status
  | match goal with |- context [match ?x with _ => _ end] => destruct x end ].

Lemma base_only_fail {A} : base_only (fail_base (A := A)).
Proof. unfold fail_base. keep. Qed.
#[export] Hint Resolve base_only_fail : keep.

Lemma base_only_deref a : base_only (deref a).
Proof. unfold deref. keep. Qed.
#[export] Hint Resolve base_only_deref : keep.

Lemma base_only_the_base a : base_only (the_base a).
Proof. unfold the_base. keep. Qed.

Lemma base_only_poke i v : base_only (poke i v).
Proof. unfold poke. keep. Qed.

Lemma base_only_add_len n : base_only (add_len n).
Proof. unfold add_len. keep. Qed.

Lemma base_only_move i e n : base_only (move_bytes i e n).
Proof. unfold move_bytes. keep. Qed.

Lemma base_only_copy o d : base_only (copy_in o d).
Proof. unfold copy_in. keep. Qed.

#[export] Hint Resolve base_only_the_base base_only_poke base_only_add_len base_only_move base_only_copy : keep.

Lemma base_only_store n out v : base_only (store_be n out v).
Proof. revert v. induction n; cbn [store_be]; keep. Qed.

Lemma base_only_fill n out v : base_only (fill n out v).
Proof. revert out. induction n; cbn [fill]; keep. Qed.

(** ** Functions that keep every [CBB] what it is *)

Definition keeps (w w' : world) : Prop :=
  forall x c, cbbs w !! x = Some c -> exists c', cbbs w' !! x = Some c' /\ is_child c' = is_child c.

Lemma keeps_same w : keeps w w.
Proof. intros x c H. by exists c. Qed.

Lemma keeps_step w1 w2 w3 : keeps w1 w2 -> keeps w2 w3 -> keeps w1 w3.
Proof.
  intros H1 H2 x c Hc. destruct (H1 x c Hc) as (c1 & Hc1 & E1). destruct (H2 x c1 Hc1) as (c2 & Hc2 & E2).
  exists c2. split; [done|congruence].
Qed.

Lemma keeps_eq w w' : cbbs w' = cbbs w -> keeps w w'.
Proof. intros E x c Hc. exists c. by rewrite E. Qed.

Definition kept {A} (w0 : world) (r : result world A) : Prop :=
  match r with Done _ w' | Bad w' => keeps w0 w' | Stuck => True end.

Definition keeping {A} (c : builder A) : Prop := forall w, kept w (c w).

Lemma keeping_base {A} (c : builder A) : base_only c -> keeping c.
Proof. intros H w. specialize (H w). unfold kept. destruct (c w); [by apply keeps_eq..|done]. Qed.

Lemma kept_bind {A B} (c : builder A) (k : A -> builder B) w0 w :
  keeps w0 w -> keeping c -> (forall a w', keeps w0 w' -> kept w0 (k a w')) -> kept w0 ((x ← c; k x) w).
Proof.
  intros H0 Hc Hk. unfold mbind, proc_bind. specialize (Hc w). unfold kept in Hc.
  destruct (c w) as [a w1|w1|]; [apply Hk| |done]; by eapply keeps_step.
Qed.

Lemma keeping_bind {A B} (c : builder A) (k : A -> builder B) :
  keeping c -> (forall a, keeping (k a)) -> keeping (x ← c; k x).
Proof.
  intros Hc Hk w. apply kept_bind; [apply keeps_same|done|]. intros a w' H. specialize (Hk a w').
  unfold kept in *. destruct (k a w'); [by eapply keeps_step..|done].
Qed.

Lemma kept_keeping {A} (c : builder A) w0 w : keeps w0 w -> keeping c -> kept w0 (c w).
Proof. intros H Hc. specialize (Hc w). unfold kept in *. destruct (c w); [by eapply keeps_step..|done]. Qed.

Lemma keeping_status c : keeping c -> keeping (status c).
Proof. intros H w. specialize (H w). unfold status. by destruct (c w). Qed.

(** What a pointer in [w] says of the [CBB] in [w0], from which [w] comes. *)
Lemma kept_deref {A} a (k : cbb -> builder A) w0 w :
  keeps w0 w ->
  (forall c, (forall c0, cbbs w0 !! a = Some c0 -> is_child c = is_child c0) -> kept w0 (k c w)) ->
  kept w0 ((x ← deref a; k x) w).
Proof.
  intros H0 Hk. destruct (cbbs w !! a) as [c|] eqn:E.
  - rewrite (deref_bind _ _ c) by done. apply Hk. intros c0 Hc0. destruct (H0 a c0 Hc0) as (c1 & Hc1 & E1). congruence.
  - unfold deref, current, mbind, proc_bind, of_option. by rewrite E.
Qed.

Lemma kept_set a c w0 w :
  keeps w0 w -> (forall c0, cbbs w0 !! a = Some c0 -> is_child c = is_child c0) -> kept w0 (set_cbb a c w).
Proof.
  intros H0 Hc x cx Hx. cbn [cbbs]. destruct (decide (x = a)) as [->|Hn].
  - rewrite lookup_insert_eq. exists c. split; [done|by apply Hc].
  - rewrite lookup_insert_ne by done. by apply H0.
Qed.

Ltac keeping := repeat first
  [ progress intros
  | solve [eauto with keep nocore]
  | apply keeping_bind
  | match goal with |- context [match ?x with _ => _ end] => destruct x end ].

(** ** The functions of cbb.c *)

Section Keep.
Context (realloc_ok : Z -> bool).

Lemma base_only_reserve n : base_only (cbb_buffer_reserve realloc_ok n).
Proof. unfold cbb_buffer_reserve. keep. Qed.

Lemma base_only_add n : base_only (cbb_buffer_add realloc_ok n).
Proof. pose proof base_only_reserve. unfold cbb_buffer_add. keep. Qed.

#[local] Hint Resolve base_only_add base_only_reserve base_only_store base_only_fill : keep.

Lemma base_only_add_u v n : base_only (cbb_buffer_add_u realloc_ok v n).
Proof. unfold cbb_buffer_add_u. keep. Qed.

#[local] Hint Resolve keeping_base keeping_status base_only_add_u : keep.

Lemma keeping_flush_asn1 a cs n : keeping (flush_asn1 realloc_ok a cs n).
Proof.
  intros w. unfold flush_asn1. apply kept_deref; [apply keeps_same|]. intros cc Hcc.
  destruct (negb _); [done|]. destruct (asn1_len_len n) as [[[k first] n']|]; [|by apply keeping_base, base_only_fail].
  apply kept_bind; [apply keeps_same|apply keeping_base; keep|]. intros _ w1 H1.
  apply kept_bind; [done|apply keeping_base; keep|]. intros _ w2 H2.
  unfold mbind, proc_bind. pose proof (kept_set a (set_pending (offset cc + 1) (k - 1) cc) _ _ H2 Hcc) as H.
  unfold kept in *. by destruct (set_cbb _ _ w2).
Qed.

Lemma keeping_flush_end a ch n : keeping (flush_end a ch n).
Proof.
  intros w. unfold flush_end. apply kept_bind; [apply keeps_same|apply keeping_base; keep|]. intros cc w1 H1.
  apply kept_bind; [done|apply keeping_base; keep|]. intros n' w2 H2.
  destruct (negb _); [apply kept_keeping; [done|by apply keeping_base, base_only_fail]|].
  apply kept_deref; [done|]. intros cc' Hcc. rewrite set_cbb_bind.
  pose proof (kept_set ch (set_has_base false cc') _ _ H2 Hcc) as H3. cbn [kept] in H3.
  apply kept_deref; [exact H3|]. intros c Hc. by apply kept_set.
Qed.

Lemma keeping_flush_with (flush : Z -> builder unit) a :
  (forall x, keeping (flush x)) -> keeping (flush_with realloc_ok flush a).
Proof.
  intros Hf. unfold flush_with. pose proof keeping_flush_asn1. pose proof keeping_flush_end.
  repeat first
    [ progress intros
    | solve [eauto with keep nocore]
    | apply keeping_bind
    | match goal with |- context [match ?x with _ => _ end] => destruct x end ].
Qed.

Lemma keeping_flush a : keeping (CBB_flush realloc_ok a).
Proof.
  unfold CBB_flush. apply keeping_bind; [eauto with keep|]. intros w0. generalize (S (size (cbbs w0))) as fuel.
  intros fuel. revert a. induction fuel as [|fuel IH]; intros a; cbn [flush_chain]; [done|]. by apply keeping_flush_with.
Qed.
#[local] Hint Resolve keeping_flush : keep.

Lemma keeping_add_u a v n : keeping (cbb_add_u realloc_ok a v n).
Proof. unfold cbb_add_u. keeping. Qed.

Lemma keeping_add_bytes a data : keeping (CBB_add_bytes realloc_ok a data).
Proof. unfold CBB_add_bytes. keeping. Qed.

Lemma keeping_add_zeros a n : keeping (CBB_add_zeros realloc_ok a n).
Proof. unfold CBB_add_zeros, CBB_add_space. keeping. Qed.

Lemma keeping_add_u8 a v : keeping (CBB_add_u8 realloc_ok a v).
Proof. apply keeping_add_u. Qed.
#[local] Hint Resolve keeping_add_u keeping_add_bytes keeping_add_zeros keeping_add_u8 : keep.

Lemma keeping_base128_bytes n a v : keeping (base128_bytes realloc_ok n a v).
Proof. induction n; cbn [base128_bytes]; keeping. Qed.

Lemma keeping_base128 a v : keeping (add_base128_integer realloc_ok a v).
Proof. apply keeping_base128_bytes. Qed.
#[local] Hint Resolve keeping_base128 : keep.

(** A new child. *)
Lemma kept_open_child a ch o n asn1 w0 w :
  keeps w0 w -> cbbs w0 !! ch = None -> kept w0 (open_child a ch o n asn1 w).
Proof.
  intros H0 Hch. unfold open_child. rewrite set_cbb_bind.
  pose proof (kept_set ch (mk_cbb true None o n asn1 true) w0 w H0 ltac:(intros c0; by rewrite Hch)) as H1.
  cbn [kept] in H1. apply kept_deref; [exact H1|]. intros c Hc. by apply kept_set.
Qed.

Lemma kept_open c a ch w : cbbs w !! ch = None -> kept w (open realloc_ok c a ch w).
Proof.
  intros Hch. destruct c as [n|t]; cbn [open]; unfold cbb_add_length_prefixed, CBB_add_asn1;
    repeat lazymatch goal with
    | |- kept _ (open_child _ _ _ _ _ _) => by apply kept_open_child
    | _ => apply kept_bind; [done || apply keeps_same|keeping|intros ? ? ?]
    end.
Qed.

Lemma keeping_with_local {A} (f : Z -> builder A) :
  (forall ch w, cbbs w !! ch = None -> kept w (f ch w)) -> keeping (with_local f).
Proof.
  intros Hf w. unfold with_local. set (ch := fresh (dom (cbbs w))).
  assert (cbbs w !! ch = None) as Hch by (apply not_elem_of_dom, is_fresh).
  specialize (Hf ch w Hch). unfold kept in *.
  assert (forall w', keeps w w' -> keeps w (mk_world (base w') (delete ch (cbbs w')))) as Hd.
  { intros w' H x c Hx. destruct (H x c Hx) as (c' & Hc' & E). exists c'. split; [|done]. cbn [cbbs].
    rewrite lookup_delete_ne by congruence. done. }
  destruct (f ch w); auto.
Qed.

(** A local child. *)
Lemma keeping_child {A} c a (body : Z -> builder A) :
  (forall ch, keeping (body ch)) -> keeping (with_local (fun ch => open realloc_ok c a ch;; body ch)).
Proof.
  intros Hb. apply keeping_with_local. intros ch w Hch.
  pose proof (kept_open c a ch w Hch) as Ho. unfold mbind at 1, proc_bind at 1. unfold kept in Ho.
  destruct (open realloc_ok c a ch w) as [x w1|w1|]; [|done|done]. by apply kept_keeping.
Qed.

(** A child around [body]. *)
Lemma keeping_bracket c a (body : Z -> builder unit) (f : Z -> builder unit) :
  (forall ch, keeping (body ch)) ->
  (forall ch w, f ch w = (open realloc_ok c a ch;; body ch;; CBB_flush realloc_ok a) w) ->
  keeping (with_local f).
Proof.
  intros Hb Hf w. assert (with_local f w = with_local (fun ch => open realloc_ok c a ch;; body ch;; CBB_flush realloc_ok a) w) as ->
    by (unfold with_local; by rewrite Hf).
  apply keeping_child. intros ch. keeping.
Qed.

Lemma keeping_uint64_bytes n ch v st : keeping (uint64_bytes realloc_ok n ch v st).
Proof. revert st. induction n; intros st; cbn [uint64_bytes]; keeping. Qed.

Lemma keeping_add_down n ch bs : keeping (add_down realloc_ok n ch bs).
Proof. induction n; cbn [add_down]; keeping. Qed.
#[local] Hint Resolve keeping_uint64_bytes keeping_add_down : keep.

Lemma keeping_uint64 a v : keeping (CBB_add_asn1_uint64 realloc_ok a v).
Proof.
  apply (keeping_bracket (Element CBS_ASN1_INTEGER) a (fun ch => started ← uint64_bytes realloc_ok 8 ch v false;
            if started : bool then mret tt else CBB_add_u8 realloc_ok ch 0)).
  - intros ch. keeping.
  - intros ch w. unfold mbind, proc_bind. cbn [open]. destruct (CBB_add_asn1 _ _ _ _ _) as [? w2| |]; [|done..].
    by destruct (uint64_bytes _ _ _ _ _ w2).
Qed.

Lemma keeping_int64 a v : keeping (CBB_add_asn1_int64 realloc_ok a v).
Proof.
  unfold CBB_add_asn1_int64. destruct (0 <=? v); [apply keeping_uint64|].
  eapply (keeping_bracket (Element CBS_ASN1_INTEGER) a (fun ch => add_down realloc_ok _ ch _)); [|done]. intros ch. keeping.
Qed.

Lemma keeping_octets a bs : keeping (CBB_add_asn1_octet_string realloc_ok a bs).
Proof.
  eapply (keeping_bracket (Element CBS_ASN1_OCTETSTRING) a (fun ch => CBB_add_bytes realloc_ok ch _)); [|done].
  intros ch. keeping.
Qed.

Lemma keeping_bool a b : keeping (CBB_add_asn1_bool realloc_ok a b).
Proof.
  eapply (keeping_bracket (Element CBS_ASN1_BOOLEAN) a (fun ch => CBB_add_u8 realloc_ok ch _)); [|done].
  intros ch. keeping.
Qed.
#[local] Hint Resolve keeping_uint64 keeping_int64 keeping_octets keeping_bool : keep.

Lemma keeping_build d a : keeping (build realloc_ok d a).
Proof.
  revert a. induction d as [|v next IH|c inner IHi next IH]; intros a; cbn [build].
  - apply keeping_base, base_only_ret.
  - apply keeping_bind; [|done]. destruct v; [apply keeping_add_bytes|apply keeping_add_zeros|apply keeping_add_u|
      apply keeping_uint64|apply keeping_int64|apply keeping_octets|apply keeping_bool].
  - apply keeping_bind; [|done]. by apply (keeping_bracket c a (build realloc_ok inner)).
Qed.

Lemma keeping_cleanup a : keeping (CBB_cleanup a).
Proof.
  intros w. unfold CBB_cleanup. apply kept_deref; [apply keeps_same|]. intros c Hc.
  destruct (is_child c) eqn:E; [done|]. apply kept_bind; [apply keeps_same|apply keeping_base; keep|].
  intros _ w1 H1. apply kept_set; [done|]. intros c0 Hc0. cbn. rewrite <- (Hc c0 Hc0). done.
Qed.
#[local] Hint Resolve keeping_cleanup keeping_build : keep.

Lemma keeping_finish a : keeping (CBB_finish realloc_ok true a).
Proof. unfold CBB_finish. keeping. Qed.

(** CBB_cleanup releases the buffer of any [CBB] that is not a child. *)
Lemma cleanup_spec a w c :
  cbbs w !! a = Some c -> is_child c = false ->
  exists w', CBB_cleanup a w = Done tt w' /\ (has_base c = true -> base w' = None).
Proof.
  intros Ha Hc. unfold CBB_cleanup. rewrite (deref_bind _ _ c), Hc by done.
  destruct (has_base c) eqn:E; unfold set_cbb, current, become, mbind, proc_bind, mret, proc_ret; cbn [base cbbs];
    eexists; (split; [reflexivity|done]).
Qed.

(** Whatever a builder that starts at [root] ends with. *)
Lemma kept_cleanup {A} a w (r : result world A) c :
  kept w r -> cbbs w !! a = Some c -> is_child c = false ->
  match r with Done _ w' | Bad w' => exists w'', CBB_cleanup a w' = Done tt w'' | Stuck => True end.
Proof.
  intros Hk Ha Hc. destruct r as [x w'|w'|]; [| |done]; destruct (Hk a c Ha) as (c' & Hc' & E);
    destruct (cleanup_spec a w' c' Hc') as (w'' & E' & _); [congruence|by eexists|congruence|by eexists].
Qed.
End Keep.

#[export] Hint Resolve keeping_base keeping_status keeping_flush keeping_add_u keeping_add_bytes keeping_add_zeros
  keeping_add_u8 keeping_base128 keeping_uint64 keeping_int64 keeping_octets keeping_bool keeping_build
  keeping_cleanup keeping_finish : keep.

(** A document that could not be written leaves a builder that can be released. *)
Lemma document_cleanup realloc_ok t d a w :
  match document realloc_ok t d a w with Bad w' => exists w'', CBB_cleanup a w' = Done tt w'' | _ => True end.
Proof.
  unfold document. destruct (builder_start t a w) as (b & E & _). rewrite (bind_Done _ _ _ _ _ E).
  set (w0 := mk_world (Some b) (<[a:=root]> (cbbs w))).
  assert (keeping (build realloc_ok d a;; CBB_finish realloc_ok true a)) as Hk by keeping.
  pose proof (kept_cleanup a w0 _ root (Hk w0)) as Hcl. cbn [w0 cbbs] in Hcl. rewrite lookup_insert_eq in Hcl.
  specialize (Hcl eq_refl eq_refl). by destruct ((build realloc_ok d a;; _) w0).
Qed.
