(* ===== verification/DocRead.v ===== *)
(** * BoringSSL: reading documents

    [read_doc] takes a document of a known shape apart with the functions of
    cbs.c; what [encode] makes of a document is read back as the document. *)
From S2P Require Import Prelude CBuf CMem CProc Cbs CbsSpec Cbb CbbSpec CbbOps DerInt CbbDoc.

(** A value of the type and length of [v]. *)
Definition read_like (v : value) : reader value :=
  match v with
  | Bytes bs => x ← CBS_get_bytes (CBS_len bs); mret (Bytes x)
  | Zeros n => CBS_skip (Z.of_nat n);; mret (Zeros n)
  | Unsigned k _ => x ← cbs_get_u (Z.of_nat k); mret (Unsigned k x)
  | Uint64 _ => x ← CBS_get_asn1_uint64; mret (Uint64 x)
  | Int64 _ => x ← CBS_get_asn1_int64; mret (Int64 x)
  | Octets _ => x ← CBS_get_asn1 CBS_ASN1_OCTETSTRING; mret (Octets x)
  | Boolean _ => x ← CBS_get_asn1_bool; mret (Boolean x)
  end.

Definition read_bracket (c : bracket) : reader CBS :=
  match c with
  | Prefixed n => cbs_get_length_prefixed (Z.of_nat n)
  | Element t => CBS_get_asn1 t
  end.

(** A document of the shape of [d]; a child has to be read to its end. *)
Fixpoint read_doc (d : doc) : reader doc :=
  match d with
  | Empty => mret Empty
  | Value v next => v' ← read_like v; next' ← read_doc next; mret (Value v' next')
  | Child c inner next =>
      contents ← read_bracket c;
      '(inner', rest) ← on contents (read_doc inner);
      if negb (CBS_len rest =? 0) then return_0
      else next' ← read_doc next; mret (Child c inner' next')
  end.

(** ** What the builder writes are bytes *)

Lemma base128_is_bytes t : asn1_tag t -> bytes (ident t).
Proof. apply ident_bytes. Qed.

Lemma der_is_bytes t body : asn1_tag t -> bytes body -> bytes (der t body).
Proof.
  intros Ht Hb. unfold der. rewrite !Forall_app. split_and!; [by apply ident_bytes|apply der_length_bytes; lia|done].
Qed.

Lemma encode_value_bytes v : value_ok v -> bytes (encode_value v).
Proof.
  destruct v; cbn [value_ok encode_value]; intros Hv; try (apply der_is_bytes; [by unfold asn1_tag|]).
  - by destruct Hv.
  - apply Forall_replicate. by unfold in_u.
  - apply be_bytes.
  - apply int_body_bytes.
  - apply int_body_bytes.
  - by destruct Hv.
  - repeat constructor; unfold in_u; by destruct b.
Qed.

Lemma length_prefix_bytes k n p : 0 <= n -> length_prefix k n = Some p -> bytes p.
Proof.
  intros Hn. destruct k; cbn [length_prefix]; case_match; intros [= <-]; [apply be_bytes|by apply der_length_bytes].
Qed.

Lemma encode_bytes d s : doc_ok d -> encode d = Some s -> bytes s.
Proof.
  revert s. induction d as [|v next IH|c inner IHi next IH]; intros s Hd Hs; cbn [encode doc_ok] in *.
  - by injection Hs as <-.
  - destruct Hd as [Hv Hd]. apply bind_Some in Hs as (n & Hn & [= <-]). apply Forall_app.
    split; [by apply encode_value_bytes|by apply IH].
  - destruct Hd as (Hc & Hdi & Hd). apply bind_Some in Hs as (i & Hi & Hs).
    apply bind_Some in Hs as (p & Hp & Hs). apply bind_Some in Hs as (n & Hn & [= <-]).
    rewrite !Forall_app. split_and!; [|by eapply length_prefix_bytes, Hp; lia|by apply IHi|by apply IH].
    destruct c; cbn [head fst]; [done|by apply ident_bytes].
Qed.

(** ** Reading back *)

Lemma accepts_done {A} (r : reader A) dom enc cbs v rest :
  accepts r dom enc cbs -> dom v -> cbs = enc v ++ rest ->
  (forall v' rest', dom v' -> enc v' ++ rest' = enc v ++ rest -> v' = v /\ rest' = rest) ->
  r cbs = Done v rest.
Proof.
  intros [(v' & rest' & Hv' & E & ->)|[_ Hno]] Hv Hcbs Hinj; [|by destruct (Hno v rest Hv)].
  rewrite Hcbs in E. destruct (Hinj v' rest' Hv' (eq_sym E)) as [-> ->]. done.
Qed.

Lemma der_body_inj {A} t (body : A -> list Z) v v' rest rest' :
  asn1_tag t -> Z.of_nat (length (body v)) < 2 ^ 32 -> Z.of_nat (length (body v')) < 2 ^ 32 ->
  CBS_len (der t (body v) ++ rest) < 2 ^ 60 ->
  der t (body v') ++ rest' = der t (body v) ++ rest -> body v' = body v /\ rest' = rest.
Proof.
  intros Ht Hv Hv' Hl E. apply der_inj in E as (_ & -> & ->); [done|by split|by split|by rewrite E].
Qed.

Lemma int_der_inj dom v v' rest rest' :
  (forall x, dom x -> fits 9 x = true) -> dom v -> dom v' -> CBS_len (der CBS_ASN1_INTEGER (int_body v) ++ rest) < 2 ^ 60 ->
  der CBS_ASN1_INTEGER (int_body v') ++ rest' = der CBS_ASN1_INTEGER (int_body v) ++ rest -> v' = v /\ rest' = rest.
Proof.
  intros Hdom Hv Hv' Hl E.
  assert (forall x, dom x -> Z.of_nat (length (int_body x)) < 2 ^ 32) as Hlen.
  { intros x Hx. rewrite length_int_body. pose proof (int_len_le x 9 ltac:(lia) (Hdom x Hx)). lia. }
  apply (der_body_inj CBS_ASN1_INTEGER int_body) in E as [E ->]; [|by unfold asn1_tag|by apply Hlen..|done].
  split; [|done]. apply (f_equal int_val) in E. by rewrite !int_val_body in E.
Qed.

Lemma read_value v rest :
  value_ok v -> bytes rest -> CBS_len (encode_value v ++ rest) < 2 ^ 60 ->
  read_like v (encode_value v ++ rest) = Done v rest.
Proof.
  intros Hv Hr Hl. pose proof (encode_value_bytes v Hv) as Hb.
  assert (bytes (encode_value v ++ rest)) as Hbr by (by apply Forall_app).
  destruct v; cbn [value_ok encode_value read_like] in *.
  - unfold CBS_get_bytes. rewrite proc_bind_assoc. unfold CBS_len. by rewrite (bind_Done _ _ _ _ _ (cbs_get_app bs rest)).
  - unfold CBS_skip. rewrite proc_bind_assoc. pose proof (cbs_get_app (replicate n 0) rest) as E.
    rewrite length_replicate in E. by rewrite (bind_Done _ _ _ _ _ E).
  - destruct Hv as [Hk Hv]. pose proof (cbs_get_u_app (be k v) rest (be_bytes k v)) as E.
    rewrite length_be, be_val_be, Z.mod_small in E by done. by rewrite (bind_Done _ _ _ _ _ (E ltac:(lia))).
  - erewrite bind_Done; [done|]. eapply accepts_done; [by apply get_uint64_accepts|done|done|].
    intros v' rest' Hv' E. by apply (int_der_inj u64_dom); [apply u64_fits|..].
  - erewrite bind_Done; [done|]. eapply accepts_done; [by apply get_int64_accepts|done|done|].
    intros v' rest' Hv' E. apply (int_der_inj s64_dom); try done.
    intros x Hx. apply (fits_mono 8); [lia|by apply s64_fits].
  - destruct Hv as [_ Hn]. erewrite bind_Done; [done|]. apply get_asn1_complete; [|done]. split; [by unfold asn1_tag|lia].
  - erewrite bind_Done; [done|]. eapply accepts_done; [by apply get_bool_accepts|done|done|].
    intros v' rest' _ E. apply (der_body_inj CBS_ASN1_BOOLEAN bool_body) in E as [E ->]; [|done..].
    split; [|done]. by destruct b, v'.
Qed.

Lemma length_prefixed_read n p i rest :
  (0 < n <= 3)%nat -> length_prefix (Fixed n) (Z.of_nat (length i)) = Some p ->
  cbs_get_length_prefixed (Z.of_nat n) ((p ++ i) ++ rest) = Done i rest.
Proof.
  intros Hn Hp. cbn [length_prefix] in Hp. case_match eqn:E; [|done]. injection Hp as <-. apply Z.ltb_lt in E.
  unfold cbs_get_length_prefixed. rewrite <- app_assoc.
  pose proof (cbs_get_u_app (be n (Z.of_nat (length i))) (i ++ rest) (be_bytes _ _)) as R.
  rewrite length_be, be_val_be, Z.mod_small in R by lia. rewrite (bind_Done _ _ _ _ _ (R ltac:(lia))).
  rewrite (proj2 (Z.ltb_ge 3 _)) by lia. unfold CBS_get_bytes. by rewrite (bind_Done _ _ _ _ _ (cbs_get_app i rest)).
Qed.

Lemma read_child c p i rest :
  bracket_ok c -> length_prefix (head c).2 (Z.of_nat (length i)) = Some p ->
  CBS_len (((head c).1 ++ p ++ i) ++ rest) < 2 ^ 60 ->
  read_bracket c (((head c).1 ++ p ++ i) ++ rest) = Done i rest.
Proof.
  intros Hc Hp Hl. destruct c as [n|t]; cbn [head fst snd read_bracket bracket_ok app] in *.
  - by apply length_prefixed_read.
  - cbn [length_prefix] in Hp. case_match eqn:E; [|done]. injection Hp as <-.
    apply get_asn1_complete; [|exact Hl]. split; [done|lia].
Qed.

Lemma read_doc_spec d s rest :
  doc_ok d -> encode d = Some s -> bytes rest -> CBS_len (s ++ rest) < 2 ^ 60 ->
  read_doc d (s ++ rest) = Done d rest.
Proof.
  revert s rest. induction d as [|v next IH|c inner IHi next IH]; intros s rest Hd Hs Hr Hl; cbn [encode doc_ok read_doc] in *.
  - by injection Hs as <-.
  - destruct Hd as [Hv Hd]. apply bind_Some in Hs as (n & Hn & [= <-]). rewrite <- app_assoc in *.
    assert (bytes (n ++ rest)) as Hbn by (apply Forall_app; split; [by eapply encode_bytes|done]).
    rewrite (bind_Done _ _ _ _ _ (read_value v (n ++ rest) Hv Hbn Hl)).
    unfold CBS_len in Hl. rewrite length_app in Hl.
    rewrite (bind_Done _ _ _ next rest); [done|]. apply IH; [done|done|done|unfold CBS_len; lia].
  - destruct Hd as (Hc & Hdi & Hd). apply bind_Some in Hs as (i & Hi & Hs).
    apply bind_Some in Hs as (p & Hp & Hs). apply bind_Some in Hs as (n & Hn & [= <-]). rewrite <- app_assoc in *.
    rewrite (bind_Done _ _ _ _ _ (read_child c p i (n ++ rest) Hc Hp Hl)).
    unfold CBS_len in Hl. rewrite !length_app in Hl.
    assert (read_doc inner i = Done inner []) as Ei.
    { rewrite <- (app_nil_r i) at 1. apply IHi; [done|done|done|]. unfold CBS_len. rewrite app_nil_r. lia. }
    unfold mbind at 1, proc_bind at 1. unfold on. rewrite Ei. change (CBS_len [] =? 0) with true. cbn [negb].
    rewrite (bind_Done _ _ _ next rest); [done|]. apply IH; [done|done|done|unfold CBS_len; rewrite length_app; lia].
Qed.
