(* ===== verification/Oid.v ===== *)
(** * BoringSSL: object identifiers as text

    [CBB_add_asn1_oid_from_text] of cbb.c and [CBS_asn1_oid_to_text] of cbs.c. *)
From S2P Require Import Prelude CBuf CMem CProc Cbs Cbb.

Definition UINT64_MAX := 2 ^ 64 - 1.

(** One decimal component.  Every round takes a character. *)
Fixpoint dotted_loop (fuel : nat) (out : Z) (seen_digit : bool) : reader Z := fun cbs =>
  let finish cbs := if seen_digit then Done out cbs else Bad cbs in
  match fuel with
  | O => Stuck
  | S fuel' =>
      match CBS_get_u8 cbs with
      | Stuck => Stuck
      | Bad cbs => finish cbs
      | Done u cbs =>
          if (u =? 46) && (0 <? CBS_len cbs) then finish cbs
          else if (u <? 48) || (57 <? u) || (seen_digit && (out =? 0)) ||
                  (UINT64_MAX / 10 <? out) || (UINT64_MAX - (u - 48) <? u64 (out * 10))
          then Bad cbs
          else dotted_loop fuel' (u64 (out * 10 + (u - 48))) true cbs
      end
  end.

Definition parse_dotted_decimal : reader Z :=
  cbs ← current; dotted_loop (S (length cbs)) 0 false.

Section Oid.
Context (realloc_ok : Z -> bool).

(** The components after the second one. *)
Fixpoint oid_components (fuel : nat) (a : Z) (cbs : CBS) : builder unit :=
  if CBS_len cbs <=? 0 then mret tt
  else match fuel with
  | O => stuck
  | S fuel' =>
      '(v, cbs) ← on cbs parse_dotted_decimal;
      add_base128_integer realloc_ok a v;;
      oid_components fuel' a cbs
  end.

Definition CBB_add_asn1_oid_from_text (a : Z) (text : list Z) : builder unit :=
  CBB_flush realloc_ok a;;
  let cbs := CBS_init text in
  '(x, cbs) ← on cbs parse_dotted_decimal;
  '(y, cbs) ← on cbs parse_dotted_decimal;
  if (2 <? x) || ((x <? 2) && (39 <? y)) || (UINT64_MAX - 80 <? y) then return_0
  else
    add_base128_integer realloc_ok a (u64 (40 * x + y));;
    oid_components (length cbs) a cbs.

(** What BIO_snprintf makes of the format PRIu64. *)
Fixpoint decimal_digits (fuel : nat) (v : Z) : list Z :=
  (match fuel with
   | O => []
   | S fuel' => if v <? 10 then [] else decimal_digits fuel' (v / 10)
   end) ++ [48 + v mod 10].

(** Twenty digits are enough for 64 bits; the array has 24 characters. *)
Definition decimal_text (v : Z) : list Z := decimal_digits 19 v.

Definition add_decimal (out v : Z) : builder unit := CBB_add_bytes realloc_ok out (decimal_text v).

(** The loop over the other components. *)
Fixpoint text_components (fuel : nat) (cbb : Z) (copy : CBS) : builder unit :=
  if CBS_len copy =? 0 then mret tt
  else match fuel with
  | O => stuck
  | S fuel' =>
      '(v, copy) ← on copy parse_base128_integer;
      CBB_add_u8 realloc_ok cbb 46;;
      add_decimal cbb v;;
      text_components fuel' cbb copy
  end.

Definition oid_text_body (cbb : Z) (cbs : CBS) : builder unit :=
  let copy := cbs in
  '(v, copy) ← on copy parse_base128_integer;
  (if 80 <=? v then
     CBB_add_bytes realloc_ok cbb [50; 46];; add_decimal cbb (v - 80)
   else
     add_decimal cbb (v / 40);; CBB_add_u8 realloc_ok cbb 46;; add_decimal cbb (v mod 40));;
  text_components (length copy) cbb copy.

(** The string; [Some None] is a null pointer.  The [CBB] is local, with a
    buffer of its own. *)
Definition CBS_asn1_oid_to_text (buf_ok base_ok : bool) (cbs : CBS) : option (option (list (option Z))) :=
  let cbb := 0 in
  match (CBB_init buf_ok base_ok cbb 32;;
         oid_text_body cbb cbs;;
         CBB_add_u8 realloc_ok cbb 0;;
         CBB_finish realloc_ok true cbb) (mk_world None ∅) with
  | Done txt _ => Some (Some txt)
  | Bad w => match CBB_cleanup cbb w with Stuck => None | _ => Some None end
  | Stuck => None
  end.
End Oid.

(** 1.2.840.113549 *)
Example oid_rsadsi :
  let text := [49;46;50;46;56;52;48;46;49;49;51;53;52;57] in
  let body := [0x2a; 0x86; 0x48; 0x86; 0xf7; 0x0d] in
  match (CBB_init true true 1 4;; CBB_add_asn1_oid_from_text (fun _ => true) 1 text;;
         CBB_finish (fun _ => true) true 1) (mk_world None ∅) with
  | Done bs _ => bs = Some <$> body
  | _ => False
  end
  /\ CBS_asn1_oid_to_text (fun _ => true) true true body = Some (Some (Some <$> text ++ [0])).
Proof. vm_compute. done. Qed.
