(* ===== verification/OidSpec.v ===== *)
(** * BoringSSL: the text and the encoding of an object identifier

    Both are functions of the list of components; the parser of components
    accepts exactly the decimal numbers without leading zeros. *)
From S2P Require Import Prelude CBuf CMem CProc Cbs CbsSpec Cbb CbbSpec CbbOps DerInt CbbDoc CbbKeep Oid.

#[local] Ltac Zify.zify_post_hook ::= Z.to_euclidean_division_equations.

(** ** Decimal numbers *)

Lemma decimal_digits_fuel f g v :
  0 <= v < 10 ^ Z.of_nat (S f) -> v < 10 ^ Z.of_nat (S g) -> decimal_digits f v = decimal_digits g v.
Proof.
  revert g v. induction f as [|f IH]; intros g v Hf Hg.
  - change (10 ^ Z.of_nat 1) with 10 in Hf. destruct g as [|g]; [done|]. cbn [decimal_digits].
    by rewrite (proj2 (Z.ltb_lt v 10)) by lia.
  - rewrite Nat2Z.inj_succ, Z.pow_succ_r in Hf by lia. cbn [decimal_digits].
    destruct g as [|g]; [change (10 ^ Z.of_nat 1) with 10 in Hg; cbn [decimal_digits]; by rewrite (proj2 (Z.ltb_lt v 10)) by lia|].
    rewrite (Nat2Z.inj_succ (S g)), Z.pow_succ_r in Hg by lia. cbn [decimal_digits].
    destruct (v <? 10); [done|]. f_equal. apply IH; lia.
Qed.

Lemma decimal_digits_S f v :
  decimal_digits (S f) v = (if v <? 10 then [] else decimal_digits f (v / 10)) ++ [48 + v mod 10].
Proof. done. Qed.

Lemma decimal_text_step v :
  0 <= v < 2 ^ 64 -> decimal_text v = if v <? 10 then [48 + v] else decimal_text (v / 10) ++ [48 + v mod 10].
Proof.
  intros Hv. unfold decimal_text. rewrite (decimal_digits_S 18 v).
  destruct (v <? 10) eqn:E; [cbn [app]; do 2 f_equal; lia|].
  rewrite (decimal_digits_fuel 18 19); [done| |]; change (10 ^ Z.of_nat 19) with 10000000000000000000;
    change (10 ^ Z.of_nat 20) with 100000000000000000000; lia.
Qed.

Definition u64_dec (v : Z) : Prop := 0 <= v < 2 ^ 64.

Lemma decimal_text_nonempty v : decimal_text v <> [].
Proof. unfold decimal_text. rewrite (decimal_digits_S 18 v). by destruct (_ ++ _) eqn:E; [apply app_eq_nil in E as []|]. Qed.

Lemma decimal_text_bytes v : bytes (decimal_text v).
Proof.
  unfold decimal_text. generalize 19%nat as f. intros f. revert v.
  induction f as [|f IH]; intros v; cbn [decimal_digits]; apply Forall_app; (split; [|constructor; [unfold in_u; lia|done]]).
  - done.
  - by case_match.
Qed.

(** ** The parser *)

(** One round of the loop. *)
Lemma dotted_round fuel out seen u cbs :
  in_u 8 u -> u64_dec out ->
  dotted_loop (S fuel) out seen (u :: cbs) =
  if (u =? 46) && (0 <? CBS_len cbs) then (if seen then Done out cbs else Bad cbs)
  else if (u <? 48) || (57 <? u) || (seen && (out =? 0)) || (2 ^ 64 - 1 <? out * 10 + (u - 48)) then Bad cbs
  else dotted_loop fuel (out * 10 + (u - 48)) true cbs.
Proof.
  intros Hu Ho. unfold in_u in Hu. unfold u64_dec in Ho. cbn [dotted_loop]. rewrite get_u8_eq.
  destruct ((u =? 46) && (0 <? CBS_len cbs)); [done|]. unfold UINT64_MAX.
  destruct ((u <? 48) || (57 <? u)) eqn:E1; cbn [orb]; [done|].
  destruct (seen && (out =? 0)) eqn:E2; cbn [orb]; [done|].
  destruct ((2 ^ 64 - 1) / 10 <? out) eqn:E3; cbn [orb].
  - by rewrite (proj2 (Z.ltb_lt (2 ^ 64 - 1) _)) by lia.
  - rewrite (wrapu_id 64 (out * 10)) by (unfold in_u; lia).
    destruct (2 ^ 64 - 1 - (u - 48) <? out * 10) eqn:E4.
    + by rewrite (proj2 (Z.ltb_lt (2 ^ 64 - 1) _)) by lia.
    + rewrite (proj2 (Z.ltb_ge (2 ^ 64 - 1) _)) by lia. by rewrite wrapu_id by (unfold in_u; lia).
Qed.

(** What the loop returns at the end of a component. *)
Definition ends (v : Z) (tail rest : list Z) : Prop :=
  (tail = [] /\ rest = []) \/ (tail = 46 :: rest /\ rest <> []).

Lemma dotted_sound fuel out seen cbs :
  bytes cbs -> u64_dec out -> (length cbs < fuel)%nat -> (seen = false -> out = 0) ->
  (exists rest, dotted_loop fuel out seen cbs = Bad rest) \/
  exists v c tail rest, dotted_loop fuel out seen cbs = Done v rest /\ u64_dec v /\ cbs = c ++ tail /\
    (if seen then decimal_text out else []) ++ c = decimal_text v /\ ends v tail rest.
Proof.
  intros Hb. revert fuel out seen. induction Hb as [|u cbs Hu Hcbs IH]; intros fuel out seen Ho Hf Hs;
    (destruct fuel as [|fuel]; [lia|]).
  - cbn [dotted_loop]. rewrite get_u8_eq. destruct seen; [right|left; by eexists].
    exists out, [], [], []. split_and!; [done..|by rewrite app_nil_r|by left].
  - cbn [length] in Hf. rewrite dotted_round by done. unfold in_u in Hu.
    destruct ((u =? 46) && (0 <? CBS_len cbs)) eqn:E1.
    + destruct seen; [right|left; by eexists]. exists out, [], (u :: cbs), cbs.
      split_and!; [done..|by rewrite app_nil_r|]. right. split; [f_equal; lia|].
      intros ->. by rewrite andb_false_r in E1.
    + destruct (_ || _) eqn:E2; [left; by eexists|]. unfold u64_dec in *.
      destruct (IH fuel (out * 10 + (u - 48)) true) as [[rest E]|(v & c & tail & rest & E & Hv & -> & Hc & He)];
        [lia|lia|done|left; by eexists|].
      right. exists v, (u :: c), tail, rest. split_and!; [done|lia|lia|done| |done]. rewrite <- Hc.
      rewrite (decimal_text_step (out * 10 + (u - 48))) by lia. destruct seen.
      * rewrite (proj2 (Z.ltb_ge _ 10)) by lia. rewrite Z.div_add_l, Z.div_small, Z.add_0_r by lia.
        rewrite <- app_assoc. cbn [app]. do 2 f_equal. lia.
      * rewrite Hs by done. rewrite (proj2 (Z.ltb_lt _ 10)) by lia. cbn [app]. f_equal. lia.
Qed.

Lemma dotted_digits n fuel v tail :
  u64_dec v -> v < 10 ^ Z.of_nat (S n) -> (length (decimal_text v) <= fuel)%nat ->
  dotted_loop fuel 0 false (decimal_text v ++ tail) = dotted_loop (fuel - length (decimal_text v)) v true tail.
Proof.
  revert v tail. induction n as [|n IH]; intros v tail Hv Hn Hf; unfold u64_dec in *; rewrite decimal_text_step in * by lia.
  - change (10 ^ Z.of_nat 1) with 10 in Hn. rewrite (proj2 (Z.ltb_lt v 10)) in * by lia. cbn [app length] in *.
    destruct fuel as [|fuel]; [lia|]. rewrite dotted_round by (unfold in_u, u64_dec; lia).
    rewrite (proj2 (Z.eqb_neq (48 + v) 46)) by lia. cbn [andb orb].
    destruct (_ || _) eqn:E; [lia|]. f_equal; lia.
  - rewrite Nat2Z.inj_succ, Z.pow_succ_r in Hn by lia. destruct (v <? 10) eqn:E10.
    + cbn [app length] in *. destruct fuel as [|fuel]; [lia|]. rewrite dotted_round by (unfold in_u, u64_dec; lia).
      rewrite (proj2 (Z.eqb_neq (48 + v) 46)) by lia. cbn [andb orb].
      destruct (_ || _) eqn:E; [lia|]. f_equal; lia.
    + rewrite length_app in *. cbn [length] in *. rewrite <- app_assoc. cbn [app]. rewrite IH by lia.
      set (k := length (decimal_text (v / 10))) in *. replace (fuel - k)%nat with (S (fuel - (k + 1))) by lia.
      rewrite dotted_round by (unfold in_u, u64_dec; lia). rewrite (proj2 (Z.eqb_neq (48 + v mod 10) 46)) by lia.
      cbn [andb orb]. destruct (_ || _) eqn:E; [lia|]. f_equal; lia.
Qed.

(** ** Lists of components *)

Fixpoint join (vs : list Z) : list Z :=
  match vs with
  | [] => []
  | [v] => decimal_text v
  | v :: vs' => decimal_text v ++ 46 :: join vs'
  end.

Lemma join_nil vs : join vs = [] -> vs = [].
Proof.
  destruct vs as [|v [|v' vs]]; cbn [join]; [done|by intros ?%decimal_text_nonempty|].
  by intros [? ?]%app_eq_nil.
Qed.

Lemma join_bytes vs : bytes (join vs).
Proof.
  induction vs as [|v [|v' vs] IH]; cbn [join]; [done|apply decimal_text_bytes|].
  apply Forall_app. split; [apply decimal_text_bytes|]. constructor; [by unfold in_u|done].
Qed.

Lemma join_ends v vs : exists tail, join (v :: vs) = decimal_text v ++ tail /\ ends v tail (join vs).
Proof.
  destruct vs as [|v' vs].
  - exists []. rewrite app_nil_r. split; [done|by left].
  - exists (46 :: join (v' :: vs)). split; [done|]. right. split; [done|]. by intros H%join_nil.
Qed.

Lemma parse_join v vs : u64_dec v -> parse_dotted_decimal (join (v :: vs)) = Done v (join vs).
Proof.
  intros Hv. destruct (join_ends v vs) as (tail & -> & He).
  unfold parse_dotted_decimal, mbind, proc_bind, current.
  rewrite (dotted_digits 19) by
    (done || (rewrite length_app; lia) || (change (10 ^ Z.of_nat 20) with 100000000000000000000; unfold u64_dec in Hv; lia)).
  rewrite length_app. set (k := length (decimal_text v)).
  replace (S (k + length tail) - k)%nat with (S (length tail)) by lia.
  destruct He as [[-> E]|[-> Hne]].
  - cbn [dotted_loop]. rewrite get_u8_eq. by rewrite E.
  - rewrite dotted_round by (done || by unfold in_u). change (46 =? 46) with true. cbn [andb].
    rewrite (proj2 (Z.ltb_lt 0 _)); [done|]. unfold CBS_len. destruct (join vs); [done|]. cbn [length]. lia.
Qed.

Lemma parse_cases cbs :
  bytes cbs ->
  ((exists rest, parse_dotted_decimal cbs = Bad rest) /\ forall v vs, u64_dec v -> cbs <> join (v :: vs)) \/
  exists v rest, u64_dec v /\ parse_dotted_decimal cbs = Done v rest /\ bytes rest /\
    (length rest < length cbs)%nat /\ (forall vs, rest = join vs -> cbs = join (v :: vs)) /\
    (forall v' vs, u64_dec v' -> cbs = join (v' :: vs) -> v' = v /\ rest = join vs).
Proof.
  intros Hb. destruct (dotted_sound (S (length cbs)) 0 false cbs) as [[rest E]|(v & c & tail & rest & E & Hv & -> & Hc & He)];
    [done|by unfold u64_dec|lia|done| |].
  - left. split; [by exists rest|]. intros v vs Hv ->. pose proof (parse_join v vs Hv) as E'.
    unfold parse_dotted_decimal, mbind, proc_bind, current in E'. congruence.
  - right. exists v, rest. cbn [app] in Hc. subst c.
    assert (parse_dotted_decimal (decimal_text v ++ tail) = Done v rest) as Ep by exact E.
    pose proof (decimal_text_nonempty v) as Hne.
    split_and!; [done|done| | | |].
    + apply Forall_app in Hb as [_ Hb]. destruct He as [[-> ->]|[-> _]]; [done|]. by apply Forall_cons in Hb as [_ Hb].
    + rewrite length_app. destruct (decimal_text v); [done|]. cbn [length].
      destruct He as [[-> ->]|[-> _]]; cbn [length]; lia.
    + intros vs ->. destruct He as [[-> Hr]|[-> Hr]].
      * apply join_nil in Hr as ->. by rewrite app_nil_r.
      * destruct vs; [done|]. done.
    + intros v' vs Hv' Heq. rewrite Heq, parse_join in Ep by done. by injection Ep as <- <-.
Qed.

(** ** From the text *)

(** What an OBJECT IDENTIFIER allows, within 64 bits. *)
Definition oid_ok (x y : Z) (vs : list Z) : Prop :=
  0 <= x <= 2 /\ 0 <= y <= 2 ^ 64 - 1 - 80 /\ (x < 2 -> y <= 39) /\ Forall u64_dec vs.

(** The contents octets. *)
Definition arcs (vs : list Z) : list Z := concat (base128 <$> vs).
Definition oid_body (x y : Z) (vs : list Z) : list Z := base128 (40 * x + y) ++ arcs vs.

Lemma arcs_cons v vs : arcs (v :: vs) = base128 v ++ arcs vs.
Proof. done. Qed.

Section FromText.
Context (realloc_ok : Z -> bool) (resizable : bool) (limit : Z).

#[local] Abbreviation open_at := (open_at resizable limit).
#[local] Abbreviation appends := (appends resizable limit).
#[local] Abbreviation hopeless := (hopeless realloc_ok resizable limit).

Lemma components_spec fuel w pre a body cbs :
  open_at w pre a body -> bytes cbs -> (length cbs <= fuel)%nat ->
  triple (oid_components realloc_ok fuel a cbs w)
    (fun _ w' => exists vs, Forall u64_dec vs /\ cbs = join vs /\ appends w pre a body (arcs vs) w')
    (fun _ => forall vs, Forall u64_dec vs -> cbs = join vs ->
       hopeless (Z.of_nat (length pre + length body + length (arcs vs)))).
Proof.
  revert w body cbs. induction fuel as [|fuel IH]; intros w body cbs Ho Hb Hf; cbn [oid_components].
  { destruct cbs; [|cbn in Hf; lia]. exists []. split_and!; [done..|]. by apply appends_nil. }
  destruct cbs as [|c cbs].
  { exists []. split_and!; [done..|]. by apply appends_nil. }
  rewrite (proj2 (Z.leb_gt (CBS_len (c :: cbs)) 0)) by (unfold CBS_len; cbn [length]; lia).
  set (text := c :: cbs) in *. assert (text <> []) as Hne by done. clearbody text.
  unfold mbind at 1, proc_bind at 1. unfold on.
  destruct (parse_cases text Hb) as [[[r ->] Hno]|(v & rest & Hv & -> & Hbr & Hlr & Hjoin & Huniq)].
  { cbn [triple]. intros vs Hvs E. destruct Hvs as [|v vs Hv Hvs]; [done|]. by eapply Hno in E. }
  eapply triple_bind.
  { eapply triple_weaken; [apply (add_base128_spec realloc_ok resizable limit w pre a body v Ho Hv)|intros x s H; exact H|].
    intros w1 [_ Hh] vs Hvs E. destruct Hvs as [|v' vs Hv' Hvs]; [done|].
    destruct (Huniq v' vs Hv' E) as [-> _]. eapply hopeless_mono; [exact Hh|]. rewrite arcs_cons, length_app. lia. }
  intros x w1 Hw1. eapply triple_weaken; [apply (IH w1 (body ++ base128 v) rest); [apply Hw1|done|lia]| |].
  - intros y w2 (vs & Hvs & -> & Hw2). exists (v :: vs). split_and!; [by constructor|by apply Hjoin|].
    rewrite arcs_cons. eapply appends_trans; [exact Hw1|exact Hw2].
  - intros w2 Hh vs Hvs E. destruct Hvs as [|v' vs Hv' Hvs]; [done|]. destruct (Huniq v' vs Hv' E) as [-> ->].
    eapply hopeless_mono; [by apply Hh|]. rewrite arcs_cons, !length_app. lia.
Qed.

Lemma from_text_spec w pre a body text :
  open_at w pre a body -> bytes text ->
  triple (CBB_add_asn1_oid_from_text realloc_ok a text w)
    (fun _ w' => exists x y vs, oid_ok x y vs /\ text = join (x :: y :: vs) /\ appends w pre a body (oid_body x y vs) w')
    (fun _ => forall x y vs, oid_ok x y vs -> text = join (x :: y :: vs) ->
       hopeless (Z.of_nat (length pre + length body + length (oid_body x y vs)))).
Proof.
  intros Ho Hb. unfold CBB_add_asn1_oid_from_text. rewrite (flush_open _ _ _ _ _ _ _ _ Ho).
  unfold CBS_init. unfold mbind at 1, proc_bind at 1. unfold on at 1.
  destruct (parse_cases text Hb) as [[[r ->] Hno]|(x & rest & Hx & -> & Hb1 & _ & Hjoin & Huniq)].
  { cbn [triple]. intros x y vs (Hx & _) E. exfalso. eapply Hno; [|exact E]. unfold u64_dec. lia. }
  unfold mbind at 1, proc_bind at 1. unfold on at 1.
  destruct (parse_cases rest Hb1) as [[[r ->] Hno]|(y & rest2 & Hy & -> & Hb2 & _ & Hjoin2 & Huniq2)].
  { cbn [triple]. intros x' y vs (Hx' & Hy & _) E. destruct (Huniq x' (y :: vs)) as [_ E2]; [unfold u64_dec; lia|done|].
    exfalso. eapply Hno; [|exact E2]. unfold u64_dec. lia. }
  assert (forall x' y' vs, oid_ok x' y' vs -> text = join (x' :: y' :: vs) -> x' = x /\ y' = y /\ rest2 = join vs) as Hall.
  { intros x' y' vs (Hx' & Hy' & _) E. destruct (Huniq x' (y' :: vs)) as [-> E2]; [unfold u64_dec; lia|done|].
    destruct (Huniq2 y' vs) as [-> E3]; [unfold u64_dec; lia|done|]. done. }
  unfold UINT64_MAX. unfold u64_dec in *. destruct (_ || _) eqn:Eok.
  { cbn [triple]. intros x' y' vs Hok E. destruct (Hall x' y' vs Hok E) as (-> & -> & _).
    destruct Hok as (? & ? & ? & _). lia. }
  rewrite wrapu_id by (unfold in_u; lia). eapply triple_bind.
  { eapply triple_weaken; [apply (add_base128_spec realloc_ok resizable limit w pre a body (40 * x + y) Ho ltac:(lia))
      |intros z s H; exact H|].
    intros w1 [_ Hh] x' y' vs Hok E. destruct (Hall x' y' vs Hok E) as (-> & -> & _).
    eapply hopeless_mono; [exact Hh|]. unfold oid_body. rewrite length_app. lia. }
  intros z w1 Hw1.
  eapply triple_weaken; [apply (components_spec (length rest2) w1 pre a (body ++ base128 (40 * x + y)) rest2); [apply Hw1|done|lia]| |].
  - intros z' w2 (vs & Hvs & -> & Hw2). exists x, y, vs. split_and!.
    + split_and!; try lia. exact Hvs.
    + rewrite (Hjoin (y :: vs)); [done|]. by rewrite (Hjoin2 vs).
    + unfold oid_body. eapply appends_trans; [exact Hw1|exact Hw2].
  - intros w2 Hh x' y' vs Hok E. destruct (Hall x' y' vs Hok E) as (-> & -> & E3). destruct Hok as (_ & _ & _ & Hvs).
    eapply hopeless_mono; [by apply Hh|]. unfold oid_body. rewrite !length_app. lia.
Qed.
End FromText.

(** ** From the encoding *)

(** The components behind the first one, each after a dot. *)
Definition dots (vs : list Z) : list Z := concat ((fun v => 46 :: decimal_text v) <$> vs).

Lemma dots_cons v vs : dots (v :: vs) = [46] ++ decimal_text v ++ dots vs.
Proof. done. Qed.

Lemma join_dots v vs : join (v :: vs) = decimal_text v ++ dots vs.
Proof.
  revert v. induction vs as [|v' vs IH]; intros v; [cbn [join dots]; by rewrite app_nil_r|].
  change (join (v :: v' :: vs)) with (decimal_text v ++ 46 :: join (v' :: vs)). by rewrite IH.
Qed.

Lemma base128_nonempty v : base128 v <> [].
Proof. unfold base128. by intros [_ ?]%app_eq_nil. Qed.

(** Reading one component of an encoding. *)
Lemma arc_cases cbs :
  bytes cbs ->
  ((exists rest, parse_base128_integer cbs = Bad rest) /\ forall v rest, u64_dec v -> cbs <> base128 v ++ rest) \/
  exists v rest, u64_dec v /\ parse_base128_integer cbs = Done v rest /\ bytes rest /\ cbs = base128 v ++ rest /\
    (length rest < length cbs)%nat /\
    (forall v' rest', u64_dec v' -> cbs = base128 v' ++ rest' -> v' = v /\ rest' = rest).
Proof.
  intros Hb. destruct (parse_base128_cases cbs Hb) as [[r E]|(v & rest & Hv & -> & E)].
  - left. split; [by exists r|]. intros v rest Hv ->. rewrite base128_complete in E by done. done.
  - right. exists v, rest. pose proof (base128_nonempty v). split_and!; [done|done| |done| |].
    + by apply Forall_app in Hb as [_ Hb].
    + rewrite length_app. destruct (base128 v); [done|]. cbn [length]. lia.
    + intros v' rest' Hv' Heq. rewrite Heq, base128_complete in E by done. by injection E as <- <-.
Qed.

Lemma arcs_inj vs vs' : Forall u64_dec vs -> Forall u64_dec vs' -> arcs vs = arcs vs' -> vs = vs'.
Proof.
  intros Hvs. revert vs'. induction Hvs as [|v vs Hv Hvs IH]; intros vs' Hvs' E; destruct Hvs' as [|v' vs' Hv' Hvs'].
  - done.
  - symmetry in E. rewrite arcs_cons in E. by apply app_eq_nil in E as [?%base128_nonempty _].
  - rewrite arcs_cons in E. by apply app_eq_nil in E as [?%base128_nonempty _].
  - rewrite !arcs_cons in E. pose proof (base128_complete v (arcs vs) Hv) as H. rewrite E, base128_complete in H by done.
    injection H as -> H. f_equal. by apply IH.
Qed.

Lemma oid_body_inj x y vs x' y' vs' :
  oid_ok x y vs -> oid_ok x' y' vs' -> oid_body x y vs = oid_body x' y' vs' -> x = x' /\ y = y' /\ vs = vs'.
Proof.
  intros (Hx & Hy & Hxy & Hvs) (Hx' & Hy' & Hxy' & Hvs') E. unfold oid_body in E.
  pose proof (base128_complete (40 * x + y) (arcs vs) ltac:(lia)) as H. rewrite E, base128_complete in H by lia.
  injection H as H1 H2. split; [lia|]. split; [lia|]. by apply arcs_inj.
Qed.

Section ToText.
Context (realloc_ok : Z -> bool).

#[local] Abbreviation open_at := (open_at true 32).
#[local] Abbreviation appends := (appends true 32).
#[local] Abbreviation hopeless := (hopeless realloc_ok true 32).
#[local] Abbreviation writes := (writes realloc_ok true 32).

Lemma decimal_text_length v : (length (decimal_text v) <= 20)%nat.
Proof.
  unfold decimal_text. enough (forall f, (length (decimal_digits f v) <= S f)%nat) as H by apply (H 19%nat).
  intros f. revert v. induction f as [|f IH]; intros v; [done|]. rewrite decimal_digits_S, length_app. cbn [length].
  specialize (IH (v / 10)). case_match; cbn [length]; lia.
Qed.

Lemma add_decimal_spec w pre a body v :
  open_at w pre a body -> writes (add_decimal realloc_ok a v) w pre a body (decimal_text v).
Proof. intros Ho. apply add_bytes_spec; [done|]. pose proof (decimal_text_length v). lia. Qed.

Lemma dot_decimal_spec w pre a body v :
  open_at w pre a body ->
  writes (CBB_add_u8 realloc_ok a 46;; add_decimal realloc_ok a v) w pre a body ([46] ++ decimal_text v).
Proof.
  intros Ho. apply writes_seq; [by apply writes_u8|]. intros w' Ho'. by apply add_decimal_spec.
Qed.

Lemma text_components_spec fuel w pre a body cbs :
  open_at w pre a body -> bytes cbs -> (length cbs <= fuel)%nat ->
  triple (text_components realloc_ok fuel a cbs w)
    (fun _ w' => exists vs, Forall u64_dec vs /\ cbs = arcs vs /\ appends w pre a body (dots vs) w')
    (fun _ => forall vs, Forall u64_dec vs -> cbs = arcs vs ->
       hopeless (Z.of_nat (length pre + length body + length (dots vs)))).
Proof.
  intros Ho Hb Hf. revert w body cbs Ho Hb Hf. induction fuel as [|fuel IH]; intros w body cbs Ho Hb Hf; cbn [text_components].
  { destruct cbs; [|cbn in Hf; lia]. exists []. split_and!; [done..|]. by apply appends_nil. }
  destruct cbs as [|c cbs].
  { exists []. split_and!; [done..|]. by apply appends_nil. }
  rewrite (proj2 (Z.eqb_neq (CBS_len (c :: cbs)) 0)) by (unfold CBS_len; cbn [length]; lia).
  set (text := c :: cbs) in *. assert (text <> []) as Hne by done. clearbody text.
  unfold mbind at 1, proc_bind at 1. unfold on.
  destruct (arc_cases text Hb) as [[[r ->] Hno]|(v & rest & Hv & -> & Hbr & Htext & Hlr & Huniq)].
  { cbn [triple]. intros vs Hvs E. destruct Hvs as [|v vs Hv Hvs]; [done|]. by eapply Hno in E. }
  match goal with |- triple ((?c1;; ?c2;; ?k) w) _ _ => rewrite <- (proc_bind_assoc c1 (fun _ => c2) (fun _ => k) w) end.
  eapply triple_bind.
  { eapply triple_weaken; [apply (dot_decimal_spec w pre a body v Ho)|intros x s H; exact H|].
    intros w1 [_ Hh] vs Hvs E. destruct Hvs as [|v' vs Hv' Hvs]; [done|]. rewrite arcs_cons in E.
    destruct (Huniq v' _ Hv' E) as [-> _]. eapply hopeless_mono; [exact Hh|]. rewrite dots_cons, !length_app. lia. }
  intros x w1 Hw1. eapply triple_weaken; [apply (IH w1 (body ++ [46] ++ decimal_text v) rest); [apply Hw1|done|lia]| |].
  - intros y w2 (vs & Hvs & -> & Hw2). exists (v :: vs). split_and!; [by constructor|by rewrite arcs_cons|].
    rewrite dots_cons, app_assoc. eapply appends_trans; [exact Hw1|exact Hw2].
  - intros w2 Hh vs Hvs E. destruct Hvs as [|v' vs Hv' Hvs]; [done|]. rewrite arcs_cons in E.
    destruct (Huniq v' _ Hv' E) as [-> E2]. eapply hopeless_mono; [by apply Hh|].
    rewrite dots_cons, !length_app. lia.
Qed.

(** The first two components share a number. *)
Lemma split_first v :
  u64_dec v ->
  exists x y, 0 <= x <= 2 /\ 0 <= y <= 2 ^ 64 - 1 - 80 /\ (x < 2 -> y <= 39) /\ v = 40 * x + y /\
    (if 80 <=? v then x = 2 /\ y = v - 80 else x = v / 40 /\ y = v mod 40) /\
    (forall x' y', 0 <= x' <= 2 -> 0 <= y' -> (x' < 2 -> y' <= 39) -> v = 40 * x' + y' -> x' = x /\ y' = y).
Proof.
  unfold u64_dec. intros Hv. destruct (80 <=? v) eqn:E; [exists 2, (v - 80)|exists (v / 40), (v mod 40)];
    split_and!; try lia; intros x' y'; lia.
Qed.

Lemma text_body_spec w pre a body cbs :
  open_at w pre a body -> bytes cbs ->
  triple (oid_text_body realloc_ok a cbs w)
    (fun _ w' => exists x y vs, oid_ok x y vs /\ cbs = oid_body x y vs /\ appends w pre a body (join (x :: y :: vs)) w')
    (fun _ => forall x y vs, oid_ok x y vs -> cbs = oid_body x y vs ->
       hopeless (Z.of_nat (length pre + length body + length (join (x :: y :: vs))))).
Proof.
  intros Ho Hb. unfold oid_text_body. cbv zeta. unfold mbind at 1, proc_bind at 1. unfold on.
  destruct (arc_cases cbs Hb) as [[[r ->] Hno]|(v & rest & Hv & -> & Hbr & Htext & Hlr & Huniq)].
  { cbn [triple]. intros x y vs (Hx & Hy & Hxy & _) E. exfalso. eapply Hno; [|exact E]. unfold u64_dec. lia. }
  destruct (split_first v Hv) as (x & y & Hx & Hy & Hxy & Ev & Hsplit & Hxyu).
  assert (forall x' y' vs, oid_ok x' y' vs -> cbs = oid_body x' y' vs -> x' = x /\ y' = y /\ rest = arcs vs) as Hall.
  { intros x' y' vs (Hx' & Hy' & Hxy' & _) E. destruct (Huniq (40 * x' + y') (arcs vs)) as [E1 E2];
      [unfold u64_dec; lia|exact E|]. destruct (Hxyu x' y') as [-> ->]; auto with lia. }
  assert (forall vs, join (x :: y :: vs) = (decimal_text x ++ [46] ++ decimal_text y) ++ dots vs) as Ej.
  { intros vs. by rewrite join_dots, dots_cons, <- !app_assoc. }
  eapply triple_bind.
  { eapply (triple_weaken _ (fun _ w' => appends w pre a body (decimal_text x ++ [46] ++ decimal_text y) w')
      _ (cannot realloc_ok true 32 pre body (decimal_text x ++ [46] ++ decimal_text y))); [|intros z s H; exact H|].
    - destruct (80 <=? v) eqn:E; destruct Hsplit as [E1 E2].
      + rewrite <- E2. subst x. change (decimal_text 2 ++ [46] ++ decimal_text y) with ([50; 46] ++ decimal_text y).
        apply writes_seq; [by apply add_bytes_spec|]. intros w' Ho'. by apply add_decimal_spec.
      + rewrite <- E1, <- E2. apply writes_seq; [by apply add_decimal_spec|].
        intros w' Ho'. by apply dot_decimal_spec.
    - intros w' [_ Hh] x' y' vs Hok E. destruct (Hall x' y' vs Hok E) as (-> & -> & _).
      eapply hopeless_mono; [exact Hh|]. rewrite Ej, (length_app _ (dots vs)). lia. }
  intros z w1 Hw1.
  eapply triple_weaken; [apply (text_components_spec (length rest) w1 pre a (body ++ (decimal_text x ++ [46] ++ decimal_text y)) rest);
    [apply Hw1|done|lia]| |].
  - intros z' w2 (vs & Hvs & -> & Hw2). exists x, y, vs. split; [exact (conj Hx (conj Hy (conj Hxy Hvs)))|]. split; [unfold oid_body; by rewrite <- Ev|].
    rewrite Ej. eapply appends_trans; [exact Hw1|exact Hw2].
  - intros w2 Hh x' y' vs Hok E. destruct (Hall x' y' vs Hok E) as (-> & -> & E3). destruct Hok as (_ & _ & _ & Hvs).
    eapply hopeless_mono; [by apply Hh|]. rewrite Ej, (length_app body), (length_app _ (dots vs)). lia.
Qed.
End ToText.

(** ** The text as a string *)

Section Strings.
Context (realloc_ok : Z -> bool).

Lemma keeping_text_components fuel a cbs : keeping (text_components realloc_ok fuel a cbs).
Proof. revert cbs. induction fuel; intros cbs; cbn [text_components]; unfold add_decimal; keeping. Qed.

Lemma keeping_text_body a cbs : keeping (oid_text_body realloc_ok a cbs).
Proof.
  pose proof keeping_text_components. unfold oid_text_body, add_decimal. cbv zeta. keeping.
Qed.

(** The allocations the function needs. *)
Definition memory_for (buf_ok base_ok : bool) (n : Z) : Prop :=
  buf_ok = true /\ base_ok = true /\ ~ no_room realloc_ok (Growing 32) n.

Lemma init_fails buf_ok base_ok a w :
  buf_ok && base_ok = false ->
  CBB_init buf_ok base_ok a 32 w = Bad (mk_world (base w) (<[a := zero_cbb]> (cbbs w))).
Proof. by destruct buf_ok, base_ok. Qed.

Lemma oid_to_text_spec buf_ok base_ok cbs :
  bytes cbs ->
  match CBS_asn1_oid_to_text realloc_ok buf_ok base_ok cbs with
  | None => False
  | Some (Some txt) => exists x y vs, oid_ok x y vs /\ cbs = oid_body x y vs /\
                         txt = Some <$> join (x :: y :: vs) ++ [0]
  | Some None => forall x y vs, oid_ok x y vs -> cbs = oid_body x y vs ->
                   ~ memory_for buf_ok base_ok (Z.of_nat (length (join (x :: y :: vs)) + 1))
  end.
Proof.
  intros Hb. unfold CBS_asn1_oid_to_text. destruct buf_ok, base_ok.
  2, 3, 4: erewrite bind_Bad by (by apply init_fails); cbn [base cbbs];
    destruct (cleanup_spec 0 (mk_world None (<[0 := zero_cbb]> ∅)) zero_cbb) as (w' & -> & _);
    [cbn [cbbs]; by rewrite lookup_insert_eq|done|by intros x y vs _ _ (? & ? & _)].
  destruct (builder_start (Growing 32) 0 (mk_world None ∅)) as (b & E & Hg). cbn [start] in E.
  rewrite (bind_Done _ _ _ _ _ E). cbn [growing room_of] in Hg.
  set (w0 := mk_world (Some b) (<[0:=root]> (cbbs (mk_world None ∅)))).
  assert (open_at true 32 w0 [] 0 []) as Ho.
  { apply (open_at_intro _ _ _ b root); done. }
  set (rest := (oid_text_body realloc_ok 0 cbs;; CBB_add_u8 realloc_ok 0 0;; CBB_finish realloc_ok true 0) w0).
  assert (triple rest
    (fun txt _ => exists x y vs, oid_ok x y vs /\ cbs = oid_body x y vs /\ txt = Some <$> join (x :: y :: vs) ++ [0])
    (fun _ => forall x y vs, oid_ok x y vs -> cbs = oid_body x y vs ->
       no_room realloc_ok (Growing 32) (Z.of_nat (length (join (x :: y :: vs)) + 1)))) as Hr.
  { unfold rest. eapply triple_bind.
    { eapply triple_weaken; [apply (text_body_spec realloc_ok w0 [] 0 [] cbs Ho Hb)|intros z s H; exact H|].
      intros w' Hh x y vs Hok Ec. eapply hopeless_mono; [by apply Hh|]. cbn [length]. lia. }
    intros z w1 (x & y & vs & Hok & -> & Ho1 & Hc1). cbn [app] in Ho1. eapply triple_bind.
    { eapply triple_weaken; [apply (writes_u8 realloc_ok true 32 w1 [] 0 _ 0 Ho1); lia|intros z' s H; exact H|].
      intros w' [_ Hh] x' y' vs' Hok' Ec.
      destruct (oid_body_inj _ _ _ _ _ _ Hok Hok' Ec) as (<- & <- & <-).
      eapply hopeless_mono; [exact Hh|]. cbn [length]. lia. }
    intros z' w2 [Ho2 Hc2]. rewrite (finish_spec realloc_ok (Growing 32) w2 0 (join (x :: y :: vs) ++ [0])).
    - exists x, y, vs. done.
    - exact Ho2.
    - rewrite Hc2, Hc1. cbn [w0 cbbs]. by rewrite lookup_insert_eq. }
  assert (keeping (oid_text_body realloc_ok 0 cbs;; CBB_add_u8 realloc_ok 0 0;; CBB_finish realloc_ok true 0)) as Hk.
  { pose proof keeping_text_body. keeping. }
  specialize (Hk w0). fold rest in Hk. unfold triple in Hr.
  pose proof (kept_cleanup 0 w0 rest root Hk) as Hcl. cbn [w0 cbbs] in Hcl. rewrite lookup_insert_eq in Hcl.
  specialize (Hcl eq_refl eq_refl). destruct rest as [txt w'|w'|]; [done| |done].
  destruct Hcl as (w'' & ->). intros x y vs Hok Ec (_ & _ & Hn). by apply Hn, Hr.
Qed.
End Strings.

(** ** The two directions together *)

Lemma join_inj vs vs' : Forall u64_dec vs -> Forall u64_dec vs' -> join vs = join vs' -> vs = vs'.
Proof.
  intros Hvs. revert vs'. induction Hvs as [|v vs Hv Hvs IH]; intros vs' Hvs' E; destruct Hvs' as [|v' vs' Hv' Hvs'].
  - done.
  - symmetry in E. by apply join_nil in E.
  - by apply join_nil in E.
  - pose proof (parse_join v vs Hv) as H. rewrite E, parse_join in H by done. injection H as -> H. f_equal. by apply IH.
Qed.

Definition build_oid (realloc_ok : Z -> bool) (t : target) (text : list Z) (a : Z) : builder (list (option Z)) :=
  start t a;; CBB_add_asn1_oid_from_text realloc_ok a text;; CBB_finish realloc_ok true a.

Lemma build_oid_spec realloc_ok t text a w :
  bytes text ->
  triple (build_oid realloc_ok t text a w)
    (fun bs _ => exists x y vs, oid_ok x y vs /\ text = join (x :: y :: vs) /\ bs = Some <$> oid_body x y vs)
    (fun _ => forall x y vs, oid_ok x y vs -> text = join (x :: y :: vs) ->
       no_room realloc_ok t (Z.of_nat (length (oid_body x y vs)))).
Proof.
  intros Hb. unfold build_oid. destruct (builder_start t a w) as (b & E & Hg). rewrite (bind_Done _ _ _ _ _ E).
  set (w0 := mk_world (Some b) (<[a:=root]> (cbbs w))).
  assert (cbbs w0 !! a = Some root) as Ha by (cbn [w0 cbbs]; by rewrite lookup_insert_eq).
  assert (open_at (growing t) (room_of t) w0 [] a []) as Ho by by apply (open_at_intro _ _ _ b root).
  eapply triple_bind.
  { eapply triple_weaken; [apply (from_text_spec realloc_ok (growing t) (room_of t) w0 [] a [] text Ho Hb)
      |intros z s H; exact H|]. intros w' Hh x y vs Hok Et. by apply Hh. }
  intros z w1 (x & y & vs & Hok & -> & Ho1 & Hc1). cbn [app] in Ho1.
  rewrite (finish_spec realloc_ok t w1 a (oid_body x y vs)) by (done || by rewrite Hc1). by exists x, y, vs.
Qed.

(** Memory that never runs out. *)
Lemma plenty n m : n < 2 ^ 64 -> ~ no_room (fun _ => true) (Growing m) n.
Proof. intros Hn [[? _]|[[? ?]|?]]; [done|done|lia]. Qed.

Lemma oid_ok_all x y vs : oid_ok x y vs -> Forall u64_dec (x :: y :: vs).
Proof. intros (Hx & Hy & _ & Hvs). constructor; [unfold u64_dec; lia|]. constructor; [unfold u64_dec; lia|done]. Qed.

Lemma oid_inverse m text body a w :
  bytes text -> bytes body -> Z.of_nat (length text) < 2 ^ 60 -> Z.of_nat (length body) < 2 ^ 60 ->
  (exists w', build_oid (fun _ => true) (Growing m) text a w = Done (Some <$> body) w') <->
  CBS_asn1_oid_to_text (fun _ => true) true true body = Some (Some (Some <$> text ++ [0])).
Proof.
  intros Ht Hb Hlt Hlb. pose proof (build_oid_spec (fun _ => true) (Growing m) text a w Ht) as H1.
  pose proof (oid_to_text_spec (fun _ => true) true true body Hb) as H2. split.
  - intros [w' E]. rewrite E in H1. destruct H1 as (x & y & vs & Hok & -> & Ebs).
    apply (inj (fmap Some)) in Ebs. destruct (CBS_asn1_oid_to_text _ _ _ _) as [[txt|]|]; [| |done].
    + destruct H2 as (x' & y' & vs' & Hok' & Ec & ->). rewrite Ebs in Ec.
      by destruct (oid_body_inj _ _ _ _ _ _ Hok Hok' Ec) as (<- & <- & <-).
    + exfalso. apply (H2 x y vs Hok Ebs). split_and!; [done|done|]. apply plenty. lia.
  - intros E. rewrite E in H2. destruct H2 as (x & y & vs & Hok & -> & Et).
    apply (inj (fmap Some)), (inj (fun l => l ++ [0])) in Et. unfold triple in H1.
    destruct (build_oid _ _ _ _ _) as [bs w'|w'|]; [| |done].
    + destruct H1 as (x' & y' & vs' & Hok' & Ej & ->). rewrite Et in Ej.
      apply join_inj in Ej; [|by apply oid_ok_all..]. injection Ej as <- <- <-. by exists w'.
    + exfalso. apply (plenty (Z.of_nat (length (oid_body x y vs))) m); [lia|]. by apply H1.
Qed.
