(* ===== verification/SetOf.v ===== *)
(** * BoringSSL: SET OF

    The model of the sorting of a SET OF, and the order it produces. *)
From stdpp Require Import sorting.
From S2P Require Import Prelude CBuf CMem CProc Cbs CbsSpec Cbb CbbSpec CbbOps DerInt CbbDoc.

(** ** BoringSSL: sorting the elements of a SET OF

    [CBB_flush_asn1_set_of] of cbb.c.  The C library's [qsort] is known by the
    sorted permutation it leaves. *)

(** The wrapper for empty blocks. *)
Definition OPENSSL_memcmp (s1 s2 : list Z) (n : Z) : Z :=
  if n =? 0 then 0 else memcmp (take (Z.to_nat n) s1) (take (Z.to_nat n) s2).

Definition compare_set_of_element (a b : CBS) : Z :=
  let a_len := CBS_len a in
  let b_len := CBS_len b in
  let min_len := if a_len <? b_len then a_len else b_len in
  let ret := OPENSSL_memcmp a b min_len in
  if negb (ret =? 0) then ret
  else if a_len =? b_len then 0
  else if a_len <? b_len then -1 else 1.

Definition not_after (a b : CBS) : Prop := compare_set_of_element a b <= 0.

#[export] Instance not_after_dec a b : Decision (not_after a b).
Proof. unfold not_after. apply _. Defined.

Definition qsort (children : list CBS) : list CBS := merge_sort not_after children.

(** The number of elements. *)
Fixpoint count_children (fuel : nat) (num_children : Z) : reader Z :=
  cbs ← current;
  if CBS_len cbs =? 0 then mret num_children
  else match fuel with
  | O => stuck
  | S fuel' => CBS_get_any_asn1_element;; count_children fuel' (num_children + 1)
  end.

(** The array of elements. *)
Fixpoint get_children (n : nat) : reader (list CBS) :=
  match n with
  | O => mret []
  | S n' => '(child, _, _) ← CBS_get_any_asn1_element; rest ← get_children n'; mret (child :: rest)
  end.

Definition sizeof_CBS := 16.

Section SetOf.
Context (realloc_ok : Z -> bool).

Fixpoint add_children (a : Z) (children : list CBS) : builder unit :=
  match children with
  | [] => mret tt
  | c :: children' => CBB_add_bytes realloc_ok a c;; add_children a children'
  end.

(** The bytes of [CBB_data] and [CBB_len]. *)
Definition contents (a : Z) : builder (list Z) :=
  data ← CBB_data a;
  len ← CBB_len a;
  b ← the_base a;
  of_option (raw ← rds (buf b) data len; mapM id raw).

Definition CBB_flush_asn1_set_of (buf_ok children_ok : bool) (a : Z) : builder unit :=
  CBB_flush realloc_ok a;;
  cbs ← contents a;
  '(num_children, _) ← on cbs (count_children (length cbs) 0);
  if num_children <? 2 then mret tt
  else if (2 ^ 64 - 1) / sizeof_CBS <? num_children then return_0
  else
    match OPENSSL_memdup buf_ok cbs with
    | None => return_0
    | Some copy =>
        if negb children_ok then return_0
        else
          '(children, _) ← on copy (get_children (Z.to_nat num_children));
          c ← deref a;
          b ← the_base a;
          set_base (mk_buffer (buf b) (u64 (offset c + pending_len_len c)) (can_resize b) (error b));;
          add_children a (qsort children);;
          n ← CBB_len a;
          if n =? CBS_len cbs then mret tt else stuck
    end.
End SetOf.

(** SET OF { 3, 1, 2 } *)
Example set_of_sorts :
  match (CBB_init true true 1 4;;
         CBB_add_asn1 (fun _ => true) 1 2 0x20000011;;
         CBB_add_asn1_uint64 (fun _ => true) 2 3;;
         CBB_add_asn1_uint64 (fun _ => true) 2 1;;
         CBB_add_asn1_uint64 (fun _ => true) 2 2;;
         CBB_flush_asn1_set_of (fun _ => true) true true 2;;
         CBB_finish (fun _ => true) true 1) (mk_world None ∅) with
  | Done bs _ => bs = Some <$> [0x31; 9; 2; 1; 1; 2; 1; 2; 2; 1; 3]
  | _ => False
  end.
Proof. vm_compute. done. Qed.

(** ** BoringSSL: the order of the elements of a SET OF

    The comparison of the code is the lexicographic order on encodings, and the
    contents after sorting depend only on the elements, not on their order. *)

(** ** The order *)

(** Lexicographic comparison; a proper prefix comes first. *)
Fixpoint lex (a b : list Z) : Z :=
  match a, b with
  | [], [] => 0
  | [], _ :: _ => -1
  | _ :: _, [] => 1
  | x :: a', y :: b' => if x =? y then lex a' b' else x - y
  end.

Lemma memcmp_app a b c d : length a = length b -> lex (a ++ c) (b ++ d) = if memcmp a b =? 0 then lex c d else memcmp a b.
Proof.
  revert b. induction a as [|x a IH]; intros [|y b] Hl; try done. cbn [app lex memcmp].
  destruct (x =? y) eqn:E; [apply IH; by injection Hl|]. apply Z.eqb_neq in E.
  by rewrite (proj2 (Z.eqb_neq (x - y) 0)) by lia.
Qed.

Lemma compare_lex a b : compare_set_of_element a b = lex a b.
Proof.
  unfold compare_set_of_element, OPENSSL_memcmp. cbv zeta.
  set (n := Nat.min (length a) (length b)).
  assert ((if CBS_len a <? CBS_len b then CBS_len a else CBS_len b) = Z.of_nat n) as ->
    by (unfold CBS_len, n; case_match; lia).
  assert (lex a b = if memcmp (take n a) (take n b) =? 0 then lex (drop n a) (drop n b) else memcmp (take n a) (take n b)) as ->.
  { rewrite <- memcmp_app by (rewrite !length_take; lia). by rewrite !take_drop. }
  rewrite Nat2Z.id.
  assert ((if Z.of_nat n =? 0 then 0 else memcmp (take n a) (take n b)) = memcmp (take n a) (take n b)) as ->.
  { destruct n as [|n']; [done|]. by rewrite (proj2 (Z.eqb_neq (Z.of_nat (S n')) 0)) by lia. }
  destruct (memcmp (take n a) (take n b) =? 0) eqn:E; cbn [negb]; [|done].
  unfold CBS_len. destruct (decide (length a <= length b)%nat) as [Hl|Hl].
  - assert (drop n a = []) as -> by (apply drop_ge; lia).
    destruct (drop n b) as [|y b'] eqn:Ed; apply (f_equal length) in Ed; rewrite length_drop in Ed; cbn [length lex] in *.
    + by rewrite (proj2 (Z.eqb_eq (Z.of_nat (length a)) _)) by lia.
    + rewrite (proj2 (Z.eqb_neq (Z.of_nat (length a)) _)) by lia. by rewrite (proj2 (Z.ltb_lt (Z.of_nat (length a)) _)) by lia.
  - assert (drop n b = []) as -> by (apply drop_ge; lia).
    destruct (drop n a) as [|x a'] eqn:Ed; apply (f_equal length) in Ed; rewrite length_drop in Ed; cbn [length lex] in *; [lia|].
    rewrite (proj2 (Z.eqb_neq (Z.of_nat (length a)) _)) by lia. by rewrite (proj2 (Z.ltb_ge (Z.of_nat (length a)) _)) by lia.
Qed.

Lemma lex_antisym a b : lex a b <= 0 -> lex b a <= 0 -> a = b.
Proof.
  revert b. induction a as [|x a IH]; intros [|y b]; cbn [lex]; [done|lia|lia|].
  rewrite (Z.eqb_sym y x). destruct (x =? y) eqn:E; intros H1 H2.
  - apply Z.eqb_eq in E as ->. f_equal. by apply IH.
  - apply Z.eqb_neq in E. lia.
Qed.

Lemma lex_total a b : lex a b <= 0 \/ lex b a <= 0.
Proof.
  revert b. induction a as [|x a IH]; intros [|y b]; cbn [lex]; [lia..|].
  rewrite (Z.eqb_sym y x). destruct (x =? y) eqn:E; [apply IH|]. lia.
Qed.

Lemma lex_trans a b c : lex a b <= 0 -> lex b c <= 0 -> lex a c <= 0.
Proof.
  revert b c. induction a as [|x a IH]; intros [|y b] [|z c]; cbn [lex]; try lia.
  destruct (x =? y) eqn:E1, (y =? z) eqn:E2; intros H1 H2; rewrite ?Z.eqb_eq, ?Z.eqb_neq in *; subst.
  - rewrite Z.eqb_refl. by eapply IH.
  - by rewrite (proj2 (Z.eqb_neq y z)).
  - by rewrite (proj2 (Z.eqb_neq x z)).
  - destruct (x =? z) eqn:E3; [apply Z.eqb_eq in E3; lia|lia].
Qed.

#[export] Instance not_after_trans : Transitive not_after.
Proof. intros a b c. unfold not_after. rewrite !compare_lex. apply lex_trans. Qed.

#[export] Instance not_after_total : Total not_after.
Proof. intros a b. unfold not_after. rewrite !compare_lex. apply lex_total. Qed.

#[export] Instance not_after_antisym : AntiSymm (=) not_after.
Proof. intros a b. unfold not_after. rewrite !compare_lex. apply lex_antisym. Qed.

Lemma qsort_sorted l : StronglySorted not_after (qsort l).
Proof. apply (StronglySorted_merge_sort not_after); apply _. Qed.

Lemma qsort_lex l : StronglySorted (fun x y => lex x y <= 0) (qsort l).
Proof.
  pose proof (qsort_sorted l) as H. induction H as [|x l' H IH Hx]; constructor; [done|].
  eapply Forall_impl; [exact Hx|]. intros y. unfold not_after. by rewrite compare_lex.
Qed.

Lemma qsort_Permutation l : qsort l ≡ₚ l.
Proof. apply merge_sort_Permutation. Qed.

Lemma qsort_unique l l' : StronglySorted not_after l' -> l' ≡ₚ l -> qsort l = l'.
Proof.
  intros Hs Hp. apply (StronglySorted_unique not_after); [apply qsort_sorted|done|].
  by rewrite qsort_Permutation.
Qed.

Lemma qsort_equiv l l' : l ≡ₚ l' -> qsort l = qsort l'.
Proof. intros Hp. apply qsort_unique; [apply qsort_sorted|]. by rewrite qsort_Permutation. Qed.

(** ** Taking the contents apart *)

Definition element (e : list Z) : Prop := exists t body, der_ok t body /\ e = der t body.

Lemma element_read e rest :
  element e -> CBS_len (e ++ rest) < 2 ^ 60 ->
  exists t n, CBS_get_any_asn1_element (e ++ rest) = Done (e, t, n) rest.
Proof. intros (t & body & Hok & ->) Hl. eexists _, _. by apply any_element_complete. Qed.

Lemma element_nonempty e : element e -> (0 < length e)%nat.
Proof.
  intros (t & body & _ & ->). unfold der, ident. rewrite length_app. case_match; cbn [length]; lia.
Qed.

Lemma count_concat els fuel n :
  Forall element els -> CBS_len (concat els) < 2 ^ 60 -> (length (concat els) <= fuel)%nat ->
  count_children fuel n (concat els) = Done (n + Z.of_nat (length els)) [].
Proof.
  intros Hels. revert fuel n. induction Hels as [|e els He Hels IH]; intros fuel n Hl Hf.
  - destruct fuel; cbn; by rewrite Z.add_0_r.
  - cbn [concat] in *. pose proof (element_nonempty e He). rewrite length_app in Hf.
    destruct fuel as [|fuel]; [lia|]. cbn [count_children]. unfold current, mbind, proc_bind.
    rewrite (proj2 (Z.eqb_neq (CBS_len (e ++ concat els)) 0)) by (unfold CBS_len; rewrite length_app; lia).
    destruct (element_read e (concat els) He Hl) as (t & m & ->).
    rewrite IH; [f_equal; cbn [length]; lia| |lia]. unfold CBS_len in *. rewrite length_app in Hl. lia.
Qed.

Lemma count_cases fuel n cbs :
  bytes cbs -> CBS_len cbs < 2 ^ 60 -> (length cbs <= fuel)%nat ->
  (exists r, count_children fuel n cbs = Bad r) \/ exists els, Forall element els /\ cbs = concat els.
Proof.
  revert n cbs. induction fuel as [|fuel IH]; intros n cbs Hb Hl Hf;
    (destruct cbs as [|c cbs]; [right; by exists []|]); [cbn in Hf; lia|].
  set (text := c :: cbs) in *. cbn [count_children]. unfold current, mbind, proc_bind.
  rewrite (proj2 (Z.eqb_neq (CBS_len text) 0)) by (unfold CBS_len, text; cbn [length]; lia).
  destruct (any_element_cases text Hb Hl) as [->|(t & body & rest & Hok & E)]; [left; by eexists|].
  assert (element (der t body)) as He by by exists t, body. pose proof (element_nonempty _ He) as Hne.
  rewrite E in *. destruct (element_read _ rest He Hl) as (t' & m & ->).
  apply Forall_app in Hb as [_ Hb]. unfold CBS_len in Hl. rewrite length_app in Hf, Hl.
  destruct (IH (n + 1) rest) as [?|(els & Hels & ->)]; [done|unfold CBS_len; lia|lia|by left|].
  right. exists (der t body :: els). split; [by constructor|done].
Qed.

Lemma get_concat els :
  Forall element els -> CBS_len (concat els) < 2 ^ 60 -> get_children (length els) (concat els) = Done els [].
Proof.
  intros Hels. induction Hels as [|e els He Hels IH]; intros Hl; [done|].
  cbn [concat length get_children] in *. unfold mbind, proc_bind.
  destruct (element_read e (concat els) He Hl) as (t & m & ->).
  rewrite IH; [done|]. unfold CBS_len in *. rewrite length_app in Hl. lia.
Qed.

Lemma elements_unique els els' :
  Forall element els -> Forall element els' -> CBS_len (concat els) < 2 ^ 60 -> concat els = concat els' -> els = els'.
Proof.
  intros H H' Hl E. pose proof (count_concat els (length (concat els)) 0 H Hl ltac:(lia)) as C.
  rewrite E, count_concat in C by (done || lia || by rewrite <- E). injection C as C.
  pose proof (get_concat els H Hl) as G. rewrite E in G.
  replace (length els) with (length els') in G by lia. rewrite get_concat in G by (done || by rewrite <- E).
  by injection G as ->.
Qed.

(** ** Writing the contents back *)

Section SetOf.
Context (realloc_ok : Z -> bool) (resizable : bool) (limit : Z).

#[local] Abbreviation open_at := (open_at resizable limit).
#[local] Abbreviation appends := (appends resizable limit).
#[local] Abbreviation chained := (chained resizable limit).
#[local] Abbreviation good := (good resizable limit).

(** Bytes for which there is room need no allocation. *)
Lemma add_bytes_fits w b pre a body v :
  open_at w pre a body -> base w = Some b ->
  Z.of_nat (length pre + length body + length v) <= cap b -> Z.of_nat (length pre + length body + length v) < 2 ^ 64 ->
  exists b', CBB_add_bytes realloc_ok a v w = Done tt (with_base b' w) /\
    appends w pre a body v (with_base b' w) /\ cap b' = cap b.
Proof.
  intros Ho Hb Hcap Hmax. unfold CBB_add_bytes. rewrite (flush_open _ _ _ _ _ _ _ _ Ho).
  destruct (open_at_inv _ _ _ _ _ _ Ho) as (b0 & ca & Hb0 & Hg & _). rewrite Hb in Hb0. injection Hb0 as <-.
  pose proof Hg as [[junk Hbuf] Hlen _ Herr Hres Hlim]. rewrite length_app in Hlen.
  set (n := length v) in *. set (hole := take n junk).
  assert (cap b = Z.of_nat (length pre + length body + length junk)) as Hc
    by (unfold cap; rewrite Hbuf, length_app, length_fmap, length_app; lia).
  assert (length hole = n) as Hh by (unfold hole; rewrite length_take; lia).
  assert (buf b = (Some <$> (pre ++ body)) ++ hole ++ drop n junk) as Hbuf' by (unfold hole; by rewrite take_drop).
  set (b1 := mk_buffer (buf b) (len b + Z.of_nat n) (can_resize b) (error b)).
  assert (cbb_buffer_add realloc_ok (Z.of_nat n) w = Done (len b) (with_base b1 w)) as Hadd.
  { unfold cbb_buffer_add, cbb_buffer_reserve, add_len, current, mbind, proc_bind, of_option. rewrite Hb.
    rewrite wrapu_id by (unfold in_u; lia). rewrite (proj2 (Z.ltb_ge _ (len b))), (proj2 (Z.ltb_ge (cap b) _)) by lia.
    unfold mret, proc_ret. by rewrite Hb, wrapu_id by (unfold in_u; lia). }
  rewrite (bind_Done _ _ _ _ _ Hadd). unfold copy_in, current, mbind, proc_bind, of_option. cbn [with_base base].
  assert (wrs (buf b1) (len b) (Some <$> v) = Some ((Some <$> (pre ++ body)) ++ (Some <$> v) ++ drop n junk)) as ->.
  { cbn [b1 buf]. rewrite Hbuf'. apply wrs_mid; rewrite length_fmap; [rewrite length_app; lia|done]. }
  eexists. split; [reflexivity|]. split.
  - apply (with_base_open resizable limit w b); [done|done|].
    apply (room_fill realloc_ok resizable limit b1 (pre ++ body) (Z.of_nat n) v hole (drop n junk)); [|done|lia|done].
    constructor; cbn [b1 len buf error can_resize]; [|rewrite length_app; lia|lia|done..].
    exists hole, (drop n junk). split; [exact Hbuf'|lia].
  - unfold cap. cbn [buf]. rewrite Hbuf', !length_app, !length_fmap. unfold n in Hh. lia.
Qed.

Lemma add_children_fit w b pre a body els :
  open_at w pre a body -> base w = Some b ->
  Z.of_nat (length pre + length body + length (concat els)) <= cap b ->
  Z.of_nat (length pre + length body + length (concat els)) < 2 ^ 64 ->
  exists w', add_children realloc_ok a els w = Done tt w' /\ appends w pre a body (concat els) w'.
Proof.
  revert w b body. induction els as [|e els IH]; intros w b body Ho Hb Hcap Hmax; cbn [add_children concat] in *.
  - exists w. split; [done|by apply appends_nil].
  - rewrite length_app in *.
    destruct (add_bytes_fits w b pre a body e Ho Hb) as (b1 & E & Ha & Hc); [lia..|].
    rewrite (bind_Done _ _ _ _ _ E).
    destruct (IH (with_base b1 w) b1 (body ++ e)) as (w' & E' & Ha'); [apply Ha|done|rewrite length_app; lia..|].
    exists w'. split; [done|]. by eapply appends_trans.
Qed.

(** [a]'s own record of where its contents start. *)
Definition starts_at (w : world) (pre : list Z) (a : Z) : Prop :=
  exists ca, cbbs w !! a = Some ca /\ offset ca + pending_len_len ca = Z.of_nat (length pre).

Lemma contents_spec w pre a body :
  open_at w pre a body -> starts_at w pre a -> contents a w = Done body w.
Proof.
  intros Ho (ca & Ha & Hs). destruct (open_at_inv _ _ _ _ _ _ Ho) as (b & ca' & Hb & Hg & Ha' & Hh & Hc).
  rewrite Ha in Ha'. injection Ha' as <-. pose proof Hg as [[junk Hbuf] Hlen _ _ _ _]. rewrite length_app in Hlen.
  assert (CBB_data a w = Done (Z.of_nat (length pre)) w) as E1.
  { unfold CBB_data. rewrite (deref_bind _ _ ca), bool_decide_eq_false_2 by (rewrite ?Hc; tauto || done).
    rewrite (the_base_bind _ _ ca b) by done. unfold mret, proc_ret. f_equal. lia. }
  assert (CBB_len a w = Done (Z.of_nat (length body)) w) as E2.
  { unfold CBB_len. rewrite (deref_bind _ _ ca), (the_base_bind _ _ ca b) by done.
    rewrite bool_decide_eq_false_2 by (rewrite Hc; tauto). rewrite (proj2 (Z.ltb_ge (len b) _)) by lia.
    unfold mret, proc_ret. cbn [orb]. f_equal. lia. }
  unfold contents. rewrite (bind_Done _ _ _ _ _ E1), (bind_Done _ _ _ _ _ E2), (the_base_bind _ _ ca b) by done.
  unfold of_option. rewrite Hbuf, fmap_app, <- app_assoc.
  pose proof (rds_at (Some <$> pre) (Some <$> body) junk) as R. rewrite !length_fmap in R. rewrite R.
  cbn [mbind option_bind]. by rewrite mapM_Some.
Qed.

Lemma set_of_open buf_ok children_ok w pre a body :
  open_at w pre a body -> starts_at w pre a -> bytes body -> CBS_len body < 2 ^ 60 ->
  triple (CBB_flush_asn1_set_of realloc_ok buf_ok children_ok a w)
    (fun _ w' => exists els, Forall element els /\ body = concat els /\
       open_at w' pre a (concat (qsort els)) /\ cbbs w' = cbbs w)
    (fun w' => open_at w' pre a body /\ cbbs w' = cbbs w /\
       (buf_ok && children_ok = false \/ forall els, Forall element els -> body <> concat els)).
Proof.
  intros Ho Hs Hb Hl. unfold CBB_flush_asn1_set_of. rewrite (flush_open _ _ _ _ _ _ _ _ Ho).
  rewrite (bind_Done _ _ _ _ _ (contents_spec _ _ _ _ Ho Hs)). unfold mbind at 1, proc_bind at 1. unfold on at 1.
  destruct (count_cases (length body) 0 body Hb Hl) as [[r E]|(els & Hels & Ebody)]; [lia| |].
  { rewrite E. split_and!; [done|done|]. right. intros els Hels ->.
    rewrite count_concat in E by (done || lia). done. }
  rewrite Ebody in Hl. pose proof (count_concat els (length body) 0 Hels Hl) as Ec. rewrite <- Ebody in Ec.
  rewrite Ec by lia. rewrite Z.add_0_l.
  destruct (Z.of_nat (length els) <? 2) eqn:E2.
  { exists els. split_and!; [done|done| |done]. assert (qsort els = els) as ->; [|by rewrite <- Ebody].
    destruct els as [|e [|e' els]]; [done|done|apply Z.ltb_lt in E2; cbn [length] in E2; lia]. }
  assert (length els <= length body)%nat as Hlen.
  { rewrite Ebody. clear -Hels. induction Hels as [|e els He _ IH]; [done|]. cbn [concat length]. rewrite length_app.
    pose proof (element_nonempty e He). lia. }
  rewrite <- Ebody in Hl. unfold CBS_len in Hl. unfold sizeof_CBS.
  change ((2 ^ 64 - 1) / 16) with (2 ^ 60 - 1).
  rewrite (proj2 (Z.ltb_ge _ (Z.of_nat (length els)))) by lia. unfold OPENSSL_memdup.
  destruct (CBS_len body =? 0) eqn:E0.
  { apply Z.eqb_eq in E0. unfold CBS_len in E0. lia. }
  destruct buf_ok; [|split_and!; [done|done|by left]].
  destruct children_ok; cbn [negb]; [|split_and!; [done|done|by left]].
  unfold mbind at 1, proc_bind at 1. unfold on at 1. rewrite Nat2Z.id, Ebody at 1.
  rewrite get_concat by (done || (rewrite <- Ebody; exact Hl)).
  destruct Hs as (ca & Ha & Hoff). destruct (open_at_inv _ _ _ _ _ _ Ho) as (b & ca' & Hbase & Hg & Ha' & Hh & Hc).
  rewrite Ha in Ha'. injection Ha' as <-. rewrite (deref_bind _ _ ca), (the_base_bind _ _ ca b) by done.
  pose proof Hg as [[junk Hbuf] Hlb Hmax Herr Hres Hlim]. rewrite length_app in Hlb.
  rewrite Hoff, wrapu_id by (unfold in_u; lia).
  set (b1 := mk_buffer (buf b) (Z.of_nat (length pre)) (can_resize b) (error b)).
  change ((set_base b1;; ?k) w) with (k (with_base b1 w)).
  assert (open_at (with_base b1 w) pre a []) as Ho1.
  { apply (open_at_intro _ _ _ b1 ca); try done. rewrite app_nil_r.
    constructor; cbn [b1 buf len error can_resize]; [|done|lia|done..].
    exists ((Some <$> body) ++ junk). by rewrite Hbuf, fmap_app, <- app_assoc. }
  assert (length (concat (qsort els)) = length body) as Hperm.
  { rewrite Ebody. apply Permutation_length. by rewrite qsort_Permutation. }
  destruct (add_children_fit (with_base b1 w) b1 pre a [] (qsort els) Ho1 eq_refl) as (w' & E' & Ho' & Hc').
  { unfold cap. cbn [b1 buf length]. rewrite Hbuf, !length_app, length_fmap, length_app, Hperm. lia. }
  { cbn [length]. rewrite Hperm. lia. }
  rewrite (bind_Done _ _ _ _ _ E'). cbn [app] in Ho'.
  assert (CBB_len a w' = Done (Z.of_nat (length body)) w') as El.
  { destruct (open_at_inv _ _ _ _ _ _ Ho') as (b2 & ca2 & Hb2 & [_ Hl2 _ _ _ _] & Ha2 & Hh2 & Hn2).
    rewrite Hc' in Ha2. cbn [with_base cbbs] in Ha2. rewrite Ha in Ha2. injection Ha2 as <-.
    rewrite length_app, Hperm in Hl2. unfold CBB_len.
    rewrite (deref_bind _ _ ca) by (rewrite Hc'; exact Ha). rewrite (the_base_bind _ _ ca b2) by (done || by rewrite Hc').
    rewrite bool_decide_eq_false_2 by (rewrite Hc; tauto). rewrite (proj2 (Z.ltb_ge (len b2) _)) by lia.
    unfold mret, proc_ret. cbn [orb]. f_equal. lia. }
  rewrite (bind_Done _ _ _ _ _ El). unfold CBS_len. rewrite Z.eqb_refl. by exists els.
Qed.
End SetOf.

(** With children still open. *)
Lemma set_of_chained realloc_ok resizable limit buf_ok children_ok w pre a body fs :
  chained resizable limit w pre a body fs -> starts_at w pre a ->
  (forall c, collapse body fs = Some c -> bytes c /\ CBS_len c < 2 ^ 60) ->
  triple (CBB_flush_asn1_set_of realloc_ok buf_ok children_ok a w)
    (fun _ w' => exists els, Forall element els /\ collapse body fs = Some (concat els) /\
       chained resizable limit w' pre a (concat (qsort els)) [])
    (fun w' => no_collapse realloc_ok resizable limit pre body fs \/ buf_ok && children_ok = false \/
       exists c, collapse body fs = Some c /\ forall els, Forall element els -> c <> concat els).
Proof.
  intros Hc (ca & Ha & Hs) Hb. pose proof (CBB_flush_spec realloc_ok _ _ w pre a body fs ca Hc Ha) as H.
  unfold triple in H.
  destruct (CBB_flush realloc_ok a w) as [[] w1|w1|] eqn:E; [|unfold CBB_flush_asn1_set_of; rewrite (bind_Bad _ _ _ _ E); by left; apply H|done].
  destruct H as (c & Hcol & Ho & _ & Ha1). destruct (Hb c Hcol) as [Hbc Hlc].
  assert (CBB_flush_asn1_set_of realloc_ok buf_ok children_ok a w
          = CBB_flush_asn1_set_of realloc_ok buf_ok children_ok a w1) as ->.
  { unfold CBB_flush_asn1_set_of. rewrite (bind_Done _ _ _ _ _ E). symmetry. exact (flush_open _ _ _ _ _ _ _ _ Ho). }
  eapply triple_weaken; [apply (set_of_open realloc_ok resizable limit buf_ok children_ok w1 pre a c Ho); [|done|done]| |].
  - eexists. split; [exact Ha1|exact Hs].
  - intros [] w2 (els & Hels & -> & Ho2 & _). by exists els.
  - intros w2 (_ & _ & [Hm|Hno]); [right; by left|]. right; right. by exists c.
Qed.
