(* ===== verification/BytesTheorems.v ===== *)
(** * BoringSSL: the properties of byte strings

    What the readers accept, what the builder writes, and that the two fit
    together. *)
From stdpp Require Import sorting.
From S2P Require Import Prelude CBuf CMem CProc Cbs CbsSpec Cbb CbbSpec CbbOps DerInt CbbDoc CbbKeep DocRead Oid OidSpec SetOf.

(** C14.  [CBS_get_any_asn1_element] takes an element off its input exactly when
    the input begins with the distinguished encoding (X.690, 10.1) of some tag
    and contents of less than 2^32 bytes; it reports the tag and the length of
    the header.  Anything else - indefinite or overlong lengths, tag numbers in
    the wrong form, missing bytes - is refused and the input left alone.  There
    is no undefined behaviour. *)
Theorem any_element_exact cbs :
  Forall (in_u 8) cbs -> CBS_len cbs < 2 ^ 60 ->
  (exists t body rest, der_ok t body /\ cbs = der t body ++ rest /\
     CBS_get_any_asn1_element cbs = Done (der t body, t, der_header_len t body) rest) \/
  (CBS_get_any_asn1_element cbs = Bad cbs /\ forall t body rest, der_ok t body -> cbs <> der t body ++ rest).
Proof.
  intros Hb Hl. destruct (any_element_cases cbs Hb Hl) as [E|(t & body & rest & Hok & ->)].
  - right. split; [done|]. intros t body rest Hok ->. by rewrite any_element_complete in E.
  - left. exists t, body, rest. split_and!; [done..|]. by apply any_element_complete.
Qed.

(** A length that fits one byte, written with two. *)
Lemma any_element_exact_witness :
  let cbs := [0x30; 0x81; 0x01; 0x05] in
  (exists t body rest, der_ok t body /\ cbs = der t body ++ rest /\
     CBS_get_any_asn1_element cbs = Done (der t body, t, der_header_len t body) rest) \/
  (CBS_get_any_asn1_element cbs = Bad cbs /\ forall t body rest, der_ok t body -> cbs <> der t body ++ rest).
Proof. apply (any_element_exact [0x30; 0x81; 0x01; 0x05]); [decided|decided]. Defined.

(** C15.  The readers of ASN.1 values are exact: CBS_get_asn1_uint64,
    CBS_get_asn1_int64 and CBS_get_asn1_bool return a value exactly when the
    input begins with its distinguished encoding - the shortest two's complement
    contents, within 64 bits - and refuse all other bytes. *)
Theorem asn1_readers_exact cbs :
  Forall (in_u 8) cbs -> CBS_len cbs < 2 ^ 60 ->
  accepts CBS_get_asn1_uint64 (fun v => 0 <= v < 2 ^ 64) (fun v => der CBS_ASN1_INTEGER (int_body v)) cbs /\
  accepts CBS_get_asn1_int64 (fun v => - 2 ^ 63 <= v < 2 ^ 63) (fun v => der CBS_ASN1_INTEGER (int_body v)) cbs /\
  accepts CBS_get_asn1_bool (fun _ => True) (fun b => der CBS_ASN1_BOOLEAN (bool_body b)) cbs.
Proof. intros Hb Hl. split_and!; [by apply get_uint64_accepts|by apply get_int64_accepts|by apply get_bool_accepts]. Qed.

(** INTEGER -129 and a byte behind it. *)
Lemma asn1_readers_exact_witness :
  let cbs := [2; 2; 0xff; 0x7f; 9] in
  accepts CBS_get_asn1_uint64 (fun v => 0 <= v < 2 ^ 64) (fun v => der CBS_ASN1_INTEGER (int_body v)) cbs /\
  accepts CBS_get_asn1_int64 (fun v => - 2 ^ 63 <= v < 2 ^ 63) (fun v => der CBS_ASN1_INTEGER (int_body v)) cbs /\
  accepts CBS_get_asn1_bool (fun _ => True) (fun b => der CBS_ASN1_BOOLEAN (bool_body b)) cbs.
Proof. apply (asn1_readers_exact [2; 2; 0xff; 0x7f; 9]); [decided|decided]. Defined.

(** C16.  CBB_flush refines the obvious function on nested contents: with any
    chain of open children, each with a pending length prefix of fixed size or
    of ASN.1, it replaces every pending prefix by the length of what follows, and
    moves the contents where an ASN.1 length needs more than the byte that was
    reserved.  Nothing before the contents of [a] changes.  It returns 0, with the
    error flag set, only if a length does not fit its prefix or there is no room. *)
Theorem flush_correct realloc_ok resizable limit w pre a body fs :
  chained resizable limit w pre a body fs ->
  match CBB_flush realloc_ok a w with
  | Done _ w' => exists c, collapse body fs = Some c /\ chained resizable limit w' pre a c []
  | Bad w' => flagged w' /\ no_collapse realloc_ok resizable limit pre body fs
  | Stuck => False
  end.
Proof.
  intros Hc. pose proof Hc as (b & _ & _ & Hch & _).
  apply chain_dom in Hch. apply Forall_cons in Hch as [[ca Ha] _].
  pose proof (CBB_flush_spec realloc_ok _ _ w pre a body fs ca Hc Ha) as H. unfold triple in H.
  destruct (CBB_flush realloc_ok a w); [|done|done]. destruct H as (c & Hcol & Hc' & _). by exists c.
Qed.

(** An element of two bytes that holds a byte and, in turn, three bytes with a
    prefix of two. *)
Definition sample_world : world :=
  mk_world (Some (mk_buffer (Some <$> [7; 0x30; 0; 1; 0; 0; 9; 9; 9]) 9 true false))
    (<[1 := mk_cbb true (Some 2) 0 1 false true]>
    (<[2 := mk_cbb true (Some 3) 2 1 true true]>
    (<[3 := mk_cbb true None 4 2 false true]> ∅))).

Lemma flush_correct_witness :
  let fs := [mk_frame Asn1 2 [1]; mk_frame (Fixed 2) 3 [9; 9; 9]] in
  match CBB_flush (fun _ => true) 1 sample_world with
  | Done _ w' => exists c, collapse [0x30] fs = Some c /\ chained true 0 w' [7] 1 c []
  | Bad w' => flagged w' /\ no_collapse (fun _ => true) true 0 [7] [0x30] fs
  | Stuck => False
  end.
Proof.
  apply (flush_correct (fun _ => true) true 0 sample_world [7] 1 [0x30] [mk_frame Asn1 2 [1]; mk_frame (Fixed 2) 3 [9; 9; 9]]).
  eexists. split; [reflexivity|]. split; [split; try done; by exists []|]. split.
  - cbn [chain]. eexists. split; [by vm_compute|]. split; [done|]. split; [done|]. split.
    { eexists. split; [by vm_compute|done]. }
    eexists. split; [by vm_compute|]. split; [done|]. split; [done|]. split.
    { eexists. split; [by vm_compute|done]. }
    eexists. by vm_compute.
  - split; [decided|]. repeat constructor; cbn; lia.
Defined.

(** C17.  From CBB_init (or CBB_init_fixed) to CBB_finish: a program that writes
    any document - bytes, big-endian integers, ASN.1 integers, booleans and octet
    strings, in children with length prefixes and ASN.1 headers nested to any
    depth - ends with exactly the encoding of the document, or returns 0 because
    some contents are too long for their prefix or there is no room.  It never
    has undefined behaviour, and CBB_cleanup is defined in whatever state a
    failure leaves. *)
Theorem document_correct realloc_ok t d a w :
  doc_ok d ->
  match document realloc_ok t d a w with
  | Done bs w' => base w' = None /\ exists s, encode d = Some s /\ bs = Some <$> s
  | Bad w' => (forall s, encode d = Some s -> no_room realloc_ok t (Z.of_nat (length s))) /\
              exists w'', CBB_cleanup a w' = Done tt w''
  | Stuck => False
  end.
Proof.
  intros Hd. pose proof (document_spec realloc_ok t d a w Hd) as H.
  pose proof (document_cleanup realloc_ok t d a w) as Hcl. unfold triple in H.
  destruct (document realloc_ok t d a w) as [bs w'|w'|]; [|by split|done].
  destruct H as (s & Hs & -> & ->). split; [done|]. by exists s.
Qed.

(** A SEQUENCE of an integer and a vector, in an array of twelve bytes. *)
Definition sample_doc : doc :=
  Child (Element 0x20000010) (Value (Int64 (-300)) (Child (Prefixed 2) (Value (Bytes [1; 2; 3]) Empty) Empty)) Empty.

Lemma document_correct_witness :
  match document (fun _ => true) (Array (replicate 12 None)) sample_doc 1 (mk_world None ∅) with
  | Done bs w' => base w' = None /\ exists s, encode sample_doc = Some s /\ bs = Some <$> s
  | Bad w' => (forall s, encode sample_doc = Some s ->
                 no_room (fun _ => true) (Array (replicate 12 None)) (Z.of_nat (length s))) /\
              exists w'', CBB_cleanup 1 w' = Done tt w''
  | Stuck => False
  end.
Proof.
  apply (document_correct (fun _ => true) (Array (replicate 12 None)) sample_doc 1 (mk_world None ∅)).
  split_and!; try done. - decided.
Defined.

(** C18.  What the builder made of a document, the readers of cbs.c take apart
    into the same document again, and leave what follows it. *)
Theorem document_roundtrip realloc_ok t d a w bs w' rest :
  doc_ok d -> document realloc_ok t d a w = Done (Some <$> bs) w' ->
  Forall (in_u 8) rest -> CBS_len (bs ++ rest) < 2 ^ 60 ->
  read_doc d (bs ++ rest) = Done d rest.
Proof.
  intros Hd E Hr Hl. pose proof (document_spec realloc_ok t d a w Hd) as H. rewrite E in H.
  destruct H as (s & Hs & Ebs & _). apply (inj (fmap Some)) in Ebs as ->. by apply read_doc_spec.
Qed.

Lemma document_roundtrip_witness :
  read_doc sample_doc ([0x30; 9; 2; 2; 0xfe; 0xd4; 0; 3; 1; 2; 3] ++ [5]) = Done sample_doc [5].
Proof.
  apply (document_roundtrip (fun _ => true) (Array (replicate 12 None)) sample_doc 1 (mk_world None ∅)
           [0x30; 9; 2; 2; 0xfe; 0xd4; 0; 3; 1; 2; 3] (mk_world None (<[1 := zero_cbb]> ∅)));
    [split_and!; try done; decided|vm_compute; reflexivity|decided|decided].
Defined.

(** C19.  CBB_flush_asn1_set_of, with children open or not: the contents become
    the same elements in ascending lexicographic order (X.690, 11.6), which is the
    only such arrangement; it returns 0 when the flush does, when the contents are
    not a sequence of DER elements, or when an allocation fails.  Writing the
    elements back never needs more room, and the assertion at the end holds. *)
Theorem set_of_correct realloc_ok resizable limit buf_ok children_ok w pre a body fs :
  chained resizable limit w pre a body fs -> starts_at w pre a ->
  (forall c, collapse body fs = Some c -> Forall (in_u 8) c /\ CBS_len c < 2 ^ 60) ->
  match CBB_flush_asn1_set_of realloc_ok buf_ok children_ok a w with
  | Done _ w' => exists els els', Forall element els /\ collapse body fs = Some (concat els) /\
      els' ≡ₚ els /\ StronglySorted (fun x y => lex x y <= 0) els' /\ chained resizable limit w' pre a (concat els') []
  | Bad w' => no_collapse realloc_ok resizable limit pre body fs \/ buf_ok && children_ok = false \/
      exists c, collapse body fs = Some c /\ forall els, Forall element els -> c <> concat els
  | Stuck => False
  end.
Proof.
  intros Hc Hs Hb. pose proof (set_of_chained realloc_ok resizable limit buf_ok children_ok w pre a body fs Hc Hs Hb) as H.
  unfold triple in H. destruct (CBB_flush_asn1_set_of _ _ _ _ _); [|done|done].
  destruct H as (els & Hels & Hcol & Ho). exists els, (qsort els).
  split_and!; [done|done|apply qsort_Permutation|apply qsort_lex|done].
Qed.

(** The integers 3 and 1 in an element that is still open. *)
Definition set_world : world :=
  mk_world (Some (mk_buffer (Some <$> [0x31; 0; 2; 1; 3; 2; 1; 1]) 8 true false))
    (<[1 := mk_cbb true (Some 2) 0 0 false false]> (<[2 := mk_cbb true None 1 1 true true]> ∅)).

Lemma set_of_correct_witness :
  match CBB_flush_asn1_set_of (fun _ => true) true true 2 set_world with
  | Done _ w' => exists els els', Forall element els /\ collapse [2; 1; 3; 2; 1; 1] [] = Some (concat els) /\
      els' ≡ₚ els /\ StronglySorted (fun x y => lex x y <= 0) els' /\ chained true 0 w' [0x31; 0] 2 (concat els') []
  | Bad w' => no_collapse (fun _ => true) true 0 [0x31; 0] [2; 1; 3; 2; 1; 1] [] \/ true && true = false \/
      exists c, collapse [2; 1; 3; 2; 1; 1] [] = Some c /\ forall els, Forall element els -> c <> concat els
  | Stuck => False
  end.
Proof.
  apply (set_of_correct (fun _ => true) true 0 true true set_world [0x31; 0] 2 [2; 1; 3; 2; 1; 1] []).
  - eexists. split; [reflexivity|]. split; [split; try done; by exists []|]. split.
    + eexists. by vm_compute.
    + split; [decided|constructor].
  - eexists. split; [by vm_compute|done].
  - intros c [= <-]. split; decided.
Defined.

(** C20.  CBB_add_asn1_oid_from_text and CBS_asn1_oid_to_text are inverse to each
    other: for all texts and contents (of less than 2^60 bytes), and with memory
    to be had, the builder makes the contents from the text exactly when the
    reader makes the text, with its terminator, from the contents.  So each
    accepts what the other can write, and nothing else. *)
Theorem oid_text_inverse capacity text body a w :
  Forall (in_u 8) text -> Forall (in_u 8) body ->
  Z.of_nat (length text) < 2 ^ 60 -> Z.of_nat (length body) < 2 ^ 60 ->
  (exists w', (CBB_init true true a capacity;; CBB_add_asn1_oid_from_text (fun _ => true) a text;;
               CBB_finish (fun _ => true) true a) w = Done (Some <$> body) w') <->
  CBS_asn1_oid_to_text (fun _ => true) true true body = Some (Some (Some <$> text ++ [0])).
Proof. intros. by apply (oid_inverse capacity). Qed.

(** 2.100.3 *)
Lemma oid_text_inverse_witness :
  (exists w', (CBB_init true true 1 4;; CBB_add_asn1_oid_from_text (fun _ => true) 1 [50; 46; 49; 48; 48; 46; 51];;
               CBB_finish (fun _ => true) true 1) (mk_world None ∅) = Done (Some <$> [0x81; 0x34; 3]) w') <->
  CBS_asn1_oid_to_text (fun _ => true) true true [0x81; 0x34; 3] = Some (Some (Some <$> [50; 46; 49; 48; 48; 46; 51] ++ [0])).
Proof.
  apply (oid_text_inverse 4 [50; 46; 49; 48; 48; 46; 51] [0x81; 0x34; 3] 1 (mk_world None ∅)); decided.
Defined.
