(* ===== verification/Bn.v ===== *)
(** * BoringSSL: multiple-precision integers ([crypto/fipsmodule/bn])

    [bn.c], [add.c], [cmp.c], [generic.c] (the loops over words), the
    multiplication of [mul.c] by the schoolbook method, [shift.c] and
    [bytes.c], for 64-bit words with a 128-bit type.

    BIGNUMs are in a store by address, because a result may be one of the
    operands.  A BIGNUM owns the array behind [d]; [dmax] is its length, and an
    empty array stands for NULL.  A pointer to words is the address of the BIGNUM
    and an index.  [malloc n] is the array of [n] words that [OPENSSL_malloc]
    returns, with any contents, or NULL. *)
From S2P Require Import Prelude CBuf CMem Base64.

Definition BN_BITS2 := 64.
Definition BN_BYTES := 8.
Definition BN_MASK2 := 0xffffffffffffffff.
Definition BN_FLG_MALLOCED := 0x01.
Definition BN_FLG_STATIC_DATA := 0x02.
Abbreviation u128 := (wrapu 128).

(** [struct bignum_st] *)
Record bignum : Type := mk_bn { d : list Z; width : Z; neg : Z; bflags : Z }.

Abbreviation bns := (gmap Z bignum).

Definition dmax (b : bignum) : Z := Z.of_nat (length (d b)).
Definition with_d (v : list Z) (b : bignum) := mk_bn v (width b) (neg b) (bflags b).
Definition with_width (x : Z) (b : bignum) := mk_bn (d b) x (neg b) (bflags b).
Definition with_neg (x : Z) (b : bignum) := mk_bn (d b) (width b) x (bflags b).

(** The member of a BIGNUM, and an assignment to it. *)
Definition get {A} (w : bns) (a : Z) (f : bignum -> A) : option A := b ← w !! a; Some (f b).
Definition upd (w : bns) (a : Z) (f : bignum -> bignum) : option bns := b ← w !! a; Some (<[a := f b]> w).

(** [p[i]] *)
Definition word (w : bns) (p : Z * Z) (i : Z) : option Z := b ← w !! p.1; rd (d b) (p.2 + i).
Definition set_word (w : bns) (p : Z * Z) (i v : Z) : option bns :=
  b ← w !! p.1; v ← wr (d b) (p.2 + i) v; Some (<[p.1 := with_d v b]> w).

(** ** Loops over words ([generic.c]) *)

Section Loops.
Context {S : Type} (step : Z -> S -> option S).

(** [while (n) ...] *)
Fixpoint tail_loop (fuel : nat) (i n : Z) (s : S) : option S :=
  if n =? 0 then Some s
  else match fuel with
       | O => None
       | Datatypes.S fuel' => s ← step i s; tail_loop fuel' (i + 1) (u64 (n - 1)) s
       end.

(** [while (n & ~3) ...], four words in each round, then the others. *)
Fixpoint words_loop (fuel : nat) (i n : Z) (s : S) : option S :=
  if Z.land n (Z.lnot 3) =? 0 then tail_loop 4 i n s
  else match fuel with
       | O => None
       | Datatypes.S fuel' =>
           s ← step i s; s ← step (i + 1) s; s ← step (i + 2) s; s ← step (i + 3) s;
           words_loop fuel' (i + 4) (u64 (n - 4)) s
       end.
End Loops.

(** The body for one word: the carry and the store. *)
Definition add_step (r a b : Z * Z) (i : Z) (s : Z * bns) : option (Z * bns) :=
  let '(ll, w) := s in
  x ← word w a i; y ← word w b i;
  let ll := u128 (ll + u128 (x + y)) in
  w ← set_word w r i (u64 ll);
  Some (Z.shiftr ll BN_BITS2, w).

Definition sub_step (r a b : Z * Z) (i : Z) (s : Z * bns) : option (Z * bns) :=
  let '(c, w) := s in
  t1 ← word w a i; t2 ← word w b i;
  w ← set_word w r i (u64 (u64 (t1 - t2) - c));
  Some (if negb (t1 =? t2) then (if t1 <? t2 then 1 else 0) else c, w).

Definition mul_step (r a : Z * Z) (m i : Z) (s : Z * bns) : option (Z * bns) :=
  let '(c, w) := s in
  x ← word w a i;
  let t := u128 (u128 (m * x) + c) in
  w ← set_word w r i (u64 t);
  Some (u64 (Z.shiftr t BN_BITS2), w).

Definition mul_add_step (r a : Z * Z) (m i : Z) (s : Z * bns) : option (Z * bns) :=
  let '(c, w) := s in
  y ← word w r i; x ← word w a i;
  let t := u128 (u128 (u128 (m * x) + y) + c) in
  w ← set_word w r i (u64 t);
  Some (u64 (Z.shiftr t BN_BITS2), w).

Definition over_words (step : Z -> Z * bns -> option (Z * bns)) (num : Z) (w : bns) : option (Z * bns) :=
  if num =? 0 then Some (0, w) else words_loop step (Z.to_nat num) 0 num (0, w).

Definition bn_add_words (w : bns) (r a b : Z * Z) (n : Z) : option (Z * bns) :=
  r ← over_words (add_step r a b) n w; Some (u64 r.1, r.2).
Definition bn_sub_words (w : bns) (r a b : Z * Z) (n : Z) : option (Z * bns) := over_words (sub_step r a b) n w.
Definition bn_mul_words (w : bns) (r a : Z * Z) (num m : Z) : option (Z * bns) := over_words (mul_step r a m) num w.
Definition bn_mul_add_words (w : bns) (r a : Z * Z) (num m : Z) : option (Z * bns) := over_words (mul_add_step r a m) num w.

(** ** Multiplication of words by words ([mul.c]) *)

(** The rows from the second on; [nb] counts down before each of them.  The
    code writes four rows in one round of the loop. *)
Fixpoint mul_rows (fuel : nat) (w : bns) (r a b : Z * Z) (na nb j : Z) : option bns :=
  match fuel with
  | O => None
  | S fuel' =>
      let nb := u64 (nb - 1) in
      if nb =? 0 then Some w
      else
        m ← word w b j;
        q ← bn_mul_add_words w (r.1, r.2 + j) a na m;
        w ← set_word q.2 r (na + j) q.1;
        mul_rows fuel' w r a b na nb (j + 1)
  end.

Definition bn_mul_normal (w : bns) (r a : Z * Z) (na : Z) (b : Z * Z) (nb : Z) : option bns :=
  let '(a, na, b, nb) := if na <? nb then (b, nb, a, na) else (a, na, b, nb) in
  if nb =? 0 then
    o ← w !! r.1; v ← wrs (d o) r.2 (replicate (Z.to_nat na) 0); Some (<[r.1 := with_d v o]> w)
  else
    m ← word w b 0;
    q ← bn_mul_words w r a na m;
    w ← set_word q.2 r na q.1;
    mul_rows (Z.to_nat nb) w r a b na nb 1.

(** ** BIGNUMs ([bn.c]) *)

Fixpoint minimal_loop (fuel : nat) (b : bignum) (ret : Z) : option Z :=
  if 0 <? ret then
    match fuel with
    | O => None
    | S fuel' => x ← rd (d b) (ret - 1); if x =? 0 then minimal_loop fuel' b (ret - 1) else Some ret
    end
  else Some ret.

Definition bn_minimal_width (b : bignum) : option Z := minimal_loop (Z.to_nat (width b)) b (width b).

Definition bn_set_minimal_width (w : bns) (a : Z) : option bns :=
  b ← w !! a;
  n ← bn_minimal_width b;
  w ← upd w a (with_width n);
  if n =? 0 then upd w a (with_neg 0) else Some w.

(** [mask |= bn->d[i]] for [i] from [i] up to [n]. *)
Fixpoint or_loop (fuel : nat) (b : bignum) (i n mask : Z) : option Z :=
  if i <? n then
    match fuel with
    | O => None
    | S fuel' => x ← rd (d b) i; or_loop fuel' b (i + 1) n (Z.lor mask x)
    end
  else Some mask.

Definition bn_fits_in_words (b : bignum) (num : Z) : option bool :=
  mask ← or_loop (Z.to_nat (width b - num)) b num (width b) 0; Some (mask =? 0).

Definition BN_is_zero (b : bignum) : option bool := bn_fits_in_words b 0.

(** One step of the search: the upper half is looked at if it is not zero. *)
Definition half_step (s : Z) (st : Z * Z) : Z * Z :=
  let '(bits, l) := st in
  let x := Z.shiftr l s in
  let mask := u64 (0 - x) in
  let mask := u64 (0 - Z.shiftr mask (BN_BITS2 - 1)) in
  (bits + Z.land s mask, Z.lxor l (Z.land (Z.lxor x l) mask)).

(** The last step leaves [l] alone, which nothing reads any more. *)
Definition BN_num_bits_word (l : Z) : Z :=
  let bits := if negb (l =? 0) then 1 else 0 in
  (half_step 1 (half_step 2 (half_step 4 (half_step 8 (half_step 16 (half_step 32 (bits, l))))))).1.

Definition BN_num_bits (b : bignum) : option Z :=
  width ← bn_minimal_width b;
  if width =? 0 then Some 0
  else top ← rd (d b) (width - 1); Some (u32 ((width - 1) * BN_BITS2 + BN_num_bits_word top)).

Definition BN_num_bytes (b : bignum) : option Z := n ← BN_num_bits b; Some (u32 (n + 7) / 8).

Definition BN_zero (w : bns) (a : Z) : option bns := upd w a (fun b => with_width 0 (with_neg 0 b)).

Definition BN_is_negative (b : bignum) : bool := negb (neg b =? 0).

Definition BN_set_negative (w : bns) (a sign : Z) : option bns :=
  b ← w !! a;
  z ← (if negb (sign =? 0) then BN_is_zero b else Some true);
  upd w a (with_neg (if z : bool then 0 else 1)).

Section Allocation.
Variable malloc : Z -> option (list Z).

Definition bn_wexpand (w : bns) (a words : Z) : option (bool * bns) :=
  b ← w !! a;
  if words <=? dmax b then Some (true, w)
  else if INT_MAX / (4 * BN_BITS2) <? words then Some (false, w)
  else if negb (Z.land (bflags b) BN_FLG_STATIC_DATA =? 0) then Some (false, w)
  else
    match malloc words with
    | None => Some (false, w)
    | Some v =>
        old ← rds (d b) 0 (width b);
        v ← wrs v 0 old;
        Some (true, <[a := with_d v b]> w)
    end.

Definition bn_expand (w : bns) (a bits : Z) : option (bool * bns) :=
  if u64 (bits + BN_BITS2 - 1) <? bits then Some (false, w) else bn_wexpand w a (u64 (bits + BN_BITS2 - 1) / BN_BITS2).

Definition BN_copy (w : bns) (dest src : Z) : option (bool * bns) :=
  if src =? dest then Some (true, w)
  else
    s ← w !! src;
    r ← bn_wexpand w dest (u64 (width s));
    let '(ok, w) := r in
    if negb ok then Some (false, w)
    else
      s ← w !! src; t ← w !! dest;
      v ← rds (d s) 0 (width s);
      v ← wrs (d t) 0 v;
      Some (true, <[dest := with_neg (neg s) (with_width (width s) (with_d v t))]> w).

Definition BN_set_word (w : bns) (a value : Z) : option (bool * bns) :=
  if value =? 0 then w ← BN_zero w a; Some (true, w)
  else
    r ← bn_wexpand w a 1;
    let '(ok, w) := r in
    if negb ok then Some (false, w)
    else
      w ← upd w a (with_neg 0);
      w ← set_word w (a, 0) 0 value;
      w ← upd w a (with_width 1);
      Some (true, w).

Definition BN_one (w : bns) (a : Z) : option (bool * bns) := BN_set_word w a 1.
Definition BN_set_u64 (w : bns) (a value : Z) : option (bool * bns) := BN_set_word w a value.

(** ** Addition and subtraction ([add.c]) *)

(** The words of the longer operand, to which the carry is added. *)
Fixpoint carry_loop (fuel : nat) (w : bns) (r a i max carry : Z) : option (Z * bns) :=
  if i <? max then
    match fuel with
    | O => None
    | S fuel' =>
        x ← word w (a, 0) i;
        let tmp := u64 (carry + x) in
        let carry := if tmp <? x then 1 else 0 in
        w ← set_word w (r, 0) i tmp;
        carry_loop fuel' w r a (i + 1) max carry
    end
  else Some (carry, w).

Definition bn_uadd_consttime (w : bns) (r a b : Z) : option (bool * bns) :=
  wa ← get w a width; wb ← get w b width;
  let '(a, b) := if wa <? wb then (b, a) else (a, b) in
  max ← get w a width; min ← get w b width;
  n ← i32 (max + 1);
  q ← bn_wexpand w r (u64 n);
  let '(ok, w) := q in
  if negb ok then Some (false, w)
  else
    w ← upd w r (with_width n);
    q ← bn_add_words w (r, 0) (a, 0) (b, 0) (u64 min);
    q ← carry_loop (Z.to_nat (max - min)) q.2 r a min max q.1;
    w ← set_word q.2 (r, 0) max q.1;
    Some (true, w).

Definition BN_uadd (w : bns) (r a b : Z) : option (bool * bns) :=
  q ← bn_uadd_consttime w r a b;
  let '(ok, w) := q in
  if negb ok then Some (false, w) else w ← bn_set_minimal_width w r; Some (true, w).

Fixpoint borrow_loop (fuel : nat) (w : bns) (r a i max borrow : Z) : option (Z * bns) :=
  if i <? max then
    match fuel with
    | O => None
    | S fuel' =>
        tmp ← word w (a, 0) i;
        let x := u64 (tmp - borrow) in
        w ← set_word w (r, 0) i x;
        borrow_loop fuel' w r a (i + 1) max (if tmp <? x then 1 else 0)
    end
  else Some (borrow, w).

Definition bn_usub_consttime (w : bns) (r a b : Z) : option (bool * bns) :=
  x ← w !! a; y ← w !! b;
  fits ← (if width x <? width y then bn_fits_in_words y (width x) else Some true);
  if negb fits then Some (false, w)
  else
    let b_width := if width x <? width y then width x else width y in
    q ← bn_wexpand w r (u64 (width x));
    let '(ok, w) := q in
    if negb ok then Some (false, w)
    else
      q ← bn_sub_words w (r, 0) (a, 0) (b, 0) (u64 b_width);
      q ← borrow_loop (Z.to_nat (width x - b_width)) q.2 r a b_width (width x) q.1;
      let '(borrow, w) := q in
      if negb (borrow =? 0) then Some (false, w)
      else
        n ← get w a width;
        w ← upd w r (fun b => with_neg 0 (with_width n b));
        Some (true, w).

Definition BN_usub (w : bns) (r a b : Z) : option (bool * bns) :=
  q ← bn_usub_consttime w r a b;
  let '(ok, w) := q in
  if negb ok then Some (false, w) else w ← bn_set_minimal_width w r; Some (true, w).
End Allocation.

(** ** Comparison ([cmp.c]) *)

Definition constant_time_lt_w (a b : Z) : Z :=
  constant_time_msb_w (Z.lxor a (Z.lor (Z.lxor a b) (Z.lxor (u64 (a - b)) a))).

Definition constant_time_select_int (mask a b : Z) : Z :=
  s32 (constant_time_select_w mask (u64 a) (u64 b)).

Fixpoint cmp_loop (fuel : nat) (a b : list Z) (i min ret : Z) : option Z :=
  if i <? min then
    match fuel with
    | O => None
    | S fuel' =>
        x ← rd a i; y ← rd b i;
        let eq := constant_time_eq_w x y in
        let lt := constant_time_lt_w x y in
        cmp_loop fuel' a b (i + 1) min (constant_time_select_int eq ret (constant_time_select_int lt (-1) 1))
    end
  else Some ret.

Fixpoint or_words (fuel : nat) (a : list Z) (i n mask : Z) : option Z :=
  if i <? n then
    match fuel with
    | O => None
    | S fuel' => x ← rd a i; or_words fuel' a (i + 1) n (Z.lor mask x)
    end
  else Some mask.

Definition bn_cmp_words_consttime (a : list Z) (a_len : Z) (b : list Z) (b_len : Z) : option Z :=
  let min := if a_len <? b_len then a_len else b_len in
  ret ← cmp_loop (Z.to_nat min) a b 0 min 0;
  if a_len <? b_len then
    mask ← or_words (Z.to_nat (b_len - a_len)) b a_len b_len 0;
    Some (constant_time_select_int (constant_time_is_zero_w mask) ret (-1))
  else if b_len <? a_len then
    mask ← or_words (Z.to_nat (a_len - b_len)) a b_len a_len 0;
    Some (constant_time_select_int (constant_time_is_zero_w mask) ret 1)
  else Some ret.

Definition BN_ucmp (a b : bignum) : option Z := bn_cmp_words_consttime (d a) (width a) (d b) (width b).

(** NULL is [None]. *)
Definition BN_cmp (a b : option bignum) : option Z :=
  match a, b with
  | Some _, None => Some (-1)
  | None, Some _ => Some 1
  | None, None => Some 0
  | Some a, Some b =>
      if negb (neg a =? neg b) then Some (if negb (neg a =? 0) then -1 else 1)
      else
        ret ← BN_ucmp a b;
        Some (if negb (neg a =? 0) then - ret else ret)
  end.

Definition bn_less_than_words (a b : list Z) (len : Z) : option bool := r ← bn_cmp_words_consttime a len b len; Some (r <? 0).

Definition BN_abs_is_word (b : bignum) (x : Z) : option bool :=
  if width b =? 0 then Some (x =? 0)
  else
    y ← rd (d b) 0;
    mask ← or_loop (Z.to_nat (width b)) b 1 (width b) (Z.lxor y x);
    Some (mask =? 0).

(** The local BIGNUM has the word [x] for its digits. *)
Definition BN_cmp_word (a : option bignum) (x : Z) : option Z :=
  BN_cmp a (Some (mk_bn [x] (if 0 <? x then 1 else 0) 0 BN_FLG_STATIC_DATA)).

Definition BN_is_one (b : bignum) : option bool := if neg b =? 0 then BN_abs_is_word b 1 else Some false.
Definition BN_is_word (b : bignum) (x : Z) : option bool := r ← BN_abs_is_word b x; Some (r && ((x =? 0) || (neg b =? 0))).
Definition BN_is_odd (b : bignum) : option bool :=
  if 0 <? width b then x ← rd (d b) 0; Some (Z.land x 1 =? 1) else Some false.

Fixpoint differ_loop (fuel : nat) (a b : list Z) (i min mask : Z) : option Z :=
  if i <? min then
    match fuel with
    | O => None
    | S fuel' => x ← rd a i; y ← rd b i; differ_loop fuel' a b (i + 1) min (Z.lor mask (Z.lxor x y))
    end
  else Some mask.

Definition BN_equal_consttime (a b : bignum) : option bool :=
  mask ← or_loop (Z.to_nat (width b - width a)) b (width a) (width b) 0;
  mask ← or_loop (Z.to_nat (width a - width b)) a (width b) (width a) mask;
  let min := if width a <? width b then width a else width b in
  mask ← differ_loop (Z.to_nat min) (d a) (d b) 0 min mask;
  Some (Z.lor mask (u64 (Z.lxor (neg a) (neg b))) =? 0).

(** ** Signed addition and subtraction ([add.c]) *)

Section Signed.
Variable malloc : Z -> option (list Z).

Definition BN_add (w : bns) (r a b : Z) : option (bool * bns) :=
  x ← w !! a; y ← w !! b;
  let a_neg := neg x in
  if negb (Z.lxor a_neg (neg y) =? 0) then
    let '(a, b) := if negb (a_neg =? 0) then (b, a) else (a, b) in
    x ← w !! a; y ← w !! b;
    c ← BN_ucmp x y;
    q ← (if c <? 0 then BN_usub malloc w r b a else BN_usub malloc w r a b);
    let '(ok, w) := q in
    if negb ok then Some (false, w)
    else w ← upd w r (with_neg (if c <? 0 then 1 else 0)); Some (true, w)
  else
    q ← BN_uadd malloc w r a b;
    w ← upd q.2 r (with_neg a_neg);
    Some (q.1, w).

Definition BN_sub (w : bns) (r a b : Z) : option (bool * bns) :=
  x ← w !! a; y ← w !! b;
  let an := negb (neg x =? 0) in
  let bn := negb (neg y =? 0) in
  let '(add, sign) := if an then (if bn then (false, 0) else (true, 1)) else (if bn then (true, 0) else (false, 0)) in
  let '(a, b) := if an && bn then (b, a) else (a, b) in
  if add : bool then
    q ← BN_uadd malloc w r a b;
    let '(ok, w) := q in
    if negb ok then Some (false, w) else w ← upd w r (with_neg sign); Some (true, w)
  else
    x ← w !! a; y ← w !! b;
    c ← BN_ucmp x y;
    q ← (if c <? 0 then BN_usub malloc w r b a else BN_usub malloc w r a b);
    let '(ok, w) := q in
    if negb ok then Some (false, w)
    else w ← upd w r (with_neg (if c <? 0 then 1 else 0)); Some (true, w).

(** The carry goes on while it is not zero; [i] is where the loop stops. *)
Fixpoint add_word_loop (fuel : nat) (w : bns) (a i x : Z) : option (Z * Z * bns) :=
  b ← w !! a;
  if negb (x =? 0) && (i <? width b) then
    match fuel with
    | O => None
    | S fuel' =>
        y ← word w (a, 0) i;
        let l := u64 (y + x) in
        w ← set_word w (a, 0) i l;
        add_word_loop fuel' w a (i + 1) (if l <? x then 1 else 0)
    end
  else Some (i, x, w).

(** For [a] that is not negative. *)
Definition add_word_abs (w : bns) (a x : Z) : option (bool * bns) :=
  b ← w !! a;
  q ← add_word_loop (Z.to_nat (width b)) w a 0 x;
  let '(i, x, w) := q in
  b ← w !! a;
  if negb (x =? 0) && (i =? width b) then
    n ← i32 (width b + 1);
    q ← bn_wexpand malloc w a (u64 n);
    let '(ok, w) := q in
    if negb ok then Some (false, w)
    else
      w ← upd w a (fun b => with_width (width b + 1) b);
      w ← set_word w (a, 0) i x;
      Some (true, w)
  else Some (true, w).

Fixpoint sub_word_loop (fuel : nat) (w : bns) (a i x : Z) : option (Z * bns) :=
  match fuel with
  | O => None
  | S fuel' =>
      y ← word w (a, 0) i;
      w ← set_word w (a, 0) i (u64 (y - x));
      if x <=? y then Some (i, w) else sub_word_loop fuel' w a (i + 1) 1
  end.

(** For [a] that is not negative and not zero. *)
Definition sub_word_abs (w : bns) (a x : Z) : option (bool * bns) :=
  b ← w !! a;
  n ← bn_minimal_width b;
  small ← (if n =? 1 then y ← word w (a, 0) 0; Some (y <? x) else Some false);
  if small : bool then
    y ← word w (a, 0) 0;
    w ← set_word w (a, 0) 0 (u64 (x - y));
    w ← upd w a (with_neg 1);
    Some (true, w)
  else
    q ← sub_word_loop (Z.to_nat (width b)) w a 0 x;
    let '(i, w) := q in
    y ← word w (a, 0) i;
    if (y =? 0) && (i =? width b - 1) then w ← upd w a (fun b => with_width (width b - 1) b); Some (true, w)
    else Some (true, w).

(** The recursive calls of the two functions are for an [a] whose sign was just
    cleared, and do not recur. *)
Definition BN_add_word (w : bns) (a x : Z) : option (bool * bns) :=
  if x =? 0 then Some (true, w)
  else
    b ← w !! a;
    z ← BN_is_zero b;
    if z : bool then BN_set_word malloc w a x
    else if negb (neg b =? 0) then
      w ← upd w a (with_neg 0);
      q ← sub_word_abs w a x;
      b ← q.2 !! a;
      z ← BN_is_zero b;
      w ← (if z : bool then Some q.2 else upd q.2 a (fun b => with_neg (if neg b =? 0 then 1 else 0) b));
      Some (q.1, w)
    else add_word_abs w a x.

Definition BN_sub_word (w : bns) (a x : Z) : option (bool * bns) :=
  if x =? 0 then Some (true, w)
  else
    b ← w !! a;
    z ← BN_is_zero b;
    if z : bool then
      q ← BN_set_word malloc w a x;
      let '(ok, w) := q in
      if ok : bool then w ← BN_set_negative w a 1; Some (true, w) else Some (false, w)
    else if negb (neg b =? 0) then
      w ← upd w a (with_neg 0);
      q ← add_word_abs w a x;
      w ← upd q.2 a (with_neg 1);
      Some (q.1, w)
    else sub_word_abs w a x.

Definition BN_mul_word (w : bns) (a m : Z) : option (bool * bns) :=
  b ← w !! a;
  if width b =? 0 then Some (true, w)
  else if m =? 0 then w ← BN_zero w a; Some (true, w)
  else
    q ← bn_mul_words w (a, 0) (a, 0) (u64 (width b)) m;
    let '(ll, w) := q in
    if negb (ll =? 0) then
      n ← i32 (width b + 1);
      q ← bn_wexpand malloc w a (u64 n);
      let '(ok, w) := q in
      if negb ok then Some (false, w)
      else
        w ← set_word w (a, 0) (width b) ll;
        w ← upd w a (fun b => with_width (width b + 1) b);
        Some (true, w)
    else Some (true, w).
End Signed.

(** ** Shifts and bits ([shift.c]) *)

(** From the last word down; the bits that leave a word go to the next. *)
Fixpoint lshift_loop (fuel : nat) (w : bns) (r a nw lb i : Z) : option bns :=
  if 0 <=? i then
    match fuel with
    | O => None
    | S fuel' =>
        l ← word w (a, 0) i;
        w ← (if lb =? 0 then set_word w (r, 0) (nw + i) l
             else
               t ← word w (r, 0) (nw + i + 1);
               w ← set_word w (r, 0) (nw + i + 1) (Z.lor t (Z.shiftr l (BN_BITS2 - lb)));
               set_word w (r, 0) (nw + i) (u64 (Z.shiftl l lb)));
        lshift_loop fuel' w r a nw lb (i - 1)
    end
  else Some w.

(** The array of a BIGNUM with [v] at [i]. *)
Definition set_words (w : bns) (a i : Z) (v : list Z) : option bns := b ← w !! a; v ← wrs (d b) i v; Some (<[a := with_d v b]> w).

Fixpoint rshift_loop (fuel : nat) (w : bns) (r a sw sb i num : Z) : option bns :=
  if i <? num - 1 then
    match fuel with
    | O => None
    | S fuel' =>
        x ← word w (a, 0) i; y ← word w (a, 0) (i + 1);
        w ← set_word w (r, 0) (i - sw) (Z.lor (Z.shiftr x sb) (u64 (Z.shiftl y (BN_BITS2 - sb))));
        rshift_loop fuel' w r a sw sb (i + 1) num
    end
  else Some w.

Definition bn_rshift_words (w : bns) (r a shift num : Z) : option bns :=
  let shift_bits := shift mod BN_BITS2 in
  let shift_words := shift / BN_BITS2 in
  if num <=? shift_words then set_words w r 0 (replicate (Z.to_nat num) 0)
  else
    w ← (if shift_bits =? 0 then b ← w !! a; v ← rds (d b) shift_words (num - shift_words); set_words w r 0 v
         else
           w ← rshift_loop (Z.to_nat num) w r a shift_words shift_bits shift_words num;
           x ← word w (a, 0) (num - 1);
           set_word w (r, 0) (num - 1 - shift_words) (Z.shiftr x shift_bits));
    set_words w r (num - shift_words) (replicate (Z.to_nat shift_words) 0).

Section Shifts.
Variable malloc : Z -> option (list Z).

Definition BN_lshift (w : bns) (r a n : Z) : option (bool * bns) :=
  if n <? 0 then Some (false, w)
  else
    s ← get w a neg;
    w ← upd w r (with_neg s);
    let nw := Z.quot n BN_BITS2 in
    x ← get w a width;
    size ← i32 (x + nw); size ← i32 (size + 1);
    q ← bn_wexpand malloc w r (u64 size);
    let '(ok, w) := q in
    if negb ok then Some (false, w)
    else
      let lb := Z.rem n BN_BITS2 in
      w ← set_word w (r, 0) (x + nw) 0;
      w ← lshift_loop (Z.to_nat x) w r a nw lb (x - 1);
      w ← set_words w r 0 (replicate (Z.to_nat nw) 0);
      x ← get w a width;
      w ← upd w r (with_width (x + nw + 1));
      w ← bn_set_minimal_width w r;
      Some (true, w).

Fixpoint lshift1_loop (fuel : nat) (w : bns) (r a i n c : Z) : option (Z * bns) :=
  if i <? n then
    match fuel with
    | O => None
    | S fuel' =>
        t ← word w (a, 0) i;
        w ← set_word w (r, 0) i (Z.lor (u64 (Z.shiftl t 1)) c);
        lshift1_loop fuel' w r a (i + 1) n (Z.shiftr t (BN_BITS2 - 1))
    end
  else Some (c, w).

Definition BN_lshift1 (w : bns) (r a : Z) : option (bool * bns) :=
  x ← w !! a;
  w ← (if negb (r =? a) then upd w r (with_neg (neg x)) else Some w);
  n ← i32 (width x + 1);
  q ← bn_wexpand malloc w r (u64 n);
  let '(ok, w) := q in
  if negb ok then Some (false, w)
  else
    w ← (if negb (r =? a) then upd w r (with_width (width x)) else Some w);
    q ← lshift1_loop (Z.to_nat (width x)) w r a 0 (width x) 0;
    let '(c, w) := q in
    if negb (c =? 0) then
      w ← set_word w (r, 0) (width x) 1;
      w ← upd w r (fun b => with_width (width b + 1) b);
      Some (true, w)
    else Some (true, w).

Definition BN_rshift (w : bns) (r a n : Z) : option (bool * bns) :=
  if n <? 0 then Some (false, w)
  else
    x ← get w a width;
    q ← bn_wexpand malloc w r (u64 x);
    let '(ok, w) := q in
    if negb ok then Some (false, w)
    else
      w ← bn_rshift_words w r a n x;
      x ← w !! a;
      w ← upd w r (fun b => with_width (width x) (with_neg (neg x) b));
      w ← bn_set_minimal_width w r;
      Some (true, w).

Definition BN_set_bit (w : bns) (a n : Z) : option (bool * bns) :=
  if n <? 0 then Some (false, w)
  else
    let i := Z.quot n BN_BITS2 in
    let j := Z.rem n BN_BITS2 in
    b ← w !! a;
    q ← (if width b <=? i then
           q ← bn_wexpand malloc w a (u64 (i + 1));
           let '(ok, w) := q in
           if negb ok then Some (false, w)
           else
             w ← set_words w a (width b) (replicate (Z.to_nat (i + 1 - width b)) 0);
             w ← upd w a (with_width (i + 1));
             Some (true, w)
         else Some (true, w));
    let '(ok, w) := q in
    if negb ok then Some (false, w)
    else
      x ← word w (a, 0) i;
      w ← set_word w (a, 0) i (Z.lor x (u64 (Z.shiftl 1 j)));
      Some (true, w).
End Shifts.

Definition BN_clear_bit (w : bns) (a n : Z) : option (bool * bns) :=
  if n <? 0 then Some (false, w)
  else
    let i := Z.quot n BN_BITS2 in
    let j := Z.rem n BN_BITS2 in
    b ← w !! a;
    if width b <=? i then Some (false, w)
    else
      x ← word w (a, 0) i;
      w ← set_word w (a, 0) i (Z.land x (u64 (Z.lnot (u64 (Z.shiftl 1 j)))));
      w ← bn_set_minimal_width w a;
      Some (true, w).

Definition bn_is_bit_set_words (a : list Z) (num bit : Z) : option bool :=
  let i := bit / BN_BITS2 in
  let j := bit mod BN_BITS2 in
  if num <=? i then Some false else x ← rd a i; Some (Z.land (Z.shiftr x j) 1 =? 1).

Definition BN_is_bit_set (b : bignum) (n : Z) : option bool :=
  if n <? 0 then Some false else bn_is_bit_set_words (d b) (width b) n.

Definition BN_mask_bits (w : bns) (a n : Z) : option (bool * bns) :=
  if n <? 0 then Some (false, w)
  else
    let x := Z.quot n BN_BITS2 in
    let b := Z.rem n BN_BITS2 in
    width ← get w a width;
    if width <=? x then Some (true, w)
    else
      w ← (if b =? 0 then upd w a (with_width x)
           else
             w ← upd w a (with_width (x + 1));
             y ← word w (a, 0) x;
             set_word w (a, 0) x (Z.land y (u64 (Z.lnot (u64 (Z.shiftl BN_MASK2 b))))));
      w ← bn_set_minimal_width w a;
      Some (true, w).

(** ** Conversion to and from bytes ([bytes.c]) *)

Section Bytes.
Variable malloc : Z -> option (list Z).

Fixpoint bin_loop (fuel : nat) (w : bns) (a : Z) (in_ : list Z) (pos len num_words m word : Z) : option bns :=
  if len =? 0 then Some w
  else
    match fuel with
    | O => None
    | S fuel' =>
        c ← rd in_ pos;
        let word := Z.lor (u64 (Z.shiftl word 8)) c in
        if m =? 0 then
          w ← set_word w (a, 0) (num_words - 1) word;
          bin_loop fuel' w a in_ (pos + 1) (len - 1) (num_words - 1) (BN_BYTES - 1) 0
        else bin_loop fuel' w a in_ (pos + 1) (len - 1) num_words (u32 (m - 1)) word
    end.

(** [ret] is a BIGNUM; with NULL the function makes one first. *)
Definition BN_bin2bn (w : bns) (in_ : list Z) (len ret : Z) : option (bool * bns) :=
  if len =? 0 then w ← upd w ret (with_width 0); Some (true, w)
  else
    let num_words := (len - 1) / BN_BYTES + 1 in
    let m := (len - 1) mod BN_BYTES in
    q ← bn_wexpand malloc w ret num_words;
    let '(ok, w) := q in
    if negb ok then Some (false, w)
    else if INT_MAX <? num_words then None
    else
      w ← upd w ret (fun b => with_neg 0 (with_width num_words b));
      w ← bin_loop (Z.to_nat len) w ret in_ 0 len num_words m 0;
      Some (true, w).
End Bytes.

(** [out] is an array and an index. *)
Fixpoint bn2bin_loop (fuel : nat) (b : bignum) (out : list Z) (pos i : Z) : option (list Z) :=
  if i =? 0 then Some out
  else
    match fuel with
    | O => None
    | S fuel' =>
        let i := i - 1 in
        l ← rd (d b) (i / BN_BYTES);
        out ← wr out pos (Z.land (u8 (Z.shiftr l (8 * (i mod BN_BYTES)))) 0xff);
        bn2bin_loop fuel' b out (pos + 1) i
    end.

Definition BN_bn2bin (b : bignum) (out : list Z) (pos : Z) : option (Z * list Z) :=
  n ← BN_num_bytes b;
  out ← bn2bin_loop (Z.to_nat n) b out pos n;
  Some (n, out).

(** The bytes of the words in memory: little endian. *)
Definition memory (ws : list Z) : list Z := mjoin (le_split 8 <$> ws).

(** The words after bytes were copied over the first of their bytes. *)
Definition overlay (bs ws : list Z) : list Z :=
  let m := bs ++ drop (length bs) (memory ws) in
  (fun k => le_combine (take 8 (drop (8 * k) m))) <$> seq 0 (length ws).

(** [ret] is a BIGNUM, as in [BN_bin2bn]. *)
Definition BN_le2bn (malloc : Z -> option (list Z)) (w : bns) (in_ : list Z) (len ret : Z) : option (bool * bns) :=
  if len =? 0 then w ← upd w ret (fun b => with_neg 0 (with_width 0 b)); Some (true, w)
  else
    let num_words := (len - 1) / BN_BYTES + 1 in
    q ← bn_wexpand malloc w ret num_words;
    let '(ok, w) := q in
    if negb ok then Some (false, w)
    else
      n ← i32 num_words;
      w ← upd w ret (with_width n);
      w ← set_word w (ret, 0) (num_words - 1) 0;
      b ← w !! ret;
      bs ← rds in_ 0 len;
      if dmax b * BN_BYTES <? len then None
      else w ← upd w ret (with_d (overlay bs (d b))); Some (true, w).

Definition fits_in_bytes (bytes : list Z) (num_bytes len : Z) : option bool :=
  mask ← or_words (Z.to_nat (num_bytes - len)) bytes len num_bytes 0; Some (mask =? 0).

Fixpoint reverse_loop (fuel : nat) (out bytes : list Z) (pos len i num_bytes : Z) : option (list Z) :=
  if i <? num_bytes then
    match fuel with
    | O => None
    | S fuel' => x ← rd bytes i; out ← wr out (pos + (len - i - 1)) x; reverse_loop fuel' out bytes pos len (i + 1) num_bytes
    end
  else Some out.

Definition BN_bn2bin_padded (out : list Z) (pos len : Z) (b : bignum) : option (bool * list Z) :=
  let bytes := memory (d b) in
  num_bytes ← i32 (width b * BN_BYTES);
  fits ← (if len <? num_bytes then fits_in_bytes bytes num_bytes len else Some true);
  if negb fits then Some (false, out)
  else
    let num_bytes := if len <? num_bytes then len else num_bytes in
    out ← reverse_loop (Z.to_nat num_bytes) out bytes pos len 0 num_bytes;
    out ← wrs out pos (replicate (Z.to_nat (len - num_bytes)) 0);
    Some (true, out).

Definition BN_bn2le_padded (out : list Z) (pos len : Z) (b : bignum) : option (bool * list Z) :=
  let bytes := memory (d b) in
  num_bytes ← i32 (width b * BN_BYTES);
  fits ← (if len <? num_bytes then fits_in_bytes bytes num_bytes len else Some true);
  if negb fits then Some (false, out)
  else
    let num_bytes := if len <? num_bytes then len else num_bytes in
    v ← rds bytes 0 num_bytes;
    out ← wrs out pos v;
    out ← wrs out (pos + num_bytes) (replicate (Z.to_nat (len - num_bytes)) 0);
    Some (true, out).

Definition BN_get_word (b : bignum) : option Z :=
  n ← bn_minimal_width b;
  if n =? 0 then Some 0 else if n =? 1 then rd (d b) 0 else Some BN_MASK2.

(** The number that is stored, if there is one. *)
Definition BN_get_u64 (b : bignum) : option (option Z) :=
  n ← bn_minimal_width b;
  if n =? 0 then Some (Some 0) else if n =? 1 then x ← rd (d b) 0; Some (Some x) else Some None.
