(* ===== verification/BnSpec.v ===== *)
(** * BoringSSL: what the functions on multiple-precision integers compute

    Words and their value, the loops over words, and the operations on BIGNUMs
    as operations on numbers, wherever the result and the operands are. *)
From S2P Require Import Prelude CBuf CMem Cbs CbsSpec Base64 Bn.

#[local] Ltac Zify.zify_post_hook ::= Z.to_euclidean_division_equations.

(** ** Words and their value *)

Abbreviation words := (Forall (in_u 64)).

Fixpoint val (ws : list Z) : Z := match ws with [] => 0 | x :: ws' => x + 2 ^ 64 * val ws' end.

(** The weight of the word behind [n] words. *)
Definition weight (n : nat) : Z := 2 ^ (64 * Z.of_nat n).

Lemma weight_S n : weight (S n) = 2 ^ 64 * weight n.
Proof. unfold weight. rewrite <- Z.pow_add_r by lia. f_equal. lia. Qed.

Lemma weight_pos n : 0 < weight n.
Proof. unfold weight. lia. Qed.

Lemma weight_add n m : weight (n + m) = weight n * weight m.
Proof. unfold weight. rewrite <- Z.pow_add_r by lia. f_equal. lia. Qed.

Lemma val_app a b : val (a ++ b) = val a + weight (length a) * val b.
Proof. induction a as [|x a IH]; cbn [val app length]; [unfold weight; lia|]. rewrite IH, weight_S. lia. Qed.

Lemma val_bound a : words a -> 0 <= val a < weight (length a).
Proof.
  induction 1 as [|x a Hx Ha IH]; cbn [val length]; [unfold weight; lia|]. rewrite weight_S. unfold in_u in Hx. lia.
Qed.

Lemma val_zeros n : val (replicate n 0) = 0.
Proof. induction n as [|n IH]; [done|]. cbn [replicate val]. rewrite IH. lia. Qed.

Lemma words_both a b : words (a ++ b) <-> words a /\ words b.
Proof. apply Forall_app. Qed.

Lemma words_zeros n : words (replicate n 0).
Proof. apply Forall_replicate. unfold in_u. lia. Qed.

(** Without the zero words at the end. *)
Definition minimal (ws : list Z) : Prop := last ws <> Some 0.

Lemma strip_exists ws : exists ws' k, ws = ws' ++ replicate k 0 /\ minimal ws'.
Proof.
  induction ws as [|x ws IH] using rev_ind; [by exists [], 0%nat|]. destruct (decide (x = 0)) as [->|Hx].
  - destruct IH as (ws' & k & -> & Hm). exists ws', (S k). split; [|done]. by rewrite replicate_S_end, app_assoc.
  - exists (ws ++ [x]), 0%nat. rewrite app_nil_r. split; [done|]. unfold minimal. rewrite last_snoc. congruence.
Qed.

Lemma minimal_pos ws : words ws -> minimal ws -> ws <> [] -> weight (length ws - 1) <= val ws.
Proof.
  intros Hw Hm Hne. destruct ws as [|x ws _] using rev_ind; [done|]. unfold minimal in Hm. rewrite last_snoc in Hm. apply words_both in Hw as [Hw Hx].
  apply Forall_cons in Hx as [Hx _]. rewrite val_app, length_app. cbn [val length]. pose proof (val_bound ws Hw). unfold in_u in Hx. assert (x <> 0) by congruence.
  replace (length ws + 1 - 1)%nat with (length ws) by lia. pose proof (weight_pos (length ws)). nia.
Qed.

(** ** Reading and writing words *)

(** The words [ws] are at [p]. *)
Definition words_at (w : bns) (p : Z * Z) (ws : list Z) : Prop :=
  exists b, w !! p.1 = Some b /\ rds (d b) p.2 (Z.of_nat (length ws)) = Some ws.

(** There is room for [n] words at [p]. *)
Definition room (w : bns) (p : Z * Z) (n : Z) : Prop := exists b, w !! p.1 = Some b /\ 0 <= p.2 /\ 0 <= n /\ p.2 + n <= dmax b.

(** The store with [ws] at [p]. *)
Definition store_at (w : bns) (p : Z * Z) (ws : list Z) : bns := alter (fun b => with_d (splice (Z.to_nat p.2) ws (d b)) b) p.1 w.

(** Writing at [r] from the front does not disturb what is still to be read at [p]. *)
Definition apart (r p : Z * Z) : Prop := r.1 <> p.1 \/ r.2 <= p.2.

Definition shift (p : Z * Z) (i : Z) : Z * Z := (p.1, p.2 + i).

Lemma rds_cons {A} (l : list A) i x xs : rds l i (Z.of_nat (length (x :: xs))) = Some (x :: xs) ->
  rd l i = Some x /\ rds l (i + 1) (Z.of_nat (length xs)) = Some xs.
Proof.
  unfold rds, rd. case_bool_decide as H; [|done]. cbn [length] in H. rewrite !Nat2Z.id. intros E. injection E as E. rewrite bool_decide_eq_true_2 by lia.
  cbn [length] in E. destruct (drop (Z.to_nat i) l) as [|y t] eqn:Ed; [done|]. cbn [take] in E. injection E as <- E.
  assert (l !! Z.to_nat i = Some y) as El by (pose proof (lookup_drop l (Z.to_nat i) 0) as H1; rewrite Ed, Nat.add_0_r in H1; by rewrite <- H1).
  split; [done|]. rewrite bool_decide_eq_true_2 by lia. f_equal. replace (Z.to_nat (i + 1)) with (Z.to_nat i + 1)%nat by lia. rewrite <- drop_drop, Ed. cbn [drop]. done.
Qed.

Lemma word_shift w p i : word w p i = word w (shift p i) 0.
Proof. unfold word, shift. cbn [fst snd]. by rewrite Z.add_0_r. Qed.

Lemma words_at_cons w p x ws : words_at w p (x :: ws) -> word w p 0 = Some x /\ words_at w (shift p 1) ws.
Proof.
  intros (b & Eb & H). apply rds_cons in H as [H1 H2]. split; [|by exists b]. unfold word. rewrite Eb. cbn [mbind option_bind]. by rewrite Z.add_0_r.
Qed.

Lemma shift_shift p i j : shift (shift p i) j = shift p (i + j).
Proof. unfold shift. cbn [fst snd]. f_equal. lia. Qed.

Lemma lookup_store_at w r ws a : store_at w r ws !! a = if bool_decide (a = r.1) then (fun b => with_d (splice (Z.to_nat r.2) ws (d b)) b) <$> w !! a else w !! a.
Proof. unfold store_at. case_bool_decide as H; [subst a; by rewrite lookup_alter_eq|]. by rewrite lookup_alter_ne by congruence. Qed.

Lemma store_nil w r : store_at w r [] = w.
Proof.
  apply map_eq. intros a. rewrite lookup_store_at. case_bool_decide as Ha; [|done]. destruct (w !! a) as [b|]; [|done]. cbn. f_equal.
  unfold splice, with_d. rewrite Nat.add_0_r. cbn [app]. rewrite take_drop. by destruct b.
Qed.

Lemma set_word_at w p i v : room w (shift p i) 1 -> set_word w p i v = Some (store_at w (shift p i) [v]).
Proof.
  intros (b & Eb & H0 & _ & H). unfold set_word, store_at, wr, wrs. cbn [shift fst snd] in *. rewrite Eb. cbn [mbind option_bind length]. unfold dmax in H.
  rewrite bool_decide_eq_true_2 by lia. cbn [mbind option_bind]. f_equal. apply map_eq. intros a. destruct (decide (a = p.1)) as [->|Ha].
  - by rewrite lookup_insert_eq, lookup_alter_eq, Eb.
  - by rewrite lookup_insert_ne, lookup_alter_ne by congruence.
Qed.

Lemma room_store w r ws p n : room w r (Z.of_nat (length ws)) -> room w p n -> room (store_at w r ws) p n.
Proof.
  intros (b & Eb & H1 & H2 & H3) (c & Ec & H4 & H5 & H6). unfold room. rewrite lookup_store_at. case_bool_decide as Hp; [|by exists c].
  rewrite Ec. eexists. split; [done|]. unfold dmax in *. cbn [with_d d]. rewrite <- Hp in Eb. rewrite length_splice by (rewrite Hp in *; assert (b = c) as -> by congruence; lia). done.
Qed.

Lemma words_at_store w r vs p ws : room w r (Z.of_nat (length vs)) -> r.1 <> p.1 \/ r.2 + Z.of_nat (length vs) <= p.2 -> words_at w p ws -> words_at (store_at w r vs) p ws.
Proof.
  intros (b & Eb & H1 & _ & H3) Ha (c & Ec & H). unfold words_at. rewrite lookup_store_at. case_bool_decide as Hp; [|by exists c].
  rewrite Ec. eexists. split; [done|]. cbn [with_d d]. rewrite Hp in *. assert (b = c) as -> by congruence. unfold rds in *. unfold dmax in H3. case_bool_decide as Hb; [|done].
  rewrite length_splice by lia. rewrite bool_decide_eq_true_2 by lia. rewrite <- H. f_equal. apply splice_read_after; destruct Ha; [done|lia..].
Qed.

Lemma store_at_app w r a b : room w r (Z.of_nat (length (a ++ b))) -> store_at (store_at w r a) (shift r (Z.of_nat (length a))) b = store_at w r (a ++ b).
Proof.
  intros (c & Ec & H1 & _ & H3). apply map_eq. intros i. rewrite !lookup_store_at. cbn [shift fst snd]. case_bool_decide as Hi; [|done]. subst i. rewrite Ec. cbn. f_equal.
  unfold dmax in H3. rewrite length_app in H3. replace (Z.to_nat (r.2 + Z.of_nat (length a))) with (Z.to_nat r.2 + length a)%nat by lia. rewrite splice_splice by lia. done.
Qed.

Lemma room_less w p n m : room w p n -> 0 <= m <= n -> room w p m.
Proof. intros (b & Eb & H) Hm. exists b. split; [done|]. lia. Qed.

Lemma room_shift w p n i : room w p n -> 0 <= i <= n -> room w (shift p i) (n - i).
Proof. intros (b & Eb & H) Hm. exists b. split; [done|]. cbn. lia. Qed.

(** ** The loops *)

Fixpoint steps {S} (step : Z -> S -> option S) (n : nat) (i : Z) (s : S) : option S :=
  match n with O => Some s | Datatypes.S n' => s' ← step i s; steps step n' (i + 1) s' end.

Lemma steps_app {S} (step : Z -> S -> option S) n m i s : steps step (n + m) i s = s' ← steps step n i s; steps step m (i + Z.of_nat n) s'.
Proof.
  revert i s. induction n as [|n IH]; intros i s; cbn [steps Nat.add]; [by rewrite Z.add_0_r|]. destruct (step i s); [|done]. cbn [mbind option_bind]. rewrite IH.
  by replace (i + 1 + Z.of_nat n) with (i + Z.of_nat (Datatypes.S n)) by lia.
Qed.

Lemma tail_loop_steps {S} (step : Z -> S -> option S) n fuel i s : (n <= fuel)%nat -> Z.of_nat n < 2 ^ 64 -> tail_loop step fuel i (Z.of_nat n) s = steps step n i s.
Proof.
  revert fuel i s. induction n as [|n IH]; intros fuel i s Hf Hn; [by destruct fuel|]. destruct fuel as [|fuel]; [lia|]. cbn [tail_loop steps].
  rewrite (proj2 (Z.eqb_neq _ 0)) by lia. destruct (step i s); [|done]. cbn [mbind option_bind]. replace (u64 (Z.of_nat (Datatypes.S n) - 1)) with (Z.of_nat n); [apply IH; lia|].
  rewrite wrapu_id; [lia|unfold in_u; lia].
Qed.

Lemma land_not_3 n : Z.land n (Z.lnot 3) = n / 4 * 4.
Proof. rewrite <- Z.ldiff_land. change 3 with (Z.ones 2). rewrite Z.ldiff_ones_r by lia. rewrite Z.shiftl_mul_pow2, Z.shiftr_div_pow2 by lia. done. Qed.

Lemma words_loop_steps {S} (step : Z -> S -> option S) fuel n i s : (n <= fuel)%nat -> Z.of_nat n < 2 ^ 64 -> words_loop step fuel i (Z.of_nat n) s = steps step n i s.
Proof.
  revert n i s. induction fuel as [|fuel IH]; intros n i s Hf Hn; cbn [words_loop]; rewrite land_not_3.
  - assert (n = 0%nat) as -> by lia. done.
  - destruct (Z.of_nat n / 4 * 4 =? 0) eqn:E; [apply Z.eqb_eq in E; rewrite tail_loop_steps by lia; done|apply Z.eqb_neq in E].
    assert (exists m, n = 4 + m)%nat as [m ->] by (exists (n - 4)%nat; lia). rewrite steps_app. cbn [steps].
    destruct (step i s) as [s1|]; [|done]. cbn [mbind option_bind]. destruct (step (i + 1) s1) as [s2|]; [|done]. cbn [mbind option_bind].
    replace (i + 1 + 1) with (i + 2) by lia. destruct (step (i + 2) s2) as [s3|]; [|done]. cbn [mbind option_bind]. replace (i + 2 + 1) with (i + 3) by lia.
    destruct (step (i + 3) s3) as [s4|]; [|done]. cbn [mbind option_bind]. rewrite wrapu_id by (unfold in_u; lia). replace (Z.of_nat (4 + m) - 4) with (Z.of_nat m) by lia.
    rewrite IH by lia. by replace (i + Z.of_nat 4) with (i + 4) by lia.
Qed.

(** A step with a carry [c] that reads a word at [p] and one at [q] and writes
    one at [r]. *)
Definition gen_step (g : Z -> Z -> Z -> Z * Z) (r p q : Z * Z) (i : Z) (s : Z * bns) : option (Z * bns) :=
  x ← word s.2 p i; y ← word s.2 q i;
  w ← set_word s.2 r i (g s.1 x y).1;
  Some ((g s.1 x y).2, w).

(** The words and the carry on lists. *)
Fixpoint run (g : Z -> Z -> Z -> Z * Z) (c : Z) (xs ys : list Z) : list Z * Z :=
  match xs, ys with
  | x :: xs', y :: ys' => let t := run g (g c x y).2 xs' ys' in ((g c x y).1 :: t.1, t.2)
  | _, _ => ([], c)
  end.

Lemma length_run g c xs ys : length ys = length xs -> length (run g c xs ys).1 = length xs.
Proof. revert c ys. induction xs as [|x xs IH]; intros c [|y ys] H; try done. cbn [run fst length] in *. f_equal. apply IH. lia. Qed.

Lemma gen_step_shift g r p q i s : gen_step g r p q i s = gen_step g (shift r i) (shift p i) (shift q i) 0 s.
Proof. unfold gen_step. rewrite (word_shift _ p i), (word_shift _ q i). unfold set_word. cbn [shift fst snd]. by rewrite Z.add_0_r. Qed.

Lemma gen_steps g r p q w c xs ys i : length ys = length xs -> words_at w (shift p i) xs -> words_at w (shift q i) ys ->
  room w (shift r i) (Z.of_nat (length xs)) -> apart r p -> apart r q ->
  steps (gen_step g r p q) (length xs) i (c, w) = Some ((run g c xs ys).2, store_at w (shift r i) (run g c xs ys).1).
Proof.
  revert w c ys i. induction xs as [|x xs IH]; intros w c [|y ys] i Hl Hx Hy Hr Hp Hq; try done.
  - cbn [steps length run fst snd]. by rewrite store_nil.
  - apply words_at_cons in Hx as [Ex Hx]. apply words_at_cons in Hy as [Ey Hy]. rewrite !shift_shift in Hx, Hy. cbn [length steps].
    assert (room w (shift r i) 1) as Hr1 by (eapply room_less; [done|cbn [length]; lia]).
    assert (gen_step g r p q i (c, w) = Some ((g c x y).2, store_at w (shift r i) [(g c x y).1])) as ->.
    { rewrite gen_step_shift. unfold gen_step. cbn [fst snd]. rewrite Ex, Ey. cbn [mbind option_bind].
      rewrite set_word_at by (rewrite shift_shift, Z.add_0_r; done). by rewrite shift_shift, Z.add_0_r. }
    cbn [mbind option_bind].
    rewrite (IH _ _ ys); [|cbn in Hl; lia| | | |done|done].
    + cbn [run fst snd]. do 2 f_equal. pose proof (store_at_app w (shift r i) [(g c x y).1] (run g (g c x y).2 xs ys).1) as E. cbn [app length] in E. rewrite shift_shift in E.
      change (Z.of_nat 1) with 1 in E. rewrite E; [done|]. rewrite length_run by (cbn in Hl; lia). exact Hr.
    + apply words_at_store; [done| |done]. unfold apart in Hp. cbn. lia.
    + apply words_at_store; [done| |done]. unfold apart in Hq. cbn. lia.
    + apply room_store; [done|]. pose proof (room_shift _ _ _ 1 Hr) as H. rewrite shift_shift in H. cbn [length] in H. eapply room_less; [apply H; lia|lia].
Qed.

Lemma over_words_spec step g r p q w xs ys : (forall i s, step i s = gen_step g r p q i s) -> length ys = length xs -> Z.of_nat (length xs) < 2 ^ 64 ->
  words_at w p xs -> words_at w q ys -> room w r (Z.of_nat (length xs)) -> apart r p -> apart r q ->
  over_words step (Z.of_nat (length xs)) w = Some ((run g 0 xs ys).2, store_at w r (run g 0 xs ys).1).
Proof.
  intros Hs Hl Hn Hx Hy Hr Hp Hq. assert (forall r : Z * Z, shift r 0 = r) as H0 by (intros [a b]; unfold shift; cbn; f_equal; lia).
  assert (forall n i s, steps step n i s = steps (gen_step g r p q) n i s) as Hst.
  { induction n as [|n IH]; intros i s; [done|]. cbn [steps]. rewrite Hs. destruct (gen_step g r p q i s); [|done]. apply IH. }
  pose proof (gen_steps g r p q w 0 xs ys 0 Hl) as H. rewrite !H0 in H. specialize (H Hx Hy Hr Hp Hq). unfold over_words. destruct (Z.of_nat (length xs) =? 0) eqn:E.
  - apply Z.eqb_eq in E. assert (length xs = 0%nat) as E0 by lia. rewrite E0 in H. exact H.
  - rewrite words_loop_steps by lia. rewrite Hst. exact H.
Qed.

(** *** Addition *)

Definition add_g (c x y : Z) : Z * Z := let ll := u128 (c + u128 (x + y)) in (u64 ll, Z.shiftr ll BN_BITS2).

Lemma add_g_spec c x y : 0 <= c <= 1 -> in_u 64 x -> in_u 64 y ->
  in_u 64 (add_g c x y).1 /\ 0 <= (add_g c x y).2 <= 1 /\ (add_g c x y).1 + 2 ^ 64 * (add_g c x y).2 = x + y + c.
Proof.
  unfold in_u. intros Hc Hx Hy. unfold add_g. rewrite (wrapu_id 128 (x + y)) by (unfold in_u; lia). rewrite (wrapu_id 128 (c + (x + y))) by (unfold in_u; lia). cbn [fst snd].
  rewrite shiftr_div by (unfold BN_BITS2; lia). unfold BN_BITS2, wrapu. lia.
Qed.

Lemma run_add xs ys c : words xs -> words ys -> length ys = length xs -> 0 <= c <= 1 ->
  words (run add_g c xs ys).1 /\ 0 <= (run add_g c xs ys).2 <= 1 /\
  val (run add_g c xs ys).1 + weight (length xs) * (run add_g c xs ys).2 = val xs + val ys + c.
Proof.
  revert c ys. induction xs as [|x xs IH]; intros c [|y ys] Hx Hy Hl Hc; try done; [cbn [run fst snd val length]; unfold weight; split; [done|]; lia|].
  apply Forall_cons in Hx as [Hx Hxs]. apply Forall_cons in Hy as [Hy Hys]. destruct (add_g_spec c x y Hc Hx Hy) as (H1 & H2 & H3).
  destruct (IH (add_g c x y).2 ys Hxs Hys ltac:(cbn in Hl; lia) H2) as (H4 & H5 & H6). cbn [run fst snd val length]. split; [by constructor|]. split; [done|].
  rewrite weight_S. lia.
Qed.

Lemma add_words_spec w r a b xs ys : words xs -> words ys -> length ys = length xs -> Z.of_nat (length xs) < 2 ^ 64 ->
  words_at w a xs -> words_at w b ys -> room w r (Z.of_nat (length xs)) -> apart r a -> apart r b ->
  exists c zs, bn_add_words w r a b (Z.of_nat (length xs)) = Some (c, store_at w r zs) /\ words zs /\ length zs = length xs /\ 0 <= c <= 1 /\
    val zs + weight (length xs) * c = val xs + val ys.
Proof.
  intros Hx Hy Hl Hn Hax Hby Hr Ha Hb. unfold bn_add_words. rewrite (over_words_spec _ add_g r a b w xs ys); try done; [|by intros i [ll w']].
  destruct (run_add xs ys 0 Hx Hy Hl ltac:(lia)) as (H1 & H2 & H3). cbn [mbind option_bind fst snd]. eexists _, _. split; [reflexivity|]. rewrite wrapu_id by (unfold in_u; lia).
  split; [done|]. split; [by apply length_run|]. split; [done|]. lia.
Qed.

(** *** Subtraction *)

Definition sub_g (c x y : Z) : Z * Z := (u64 (u64 (x - y) - c), if negb (x =? y) then (if x <? y then 1 else 0) else c).

Lemma sub_g_spec c x y : 0 <= c <= 1 -> in_u 64 x -> in_u 64 y ->
  in_u 64 (sub_g c x y).1 /\ 0 <= (sub_g c x y).2 <= 1 /\ (sub_g c x y).1 - 2 ^ 64 * (sub_g c x y).2 = x - y - c.
Proof.
  unfold in_u. intros Hc Hx Hy. unfold sub_g. cbn [fst snd]. unfold wrapu. destruct (x =? y) eqn:E1; [apply Z.eqb_eq in E1|apply Z.eqb_neq in E1; destruct (x <? y) eqn:E2; [apply Z.ltb_lt in E2|apply Z.ltb_ge in E2]]; cbn [negb]; lia.
Qed.

Lemma run_sub xs ys c : words xs -> words ys -> length ys = length xs -> 0 <= c <= 1 ->
  words (run sub_g c xs ys).1 /\ 0 <= (run sub_g c xs ys).2 <= 1 /\
  val (run sub_g c xs ys).1 - weight (length xs) * (run sub_g c xs ys).2 = val xs - val ys - c.
Proof.
  revert c ys. induction xs as [|x xs IH]; intros c [|y ys] Hx Hy Hl Hc; try done; [cbn [run fst snd val length]; unfold weight; split; [done|]; lia|].
  apply Forall_cons in Hx as [Hx Hxs]. apply Forall_cons in Hy as [Hy Hys]. destruct (sub_g_spec c x y Hc Hx Hy) as (H1 & H2 & H3).
  destruct (IH (sub_g c x y).2 ys Hxs Hys ltac:(cbn in Hl; lia) H2) as (H4 & H5 & H6). cbn [run fst snd val length]. split; [by constructor|]. split; [done|].
  rewrite weight_S. lia.
Qed.

Lemma sub_words_spec w r a b xs ys : words xs -> words ys -> length ys = length xs -> Z.of_nat (length xs) < 2 ^ 64 ->
  words_at w a xs -> words_at w b ys -> room w r (Z.of_nat (length xs)) -> apart r a -> apart r b ->
  exists c zs, bn_sub_words w r a b (Z.of_nat (length xs)) = Some (c, store_at w r zs) /\ words zs /\ length zs = length xs /\ 0 <= c <= 1 /\
    val zs - weight (length xs) * c = val xs - val ys.
Proof.
  intros Hx Hy Hl Hn Hax Hby Hr Ha Hb. unfold bn_sub_words. rewrite (over_words_spec _ sub_g r a b w xs ys); try done; [|by intros i [ll w']].
  destruct (run_sub xs ys 0 Hx Hy Hl ltac:(lia)) as (H1 & H2 & H3). eexists _, _. split; [reflexivity|].
  split; [done|]. split; [by apply length_run|]. split; [done|]. lia.
Qed.

(** *** Multiplication by a word *)

Definition mul_g (m c x y : Z) : Z * Z := let t := u128 (u128 (m * x) + c) in (u64 t, u64 (Z.shiftr t BN_BITS2)).
Definition mul_add_g (m c y x : Z) : Z * Z := let t := u128 (u128 (u128 (m * x) + y) + c) in (u64 t, u64 (Z.shiftr t BN_BITS2)).

Lemma mul_add_g_spec m c x y : in_u 64 m -> in_u 64 c -> in_u 64 x -> in_u 64 y ->
  in_u 64 (mul_add_g m c y x).1 /\ in_u 64 (mul_add_g m c y x).2 /\ (mul_add_g m c y x).1 + 2 ^ 64 * (mul_add_g m c y x).2 = m * x + y + c.
Proof.
  unfold in_u. intros Hm Hc Hx Hy. assert (0 <= m * x <= (2 ^ 64 - 1) * (2 ^ 64 - 1)) as Hmx by nia. unfold mul_add_g.
  rewrite (wrapu_id 128 (m * x)) by (unfold in_u; lia). rewrite (wrapu_id 128 (m * x + y)) by (unfold in_u; lia). rewrite (wrapu_id 128 (m * x + y + c)) by (unfold in_u; lia). cbn [fst snd].
  rewrite shiftr_div by (unfold BN_BITS2; lia). generalize dependent (m * x). intros z Hz. unfold BN_BITS2, wrapu. lia.
Qed.

Lemma mul_g_add m c x y : in_u 64 m -> in_u 64 c -> in_u 64 x -> mul_g m c x y = mul_add_g m c 0 x.
Proof.
  unfold in_u. intros Hm Hc Hx. unfold mul_g, mul_add_g. assert (0 <= m * x < 2 ^ 128) by nia. by rewrite Z.add_0_r, (wrapu_id 128 (u128 (m * x))) by (apply wrapu_range; lia).
Qed.

Lemma run_mul_add m xs ys c : in_u 64 m -> words xs -> words ys -> length xs = length ys -> in_u 64 c ->
  words (run (mul_add_g m) c ys xs).1 /\ in_u 64 (run (mul_add_g m) c ys xs).2 /\
  val (run (mul_add_g m) c ys xs).1 + weight (length ys) * (run (mul_add_g m) c ys xs).2 = m * val xs + val ys + c.
Proof.
  intros Hm. revert c ys. induction xs as [|x xs IH]; intros c [|y ys] Hx Hy Hl Hc; try done; [cbn [run fst snd val length]; unfold weight; split; [done|]; split; [done|]; lia|].
  apply Forall_cons in Hx as [Hx Hxs]. apply Forall_cons in Hy as [Hy Hys]. destruct (mul_add_g_spec m c x y Hm Hc Hx Hy) as (H1 & H2 & H3).
  destruct (IH (mul_add_g m c y x).2 ys Hxs Hys ltac:(cbn in Hl; lia) H2) as (H4 & H5 & H6). cbn [run fst snd val length]. split; [by constructor|]. split; [done|].
  rewrite weight_S. lia.
Qed.

Lemma run_mul m xs c : in_u 64 m -> words xs -> in_u 64 c ->
  words (run (mul_g m) c xs xs).1 /\ in_u 64 (run (mul_g m) c xs xs).2 /\
  val (run (mul_g m) c xs xs).1 + weight (length xs) * (run (mul_g m) c xs xs).2 = m * val xs + c.
Proof.
  intros Hm. revert c. induction xs as [|x xs IH]; intros c Hx Hc; [cbn [run fst snd val length]; unfold weight; split; [done|]; split; [done|]; lia|].
  apply Forall_cons in Hx as [Hx Hxs]. destruct (mul_add_g_spec m c x 0 Hm Hc Hx ltac:(unfold in_u; lia)) as (H1 & H2 & H3).
  destruct (IH (mul_g m c x x).2 Hxs) as (H4 & H5 & H6); [by rewrite mul_g_add|]. cbn [run fst snd val length]. rewrite (mul_g_add m c x x) in * by done.
  split; [by constructor|]. split; [done|]. rewrite weight_S. lia.
Qed.

Lemma mul_words_spec w r a xs m : words xs -> in_u 64 m -> Z.of_nat (length xs) < 2 ^ 64 -> words_at w a xs -> room w r (Z.of_nat (length xs)) -> apart r a ->
  exists c zs, bn_mul_words w r a (Z.of_nat (length xs)) m = Some (c, store_at w r zs) /\ words zs /\ length zs = length xs /\ in_u 64 c /\
    val zs + weight (length xs) * c = m * val xs.
Proof.
  intros Hx Hm Hn Ha Hr Hp. unfold bn_mul_words. rewrite (over_words_spec _ (mul_g m) r a a w xs xs); try done.
  - destruct (run_mul m xs 0 Hm Hx ltac:(unfold in_u; lia)) as (H1 & H2 & H3). eexists _, _. split; [reflexivity|]. split; [done|]. split; [by apply length_run|]. split; [done|]. lia.
  - intros i [c w']. unfold mul_step, gen_step. cbn [fst snd]. destruct (word w' a i); [|done]. reflexivity.
Qed.

Lemma mul_add_words_spec w r a xs ys m : words xs -> words ys -> in_u 64 m -> length ys = length xs -> Z.of_nat (length xs) < 2 ^ 64 -> words_at w a xs -> words_at w r ys -> apart r a ->
  exists c zs, bn_mul_add_words w r a (Z.of_nat (length xs)) m = Some (c, store_at w r zs) /\ words zs /\ length zs = length xs /\ in_u 64 c /\
    val zs + weight (length xs) * c = m * val xs + val ys.
Proof.
  intros Hx Hy Hm Hl Hn Ha Hr Hp. unfold bn_mul_add_words. rewrite <- Hl. rewrite (over_words_spec _ (mul_add_g m) r r a w ys xs); try done.
  - destruct (run_mul_add m xs ys 0 Hm Hx Hy ltac:(lia) ltac:(unfold in_u; lia)) as (H1 & H2 & H3). eexists _, _. split; [reflexivity|]. split; [done|]. split; [apply length_run; lia|]. split; [done|]. lia.
  - by intros i [c w'].
  - lia.
  - destruct Hr as (b & Eb & H). exists b. split; [done|]. unfold rds in H. case_bool_decide as Hd; [|done]. unfold dmax. lia.
  - unfold apart. lia.
Qed.

(** ** BIGNUMs *)

(** At [a] is a BIGNUM of the words [ws] with the sign [sg]. *)
Definition holds (w : bns) (a : Z) (ws : list Z) (sg : Z) : Prop :=
  exists b, w !! a = Some b /\ width b = Z.of_nat (length ws) /\ rds (d b) 0 (Z.of_nat (length ws)) = Some ws /\
    neg b = sg /\ (sg = 0 \/ sg = 1) /\ words (d b) /\ dmax b <= INT_MAX / 256.

(** The same BIGNUMs at all other addresses. *)
Definition same_but (r : Z) (w w' : bns) : Prop := forall a, a <> r -> w' !! a = w !! a.

Definition signed_val (sg : Z) (ws : list Z) : Z := if sg =? 0 then val ws else - val ws.

Lemma same_but_refl r w : same_but r w w.
Proof. done. Qed.

Lemma same_but_trans r w1 w2 w3 : same_but r w1 w2 -> same_but r w2 w3 -> same_but r w1 w3.
Proof. intros H1 H2 a Ha. by rewrite H2, H1. Qed.

Lemma same_but_insert r w b : same_but r w (<[r := b]> w).
Proof. intros a Ha. by rewrite lookup_insert_ne. Qed.

Lemma same_but_store r i w ws : same_but r w (store_at w (r, i) ws).
Proof. intros a Ha. rewrite lookup_store_at. by rewrite bool_decide_eq_false_2. Qed.

Lemma holds_words w a ws sg : holds w a ws sg -> words ws.
Proof.
  intros (b & _ & _ & H & _ & _ & Hw & _). unfold rds in H. case_bool_decide; [|done]. injection H as <-. apply Forall_take, Forall_drop, Hw.
Qed.

Lemma holds_length w a ws sg : holds w a ws sg -> Z.of_nat (length ws) <= INT_MAX / 256.
Proof. intros (b & _ & _ & H & _ & _ & _ & Hd). unfold rds in H. case_bool_decide; [|done]. unfold dmax in Hd. lia. Qed.

Lemma holds_same r w w' a ws sg : same_but r w w' -> a <> r -> holds w a ws sg -> holds w' a ws sg.
Proof. intros H Ha (b & Eb & Hb). exists b. by rewrite H. Qed.

Lemma holds_at w a ws sg : holds w a ws sg -> words_at w (a, 0) ws.
Proof. intros (b & Eb & _ & H & _). by exists b. Qed.

Lemma rds_take {A} (l : list A) ws n : (n <= length ws)%nat -> rds l 0 (Z.of_nat (length ws)) = Some ws -> rds l 0 (Z.of_nat n) = Some (take n ws).
Proof.
  unfold rds. intros Hn. case_bool_decide; [|done]. intros E. injection E as <-. rewrite bool_decide_eq_true_2 by lia. cbn. rewrite !Nat2Z.id, take_take. do 2 f_equal. lia.
Qed.

Lemma words_at_take w p ws n : (n <= length ws)%nat -> words_at w p ws -> words_at w p (take n ws).
Proof.
  intros Hn (b & Eb & H). exists b. split; [done|]. unfold rds in *. case_bool_decide; [|done]. injection H as H. rewrite length_take. rewrite bool_decide_eq_true_2 by lia.
  rewrite <- H at 2. rewrite !Nat2Z.id, take_take. reflexivity.
Qed.

Lemma words_at_drop w p ws n : (n <= length ws)%nat -> words_at w p ws -> words_at w (shift p (Z.of_nat n)) (drop n ws).
Proof.
  revert p ws. induction n as [|n IH]; intros p ws Hn H; [cbn; destruct p; unfold shift; cbn; by rewrite Z.add_0_r|]. destruct ws as [|x ws]; [cbn in Hn; lia|].
  apply words_at_cons in H as [_ H]. apply IH in H; [|cbn in Hn; lia]. rewrite shift_shift in H. cbn [drop]. by replace (Z.of_nat (S n)) with (1 + Z.of_nat n) by lia.
Qed.

(** Reading at [a] after a write to [r] is the same if they are different. *)
Lemma words_at_same r w w' p ws : same_but r w w' -> p.1 <> r -> words_at w p ws -> words_at w' p ws.
Proof. intros H Hp (b & Eb & E). exists b. by rewrite H. Qed.

Lemma rd_rds {A} (l : list A) ws i : rds l 0 (Z.of_nat (length ws)) = Some ws -> 0 <= i < Z.of_nat (length ws) -> rd l i = ws !! Z.to_nat i.
Proof.
  unfold rds, rd. case_bool_decide; [|done]. intros E Hi. injection E as E. rewrite bool_decide_eq_true_2 by lia. cbn [Z.to_nat] in E. rewrite drop_0, Nat2Z.id in E.
  pose proof (f_equal (fun l => l !! Z.to_nat i) E) as Ei. cbv beta in Ei. rewrite <- Ei. symmetry. apply lookup_take_lt. lia.
Qed.

(** *** The width *)

Lemma minimal_loop_spec b ws k fuel : rds (d b) 0 (Z.of_nat (length (ws ++ replicate k 0))) = Some (ws ++ replicate k 0) -> minimal ws -> (length ws + k <= fuel)%nat ->
  minimal_loop fuel b (Z.of_nat (length ws + k)) = Some (Z.of_nat (length ws)).
Proof.
  intros Hr Hm. revert fuel Hr. induction k as [|k IH]; intros fuel Hr Hf.
  - rewrite Nat.add_0_r. destruct ws as [|x ws _] using rev_ind; [by destruct fuel|]. rewrite app_nil_r in Hr. rewrite length_app in Hf |- *. cbn [length] in Hf |- *. destruct fuel as [|fuel]; [lia|]. cbn [minimal_loop].
    rewrite (proj2 (Z.ltb_lt 0 _)) by lia. rewrite (rd_rds _ (ws ++ [x])) by (done || (rewrite length_app; cbn [length]; lia)).
    rewrite lookup_app_r by lia. replace (Z.to_nat _ - length ws)%nat with 0%nat by lia. cbn. unfold minimal in Hm. rewrite last_snoc in Hm. by rewrite (proj2 (Z.eqb_neq x 0)) by congruence.
  - destruct fuel as [|fuel]; [lia|]. cbn [minimal_loop]. rewrite (proj2 (Z.ltb_lt 0 _)) by lia. rewrite (rd_rds _ (ws ++ replicate (S k) 0)) by (done || (rewrite length_app, length_replicate; lia)).
    rewrite lookup_app_r by lia. rewrite lookup_replicate_2 by lia. cbn [mbind option_bind Z.eqb]. replace (Z.of_nat (length ws + S k) - 1) with (Z.of_nat (length ws + k)) by lia. apply IH; [|lia].
    apply (rds_take _ _ (length (ws ++ replicate k 0))) in Hr; [|rewrite !length_app, !length_replicate; lia]. rewrite Hr. f_equal. rewrite replicate_S_end, app_assoc. by rewrite take_app_length.
Qed.

Lemma minimal_width_spec b ws k : width b = Z.of_nat (length (ws ++ replicate k 0)) -> rds (d b) 0 (Z.of_nat (length (ws ++ replicate k 0))) = Some (ws ++ replicate k 0) -> minimal ws ->
  bn_minimal_width b = Some (Z.of_nat (length ws)).
Proof.
  intros Hw Hr Hm. unfold bn_minimal_width. rewrite Hw, Nat2Z.id. rewrite (length_app ws), length_replicate. apply (minimal_loop_spec b ws k); [done|done|]. done.
Qed.

Lemma set_minimal_spec w a ws k sg : holds w a (ws ++ replicate k 0) sg -> minimal ws ->
  exists w', bn_set_minimal_width w a = Some w' /\ holds w' a ws (if bool_decide (ws = []) then 0 else sg) /\ same_but a w w'.
Proof.
  intros (b & Eb & Hw & Hr & Hn & Hs & Hws & Hd) Hm. unfold bn_set_minimal_width, upd. rewrite Eb. cbn [mbind option_bind]. rewrite (minimal_width_spec b ws k Hw Hr Hm). cbn [mbind option_bind].
  rewrite lookup_insert_eq. cbn [mbind option_bind].
  assert (rds (d b) 0 (Z.of_nat (length ws)) = Some ws) as Hr' by (apply (rds_take _ _ (length ws)) in Hr; [by rewrite take_app_length in Hr|rewrite length_app; lia]).
  case_bool_decide as He.
  - subst ws. cbn [length Z.of_nat Z.eqb]. eexists. split; [reflexivity|]. rewrite insert_insert_eq. split; [|apply same_but_insert].
    eexists. split; [by rewrite lookup_insert_eq|]. cbn. split_and!; try done. by left.
  - rewrite (proj2 (Z.eqb_neq _ 0)) by (destruct ws; [done|cbn; lia]). eexists. split; [reflexivity|]. split; [|apply same_but_insert].
    eexists. split; [by rewrite lookup_insert_eq|]. cbn. by split_and!.
Qed.

Lemma or_loop_spec b ws i fuel m : rds (d b) 0 (Z.of_nat (length ws)) = Some ws -> 0 <= m -> words ws -> (length ws - i <= fuel)%nat ->
  exists m', or_loop fuel b (Z.of_nat i) (Z.of_nat (length ws)) m = Some m' /\ 0 <= m' /\ (m' = 0 <-> m = 0 /\ val (drop i ws) = 0).
Proof.
  intros Hr Hm Hw. revert i m Hm. induction fuel as [|fuel IH]; intros i m Hm Hf; cbn [or_loop].
  - rewrite (proj2 (Z.ltb_ge _ _)) by lia. exists m. rewrite drop_ge by lia. cbn [val]. split; [done|]. split; [done|]. tauto.
  - destruct (Z.of_nat i <? Z.of_nat (length ws)) eqn:E; [apply Z.ltb_lt in E|apply Z.ltb_ge in E; exists m; rewrite drop_ge by lia; cbn [val]; split; [done|]; split; [done|]; tauto].
    rewrite (rd_rds _ ws), Nat2Z.id by (done || lia). destruct (lookup_lt_is_Some_2 ws i ltac:(lia)) as [x Ex]. rewrite Ex. cbn [mbind option_bind].
    replace (Z.of_nat i + 1) with (Z.of_nat (S i)) by lia. assert (in_u 64 x) as Hx by (by apply (Forall_lookup_1 _ ws i)). unfold in_u in Hx.
    assert (0 <= Z.lor m x) as Hp by (apply Z.lor_nonneg; lia). destruct (IH (S i) (Z.lor m x) Hp ltac:(lia)) as (m' & E' & Hm' & H). exists m'. split; [done|]. split; [done|].
    rewrite H, (drop_S ws x i Ex). cbn [val]. assert (words (drop (S i) ws)) as Hd by (by apply Forall_drop). apply val_bound in Hd. rewrite Z.lor_eq_0_iff. intuition lia.
Qed.

Lemma fits_spec b ws num : width b = Z.of_nat (length ws) -> rds (d b) 0 (Z.of_nat (length ws)) = Some ws -> words ws ->
  bn_fits_in_words b (Z.of_nat num) = Some (bool_decide (val (drop num ws) = 0)).
Proof.
  intros Hw Hr Hws. unfold bn_fits_in_words. rewrite Hw. destruct (or_loop_spec b ws num (Z.to_nat (Z.of_nat (length ws) - Z.of_nat num)) 0 Hr ltac:(lia) Hws ltac:(lia)) as (m & E & _ & H).
  rewrite E. cbn [mbind option_bind]. f_equal. apply Bool.eq_true_iff_eq. rewrite Z.eqb_eq, bool_decide_eq_true. tauto.
Qed.

Lemma is_zero_spec b ws : width b = Z.of_nat (length ws) -> rds (d b) 0 (Z.of_nat (length ws)) = Some ws -> words ws -> BN_is_zero b = Some (bool_decide (val ws = 0)).
Proof. intros Hw Hr Hws. exact (fits_spec b ws 0 Hw Hr Hws). Qed.

(** *** Room for the result *)

Section Expand.
Context (malloc : Z -> option (list Z)).
Hypothesis malloc_ok : forall n v, malloc n = Some v -> Z.of_nat (length v) = n /\ words v.

(** No array of [n] words: memory ran out, too many, or the array is static. *)
Definition no_room (w : bns) (a n : Z) : Prop :=
  exists b, w !! a = Some b /\ dmax b < n /\ (malloc n = None \/ INT_MAX / 256 < n \/ Z.land (bflags b) BN_FLG_STATIC_DATA <> 0).

Lemma expand_spec w a ws sg n : holds w a ws sg -> 0 <= n ->
  (exists w', bn_wexpand malloc w a n = Some (true, w') /\ holds w' a ws sg /\ room w' (a, 0) n /\ same_but a w w') \/
  bn_wexpand malloc w a n = Some (false, w) /\ no_room w a n.
Proof.
  intros (b & Eb & Hw & Hr & Hn & Hs & Hws & Hd) H0. unfold bn_wexpand. rewrite Eb. cbn [mbind option_bind]. change (INT_MAX / (4 * BN_BITS2)) with (INT_MAX / 256).
  destruct (n <=? dmax b) eqn:E1; [apply Z.leb_le in E1|apply Z.leb_gt in E1].
  { left. exists w. split; [done|]. split; [by exists b|]. split; [|apply same_but_refl]. exists b. cbn. split_and!; done || lia. }
  destruct (INT_MAX / 256 <? n) eqn:E2; [apply Z.ltb_lt in E2; right; split; [done|]; exists b; tauto|apply Z.ltb_ge in E2].
  destruct (Z.land (bflags b) BN_FLG_STATIC_DATA =? 0) eqn:E3; [|apply Z.eqb_neq in E3; right; split; [done|]; exists b; tauto]. cbn [negb].
  destruct (malloc n) as [v|] eqn:Em; [|right; split; [done|]; exists b; tauto]. destruct (malloc_ok _ _ Em) as [Hl Hv]. rewrite Hw, Hr. cbn [mbind option_bind].
  assert (Z.of_nat (length ws) <= dmax b) as Hwd by (unfold rds in Hr; case_bool_decide; [unfold dmax; lia|done]).
  pose proof (wrs_mid [] (take (length ws) v) (drop (length ws) v) ws 0 eq_refl) as Hm. cbn [app] in Hm. rewrite take_drop in Hm. rewrite Hm by (rewrite length_take; lia).
  cbn [mbind option_bind]. left. eexists. split; [reflexivity|]. split; [|split; [|apply same_but_insert]].
  - eexists. split; [by rewrite lookup_insert_eq|]. cbn. split_and!; try done; [apply rds_prefix| |unfold dmax in *; cbn; rewrite length_app, length_drop; lia].
    apply Forall_app. split; [|by apply Forall_drop]. unfold rds in Hr. case_bool_decide; [|done]. injection Hr as <-. by apply Forall_take, Forall_drop.
  - eexists. split; [by rewrite lookup_insert_eq|]. unfold dmax. cbn. rewrite length_app, length_drop. lia.
Qed.
End Expand.

(** ** Addition and subtraction of magnitudes *)

Lemma holds_fun w a A B sa sb : holds w a A sa -> holds w a B sb -> A = B /\ sa = sb.
Proof.
  intros (b & Eb & Hw & Hr & Hn & _) (b' & Eb' & Hw' & Hr' & Hn' & _). assert (b' = b) as -> by congruence. rewrite Hw in Hw'. rewrite Hw', Hr' in Hr. split; congruence.
Qed.

Lemma kept r w w1 R sr a A sa : same_but r w w1 -> holds w r R sr -> holds w1 r R sr -> holds w a A sa -> holds w1 a A sa.
Proof.
  intros Hs H0 H1 Ha. destruct (decide (a = r)) as [->|Hne]; [|by eapply holds_same]. by destruct (holds_fun _ _ _ _ _ _ H0 Ha) as [<- <-].
Qed.

Lemma words_at_insert w r b p ws : (exists b0, w !! r = Some b0 /\ d b = d b0) -> words_at w p ws -> words_at (<[r := b]> w) p ws.
Proof.
  intros (b0 & E0 & Hd) (c & Ec & H). unfold words_at. destruct (decide (p.1 = r)) as [Hp|Hp].
  - exists b. rewrite Hp, lookup_insert_eq. split; [done|]. rewrite Hd. rewrite Hp in Ec. by assert (c = b0) as <- by congruence.
  - exists c. by rewrite lookup_insert_ne by congruence.
Qed.

Lemma room_insert w r b p n : (exists b0, w !! r = Some b0 /\ d b = d b0) -> room w p n -> room (<[r := b]> w) p n.
Proof.
  intros (b0 & E0 & Hd) (c & Ec & H). unfold room. destruct (decide (p.1 = r)) as [Hp|Hp].
  - exists b. rewrite Hp, lookup_insert_eq. split; [done|]. unfold dmax in *. rewrite Hd. rewrite Hp in Ec. by assert (c = b0) as <- by congruence.
  - exists c. by rewrite lookup_insert_ne by congruence.
Qed.

(** All words of a BIGNUM are written. *)
Lemma holds_store w r b ws : w !! r = Some b -> words (d b) -> dmax b <= INT_MAX / 256 -> neg b = 0 \/ neg b = 1 -> words ws -> width b = Z.of_nat (length ws) -> room w (r, 0) (Z.of_nat (length ws)) ->
  holds (store_at w (r, 0) ws) r ws (neg b).
Proof.
  intros Eb Hd Hm Hn Hw Hwd (c & Ec & _ & _ & Hr). cbn [fst snd] in *. assert (c = b) as -> by congruence. unfold dmax in *. eexists. rewrite lookup_store_at, bool_decide_eq_true_2 by done. rewrite Eb.
  split; [reflexivity|]. unfold dmax. cbn [with_d d width neg snd]. rewrite length_splice by (cbn; lia). split_and!; try done.
  - unfold rds. rewrite length_splice by (cbn; lia). rewrite bool_decide_eq_true_2 by lia. rewrite Nat2Z.id. rewrite splice_read by (cbn; lia). done.
  - unfold splice. rewrite !Forall_app. split; [by apply Forall_take|]. split; [done|]. by apply Forall_drop.
Qed.

(** All words of the result at once: the width and the sign are set after. *)
Lemma holds_written w r b C n s : w !! r = Some b -> words (d b) -> dmax b <= INT_MAX / 256 -> words C -> room w (r, 0) (Z.of_nat (length C)) -> s = 0 \/ s = 1 -> n = Z.of_nat (length C) ->
  exists w', upd (store_at w (r, 0) C) r (fun b => with_width n (with_neg s b)) = Some w' /\ holds w' r C s /\ same_but r w w'.
Proof.
  intros Eb Hd Hm HC Hroom Hs ->. unfold upd. rewrite lookup_store_at, bool_decide_eq_true_2, Eb by done. cbn [fmap option_fmap option_map mbind option_bind]. eexists. split; [reflexivity|]. split.
  - destruct Hroom as (b' & Eb' & _ & _ & Hr). cbn [fst snd] in *. assert (b' = b) as -> by congruence. unfold dmax in *. eexists. split; [by rewrite lookup_insert_eq|]. unfold dmax. cbn [d width neg with_d with_width with_neg].
    rewrite length_splice by (cbn; lia). split_and!; try done.
    + unfold rds. rewrite length_splice by (cbn; lia). rewrite bool_decide_eq_true_2 by lia. rewrite Nat2Z.id. rewrite splice_read by (cbn; lia). done.
    + unfold splice. rewrite !Forall_app. split; [by apply Forall_take|]. split; [done|]. by apply Forall_drop.
  - eapply same_but_trans; [apply same_but_store|apply same_but_insert].
Qed.

Definition carry_g (c x _ : Z) : Z * Z := let tmp := u64 (c + x) in (tmp, if tmp <? x then 1 else 0).
Definition borrow_g (c x _ : Z) : Z * Z := let y := u64 (x - c) in (y, if x <? y then 1 else 0).

Lemma carry_loop_steps n fuel w r a i c : (n <= fuel)%nat -> carry_loop fuel w r a i (i + Z.of_nat n) c = steps (gen_step carry_g (r, 0) (a, 0) (a, 0)) n i (c, w).
Proof.
  revert fuel w i c. induction n as [|n IH]; intros fuel w i c Hf.
  - rewrite Z.add_0_r. destruct fuel; cbn [carry_loop steps]; by rewrite Z.ltb_irrefl.
  - destruct fuel as [|fuel]; [lia|]. cbn [carry_loop steps]. rewrite (proj2 (Z.ltb_lt _ _)) by lia. unfold gen_step at 2. cbn [fst snd]. destruct (word w (a, 0) i); [|done]. cbn [mbind option_bind].
    unfold carry_g at 1. cbn [fst]. destruct (set_word w (r, 0) i _); [|done]. cbn [mbind option_bind]. replace (i + Z.of_nat (S n)) with (i + 1 + Z.of_nat n) by lia. apply IH. lia.
Qed.

Lemma borrow_loop_steps n fuel w r a i c : (n <= fuel)%nat -> borrow_loop fuel w r a i (i + Z.of_nat n) c = steps (gen_step borrow_g (r, 0) (a, 0) (a, 0)) n i (c, w).
Proof.
  revert fuel w i c. induction n as [|n IH]; intros fuel w i c Hf.
  - rewrite Z.add_0_r. destruct fuel; cbn [borrow_loop steps]; by rewrite Z.ltb_irrefl.
  - destruct fuel as [|fuel]; [lia|]. cbn [borrow_loop steps]. rewrite (proj2 (Z.ltb_lt _ _)) by lia. unfold gen_step at 2. cbn [fst snd]. destruct (word w (a, 0) i); [|done]. cbn [mbind option_bind].
    unfold borrow_g at 1. cbn [fst]. destruct (set_word w (r, 0) i _); [|done]. cbn [mbind option_bind]. replace (i + Z.of_nat (S n)) with (i + 1 + Z.of_nat n) by lia. apply IH. lia.
Qed.

Lemma run_carry xs c : words xs -> 0 <= c <= 1 ->
  words (run carry_g c xs xs).1 /\ 0 <= (run carry_g c xs xs).2 <= 1 /\ val (run carry_g c xs xs).1 + weight (length xs) * (run carry_g c xs xs).2 = val xs + c.
Proof.
  revert c. induction xs as [|x xs IH]; intros c Hx Hc; [cbn [run fst snd val length]; unfold weight; split; [done|]; lia|]. apply Forall_cons in Hx as [Hx Hxs].
  assert (in_u 64 (carry_g c x x).1 /\ 0 <= (carry_g c x x).2 <= 1 /\ (carry_g c x x).1 + 2 ^ 64 * (carry_g c x x).2 = x + c) as (H1 & H2 & H3).
  { unfold in_u in *. unfold carry_g, wrapu. cbn [fst snd]. destruct (_ <? _) eqn:E; [apply Z.ltb_lt in E|apply Z.ltb_ge in E]; lia. }
  destruct (IH (carry_g c x x).2 Hxs H2) as (H4 & H5 & H6). cbn [run fst snd val length]. split; [by constructor|]. split; [done|]. rewrite weight_S. lia.
Qed.

Lemma run_borrow xs c : words xs -> 0 <= c <= 1 ->
  words (run borrow_g c xs xs).1 /\ 0 <= (run borrow_g c xs xs).2 <= 1 /\ val (run borrow_g c xs xs).1 - weight (length xs) * (run borrow_g c xs xs).2 = val xs - c.
Proof.
  revert c. induction xs as [|x xs IH]; intros c Hx Hc; [cbn [run fst snd val length]; unfold weight; split; [done|]; lia|]. apply Forall_cons in Hx as [Hx Hxs].
  assert (in_u 64 (borrow_g c x x).1 /\ 0 <= (borrow_g c x x).2 <= 1 /\ (borrow_g c x x).1 - 2 ^ 64 * (borrow_g c x x).2 = x - c) as (H1 & H2 & H3).
  { unfold in_u in *. unfold borrow_g, wrapu. cbn [fst snd]. destruct (_ <? _) eqn:E; [apply Z.ltb_lt in E|apply Z.ltb_ge in E]; lia. }
  destruct (IH (borrow_g c x x).2 Hxs H2) as (H4 & H5 & H6). cbn [run fst snd val length]. split; [by constructor|]. split; [done|]. rewrite weight_S. lia.
Qed.

Section Magnitudes.
Context (malloc : Z -> option (list Z)).
Hypothesis malloc_ok : forall n v, malloc n = Some v -> Z.of_nat (length v) = n /\ words v.

Lemma uadd_ordered w r a b A B R sa sb sr : holds w a A sa -> holds w b B sb -> holds w r R sr -> (length B <= length A)%nat ->
  (exists w' C, bn_uadd_consttime malloc w r a b = Some (true, w') /\ holds w' r C sr /\ val C = val A + val B /\ same_but r w w') \/
  bn_uadd_consttime malloc w r a b = Some (false, w) /\ no_room malloc w r (Z.of_nat (length A) + 1).
Proof.
  intros Ha Hb Hr Hl. pose proof (holds_length _ _ _ _ Ha) as HlA. unfold INT_MAX in HlA. pose proof (holds_words _ _ _ _ Ha) as HwA. pose proof (holds_words _ _ _ _ Hb) as HwB.
  unfold bn_uadd_consttime, get. pose proof Ha as (ba & Eba & Hwa & _). pose proof Hb as (bb & Ebb & Hwb & _). rewrite Eba, Ebb. cbn [mbind option_bind]. rewrite Hwa, Hwb.
  rewrite (proj2 (Z.ltb_ge _ _)) by lia. rewrite Eba, Ebb. cbn [mbind option_bind]. rewrite Hwa, Hwb, i32_in by (unfold in_s; lia). cbn [mbind option_bind].
  rewrite (wrapu_id 64 (Z.of_nat (length A) + 1)) by (unfold in_u; lia). destruct (expand_spec malloc malloc_ok w r R sr (Z.of_nat (length A) + 1) Hr ltac:(lia)) as [(w1 & -> & Hr1 & Hroom & Hsame)|[-> H]]; [|by right].
  left. cbn [mbind option_bind negb]. pose proof (kept _ _ _ _ _ _ _ _ Hsame Hr Hr1 Ha) as Ha1. pose proof (kept _ _ _ _ _ _ _ _ Hsame Hr Hr1 Hb) as Hb1.
  destruct Hr1 as (br & Ebr & _ & _ & Hnr & Hsr & Hwr & Hdr). unfold upd. rewrite Ebr. cbn [mbind option_bind]. set (n := Z.of_nat (length A) + 1) in *. set (w2 := <[r := with_width n br]> w1).
  assert (words_at w2 (a, 0) A) as Ha2 by (apply words_at_insert; [by exists br|by eapply holds_at]). assert (words_at w2 (b, 0) B) as Hb2 by (apply words_at_insert; [by exists br|by eapply holds_at]).
  assert (room w2 (r, 0) n) as Hroom2 by (apply room_insert; [by exists br|done]). rewrite (wrapu_id 64 (Z.of_nat (length B))) by (unfold in_u; lia).
  assert (length (take (length B) A) = length B) as Hlt by (rewrite length_take; lia).
  destruct (add_words_spec w2 (r, 0) (a, 0) (b, 0) (take (length B) A) B) as (c & zs & E & Hzw & Hzl & Hc & Hval); [by apply Forall_take|done|lia|lia|by apply words_at_take|done|eapply room_less; [exact Hroom2|lia]|by right|by right|].
  rewrite Hlt in E, Hzl, Hval. rewrite E. cbn [mbind option_bind fst snd]. set (w3 := store_at w2 (r, 0) zs). assert (room w2 (r, 0) (Z.of_nat (length zs))) as Hroomz by (eapply room_less; [exact Hroom2|lia]).
  pose proof (carry_loop_steps (length A - length B) (Z.to_nat (Z.of_nat (length A) - Z.of_nat (length B))) w3 r a (Z.of_nat (length B)) c ltac:(lia)) as Eloop.
  replace (Z.of_nat (length B) + Z.of_nat (length A - length B)) with (Z.of_nat (length A)) in Eloop by lia. rewrite Eloop. clear Eloop.
  assert (words_at w2 (shift (a, 0) (Z.of_nat (length B))) (drop (length B) A)) as Hrest by (by apply words_at_drop).
  assert (room w3 (shift (r, 0) (Z.of_nat (length B))) (Z.of_nat (length (drop (length B) A)))) as Hroom3.
  { apply room_store; [done|]. pose proof (room_shift _ _ _ (Z.of_nat (length B)) Hroom2 ltac:(lia)) as H. eapply room_less; [exact H|]. rewrite length_drop. lia. }
  rewrite <- length_drop. rewrite (gen_steps carry_g (r, 0) (a, 0) (a, 0) w3 c (drop (length B) A) (drop (length B) A)); [|done|..|done|by right|by right];
    try (apply words_at_store; [done|right; cbn; lia|done]).
  cbn [mbind option_bind fst snd]. set (t := run carry_g c (drop (length B) A) (drop (length B) A)). destruct (run_carry (drop (length B) A) c) as (Htw & Htc & Htv); [by apply Forall_drop|done|]. fold t in Htw, Htc, Htv.
  assert (length t.1 = length A - length B)%nat as Hlt1 by (unfold t; rewrite length_run by done; apply length_drop).
  unfold w3. replace (shift (r, 0) (Z.of_nat (length B))) with (shift (r, 0) (Z.of_nat (length zs))) by (by rewrite Hzl).
  assert (room w2 (r, 0) (Z.of_nat (length (zs ++ t.1)))) as Hroom4 by (eapply room_less; [exact Hroom2|rewrite length_app; lia]).
  rewrite store_at_app by done. rewrite set_word_at.
  2:{ apply room_store; [done|]. pose proof (room_shift _ _ _ (Z.of_nat (length A)) Hroom2 ltac:(lia)) as H. eapply room_less; [exact H|lia]. }
  cbn [mbind option_bind]. replace (shift (r, 0) (Z.of_nat (length A))) with (shift (r, 0) (Z.of_nat (length (zs ++ t.1)))) by (rewrite length_app; do 2 f_equal; lia).
  assert (Z.of_nat (length ((zs ++ t.1) ++ [t.2])) = n) as Hln by (rewrite !length_app; cbn [length]; lia).
  rewrite store_at_app by (by rewrite Hln). eexists _, _. split; [reflexivity|]. split; [|split].
  - rewrite <- Hnr. apply (holds_store w2 r (with_width n br)); [unfold w2; by rewrite lookup_insert_eq|exact Hwr|exact Hdr|cbn; by rewrite Hnr|..|by rewrite Hln|by rewrite Hln].
    rewrite !words_both. split; [done|]. constructor; [unfold in_u; lia|done].
  - rewrite !val_app, length_app. cbn [val]. rewrite weight_add, Hzl, Hlt1. rewrite length_drop in Htv. pose proof (val_app (take (length B) A) (drop (length B) A)) as Hsplit. rewrite take_drop, Hlt in Hsplit. nia.
  - eapply same_but_trans; [done|]. eapply same_but_trans; [apply same_but_insert|apply same_but_store].
Qed.

Lemma uadd_swap w r a b A B sa sb : holds w a A sa -> holds w b B sb -> (length A < length B)%nat -> bn_uadd_consttime malloc w r a b = bn_uadd_consttime malloc w r b a.
Proof.
  intros (ba & Ea & Hwa & _) (bb & Eb & Hwb & _) Hl. unfold bn_uadd_consttime, get. rewrite Ea, Eb. cbn [mbind option_bind]. rewrite Hwa, Hwb.
  rewrite (proj2 (Z.ltb_lt (Z.of_nat (length A)) _)) by lia. rewrite (proj2 (Z.ltb_ge (Z.of_nat (length B)) _)) by lia. done.
Qed.

Lemma uadd_spec w r a b A B R sa sb sr : holds w a A sa -> holds w b B sb -> holds w r R sr ->
  (exists w' C s, BN_uadd malloc w r a b = Some (true, w') /\ holds w' r C s /\ minimal C /\ val C = val A + val B /\ (s = sr \/ C = []) /\ same_but r w w') \/
  BN_uadd malloc w r a b = Some (false, w) /\ no_room malloc w r (Z.of_nat (length A `max` length B) + 1).
Proof.
  intros Ha Hb Hr. unfold BN_uadd.
  assert ((exists w' C, bn_uadd_consttime malloc w r a b = Some (true, w') /\ holds w' r C sr /\ val C = val A + val B /\ same_but r w w') \/
    bn_uadd_consttime malloc w r a b = Some (false, w) /\ no_room malloc w r (Z.of_nat (length A `max` length B) + 1)) as [(w' & C & -> & HC & Hv & Hs)|[-> H]]; [|..|by right].
  { destruct (decide (length B <= length A)%nat) as [Hl|Hl].
    - replace (length A `max` length B)%nat with (length A) by lia. by apply (uadd_ordered w r a b A B R sa sb sr).
    - replace (length A `max` length B)%nat with (length B) by lia. rewrite (uadd_swap w r a b A B sa sb) by (done || lia). rewrite Z.add_comm with (n := val A). apply (uadd_ordered w r b a B A R sb sa sr); done || lia. }
  left. cbn [mbind option_bind negb]. destruct (strip_exists C) as (C' & k & -> & Hm). destruct (set_minimal_spec w' r C' k sr HC Hm) as (w'' & -> & HC' & Hs'). cbn [mbind option_bind].
  eexists _, C', _. split; [reflexivity|]. split; [exact HC'|]. split; [done|]. split; [rewrite val_app, val_zeros in Hv; lia|]. split; [|by eapply same_but_trans].
  case_bool_decide; [by right|by left].
Qed.

(** The words of [b] that are subtracted, [bw] of them, and those behind. *)
Lemma usub_ordered w r a b A B R sa sb sr bw : holds w a A sa -> holds w b B sb -> holds w r R sr -> bw = (length A `min` length B)%nat -> val B <= val A ->
  (exists w' C, bn_usub_consttime malloc w r a b = Some (true, w') /\ holds w' r C 0 /\ val C = val A - val B /\ same_but r w w') \/
  bn_usub_consttime malloc w r a b = Some (false, w) /\ no_room malloc w r (Z.of_nat (length A)).
Proof.
  intros Ha Hb Hr Hbw Hle. pose proof (holds_length _ _ _ _ Ha) as HlA. unfold INT_MAX in HlA. pose proof (holds_words _ _ _ _ Ha) as HwA. pose proof (holds_words _ _ _ _ Hb) as HwB.
  assert (val (drop bw B) = 0) as Hz.
  { pose proof (val_app (take bw B) (drop bw B)) as Hs. rewrite take_drop in Hs. pose proof (val_bound _ HwA) as HA. pose proof (val_bound _ (Forall_drop _ bw _ HwB)) as HB. pose proof (val_bound _ (Forall_take _ bw _ HwB)) as HB'.
    destruct (decide (length A <= length B)%nat).
    - rewrite length_take in Hs. replace (bw `min` length B)%nat with (length A) in Hs by lia. nia.
    - rewrite drop_ge by lia. done. }
  assert (val (take bw B) = val B) as Htake by (pose proof (val_app (take bw B) (drop bw B)) as Hs; rewrite take_drop, Hz in Hs; lia).
  unfold bn_usub_consttime, get. pose proof Ha as (ba & Eba & Hwa & _). pose proof Hb as (bb & Ebb & Hwb & Hrb & _). rewrite Eba, Ebb. cbn [mbind option_bind]. rewrite Hwa, Hwb.
  assert ((if Z.of_nat (length A) <? Z.of_nat (length B) then bn_fits_in_words bb (Z.of_nat (length A)) else Some true) = Some true) as ->.
  { destruct (Z.of_nat (length A) <? Z.of_nat (length B)) eqn:E; [|done]. apply Z.ltb_lt in E. rewrite (fits_spec bb B) by done. replace (length A) with bw by lia. by rewrite bool_decide_eq_true_2. }
  cbn [mbind option_bind negb]. assert ((if Z.of_nat (length A) <? Z.of_nat (length B) then Z.of_nat (length A) else Z.of_nat (length B)) = Z.of_nat bw) as ->.
  { destruct (Z.of_nat (length A) <? Z.of_nat (length B)) eqn:E; [apply Z.ltb_lt in E|apply Z.ltb_ge in E]; lia. }
  rewrite (wrapu_id 64 (Z.of_nat (length A))) by (unfold in_u; lia). destruct (expand_spec malloc malloc_ok w r R sr (Z.of_nat (length A)) Hr ltac:(lia)) as [(w1 & -> & Hr1 & Hroom & Hsame)|[-> H]]; [|by right].
  left. cbn [mbind option_bind negb]. pose proof (kept _ _ _ _ _ _ _ _ Hsame Hr Hr1 Ha) as Ha1. pose proof (kept _ _ _ _ _ _ _ _ Hsame Hr Hr1 Hb) as Hb1.
  pose proof (holds_at _ _ _ _ Ha1) as Ha2. pose proof (holds_at _ _ _ _ Hb1) as Hb2. rewrite (wrapu_id 64 (Z.of_nat bw)) by (unfold in_u; lia).
  assert (length (take bw A) = bw) as Hlt by (rewrite length_take; lia).
  destruct (sub_words_spec w1 (r, 0) (a, 0) (b, 0) (take bw A) (take bw B)) as (c & zs & E & Hzw & Hzl & Hc & Hval); [by apply Forall_take|by apply Forall_take|rewrite !length_take; lia|lia|apply words_at_take; [lia|done]|apply words_at_take; [lia|done]|eapply room_less; [exact Hroom|lia]|by right|by right|].
  rewrite Hlt in E, Hzl, Hval. rewrite E. cbn [mbind option_bind fst snd]. set (w3 := store_at w1 (r, 0) zs).
  pose proof (borrow_loop_steps (length A - bw) (Z.to_nat (Z.of_nat (length A) - Z.of_nat bw)) w3 r a (Z.of_nat bw) c ltac:(lia)) as Eloop.
  replace (Z.of_nat bw + Z.of_nat (length A - bw)) with (Z.of_nat (length A)) in Eloop by lia. rewrite Eloop. clear Eloop.
  assert (words_at w1 (shift (a, 0) (Z.of_nat bw)) (drop bw A)) as Hrest by (apply words_at_drop; [lia|done]).
  assert (room w1 (r, 0) (Z.of_nat (length zs))) as Hroomz by (eapply room_less; [exact Hroom|lia]).
  assert (room w3 (shift (r, 0) (Z.of_nat bw)) (Z.of_nat (length (drop bw A)))) as Hroom3.
  { apply room_store; [done|]. pose proof (room_shift _ _ _ (Z.of_nat bw) Hroom ltac:(lia)) as H. eapply room_less; [exact H|]. rewrite length_drop. lia. }
  rewrite <- (length_drop A). rewrite (gen_steps borrow_g (r, 0) (a, 0) (a, 0) w3 c (drop bw A) (drop bw A)); [|done|..|done|by right|by right];
    try (apply words_at_store; [done|right; cbn; lia|done]).
  cbn [mbind option_bind fst snd]. set (t := run borrow_g c (drop bw A) (drop bw A)). destruct (run_borrow (drop bw A) c) as (Htw & Htc & Htv); [by apply Forall_drop|done|]. fold t in Htw, Htc, Htv.
  assert (length t.1 = length A - bw)%nat as Hlt1 by (unfold t; rewrite length_run by done; apply length_drop).
  assert (Z.of_nat (length (zs ++ t.1)) = Z.of_nat (length A)) as Hln by (rewrite length_app; lia).
  unfold w3. replace (shift (r, 0) (Z.of_nat bw)) with (shift (r, 0) (Z.of_nat (length zs))) by (by rewrite Hzl). rewrite store_at_app by (by rewrite Hln).
  assert (val (zs ++ t.1) = val A - val B + weight (length A) * t.2) as Hv.
  { rewrite val_app, Hzl. rewrite length_drop in Htv. pose proof (val_app (take bw A) (drop bw A)) as Hsplit. rewrite take_drop, Hlt in Hsplit.
    assert (weight (length A) = weight bw * weight (length A - bw)) as -> by (rewrite <- weight_add; f_equal; lia). nia. }
  assert (words (zs ++ t.1)) as Hwt by (by apply words_both). pose proof (val_bound _ Hwt) as Hb0. replace (length (zs ++ t.1)) with (length A) in Hb0 by lia.
  assert (t.2 = 0) as Ht2. { pose proof (val_bound _ HwA). pose proof (val_bound _ HwB). nia. }
  rewrite Ht2. cbn [Z.eqb negb]. destruct Hr1 as (br & Ebr & _ & _ & _ & _ & Hwr & Hdr). destruct Ha1 as (ba1 & Eba1 & Hwa1 & _). rewrite <- Hln in Hroom, Hwa1.
  assert (exists x, store_at w1 (r, 0) (zs ++ t.1) !! a = Some x /\ width x = Z.of_nat (length (zs ++ t.1))) as (x & -> & Ewx).
  { rewrite lookup_store_at. case_bool_decide; rewrite Eba1; [|by exists ba1]. eexists. split; [reflexivity|done]. }
  cbn [mbind option_bind]. rewrite Ewx. destruct (holds_written w1 r br (zs ++ t.1) _ 0 Ebr Hwr Hdr Hwt Hroom ltac:(by left) eq_refl) as (w' & E' & HC & Hs').
  change (upd ?w ?r (fun b => with_neg ?s (with_width ?n b))) with (upd w r (fun b => with_width n (with_neg s b))). rewrite E'. cbn [mbind option_bind].
  exists w', (zs ++ t.1). split; [done|]. split; [done|]. split; [rewrite Hv, Ht2; lia|by eapply same_but_trans].
Qed.

Lemma usub_spec w r a b A B R sa sb sr : holds w a A sa -> holds w b B sb -> holds w r R sr -> val B <= val A ->
  (exists w' C, BN_usub malloc w r a b = Some (true, w') /\ holds w' r C 0 /\ minimal C /\ val C = val A - val B /\ same_but r w w') \/
  BN_usub malloc w r a b = Some (false, w) /\ no_room malloc w r (Z.of_nat (length A)).
Proof.
  intros Ha Hb Hr Hle. unfold BN_usub. destruct (usub_ordered w r a b A B R sa sb sr _ Ha Hb Hr eq_refl Hle) as [(w' & C & -> & HC & Hv & Hs)|[-> H]]; [|by right].
  left. cbn [mbind option_bind negb]. destruct (strip_exists C) as (C' & k & -> & Hm). destruct (set_minimal_spec w' r C' k 0 HC Hm) as (w'' & -> & HC' & Hs'). cbn [mbind option_bind].
  eexists _, C'. split; [reflexivity|]. split; [by destruct (bool_decide (C' = []))|]. split; [done|]. split; [rewrite val_app, val_zeros in Hv; lia|]. by eapply same_but_trans.
Qed.
End Magnitudes.

(** ** Comparison *)

Definition all_ones : Z := 2 ^ 64 - 1.

Lemma top_bit x : in_u 64 x -> Z.testbit x 63 = (2 ^ 63 <=? x).
Proof. unfold in_u. intros H. apply Bool.eq_true_iff_eq. rewrite Z.testbit_true, Z.leb_le by lia. lia. Qed.

Lemma msb_spec x : in_u 64 x -> constant_time_msb_w x = if 2 ^ 63 <=? x then all_ones else 0.
Proof.
  unfold in_u, constant_time_msb_w, all_ones. intros H. rewrite shiftr_div by lia. destruct (2 ^ 63 <=? x) eqn:E; [apply Z.leb_le in E|apply Z.leb_gt in E]; unfold wrapu; lia.
Qed.

Lemma u64_range x : in_u 64 (u64 x).
Proof. apply wrapu_range. lia. Qed.

Lemma land_u64 x y : in_u 64 x -> in_u 64 (Z.land x y).
Proof.
  unfold in_u. intros H. assert (Z.land x y = Z.land x y mod 2 ^ 64) as ->; [|lia]. apply Z.bits_inj'. intros i Hi. destruct (decide (i < 64)); [by rewrite Z.mod_pow2_bits_low|].
  rewrite Z.mod_pow2_bits_high by lia. rewrite Z.land_spec, (testbit_small x 64) by lia. done.
Qed.

Lemma is_zero_w_spec x : in_u 64 x -> constant_time_is_zero_w x = if x =? 0 then all_ones else 0.
Proof.
  intros H. unfold constant_time_is_zero_w. pose proof (land_u64 (u64 (Z.lnot x)) (u64 (x - 1)) (u64_range _)) as Hl. rewrite msb_spec, <- (top_bit _ Hl), Z.land_spec by done.
  rewrite !top_bit by apply u64_range. unfold in_u in H. unfold wrapu. unfold Z.lnot. destruct (x =? 0) eqn:E; [apply Z.eqb_eq in E as ->; done|apply Z.eqb_neq in E].
  destruct (2 ^ 63 <=? Z.pred (- x) mod 2 ^ 64) eqn:E1; [|done]. apply Z.leb_le in E1. destruct (2 ^ 63 <=? (x - 1) mod 2 ^ 64) eqn:E2; [|done]. apply Z.leb_le in E2. exfalso. unfold Z.pred in E1. lia.
Qed.

Lemma lxor_u64 x y : in_u 64 x -> in_u 64 y -> in_u 64 (Z.lxor x y).
Proof.
  unfold in_u. intros Hx Hy. assert (Z.lxor x y = Z.lxor x y mod 2 ^ 64) as ->; [|lia]. apply Z.bits_inj'. intros i Hi. destruct (decide (i < 64)); [by rewrite Z.mod_pow2_bits_low|].
  rewrite Z.mod_pow2_bits_high by lia. rewrite Z.lxor_spec, !(testbit_small _ 64) by lia. done.
Qed.

Lemma eq_w_spec x y : in_u 64 x -> in_u 64 y -> constant_time_eq_w x y = if x =? y then all_ones else 0.
Proof.
  intros Hx Hy. unfold constant_time_eq_w. rewrite is_zero_w_spec by (by apply lxor_u64). destruct (x =? y) eqn:E; [apply Z.eqb_eq in E as ->; by rewrite Z.lxor_nilpotent|].
  apply Z.eqb_neq in E. rewrite (proj2 (Z.eqb_neq _ 0)); [done|]. intros H. apply Z.lxor_eq in H. done.
Qed.

Lemma lt_w_spec x y : in_u 64 x -> in_u 64 y -> constant_time_lt_w x y = if x <? y then all_ones else 0.
Proof.
  intros Hx Hy. unfold constant_time_lt_w. assert (in_u 64 (Z.lxor (u64 (x - y)) x)) as H1 by (apply lxor_u64; [apply u64_range|done]). assert (in_u 64 (Z.lxor x y)) as H2 by (by apply lxor_u64).
  assert (in_u 64 (Z.lor (Z.lxor x y) (Z.lxor (u64 (x - y)) x))) as H3 by (unfold in_u in *; apply lor_range; lia). pose proof (lxor_u64 _ _ Hx H3) as H4.
  rewrite msb_spec, <- (top_bit _ H4), Z.lxor_spec, Z.lor_spec, !Z.lxor_spec by done. rewrite !top_bit by (done || apply u64_range). unfold in_u in Hx, Hy. unfold wrapu.
  destruct (2 ^ 63 <=? x) eqn:E1; (apply Z.leb_le in E1 || apply Z.leb_gt in E1); (destruct (2 ^ 63 <=? y) eqn:E2; (apply Z.leb_le in E2 || apply Z.leb_gt in E2));
    (destruct (2 ^ 63 <=? (x - y) mod 2 ^ 64) eqn:E3; (apply Z.leb_le in E3 || apply Z.leb_gt in E3)); cbn [xorb orb]; (destruct (x <? y) eqn:E4; (apply Z.ltb_lt in E4 || apply Z.ltb_ge in E4)); try done; exfalso; lia.
Qed.

Lemma select_int_spec (c : bool) x y : -1 <= x <= 1 -> -1 <= y <= 1 -> constant_time_select_int (if c then all_ones else 0) x y = if c then x else y.
Proof.
  intros Hx Hy. assert (x = -1 \/ x = 0 \/ x = 1) as [-> | [-> | -> ]] by lia; assert (y = -1 \/ y = 0 \/ y = 1) as [-> | [-> | -> ]] by lia; destruct c; vm_compute; reflexivity.
Qed.

Lemma cmp_loop_spec a b xs ys i ret fuel : rds a i (Z.of_nat (length xs)) = Some xs -> rds b i (Z.of_nat (length ys)) = Some ys -> length ys = length xs -> words xs -> words ys ->
  -1 <= ret <= 1 -> (length xs <= fuel)%nat ->
  cmp_loop fuel a b i (i + Z.of_nat (length xs)) ret = Some (let s := Z.sgn (val xs - val ys) in if s =? 0 then ret else s).
Proof.
  revert ys i ret fuel. induction xs as [|x xs IH]; intros [|y ys] i ret fuel Ha Hb Hl Hx Hy Hret Hf; try done.
  - cbn [length]. rewrite Z.add_0_r. destruct fuel; cbn [cmp_loop]; by rewrite Z.ltb_irrefl.
  - apply Forall_cons in Hx as [Hx Hxs]. apply Forall_cons in Hy as [Hy Hys]. apply rds_cons in Ha as [Ex Ha]. apply rds_cons in Hb as [Ey Hb]. cbn [length] in Hf |- *. destruct fuel as [|fuel]; [lia|]. cbn [cmp_loop].
    rewrite (proj2 (Z.ltb_lt i _)) by lia. rewrite Ex, Ey. cbn [mbind option_bind]. rewrite eq_w_spec, lt_w_spec by done. rewrite (select_int_spec (x <? y)) by lia. rewrite select_int_spec; [|done|destruct (x <? y); lia].
    replace (i + Z.of_nat (S (length xs))) with (i + 1 + Z.of_nat (length xs)) by lia. rewrite (IH ys); [|done|done|cbn in Hl; lia|done|done|destruct (x =? y), (x <? y); lia|lia]. f_equal. cbn [val]. cbv zeta. unfold in_u in Hx, Hy.
    destruct (x =? y) eqn:E1; [apply Z.eqb_eq in E1|apply Z.eqb_neq in E1; destruct (x <? y) eqn:E2; [apply Z.ltb_lt in E2|apply Z.ltb_ge in E2]];
      (destruct (Z.sgn (val xs - val ys) =? 0) eqn:E3; [apply Z.eqb_eq in E3|apply Z.eqb_neq in E3]);
      (destruct (Z.sgn (x + 2 ^ 64 * val xs - (y + 2 ^ 64 * val ys)) =? 0) eqn:E4; [apply Z.eqb_eq in E4|apply Z.eqb_neq in E4]); lia.
Qed.

Lemma or_loop_words fuel b i n m : or_loop fuel b i n m = or_words fuel (d b) i n m.
Proof. revert i m. induction fuel as [|fuel IH]; intros i m; [done|]. cbn [or_loop or_words]. destruct (i <? n); [|done]. destruct (rd (d b) i); [apply IH|done]. Qed.

Lemma or_words_range a ws i fuel m : rds a 0 (Z.of_nat (length ws)) = Some ws -> in_u 64 m -> words ws -> (length ws - i <= fuel)%nat ->
  exists m', or_words fuel a (Z.of_nat i) (Z.of_nat (length ws)) m = Some m' /\ in_u 64 m' /\ (m' = 0 <-> m = 0 /\ val (drop i ws) = 0).
Proof.
  intros Hr Hm Hw Hf. destruct (or_loop_spec (mk_bn a 0 0 0) ws i fuel m Hr ltac:(unfold in_u in Hm; lia) Hw Hf) as (m' & E & _ & H). rewrite or_loop_words in E. exists m'. split; [done|]. split; [|done].
  clear H. cbn [d] in E. revert i m Hm Hf E. induction fuel as [|fuel IH]; intros i m Hm Hf E; cbn [or_words] in E.
  - rewrite (proj2 (Z.ltb_ge _ _)) in E by lia. congruence.
  - destruct (Z.of_nat i <? Z.of_nat (length ws)) eqn:E1; [apply Z.ltb_lt in E1|congruence]. rewrite (rd_rds _ ws), Nat2Z.id in E by (done || lia). destruct (lookup_lt_is_Some_2 ws i ltac:(lia)) as [x Ex]. rewrite Ex in E. cbn [mbind option_bind] in E.
    replace (Z.of_nat i + 1) with (Z.of_nat (S i)) in E by lia. apply IH in E; [done| |lia]. assert (in_u 64 x) as Hx by (by apply (Forall_lookup_1 _ ws i)). unfold in_u in *. by apply lor_range.
Qed.

(** One operand is longer. *)
Lemma cmp_longer a ws n fuel (ret s : Z) : rds a 0 (Z.of_nat (length ws)) = Some ws -> words ws -> (length ws - n <= fuel)%nat -> -1 <= ret <= 1 -> -1 <= s <= 1 ->
  (mask ← or_words fuel a (Z.of_nat n) (Z.of_nat (length ws)) 0; Some (constant_time_select_int (constant_time_is_zero_w mask) ret s)) = Some (if val (drop n ws) =? 0 then ret else s).
Proof.
  intros Hr Hw Hf Hret Hs. destruct (or_words_range a ws n fuel 0 Hr ltac:(unfold in_u; lia) Hw Hf) as (m & -> & Hm & H). cbn [mbind option_bind]. rewrite is_zero_w_spec, select_int_spec by done.
  f_equal. destruct (m =? 0) eqn:E1; [apply Z.eqb_eq in E1|apply Z.eqb_neq in E1]; (destruct (val (drop n ws) =? 0) eqn:E2; [apply Z.eqb_eq in E2|apply Z.eqb_neq in E2]); tauto.
Qed.

Lemma cmp_words_spec a b A B : rds a 0 (Z.of_nat (length A)) = Some A -> rds b 0 (Z.of_nat (length B)) = Some B -> words A -> words B ->
  bn_cmp_words_consttime a (Z.of_nat (length A)) b (Z.of_nat (length B)) = Some (Z.sgn (val A - val B)).
Proof.
  intros Ha Hb HA HB. unfold bn_cmp_words_consttime. set (n := (length A `min` length B)%nat).
  assert ((if Z.of_nat (length A) <? Z.of_nat (length B) then Z.of_nat (length A) else Z.of_nat (length B)) = Z.of_nat n) as ->.
  { destruct (Z.of_nat (length A) <? Z.of_nat (length B)) eqn:E; [apply Z.ltb_lt in E|apply Z.ltb_ge in E]; lia. }
  assert (length (take n A) = n /\ length (take n B) = n) as [HlA HlB] by (rewrite !length_take; lia).
  pose proof (cmp_loop_spec a b (take n A) (take n B) 0 0 n) as E. rewrite HlA, HlB in E. rewrite Nat2Z.id. rewrite Z.add_0_l in E.
  rewrite E; [|apply rds_take; [lia|done]|apply rds_take; [lia|done]|done|by apply Forall_take|by apply Forall_take|lia|lia]. clear E. cbn [mbind option_bind]. cbv zeta.
  pose proof (val_app (take n A) (drop n A)) as EA. pose proof (val_app (take n B) (drop n B)) as EB. rewrite take_drop in EA, EB. rewrite HlA in EA. rewrite HlB in EB.
  pose proof (val_bound _ (Forall_take _ n _ HA)) as BA. pose proof (val_bound _ (Forall_take _ n _ HB)) as BB. rewrite HlA in BA. rewrite HlB in BB.
  pose proof (val_bound _ (Forall_drop _ n _ HA)) as CA. pose proof (val_bound _ (Forall_drop _ n _ HB)) as CB. set (u := Z.sgn (val (take n A) - val (take n B))).
  assert (-1 <= (if u =? 0 then 0 else u) <= 1) as Hu by (unfold u; destruct (_ =? 0); lia). assert ((if u =? 0 then 0 else u) = u) as Eu by (destruct (u =? 0) eqn:E; [apply Z.eqb_eq in E; lia|done]).
  destruct (Z.of_nat (length A) <? Z.of_nat (length B)) eqn:E1; [apply Z.ltb_lt in E1|apply Z.ltb_ge in E1; destruct (Z.of_nat (length B) <? Z.of_nat (length A)) eqn:E2; [apply Z.ltb_lt in E2|apply Z.ltb_ge in E2]].
  - replace (length A) with n in * by lia. rewrite (cmp_longer b B) by (done || lia). rewrite Eu. f_equal. rewrite (drop_ge A) in EA by lia. cbn [val] in EA. destruct (val (drop n B) =? 0) eqn:E; [apply Z.eqb_eq in E|apply Z.eqb_neq in E]; unfold u; nia.
  - replace (length B) with n in * by lia. rewrite (cmp_longer a A) by (done || lia). rewrite Eu. f_equal. rewrite (drop_ge B) in EB by lia. cbn [val] in EB. destruct (val (drop n A) =? 0) eqn:E; [apply Z.eqb_eq in E|apply Z.eqb_neq in E]; unfold u; nia.
  - rewrite Eu. unfold u. do 2 f_equal. rewrite !take_ge by lia. done.
Qed.

Lemma ucmp_spec w a b A B sa sb : holds w a A sa -> holds w b B sb -> exists x y, w !! a = Some x /\ w !! b = Some y /\ neg x = sa /\ neg y = sb /\ BN_ucmp x y = Some (Z.sgn (val A - val B)).
Proof.
  intros Ha Hb. pose proof (holds_words _ _ _ _ Ha) as HA. pose proof (holds_words _ _ _ _ Hb) as HB. destruct Ha as (x & Ex & Hwx & Hrx & Hnx & _), Hb as (y & Ey & Hwy & Hry & Hny & _).
  exists x, y. split_and!; try done. unfold BN_ucmp. rewrite Hwx, Hwy. by apply cmp_words_spec.
Qed.

(** ** Signed addition and subtraction *)

Lemma set_neg_spec w r C s s' : holds w r C s -> s' = 0 \/ s' = 1 -> exists w', upd w r (with_neg s') = Some w' /\ holds w' r C s' /\ same_but r w w'.
Proof.
  intros (b & Eb & Hw & Hr & _ & _ & Hws & Hd) Hs. unfold upd. rewrite Eb. cbn [mbind option_bind]. eexists. split; [reflexivity|]. split; [|apply same_but_insert].
  eexists. split; [by rewrite lookup_insert_eq|]. by split_and!.
Qed.

Lemma holds_sign w a A s : holds w a A s -> s = 0 \/ s = 1.
Proof. by intros (b & _ & _ & _ & _ & H & _). Qed.

(** Zero is not negative. *)
Definition plain (s : Z) (ws : list Z) : Prop := s = 1 -> val ws <> 0.

Section SignedSpec.
Context (malloc : Z -> option (list Z)).
Hypothesis malloc_ok : forall n v, malloc n = Some v -> Z.of_nat (length v) = n /\ words v.

(** What an operation into [r] does: the words and the sign of the result
    satisfy [P], or there is no room for [n] words or fewer. *)
Definition result (w : bns) (r : Z) (R : list Z) (n : Z) (P : list Z -> Z -> Prop) (res : option (bool * bns)) : Prop :=
  exists ok w' C s, res = Some (ok, w') /\ holds w' r C s /\ same_but r w w' /\
    if ok : bool then P C s else C = R /\ exists m, m <= n /\ no_room malloc w r m.

(** The difference of magnitudes, with the sign of the comparison. *)
Lemma diff_result w r a b A B R sa sb sr : holds w a A sa -> holds w b B sb -> holds w r R sr ->
  result w r R (Z.of_nat (length A `max` length B)) (fun C s => signed_val s C = val A - val B /\ minimal C /\ plain s C)
    (let c := Z.sgn (val A - val B) in
     q ← (if c <? 0 then BN_usub malloc w r b a else BN_usub malloc w r a b);
     let '(ok, w) := q in
     if negb ok then Some (false, w) else w ← upd w r (with_neg (if c <? 0 then 1 else 0)); Some (true, w)).
Proof.
  intros Ha Hb Hr. cbv zeta. destruct (Z.sgn (val A - val B) <? 0) eqn:E; [apply Z.ltb_lt in E|apply Z.ltb_ge in E].
  - destruct (usub_spec malloc malloc_ok w r b a B A R sb sa sr Hb Ha Hr ltac:(lia)) as [(w' & C & -> & HC & Hm & Hv & Hs)|[-> H]]; cbn [mbind option_bind negb].
    + destruct (set_neg_spec w' r C 0 1 HC ltac:(by right)) as (w'' & -> & HC' & Hs'). cbn [mbind option_bind]. exists true, w'', C, 1. split_and!; try done; [by eapply same_but_trans|cbn; lia|].
      intros _. lia.
    + exists false, w, R, sr. split_and!; try done. exists (Z.of_nat (length B)). split; [lia|done].
  - destruct (usub_spec malloc malloc_ok w r a b A B R sa sb sr Ha Hb Hr ltac:(lia)) as [(w' & C & -> & HC & Hm & Hv & Hs)|[-> H]]; cbn [mbind option_bind negb].
    + destruct (set_neg_spec w' r C 0 0 HC ltac:(by left)) as (w'' & -> & HC' & Hs'). cbn [mbind option_bind]. exists true, w'', C, 0. split_and!; try done. by eapply same_but_trans.
    + exists false, w, R, sr. split_and!; try done. exists (Z.of_nat (length A)). split; [lia|done].
Qed.

(** The sum of magnitudes with a given sign. *)
Lemma sum_result w r a b A B R sa sb sr s (keep : bool) : holds w a A sa -> holds w b B sb -> holds w r R sr -> s = 0 \/ s = 1 ->
  result w r R (Z.of_nat (length A `max` length B) + 1) (fun C s' => s' = s /\ val C = val A + val B /\ minimal C)
    (q ← BN_uadd malloc w r a b;
     let '(ok, w) := q in
     if negb ok && keep then Some (false, w) else w ← upd w r (with_neg s); Some (ok, w)).
Proof.
  intros Ha Hb Hr Hs. destruct (uadd_spec malloc malloc_ok w r a b A B R sa sb sr Ha Hb Hr) as [(w' & C & s0 & -> & HC & Hm & Hv & _ & Hsame)|[-> H]]; cbn [mbind option_bind negb andb].
  - destruct (set_neg_spec w' r C s0 s HC Hs) as (w'' & -> & HC' & Hs'). cbn [mbind option_bind]. exists true, w'', C, s. split_and!; try done. by eapply same_but_trans.
  - destruct keep.
    + exists false, w, R, sr. split_and!; try done. by eexists.
    + destruct (set_neg_spec w r R sr s Hr Hs) as (w'' & -> & HC' & Hs'). cbn [mbind option_bind]. exists false, w'', R, s. split_and!; try done. by eexists.
Qed.

Lemma result_weaken w r R n n' (P Q : list Z -> Z -> Prop) res : n <= n' -> (forall C s, P C s -> Q C s) -> result w r R n P res -> result w r R n' Q res.
Proof.
  intros Hn HPQ (ok & w' & C & s & E & HC & Hs & H). exists ok, w', C, s. split_and!; try done. destruct ok; [by apply HPQ|]. destruct H as [-> (m & Hm & H)]. split; [done|]. exists m. split; [lia|done].
Qed.

Lemma signed_val_1 A : signed_val 1 A = - val A.
Proof. done. Qed.

Lemma signed_val_0 A : signed_val 0 A = val A.
Proof. done. Qed.

Lemma bn_add_spec w r a b A B R sa sb sr : holds w a A sa -> holds w b B sb -> holds w r R sr -> plain sa A -> plain sb B ->
  result w r R (Z.of_nat (length A `max` length B) + 1) (fun C s => signed_val s C = signed_val sa A + signed_val sb B /\ minimal C /\ plain s C) (BN_add malloc w r a b).
Proof.
  intros Ha Hb Hr Pa Pb. pose proof (val_bound _ (holds_words _ _ _ _ Ha)) as BA. pose proof (val_bound _ (holds_words _ _ _ _ Hb)) as BB. unfold BN_add.
  destruct (ucmp_spec w a b A B sa sb Ha Hb) as (x & y & Ex & Ey & Hnx & Hny & Ec). destruct (ucmp_spec w b a B A sb sa Hb Ha) as (y' & x' & Ey' & Ex' & _ & _ & Ec').
  assert (y' = y) as -> by congruence. assert (x' = x) as -> by congruence. rewrite Ex, Ey. cbn [mbind option_bind]. rewrite Hnx, Hny.
  destruct (holds_sign _ _ _ _ Ha) as [-> | ->]; destruct (holds_sign _ _ _ _ Hb) as [-> | ->]; rewrite ?(signed_val_0 A), ?(signed_val_1 A), ?(signed_val_0 B), ?(signed_val_1 B); cbn [Z.lxor Pos.lxor Z.eqb Pos.eqb negb].
  - eapply result_weaken; [reflexivity| |pose proof (sum_result w r a b A B R 0 0 sr 0 false Ha Hb Hr ltac:(by left)) as H].
    2:{ destruct (BN_uadd malloc w r a b) as [[ok w']|]; [|exact H]. cbn [mbind option_bind fst snd] in H |- *. rewrite andb_false_r in H. exact H. }
    intros C s (-> & Hv & Hm). rewrite signed_val_0. split_and!; [done|done|]. unfold plain. lia.
  - rewrite Ex, Ey. cbn [mbind option_bind]. rewrite Ec. cbn [mbind option_bind]. eapply result_weaken; [| |apply (diff_result w r a b A B R 0 1 sr Ha Hb Hr)]; [lia|].
    intros C s (Hv & Hm & Hp). split_and!; [lia|done|done].
  - rewrite Ex, Ey. cbn [mbind option_bind]. rewrite Ec'. cbn [mbind option_bind]. eapply result_weaken; [| |apply (diff_result w r b a B A R 0 1 sr Hb Ha Hr)]; [lia|].
    intros C s (Hv & Hm & Hp). split_and!; try done. lia.
  - eapply result_weaken; [reflexivity| |pose proof (sum_result w r a b A B R 1 1 sr 1 false Ha Hb Hr ltac:(by right)) as H].
    2:{ destruct (BN_uadd malloc w r a b) as [[ok w']|]; [|exact H]. cbn [mbind option_bind fst snd] in H |- *. rewrite andb_false_r in H. exact H. }
    intros C s (-> & Hv & Hm). rewrite signed_val_1. split_and!; [lia|done|]. intros _. specialize (Pa eq_refl). lia.
Qed.

Lemma bn_sub_spec w r a b A B R sa sb sr : holds w a A sa -> holds w b B sb -> holds w r R sr -> plain sa A -> plain sb B ->
  result w r R (Z.of_nat (length A `max` length B) + 1) (fun C s => signed_val s C = signed_val sa A - signed_val sb B /\ minimal C /\ plain s C) (BN_sub malloc w r a b).
Proof.
  intros Ha Hb Hr Pa Pb. pose proof (val_bound _ (holds_words _ _ _ _ Ha)) as BA. pose proof (val_bound _ (holds_words _ _ _ _ Hb)) as BB. unfold BN_sub.
  destruct (ucmp_spec w a b A B sa sb Ha Hb) as (x & y & Ex & Ey & Hnx & Hny & Ec). destruct (ucmp_spec w b a B A sb sa Hb Ha) as (y' & x' & Ey' & Ex' & _ & _ & Ec').
  assert (y' = y) as -> by congruence. assert (x' = x) as -> by congruence. rewrite Ex, Ey. cbn [mbind option_bind]. rewrite Hnx, Hny.
  assert (forall res s, (res = q ← BN_uadd malloc w r a b; let '(ok, w) := q in if negb ok then Some (false, w) else w ← upd w r (with_neg s); Some (true, w)) ->
    res = q ← BN_uadd malloc w r a b; let '(ok, w) := q in if negb ok && true then Some (false, w) else w ← upd w r (with_neg s); Some (ok, w)) as Hform.
  { intros res s ->. destruct (BN_uadd malloc w r a b) as [[[|] w']|]; done. }
  destruct (holds_sign _ _ _ _ Ha) as [-> | ->]; destruct (holds_sign _ _ _ _ Hb) as [-> | ->]; rewrite ?(signed_val_0 A), ?(signed_val_1 A), ?(signed_val_0 B), ?(signed_val_1 B); cbn [Z.eqb negb andb].
  - rewrite Ex, Ey. cbn [mbind option_bind]. rewrite Ec. cbn [mbind option_bind]. eapply result_weaken; [| |apply (diff_result w r a b A B R 0 0 sr Ha Hb Hr)]; [lia|].
    intros C s (Hv & Hm & Hp). split_and!; [lia|done|done].
  - rewrite (Hform _ 0 eq_refl). eapply result_weaken; [reflexivity| |apply (sum_result w r a b A B R 0 1 sr 0 true Ha Hb Hr ltac:(by left))].
    intros C s (-> & Hv & Hm). rewrite signed_val_0. split_and!; [lia|done|]. unfold plain. lia.
  - rewrite (Hform _ 1 eq_refl). eapply result_weaken; [reflexivity| |apply (sum_result w r a b A B R 1 0 sr 1 true Ha Hb Hr ltac:(by right))].
    intros C s (-> & Hv & Hm). rewrite signed_val_1. split_and!; [lia|done|]. intros _. specialize (Pa eq_refl). lia.
  - rewrite Ex, Ey. cbn [mbind option_bind]. rewrite Ec'. cbn [mbind option_bind]. eapply result_weaken; [| |apply (diff_result w r b a B A R 1 1 sr Hb Ha Hr)]; [lia|].
    intros C s (Hv & Hm & Hp). split_and!; try done. lia.
Qed.
End SignedSpec.

(** ** Multiplication *)

Lemma splice_over {A} o (y z l : list A) : length z = length y -> (o + length y <= length l)%nat -> splice o z (splice o y l) = splice o z l.
Proof.
  intros Hl Hf. unfold splice. rewrite take_app_le by (rewrite length_take; lia). rewrite take_take. replace (o `min` o)%nat with o by lia. do 2 f_equal.
  rewrite drop_app_ge by (rewrite length_take; lia). rewrite length_take. replace (o `min` length l)%nat with o by lia. rewrite drop_app_ge by lia. rewrite drop_drop. f_equal. lia.
Qed.

Lemma store_at_over w r x y z : room w r (Z.of_nat (length (x ++ y))) -> length z = length y ->
  store_at (store_at w r (x ++ y)) (shift r (Z.of_nat (length x))) z = store_at w r (x ++ z).
Proof.
  intros Hr Hl. rewrite <- !store_at_app by (done || (rewrite length_app, Hl, <- length_app; done)). pose proof (room_shift _ _ _ (Z.of_nat (length x)) Hr ltac:(rewrite length_app; lia)) as (c & Ec & H1 & H2 & H3).
  apply map_eq. intros i. rewrite !lookup_store_at. cbn [shift fst snd] in *. case_bool_decide as Hi; [|done]. subst i. rewrite Ec. cbn. f_equal. unfold with_d. cbn. f_equal. destruct Hr as (c' & Ec' & H4 & _). assert (c' = c) as -> by congruence.
  unfold dmax in *. rewrite length_app in *. apply splice_over; [done|]. rewrite length_splice by lia. lia.
Qed.

Lemma words_at_self w r C : room w r (Z.of_nat (length C)) -> words_at (store_at w r C) r C.
Proof.
  intros (c & Ec & H1 & _ & H3). unfold dmax in H3. eexists. rewrite lookup_store_at, bool_decide_eq_true_2, Ec by done. split; [reflexivity|]. cbn. unfold rds. rewrite length_splice by lia.
  rewrite bool_decide_eq_true_2 by lia. rewrite Nat2Z.id, splice_read by lia. done.
Qed.

Lemma words_at_other w r C p ws : r.1 <> p.1 -> words_at w p ws -> words_at (store_at w r C) p ws.
Proof. intros Hne (c & Ec & H). exists c. split; [|done]. rewrite lookup_store_at. by rewrite bool_decide_eq_false_2 by congruence. Qed.

Lemma set_word_end w r C c n : room w r n -> Z.of_nat (length C) + 1 <= n -> set_word (store_at w r C) r (Z.of_nat (length C)) c = Some (store_at w r (C ++ [c])).
Proof.
  intros Hr Hn. assert (room w r (Z.of_nat (length C))) as HrC by (eapply room_less; [exact Hr|lia]).
  rewrite set_word_at; [|apply room_store; [done|]; pose proof (room_shift _ _ _ (Z.of_nat (length C)) Hr ltac:(lia)) as H; eapply room_less; [exact H|lia]].
  rewrite store_at_app; [done|]. rewrite length_app. cbn [length]. eapply room_less; [exact Hr|lia].
Qed.

Lemma val_lookup A j x : A !! j = Some x -> val (take (S j) A) = val (take j A) + weight j * x.
Proof.
  intros H. rewrite (take_S_r _ _ x) by done. rewrite val_app. cbn [val]. rewrite length_take. apply lookup_lt_Some in H. replace (j `min` length A)%nat with j by lia. lia.
Qed.

(** The rows from [j] on; what is written so far is the product with the first [j] words. *)
Lemma mul_rows_spec w r a b A B j fuel C : words A -> words B -> Z.of_nat (length A) < 2 ^ 62 -> Z.of_nat (length B) < 2 ^ 62 -> r.1 <> a.1 -> r.1 <> b.1 ->
  words_at w a A -> words_at w b B -> room w r (Z.of_nat (length A + length B)) -> (1 <= j <= length B)%nat -> (length B - j < fuel)%nat ->
  words C -> length C = (length A + j)%nat -> val C = val A * val (take j B) ->
  exists C', mul_rows fuel (store_at w r C) r a b (Z.of_nat (length A)) (Z.of_nat (length B - j + 1)) (Z.of_nat j) = Some (store_at w r C') /\
    words C' /\ length C' = (length A + length B)%nat /\ val C' = val A * val B.
Proof.
  intros HA HB Hla Hlb Hra Hrb Ha Hb Hr. revert j C. induction fuel as [|fuel IH]; intros j C Hj Hf HC HlC Hv; [lia|]. cbn [mul_rows]. rewrite wrapu_id by (unfold in_u; lia).
  destruct (decide (j = length B)) as [->|Hne].
  - replace (Z.of_nat (length B - length B + 1) - 1) with 0 by lia. cbn [Z.eqb]. exists C. split; [done|]. split; [done|]. split; [done|]. rewrite take_ge in Hv by lia. done.
  - rewrite (proj2 (Z.eqb_neq _ 0)) by lia. destruct (lookup_lt_is_Some_2 B j ltac:(lia)) as [m Em]. assert (in_u 64 m) as Hm by (by apply (Forall_lookup_1 _ B j)).
    assert (room w r (Z.of_nat (length C))) as HrC by (eapply room_less; [exact Hr|lia]).
    assert (word (store_at w r C) b (Z.of_nat j) = Some m) as ->.
    { rewrite word_shift. pose proof (words_at_drop (store_at w r C) b B j ltac:(lia) (words_at_other w r C b B Hrb Hb)) as H. rewrite (drop_S B m j Em) in H. by apply words_at_cons in H as [H _]. }
    cbn [mbind option_bind]. fold (shift r (Z.of_nat j)).
    assert (length (drop j C) = length A) as Hld by (rewrite length_drop; lia).
    destruct (mul_add_words_spec (store_at w r C) (shift r (Z.of_nat j)) a A (drop j C) m) as (c & zs & E & Hzw & Hzl & Hc & Hval); [done|by apply Forall_drop|done|done|lia|by apply words_at_other|apply words_at_drop; [lia|by apply words_at_self]|left; exact Hra|].
    rewrite E. cbn [mbind option_bind fst snd]. assert (length (take j C) = j) as Hlt by (rewrite length_take; lia).
    assert (store_at (store_at w r C) (shift r (Z.of_nat j)) zs = store_at w r (take j C ++ zs)) as ->.
    { pose proof (store_at_over w r (take j C) (drop j C) zs) as H. rewrite take_drop, Hlt in H. apply H; [done|lia]. }
    replace (Z.of_nat (length A) + Z.of_nat j) with (Z.of_nat (length (take j C ++ zs))) by (rewrite length_app; lia). rewrite (set_word_end w r _ c _ Hr) by (rewrite length_app; lia). cbn [mbind option_bind].
    replace (Z.of_nat (length B - j + 1) - 1) with (Z.of_nat (length B - S j + 1)) by lia. replace (Z.of_nat j + 1) with (Z.of_nat (S j)) by lia. apply IH; [lia|lia| | |].
    + apply words_both. split; [apply words_both; split; [by apply Forall_take|done]|]. by constructor.
    + rewrite !length_app. cbn [length]. lia.
    + rewrite (val_lookup B j m Em). rewrite !val_app, length_app, Hlt, Hzl, weight_add. cbn [val]. pose proof (val_app (take j C) (drop j C)) as Hs. rewrite take_drop, Hlt in Hs. nia.
Qed.

Lemma mul_ordered w r a b A B : words A -> words B -> Z.of_nat (length A) < 2 ^ 62 -> (length B <= length A)%nat -> r.1 <> a.1 -> r.1 <> b.1 ->
  words_at w a A -> words_at w b B -> room w r (Z.of_nat (length A + length B)) ->
  exists C, bn_mul_normal w r a (Z.of_nat (length A)) b (Z.of_nat (length B)) = Some (store_at w r C) /\ words C /\ length C = (length A + length B)%nat /\ val C = val A * val B.
Proof.
  intros HA HB Hla Hl Hra Hrb Ha Hb Hr. unfold bn_mul_normal. rewrite (proj2 (Z.ltb_ge _ _)) by lia. destruct B as [|m B].
  - cbn [length Z.of_nat Z.eqb]. rewrite Nat2Z.id. exists (replicate (length A) 0). rewrite length_replicate, val_zeros. cbn [val]. split; [|split; [apply words_zeros|split; lia]].
    destruct Hr as (o & Eo & H1 & _ & H3). unfold dmax in H3. rewrite Eo. cbn [mbind option_bind]. unfold wrs. cbn [length] in H3. rewrite length_replicate, bool_decide_eq_true_2 by lia. cbn [mbind option_bind]. f_equal.
    apply map_eq. intros i. rewrite lookup_store_at. case_bool_decide as Hi; [subst i; by rewrite lookup_insert_eq, Eo|by rewrite lookup_insert_ne by congruence].
  - rewrite (proj2 (Z.eqb_neq _ 0)) by (cbn [length]; lia). destruct (words_at_cons _ _ _ _ Hb) as [Em _]. rewrite Em. cbn [mbind option_bind]. pose proof HB as HB'. apply Forall_cons in HB' as [Hm _].
    destruct (mul_words_spec w r a A m HA Hm) as (c & zs & E & Hzw & Hzl & Hc & Hval); [lia|done|eapply room_less; [exact Hr|lia]|by left|]. rewrite E. cbn [mbind option_bind fst snd].
    pose proof (set_word_end w r zs c _ Hr ltac:(cbn [length]; lia)) as Ew. rewrite Hzl in Ew. rewrite Ew. cbn [mbind option_bind].
    pose proof (mul_rows_spec w r a b A (m :: B) 1 (Z.to_nat (Z.of_nat (length (m :: B)))) (zs ++ [c]) HA HB Hla ltac:(lia) Hra Hrb Ha Hb Hr) as H.
    replace (Z.of_nat (length (m :: B) - 1 + 1)) with (Z.of_nat (length (m :: B))) in H by (cbn [length]; lia). apply H; [cbn [length]; lia|cbn [length]; lia| | |].
    + apply words_both. split; [done|]. by constructor.
    + rewrite length_app. cbn [length]. lia.
    + rewrite val_app, Hzl. cbn [take val]. rewrite take_0. cbn [val]. nia.
Qed.

(** The product of the words at [a] and [b], into an array that is neither. *)
Lemma mul_normal_spec w r a b A B : words A -> words B -> Z.of_nat (length A) < 2 ^ 62 -> Z.of_nat (length B) < 2 ^ 62 -> r.1 <> a.1 -> r.1 <> b.1 ->
  words_at w a A -> words_at w b B -> room w r (Z.of_nat (length A + length B)) ->
  exists C, bn_mul_normal w r a (Z.of_nat (length A)) b (Z.of_nat (length B)) = Some (store_at w r C) /\ words C /\ length C = (length A + length B)%nat /\ val C = val A * val B.
Proof.
  intros HA HB Hla Hlb Hra Hrb Ha Hb Hr. destruct (decide (length B <= length A)%nat) as [Hl|Hl]; [by apply mul_ordered|].
  assert (bn_mul_normal w r a (Z.of_nat (length A)) b (Z.of_nat (length B)) = bn_mul_normal w r b (Z.of_nat (length B)) a (Z.of_nat (length A))) as ->.
  { unfold bn_mul_normal. rewrite (proj2 (Z.ltb_lt (Z.of_nat (length A)) _)) by lia. by rewrite (proj2 (Z.ltb_ge (Z.of_nat (length B)) _)) by lia. }
  rewrite Nat.add_comm, Z.mul_comm. rewrite Nat.add_comm in Hr. apply mul_ordered; try done; lia.
Qed.

(** ** Bits *)

Lemma land_ones_64 x : in_u 64 x -> Z.land x (2 ^ 64 - 1) = x.
Proof. intros H. rewrite land_ones_mod by lia. by apply Z.mod_small. Qed.

Lemma half_step_spec s bits l : 1 <= s <= 32 -> in_u 64 l -> half_step s (bits, l) = if l <? 2 ^ s then (bits, l) else (bits + s, l / 2 ^ s).
Proof.
  intros Hs Hl. unfold half_step. rewrite (shiftr_div l) by lia. assert (1 < 2 ^ s) as Hp by (pose proof (Z.pow_le_mono_r 2 1 s ltac:(lia) ltac:(lia)); lia). unfold in_u in Hl.
  set (x := l / 2 ^ s). assert (0 <= x < 2 ^ 63) as Hx by (unfold x; split; [apply Z.div_pos; lia|apply Z.div_lt_upper_bound; [lia|nia]]).
  unfold BN_BITS2. rewrite (shiftr_div _ (64 - 1)) by lia. destruct (l <? 2 ^ s) eqn:E; [apply Z.ltb_lt in E|apply Z.ltb_ge in E].
  - assert (x = 0) as -> by (unfold x; apply Z.div_small; lia). change (u64 (0 - u64 (0 - 0) / 2 ^ (64 - 1))) with 0. rewrite !Z.land_0_r, Z.lxor_0_r, Z.add_0_r. done.
  - assert (0 < x) as Hx0 by (unfold x; apply Z.div_str_pos; lia). assert (u64 (0 - u64 (0 - x) / 2 ^ (64 - 1)) = 2 ^ 64 - 1) as ->.
    { assert (u64 (0 - x) / 2 ^ (64 - 1) = 1) as ->; [|done]. unfold wrapu. clearbody x. lia. }
    rewrite (land_ones_64 s) by (unfold in_u; lia). rewrite land_ones_64 by (apply lxor_u64; unfold in_u; lia). by rewrite Z.lxor_comm, Z.lxor_assoc, Z.lxor_nilpotent, Z.lxor_0_r.
Qed.

(** The number of bits. *)
Definition bits_of (v : Z) : Z := if v =? 0 then 0 else Z.log2 v + 1.

(** After the step for [s] the number of bits is kept and [l] has fewer. *)
Lemma half_step_log s bits l b' l' : 1 <= s <= 32 -> 0 < l < 2 ^ (2 * s) -> half_step s (bits, l) = (b', l') -> 0 < l' < 2 ^ s /\ b' + Z.log2 l' = bits + Z.log2 l.
Proof.
  intros Hs Hl. assert (2 ^ (2 * s) <= 2 ^ 64) by (apply Z.pow_le_mono_r; lia). rewrite half_step_spec by (unfold in_u; lia). replace (2 * s) with (s + s) in Hl by lia. rewrite Z.pow_add_r in Hl by lia.
  destruct (l <? 2 ^ s) eqn:E; [apply Z.ltb_lt in E|apply Z.ltb_ge in E]; intros [= <- <-]; [lia|].
  assert (0 < l / 2 ^ s < 2 ^ s) as H1 by (split; [apply Z.div_str_pos; lia|apply Z.div_lt_upper_bound; lia]). split; [done|].
  rewrite <- Z.shiftr_div_pow2, Z.log2_shiftr by lia. pose proof (Z.log2_le_mono _ _ E) as Hlog. rewrite Z.log2_pow2 in Hlog by lia. lia.
Qed.

Lemma num_bits_word_spec l : in_u 64 l -> BN_num_bits_word l = bits_of l.
Proof.
  unfold in_u, BN_num_bits_word, bits_of. intros Hl. destruct (l =? 0) eqn:E; [apply Z.eqb_eq in E as ->; reflexivity|apply Z.eqb_neq in E]. cbn [negb].
  destruct (half_step 32 (1, l)) as [b1 l1] eqn:E1. apply half_step_log in E1 as [H1 E1]; [|lia|lia].
  destruct (half_step 16 (b1, l1)) as [b2 l2] eqn:E2. apply half_step_log in E2 as [H2 E2]; [|lia|lia].
  destruct (half_step 8 (b2, l2)) as [b3 l3] eqn:E3. apply half_step_log in E3 as [H3 E3]; [|lia|lia].
  destruct (half_step 4 (b3, l3)) as [b4 l4] eqn:E4. apply half_step_log in E4 as [H4 E4]; [|lia|lia].
  destruct (half_step 2 (b4, l4)) as [b5 l5] eqn:E5. apply half_step_log in E5 as [H5 E5]; [|lia|lia].
  destruct (half_step 1 (b5, l5)) as [b6 l6] eqn:E6. apply half_step_log in E6 as [H6 E6]; [|lia|lia]. cbn [fst].
  assert (l6 = 1) as -> by lia. change (Z.log2 1) with 0 in E6. lia.
Qed.

(** The top word decides. *)
Lemma log2_val ws x : words ws -> in_u 64 x -> x <> 0 -> Z.log2 (val (ws ++ [x])) = 64 * Z.of_nat (length ws) + Z.log2 x.
Proof.
  intros Hw Hx Hx0. unfold in_u in Hx. rewrite val_app. cbn [val]. pose proof (val_bound _ Hw) as Hb. destruct (Z.log2_spec x ltac:(lia)) as [H1 H2]. pose proof (Z.log2_nonneg x) as H0.
  apply Z.log2_unique; [lia|]. unfold weight in *. rewrite Z.pow_succ_r, !Z.pow_add_r by lia. rewrite Z.pow_succ_r in H2 by lia. set (p := 2 ^ (64 * Z.of_nat (length ws))) in *. assert (0 < p) by (unfold p; lia). nia.
Qed.

Lemma num_bits_spec b ws : width b = Z.of_nat (length ws) -> rds (d b) 0 (Z.of_nat (length ws)) = Some ws -> words ws -> Z.of_nat (length ws) <= INT_MAX / 256 -> BN_num_bits b = Some (bits_of (val ws)).
Proof.
  intros Hw Hr Hws Hlen. unfold INT_MAX in Hlen. destruct (strip_exists ws) as (ws' & k & -> & Hm). unfold BN_num_bits. rewrite (minimal_width_spec b ws' k Hw Hr Hm). cbn [mbind option_bind].
  rewrite val_app, val_zeros, Z.mul_0_r, Z.add_0_r. rewrite length_app in Hlen. apply words_both in Hws as [Hws _]. destruct ws' as [|x ws' _] using rev_ind; [done|]. rewrite (proj2 (Z.eqb_neq _ 0)) by (rewrite length_app; cbn [length]; lia).
  rewrite (rd_rds _ ((ws' ++ [x]) ++ replicate k 0)) by (done || (rewrite !length_app; cbn [length]; lia)).
  replace (Z.to_nat (Z.of_nat (length (ws' ++ [x])) - 1)) with (length ws') by (rewrite length_app; cbn [length]; lia).
  rewrite <- app_assoc. cbn [app]. rewrite list_lookup_middle by done. cbn [mbind option_bind]. apply words_both in Hws as [Hws Hx]. apply Forall_cons in Hx as [Hx _].
  assert (x <> 0) as Hx0 by (intros ->; unfold minimal in Hm; by rewrite last_snoc in Hm). rewrite num_bits_word_spec by done. unfold bits_of. rewrite (proj2 (Z.eqb_neq x 0)) by done.
  rewrite (proj2 (Z.eqb_neq (val _) 0)).
  2:{ rewrite val_app. cbn [val]. pose proof (val_bound _ Hws). pose proof (weight_pos (length ws')). unfold in_u in Hx. nia. }
  rewrite log2_val by done. rewrite length_app in *. cbn [length] in *. f_equal. rewrite wrapu_id; [unfold BN_BITS2; lia|]. unfold in_u, BN_BITS2 in *.
  assert (0 <= Z.log2 x < 64) by (split; [apply Z.log2_nonneg|apply Z.log2_lt_pow2; lia]). lia.
Qed.

(** ** Bytes *)

Lemma mod_div_mod a m n p : 0 <= n -> 0 <= p -> n + p <= m -> (a mod 2 ^ m / 2 ^ n) mod 2 ^ p = (a / 2 ^ n) mod 2 ^ p.
Proof.
  intros Hn Hp Hm. apply Z.bits_inj'. intros i Hi. destruct (decide (i < p)); [|by rewrite !Z.mod_pow2_bits_high by lia].
  rewrite !Z.mod_pow2_bits_low, !Z.div_pow2_bits by lia. by rewrite Z.mod_pow2_bits_low by lia.
Qed.

Lemma val_word ws k x : words ws -> ws !! k = Some x -> (val ws / weight k) mod 2 ^ 64 = x.
Proof.
  intros Hw Hk. assert (in_u 64 x) as Hx by (by apply (Forall_lookup_1 _ ws k)). unfold in_u in Hx. rewrite <- (take_drop k ws) at 1. rewrite val_app, (drop_S ws x k Hk). cbn [val].
  pose proof (val_bound _ (Forall_take _ k _ Hw)) as Hb. apply lookup_lt_Some in Hk. rewrite length_take in *. replace (k `min` length ws)%nat with k in * by lia. pose proof (weight_pos k).
  rewrite (Z.mul_comm (weight k)), Z.div_add, Z.div_small by lia. rewrite Z.add_0_l, (Z.mul_comm (2 ^ 64)), Z.mod_add, Z.mod_small by lia. done.
Qed.

(** A byte of a word is a byte of the number. *)
Lemma val_byte ws i x : words ws -> 0 <= i -> ws !! Z.to_nat (i / 8) = Some x -> Z.land (u8 (Z.shiftr x (8 * (i mod 8)))) 0xff = (val ws / 2 ^ (8 * i)) mod 256.
Proof.
  intros Hw Hi Hx. rewrite <- (val_word ws _ x Hw Hx). rewrite shiftr_div by lia. rewrite land_FF. unfold wrapu. rewrite Z.mod_mod by lia. change 256 with (2 ^ 8). rewrite mod_div_mod by lia.
  unfold weight. rewrite Z.div_div by lia. rewrite <- Z.pow_add_r by lia. do 3 f_equal. lia.
Qed.

Lemma be_top n v : be (S n) v = (v / 2 ^ (8 * Z.of_nat n)) mod 256 :: be n v.
Proof.
  revert v. induction n as [|n IH]; intros v.
  - rewrite be_S. change (2 ^ (8 * Z.of_nat 0)) with 1. rewrite Z.div_1_r. done.
  - rewrite be_S, IH. rewrite (be_S n v). cbn [app]. f_equal. rewrite Z.div_div by lia. do 2 f_equal. change 256 with (2 ^ 8). rewrite <- Z.pow_add_r by lia. f_equal. lia.
Qed.

Lemma bn2bin_loop_spec b ws pre old post fuel : rds (d b) 0 (Z.of_nat (length ws)) = Some ws -> words ws -> (length old <= fuel)%nat -> (length old <= 8 * length ws)%nat ->
  bn2bin_loop fuel b (pre ++ old ++ post) (Z.of_nat (length pre)) (Z.of_nat (length old)) = Some (pre ++ be (length old) (val ws) ++ post).
Proof.
  intros Hr Hw. revert pre old. induction fuel as [|fuel IH]; intros pre old Hf Hl; (destruct old as [|o old]; [done|]); [cbn in Hf; lia|]. cbn [length] in Hf, Hl. cbn [bn2bin_loop].
  rewrite (proj2 (Z.eqb_neq _ 0)) by (cbn [length]; lia). replace (Z.of_nat (length (o :: old)) - 1) with (Z.of_nat (length old)) by (cbn [length]; lia). set (i := Z.of_nat (length old)).
  assert (0 <= i / BN_BYTES < Z.of_nat (length ws)) as Hi by (unfold BN_BYTES, i; lia). rewrite (rd_rds _ ws) by done. destruct (lookup_lt_is_Some_2 ws (Z.to_nat (i / BN_BYTES)) ltac:(lia)) as [x Ex]. rewrite Ex. cbn [mbind option_bind].
  unfold BN_BYTES in *. rewrite (val_byte ws i x Hw ltac:(unfold i; lia) Ex). unfold wr. rewrite (wrs_mid pre [o] (old ++ post)) by done. cbn [mbind option_bind].
  pose proof (IH (pre ++ [(val ws / 2 ^ (8 * i)) mod 256]) old ltac:(lia) ltac:(lia)) as H. rewrite <- !app_assoc, length_app in H. cbn [length app] in H. replace (Z.of_nat (length pre + 1)) with (Z.of_nat (length pre) + 1) in H by lia.
  cbn [app]. unfold i in *. rewrite H. cbn [length]. by rewrite be_top.
Qed.

(** The number of bytes of a number. *)
Definition bytes_of (v : Z) : Z := (bits_of v + 7) / 8.

Lemma bits_of_bound v n : 0 <= n -> 0 <= v < 2 ^ n -> 0 <= bits_of v <= n.
Proof.
  intros Hn Hv. unfold bits_of. destruct (v =? 0) eqn:E; [lia|apply Z.eqb_neq in E]. pose proof (Z.log2_nonneg v). assert (Z.log2 v < n) by (apply Z.log2_lt_pow2; lia). lia.
Qed.

Lemma bn2bin_spec b ws pre old post : width b = Z.of_nat (length ws) -> rds (d b) 0 (Z.of_nat (length ws)) = Some ws -> words ws -> Z.of_nat (length ws) <= INT_MAX / 256 ->
  Z.of_nat (length old) = bytes_of (val ws) ->
  BN_bn2bin b (pre ++ old ++ post) (Z.of_nat (length pre)) = Some (bytes_of (val ws), pre ++ be (length old) (val ws) ++ post).
Proof.
  intros Hwd Hr Hw Hl Ho. unfold BN_bn2bin, BN_num_bytes. rewrite (num_bits_spec b ws) by done. cbn [mbind option_bind]. pose proof (val_bound _ Hw) as Hb. unfold weight in Hb.
  pose proof (bits_of_bound (val ws) (64 * Z.of_nat (length ws)) ltac:(lia) Hb) as Hbits. unfold INT_MAX in Hl. rewrite wrapu_id by (unfold in_u; lia). fold (bytes_of (val ws)). rewrite <- Ho, Nat2Z.id.
  rewrite (bn2bin_loop_spec b ws) by (done || (unfold bytes_of in Ho; lia)). cbn [mbind option_bind]. done.
Qed.

(** The bytes hold the number, and the first one is not zero. *)
Lemma be_bytes_of v : 0 <= v -> be_val (be (Z.to_nat (bytes_of v)) v) = v /\ hd 1 (be (Z.to_nat (bytes_of v)) v) <> 0.
Proof.
  intros Hv. unfold bytes_of, bits_of. destruct (v =? 0) eqn:E; [apply Z.eqb_eq in E as ->; done|apply Z.eqb_neq in E]. pose proof (Z.log2_nonneg v) as H0. destruct (Z.log2_spec v ltac:(lia)) as [H1 H2].
  set (n := (Z.log2 v + 1 + 7) / 8). assert (v < 2 ^ (8 * n)) as Hlt.
  { eapply Z.lt_le_trans; [exact H2|]. apply Z.pow_le_mono_r; unfold n; lia. }
  split; [rewrite be_val_be, Z2Nat.id by (unfold n; lia); by rewrite Z.mod_small|].
  assert (Z.to_nat n = S (Z.to_nat (n - 1))) as -> by (unfold n; lia). rewrite be_top. cbn [hd]. rewrite Z2Nat.id by (unfold n; lia).
  assert (2 ^ (8 * (n - 1)) <= v) as Hge by (eapply Z.le_trans; [|exact H1]; apply Z.pow_le_mono_r; unfold n; lia).
  assert (0 < v / 2 ^ (8 * (n - 1)) < 256) as Hq.
  { split; [apply Z.div_str_pos; lia|]. apply Z.div_lt_upper_bound; [lia|]. change 256 with (2 ^ 8). rewrite <- Z.pow_add_r by (unfold n; lia). by replace (8 * (n - 1) + 8) with (8 * n) by lia. }
  rewrite Z.mod_small by lia. lia.
Qed.

(** The high words are written first. *)
Lemma store_before w r a b : room w r (Z.of_nat (length a + length b)) -> store_at (store_at w (shift r (Z.of_nat (length a))) b) r a = store_at w r (a ++ b).
Proof.
  intros (c & Ec & H1 & _ & Hr). unfold dmax in Hr. apply map_eq. intros i. rewrite !lookup_store_at. cbn [shift fst snd]. case_bool_decide as Hi; [|done]. subst i. rewrite Ec. cbn. f_equal. unfold with_d. cbn. f_equal.
  replace (Z.to_nat (r.2 + Z.of_nat (length a))) with (Z.to_nat r.2 + length a)%nat by lia. unfold splice. rewrite take_app_le by (rewrite length_take; lia). rewrite take_take. replace (Z.to_nat r.2 `min` (Z.to_nat r.2 + length a))%nat with (Z.to_nat r.2) by lia.
  rewrite drop_app_ge by (rewrite length_take; lia). rewrite length_take. replace (_ - _)%nat with 0%nat by lia. cbn [drop]. rewrite length_app, Nat.add_assoc. by rewrite <- !app_assoc.
Qed.

(** Reading: [part] are the bytes of the word that is not complete. *)
Lemma bin_loop_spec w a part rest pre nw fuel : bytes part -> bytes rest -> (length part <= 7)%nat -> (length part + length rest = 8 * nw)%nat -> (length rest <= fuel)%nat ->
  room w (a, 0) (Z.of_nat nw) ->
  exists W, bin_loop fuel w a (pre ++ rest) (Z.of_nat (length pre)) (Z.of_nat (length rest)) (Z.of_nat nw) (7 - Z.of_nat (length part)) (be_val part) = Some (store_at w (a, 0) W) /\
    words W /\ length W = nw /\ val W = be_val (part ++ rest).
Proof.
  revert w part rest pre nw. induction fuel as [|fuel IH]; intros w part rest pre nw Hp Hrest Hp7 Hsum Hf Hroom.
  - destruct rest as [|c rest]; [|cbn in Hf; lia]. cbn [length] in Hsum. assert (nw = 0%nat) as -> by lia. destruct part; [|cbn in Hsum; lia]. exists []. rewrite store_nil. done.
  - destruct rest as [|c rest].
    + cbn [length] in Hsum. assert (nw = 0%nat) as -> by lia. destruct part; [|cbn in Hsum; lia]. exists []. rewrite store_nil. done.
    + cbn [length] in *. cbn [bin_loop]. rewrite (proj2 (Z.eqb_neq _ 0)) by lia. apply Forall_cons in Hrest as [Hc Hrest]. rewrite rd_app. cbn [mbind option_bind].
      assert (bytes (part ++ [c])) as Hpc by (apply Forall_app; split; [done|by constructor]). pose proof (be_val_bound _ Hp) as Bp. pose proof (be_val_bound _ Hpc) as Bpc. rewrite length_app in Bpc. cbn [length] in Bpc.
      assert (Z.lor (u64 (Z.shiftl (be_val part) 8)) c = be_val (part ++ [c])) as ->.
      { assert (2 ^ (8 * Z.of_nat (length part)) <= 2 ^ 56) by (apply Z.pow_le_mono_r; lia). rewrite Z.shiftl_mul_pow2 by lia. rewrite wrapu_id by (unfold in_u; lia). rewrite be_val_snoc. unfold in_u in Hc. rewrite <- Z.shiftl_mul_pow2, Z.lor_comm, lor_shiftl_add by lia. lia. }
      replace (Z.of_nat (length pre) + 1) with (Z.of_nat (length (pre ++ [c]))) by (rewrite length_app; cbn; lia). replace (Z.of_nat (S (length rest)) - 1) with (Z.of_nat (length rest)) by lia.
      replace (pre ++ c :: rest) with ((pre ++ [c]) ++ rest) by (by rewrite <- app_assoc).
      destruct (7 - Z.of_nat (length part) =? 0) eqn:E; [apply Z.eqb_eq in E|apply Z.eqb_neq in E].
      * assert (exists n, nw = S n) as [n ->] by (exists (nw - 1)%nat; lia). replace (Z.of_nat (S n) - 1) with (Z.of_nat n) by lia.
        rewrite set_word_at by (pose proof (room_shift _ _ _ (Z.of_nat n) Hroom ltac:(lia)) as H; eapply room_less; [exact H|lia]). cbn [mbind option_bind].
        assert (room (store_at w (a, Z.of_nat n) [be_val (part ++ [c])]) (a, 0) (Z.of_nat n)) as Hroom'.
        { apply room_store; [pose proof (room_shift _ _ _ (Z.of_nat n) Hroom ltac:(lia)) as H; eapply room_less; [exact H|cbn; lia]|eapply room_less; [exact Hroom|lia]]. }
        destruct (IH _ [] rest (pre ++ [c]) n ltac:(done) Hrest ltac:(cbn; lia) ltac:(cbn; lia) ltac:(lia) Hroom') as (W & EW & HW & Hl & Hv). cbn [length app Z.of_nat] in EW, Hv. rewrite Z.sub_0_r in EW. change (be_val []) with 0 in EW.
        exists (W ++ [be_val (part ++ [c])]). split; [|split; [|split]].
        -- unfold shift. cbn [fst snd]. rewrite Z.add_0_l. unfold BN_BYTES. change (8 - 1) with 7. rewrite EW. f_equal. rewrite <- Hl in *. pose proof (store_before w (a, 0) W [be_val (part ++ [c])]) as H. unfold shift in H. cbn [fst snd] in H. rewrite Z.add_0_l in H. apply H. eapply room_less; [exact Hroom|cbn [length]; lia].
        -- apply words_both. split; [done|]. constructor; [|done]. unfold in_u. replace (length part) with 7%nat in Bpc by lia. exact Bpc.
        -- rewrite length_app, Hl. cbn. lia.
        -- rewrite val_app, Hl, Hv. cbn [val]. change (c :: rest) with ([c] ++ rest). rewrite app_assoc, (be_val_app (part ++ [c]) rest). unfold weight. replace (8 * Z.of_nat (length rest)) with (64 * Z.of_nat n) by lia. cbn [app]. ring.
      * rewrite wrapu_id by (unfold in_u; lia). destruct (IH w (part ++ [c]) rest (pre ++ [c]) nw Hpc Hrest) as (W & EW & HW & Hl & Hv); [rewrite length_app; cbn; lia|rewrite length_app; cbn; lia|lia|done|].
        exists W. rewrite <- app_assoc in Hv. split; [|done]. rewrite <- EW. f_equal. rewrite length_app. cbn. lia.
Qed.

Section BytesSpec.
Context (malloc : Z -> option (list Z)).
Hypothesis malloc_ok : forall n v, malloc n = Some v -> Z.of_nat (length v) = n /\ words v.

(** The words that hold [n] bytes. *)
Definition words_for (n : nat) : nat := Z.to_nat ((Z.of_nat n + 7) / 8).

Lemma bin2bn_spec w r R sr bs : holds w r R sr -> bytes bs -> bs <> [] ->
  result malloc w r R (Z.of_nat (words_for (length bs))) (fun C s => s = 0 /\ length C = words_for (length bs) /\ val C = be_val bs)
    (BN_bin2bn malloc w bs (Z.of_nat (length bs)) r).
Proof.
  intros Hr Hbs Hne. assert (length bs <> 0%nat) as Hlen by (by destruct bs). unfold BN_bin2bn. rewrite (proj2 (Z.eqb_neq _ 0)) by lia. unfold BN_BYTES. set (nw := words_for (length bs)).
  assert ((Z.of_nat (length bs) - 1) / 8 + 1 = Z.of_nat nw) as -> by (unfold nw, words_for; lia).
  destruct (expand_spec malloc malloc_ok w r R sr (Z.of_nat nw) Hr ltac:(lia)) as [(w1 & -> & Hr1 & Hroom & Hsame)|[-> H]]; cbn [mbind option_bind negb].
  2:{ exists false, w, R, sr. split_and!; try done. by exists (Z.of_nat nw). }
  destruct Hr1 as (br & Ebr & _ & _ & Hnr & Hsr & Hwr & Hdr). pose proof Hroom as (b & Eb & _ & _ & Hbr). cbn [fst snd] in *. assert (b = br) as -> by congruence.
  rewrite (proj2 (Z.ltb_ge INT_MAX _)) by (unfold INT_MAX in *; lia). unfold upd. rewrite Ebr. cbn [mbind option_bind]. set (br' := with_neg 0 (with_width (Z.of_nat nw) br)). set (w2 := <[r := br']> w1).
  assert (room w2 (r, 0) (Z.of_nat nw)) as Hroom2 by (apply room_insert; [by exists br|done]). set (part := replicate (8 * nw - length bs) 0).
  assert (length part = 8 * nw - length bs)%nat as Hlp by apply length_replicate. assert (8 * nw - length bs <= 7 /\ length bs <= 8 * nw)%nat as [H1 H2] by (unfold nw, words_for; lia).
  destruct (bin_loop_spec w2 r part bs [] nw (Z.to_nat (Z.of_nat (length bs)))) as (W & E & HW & Hl & Hv); [apply Forall_replicate; unfold in_u; lia|done|lia|lia|lia|done|].
  cbn [app length] in E. change (Z.of_nat 0) with 0 in E. unfold part in E at 2. rewrite be_val_zeros in E. replace ((Z.of_nat (length bs) - 1) mod 8) with (7 - Z.of_nat (length part)) by (rewrite Hlp; unfold nw, words_for; lia).
  rewrite E. cbn [mbind option_bind]. exists true, (store_at w2 (r, 0) W), W, 0. split; [done|]. split; [|split; [|split; [done|split; [done|]]]].
  - apply (holds_store w2 r br'); [unfold w2; by rewrite lookup_insert_eq|exact Hwr|exact Hdr|by left|done|cbn; by rewrite Hl|by rewrite Hl].
  - eapply same_but_trans; [exact Hsame|]. eapply same_but_trans; [apply same_but_insert|apply same_but_store].
  - rewrite Hv, be_val_app. unfold part. rewrite be_val_zeros. lia.
Qed.
End BytesSpec.

(** *** Bytes in memory *)

Lemma length_memory ws : length (memory ws) = (8 * length ws)%nat.
Proof. induction ws as [|x ws IH]; [done|]. change (memory (x :: ws)) with (le_split 8 x ++ memory ws). rewrite length_app, IH, length_le_split. cbn [length]. lia. Qed.

Lemma memory_app a b : memory (a ++ b) = memory a ++ memory b.
Proof. induction a as [|x a IH]; [done|]. change (memory ((x :: a) ++ b)) with (le_split 8 x ++ memory (a ++ b)). rewrite IH. apply app_assoc. Qed.

Lemma memory_bytes ws : bytes (memory ws).
Proof. induction ws as [|x ws IH]; [constructor|]. change (memory (x :: ws)) with (le_split 8 x ++ memory ws). apply Forall_app. split; [apply le_split_bytes|done]. Qed.

Lemma memory_val ws : words ws -> le_combine (memory ws) = val ws.
Proof.
  induction 1 as [|x ws Hx _ IH]; [done|]. change (memory (x :: ws)) with (le_split 8 x ++ memory ws). rewrite le_combine_app, le_combine_split, length_le_split, IH. cbn [val].
  unfold in_u in Hx. by rewrite Z.mod_small.
Qed.

Lemma memory_split ws : words ws -> memory ws = le_split (8 * length ws) (val ws).
Proof. intros Hw. rewrite <- memory_val, <- length_memory by done. symmetry. apply le_split_combine, memory_bytes. Qed.

Lemma le_split_app n m v : le_split (n + m) v = le_split n v ++ le_split m (v / 2 ^ (8 * Z.of_nat n)).
Proof.
  revert v. induction n as [|n IH]; intros v; [by rewrite Z.div_1_r|]. cbn [le_split Nat.add app]. rewrite IH. do 3 f_equal. rewrite pow8_S. by rewrite Z.div_div by lia.
Qed.

Lemma le_split_zeros n : le_split n 0 = replicate n 0.
Proof. induction n as [|n IH]; [done|]. cbn [le_split replicate]. rewrite Zmod_0_l, Zdiv_0_l. by f_equal. Qed.

(** The bytes that are copied and the padding. *)
Lemma le_split_padded ws n : words ws -> val ws < 2 ^ (8 * Z.of_nat n) ->
  le_split n (val ws) = take n (memory ws) ++ replicate (n - 8 * length ws) 0.
Proof.
  intros Hw Hv. pose proof (val_bound _ Hw) as Hb. unfold weight in Hb. rewrite memory_split by done. destruct (decide (n <= 8 * length ws)%nat) as [Hn|Hn].
  - replace (n - 8 * length ws)%nat with 0%nat by lia. cbn [replicate]. rewrite app_nil_r. replace (8 * length ws)%nat with (n + (8 * length ws - n))%nat by lia. rewrite le_split_app. by rewrite take_app_length' by by rewrite length_le_split.
  - rewrite take_ge by (rewrite length_le_split; lia). replace n with (8 * length ws + (n - 8 * length ws))%nat at 1 by lia. rewrite le_split_app, Z.div_small, le_split_zeros; [done|]. by replace (8 * Z.of_nat (8 * length ws)) with (64 * Z.of_nat (length ws)) by lia.
Qed.

Lemma val_le_zero l : bytes l -> (val l = 0 <-> le_combine l = 0).
Proof.
  induction 1 as [|x l Hx Hl IH]; [done|]. cbn [val le_combine]. unfold in_u in Hx. pose proof (le_combine_bound _ Hl) as Hc. assert (words l) as Hw by (eapply Forall_impl; [exact Hl|unfold in_u; lia]). pose proof (val_bound _ Hw). unfold in_u in Hc.
  split; intros H0; [assert (val l = 0 /\ x = 0) as [H1 ->] by lia|assert (le_combine l = 0 /\ x = 0) as [H1 ->] by lia]; apply IH in H1; lia.
Qed.

(** Whether the bytes behind the first [n] are zero. *)
Lemma fits_bytes_spec ws tl n : words ws -> (n < 8 * length ws)%nat ->
  fits_in_bytes (memory (ws ++ tl)) (Z.of_nat (8 * length ws)) (Z.of_nat n) = Some (val ws <? 2 ^ (8 * Z.of_nat n)).
Proof.
  intros Hw Hn. unfold fits_in_bytes. rewrite memory_app. pose proof (rds_prefix (memory ws) (memory tl)) as Hr. pose proof (memory_bytes ws) as Hb. rewrite length_memory in Hr. rewrite <- (length_memory ws) in Hr |- * at 1 2.
  assert (words (memory ws)) as Hmw by (eapply Forall_impl; [exact Hb|unfold in_u; lia]).
  destruct (or_words_range (memory ws ++ memory tl) (memory ws) n (Z.to_nat (Z.of_nat (length (memory ws)) - Z.of_nat n)) 0 Hr ltac:(unfold in_u; lia) Hmw ltac:(lia)) as (m & E & _ & H). rewrite E. cbn [mbind option_bind]. f_equal.
  rewrite val_le_zero in H by (by apply Forall_drop). pose proof (le_combine_app (take n (memory ws)) (drop n (memory ws))) as Ha. rewrite take_drop, memory_val, length_take, length_memory in Ha by done. replace (n `min` (8 * length ws))%nat with n in Ha by lia.
  pose proof (le_combine_bound _ (Forall_take _ n _ Hb)) as B1. pose proof (le_combine_bound _ (Forall_drop _ n _ Hb)) as B2. unfold in_u in B1, B2. rewrite length_take, length_memory in B1. replace (n `min` (8 * length ws))%nat with n in B1 by lia.
  apply Bool.eq_true_iff_eq. rewrite Z.eqb_eq, Z.ltb_lt. assert (0 < 2 ^ (8 * Z.of_nat n)) by lia. split; [intros Hm; apply H in Hm as [_ Hm]; lia|]. intros Hlt. apply H. split; [done|]. nia.
Qed.

(** The array of a BIGNUM: its words and the others. *)
Lemma rds_split {A} (l ws : list A) : rds l 0 (Z.of_nat (length ws)) = Some ws -> exists tl, l = ws ++ tl.
Proof.
  unfold rds. case_bool_decide; [|done]. cbn [Z.to_nat]. rewrite drop_0, Nat2Z.id. intros [= E]. exists (drop (length ws) l). rewrite <- E at 1. by rewrite take_drop.
Qed.

Lemma fits_if ws tl n : words ws ->
  (if Z.of_nat n <? Z.of_nat (8 * length ws) then fits_in_bytes (memory (ws ++ tl)) (Z.of_nat (8 * length ws)) (Z.of_nat n) else Some true) = Some (val ws <? 2 ^ (8 * Z.of_nat n)).
Proof.
  intros Hw. destruct (Z.of_nat n <? Z.of_nat (8 * length ws)) eqn:E; [apply Z.ltb_lt in E|apply Z.ltb_ge in E; f_equal; symmetry; apply Z.ltb_lt]; [by apply fits_bytes_spec; [|lia]|].
  pose proof (val_bound _ Hw) as Hb. unfold weight in Hb. eapply Z.lt_le_trans; [apply Hb|]. apply Z.pow_le_mono_r; lia.
Qed.

Lemma bn2le_padded_spec b ws pre old post : width b = Z.of_nat (length ws) -> rds (d b) 0 (Z.of_nat (length ws)) = Some ws -> words ws -> Z.of_nat (length ws) <= INT_MAX / 256 ->
  BN_bn2le_padded (pre ++ old ++ post) (Z.of_nat (length pre)) (Z.of_nat (length old)) b =
  Some (if val ws <? 2 ^ (8 * Z.of_nat (length old)) then (true, pre ++ le_split (length old) (val ws) ++ post) else (false, pre ++ old ++ post)).
Proof.
  intros Hwd Hr Hw Hl. unfold INT_MAX in Hl. apply rds_split in Hr as [tl Htl]. unfold BN_bn2le_padded. rewrite Hwd, Htl. unfold BN_BYTES. rewrite i32_in by (unfold in_s; lia). cbn [mbind option_bind].
  replace (Z.of_nat (length ws) * 8) with (Z.of_nat (8 * length ws)) by lia. set (n := length old).
  rewrite fits_if by done.
  cbn [mbind option_bind]. destruct (val ws <? _) eqn:Ev; [apply Z.ltb_lt in Ev|done]. cbn [negb]. set (k := (n `min` (8 * length ws))%nat).
  assert ((if Z.of_nat n <? Z.of_nat (8 * length ws) then Z.of_nat n else Z.of_nat (8 * length ws)) = Z.of_nat k) as -> by (destruct (_ <? _) eqn:E; [apply Z.ltb_lt in E|apply Z.ltb_ge in E]; lia).
  assert (length (take n (memory ws)) = k) as Hlk by (rewrite length_take, length_memory; lia).
  assert (rds (memory (ws ++ tl)) 0 (Z.of_nat k) = Some (take n (memory ws))) as ->.
  { rewrite memory_app. replace (memory ws ++ memory tl) with (take n (memory ws) ++ drop n (memory ws) ++ memory tl) by (by rewrite app_assoc, take_drop). rewrite <- Hlk. apply rds_prefix. }
  cbn [mbind option_bind]. rewrite <- (take_drop k old) at 1. rewrite <- app_assoc. rewrite wrs_mid by (done || (rewrite Hlk, length_take; unfold n in *; lia)). cbn [mbind option_bind].
  rewrite (app_assoc pre). rewrite wrs_mid by ((rewrite length_app, Hlk; lia) || (rewrite length_replicate, length_drop; unfold n in *; lia)). cbn [mbind option_bind].
  rewrite (le_split_padded ws n) by done. rewrite <- !app_assoc. by replace (Z.to_nat (Z.of_nat n - Z.of_nat k)) with (n - 8 * length ws)%nat by lia.
Qed.

(** [len] bytes at [p] end where [old] and the bytes that are written end. *)
Lemma reverse_loop_spec p len pre old done_ B rest post fuel : p + len = Z.of_nat (length pre + length old + length done_) -> (length B <= fuel)%nat -> length old = length B ->
  reverse_loop fuel (pre ++ old ++ rev done_ ++ post) (done_ ++ B ++ rest) p len (Z.of_nat (length done_)) (Z.of_nat (length done_ + length B)) = Some (pre ++ rev (done_ ++ B) ++ post).
Proof.
  revert old done_ fuel. induction B as [|x B IH]; intros old done_ fuel Hp Hf Hl.
  - destruct old; [|done]. rewrite app_nil_r. cbn [length]. rewrite Nat.add_0_r. destruct fuel; cbn [reverse_loop]; by rewrite Z.ltb_irrefl.
  - destruct fuel as [|fuel]; [cbn in Hf; lia|]. cbn [reverse_loop]. rewrite (proj2 (Z.ltb_lt _ _)) by (cbn [length]; lia). change ((x :: B) ++ rest) with (x :: B ++ rest). rewrite rd_app. cbn [mbind option_bind].
    destruct old as [|y old _] using rev_ind; [done|]. rewrite length_app in Hl, Hp. cbn [length] in Hl, Hf, Hp. unfold wr.
    replace (pre ++ (old ++ [y]) ++ rev done_ ++ post) with ((pre ++ old) ++ [y] ++ rev done_ ++ post) by (by rewrite <- !app_assoc). rewrite wrs_mid by (done || (rewrite !length_app; cbn [length]; lia)). cbn [mbind option_bind].
    pose proof (IH old (done_ ++ [x]) fuel ltac:(rewrite length_app; cbn [length]; lia) ltac:(lia) ltac:(lia)) as H. rewrite rev_app_distr in H. rewrite !length_app in H. cbn [rev app length] in H |- *. rewrite <- !app_assoc in H |- *. cbn [app] in H |- *.
    replace (Z.of_nat (length done_) + 1) with (Z.of_nat (length done_ + 1)) by lia. replace (length done_ + S (length B))%nat with (length done_ + 1 + length B)%nat by lia. rewrite H. by rewrite <- app_assoc.
Qed.

Lemma bn2bin_padded_spec b ws pre old post : width b = Z.of_nat (length ws) -> rds (d b) 0 (Z.of_nat (length ws)) = Some ws -> words ws -> Z.of_nat (length ws) <= INT_MAX / 256 ->
  BN_bn2bin_padded (pre ++ old ++ post) (Z.of_nat (length pre)) (Z.of_nat (length old)) b =
  Some (if val ws <? 2 ^ (8 * Z.of_nat (length old)) then (true, pre ++ be (length old) (val ws) ++ post) else (false, pre ++ old ++ post)).
Proof.
  intros Hwd Hr Hw Hl. unfold INT_MAX in Hl. apply rds_split in Hr as [tl Htl]. unfold BN_bn2bin_padded. rewrite Hwd, Htl. unfold BN_BYTES. rewrite i32_in by (unfold in_s; lia). cbn [mbind option_bind].
  replace (Z.of_nat (length ws) * 8) with (Z.of_nat (8 * length ws)) by lia. set (n := length old). rewrite fits_if by done.
  cbn [mbind option_bind]. destruct (val ws <? _) eqn:Ev; [apply Z.ltb_lt in Ev|done]. cbn [negb]. set (k := (n `min` (8 * length ws))%nat).
  assert ((if Z.of_nat n <? Z.of_nat (8 * length ws) then Z.of_nat n else Z.of_nat (8 * length ws)) = Z.of_nat k) as -> by (destruct (_ <? _) eqn:E; [apply Z.ltb_lt in E|apply Z.ltb_ge in E]; lia).
  assert (length (take n (memory ws)) = k) as Hlk by (rewrite length_take, length_memory; lia). assert (length (take (n - k) old) = n - k)%nat as Hlt by (rewrite length_take; unfold n in *; lia).
  pose proof (reverse_loop_spec (Z.of_nat (length pre)) (Z.of_nat n) (pre ++ take (n - k) old) (drop (n - k) old) [] (take n (memory ws)) (drop n (memory ws) ++ memory tl) post k ltac:(rewrite length_app, length_drop; cbn [length]; unfold n in *; lia) ltac:(lia) ltac:(rewrite length_drop; unfold n in *; lia)) as H.
  cbn [app rev length] in H. rewrite Nat.add_0_l in H. rewrite (app_assoc (take n _)), take_drop, <- memory_app, Hlk in H. rewrite <- app_assoc, (app_assoc (take (n - k) old)), take_drop in H.
  change (Z.of_nat 0) with 0 in H. rewrite Nat2Z.id, H. cbn [mbind option_bind]. rewrite <- app_assoc. rewrite wrs_mid by (done || (rewrite length_replicate; lia)). cbn [mbind option_bind].
  unfold be. rewrite (le_split_padded ws n) by done. rewrite rev_app_distr, (rev_alt (replicate _ _)), (reverse_replicate _ _ : rev_append _ [] = _), <- app_assoc. by replace (Z.to_nat (Z.of_nat n - Z.of_nat k)) with (n - 8 * length ws)%nat by lia.
Qed.

(** *** Little-endian input *)

Lemma chunks_val m n : (8 * n <= length m)%nat -> val ((fun k => le_combine (take 8 (drop (8 * k) m))) <$> seq 0 n) = le_combine (take (8 * n) m).
Proof.
  induction n as [|n IH]; intros Hl; [done|]. rewrite seq_S, fmap_app, val_app, IH by lia. rewrite length_fmap, length_seq. cbn [fmap list_fmap val]. rewrite Nat.add_0_l, Z.mul_0_r, Z.add_0_r.
  replace (8 * S n)%nat with (8 * n + 8)%nat by lia. rewrite <- take_take_drop, le_combine_app, length_take. replace ((8 * n) `min` length m)%nat with (8 * n)%nat by lia.
  unfold weight. do 2 f_equal. f_equal. lia.
Qed.

Lemma overlay_words bs ws : bytes bs -> words (overlay bs ws).
Proof.
  intros Hb. unfold overlay. apply Forall_fmap, Forall_forall. intros k _. cbn [compose].
  assert (bytes (take 8 (drop (8 * k) (bs ++ drop (length bs) (memory ws))))) as H by (apply Forall_take, Forall_drop, Forall_app; split; [done|apply Forall_drop, memory_bytes]).
  pose proof (le_combine_bound _ H) as Hc. unfold in_u in *. assert (2 ^ (8 * Z.of_nat (length (take 8 (drop (8 * k) (bs ++ drop (length bs) (memory ws)))))) <= 2 ^ 64) by (apply Z.pow_le_mono_r; [lia|]; rewrite length_take; lia). lia.
Qed.

Lemma length_overlay bs ws : length (overlay bs ws) = length ws.
Proof. unfold overlay. by rewrite length_fmap, length_seq. Qed.

(** The bytes end in the word that was cleared. *)
Lemma overlay_val bs A T : (8 * length A < length bs <= 8 * (length A + 1))%nat -> val (take (length A + 1) (overlay bs (A ++ 0 :: T))) = le_combine bs.
Proof.
  intros Hl. unfold overlay. rewrite <- fmap_take, take_seq, length_app. cbn [length]. replace ((length A + 1) `min` (length A + S (length T)))%nat with (length A + 1)%nat by lia.
  assert (drop (length bs) (memory (A ++ 0 :: T)) = replicate (8 * (length A + 1) - length bs) 0 ++ memory T) as ->.
  { rewrite memory_app. change (memory (0 :: T)) with (replicate 8 0 ++ memory T). rewrite drop_app_ge by (rewrite length_memory; lia). rewrite drop_app_le by (rewrite length_memory, length_replicate; lia). rewrite drop_replicate, length_memory. do 2 f_equal. lia. }
  rewrite chunks_val by (rewrite !length_app, length_replicate; lia). rewrite (app_assoc bs). rewrite take_app_length' by (rewrite length_app, length_replicate; lia).
  rewrite le_combine_app, <- le_split_zeros, le_combine_split, Zmod_0_l. lia.
Qed.

Section LittleEndian.
Context (malloc : Z -> option (list Z)).
Hypothesis malloc_ok : forall n v, malloc n = Some v -> Z.of_nat (length v) = n /\ words v.

Lemma le2bn_spec w r R sr bs : holds w r R sr -> bytes bs -> bs <> [] ->
  result malloc w r R (Z.of_nat (words_for (length bs))) (fun C s => s = sr /\ length C = words_for (length bs) /\ val C = le_combine bs)
    (BN_le2bn malloc w bs (Z.of_nat (length bs)) r).
Proof.
  intros Hr Hbs Hne. assert (length bs <> 0%nat) as Hlen by (by destruct bs). unfold BN_le2bn. rewrite (proj2 (Z.eqb_neq _ 0)) by lia. unfold BN_BYTES. set (nw := words_for (length bs)).
  assert ((Z.of_nat (length bs) - 1) / 8 + 1 = Z.of_nat nw) as -> by (unfold nw, words_for; lia).
  destruct (expand_spec malloc malloc_ok w r R sr (Z.of_nat nw) Hr ltac:(lia)) as [(w1 & -> & Hr1 & Hroom & Hsame)|[-> H]]; cbn [mbind option_bind negb].
  2:{ exists false, w, R, sr. split_and!; try done. by exists (Z.of_nat nw). }
  destruct Hr1 as (br & Ebr & _ & _ & Hnr & Hsr & Hwr & Hdr). pose proof Hroom as (b & Eb & _ & _ & Hbr). cbn [fst snd] in *. assert (b = br) as -> by congruence. unfold dmax, INT_MAX in *.
  assert (8 * (nw - 1) < length bs <= 8 * nw)%nat as Hnw by (unfold nw, words_for; lia). rewrite i32_in by (unfold in_s; lia). cbn [mbind option_bind]. unfold upd. rewrite Ebr. cbn [mbind option_bind].
  assert (exists A x T, d br = A ++ x :: T /\ nw = (length A + 1)%nat) as (A & x & T & Ed & En).
  { destruct (lookup_lt_is_Some_2 (d br) (nw - 1) ltac:(lia)) as [x Ex]. exists (take (nw - 1) (d br)), x, (drop (S (nw - 1)) (d br)). split; [by rewrite take_drop_middle|]. rewrite length_take. lia. }
  unfold set_word. cbn [fst snd]. rewrite lookup_insert_eq. cbn [mbind option_bind d with_width]. rewrite Z.add_0_l, Ed. unfold wr.
  rewrite (wrs_mid A [x] T [0]) by (done || lia). cbn [mbind option_bind]. rewrite insert_insert_eq, lookup_insert_eq, rds_all. cbn [mbind option_bind]. unfold dmax. cbn [d with_d]. rewrite Ed, !length_app in Hbr. cbn [length] in Hbr. rewrite !length_app. cbn [length].
  rewrite (proj2 (Z.ltb_ge _ _)) by lia. rewrite insert_insert_eq. cbn [app].
  set (C := overlay bs (A ++ 0 :: T)). assert (length C = length (d br)) as HlC by (unfold C; rewrite length_overlay, Ed, !length_app; done).
  eexists true, _, (take nw C), sr. split; [reflexivity|]. split; [|split; [|split; [done|split]]].
  - eexists. split; [by rewrite lookup_insert_eq|]. cbn. assert (length (take nw C) = nw) as Hlt by (rewrite length_take, HlC, Ed, length_app; cbn [length]; lia).
    split_and!; [by rewrite Hlt| |done|done|by apply overlay_words|unfold dmax; cbn; by rewrite HlC]. rewrite Hlt. apply (rds_take C C nw); [|apply rds_all]. rewrite HlC, Ed, length_app. cbn [length]. lia.
  - eapply same_but_trans; [exact Hsame|apply same_but_insert].
  - rewrite length_take, HlC, Ed, length_app. cbn [length]. lia.
  - unfold C. rewrite En. apply overlay_val. lia.
Qed.
End LittleEndian.

(** ** Shifts *)

Lemma set_words_at w a i v : room w (a, i) (Z.of_nat (length v)) -> set_words w a i v = Some (store_at w (a, i) v).
Proof.
  intros (b & Eb & H1 & _ & H3). cbn [fst snd] in *. unfold dmax in H3. unfold set_words, wrs. rewrite Eb. cbn [mbind option_bind]. rewrite bool_decide_eq_true_2 by lia. cbn [mbind option_bind]. f_equal.
  apply map_eq. intros j. rewrite lookup_store_at. cbn [fst snd]. case_bool_decide as Hj; [subst j; by rewrite lookup_insert_eq, Eb|by rewrite lookup_insert_ne by congruence].
Qed.

(** The words behind those that were written. *)
Lemma set_words_end w r C v n : room w (r, 0) n -> Z.of_nat (length C + length v) <= n -> set_words (store_at w (r, 0) C) r (Z.of_nat (length C)) v = Some (store_at w (r, 0) (C ++ v)).
Proof.
  intros Hr Hn. assert (room w (r, 0) (Z.of_nat (length C))) as HrC by (eapply room_less; [exact Hr|lia]).
  rewrite set_words_at; [|apply room_store; [done|]; pose proof (room_shift _ _ _ (Z.of_nat (length C)) Hr ltac:(lia)) as H; eapply room_less; [exact H|lia]].
  pose proof (store_at_app w (r, 0) C v) as H. unfold shift in H. cbn [fst snd] in H. rewrite Z.add_0_l in H. rewrite H; [done|]. rewrite length_app. eapply room_less; [exact Hr|lia].
Qed.

Definition rshift_g (sb c x y : Z) : Z * Z := (Z.lor (Z.shiftr x sb) (u64 (Z.shiftl y (BN_BITS2 - sb))), c).

Lemma rshift_g_spec sb c x y : 0 < sb < 64 -> in_u 64 x -> in_u 64 y -> (rshift_g sb c x y).1 = x / 2 ^ sb + y mod 2 ^ sb * 2 ^ (64 - sb).
Proof.
  unfold in_u. intros Hs Hx Hy. unfold rshift_g, BN_BITS2. cbn [fst]. rewrite shiftr_div by lia. assert (2 ^ 64 = 2 ^ sb * 2 ^ (64 - sb)) as E by (rewrite <- Z.pow_add_r by lia; f_equal; lia).
  assert (u64 (Z.shiftl y (64 - sb)) = Z.shiftl (y mod 2 ^ sb) (64 - sb)) as ->. { unfold wrapu. rewrite !Z.shiftl_mul_pow2 by lia. rewrite E. by rewrite Z.mul_mod_distr_r by lia. }
  rewrite lor_shiftl_add; [done|lia|]. split; [apply Z.div_pos; lia|]. apply Z.div_lt_upper_bound; lia.
Qed.

Lemma rshift_g_word sb c x y : 0 < sb < 64 -> in_u 64 x -> in_u 64 y -> in_u 64 (rshift_g sb c x y).1.
Proof.
  intros Hs Hx Hy. rewrite rshift_g_spec by done. unfold in_u in *. assert (2 ^ 64 = 2 ^ sb * 2 ^ (64 - sb)) as E by (rewrite <- Z.pow_add_r by lia; f_equal; lia).
  assert (0 <= x / 2 ^ sb < 2 ^ (64 - sb)) by (split; [apply Z.div_pos; lia|apply Z.div_lt_upper_bound; lia]). pose proof (Z.mod_pos_bound y (2 ^ sb) ltac:(lia)). nia.
Qed.

(** The words of [x :: ys], shifted. *)
Lemma run_rshift sb x ys c : 0 < sb < 64 -> in_u 64 x -> words ys ->
  words ((run (rshift_g sb) c (removelast (x :: ys)) ys).1 ++ [Z.shiftr (List.last (x :: ys) 0) sb]) /\
  val ((run (rshift_g sb) c (removelast (x :: ys)) ys).1 ++ [Z.shiftr (List.last (x :: ys) 0) sb]) = val (x :: ys) / 2 ^ sb.
Proof.
  intros Hs. revert x. induction ys as [|y ys IH]; intros x Hx Hys.
  - cbn [removelast run fst app List.last val]. rewrite shiftr_div by lia. rewrite Z.mul_0_r, !Z.add_0_r. split; [|done]. constructor; [|done]. unfold in_u in *. split; [apply Z.div_pos; lia|]. apply Z.div_lt_upper_bound; nia.
  - apply Forall_cons in Hys as [Hy Hys]. destruct (IH y Hy Hys) as [H1 H2]. cbn [removelast]. cbn [removelast] in H1, H2. change (List.last (x :: y :: ys) 0) with (List.last (y :: ys) 0). cbn [run fst app].
    split; [constructor; [by apply rshift_g_word|exact H1]|]. cbn [val]. change (rshift_g sb c x y).2 with c in *. rewrite H2, rshift_g_spec by done. cbn [val].
    assert (2 ^ 64 = 2 ^ sb * 2 ^ (64 - sb)) as E by (rewrite <- Z.pow_add_r by lia; f_equal; lia). set (p := 2 ^ sb) in *. set (q := 2 ^ (64 - sb)) in *. set (v := val ys). assert (0 < p /\ 0 < q) as [Hp Hq] by (unfold p, q; lia).
    rewrite E. clearbody p q v. pose proof (Z.div_mod (y + p * q * v) p ltac:(lia)) as D1. assert ((y + p * q * v) mod p = y mod p) as M by (rewrite <- Z.mul_assoc, (Z.mul_comm p), Z.mod_add; lia). rewrite M in D1.
    apply Z.div_unique with (x mod p); [left; apply Z.mod_pos_bound; lia|]. pose proof (Z.div_mod x p ltac:(lia)). nia.
Qed.

Lemma rshift_loop_steps n fuel w r a sw sb i c : (n <= fuel)%nat ->
  rshift_loop fuel w r a sw sb i (i + Z.of_nat n + 1) = q ← steps (gen_step (rshift_g sb) (r, - sw) (a, 0) (a, 1)) n i (c, w); Some q.2.
Proof.
  revert fuel w i. induction n as [|n IH]; intros fuel w i Hf.
  - destruct fuel; cbn [rshift_loop steps mbind option_bind]; by rewrite (proj2 (Z.ltb_ge _ _)) by lia.
  - destruct fuel as [|fuel]; [lia|]. cbn [rshift_loop steps]. rewrite (proj2 (Z.ltb_lt _ _)) by lia. unfold gen_step at 2. cbn [fst snd]. assert (word w (a, 1) i = word w (a, 0) (i + 1)) as -> by (unfold word; cbn [fst snd]; by replace (1 + i) with (0 + (i + 1)) by lia).
    destruct (word w (a, 0) i); [|done]. destruct (word w (a, 0) (i + 1)); [|done]. cbn [mbind option_bind]. unfold rshift_g at 1. cbn [fst]. unfold set_word. cbn [fst snd]. replace (- sw + i) with (0 + (i - sw)) by lia.
    destruct (w !! r) as [b|]; [|done]. cbn [mbind option_bind]. destruct (wr (d b) _ _); [|done]. cbn [mbind option_bind]. replace (i + Z.of_nat (S n) + 1) with (i + 1 + Z.of_nat n + 1) by lia. apply IH. lia.
Qed.

Lemma words_at_rds w a A n m : words_at w (a, 0) A -> (n + m = length A)%nat -> exists b, w !! a = Some b /\ rds (d b) (Z.of_nat n) (Z.of_nat m) = Some (drop n A).
Proof.
  intros H Hm. apply (words_at_drop _ _ _ n) in H as (b & Eb & H); [|lia]. exists b. split; [done|]. rewrite length_drop in H. cbn [shift fst snd] in H. rewrite Z.add_0_l in H. by replace m with (length A - n)%nat by lia.
Qed.

(** The words from [sw] on, shifted by fewer bits than a word has. *)
Lemma rshift_high w r a A sw sb fuel : words A -> words_at w (a, 0) A -> room w (r, 0) (Z.of_nat (length A)) -> (sw < length A)%nat -> 0 < sb < 64 -> (length A <= fuel)%nat ->
  exists C, (w ← rshift_loop fuel w r a (Z.of_nat sw) sb (Z.of_nat sw) (Z.of_nat (length A)); x ← word w (a, 0) (Z.of_nat (length A) - 1); set_word w (r, 0) (Z.of_nat (length A) - 1 - Z.of_nat sw) (Z.shiftr x sb)) =
    Some (store_at w (r, 0) C) /\ words C /\ length C = (length A - sw)%nat /\ val C = val (drop sw A) / 2 ^ sb.
Proof.
  intros HA Ha Hr Hsw Hs Hf. destruct (lookup_lt_is_Some_2 A sw Hsw) as [x Ex]. pose proof (drop_S A x sw Ex) as Ed. set (ys := drop (S sw) A) in *.
  assert (length ys = length A - S sw)%nat as Hly by apply length_drop. assert (words (x :: ys)) as Hw by (rewrite <- Ed; by apply Forall_drop). apply Forall_cons in Hw as [Hx Hys]. rewrite Ed.
  destruct (run_rshift sb x ys 0 Hs Hx Hys) as [Hcw Hcv]. set (xs := removelast (x :: ys)) in *.
  assert (x :: ys = xs ++ [List.last (x :: ys) 0]) as Esplit by (by apply app_removelast_last). assert (length xs = length ys) as Hlx by (pose proof (f_equal length Esplit) as H; rewrite length_app in H; cbn [length] in H; lia).
  exists ((run (rshift_g sb) 0 xs ys).1 ++ [Z.shiftr (List.last (x :: ys) 0) sb]). assert (length (run (rshift_g sb) 0 xs ys).1 = length ys) as Hlr by (rewrite length_run; lia).
  pose proof (words_at_drop w (a, 0) A sw ltac:(lia) Ha) as Hat. rewrite Ed in Hat. pose proof (words_at_take w (shift (a, 0) (Z.of_nat sw)) (x :: ys) (length xs) ltac:(cbn [length]; lia) Hat) as Hatx. rewrite Esplit in Hatx. rewrite take_app_length in Hatx.
  pose proof (words_at_cons _ _ _ _ Hat) as [_ Haty]. assert (shift (shift (a, 0) (Z.of_nat sw)) 1 = shift (a, 1) (Z.of_nat sw)) as Es by (unfold shift; cbn [fst snd]; f_equal; lia). rewrite Es in Haty. pose proof (rshift_loop_steps (length ys) fuel w r a (Z.of_nat sw) sb (Z.of_nat sw) 0 ltac:(lia)) as E. replace (Z.of_nat sw + Z.of_nat (length ys) + 1) with (Z.of_nat (length A)) in E by lia. rewrite E. clear E.
  assert (shift (r, - Z.of_nat sw) (Z.of_nat sw) = (r, 0)) as Er by (unfold shift; cbn; f_equal; lia). assert (room w (r, 0) (Z.of_nat (length xs))) as Hrx by (eapply room_less; [exact Hr|lia]).
  rewrite <- Hlx at 1. rewrite (gen_steps (rshift_g sb) (r, - Z.of_nat sw) (a, 0) (a, 1) w 0 xs ys); rewrite ?Er; [|lia|exact Hatx|exact Haty|exact Hrx|right; cbn; lia|right; cbn; lia].
  cbn [mbind option_bind snd]. set (z := List.last (x :: ys) 0) in *.
  assert (word (store_at w (r, 0) (run (rshift_g sb) 0 xs ys).1) (a, 0) (Z.of_nat (length A) - 1) = Some z) as ->.
  { pose proof (words_at_drop w (shift (a, 0) (Z.of_nat sw)) (x :: ys) (length xs) ltac:(cbn [length]; lia) Hat) as Hz. rewrite Esplit, drop_app_length, shift_shift in Hz.
    replace (Z.of_nat sw + Z.of_nat (length xs)) with (Z.of_nat (length A) - 1) in Hz by lia. rewrite word_shift. apply (words_at_store w (r, 0) (run (rshift_g sb) 0 xs ys).1) in Hz; [by apply words_at_cons in Hz as [Hz _]|by rewrite Hlr, <- Hlx|right; unfold shift; cbn [fst snd]; lia]. }
  cbn [mbind option_bind]. replace (Z.of_nat (length A) - 1 - Z.of_nat sw) with (Z.of_nat (length (run (rshift_g sb) 0 xs ys).1)) by lia. rewrite (set_word_end w (r, 0) _ _ (Z.of_nat (length A))) by (done || lia).
  split; [done|]. split; [done|]. split; [rewrite length_app; cbn [length]; lia|done].
Qed.

Lemma drop_val A n : words A -> (n <= length A)%nat -> val (drop n A) = val A / weight n.
Proof.
  intros HA Hn. pose proof (val_app (take n A) (drop n A)) as E. rewrite take_drop, length_take in E. replace (n `min` length A)%nat with n in E by lia. pose proof (val_bound _ (Forall_take _ n _ HA)) as Hb. rewrite length_take in Hb. replace (n `min` length A)%nat with n in Hb by lia.
  apply Z.div_unique with (val (take n A)); lia.
Qed.

Lemma rshift_words_spec w r a A n : words A -> words_at w (a, 0) A -> room w (r, 0) (Z.of_nat (length A)) -> 0 <= n ->
  exists C, bn_rshift_words w r a n (Z.of_nat (length A)) = Some (store_at w (r, 0) C) /\ words C /\ length C = length A /\ val C = val A / 2 ^ n.
Proof.
  intros HA Ha Hr Hn. unfold bn_rshift_words, BN_BITS2. cbv zeta. set (sw := Z.to_nat (n / 64)). assert (n / 64 = Z.of_nat sw) as -> by (unfold sw; lia). pose proof (val_bound _ HA) as Hb.
  destruct (Z.of_nat (length A) <=? Z.of_nat sw) eqn:E; [apply Z.leb_le in E|apply Z.leb_gt in E].
  - exists (replicate (length A) 0). rewrite Nat2Z.id, length_replicate, val_zeros. rewrite set_words_at by by rewrite length_replicate. split; [done|]. split; [apply words_zeros|]. split; [done|]. symmetry. apply Z.div_small. split; [lia|].
    eapply Z.lt_le_trans; [apply Hb|]. apply Z.pow_le_mono_r; lia.
  - assert (n = 64 * Z.of_nat sw + n mod 64) as En by lia. assert (0 <= n mod 64 < 64) as Hm by lia. set (sb := n mod 64) in *. clearbody sb.
    assert (exists C, (if sb =? 0 then b ← w !! a; v ← rds (d b) (Z.of_nat sw) (Z.of_nat (length A) - Z.of_nat sw); set_words w r 0 v
      else w ← rshift_loop (Z.to_nat (Z.of_nat (length A))) w r a (Z.of_nat sw) sb (Z.of_nat sw) (Z.of_nat (length A)); x ← word w (a, 0) (Z.of_nat (length A) - 1); set_word w (r, 0) (Z.of_nat (length A) - 1 - Z.of_nat sw) (Z.shiftr x sb)) = Some (store_at w (r, 0) C) /\
      words C /\ length C = (length A - sw)%nat /\ val C = val (drop sw A) / 2 ^ sb) as (C & -> & HC & Hl & Hv).
    { destruct (sb =? 0) eqn:E0; [apply Z.eqb_eq in E0 as ->|apply Z.eqb_neq in E0; apply rshift_high; done || lia]. exists (drop sw A). destruct (words_at_rds w a A sw (length A - sw) Ha ltac:(lia)) as (b & -> & Hrd). cbn [mbind option_bind].
      replace (Z.of_nat (length A) - Z.of_nat sw) with (Z.of_nat (length A - sw)) by lia. rewrite Hrd. cbn [mbind option_bind]. rewrite set_words_at by (rewrite length_drop; eapply room_less; [exact Hr|lia]). split; [done|]. split; [by apply Forall_drop|]. split; [apply length_drop|]. by rewrite Z.div_1_r. }
    cbn [mbind option_bind]. replace (Z.of_nat (length A) - Z.of_nat sw) with (Z.of_nat (length C)) by lia. rewrite (set_words_end w r C _ (Z.of_nat (length A))) by (done || (rewrite length_replicate; lia)). exists (C ++ replicate sw 0).
    split; [done|]. split; [apply words_both; split; [done|apply words_zeros]|]. split; [rewrite length_app, length_replicate; lia|]. rewrite val_app, val_zeros, Hv, drop_val by (done || lia). unfold weight. rewrite Z.mul_0_r, Z.add_0_r, Z.div_div by lia. rewrite <- Z.pow_add_r by lia. by rewrite <- En.
Qed.


Lemma holds_look w a A s : holds w a A s -> exists b, w !! a = Some b /\ width b = Z.of_nat (length A) /\ neg b = s.
Proof. intros (b & Eb & Hw & _ & Hn & _). by exists b. Qed.

Lemma plain_minimal C s : words C -> minimal C -> plain (if bool_decide (C = []) then 0 else s) C.
Proof.
  intros HC Hm. unfold plain. case_bool_decide as E; [done|]. intros _. pose proof (minimal_pos C HC Hm E). pose proof (weight_pos (length C - 1)). lia.
Qed.

Section ShiftSpec.
Context (malloc : Z -> option (list Z)).
Hypothesis malloc_ok : forall n v, malloc n = Some v -> Z.of_nat (length v) = n /\ words v.

Lemma rshift_spec w r a A R sa sr n : holds w a A sa -> holds w r R sr -> 0 <= n ->
  result malloc w r R (Z.of_nat (length A)) (fun C s => signed_val s C = Z.quot (signed_val sa A) (2 ^ n) /\ minimal C /\ plain s C) (BN_rshift malloc w r a n).
Proof.
  intros Ha Hr Hn. pose proof (holds_length _ _ _ _ Ha) as HlA. unfold INT_MAX in HlA. pose proof (holds_words _ _ _ _ Ha) as HwA. destruct (holds_look _ _ _ _ Ha) as (ba & Eba & Hwa & _). unfold BN_rshift, get. rewrite (proj2 (Z.ltb_ge _ _)) by lia. rewrite Eba. cbn [mbind option_bind]. rewrite Hwa.
  rewrite wrapu_id by (unfold in_u; lia). destruct (expand_spec malloc malloc_ok w r R sr (Z.of_nat (length A)) Hr ltac:(lia)) as [(w1 & -> & Hr1 & Hroom & Hsame)|[-> H]]; cbn [mbind option_bind negb].
  2:{ exists false, w, R, sr. split_and!; try done. by exists (Z.of_nat (length A)). }
  pose proof (kept _ _ _ _ _ _ _ _ Hsame Hr Hr1 Ha) as Ha1. destruct (rshift_words_spec w1 r a A n HwA (holds_at _ _ _ _ Ha1) Hroom Hn) as (C & -> & HC & HlC & Hv). cbn [mbind option_bind].
  destruct (holds_look _ _ _ _ Ha1) as (ba1 & Eba1 & Hwa1 & Hna1). destruct Hr1 as (br & Ebr & _ & _ & _ & _ & Hwr & Hdr). rewrite <- HlC in Hroom, Hwa1.
  assert (exists x, store_at w1 (r, 0) C !! a = Some x /\ width x = Z.of_nat (length C) /\ neg x = sa) as (x & -> & Ewx & Enx).
  { rewrite lookup_store_at. case_bool_decide; rewrite Eba1; [|by exists ba1]. eexists. split; [reflexivity|done]. }
  cbn [mbind option_bind]. rewrite Ewx, Enx. destruct (holds_written w1 r br C _ sa Ebr Hwr Hdr HC Hroom (holds_sign _ _ _ _ Ha) eq_refl) as (w2 & -> & HC2 & Hs2). cbn [mbind option_bind].
  destruct (strip_exists C) as (C' & k & -> & Hm). destruct (set_minimal_spec w2 r C' k sa HC2 Hm) as (w3 & -> & HC3 & Hs3). cbn [mbind option_bind]. rewrite val_app, val_zeros, Z.mul_0_r, Z.add_0_r in Hv.
  eexists true, w3, C', _. split; [reflexivity|]. split; [exact HC3|]. split; [by eapply same_but_trans, same_but_trans|]. split; [|split; [done|by apply plain_minimal; [exact (holds_words _ _ _ _ HC3)|]]].
  pose proof (val_bound _ HwA) as Hb. assert (0 < 2 ^ n) by lia. case_bool_decide as He; [subst C'; cbn [val signed_val] in *; unfold signed_val; destruct (sa =? 0)|unfold signed_val; destruct (sa =? 0)]; rewrite ?Z.quot_opp_l, Z.quot_div_nonneg by lia; cbn [Z.eqb val]; lia.
Qed.
End ShiftSpec.

(** *** To the left *)

(** Reading in front of what was written. *)
Lemma word_before w r W a i x : room w r (Z.of_nat (length W)) -> a <> r.1 \/ i < r.2 -> word w (a, 0) i = Some x -> word (store_at w r W) (a, 0) i = Some x.
Proof.
  intros (b & Eb & H1 & _ & H3) Hi. unfold word. cbn [fst snd]. rewrite lookup_store_at. case_bool_decide as Ha; [|done]. subst a. rewrite Eb. cbn [fmap option_fmap option_map mbind option_bind]. cbn [d with_d]. unfold dmax in H3. unfold rd. case_bool_decide as Hp; [|done].
  intros E. unfold splice. apply lookup_lt_Some in E as Hlt. rewrite lookup_app_l by (rewrite length_take; lia). rewrite lookup_take_lt by lia. done.
Qed.

Lemma word_head w r x W : room w r (Z.of_nat (length (x :: W))) -> word (store_at w r (x :: W)) r 0 = Some x.
Proof. intros Hr. by destruct (words_at_cons _ _ _ _ (words_at_self w r (x :: W) Hr)) as [H _]. Qed.

Lemma store_head w r x y W : room w r (Z.of_nat (length (x :: W))) -> store_at (store_at w r (x :: W)) r [y] = store_at w r (y :: W).
Proof.
  intros Hr. change (x :: W) with ([x] ++ W). change (y :: W) with ([y] ++ W). rewrite <- (store_before w r [x] W), <- (store_before w r [y] W) by exact Hr. pose proof (room_shift _ _ _ 1 Hr ltac:(cbn [length]; lia)) as Hs.
  pose proof (store_at_over (store_at w (shift r (Z.of_nat (length [x]))) W) r [] [x] [y]) as H. cbn [app length] in H. change (Z.of_nat 0) with 0 in H. assert (shift r 0 = r) as E0 by (destruct r; unfold shift; cbn; by rewrite Z.add_0_r). rewrite E0 in H. apply H; [|done].
  apply room_store; [eapply room_less; [exact Hs|cbn [length]; lia]|eapply room_less; [exact Hr|cbn [length]; lia]].
Qed.

(** The word [l] and those above it, [t] the lowest of them. *)
Lemma lshift_words lb l t W v : 0 < lb < 64 -> in_u 64 l -> words (t :: W) -> val (t :: W) = 2 ^ lb * v ->
  in_u 64 (Z.lor t (Z.shiftr l (64 - lb))) /\ in_u 64 (u64 (Z.shiftl l lb)) /\ val (u64 (Z.shiftl l lb) :: Z.lor t (Z.shiftr l (64 - lb)) :: W) = 2 ^ lb * (l + 2 ^ 64 * v).
Proof.
  intros Hb Hl Hw Hv. apply Forall_cons in Hw as [Ht Hw]. unfold in_u in *. cbn [val] in *. assert (2 ^ 64 = 2 ^ lb * 2 ^ (64 - lb)) as E by (rewrite <- Z.pow_add_r by lia; f_equal; lia). assert (0 < 2 ^ lb /\ 0 < 2 ^ (64 - lb)) as [Hp Hq] by lia.
  rewrite shiftr_div, Z.shiftl_mul_pow2 by lia. assert (0 <= l / 2 ^ (64 - lb) < 2 ^ lb) as Hd by (split; [apply Z.div_pos; lia|apply Z.div_lt_upper_bound; lia]).
  assert (t = t / 2 ^ lb * 2 ^ lb) as Et. { assert (t = 2 ^ lb * (v - 2 ^ (64 - lb) * val W)) as H by (rewrite E in Hv; lia). rewrite H at 2. rewrite (Z.mul_comm (2 ^ lb) (v - _)), Z.div_mul by lia. lia. }
  assert (Z.lor t (l / 2 ^ (64 - lb)) = t + l / 2 ^ (64 - lb)) as Elor. { rewrite Et at 1. rewrite <- Z.shiftl_mul_pow2, Z.lor_comm, lor_shiftl_add by lia. lia. } rewrite Elor.
  assert (t / 2 ^ lb < 2 ^ (64 - lb)) as Htd by (apply Z.div_lt_upper_bound; lia). split; [nia|]. split; [apply wrapu_range; lia|].
  assert (u64 (l * 2 ^ lb) = l mod 2 ^ (64 - lb) * 2 ^ lb) as ->. { unfold wrapu. rewrite E, (Z.mul_comm (2 ^ lb)). by rewrite Z.mul_mod_distr_r by lia. }
  pose proof (Z.div_mod l (2 ^ (64 - lb)) ltac:(lia)) as Dl. set (q := l / 2 ^ (64 - lb)) in *. set (m := l mod 2 ^ (64 - lb)) in *. set (p := 2 ^ lb) in *. set (p' := 2 ^ (64 - lb)) in *. clearbody q m p p'. rewrite E in *. nia.
Qed.

(** One word: the state behind it is the shifted number so far. *)
Lemma lshift_step w r a o i lb l t W v : 0 <= lb < 64 -> in_u 64 l -> words (t :: W) -> val (t :: W) = 2 ^ lb * v -> room w (r, o) (Z.of_nat (S (length (t :: W)))) -> a <> r \/ i < o + 1 -> word w (a, 0) i = Some l ->
  exists W', (l ← word (store_at w (r, o + 1) (t :: W)) (a, 0) i;
     if lb =? 0 then set_word (store_at w (r, o + 1) (t :: W)) (r, 0) o l
     else t' ← word (store_at w (r, o + 1) (t :: W)) (r, 0) (o + 1);
          w ← set_word (store_at w (r, o + 1) (t :: W)) (r, 0) (o + 1) (Z.lor t' (Z.shiftr l (BN_BITS2 - lb)));
          set_word w (r, 0) o (u64 (Z.shiftl l lb))) = Some (store_at w (r, o) W') /\ words W' /\ length W' = S (length (t :: W)) /\ val W' = 2 ^ lb * (l + 2 ^ 64 * v).
Proof.
  intros Hb Hl Hw Hv Hr Hi Hword. assert (shift (r, o) 1 = (r, o + 1)) as Es by done. pose proof (room_shift _ _ _ 1 Hr ltac:(cbn [length]; lia)) as Hr1. rewrite Es in Hr1.
  assert (room w (r, o + 1) (Z.of_nat (length (t :: W)))) as Hrt by (eapply room_less; [exact Hr1|cbn [length]; lia]). assert (room w (r, o) 1) as Hro by (eapply room_less; [exact Hr|cbn [length]; lia]).
  rewrite (word_before w (r, o + 1) (t :: W) a i l Hrt Hi Hword). cbn [mbind option_bind]. assert (forall k, shift (r, 0) k = (r, k)) as E0 by done.
  assert (forall x V, length V = length (t :: W) -> set_word (store_at w (r, o + 1) V) (r, 0) o x = Some (store_at w (r, o) (x :: V))) as Hset.
  { intros x V HV. rewrite set_word_at by (rewrite E0; apply room_store; [by rewrite HV|done]). f_equal. pose proof (store_before w (r, o) [x] V) as H. apply H. rewrite HV. exact Hr. }
  destruct (lb =? 0) eqn:E; [apply Z.eqb_eq in E as ->|apply Z.eqb_neq in E].
  - exists (l :: t :: W). rewrite Hset by done. split; [done|]. split; [by constructor|]. split; [done|]. change (val (l :: t :: W)) with (l + 2 ^ 64 * val (t :: W)). rewrite Hv. lia.
  - destruct (lshift_words lb l t W v ltac:(lia) Hl Hw Hv) as (H1 & H2 & H3). rewrite (word_shift _ (r, 0) (o + 1)), E0, word_head by done. cbn [mbind option_bind]. unfold BN_BITS2. rewrite set_word_at by (rewrite E0; apply room_store; [done|eapply room_less; [exact Hrt|cbn [length]; lia]]).
    cbn [mbind option_bind]. rewrite E0, store_head by done. rewrite Hset by done. eexists. split; [reflexivity|]. split; [|split; [done|exact H3]]. apply Forall_cons in Hw as [_ Hw]. apply Forall_cons. split; [done|]. by apply Forall_cons.
Qed.

Lemma lshift_loop_spec w r a A nw lb n W fuel : words A -> words_at w (a, 0) A -> 0 <= lb < 64 -> 0 <= nw -> room w (r, 0) (nw + Z.of_nat (length A) + 1) -> (n <= length A)%nat -> (n <= fuel)%nat ->
  words W -> length W = (length A - n + 1)%nat -> val W = 2 ^ lb * val (drop n A) ->
  exists W', lshift_loop fuel (store_at w (r, nw + Z.of_nat n) W) r a nw lb (Z.of_nat n - 1) = Some (store_at w (r, nw) W') /\ words W' /\ length W' = (length A + 1)%nat /\ val W' = 2 ^ lb * val A.
Proof.
  intros HA Ha Hb Hnw Hroom. revert W fuel. induction n as [|n IH]; intros W fuel Hn Hf HW Hl Hv.
  - exists W. rewrite Z.add_0_r. split; [by destruct fuel|]. split; [done|]. split; [lia|done].
  - destruct fuel as [|fuel]; [lia|]. cbn [lshift_loop]. rewrite (proj2 (Z.leb_le _ _)) by lia. replace (Z.of_nat (S n) - 1) with (Z.of_nat n) by lia. replace (nw + Z.of_nat (S n)) with (nw + Z.of_nat n + 1) by lia.
    destruct (lookup_lt_is_Some_2 A n ltac:(lia)) as [l El]. assert (in_u 64 l) as Hlw by (by apply (Forall_lookup_1 _ A n)). destruct W as [|t W]; [cbn in Hl; lia|].
    assert (word w (a, 0) (Z.of_nat n) = Some l) as Hword. { rewrite word_shift. pose proof (words_at_drop w (a, 0) A n ltac:(lia) Ha) as H. rewrite (drop_S A l n El) in H. by apply words_at_cons in H as [H _]. }
    destruct (lshift_step w r a (nw + Z.of_nat n) (Z.of_nat n) lb l t W _ Hb Hlw HW Hv) as (W' & E & HW' & Hl' & Hv').
    { pose proof (room_shift _ _ _ (nw + Z.of_nat n) Hroom ltac:(lia)) as H. unfold shift in H. cbn [fst snd] in H. rewrite Z.add_0_l in H. eapply room_less; [exact H|]. rewrite Hl. lia. }
    { right. lia. }
    { exact Hword. }
    destruct (word (store_at w (r, nw + Z.of_nat n + 1) (t :: W)) (a, 0) (Z.of_nat n)); [|done]. cbn [mbind option_bind] in E |- *. rewrite E. cbn [mbind option_bind]. apply IH; [lia|lia|done|lia|]. rewrite Hv', (drop_S A l n El). done.
Qed.

Lemma holds_widened w r b C n : w !! r = Some b -> words (d b) -> dmax b <= INT_MAX / 256 -> words C -> room w (r, 0) (Z.of_nat (length C)) -> neg b = 0 \/ neg b = 1 -> n = Z.of_nat (length C) ->
  exists w', upd (store_at w (r, 0) C) r (with_width n) = Some w' /\ holds w' r C (neg b) /\ same_but r w w'.
Proof.
  intros Eb Hd Hm HC Hroom Hs Hn. assert (upd (store_at w (r, 0) C) r (with_width n) = upd (store_at w (r, 0) C) r (fun b' => with_width n (with_neg (neg b) b'))) as ->; [|by apply (holds_written w r b)].
  unfold upd. rewrite lookup_store_at, bool_decide_eq_true_2, Eb by done. cbn. by destruct b.
Qed.

Section LeftShift.
Context (malloc : Z -> option (list Z)).
Hypothesis malloc_ok : forall n v, malloc n = Some v -> Z.of_nat (length v) = n /\ words v.

Lemma no_room_sign w r s w' n : upd w r (with_neg s) = Some w' -> no_room malloc w' r n -> no_room malloc w r n.
Proof.
  unfold upd. destruct (w !! r) as [b|] eqn:Eb; [|done]. intros [= <-] (b' & E & H). rewrite lookup_insert_eq in E. injection E as <-. exists b. by split.
Qed.

(** The loop and the words below it, from a state with room. *)
Lemma lshift_all w r a A nw lb : words A -> words_at w (a, 0) A -> 0 <= lb < 64 -> room w (r, 0) (Z.of_nat (nw + length A + 1)) ->
  exists C, (w ← set_word w (r, 0) (Z.of_nat (length A) + Z.of_nat nw) 0; w ← lshift_loop (length A) w r a (Z.of_nat nw) lb (Z.of_nat (length A) - 1); set_words w r 0 (replicate nw 0)) = Some (store_at w (r, 0) C) /\
    words C /\ length C = (nw + length A + 1)%nat /\ val C = val A * 2 ^ (64 * Z.of_nat nw + lb).
Proof.
  intros HA Ha Hb Hroom. pose proof (room_shift _ _ _ (Z.of_nat (nw + length A)) Hroom ltac:(lia)) as Htop. unfold shift in Htop. cbn [fst snd] in Htop.
  rewrite set_word_at by (unfold shift; cbn [fst snd]; replace (Z.of_nat (length A) + Z.of_nat nw) with (Z.of_nat (nw + length A)) by lia; eapply room_less; [exact Htop|lia]). cbn [mbind option_bind]. unfold shift. cbn [fst snd].
  replace (0 + (Z.of_nat (length A) + Z.of_nat nw)) with (Z.of_nat nw + Z.of_nat (length A)) by lia.
  destruct (lshift_loop_spec w r a A (Z.of_nat nw) lb (length A) [0] (length A) HA Ha Hb ltac:(lia)) as (W & -> & HW & Hl & Hv); [eapply room_less; [exact Hroom|lia]|lia|lia|constructor; [unfold in_u; lia|done]|cbn; lia|rewrite drop_ge by lia; cbn [val]; lia|].
  cbn [mbind option_bind]. exists (replicate nw 0 ++ W). assert (room w (r, Z.of_nat nw) (Z.of_nat (length W))) as HrW.
  { pose proof (room_shift _ _ _ (Z.of_nat nw) Hroom ltac:(lia)) as H. unfold shift in H. cbn [fst snd] in H. eapply room_less; [exact H|lia]. }
  rewrite set_words_at by (apply room_store; [done|]; rewrite length_replicate; eapply room_less; [exact Hroom|lia]).
  split; [|split; [apply words_both; split; [apply words_zeros|done]|split; [rewrite length_app, length_replicate; lia|]]].
  - pose proof (store_before w (r, 0) (replicate nw 0) W) as H. rewrite length_replicate in H. unfold shift in H. cbn [fst snd] in H. rewrite Z.add_0_l in H. rewrite H; [done|]. eapply room_less; [exact Hroom|lia].
  - rewrite val_app, val_zeros, length_replicate, Hv. unfold weight. rewrite Z.pow_add_r by lia. ring.
Qed.

Lemma lshift_spec w r a A R sa sr n : holds w a A sa -> holds w r R sr -> 0 <= n <= INT_MAX ->
  result malloc w r R (Z.of_nat (length A) + n / 64 + 1) (fun C s => signed_val s C = signed_val sa A * 2 ^ n /\ minimal C /\ plain s C) (BN_lshift malloc w r a n).
Proof.
  intros Ha Hr Hn. pose proof (holds_length _ _ _ _ Ha) as HlA. unfold INT_MAX in HlA, Hn. pose proof (holds_words _ _ _ _ Ha) as HwA. destruct (holds_look _ _ _ _ Ha) as (ba & Eba & Hwa & Hna). unfold BN_lshift, get. rewrite (proj2 (Z.ltb_ge _ _)) by lia. rewrite Eba. cbn [mbind option_bind]. rewrite Hna.
  destruct (set_neg_spec w r R sr sa Hr (holds_sign _ _ _ _ Ha)) as (w0 & E0 & Hr0 & Hs0). rewrite E0. cbn [mbind option_bind]. unfold BN_BITS2. rewrite Z.quot_div_nonneg, Z.rem_mod_nonneg by lia.
  assert (holds w0 a A sa) as Ha0. { destruct (decide (a = r)) as [->|Hne]; [|by eapply holds_same]. by destruct (holds_fun _ _ _ _ _ _ Hr Ha) as [<- _]. }
  destruct (holds_look _ _ _ _ Ha0) as (ba0 & Eba0 & Hwa0 & _). rewrite Eba0. cbn [mbind option_bind]. rewrite Hwa0. set (nw := Z.to_nat (n / 64)). assert (n / 64 = Z.of_nat nw) as En by (unfold nw; lia). rewrite En.
  rewrite i32_in by (unfold in_s; lia). cbn [mbind option_bind]. rewrite i32_in by (unfold in_s; lia). cbn [mbind option_bind]. rewrite wrapu_id by (unfold in_u; lia).
  destruct (expand_spec malloc malloc_ok w0 r R sa (Z.of_nat (length A) + Z.of_nat nw + 1) Hr0 ltac:(lia)) as [(w1 & -> & Hr1 & Hroom & Hsame)|[-> H]]; cbn [mbind option_bind negb].
  2:{ exists false, w0, R, sa. split_and!; try done. exists (Z.of_nat (length A) + Z.of_nat nw + 1). split; [lia|]. by eapply no_room_sign. }
  pose proof (kept _ _ _ _ _ _ _ _ Hsame Hr0 Hr1 Ha0) as Ha1. assert (room w1 (r, 0) (Z.of_nat (nw + length A + 1))) as Hroom1 by (eapply room_less; [exact Hroom|lia]).
  destruct (lshift_all w1 r a A nw (n mod 64) HwA (holds_at _ _ _ _ Ha1) ltac:(lia) Hroom1) as (C & E & HC & HlC & Hv). rewrite !Nat2Z.id.
  destruct (set_word w1 (r, 0) (Z.of_nat (length A) + Z.of_nat nw) 0) as [w2|]; [|done]. cbn [mbind option_bind] in E |- *. destruct (lshift_loop (length A) w2 r a (Z.of_nat nw) (n mod 64) (Z.of_nat (length A) - 1)) as [w3|]; [|done]. cbn [mbind option_bind] in E |- *. rewrite E. cbn [mbind option_bind].
  destruct (holds_look _ _ _ _ Ha1) as (ba1 & Eba1 & Hwa1 & _). destruct Hr1 as (br & Ebr & _ & _ & Hnr & Hsr & Hwr & Hdr). rewrite <- HlC in Hroom1.
  assert (exists x, store_at w1 (r, 0) C !! a = Some x /\ width x = Z.of_nat (length A)) as (x & -> & Ewx).
  { rewrite lookup_store_at. case_bool_decide; rewrite Eba1; [|by exists ba1]. eexists. split; [reflexivity|done]. }
  cbn [mbind option_bind]. rewrite Ewx. destruct (holds_widened w1 r br C (Z.of_nat (length A) + Z.of_nat nw + 1) Ebr Hwr Hdr HC Hroom1 ltac:(by rewrite Hnr) ltac:(lia)) as (w4 & -> & HC4 & Hs4). cbn [mbind option_bind]. rewrite Hnr in HC4.
  destruct (strip_exists C) as (C' & k & -> & Hm). destruct (set_minimal_spec w4 r C' k sa HC4 Hm) as (w5 & -> & HC5 & Hs5). cbn [mbind option_bind]. rewrite val_app, val_zeros, Z.mul_0_r, Z.add_0_r in Hv.
  eexists true, w5, C', _. split; [reflexivity|]. split; [exact HC5|]. split; [by eapply same_but_trans, same_but_trans, same_but_trans|]. split; [|split; [done|by apply plain_minimal; [exact (holds_words _ _ _ _ HC5)|]]]. replace (64 * Z.of_nat nw + n mod 64) with n in Hv by lia.
  case_bool_decide as He; [subst C'; cbn [val] in Hv|]; unfold signed_val; destruct (sa =? 0); cbn [Z.eqb val]; lia.
Qed.
End LeftShift.

(** ** BIGNUMs and words *)

Lemma store_same w p A : words_at w p A -> store_at w p A = w.
Proof.
  intros (b & Eb & H). apply map_eq. intros i. rewrite lookup_store_at. case_bool_decide as Hi; [|done]. subst i. rewrite Eb. cbn. f_equal. unfold rds in H. case_bool_decide as Hr; [|done]. injection H as H. rewrite Nat2Z.id in H.
  unfold splice. assert (d b = take (Z.to_nat p.2) (d b) ++ A ++ drop (Z.to_nat p.2 + length A) (d b)) as E; [|unfold with_d; rewrite <- E; by destruct b].
  rewrite <- H at 1. rewrite <- drop_drop, !take_drop. done.
Qed.

Lemma word_at_cons w a i x A : words_at w (a, i) (x :: A) -> word w (a, 0) i = Some x /\ words_at w (a, i + 1) A.
Proof. intros H. apply words_at_cons in H as [H1 H2]. split; [|done]. rewrite word_shift. unfold shift. cbn [fst snd]. exact H1. Qed.

Lemma room_of w p A : words_at w p A -> room w p (Z.of_nat (length A)).
Proof. intros (b & Eb & H). exists b. split; [done|]. unfold rds in H. case_bool_decide; [|done]. unfold dmax. lia. Qed.

(** The state after one word was changed. *)
Lemma one_word w a i x y A : words_at w (a, i) (x :: A) ->
  set_word w (a, 0) i y = Some (store_at w (a, i) [y]) /\ words_at (store_at w (a, i) [y]) (a, i + 1) A /\ store_at w (a, i) [y] = store_at w (a, i) (y :: A) /\
  forall V, length V = length A -> store_at (store_at w (a, i) [y]) (a, i + 1) V = store_at w (a, i) (y :: V).
Proof.
  intros H. pose proof (room_of _ _ _ H) as Hr. assert (room w (a, i) 1) as Hr1 by (eapply room_less; [exact Hr|cbn [length]; lia]). apply word_at_cons in H as [_ H].
  assert (words_at (store_at w (a, i) [y]) (a, i + 1) A) as Ht by (apply words_at_store; [done|right; cbn; lia|done]).
  assert (forall V, length V = length A -> store_at (store_at w (a, i) [y]) (a, i + 1) V = store_at w (a, i) (y :: V)) as Hs.
  { intros V HV. pose proof (store_at_app w (a, i) [y] V) as E. apply E. change (room w (a, i) (Z.of_nat (S (length V)))). rewrite HV. exact Hr. }
  split; [|split; [exact Ht|split; [|exact Hs]]].
  - assert (shift (a, 0) i = (a, i)) as E by done. by rewrite set_word_at, E by by rewrite E.
  - rewrite <- (Hs A) by done. symmetry. by apply store_same.
Qed.

Lemma width_store w a p V b : w !! a = Some b -> exists b', store_at w p V !! a = Some b' /\ width b' = width b.
Proof. intros Eb. rewrite lookup_store_at. rewrite Eb. case_bool_decide; by eexists. Qed.

Lemma add_word_loop_spec w a b i A x fuel : words A -> in_u 64 x -> w !! a = Some b -> width b = i + Z.of_nat (length A) -> words_at w (a, i) A -> (length A <= fuel)%nat ->
  exists j c A', add_word_loop fuel w a i x = Some (j, c, store_at w (a, i) A') /\ words A' /\ length A' = length A /\ in_u 64 c /\ val A' + weight (length A) * c = val A + x /\ (c <> 0 -> j = i + Z.of_nat (length A)).
Proof.
  revert w b i x fuel. induction A as [|y A IH]; intros w b i x fuel HA Hx Eb Hw Hat Hf.
  - exists i, x, []. split; [destruct fuel; cbn [add_word_loop]; rewrite Eb; cbn [mbind option_bind]; rewrite Hw, (proj2 (Z.ltb_ge _ _)), andb_false_r, store_nil by (cbn [length]; lia); done|]. split; [done|]. split; [done|]. split; [done|]. cbn [val length]. unfold weight. lia.
  - destruct fuel as [|fuel]; [cbn in Hf; lia|]. cbn [add_word_loop]. rewrite Eb. cbn [mbind option_bind]. destruct (x =? 0) eqn:E; [apply Z.eqb_eq in E as ->|apply Z.eqb_neq in E]; cbn [negb andb].
    + exists i, 0, (y :: A). rewrite store_same by done. split_and!; try done. lia.
    + rewrite Hw, (proj2 (Z.ltb_lt _ _)) by (cbn [length]; lia). destruct (word_at_cons _ _ _ _ _ Hat) as [-> _]. cbn [mbind option_bind]. set (l := u64 (y + x)). destruct (one_word w a i y l A Hat) as (-> & Hat1 & _ & Hs). cbn [mbind option_bind].
      apply Forall_cons in HA as [Hy HA]. destruct (width_store w a (a, i) [l] b Eb) as (b1 & Eb1 & Hw1). assert (in_u 64 (if l <? x then 1 else 0)) as Hc by (unfold in_u; destruct (l <? x); lia).
      destruct (IH _ b1 (i + 1) _ fuel HA Hc Eb1 ltac:(rewrite Hw1, Hw; cbn [length]; lia) Hat1 ltac:(cbn in Hf; lia)) as (j & c & A' & -> & HA' & Hl & Hc' & Hv & Hj).
      exists j, c, (l :: A'). rewrite Hs by done. split; [done|]. assert (in_u 64 l) as Hlu by apply u64_range. split; [by constructor|]. split; [cbn; lia|]. split; [done|]. split; [|intros Hne; rewrite Hj by done; cbn [length]; lia].
      cbn [val length]. rewrite weight_S. assert (l + 2 ^ 64 * (if l <? x then 1 else 0) = y + x) as Hl2; [|lia]. unfold in_u in *. unfold l, wrapu in *. destruct ((y + x) mod 2 ^ 64 <? x) eqn:E2; [apply Z.ltb_lt in E2|apply Z.ltb_ge in E2]; lia.
Qed.

Lemma sub_word_loop_spec w a i A x fuel : words A -> in_u 64 x -> x <= val A -> A <> [] -> words_at w (a, i) A -> (length A <= fuel)%nat ->
  exists j A', sub_word_loop fuel w a i x = Some (j, store_at w (a, i) A') /\ words A' /\ length A' = length A /\ val A' = val A - x /\ i <= j < i + Z.of_nat (length A).
Proof.
  revert w i x fuel. induction A as [|y A IH]; intros w i x fuel HA Hx Hle Hne Hat Hf; [done|]. destruct fuel as [|fuel]; [cbn in Hf; lia|]. cbn [sub_word_loop]. destruct (word_at_cons _ _ _ _ _ Hat) as [-> _]. cbn [mbind option_bind].
  set (l := u64 (y - x)). destruct (one_word w a i y l A Hat) as (-> & Hat1 & Hsame & Hs). cbn [mbind option_bind]. apply Forall_cons in HA as [Hy HA]. assert (in_u 64 l) as Hlu by apply u64_range. unfold in_u in Hy, Hx.
  destruct (x <=? y) eqn:E; [apply Z.leb_le in E|apply Z.leb_gt in E].
  - exists i, (l :: A). rewrite Hsame. split; [done|]. split; [by constructor|]. split; [done|]. cbn [val length]. unfold l. rewrite wrapu_id by (unfold in_u; lia). lia.
  - cbn [val] in Hle. pose proof (val_bound _ HA) as HvA. assert (1 <= val A) as H1 by lia. assert (A <> []) as HneA by (intros ->; cbn in H1; lia).
    destruct (IH _ (i + 1) 1 fuel HA ltac:(unfold in_u; lia) H1 HneA Hat1 ltac:(cbn in Hf; lia)) as (j & A' & -> & HA' & Hl & Hv & Hj). exists j, (l :: A'). rewrite Hs by done. split; [done|]. split; [by constructor|]. split; [cbn; lia|]. cbn [val length]. rewrite Hv.
    unfold l, wrapu in *. split; [|lia]. assert ((y - x) mod 2 ^ 64 = y - x + 2 ^ 64) as -> by (symmetry; apply (Z.mod_unique _ _ (-1)); lia). lia.
Qed.

(** *** What happens to a BIGNUM *)

Lemma holds_update w a A A' s : holds w a A s -> words A' -> length A' = length A -> holds (store_at w (a, 0) A') a A' s.
Proof.
  intros Ha HA' Hl. pose proof (room_of _ _ _ (holds_at _ _ _ _ Ha)) as Hr. destruct Ha as (b & Eb & Hw & _ & <- & Hs & Hws & Hd). apply holds_store; try done; by rewrite Hl.
Qed.

(** One word more. *)
Lemma holds_longer w a A c s : holds w a A s -> in_u 64 c -> room w (a, 0) (Z.of_nat (length A) + 1) ->
  exists w', (w ← upd w a (fun b => with_width (width b + 1) b); set_word w (a, 0) (Z.of_nat (length A)) c) = Some w' /\ holds w' a (A ++ [c]) s /\ same_but a w w'.
Proof.
  intros Ha Hc Hr. pose proof (holds_at _ _ _ _ Ha) as Hat. pose proof (holds_words _ _ _ _ Ha) as HA. destruct Ha as (b & Eb & Hw & _ & <- & Hs & Hws & Hd). unfold upd. rewrite Eb. cbn [mbind option_bind].
  set (b1 := with_width (width b + 1) b). assert (exists b0, w !! a = Some b0 /\ d b1 = d b0) as Hb1 by (by exists b). apply (words_at_insert w a b1 (a, 0) A Hb1) in Hat. apply (room_insert w a b1 _ _ Hb1) in Hr.
  rewrite <- (store_same _ _ _ Hat). rewrite (set_word_end _ (a, 0) A c _ Hr) by lia. eexists. split; [reflexivity|]. split; [|eapply same_but_trans; [apply same_but_insert|apply same_but_store]].
  assert (length (A ++ [c]) = length A + 1)%nat as Hl by (by rewrite length_app). apply (holds_store _ a b1); [by rewrite lookup_insert_eq|done|done|done| |rewrite Hl; cbn; lia|rewrite Hl; eapply room_less; [exact Hr|lia]].
  apply words_both. split; [done|]. by constructor.
Qed.

(** The last words are no longer counted. *)
Lemma holds_shorter w a C T s n : holds w a (C ++ T) s -> n = Z.of_nat (length C) -> exists w', upd w a (with_width n) = Some w' /\ holds w' a C s /\ same_but a w w'.
Proof.
  intros (b & Eb & Hw & Hr & Hn & Hs & Hws & Hd) ->. unfold upd. rewrite Eb. cbn [mbind option_bind]. eexists. split; [reflexivity|]. split; [|apply same_but_insert]. eexists. split; [by rewrite lookup_insert_eq|]. cbn. split_and!; try done.
  apply (rds_take _ _ (length C)) in Hr; [by rewrite take_app_length in Hr|rewrite length_app; lia].
Qed.

Section WordSpec.
Context (malloc : Z -> option (list Z)).
Hypothesis malloc_ok : forall n v, malloc n = Some v -> Z.of_nat (length v) = n /\ words v.

(** What an operation does to the BIGNUM at [a]: [P], or there is no room for
    one more word. *)
Definition changed (w : bns) (a n : Z) (P : list Z -> Z -> Prop) (res : option (bool * bns)) : Prop :=
  exists ok w' C s, res = Some (ok, w') /\ holds w' a C s /\ same_but a w w' /\ if ok : bool then P C s else exists m, m <= n /\ no_room malloc w a m.

Lemma no_room_store w a V n : no_room malloc (store_at w (a, 0) V) a n -> room w (a, 0) (Z.of_nat (length V)) -> no_room malloc w a n.
Proof.
  intros (b & Eb & Hd & H) (b' & Eb' & _ & _ & Hr). cbn [fst snd] in *. rewrite lookup_store_at, bool_decide_eq_true_2, Eb' in Eb by done. cbn in Eb. injection Eb as <-. exists b'. split; [done|]. split; [|exact H]. unfold dmax in *. cbn in Hd. rewrite length_splice in Hd by (cbn; lia). exact Hd.
Qed.

Lemma add_word_abs_spec w a A s x : holds w a A s -> in_u 64 x -> changed w a (Z.of_nat (length A) + 1) (fun C s' => s' = s /\ val C = val A + x) (add_word_abs malloc w a x).
Proof.
  intros Ha Hx. pose proof (holds_at _ _ _ _ Ha) as Hat. pose proof (holds_words _ _ _ _ Ha) as HA. pose proof (holds_length _ _ _ _ Ha) as Hlen. unfold INT_MAX in Hlen. destruct (holds_look _ _ _ _ Ha) as (b & Eb & Hw & _). unfold add_word_abs. rewrite Eb. cbn [mbind option_bind]. rewrite Hw, Nat2Z.id.
  destruct (add_word_loop_spec w a b 0 A x (length A) HA Hx Eb ltac:(lia) Hat ltac:(lia)) as (j & c & A' & -> & HA' & Hl & Hc & Hv & Hj). cbn [mbind option_bind]. pose proof (holds_update _ _ _ _ _ Ha HA' Hl) as Ha'. pose proof (same_but_store a 0 w A') as Hsame.
  destruct (holds_look _ _ _ _ Ha') as (b' & Eb' & Hw' & _). rewrite Eb'. cbn [mbind option_bind]. rewrite Hw', Hl. destruct (c =? 0) eqn:E; [apply Z.eqb_eq in E|apply Z.eqb_neq in E]; cbn [negb andb].
  - exists true, (store_at w (a, 0) A'), A', s. subst c. split_and!; try done. lia.
  - rewrite (Hj E), Z.add_0_l, Z.eqb_refl. rewrite i32_in by (unfold in_s; lia). cbn [mbind option_bind]. rewrite wrapu_id by (unfold in_u; lia).
    destruct (expand_spec malloc malloc_ok _ a A' s (Z.of_nat (length A) + 1) Ha' ltac:(lia)) as [(w1 & -> & Ha1 & Hr1 & Hs1)|[-> Hno]]; cbn [mbind option_bind negb].
    2:{ exists false, (store_at w (a, 0) A'), A', s. split_and!; try done. eexists. split; [reflexivity|]. eapply no_room_store; [exact Hno|]. rewrite Hl. exact (room_of _ _ _ Hat). }
    rewrite <- Hl in Hr1. destruct (holds_longer w1 a A' c s Ha1 Hc Hr1) as (w2 & E2 & Ha2 & Hs2). rewrite <- Hl. destruct (upd w1 a _) as [w1'|]; [|done]. cbn [mbind option_bind] in E2 |- *. rewrite E2. cbn [mbind option_bind].
    exists true, w2, (A' ++ [c]), s. split_and!; try done; [by eapply same_but_trans, same_but_trans|]. rewrite val_app. cbn [val]. rewrite Hl. lia.
Qed.

(** The first word of a number below it, and no other that is not zero. *)
Lemma sub_word_small w a y k s x : holds w a (y :: replicate k 0) s -> in_u 64 x -> y < x ->
  exists w', (y ← word w (a, 0) 0; w ← set_word w (a, 0) 0 (u64 (x - y)); w ← upd w a (with_neg 1); Some (true, w)) = Some (true, w') /\ holds w' a (x - y :: replicate k 0) 1 /\ same_but a w w'.
Proof.
  intros Ha Hx Hlt. pose proof (holds_words _ _ _ _ Ha) as HA. apply Forall_cons in HA as [Hy HA]. unfold in_u in Hx, Hy. pose proof (holds_at _ _ _ _ Ha) as Hat. destruct (word_at_cons _ _ _ _ _ Hat) as [-> _]. cbn [mbind option_bind].
  rewrite wrapu_id by (unfold in_u; lia). destruct (one_word w a 0 y (x - y) _ Hat) as (-> & _ & -> & _). cbn [mbind option_bind].
  assert (holds (store_at w (a, 0) (x - y :: replicate k 0)) a (x - y :: replicate k 0) s) as Ha' by (apply (holds_update _ _ _ _ _ Ha); [constructor; [unfold in_u; lia|done]|done]).
  destruct (set_neg_spec _ a _ s 1 Ha' ltac:(by right)) as (w' & -> & Hw' & Hs'). cbn [mbind option_bind]. exists w'. split; [done|]. split; [done|]. eapply same_but_trans; [apply same_but_store|done].
Qed.

Lemma sub_word_abs_spec w a A x : holds w a A 0 -> in_u 64 x -> val A <> 0 ->
  exists w' C s, sub_word_abs w a x = Some (true, w') /\ holds w' a C s /\ same_but a w w' /\ signed_val s C = val A - x /\ plain s C.
Proof.
  intros Ha Hx Hne. pose proof (holds_words _ _ _ _ Ha) as HA. destruct (strip_exists A) as (A0 & k & E & Hm). pose proof Ha as (b & Eb & Hw & Hr & _). unfold sub_word_abs. rewrite Eb. cbn [mbind option_bind]. rewrite E in Hw, Hr. rewrite (minimal_width_spec b A0 k Hw Hr Hm). rewrite <- E in Hw, Hr.
  assert (A0 <> []) as Hne0 by (intros ->; apply Hne; rewrite E; apply val_zeros). assert (val A = val A0) as Hv by (rewrite E, val_app, val_zeros; lia). assert (A <> []) as HneA by (intros ->; done).
  rewrite E in HA. apply words_both in HA as [HA0 _]. cbn [mbind option_bind]. rewrite Hw, Nat2Z.id. pose proof (holds_at _ _ _ _ Ha) as Hat. pose proof (holds_words _ _ _ _ Ha) as HA.
  assert (exists small : bool, (if Z.of_nat (length A0) =? 1 then y ← word w (a, 0) 0; Some (y <? x) else Some false) = Some small /\ if small then exists y, A = y :: replicate k 0 /\ y < x else x <= val A) as (small & -> & Hsmall).
  { destruct (Z.of_nat (length A0) =? 1) eqn:E1; [apply Z.eqb_eq in E1|apply Z.eqb_neq in E1].
    - destruct A0 as [|y [|]]; cbn in E1; try lia. cbn [app] in E. rewrite E in Hat. destruct (word_at_cons _ _ _ _ _ Hat) as [-> _]. cbn [mbind option_bind]. eexists. split; [reflexivity|]. cbn [val] in Hv. destruct (y <? x) eqn:E2; [apply Z.ltb_lt in E2; by exists y|apply Z.ltb_ge in E2; lia].
    - eexists. split; [reflexivity|]. cbn beta iota. pose proof (minimal_pos A0 HA0 Hm Hne0) as Hp. rewrite Hv. unfold in_u in Hx. eapply Z.le_trans; [|exact Hp]. assert (2 ^ 64 <= weight (length A0 - 1)); [|lia]. apply Z.pow_le_mono_r; [lia|]. destruct A0 as [|? [|]]; [done|cbn [length] in *; lia..]. }
  cbn [mbind option_bind]. destruct small.
  - destruct Hsmall as (y & Ey & Hlt). rewrite Ey in Ha. destruct (sub_word_small w a y k 0 x Ha Hx Hlt) as (w' & Ew & Ha' & Hs'). rewrite Ew. eexists w', _, 1. split; [done|]. split; [exact Ha'|]. split; [done|]. rewrite Ey. unfold signed_val, plain. cbn [Z.eqb val]. rewrite val_zeros. lia.
  - destruct (sub_word_loop_spec w a 0 A x (length A) HA Hx Hsmall HneA Hat ltac:(lia)) as (j & A' & -> & HA' & Hl & Hv' & Hj). cbn [mbind option_bind]. pose proof (holds_update _ _ _ _ _ Ha HA' Hl) as Ha'. pose proof (same_but_store a 0 w A') as Hsame.
    destruct (lookup_lt_is_Some_2 A' (Z.to_nat j) ltac:(lia)) as [y Ey]. pose proof Ha' as (b' & Eb' & Hw' & Hr' & _). assert (word (store_at w (a, 0) A') (a, 0) j = Some y) as ->.
    { unfold word. cbn [fst snd]. rewrite Eb'. cbn [mbind option_bind]. rewrite Z.add_0_l. by rewrite (rd_rds _ A') by (done || lia). }
    cbn [mbind option_bind]. rewrite ?Hw. destruct ((y =? 0) && (j =? Z.of_nat (length A) - 1)) eqn:E1.
    + apply andb_true_iff in E1 as [E1 E2]. apply Z.eqb_eq in E1, E2. subst y. destruct A' as [|z A' _] using rev_ind; [done|]. rewrite length_app in Hl. cbn [length] in Hl. rewrite lookup_app_r in Ey by lia. replace (Z.to_nat j - length A')%nat with 0%nat in Ey by lia. injection Ey as ->.
      assert (upd (store_at w (a, 0) (A' ++ [0])) a (fun b => with_width (width b - 1) b) = upd (store_at w (a, 0) (A' ++ [0])) a (with_width (Z.of_nat (length A')))) as ->.
      { unfold upd. rewrite Eb'. cbn [mbind option_bind]. rewrite Hw', length_app. cbn [length]. do 3 f_equal. lia. }
      destruct (holds_shorter _ a A' [0] 0 _ Ha' eq_refl) as (w2 & -> & Ha2 & Hs2). cbn [mbind option_bind]. exists w2, A', 0. split; [done|]. split; [done|]. split; [by eapply same_but_trans|]. rewrite val_app in Hv'. cbn [val] in Hv'. unfold signed_val, plain. cbn [Z.eqb]. lia.
    + eexists _, A', 0. split; [reflexivity|]. split; [done|]. split; [done|]. unfold signed_val, plain. cbn [Z.eqb]. lia.
Qed.

Lemma set_word_spec w a A s x : holds w a A s -> in_u 64 x -> changed w a 1 (fun C s' => s' = 0 /\ val C = x) (BN_set_word malloc w a x).
Proof.
  intros Ha Hx. unfold BN_set_word. destruct (x =? 0) eqn:E; [apply Z.eqb_eq in E as ->|apply Z.eqb_neq in E].
  - destruct Ha as (b & Eb & Hw & Hr & Hn & Hs & Hws & Hd). unfold BN_zero, upd. rewrite Eb. cbn [mbind option_bind]. eexists true, _, [], 0. split; [reflexivity|]. split; [|split; [apply same_but_insert|done]].
    eexists. split; [by rewrite lookup_insert_eq|]. cbn. split_and!; try done; [|by left]. unfold rds. by rewrite bool_decide_eq_true_2 by lia.
  - destruct (expand_spec malloc malloc_ok w a A s 1 Ha ltac:(lia)) as [(w1 & -> & Ha1 & Hr1 & Hs1)|[-> Hno]]; cbn [mbind option_bind negb]; [|by exists false, w, A, s; split_and!; try done; exists 1].
    destruct (set_neg_spec w1 a A s 0 Ha1 ltac:(by left)) as (w2 & E2 & Ha2 & Hs2). rewrite E2. cbn [mbind option_bind]. assert (room w2 (a, 0) 1) as Hr2.
    { unfold upd in E2. pose proof Hr1 as (b & Eb & _). cbn [fst] in Eb. rewrite Eb in E2. cbn in E2. injection E2 as <-. apply room_insert; [by exists b|done]. }
    rewrite set_word_at by exact Hr2. cbn [mbind option_bind]. change (shift (a, 0) 0) with (a, 0). destruct Ha2 as (b & Eb & _ & _ & Hn & Hs & Hws & Hd).
    assert (words [x]) as Hxw by (by constructor). destruct (holds_widened w2 a b [x] 1 Eb Hws Hd Hxw Hr2 ltac:(rewrite Hn; by left) eq_refl) as (w3 & -> & Ha3 & Hs3). rewrite Hn in Ha3. cbn [mbind option_bind].
    exists true, w3, [x], 0. split; [done|]. split; [done|]. split; [by eapply same_but_trans, same_but_trans|]. cbn [val]. lia.
Qed.

Lemma changed_weaken w a n n' (P Q : list Z -> Z -> Prop) res : n <= n' -> (forall C s, P C s -> Q C s) -> changed w a n P res -> changed w a n' Q res.
Proof.
  intros Hn HPQ (ok & w' & C & s & E & HC & Hs & H). exists ok, w', C, s. split_and!; try done. destruct ok; [by apply HPQ|]. destruct H as (m & Hm & H). exists m. split; [lia|done].
Qed.

Lemma is_zero_at w a A s : holds w a A s -> exists b, w !! a = Some b /\ neg b = s /\ width b = Z.of_nat (length A) /\ BN_is_zero b = Some (bool_decide (val A = 0)).
Proof. intros Ha. pose proof (holds_words _ _ _ _ Ha) as HA. destruct Ha as (b & Eb & Hw & Hr & Hn & _). exists b. split_and!; try done. by apply is_zero_spec. Qed.

(** The sign is turned unless the number is zero. *)
Lemma turn_sign w a C s : holds w a C s -> plain s C ->
  exists w' s', (b ← w !! a; z ← BN_is_zero b; (if z : bool then Some w else upd w a (fun b => with_neg (if neg b =? 0 then 1 else 0) b))) = Some w' /\ holds w' a C s' /\ same_but a w w' /\ signed_val s' C = - signed_val s C /\ plain s' C.
Proof.
  intros Ha Hp. destruct (is_zero_at w a C s Ha) as (b & Eb & Hn & _ & Hz). rewrite Eb. cbn [mbind option_bind]. rewrite Hz. cbn [mbind option_bind]. case_bool_decide as H0.
  - exists w, s. split; [done|]. split; [done|]. split; [done|]. split; [|done]. unfold signed_val. rewrite H0. by destruct (s =? 0).
  - assert (upd w a (fun b => with_neg (if neg b =? 0 then 1 else 0) b) = upd w a (with_neg (if s =? 0 then 1 else 0))) as -> by (unfold upd; rewrite Eb; cbn [mbind option_bind]; by rewrite Hn).
    destruct (holds_sign _ _ _ _ Ha) as [-> | ->]; cbn [Z.eqb]; [destruct (set_neg_spec w a C 0 1 Ha ltac:(by right)) as (w' & -> & Hw' & Hs')|destruct (set_neg_spec w a C 1 0 Ha ltac:(by left)) as (w' & -> & Hw' & Hs')]; eexists w', _; (split; [done|]); (split; [exact Hw'|]); (split; [done|]); unfold signed_val, plain; cbn [Z.eqb]; lia.
Qed.

(** The sign is given after an operation on the magnitude. *)
Lemma changed_sign w a n v s res : changed w a n (fun C _ => val C = v) res -> s = 0 \/ s = 1 ->
  changed w a n (fun C s' => s' = s /\ val C = v) (q ← res; w ← upd q.2 a (with_neg s); Some (q.1, w)).
Proof.
  intros (ok & w' & C & s0 & -> & HC & Hs & H) Hss. cbn [mbind option_bind fst snd]. destruct (set_neg_spec w' a C s0 s HC Hss) as (w2 & -> & HC2 & Hs2). cbn [mbind option_bind]. exists ok, w2, C, s. split_and!; try done; [by eapply same_but_trans|]. by destruct ok.
Qed.

Lemma changed_before w0 w a n P res : same_but a w0 w -> (exists s', upd w0 a (with_neg s') = Some w) -> changed w a n P res -> changed w0 a n P res.
Proof.
  intros Hs (s' & E) (ok & w' & C & s0 & -> & HC & Hs' & H). exists ok, w', C, s0. split_and!; try done; [by eapply same_but_trans|]. destruct ok; [done|]. destruct H as (m & Hm & H). exists m. split; [done|]. by eapply (no_room_sign malloc).
Qed.

Lemma bn_add_word_spec w a A s x : holds w a A s -> in_u 64 x -> plain s A ->
  changed w a (Z.of_nat (length A) + 1) (fun C s' => signed_val s' C = signed_val s A + x /\ plain s' C) (BN_add_word malloc w a x).
Proof.
  intros Ha Hx Hp. pose proof (val_bound _ (holds_words _ _ _ _ Ha)) as Hb. unfold in_u in Hx. unfold BN_add_word. destruct (x =? 0) eqn:E; [apply Z.eqb_eq in E as ->; exists true, w, A, s; split_and!; try done; lia|apply Z.eqb_neq in E].
  destruct (is_zero_at w a A s Ha) as (b & Eb & Hn & _ & Hz). rewrite Eb. cbn [mbind option_bind]. rewrite Hz. cbn [mbind option_bind]. rewrite Hn. case_bool_decide as H0.
  - eapply changed_weaken; [| |exact (set_word_spec w a A s x Ha Hx)]; [lia|]. intros C s' [-> Hv]. unfold signed_val, plain in *. rewrite H0, Hv. destruct (holds_sign _ _ _ _ Ha) as [-> | ->]; cbn [Z.eqb]; lia.
  - destruct (holds_sign _ _ _ _ Ha) as [-> | ->]; cbn [Z.eqb negb].
    + eapply changed_weaken; [reflexivity| |exact (add_word_abs_spec w a A 0 x Ha Hx)]. intros C s' [-> Hv]. unfold signed_val, plain. cbn [Z.eqb]. lia.
    + destruct (set_neg_spec w a A 1 0 Ha ltac:(by left)) as (w1 & -> & Ha1 & Hs1). cbn [mbind option_bind]. destruct (sub_word_abs_spec w1 a A x Ha1 Hx H0) as (w2 & C & s & -> & HC & Hs2 & Hv & HpC). cbn [mbind option_bind fst snd].
      destruct (turn_sign w2 a C s HC HpC) as (w3 & s3 & E3 & HC3 & Hs3 & Hv3 & Hp3). destruct (w2 !! a) as [b2|]; [|done]. cbn [mbind option_bind] in E3 |- *. destruct (BN_is_zero b2) as [z|]; [|done]. cbn [mbind option_bind] in E3 |- *. rewrite E3. cbn [mbind option_bind].
      exists true, w3, C, s3. split_and!; try done; [by eapply same_but_trans, same_but_trans|]. rewrite Hv3, Hv. unfold signed_val. cbn [Z.eqb]. lia.
Qed.

Lemma bn_sub_word_spec w a A s x : holds w a A s -> in_u 64 x -> plain s A ->
  changed w a (Z.of_nat (length A) + 1) (fun C s' => signed_val s' C = signed_val s A - x /\ plain s' C) (BN_sub_word malloc w a x).
Proof.
  intros Ha Hx Hp. pose proof (val_bound _ (holds_words _ _ _ _ Ha)) as Hb. unfold in_u in Hx. unfold BN_sub_word. destruct (x =? 0) eqn:E; [apply Z.eqb_eq in E as ->; exists true, w, A, s; split_and!; try done; lia|apply Z.eqb_neq in E].
  destruct (is_zero_at w a A s Ha) as (b & Eb & Hn & _ & Hz). rewrite Eb. cbn [mbind option_bind]. rewrite Hz. cbn [mbind option_bind]. rewrite Hn. case_bool_decide as H0.
  - destruct (set_word_spec w a A s x Ha Hx) as (ok & w1 & C & s1 & -> & HC & Hs & H). cbn [mbind option_bind]. destruct ok; [|exists false, w1, C, s1; split_and!; try done; destruct H as (m & Hm & H); exists m; split; [lia|done]]. destruct H as [-> Hv].
    unfold BN_set_negative. destruct (is_zero_at w1 a C 0 HC) as (b1 & Eb1 & _ & _ & Hz1). rewrite Eb1. cbn [mbind option_bind Z.eqb negb]. rewrite Hz1. cbn [mbind option_bind]. rewrite bool_decide_eq_false_2 by lia.
    destruct (set_neg_spec w1 a C 0 1 HC ltac:(by right)) as (w2 & -> & HC2 & Hs2). cbn [mbind option_bind]. exists true, w2, C, 1. split_and!; try done; [by eapply same_but_trans| |unfold plain; lia]. unfold signed_val. rewrite H0, Hv. cbn [Z.eqb]. destruct (s =? 0); lia.
  - destruct (holds_sign _ _ _ _ Ha) as [-> | ->]; cbn [Z.eqb negb].
    + destruct (sub_word_abs_spec w a A x Ha Hx H0) as (w2 & C & s & -> & HC & Hs2 & Hv & HpC). exists true, w2, C, s. by split_and!.
    + destruct (set_neg_spec w a A 1 0 Ha ltac:(by left)) as (w1 & E1 & Ha1 & Hs1). rewrite E1. cbn [mbind option_bind]. apply (changed_before w w1 a _ _ _ Hs1 ltac:(by exists 0)).
      eapply changed_weaken; [reflexivity| |apply (changed_sign w1 a _ (val A + x) 1); [|by right]]; [|eapply changed_weaken; [reflexivity| |exact (add_word_abs_spec w1 a A 0 x Ha1 Hx)]; by intros C s' [_ Hv]].
      intros C s' [-> Hv]. unfold signed_val, plain. cbn [Z.eqb]. lia.
Qed.

Lemma bn_mul_word_spec w a A s x : holds w a A s -> in_u 64 x -> plain s A ->
  changed w a (Z.of_nat (length A) + 1) (fun C s' => signed_val s' C = signed_val s A * x /\ plain s' C) (BN_mul_word malloc w a x).
Proof.
  intros Ha Hx Hp. pose proof (holds_words _ _ _ _ Ha) as HA. pose proof (holds_length _ _ _ _ Ha) as Hlen. unfold INT_MAX in Hlen. destruct (holds_look _ _ _ _ Ha) as (b & Eb & Hw & _). unfold BN_mul_word. rewrite Eb. cbn [mbind option_bind]. rewrite Hw.
  destruct (Z.of_nat (length A) =? 0) eqn:E1; [apply Z.eqb_eq in E1; destruct A; [|done]; exists true, w, [], s; split_and!; try done; unfold signed_val; by destruct (s =? 0)|apply Z.eqb_neq in E1].
  destruct (x =? 0) eqn:E2; [apply Z.eqb_eq in E2 as ->|apply Z.eqb_neq in E2].
  { destruct (set_word_spec w a A s 0 Ha ltac:(unfold in_u; lia)) as (ok & w1 & C & s1 & E & HC & Hs & H). unfold BN_set_word in E. cbn [Z.eqb] in E. destruct (BN_zero w a) as [w0|]; [|done]. cbn [mbind option_bind] in E |- *. injection E as <- <-. destruct H as [-> Hv].
    exists true, w0, C, 0. split_and!; try done. unfold signed_val at 1. cbn [Z.eqb]. lia. }
  rewrite wrapu_id by (unfold in_u; lia). pose proof (holds_at _ _ _ _ Ha) as Hat. destruct (mul_words_spec w (a, 0) (a, 0) A x HA Hx ltac:(lia) Hat (room_of _ _ _ Hat) ltac:(by right)) as (c & V & -> & HV & Hl & Hc & Hv). cbn [mbind option_bind].
  pose proof (holds_update _ _ _ _ _ Ha HV Hl) as Ha'. pose proof (same_but_store a 0 w V) as Hsame. pose proof (val_bound _ HA) as BA. pose proof (val_bound _ HV) as BV. unfold in_u in Hx, Hc.
  assert (forall C, val C = val A * x -> signed_val s C = signed_val s A * x /\ plain s C) as Hdone by (intros C HvC; unfold signed_val, plain in *; destruct (s =? 0) eqn:Es; [apply Z.eqb_eq in Es; lia|split; [lia|intros H1; specialize (Hp H1); nia]]).
  destruct (c =? 0) eqn:E3; [apply Z.eqb_eq in E3 as ->|apply Z.eqb_neq in E3]; cbn [negb].
  - exists true, (store_at w (a, 0) V), V, s. split_and!; try done; apply Hdone; lia.
  - rewrite i32_in by (unfold in_s; lia). cbn [mbind option_bind]. rewrite wrapu_id by (unfold in_u; lia).
    destruct (expand_spec malloc malloc_ok _ a V s (Z.of_nat (length A) + 1) Ha' ltac:(lia)) as [(w1 & -> & Ha1 & Hr1 & Hs1)|[-> Hno]]; cbn [mbind option_bind negb].
    2:{ exists false, (store_at w (a, 0) V), V, s. split_and!; try done. eexists. split; [reflexivity|]. eapply no_room_store; [exact Hno|]. rewrite Hl. exact (room_of _ _ _ Hat). }
    rewrite <- Hl in Hr1 |- *. assert (word_set : set_word w1 (a, 0) (Z.of_nat (length V)) c = Some (store_at w1 (a, 0) (V ++ [c]))).
    { rewrite <- (store_same _ _ _ (holds_at _ _ _ _ Ha1)) at 1. by apply (set_word_end _ _ _ _ (Z.of_nat (length V) + 1)). }
    rewrite word_set. cbn [mbind option_bind]. destruct Ha1 as (b1 & Eb1 & Hw1 & _ & Hn1 & Hsg & Hws & Hd).
    assert (upd (store_at w1 (a, 0) (V ++ [c])) a (fun b => with_width (width b + 1) b) = upd (store_at w1 (a, 0) (V ++ [c])) a (with_width (Z.of_nat (length V) + 1))) as ->.
    { unfold upd. rewrite lookup_store_at, bool_decide_eq_true_2, Eb1 by done. cbn [fmap option_fmap option_map mbind option_bind]. cbn [with_d width]. by rewrite Hw1. }
    destruct (holds_widened w1 a b1 (V ++ [c]) (Z.of_nat (length V) + 1) Eb1 Hws Hd) as (w2 & -> & Ha2 & Hs2); [apply words_both; split; [done|by constructor]|rewrite length_app; cbn [length]; eapply room_less; [exact Hr1|lia]|by rewrite Hn1|rewrite length_app; cbn [length]; lia|].
    cbn [mbind option_bind]. rewrite Hn1 in Ha2. exists true, w2, (V ++ [c]), s. split_and!; try done; [by eapply same_but_trans, same_but_trans|..]; apply Hdone; rewrite val_app; cbn [val]; rewrite Hl; lia.
Qed.
End WordSpec.

(** *** Order and equality *)

Lemma bn_cmp_spec w a b A B sa sb : holds w a A sa -> holds w b B sb -> plain sa A -> plain sb B -> BN_cmp (w !! a) (w !! b) = Some (Z.sgn (signed_val sa A - signed_val sb B)).
Proof.
  intros Ha Hb Pa Pb. pose proof (val_bound _ (holds_words _ _ _ _ Ha)) as BA. pose proof (val_bound _ (holds_words _ _ _ _ Hb)) as BB. destruct (ucmp_spec w a b A B sa sb Ha Hb) as (x & y & Ex & Ey & Hx & Hy & E).
  rewrite Ex, Ey. unfold BN_cmp. rewrite Hx, Hy, E. cbn [mbind option_bind]. unfold plain in *. unfold signed_val.
  destruct (holds_sign _ _ _ _ Ha) as [-> | ->]; destruct (holds_sign _ _ _ _ Hb) as [-> | ->]; cbn [Z.eqb negb]; try specialize (Pa eq_refl); try specialize (Pb eq_refl); f_equal; lia.
Qed.

Lemma differ_loop_spec a b xs ys i m fuel : rds a i (Z.of_nat (length xs)) = Some xs -> rds b i (Z.of_nat (length ys)) = Some ys -> length ys = length xs -> words xs -> words ys -> 0 <= m -> (length xs <= fuel)%nat ->
  exists m', differ_loop fuel a b i (i + Z.of_nat (length xs)) m = Some m' /\ 0 <= m' /\ (m' = 0 <-> m = 0 /\ xs = ys).
Proof.
  revert ys i m fuel. induction xs as [|x xs IH]; intros [|y ys] i m fuel Ha Hb Hl Hx Hy Hm Hf; try done.
  - exists m. cbn [length]. rewrite Z.add_0_r. split; [destruct fuel; cbn [differ_loop]; by rewrite Z.ltb_irrefl|]. split; [done|]. tauto.
  - apply Forall_cons in Hx as [Hx Hxs]. apply Forall_cons in Hy as [Hy Hys]. apply rds_cons in Ha as [Ex Ha]. apply rds_cons in Hb as [Ey Hb]. cbn [length] in Hf |- *. destruct fuel as [|fuel]; [lia|]. cbn [differ_loop].
    rewrite (proj2 (Z.ltb_lt i _)) by lia. rewrite Ex, Ey. cbn [mbind option_bind]. replace (i + Z.of_nat (S (length xs))) with (i + 1 + Z.of_nat (length xs)) by lia. pose proof (lxor_u64 x y Hx Hy) as Hxor. unfold in_u in Hxor.
    assert (0 <= Z.lor m (Z.lxor x y)) as Hp by (apply Z.lor_nonneg; lia). destruct (IH ys (i + 1) (Z.lor m (Z.lxor x y)) fuel Ha Hb ltac:(cbn in Hl; lia) Hxs Hys Hp ltac:(lia)) as (m' & E & Hm' & H).
    exists m'. split; [done|]. split; [done|]. rewrite H, Z.lor_eq_0_iff, Z.lxor_eq_0_iff. split; [by intros [[-> ->] ->]|intros [-> [= -> ->]]; by split_and!].
Qed.

Lemma val_inj A B : words A -> words B -> length A = length B -> val A = val B -> A = B.
Proof.
  intros HA. revert B. induction HA as [|x A Hx HA IH]; intros [|y B] HB Hl Hv; try done. apply Forall_cons in HB as [Hy HB]. cbn [val length] in *. unfold in_u in *. assert (x = y /\ val A = val B) as [-> E] by lia. f_equal. apply IH; [done|lia|done].
Qed.

(** Without the words that only one of them has. *)
Lemma val_common A B : words A -> words B -> let n := (length A `min` length B)%nat in val A = val B <-> val (drop (length A) B) = 0 /\ val (drop (length B) A) = 0 /\ take n A = take n B.
Proof.
  intros HA HB n. assert (forall X, words X -> (n <= length X)%nat -> val X = val (take n X) + weight n * val (drop n X) /\ 0 <= val (take n X) < weight n /\ 0 <= val (drop n X) /\ length (take n X) = n) as Hx.
  { intros X HX Hn. pose proof (val_app (take n X) (drop n X)) as E. pose proof (val_bound _ (Forall_take _ n _ HX)) as H1. pose proof (val_bound _ (Forall_drop _ n _ HX)) as H2. rewrite take_drop in E. rewrite length_take in *. replace (n `min` length X)%nat with n in * by lia. split_and!; done || lia. }
  destruct (Hx A HA ltac:(lia)) as (EA & BA & DA & LA). destruct (Hx B HB ltac:(lia)) as (EB & BB & DB & LB). assert (drop (length A) B = drop n B /\ drop (length B) A = drop n A) as [-> ->].
  { destruct (decide (length A <= length B)%nat); [replace n with (length A) by lia; split; [done|]; by rewrite !drop_ge by lia|replace n with (length B) by lia; split; [|done]; by rewrite !drop_ge by lia]. }
  assert (val (drop n A) = 0 \/ val (drop n B) = 0) as H0 by (destruct (decide (length A <= length B)%nat); [left|right]; by rewrite drop_ge by lia).
  split; [|intros (H1 & H2 & H3); rewrite EA, EB, H1, H2, H3; lia]. intros E. assert (val (drop n B) = 0 /\ val (drop n A) = 0) as [E1 E2] by nia. split; [done|]. split; [done|]. apply val_inj; [by apply Forall_take|by apply Forall_take|lia|nia].
Qed.

Lemma equal_spec w a b A B sa sb : holds w a A sa -> holds w b B sb -> plain sa A -> plain sb B ->
  exists x y, w !! a = Some x /\ w !! b = Some y /\ BN_equal_consttime x y = Some (signed_val sa A =? signed_val sb B).
Proof.
  intros Ha Hb Pa Pb. pose proof (holds_words _ _ _ _ Ha) as HA. pose proof (holds_words _ _ _ _ Hb) as HB. pose proof (holds_sign _ _ _ _ Ha) as Sa. pose proof (holds_sign _ _ _ _ Hb) as Sb.
  destruct Ha as (x & Ex & Hwx & Hrx & Hnx & _), Hb as (y & Ey & Hwy & Hry & Hny & _). exists x, y. split; [done|]. split; [done|]. unfold BN_equal_consttime. rewrite Hwx, Hwy.
  destruct (or_loop_spec y B (length A) (Z.to_nat (Z.of_nat (length B) - Z.of_nat (length A))) 0 Hry ltac:(lia) HB ltac:(lia)) as (m1 & -> & H1 & E1). cbn [mbind option_bind].
  destruct (or_loop_spec x A (length B) (Z.to_nat (Z.of_nat (length A) - Z.of_nat (length B))) m1 Hrx H1 HA ltac:(lia)) as (m2 & -> & H2 & E2). cbn [mbind option_bind].
  set (n := (length A `min` length B)%nat). assert ((if Z.of_nat (length A) <? Z.of_nat (length B) then Z.of_nat (length A) else Z.of_nat (length B)) = Z.of_nat n) as -> by (destruct (_ <? _) eqn:E; [apply Z.ltb_lt in E|apply Z.ltb_ge in E]; lia).
  assert (length (take n A) = n /\ length (take n B) = n) as [HlA HlB] by (rewrite !length_take; lia).
  destruct (differ_loop_spec (d x) (d y) (take n A) (take n B) 0 m2 n) as (m3 & E & H3 & E3); [rewrite HlA; apply rds_take; [lia|done]|rewrite HlB; apply rds_take; [lia|done]|lia|by apply Forall_take|by apply Forall_take|done|lia|].
  rewrite HlA, Z.add_0_l in E. rewrite Nat2Z.id, E. cbn [mbind option_bind]. f_equal. rewrite Hnx, Hny. pose proof (val_common A B HA HB) as Hc. cbv zeta in Hc. fold n in Hc. pose proof (val_bound _ HA) as BA. pose proof (val_bound _ HB) as BB.
  assert (m3 = 0 <-> val A = val B) as Hm3 by (rewrite E3, E2, E1, Hc; tauto). clear E1 E2 E3 Hc.
  apply Bool.eq_true_iff_eq. rewrite !Z.eqb_eq, Z.lor_eq_0_iff. unfold plain in *. unfold signed_val. destruct Sa as [-> | ->], Sb as [-> | ->]; cbn [Z.eqb]; try specialize (Pa eq_refl); try specialize (Pb eq_refl);
    [change (u64 (Z.lxor 0 0)) with 0|change (u64 (Z.lxor 0 1)) with 1|change (u64 (Z.lxor 1 0)) with 1|change (u64 (Z.lxor 1 1)) with 0]; rewrite Hm3; lia.
Qed.
