(* ===== verification/Asn1String.v ===== *)
(** * BoringSSL: ASN.1 strings ([asn1_lib.c], [a_bitstr.c])

    An [ASN1_STRING] has a length, a type, flags and a heap object for its
    contents, which may be larger than the length.  A pointer to an object is
    an option: [None] is NULL.  [malloc n] is the object of [n] bytes that
    [OPENSSL_malloc] returns, with any contents, or NULL.  A function returns
    [None] where its behaviour is undefined. *)
From S2P Require Import Prelude CBuf.

Definition V_ASN1_INTEGER := 2.
Definition V_ASN1_BIT_STRING := 3.
Definition V_ASN1_OCTET_STRING := 4.
Definition V_ASN1_ENUMERATED := 10.
Definition V_ASN1_UTCTIME := 23.
Definition V_ASN1_GENERALIZEDTIME := 24.
Definition V_ASN1_NEG := 0x100.
Definition V_ASN1_NEG_INTEGER := Z.lor V_ASN1_INTEGER V_ASN1_NEG.
Definition V_ASN1_NEG_ENUMERATED := Z.lor V_ASN1_ENUMERATED V_ASN1_NEG.
Definition ASN1_STRING_FLAG_BITS_LEFT := 0x08.

Record asn1_string : Type := mk_string {
  slen : Z;
  stype : Z;
  sdata : option (list Z);
  sflags : Z }.

Definition set_len (l : Z) (s : asn1_string) := mk_string l (stype s) (sdata s) (sflags s).
Definition set_type (t : Z) (s : asn1_string) := mk_string (slen s) t (sdata s) (sflags s).
Definition set_data (d : option (list Z)) (s : asn1_string) := mk_string (slen s) (stype s) d (sflags s).
Definition set_flags (f : Z) (s : asn1_string) := mk_string (slen s) (stype s) (sdata s) f.

Section Strings.
Variable malloc : Z -> option (list Z).

(** [OPENSSL_realloc] copies what fits into a new object. *)
Definition OPENSSL_realloc (orig : option (list Z)) (new_size : Z) : option (list Z) :=
  match orig with
  | None => malloc new_size
  | Some old =>
      ret ← malloc new_size;
      let to_copy := take (Z.to_nat new_size) old in
      Some (to_copy ++ drop (length to_copy) ret)
  end.

(** A pointer to the characters [data], of which the caller may have fewer
    than [len].  The result is the return value and the string. *)
Definition ASN1_STRING_set (str : asn1_string) (data : option (list Z)) (len : Z) : option (bool * asn1_string) :=
  let put (len : Z) :=
    let store (str : asn1_string) :=
      let str := set_len len str in
      match data with
      | None => Some (true, str)
      | Some d =>
          v ← rds d 0 len;
          buf ← sdata str;
          buf ← wrs buf 0 v;
          buf ← wr buf len 0;
          Some (true, set_data (Some buf) str)
      end in
    if (slen str <=? len) || bool_decide (sdata str = None) then
      n ← i32 (len + 1);
      match (match sdata str with None => malloc n | Some c => OPENSSL_realloc (Some c) n end) with
      | None => Some (false, str)
      | Some buf => store (set_data (Some buf) str)
      end
    else store str in
  if len <? 0 then
    match data with
    | None => Some (false, str)
    | Some d => n ← list_find (0 =.) d; put (s32 (Z.of_nat n.1))
    end
  else put len.

Definition ASN1_STRING_type_new (type : Z) : option asn1_string :=
  match malloc 24 with
  | None => None
  | Some _ => Some (mk_string 0 type None 0)
  end.

Definition ASN1_STRING_new : option asn1_string := ASN1_STRING_type_new V_ASN1_OCTET_STRING.

Definition ASN1_STRING_copy (dst : asn1_string) (str : option asn1_string) : option (bool * asn1_string) :=
  match str with
  | None => Some (false, dst)
  | Some str =>
      r ← ASN1_STRING_set dst (sdata str) (slen str);
      let '(ok, dst) := r in
      if ok : bool then Some (true, set_flags (sflags str) (set_type (stype str) dst)) else Some (false, dst)
  end.

(** The outer option is undefined behaviour, the inner one NULL. *)
Definition ASN1_STRING_dup (str : option asn1_string) : option (option asn1_string) :=
  match str with
  | None => Some None
  | Some str =>
      match ASN1_STRING_new with
      | None => Some None
      | Some ret =>
          r ← ASN1_STRING_copy ret (Some str);
          Some (if r.1 : bool then Some r.2 else None)
      end
  end.

Definition ASN1_STRING_set0 (str : asn1_string) (data : option (list Z)) (len : Z) : asn1_string :=
  set_len len (set_data data str).
End Strings.

Definition ASN1_STRING_length (str : asn1_string) : Z := slen str.
Definition ASN1_STRING_type (str : asn1_string) : Z := stype str.
Definition ASN1_STRING_get0_data (str : asn1_string) : option (list Z) := sdata str.

(** A byte of the contents. *)
Definition data_byte (str : asn1_string) (i : Z) : option Z := buf ← sdata str; rd buf i.

(** [OPENSSL_memcmp] takes any pointers when there is nothing to compare. *)
Definition compare_data (a b : option (list Z)) (n : Z) : option Z :=
  if n =? 0 then Some 0
  else a ← a; b ← b; x ← rds a 0 n; y ← rds b 0 n; Some (memcmp x y).

(** ** Bit strings *)

Fixpoint trim_loop (fuel : nat) (str : asn1_string) (len : Z) : option Z :=
  if len <=? 0 then Some len
  else
    match fuel with
    | O => None
    | S fuel' =>
        c ← data_byte str (len - 1);
        if c =? 0 then trim_loop fuel' str (len - 1) else Some len
    end.

Fixpoint padding_loop (fuel : nat) (last padding_bits : Z) : Z :=
  match fuel with
  | O => padding_bits
  | S fuel' =>
      if padding_bits <? 7 then
        if negb (Z.land last (Z.shiftl 1 padding_bits) =? 0) then padding_bits
        else padding_loop fuel' last (padding_bits + 1)
      else padding_bits
  end.

(** The length and the number of padding bits. *)
Definition asn1_bit_string_length (str : asn1_string) : option (Z * Z) :=
  let len := slen str in
  if negb (Z.land (sflags str) ASN1_STRING_FLAG_BITS_LEFT =? 0) then
    Some (len, if len =? 0 then 0 else Z.land (sflags str) 7)
  else
    len ← trim_loop (Z.to_nat len) str len;
    if 0 <? len then last ← data_byte str (len - 1); Some (len, padding_loop 7 last 0)
    else Some (len, 0).

Definition ASN1_BIT_STRING_num_bytes (str : asn1_string) : option (option Z) :=
  r ← asn1_bit_string_length str;
  let '(len, padding_bits) := r in
  Some (if negb (padding_bits =? 0) then None else Some len).

Definition ASN1_STRING_cmp (a b : asn1_string) : option Z :=
  x ← (if stype a =? V_ASN1_BIT_STRING then asn1_bit_string_length a else Some (slen a, 0));
  y ← (if stype b =? V_ASN1_BIT_STRING then asn1_bit_string_length b else Some (slen b, 0));
  let '(a_length, a_padding) := x in
  let '(b_length, b_padding) := y in
  if a_length <? b_length then Some (-1)
  else if b_length <? a_length then Some 1
  else if b_padding <? a_padding then Some (-1)
  else if a_padding <? b_padding then Some 1
  else
    ret ← compare_data (sdata a) (sdata b) a_length;
    Some (if negb (ret =? 0) then ret
          else if stype a <? stype b then -1
          else if stype b <? stype a then 1
          else 0).
