(* ===== verification/Asn1Int.v ===== *)
(** * BoringSSL: ASN.1 integers ([a_int.c], [a_enum.c])

    An [ASN1_INTEGER] is a string with the magnitude of the value, most
    significant byte first; the sign is in the type.  Of the conversions of
    [a_enum.c] from and to [BIGNUM] there is no model. *)
From S2P Require Import Prelude CBuf Bn Asn1String.

Definition is_neg (s : asn1_string) : bool := negb (Z.land (stype s) V_ASN1_NEG =? 0).

Definition ASN1_INTEGER_cmp (x y : asn1_string) : option Z :=
  let neg := is_neg x in
  if negb (eqb neg (is_neg y)) then Some (if neg then -1 else 1)
  else
    ret ← ASN1_STRING_cmp x y;
    if neg : bool then i32 (- ret) else Some ret.

Section Integers.
Variable malloc : Z -> option (list Z).

Definition ASN1_INTEGER_dup (x : option asn1_string) : option (option asn1_string) := ASN1_STRING_dup malloc x.

(** ** The contents octets *)

(** Is there a byte other than zero at or behind [i]? *)
Fixpoint any_nonzero (fuel : nat) (a : asn1_string) (i : Z) : option bool :=
  if i <? slen a then
    match fuel with
    | O => None
    | S fuel' => c ← data_byte a i; if negb (c =? 0) then Some true else any_nonzero fuel' a (i + 1)
    end
  else Some false.

(** The byte to put in front, and whether the value is negative. *)
Definition integer_padding (a : asn1_string) : option (option Z * bool) :=
  let neg := is_neg a in
  i ← data_byte a 0;
  let neg := if (slen a =? 1) && (i =? 0) then false else neg in
  if negb neg && (127 <? i) then Some (Some 0, neg)
  else if neg then
    if 128 <? i then Some (Some 0xff, neg)
    else if i =? 128 then
      more ← any_nonzero (Z.to_nat (slen a)) a 1;
      Some (if more : bool then Some 0xff else None, neg)
    else Some (None, neg)
  else Some (None, neg).

(** The two's complement, from the last byte to the first: the zero bytes at
    the end stay, one byte is negated, the bytes in front are complemented. *)
Fixpoint negate_zeros (fuel : nat) (dst : list Z) (p : Z) (src : list Z) (n i : Z) : option (list Z * Z * Z * Z) :=
  match fuel with
  | O => None
  | S fuel' =>
      c ← rd src n;
      if (c =? 0) && (1 <? i) then dst ← wr dst p 0; negate_zeros fuel' dst (p - 1) src (n - 1) (i - 1)
      else Some (dst, p, n, i)
  end.

Fixpoint complement_loop (fuel : nat) (dst : list Z) (p : Z) (src : list Z) (n i : Z) : option (list Z) :=
  if 0 <? i then
    match fuel with
    | O => None
    | S fuel' =>
        c ← rd src n; dst ← wr dst p (Z.lxor c 0xff);
        complement_loop fuel' dst (p - 1) src (n - 1) (i - 1)
    end
  else Some dst.

(** The complement of a byte plus one, and the complement of the bytes in front. *)
Definition negate_rest (dst : list Z) (p : Z) (src : list Z) (n i : Z) : option (list Z) :=
  c ← rd src n;
  dst ← wr dst p (u8 (Z.lxor c 0xff + 1));
  complement_loop (Z.to_nat i) dst (p - 1) src (n - 1) (i - 1).

(** The output is a position in an array; NULL asks for the length only. *)
Definition i2c_ASN1_INTEGER (a : option asn1_string) (pp : option (list Z * Z)) : option (Z * option (list Z * Z)) :=
  match a with
  | None => Some (0, pp)
  | Some a =>
      pn ← (if slen a =? 0 then Some (None, is_neg a) else integer_padding a);
      let '(pb, neg) := pn in
      ret ← (if slen a =? 0 then Some 1 else i32 (slen a + match pb with Some _ => 1 | None => 0 end));
      match pp with
      | None => Some (ret, None)
      | Some (out, p0) =>
          op ← match pb with Some b => out ← wr out p0 b; Some (out, p0 + 1) | None => Some (out, p0) end;
          let '(out, p) := op in
          out ← (if slen a =? 0 then wr out p 0
                 else
                   data ← sdata a;
                   if negb neg then v ← rds data 0 (slen a); wrs out p v
                   else
                     z ← negate_zeros (Z.to_nat (slen a)) out (p + (slen a - 1)) data (slen a - 1) (slen a);
                     let '(out, p, n, i) := z in
                     negate_rest out p data n i);
          Some (ret, Some (out, p0 + ret))
      end
  end.

(** The same for reading; the byte in front of the contents stops the loop. *)
Fixpoint read_zeros (fuel : nat) (dst : list Z) (to : Z) (src : list Z) (p i : Z) : option (list Z * Z * Z * Z) :=
  match fuel with
  | O => None
  | S fuel' =>
      c ← rd src p;
      if (c =? 0) && negb (i =? 0) then dst ← wr dst to 0; read_zeros fuel' dst (to - 1) src (p - 1) (i - 1)
      else Some (dst, to, p, i)
  end.

(** [len] bytes at [pp]; the string in [a], or a new one.  The inner [None] is
    the return of NULL. *)
Definition c2i_ASN1_INTEGER (a : option asn1_string) (pp : list Z) (len : Z) : option (option asn1_string) :=
  if (len <? 0) || (INT_MAX / 2 <? len) then Some None
  else
    match (match a with None => ASN1_STRING_type_new malloc V_ASN1_INTEGER | Some _ => a end) with
    | None => Some None
    | Some ret =>
        match malloc (len + 1) with
        | None => Some None
        | Some s =>
            r ← (if len =? 0 then Some (V_ASN1_INTEGER, s, 0)
                 else
                   b ← rd pp 0;
                   if negb (Z.land b 0x80 =? 0) then
                     let skip := (b =? 0xff) && negb (len =? 1) in
                     let p := if skip then 1 else 0 in
                     let len := if skip then len - 1 else len in
                     z ← read_zeros (Z.to_nat (len + 1)) s (len - 1) pp (p + (len - 1)) len;
                     let '(s, to, p, i) := z in
                     if i =? 0 then
                       s ← wr s 0 1; s ← wr s len 0;
                       Some (V_ASN1_NEG_INTEGER, s, len + 1)
                     else
                       s ← negate_rest s to pp p i;
                       Some (V_ASN1_NEG_INTEGER, s, len)
                   else
                     let skip := (b =? 0) && negb (len =? 1) in
                     let p := if skip then 1 else 0 in
                     let len := if skip then len - 1 else len in
                     v ← rds pp p len;
                     s ← wrs s 0 v;
                     Some (V_ASN1_INTEGER, s, len));
            let '(type, s, len) := r in
            Some (Some (set_len len (set_data (Some s) (set_type type ret))))
        end
    end.

(** ** Machine integers *)

(** The bytes of [CRYPTO_bswap8(v)] in memory: big endian. *)
Definition bytes8 (v : Z) : list Z := (fun i => Z.land (Z.shiftr v (8 * (7 - i))) 0xff) <$> seqZ 0 8.

Fixpoint leading_zeros_loop (fuel : nat) (data : list Z) (n : Z) : option Z :=
  if n <? 7 then
    match fuel with
    | O => None
    | S fuel' => c ← rd data n; if negb (c =? 0) then Some n else leading_zeros_loop fuel' data (n + 1)
    end
  else Some n.

Definition ASN1_INTEGER_set_uint64 (out : asn1_string) (v : Z) : option (bool * asn1_string) :=
  match malloc 8 with
  | None => Some (false, out)
  | Some newdata =>
      data ← wrs newdata 0 (bytes8 v);
      n ← leading_zeros_loop 7 data 0;
      let length := 8 - n in
      v ← rds data n length;
      data ← wrs data 0 v;
      Some (true, mk_string length V_ASN1_INTEGER (Some data) (sflags out))
  end.

Definition ASN1_INTEGER_set (a : asn1_string) (v : Z) : option (bool * asn1_string) :=
  if 0 <=? v then ASN1_INTEGER_set_uint64 a v
  else
    r ← ASN1_INTEGER_set_uint64 a (u64 (0 - u64 v));
    let '(ok, a) := r in
    Some (if ok : bool then (true, set_type V_ASN1_NEG_INTEGER a) else (false, a)).

Fixpoint get_loop (fuel : nat) (data : list Z) (len i r64 : Z) : option Z :=
  if i <? len then
    match fuel with
    | O => None
    | S fuel' => c ← rd data i; get_loop fuel' data len (i + 1) (Z.lor (u64 (Z.shiftl r64 8)) c)
    end
  else Some r64.

(** The common body of [ASN1_INTEGER_get] and [ASN1_ENUMERATED_get]. *)
Definition get_magnitude (neg : bool) (a : asn1_string) : option Z :=
  if 8 <? slen a then Some (-1)
  else
    r64 ← match sdata a with None => Some 0 | Some data => get_loop 8 data (slen a) 0 0 end;
    if bool_decide (sdata a <> None) && (LONG_MAX <? r64) then Some (-1)
    else let r := s64 r64 in if neg then i64 (- r) else Some r.

Definition ASN1_INTEGER_get (a : option asn1_string) : option Z :=
  match a with
  | None => Some 0
  | Some a =>
      if stype a =? V_ASN1_NEG_INTEGER then get_magnitude true a
      else if negb (stype a =? V_ASN1_INTEGER) then Some (-1)
      else get_magnitude false a
  end.

(** ** BIGNUMs *)

(** The [BIGNUM] is [bn].  The result is whether a pointer other than NULL is
    returned, and the object: the caller's, or the new one that is returned.
    On a failure the caller's object has the type of [bn] already. *)
Definition BN_to_ASN1_INTEGER (bn : bignum) (ai : option asn1_string) : option (bool * option asn1_string) :=
  match (match ai with None => ASN1_STRING_type_new malloc V_ASN1_INTEGER | Some _ => ai end) with
  | None => Some (false, None)
  | Some ret =>
      negative ← (if BN_is_negative bn then zero ← BN_is_zero bn; Some (negb zero) else Some false);
      let ret := set_type (if negative : bool then V_ASN1_NEG_INTEGER else V_ASN1_INTEGER) ret in
      bits ← BN_num_bits bn;
      let j := s32 bits in
      let len := if j =? 0 then 0 else Z.quot j 8 + 1 in
      match (if slen ret <? len + 4
             then (fun new_data => set_data (Some new_data) ret) <$> OPENSSL_realloc malloc (sdata ret) (len + 4)
             else Some ret) with
      | None => Some (false, match ai with None => None | Some _ => Some ret end)
      | Some ret =>
          data ← sdata ret;
          r ← BN_bn2bin bn data 0;
          let '(n, data) := r in
          let length := s32 n in
          if length =? 0 then data ← wr data 0 0; Some (true, Some (set_len 1 (set_data (Some data) ret)))
          else Some (true, Some (set_len length (set_data (Some data) ret)))
      end
  end.

(** Into the [BIGNUM] at [bn]; [words] is the allocator of arrays of words. *)
Definition ASN1_INTEGER_to_BN (words : Z -> option (list Z)) (w : bns) (ai : asn1_string) (bn : Z) : option (bool * bns) :=
  r ← BN_bin2bn words w (default [] (sdata ai)) (u64 (slen ai)) bn;
  let '(ok, w) := r in
  if negb ok then Some (false, w)
  else if stype ai =? V_ASN1_NEG_INTEGER then w ← BN_set_negative w bn 1; Some (true, w)
  else Some (true, w).

(** ** Enumerated values *)

(** The low bytes of [d], least significant first, until nothing is left. *)
Fixpoint low_bytes (fuel : nat) (d : Z) : list Z :=
  match fuel with
  | O => []
  | S fuel' => if d =? 0 then [] else Z.land (s32 d) 0xff :: low_bytes fuel' (Z.shiftr d 8)
  end.

Definition ASN1_ENUMERATED_set (a : asn1_string) (v : Z) : option (bool * asn1_string) :=
  let a := set_type V_ASN1_ENUMERATED a in
  let a := if slen a <? 9
           then set_data ((fun d => replicate (length d) 0) <$> malloc 9) a else a in
  match sdata a with
  | None => Some (false, a)
  | Some data =>
      d ← (if v <? 0 then i64 (- v) else Some v);
      let a := if v <? 0 then set_type V_ASN1_NEG_ENUMERATED a else a in
      let buf := rev (low_bytes 8 d) in
      data ← wrs data 0 buf;
      Some (true, set_len (Z.of_nat (length buf)) (set_data (Some data) a))
  end.

Definition ASN1_ENUMERATED_get (a : option asn1_string) : option Z :=
  match a with
  | None => Some 0
  | Some a =>
      if stype a =? V_ASN1_NEG_ENUMERATED then get_magnitude true a
      else if negb (stype a =? V_ASN1_ENUMERATED) then Some (-1)
      else get_magnitude false a
  end.
End Integers.
