(* ===== verification/Asn1IntSpec.v ===== *)
(** * BoringSSL: ASN.1 integers are numbers

    The loops that negate in place, the contents octets, setting, reading and
    comparing, and the way from and to a BIGNUM. *)
From S2P Require Import Prelude CBuf CMem Cbs CbsSpec Bn BnSpec DerInt Asn1String Asn1Int.

(** ** BoringSSL: negating a number in place

    The loops of [i2c_ASN1_INTEGER] and [c2i_ASN1_INTEGER] that go through a
    number from its last byte to its first, and the number they leave. *)

#[local] Ltac Zify.zify_post_hook ::= Z.to_euclidean_division_equations.

Definition complement (bs : list Z) : list Z := (fun c => Z.lxor c 0xff) <$> bs.

(** The two's complement of a number with [k] zero bytes at its end. *)
Definition twos (a : list Z) (c : Z) (k : nat) : list Z :=
  complement a ++ [u8 (Z.lxor c 0xff + 1)] ++ replicate k 0.

Lemma lxor_FF c : in_u 8 c -> Z.lxor c 0xff = 255 - c.
Proof. intros Hc. unfold in_u in Hc. by_byte c. Qed.

Lemma complement_bytes a : bytes a -> bytes (complement a).
Proof.
  intros Ha. apply Forall_fmap. eapply Forall_impl; [exact Ha|]. intros c Hc. cbn. rewrite lxor_FF by done. unfold in_u in *. lia.
Qed.

Lemma length_complement a : length (complement a) = length a.
Proof. apply length_fmap. Qed.

Lemma length_twos a c k : length (twos a c k) = length (a ++ c :: replicate k 0).
Proof. unfold twos. rewrite !length_app, length_complement. done. Qed.

Lemma be_val_complement a : bytes a -> be_val (complement a) = 2 ^ (8 * Z.of_nat (length a)) - 1 - be_val a.
Proof.
  induction 1 as [|c a Hc Ha IH]; [done|]. change (complement (c :: a)) with (Z.lxor c 255 :: complement a). cbn [length].
  rewrite !be_val_cons, IH, length_complement, pow8_S, lxor_FF by done. lia.
Qed.

(** A number and its two's complement add up to a power of 256. *)
Lemma be_val_twos a c k : bytes a -> in_u 8 c -> c <> 0 ->
  be_val (twos a c k) = 2 ^ (8 * Z.of_nat (length (a ++ c :: replicate k 0))) - be_val (a ++ c :: replicate k 0).
Proof.
  intros Ha Hc Hn. unfold twos, in_u in *. rewrite lxor_FF by done. rewrite wrapu_id by (unfold in_u; lia).
  rewrite !be_val_app, !be_val_cons, be_val_zeros, be_val_complement by done. change (be_val []) with 0.
  rewrite !length_app. cbn [length app]. rewrite !length_replicate.
  replace (8 * Z.of_nat (length a + S k)) with (8 * Z.of_nat (length a) + 8 * Z.of_nat (S k)) by lia.
  change (1 + k)%nat with (S k). rewrite Z.pow_add_r, pow8_S by lia. change (2 ^ (8 * Z.of_nat 0)) with 1. lia.
Qed.

Lemma twos_bytes a c k : bytes a -> bytes (twos a c k).
Proof.
  intros Ha. unfold twos. rewrite !Forall_app. split_and!; [by apply complement_bytes| |].
  - constructor; [apply wrapu_range; lia|done].
  - apply Forall_replicate. unfold in_u. lia.
Qed.

(** Taking the two's complement of a complement gives the number back. *)
Lemma twos_zero k : twos [] 0 k = replicate (S k) 0.
Proof. done. Qed.

(** ** The loops *)

Lemma complement_loop_spec a dpre old dpost spre spost fuel :
  length old = length a -> (length a <= fuel)%nat ->
  complement_loop fuel (dpre ++ old ++ dpost) (Z.of_nat (length dpre) + Z.of_nat (length a) - 1)
    (spre ++ a ++ spost) (Z.of_nat (length spre) + Z.of_nat (length a) - 1) (Z.of_nat (length a))
  = Some (dpre ++ complement a ++ dpost).
Proof.
  revert old dpost spost fuel. induction a as [|c a IH] using rev_ind; intros old dpost spost fuel Hl Hf.
  - destruct old; [|done]. by destruct fuel.
  - rewrite length_app in *. cbn [length] in *. destruct fuel as [|fuel]; [lia|]. cbn [complement_loop].
    destruct (0 <? _) eqn:E; [clear E|apply Z.ltb_ge in E; lia].
    destruct old as [|x old _] using rev_ind; [cbn in Hl; lia|]. rewrite length_app in Hl. cbn in Hl.
    replace (Z.of_nat (length spre) + Z.of_nat (length a + 1) - 1) with (Z.of_nat (length (spre ++ a))) by (rewrite length_app; lia).
    rewrite <- (app_assoc a), (app_assoc spre a). cbn [app]. rewrite rd_app. cbn [mbind option_bind].
    rewrite <- (app_assoc old), (app_assoc dpre old). cbn [app].
    unfold wr. rewrite (wrs_mid (dpre ++ old) [x] dpost [Z.lxor c 255]) by (rewrite ?length_app; cbn; lia). cbn [mbind option_bind].
    rewrite <- !app_assoc. cbn [app].
    replace (Z.of_nat (length dpre) + Z.of_nat (length a + 1) - 1 - 1) with (Z.of_nat (length dpre) + Z.of_nat (length a) - 1) by lia.
    replace (Z.of_nat (length (spre ++ a)) - 1) with (Z.of_nat (length spre) + Z.of_nat (length a) - 1) by (rewrite length_app; lia).
    replace (Z.of_nat (length a + 1) - 1) with (Z.of_nat (length a)) by lia.
    rewrite (IH old (Z.lxor c 255 :: dpost) (c :: spost)) by lia. unfold complement. by rewrite fmap_app, <- app_assoc.
Qed.

Lemma negate_rest_spec a c dpre old x dpost spre spost :
  length old = length a ->
  negate_rest (dpre ++ old ++ x :: dpost) (Z.of_nat (length dpre) + Z.of_nat (length a))
    (spre ++ a ++ c :: spost) (Z.of_nat (length spre) + Z.of_nat (length a)) (Z.of_nat (length a) + 1)
  = Some (dpre ++ complement a ++ u8 (Z.lxor c 0xff + 1) :: dpost).
Proof.
  intros Hl. unfold negate_rest. rewrite (app_assoc spre a).
  replace (Z.of_nat (length spre) + Z.of_nat (length a)) with (Z.of_nat (length (spre ++ a))) by (rewrite length_app; lia).
  rewrite rd_app. cbn [mbind option_bind]. rewrite (app_assoc dpre old). unfold wr.
  rewrite (wrs_mid (dpre ++ old) [x] dpost [_]) by (rewrite ?length_app; cbn; lia). cbn [mbind option_bind].
  rewrite <- !app_assoc. cbn [app]. rewrite length_app.
  replace (Z.of_nat (length spre + length a) - 1) with (Z.of_nat (length spre) + Z.of_nat (length a) - 1) by lia.
  replace (Z.of_nat (length a) + 1 - 1) with (Z.of_nat (length a)) by lia.
  apply complement_loop_spec; lia.
Qed.

(** The last byte that is not zero. *)
Lemma last_nonzero bs : (exists k, bs = replicate k 0) \/ exists a c k, bs = a ++ c :: replicate k 0 /\ c <> 0.
Proof.
  induction bs as [|x bs IH] using rev_ind; [left; by exists 0%nat|].
  destruct (decide (x = 0)) as [->|Hx]; [|right; by exists bs, x, 0%nat].
  destruct IH as [[k ->]|(a & c & k & -> & Hc)].
  - left. exists (S k). by rewrite replicate_S_end.
  - right. exists a, c, (S k). rewrite <- app_assoc. cbn [app]. by rewrite replicate_S_end.
Qed.

(** The zero bytes at the end are copied, up to a byte at which [stop] holds. *)
Lemma negate_zeros_spec a c k dpre old x zs dpost spre spost fuel :
  length zs = k -> length old = length a -> (k < fuel)%nat -> (c <> 0 \/ a = []) ->
  negate_zeros fuel (dpre ++ old ++ x :: zs ++ dpost) (Z.of_nat (length dpre) + (Z.of_nat (length a) + Z.of_nat k))
    (spre ++ a ++ c :: replicate k 0 ++ spost) (Z.of_nat (length spre) + (Z.of_nat (length a) + Z.of_nat k)) (Z.of_nat (length a) + Z.of_nat k + 1)
  = Some (dpre ++ old ++ x :: replicate k 0 ++ dpost, Z.of_nat (length dpre) + Z.of_nat (length a),
          Z.of_nat (length spre) + Z.of_nat (length a), Z.of_nat (length a) + 1).
Proof.
  revert fuel zs dpost spost. induction k as [|k IH]; intros fuel zs dpost spost Hz Ho Hf Hc; (destruct fuel as [|fuel]; [lia|]); cbn [negate_zeros].
  - destruct zs; [|done]. cbn [app replicate]. rewrite !Z.add_0_r. rewrite (app_assoc spre a).
    replace (Z.of_nat (length spre) + Z.of_nat (length a)) with (Z.of_nat (length (spre ++ a))) at 1 by (rewrite length_app; lia).
    rewrite rd_app. cbn [mbind option_bind].
    assert ((c =? 0) && (1 <? Z.of_nat (length a) + 1) = false) as ->; [|done].
    destruct Hc as [Hc| ->]; [by rewrite (proj2 (Z.eqb_neq c 0))|by rewrite andb_false_r].
  - destruct zs as [|z zs _] using rev_ind; [done|]. rewrite length_app in Hz. cbn in Hz.
    rewrite <- (app_assoc zs). rewrite replicate_S_end. rewrite <- (app_assoc (replicate k 0)). cbn [app].
    assert (forall m y, spre ++ a ++ c :: replicate k 0 ++ m :: y = (spre ++ a ++ c :: replicate k 0) ++ m :: y) as Es.
    { intros. rewrite <- !app_assoc. done. }
    replace (Z.of_nat (length spre) + (Z.of_nat (length a) + Z.of_nat (S k))) with (Z.of_nat (length (spre ++ a ++ c :: replicate k 0))) by
      (rewrite !length_app; cbn [length]; rewrite length_replicate; lia).
    rewrite Es, rd_app. cbn [mbind option_bind]. rewrite <- Es. rewrite Z.eqb_refl.
    destruct (1 <? _) eqn:E; [clear E|apply Z.ltb_ge in E; lia]. cbn [andb].
    assert (forall m y, dpre ++ old ++ x :: zs ++ m :: y = (dpre ++ old ++ x :: zs) ++ [m] ++ y) as Ed.
    { intros. rewrite <- !app_assoc. done. }
    rewrite Ed. unfold wr. rewrite wrs_mid by (rewrite ?length_app; cbn [length]; lia). cbn [mbind option_bind]. rewrite <- Ed.
    replace (Z.of_nat (length dpre) + (Z.of_nat (length a) + Z.of_nat (S k)) - 1) with (Z.of_nat (length dpre) + (Z.of_nat (length a) + Z.of_nat k)) by lia.
    replace (Z.of_nat (length (spre ++ a ++ c :: replicate k 0)) - 1) with (Z.of_nat (length spre) + (Z.of_nat (length a) + Z.of_nat k)) by
      (rewrite !length_app; cbn [length]; rewrite length_replicate; lia).
    replace (Z.of_nat (length a) + Z.of_nat (S k) + 1 - 1) with (Z.of_nat (length a) + Z.of_nat k + 1) by lia.
    rewrite <- (app_assoc (replicate k 0)). cbn [app]. by apply IH; try lia.
Qed.

(** [read_zeros] does the same while a byte other than zero is in the way. *)
Lemma read_zeros_spec a c k dpre old x zs dpost spre spost fuel :
  length zs = k -> length old = length a -> (k < fuel)%nat -> c <> 0 ->
  read_zeros fuel (dpre ++ old ++ x :: zs ++ dpost) (Z.of_nat (length dpre) + (Z.of_nat (length a) + Z.of_nat k))
    (spre ++ a ++ c :: replicate k 0 ++ spost) (Z.of_nat (length spre) + (Z.of_nat (length a) + Z.of_nat k)) (Z.of_nat (length a) + Z.of_nat k + 1)
  = Some (dpre ++ old ++ x :: replicate k 0 ++ dpost, Z.of_nat (length dpre) + Z.of_nat (length a),
          Z.of_nat (length spre) + Z.of_nat (length a), Z.of_nat (length a) + 1).
Proof.
  intros Hz Ho Hf Hc. rewrite <- (negate_zeros_spec a c k dpre old x zs dpost spre spost fuel) by auto.
  assert (forall fuel dst p i, p < Z.of_nat fuel -> 0 <= p <= Z.of_nat k -> 
    read_zeros fuel dst i (spre ++ a ++ c :: replicate k 0 ++ spost) (Z.of_nat (length spre) + Z.of_nat (length a) + p) (Z.of_nat (length a) + p + 1)
    = negate_zeros fuel dst i (spre ++ a ++ c :: replicate k 0 ++ spost) (Z.of_nat (length spre) + Z.of_nat (length a) + p) (Z.of_nat (length a) + p + 1)) as H.
  { clear fuel Hf. intros fuel. induction fuel as [|fuel IH]; intros dst p i Hp Hk; [done|]. cbn [read_zeros negate_zeros].
    destruct (rd _ _) as [y|] eqn:Ey; [|done]. cbn [mbind option_bind].
    destruct (decide (p = 0)) as [->|Hp0].
    - rewrite Z.add_0_r, (app_assoc spre a) in Ey.
      replace (Z.of_nat (length spre) + Z.of_nat (length a)) with (Z.of_nat (length (spre ++ a))) in Ey by (rewrite length_app; lia).
      rewrite rd_app in Ey. injection Ey as ->. rewrite (proj2 (Z.eqb_neq y 0)) by done. done.
    - destruct (1 <? _) eqn:E1; [|apply Z.ltb_ge in E1; lia]. destruct (_ =? 0) eqn:E2; [|done].
      destruct (Z.of_nat (length a) + p + 1 =? 0) eqn:E3; [lia|]. cbn [andb negb].
      destruct (wr dst i 0); [|done]. cbn [mbind option_bind].
      replace (Z.of_nat (length spre) + Z.of_nat (length a) + p - 1) with (Z.of_nat (length spre) + Z.of_nat (length a) + (p - 1)) by lia.
      replace (Z.of_nat (length a) + p + 1 - 1) with (Z.of_nat (length a) + (p - 1) + 1) by lia. apply IH; lia. }
  rewrite !Z.add_assoc. apply H; lia.
Qed.

(** All bytes are zero: the loop stops at the byte in front. *)
Lemma read_zeros_all k dpre zs dpost spre b spost fuel :
  length zs = k -> (k < fuel)%nat -> b <> 0 ->
  read_zeros fuel (dpre ++ zs ++ dpost) (Z.of_nat (length dpre) + Z.of_nat k - 1)
    (spre ++ b :: replicate k 0 ++ spost) (Z.of_nat (length spre) + Z.of_nat k) (Z.of_nat k)
  = Some (dpre ++ replicate k 0 ++ dpost, Z.of_nat (length dpre) - 1, Z.of_nat (length spre), 0).
Proof.
  revert fuel zs dpost spost. induction k as [|k IH]; intros fuel zs dpost spost Hz Hf Hb; (destruct fuel as [|fuel]; [lia|]); cbn [read_zeros].
  - destruct zs; [|done]. rewrite !Z.add_0_r. cbn [replicate app]. rewrite rd_app. cbn [mbind option_bind]. rewrite (proj2 (Z.eqb_neq b 0)) by done. done.
  - destruct zs as [|z zs _] using rev_ind; [done|]. rewrite length_app in Hz. cbn in Hz.
    rewrite replicate_S_end, <- (app_assoc zs), <- (app_assoc (replicate k 0)). cbn [app].
    assert (forall m y, spre ++ b :: replicate k 0 ++ m :: y = (spre ++ b :: replicate k 0) ++ m :: y) as Es.
    { intros. rewrite <- !app_assoc. done. }
    replace (Z.of_nat (length spre) + Z.of_nat (S k)) with (Z.of_nat (length (spre ++ b :: replicate k 0))) by
      (rewrite !length_app; cbn [length]; rewrite length_replicate; lia).
    rewrite Es, rd_app. cbn [mbind option_bind]. rewrite <- Es. rewrite Z.eqb_refl. destruct (Z.of_nat (S k) =? 0) eqn:E; [apply Z.eqb_eq in E; lia|]. cbn [negb andb].
    rewrite (app_assoc dpre zs). unfold wr. rewrite (wrs_mid (dpre ++ zs) [z] dpost [0]) by (rewrite ?length_app; cbn [length] in *; lia).
    cbn [mbind option_bind]. rewrite <- (app_assoc dpre zs). cbn [app].
    replace (Z.of_nat (length dpre) + Z.of_nat (S k) - 1 - 1) with (Z.of_nat (length dpre) + Z.of_nat k - 1) by lia.
    replace (Z.of_nat (length (spre ++ b :: replicate k 0)) - 1) with (Z.of_nat (length spre) + Z.of_nat k) by
      (rewrite !length_app; cbn [length]; rewrite length_replicate; lia).
    replace (Z.of_nat (S k) - 1) with (Z.of_nat k) by lia. rewrite <- ?(app_assoc (replicate k 0)). cbn [app]. by apply IH; try lia.
Qed.

(** ** BoringSSL: the contents octets of an ASN.1 integer

    [i2c_ASN1_INTEGER] writes the shortest two's complement form [int_body] of
    the value, and [c2i_ASN1_INTEGER] reads the value [int_val] of any contents. *)

(** The contents of a string, in an object that may be larger. *)
Definition contents (s : asn1_string) (bs : list Z) : Prop :=
  slen s = Z.of_nat (length bs) /\ exists post, sdata s = Some (bs ++ post).

Definition signed (neg : bool) (bs : list Z) : Z := if neg then - be_val bs else be_val bs.

(** An integer: a type for the sign and the bytes of the magnitude. *)
Record int_string (s : asn1_string) (neg : bool) (bs : list Z) : Prop := {
  i_contents : contents s bs;
  i_bytes : bytes bs;
  i_type : stype s = if neg then V_ASN1_NEG_INTEGER else V_ASN1_INTEGER;
  i_size : Z.of_nat (length bs) <= 2 ^ 30 }.

(** No superfluous zero byte and no negative zero. *)
Definition canonical (neg : bool) (bs : list Z) : bool :=
  match bs with
  | [] => false
  | b :: bs' => negb (b =? 0) || bool_decide (bs' = []) && negb neg
  end.

(** [s] is the integer [v]. *)
Definition is_int (s : asn1_string) (v : Z) : Prop :=
  exists neg bs, int_string s neg bs /\ canonical neg bs = true /\ v = signed neg bs.

Lemma is_neg_type s neg bs : int_string s neg bs -> is_neg s = neg.
Proof. intros H. unfold is_neg. rewrite (i_type _ _ _ H). by destruct neg. Qed.

Lemma body_is X v : bytes X -> (CBS_is_valid_asn1_integer X).1 = true -> int_val X = v -> int_body v = X.
Proof. intros Hb Hv <-. rewrite valid_int_body in Hv by done. apply bool_decide_eq_true in Hv. done. Qed.

(** The test of the code on a number of two bytes or more. *)
Lemma valid_cons b c X : in_u 8 b -> in_u 8 c ->
  (CBS_is_valid_asn1_integer (b :: c :: X)).1 = negb ((b =? 0) && (c <? 128) || (b =? 255) && (128 <=? c)).
Proof.
  intros Hb Hc. cbn [CBS_is_valid_asn1_integer fst]. rewrite (land_80 c) by done.
  destruct (decide (c < 128)) as [H|H]; [rewrite (proj2 (Z.ltb_lt c 128)) by lia|rewrite (proj2 (Z.ltb_ge c 128)) by lia];
    [rewrite (proj2 (Z.leb_gt 128 c)) by lia|rewrite (proj2 (Z.leb_le 128 c)) by lia]; cbn [Z.eqb negb]; by destruct (b =? 0), (b =? 255).
Qed.

Lemma int_val_nonneg b X : b < 128 -> int_val (b :: X) = be_val (b :: X).
Proof. intros H. unfold int_val. by rewrite (proj2 (Z.ltb_lt b 128)) by lia. Qed.

Lemma int_val_neg b X : 128 <= b -> int_val (b :: X) = be_val (b :: X) - 2 ^ (8 * Z.of_nat (length (b :: X))).
Proof. intros H. unfold int_val. by rewrite (proj2 (Z.ltb_ge b 128)) by lia. Qed.

(** ** The octets of a value from its magnitude *)

Lemma body_nonneg b bs : bytes (b :: bs) -> canonical false (b :: bs) = true ->
  int_body (be_val (b :: bs)) = if 127 <? b then 0 :: b :: bs else b :: bs.
Proof.
  intros Hb Hc. pose proof Hb as Hb'. apply Forall_cons in Hb' as [Hb1 _]. assert (in_u 8 0) as H0 by (unfold in_u; lia).
  destruct (127 <? b) eqn:E; (apply Z.ltb_lt in E || apply Z.ltb_ge in E); apply body_is.
  - by constructor.
  - rewrite valid_cons by done. rewrite (proj2 (Z.ltb_ge b 128)) by lia. done.
  - rewrite int_val_nonneg by lia. rewrite be_val_cons. lia.
  - done.
  - destruct bs as [|c bs]; [done|]. apply Forall_cons in Hb as [_ Hb]. apply Forall_cons in Hb as [Hc1 _].
    rewrite valid_cons by done. cbn [canonical] in Hc. rewrite bool_decide_eq_false_2, orb_false_r in Hc by done.
    destruct (b =? 0); [done|]. cbn [andb orb]. rewrite (proj2 (Z.eqb_neq b 255)) by lia. done.
  - by rewrite int_val_nonneg by lia.
Qed.

Lemma twos_head a c k : bytes (a ++ [c]) -> c <> 0 ->
  exists h X, twos a c k = h :: X /\ in_u 8 h /\
    match a with [] => h = 256 - c /\ X = replicate k 0 | b :: _ => h = 255 - b /\ X <> [] end.
Proof.
  intros Hb Hc. unfold twos. destruct a as [|b a]; cbn [complement fmap list_fmap app] in *; apply Forall_cons in Hb as [Hb _].
  - unfold in_u in *. rewrite lxor_FF, wrapu_id by (unfold in_u; lia). replace (255 - c + 1) with (256 - c) by lia. eauto 6 with lia.
  - rewrite lxor_FF by done. unfold in_u in *. eexists _, _. split_and!; [done|lia|lia|done|]. intros E. by apply app_eq_nil in E as [_ E].
Qed.

Lemma body_neg a c k : bytes (a ++ [c]) -> c <> 0 -> canonical true (a ++ c :: replicate k 0) = true ->
  let bs := a ++ c :: replicate k 0 in
  let h := match a with [] => c | b :: _ => b end in
  int_body (- be_val bs) =
    if (128 <? h) || (h =? 128) && negb (bool_decide (a = [])) then 255 :: twos a c k else twos a c k.
Proof.
  intros Hb Hc Hcan bs h. pose proof Hb as Hb'. apply Forall_app in Hb' as [Ha Hc1]. apply Forall_inv in Hc1.
  destruct (twos_head a c k Hb Hc) as (t & X & Et & Ht & HX).
  pose proof (be_val_twos a c k Ha Hc1 Hc) as Ev. pose proof (length_twos a c k) as El. pose proof (twos_bytes a c k Ha) as Hbt.
  fold bs in Ev, El. assert (in_u 8 255) as HFF by (unfold in_u; lia).
  assert (in_u 8 h /\ h <> 0) as [Hh Hh0].
  { unfold h. destruct a as [|b a]; [done|]. apply Forall_cons in Ha as [Hb1 _]. split; [done|]. intros ->. cbn in Hcan.
    rewrite andb_false_r in Hcan. done. }
  unfold in_u in *. destruct ((128 <? h) || _) eqn:E; apply body_is; try done.
  - by constructor.
  - rewrite Et. rewrite valid_cons by done. assert (t < 128).
    { unfold h in *. destruct a as [|b a]; [rewrite bool_decide_eq_true_2, andb_false_r, orb_false_r in E by done|]; lia. }
    rewrite (proj2 (Z.leb_gt 128 t)) by lia. done.
  - rewrite int_val_neg by lia. rewrite be_val_cons, Ev. cbn [length]. rewrite El, pow8_S. lia.
  - rewrite Et. destruct X as [|x X]; [done|]. rewrite Et in Hbt. apply Forall_cons in Hbt as [_ Hbt]. apply Forall_cons in Hbt as [Hx _].
    rewrite valid_cons by done. apply orb_false_iff in E as [E1 E2]. apply Z.ltb_ge in E1.
    unfold h in *. destruct a as [|b a].
    + destruct HX as [-> HX]. destruct k as [|k]; [done|]. cbn [replicate] in HX. injection HX as -> _.
      rewrite (proj2 (Z.eqb_neq (256 - c) 0)) by lia. by rewrite andb_false_r.
    + destruct HX as [-> _]. rewrite (proj2 (Z.eqb_neq (255 - b) 0)), (proj2 (Z.eqb_neq (255 - b) 255)) by lia. done.
  - assert (128 <= t).
    { unfold h in *. destruct a as [|b a]; [lia|]. rewrite bool_decide_eq_false_2 in E by done. lia. }
    rewrite Et at 1. rewrite int_val_neg by done. rewrite <- Et, Ev, El. lia.
Qed.

(** Superfluous zero bytes in front of the magnitude do not change the value. *)
Lemma body_neg_val a c k : bytes (a ++ [c]) -> c <> 0 ->
  let bs := a ++ c :: replicate k 0 in
  let h := match a with [] => c | b :: _ => b end in
  int_val (if (128 <? h) || (h =? 128) && negb (bool_decide (a = [])) then 255 :: twos a c k else twos a c k) = - be_val bs.
Proof.
  intros Hb Hc bs h. pose proof Hb as Hb'. apply Forall_app in Hb' as [Ha Hc1]. apply Forall_inv in Hc1.
  destruct (twos_head a c k Hb Hc) as (t & X & Et & Ht & HX).
  pose proof (be_val_twos a c k Ha Hc1 Hc) as Ev. pose proof (length_twos a c k) as El. fold bs in Ev, El.
  assert (in_u 8 h) as Hh by (unfold h; destruct a; [done|by apply Forall_cons in Ha as [? _]]). unfold in_u in *.
  destruct ((128 <? h) || _) eqn:E.
  - rewrite int_val_neg by lia. rewrite be_val_cons, Ev. cbn [length]. rewrite El, pow8_S. lia.
  - assert (128 <= t).
    { apply orb_false_iff in E as [E1 E2]. apply Z.ltb_ge in E1. unfold h in *. destruct a as [|b a]; [lia|].
      rewrite bool_decide_eq_false_2, andb_true_r in E2 by done. apply Z.eqb_neq in E2. lia. }
    rewrite Et at 1. rewrite int_val_neg by done. rewrite <- Et, Ev, El. lia.
Qed.

Lemma canonical_positive bs : bytes bs -> canonical true bs = true -> be_val bs <> 0.
Proof.
  intros Hb Hc. destruct Hb as [|b bs Hb Hbs]; [done|]. cbn [canonical] in Hc. rewrite andb_false_r, orb_false_r in Hc.
  apply negb_true_iff, Z.eqb_neq in Hc. rewrite be_val_cons. pose proof (be_val_bound bs Hbs). unfold in_u in Hb.
  assert (0 < 2 ^ (8 * Z.of_nat (length bs))) by (apply Z.pow_pos_nonneg; lia). nia.
Qed.

(** ** [i2c_ASN1_INTEGER] *)

Lemma data_byte_at s pre x bs : contents s (pre ++ x :: bs) -> data_byte s (Z.of_nat (length pre)) = Some x.
Proof.
  intros [_ [post E]]. unfold data_byte. rewrite E. cbn [mbind option_bind]. rewrite <- app_assoc. cbn [app]. apply rd_app.
Qed.

Lemma any_nonzero_spec s pre bs fuel :
  contents s (pre ++ bs) -> (length bs <= fuel)%nat ->
  any_nonzero fuel s (Z.of_nat (length pre)) = Some (existsb (fun c => negb (c =? 0)) bs).
Proof.
  revert pre fuel. induction bs as [|c bs IH]; intros pre fuel Hs Hf.
  - pose proof (proj1 Hs) as El. rewrite app_nil_r in El.
    assert (any_nonzero fuel s (Z.of_nat (length pre)) = if Z.of_nat (length pre) <? slen s then any_nonzero fuel s (Z.of_nat (length pre)) else Some false) as ->.
    { rewrite El, Z.ltb_irrefl. destruct fuel; cbn [any_nonzero]; by rewrite El, Z.ltb_irrefl. }
    by rewrite El, Z.ltb_irrefl.
  - pose proof (proj1 Hs) as El. rewrite length_app in El. cbn [length] in *. destruct fuel as [|fuel]; [lia|]. cbn [any_nonzero].
    rewrite (proj2 (Z.ltb_lt (Z.of_nat (length pre)) (slen s))) by lia. rewrite (data_byte_at s pre c bs) by done. cbn [mbind option_bind existsb].
    destruct (c =? 0); [|done]. cbn [negb orb].
    replace (Z.of_nat (length pre) + 1) with (Z.of_nat (length (pre ++ [c]))) by (rewrite length_app; cbn [length]; lia).
    apply IH; [|lia]. rewrite <- app_assoc. done.
Qed.

Lemma existsb_zeros k : existsb (fun c => negb (c =? 0)) (replicate k 0) = false.
Proof. induction k as [|k IH]; [done|]. cbn. exact IH. Qed.

Definition byte_pad (pb : option Z) : list Z := match pb with Some b => [b] | None => [] end.

(** The octets behind the padding. *)
Definition octets (neg : bool) (bs X : list Z) : Prop :=
  if neg then exists a c k, bs = a ++ c :: replicate k 0 /\ bytes (a ++ [c]) /\ c <> 0 /\ X = twos a c k else X = bs.

Lemma length_octets neg bs X : octets neg bs X -> length X = length bs.
Proof. destruct neg; [intros (a & c & k & -> & _ & _ & ->); by rewrite length_twos|by intros ->]. Qed.

Lemma negative_split bs : bytes bs -> be_val bs <> 0 -> exists a c k, bs = a ++ c :: replicate k 0 /\ bytes (a ++ [c]) /\ c <> 0.
Proof.
  intros Hb Hv. destruct (last_nonzero bs) as [[k ->]|(a & c & k & -> & Hc0)]; [by rewrite be_val_zeros in Hv|].
  exists a, c, k. split_and!; [done| |done]. apply Forall_app in Hb as [Ha Hb]. apply Forall_cons in Hb as [Hcc _]. apply Forall_app. split; [done|by constructor].
Qed.

(** What the code works out before it writes. *)
Lemma integer_padding_spec s neg bs : int_string s neg bs -> bs <> [] -> (neg = true -> be_val bs <> 0) ->
  exists pb X, integer_padding s = Some (pb, neg) /\ octets neg bs X /\
    int_val (byte_pad pb ++ X) = signed neg bs /\ (canonical neg bs = true -> byte_pad pb ++ X = int_body (signed neg bs)).
Proof.
  intros Hi Hne Hv. pose proof (i_contents _ _ _ Hi) as Hs. pose proof (i_bytes _ _ _ Hi) as Hb. pose proof (proj1 Hs) as El.
  destruct bs as [|b bs]; [done|]. unfold integer_padding. rewrite (is_neg_type s neg (b :: bs)) by done.
  rewrite (data_byte_at s [] b bs Hs : data_byte s 0 = Some b). cbn [mbind option_bind].
  assert ((if (slen s =? 1) && (b =? 0) then false else neg) = neg) as ->.
  { destruct neg; [|by destruct (_ && _)]. destruct ((slen s =? 1) && (b =? 0)) eqn:E; [|done]. apply andb_true_iff in E as [E1 E2].
    apply Z.eqb_eq in E1, E2. cbn [length] in El. destruct bs; [|cbn [length] in El; lia]. subst b. by destruct (Hv eq_refl). }
  destruct neg; cbn [negb andb].
  - destruct (negative_split _ Hb (Hv eq_refl)) as (a & c & k & Ek & Hac & Hc0).
    pose proof (body_neg_val a c k Hac Hc0) as Hval. cbv zeta in Hval. rewrite <- Ek in Hval.
    pose proof (body_neg a c k Hac Hc0) as Hbody. cbv zeta in Hbody. rewrite <- Ek in Hbody.
    assert (match a with [] => c | b0 :: _ => b0 end = b) as Eb by (destruct a; cbn in Ek; by injection Ek).
    rewrite Eb in Hval, Hbody. unfold signed.
    enough (forall pad : bool, pad = (128 <? b) || (b =? 128) && negb (bool_decide (a = [])) ->
      exists pb X, Some (if pad then Some 255 else None, true) = Some (pb, true) /\ octets true (b :: bs) X /\
       int_val (byte_pad pb ++ X) = - be_val (b :: bs) /\ (canonical true (b :: bs) = true -> byte_pad pb ++ X = int_body (- be_val (b :: bs)))) as H.
    + destruct (128 <? b) eqn:E1; [by apply (H true)|]. destruct (b =? 128) eqn:E2; [|by apply (H false)].
      pose proof (any_nonzero_spec s [b] bs (Z.to_nat (slen s)) Hs) as Hany. cbn [length] in Hany, El.
      change (Z.of_nat 1) with 1 in Hany. rewrite Hany by lia. cbn [mbind option_bind]. 
      apply (H (existsb _ bs)). cbn [orb andb]. destruct a as [|b' a]; cbn in Ek; injection Ek as E3 E4; rewrite E4.
      * rewrite existsb_zeros. by rewrite bool_decide_eq_true_2.
      * rewrite existsb_app. cbn [existsb]. rewrite (proj2 (Z.eqb_neq c 0)) by done. cbn [negb orb]. rewrite orb_true_r. done.
    + intros pad ->. eexists _, (twos a c k). split; [reflexivity|]. split; [by exists a, c, k|].
      destruct ((128 <? b) || (b =? 128) && negb (bool_decide (a = []))); cbn [byte_pad app]; (split; [done|]); intros Hc; by rewrite Hbody.
  - unfold signed. apply Forall_cons in Hb as [Hb1 Hb]. unfold in_u in Hb1. destruct (127 <? b) eqn:E; (apply Z.ltb_lt in E || apply Z.ltb_ge in E);
      eexists _, (b :: bs); (split; [reflexivity|]); (split; [done|]); cbn [byte_pad app].
    + split; [rewrite int_val_nonneg by lia; rewrite (be_val_cons 0); lia|]. intros Hc. rewrite body_nonneg by (constructor || done; done).
      by rewrite (proj2 (Z.ltb_lt 127 b)).
    + split; [by rewrite int_val_nonneg by lia|]. intros Hc. rewrite body_nonneg by (constructor || done; done).
      by rewrite (proj2 (Z.ltb_ge 127 b)).
Qed.

(** The octets in the room for them. *)
Lemma i2c_writes s neg bs pb X : int_string s neg bs -> bs <> [] -> integer_padding s = Some (pb, neg) -> octets neg bs X ->
  let Y := byte_pad pb ++ X in
  i2c_ASN1_INTEGER (Some s) None = Some (Z.of_nat (length Y), None) /\
  forall pre old post, length old = length Y ->
    i2c_ASN1_INTEGER (Some s) (Some (pre ++ old ++ post, Z.of_nat (length pre)))
    = Some (Z.of_nat (length Y), Some (pre ++ Y ++ post, Z.of_nat (length pre) + Z.of_nat (length Y))).
Proof.
  intros Hi Hne Ep HX Y. pose proof (i_contents _ _ _ Hi) as [El [spost Ed]]. pose proof (i_size _ _ _ Hi) as Hz.
  pose proof (length_octets neg bs X HX) as Hlx. unfold i2c_ASN1_INTEGER.
  assert (0 < length bs)%nat as Hl by (destruct bs; [done|cbn; lia]).
  destruct (slen s =? 0) eqn:E0; [apply Z.eqb_eq in E0; lia|]. clear E0. rewrite Ep. cbn [mbind option_bind].
  assert (Z.of_nat (length Y) = slen s + match pb with Some _ => 1 | None => 0 end) as Elen.
  { unfold Y. rewrite length_app. destruct pb; cbn [byte_pad length]; lia. }
  rewrite i32_in by (destruct pb; in_range). cbn [mbind option_bind]. rewrite <- Elen. split; [done|].
  intros pre old post Hold.
  assert (exists o1 o2, old = o1 ++ o2 /\ length o2 = length bs /\
    match pb with Some b => out ← wr (pre ++ old ++ post) (Z.of_nat (length pre)) b; Some (out, Z.of_nat (length pre) + 1)
    | None => Some (pre ++ old ++ post, Z.of_nat (length pre)) end
    = Some ((pre ++ byte_pad pb) ++ o2 ++ post, Z.of_nat (length (pre ++ byte_pad pb)))) as (o1 & o2 & -> & Ho2 & ->).
  { destruct pb as [b|].
    - destruct old as [|x old]; [cbn [length] in Hold; lia|]. exists [x], old. split; [done|]. cbn [length] in Hold. split; [lia|].
      cbn [app]. unfold wr. rewrite (wrs_mid pre [x] (old ++ post) [b]) by done. cbn [mbind option_bind byte_pad]. rewrite <- app_assoc, length_app. cbn [app length].
      do 2 f_equal. lia.
    - exists [], old. split; [done|]. split; [lia|]. cbn [byte_pad]. by rewrite app_nil_r. }
  cbn [mbind option_bind]. rewrite Ed. cbn [mbind option_bind].
  assert ((if negb neg then v ← rds (bs ++ spost) 0 (slen s); wrs ((pre ++ byte_pad pb) ++ o2 ++ post) (Z.of_nat (length (pre ++ byte_pad pb))) v
     else z ← negate_zeros (Z.to_nat (slen s)) ((pre ++ byte_pad pb) ++ o2 ++ post) (Z.of_nat (length (pre ++ byte_pad pb)) + (slen s - 1)) (bs ++ spost) (slen s - 1) (slen s);
          let '(out, p, n, i) := z in negate_rest out p (bs ++ spost) n i)
     = Some (pre ++ Y ++ post)) as ->; [|done].
  unfold Y. clear Y Elen Hold. set (q := pre ++ byte_pad pb). destruct neg; cbn [negb].
  - destruct HX as (a & c & k & Ek & Hac & Hc0 & ->). rewrite El, Ek. rewrite <- (app_assoc a). cbn [app]. rewrite Nat2Z.id.
    assert (exists p1 x p2, o2 = p1 ++ x :: p2 /\ length p1 = length a /\ length p2 = k) as (p1 & x & p2 & -> & Hp1 & Hp2).
    { rewrite Ek, length_app in Ho2. cbn [length] in Ho2. rewrite length_replicate in Ho2.
      exists (take (length a) o2). destruct (drop (length a) o2) as [|x p2] eqn:Ex.
      - apply (f_equal length) in Ex. rewrite length_drop in Ex. cbn in Ex. lia.
      - exists x, p2. rewrite <- Ex, take_drop, length_take. apply (f_equal length) in Ex. rewrite length_drop in Ex. cbn in Ex. split_and!; lia || done. }
    assert (Z.of_nat (length (a ++ c :: replicate k 0)) = Z.of_nat (length a) + Z.of_nat k + 1) as -> by (rewrite length_app; cbn [length]; rewrite length_replicate; lia).
    replace (Z.of_nat (length a) + Z.of_nat k + 1 - 1) with (Z.of_nat (length a) + Z.of_nat k) by lia.
    rewrite <- (app_assoc p1). cbn [app].
    pose proof (negate_zeros_spec a c k q p1 x p2 post [] spost (length (a ++ c :: replicate k 0))) as Hz'. cbn [app length] in Hz'.
    rewrite Z.add_0_l in Hz'. rewrite Hz'; [|done|done|rewrite length_app; cbn [length]; rewrite length_replicate; lia|by left].
    cbn [mbind option_bind]. rewrite Z.add_0_l.
    pose proof (negate_rest_spec a c q p1 x (replicate k 0 ++ post) [] (replicate k 0 ++ spost) Hp1) as Hr. cbn [app length] in Hr. rewrite Z.add_0_l in Hr.
    rewrite Hr. unfold q, twos. rewrite <- !app_assoc. done.
  - rewrite HX, El, rds_prefix. cbn [mbind option_bind]. unfold q. rewrite wrs_mid by done. rewrite <- !app_assoc. done.
Qed.

(** The encoding of any integer: octets that denote it, the shortest ones if
    its magnitude is canonical. *)
Lemma i2c_any s neg bs : int_string s neg bs -> (neg = true -> be_val bs <> 0) ->
  exists Y, Y <> [] /\ int_val Y = signed neg bs /\ (canonical neg bs = true -> Y = int_body (signed neg bs)) /\
    i2c_ASN1_INTEGER (Some s) None = Some (Z.of_nat (length Y), None) /\
    forall pre old post, length old = length Y ->
      i2c_ASN1_INTEGER (Some s) (Some (pre ++ old ++ post, Z.of_nat (length pre)))
      = Some (Z.of_nat (length Y), Some (pre ++ Y ++ post, Z.of_nat (length pre) + Z.of_nat (length Y))).
Proof.
  intros Hi Hv. destruct (decide (bs = [])) as [->|Hne].
  - exists [0]. pose proof (i_contents _ _ _ Hi) as [El _]. change (slen s = 0) in El. destruct neg; [by destruct (Hv eq_refl)|].
    split_and!; [done|done|done|unfold i2c_ASN1_INTEGER; by rewrite El|].
    intros pre old post Hold. destruct old as [|x [|y old]]; try done. unfold i2c_ASN1_INTEGER. rewrite El. cbn [mbind option_bind Z.eqb app].
    unfold wr. by rewrite (wrs_mid pre [x] post [0]).
  - destruct (integer_padding_spec s neg bs Hi Hne Hv) as (pb & X & Ep & HX & Hval & Hc). exists (byte_pad pb ++ X).
    destruct (i2c_writes s neg bs pb X Hi Hne Ep HX) as [H1 H2]. split_and!; try done.
    intros E. apply app_nil in E as [_ ->]. apply length_octets in HX. by destruct bs.
Qed.

Lemma i2c_spec s v : is_int s v ->
  i2c_ASN1_INTEGER (Some s) None = Some (Z.of_nat (length (int_body v)), None) /\
  forall pre old post, length old = length (int_body v) ->
    i2c_ASN1_INTEGER (Some s) (Some (pre ++ old ++ post, Z.of_nat (length pre)))
    = Some (Z.of_nat (length (int_body v)), Some (pre ++ int_body v ++ post, Z.of_nat (length pre) + Z.of_nat (length (int_body v)))).
Proof.
  intros (neg & bs & Hi & Hc & ->). destruct (i2c_any s neg bs Hi) as (Y & _ & _ & HY & H1 & H2).
  - intros ->. apply canonical_positive; [apply (i_bytes _ _ _ Hi)|done].
  - rewrite <- HY by done. by split.
Qed.

Lemma canonical_hd neg bs : canonical neg bs = true -> hd 0 bs <> 0 \/ bs = [0] /\ neg = false.
Proof.
  destruct bs as [|b bs]; [done|]. cbn [canonical hd]. intros H. apply orb_true_iff in H as [H|H]; [left; by apply negb_true_iff, Z.eqb_neq in H|].
  apply andb_true_iff in H as [Hb Hn]. apply bool_decide_eq_true in Hb as ->. apply negb_true_iff in Hn. destruct (decide (b = 0)) as [->|]; [by right|by left].
Qed.

(** The type and the contents determine the sign and the magnitude. *)
Lemma int_string_same s t neg neg' bs bs' : int_string s neg bs -> int_string t neg' bs' ->
  neg = neg' /\ bs = bs' <-> stype t = stype s /\ contents t bs.
Proof.
  intros Hs Ht. rewrite (i_type _ _ _ Hs), (i_type _ _ _ Ht). split; [intros [<- <-]; split; [done|apply (i_contents _ _ _ Ht)]|].
  intros [Hty [Hl [post Hd]]]. destruct (i_contents _ _ _ Ht) as [Hl' [post' Hd']]. split; [by destruct neg, neg'|].
  rewrite Hd in Hd'. injection Hd' as E. apply app_inj_1 in E as [-> _]; [done|lia].
Qed.

(** ** [c2i_ASN1_INTEGER] *)

(** The magnitude the code stores for the contents [bs], and the sign. *)
Inductive read_as : list Z -> bool -> list Z -> Prop :=
| Read_empty : read_as [] false []
| Read_pos skip b bs : b < 128 -> (skip = [] \/ skip = [0]) -> (skip = [] -> b = 0 -> bs = []) ->
    read_as (skip ++ b :: bs) false (b :: bs)
| Read_pos_high b bs : 128 <= b -> read_as (0 :: b :: bs) false (b :: bs)
| Read_neg skip a c k : (skip = [] \/ skip = [255]) -> c <> 0 ->
    (skip = [] -> 128 <= hd c a /\ (hd c a = 255 -> a = [] /\ k = 0%nat)) ->
    read_as (skip ++ a ++ c :: replicate k 0) true (twos a c k)
| Read_power k : read_as (255 :: replicate (S k) 0) true (1 :: replicate (S k) 0).

Lemma read_as_bytes bs neg ds : read_as bs neg ds -> bytes bs -> bytes ds /\ Z.of_nat (length ds) <= Z.of_nat (length bs) .
Proof.
  intros H Hb. destruct H as [|skip b bs H Hs _|b bs H|skip a c k Hs Hc _|k].
  - done.
  - apply Forall_app in Hb as [_ Hb]. split; [done|]. rewrite length_app. lia.
  - apply Forall_cons in Hb as [_ Hb]. split; [done|]. cbn [length]. lia.
  - apply Forall_app in Hb as [_ Hb]. apply Forall_app in Hb as [Ha _]. split; [by apply twos_bytes|]. rewrite length_twos, (length_app skip). lia.
  - split; [|cbn [length]; lia]. constructor; [unfold in_u; lia|]. apply Forall_replicate. unfold in_u; lia.
Qed.

Lemma hd_app_cons (a : list Z) c l : exists t, a ++ c :: l = hd c a :: t.
Proof. destruct a; by eexists. Qed.

Lemma read_as_val bs neg ds : read_as bs neg ds -> bytes bs -> signed neg ds = int_val bs.
Proof.
  intros H Hb. destruct H as [|skip b bs H Hs _|b bs H|skip a c k Hs Hc Hsk|k]; cbn [signed].
  - done.
  - destruct Hs as [-> | ->]; cbn [app]; rewrite int_val_nonneg by lia; [done|]. rewrite (be_val_cons 0). lia.
  - rewrite int_val_nonneg by lia. rewrite (be_val_cons 0). lia.
  - apply Forall_app in Hb as [_ Hb]. pose proof Hb as Hb'. apply Forall_app in Hb' as [Ha Hcc]. apply Forall_cons in Hcc as [Hcc _].
    rewrite be_val_twos by done. destruct Hs as [-> | ->]; cbn [app].
    + specialize (Hsk eq_refl) as [Hh _]. destruct (hd_app_cons a c (replicate k 0)) as [t Et]. rewrite Et, int_val_neg by done. lia.
    + rewrite int_val_neg by lia. rewrite be_val_cons. cbn [length]. rewrite pow8_S. lia.
  - rewrite int_val_neg by lia. rewrite !be_val_cons, be_val_zeros. cbn [length]. rewrite (pow8_S (length (replicate (S k) 0))). lia.
Qed.

Lemma read_as_canonical bs neg ds : read_as bs neg ds -> bytes bs -> (CBS_is_valid_asn1_integer bs).1 = true -> canonical neg ds = true.
Proof.
  intros H Hb Hv. destruct H as [|skip b bs H Hs Hz|b bs H|skip a c k Hs Hc Hsk|k]; cbn [canonical].
  - done.
  - destruct Hs as [-> | ->].
    + destruct (b =? 0) eqn:E; [|done]. apply Z.eqb_eq in E. rewrite Hz by done. done.
    + cbn [app] in *. apply Forall_cons in Hb as [H0 Hb]. apply Forall_cons in Hb as [Hb _]. rewrite valid_cons in Hv by done.
      rewrite (proj2 (Z.ltb_lt b 128)) in Hv by done. done.
  - by rewrite (proj2 (Z.eqb_neq b 0)) by lia.
  - apply Forall_app in Hb as [Hbs Hb]. pose proof Hb as Hb'. apply Forall_app in Hb' as [Ha Hcc]. apply Forall_cons in Hcc as [Hcc _].
    assert (bytes (a ++ [c])) as Hac by (apply Forall_app; split; [done|by constructor]).
    destruct (twos_head a c k Hac Hc) as (h & X & -> & Hh & HX). cbn [canonical]. assert (h <> 0); [|by rewrite (proj2 (Z.eqb_neq h 0))].
    assert (in_u 8 (hd c a)) as Hhd by (destruct a; [done|by apply Forall_cons in Ha as [? _]]).
    unfold in_u in *. destruct a as [|b a]; [lia|]. destruct HX as [-> _]. cbn [hd] in *.
    destruct Hs as [-> | ->].
    + specialize (Hsk eq_refl) as [_ Hsk]. intros E. destruct Hsk as [? _]; [lia|done].
    + cbn [app] in Hv. rewrite valid_cons in Hv by (unfold in_u; lia). apply negb_true_iff, orb_false_iff in Hv as [_ Hv].
      destruct (128 <=? b) eqn:E; [done|]. apply Z.leb_gt in E. lia.
  - done.
Qed.

(** A number that is read as negative is not zero. *)
Lemma read_as_nonzero bs ds : read_as bs true ds -> bytes bs -> be_val ds <> 0.
Proof.
  intros H Hb. inversion H as [| | |skip a c k Hs Hc Hsk|k]; subst.
  - apply Forall_app in Hb as [_ Hb]. apply Forall_app in Hb as [Ha Hcc]. apply Forall_cons in Hcc as [Hcc Hz].
    rewrite be_val_twos by done. pose proof (be_val_bound (a ++ c :: replicate k 0)) as Hbd.
    assert (bytes (a ++ c :: replicate k 0)) as Hall by (apply Forall_app; split; [done|by constructor]). specialize (Hbd Hall). lia.
  - rewrite be_val_cons, be_val_zeros. assert (0 < 2 ^ (8 * Z.of_nat (length (replicate (S k) 0)))) by (apply Z.pow_pos_nonneg; lia). lia.
Qed.

Lemma land_80_negb b : in_u 8 b -> negb (Z.land b 128 =? 0) = (128 <=? b).
Proof. intros Hb. unfold in_u in Hb. by_byte b. Qed.

Lemma wr_0 {A} (x y : A) l : wr (x :: l) 0 y = Some (y :: l).
Proof. exact (wrs_mid [] [x] l [y] 0 eq_refl eq_refl). Qed.

(** The loops on [n] bytes of a new object, after what was skipped. *)
Lemma c2i_negative skip bs s rest :
  (length bs < length s)%nat -> bs <> [] ->
  (forall k, bs = replicate k 0 -> skip = [255]) ->
  exists ds post, 
    (z ← read_zeros (Z.to_nat (Z.of_nat (length bs) + 1)) s (Z.of_nat (length bs) - 1) (skip ++ bs ++ rest)
            (Z.of_nat (length skip) + (Z.of_nat (length bs) - 1)) (Z.of_nat (length bs));
     let '(s, to, p, i) := z in
     if i =? 0 then s ← wr s 0 1; s ← wr s (Z.of_nat (length bs)) 0; Some (V_ASN1_NEG_INTEGER, s, Z.of_nat (length bs) + 1)
     else s ← negate_rest s to (skip ++ bs ++ rest) p i; Some (V_ASN1_NEG_INTEGER, s, Z.of_nat (length bs)))
    = Some (V_ASN1_NEG_INTEGER, ds ++ post, Z.of_nat (length ds)) /\
    ((exists k, bs = replicate (S k) 0 /\ ds = 1 :: replicate (S k) 0) \/
     (exists a c k, bs = a ++ c :: replicate k 0 /\ c <> 0 /\ ds = twos a c k)).
Proof.
  intros Hl Hne Hskip. set (n := length bs) in *.
  assert (exists s1 x s2, s = s1 ++ x :: s2 /\ length s1 = n) as (s1 & x & s2 & -> & Hs1).
  { exists (take n s). destruct (drop n s) as [|x s2] eqn:E; [apply (f_equal length) in E; rewrite length_drop in E; cbn in E; lia|].
    exists x, s2. rewrite <- E, take_drop, length_take. split; [done|lia]. }
  destruct (last_nonzero bs) as [[k Ek]|(a & c & k & Ek & Hc)].
  - pose proof (Hskip k Ek) as ->. assert (n = k) as En by (unfold n; rewrite Ek; apply length_replicate).
    destruct k as [|k]; [by rewrite Ek in Hne|]. exists (1 :: replicate (S k) 0), s2. split; [|left; by exists k].
    rewrite Ek. cbn [app length]. change (Z.of_nat 1) with 1. replace (1 + (Z.of_nat n - 1)) with (Z.of_nat n) by lia.
    pose proof (read_zeros_all (S k) [] s1 (x :: s2) [] 255 rest (Z.to_nat (Z.of_nat n + 1))) as Hr. cbn [app length] in Hr. rewrite !Z.add_0_l in Hr.
    rewrite En. rewrite En in Hr. rewrite Hr by lia. cbn [mbind option_bind]. change (0 =? 0) with true. cbn iota.
    cbn [replicate app]. rewrite wr_0. cbn [mbind option_bind].
    pose proof (wrs_mid (1 :: replicate k 0) [x] s2 [0] (Z.of_nat (S k))) as Hw. cbn [app] in Hw. unfold wr. rewrite Hw by (cbn; rewrite ?length_replicate; lia).
    cbn [mbind option_bind length]. rewrite length_replicate. f_equal. f_equal; [|lia]. f_equal. cbn [app]. 
    f_equal. change (replicate k 0 ++ 0 :: s2 = replicate (S k) 0 ++ s2). by rewrite replicate_S_end, <- app_assoc.
  - exists (twos a c k), (x :: s2). split; [|right; by exists a, c, k].
    assert (n = (length a + S k)%nat) as En by (unfold n; rewrite Ek, length_app; cbn [length]; by rewrite length_replicate).
    assert (exists p1 y p2, s1 = p1 ++ y :: p2 /\ length p1 = length a /\ length p2 = k) as (p1 & y & p2 & -> & Hp1 & Hp2).
    { exists (take (length a) s1). destruct (drop (length a) s1) as [|y p2] eqn:E; [apply (f_equal length) in E; rewrite length_drop in E; cbn in E; lia|].
      exists y, p2. rewrite <- E, take_drop, length_take. apply (f_equal length) in E. rewrite length_drop in E. cbn in E. split_and!; [done|lia|lia]. }
    rewrite Ek, <- (app_assoc a), <- (app_assoc p1). cbn [app].
    pose proof (read_zeros_spec a c k [] p1 y p2 (x :: s2) skip rest (Z.to_nat (Z.of_nat n + 1)) Hp2 Hp1 ltac:(lia) Hc) as Hr. cbn [app length] in Hr.
    replace (Z.of_nat 0 + (Z.of_nat (length a) + Z.of_nat k)) with (Z.of_nat n - 1) in Hr by lia.
    replace (Z.of_nat (length a) + Z.of_nat k + 1) with (Z.of_nat n) in Hr by lia.
    replace (Z.of_nat (length a) + Z.of_nat k) with (Z.of_nat n - 1) in Hr by lia. rewrite Hr. cbn [mbind option_bind].
    destruct (Z.of_nat (length a) + 1 =? 0) eqn:E; [apply Z.eqb_eq in E; lia|]. clear E.
    pose proof (negate_rest_spec a c [] p1 y (replicate k 0 ++ x :: s2) skip (replicate k 0 ++ rest) Hp1) as Hn. cbn [app length] in Hn.
    rewrite Hn. cbn [mbind option_bind]. unfold twos. rewrite <- !app_assoc. cbn [app]. do 3 f_equal.
    rewrite length_app, length_complement. cbn [length]. rewrite length_replicate. lia.
Qed.

Section Reading.
Context (malloc : Z -> option (list Z)).
Hypothesis malloc_size : forall n b, malloc n = Some b -> Z.of_nat (length b) = n.

(** The object that is filled in: the caller's or a new one. *)
Definition target (a : option asn1_string) : option asn1_string :=
  match a with None => ASN1_STRING_type_new malloc V_ASN1_INTEGER | Some _ => a end.

Lemma c2i_read a s0 buf bs rest :
  bytes bs -> Z.of_nat (length bs) <= INT_MAX / 2 -> target a = Some s0 -> malloc (Z.of_nat (length bs) + 1) = Some buf ->
  exists s neg ds, c2i_ASN1_INTEGER malloc a (bs ++ rest) (Z.of_nat (length bs)) = Some (Some s) /\
    read_as bs neg ds /\ int_string s neg ds /\ sflags s = sflags s0.
Proof.
  intros Hb Hz Ht Hm. pose proof (malloc_size _ _ Hm) as Hl. unfold c2i_ASN1_INTEGER.
  rewrite (proj2 (Z.ltb_ge (Z.of_nat (length bs)) 0)), (proj2 (Z.ltb_ge (INT_MAX / 2) (Z.of_nat (length bs)))) by lia. cbn [orb].
  fold (target a). rewrite Ht, Hm. change (INT_MAX / 2) with 1073741823 in Hz.
  match goal with |- context [mbind _ ?t] => assert (exists (neg : bool) (ds post : list Z),
    t = Some (if neg then V_ASN1_NEG_INTEGER else V_ASN1_INTEGER, ds ++ post, Z.of_nat (length ds)) /\ read_as bs neg ds) as (neg & ds & post & -> & Hr) end.
  { destruct bs as [|b bs].
    { exists false, [], buf. split; [done|constructor]. }
    rewrite (proj2 (Z.eqb_neq (Z.of_nat (length (b :: bs))) 0)) by (cbn [length]; lia).
    pose proof (rd_app [] b (bs ++ rest)) as Erd. cbn [app length] in Erd. change (Z.of_nat 0) with 0 in Erd.
    cbn [app]. rewrite Erd. cbn [mbind option_bind].
    pose proof Hb as Hb'. apply Forall_cons in Hb' as [Hb1 Hbs]. rewrite land_80_negb by done.
    destruct (128 <=? b) eqn:E; [apply Z.leb_le in E|apply Z.leb_gt in E].
    - destruct ((b =? 255) && negb (Z.of_nat (length (b :: bs)) =? 1)) eqn:E1.
      + apply andb_true_iff in E1 as [E1 E2]. apply Z.eqb_eq in E1 as ->. apply negb_true_iff, Z.eqb_neq in E2. cbn [length] in *.
        replace (Z.of_nat (S (length bs)) - 1) with (Z.of_nat (length bs)) by lia.
        destruct (c2i_negative [255] bs buf rest) as (ds & post & Ec & Hds); [lia|by intros ->|done|]. cbn [app length] in Ec.
        change (Z.of_nat 1) with 1 in Ec. rewrite Ec. exists true, ds, post. split; [done|].
        destruct Hds as [(k & -> & ->)|(a' & c & k & -> & Hc & ->)]; [apply Read_power|].
        apply (Read_neg [255]); [by right|done|done].
      + destruct (c2i_negative [] (b :: bs) buf rest) as (ds & post & Ec & Hds); [cbn [length] in *; lia|done| |].
        { intros k Ek. destruct k; [done|]. cbn in Ek. injection Ek as -> _. lia. }
        cbn [app] in Ec. change (Z.of_nat (length [])) with 0 in Ec. rewrite Ec. exists true, ds, post. split; [done|].
        destruct Hds as [(k & Ek & ->)|(a' & c & k & Ek & Hc & ->)]; [cbn in Ek; injection Ek as -> _; lia|].
        rewrite Ek. apply (Read_neg []); [by left|done|]. intros _. destruct (hd_app_cons a' c (replicate k 0)) as [t Et].
        rewrite Et in Ek. injection Ek as -> Ek'. split; [done|]. intros E255. rewrite E255 in E1. cbn [Z.eqb andb Pos.eqb] in E1.
        apply negb_false_iff, Z.eqb_eq in E1. apply (f_equal length) in Et. cbn [length] in E1, Et. rewrite length_app in Et. cbn [length] in Et. rewrite length_replicate in Et.
        subst bs. destruct a'; [|cbn [length] in Et; lia]. split; [done|]. cbn [length] in Et. lia.
    - destruct ((b =? 0) && negb (Z.of_nat (length (b :: bs)) =? 1)) eqn:E1.
      + apply andb_true_iff in E1 as [E1 E2]. apply Z.eqb_eq in E1 as ->. apply negb_true_iff, Z.eqb_neq in E2. cbn [length] in *.
        replace (Z.of_nat (S (length bs)) - 1) with (Z.of_nat (length bs)) by lia.
        pose proof (rds_at [0] bs rest) as Er. cbn [app length] in Er. change (Z.of_nat 1) with 1 in Er. rewrite Er. cbn [mbind option_bind].
        destruct bs as [|b bs]; [done|]. exists false, (b :: bs), (drop (length (b :: bs)) buf). split.
        * pose proof (wrs_mid [] (take (length (b :: bs)) buf) (drop (length (b :: bs)) buf) (b :: bs) 0) as Hw. cbn [app] in Hw. rewrite take_drop in Hw.
          rewrite Hw by (rewrite ?length_take; cbn [length] in *; lia). done.
        * destruct (decide (b < 128)); [|apply Read_pos_high; lia]. apply (Read_pos [0]); [done|by right|done].
      + pose proof (rds_prefix (b :: bs) rest) as Er. cbn [app] in Er. rewrite Er. cbn [mbind option_bind].
        exists false, (b :: bs), (drop (length (b :: bs)) buf). split.
        * pose proof (wrs_mid [] (take (length (b :: bs)) buf) (drop (length (b :: bs)) buf) (b :: bs) 0) as Hw. cbn [app] in Hw. rewrite take_drop in Hw.
          rewrite Hw by (rewrite ?length_take; cbn [length] in *; lia). done.
        * apply (Read_pos []); [done|by left|]. intros _ ->. cbn [Z.eqb andb] in E1. apply negb_false_iff, Z.eqb_eq in E1. destruct bs; [done|]. cbn [length] in E1. lia. }
  cbn [mbind option_bind]. destruct (read_as_bytes _ _ _ Hr Hb) as [Hbd Hld]. eexists _, neg, ds. split; [reflexivity|]. split; [done|]. split; [|done].
  constructor; [|done|by destruct neg|lia]. split; [done|]. by exists post.
Qed.

(** NULL is returned for want of memory only. *)
Lemma c2i_null a bs rest :
  Z.of_nat (length bs) <= INT_MAX / 2 -> target a = None \/ malloc (Z.of_nat (length bs) + 1) = None ->
  c2i_ASN1_INTEGER malloc a (bs ++ rest) (Z.of_nat (length bs)) = Some None.
Proof.
  intros Hz H. unfold c2i_ASN1_INTEGER.
  rewrite (proj2 (Z.ltb_ge (Z.of_nat (length bs)) 0)), (proj2 (Z.ltb_ge (INT_MAX / 2) (Z.of_nat (length bs)))) by lia. cbn [orb].
  fold (target a). destruct H as [-> | H]; [done|]. destruct (target a); [|done]. by rewrite H.
Qed.
End Reading.

(** ** BoringSSL: setting, reading and comparing ASN.1 integers *)

(** ** Setting *)

Lemma bytes8_be v : bytes8 v = be 8 v.
Proof.
  rewrite !be_cons. unfold be, bytes8. cbn [seqZ rev le_split]. change (seqZ 0 8) with [0; 1; 2; 3; 4; 5; 6; 7]. cbn [fmap list_fmap].
  repeat (rewrite land_FF; rewrite shiftr_div by lia). done.
Qed.

Lemma leading_zeros_spec pre bs fuel :
  (7 - length pre <= fuel)%nat -> (length (pre ++ bs) = 8)%nat -> bs <> [] ->
  exists k bs', bs = replicate k 0 ++ bs' /\ leading_zeros_loop fuel (pre ++ bs) (Z.of_nat (length pre)) = Some (Z.of_nat (length pre + k)) /\
    match bs' with [] => False | b :: t => b <> 0 \/ t = [] end.
Proof.
  revert pre fuel. induction bs as [|b bs IH]; intros pre fuel Hf Hl Hne; [done|]. clear Hne.
  rewrite length_app in Hl. cbn [length] in Hl.
  destruct (decide (length pre = 7)%nat) as [E7|].
  { exists 0%nat, (b :: bs). split; [done|]. split; [|right; destruct bs; [done|cbn in Hl; lia]].
    rewrite E7. change (Z.of_nat 7) with 7. by destruct fuel. }
  destruct fuel as [|fuel]; [lia|]. cbn [leading_zeros_loop]. rewrite (proj2 (Z.ltb_lt _ 7)) by lia. rewrite rd_app. cbn [mbind option_bind].
  destruct (b =? 0) eqn:E; [apply Z.eqb_eq in E as ->|apply Z.eqb_neq in E]; cbn [negb].
  - destruct (IH (pre ++ [0]) fuel) as (k & bs' & -> & El & Hbs').
    + rewrite length_app. cbn [length]. lia.
    + rewrite !length_app. cbn [length]. lia.
    + intros ->. cbn [length] in Hl. lia.
    + exists (S k), bs'. split; [done|]. split; [|done]. rewrite <- app_assoc, length_app in El. cbn [app length] in El.
      replace (Z.of_nat (length pre) + 1) with (Z.of_nat (length pre + 1)) by lia. rewrite El. f_equal. lia.
  - exists 0%nat, (b :: bs). split; [done|]. split; [f_equal; lia|by left].
Qed.

Section Setting.
Context (malloc : Z -> option (list Z)).
Hypothesis malloc_size : forall n b, malloc n = Some b -> Z.of_nat (length b) = n.

Lemma set_uint64_spec out v : in_u 64 v ->
  match malloc 8 with
  | None => ASN1_INTEGER_set_uint64 malloc out v = Some (false, out)
  | Some _ => exists s ds, ASN1_INTEGER_set_uint64 malloc out v = Some (true, s) /\
      int_string s false ds /\ be_val ds = v /\ canonical false ds = true /\ sflags s = sflags out
  end.
Proof.
  intros Hv. unfold ASN1_INTEGER_set_uint64. destruct (malloc 8) as [buf|] eqn:E; [|done]. pose proof (malloc_size _ _ E) as Hl.
  pose proof (wrs_mid [] buf [] (be 8 v) 0 eq_refl) as Hw. cbn [app] in Hw. rewrite !app_nil_r, length_be in Hw.
  rewrite bytes8_be, Hw by lia. cbn [mbind option_bind].
  destruct (leading_zeros_spec [] (be 8 v) 7) as (k & ds & Eb & El & Hds); [done|exact (length_be 8 v)| |].
  { intros H. apply (f_equal length) in H. by rewrite length_be in H. }
  cbn [app length] in El. change (Z.of_nat 0) with 0 in El. rewrite El. cbn [mbind option_bind]. rewrite Nat.add_0_l.
  pose proof (f_equal length Eb) as Elen. rewrite length_be, length_app, length_replicate in Elen.
  pose proof (rds_at (replicate k 0) ds []) as Hr. rewrite app_nil_r, length_replicate in Hr.
  replace (8 - Z.of_nat k) with (Z.of_nat (length ds)) by lia. rewrite Eb, Hr. cbn [mbind option_bind].
  pose proof (wrs_mid [] (take (length ds) (replicate k 0 ++ ds)) (drop (length ds) (replicate k 0 ++ ds)) ds 0 eq_refl) as Hw2. cbn [app] in Hw2.
  rewrite take_drop in Hw2. rewrite Hw2 by (rewrite length_take, length_app, length_replicate; lia). cbn [mbind option_bind].
  eexists _, ds. split; [reflexivity|]. pose proof (be_bytes 8 v) as Hb. rewrite Eb in Hb. apply Forall_app in Hb as [_ Hb].
  pose proof (be_val_be 8 v) as Ev. rewrite Eb, be_val_app, be_val_zeros in Ev. change (8 * Z.of_nat 8) with 64 in Ev.
  split_and!; try done.
  - constructor; [|done|done|lia]. split; [done|]. by eexists.
  - rewrite Z.mod_small in Ev by done. lia.
  - destruct ds as [|b t]; [done|]. cbn [canonical]. destruct Hds as [Hb0| ->].
    + by rewrite (proj2 (Z.eqb_neq b 0)).
    + rewrite bool_decide_eq_true_2 by done. apply orb_true_r.
Qed.

Lemma set_spec a v : in_s 64 v ->
  match malloc 8 with
  | None => ASN1_INTEGER_set malloc a v = Some (false, a)
  | Some _ => exists s, ASN1_INTEGER_set malloc a v = Some (true, s) /\ is_int s v
  end.
Proof.
  intros Hv. unfold in_s in Hv. unfold ASN1_INTEGER_set. destruct (0 <=? v) eqn:E; (apply Z.leb_le in E || apply Z.leb_gt in E).
  - pose proof (set_uint64_spec a v ltac:(unfold in_u; lia)) as H. destruct (malloc 8); [|done].
    destruct H as (s & ds & -> & Hi & Hd & Hc & _). exists s. split; [done|]. by exists false, ds.
  - assert (u64 (0 - u64 v) = - v) as -> by (unfold wrapu; lia).
    pose proof (set_uint64_spec a (- v) ltac:(unfold in_u; lia)) as H. destruct (malloc 8); [|by rewrite H].
    destruct H as (s & ds & -> & Hi & Hd & Hc & _). cbn [mbind option_bind]. eexists. split; [reflexivity|]. exists true, ds. split_and!.
    + destruct Hi as [[Hl [post Hp]] Hb Ht Hz]. constructor; [|done|done|done]. split; [done|]. by exists post.
    + destruct ds as [|b t]; [done|]. cbn [canonical] in *. destruct (b =? 0) eqn:E0; [|done]. apply Z.eqb_eq in E0 as ->.
      cbn [negb orb] in Hc. rewrite andb_true_r in Hc. apply bool_decide_eq_true in Hc as ->. change (be_val [0]) with 0 in Hd. lia.
    + cbn. lia.
Qed.
End Setting.

(** ** Reading *)

Lemma get_loop_spec bs pre post acc fuel :
  bytes bs -> (length bs <= fuel)%nat ->
  get_loop fuel (pre ++ bs ++ post) (Z.of_nat (length pre + length bs)) (Z.of_nat (length pre)) acc
  = Some (foldl (fun result b => Z.lor (u64 (Z.shiftl result 8)) b) acc bs).
Proof.
  intros Hb. revert pre acc fuel. induction Hb as [|b bs _ _ IH]; intros pre acc fuel Hf.
  - cbn [length foldl]. rewrite Nat.add_0_r. destruct fuel; cbn [get_loop]; by rewrite Z.ltb_irrefl.
  - cbn [length] in *. destruct fuel as [|fuel]; [lia|]. cbn [get_loop]. rewrite (proj2 (Z.ltb_lt _ _)) by lia.
    cbn [app]. rewrite rd_app. cbn [mbind option_bind foldl]. rewrite <- (IH (pre ++ [b]) _ fuel) by lia. rewrite <- app_assoc, length_app.
    cbn [app length]. f_equal; lia.
Qed.

(** The first byte of a canonical number decides how large it is. *)
Lemma canonical_large neg bs : bytes bs -> canonical neg bs = true -> (1 < length bs)%nat -> 2 ^ (8 * Z.of_nat (length bs - 1)) <= be_val bs.
Proof.
  intros Hb Hc Hl. destruct Hb as [|b bs Hb Hbs]; [done|]. cbn [canonical length] in *. destruct bs as [|c bs]; [cbn in Hl; lia|].
  rewrite bool_decide_eq_false_2, orb_false_r in Hc by done. apply negb_true_iff, Z.eqb_neq in Hc. unfold in_u in Hb.
  rewrite be_val_cons. pose proof (be_val_bound (c :: bs) Hbs). rewrite Nat.sub_1_r. cbn [Nat.pred]. nia.
Qed.

(** More than eight bytes are not read, and no magnitude of 64 bits. *)
Lemma get_any s neg bs : int_string s neg bs ->
  ASN1_INTEGER_get (Some s) = Some (if bool_decide (Z.of_nat (length bs) <= 8 /\ be_val bs < 2 ^ 63) then signed neg bs else -1).
Proof.
  intros [[El [post Ed]] Hb Ht Hz]. pose proof (be_val_bound bs Hb) as Hbd.
  assert (ASN1_INTEGER_get (Some s) = get_magnitude neg s) as ->.
  { unfold ASN1_INTEGER_get. rewrite Ht. by destruct neg. }
  unfold get_magnitude. destruct (8 <? slen s) eqn:E; (apply Z.ltb_lt in E || apply Z.ltb_ge in E).
  - rewrite bool_decide_eq_false_2 by lia. done.
  - rewrite Ed. rewrite bool_decide_eq_true_2 by done.
    assert (be_val bs < 2 ^ 64) by (assert (2 ^ (8 * Z.of_nat (length bs)) <= 2 ^ 64) by (apply Z.pow_le_mono_r; lia); lia).
    pose proof (get_loop_spec bs [] post 0 8 Hb ltac:(lia)) as Hg. cbn [app length] in Hg. rewrite Nat.add_0_l in Hg. change (Z.of_nat 0) with 0 in Hg.
    rewrite El, Hg. rewrite be_fold by (try done; lia). rewrite Z.mul_0_l, Z.add_0_l. cbn [mbind option_bind andb].
    change LONG_MAX with (2 ^ 63 - 1). destruct (2 ^ 63 - 1 <? be_val bs) eqn:E1; (apply Z.ltb_lt in E1 || apply Z.ltb_ge in E1).
    + by rewrite bool_decide_eq_false_2 by lia.
    + rewrite bool_decide_eq_true_2 by lia. cbv zeta. rewrite wraps_id by (unfold in_s; lia). unfold signed. destruct neg; [|done].
      by rewrite i64_in by (unfold in_s; lia).
Qed.

Lemma get_spec s v : is_int s v ->
  ASN1_INTEGER_get (Some s) = Some (if bool_decide (Z.abs v < 2 ^ 63) then v else -1).
Proof.
  intros (neg & bs & Hi & Hc & ->). rewrite (get_any s neg bs Hi). pose proof (i_bytes _ _ _ Hi) as Hb. pose proof (be_val_bound bs Hb) as Hbd.
  assert (Z.abs (signed neg bs) = be_val bs) as -> by (unfold signed; destruct neg; lia).
  destruct (decide (Z.of_nat (length bs) <= 8)).
  - destruct (decide (be_val bs < 2 ^ 63)); [by rewrite !bool_decide_eq_true_2|]. by rewrite !bool_decide_eq_false_2 by lia.
  - pose proof (canonical_large neg bs Hb Hc ltac:(lia)).
    assert (2 ^ 64 <= 2 ^ (8 * Z.of_nat (length bs - 1))) by (apply Z.pow_le_mono_r; lia). by rewrite !bool_decide_eq_false_2 by lia.
Qed.

(** ** Comparing *)

Lemma memcmp_val a b : bytes a -> bytes b -> length a = length b ->
  Z.sgn (memcmp a b) = Z.sgn (be_val a - be_val b) /\ - 255 <= memcmp a b <= 255.
Proof.
  intros Ha. revert b. induction Ha as [|x a Hx Ha IH]; intros [|y b] Hb Hl; try done. cbn [length] in Hl. injection Hl as Hl.
  apply Forall_cons in Hb as [Hy Hb]. cbn [memcmp]. destruct (IH b Hb Hl) as [IH1 IH2]. rewrite !be_val_cons, Hl.
  pose proof (be_val_bound a Ha). pose proof (be_val_bound b Hb). rewrite Hl in *. set (p := 2 ^ (8 * Z.of_nat (length b))) in *.
  unfold in_u in *. destruct (x =? y) eqn:E; [apply Z.eqb_eq in E as ->; split; [rewrite IH1; f_equal; lia|lia]|]. apply Z.eqb_neq in E.
  split; [|lia]. destruct (decide (x < y)); [rewrite !Z.sgn_neg by nia|rewrite !Z.sgn_pos by nia]; done.
Qed.

Lemma canonical_order neg a b : bytes a -> bytes b -> canonical neg a = true -> canonical neg b = true ->
  (length a < length b)%nat -> be_val a < be_val b.
Proof.
  intros Ha Hb Hca Hcb Hl. pose proof (be_val_bound a Ha). assert (a <> []) by (intros ->; done).
  assert (1 < length b)%nat by (destruct a; [done|cbn [length] in Hl; lia]). pose proof (canonical_large neg b Hb Hcb ltac:(done)).
  assert (2 ^ (8 * Z.of_nat (length a)) <= 2 ^ (8 * Z.of_nat (length b - 1))) by (apply Z.pow_le_mono_r; lia). lia.
Qed.

Lemma not_bit_string s neg bs : int_string s neg bs -> (stype s =? V_ASN1_BIT_STRING) = false.
Proof. intros H. rewrite (i_type _ _ _ H). by destruct neg. Qed.

(** Two strings of one sign are compared by their lengths, then by their bytes. *)
Lemma string_cmp_any x y neg a b : int_string x neg a -> int_string y neg b ->
  exists r, ASN1_STRING_cmp x y = Some r /\ - 255 <= r <= 255 /\
    Z.sgn r = if bool_decide (length a = length b) then Z.sgn (be_val a - be_val b) else Z.sgn (Z.of_nat (length a) - Z.of_nat (length b)).
Proof.
  intros Hx Hy. unfold ASN1_STRING_cmp. rewrite (not_bit_string x neg a Hx), (not_bit_string y neg b Hy). cbn [mbind option_bind].
  destruct Hx as [[Ex [px Dx]] Bx Tx _], Hy as [[Ey [py Dy]] By Ty _]. rewrite Ex, Ey, !Z.ltb_irrefl.
  destruct (Z.of_nat (length a) <? Z.of_nat (length b)) eqn:E1; [apply Z.ltb_lt in E1|apply Z.ltb_ge in E1].
  { exists (-1). rewrite bool_decide_eq_false_2 by lia. split; [done|]. rewrite (Z.sgn_neg (Z.of_nat _ - _)) by lia. done. }
  destruct (Z.of_nat (length b) <? Z.of_nat (length a)) eqn:E2; [apply Z.ltb_lt in E2|apply Z.ltb_ge in E2].
  { exists 1. rewrite bool_decide_eq_false_2 by lia. split; [done|]. rewrite (Z.sgn_pos (Z.of_nat _ - _)) by lia. done. }
  rewrite bool_decide_eq_true_2 by lia. destruct (memcmp_val a b Bx By ltac:(lia)) as [Hs Hr].
  assert (compare_data (sdata x) (sdata y) (Z.of_nat (length a)) = Some (memcmp a b)) as ->.
  { unfold compare_data. destruct a as [|c a]; [by destruct b|]. rewrite (proj2 (Z.eqb_neq _ 0)) by (cbn [length]; lia).
    rewrite Dx, Dy. cbn [mbind option_bind]. rewrite rds_prefix. cbn [mbind option_bind].
    replace (Z.of_nat (length (c :: a))) with (Z.of_nat (length b)) by lia. by rewrite rds_prefix. }
  cbn [mbind option_bind]. rewrite Tx, Ty, Z.ltb_irrefl. exists (memcmp a b). split; [|done].
  destruct (memcmp a b =? 0) eqn:E; [|done]. apply Z.eqb_eq in E as ->. done.
Qed.

Lemma string_cmp_spec x y neg a b : int_string x neg a -> int_string y neg b -> canonical neg a = true -> canonical neg b = true ->
  exists r, ASN1_STRING_cmp x y = Some r /\ Z.sgn r = Z.sgn (be_val a - be_val b) /\ - 255 <= r <= 255.
Proof.
  intros Hx Hy Ha Hb. destruct (string_cmp_any x y neg a b Hx Hy) as (r & E & Hr & Hs). exists r. split; [done|]. split; [|done].
  pose proof (i_bytes _ _ _ Hx) as Bx. pose proof (i_bytes _ _ _ Hy) as By. rewrite Hs. case_bool_decide as El; [done|].
  destruct (decide (length a < length b)%nat).
  - pose proof (canonical_order neg a b Bx By Ha Hb ltac:(lia)). by rewrite !Z.sgn_neg by lia.
  - pose proof (canonical_order neg b a By Bx Hb Ha ltac:(lia)). by rewrite !Z.sgn_pos by lia.
Qed.

(** Comparing is defined, and says equal for the same sign and magnitude only. *)
Lemma cmp_any x y n m a b : int_string x n a -> int_string y m b ->
  exists r, ASN1_INTEGER_cmp x y = Some r /\ (r = 0 <-> n = m /\ a = b).
Proof.
  intros Hx Hy. unfold ASN1_INTEGER_cmp. rewrite (is_neg_type x n a Hx), (is_neg_type y m b Hy).
  destruct (eqb n m) eqn:E; [apply eqb_prop in E as <-|apply eqb_false_iff in E].
  2: { eexists. split; [reflexivity|]. split; [by destruct n|]. by intros [? _]. }
  cbn [negb]. destruct (string_cmp_any x y n a b Hx Hy) as (r & -> & Hr & Hs). cbn [mbind option_bind].
  assert (r = 0 <-> n = n /\ a = b) as H0.
  { split; [|intros [_ ->]; rewrite bool_decide_eq_true_2, Z.sub_diag in Hs by done; by apply Z.sgn_null_iff].
    intros ->. case_bool_decide as El; symmetry in Hs; apply (proj1 (Z.sgn_null_iff _)) in Hs; [|lia]. split; [done|].
    rewrite <- (be_be_val a), <- (be_be_val b) by (apply (i_bytes _ _ _ Hx) || apply (i_bytes _ _ _ Hy)). f_equal; [done|lia]. }
  destruct n; [|by exists r]. rewrite i32_in by in_range. exists (- r). split; [done|]. rewrite <- H0. lia.
Qed.

Lemma cmp_spec x y v w : is_int x v -> is_int y w ->
  exists r, ASN1_INTEGER_cmp x y = Some r /\ Z.sgn r = Z.sgn (v - w).
Proof.
  intros (n & a & Hx & Ha & ->) (m & b & Hy & Hb & ->). unfold ASN1_INTEGER_cmp.
  rewrite (is_neg_type x n a Hx), (is_neg_type y m b Hy). pose proof (be_val_bound a (i_bytes _ _ _ Hx)). pose proof (be_val_bound b (i_bytes _ _ _ Hy)).
  assert (forall l, bytes l -> canonical true l = true -> 0 < be_val l) as Hpos.
  { intros l Hl Hc. pose proof (be_val_bound l Hl). destruct (decide (1 < length l)%nat) as [Hlen|Hlen].
    - pose proof (canonical_large true l Hl Hc Hlen). assert (0 < 2 ^ (8 * Z.of_nat (length l - 1))) by (apply Z.pow_pos_nonneg; lia). lia.
    - destruct l as [|c [|d l]]; [done| |cbn [length] in Hlen; lia]. cbn [canonical] in Hc. rewrite andb_false_r, orb_false_r in Hc.
      apply negb_true_iff, Z.eqb_neq in Hc. change (be_val [c]) with (c + 256 * 0) in *. apply Forall_inv in Hl. unfold in_u in Hl. lia. }
  destruct n, m; cbn [eqb negb signed].
  - destruct (string_cmp_spec x y true a b) as (r & -> & Hs & Hr); try done. cbn [mbind option_bind]. rewrite i32_in by in_range.
    exists (- r). split; [done|]. rewrite Z.sgn_opp, Hs, <- Z.sgn_opp. f_equal. lia.
  - exists (-1). split; [done|]. pose proof (Hpos a (i_bytes _ _ _ Hx) Ha). by rewrite !Z.sgn_neg by lia.
  - exists 1. split; [done|]. pose proof (Hpos b (i_bytes _ _ _ Hy) Hb). by rewrite !Z.sgn_pos by lia.
  - destruct (string_cmp_spec x y false a b) as (r & -> & Hs & Hr); try done. by exists r.
Qed.

(** ** From and to a BIGNUM *)

Section Bignums.
Context (malloc : Z -> option (list Z)).
Hypothesis malloc_size : forall n b, malloc n = Some b -> Z.of_nat (length b) = n.

(** An object whose length is not more than it has. *)
Definition usable (a : asn1_string) : Prop := 4 <= slen a -> exists dat, sdata a = Some dat /\ slen a <= Z.of_nat (length dat).

Lemma int_usable s neg bs : int_string s neg bs -> usable s.
Proof. intros [[El [post Ed]] _ _ _] _. exists (bs ++ post). split; [done|]. rewrite length_app. lia. Qed.

Lemma realloc_room orig n b : 0 <= n -> OPENSSL_realloc malloc orig n = Some b -> Z.of_nat (length b) = n.
Proof.
  intros Hn. unfold OPENSSL_realloc. destruct orig as [old|]; [|apply malloc_size]. destruct (malloc n) as [r|] eqn:Em; [|done]. apply malloc_size in Em.
  cbn [mbind option_bind]. intros E. injection E as <-. rewrite length_app, length_drop, length_take. lia.
Qed.

(** The room that is made for a number of [len] bytes or fewer. *)
Lemma room_made s len : usable s -> 0 <= len ->
  match (if slen s <? len + 4 then (fun new_data => set_data (Some new_data) s) <$> OPENSSL_realloc malloc (sdata s) (len + 4) else Some s) with
  | Some s' => stype s' = stype s /\ exists dat, sdata s' = Some dat /\ len + 4 <= Z.of_nat (length dat)
  | None => malloc (len + 4) = None
  end.
Proof.
  intros Hs Hl. destruct (slen s <? len + 4) eqn:E; (apply Z.ltb_lt in E || apply Z.ltb_ge in E).
  - destruct (OPENSSL_realloc malloc (sdata s) (len + 4)) as [dat|] eqn:Er; cbn [fmap option_fmap option_map].
    + split; [done|]. exists dat. split; [done|]. apply realloc_room in Er; lia.
    + unfold OPENSSL_realloc in Er. destruct (sdata s); [|done]. by destruct (malloc (len + 4)).
  - split; [done|]. destruct Hs as (dat & Hd & Hle); [lia|]. exists dat. split; [done|lia].
Qed.

(** The integer of a BIGNUM, in the caller's object or a new one; 0 is never
    negative. *)
Lemma bn_to_integer_spec w x bn ws sg ai : holds w x ws sg -> w !! x = Some bn -> (forall a, ai = Some a -> usable a) ->
  (exists s, BN_to_ASN1_INTEGER malloc bn ai = Some (true, Some s) /\ is_int s (signed_val sg ws)) \/
  ((exists o, BN_to_ASN1_INTEGER malloc bn ai = Some (false, o)) /\ exists n, malloc n = None).
Proof.
  intros Hx Ex Hai. pose proof (holds_words _ _ _ _ Hx) as Hw. pose proof (holds_length _ _ _ _ Hx) as Hl.
  destruct Hx as (bn' & Ebn & Hwd & Hr & Hn & Hsg & _). assert (bn' = bn) as -> by congruence.
  pose proof (val_bound _ Hw) as Hv. unfold weight in Hv. pose proof (bits_of_bound (val ws) (64 * Z.of_nat (length ws)) ltac:(lia) Hv) as Hb.
  unfold INT_MAX in Hl. unfold BN_to_ASN1_INTEGER. fold (target malloc ai).
  destruct (target malloc ai) as [s0|] eqn:Et; [|right; split; [by exists None|]; exists 24; destruct ai; [done|]; unfold target, ASN1_STRING_type_new in Et; by destruct (malloc 24)].
  assert (usable s0) as Hu.
  { destruct ai as [a|]; [injection Et as <-; by apply Hai|]. unfold target, ASN1_STRING_type_new in Et. destruct (malloc 24); [|done]. injection Et as <-. intros H. by cbn in H. }
  unfold BN_is_negative. rewrite Hn. set (v := val ws) in *. set (negative := negb (sg =? 0) && negb (bool_decide (v = 0))).
  assert ((if negb (sg =? 0) then zero ← BN_is_zero bn; Some (negb zero) else Some false) = Some negative) as ->.
  { unfold negative. destruct (negb (sg =? 0)); [|done]. by rewrite (is_zero_spec bn ws) by done. }
  cbn [mbind option_bind]. rewrite (num_bits_spec bn ws) by (done || (unfold INT_MAX; lia)). cbn [mbind option_bind]. fold v.
  rewrite wraps_id by (unfold in_s; lia). rewrite Z.quot_div_nonneg by lia.
  set (len := if bits_of v =? 0 then 0 else bits_of v / 8 + 1).
  assert (0 <= bytes_of v <= len) as Hlen by (unfold len, bytes_of; destruct (bits_of v =? 0) eqn:E0; [apply Z.eqb_eq in E0; rewrite E0; done|apply Z.eqb_neq in E0; lia]).
  set (s1 := set_type (if negative then V_ASN1_NEG_INTEGER else V_ASN1_INTEGER) s0).
  pose proof (room_made s1 len Hu ltac:(lia)) as Hroom.
  destruct (if slen s1 <? len + 4 then _ else _) as [s2|]; [|right; split; [by eexists|by exists (len + 4)]].
  destruct Hroom as (Hty & dat & Ed & Hdat). left. rewrite Ed. cbn [mbind option_bind].
  pose proof (bn2bin_spec bn ws [] (take (Z.to_nat (bytes_of v)) dat) (drop (Z.to_nat (bytes_of v)) dat) Hwd Hr Hw ltac:(unfold INT_MAX; lia)) as Hbin.
  cbn [app] in Hbin. rewrite take_drop, length_take in Hbin. change (Z.of_nat (length [])) with 0 in Hbin. fold v in Hbin.
  rewrite Hbin by lia. cbn [mbind option_bind]. replace (Z.to_nat (bytes_of v) `min` length dat)%nat with (Z.to_nat (bytes_of v)) by lia.
  destruct (be_bytes_of v ltac:(lia)) as [Hbe Hhd]. set (ds := be (Z.to_nat (bytes_of v)) v) in *.
  assert (Z.of_nat (length ds) = bytes_of v) as Hds by (unfold ds; rewrite length_be; lia).
  assert (bytes_of v <= 2 ^ 29) by (unfold bytes_of; lia). rewrite wraps_id by (unfold in_s; lia). destruct (bytes_of v =? 0) eqn:E0.
  - apply Z.eqb_eq in E0. destruct ds as [|? ?]; [|cbn [length] in Hds; lia]. rewrite E0. cbn [Z.to_nat drop app].
    destruct dat as [|y dat]; [cbn [length] in Hdat; lia|]. change (be_val []) with 0 in Hbe. change (drop (Z.to_nat 0) (y :: dat)) with (y :: dat). rewrite wr_0. cbn [mbind option_bind].
    eexists. split; [reflexivity|]. exists false, [0]. assert (negative = false) as En.
    { unfold negative. rewrite bool_decide_eq_true_2 by done. apply andb_false_r. }
    split; [|split; [done|]].
    + constructor; [|constructor; [unfold in_u; lia|done]|cbn; rewrite Hty; cbn; by rewrite En|cbn; lia]. split; [done|]. by exists dat.
    + unfold signed_val. fold v. destruct (sg =? 0); cbn; lia.
  - apply Z.eqb_neq in E0. eexists. split; [reflexivity|]. exists negative, ds. assert (v <> 0) as Hv0 by (intros Hv0; rewrite Hv0 in E0; done).
    split; [|split].
    + constructor; [|apply be_bytes|cbn; rewrite Hty; by destruct negative|lia]. split; [cbn; lia|]. by eexists.
    + destruct ds as [|y ds]; [cbn [length] in Hds; lia|]. cbn [hd] in Hhd. cbn [canonical]. by rewrite (proj2 (Z.eqb_neq y 0)).
    + unfold signed, signed_val, negative. fold v. rewrite Hbe. rewrite (bool_decide_eq_false_2 (v = 0)), andb_true_r by done. by destruct (sg =? 0).
Qed.
End Bignums.

(** Only the first [len] bytes are read. *)
Lemma bin_loop_prefix fuel w a bs post pos len nw m word : 0 <= pos -> pos + len <= Z.of_nat (length bs) -> 0 <= len ->
  bin_loop fuel w a (bs ++ post) pos len nw m word = bin_loop fuel w a bs pos len nw m word.
Proof.
  revert w pos len nw m word. induction fuel as [|fuel IH]; intros w pos len nw m word Hp Hl H0; cbn [bin_loop]; [done|].
  destruct (len =? 0) eqn:E; [done|]. apply Z.eqb_neq in E.
  assert (rd (bs ++ post) pos = rd bs pos) as ->.
  { unfold rd. case_bool_decide; [|done]. by rewrite lookup_app_l by lia. }
  destruct (rd bs pos) as [c|]; [|done]. cbn [mbind option_bind]. destruct (m =? 0); [|apply IH; lia].
  destruct (set_word _ _ _ _); [|done]. cbn [mbind option_bind]. apply IH; lia.
Qed.

Lemma bin2bn_prefix words w bs post r : BN_bin2bn words w (bs ++ post) (Z.of_nat (length bs)) r = BN_bin2bn words w bs (Z.of_nat (length bs)) r.
Proof.
  unfold BN_bin2bn. destruct (_ =? 0); [done|]. destruct (bn_wexpand _ _ _ _) as [[ok w1]|]; [|done]. cbn [mbind option_bind].
  destruct (negb ok); [done|]. destruct (_ <? _); [done|]. destruct (upd _ _ _); [|done]. cbn [mbind option_bind]. by rewrite bin_loop_prefix by lia.
Qed.

(** The BIGNUM of an integer of at least one byte; a failure leaves the BIGNUM. *)
Lemma integer_to_bn_spec alloc w r R sr s neg ds :
  (forall n v, alloc n = Some v -> Z.of_nat (length v) = n /\ words v) ->
  holds w r R sr -> int_string s neg ds -> ds <> [] -> (neg = true -> be_val ds <> 0) ->
  result alloc w r R (Z.of_nat (words_for (length ds))) (fun C c => signed_val c C = signed neg ds) (ASN1_INTEGER_to_BN alloc w s r).
Proof.
  intros Hm Hr [[El [post Ed]] Hb Ht Hz] Hne Hneg. unfold ASN1_INTEGER_to_BN. rewrite Ed, El. change (default [] (Some (ds ++ post))) with (ds ++ post).
  rewrite wrapu_id by (unfold in_u; lia). rewrite bin2bn_prefix.
  destruct (bin2bn_spec alloc Hm w r R sr ds Hr Hb Hne) as (ok & w1 & C & c & -> & HC & Hsame & H). cbn [mbind option_bind].
  destruct ok; cbn [negb]; [|by exists false, w1, C, c]. destruct H as (-> & HlC & Hv). rewrite Ht.
  destruct neg; cbn [Z.eqb]; [|by exists true, w1, C, 0]. change (V_ASN1_NEG_INTEGER =? V_ASN1_NEG_INTEGER) with true. cbn iota.
  unfold BN_set_negative. destruct (is_zero_at w1 r C 0 HC) as (b1 & Eb1 & _ & _ & Hz1). rewrite Eb1. cbn [mbind option_bind Z.eqb negb].
  rewrite Hz1. cbn [mbind option_bind]. rewrite bool_decide_eq_false_2 by (rewrite Hv; by apply Hneg).
  destruct (set_neg_spec w1 r C 0 1 HC ltac:(by right)) as (w2 & -> & HC2 & Hs2). cbn [mbind option_bind].
  exists true, w2, C, 1. split_and!; [done|done|by eapply same_but_trans|]. unfold signed_val, signed. by rewrite Hv.
Qed.
