(* ===== verification/Asn1Bits.v ===== *)
(** * BoringSSL: ASN.1 bit strings

    The model of [a_bitstr.c], and the bit string as a set of numbers. *)
From S2P Require Import Prelude CBuf CMem Cbs CbsSpec Asn1String.

(** ** BoringSSL: ASN.1 bit strings ([a_bitstr.c])

    Bit 0 is the most significant bit of the first byte.  With the flag
    [ASN1_STRING_FLAG_BITS_LEFT] the number of padding bits is in the flags;
    without it the zero bits at the end do not count. *)

Section Bits.
Variable malloc : Z -> option (list Z).

Definition ASN1_BIT_STRING_set (x : asn1_string) (d : option (list Z)) (len : Z) : option (bool * asn1_string) :=
  ASN1_STRING_set malloc x d len.

(** The output is a position in an array; NULL asks for the length only. *)
Definition i2c_ASN1_BIT_STRING (a : option asn1_string) (pp : option (list Z * Z)) : option (Z * option (list Z * Z)) :=
  match a with
  | None => Some (0, pp)
  | Some a =>
      r ← asn1_bit_string_length a;
      let '(len, bits) := r in
      ret ← i32 (1 + len);
      match pp with
      | None => Some (ret, None)
      | Some (out, p) =>
          out ← wr out p bits;
          let p := p + 1 in
          out ← (if len =? 0 then Some out else data ← sdata a; v ← rds data 0 len; wrs out p v);
          out ← (if 0 <? len then c ← rd out (p + len - 1); wr out (p + len - 1) (Z.land c (u8 (Z.shiftl 0xff bits)))
                 else Some out);
          Some (ret, Some (out, p + len))
      end
  end.

Definition clear_bits_left (flags : Z) : Z := Z.land flags (Z.lnot (Z.lor ASN1_STRING_FLAG_BITS_LEFT 7)).

(** [len] bytes at [pp]; the string in [a], or a new one.  The inner result is
    the return value, NULL or a string, and the caller's string. *)
Definition c2i_ASN1_BIT_STRING (a : option asn1_string) (pp : list Z) (len : Z) : option (bool * option asn1_string) :=
  if len <? 1 then Some (false, a)
  else if INT_MAX <? len then Some (false, a)
  else
    match (match a with None => ASN1_STRING_type_new malloc V_ASN1_BIT_STRING | Some _ => a end) with
    | None => Some (false, a)
    | Some ret =>
        padding ← rd pp 0;
        let len := len - 1 in
        if 7 <? padding then Some (false, a)
        else
          let padding_mask := u8 (Z.shiftl 1 padding - 1) in
          bad ← (if padding =? 0 then Some false
                 else if len <? 1 then Some true
                 else c ← rd pp (1 + (len - 1)); Some (negb (Z.land c padding_mask =? 0)));
          if bad : bool then Some (false, a)
          else
            let ret := set_flags (clear_bits_left (sflags ret)) ret in
            let ret := set_flags (Z.lor (sflags ret) (Z.lor ASN1_STRING_FLAG_BITS_LEFT padding)) ret in
            if 0 <? len then
              match malloc len with
              | None => Some (false, match a with None => None | Some _ => Some ret end)
              | Some s =>
                  v ← rds pp 1 len;
                  s ← wrs s 0 v;
                  Some (true, Some (mk_string len V_ASN1_BIT_STRING (Some s) (sflags ret)))
              end
            else Some (true, Some (mk_string len V_ASN1_BIT_STRING None (sflags ret)))
    end.

(** The zero bytes at the end are taken off. *)
Fixpoint trim_length (fuel : nat) (a : asn1_string) : option asn1_string :=
  if 0 <? slen a then
    match fuel with
    | O => None
    | S fuel' =>
        c ← data_byte a (slen a - 1);
        if c =? 0 then trim_length fuel' (set_len (slen a - 1) a) else Some a
    end
  else Some a.

Definition bit_mask (n : Z) : Z := Z.shiftl 1 (7 - Z.land n 7).

Definition ASN1_BIT_STRING_set_bit (a : option asn1_string) (n : Z) (value : bool) : option (bool * option asn1_string) :=
  let w := Z.quot n 8 in
  let iv := Z.lnot (bit_mask n) in
  let v := if value then bit_mask n else 0 in
  match a with
  | None => Some (false, None)
  | Some a =>
      let a := set_flags (clear_bits_left (sflags a)) a in
      let store (a : asn1_string) :=
        data ← sdata a;
        c ← rd data w;
        data ← wr data w (u8 (Z.lor (Z.land c iv) v));
        a ← trim_length (Z.to_nat (slen a)) (set_data (Some data) a);
        Some (true, Some a) in
      if (slen a <? w + 1) || bool_decide (sdata a = None) then
        if negb value then Some (true, Some a)
        else
          match OPENSSL_realloc malloc (sdata a) (w + 1) with
          | None => Some (false, Some a)
          | Some c =>
              c ← (if 0 <? w + 1 - slen a then wrs c (slen a) (replicate (Z.to_nat (w + 1 - slen a)) 0) else Some c);
              store (set_len (w + 1) (set_data (Some c) a))
          end
      else store a
  end.

Definition ASN1_BIT_STRING_get_bit (a : option asn1_string) (n : Z) : option bool :=
  let w := Z.quot n 8 in
  match a with
  | None => Some false
  | Some a =>
      if (slen a <? w + 1) || bool_decide (sdata a = None) then Some false
      else c ← data_byte a w; Some (negb (Z.land c (bit_mask n) =? 0))
  end.

Fixpoint check_loop (fuel : nat) (a : asn1_string) (flags : list Z) (flags_len i : Z) (ok : bool) : option bool :=
  if (i <? slen a) && ok then
    match fuel with
    | O => None
    | S fuel' =>
        mask ← (if i <? flags_len then f ← rd flags i; Some (u8 (Z.lnot f)) else Some 0xff);
        c ← data_byte a i;
        check_loop fuel' a flags flags_len (i + 1) (Z.land c mask =? 0)
    end
  else Some ok.

Definition ASN1_BIT_STRING_check (a : option asn1_string) (flags : list Z) (flags_len : Z) : option bool :=
  match a with
  | None => Some true
  | Some a =>
      if bool_decide (sdata a = None) then Some true
      else check_loop (Z.to_nat (slen a)) a flags flags_len 0 true
  end.
End Bits.

(** ** BoringSSL: a bit string is a set of numbers *)

#[local] Ltac Zify.zify_post_hook ::= Z.to_euclidean_division_equations.

(** The bits of a sequence of bytes, most significant bit first. *)
Definition bit (bs : list Z) (n : Z) : bool :=
  match bs !! Z.to_nat (n / 8) with Some c => Z.testbit c (7 - n mod 8) | None => false end.

Record bit_string (s : asn1_string) (bs : list Z) : Prop := {
  b_len : slen s = Z.of_nat (length bs);
  b_bytes : bytes bs;
  b_data : match sdata s with None => bs = [] | Some d => exists post, d = bs ++ post end }.

Definition trimmed (bs : list Z) : Prop := last bs <> Some 0.

Lemma bit_app_zeros bs k n : bit (bs ++ replicate k 0) n = bit bs n.
Proof.
  unfold bit. destruct (decide (Z.to_nat (n / 8) < length bs)%nat) as [H|H]; [by rewrite lookup_app_l|].
  rewrite lookup_app_r, (lookup_ge_None_2 bs) by lia. destruct (_ !! _) as [c|] eqn:E; [|done].
  apply lookup_replicate in E as [-> _]. apply Z.testbit_0_l.
Qed.

Lemma bit_mask_pow n : 0 <= n -> bit_mask n = 2 ^ (7 - n mod 8).
Proof.
  intros Hn. unfold bit_mask. change 7 with (2 ^ 3 - 1) at 2. rewrite land_ones_mod, Z.shiftl_mul_pow2 by lia.
  change (2 ^ 3) with 8. lia.
Qed.

Lemma land_pow2 c k : 0 <= k -> Z.land c (2 ^ k) = if Z.testbit c k then 2 ^ k else 0.
Proof.
  intros Hk. apply Z.bits_inj'. intros i Hi. rewrite Z.land_spec, Z.pow2_bits_eqb by done.
  destruct (k =? i) eqn:E.
  - apply Z.eqb_eq in E as ->. destruct (Z.testbit c i); [by rewrite Z.pow2_bits_true|by rewrite Z.testbit_0_l].
  - rewrite andb_false_r. destruct (Z.testbit c k); [by rewrite Z.pow2_bits_eqb, E|by rewrite Z.testbit_0_l].
Qed.

(** Writing one bit of a byte. *)
Lemma set_byte_bit c k v : in_u 8 c -> 0 <= k < 8 ->
  let c' := u8 (Z.lor (Z.land c (Z.lnot (2 ^ k))) (if v : bool then 2 ^ k else 0)) in
  in_u 8 c' /\ forall i, 0 <= i < 8 -> Z.testbit c' i = if i =? k then v else Z.testbit c i.
Proof.
  intros Hc Hk c'. split; [by apply wrapu_range|]. intros i Hi. unfold c', wrapu. rewrite Z.mod_pow2_bits_low by lia.
  rewrite Z.lor_spec, Z.land_spec, Z.lnot_spec, Z.pow2_bits_eqb by lia. rewrite (Z.eqb_sym k i).
  destruct (i =? k) eqn:E.
  - rewrite andb_false_r. apply Z.eqb_eq in E as ->. destruct v; [by rewrite Z.pow2_bits_true by lia|by rewrite Z.testbit_0_l].
  - rewrite andb_true_r. destruct v; [rewrite Z.pow2_bits_eqb, Z.eqb_sym, E by lia|rewrite Z.testbit_0_l]; by rewrite orb_false_r.
Qed.

Lemma data_byte_bits s bs i c : bit_string s bs -> bs !! Z.to_nat i = Some c -> 0 <= i -> data_byte s i = Some c.
Proof.
  intros Hs Hc Hi. pose proof (b_data _ _ Hs) as Hd. unfold data_byte. destruct (sdata s) as [d|]; [|subst bs; done].
  destruct Hd as [post ->]. cbn [mbind option_bind]. unfold rd. rewrite bool_decide_eq_true_2 by lia. by apply lookup_app_l_Some.
Qed.

Lemma get_bit_spec s bs n : bit_string s bs -> 0 <= n -> ASN1_BIT_STRING_get_bit (Some s) n = Some (bit bs n).
Proof.
  intros Hs Hn. unfold ASN1_BIT_STRING_get_bit. rewrite Z.quot_div_nonneg by lia. pose proof (b_len _ _ Hs) as El.
  pose proof (b_data _ _ Hs) as Hd. unfold bit.
  destruct (bs !! Z.to_nat (n / 8)) as [c|] eqn:E.
  - pose proof (lookup_lt_Some _ _ _ E). rewrite (proj2 (Z.ltb_ge (slen s) (n / 8 + 1))) by lia.
    rewrite bool_decide_eq_false_2 by (intros E'; rewrite E' in Hd; by subst bs). cbn [orb].
    rewrite (data_byte_bits s bs (n / 8) c) by (done || lia). cbn [mbind option_bind]. rewrite bit_mask_pow, land_pow2 by lia.
    destruct (Z.testbit c (7 - n mod 8)); [|done]. rewrite (proj2 (Z.eqb_neq _ 0)); [done|]. pose proof (Z.pow_pos_nonneg 2 (7 - n mod 8)). lia.
  - apply lookup_ge_None in E. rewrite (proj2 (Z.ltb_lt (slen s) (n / 8 + 1))) by lia. done.
Qed.

(** ** Taking zero bytes off *)

Lemma bit_string_len s bs x : bit_string s (bs ++ [x]) -> bit_string (set_len (slen s - 1) s) bs.
Proof.
  intros [Hl Hb Hd]. constructor.
  - cbn. rewrite Hl, length_app. cbn [length]. lia.
  - by apply Forall_app in Hb as [Hb _].
  - cbn. destruct (sdata s); [|by apply app_eq_nil in Hd as [-> _]]. destruct Hd as [post ->]. exists (x :: post). by rewrite <- app_assoc.
Qed.

Lemma trim_length_spec bs k s fuel :
  bit_string s (bs ++ replicate k 0) -> trimmed bs -> (k <= fuel)%nat -> (length bs + k <= fuel)%nat ->
  exists s', trim_length fuel s = Some s' /\ bit_string s' bs /\ sflags s' = sflags s /\ stype s' = stype s.
Proof.
  revert s fuel. induction k as [|k IH]; intros s fuel Hs Ht Hk Hf.
  - cbn [replicate] in Hs. rewrite app_nil_r in Hs. exists s. split; [|done]. pose proof (b_len _ _ Hs) as El.
    destruct bs as [|x bs _] using rev_ind.
    + destruct fuel; cbn [trim_length]; by rewrite El.
    + rewrite length_app in *. cbn [length] in *. destruct fuel as [|fuel]; [lia|]. cbn [trim_length]. rewrite El.
      rewrite (proj2 (Z.ltb_lt 0 _)) by lia. rewrite (data_byte_bits s (bs ++ [x]) _ x); [|done| |lia].
      * cbn [mbind option_bind]. unfold trimmed in Ht. rewrite last_snoc in Ht. rewrite (proj2 (Z.eqb_neq x 0)); [done|]. congruence.
      * replace (Z.to_nat (Z.of_nat (length bs + 1) - 1)) with (length bs) by lia. by apply list_lookup_middle.
  - rewrite replicate_S_end, app_assoc in Hs. pose proof (b_len _ _ Hs) as El. rewrite length_app in El. cbn [length] in El.
    destruct fuel as [|fuel]; [lia|]. cbn [trim_length]. rewrite El, (proj2 (Z.ltb_lt 0 _)) by lia.
    rewrite (data_byte_bits s _ _ 0 Hs); [| |lia].
    + cbn [mbind option_bind]. change (0 =? 0) with true. cbn iota. pose proof (bit_string_len _ _ _ Hs) as Hs'. rewrite El in Hs'.
      destruct (IH _ fuel Hs' Ht) as (s' & E & H1 & H2 & H3); [lia|lia|]. by exists s'.
    + replace (Z.to_nat (Z.of_nat (length (bs ++ replicate k 0) + 1) - 1)) with (length (bs ++ replicate k 0)) by lia. by apply list_lookup_middle.
Qed.

(** Every sequence of bytes ends with some zero bytes. *)
Lemma trim_exists bs : exists bs' k, bs = bs' ++ replicate k 0 /\ trimmed bs'.
Proof.
  induction bs as [|x bs IH] using rev_ind; [by exists [], 0%nat|].
  destruct (decide (x = 0)) as [->|Hx].
  - destruct IH as (bs' & k & -> & Ht). exists bs', (S k). by rewrite replicate_S_end, app_assoc.
  - exists (bs ++ [x]), 0%nat. split; [by rewrite app_nil_r|]. unfold trimmed. rewrite last_snoc. congruence.
Qed.

Lemma clear_bits_left_spec f : Z.land (clear_bits_left f) ASN1_STRING_FLAG_BITS_LEFT = 0.
Proof.
  unfold clear_bits_left. rewrite <- Z.land_assoc. assert (Z.land (Z.lnot (Z.lor 8 7)) 8 = 0) as E by reflexivity.
  unfold ASN1_STRING_FLAG_BITS_LEFT. rewrite E. apply Z.land_0_r.
Qed.

(** ** Setting a bit *)

Lemma bit_insert bs n c c' v : 0 <= n -> bs !! Z.to_nat (n / 8) = Some c ->
  (forall i, 0 <= i < 8 -> Z.testbit c' i = if i =? 7 - n mod 8 then v else Z.testbit c i) ->
  forall m, 0 <= m -> bit (<[Z.to_nat (n / 8) := c']> bs) m = if m =? n then v else bit bs m.
Proof.
  intros Hn Hc H m Hm. unfold bit. pose proof (lookup_lt_Some _ _ _ Hc).
  destruct (decide (n / 8 = m / 8)) as [E|E].
  - rewrite <- E, list_lookup_insert_eq, Hc by done. rewrite H by lia.
    destruct (m =? n) eqn:E1; [apply Z.eqb_eq in E1 as ->; by rewrite Z.eqb_refl|]. apply Z.eqb_neq in E1.
    by rewrite (proj2 (Z.eqb_neq (7 - m mod 8) (7 - n mod 8))) by lia.
  - rewrite list_lookup_insert_ne by lia. by rewrite (proj2 (Z.eqb_neq m n)) by (intros ->; done).
Qed.

Lemma splice_insert {A} (l : list A) i x : (i < length l)%nat -> splice i [x] l = <[i := x]> l.
Proof. intros H. unfold splice. cbn [length app]. rewrite Nat.add_1_r. by rewrite insert_take_drop. Qed.

Section Setting.
Context (malloc : Z -> option (list Z)).
Hypothesis malloc_size : forall n b, malloc n = Some b -> Z.of_nat (length b) = n.

(** The end of the function: the byte is there. *)
Lemma store_bit_spec s bs n v : bit_string s bs -> 0 <= n -> n / 8 < Z.of_nat (length bs) ->
  exists s' bs', (data ← sdata s; c ← rd data (n / 8);
    data ← wr data (n / 8) (u8 (Z.lor (Z.land c (Z.lnot (bit_mask n))) (if v : bool then bit_mask n else 0)));
    a ← trim_length (Z.to_nat (slen s)) (set_data (Some data) s); Some (true, Some a)) = Some (true, Some s') /\
    bit_string s' bs' /\ trimmed bs' /\ sflags s' = sflags s /\ stype s' = stype s /\
    (forall m, 0 <= m -> bit bs' m = if m =? n then v else bit bs m).
Proof.
  intros [Hl Hb Hd] Hn Hw. rewrite bit_mask_pow by done. destruct (lookup_lt_is_Some_2 bs (Z.to_nat (n / 8)) ltac:(lia)) as [c Hc].
  assert (exists post, sdata s = Some (bs ++ post)) as [post Ed].
  { destruct (sdata s); [destruct Hd as [post ->]; by exists post|]. subst bs. cbn [length] in Hw. lia. }
  rewrite Ed. cbn [mbind option_bind]. unfold rd. rewrite bool_decide_eq_true_2, (lookup_app_l_Some bs post _ c) by (done || lia). cbn [mbind option_bind].
  pose proof (Forall_lookup_1 _ _ _ _ Hb Hc) as Hc8. cbn beta in Hc8.
  destruct (set_byte_bit c (7 - n mod 8) v Hc8 ltac:(lia)) as [Hc' Hbits]. set (c' := u8 _) in *.
  assert (wr (bs ++ post) (n / 8) c' = Some (<[Z.to_nat (n / 8) := c']> bs ++ post)) as ->.
  { apply wrs_Some. cbn [length]. rewrite length_app. split_and!; [lia..|]. rewrite splice_insert by (rewrite length_app; lia).
    symmetry. apply insert_app_l. lia. }
  cbn [mbind option_bind]. destruct (trim_exists (<[Z.to_nat (n / 8) := c']> bs)) as (bs' & k & E & Ht).
  pose proof (f_equal length E) as Elen. rewrite length_insert, length_app, length_replicate in Elen.
  destruct (trim_length_spec bs' k (set_data (Some (<[Z.to_nat (n / 8) := c']> bs ++ post)) s) (Z.to_nat (slen s))) as (s' & -> & Hs' & Hf & Hty); [|done|lia|lia|].
  - rewrite <- E. constructor; [by rewrite length_insert| |by exists post]. by apply Forall_insert.
  - exists s', bs'. split_and!; try done. intros m Hm. rewrite <- (bit_app_zeros bs' k), <- E. by apply (bit_insert _ _ c).
Qed.

Lemma set_bit_spec s bs n v : bit_string s bs -> 0 <= n ->
  exists ok s' bs', ASN1_BIT_STRING_set_bit malloc (Some s) n v = Some (ok, Some s') /\ bit_string s' bs' /\
    Z.land (sflags s') ASN1_STRING_FLAG_BITS_LEFT = 0 /\ stype s' = stype s /\
    if ok : bool then forall m, 0 <= m -> bit bs' m = if m =? n then v else bit bs m
    else malloc (n / 8 + 1) = None /\ bs' = bs.
Proof.
  intros Hs Hn. unfold ASN1_BIT_STRING_set_bit. rewrite Z.quot_div_nonneg by lia.
  set (s0 := set_flags (clear_bits_left (sflags s)) s).
  assert (bit_string s0 bs) as Hs0 by (destruct Hs; by constructor). cbv zeta.
  assert (Z.land (sflags s0) ASN1_STRING_FLAG_BITS_LEFT = 0) as Hf0 by apply clear_bits_left_spec.
  pose proof (b_len _ _ Hs0) as El. pose proof (b_data _ _ Hs0) as Hd.
  destruct ((slen s0 <? n / 8 + 1) || bool_decide (sdata s0 = None)) eqn:E.
  - assert (Z.of_nat (length bs) <= n / 8) as Hlen.
    { apply orb_true_iff in E as [E|E]; [apply Z.ltb_lt in E; lia|]. apply bool_decide_eq_true in E. rewrite E in Hd. subst bs. cbn [length]. lia. }
    destruct v; cbn [negb]; cycle 1.
    { exists true, s0, bs. split_and!; try done. intros m Hm. destruct (m =? n) eqn:Em; [|done]. apply Z.eqb_eq in Em as ->.
      unfold bit. by rewrite lookup_ge_None_2 by lia. }
    destruct (OPENSSL_realloc malloc (sdata s0) (n / 8 + 1)) as [c|] eqn:Er; cycle 1.
    { exists false, s0, bs. split_and!; try done. unfold OPENSSL_realloc in Er. destruct (sdata s0); [|done].
      by destruct (malloc (n / 8 + 1)). }
    assert (exists post, c = bs ++ post /\ Z.of_nat (length c) = n / 8 + 1) as (post & -> & Hcl).
    { unfold OPENSSL_realloc in Er. destruct (sdata s0) as [d|].
      - destruct Hd as [post ->]. destruct (malloc (n / 8 + 1)) as [ret|] eqn:Em; [|done]. cbn in Er. injection Er as <-.
        apply malloc_size in Em. rewrite take_app, take_ge by lia. rewrite <- app_assoc. eexists. split; [done|].
        rewrite !length_app, length_drop. rewrite ?length_app, ?length_take. lia.
      - subst bs. exists c. split; [done|]. by apply malloc_size. }
    rewrite length_app in Hcl. rewrite El, (proj2 (Z.ltb_lt 0 _)) by lia.
    assert (wrs (bs ++ post) (Z.of_nat (length bs)) (replicate (Z.to_nat (n / 8 + 1 - Z.of_nat (length bs))) 0)
            = Some (bs ++ replicate (length post) 0)) as ->.
    { pose proof (wrs_mid bs post [] (replicate (Z.to_nat (n / 8 + 1 - Z.of_nat (length bs))) 0) _ eq_refl) as Hw. rewrite !app_nil_r in Hw.
      rewrite Hw by (rewrite length_replicate; lia). do 3 f_equal. lia. }
    cbn [mbind option_bind].
    destruct (store_bit_spec (set_len (n / 8 + 1) (set_data (Some (bs ++ replicate (length post) 0)) s0)) (bs ++ replicate (length post) 0) n true) as
      (s' & bs' & E' & Hs' & _ & Hf & Hty & Hbit); [|done|rewrite length_app, length_replicate; lia|].
    { constructor; cbn [slen sdata set_len set_data].
      - rewrite length_app, length_replicate. lia.
      - apply Forall_app. split; [apply (b_bytes _ _ Hs)|]. apply Forall_replicate. unfold in_u. lia.
      - exists []. by rewrite app_nil_r. }
    cbn [sdata set_len set_data slen] in E'. cbn [sdata set_len set_data slen]. rewrite E'. exists true, s', bs'. split_and!; [done|done|by rewrite Hf|done|].
    intros m Hm. rewrite Hbit by done. by rewrite bit_app_zeros.
  - apply orb_false_iff in E as [E _]. apply Z.ltb_ge in E.
    destruct (store_bit_spec s0 bs n v Hs0 Hn ltac:(lia)) as (s' & bs' & -> & Hs' & _ & Hf & Hty & Hbit).
    exists true, s', bs'. split_and!; [done|done|by rewrite Hf|done|done].
Qed.
End Setting.

(** ** The contents octets *)

Definition pad_of (x : Z) : Z := padding_loop 7 x 0.

(** The contents octets of trimmed bytes. *)
Definition named_bits (bs : list Z) : list Z :=
  match last bs with None => [0] | Some x => pad_of x :: bs end.

(** Contents octets of DER: the padding bits are there and they are zero. *)
Definition valid_bits (c : list Z) : bool :=
  match c with
  | [] => false
  | pad :: bs =>
      (pad <=? 7) &&
      match last bs with None => pad =? 0 | Some x => Z.land x (u8 (Z.shiftl 1 pad - 1)) =? 0 end
  end.

Lemma pad_of_spec x : in_u 8 x -> x <> 0 ->
  0 <= pad_of x <= 7 /\ Z.testbit x (pad_of x) = true /\ Z.land x (u8 (Z.shiftl 1 (pad_of x) - 1)) = 0 /\
  Z.land x (u8 (Z.shiftl 0xff (pad_of x))) = x.
Proof.
  intros Hx Hn. unfold in_u in Hx.
  assert ((x =? 0) || ((0 <=? pad_of x) && (pad_of x <=? 7) && Z.testbit x (pad_of x) && (Z.land x (u8 (Z.shiftl 1 (pad_of x) - 1)) =? 0)
    && (Z.land x (u8 (Z.shiftl 0xff (pad_of x))) =? x)) = true) as H by by_byte x.
  rewrite (proj2 (Z.eqb_neq x 0)) in H by done. cbn [orb] in H. rewrite !andb_true_iff in H. destruct H as [[[[H1 H2] H3] H4] H5]. split_and!; lia || done.
Qed.

Lemma mask_last x pad : in_u 8 x -> 0 <= pad <= 7 -> Z.land x (u8 (Z.shiftl 1 pad - 1)) = 0 -> Z.land x (u8 (Z.shiftl 0xff pad)) = x.
Proof.
  intros Hx Hp. unfold in_u in Hx. assert (pad = 0 \/ pad = 1 \/ pad = 2 \/ pad = 3 \/ pad = 4 \/ pad = 5 \/ pad = 6 \/ pad = 7) as H by lia.
  intros E. enough (negb (Z.land x (u8 (Z.shiftl 1 pad - 1)) =? 0) || (Z.land x (u8 (Z.shiftl 0xff pad)) =? x) = true) as H'.
  { rewrite E in H'. cbn [Z.eqb negb orb] in H'. by apply Z.eqb_eq. }
  clear E. destruct H as [->|[->|[->|[->|[->|[->|[->| ->]]]]]]]; by_byte x.
Qed.

Lemma trim_loop_spec bs k rest s fuel :
  bit_string s (bs ++ replicate k 0 ++ rest) -> trimmed bs -> (length bs + k <= fuel)%nat ->
  trim_loop fuel s (Z.of_nat (length bs + k)) = Some (Z.of_nat (length bs)).
Proof.
  intros Hs Ht. revert rest fuel Hs. induction k as [|k IH]; intros rest fuel Hs Hf.
  - rewrite Nat.add_0_r in *. destruct bs as [|x bs _] using rev_ind; [by destruct fuel|].
    rewrite length_app in *. cbn [length] in *. destruct fuel as [|fuel]; [lia|]. cbn [trim_loop]. rewrite (proj2 (Z.leb_gt _ 0)) by lia.
    rewrite (data_byte_bits s _ _ x Hs); [| |lia].
    + cbn [mbind option_bind]. unfold trimmed in Ht. rewrite last_snoc in Ht. rewrite (proj2 (Z.eqb_neq x 0)); [done|]. congruence.
    + replace (Z.to_nat (Z.of_nat (length bs + 1) - 1)) with (length bs) by lia. rewrite <- app_assoc. by apply list_lookup_middle.
  - destruct fuel as [|fuel]; [lia|]. cbn [trim_loop]. rewrite (proj2 (Z.leb_gt _ 0)) by lia.
    rewrite replicate_S_end, <- app_assoc, app_assoc in Hs. cbn [app] in Hs.
    rewrite (data_byte_bits s _ _ 0 Hs); [| |lia].
    + cbn [mbind option_bind]. change (0 =? 0) with true. cbn iota. replace (Z.of_nat (length bs + S k) - 1) with (Z.of_nat (length bs + k)) by lia.
      apply (IH (0 :: rest)); [by rewrite <- app_assoc in Hs|lia].
    + replace (Z.to_nat (Z.of_nat (length bs + S k) - 1)) with (length (bs ++ replicate k 0)) by (rewrite length_app, length_replicate; lia). by apply list_lookup_middle.
Qed.

(** The length and the padding without the flag. *)
Lemma bit_length_unused s bs k : bit_string s (bs ++ replicate k 0) -> trimmed bs -> Z.land (sflags s) ASN1_STRING_FLAG_BITS_LEFT = 0 ->
  asn1_bit_string_length s = Some (Z.of_nat (length bs), match last bs with None => 0 | Some x => pad_of x end).
Proof.
  intros Hs Ht Hf. unfold asn1_bit_string_length. rewrite Hf. cbn [Z.eqb negb]. pose proof (b_len _ _ Hs) as El. rewrite length_app, length_replicate in El.
  rewrite El. rewrite (trim_loop_spec bs k [] s) by (rewrite ?app_nil_r; done || lia). cbn [mbind option_bind].
  destruct bs as [|x bs _] using rev_ind; [done|]. rewrite last_snoc, length_app. cbn [length]. rewrite (proj2 (Z.ltb_lt 0 _)) by lia.
  rewrite (data_byte_bits s _ _ x Hs); [done| |lia].
  replace (Z.to_nat (Z.of_nat (length bs + 1) - 1)) with (length bs) by lia. rewrite <- app_assoc. by apply list_lookup_middle.
Qed.

(** Writing the padding, the bytes and the mask over the last byte. *)
Lemma i2c_bits_spec s bs post0 pad : asn1_bit_string_length s = Some (Z.of_nat (length bs), pad) ->
  (bs <> [] -> sdata s = Some (bs ++ post0)) -> bytes bs -> Z.of_nat (length bs) < INT_MAX -> 0 <= pad <= 7 ->
  match last bs with None => True | Some x => Z.land x (u8 (Z.shiftl 1 pad - 1)) = 0 end ->
  i2c_ASN1_BIT_STRING (Some s) None = Some (Z.of_nat (length (pad :: bs)), None) /\
  forall pre old post, length old = length (pad :: bs) ->
    i2c_ASN1_BIT_STRING (Some s) (Some (pre ++ old ++ post, Z.of_nat (length pre)))
    = Some (Z.of_nat (length (pad :: bs)), Some (pre ++ (pad :: bs) ++ post, Z.of_nat (length pre) + Z.of_nat (length (pad :: bs)))).
Proof.
  intros El Hd Hb Hz Hp Hlast. unfold i2c_ASN1_BIT_STRING. rewrite El. cbn [mbind option_bind]. change INT_MAX with 2147483647 in Hz.
  rewrite i32_in by in_range. cbn [mbind option_bind length]. replace (1 + Z.of_nat (length bs)) with (Z.of_nat (S (length bs))) by lia.
  split; [done|]. intros pre old post Hold. destruct old as [|o old]; [done|]. cbn [length] in Hold. injection Hold as Hold.
  cbn [app]. unfold wr. rewrite (wrs_mid pre [o] (old ++ post) [pad]) by done. cbn [mbind option_bind app].
  assert (forall d, (if Z.of_nat (length bs) =? 0 then Some (pre ++ pad :: old ++ post) else data ← sdata s; v ← rds data 0 (Z.of_nat (length bs)); wrs (pre ++ pad :: old ++ post) (Z.of_nat (length pre) + 1) v) = d -> d = Some ((pre ++ [pad]) ++ bs ++ post)) as H.
  { intros d <-. destruct bs as [|b bs]; [destruct old; [by rewrite <- app_assoc|done]|]. rewrite (proj2 (Z.eqb_neq _ 0)) by (cbn [length]; lia).
    rewrite Hd by done. cbn [mbind option_bind]. rewrite rds_prefix. cbn [mbind option_bind].
    pose proof (wrs_mid (pre ++ [pad]) old post (b :: bs) (Z.of_nat (length pre) + 1)) as Hw. rewrite <- app_assoc in Hw. cbn [app] in Hw.
    rewrite Hw; [|rewrite length_app; cbn; lia|done]. done. }
  rewrite (H _ eq_refl). clear H. cbn [mbind option_bind].
  destruct bs as [|x bs _] using rev_ind; [|].
  { cbn [length app]. change (0 <? Z.of_nat 0) with false. cbn [mbind option_bind]. rewrite <- app_assoc. cbn [app].
    change (Z.of_nat 0) with 0. change (Z.of_nat 1) with 1. by rewrite Z.add_0_r. }
  rewrite last_snoc in Hlast. apply Forall_app in Hb as [_ Hx]. apply Forall_inv in Hx.
  rewrite (proj2 (Z.ltb_lt 0 _)) by (rewrite length_app; cbn [length]; lia).
  assert (forall y, (pre ++ [pad]) ++ (bs ++ [y]) ++ post = (pre ++ pad :: bs) ++ y :: post) as Ea by (intros; by rewrite <- !app_assoc).
  replace (Z.of_nat (length pre) + 1 + Z.of_nat (length (bs ++ [x])) - 1) with (Z.of_nat (length (pre ++ pad :: bs))) by
    (rewrite !length_app; cbn [length]; lia).
  rewrite !Ea, rd_app. cbn [mbind option_bind]. unfold wr. rewrite (wrs_mid (pre ++ pad :: bs) [x] post [_]) by done. cbn [mbind option_bind].
  rewrite mask_last by done. rewrite <- !app_assoc. cbn [app]. rewrite <- ?app_assoc. do 3 f_equal. f_equal. rewrite length_app. cbn [length]. lia.
Qed.

(** A string without the flag is written as a named bit list: as short as its
    bits allow. *)
Lemma i2c_named_bits s bs : bit_string s bs -> Z.land (sflags s) ASN1_STRING_FLAG_BITS_LEFT = 0 -> Z.of_nat (length bs) < INT_MAX ->
  exists bs', trimmed bs' /\ (forall n, bit bs' n = bit bs n) /\ valid_bits (named_bits bs') = true /\ bytes (named_bits bs') /\
    Z.of_nat (length (named_bits bs')) <= Z.of_nat (length bs) + 1 /\
    i2c_ASN1_BIT_STRING (Some s) None = Some (Z.of_nat (length (named_bits bs')), None) /\
    forall pre old post, length old = length (named_bits bs') ->
      i2c_ASN1_BIT_STRING (Some s) (Some (pre ++ old ++ post, Z.of_nat (length pre)))
      = Some (Z.of_nat (length (named_bits bs')), Some (pre ++ named_bits bs' ++ post, Z.of_nat (length pre) + Z.of_nat (length (named_bits bs')))).
Proof.
  intros Hs Hf Hz. destruct (trim_exists bs) as (bs' & k & -> & Ht). pose proof (bit_length_unused s bs' k Hs Ht Hf) as El.
  pose proof (b_bytes _ _ Hs) as Hb. apply Forall_app in Hb as [Hb _]. rewrite length_app in Hz. exists bs'. split; [done|]. split; [by intros; rewrite bit_app_zeros|].
  set (pad := match last bs' with None => 0 | Some x => pad_of x end) in *.
  assert (named_bits bs' = pad :: bs') as ->.
  { unfold named_bits, pad. destruct (last bs') eqn:E; [done|]. apply last_None in E as ->. done. }
  assert (0 <= pad <= 7 /\ match last bs' with None => pad = 0 | Some x => Z.land x (u8 (Z.shiftl 1 pad - 1)) = 0 end) as [Hp Hl].
  { unfold pad. destruct (last bs') as [x|] eqn:E; [|lia]. destruct (pad_of_spec x) as (H1 & _ & H2 & _); [|congruence|done].
    apply last_Some in E as [l ->]. apply Forall_app in Hb as [_ Hb]. by apply Forall_inv in Hb. }
  split; [cbn [valid_bits]; rewrite (proj2 (Z.leb_le pad 7)) by lia; destruct (last bs'); [by apply Z.eqb_eq|by rewrite Hl]|].
  split; [constructor; [unfold in_u; lia|done]|]. split; [rewrite length_app, length_replicate; cbn [length]; lia|].
  assert (exists post0, bs' <> [] -> sdata s = Some (bs' ++ post0)) as [post0 Hd].
  { pose proof (b_data _ _ Hs) as Hd. destruct (sdata s) as [d|]; [|apply app_eq_nil in Hd as [-> _]; by exists []].
    destruct Hd as [post ->]. exists (replicate k 0 ++ post). intros _. by rewrite app_assoc. }
  apply (i2c_bits_spec s bs' post0 pad); try done; [lia|]. destruct (last bs'); done.
Qed.

Section Reading.
Context (malloc : Z -> option (list Z)).
Hypothesis malloc_size : forall n b, malloc n = Some b -> Z.of_nat (length b) = n.

Lemma land_range x n : 0 <= n -> 0 <= Z.land x (2 ^ n - 1) < 2 ^ n.
Proof. intros. rewrite land_ones_mod by done. apply Z.mod_pos_bound. lia. Qed.

(** Reading accepts exactly the valid contents octets. *)
Lemma c2i_bits_spec a s0 c rest : bytes c -> Z.of_nat (length c) <= INT_MAX ->
  (match a with None => ASN1_STRING_type_new malloc V_ASN1_BIT_STRING | Some _ => a end) = Some s0 ->
  (forall n, 0 < n < Z.of_nat (length c) -> malloc n <> None) ->
  if valid_bits c then
    exists s, c2i_ASN1_BIT_STRING malloc a (c ++ rest) (Z.of_nat (length c)) = Some (true, Some s) /\
      bit_string s (tail c) /\ stype s = V_ASN1_BIT_STRING /\
      asn1_bit_string_length s = Some (Z.of_nat (length (tail c)), hd 0 c)
  else c2i_ASN1_BIT_STRING malloc a (c ++ rest) (Z.of_nat (length c)) = Some (false, a).
Proof.
  intros Hb Hz Ht Hm. unfold c2i_ASN1_BIT_STRING. destruct c as [|pad bs]; [done|]. cbn [length valid_bits hd tail] in *.
  rewrite (proj2 (Z.ltb_ge _ 1)), (proj2 (Z.ltb_ge INT_MAX _)), Ht by lia. cbn [app].
  pose proof (rd_app [] pad (bs ++ rest)) as Er. cbn [app length] in Er. change (Z.of_nat 0) with 0 in Er. rewrite Er. cbn [mbind option_bind].
  replace (Z.of_nat (S (length bs)) - 1) with (Z.of_nat (length bs)) by lia.
  apply Forall_cons in Hb as [Hp Hb]. unfold in_u in Hp. destruct (7 <? pad) eqn:E7; [apply Z.ltb_lt in E7|apply Z.ltb_ge in E7].
  { by rewrite (proj2 (Z.leb_gt pad 7)) by lia. }
  rewrite (proj2 (Z.leb_le pad 7)) by lia. cbn [andb].
  assert ((if pad =? 0 then Some false else if Z.of_nat (length bs) <? 1 then Some true
     else c ← rd (pad :: bs ++ rest) (1 + (Z.of_nat (length bs) - 1)); Some (negb (Z.land c (u8 (Z.shiftl 1 pad - 1)) =? 0)))
    = Some (negb (match last bs with None => pad =? 0 | Some x => Z.land x (u8 (Z.shiftl 1 pad - 1)) =? 0 end))) as ->.
  { destruct (pad =? 0) eqn:E0.
    - apply Z.eqb_eq in E0 as ->. destruct (last bs) as [x|]; [|done]. change (u8 (Z.shiftl 1 0 - 1)) with 0. by rewrite Z.land_0_r.
    - destruct bs as [|x bs _] using rev_ind; [done|]. rewrite last_snoc, length_app. cbn [length]. rewrite (proj2 (Z.ltb_ge _ 1)) by lia.
      replace (1 + (Z.of_nat (length bs + 1) - 1)) with (Z.of_nat (length (pad :: bs))) by (cbn [length]; lia).
      rewrite <- app_assoc. cbn [app]. pose proof (rd_app (pad :: bs) x rest) as Er'. cbn [app] in Er'. by rewrite Er'. }
  cbn [mbind option_bind]. destruct (match last bs with None => _ | Some _ => _ end) eqn:Ev; cbn [negb]; [|done].
  cbn [sflags set_flags]. set (f := Z.lor (clear_bits_left (sflags s0)) (Z.lor ASN1_STRING_FLAG_BITS_LEFT pad)).
  assert (Z.land f ASN1_STRING_FLAG_BITS_LEFT <> 0 /\ Z.land f 7 = pad) as [Hf8 Hf7].
  { unfold f. rewrite !Z.land_lor_distr_l. rewrite clear_bits_left_spec, Z.lor_0_l. split.
    - unfold ASN1_STRING_FLAG_BITS_LEFT. rewrite Z.land_diag. intros E. apply Z.lor_eq_0_iff in E as [E _]. done.
    - assert (Z.land (clear_bits_left (sflags s0)) 7 = 0) as ->.
      { unfold clear_bits_left. rewrite <- Z.land_assoc. change (Z.land (Z.lnot (Z.lor ASN1_STRING_FLAG_BITS_LEFT 7)) 7) with 0. apply Z.land_0_r. }
      change (Z.land ASN1_STRING_FLAG_BITS_LEFT 7) with 0. rewrite !Z.lor_0_l. change 7 with (2 ^ 3 - 1). rewrite land_ones_mod by lia. change (2 ^ 3) with 8. lia. }
  clearbody f.
  assert (forall d, (match d with None => bs = [] | Some d' => exists post, d' = bs ++ post end) ->
    bit_string (mk_string (Z.of_nat (length bs)) V_ASN1_BIT_STRING d f) bs /\
    asn1_bit_string_length (mk_string (Z.of_nat (length bs)) V_ASN1_BIT_STRING d f) = Some (Z.of_nat (length bs), pad)) as Hgo.
  { intros d Hd. split; [by constructor|]. unfold asn1_bit_string_length. cbn [slen sflags].
    rewrite (proj2 (Z.eqb_neq _ 0)) by done. cbn [negb]. rewrite Hf7. destruct bs; [|done]. cbn [last] in Ev. apply Z.eqb_eq in Ev as ->. done. }
  destruct (0 <? Z.of_nat (length bs)) eqn:E0; [apply Z.ltb_lt in E0|apply Z.ltb_ge in E0].
  - destruct (malloc (Z.of_nat (length bs))) as [buf|] eqn:Em; [|by apply Hm in Em; [|lia]]. apply malloc_size in Em.
    pose proof (rds_at [pad] bs rest) as Er'. cbn [app length] in Er'. change (Z.of_nat 1) with 1 in Er'. rewrite Er'. cbn [mbind option_bind].
    pose proof (wrs_mid [] buf [] bs 0 eq_refl) as Hw. cbn [app] in Hw. rewrite !app_nil_r in Hw. rewrite Hw by lia. cbn [mbind option_bind].
    destruct (Hgo (Some bs)) as [H1 H2]; [exists []; by rewrite app_nil_r|]. eexists. split; [reflexivity|]. done.
  - destruct bs; [|cbn [length] in E0; lia]. destruct (Hgo None eq_refl) as [H1 H2]. eexists. split; [reflexivity|]. done.
Qed.
End Reading.
