(* ===== verification/Calendar.v ===== *)
(** * The proleptic Gregorian calendar

    A calendar by its rules: the leap years, the lengths of the months and the
    next day.  The number of a day counts from 1 January 1970; [day_number_next]
    and [day_number_epoch] show that it is the count, [civil] is its inverse. *)
From S2P Require Import Prelude.

#[local] Ltac Zify.zify_post_hook ::= Z.to_euclidean_division_equations.

Record date : Type := mk_date { year : Z; month : Z; day : Z }.

#[export] Instance date_eq_dec : EqDecision date.
Proof. solve_decision. Defined.

Definition leap (y : Z) : bool :=
  (y mod 4 =? 0) && (negb (y mod 100 =? 0) || (y mod 400 =? 0)).

Definition month_len (y m : Z) : Z :=
  if m =? 2 then if leap y then 29 else 28
  else if (m =? 4) || (m =? 6) || (m =? 9) || (m =? 11) then 30 else 31.

Definition valid_date (dt : date) : Prop :=
  1 <= month dt <= 12 /\ 1 <= day dt <= month_len (year dt) (month dt).

#[export] Instance valid_date_dec dt : Decision (valid_date dt).
Proof. unfold valid_date. apply _. Defined.

Definition next_day (dt : date) : date :=
  if day dt <? month_len (year dt) (month dt) then mk_date (year dt) (month dt) (day dt + 1)
  else if month dt <? 12 then mk_date (year dt) (month dt + 1) 1
  else mk_date (year dt + 1) 1 1.

(** ** The number of a day *)

(** The days from the first of January of the year 1 to that of the year [y]. *)
Definition days_before_year (y : Z) : Z :=
  365 * (y - 1) + (y - 1) / 4 - (y - 1) / 100 + (y - 1) / 400.

Definition days_before_month (y m : Z) : Z :=
  foldr (fun i n => month_len y i + n) 0 (seqZ 1 (m - 1)).

Definition day_number (dt : date) : Z :=
  days_before_year (year dt) + days_before_month (year dt) (month dt) + (day dt - 1) - 719162.

Lemma month_cases m : 1 <= m <= 12 ->
  m = 1 \/ m = 2 \/ m = 3 \/ m = 4 \/ m = 5 \/ m = 6 \/ m = 7 \/ m = 8 \/ m = 9 \/ m = 10 \/ m = 11 \/ m = 12.
Proof. lia. Qed.

(** Go through the twelve months. *)
Ltac each_month m H :=
  destruct (month_cases m H) as [->|[->|[->|[->|[->|[->|[->|[->|[->|[->|[->| ->]]]]]]]]]]].

Lemma month_len_pos y m : 28 <= month_len y m <= 31.
Proof. unfold month_len. repeat case_match; lia. Qed.

Lemma days_before_month_12 y : days_before_month y 12 + 31 = 365 + (if leap y then 1 else 0).
Proof. unfold days_before_month, month_len. cbn. destruct (leap y); reflexivity. Qed.

Lemma days_before_year_S y : days_before_year (y + 1) = days_before_year y + 365 + (if leap y then 1 else 0).
Proof.
  unfold days_before_year, leap. replace (y + 1 - 1) with y by lia.
  destruct (y mod 4 =? 0) eqn:E4; destruct (y mod 100 =? 0) eqn:E100; destruct (y mod 400 =? 0) eqn:E400; cbn [andb orb negb]; lia.
Qed.

Lemma days_before_month_S y m : 1 <= m -> days_before_month y (m + 1) = days_before_month y m + month_len y m.
Proof.
  intros Hm. unfold days_before_month. replace (m + 1 - 1) with (m - 1 + 1) by lia.
  rewrite seqZ_app by lia. replace (1 + (m - 1)) with m by lia. cbn [seqZ]. rewrite foldr_app.
  change (foldr _ 0 (seqZ m 1)) with (month_len y m + 0).
  generalize (seqZ 1 (m - 1)). intros l. induction l as [|i l IH]; cbn [foldr]; lia.
Qed.

Lemma day_number_epoch : day_number (mk_date 1970 1 1) = 0.
Proof. reflexivity. Qed.

Lemma next_day_valid dt : valid_date dt -> valid_date (next_day dt).
Proof.
  intros [Hm Hd]. unfold next_day, valid_date. pose proof (month_len_pos (year dt) (month dt + 1)).
  pose proof (month_len_pos (year dt + 1) 1).
  destruct (day dt <? _) eqn:E1; [cbn; lia|]. destruct (month dt <? 12) eqn:E2; cbn [year month day]; lia.
Qed.

Lemma day_number_next dt : valid_date dt -> day_number (next_day dt) = day_number dt + 1.
Proof.
  intros [Hm Hd]. unfold next_day, day_number. destruct (day dt <? _) eqn:E1; [cbn; lia|].
  destruct (month dt <? 12) eqn:E2; cbn [year month day].
  - rewrite days_before_month_S by lia. lia.
  - assert (month dt = 12) as Hm' by lia. rewrite Hm' in *. rewrite days_before_year_S.
    pose proof (days_before_month_12 (year dt)). change (days_before_month (year dt + 1) 1) with 0.
    change (month_len (year dt) 12) with 31 in *. lia.
Qed.

(** ** The day of a number

    Years that begin in March end with the leap day; they come in eras of 400,
    centuries of 100 and groups of four. *)

(** The days before the month [mp] after March, from the first of March. *)
Definition march_days (mp : Z) : Z := (153 * mp + 2) / 5.

(** The days before the first of March of the year [y], from that of year 0. *)
Definition march_year (y : Z) : Z := 365 * y + y / 4 - y / 100 + y / 400.

Definition early (m : Z) : Z := if m <=? 2 then 1 else 0.

Lemma day_number_march y m d : 1 <= m <= 12 ->
  day_number (mk_date y m d) = march_year (y - early m) + march_days (m + 12 * early m - 3) + d - 1 - 719468.
Proof.
  intros Hm. unfold day_number. cbn [year month day].
  replace (days_before_year y + days_before_month y m)
    with (march_year (y - early m) + march_days (m + 12 * early m - 3) - 306); [lia|].
  assert (days_before_year y = march_year (y - 1)) as -> by reflexivity.
  assert (march_year y = march_year (y - 1) + 365 + (if leap y then 1 else 0)) as E.
  { pose proof (days_before_year_S y) as H. unfold days_before_year in H. unfold march_year. replace (y + 1 - 1) with y in H by lia. lia. }
  each_month m Hm; unfold early; cbn [Z.leb Z.compare Pos.compare Pos.compare_cont];
    rewrite ?Z.sub_0_r, ?E; unfold days_before_month, month_len, march_days; destruct (leap y);
    match goal with |- context [foldr ?f ?a ?l] => let v := eval vm_compute in (foldr f a l) in change (foldr f a l) with v end; lia.
Qed.

Definition civil (z : Z) : date :=
  let z := z + 719468 in
  let era := z / 146097 in
  let doe := z mod 146097 in
  let century := Z.min (doe / 36524) 3 in
  let doc := doe - 36524 * century in
  let group := doc / 1461 in
  let dog := doc - 1461 * group in
  let yog := Z.min (dog / 365) 3 in
  let doy := dog - 365 * yog in
  let mp := (5 * doy + 2) / 153 in
  let m := if mp <? 10 then mp + 3 else mp - 9 in
  mk_date (400 * era + 100 * century + 4 * group + yog + early m) m (doy - march_days mp + 1).

(** Years in their era, century and group. *)
Lemma march_year_parts e c g y : 0 <= c < 4 -> 0 <= g < 25 -> 0 <= y < 4 ->
  march_year (400 * e + 100 * c + 4 * g + y) = 146097 * e + 36524 * c + 1461 * g + 365 * y.
Proof. intros. unfold march_year. lia. Qed.

Lemma leap_parts e c g : 0 <= c < 4 -> 0 <= g < 25 ->
  (g <> 24 \/ c = 3) -> leap (400 * e + 100 * c + 4 * g + 3 + 1) = true.
Proof. intros Hc Hg H. unfold leap. lia. Qed.

Lemma month_len_march y mp doy m : mp = (5 * doy + 2) / 153 ->
  0 <= doy <= 365 -> (doy = 365 -> leap (y + 1) = true) -> m = (if mp <? 10 then mp + 3 else mp - 9) ->
  1 <= m <= 12 /\ m + 12 * early m - 3 = mp /\ 1 <= doy - march_days mp + 1 <= month_len (y + early m) m.
Proof.
  intros Emp Hd Hl Em. unfold march_days.
  assert (mp = 0 \/ mp = 1 \/ mp = 2 \/ mp = 3 \/ mp = 4 \/ mp = 5 \/ mp = 6 \/ mp = 7 \/ mp = 8 \/ mp = 9 \/ mp = 10 \/ mp = 11) as H by lia.
  assert (doy = 365 \/ doy < 365) as Hx by lia.
  destruct H as [->|[->|[->|[->|[->|[->|[->|[->|[->|[->|[->| ->]]]]]]]]]]];
    vm_compute in Em; subst m; unfold early, month_len; cbn -[Z.mul Z.add Z.sub Z.div leap]; (split; [lia|]); (split; [lia|]); try lia.
  destruct Hx as [->|Hx]; [rewrite Hl by done; lia|]. destruct (leap (y + 1)); lia.
Qed.

Lemma civil_spec z : valid_date (civil z) /\ day_number (civil z) = z.
Proof.
  unfold civil. set (w := z + 719468). set (era := w / 146097). set (doe := w mod 146097).
  set (c := Z.min (doe / 36524) 3). set (doc := doe - 36524 * c). set (g := doc / 1461). set (dog := doc - 1461 * g).
  set (yog := Z.min (dog / 365) 3). set (doy := dog - 365 * yog). set (mp := (5 * doy + 2) / 153).
  set (Y := 400 * era + 100 * c + 4 * g + yog). cbn zeta.
  assert (w = 146097 * era + doe /\ 0 <= doe < 146097) as [Ew Hdoe] by (unfold era, doe; lia).
  assert (0 <= c < 4 /\ 0 <= doc /\ (c < 3 /\ doc < 36524 \/ c = 3 /\ doc <= 36524)) as (Hc & Hdoc & Hdoc') by (unfold doc, c; lia).
  assert (0 <= g < 25 /\ 0 <= dog <= 1460 /\ (g = 24 -> c < 3 -> dog < 1460)) as (Hg & Hdog & Hdog') by (unfold dog, g; lia).
  assert (0 <= yog < 4 /\ 0 <= doy /\ (yog < 3 /\ doy < 365 \/ yog = 3 /\ doy <= 365)) as (Hy & Hdoy & Hdoy') by (unfold doy, yog; lia).
  set (m := if mp <? 10 then _ else _). destruct (month_len_march Y mp doy m eq_refl) as (Hm & Emp & Hd); [lia| |done|].
  { intros E365. assert (yog = 3) as Ey by lia. unfold Y. rewrite Ey. apply leap_parts; [done..|].
    destruct (decide (g = 24)) as [Eg|]; [|by left]. right. assert (~ c < 3); [|lia]. intros Hc'. specialize (Hdog' Eg Hc'). unfold doy in E365. lia. }
  split; [done|]. rewrite day_number_march by done. rewrite Emp.
  replace (Y + early _ - early _) with Y by lia. unfold Y at 1. rewrite march_year_parts by done.
  unfold doy, dog, doc in *. lia.
Qed.

(** ** Numbers determine days *)

Lemma days_before_month_mono y m m' : 1 <= m < m' -> days_before_month y m + month_len y m <= days_before_month y m'.
Proof.
  intros H. rewrite <- days_before_month_S by lia. assert (exists n : nat, m' = m + 1 + Z.of_nat n) as [n ->].
  { exists (Z.to_nat (m' - m - 1)). lia. }
  induction n as [|n IH]; [by rewrite Z.add_0_r|]. replace (m + 1 + Z.of_nat (S n)) with (m + 1 + Z.of_nat n + 1) by lia.
  rewrite (days_before_month_S y (m + 1 + Z.of_nat n)) by lia. pose proof (month_len_pos y (m + 1 + Z.of_nat n)). lia.
Qed.

Lemma days_before_month_range y m : 1 <= m <= 12 ->
  0 <= days_before_month y m /\ days_before_month y m + month_len y m <= 365 + (if leap y then 1 else 0).
Proof.
  intros Hm. pose proof (days_before_month_12 y). split.
  - destruct (decide (m = 1)) as [->|]; [done|]. pose proof (days_before_month_mono y 1 m ltac:(lia)).
    change (days_before_month y 1) with 0 in *. pose proof (month_len_pos y 1). lia.
  - destruct (decide (m = 12)) as [->|]; [change (month_len y 12) with 31; lia|].
    pose proof (days_before_month_mono y m 12 ltac:(lia)). change (days_before_month y 12 + 31 = 365 + (if leap y then 1 else 0)) in H. lia.
Qed.

Lemma days_before_year_mono y y' : y < y' -> days_before_year y + 365 + (if leap y then 1 else 0) <= days_before_year y'.
Proof.
  intros H. rewrite <- days_before_year_S. unfold days_before_year. lia.
Qed.

Lemma day_number_year dt : valid_date dt ->
  days_before_year (year dt) - 719162 <= day_number dt < days_before_year (year dt) - 719162 + 365 + (if leap (year dt) then 1 else 0).
Proof.
  intros [Hm Hd]. unfold day_number. pose proof (days_before_month_range (year dt) (month dt) Hm). lia.
Qed.

Lemma day_number_inj dt dt' : valid_date dt -> valid_date dt' -> day_number dt = day_number dt' -> dt = dt'.
Proof.
  intros Hv Hv' E. pose proof (day_number_year dt Hv). pose proof (day_number_year dt' Hv').
  assert (year dt = year dt') as Ey.
  { destruct (Z.lt_trichotomy (year dt) (year dt')) as [Hl|[Hl|Hl]]; [|done|].
    - pose proof (days_before_year_mono _ _ Hl). lia.
    - pose proof (days_before_year_mono _ _ Hl). lia. }
  destruct Hv as [Hm Hd], Hv' as [Hm' Hd']. unfold day_number in E. destruct dt as [y m d], dt' as [y' m' d']. cbn [year month day] in *.
  subst y'. destruct (Z.lt_trichotomy m m') as [Hl|[Hl|Hl]].
  - pose proof (days_before_month_mono y m m' ltac:(lia)). lia.
  - subst m'. f_equal. lia.
  - pose proof (days_before_month_mono y m' m ltac:(lia)). lia.
Qed.

Lemma civil_day_number dt : valid_date dt -> civil (day_number dt) = dt.
Proof. intros H. apply day_number_inj; [apply civil_spec|done|apply civil_spec]. Qed.
