(* ===== verification/Asn1Time.v ===== *)
(** * BoringSSL: ASN.1 times ([time_support.c], [a_utctm.c], [a_gentm.c],
    [a_time.c])

    [struct tm] with the members the code uses.  [int] and [long] have 32 and 64
    bits; signed overflow is undefined.  A function that returns 0 or 1 and
    fills in a [struct tm] is a [proc] over the structure, which is [None] for
    the null pointer.  [gmtime_r] of the C library is the calendar. *)
From S2P Require Import Prelude CBuf CProc Asn1String Calendar.

Record tm : Type := mk_tm { tm_sec : Z; tm_min : Z; tm_hour : Z; tm_mday : Z; tm_mon : Z; tm_year : Z }.

Definition SECS_PER_DAY := 24 * 60 * 60.

(** [gmtime_r]: NULL if the year does not fit. *)
Definition OPENSSL_gmtime (time : Z) : option tm :=
  let dt := civil (time / SECS_PER_DAY) in
  let s := time mod SECS_PER_DAY in
  if bool_decide (in_s 32 (year dt - 1900))
  then Some (mk_tm (s mod 60) (s / 60 mod 60) (s / 3600) (day dt) (month dt - 1) (year dt - 1900))
  else None.

(** ** Julian days *)

Definition date_to_julian (y m d : Z) : option Z :=
  m14 ← i32 (m - 14);
  let q := Z.quot m14 12 in
  a ← i32 (y + 4800); a ← i32 (a + q); a ← i32 (1461 * a);
  b ← i32 (m - 2); q12 ← i32 (12 * q); b ← i32 (b - q12); b ← i32 (367 * b);
  c ← i32 (y + 4900); c ← i32 (c + q); c ← i32 (3 * Z.quot c 100);
  r ← i32 (Z.quot a 4 + Z.quot b 12); r ← i32 (r - Z.quot c 4); r ← i32 (r + d); i32 (r - 32075).

(** The year, the month and the day, as they are stored in an [int]. *)
Definition julian_to_date (jd : Z) : option (Z * Z * Z) :=
  L ← i64 (jd + 68569);
  n4 ← i64 (4 * L);
  let n := Z.quot n4 146097 in
  x ← i64 (146097 * n); x ← i64 (x + 3); L ← i64 (L - Z.quot x 4);
  i ← i64 (L + 1); i ← i64 (4000 * i);
  let i := Z.quot i 1461001 in
  x ← i64 (1461 * i); L ← i64 (L - Z.quot x 4); L ← i64 (L + 31);
  j ← i64 (80 * L);
  let j := Z.quot j 2447 in
  x ← i64 (2447 * j); d ← i64 (L - Z.quot x 80);
  let L := Z.quot j 11 in
  m ← i64 (j + 2); x ← i64 (12 * L); m ← i64 (m - x);
  y ← i64 (n - 49); y ← i64 (100 * y); y ← i64 (y + i); y ← i64 (y + L);
  Some (s32 y, s32 m, s32 d).

(** The inner [None] is the return of 0. *)
Definition julian_adj (t : tm) (off_day offset_sec : Z) : option (option (Z * Z)) :=
  let offset_day := s32 (Z.quot offset_sec SECS_PER_DAY) in
  x ← i32 (offset_day * SECS_PER_DAY);
  x ← i64 (offset_sec - x);
  let offset_hms := s32 x in
  offset_day ← i32 (offset_day + off_day);
  h ← i32 (tm_hour t * 3600); m ← i32 (tm_min t * 60); x ← i32 (h + m); x ← i32 (x + tm_sec t);
  offset_hms ← i32 (offset_hms + x);
  r ← (if SECS_PER_DAY <=? offset_hms then
         d ← i32 (offset_day + 1); s ← i32 (offset_hms - SECS_PER_DAY); Some (d, s)
       else if offset_hms <? 0 then
         d ← i32 (offset_day - 1); s ← i32 (offset_hms + SECS_PER_DAY); Some (d, s)
       else Some (offset_day, offset_hms));
  let '(offset_day, offset_hms) := r in
  time_year ← i32 (tm_year t + 1900);
  time_month ← i32 (tm_mon t + 1);
  time_jd ← date_to_julian time_year time_month (tm_mday t);
  time_jd ← i64 (time_jd + offset_day);
  Some (if time_jd <? 0 then None else Some (time_jd, offset_hms)).

Definition OPENSSL_gmtime_adj (t : tm) (off_day offset_sec : Z) : option (option tm) :=
  r ← julian_adj t off_day offset_sec;
  match r with
  | None => Some None
  | Some (time_jd, time_sec) =>
      ymd ← julian_to_date time_jd;
      let '(time_year, time_month, time_day) := ymd in
      if (time_year <? 1900) || (9999 <? time_year) then Some None
      else Some (Some (mk_tm (Z.rem time_sec 60) (Z.rem (Z.quot time_sec 60) 60) (Z.quot time_sec 3600)
                         time_day (time_month - 1) (time_year - 1900)))
  end.

(** The days and the seconds; the inner [None] is the return of 0. *)
Definition OPENSSL_gmtime_diff (from to : tm) : option (option (Z * Z)) :=
  f ← julian_adj from 0 0;
  match f with
  | None => Some None
  | Some (from_jd, from_sec) =>
      t ← julian_adj to 0 0;
      match t with
      | None => Some None
      | Some (to_jd, to_sec) =>
          diff_day ← i64 (to_jd - from_jd);
          diff_sec ← i32 (to_sec - from_sec);
          r ← (if (0 <? diff_day) && (diff_sec <? 0) then
                 d ← i64 (diff_day - 1); s ← i32 (diff_sec + SECS_PER_DAY); Some (d, s)
               else Some (diff_day, diff_sec));
          let '(diff_day, diff_sec) := r in
          r ← (if (diff_day <? 0) && (0 <? diff_sec) then
                 d ← i64 (diff_day + 1); s ← i32 (diff_sec - SECS_PER_DAY); Some (d, s)
               else Some (diff_day, diff_sec));
          let '(diff_day, diff_sec) := r in
          Some (Some (s32 diff_day, diff_sec))
      end
  end.

(** ** From text *)

Definition parser : Type -> Type := proc (option tm).

(** [if (tm) tm->... = ...] *)
Definition set_tm (f : tm -> tm) : parser unit := t ← current; become (f <$> t).

Definition char_at (a : list Z) (o : Z) : parser Z := of_option (s8 <$> rd a o).

Definition is_digit (c : Z) : bool := (48 <=? c) && (c <=? 57).

(** Two digits, each followed by the test that the string goes on. *)
Definition two_digits (a : list Z) (l o : Z) : parser (Z * Z) :=
  c ← char_at a o;
  if negb (is_digit c) then return_0
  else
    let n := c - 48 in
    let o := o + 1 in
    if l <? o then return_0
    else
      c ← char_at a o;
      if negb (is_digit c) then return_0
      else
        let n := n * 10 + c - 48 in
        let o := o + 1 in
        if l <? o then return_0 else mret (n, o).

Definition with_year (y : Z) (t : tm) := mk_tm (tm_sec t) (tm_min t) (tm_hour t) (tm_mday t) (tm_mon t) y.
Definition with_mon (m : Z) (t : tm) := mk_tm (tm_sec t) (tm_min t) (tm_hour t) (tm_mday t) m (tm_year t).
Definition with_mday (d : Z) (t : tm) := mk_tm (tm_sec t) (tm_min t) (tm_hour t) d (tm_mon t) (tm_year t).
Definition with_hour (h : Z) (t : tm) := mk_tm (tm_sec t) (tm_min t) h (tm_mday t) (tm_mon t) (tm_year t).
Definition with_min (m : Z) (t : tm) := mk_tm (tm_sec t) m (tm_hour t) (tm_mday t) (tm_mon t) (tm_year t).
Definition with_sec (s : Z) (t : tm) := mk_tm s (tm_min t) (tm_hour t) (tm_mday t) (tm_mon t) (tm_year t).

Definition utc_min : list Z := [0; 1; 1; 0; 0; 0; 0; 0].
Definition utc_max : list Z := [99; 12; 31; 23; 59; 59; 12; 59].

Definition utc_field (i n : Z) (t : tm) : tm :=
  if i =? 0 then with_year (if n <? 50 then n + 100 else n) t
  else if i =? 1 then with_mon (n - 1) t
  else if i =? 2 then with_mday n t
  else if i =? 3 then with_hour n t
  else if i =? 4 then with_min n t
  else with_sec n t.

Definition gen_min : list Z := [0; 0; 1; 1; 0; 0; 0; 0; 0].
Definition gen_max : list Z := [99; 99; 12; 31; 23; 59; 59; 12; 59].

Definition gen_field (i n : Z) (t : tm) : tm :=
  if i =? 0 then with_year (n * 100 - 1900) t
  else if i =? 1 then with_year (tm_year t + n) t
  else if i =? 2 then with_mon (n - 1) t
  else if i =? 3 then with_mday n t
  else if i =? 4 then with_hour n t
  else if i =? 5 then with_min n t
  else with_sec n t.

Definition Z_char := 90.
Definition plus_char := 43.
Definition minus_char := 45.

(** The fields from [i] on, up to [fields]; the last one may be missing. *)
Fixpoint field_loop (n : nat) (minv maxv : list Z) (field : Z -> Z -> tm -> tm) (fields : Z) (a : list Z) (l i o : Z) : parser Z :=
  match n with
  | O => mret o
  | S n' =>
      let go :=
        '(v, o) ← two_digits a l o;
        lo ← of_option (rd minv i); hi ← of_option (rd maxv i);
        if (v <? lo) || (hi <? v) then return_0
        else set_tm (field i v);; field_loop n' minv maxv field fields a l (i + 1) o in
      if i =? fields - 1 then
        c ← char_at a o;
        if (c =? Z_char) || (c =? plus_char) || (c =? minus_char) then set_tm (with_sec 0);; mret o
        else go
      else go
  end.

(** The hours and the minutes of an offset. *)
Definition offset_digits (minv maxv : list Z) (a : list Z) (i o : Z) : parser (Z * Z) :=
  c ← char_at a o;
  if negb (is_digit c) then return_0
  else
    let n := c - 48 in
    let o := o + 1 in
    c ← char_at a o;
    if negb (is_digit c) then return_0
    else
      let n := n * 10 + c - 48 in
      lo ← of_option (rd minv i); hi ← of_option (rd maxv i);
      if (n <? lo) || (hi <? n) then return_0 else mret (n, o + 1).

(** The sign at [o] and what follows; the offset is 0 without a structure. *)
Definition zone_offset (minv maxv : list Z) (fields : Z) (a : list Z) (l o c : Z) : parser Z :=
  let offsign := if c =? minus_char then 1 else -1 in
  let o := o + 1 in
  if l <? o + 4 then return_0
  else
    '(h, o) ← offset_digits minv maxv a fields o;
    '(m, o) ← offset_digits minv maxv a (fields + 1) o;
    t ← current;
    let offset := match t with None => 0 | Some _ => h * 3600 + m * 60 end in
    if offset =? 0 then mret o
    else
      t ← of_option t;
      r ← of_option (OPENSSL_gmtime_adj t 0 (offset * offsign));
      match r with None => return_0 | Some t => become (Some t);; mret o end.

Definition asn1_utctime_to_tm (d : asn1_string) : parser unit :=
  if negb (stype d =? V_ASN1_UTCTIME) then return_0
  else
    let l := slen d in
    if l <? 11 then return_0
    else
      a ← of_option (sdata d);
      o ← field_loop 6 utc_min utc_max utc_field 6 a l 0 0;
      c ← char_at a o;
      o ← (if c =? Z_char then mret (o + 1)
           else if (c =? plus_char) || (c =? minus_char) then zone_offset utc_min utc_max 6 a l o c
           else mret o);
      if o =? l then mret tt else return_0.

(** The digits of a fraction. *)
Fixpoint fraction_loop (fuel : nat) (a : list Z) (l o : Z) : parser Z :=
  match fuel with
  | O => stuck
  | S fuel' =>
      c ← char_at a o;
      if is_digit c && (o <=? l) then fraction_loop fuel' a l (o + 1) else mret o
  end.

Definition asn1_generalizedtime_to_tm (d : asn1_string) : parser unit :=
  if negb (stype d =? V_ASN1_GENERALIZEDTIME) then return_0
  else
    let l := slen d in
    if l <? 13 then return_0
    else
      a ← of_option (sdata d);
      o ← field_loop 7 gen_min gen_max gen_field 7 a l 0 0;
      c ← char_at a o;
      o ← (if c =? 46 then
             if l <? o + 1 then return_0
             else
               e ← fraction_loop (S (length a)) a l (o + 1);
               if e =? o + 1 then return_0 else mret e
           else mret o);
      c ← char_at a o;
      o ← (if c =? Z_char then mret (o + 1)
           else if (c =? plus_char) || (c =? minus_char) then zone_offset gen_min gen_max 7 a l o c
           else if negb (c =? 0) then return_0
           else mret o);
      if o =? l then mret tt else return_0.

(** The return value of a parser on [t]. *)
Definition returns_1 (p : parser unit) (t : option tm) : option (bool * option tm) :=
  match p t with Done _ t' => Some (true, t') | Bad t' => Some (false, t') | Stuck => None end.

Definition ASN1_UTCTIME_check (d : asn1_string) : option bool := fst <$> returns_1 (asn1_utctime_to_tm d) None.
Definition ASN1_GENERALIZEDTIME_check (d : asn1_string) : option bool := fst <$> returns_1 (asn1_generalizedtime_to_tm d) None.

Definition ASN1_TIME_check (t : asn1_string) : option bool :=
  if stype t =? V_ASN1_GENERALIZEDTIME then ASN1_GENERALIZEDTIME_check t
  else if stype t =? V_ASN1_UTCTIME then ASN1_UTCTIME_check t
  else Some false.

(** [now] is the result of [time]. *)
Definition asn1_time_to_tm (now : Z) (t : option asn1_string) : parser unit :=
  match t with
  | None => match OPENSSL_gmtime now with Some r => set_tm (fun _ => r) | None => return_0 end
  | Some t =>
      if stype t =? V_ASN1_UTCTIME then asn1_utctime_to_tm t
      else if stype t =? V_ASN1_GENERALIZEDTIME then asn1_generalizedtime_to_tm t
      else return_0
  end.

(** [undef] stands for the contents of a local structure before it is set. *)
Definition ASN1_TIME_diff (undef : tm) (now : Z) (from to : option asn1_string) : option (option (Z * Z)) :=
  f ← returns_1 (asn1_time_to_tm now from) (Some undef);
  match f with
  | (true, Some tm_from) =>
      t ← returns_1 (asn1_time_to_tm now to) (Some undef);
      match t with
      | (true, Some tm_to) => OPENSSL_gmtime_diff tm_from tm_to
      | _ => Some None
      end
  | _ => Some None
  end.

Definition ASN1_UTCTIME_cmp_time_t (undef : tm) (s : asn1_string) (t : Z) : option Z :=
  r ← returns_1 (asn1_utctime_to_tm s) (Some undef);
  match r with
  | (true, Some stm) =>
      match OPENSSL_gmtime t with
      | None => Some (-2)
      | Some ttm =>
          d ← OPENSSL_gmtime_diff ttm stm;
          match d with
          | None => Some (-2)
          | Some (day, sec) =>
              Some (if 0 <? day then 1 else if day <? 0 then -1 else if 0 <? sec then 1 else if sec <? 0 then -1 else 0)
          end
      end
  | _ => Some (-2)
  end.

(** ** To text *)

Section Text.
Variable malloc : Z -> option (list Z).

Definition utc_text (t : tm) : list Z :=
  fmt_0d 2 (Z.rem (tm_year t) 100) ++ fmt_0d 2 (tm_mon t + 1) ++ fmt_0d 2 (tm_mday t) ++
  fmt_0d 2 (tm_hour t) ++ fmt_0d 2 (tm_min t) ++ fmt_0d 2 (tm_sec t) ++ [Z_char].

Definition gen_text (t : tm) : list Z :=
  fmt_0d 4 (tm_year t + 1900) ++ fmt_0d 2 (tm_mon t + 1) ++ fmt_0d 2 (tm_mday t) ++
  fmt_0d 2 (tm_hour t) ++ fmt_0d 2 (tm_min t) ++ fmt_0d 2 (tm_sec t) ++ [Z_char].

(** The structure for [t] and an offset; the inner [None] is an error. *)
Definition gmtime_with (t offset_day offset_sec : Z) : option (option tm) :=
  match OPENSSL_gmtime t with
  | None => Some None
  | Some ts =>
      if negb (offset_day =? 0) || negb (offset_sec =? 0) then OPENSSL_gmtime_adj ts offset_day offset_sec
      else Some (Some ts)
  end.

(** The room of 20 characters, the text and the type. *)
Definition write_time (s : asn1_string) (text : list Z) (type : Z) : option (bool * asn1_string) :=
  match (if bool_decide (sdata s = None) || (slen s <? 20) then malloc 20 else sdata s) with
  | None => Some (false, s)
  | Some p =>
      p ← wrs p 0 (snprintf 20 text);
      len ← c_str p;
      Some (true, mk_string (Z.of_nat (length len)) type (Some p) (sflags s))
  end.

(** The result is the return value and the caller's string, or the new one. *)
Definition finish_adj (s : option asn1_string) (type : Z) (body : asn1_string -> option (bool * asn1_string))
  : option (bool * option asn1_string) :=
  match (match s with None => ASN1_STRING_type_new malloc type | Some _ => s end) with
  | None => Some (false, s)
  | Some s0 =>
      r ← body s0;
      let '(ok, s') := r in
      if ok : bool then Some (true, Some s')
      else Some (false, match s with None => None | Some _ => Some s' end)
  end.

Definition ASN1_UTCTIME_adj (s : option asn1_string) (t offset_day offset_sec : Z) : option (bool * option asn1_string) :=
  finish_adj s V_ASN1_UTCTIME (fun s =>
    ts ← gmtime_with t offset_day offset_sec;
    match ts with
    | None => Some (false, s)
    | Some ts =>
        if (tm_year ts <? 50) || (150 <=? tm_year ts) then Some (false, s)
        else write_time s (utc_text ts) V_ASN1_UTCTIME
    end).

Definition ASN1_UTCTIME_set (s : option asn1_string) (t : Z) := ASN1_UTCTIME_adj s t 0 0.

Definition ASN1_GENERALIZEDTIME_adj (s : option asn1_string) (t offset_day offset_sec : Z) : option (bool * option asn1_string) :=
  finish_adj s V_ASN1_GENERALIZEDTIME (fun s =>
    ts ← gmtime_with t offset_day offset_sec;
    match ts with
    | None => Some (false, s)
    | Some ts =>
        if (tm_year ts <? 0 - 1900) || (9999 - 1900 <? tm_year ts) then Some (false, s)
        else write_time s (gen_text ts) V_ASN1_GENERALIZEDTIME
    end).

Definition ASN1_GENERALIZEDTIME_set (s : option asn1_string) (t : Z) := ASN1_GENERALIZEDTIME_adj s t 0 0.

Definition ASN1_TIME_adj (s : option asn1_string) (t offset_day offset_sec : Z) : option (bool * option asn1_string) :=
  ts ← gmtime_with t offset_day offset_sec;
  match ts with
  | None => Some (false, s)
  | Some ts =>
      if (50 <=? tm_year ts) && (tm_year ts <? 150) then ASN1_UTCTIME_adj s t offset_day offset_sec
      else ASN1_GENERALIZEDTIME_adj s t offset_day offset_sec
  end.

Definition ASN1_TIME_set (s : option asn1_string) (t : Z) := ASN1_TIME_adj s t 0 0.

(** ** Copying text *)

(** A string on the stack with the characters of [str]. *)
Definition text_string (type : Z) (str : list Z) : option asn1_string :=
  n ← c_str str; Some (mk_string (s32 (Z.of_nat (length n))) type (Some str) 0).

Definition set_checked (check : asn1_string -> option bool) (type : Z) (s : option asn1_string) (str : list Z)
  : option (bool * option asn1_string) :=
  t ← text_string type str;
  ok ← check t;
  if ok : bool then
    match s with
    | None => Some (true, None)
    | Some s0 =>
        r ← ASN1_STRING_set malloc s0 (Some str) (slen t);
        let '(ok, s') := r in
        if ok : bool then Some (true, Some (set_type type s')) else Some (false, Some s')
    end
  else Some (false, s).

Definition ASN1_UTCTIME_set_string := set_checked ASN1_UTCTIME_check V_ASN1_UTCTIME.
Definition ASN1_GENERALIZEDTIME_set_string := set_checked ASN1_GENERALIZEDTIME_check V_ASN1_GENERALIZEDTIME.

Definition ASN1_TIME_set_string (s : option asn1_string) (str : list Z) : option (bool * option asn1_string) :=
  t ← text_string V_ASN1_UTCTIME str;
  utc ← ASN1_TIME_check t;
  let t := if utc : bool then t else set_type V_ASN1_GENERALIZEDTIME t in
  ok ← (if utc then Some true else ASN1_TIME_check t);
  if negb ok then Some (false, s)
  else
    match s with
    | None => Some (true, None)
    | Some s0 => r ← ASN1_STRING_copy malloc s0 (Some t); Some (r.1, Some r.2)
    end.

(** [OPENSSL_strlcpy(dst + at, src, size)]. *)
Fixpoint strlcpy_loop (fuel : nat) (d : list Z) (at_ : Z) (s : list Z) (si size l : Z) : option (Z * list Z) :=
  match fuel with
  | O => None
  | S fuel' =>
      c ← (if 1 <? size then rd s si else Some 0);
      if (1 <? size) && negb (c =? 0) then
        d ← wr d at_ c; strlcpy_loop fuel' d (at_ + 1) s (si + 1) (size - 1) (l + 1)
      else
        d ← (if size =? 0 then Some d else wr d at_ 0);
        rest ← c_str (drop (Z.to_nat si) s);
        Some (l + Z.of_nat (length rest), d)
  end.

Definition OPENSSL_strlcpy (d : list Z) (at_ : Z) (s : list Z) (size : Z) : option (Z * list Z) :=
  strlcpy_loop (S (length s)) d at_ s 0 size 0.

(** The end of the string in the destination, within [size]. *)
Fixpoint strlcat_loop (fuel : nat) (d : list Z) (at_ size l : Z) : option (Z * Z * Z) :=
  if 0 <? size then
    match fuel with
    | O => None
    | S fuel' => c ← rd d at_; if c =? 0 then Some (at_, size, l) else strlcat_loop fuel' d (at_ + 1) (size - 1) (l + 1)
    end
  else Some (at_, size, l).

Definition OPENSSL_strlcat (d : list Z) (at_ : Z) (s : list Z) (size : Z) : option (Z * list Z) :=
  e ← strlcat_loop (Z.to_nat size) d at_ size 0;
  let '(at_, size, l) := e in
  r ← OPENSSL_strlcpy d at_ s size;
  Some (l + r.1, r.2).

(** The result is the return value and the caller's string, or the new one. *)
Definition ASN1_TIME_to_generalizedtime (t : asn1_string) (out : option asn1_string) : option (bool * option asn1_string) :=
  ok ← ASN1_TIME_check t;
  if negb ok then Some (false, out)
  else
    match (match out with None => ASN1_STRING_type_new malloc V_ASN1_GENERALIZEDTIME | Some _ => out end) with
    | None => Some (false, out)
    | Some ret =>
        let failed (ret : asn1_string) := Some (false, match out with None => None | Some _ => Some ret end) in
        if stype t =? V_ASN1_GENERALIZEDTIME then
          r ← ASN1_STRING_set malloc ret (sdata t) (slen t);
          if r.1 : bool then Some (true, Some r.2) else failed r.2
        else
          r ← ASN1_STRING_set malloc ret None (slen t + 2);
          let '(ok, ret) := r in
          if negb ok then failed ret
          else
            let newlen := slen t + 2 + 1 in
            str ← sdata ret;
            data ← sdata t;
            c ← rd data 0;
            r ← OPENSSL_strlcpy str 0 (if 53 <=? c then [49; 57; 0] else [50; 48; 0]) newlen;
            r ← OPENSSL_strlcat r.2 0 data newlen;
            Some (true, Some (set_data (Some r.2) ret))
    end.
End Text.
