(* ===== verification/Asn1TimeSpec.v ===== *)
(** * BoringSSL: the arithmetic of ASN.1 times

    Julian days are the calendar; adding to times and their difference. *)
From S2P Require Import Prelude CBuf CProc Asn1String Calendar Asn1Time.

(** ** BoringSSL: Julian days are the calendar

    The arithmetic of [time_support.c] against the calendar: the number of a
    day, the day of a number, and the seconds between two times. *)

#[local] Ltac Zify.zify_post_hook ::= Z.to_euclidean_division_equations.

(** The Julian day of 1 January 1970. *)
Definition epoch_jd := 2440588.

Lemma date_to_julian_spec y m d : 1 <= m <= 12 -> - 4800 < y < 1400000 -> 0 <= d <= 31 ->
  date_to_julian y m d = Some (day_number (mk_date y m d) + epoch_jd).
Proof.
  intros Hm Hy Hd. rewrite day_number_march by done. unfold date_to_julian.
  rewrite i32_in by in_range. cbn [mbind option_bind]. cbv zeta.
  check_one. cbv zeta.
  assert (Z.quot (m - 14) 12 = - early m) as -> by (unfold early; destruct (m <=? 2) eqn:E; lia).
  assert (0 <= early m <= 1) as He by (unfold early; destruct (m <=? 2); lia).
  assert (1 <= m - 2 + 12 * early m <= 12) as Hm' by (unfold early; destruct (m <=? 2) eqn:E; lia).
  assert (Z.quot (367 * (m - 2 - 12 * - early m)) 12 = march_days (m + 12 * early m - 3) + 30) as Eb.
  { unfold march_days. rewrite Z.quot_div_nonneg by lia. each_month m Hm; reflexivity. }
  set (Y := y - early m) in *. replace (y + 4800) with (Y + early m + 4800) by lia. replace (y + 4900) with (Y + early m + 4900) by lia.
  do 8 check_one. check_one.
  replace (Y + early m + 4800 + - early m) with (Y + 4800) by lia. replace (Y + early m + 4900 + - early m) with (Y + 4900) by lia.
  assert (Z.quot (1461 * (Y + 4800)) 4 = 365 * Y + Y / 4 + 1753200) as -> by lia.
  assert (Z.quot (3 * Z.quot (Y + 4900) 100) 4 = Y / 100 - Y / 400 + 36) as Ec by lia.
  rewrite Eb. assert (0 <= march_days (m + 12 * early m - 3) <= 400) by (unfold march_days; lia).
  check_one. check_one. rewrite Ec. checked. rewrite i32_in by in_range. f_equal. unfold epoch_jd, march_year. lia.
Qed.

(** The day and the month from the day after the end of January. *)
Lemma julian_month y m d : 1 <= m <= 12 -> 1 <= d <= month_len y m ->
  let mp := m + 12 * early m - 3 in
  let L := march_days mp + d + 30 in
  Z.quot (80 * L) 2447 = mp + 1 /\ L - Z.quot (2447 * (mp + 1)) 80 = d /\ Z.quot (mp + 1) 11 = early m.
Proof.
  intros Hm Hd. cbn zeta. unfold march_days, month_len, early in *.
  each_month m Hm; cbn -[Z.quot Z.div Z.mul Z.add Z.sub] in *; destruct (leap y); lia.
Qed.

(** The computation once its quotients are known. *)
#[local] Ltac Zify.zify_post_hook ::= idtac.

Lemma julian_run jd n i j e x1 x2 x3 d :
  0 <= jd < 8589934592 -> 0 <= n < 8589934592 -> 0 <= i < 100 -> 0 <= j <= 12 -> 0 <= e <= 1 -> 0 <= x1 < 8589934592 * 36525 -> 0 <= x2 < 36525 -> 0 <= x3 < 500 ->
  0 <= jd + 68569 - x1 <= 36525 -> 0 <= jd + 68569 - x1 - x2 <= 400 ->
  Z.quot (4 * (jd + 68569)) 146097 = n -> Z.quot (146097 * n + 3) 4 = x1 -> Z.quot (4000 * (jd + 68569 - x1 + 1)) 1461001 = i ->
  Z.quot (1461 * i) 4 = x2 -> Z.quot (80 * (jd + 68569 - x1 - x2 + 31)) 2447 = j -> Z.quot (2447 * j) 80 = x3 -> Z.quot j 11 = e ->
  jd + 68569 - x1 - x2 + 31 - x3 = d ->
  julian_to_date jd = Some (s32 (100 * (n - 49) + i + e), s32 (j + 2 - 12 * e), s32 d).
Proof.
  intros Hjd Hn Hi Hj He Hx1 Hx2 Hx3 HL1 HL2 E1 E2 E3 E4 E5 E6 E7 E8. unfold julian_to_date. cbv zeta.
  check_one. check_one. rewrite E1. checked. rewrite E2. checked. rewrite E3. checked. rewrite E4. checked. rewrite E5. checked.
  rewrite E6, E7. checked. by rewrite E8.
Qed.

#[local] Ltac Zify.zify_post_hook ::= Z.to_euclidean_division_equations.

(** The way back. *)
Lemma julian_to_date_spec jd : 0 <= jd < 2 ^ 33 ->
  let dt := civil (jd - epoch_jd) in julian_to_date jd = Some (year dt, month dt, day dt).
Proof.
  intros Hjd dt. destruct (civil_spec (jd - epoch_jd)) as [[Hm Hd] Hn]. fold dt in Hm, Hd, Hn. clearbody dt.
  destruct dt as [y m d]. cbn [year month day] in *. rewrite day_number_march in Hn by done.
  pose proof (month_len_pos y m) as Hml. unfold epoch_jd in Hn.
  assert (0 <= early m <= 1) as He by (unfold early; destruct (m <=? 2); lia).
  set (Y := y - early m) in *. set (mp := m + 12 * early m - 3) in *.
  assert (0 <= mp <= 11) as Hmp by (unfold mp, early; destruct (m <=? 2) eqn:E; lia).
  assert (0 <= march_days mp /\ march_days mp + d <= 366 /\ (march_days mp + d = 366 -> leap y = true /\ early m = 1)) as (Hmd & Hmd2 & Hmd3).
  { assert (march_days mp + month_len y m <= 365 \/ march_days mp + month_len y m = 366 /\ leap y = true /\ early m = 1) as H;
      [|assert (0 <= march_days mp) by (unfold march_days; lia); split; [lia|]; split; [lia|intros Hd'; destruct H as [H|(_ & H & H')]; [lia|done]]].
    unfold mp, march_days, month_len. each_month m Hm; try (left; reflexivity || lia); cbn; destruct (leap y); (left; reflexivity || lia) || (right; done). }
  assert (-4900 < Y) as HY by (unfold march_year in Hn; lia).
  set (Yc := (Y + 4900) mod 100). set (c := (Y + 4900) / 100).
  assert (Y = 100 * c + Yc - 4900 /\ 0 <= Yc < 100 /\ 0 <= c) as (EY & HYc & Hc) by (unfold Yc, c; lia).
  (* the day of the century *)
  assert (march_year Y + 1789689 = (146097 * c + 3) / 4 + 1461 * Yc / 4) as Em.
  { unfold march_year. lia. }
  assert (leap y = true -> early m = 1 -> Yc mod 4 = 3 /\ (Yc = 99 -> c mod 4 = 0)) as Hleap.
  { intros Hl He1. unfold leap in Hl. unfold Y in EY. lia. }
  set (r := march_days mp + (d - 1)). set (L0 := jd + 68569).
  assert (L0 = (146097 * c + 3) / 4 + 1461 * Yc / 4 + r) as EL by (unfold L0; lia).
  assert (0 <= r <= 365 /\ (r = 365 -> Yc mod 4 = 3 /\ (Yc = 99 -> c mod 4 = 0))) as [Hr Hr3].
  { split; [unfold r; lia|]. intros E. destruct Hmd3 as [H1 H2]; [unfold r in E; lia|]. by apply Hleap. }
  assert (Z.quot (4 * L0) 146097 = c) as En.
  { assert (4 * ((146097 * c + 3) / 4) <= 146097 * c + 3) by lia. destruct (decide (r = 365)) as [E|E]; [destruct (Hr3 E)|]; lia. }
  assert (Z.quot (146097 * c + 3) 4 = (146097 * c + 3) / 4) as E1 by lia.
  set (L1 := L0 - (146097 * c + 3) / 4). assert (L1 = 1461 * Yc / 4 + r) as EL1 by (unfold L1; lia).
  assert (Z.quot (4000 * (L1 + 1)) 1461001 = Yc) as Ei.
  { rewrite EL1. destruct (decide (r = 365)) as [E|E]; [destruct (Hr3 E)|]; lia. }
  assert (Z.quot (1461 * Yc) 4 = 1461 * Yc / 4) as E2 by lia.
  destruct (julian_month y m d Hm Hd) as (Ej & Ed & Ey). cbn zeta in Ej, Ed, Ey. fold mp in Ej, Ed, Ey.
  assert (L1 - 1461 * Yc / 4 + 31 = march_days mp + d + 30) as EL2 by (rewrite EL1; unfold r; ring).
  change (2 ^ 33) with 8589934592 in Hjd.
  assert (0 <= c < 300000 /\ 0 <= 1461 * Yc / 4 < 36525 - 365 /\ 0 <= (146097 * c + 3) / 4 < 8589934592 * 36525) as (Hc' & Hq2 & Hq1).
  { clear -Hc HYc EL Hr Hjd L0. unfold L0 in EL. lia. }
  assert (julian_to_date jd = Some (s32 (100 * (c - 49) + Yc + early m), s32 (mp + 1 + 2 - 12 * early m), s32 d)) as ->.
  { apply (julian_run jd c Yc (mp + 1) (early m) ((146097 * c + 3) / 4) (1461 * Yc / 4) (Z.quot (2447 * (mp + 1)) 80) d); try done; try (clear -Hc'; lia).
    1-2: clear -Hmp; lia.
    all: change (jd + 68569 - (146097 * c + 3) / 4) with L1.
    - rewrite EL1. clear -Hq2 Hr. lia.
    - rewrite EL1. clear -Hr. lia.
    - by rewrite EL2.
    - rewrite EL2. exact Ed. }
  clear -EY HYc Hmp He Hc' Hd Hml Hm. unfold Y, mp in *. rewrite !wraps_id by (lia || (unfold in_s; lia)). repeat f_equal; lia.
Qed.

(** ** BoringSSL: adding to times and the difference of times

    A time is a number of seconds since 1970: adding an offset and taking a
    difference are addition and subtraction of such numbers. *)

Definition tm_date (t : tm) : date := mk_date (tm_year t + 1900) (tm_mon t + 1) (tm_mday t).

Definition seconds (t : tm) : Z :=
  SECS_PER_DAY * day_number (tm_date t) + (tm_hour t * 3600 + tm_min t * 60 + tm_sec t).

(** The members are in the ranges of the C standard; the day of the month may
    be behind the end of the month. *)
Record tm_ok (t : tm) : Prop := {
  ok_sec : 0 <= tm_sec t <= 60;
  ok_min : 0 <= tm_min t <= 59;
  ok_hour : 0 <= tm_hour t <= 23;
  ok_mday : 1 <= tm_mday t <= 31;
  ok_mon : 0 <= tm_mon t <= 11;
  ok_year : 0 <= tm_year t + 1900 <= 1000000 }.

Definition offset_ok (off_day offset_sec : Z) : Prop :=
  Z.abs off_day <= 2147000000 /\ Z.abs offset_sec < 2147558400.

Lemma day_number_bound y m d : 1 <= m <= 12 -> 1 <= d <= 31 -> 0 <= y <= 1000000 ->
  - 720000 <= day_number (mk_date y m d) <= 366000000.
Proof.
  intros Hm Hd Hy. unfold day_number. cbn [year month day]. pose proof (days_before_month_range y m Hm). pose proof (month_len_pos y m).
  assert (days_before_month y m <= 366) by (destruct (leap y); lia). unfold days_before_year. lia.
Qed.

Lemma julian_adj_spec t od os : tm_ok t -> offset_ok od os ->
  let total := seconds t + SECS_PER_DAY * od + os in
  julian_adj t od os = Some (if total / SECS_PER_DAY + epoch_jd <? 0 then None
                             else Some (total / SECS_PER_DAY + epoch_jd, total mod SECS_PER_DAY)).
Proof.
  intros [Hs Hmi Hh Hd Hm Hy] [Hod Hos] total. unfold julian_adj, SECS_PER_DAY in *. change (24 * 60 * 60) with 86400 in *.
  assert (- 24855 <= Z.quot os 86400 <= 24855 /\ -86400 < os - Z.quot os 86400 * 86400 < 86400) as [Hq Hr] by lia.
  set (q := Z.quot os 86400) in *. set (r := os - q * 86400) in *. assert (os = q * 86400 + r) as Eos by (unfold r; lia). clearbody q r.
  pose proof (day_number_bound (tm_year t + 1900) (tm_mon t + 1) (tm_mday t) ltac:(lia) Hd Hy) as Hdn.
  pose proof (date_to_julian_spec (tm_year t + 1900) (tm_mon t + 1) (tm_mday t) ltac:(lia) ltac:(lia) ltac:(lia)) as Ejd.
  set (D := day_number _) in *. assert (total = 86400 * (D + q + od) + (r + (tm_hour t * 3600 + tm_min t * 60 + tm_sec t))) as Et.
  { unfold total, seconds, SECS_PER_DAY. fold (tm_date t) in D. change (day_number (tm_date t)) with D. subst os. lia. }
  clearbody D total. rewrite !(wraps_id 32 q) by (lia || (unfold in_s; lia)). checked. replace (os - q * 86400) with r by lia. checked. 
  rewrite !(wraps_id 32 r) by (lia || (unfold in_s; lia)).
  checked.
  replace (r + (tm_hour t * 3600 + tm_min t * 60 + tm_sec t)) with (total - 86400 * (D + q + od)) by lia.
  set (hms := total - 86400 * (D + q + od)). assert (-86400 < hms < 172800) as Hhms by lia.
  enough (forall d s, d = total / 86400 - D -> s = total mod 86400 -> in_s 32 d -> 
    (let '(offset_day, offset_hms) := (d, s) in
     time_year ← i32 (tm_year t + 1900); time_month ← i32 (tm_mon t + 1); time_jd ← date_to_julian time_year time_month (tm_mday t);
     time_jd ← i64 (time_jd + offset_day); Some (if time_jd <? 0 then None else Some (time_jd, offset_hms)))
    = Some (if total / 86400 + epoch_jd <? 0 then None else Some (total / 86400 + epoch_jd, total mod 86400))) as Hend.
  - destruct (86400 <=? hms) eqn:E1; [apply Z.leb_le in E1|apply Z.leb_gt in E1; destruct (hms <? 0) eqn:E2; [apply Z.ltb_lt in E2|apply Z.ltb_ge in E2]].
    + rewrite (i32_in (q + od + 1)), (i32_in (hms - 86400)) by in_range. cbn [mbind option_bind]. apply Hend; unfold in_s, hms; lia.
    + rewrite (i32_in (q + od - 1)), (i32_in (hms + 86400)) by in_range. cbn [mbind option_bind]. apply Hend; unfold in_s, hms; lia.
    + cbn [mbind option_bind]. apply Hend; unfold in_s, hms; lia.
  - intros d s -> -> Hin. unfold in_s in Hin. checked. rewrite Ejd. cbn [mbind option_bind]. unfold epoch_jd in *. check_one.
    replace (D + 2440588 + (total / 86400 - D)) with (total / 86400 + 2440588) by lia. done.
Qed.

(** ** Adding *)

(** The time with [z] seconds. *)
Lemma gmtime_year z t : OPENSSL_gmtime z = Some t -> tm_year t + 1900 = year (civil (z / SECS_PER_DAY)).
Proof. unfold OPENSSL_gmtime. case_bool_decide; [|done]. intros E. injection E as <-. cbn. lia. Qed.

Definition in_years (lo hi : Z) (t : option tm) : option tm :=
  t ← t; if (lo <=? tm_year t + 1900) && (tm_year t + 1900 <=? hi) then Some t else None.

Lemma civil_before z : z + epoch_jd < 0 -> year (civil z) < 1900.
Proof.
  intros Hz. destruct (civil_spec z) as [Hv Hn]. pose proof (day_number_year (civil z) Hv) as Hy.
  unfold days_before_year, epoch_jd in *. destruct (leap _); lia.
Qed.

Lemma civil_year_bound z : - 2 ^ 32 < z < 2 ^ 32 -> in_s 32 (year (civil z) - 1900).
Proof.
  intros Hz. destruct (civil_spec z) as [Hv Hn]. pose proof (day_number_year (civil z) Hv) as Hyr.
  unfold days_before_year in Hyr. unfold in_s. destruct (leap _); lia.
Qed.

(** The structure the code fills in. *)
Lemma tm_of_seconds s dt : 0 <= s ->
  mk_tm (Z.rem s 60) (Z.rem (Z.quot s 60) 60) (Z.quot s 3600) (day dt) (month dt - 1) (year dt - 1900)
  = mk_tm (s mod 60) (s / 60 mod 60) (s / 3600) (day dt) (month dt - 1) (year dt - 1900).
Proof. intros Hs. f_equal; lia. Qed.

Lemma total_bound t od os : tm_ok t -> offset_ok od os ->
  - 2 ^ 32 < (seconds t + SECS_PER_DAY * od + os) / SECS_PER_DAY < 2 ^ 32.
Proof.
  intros Ht Ho. destruct Ht, Ho. pose proof (day_number_bound (tm_year t + 1900) (tm_mon t + 1) (tm_mday t) ltac:(lia) ltac:(lia) ltac:(lia)).
  unfold seconds, SECS_PER_DAY, tm_date in *. lia.
Qed.

Lemma gmtime_adj_spec t od os : tm_ok t -> offset_ok od os ->
  OPENSSL_gmtime_adj t od os = Some (in_years 1900 9999 (OPENSSL_gmtime (seconds t + SECS_PER_DAY * od + os))).
Proof.
  intros Ht Ho. unfold OPENSSL_gmtime_adj. rewrite julian_adj_spec by done. cbv zeta. cbn [mbind option_bind].
  pose proof (total_bound t od os Ht Ho) as Hb. set (total := seconds t + SECS_PER_DAY * od + os) in *. clearbody total. clear Ht Ho.
  unfold OPENSSL_gmtime. rewrite bool_decide_eq_true_2 by (by apply civil_year_bound).
  unfold in_years. cbn [mbind option_bind tm_year]. rewrite Z.sub_add.
  destruct (total / SECS_PER_DAY + epoch_jd <? 0) eqn:E; [apply Z.ltb_lt in E|apply Z.ltb_ge in E].
  - apply civil_before in E. by rewrite (proj2 (Z.leb_gt 1900 _)) by lia.
  - rewrite julian_to_date_spec by (unfold epoch_jd in *; lia). cbv zeta. rewrite Z.add_simpl_r. cbn [mbind option_bind].
    assert (0 <= total mod SECS_PER_DAY) by (apply Z.mod_pos_bound; done). rewrite tm_of_seconds by done.
    generalize (civil (total / SECS_PER_DAY)). intros dt. clear.
    rewrite (Z.leb_antisym (year dt) 1900), (Z.leb_antisym 9999 (year dt)).
    by destruct (year dt <? 1900), (9999 <? year dt).
Qed.

(** A time is the time of its seconds. *)
Lemma gmtime_seconds t : tm_ok t -> tm_sec t <= 59 -> valid_date (tm_date t) -> OPENSSL_gmtime (seconds t) = Some t.
Proof.
  intros [Hs Hmi Hh Hd Hm Hy] H59 Hv. unfold OPENSSL_gmtime, seconds, SECS_PER_DAY. change (24 * 60 * 60) with 86400.
  set (D := day_number (tm_date t)). set (s := tm_hour t * 3600 + tm_min t * 60 + tm_sec t). assert (0 <= s < 86400) by (unfold s; lia).
  replace ((86400 * D + s) / 86400) with D by lia. replace ((86400 * D + s) mod 86400) with s by lia.
  unfold D. rewrite civil_day_number by done. unfold tm_date. cbn [year month day].
  rewrite bool_decide_eq_true_2 by (unfold in_s; lia). f_equal.
  assert (s mod 60 = tm_sec t /\ s / 60 mod 60 = tm_min t /\ s / 3600 = tm_hour t) as (-> & -> & ->) by (unfold s; lia).
  replace (tm_mon t + 1 - 1) with (tm_mon t) by lia. replace (tm_year t + 1900 - 1900) with (tm_year t) by lia. by destruct t.
Qed.

Lemma gmtime_ok z t : OPENSSL_gmtime z = Some t -> 0 <= tm_year t + 1900 <= 1000000 ->
  tm_ok t /\ tm_sec t <= 59 /\ valid_date (tm_date t) /\ seconds t = z.
Proof.
  unfold OPENSSL_gmtime. destruct (civil_spec (z / SECS_PER_DAY)) as [Hv Hn]. revert Hv Hn.
  generalize (civil (z / SECS_PER_DAY)). intros dt Hv Hn. case_bool_decide; [|done]. intros E Hy. injection E as <-. cbn [tm_year] in Hy.
  assert (valid_date (mk_date (year dt - 1900 + 1900) (month dt - 1 + 1) (day dt)) /\ day_number (mk_date (year dt - 1900 + 1900) (month dt - 1 + 1) (day dt)) = z / SECS_PER_DAY) as [Hv' Hn'].
  { replace (year dt - 1900 + 1900) with (year dt) by lia. replace (month dt - 1 + 1) with (month dt) by lia. by destruct dt. }
  destruct Hv as [Hm Hd]. pose proof (month_len_pos (year dt) (month dt)). unfold SECS_PER_DAY in *. change (24 * 60 * 60) with 86400 in *.
  assert (0 <= z mod 86400 < 86400) by lia.
  split; [constructor; cbn [tm_sec tm_min tm_hour tm_mday tm_mon tm_year]; lia|]. split; [cbn [tm_sec]; lia|]. split; [done|].
  unfold seconds, tm_date. cbn [tm_year tm_mon tm_mday tm_hour tm_min tm_sec]. rewrite Hn'. unfold SECS_PER_DAY. lia.
Qed.

(** ** The difference *)

Lemma gmtime_diff_spec from to : tm_ok from -> tm_ok to ->
  OPENSSL_gmtime_diff from to = Some (Some (Z.quot (seconds to - seconds from) SECS_PER_DAY, Z.rem (seconds to - seconds from) SECS_PER_DAY)).
Proof.
  intros Hf Ht. unfold OPENSSL_gmtime_diff. assert (offset_ok 0 0) as H0 by done.
  rewrite (julian_adj_spec from 0 0 Hf H0), (julian_adj_spec to 0 0 Ht H0). cbv zeta. cbn [mbind option_bind]. rewrite !Z.mul_0_r, !Z.add_0_r.
  assert (forall t, tm_ok t -> - 720000 <= seconds t / SECS_PER_DAY <= 366000001) as Hb.
  { intros t [? ? ? ? ? ?]. pose proof (day_number_bound (tm_year t + 1900) (tm_mon t + 1) (tm_mday t) ltac:(lia) ltac:(lia) ltac:(lia)).
    unfold seconds, SECS_PER_DAY, tm_date. change (24 * 60 * 60) with 86400. lia. }
  pose proof (Hb from Hf). pose proof (Hb to Ht). unfold epoch_jd, SECS_PER_DAY in *. change (24 * 60 * 60) with 86400 in *.
  rewrite (proj2 (Z.ltb_ge _ 0)) by lia. cbn [mbind option_bind]. rewrite (proj2 (Z.ltb_ge _ 0)) by lia. cbn [mbind option_bind].
  assert (0 <= seconds from mod 86400 < 86400) by lia. assert (0 <= seconds to mod 86400 < 86400) by lia.
  check_one. check_one. set (dd := seconds to / 86400 + 2440588 - (seconds from / 86400 + 2440588)). set (ds := seconds to mod 86400 - seconds from mod 86400).
  assert (seconds to - seconds from = 86400 * dd + ds) as -> by (unfold dd, ds; lia).
  assert (Z.abs dd <= 367000000 /\ - 86400 < ds < 86400) as [Hdd Hds] by (unfold dd, ds; lia). clearbody dd ds.
  destruct ((0 <? dd) && (ds <? 0)) eqn:E1.
  - rewrite (i64_in (dd - 1)), (i32_in (ds + 86400)) by in_range. cbn [mbind option_bind].
    rewrite (proj2 (Z.ltb_ge (dd - 1) 0)) by lia. cbn [andb mbind option_bind]. rewrite wraps_id by (lia || (unfold in_s; lia)).
    do 2 f_equal. f_equal; lia.
  - cbn [mbind option_bind]. destruct ((dd <? 0) && (0 <? ds)) eqn:E2.
    + rewrite (i64_in (dd + 1)), (i32_in (ds - 86400)) by in_range. cbn [mbind option_bind]. rewrite wraps_id by (lia || (unfold in_s; lia)). do 2 f_equal. f_equal; lia.
    + cbn [mbind option_bind]. rewrite wraps_id by (lia || (unfold in_s; lia)). do 2 f_equal. f_equal; lia.
Qed.
