(* ===== verification/Asn1TimeText.v ===== *)
(** * BoringSSL: the text of ASN.1 times

    The grammar, and the parsers that accept it. *)
From S2P Require Import Prelude CBuf CMem CProc Cbs CbsSpec Asn1String Calendar Asn1Time Asn1TimeSpec.

(** ** BoringSSL: the grammar of ASN.1 times

    A reference parser on the list of characters, and the proof that the loops
    over the array follow it.  The array ends with a zero byte. *)

#[local] Ltac Zify.zify_post_hook ::= Z.to_euclidean_division_equations.

(** ** The reference *)

Definition digits2 (s : list Z) : option (Z * list Z) :=
  match s with
  | x :: y :: r => if is_digit x && is_digit y then Some ((x - 48) * 10 + (y - 48), r) else None
  | _ => None
  end.

Definition zone_char (x : Z) : bool := (x =? Z_char) || (x =? plus_char) || (x =? minus_char).

(** The values of two-digit fields within bounds; the last field may be left
    out before a zone. *)
Fixpoint fields_ref (bounds : list (Z * Z)) (s : list Z) : option (list Z * list Z) :=
  match bounds with
  | [] => Some ([], s)
  | (lo, hi) :: bounds' =>
      if bool_decide (bounds' = []) && match s with x :: _ => zone_char x | [] => false end then Some ([], s)
      else
        '(v, r) ← digits2 s;
        if (lo <=? v) && (v <=? hi) then '(vs, r) ← fields_ref bounds' r; Some (v :: vs, r) else None
  end.

Inductive zone : Type := Missing | Zulu | Offset (behind : bool) (h m : Z).

Definition zone_ref (s : list Z) : option zone :=
  match s with
  | [] => Some Missing
  | c :: s' =>
      if c =? Z_char then match s' with [] => Some Zulu | _ => None end
      else if (c =? plus_char) || (c =? minus_char) then
        '(h, r) ← digits2 s'; '(m, r) ← digits2 r;
        if (h <=? 12) && (m <=? 59) && bool_decide (r = []) then Some (Offset (c =? minus_char) h m) else None
      else None
  end.

(** The seconds to add. *)
Definition zone_offset_of (z : zone) : Z :=
  match z with Offset behind h m => (h * 3600 + m * 60) * (if behind then 1 else -1) | _ => 0 end.

Fixpoint span_digits (s : list Z) : list Z * list Z :=
  match s with
  | x :: r => if is_digit x then let '(d, r') := span_digits r in (x :: d, r') else ([], s)
  | [] => ([], [])
  end.

Definition fraction_ref (s : list Z) : option (list Z * list Z) :=
  match s with
  | x :: r => if x =? 46 then let '(d, r') := span_digits r in if bool_decide (d = []) then None else Some (x :: d, r') else Some ([], s)
  | [] => Some ([], s)
  end.

(** ** The loops *)

Lemma is_digit_s8 x : in_u 8 x -> is_digit (s8 x) = is_digit x.
Proof. intros Hx. unfold in_u in Hx. by_byte x. Qed.

Lemma digit_s8 x : in_u 8 x -> is_digit x = true -> s8 x = x.
Proof.
  intros Hx. unfold in_u in Hx. enough (negb (is_digit x) || (s8 x =? x) = true) as H; [intros E; rewrite E in H; cbn in H; lia|]. by_byte x.
Qed.

Lemma eqb_s8 x c : in_u 8 x -> 0 <= c < 128 -> (s8 x =? c) = (x =? c).
Proof.
  intros Hx Hc. unfold in_u in Hx. unfold wraps. change (2 ^ (8 - 1)) with 128. change (2 ^ 8) with 256 in *.
  destruct (x =? c) eqn:E; [apply Z.eqb_eq in E|apply Z.eqb_neq in E]; [apply Z.eqb_eq|apply Z.eqb_neq]; lia.
Qed.

Lemma digits2_split s v r : digits2 s = Some (v, r) ->
  exists x y, s = x :: y :: r /\ is_digit x = true /\ is_digit y = true /\ v = (x - 48) * 10 + (y - 48).
Proof.
  destruct s as [|x [|y s]]; try done. cbn [digits2]. destruct (is_digit x) eqn:Ex; [|done]. destruct (is_digit y) eqn:Ey; [|done].
  cbn [andb]. intros E. injection E as <- <-. by exists x, y.
Qed.

(** What the fields leave in the structure. *)
Fixpoint run_fields (field : Z -> Z -> tm -> tm) (i : Z) (vs : list Z) (t : tm) : tm :=
  match vs with [] => t | v :: vs' => run_fields field (i + 1) vs' (field i v t) end.

Definition fill (field : Z -> Z -> tm -> tm) (i : Z) (n : nat) (vs : list Z) (t : tm) : tm :=
  let t := run_fields field i vs t in if Nat.eqb (length vs) n then t else with_sec 0 t.

Lemma of_option_Some {A} (o : option A) x (st : option tm) : o = Some x -> of_option o st = Done x st.
Proof. by intros ->. Qed.

Lemma set_tm_spec f st : set_tm f st = Done tt (f <$> st).
Proof. done. Qed.

Lemma zone_char_s8 x : in_u 8 x -> (s8 x =? Z_char) || (s8 x =? plus_char) || (s8 x =? minus_char) = zone_char x.
Proof. intros Hx. unfold zone_char, Z_char, plus_char, minus_char. by rewrite !eqb_s8 by (done || lia). Qed.

(** The time of the fields moved by the offset. *)
Definition zone_apply (z : zone) (st : option tm) : option (option tm) :=
  match st with
  | None => Some None
  | Some t => if zone_offset_of z =? 0 then Some (Some t) else Some <$> in_years 1900 9999 (OPENSSL_gmtime (seconds t + zone_offset_of z))
  end.

Definition st_ok (st : option tm) : Prop := match st with Some t => tm_ok t | None => True end.

Lemma digits2_range s v r : digits2 s = Some (v, r) -> 0 <= v <= 99.
Proof. intros H. apply digits2_split in H as (x & y & _ & Hx & Hy & ->). unfold is_digit in *. lia. Qed.

Lemma zone_char_plus_minus x : (x =? plus_char) || (x =? minus_char) = true -> x = plus_char \/ x = minus_char.
Proof. intros H. lia. Qed.

Lemma span_digits_spec s d r : span_digits s = (d, r) ->
  s = d ++ r /\ Forall (fun x => is_digit x = true) d /\ match r with x :: _ => is_digit x = false | [] => True end.
Proof.
  revert d r. induction s as [|x s IH]; intros d r E; cbn [span_digits] in E; [by injection E as <- <-|].
  destruct (is_digit x) eqn:Ex; [|injection E as <- <-; done]. destruct (span_digits s) as [d' r'] eqn:Es. injection E as <- <-.
  destruct (IH _ _ eq_refl) as (-> & Hd & Hr). split; [done|]. split; [by constructor|done].
Qed.

Section Array.
Context (bs post : list Z) (Hbs : bytes bs).
Let a := bs ++ 0 :: post.
Let l := Z.of_nat (length bs).

Lemma char_at_spec pre rest st : bs = pre ++ rest ->
  char_at a (Z.of_nat (length pre)) st = Done (match rest with x :: _ => s8 x | [] => 0 end) st.
Proof.
  intros E. unfold char_at, a. rewrite E, <- app_assoc. unfold rd. rewrite bool_decide_eq_true_2 by lia. rewrite Nat2Z.id.
  rewrite lookup_app_r, Nat.sub_diag by lia. by destruct rest.
Qed.

Lemma bytes_mid pre x rest : bs = pre ++ x :: rest -> in_u 8 x.
Proof. intros E. rewrite E in Hbs. apply Forall_app in Hbs as [_ H]. by apply Forall_inv in H. Qed.

Lemma two_digits_ref pre rest st : bs = pre ++ rest ->
  two_digits a l (Z.of_nat (length pre)) st =
    match digits2 rest with Some (v, _) => Done (v, Z.of_nat (length pre) + 2) st | None => Bad st end.
Proof.
  intros E. unfold two_digits. rewrite (bind_Done _ _ _ _ _ (char_at_spec pre rest st E)).
  destruct rest as [|x rest]; [done|]. pose proof (bytes_mid pre x rest E) as Hx. rewrite is_digit_s8 by done. cbn [digits2].
  destruct (is_digit x) eqn:Ex; cbn [negb]; [|by destruct rest]. cbv zeta.
  rewrite (proj2 (Z.ltb_ge l _)) by (unfold l; rewrite E, length_app; cbn [length]; lia).
  assert (bs = (pre ++ [x]) ++ rest) as E2 by (rewrite <- app_assoc; done).
  replace (Z.of_nat (length pre) + 1) with (Z.of_nat (length (pre ++ [x]))) by (rewrite length_app; cbn [length]; lia).
  rewrite (bind_Done _ _ _ _ _ (char_at_spec (pre ++ [x]) rest st E2)). destruct rest as [|y rest]; [done|].
  pose proof (bytes_mid _ y rest E2) as Hy. rewrite is_digit_s8 by done. cbn [andb]. destruct (is_digit y) eqn:Ey; cbn [negb]; [|done].
  rewrite (proj2 (Z.ltb_ge l _)) by (unfold l; rewrite E2, !length_app; cbn [length]; lia).
  rewrite !digit_s8 by done. unfold mret, proc_ret. f_equal. f_equal; [lia|]. rewrite length_app. cbn [length]. lia.
Qed.

Lemma field_loop_ref minv maxv field fields bounds i pre rest st :
  bs = pre ++ rest -> i + Z.of_nat (length bounds) = fields ->
  (forall k lo hi, bounds !! k = Some (lo, hi) -> rd minv (i + Z.of_nat k) = Some lo /\ rd maxv (i + Z.of_nat k) = Some hi) ->
  match fields_ref bounds rest with
  | Some (vs, rest') => exists mid, rest = mid ++ rest' /\
      field_loop (length bounds) minv maxv field fields a l i (Z.of_nat (length pre)) st
      = Done (Z.of_nat (length (pre ++ mid))) (fill field i (length bounds) vs <$> st)
  | None => exists st', field_loop (length bounds) minv maxv field fields a l i (Z.of_nat (length pre)) st = Bad st'
  end.
Proof.
  revert i pre rest st. induction bounds as [|[lo hi] bounds IH]; intros i pre rest st E Hf Hb; cbn [fields_ref length field_loop].
  { exists []. rewrite app_nil_r. split; [done|]. unfold mret, proc_ret. f_equal. unfold fill. cbn. by destruct st. }
  cbn [length] in Hf.
  assert (match (if (i =? fields - 1) then match rest with x :: _ => zone_char x | [] => false end else false) with
    | true => True
    | false => 
      (if i =? fields - 1 then
         c ← char_at a (Z.of_nat (length pre));
         if (c =? Z_char) || (c =? plus_char) || (c =? minus_char) then set_tm (with_sec 0);; mret (Z.of_nat (length pre))
         else '(v, o) ← two_digits a l (Z.of_nat (length pre));
              lo ← of_option (rd minv i); hi ← of_option (rd maxv i);
              if (v <? lo) || (hi <? v) then return_0
              else set_tm (field i v);; field_loop (length bounds) minv maxv field fields a l (i + 1) o
       else '(v, o) ← two_digits a l (Z.of_nat (length pre));
              lo ← of_option (rd minv i); hi ← of_option (rd maxv i);
              if (v <? lo) || (hi <? v) then return_0
              else set_tm (field i v);; field_loop (length bounds) minv maxv field fields a l (i + 1) o) st
      = ('(v, o) ← two_digits a l (Z.of_nat (length pre));
              lo ← of_option (rd minv i); hi ← of_option (rd maxv i);
              if (v <? lo) || (hi <? v) then return_0
              else set_tm (field i v);; field_loop (length bounds) minv maxv field fields a l (i + 1) o) st end) as Hgo.
  { destruct (i =? fields - 1); [|done]. rewrite (bind_Done _ _ _ _ _ (char_at_spec pre rest st E)). destruct rest as [|x rest]; [done|].
    rewrite zone_char_s8 by (by eapply bytes_mid). destruct (zone_char x) eqn:Ez; [done|]. done. }
  assert ((i =? fields - 1) = bool_decide (bounds = [])) as Elast.
  { destruct bounds; [rewrite bool_decide_eq_true_2 by done; apply Z.eqb_eq; cbn [length] in Hf; lia|].
    rewrite bool_decide_eq_false_2 by done. apply Z.eqb_neq. cbn [length] in Hf. lia. }
  rewrite Elast in Hgo. rewrite Elast.
  destruct (bool_decide (bounds = []) && match rest with x :: _ => zone_char x | [] => false end) eqn:Ez.
  - apply andb_true_iff in Ez as [E1 Ez]. rewrite E1. destruct rest as [|x rest]; [done|]. exists []. split; [done|].
    rewrite (bind_Done _ _ _ _ _ (char_at_spec pre _ st E)). rewrite zone_char_s8 by (by eapply bytes_mid). rewrite Ez, app_nil_r.
    rewrite (bind_Done _ _ _ _ _ (set_tm_spec (with_sec 0) st)). unfold mret, proc_ret. f_equal.
  - assert ((if bool_decide (bounds = []) then match rest with x :: _ => zone_char x | [] => false end else false) = false) as Ez'.
    { by destruct (bool_decide (bounds = [])). }
    rewrite Ez' in Hgo. rewrite Hgo. clear Hgo Ez Ez' Elast.
    pose proof (two_digits_ref pre rest st E) as Ht. destruct (digits2 rest) as [[v rest']|] eqn:Ed.
    + rewrite (bind_Done _ _ _ _ _ Ht). destruct (Hb 0%nat lo hi eq_refl) as [Hlo Hhi]. rewrite Z.add_0_r in Hlo, Hhi.
      rewrite (bind_Done _ _ _ _ _ (of_option_Some _ _ st Hlo)), (bind_Done _ _ _ _ _ (of_option_Some _ _ st Hhi)).
      rewrite (Z.ltb_antisym lo v), (Z.ltb_antisym v hi). cbn [mbind option_bind].
      destruct (lo <=? v) eqn:E1; cbn [negb orb andb]; [|by eexists]. destruct (v <=? hi) eqn:E2; cbn [negb orb andb]; [|by eexists].
      rewrite (bind_Done _ _ _ _ _ (set_tm_spec (field i v) st)).
      apply digits2_split in Ed as (x & y & -> & _).
      assert (bs = (pre ++ [x; y]) ++ rest') as E' by (rewrite <- app_assoc; done).
      replace (Z.of_nat (length pre) + 2) with (Z.of_nat (length (pre ++ [x; y]))) by (rewrite length_app; cbn [length]; lia).
      specialize (IH (i + 1) (pre ++ [x; y]) rest' (field i v <$> st) E' ltac:(lia)).
      destruct (fields_ref bounds rest') as [[vs r]|].
      * destruct IH as (mid & -> & IH). { intros k lo' hi' Hk. specialize (Hb (S k) lo' hi' Hk). replace (i + 1 + Z.of_nat k) with (i + Z.of_nat (S k)) by lia. done. }
        cbn [mbind option_bind]. exists (x :: y :: mid). split; [done|]. rewrite IH. rewrite <- app_assoc. cbn [app]. f_equal.
        by destruct st.
      * destruct IH as (st' & IH). { intros k lo' hi' Hk. specialize (Hb (S k) lo' hi' Hk). replace (i + 1 + Z.of_nat k) with (i + Z.of_nat (S k)) by lia. done. }
        cbn [mbind option_bind]. by exists st'.
    + cbn [mbind option_bind]. exists st. unfold mbind, proc_bind. by rewrite Ht.
Qed.

(** ** The zone *)

Lemma offset_digits_ref minv maxv i hi pre rest st :
  bs = pre ++ rest -> rd minv i = Some 0 -> rd maxv i = Some hi ->
  offset_digits minv maxv a i (Z.of_nat (length pre)) st =
    match digits2 rest with
    | Some (v, _) => if v <=? hi then Done (v, Z.of_nat (length pre) + 2) st else Bad st
    | None => Bad st
    end.
Proof.
  intros E Hlo Hhi. unfold offset_digits. rewrite (bind_Done _ _ _ _ _ (char_at_spec pre rest st E)).
  destruct rest as [|x rest]; [done|]. pose proof (bytes_mid pre x rest E) as Hx. rewrite is_digit_s8 by done. cbn [digits2].
  destruct (is_digit x) eqn:Ex; cbn [negb]; [|by destruct rest]. cbv zeta.
  assert (bs = (pre ++ [x]) ++ rest) as E2 by (rewrite <- app_assoc; done).
  replace (Z.of_nat (length pre) + 1) with (Z.of_nat (length (pre ++ [x]))) by (rewrite length_app; cbn [length]; lia).
  rewrite (bind_Done _ _ _ _ _ (char_at_spec (pre ++ [x]) rest st E2)). destruct rest as [|y rest]; [done|].
  pose proof (bytes_mid _ y rest E2) as Hy. rewrite is_digit_s8 by done. cbn [andb]. destruct (is_digit y) eqn:Ey; cbn [negb]; [|done].
  rewrite (bind_Done _ _ _ _ _ (of_option_Some _ _ st Hlo)), (bind_Done _ _ _ _ _ (of_option_Some _ _ st Hhi)).
  rewrite !digit_s8 by done. unfold is_digit in Ex, Ey.
  rewrite (proj2 (Z.ltb_ge ((x - 48) * 10 + y - 48) 0)) by lia. cbn [orb].
  rewrite (Z.ltb_antisym _ hi). replace ((x - 48) * 10 + y - 48) with ((x - 48) * 10 + (y - 48)) by lia.
  destruct (_ <=? hi); cbn [negb]; [|done]. unfold mret, proc_ret. do 2 f_equal. rewrite length_app. cbn [length]. lia.
Qed.

Lemma zone_offset_ref minv maxv fields pre x rest st :
  bs = pre ++ x :: rest -> x = plus_char \/ x = minus_char -> st_ok st ->
  rd minv fields = Some 0 -> rd maxv fields = Some 12 -> rd minv (fields + 1) = Some 0 -> rd maxv (fields + 1) = Some 59 ->
  match ('(h, r) ← digits2 rest; '(m, r) ← digits2 r; if (h <=? 12) && (m <=? 59) then Some (h, m, r) else None) with
  | Some (h, m, r) =>
      match zone_apply (Offset (x =? minus_char) h m) st with
      | Some st' => zone_offset minv maxv fields a l (Z.of_nat (length pre)) x st = Done (l - Z.of_nat (length r)) st'
      | None => zone_offset minv maxv fields a l (Z.of_nat (length pre)) x st = Bad st
      end
  | None => zone_offset minv maxv fields a l (Z.of_nat (length pre)) x st = Bad st
  end.
Proof.
  intros E Hx Hst H1 H2 H3 H4. unfold zone_offset. cbv zeta.
  assert (bs = (pre ++ [x]) ++ rest) as E2 by (rewrite <- app_assoc; done).
  assert (l = Z.of_nat (length pre) + 1 + Z.of_nat (length rest)) as El by (unfold l; rewrite E, length_app; cbn [length]; lia).
  replace (Z.of_nat (length pre) + 1) with (Z.of_nat (length (pre ++ [x]))) by (rewrite length_app; cbn [length]; lia).
  pose proof (offset_digits_ref minv maxv fields 12 (pre ++ [x]) rest st E2 H1 H2) as Hh.
  destruct (digits2 rest) as [[h r]|] eqn:Eh; cbn [mbind option_bind]; cycle 1.
  { destruct (l <? _); [done|]. unfold mbind, proc_bind. by rewrite Hh. }
  pose proof (digits2_range _ _ _ Eh) as Rh. apply digits2_split in Eh as (x1 & y1 & -> & _).
  assert (bs = (pre ++ [x; x1; y1]) ++ r) as E3 by (rewrite <- app_assoc; done).
  pose proof (offset_digits_ref minv maxv (fields + 1) 59 (pre ++ [x; x1; y1]) r st E3 H3 H4) as Hm.
  destruct (digits2 r) as [[m r']|] eqn:Em; cbn [mbind option_bind]; cycle 1.
  { destruct (l <? _); [done|]. unfold mbind, proc_bind. rewrite Hh. destruct (h <=? 12); [|done].
    replace (Z.of_nat (length (pre ++ [x])) + 2) with (Z.of_nat (length (pre ++ [x; x1; y1]))) by (rewrite !length_app; cbn [length]; lia). by rewrite Hm. }
  pose proof (digits2_range _ _ _ Em) as Rm. apply digits2_split in Em as (x2 & y2 & -> & _). cbn [length] in El.
  rewrite (proj2 (Z.ltb_ge l _)) by (rewrite length_app; cbn [length]; lia).
  destruct (h <=? 12) eqn:E12; cbn [andb]; [|unfold mbind, proc_bind; by rewrite Hh].
  rewrite (bind_Done _ _ _ _ _ Hh).
  replace (Z.of_nat (length (pre ++ [x])) + 2) with (Z.of_nat (length (pre ++ [x; x1; y1]))) by (rewrite !length_app; cbn [length]; lia).
  destruct (m <=? 59) eqn:E59; [|unfold mbind, proc_bind; by rewrite Hm]. rewrite (bind_Done _ _ _ _ _ Hm).
  replace (Z.of_nat (length (pre ++ [x; x1; y1])) + 2) with (l - Z.of_nat (length r')) by (rewrite length_app; cbn [length]; lia).
  rewrite (bind_Done current _ st st st eq_refl). destruct st as [t|]; [|done]. cbn [zone_apply zone_offset_of].
  assert (forall b : bool, ((h * 3600 + m * 60) * (if b then 1 else -1) =? 0) = (h * 3600 + m * 60 =? 0)) as E0.
  { intros b. destruct (h * 3600 + m * 60 =? 0) eqn:E0; [apply Z.eqb_eq in E0 as ->; by destruct b|]. apply Z.eqb_neq in E0. apply Z.eqb_neq. destruct b; lia. }
  rewrite E0. destruct (h * 3600 + m * 60 =? 0) eqn:Ez; [done|].
  rewrite (bind_Done _ _ _ _ _ (of_option_Some _ t (Some t) eq_refl)).
  rewrite gmtime_adj_spec; [|done|split; [done|destruct (x =? minus_char); lia]].
  rewrite (bind_Done _ _ _ _ _ (of_option_Some _ _ (Some t) eq_refl)). unfold SECS_PER_DAY. rewrite Z.mul_0_r, Z.add_0_r.
  destruct (in_years _ _ _); done.
Qed.

(** The zone and the test that it ends the string. *)
Lemma zone_end_ref (strict : bool) minv maxv fields pre rest st :
  bs = pre ++ rest -> st_ok st ->
  rd minv fields = Some 0 -> rd maxv fields = Some 12 -> rd minv (fields + 1) = Some 0 -> rd maxv (fields + 1) = Some 59 ->
  let run := (c ← char_at a (Z.of_nat (length pre));
     o ← (if c =? Z_char then mret (Z.of_nat (length pre) + 1)
          else if (c =? plus_char) || (c =? minus_char) then zone_offset minv maxv fields a l (Z.of_nat (length pre)) c
          else if strict && negb (c =? 0) then return_0 else mret (Z.of_nat (length pre)));
     if o =? l then mret tt else return_0) st in
  match (z ← zone_ref rest; zone_apply z st) with
  | Some st' => run = Done tt st'
  | None => exists st', run = Bad st'
  end.
Proof.
  intros E Hst H1 H2 H3 H4 run. unfold run. clear run. rewrite (bind_Done _ _ _ _ _ (char_at_spec pre rest st E)).
  assert (l = Z.of_nat (length pre) + Z.of_nat (length rest)) as El by (unfold l; rewrite E, length_app; lia).
  destruct rest as [|x rest]; cbn [zone_ref].
  { change (0 =? Z_char) with false. change ((0 =? plus_char) || (0 =? minus_char)) with false. cbn [negb Z.eqb]. rewrite andb_false_r.
    assert (zone_apply Missing st = Some st) as Ea by (by destruct st). cbn [mbind option_bind]. rewrite Ea.
    unfold mbind, proc_bind, mret, proc_ret. rewrite (proj2 (Z.eqb_eq _ l)) by (cbn [length] in El; lia). done. }
  pose proof (bytes_mid pre x rest E) as Hx. unfold plus_char, minus_char, Z_char in *. rewrite !eqb_s8 by (done || lia). cbn [length] in El.
  destruct (x =? 90) eqn:E90.
  { unfold mbind at 2, proc_bind, mret, proc_ret. destruct rest as [|y rest].
    - assert (zone_apply Zulu st = Some st) as Ea by (by destruct st). cbn [mbind option_bind]. rewrite Ea.
      unfold mbind, proc_bind. rewrite (proj2 (Z.eqb_eq _ l)) by (cbn [length] in El; lia). done.
    - cbn [mbind option_bind]. exists st. unfold mbind, proc_bind. rewrite (proj2 (Z.eqb_neq _ l)) by (cbn [length] in El; lia). done. }
  destruct ((x =? 43) || (x =? 45)) eqn:Epm.
  - assert (s8 x = x) as -> by (unfold in_u in Hx; unfold wraps; change (2 ^ (8 - 1)) with 128; change (2 ^ 8) with 256 in *; lia).
    pose proof (zone_offset_ref minv maxv fields pre x rest st E (zone_char_plus_minus x Epm) Hst H1 H2 H3 H4) as Hz. unfold minus_char in Hz.
    destruct (digits2 rest) as [[h r]|]; cbn [mbind option_bind] in *; [|exists st; unfold mbind, proc_bind; by rewrite Hz].
    destruct (digits2 r) as [[m r']|]; cbn [mbind option_bind] in *; [|exists st; unfold mbind, proc_bind; by rewrite Hz].
    destruct ((h <=? 12) && (m <=? 59)); cbn [andb] in *; [|exists st; unfold mbind, proc_bind; by rewrite Hz].
    destruct (bool_decide (r' = [])) eqn:Er.
    + apply bool_decide_eq_true in Er as ->. cbn [mbind option_bind]. destruct (zone_apply _ st) as [st'|].
      * unfold mbind, proc_bind. rewrite Hz. cbn [length]. by rewrite (proj2 (Z.eqb_eq _ l)) by lia.
      * exists st. unfold mbind, proc_bind. by rewrite Hz.
    + apply bool_decide_eq_false in Er. cbn [mbind option_bind]. destruct (zone_apply _ st) as [st'|].
      * exists st'. unfold mbind, proc_bind. rewrite Hz. rewrite (proj2 (Z.eqb_neq _ l)); [done|]. destruct r'; [done|]. cbn [length]. lia.
      * exists st. unfold mbind, proc_bind. by rewrite Hz.
  - cbn [mbind option_bind]. destruct (strict && negb (x =? 0)); [by exists st|]. exists st. unfold mbind, proc_bind, mret, proc_ret.
    by rewrite (proj2 (Z.eqb_neq _ l)) by lia.
Qed.

(** ** The fraction *)

Lemma fraction_loop_ref pre d r st fuel :
  bs = pre ++ d ++ r -> Forall (fun x => is_digit x = true) d -> match r with x :: _ => is_digit x = false | [] => True end ->
  (length d < fuel)%nat ->
  fraction_loop fuel a l (Z.of_nat (length pre)) st = Done (Z.of_nat (length (pre ++ d))) st.
Proof.
  intros E Hd Hr. revert pre fuel E. induction Hd as [|x d Hx Hd IH]; intros pre fuel E Hf; (destruct fuel as [|fuel]; [cbn [length] in Hf; lia|]); cbn [fraction_loop].
  - cbn [app] in E. rewrite (bind_Done _ _ _ _ _ (char_at_spec pre r st E)), app_nil_r.
    assert (is_digit (match r with x :: _ => s8 x | [] => 0 end) = false) as ->; [|done].
    destruct r as [|x r]; [done|]. by rewrite is_digit_s8 by (by eapply bytes_mid).
  - cbn [app] in E. rewrite (bind_Done _ _ _ _ _ (char_at_spec pre (x :: d ++ r) st E)).
    rewrite is_digit_s8, Hx by (by eapply bytes_mid). rewrite (proj2 (Z.leb_le _ l)) by (unfold l; rewrite E, length_app; lia). cbn [andb].
    replace (Z.of_nat (length pre) + 1) with (Z.of_nat (length (pre ++ [x]))) by (rewrite length_app; cbn [length]; lia).
    rewrite (IH (pre ++ [x])); [by rewrite <- app_assoc|by rewrite <- app_assoc|cbn [length] in Hf; lia].
Qed.

Lemma fraction_ref_spec pre rest st :
  bs = pre ++ rest ->
  let run := (c ← char_at a (Z.of_nat (length pre));
     if c =? 46 then
       if l <? Z.of_nat (length pre) + 1 then return_0
       else e ← fraction_loop (S (length a)) a l (Z.of_nat (length pre) + 1);
            if e =? Z.of_nat (length pre) + 1 then return_0 else mret e
     else mret (Z.of_nat (length pre))) st in
  match fraction_ref rest with
  | Some (mid, rest') => rest = mid ++ rest' /\ run = Done (Z.of_nat (length (pre ++ mid))) st
  | None => run = Bad st
  end.
Proof.
  intros E run. unfold run. clear run. rewrite (bind_Done _ _ _ _ _ (char_at_spec pre rest st E)).
  destruct rest as [|x rest]; cbn [fraction_ref]; [by rewrite (app_nil_r pre)|].
  rewrite eqb_s8 by (lia || by eapply bytes_mid). destruct (x =? 46) eqn:E46; [|by rewrite (app_nil_r pre)].
  rewrite (proj2 (Z.ltb_ge l _)) by (unfold l; rewrite E, length_app; cbn [length]; lia).
  destruct (span_digits rest) as [d r] eqn:Es. destruct (span_digits_spec _ _ _ Es) as (-> & Hd & Hr).
  assert (bs = (pre ++ [x]) ++ d ++ r) as E2 by (rewrite <- app_assoc; done).
  replace (Z.of_nat (length pre) + 1) with (Z.of_nat (length (pre ++ [x]))) by (rewrite length_app; cbn [length]; lia).
  rewrite (bind_Done _ _ _ _ _ (fraction_loop_ref (pre ++ [x]) d r st (S (length a)) E2 Hd Hr ltac:(unfold a; rewrite E2, !length_app; lia))).
  destruct d as [|y d].
  - rewrite bool_decide_eq_true_2 by done. rewrite app_nil_r, Z.eqb_refl. done.
  - rewrite bool_decide_eq_false_2 by done. split; [done|]. rewrite (proj2 (Z.eqb_neq _ _)) by (rewrite !length_app; cbn [length]; lia).
    by rewrite <- app_assoc.
Qed.
End Array.

(** ** BoringSSL: reading ASN.1 times

    [asn1_utctime_to_tm] and [asn1_generalizedtime_to_tm] accept the texts of
    the grammar and return the times they stand for. *)

(** ** The text of a time *)

Definition two (v : Z) : list Z := [48 + v / 10; 48 + v mod 10].
Definition fields_text (vs : list Z) : list Z := mjoin (two <$> vs).
Definition zone_text (z : zone) : list Z :=
  match z with Missing => [] | Zulu => [Z_char] | Offset behind h m => (if behind then minus_char else plus_char) :: two h ++ two m end.

Definition within (v : Z) (b : Z * Z) : Prop := b.1 <= v <= b.2.
Definition zone_good (z : zone) : Prop := match z with Offset _ h m => 0 <= h <= 12 /\ 0 <= m <= 59 | _ => True end.

(** The values are in their bounds; the last one may be left out before a zone. *)
Definition stamp (bounds : list (Z * Z)) (vs : list Z) (z : zone) : Prop :=
  zone_good z /\ Forall2 within vs (take (length vs) bounds) /\
  (length vs = length bounds \/ S (length vs) = length bounds /\ z <> Missing).

Definition small_bounds (bounds : list (Z * Z)) : Prop := Forall (fun b => 0 <= b.1 /\ b.2 <= 99) bounds.

Lemma digits2_two v r : 0 <= v <= 99 -> digits2 (two v ++ r) = Some (v, r).
Proof.
  intros Hv. unfold two. cbn [app digits2]. unfold is_digit.
  rewrite !(proj2 (Z.leb_le _ _)) by lia. cbn [andb]. do 2 f_equal. lia.
Qed.

Lemma digits2_inv s v r : digits2 s = Some (v, r) -> s = two v ++ r /\ 0 <= v <= 99.
Proof.
  intros H. pose proof (digits2_range _ _ _ H) as Hr. apply digits2_split in H as (x & y & -> & Hx & Hy & E).
  split; [|done]. unfold is_digit in *. unfold two. cbn [app]. f_equal; [lia|]. f_equal. lia.
Qed.

Lemma zone_char_two v r : 0 <= v <= 99 -> match two v ++ r with x :: _ => zone_char x | [] => false end = false.
Proof. intros Hv. cbn. unfold zone_char, Z_char, plus_char, minus_char. lia. Qed.

Lemma fields_ref_two bounds vs r : small_bounds bounds -> Forall2 within vs (take (length vs) bounds) ->
  length vs = length bounds \/ S (length vs) = length bounds /\ match r with x :: _ => zone_char x = true | [] => False end ->
  fields_ref bounds (fields_text vs ++ r) = Some (vs, r).
Proof.
  revert vs. induction bounds as [|[lo hi] bounds IH]; intros vs Hs Hv Hl.
  { destruct vs; [done|]. cbn [length] in Hl. lia. }
  apply Forall_cons in Hs as [Hs1 Hs]. cbn [fst snd] in Hs1. destruct vs as [|v vs].
  - destruct Hl as [Hl|[Hl Hr]]; [done|]. destruct bounds; [|done]. cbn [fields_ref fields_text mjoin app fmap list_fmap list_join].
    destruct r as [|x r]; [done|]. by rewrite Hr.
  - cbn [length take] in *. inversion Hv as [|? ? ? ? Hv1 Hv2]; subst. unfold within in Hv1. cbn [fst snd] in Hv1.
    cbn [fields_ref]. change (fields_text (v :: vs)) with (two v ++ fields_text vs). rewrite <- app_assoc.
    rewrite zone_char_two, andb_false_r, digits2_two by lia. cbn [mbind option_bind].
    rewrite (proj2 (Z.leb_le lo v)), (proj2 (Z.leb_le v hi)) by lia. cbn [andb]. rewrite IH; [done|done|done|].
    destruct Hl as [Hl|[Hl Hr]]; [left; lia|right; split; [lia|done]].
Qed.

Lemma fields_ref_inv bounds s vs r : fields_ref bounds s = Some (vs, r) ->
  s = fields_text vs ++ r /\ Forall2 within vs (take (length vs) bounds) /\
  (length vs = length bounds \/ S (length vs) = length bounds /\ match r with x :: _ => zone_char x = true | [] => False end).
Proof.
  revert s vs. induction bounds as [|[lo hi] bounds IH]; intros s vs H; cbn [fields_ref] in H.
  { injection H as <- <-. split; [done|]. split; [constructor|by left]. }
  destruct (bool_decide (bounds = []) && match s with x :: _ => zone_char x | [] => false end) eqn:Ez.
  - injection H as <- <-. apply andb_true_iff in Ez as [E1 E2]. apply bool_decide_eq_true in E1 as ->.
    split; [done|]. split; [constructor|right]. split; [done|]. by destruct s.
  - destruct (digits2 s) as [[v r']|] eqn:Ed; [|done]. cbn [mbind option_bind] in H.
    destruct ((lo <=? v) && (v <=? hi)) eqn:Eb; [|done]. destruct (fields_ref bounds r') as [[vs' r'']|] eqn:Ef; [|done].
    cbn [mbind option_bind] in H. injection H as <- <-. apply digits2_inv in Ed as [-> _]. destruct (IH _ _ Ef) as (-> & Hv & Hl).
    split; [change (fields_text (v :: vs')) with (two v ++ fields_text vs'); by rewrite <- app_assoc|].
    split; [cbn [length take]; constructor; [unfold within; cbn; lia|done]|]. cbn [length].
    destruct Hl as [Hl|[Hl Hr]]; [left; lia|right; split; [lia|done]].
Qed.

Lemma zone_ref_text z : zone_good z -> zone_ref (zone_text z) = Some z.
Proof.
  destruct z as [| |behind h m]; [done|done|]. intros [Hh Hm]. cbn [zone_text zone_ref].
  assert (((if behind then minus_char else plus_char) =? Z_char) = false) as -> by (by destruct behind).
  assert (((if behind then minus_char else plus_char) =? plus_char) || ((if behind then minus_char else plus_char) =? minus_char) = true) as -> by (by destruct behind).
  rewrite digits2_two by lia. cbn [mbind option_bind]. pose proof (digits2_two m [] ltac:(lia)) as Hm'. rewrite app_nil_r in Hm'. rewrite Hm'.
  cbn [mbind option_bind]. rewrite (proj2 (Z.leb_le h 12)), (proj2 (Z.leb_le m 59)), bool_decide_eq_true_2 by (lia || done). by destruct behind.
Qed.

Lemma zone_ref_inv s z : zone_ref s = Some z -> s = zone_text z /\ zone_good z.
Proof.
  destruct s as [|c s]; cbn [zone_ref]; [intros E; by injection E as <-|].
  destruct (c =? Z_char) eqn:Ez; [apply Z.eqb_eq in Ez as ->; destruct s; [|done]; intros E; by injection E as <-|].
  destruct ((c =? plus_char) || (c =? minus_char)) eqn:Ec; [|done].
  destruct (digits2 s) as [[h r]|] eqn:Eh; [|done]. cbn [mbind option_bind]. destruct (digits2 r) as [[m r']|] eqn:Em; [|done]. cbn [mbind option_bind].
  apply digits2_inv in Eh as [-> Hh]. apply digits2_inv in Em as [-> Hm].
  destruct (h <=? 12) eqn:E1; [|done]. destruct (m <=? 59) eqn:E2; [|done]. cbn [andb]. case_bool_decide; [subst r'|done].
  intros E. injection E as <-. cbn [zone_text zone_good]. rewrite app_nil_r. split; [|lia]. f_equal.
  apply orb_true_iff in Ec as [Ec|Ec]; apply Z.eqb_eq in Ec as ->; done.
Qed.

Lemma zone_text_head z : z <> Missing -> match zone_text z with x :: _ => zone_char x = true | [] => False end.
Proof. destruct z as [| |behind h m]; [done|done|]. intros _. by destruct behind. Qed.

Lemma zone_head_not_missing s z : zone_ref s = Some z -> match s with x :: _ => zone_char x = true | [] => False end -> z <> Missing.
Proof. intros H Hs ->. apply zone_ref_inv in H as [-> _]. done. Qed.

(** ** UTCTime *)

Definition utc_bounds : list (Z * Z) := [(0, 99); (1, 12); (1, 31); (0, 23); (0, 59); (0, 59)].

Definition parse_utc (s : list Z) : option (list Z * zone) :=
  '(vs, r) ← fields_ref utc_bounds s; z ← zone_ref r; Some (vs, z).

Lemma parse_utc_spec s vs z : parse_utc s = Some (vs, z) <-> stamp utc_bounds vs z /\ s = fields_text vs ++ zone_text z.
Proof.
  unfold parse_utc, stamp. split.
  - destruct (fields_ref utc_bounds s) as [[vs' r]|] eqn:Ef; [|done]. cbn [mbind option_bind]. destruct (zone_ref r) as [z'|] eqn:Ez; [|done].
    intros E. injection E as <- <-. apply fields_ref_inv in Ef as (-> & Hv & Hl). pose proof (zone_ref_inv _ _ Ez) as [-> Hg]. split; [|done].
    split; [done|]. split; [done|]. destruct Hl as [Hl|[Hl Hr]]; [by left|right]. split; [done|]. by eapply zone_head_not_missing.
  - intros [(Hg & Hv & Hl) ->]. rewrite fields_ref_two; [|repeat constructor; cbn; lia|done|].
    + cbn [mbind option_bind]. by rewrite zone_ref_text.
    + destruct Hl as [Hl|[Hl Hz]]; [by left|right]. split; [done|]. by apply zone_text_head.
Qed.

(** ** GeneralizedTime *)

Definition gen_bounds : list (Z * Z) := [(0, 99); (0, 99); (1, 12); (1, 31); (0, 23); (0, 59); (0, 59)].

(** The digits after the point, or none. *)
Definition fraction_text (f : list Z) : list Z := match f with [] => [] | _ => 46 :: f end.

Definition parse_gen (s : list Z) : option (list Z * list Z * zone) :=
  '(vs, r) ← fields_ref gen_bounds s; '(f, r) ← fraction_ref r; z ← zone_ref r; Some (vs, tail f, z).

(** A fraction needs the seconds. *)
Definition gen_stamp (vs f : list Z) (z : zone) : Prop :=
  stamp gen_bounds vs z /\ Forall (fun x => is_digit x = true) f /\ (f <> [] -> length vs = length gen_bounds).

Lemma span_digits_app d r : Forall (fun x => is_digit x = true) d -> match r with x :: _ => is_digit x = false | [] => True end ->
  span_digits (d ++ r) = (d, r).
Proof.
  intros Hd Hr. induction Hd as [|x d Hx Hd IH]; cbn [app span_digits]; [|by rewrite Hx, IH].
  destruct r as [|x r]; [done|]. cbn [span_digits]. by rewrite Hr.
Qed.

Lemma zone_text_no_digit z : match zone_text z with x :: _ => is_digit x = false /\ x <> 46 | [] => True end.
Proof. destruct z as [| |behind h m]; [done|done|]. by destruct behind. Qed.

Lemma fraction_ref_text f z : Forall (fun x => is_digit x = true) f ->
  fraction_ref (fraction_text f ++ zone_text z) = Some (fraction_text f, zone_text z).
Proof.
  intros Hf. pose proof (zone_text_no_digit z) as Hz. destruct f as [|x f]; cbn [fraction_text app fraction_ref].
  - destruct (zone_text z) as [|y t]; [done|]. destruct Hz as [_ Hz]. cbn [fraction_ref]. by rewrite (proj2 (Z.eqb_neq y 46)).
  - change (46 =? 46) with true. cbn iota. change (x :: f ++ zone_text z) with ((x :: f) ++ zone_text z). rewrite span_digits_app; [done|done|].
    destruct (zone_text z); [done|by destruct Hz].
Qed.

Lemma fraction_ref_inv s f r : fraction_ref s = Some (f, r) ->
  s = fraction_text (tail f) ++ r /\ Forall (fun x => is_digit x = true) (tail f) /\ f = fraction_text (tail f).
Proof.
  destruct s as [|x s]; cbn [fraction_ref]; [intros E; by injection E as <- <-|]. destruct (x =? 46) eqn:E46.
  - apply Z.eqb_eq in E46 as ->. destruct (span_digits s) as [d r'] eqn:Es. apply span_digits_spec in Es as (-> & Hd & _).
    case_bool_decide as Hn; [done|]. intros E. injection E as <- <-. cbn [tail]. destruct d; [done|]. done.
  - intros E. injection E as <- <-. done.
Qed.

Lemma parse_gen_spec s vs f z : parse_gen s = Some (vs, f, z) <->
  gen_stamp vs f z /\ s = fields_text vs ++ fraction_text f ++ zone_text z.
Proof.
  unfold parse_gen, gen_stamp, stamp. split.
  - destruct (fields_ref gen_bounds s) as [[vs' r]|] eqn:Ef; [|done]. cbn [mbind option_bind].
    destruct (fraction_ref r) as [[f' r']|] eqn:Efr; [|done]. cbn [mbind option_bind]. destruct (zone_ref r') as [z'|] eqn:Ez; [|done].
    intros E. injection E as <- <- <-. apply fields_ref_inv in Ef as (-> & Hv & Hl). apply fraction_ref_inv in Efr as (-> & Hd & _).
    pose proof (zone_ref_inv _ _ Ez) as [-> Hg]. split; [|done].
    assert (tail f' <> [] -> length vs' = length gen_bounds) as Hfs.
    { intros Hn. destruct Hl as [Hl|[Hl Hr]]; [done|]. destruct (tail f'); [done|]. done. }
    split; [|done]. split; [done|]. split; [done|]. destruct Hl as [Hl|[Hl Hr]]; [by left|]. right. split; [done|].
    destruct (tail f') as [|x d] eqn:Et; [|discriminate Hr]. eapply zone_head_not_missing; [exact Ez|exact Hr].
  - intros [[(Hg & Hv & Hl) [Hf Hfs]] ->]. rewrite fields_ref_two; [|repeat constructor; cbn; lia|done|].
    + cbn [mbind option_bind]. rewrite fraction_ref_text by done. cbn [mbind option_bind]. rewrite zone_ref_text by done. cbn [mbind option_bind].
      destruct f; done.
    + destruct Hl as [Hl|[Hl Hz]]; [by left|right]. split; [done|]. destruct f as [|x f]; [by apply zone_text_head|]. exfalso.
      specialize (Hfs ltac:(done)). rewrite Hfs in Hl. cbn in Hl. lia.
Qed.

(** ** The functions *)

(** A time as a string that a zero byte ends. *)
Definition time_string (s : asn1_string) (type : Z) (bs : list Z) : Prop :=
  stype s = type /\ slen s = Z.of_nat (length bs) /\ bytes bs /\ exists post, sdata s = Some (bs ++ 0 :: post).

Definition utc_tm (vs : list Z) : tm := fill utc_field 0 6 vs (mk_tm 0 0 0 0 0 0).
Definition gen_tm (vs : list Z) : tm := fill gen_field 0 7 vs (mk_tm 0 0 0 0 0 0).

Ltac by_fields vs Hv Hl :=
  destruct vs as [|?v [|?v [|?v [|?v [|?v [|?v [|?v [|?v vs]]]]]]]]; try (cbn in Hl; lia);
  cbn [length take] in Hv; repeat (apply Forall2_cons in Hv as [?Hw Hv]); unfold within in *; cbn [fst snd] in *.

Lemma utc_tm_fields v v0 v1 v2 v3 v4 :
  utc_tm [v; v0; v1; v2; v3; v4] = mk_tm v4 v3 v2 v1 (v0 - 1) (if v <? 50 then v + 100 else v) /\
  utc_tm [v; v0; v1; v2; v3] = mk_tm 0 v3 v2 v1 (v0 - 1) (if v <? 50 then v + 100 else v).
Proof. done. Qed.

Lemma gen_tm_fields v v0 v1 v2 v3 v4 v5 :
  gen_tm [v; v0; v1; v2; v3; v4; v5] = mk_tm v5 v4 v3 v2 (v1 - 1) (v * 100 - 1900 + v0) /\
  gen_tm [v; v0; v1; v2; v3; v4] = mk_tm 0 v4 v3 v2 (v1 - 1) (v * 100 - 1900 + v0).
Proof. done. Qed.

Lemma utc_fill vs t : Forall2 within vs (take (length vs) utc_bounds) -> (length vs = 6 \/ length vs = 5)%nat -> fill utc_field 0 6 vs t = utc_tm vs /\ tm_ok (utc_tm vs).
Proof.
  intros Hv Hl'.
  unfold utc_bounds in Hv. by_fields vs Hv Hl'; (split; [reflexivity|]).
  - rewrite (proj2 (utc_tm_fields v v0 v1 v2 v3 0)). constructor; cbn [tm_sec tm_min tm_hour tm_mday tm_mon tm_year]; try lia. case_match; lia.
  - rewrite (proj1 (utc_tm_fields v v0 v1 v2 v3 v4)). constructor; cbn [tm_sec tm_min tm_hour tm_mday tm_mon tm_year]; try lia. case_match; lia.
Qed.

Lemma gen_fill vs t : Forall2 within vs (take (length vs) gen_bounds) -> (length vs = 7 \/ length vs = 6)%nat -> fill gen_field 0 7 vs t = gen_tm vs /\ tm_ok (gen_tm vs).
Proof.
  intros Hv Hl'.
  unfold gen_bounds in Hv. by_fields vs Hv Hl'; (split; [reflexivity|]).
  - rewrite (proj2 (gen_tm_fields v v0 v1 v2 v3 v4 0)). constructor; cbn [tm_sec tm_min tm_hour tm_mday tm_mon tm_year]; lia.
  - rewrite (proj1 (gen_tm_fields v v0 v1 v2 v3 v4 v5)). constructor; cbn [tm_sec tm_min tm_hour tm_mday tm_mon tm_year]; lia.
Qed.

(** A text of the grammar is not too short. *)
Lemma fields_text_length vs : length (fields_text vs) = (2 * length vs)%nat.
Proof. induction vs as [|v vs IH]; [done|]. change (fields_text (v :: vs)) with (two v ++ fields_text vs). rewrite length_app, IH. cbn [length two]. lia. Qed.

Lemma zone_text_pos z : z <> Missing -> (1 <= length (zone_text z))%nat.
Proof. destruct z; [done|cbn; lia|cbn; lia]. Qed.

Lemma stamp_length bounds vs z : stamp bounds vs z -> (2 * length bounds - 1 <= length (fields_text vs) + length (zone_text z))%nat.
Proof. intros (_ & _ & Hl). rewrite fields_text_length. destruct Hl as [Hl|[Hl Hz]]; [lia|]. pose proof (zone_text_pos z Hz). lia. Qed.

(** The bounds are those of the arrays. *)
Lemma bounds_of (bounds : list (Z * Z)) (minv maxv : list Z) : fst <$> bounds = take (length bounds) minv -> snd <$> bounds = take (length bounds) maxv ->
  forall k lo hi, bounds !! k = Some (lo, hi) -> rd minv (0 + Z.of_nat k) = Some lo /\ rd maxv (0 + Z.of_nat k) = Some hi.
Proof.
  intros H1 H2 k lo hi Hk. unfold rd. rewrite !bool_decide_eq_true_2, Z.add_0_l, Nat2Z.id by lia. pose proof (lookup_lt_Some _ _ _ Hk).
  apply (f_equal (lookup k)) in H1, H2. rewrite list_lookup_fmap, Hk, lookup_take_lt in H1, H2 by done. by rewrite <- H1, <- H2.
Qed.

Lemma utc_to_tm_ref s bs st : time_string s V_ASN1_UTCTIME bs ->
  match '(vs, z) ← parse_utc bs; zone_apply z (const (utc_tm vs) <$> st) with
  | Some st' => asn1_utctime_to_tm s st = Done tt st'
  | None => exists st', asn1_utctime_to_tm s st = Bad st'
  end.
Proof.
  intros (Ht & Hl & Hb & post & Hd). unfold asn1_utctime_to_tm. rewrite Ht, Hl. cbn [Z.eqb Pos.eqb V_ASN1_UTCTIME negb].
  destruct (Z.of_nat (length bs) <? 11) eqn:E11; [apply Z.ltb_lt in E11|apply Z.ltb_ge in E11].
  { destruct (parse_utc bs) as [[vs z]|] eqn:Ep; [|by exists st]. apply parse_utc_spec in Ep as [Hs ->]. pose proof (stamp_length _ _ _ Hs) as H.
    rewrite length_app in E11. cbn in H. lia. }
  rewrite Hd. rewrite (bind_Done _ _ _ _ _ (of_option_Some _ (bs ++ 0 :: post) st eq_refl)). unfold parse_utc.
  pose proof (field_loop_ref bs post Hb utc_min utc_max utc_field 6 utc_bounds 0 [] bs st eq_refl eq_refl) as Hf.
  change (length utc_bounds) with 6%nat in Hf. change (Z.of_nat (length [])) with 0 in Hf.
  destruct (fields_ref utc_bounds bs) as [[vs r]|] eqn:Ef; cbn [mbind option_bind].
  2: { destruct Hf as [st' Hf]; [by apply bounds_of|]. exists st'. unfold mbind, proc_bind. by rewrite Hf. }
  destruct Hf as (mid & -> & Hf); [by apply bounds_of|]. rewrite (bind_Done _ _ _ _ _ Hf). clear Hf.
  apply fields_ref_inv in Ef as (_ & Hv & Hn). change (length utc_bounds) with 6%nat in Hn.
  assert (length vs = 6 \/ length vs = 5)%nat as Hn' by lia.
  assert (fill utc_field 0 6 vs <$> st = const (utc_tm vs) <$> st) as Efill.
  { destruct st as [t|]; [|done]. cbn. f_equal. by apply utc_fill. }
  rewrite Efill.
  pose proof (zone_end_ref (mid ++ r) post Hb false utc_min utc_max 6 mid r (const (utc_tm vs) <$> st) eq_refl) as Hz. cbn [andb app] in Hz.
  assert (st_ok (const (utc_tm vs) <$> st)) as Hok.
  { destruct st; [|done]. cbn. by apply (utc_fill vs (mk_tm 0 0 0 0 0 0)). }
  specialize (Hz Hok eq_refl eq_refl eq_refl eq_refl). by destruct (zone_ref r).
Qed.

Lemma gen_to_tm_ref s bs st : time_string s V_ASN1_GENERALIZEDTIME bs ->
  match '(vs, _, z) ← parse_gen bs; zone_apply z (const (gen_tm vs) <$> st) with
  | Some st' => asn1_generalizedtime_to_tm s st = Done tt st'
  | None => exists st', asn1_generalizedtime_to_tm s st = Bad st'
  end.
Proof.
  intros (Ht & Hl & Hb & post & Hd). unfold asn1_generalizedtime_to_tm. rewrite Ht, Hl. cbn [Z.eqb Pos.eqb V_ASN1_GENERALIZEDTIME negb].
  destruct (Z.of_nat (length bs) <? 13) eqn:E13; [apply Z.ltb_lt in E13|apply Z.ltb_ge in E13].
  { destruct (parse_gen bs) as [[[vs f] z]|] eqn:Ep; [|by exists st]. apply parse_gen_spec in Ep as [[Hs _] ->]. pose proof (stamp_length _ _ _ Hs) as H.
    rewrite !length_app in E13. cbn in H. lia. }
  rewrite Hd. rewrite (bind_Done _ _ _ _ _ (of_option_Some _ (bs ++ 0 :: post) st eq_refl)). unfold parse_gen.
  pose proof (field_loop_ref bs post Hb gen_min gen_max gen_field 7 gen_bounds 0 [] bs st eq_refl eq_refl) as Hf.
  change (length gen_bounds) with 7%nat in Hf. change (Z.of_nat (length [])) with 0 in Hf.
  destruct (fields_ref gen_bounds bs) as [[vs r]|] eqn:Ef; cbn [mbind option_bind].
  2: { destruct Hf as [st' Hf]; [by apply bounds_of|]. exists st'. unfold mbind, proc_bind. by rewrite Hf. }
  destruct Hf as (mid & -> & Hf); [by apply bounds_of|]. rewrite (bind_Done _ _ _ _ _ Hf). clear Hf.
  apply fields_ref_inv in Ef as (_ & Hv & Hn). change (length gen_bounds) with 7%nat in Hn.
  assert (length vs = 7 \/ length vs = 6)%nat as Hn' by lia.
  assert (fill gen_field 0 7 vs <$> st = const (gen_tm vs) <$> st) as Efill.
  { destruct st as [t|]; [|done]. cbn. f_equal. by apply gen_fill. }
  rewrite Efill. cbn [app].
  assert (st_ok (const (gen_tm vs) <$> st)) as Hok.
  { destruct st; [|done]. cbn. by apply (gen_fill vs (mk_tm 0 0 0 0 0 0)). }
  pose proof (fraction_ref_spec (mid ++ r) post Hb mid r (const (gen_tm vs) <$> st) eq_refl) as Hfr. cbn zeta in Hfr.
  destruct (fraction_ref r) as [[f r']|] eqn:Er; cbn [mbind option_bind].
  - destruct Hfr as [-> Hfr]. 
    pose proof (zone_end_ref (mid ++ f ++ r') post Hb true gen_min gen_max 7 (mid ++ f) r' (const (gen_tm vs) <$> st) (app_assoc mid f r') Hok
      eq_refl eq_refl eq_refl eq_refl) as Hz. cbn [andb] in Hz.
    assert (forall k, (c ← char_at ((mid ++ f ++ r') ++ 0 :: post) (Z.of_nat (length mid)); o ← (if c =? 46 then
             if Z.of_nat (length (mid ++ f ++ r')) <? Z.of_nat (length mid) + 1 then return_0
             else e ← fraction_loop (S (length ((mid ++ f ++ r') ++ 0 :: post))) ((mid ++ f ++ r') ++ 0 :: post) (Z.of_nat (length (mid ++ f ++ r'))) (Z.of_nat (length mid) + 1);
               if e =? Z.of_nat (length mid) + 1 then return_0 else mret e
           else mret (Z.of_nat (length mid))); k o) (const (gen_tm vs) <$> st) = (k (Z.of_nat (length (mid ++ f))) : parser unit) (const (gen_tm vs) <$> st)) as Ek.
    { intros k. rewrite <- (bind_Done _ k _ _ _ Hfr). unfold mbind, proc_bind. by destruct (char_at _ _ _). }
    rewrite Ek. by destruct (zone_ref r').
  - exists (const (gen_tm vs) <$> st). unfold mbind, proc_bind in Hfr |- *. destruct (char_at _ _ _) as [c st'| |]; [|by injection Hfr as ->|done].
    by rewrite Hfr.
Qed.
