(* ===== verification/Asn1TimePrint.v ===== *)
(** * BoringSSL: writing and converting ASN.1 times

    Texts that are read back, conversion to GeneralizedTime, comparison. *)
From S2P Require Import Prelude CBuf CMem CProc Cbs CbsSpec Asn1String Calendar Asn1Time Asn1TimeSpec Asn1TimeText.

(** ** BoringSSL: writing ASN.1 times

    The text that [ASN1_TIME_adj] writes is in the grammar and stands for the
    time; converting a UTCTime to a GeneralizedTime keeps it. *)

#[local] Ltac Zify.zify_post_hook ::= Z.to_euclidean_division_equations.

(** ** Numbers with leading zeros *)

Lemma fmt_u_small n : 0 <= n <= 9999 ->
  fmt_u n = (if 1000 <=? n then [48 + n / 1000 mod 10] else []) ++ (if 100 <=? n then [48 + n / 100 mod 10] else []) ++
            (if 10 <=? n then [48 + n / 10 mod 10] else []) ++ [48 + n mod 10].
Proof.
  intros Hn. unfold fmt_u. cbn [digits]. 
  assert (forall x, (if x mod 10 <? 10 then 48 + x mod 10 else 87 + x mod 10) = 48 + x mod 10) as E.
  { intros x. rewrite (proj2 (Z.ltb_lt _ 10)); [done|]. pose proof (Z.mod_pos_bound x 10). lia. }
  rewrite !E. rewrite !Z.div_div by lia. change (10 * 10) with 100. change (100 * 10) with 1000. change (1000 * 10) with 10000.
  destruct (n <? 10) eqn:E1; [rewrite !(proj2 (Z.leb_gt _ n)) by lia; done|rewrite (proj2 (Z.leb_le 10 n)) by lia].
  destruct (n / 10 <? 10) eqn:E2; [rewrite !(proj2 (Z.leb_gt _ n)) by lia; done|rewrite (proj2 (Z.leb_le 100 n)) by lia].
  destruct (n / 100 <? 10) eqn:E3; [rewrite !(proj2 (Z.leb_gt _ n)) by lia; done|rewrite (proj2 (Z.leb_le 1000 n)) by lia].
  rewrite (proj2 (Z.ltb_lt (n / 1000) 10)) by lia. done.
Qed.

Lemma fmt_02 n : 0 <= n <= 99 -> fmt_0d 2 n = two n.
Proof.
  intros Hn. unfold fmt_0d. rewrite Z.abs_eq, (proj2 (Z.ltb_ge n 0)), fmt_u_small by lia.
  rewrite (proj2 (Z.leb_gt 1000 n)), (proj2 (Z.leb_gt 100 n)) by lia. unfold two.
  destruct (10 <=? n) eqn:E; cbn [app length]; [change (Z.to_nat (2 - Z.of_nat 0 - Z.of_nat 2)) with 0%nat|change (Z.to_nat (2 - Z.of_nat 0 - Z.of_nat 1)) with 1%nat];
    cbn [replicate app]; f_equal; lia.
Qed.

(** Two lists, cell by cell. *)
Ltac cells := repeat (apply (f_equal2 (@cons Z)); [lia|]); reflexivity.

Lemma fmt_04 n : 0 <= n <= 9999 -> fmt_0d 4 n = two (n / 100) ++ two (n mod 100).
Proof.
  intros Hn. unfold fmt_0d. rewrite Z.abs_eq, (proj2 (Z.ltb_ge n 0)), fmt_u_small by lia. unfold two.
  destruct (1000 <=? n) eqn:E1; [rewrite (proj2 (Z.leb_le 100 n)), (proj2 (Z.leb_le 10 n)) by lia; cbn [app length];
    change (Z.to_nat (4 - Z.of_nat 0 - Z.of_nat 4)) with 0%nat; cbn [replicate app]; cells|].
  destruct (100 <=? n) eqn:E2; [rewrite (proj2 (Z.leb_le 10 n)) by lia; cbn [app length];
    change (Z.to_nat (4 - Z.of_nat 0 - Z.of_nat 3)) with 1%nat; cbn [replicate app]; cells|].
  destruct (10 <=? n) eqn:E3; cbn [app length]; [change (Z.to_nat (4 - Z.of_nat 0 - Z.of_nat 2)) with 2%nat|change (Z.to_nat (4 - Z.of_nat 0 - Z.of_nat 1)) with 3%nat];
    cbn [replicate app]; cells.
Qed.

(** ** The texts *)

Definition utc_fields (t : tm) : list Z := [tm_year t mod 100; tm_mon t + 1; tm_mday t; tm_hour t; tm_min t; tm_sec t].
Definition gen_fields (t : tm) : list Z :=
  [(tm_year t + 1900) / 100; (tm_year t + 1900) mod 100; tm_mon t + 1; tm_mday t; tm_hour t; tm_min t; tm_sec t].

Lemma utc_text_fields t : tm_ok t -> 50 <= tm_year t < 150 -> utc_text t = fields_text (utc_fields t) ++ zone_text Zulu.
Proof.
  intros [Hs Hm Hh Hd Hmo _] Hy. unfold utc_text. rewrite Z.rem_mod_nonneg by lia. rewrite !fmt_02 by lia.
  unfold fields_text, utc_fields. cbn [fmap list_fmap mjoin list_join]. rewrite <- !app_assoc. done.
Qed.

Lemma gen_text_fields t : tm_ok t -> tm_year t + 1900 <= 9999 -> gen_text t = fields_text (gen_fields t) ++ zone_text Zulu.
Proof.
  intros [Hs Hm Hh Hd Hmo Hy] Hy'. unfold gen_text. rewrite fmt_04, !fmt_02 by lia.
  unfold fields_text, gen_fields. cbn [fmap list_fmap mjoin list_join]. rewrite <- !app_assoc. done.
Qed.

Lemma utc_fields_stamp t : tm_ok t -> tm_sec t <= 59 -> 50 <= tm_year t < 150 ->
  stamp utc_bounds (utc_fields t) Zulu /\ utc_tm (utc_fields t) = t.
Proof.
  intros [Hs Hm Hh Hd Hmo _] H59 Hy. split.
  - split; [done|]. split; [|by left]. unfold utc_fields, utc_bounds. cbn [length take].
    repeat (apply Forall2_cons; split; [unfold within; cbn [fst snd]; lia|]). constructor.
  - unfold utc_fields. rewrite (proj1 (utc_tm_fields _ _ _ _ _ _)). destruct t as [ts tmi th td tmo ty]. cbn [tm_sec tm_min tm_hour tm_mday tm_mon tm_year] in *.
    f_equal; [lia|]. destruct (_ <? 50) eqn:E; lia.
Qed.

Lemma gen_fields_stamp t : tm_ok t -> tm_sec t <= 59 -> tm_year t + 1900 <= 9999 ->
  stamp gen_bounds (gen_fields t) Zulu /\ gen_tm (gen_fields t) = t.
Proof.
  intros [Hs Hm Hh Hd Hmo Hy] H59 Hy'. split.
  - split; [done|]. split; [|by left]. unfold gen_fields, gen_bounds. cbn [length take].
    repeat (apply Forall2_cons; split; [unfold within; cbn [fst snd]; lia|]). constructor.
  - unfold gen_fields. rewrite (proj1 (gen_tm_fields _ _ _ _ _ _ _)). destruct t as [ts tmi th td tmo ty]. cbn [tm_sec tm_min tm_hour tm_mday tm_mon tm_year] in *.
    f_equal; lia.
Qed.

(** The characters of a text: bytes, none of them zero. *)
Definition plain (s : list Z) : Prop := Forall (fun c => in_u 8 c /\ c <> 0) s.

Lemma plain_bytes s : plain s -> bytes s.
Proof. intros H. eapply Forall_impl; [exact H|]. by intros c [Hc _]. Qed.

Lemma fields_text_plain vs : Forall (fun v => 0 <= v <= 99) vs -> plain (fields_text vs).
Proof.
  induction 1 as [|v vs Hv _ IH]; [constructor|]. change (fields_text (v :: vs)) with (two v ++ fields_text vs). apply Forall_app. split; [|done].
  unfold two. repeat (constructor; [unfold in_u; lia|]). constructor.
Qed.

Lemma within_small bounds vs : small_bounds bounds -> Forall2 within vs (take (length vs) bounds) -> Forall (fun v => 0 <= v <= 99) vs.
Proof.
  revert bounds. induction vs as [|v vs IH]; intros [|b bounds] Hs H; cbn [length take] in H; [constructor|constructor|by inversion H|].
  apply Forall_cons in Hs as [Hb Hs]. apply Forall2_cons in H as [Hv H]. unfold within in Hv. constructor; [lia|]. by apply (IH bounds).
Qed.

Lemma zone_text_plain z : zone_good z -> plain (zone_text z).
Proof.
  destruct z as [| |behind h m]; [intros _; constructor|intros _; repeat constructor; unfold Z_char, in_u; lia|]. intros [Hh Hm].
  cbn [zone_text]. unfold two. constructor; [unfold in_u; destruct behind; unfold minus_char, plus_char; lia|].
  repeat (constructor; [unfold in_u; lia|]). constructor.
Qed.

Lemma c_str_plain s post : plain s -> c_str (s ++ 0 :: post) = Some s.
Proof.
  induction 1 as [|c s [_ Hc] _ IH]; [done|]. cbn [app c_str]. rewrite (proj2 (Z.eqb_neq c 0)) by done. by rewrite IH.
Qed.

Section Writing.
Context (malloc : Z -> option (list Z)).
Hypothesis malloc_size : forall n b, malloc n = Some b -> Z.of_nat (length b) = n.

(** The object is not smaller than the length says. *)
Definition sized (s : asn1_string) : Prop := 0 <= slen s /\ match sdata s with Some d => slen s <= Z.of_nat (length d) | None => True end.

Lemma write_time_spec s text type : sized s -> plain text -> (length text <= 19)%nat ->
  (exists s', write_time malloc s text type = Some (true, s') /\ time_string s' type text) \/
  malloc 20 = None /\ write_time malloc s text type = Some (false, s).
Proof.
  intros [Hs0 Hs] Ht Hl. unfold write_time.
  assert (forall p, 20 <= Z.of_nat (length p) -> exists s', (p ← wrs p 0 (snprintf 20 text); len ← c_str p;
      Some (true, mk_string (Z.of_nat (length len)) type (Some p) (sflags s))) = Some (true, s') /\ time_string s' type text) as Hgo.
  { intros p Hp. unfold snprintf. change (Z.to_nat (20 - 1)) with 19%nat. rewrite take_ge by lia.
    rewrite <- (take_drop (length (text ++ [0])) p). assert (length (text ++ [0%Z]) <= length p)%nat by (rewrite length_app; cbn; lia).
    pose proof (wrs_mid [] (take (length (text ++ [0])) p) (drop (length (text ++ [0])) p) (text ++ [0]) 0 eq_refl) as Hw. cbn [app] in Hw.
    rewrite Hw by (rewrite length_take; lia). cbn [mbind option_bind]. rewrite <- app_assoc. cbn [app]. rewrite c_str_plain by done. cbn [mbind option_bind].
    eexists. split; [reflexivity|]. split; [done|]. split; [done|]. split; [by apply plain_bytes|]. by eexists. }
  destruct (bool_decide (sdata s = None) || (slen s <? 20)) eqn:E.
  - destruct (malloc 20) as [p|] eqn:Em; [left|by right]. apply Hgo. rewrite (malloc_size _ _ Em). lia.
  - left. apply orb_false_iff in E as [E1 E2]. apply bool_decide_eq_false in E1. apply Z.ltb_ge in E2.
    destruct (sdata s) as [d|]; [|done]. apply Hgo. lia.
Qed.

(** ** [ASN1_TIME_adj] *)

(** The time the offsets lead to. *)
Definition moved (t od os : Z) : option tm :=
  if (od =? 0) && (os =? 0) then OPENSSL_gmtime t else in_years 1900 9999 (OPENSSL_gmtime (t + SECS_PER_DAY * od + os)).

Lemma gmtime_with_spec t od os ts : OPENSSL_gmtime t = Some ts -> 0 <= tm_year ts + 1900 <= 1000000 -> offset_ok od os ->
  gmtime_with t od os = Some (moved t od os).
Proof.
  intros Et Hy Ho. destruct (gmtime_ok t ts Et Hy) as (Hok & _ & _ & Es). unfold gmtime_with, moved. rewrite Et.
  destruct (od =? 0) eqn:E1; [destruct (os =? 0) eqn:E2; [done|]|]; cbn [negb orb andb]; rewrite gmtime_adj_spec by done; by rewrite Es.
Qed.

Lemma moved_ok t od os ts ts0 : OPENSSL_gmtime t = Some ts0 -> 0 <= tm_year ts0 + 1900 <= 1000000 -> moved t od os = Some ts ->
  tm_ok ts /\ tm_sec ts <= 59 /\ seconds ts = t + SECS_PER_DAY * od + os /\ OPENSSL_gmtime (t + SECS_PER_DAY * od + os) = Some ts.
Proof.
  intros Et Hy. unfold moved. destruct ((od =? 0) && (os =? 0)) eqn:E.
  - apply andb_true_iff in E as [E1 E2]. apply Z.eqb_eq in E1 as ->. apply Z.eqb_eq in E2 as ->. rewrite Z.mul_0_r, !Z.add_0_r. intros Em.
    rewrite Em in Et. injection Et as <-. destruct (gmtime_ok t ts Em Hy) as (H1 & H2 & _ & H3). done.
  - unfold in_years. clear Et. destruct (OPENSSL_gmtime (t + SECS_PER_DAY * od + os)) as [ts'|] eqn:Eg; [|done]. cbn [mbind option_bind].
    destruct ((1900 <=? _) && _) eqn:Ey; [|done]. intros E'. injection E' as <-. apply andb_true_iff in Ey as [Ey1 Ey2]. apply Z.leb_le in Ey1, Ey2.
    destruct (gmtime_ok _ ts' Eg ltac:(lia)) as (H1 & H2 & _ & H3). done.
Qed.

Definition sized_opt (s : option asn1_string) : Prop := match s with Some s => sized s | None => True end.

(** The string is read back as [ts]. *)
Definition reads_as (str : asn1_string) (ts : tm) : Prop :=
  forall now st, asn1_time_to_tm now (Some str) st = Done tt (const ts <$> st).

Lemma utc_reads_as str ts : tm_ok ts -> tm_sec ts <= 59 -> 50 <= tm_year ts < 150 ->
  time_string str V_ASN1_UTCTIME (utc_text ts) -> reads_as str ts.
Proof.
  intros Hok H59 Hy Hs now st. pose proof Hs as (Ht & _). unfold asn1_time_to_tm. rewrite Ht. change (V_ASN1_UTCTIME =? V_ASN1_UTCTIME) with true. cbn iota.
  destruct (utc_fields_stamp ts Hok H59 Hy) as [Hst Etm]. pose proof (utc_to_tm_ref str _ st Hs) as H.
  rewrite (utc_text_fields ts Hok Hy), (proj2 (parse_utc_spec _ (utc_fields ts) Zulu)) in H by done. cbn [mbind option_bind] in H. rewrite Etm in H.
  by destruct st.
Qed.

Lemma gen_reads_as str ts : tm_ok ts -> tm_sec ts <= 59 -> tm_year ts + 1900 <= 9999 ->
  time_string str V_ASN1_GENERALIZEDTIME (gen_text ts) -> reads_as str ts.
Proof.
  intros Hok H59 Hy Hs now st. pose proof Hs as (Ht & _). unfold asn1_time_to_tm. rewrite Ht.
  change (V_ASN1_GENERALIZEDTIME =? V_ASN1_UTCTIME) with false. change (V_ASN1_GENERALIZEDTIME =? V_ASN1_GENERALIZEDTIME) with true. cbn iota.
  destruct (gen_fields_stamp ts Hok H59 Hy) as [Hst Etm]. pose proof (gen_to_tm_ref str _ st Hs) as H.
  assert (gen_stamp (gen_fields ts) [] Zulu) as Hg by (split; [done|]; split; [constructor|done]).
  rewrite (gen_text_fields ts Hok Hy), (proj2 (parse_gen_spec _ (gen_fields ts) [] Zulu)) in H by done. cbn [mbind option_bind] in H. rewrite Etm in H.
  by destruct st.
Qed.

Lemma stamp_plain bounds vs z : small_bounds bounds -> stamp bounds vs z -> plain (fields_text vs ++ zone_text z).
Proof.
  intros Hs (Hg & Hv & _). apply Forall_app. split; [|by apply zone_text_plain]. apply fields_text_plain. by eapply within_small.
Qed.

(** No memory for a string or for its characters. *)
Definition no_memory : Prop := malloc 24 = None \/ malloc 20 = None.

Lemma finish_adj_spec s type body :
  (forall s0, sized s0 -> (exists s', body s0 = Some (true, s')) \/ body s0 = Some (false, s0)) -> sized_opt s ->
  (exists s0 s', sized s0 /\ body s0 = Some (true, s') /\ finish_adj malloc s type body = Some (true, Some s')) \/
  finish_adj malloc s type body = Some (false, s) /\ (malloc 24 = None \/ exists s0, sized s0 /\ body s0 = Some (false, s0)).
Proof.
  intros Hb Hs. unfold finish_adj. destruct s as [s0|].
  - destruct (Hb s0 Hs) as [[s' E]|E]; rewrite E; cbn [mbind option_bind]; [left; by exists s0, s'|]. right. split; [done|]. right. by exists s0.
  - unfold ASN1_STRING_type_new. destruct (malloc 24) eqn:Em; [|right; split; [done|by left]].
    set (s0 := mk_string 0 type None 0). assert (sized s0) as Hs0 by (split; done).
    destruct (Hb s0 Hs0) as [[s' E]|E]; rewrite E; cbn [mbind option_bind]; [left; by exists s0, s'|]. right. split; [done|]. right. by exists s0.
Qed.

Lemma time_adj_spec s t od os ts0 : sized_opt s -> OPENSSL_gmtime t = Some ts0 -> 0 <= tm_year ts0 + 1900 <= 1000000 -> offset_ok od os ->
  match moved t od os with
  | Some ts =>
      (exists str, ASN1_TIME_adj malloc s t od os = Some (true, Some str) /\ reads_as str ts /\
         stype str = (if (50 <=? tm_year ts) && (tm_year ts <? 150) then V_ASN1_UTCTIME else V_ASN1_GENERALIZEDTIME)) \/
      ASN1_TIME_adj malloc s t od os = Some (false, s) /\ (no_memory \/ 9999 < tm_year ts + 1900)
  | None => ASN1_TIME_adj malloc s t od os = Some (false, s)
  end.
Proof.
  intros Hs Et Hy Ho. pose proof (gmtime_with_spec t od os ts0 Et Hy Ho) as Ew. unfold ASN1_TIME_adj. rewrite Ew. cbn [mbind option_bind].
  destruct (moved t od os) as [ts|] eqn:Em; [|done]. destruct (moved_ok t od os ts ts0 Et Hy Em) as (Hok & H59 & _ & _).
  destruct ((50 <=? tm_year ts) && (tm_year ts <? 150)) eqn:Eu.
  - apply andb_true_iff in Eu as [E1 E2]. apply Z.leb_le in E1. apply Z.ltb_lt in E2. unfold ASN1_UTCTIME_adj.
    match goal with |- context [finish_adj _ _ _ ?b] => set (body := b) end.
    assert (forall s0, body s0 = write_time malloc s0 (utc_text ts) V_ASN1_UTCTIME) as Eb.
    { intros s0. unfold body. rewrite Ew. cbn [mbind option_bind].
      by rewrite (proj2 (Z.ltb_ge (tm_year ts) 50)), (proj2 (Z.leb_gt 150 (tm_year ts))) by lia. }
    destruct (utc_fields_stamp ts Hok H59 ltac:(lia)) as [Hst _].
    assert (plain (utc_text ts) /\ (length (utc_text ts) <= 19)%nat) as [Hp Hl].
    { rewrite (utc_text_fields ts Hok ltac:(lia)). split; [apply (stamp_plain utc_bounds); [repeat constructor; cbn; lia|done]|].
      rewrite length_app, fields_text_length. cbn. lia. }
    destruct (finish_adj_spec s V_ASN1_UTCTIME body) as [(s0 & s' & Hs0 & Hb & Hf)|[Hf Hb]]; [|done| |].
    + intros s0 Hs0. rewrite Eb. destruct (write_time_spec s0 _ V_ASN1_UTCTIME Hs0 Hp Hl) as [(s' & E & _)|[_ E]]; [left; by exists s'|by right].
    + left. exists s'. split; [done|]. rewrite Eb in Hb. destruct (write_time_spec s0 _ V_ASN1_UTCTIME Hs0 Hp Hl) as [(s'' & E & Hts)|[_ E]]; [|congruence].
      rewrite E in Hb. injection Hb as <-. split; [apply utc_reads_as; done || lia|]. by destruct Hts.
    + right. split; [done|]. left. destruct Hb as [Hb|(s0 & Hs0 & Hb)]; [by left|right]. rewrite Eb in Hb.
      destruct (write_time_spec s0 _ V_ASN1_UTCTIME Hs0 Hp Hl) as [(s'' & E & Hts)|[E _]]; [congruence|done].
  - unfold ASN1_GENERALIZEDTIME_adj. match goal with |- context [finish_adj _ _ _ ?b] => set (body := b) end.
    destruct (decide (9999 < tm_year ts + 1900)) as [Hbig|Hbig].
    { assert (forall s0, body s0 = Some (false, s0)) as Eb.
      { intros s0. unfold body. rewrite Ew. cbn [mbind option_bind]. rewrite (proj2 (Z.ltb_lt (9999 - 1900) (tm_year ts))) by lia. by rewrite orb_true_r. }
      destruct (finish_adj_spec s V_ASN1_GENERALIZEDTIME body) as [(s0 & s' & Hs0 & Hb & Hf)|[Hf Hb]]; [|done| |].
      - intros s0 _. right. apply Eb.
      - rewrite Eb in Hb. done.
      - right. split; [done|]. right. lia. }
    assert (0 <= tm_year ts + 1900) as Hlow by (by destruct Hok as [_ _ _ _ _ [? _]]).
    assert (forall s0, body s0 = write_time malloc s0 (gen_text ts) V_ASN1_GENERALIZEDTIME) as Eb.
    { intros s0. unfold body. rewrite Ew. cbn [mbind option_bind].
      by rewrite (proj2 (Z.ltb_ge (tm_year ts) (0 - 1900))), (proj2 (Z.ltb_ge (9999 - 1900) (tm_year ts))) by lia. }
    destruct (gen_fields_stamp ts Hok H59 ltac:(lia)) as [Hst _].
    assert (plain (gen_text ts) /\ (length (gen_text ts) <= 19)%nat) as [Hp Hl].
    { rewrite (gen_text_fields ts Hok ltac:(lia)). split; [apply (stamp_plain gen_bounds); [repeat constructor; cbn; lia|done]|].
      rewrite length_app, fields_text_length. cbn. lia. }
    destruct (finish_adj_spec s V_ASN1_GENERALIZEDTIME body) as [(s0 & s' & Hs0 & Hb & Hf)|[Hf Hb]]; [|done| |].
    + intros s0 Hs0. rewrite Eb. destruct (write_time_spec s0 _ V_ASN1_GENERALIZEDTIME Hs0 Hp Hl) as [(s' & E & _)|[_ E]]; [left; by exists s'|by right].
    + left. exists s'. split; [done|]. rewrite Eb in Hb. destruct (write_time_spec s0 _ V_ASN1_GENERALIZEDTIME Hs0 Hp Hl) as [(s'' & E & Hts)|[_ E]]; [|congruence].
      rewrite E in Hb. injection Hb as <-. split; [apply gen_reads_as; done || lia|]. by destruct Hts.
    + right. split; [done|]. left. destruct Hb as [Hb|(s0 & Hs0 & Hb)]; [by left|right]. rewrite Eb in Hb.
      destruct (write_time_spec s0 _ V_ASN1_GENERALIZEDTIME Hs0 Hp Hl) as [(s'' & E & Hts)|[E _]]; [congruence|done].
Qed.
End Writing.

(** ** BoringSSL: converting and comparing ASN.1 times

    [ASN1_STRING_set] and the bounded copies [OPENSSL_strlcpy] and
    [OPENSSL_strlcat]; [ASN1_TIME_to_generalizedtime] keeps the time, and the
    differences of two times are those of their seconds. *)

(** ** Bounded copies *)

Lemma strlcpy_loop_spec src rest : plain src -> forall fuel pre tail sp size l,
  Z.of_nat (length src) < size -> (length src < length tail)%nat -> (length src < fuel)%nat ->
  strlcpy_loop fuel (pre ++ tail) (Z.of_nat (length pre)) (sp ++ src ++ 0 :: rest) (Z.of_nat (length sp)) size l
  = Some (l + Z.of_nat (length src), pre ++ src ++ 0 :: drop (S (length src)) tail).
Proof.
  induction 1 as [|x src [_ Hx] Hp IH]; intros fuel pre tail sp size l Hs Ht Hf; cbn [length] in *;
    (destruct fuel as [|fuel]; [lia|]); (destruct tail as [|y tail]; [cbn in Ht; lia|]); cbn [strlcpy_loop app].
  - rewrite rd_app, Nat2Z.id, drop_app_length. assert (exists c, (if 1 <? size then Some 0 else Some 0) = Some c /\ c = 0) as (c & -> & ->) by (exists 0; by destruct (1 <? size)).
    cbn [mbind option_bind]. rewrite andb_false_r, (proj2 (Z.eqb_neq size 0)) by lia. unfold wr.
    rewrite (wrs_mid pre [y] tail [0] _ eq_refl eq_refl : wrs (pre ++ y :: tail) _ [0] = _). cbn [mbind option_bind c_str Z.eqb app length drop]. do 2 f_equal; lia.
  - rewrite (proj2 (Z.ltb_lt 1 size)), rd_app by lia. cbn [mbind option_bind andb]. rewrite (proj2 (Z.eqb_neq x 0)) by done. cbn [negb]. unfold wr.
    rewrite (wrs_mid pre [y] tail [x] _ eq_refl eq_refl : wrs (pre ++ y :: tail) _ [x] = _). cbn [mbind option_bind app].
    specialize (IH fuel (pre ++ [x]) tail (sp ++ [x]) (size - 1) (l + 1) ltac:(lia) ltac:(cbn in Ht; lia) ltac:(lia)).
    rewrite !length_app, <- !app_assoc in IH. cbn [length app] in IH. rewrite !Nat2Z.inj_add in IH. change (Z.of_nat 1) with 1 in IH.
    rewrite IH. cbn [drop app]. do 2 f_equal. lia.
Qed.

Lemma strlcpy_spec src rest pre tail size : plain src -> Z.of_nat (length src) < size -> (length src < length tail)%nat ->
  OPENSSL_strlcpy (pre ++ tail) (Z.of_nat (length pre)) (src ++ 0 :: rest) size
  = Some (Z.of_nat (length src), pre ++ src ++ 0 :: drop (S (length src)) tail).
Proof.
  intros Hp Hs Ht. unfold OPENSSL_strlcpy. rewrite (strlcpy_loop_spec src rest Hp _ pre tail [] size 0); [done|done|done|].
  rewrite length_app. cbn [length]. lia.
Qed.

Lemma strlcat_loop_spec old tail : plain old -> forall fuel pre size l,
  Z.of_nat (length old) < size -> (length old < fuel)%nat ->
  strlcat_loop fuel (pre ++ old ++ 0 :: tail) (Z.of_nat (length pre)) size l
  = Some (Z.of_nat (length pre + length old), size - Z.of_nat (length old), l + Z.of_nat (length old)).
Proof.
  induction 1 as [|x old [_ Hx] Hp IH]; intros fuel pre size l Hs Hf; cbn [length] in *; (destruct fuel as [|fuel]; [lia|]); cbn [strlcat_loop app];
    rewrite (proj2 (Z.ltb_lt 0 size)), rd_app by lia; cbn [mbind option_bind].
  - cbn [Z.eqb]. f_equal. rewrite Nat.add_0_r. f_equal; [f_equal|]; lia.
  - rewrite (proj2 (Z.eqb_neq x 0)) by done. specialize (IH fuel (pre ++ [x]) (size - 1) (l + 1) ltac:(lia) ltac:(lia)).
    rewrite !length_app, <- !app_assoc in IH. cbn [length app] in IH. rewrite !Nat2Z.inj_add in IH. change (Z.of_nat 1) with 1 in IH. rewrite IH.
    f_equal. f_equal; [f_equal|]; lia.
Qed.

(** The text after what the destination holds. *)
Lemma strlcat_spec old tail src rest size : plain old -> plain src ->
  Z.of_nat (length old + length src) < size -> (length src <= length tail)%nat ->
  OPENSSL_strlcat (old ++ 0 :: tail) 0 (src ++ 0 :: rest) size
  = Some (Z.of_nat (length old + length src), old ++ src ++ 0 :: drop (length src) tail).
Proof.
  intros Ho Hp Hs Ht. unfold OPENSSL_strlcat. pose proof (strlcat_loop_spec old tail Ho (Z.to_nat size) [] size 0 ltac:(lia) ltac:(lia)) as H. cbn [app] in H.
  change (Z.of_nat (length [])) with 0 in H. rewrite H. cbn [mbind option_bind].
  change (length [] + length old)%nat with (length old). rewrite strlcpy_spec by (done || cbn [length]; lia). cbn [mbind option_bind fst snd].
  f_equal. f_equal. lia.
Qed.

(** ** Setting a string *)

Section Setting.
Context (malloc : Z -> option (list Z)).
Hypothesis malloc_size : forall n b, malloc n = Some b -> Z.of_nat (length b) = n.

Lemma realloc_size orig n b : 0 <= n -> OPENSSL_realloc malloc orig n = Some b -> Z.of_nat (length b) = n.
Proof.
  intros Hn. unfold OPENSSL_realloc. destruct orig as [old|]; [|apply malloc_size]. destruct (malloc n) as [r|] eqn:Em; [|done]. apply malloc_size in Em.
  cbn [mbind option_bind]. intros E. injection E as <-. rewrite length_app, length_drop, length_take. lia.
Qed.

(** The contents after [ASN1_STRING_set]: [len] bytes of the data and a zero
    byte, or room for them. *)
Definition holds (s : asn1_string) (data : option (list Z)) (len : Z) : Prop :=
  slen s = len /\ exists buf, sdata s = Some buf /\ len < Z.of_nat (length buf) /\
    match data with Some d => exists post, buf = take (Z.to_nat len) d ++ 0 :: post | None => True end.

Lemma string_set_spec str data len : sized str -> 0 <= len < INT_MAX ->
  match data with Some d => len <= Z.of_nat (length d) | None => True end ->
  (exists s, ASN1_STRING_set malloc str data len = Some (true, s) /\ holds s data len /\ stype s = stype str /\ sflags s = sflags str) \/
  malloc (len + 1) = None /\ ASN1_STRING_set malloc str data len = Some (false, str).
Proof.
  intros [Hl Hs] Hlen Hd. unfold INT_MAX in Hlen. unfold ASN1_STRING_set. rewrite (proj2 (Z.ltb_ge len 0)) by lia. cbv zeta.
  assert (forall buf0, len < Z.of_nat (length buf0) -> exists s, match data with
      | None => Some (true, set_len len (set_data (Some buf0) str))
      | Some d => v ← rds d 0 len; buf ← sdata (set_len len (set_data (Some buf0) str)); buf ← wrs buf 0 v; buf ← wr buf len 0;
          Some (true, set_data (Some buf) (set_len len (set_data (Some buf0) str))) end = Some (true, s) /\
    holds s data len /\ stype s = stype str /\ sflags s = sflags str) as Hgo.
  { intros buf0 Hb. unfold holds. destruct data as [d|]; [|eexists; split; [done|]; split; [|done]; split; [done|]; by exists buf0].
    unfold rds. rewrite bool_decide_eq_true_2 by lia. cbn [mbind option_bind set_len set_data sdata]. change (Z.to_nat 0) with 0%nat. rewrite drop_0.
    set (v := take (Z.to_nat len) d). assert (Z.of_nat (length v) = len) as Hv by (unfold v; rewrite length_take; lia). clearbody v.
    assert (exists a y b, buf0 = a ++ y :: b /\ length a = length v) as (a & y & b & -> & Ea).
    { exists (take (length v) buf0). assert (length v < length buf0)%nat by lia. destruct (lookup_lt_is_Some_2 buf0 (length v)) as [y Hy]; [done|].
      exists y, (drop (S (length v)) buf0). split; [by rewrite take_drop_middle|]. rewrite length_take. lia. }
    pose proof (wrs_mid [] a (y :: b) v 0 eq_refl (eq_sym Ea)) as Hw. cbn [app] in Hw. rewrite Hw. cbn [mbind option_bind]. unfold wr.
    rewrite (wrs_mid v [y] b [0] len ltac:(lia) eq_refl : wrs (v ++ y :: b) len [0] = _). cbn [mbind option_bind].
    eexists. split; [done|]. split; [|done]. split; [done|]. eexists. split; [done|]. split; [|by eexists].
    rewrite length_app. cbn [length app]. rewrite <- Hv. lia. }
  destruct ((slen str <=? len) || bool_decide (sdata str = None)) eqn:E.
  - rewrite i32_in by (apply int_bounds; lia). cbn [mbind option_bind].
    assert (match sdata str with None => malloc (len + 1) | Some c => OPENSSL_realloc malloc (Some c) (len + 1) end = OPENSSL_realloc malloc (sdata str) (len + 1)) as -> by (by destruct (sdata str)).
    destruct (OPENSSL_realloc malloc (sdata str) (len + 1)) as [buf|] eqn:Er.
    + left. apply realloc_size in Er; [|lia]. apply Hgo. lia.
    + right. split; [|done]. unfold OPENSSL_realloc in Er. destruct (sdata str); [|done]. by destruct (malloc (len + 1)).
  - left. apply orb_false_iff in E as [E1 E2]. apply Z.leb_gt in E1. apply bool_decide_eq_false in E2. destruct (sdata str) as [buf|] eqn:Eb; [|done].
    destruct (Hgo buf ltac:(lia)) as (s & Hs' & Hr). exists s. split; [|done]. rewrite <- Hs'. destruct str as [sl st sd sf]. cbn in Eb. by subst sd.
Qed.
End Setting.

(** ** Reading a time by the grammar *)

(** The time that a text stands for, in the structure. *)
Definition text_tm (type : Z) (bs : list Z) : option tm :=
  if type =? V_ASN1_UTCTIME then '(vs, z) ← parse_utc bs; t ← zone_apply z (Some (utc_tm vs)); t
  else if type =? V_ASN1_GENERALIZEDTIME then '(vs, _, z) ← parse_gen bs; t ← zone_apply z (Some (gen_tm vs)); t
  else None.

Lemma zone_apply_some z t r : zone_apply z (Some t) = Some r -> exists t', r = Some t'.
Proof.
  unfold zone_apply. destruct (zone_offset_of z =? 0); [intros E; injection E as <-; by eexists|].
  destruct (in_years _ _ _) as [t'|]; cbn; [intros E; injection E as <-; by eexists|done].
Qed.

Lemma time_to_tm_ref now s type bs u : time_string s type bs ->
  match text_tm type bs with
  | Some t => asn1_time_to_tm now (Some s) (Some u) = Done tt (Some t)
  | None => exists st, asn1_time_to_tm now (Some s) (Some u) = Bad st
  end.
Proof.
  intros Hs. pose proof Hs as (Ht & _). unfold asn1_time_to_tm, text_tm. rewrite Ht.
  destruct (type =? V_ASN1_UTCTIME) eqn:E1; [apply Z.eqb_eq in E1 as ->|destruct (type =? V_ASN1_GENERALIZEDTIME) eqn:E2; [apply Z.eqb_eq in E2 as ->|by eexists]].
  - pose proof (utc_to_tm_ref s bs (Some u) Hs) as H. destruct (parse_utc bs) as [[vs z]|]; [|done]. cbn [mbind option_bind] in *.
    change (const (utc_tm vs) <$> Some u) with (Some (utc_tm vs)) in H. destruct (zone_apply z (Some (utc_tm vs))) as [r|] eqn:Ez; [|done].
    by destruct (zone_apply_some _ _ _ Ez) as [t ->].
  - pose proof (gen_to_tm_ref s bs (Some u) Hs) as H. destruct (parse_gen bs) as [[[vs f] z]|]; [|done]. cbn [mbind option_bind] in *.
    change (const (gen_tm vs) <$> Some u) with (Some (gen_tm vs)) in H. destruct (zone_apply z (Some (gen_tm vs))) as [r|] eqn:Ez; [|done].
    by destruct (zone_apply_some _ _ _ Ez) as [t ->].
Qed.

(** Any text that is read has members in range. *)
Lemma zone_apply_ok z t t' : zone_apply z (Some t) = Some (Some t') -> tm_ok t -> tm_ok t'.
Proof.
  unfold zone_apply. destruct (zone_offset_of z =? 0); [intros E; by injection E as <-|]. unfold in_years.
  destruct (OPENSSL_gmtime _) as [r|] eqn:Eg; [|done]. cbn [mbind option_bind].
  destruct ((1900 <=? _) && _) eqn:Ey; [|done]. intros E _. injection E as <-. apply andb_true_iff in Ey as [Ey1 Ey2]. apply Z.leb_le in Ey1, Ey2.
  by destruct (gmtime_ok _ r Eg ltac:(lia)).
Qed.

Lemma stamp_utc_tm vs z : stamp utc_bounds vs z -> tm_ok (utc_tm vs).
Proof. intros (_ & Hv & Hl). apply (utc_fill vs (mk_tm 0 0 0 0 0 0) Hv). cbn in Hl. lia. Qed.

Lemma stamp_gen_tm vs z : stamp gen_bounds vs z -> tm_ok (gen_tm vs).
Proof. intros (_ & Hv & Hl). apply (gen_fill vs (mk_tm 0 0 0 0 0 0) Hv). cbn in Hl. lia. Qed.

Lemma text_tm_ok type bs t : text_tm type bs = Some t -> tm_ok t.
Proof.
  unfold text_tm. destruct (type =? V_ASN1_UTCTIME); [|destruct (type =? V_ASN1_GENERALIZEDTIME); [|done]].
  - destruct (parse_utc bs) as [[vs z]|] eqn:E; [|done]. cbn [mbind option_bind]. destruct (zone_apply _ _) as [r|] eqn:Ez; [|done]. cbn [mbind option_bind]. intros ->.
    apply (zone_apply_ok _ _ _ Ez). apply parse_utc_spec in E as [Hs _]. by eapply stamp_utc_tm.
  - destruct (parse_gen bs) as [[[vs f] z]|] eqn:E; [|done]. cbn [mbind option_bind]. destruct (zone_apply _ _) as [r|] eqn:Ez; [|done]. cbn [mbind option_bind]. intros ->.
    apply (zone_apply_ok _ _ _ Ez). apply parse_gen_spec in E as [[Hs _] _]. by eapply stamp_gen_tm.
Qed.

(** An argument of [ASN1_TIME_diff]: a string, or NULL for [now]. *)
Definition is_time (now : Z) (s : option asn1_string) (r : option tm) : Prop :=
  match s with
  | None => r = OPENSSL_gmtime now /\ match r with Some t => 0 <= tm_year t + 1900 <= 1000000 | None => True end
  | Some s => exists type bs, time_string s type bs /\ r = text_tm type bs
  end.

Lemma is_time_spec now s r u : is_time now s r ->
  match r with
  | Some t => returns_1 (asn1_time_to_tm now s) (Some u) = Some (true, Some t) /\ tm_ok t
  | None => exists st, returns_1 (asn1_time_to_tm now s) (Some u) = Some (false, st)
  end.
Proof.
  destruct s as [s|]; cbn [is_time].
  - intros (type & bs & Hs & ->). pose proof (time_to_tm_ref now s type bs u Hs) as H. unfold returns_1.
    destruct (text_tm type bs) as [t|] eqn:E; [rewrite H; split; [done|by eapply text_tm_ok]|]. destruct H as [st H]. rewrite H. by exists st.
  - intros [-> Hy]. unfold asn1_time_to_tm, returns_1. destruct (OPENSSL_gmtime now) as [t|] eqn:E; [|by eexists]. split; [done|]. by apply (gmtime_ok now t).
Qed.

Lemma time_diff_spec undef now from to rf rt : is_time now from rf -> is_time now to rt ->
  ASN1_TIME_diff undef now from to =
    Some (match rf, rt with
          | Some f, Some t => Some (Z.quot (seconds t - seconds f) SECS_PER_DAY, Z.rem (seconds t - seconds f) SECS_PER_DAY)
          | _, _ => None
          end).
Proof.
  intros Hf Ht. unfold ASN1_TIME_diff. pose proof (is_time_spec now from rf undef Hf) as Sf. pose proof (is_time_spec now to rt undef Ht) as St.
  destruct rf as [f|]; [|destruct Sf as [st Sf]; by rewrite Sf]. destruct Sf as [Sf Of]. rewrite Sf. cbn [mbind option_bind].
  destruct rt as [t|]; [|destruct St as [st St]; by rewrite St]. destruct St as [St Ot]. rewrite St. cbn [mbind option_bind].
  by rewrite gmtime_diff_spec.
Qed.

(** The sign of a difference from its days and its seconds. *)
Lemma diff_sign d : let day := Z.quot d SECS_PER_DAY in let sec := Z.rem d SECS_PER_DAY in
  (if 0 <? day then 1 else if day <? 0 then -1 else if 0 <? sec then 1 else if sec <? 0 then -1 else 0) = Z.sgn d.
Proof.
  cbv zeta. unfold SECS_PER_DAY. change (24 * 60 * 60) with 86400.
  destruct (0 <? Z.quot d 86400) eqn:E1, (Z.quot d 86400 <? 0) eqn:E2, (0 <? Z.rem d 86400) eqn:E3, (Z.rem d 86400 <? 0) eqn:E4; lia.
Qed.

(** Whole days and a rest of the same sign. *)
Lemma day_split d : let day := Z.quot d SECS_PER_DAY in let sec := Z.rem d SECS_PER_DAY in
  d = SECS_PER_DAY * day + sec /\ Z.abs sec < SECS_PER_DAY /\ 0 <= day * sec.
Proof.
  cbv zeta. unfold SECS_PER_DAY. change (24 * 60 * 60) with 86400. split; [lia|]. split; [lia|].
  destruct (decide (0 <= d)); [apply Z.mul_nonneg_nonneg; lia|apply Z.mul_nonpos_nonpos; lia].
Qed.

Lemma cmp_time_t_spec undef s bs t tt : time_string s V_ASN1_UTCTIME bs -> OPENSSL_gmtime t = Some tt -> 0 <= tm_year tt + 1900 <= 1000000 ->
  ASN1_UTCTIME_cmp_time_t undef s t = Some (match text_tm V_ASN1_UTCTIME bs with Some ts => Z.sgn (seconds ts - t) | None => -2 end).
Proof.
  intros Hs Et Hy. unfold ASN1_UTCTIME_cmp_time_t. pose proof (time_to_tm_ref 0 s _ bs undef Hs) as H.
  unfold asn1_time_to_tm in H. pose proof Hs as (Hty & _). rewrite Hty, Z.eqb_refl in H. unfold returns_1.
  destruct (text_tm V_ASN1_UTCTIME bs) as [ts|] eqn:E; [|destruct H as [st H]; by rewrite H]. rewrite H, Et. cbn [mbind option_bind].
  destruct (gmtime_ok t tt Et Hy) as (Hok & _ & _ & Es). rewrite gmtime_diff_spec by (done || by eapply text_tm_ok). cbn [mbind option_bind].
  f_equal. rewrite Es. apply diff_sign.
Qed.

(** ** [ASN1_TIME_to_generalizedtime] *)

Section Conversion.
Context (malloc : Z -> option (list Z)).
Hypothesis malloc_size : forall n b, malloc n = Some b -> Z.of_nat (length b) = n.

(** The century in front of a UTCTime makes the GeneralizedTime of the same fields. *)
Definition century (v : Z) : Z := if 50 <=? v then 19 else 20.

Lemma century_stamp v vs z : stamp utc_bounds (v :: vs) z ->
  gen_stamp (century v :: v :: vs) [] z /\ gen_tm (century v :: v :: vs) = utc_tm (v :: vs).
Proof.
  intros (Hz & Hv & Hl). split.
  - split; [|split; [constructor|done]]. split; [done|]. split; [|destruct Hl as [Hl|[Hl Hn]]; [left|right; split; [|done]]; cbn [length] in *; cbn in Hl |- *; lia].
    change (take (length (century v :: v :: vs)) gen_bounds) with ((0, 99) :: take (length (v :: vs)) utc_bounds). apply Forall2_cons. split; [|done].
    unfold within, century. cbn. destruct (50 <=? v); lia.
  - cbn [length] in Hl. change (length utc_bounds) with 6%nat in Hl. assert (length vs = 5 \/ length vs = 4)%nat as Hl' by lia.
    destruct vs as [|v1 [|v2 [|v3 [|v4 [|v5 [|v6 vs]]]]]]; try (cbn in Hl'; lia);
    rewrite ?(proj1 (gen_tm_fields _ _ _ _ _ _ _)), ?(proj2 (gen_tm_fields _ _ _ _ _ _ 0)), ?(proj1 (utc_tm_fields _ _ _ _ _ _)), ?(proj2 (utc_tm_fields _ _ _ _ _ 0));
    f_equal; unfold century; destruct (50 <=? v) eqn:E1, (v <? 50) eqn:E2; lia.
Qed.

Definition generalized (type : Z) (bs : list Z) : list Z :=
  if type =? V_ASN1_GENERALIZEDTIME then bs
  else match parse_utc bs with Some (v :: _, _) => two (century v) ++ bs | _ => bs end.

Lemma generalized_utc bs vs z : parse_utc bs = Some (vs, z) ->
  parse_gen (generalized V_ASN1_UTCTIME bs) = Some (hd 0 (map century vs) :: vs, [], z) /\ gen_tm (hd 0 (map century vs) :: vs) = utc_tm vs.
Proof.
  intros Ep. unfold generalized. change (V_ASN1_UTCTIME =? V_ASN1_GENERALIZEDTIME) with false. cbn iota. rewrite Ep. apply parse_utc_spec in Ep as [Hs ->].
  destruct vs as [|v vs]; [destruct Hs as (_ & _ & [H|[H _]]); by cbn in H|]. destruct (century_stamp v vs z Hs) as [Hg Et]. split; [|done].
  apply parse_gen_spec. split; [done|]. cbn [hd map]. change (fields_text (century v :: v :: vs)) with (two (century v) ++ fields_text (v :: vs)).
  cbn [fraction_text app]. by rewrite <- app_assoc.
Qed.

(** The texts that [ASN1_TIME_check] accepts: it does not apply the offset. *)
Definition accepts (type : Z) (bs : list Z) : bool :=
  if type =? V_ASN1_GENERALIZEDTIME then bool_decide (is_Some (parse_gen bs))
  else if type =? V_ASN1_UTCTIME then bool_decide (is_Some (parse_utc bs)) else false.

Lemma time_check_spec t type bs : time_string t type bs -> ASN1_TIME_check t = Some (accepts type bs).
Proof.
  intros Hs. pose proof Hs as (Ht & _). unfold ASN1_TIME_check, accepts. rewrite Ht.
  destruct (type =? V_ASN1_GENERALIZEDTIME) eqn:E2; [apply Z.eqb_eq in E2 as ->|destruct (type =? V_ASN1_UTCTIME) eqn:E1; [apply Z.eqb_eq in E1 as ->|done]].
  - unfold ASN1_GENERALIZEDTIME_check, returns_1. pose proof (gen_to_tm_ref t bs None Hs) as H. destruct (parse_gen bs) as [[[vs f] z]|].
    + cbn in H. by rewrite H.
    + destruct H as [st H]. by rewrite H.
  - unfold ASN1_UTCTIME_check, returns_1. pose proof (utc_to_tm_ref t bs None Hs) as H. destruct (parse_utc bs) as [[vs z]|].
    + cbn in H. by rewrite H.
    + destruct H as [st H]. by rewrite H.
Qed.

Lemma accepts_utc bs : accepts V_ASN1_UTCTIME bs = true -> exists vs z, parse_utc bs = Some (vs, z).
Proof. unfold accepts. cbn. intros H. apply bool_decide_eq_true in H as [[vs z] H]. by exists vs, z. Qed.

Lemma generalized_text type bs : accepts type bs = true -> text_tm V_ASN1_GENERALIZEDTIME (generalized type bs) = text_tm type bs.
Proof.
  intros Ha. destruct (decide (type = V_ASN1_GENERALIZEDTIME)) as [->|Hg]; [done|].
  destruct (decide (type = V_ASN1_UTCTIME)) as [->|Hu]; [|unfold accepts in Ha; by rewrite !(proj2 (Z.eqb_neq type _)) in Ha].
  destruct (accepts_utc bs Ha) as (vs & z & Ep). unfold text_tm.
  destruct (generalized_utc bs vs z Ep) as [Eg Et].
  change (V_ASN1_GENERALIZEDTIME =? V_ASN1_UTCTIME) with false. change (V_ASN1_GENERALIZEDTIME =? V_ASN1_GENERALIZEDTIME) with true.
  change (V_ASN1_UTCTIME =? V_ASN1_UTCTIME) with true. cbn iota. rewrite Eg, Ep. cbn [mbind option_bind]. by rewrite Et.
Qed.

Lemma generalized_accepted type bs : accepts type bs = true -> accepts V_ASN1_GENERALIZEDTIME (generalized type bs) = true.
Proof.
  intros Ha. destruct (decide (type = V_ASN1_GENERALIZEDTIME)) as [->|Hg]; [done|].
  destruct (decide (type = V_ASN1_UTCTIME)) as [->|Hu]; [|unfold accepts in Ha; by rewrite !(proj2 (Z.eqb_neq type _)) in Ha].
  destruct (accepts_utc bs Ha) as (vs & z & Ep). destruct (generalized_utc bs vs z Ep) as [Eg _]. unfold accepts. rewrite Z.eqb_refl.
  apply bool_decide_eq_true. rewrite Eg. by eexists.
Qed.

(** The copy of a GeneralizedTime and the text made of a UTCTime. *)
Lemma copied_time t bs ret : time_string t V_ASN1_GENERALIZEDTIME bs -> sized ret -> stype ret = V_ASN1_GENERALIZEDTIME -> Z.of_nat (length bs) + 3 < INT_MAX ->
  (exists g, ASN1_STRING_set malloc ret (sdata t) (slen t) = Some (true, g) /\ time_string g V_ASN1_GENERALIZEDTIME bs) \/
  malloc (slen t + 1) = None /\ ASN1_STRING_set malloc ret (sdata t) (slen t) = Some (false, ret).
Proof.
  intros (Ht & El & Hb & post & Ed) Hs Hr Hl.
  destruct (string_set_spec malloc malloc_size ret (sdata t) (slen t) Hs ltac:(lia)) as [(g & Eg & [Hg (buf & Hbuf & _ & Hp)] & Hty & _)|H]; [rewrite Ed, length_app; lia| |by right].
  left. exists g. split; [done|]. rewrite Ed in Hp. destruct Hp as [p ->]. split; [congruence|]. split; [congruence|]. split; [done|].
  exists p. by rewrite Hbuf, El, Nat2Z.id, take_app_length.
Qed.

Lemma zone_plain bs vs z : parse_utc bs = Some (vs, z) -> plain bs.
Proof.
  intros Ep. apply parse_utc_spec in Ep as [Hs ->]. apply (stamp_plain utc_bounds); [repeat constructor; cbn; lia|done].
Qed.

Lemma utc_first bs v vs z : parse_utc bs = Some (v :: vs, z) -> exists r, bs = (48 + v / 10) :: r /\ (53 <=? 48 + v / 10) = (50 <=? v).
Proof.
  intros Ep. apply parse_utc_spec in Ep as [_ ->]. change (fields_text (v :: vs)) with (two v ++ fields_text vs). unfold two. cbn [app]. eexists. split; [done|].
  destruct (50 <=? v) eqn:E; lia.
Qed.

Lemma grown_time t bs ret : time_string t V_ASN1_UTCTIME bs -> accepts V_ASN1_UTCTIME bs = true -> sized ret -> stype ret = V_ASN1_GENERALIZEDTIME ->
  Z.of_nat (length bs) + 3 < INT_MAX ->
  (exists g s r, ASN1_STRING_set malloc ret None (slen t + 2) = Some (true, s) /\
     (str ← sdata s; data ← sdata t; c ← rd data 0;
      r ← OPENSSL_strlcpy str 0 (if 53 <=? c then [49; 57; 0] else [50; 48; 0]) (slen t + 2 + 1); OPENSSL_strlcat r.2 0 data (slen t + 2 + 1)) = Some r /\
     g = set_data (Some r.2) s /\ time_string g V_ASN1_GENERALIZEDTIME (generalized V_ASN1_UTCTIME bs)) \/
  malloc (slen t + 2 + 1) = None /\ ASN1_STRING_set malloc ret None (slen t + 2) = Some (false, ret).
Proof.
  intros (Ht & El & Hb & post & Ed) Ha Hs Hr Hl. destruct (accepts_utc bs Ha) as (vs & z & Ep). pose proof (zone_plain bs vs z Ep) as Hp.
  destruct (string_set_spec malloc malloc_size ret None (slen t + 2) Hs ltac:(lia) I) as [(s & Es & [Hg (buf & Hbuf & Hlen & _)] & Hty & _)|H]; [|by right].
  left. destruct (generalized_utc bs vs z Ep) as [Hgen _]. destruct vs as [|v vs].
  { apply parse_utc_spec in Ep as [(_ & _ & [H|[H _]]) _]; by cbn in H. }
  destruct (utc_first bs v vs z Ep) as (r & Er & Hc). eexists _, s, _. split; [done|]. rewrite Hbuf, Ed. cbn [mbind option_bind].
  assert (rd (bs ++ 0 :: post) 0 = Some (48 + v / 10)) as -> by (rewrite Er; done). cbn [mbind option_bind]. rewrite Hc.
  assert ((if 50 <=? v then [49; 57; 0] else [50; 48; 0]) = two (century v) ++ 0 :: []) as -> by (unfold century; by destruct (50 <=? v)).
  assert (plain (two (century v))) as Hpc by (unfold century; destruct (50 <=? v); repeat constructor; unfold in_u; cbn; lia).
  pose proof (strlcpy_spec (two (century v)) [] [] buf (slen t + 2 + 1) Hpc) as Hcpy. cbn [app] in Hcpy. change (Z.of_nat (length [])) with 0 in Hcpy.
  change (length (two (century v))) with 2%nat in Hcpy. rewrite Hcpy by lia. cbn [mbind option_bind snd].
  pose proof (strlcat_spec (two (century v)) (drop 3 buf) bs post (slen t + 2 + 1) Hpc Hp) as Hcat. change (length (two (century v))) with 2%nat in Hcat.
  rewrite Hcat by (rewrite ?length_drop; lia).
  split; [done|]. split; [done|]. cbn [snd].
  assert (generalized V_ASN1_UTCTIME bs = two (century v) ++ bs) as -> by (unfold generalized; by rewrite Ep).
  split; [cbn; congruence|]. split; [cbn [set_data slen]; rewrite Hg, El, length_app; cbn [two length]; lia|].
  split; [apply Forall_app; split; [by apply plain_bytes|done]|]. exists (drop (length bs) (drop 3 buf)). cbn [set_data sdata]. by rewrite <- app_assoc.
Qed.

Definition no_room (t : asn1_string) : Prop := malloc 24 = None \/ malloc (slen t + 1) = None \/ malloc (slen t + 2 + 1) = None.

Lemma to_generalizedtime_spec t type bs out : time_string t type bs -> Z.of_nat (length bs) + 3 < INT_MAX ->
  match out with Some o => sized o /\ stype o = V_ASN1_GENERALIZEDTIME | None => True end ->
  if accepts type bs then
    (exists g, ASN1_TIME_to_generalizedtime malloc t out = Some (true, Some g) /\ time_string g V_ASN1_GENERALIZEDTIME (generalized type bs)) \/
    no_room t /\ ASN1_TIME_to_generalizedtime malloc t out = Some (false, out)
  else ASN1_TIME_to_generalizedtime malloc t out = Some (false, out).
Proof.
  intros Hs Hl Ho. unfold ASN1_TIME_to_generalizedtime, no_room. rewrite (time_check_spec t type bs Hs). cbn [mbind option_bind].
  destruct (accepts type bs) eqn:Ea; [|done]. cbn [negb].
  destruct (match out with None => ASN1_STRING_type_new malloc V_ASN1_GENERALIZEDTIME | Some _ => out end) as [ret|] eqn:Er.
  2: { right. destruct out; [done|]. split; [|done]. left. unfold ASN1_STRING_type_new in Er. by destruct (malloc 24). }
  assert (sized ret /\ stype ret = V_ASN1_GENERALIZEDTIME) as [Hr Hrt].
  { destruct out as [o|]; [by injection Er as <-|]. unfold ASN1_STRING_type_new in Er. destruct (malloc 24); [|done]. by injection Er as <-. }
  assert (Some (false, match out with Some _ => Some ret | None => None end) = Some (false, out)) as Hfail by (destruct out; [by injection Er as <-|done]).
  cbv zeta. pose proof Hs as (Ht & _). rewrite Ht. destruct (type =? V_ASN1_GENERALIZEDTIME) eqn:Eg.
  - apply Z.eqb_eq in Eg as ->. destruct (copied_time t bs ret Hs Hr Hrt Hl) as [(g & E & Hg)|[Hm E]]; rewrite E; cbn [mbind option_bind fst snd]; [left; by exists g|].
    right. split; [by right; left|]. exact Hfail.
  - assert (type = V_ASN1_UTCTIME) as ->.
    { unfold accepts in Ea. rewrite Eg in Ea. destruct (type =? V_ASN1_UTCTIME) eqn:E; [by apply Z.eqb_eq|done]. }
    destruct (grown_time t bs ret Hs Ea Hr Hrt Hl) as [(g & s & r & E & Hrest & -> & Hg)|[Hm E]]; rewrite E; cbn [mbind option_bind negb].
    + left. exists (set_data (Some r.2) s). split; [|done]. destruct (sdata s) as [str|]; [|done]. destruct (sdata t) as [data|]; [|done]. cbn [mbind option_bind] in *.
      destruct (rd data 0) as [c|]; [|done]. cbn [mbind option_bind] in *. destruct (OPENSSL_strlcpy _ _ _ _) as [r'|]; [|done]. cbn [mbind option_bind] in *.
      by rewrite Hrest.
    + right. split; [by right; right|]. exact Hfail.
Qed.
End Conversion.
