(* ===== verification/Asn1Object.v ===== *)
(** * BoringSSL: headers of ASN.1 elements ([asn1_lib.c])

    [ASN1_get_object], [ASN1_put_object] and [ASN1_object_size], with the
    grammar of the headers that are accepted.  The input is the list of bytes
    from [*pp] on; the output is a position in an array. *)
From S2P Require Import Prelude CBuf CMem Cbs CbsSpec.

#[local] Ltac Zify.zify_post_hook ::= Z.to_euclidean_division_equations.

Definition V_ASN1_UNIVERSAL := 0x00.
Definition V_ASN1_PRIVATE := 0xc0.
Definition V_ASN1_CONSTRUCTED := 0x20.
Definition V_ASN1_PRIMITIVE_TAG := 0x1f.
Definition V_ASN1_MAX_UNIVERSAL := 0xff.

(** ** Reading *)

(** What the call leaves: the return value, how far [*pp] moved, and the
    outputs that were set. *)
Record got : Type := mk_got { got_ret : Z; got_pos : Z; got_tag : option (Z * Z); got_length : option Z }.

(** The bytes with their top bit set; the inner [None] is the jump to [err]. *)
Fixpoint tag_loop (fuel : nat) (bs : list Z) (p max l : Z) : option (option (Z * Z * Z)) :=
  match fuel with
  | O => None
  | S fuel' =>
      b ← rd bs p;
      if negb (Z.land b 0x80 =? 0) then
        l ← i64 (Z.shiftl l 7);
        let l := Z.lor l (Z.land b 0x7f) in
        max ← i64 (max - 1);
        if max =? 0 then Some None
        else if Z.shiftr INT_MAX 7 <? l then Some None
        else tag_loop fuel' bs (p + 1) max l
      else Some (Some (p, max, l))
  end.

Fixpoint length_loop (i : nat) (bs : list Z) (p ret : Z) : option (Z * Z) :=
  match i with
  | O => Some (p, ret)
  | S i' => b ← rd bs p; length_loop i' bs (p + 1) (Z.lor (u64 (Z.shiftl ret 8)) b)
  end.

Definition asn1_get_length (bs : list Z) (p max : Z) : option (option (Z * Z)) :=
  max' ← i64 (max - 1);
  if max <? 1 then Some None
  else
    b ← rd bs p;
    if b =? 0x80 then Some None
    else
      let i := Z.land b 0x7f in
      r ← (if negb (Z.land b 0x80 =? 0) then
             if (8 <? i) || (max' <? i) then Some None
             else r ← length_loop (Z.to_nat i) bs (p + 1) 0; Some (Some r)
           else Some (Some (p + 1, i)));
      Some (match r with
            | None => None
            | Some (p, ret) => if INT_MAX / 2 <? ret then None else Some (p, ret)
            end).

Definition ASN1_get_object (bs : list Z) (omax : Z) : option got :=
  let err := Some (mk_got 0x80 0 None None) in
  if omax =? 0 then err
  else
    b ← rd bs 0;
    let ret := Z.land b V_ASN1_CONSTRUCTED in
    let xclass := Z.land b V_ASN1_PRIVATE in
    let i := Z.land b V_ASN1_PRIMITIVE_TAG in
    max ← i64 (omax - 1);
    if max =? 0 then err
    else
      t ← (if i =? V_ASN1_PRIMITIVE_TAG then
             r ← tag_loop (S (length bs)) bs 1 max 0;
             match r with
             | None => Some None
             | Some (p, max, l) =>
                 b ← rd bs p;
                 l ← i64 (Z.shiftl l 7);
                 let l := Z.lor l (Z.land b 0x7f) in
                 max ← i64 (max - 1);
                 Some (if max =? 0 then None else Some (p + 1, max, s32 l))
             end
           else Some (Some (1, max, i)));
      match t with
      | None => err
      | Some (p, max, tag) =>
          if (xclass =? V_ASN1_UNIVERSAL) && (V_ASN1_MAX_UNIVERSAL <? tag) then err
          else
            r ← asn1_get_length bs p max;
            match r with
            | None => Some (mk_got 0x80 0 (Some (tag, xclass)) None)
            | Some (p, len) =>
                room ← i64 (omax - p);
                if room <? len then Some (mk_got 0x80 0 (Some (tag, xclass)) (Some len))
                else Some (mk_got ret p (Some (tag, xclass)) (Some len))
            end
      end.

(** ** Writing *)

(** [for (i = n; l > 0; i++) l >>= s;] *)
Fixpoint count_loop (fuel : nat) (s l n : Z) : option Z :=
  match fuel with
  | O => None
  | S fuel' => if 0 <? l then count_loop fuel' s (Z.shiftr l s) (n + 1) else Some n
  end.

(** The groups of seven bits, from the last one. *)
Fixpoint put_tag_loop (i : nat) (last : Z) (out : list Z) (p tag : Z) : option (list Z) :=
  match i with
  | O => Some out
  | S i' =>
      let b := Z.land tag 0x7f in
      out ← wr out (p + Z.of_nat i') (if Z.of_nat i' =? last then b else Z.lor b 0x80);
      put_tag_loop i' last out p (Z.shiftr tag 7)
  end.

Fixpoint put_length_loop (i : nat) (out : list Z) (p len : Z) : option (list Z) :=
  match i with
  | O => Some out
  | S i' => out ← wr out (p + Z.of_nat i') (Z.land len 0xff); put_length_loop i' out p (Z.shiftr len 8)
  end.

Definition asn1_put_length (out : list Z) (p len : Z) : option (list Z * Z) :=
  if len <=? 127 then out ← wr out p (u8 len); Some (out, p + 1)
  else
    i ← count_loop 32 8 len 0;
    out ← wr out p (u8 (Z.lor i 0x80));
    out ← put_length_loop (Z.to_nat i) out (p + 1) len;
    Some (out, p + 1 + i).

Definition ASN1_put_object (out : list Z) (p constructed len tag xclass : Z) : option (list Z * Z) :=
  let i := Z.lor (if constructed =? 0 then 0 else V_ASN1_CONSTRUCTED) (Z.land xclass V_ASN1_PRIVATE) in
  r ← (if tag <? 31 then out ← wr out p (u8 (Z.lor i (Z.land tag V_ASN1_PRIMITIVE_TAG))); Some (out, p + 1)
       else
         out ← wr out p (u8 (Z.lor i V_ASN1_PRIMITIVE_TAG));
         ttag ← count_loop 32 7 tag 0;
         out ← put_tag_loop (Z.to_nat ttag) (ttag - 1) out (p + 1) tag;
         Some (out, p + 1 + ttag));
  let '(out, p) := r in
  if constructed =? 2 then out ← wr out p 0x80; Some (out, p + 1) else asn1_put_length out p len.

Definition ASN1_put_eoc (out : list Z) (p : Z) : option (Z * (list Z * Z)) :=
  out ← wr out p 0;
  out ← wr out (p + 1) 0;
  Some (2, (out, p + 2)).

Definition ASN1_object_size (constructed len tag : Z) : option Z :=
  if len <? 0 then Some (-1)
  else
    ret ← (if 31 <=? tag then count_loop 32 7 tag 1 else Some 1);
    ret ← (if constructed =? 2 then Some (ret + 3)
           else if 127 <? len then count_loop 32 8 len (ret + 1) else Some (ret + 1));
    room ← i32 (INT_MAX - len);
    Some (if room <=? ret then -1 else ret + len).

(** ** The grammar *)

(** Groups of seven bits; only the last has its top bit clear. *)
Definition group_val (gs : list Z) : Z := foldl (fun l b => l * 128 + b mod 128) 0 gs.

Definition high_tag (gs : list Z) : Prop := exists front b, gs = front ++ [b] /\ Forall (fun x => 128 <= x) front /\ b < 128.

(** Identifier octets: the class and the constructed bit on top of the tag. *)
Inductive identifier : list Z -> Z -> Z -> Prop :=
| Low_tag b : b mod 32 <> 31 -> identifier [b] (b / 32 * 32) (b mod 32)
| High_tag b gs : b mod 32 = 31 -> high_tag gs -> identifier (b :: gs) (b / 32 * 32) (group_val gs).

(** Length octets, not necessarily the shortest; the indefinite form is none. *)
Inductive length_octets : list Z -> Z -> Prop :=
| Short_length n : n < 128 -> length_octets [n] n
| Long_length k ds : 1 <= k <= 8 -> Z.of_nat (length ds) = k -> length_octets ((128 + k) :: ds) (be_val ds).

(** ** Reading follows the grammar *)

Fixpoint tag_ref (l : Z) (bs : list Z) : option (Z * list Z) :=
  match bs with
  | [] => None
  | b :: r =>
      let v := l * 128 + b mod 128 in
      if bool_decide (r = []) then None
      else if 128 <=? b then if 2 ^ 24 - 1 <? v then None else tag_ref v r
      else Some (v, r)
  end.

Definition groups_val (l : Z) (gs : list Z) : Z := foldl (fun l b => l * 128 + b mod 128) l gs.

Lemma groups_val_cons l b gs : groups_val l (b :: gs) = groups_val (l * 128 + b mod 128) gs.
Proof. done. Qed.

Lemma groups_val_ge l gs : 0 <= l -> gs <> [] -> l * 128 <= groups_val l gs.
Proof.
  revert l. induction gs as [|b gs IH]; intros l Hl Hn; [done|]. rewrite groups_val_cons. destruct gs as [|c gs].
  - unfold groups_val. cbn. lia.
  - specialize (IH (l * 128 + b mod 128) ltac:(lia) ltac:(done)). lia.
Qed.

Lemma high_tag_cons x gs : high_tag (x :: gs) <-> if 128 <=? x then high_tag gs else gs = [].
Proof.
  unfold high_tag. split.
  - intros (front & b & E & Hf & Hb). destruct front as [|y front]; cbn [app] in E; injection E as -> ->.
    + by rewrite (proj2 (Z.leb_gt 128 b)).
    + apply Forall_cons in Hf as [Hy Hf]. rewrite (proj2 (Z.leb_le 128 y)) by done. by exists front, b.
  - destruct (128 <=? x) eqn:E; [apply Z.leb_le in E|apply Z.leb_gt in E].
    + intros (front & b & -> & Hf & Hb). exists (x :: front), b. split; [done|]. split; [by constructor|done].
    + intros ->. exists [], x. split; [done|]. split; [constructor|done].
Qed.

Lemma high_tag_nil : ~ high_tag [].
Proof. intros (front & b & E & _). by destruct front. Qed.

Lemma tag_ref_spec bs l v r : 0 <= l < 2 ^ 24 ->
  tag_ref l bs = Some (v, r) <-> exists gs, bs = gs ++ r /\ r <> [] /\ high_tag gs /\ v = groups_val l gs /\ v <= INT_MAX.
Proof.
  revert l. induction bs as [|b bs IH]; intros l Hl; cbn [tag_ref].
  { split; [done|]. intros (gs & E & Hr & _). symmetry in E. by apply app_eq_nil in E as [_ ->]. }
  case_bool_decide as Hn.
  { subst bs. split; [done|]. intros (gs & E & Hr & Hg & _). destruct gs as [|x gs]; [by apply high_tag_nil in Hg|].
    cbn [app] in E. injection E as _ E. symmetry in E. by apply app_eq_nil in E as [_ ->]. }
  destruct (128 <=? b) eqn:Eb; [|split].
  - destruct (2 ^ 24 - 1 <? l * 128 + b mod 128) eqn:Ev; [apply Z.ltb_lt in Ev|apply Z.ltb_ge in Ev].
    + split; [done|]. intros (gs & E & Hr & Hg & Hv & Hmax). destruct gs as [|x gs]; [by apply high_tag_nil in Hg|]. cbn [app] in E. injection E as -> ->.
      apply high_tag_cons in Hg. rewrite Eb in Hg. assert (gs <> []) as Hne by (intros ->; by apply high_tag_nil in Hg).
      rewrite groups_val_cons in Hv. pose proof (groups_val_ge (l * 128 + x mod 128) gs ltac:(lia) Hne). unfold INT_MAX in Hmax. lia.
    + rewrite IH by lia. split.
      * intros (gs & -> & Hr & Hg & Hv). exists (b :: gs). split; [done|]. split; [done|]. split; [apply high_tag_cons; by rewrite Eb|done].
      * intros (gs & E & Hr & Hg & Hv). destruct gs as [|x gs]; [by apply high_tag_nil in Hg|]. cbn [app] in E. injection E as -> ->.
        apply high_tag_cons in Hg. rewrite Eb in Hg. by exists gs.
  - intros E. injection E as <- <-. exists [b]. split; [done|]. split; [done|]. split; [apply high_tag_cons; by rewrite Eb|].
    split; [done|]. unfold INT_MAX. lia.
  - intros (gs & E & Hr & Hg & Hv & _). destruct gs as [|x gs]; [by apply high_tag_nil in Hg|]. cbn [app] in E. injection E as -> ->.
    apply high_tag_cons in Hg. rewrite Eb in Hg. subst gs. by rewrite Hv.
Qed.

Lemma land_80_top b : in_u 8 b -> negb (Z.land b 0x80 =? 0) = (128 <=? b).
Proof. intros Hb. unfold in_u in Hb. by_byte b. Qed.

Lemma join_group l b : 0 <= l -> in_u 8 b -> Z.lor (Z.shiftl l 7) (Z.land b 0x7f) = l * 128 + b mod 128.
Proof.
  intros Hl Hb. change 0x7f with (2 ^ 7 - 1). rewrite land_ones_mod by lia. rewrite Z.lor_comm, lor_shiftl_add by lia. change (2 ^ 7) with 128. lia.
Qed.

(** The loop and the last group. *)
Lemma tag_loop_ref rest : bytes rest -> rest <> [] -> forall pre l fuel, 0 <= l < 2 ^ 24 -> (length rest < fuel)%nat -> Z.of_nat (length rest) < 2 ^ 62 ->
  (r ← tag_loop fuel (pre ++ rest) (Z.of_nat (length pre)) (Z.of_nat (length rest)) l;
   match r with
   | None => Some None
   | Some (p, max, l) =>
       b ← rd (pre ++ rest) p;
       l ← i64 (Z.shiftl l 7);
       let l := Z.lor l (Z.land b 0x7f) in
       max ← i64 (max - 1);
       Some (if max =? 0 then None else Some (p + 1, max, s32 l))
   end) =
  Some (match tag_ref l rest with Some (v, r) => Some (Z.of_nat (length (pre ++ rest)) - Z.of_nat (length r), Z.of_nat (length r), v) | None => None end).
Proof.
  induction 1 as [|b rest Hb Hbs IH]; intros Hne pre l fuel Hl Hf Hz; [done|]. clear Hne. cbn [length] in *. destruct fuel as [|fuel]; [lia|]. cbn [tag_loop tag_ref].
  rewrite rd_app. cbn [mbind option_bind]. rewrite land_80_top by done.
  assert (i64 (Z.shiftl l 7) = Some (Z.shiftl l 7)) as Ei by (apply i64_in, long_bounds; rewrite Z.shiftl_mul_pow2 by lia; lia).
  assert (i64 (Z.of_nat (S (length rest)) - 1) = Some (Z.of_nat (length rest))) as Em by (replace (Z.of_nat (S (length rest)) - 1) with (Z.of_nat (length rest)) by lia; apply i64_in, long_bounds; lia).
  assert (bool_decide (rest = []) = (Z.of_nat (length rest) =? 0)) as -> by (destruct rest; [done|cbn [length]; rewrite bool_decide_eq_false_2 by done; symmetry; apply Z.eqb_neq; lia]).
  destruct (128 <=? b) eqn:Eb.
  - rewrite Ei, Em. cbn [mbind option_bind]. destruct (Z.of_nat (length rest) =? 0) eqn:E0; [done|]. rewrite join_group by (done || lia).
    change (Z.shiftr INT_MAX 7) with (2 ^ 24 - 1). destruct (2 ^ 24 - 1 <? l * 128 + b mod 128) eqn:Ev; [done|]. apply Z.ltb_ge in Ev.
    assert (rest <> []) as Hne by (intros ->; done).
    specialize (IH Hne (pre ++ [b]) (l * 128 + b mod 128) fuel ltac:(lia) ltac:(lia) ltac:(lia)).
    rewrite <- !app_assoc in IH. cbn [app] in IH. rewrite length_app in IH. cbn [length] in IH.
    replace (Z.of_nat (length pre + 1)) with (Z.of_nat (length pre) + 1) in IH by lia. exact IH.
  - cbn [mbind option_bind]. rewrite rd_app. cbn [mbind option_bind]. rewrite Ei, Em. cbn [mbind option_bind].
    destruct (Z.of_nat (length rest) =? 0) eqn:E0; [done|]. rewrite join_group by (done || lia).
    rewrite (wraps_id 32 (l * 128 + b mod 128)) by (unfold in_s; lia). rewrite length_app. cbn [length]. do 4 f_equal. lia.
Qed.

(** ** The length *)

Definition len_ref (bs : list Z) : option (Z * list Z) :=
  match bs with
  | [] => None
  | b :: r =>
      if b <? 128 then Some (b, r)
      else
        let k := Z.to_nat (b - 128) in
        if (b =? 128) || (8 <? b - 128) || (Z.of_nat (length r) <? b - 128) then None
        else if INT_MAX / 2 <? be_val (take k r) then None
        else Some (be_val (take k r), drop k r)
  end.

Lemma len_ref_spec bs n r : bytes bs ->
  len_ref bs = Some (n, r) <-> exists ls, bs = ls ++ r /\ length_octets ls n /\ n <= INT_MAX / 2.
Proof.
  intros Hb. destruct bs as [|b bs]; cbn [len_ref].
  { split; [done|]. intros (ls & E & Hl & _). symmetry in E. apply app_eq_nil in E as [-> _]. inversion Hl. }
  apply Forall_cons in Hb as [Hb Hbs]. unfold in_u in Hb. destruct (b <? 128) eqn:E1; [apply Z.ltb_lt in E1|apply Z.ltb_ge in E1].
  - split.
    + intros E. injection E as <- <-. exists [b]. split; [done|]. split; [by constructor|]. unfold INT_MAX. lia.
    + intros (ls & E & Hl & _). destruct Hl as [m Hm|k ds Hk Hds]; cbn [app] in E; injection E as -> ->; [done|lia].
  - cbv zeta. destruct ((b =? 128) || (8 <? b - 128) || (Z.of_nat (length bs) <? b - 128)) eqn:E2.
    + split; [done|]. intros (ls & E & Hl & _). destruct Hl as [m Hm|k ds Hk Hds]; cbn [app] in E; injection E as -> ->; [lia|].
      rewrite length_app in E2. exfalso. apply orb_true_iff in E2 as [E2|E2]; [apply orb_true_iff in E2 as [E2|E2]|]; [apply Z.eqb_eq in E2|apply Z.ltb_lt in E2..]; lia.
    + apply orb_false_iff in E2 as [E2 E3]. apply orb_false_iff in E2 as [E2 E4]. apply Z.eqb_neq in E2. apply Z.ltb_ge in E3, E4. split.
      * destruct (INT_MAX / 2 <? _) eqn:E5; [done|]. apply Z.ltb_ge in E5. intros E. injection E as <- <-.
        exists ((128 + (b - 128)) :: take (Z.to_nat (b - 128)) bs). split; [cbn [app]; rewrite take_drop; f_equal; lia|]. split; [|done].
        constructor; [lia|]. rewrite length_take. lia.
      * intros (ls & E & Hl & Hn). destruct Hl as [m Hm|k ds Hk Hds]; cbn [app] in E; injection E as -> ->; [lia|].
        replace (Z.to_nat (128 + k - 128)) with (length ds) by lia. rewrite take_app_length, drop_app_length.
        by rewrite (proj2 (Z.ltb_ge _ _)).
Qed.

Lemma length_loop_spec ds : forall pre rest ret,
  length_loop (length ds) (pre ++ ds ++ rest) (Z.of_nat (length pre)) ret
  = Some (Z.of_nat (length pre + length ds), foldl (fun result b => Z.lor (u64 (Z.shiftl result 8)) b) ret ds).
Proof.
  induction ds as [|d ds IH]; intros pre rest ret; cbn [length length_loop foldl app]; [by rewrite Nat.add_0_r|].
  rewrite rd_app. cbn [mbind option_bind]. specialize (IH (pre ++ [d]) rest (Z.lor (u64 (Z.shiftl ret 8)) d)).
  rewrite <- app_assoc in IH. cbn [app] in IH. rewrite length_app in IH. cbn [length] in IH.
  replace (Z.of_nat (length pre + 1)) with (Z.of_nat (length pre) + 1) in IH by lia. rewrite IH. do 2 f_equal. lia.
Qed.

Lemma get_length_ref pre rest : bytes rest -> Z.of_nat (length rest) < 2 ^ 62 ->
  asn1_get_length (pre ++ rest) (Z.of_nat (length pre)) (Z.of_nat (length rest))
  = Some (match len_ref rest with Some (n, r) => Some (Z.of_nat (length (pre ++ rest)) - Z.of_nat (length r), n) | None => None end).
Proof.
  intros Hb Hz. unfold asn1_get_length. rewrite i64_in by (apply long_bounds; lia). cbn [mbind option_bind].
  destruct rest as [|b rest]; [done|]. cbn [length]. rewrite (proj2 (Z.ltb_ge _ 1)), rd_app by lia. cbn [mbind option_bind len_ref].
  apply Forall_cons in Hb as [Hb Hbs]. destruct (b =? 0x80) eqn:E0; [apply Z.eqb_eq in E0 as ->; done|]. apply Z.eqb_neq in E0. rewrite land_80_top, land_7F by done.
  unfold in_u in Hb. destruct (b <? 128) eqn:E1; [apply Z.ltb_lt in E1|apply Z.ltb_ge in E1]; [rewrite (proj2 (Z.leb_gt 128 b)) by lia|rewrite (proj2 (Z.leb_le 128 b)) by lia].
  - cbn [mbind option_bind]. rewrite Z.mod_small, (proj2 (Z.ltb_ge _ _)) by (unfold INT_MAX; lia). rewrite length_app. cbn [length]. do 3 f_equal. lia.
  - cbv zeta. replace (b mod 128) with (b - 128) by lia. cbn [orb].
    replace (Z.of_nat (S (length rest)) - 1) with (Z.of_nat (length rest)) by lia.
    destruct (8 <? b - 128) eqn:E8; [done|]. apply Z.ltb_ge in E8. cbn [orb]. destruct (Z.of_nat (length rest) <? b - 128) eqn:E9; [done|]. apply Z.ltb_ge in E9.
    set (k := Z.to_nat (b - 128)). assert (length (take k rest) = k) as Hk by (rewrite length_take; lia).
    pose proof (length_loop_spec (take k rest) (pre ++ [b]) (drop k rest) 0) as H. rewrite take_drop, Hk, <- app_assoc in H. cbn [app] in H.
    rewrite !length_app in H. cbn [length] in H. replace (Z.of_nat (length pre + 1)) with (Z.of_nat (length pre) + 1) in H by lia. rewrite H. cbn [mbind option_bind].
    assert (bytes (take k rest)) as Hbk by (by apply Forall_take). pose proof (be_val_bound _ Hbk) as Hbv.
    assert (2 ^ (8 * Z.of_nat (length (take k rest))) <= 2 ^ 64) by (apply Z.pow_le_mono_r; lia).
    rewrite be_fold by (done || lia). rewrite Z.mul_0_l, Z.add_0_l. destruct (INT_MAX / 2 <? _); [done|]. do 3 f_equal.
    rewrite length_app, length_drop. cbn [length]. lia.
Qed.

(** ** The header *)

Definition id_ref (bs : list Z) : option (Z * Z * list Z) :=
  match bs with
  | [] => None
  | b :: r =>
      if bool_decide (r = []) then None
      else if b mod 32 =? 31 then '(v, r) ← tag_ref 0 r; Some (b / 32 * 32, v, r) else Some (b / 32 * 32, b mod 32, r)
  end.

Lemma id_ref_spec bs x tag r :
  id_ref bs = Some (x, tag, r) <-> r <> [] /\ exists ids, bs = ids ++ r /\ identifier ids x tag /\ (tag <= INT_MAX \/ tag < 32).
Proof.
  destruct bs as [|b bs]; cbn [id_ref].
  { split; [done|]. intros (Hr & ids & E & _). symmetry in E. by apply app_eq_nil in E as [_ ->]. }
  case_bool_decide as Hn.
  { subst bs. split; [done|]. intros (Hr & ids & E & Hi & _). destruct Hi as [c Hc|c gs Hc Hg]; cbn [app] in E; injection E as -> E.
    - by subst r.
    - symmetry in E. by apply app_eq_nil in E as [_ ->]. }
  destruct (b mod 32 =? 31) eqn:E31; [apply Z.eqb_eq in E31|apply Z.eqb_neq in E31]; split.
  - destruct (tag_ref 0 bs) as [[v r']|] eqn:Et; [|done]. cbn [mbind option_bind]. intros E. injection E as <- <- <-.
    apply tag_ref_spec in Et as (gs & -> & Hr & Hg & -> & Hv); [|lia]. split; [done|]. exists (b :: gs). split; [done|]. split; [by constructor|by left].
  - intros (Hr & ids & E & Hi & Hm). destruct Hi as [c Hc|c gs Hc Hg]; cbn [app] in E; injection E as -> ->; [done|].
    rewrite (proj2 (tag_ref_spec (gs ++ r) 0 (group_val gs) r ltac:(lia))); [done|]. exists gs. split_and!; try done. unfold INT_MAX in *. lia.
  - intros E. injection E as <- <- <-. split; [done|]. exists [b]. split; [done|]. split; [by constructor|]. right. lia.
  - intros (Hr & ids & E & Hi & Hm). destruct Hi as [c Hc|c gs Hc Hg]; cbn [app] in E; injection E as -> ->; done.
Qed.

(** What a header says, and what is behind it. *)
Definition header_ref (bs : list Z) : option (Z * Z * Z * list Z) :=
  '(x, tag, r) ← id_ref bs;
  if (Z.land x V_ASN1_PRIVATE =? 0) && (V_ASN1_MAX_UNIVERSAL <? tag) then None
  else '(n, r) ← len_ref r; if Z.of_nat (length r) <? n then None else Some (x, tag, n, r).

Lemma byte_parts b : in_u 8 b ->
  Z.land b V_ASN1_PRIMITIVE_TAG = b mod 32 /\ Z.land b V_ASN1_PRIVATE = Z.land (b / 32 * 32) V_ASN1_PRIVATE /\
  Z.land b V_ASN1_CONSTRUCTED = Z.land (b / 32 * 32) V_ASN1_CONSTRUCTED /\ Z.land (Z.land b V_ASN1_CONSTRUCTED) 0x80 = 0.
Proof.
  intros Hb. unfold in_u in Hb. unfold V_ASN1_PRIMITIVE_TAG, V_ASN1_PRIVATE, V_ASN1_CONSTRUCTED.
  enough ((Z.land b 31 =? b mod 32) && (Z.land b 192 =? Z.land (b / 32 * 32) 192) && (Z.land b 32 =? Z.land (b / 32 * 32) 32) && (Z.land (Z.land b 32) 128 =? 0) = true) as H.
  { apply andb_true_iff in H as [H H4]. apply andb_true_iff in H as [H H3]. apply andb_true_iff in H as [H1 H2].
    by apply Z.eqb_eq in H1, H2, H3, H4. }
  by_byte b.
Qed.

Lemma get_object_ref bs : bytes bs -> Z.of_nat (length bs) < 2 ^ 62 ->
  exists g, ASN1_get_object bs (Z.of_nat (length bs)) = Some g /\
    match header_ref bs with
    | Some (x, tag, n, r) => g = mk_got (Z.land x V_ASN1_CONSTRUCTED) (Z.of_nat (length bs) - Z.of_nat (length r)) (Some (tag, Z.land x V_ASN1_PRIVATE)) (Some n)
    | None => got_ret g = 0x80 /\ got_pos g = 0
    end.
Proof.
  intros Hb Hz. unfold ASN1_get_object, header_ref. destruct bs as [|b rest]; [by eexists|]. apply Forall_cons in Hb as [Hb Hbs].
  rewrite (proj2 (Z.eqb_neq _ 0)) by (cbn [length]; lia). pose proof (rd_app [] b rest) as Er. cbn [app length] in Er. change (Z.of_nat 0) with 0 in Er. rewrite Er. cbn [mbind option_bind].
  rewrite i64_in by (apply long_bounds; cbn [length] in Hz |- *; lia). cbn [mbind option_bind]. replace (Z.of_nat (length (b :: rest)) - 1) with (Z.of_nat (length rest)) by (cbn [length]; lia).
  cbn [id_ref]. assert (bool_decide (rest = []) = (Z.of_nat (length rest) =? 0)) as -> by (destruct rest; [done|cbn [length]; rewrite bool_decide_eq_false_2 by done; symmetry; apply Z.eqb_neq; lia]).
  destruct (Z.of_nat (length rest) =? 0) eqn:E0; [by eexists|]. assert (rest <> []) as Hne by (intros ->; done).
  destruct (byte_parts b Hb) as (-> & -> & -> & _). change V_ASN1_PRIMITIVE_TAG with 31. set (x := b / 32 * 32).
  match goal with |- context [mbind _ (if _ then ?A else ?B)] => assert ((if b mod 32 =? 31 then A else B) = Some (match (if b mod 32 =? 31 then '(v, r) ← tag_ref 0 rest; Some (x, v, r) else Some (x, b mod 32, rest)) with
    | Some (_, v, r) => Some (Z.of_nat (length (b :: rest)) - Z.of_nat (length r), Z.of_nat (length r), v) | None => None end)) as -> end.
  { destruct (b mod 32 =? 31); [|cbn [length]; do 4 f_equal; lia].
    pose proof (tag_loop_ref rest Hbs Hne [b] 0 (S (length (b :: rest))) ltac:(lia) ltac:(cbn [length]; lia) ltac:(cbn [length] in Hz; lia)) as H.
    cbn [app length] in H. change (Z.of_nat 1) with 1 in H. cbn [length]. rewrite H. destruct (tag_ref 0 rest) as [[v r]|]; done. }
  cbn [mbind option_bind]. assert (forall v r, (if b mod 32 =? 31 then '(v, r) ← tag_ref 0 rest; Some (x, v, r) else Some (x, b mod 32, rest)) = Some (x, v, r) -> exists ids, b :: rest = ids ++ r /\ bytes r) as Hsuf.
  { intros v r. destruct (b mod 32 =? 31); [|intros E; injection E as <- <-; by exists [b]]. destruct (tag_ref 0 rest) as [[v' r']|] eqn:Et; [|done]. cbn [mbind option_bind].
    intros E. injection E as <- <-. apply tag_ref_spec in Et as (gs & -> & _); [|lia]. exists (b :: gs). split; [done|]. by apply Forall_app in Hbs as [_ Hbs]. }
  assert (forall A, (if b mod 32 =? 31 then '(v, r) ← tag_ref 0 rest; Some (x, v, r) else Some (x, b mod 32, rest)) = Some A -> A.1.1 = x) as Hx.
  { intros A. destruct (b mod 32 =? 31); [|intros E; by injection E as <-]. destruct (tag_ref 0 rest) as [[v' r']|]; [|done]. intros E. by injection E as <-. }
  destruct (if b mod 32 =? 31 then _ else _) as [[[x' v] r]|]; [|by eexists]. specialize (Hx _ eq_refl). cbn in Hx. subst x'.
  destruct (Hsuf v r eq_refl) as (ids & E & Hr). cbn [mbind option_bind].
  change V_ASN1_UNIVERSAL with 0. destruct ((Z.land x V_ASN1_PRIVATE =? 0) && (V_ASN1_MAX_UNIVERSAL <? v)); [by eexists|].
  rewrite E in Hz |- *. replace (Z.of_nat (length (ids ++ r)) - Z.of_nat (length r)) with (Z.of_nat (length ids)) by (rewrite length_app; lia).
  rewrite get_length_ref by (done || rewrite length_app in Hz; lia). cbn [mbind option_bind].
  destruct (len_ref r) as [[n r']|] eqn:El; [|by eexists]. cbn [mbind option_bind].
  apply len_ref_spec in El as (ls & Els & _); [|done]. pose proof (f_equal length Els) as Ell. rewrite length_app in Ell, Hz.
  rewrite i64_in by (apply long_bounds; rewrite length_app; lia). cbn [mbind option_bind].
  replace (Z.of_nat (length (ids ++ r)) - (Z.of_nat (length (ids ++ r)) - Z.of_nat (length r'))) with (Z.of_nat (length r')) by lia.
  destruct (Z.of_nat (length r') <? n); by eexists.
Qed.

(** ** Writing *)

(** The shortest identifier octets. *)
Definition id_octets (x tag : Z) : list Z := if tag <? 31 then [x + tag] else (x + 31) :: base128 tag.

Definition header (x tag n : Z) : list Z := id_octets x tag ++ der_length n.

(** The class and the constructed bit. *)
Definition header_bits (constructed xclass : Z) : Z :=
  Z.land xclass V_ASN1_PRIVATE + (if constructed =? 0 then 0 else V_ASN1_CONSTRUCTED).

Lemma wr_cell {A} (pre rest : list A) x y : wr (pre ++ x :: rest) (Z.of_nat (length pre)) y = Some (pre ++ y :: rest).
Proof. exact (wrs_mid pre [x] rest [y] _ eq_refl eq_refl). Qed.

Lemma count_groups f v n fuel : 0 <= v < 128 ^ Z.of_nat f -> (f < fuel)%nat ->
  count_loop fuel 7 v n = Some (n + Z.of_nat (length (groups f v))).
Proof.
  revert v n fuel. induction f as [|f IH]; intros v n fuel Hv Hf; (destruct fuel as [|fuel]; [lia|]); cbn [count_loop groups].
  - change (128 ^ Z.of_nat 0) with 1 in Hv. assert (v = 0) as -> by lia. cbn. f_equal. lia.
  - rewrite pow_128_S in Hv. destruct (v =? 0) eqn:E; [apply Z.eqb_eq in E as ->; cbn; f_equal; lia|apply Z.eqb_neq in E].
    rewrite (proj2 (Z.ltb_lt 0 v)), shiftr_div by lia. change (2 ^ 7) with 128. rewrite IH by lia. rewrite length_app. cbn [length]. f_equal. lia.
Qed.

(** The loop writes the groups of all but the last seven bits. *)
Lemma put_groups f v last pre old post : 0 <= v < 128 ^ Z.of_nat f -> length old = length (groups f v) -> Z.of_nat (length old) <= last ->
  put_tag_loop (length old) last (pre ++ old ++ post) (Z.of_nat (length pre)) v = Some (pre ++ groups f v ++ post).
Proof.
  revert v old post. induction f as [|f IH]; intros v old post Hv Hl Hlast; cbn [groups] in *.
  { destruct (v =? 0); destruct old; done. }
  rewrite pow_128_S in Hv. destruct (v =? 0) eqn:E; [by destruct old|]. rewrite length_app in Hl. cbn [length] in Hl.
  destruct old as [|x old _] using rev_ind; [cbn in Hl; lia|]. rewrite length_app in Hl, Hlast |- *. cbn [length] in *.
  rewrite Nat.add_1_r. cbn [put_tag_loop]. rewrite <- app_assoc. cbn [app].
  replace (Z.of_nat (length pre) + Z.of_nat (length old)) with (Z.of_nat (length (pre ++ old))) by (rewrite length_app; lia).
  rewrite app_assoc, wr_cell. cbn [mbind option_bind]. rewrite (proj2 (Z.eqb_neq (Z.of_nat (length old)) last)), land_7F, lor_80, shiftr_div by lia.
  change (2 ^ 7) with 128. rewrite <- app_assoc. rewrite IH by lia. rewrite <- app_assoc. cbn [app]. do 4 f_equal. lia.
Qed.

(** Enough groups for an [int]. *)
Lemma enough_groups v : 0 <= v < 2 ^ 31 -> 0 <= v < 128 ^ Z.of_nat 11 /\ 0 <= v / 128 < 128 ^ Z.of_nat 10.
Proof.
  intros Hv. change (128 ^ Z.of_nat 11) with 151115727451828646838272. change (128 ^ Z.of_nat 10) with 1180591620717411303424. lia.
Qed.

Lemma base128_length v : 0 < v < 2 ^ 31 -> count_loop 32 7 v 0 = Some (Z.of_nat (length (base128 v))).
Proof.
  intros Hv. destruct (enough_groups v ltac:(lia)) as [H11 H10]. rewrite (count_groups 11 v 0 32) by (done || lia). unfold base128. cbn [groups]. rewrite (proj2 (Z.eqb_neq v 0)) by lia.
  rewrite !length_app. done.
Qed.

Lemma put_base128 v pre old post : 0 < v < 2 ^ 31 -> length old = length (base128 v) ->
  put_tag_loop (length old) (Z.of_nat (length old) - 1) (pre ++ old ++ post) (Z.of_nat (length pre)) v = Some (pre ++ base128 v ++ post).
Proof.
  intros Hv Hl. destruct (enough_groups v ltac:(lia)) as [H11 H10]. unfold base128 in *. rewrite length_app in Hl. cbn [length] in Hl.
  destruct old as [|x old _] using rev_ind; [cbn in Hl; lia|]. rewrite length_app in Hl |- *. cbn [length] in *.
  rewrite Nat.add_1_r. cbn [put_tag_loop]. rewrite <- app_assoc. cbn [app].
  replace (Z.of_nat (length pre) + Z.of_nat (length old)) with (Z.of_nat (length (pre ++ old))) by (rewrite length_app; lia).
  rewrite app_assoc, wr_cell. cbn [mbind option_bind]. rewrite (proj2 (Z.eqb_eq _ _)), land_7F, shiftr_div by lia.
  change (2 ^ 7) with 128. rewrite <- app_assoc. rewrite (put_groups 10 (v / 128)) by (done || lia). rewrite <- app_assoc. done.
Qed.

Lemma put_be k n pre old post : length old = k ->
  put_length_loop k (pre ++ old ++ post) (Z.of_nat (length pre)) n = Some (pre ++ be k n ++ post).
Proof.
  revert n old post. induction k as [|k IH]; intros n old post Hl; cbn [put_length_loop].
  { by destruct old. }
  destruct old as [|x old _] using rev_ind; [done|]. rewrite length_app in Hl. cbn [length] in Hl. assert (length old = k) as Hk by lia.
  rewrite <- app_assoc. cbn [app].
  replace (Z.of_nat (length pre) + Z.of_nat k) with (Z.of_nat (length (pre ++ old))) by (rewrite length_app; lia).
  rewrite app_assoc, wr_cell. cbn [mbind option_bind]. rewrite land_FF, shiftr_div, <- app_assoc, IH by (done || lia). change (2 ^ 8) with 256.
  by rewrite be_S, <- app_assoc.
Qed.

Lemma count_len n m : 127 < n < 2 ^ 31 -> count_loop 32 8 n m = Some (m + Z.of_nat (len_bytes n)).
Proof.
  intros Hn.
  assert (forall fuel l k m, (k < fuel)%nat -> 0 <= l < 256 ^ Z.of_nat k -> (0 < k)%nat -> 256 ^ Z.of_nat (k - 1) <= l -> count_loop fuel 8 l m = Some (m + Z.of_nat k)) as H.
  { clear. intros fuel. induction fuel as [|fuel IH]; intros l k m Hf Hl Hk Hl1; [lia|]. cbn [count_loop]. destruct k as [|k]; [lia|].
    replace (S k - 1)%nat with k in Hl1 by lia. assert (0 < 256 ^ Z.of_nat k) by (apply Z.pow_pos_nonneg; lia).
    rewrite (proj2 (Z.ltb_lt 0 l)), shiftr_div by lia. change (2 ^ 8) with 256. rewrite Nat2Z.inj_succ, Z.pow_succ_r in Hl by lia. destruct k as [|k].
    - change (256 ^ Z.of_nat 0) with 1 in *. assert (l / 256 = 0) as -> by lia. destruct fuel; [lia|]. done.
    - rewrite (IH (l / 256) (S k)); [f_equal; lia|lia|lia|lia|]. replace (S k - 1)%nat with k by lia.
      rewrite Nat2Z.inj_succ, Z.pow_succ_r in Hl1 by lia. lia. }
  apply H; unfold len_bytes; repeat case_match; cbn; lia.
Qed.

Lemma put_length_spec n pre old post : 0 <= n < 2 ^ 31 -> length old = length (der_length n) ->
  asn1_put_length (pre ++ old ++ post) (Z.of_nat (length pre)) n = Some (pre ++ der_length n ++ post, Z.of_nat (length pre) + Z.of_nat (length old)).
Proof.
  intros Hn Hl. unfold asn1_put_length, der_length in *. destruct (n <? 128) eqn:E; [apply Z.ltb_lt in E|apply Z.ltb_ge in E].
  - rewrite (proj2 (Z.leb_le n 127)) by lia. destruct old as [|x [|y old]]; try done. cbn [app]. rewrite wr_cell. cbn [mbind option_bind].
    by rewrite wrapu_id by (unfold in_u; lia).
  - rewrite (proj2 (Z.leb_gt n 127)), count_len by lia. cbn [mbind option_bind]. rewrite Z.add_0_l. pose proof (len_bytes_range n) as Hlb.
    destruct old as [|x old]; [done|]. cbn [length] in Hl. injection Hl as Hl. rewrite length_be in Hl. cbn [app]. rewrite wr_cell. cbn [mbind option_bind].
    rewrite lor_80 by lia. rewrite wrapu_id by (unfold in_u; lia). rewrite Nat2Z.id.
    pose proof (put_be (len_bytes n) n (pre ++ [Z.of_nat (len_bytes n) + 128]) old post Hl) as H. rewrite <- !app_assoc in H. cbn [app] in H.
    rewrite length_app in H. cbn [length] in H. replace (Z.of_nat (length pre + 1)) with (Z.of_nat (length pre) + 1) in H by lia. rewrite H. cbn [mbind option_bind].
    cbn [app length]. rewrite (Z.add_comm 128). do 2 f_equal. lia.
Qed.

Lemma class_bits xclass : exists k, 0 <= k < 4 /\ Z.land xclass V_ASN1_PRIVATE = k * 64.
Proof.
  exists ((xclass / 64) mod 4). split; [lia|]. change V_ASN1_PRIVATE with (Z.shiftl 3 6).
  assert (Z.land xclass (Z.shiftl 3 6) = Z.shiftl (Z.land (Z.shiftr xclass 6) 3) 6) as ->.
  { apply Z.bits_inj'. intros i Hi. rewrite Z.land_spec, !Z.shiftl_spec by done. destruct (decide (6 <= i)).
    - rewrite Z.land_spec, Z.shiftr_spec by lia. by replace (i - 6 + 6) with i by lia.
    - rewrite !(Z.testbit_neg_r _ (i - 6)) by lia. apply andb_false_r. }
  change 3 with (2 ^ 2 - 1). rewrite land_ones_mod, shiftr_div, Z.shiftl_mul_pow2 by lia. done.
Qed.

Lemma bits_lor c xclass : let x := header_bits c xclass in
  Z.lor (if c =? 0 then 0 else V_ASN1_CONSTRUCTED) (Z.land xclass V_ASN1_PRIVATE) = x /\ 0 <= x < 256 /\ x mod 32 = 0 /\
  forall t, 0 <= t < 32 -> u8 (Z.lor x t) = x + t.
Proof.
  cbv zeta. unfold header_bits, V_ASN1_PRIVATE, V_ASN1_CONSTRUCTED.
  destruct (class_bits xclass) as (k & Hk & Ek). unfold V_ASN1_PRIVATE in Ek. rewrite Ek. clear Ek.
  assert (k = 0 \/ k = 1 \/ k = 2 \/ k = 3) as H4 by lia.
  assert (forall y t, y mod 32 = 0 -> 0 <= y < 256 -> 0 <= t < 32 -> u8 (Z.lor y t) = y + t) as Ht.
  { intros y t Hy Hy' Ht. replace y with (Z.shiftl (y / 32) 5) at 1 by (rewrite Z.shiftl_mul_pow2 by lia; change (2 ^ 5) with 32; lia).
    rewrite Z.lor_comm, lor_shiftl_add by lia. change (2 ^ 5) with 32. rewrite wrapu_id by (unfold in_u; lia). lia. }
  destruct (c =? 0); destruct H4 as [->|[->|[->| ->]]]; (split; [reflexivity|]; split; [lia|]; split; [reflexivity|]; intros t H; apply Ht; lia).
Qed.

Lemma put_object_spec c len tag xclass pre old post : c <> 2 -> 0 <= tag < 2 ^ 31 -> 0 <= len < 2 ^ 31 ->
  length old = length (header (header_bits c xclass) tag len) ->
  ASN1_put_object (pre ++ old ++ post) (Z.of_nat (length pre)) c len tag xclass
  = Some (pre ++ header (header_bits c xclass) tag len ++ post, Z.of_nat (length pre) + Z.of_nat (length old)).
Proof.
  intros Hc Ht Hn Hl. unfold ASN1_put_object. destruct (bits_lor c xclass) as (-> & Hx & Hx32 & Hor). set (x := header_bits c xclass) in *.
  rewrite (proj2 (Z.eqb_neq c 2)) by done. unfold header, id_octets in *. unfold V_ASN1_PRIMITIVE_TAG.
  destruct (tag <? 31) eqn:E; [apply Z.ltb_lt in E|apply Z.ltb_ge in E].
  - destruct old as [|y old]; [cbn in Hl; lia|]. cbn [app length] in *. rewrite wr_cell. cbn [mbind option_bind].
    rewrite land_1f, Z.mod_small, Hor by lia.
    pose proof (put_length_spec len (pre ++ [x + tag]) old post Hn ltac:(lia)) as H. rewrite <- !app_assoc in H. cbn [app] in H. rewrite length_app in H. cbn [length] in H.
    replace (Z.of_nat (length pre + 1)) with (Z.of_nat (length pre) + 1) in H by lia. rewrite H. do 2 f_equal. lia.
  - destruct old as [|y old]; [cbn in Hl; lia|]. cbn [app length] in *. rewrite length_app in Hl. injection Hl as Hl. rewrite wr_cell. cbn [mbind option_bind].
    rewrite Hor, base128_length by lia. cbn [mbind option_bind]. rewrite Nat2Z.id.
    set (o1 := take (length (base128 tag)) old). assert (length o1 = length (base128 tag)) as Ho1 by (unfold o1; rewrite length_take; lia).
    assert (old = o1 ++ drop (length (base128 tag)) old) as Eo by (unfold o1; by rewrite take_drop). set (o2 := drop (length (base128 tag)) old) in *. clearbody o1 o2. subst old.
    rewrite length_app in Hl.
    pose proof (put_base128 tag (pre ++ [x + 31]) o1 (o2 ++ post) ltac:(lia) Ho1) as H. rewrite Ho1 in H. rewrite <- !app_assoc in H |- *. cbn [app] in H.
    rewrite length_app in H. cbn [length] in H. replace (Z.of_nat (length pre + 1)) with (Z.of_nat (length pre) + 1) in H by lia. rewrite H. cbn [mbind option_bind].
    pose proof (put_length_spec len (pre ++ (x + 31) :: base128 tag) o2 post Hn ltac:(lia)) as H2. rewrite <- !app_assoc in H2. cbn [app] in H2.
    replace (Z.of_nat (length (pre ++ (x + 31) :: base128 tag))) with (Z.of_nat (length pre) + 1 + Z.of_nat (length (base128 tag))) in H2 by (rewrite length_app; cbn [length]; lia).
    rewrite H2. do 2 f_equal. rewrite length_app. lia.
Qed.

Lemma object_size_spec c len tag : c <> 2 -> 0 <= tag < 2 ^ 31 -> 0 <= len < 2 ^ 31 ->
  forall x, ASN1_object_size c len tag =
    Some (let n := Z.of_nat (length (header x tag len)) in if INT_MAX - len <=? n then -1 else n + len).
Proof.
  intros Hc Ht Hn x. unfold ASN1_object_size. rewrite (proj2 (Z.ltb_ge len 0)), (proj2 (Z.eqb_neq c 2)) by (done || lia).
  assert ((if 31 <=? tag then count_loop 32 7 tag 1 else Some 1) = Some (Z.of_nat (length (id_octets x tag)))) as ->.
  { unfold id_octets. destruct (tag <? 31) eqn:E; [apply Z.ltb_lt in E; by rewrite (proj2 (Z.leb_gt 31 tag))|apply Z.ltb_ge in E].
    rewrite (proj2 (Z.leb_le 31 tag)), (count_groups 11 tag 1 32) by (try lia; by apply enough_groups). cbn [length]. unfold base128. cbn [groups]. rewrite (proj2 (Z.eqb_neq tag 0)) by lia.
    rewrite !length_app. cbn [length]. f_equal. lia. }
  cbn [mbind option_bind].
  assert ((if 127 <? len then count_loop 32 8 len (Z.of_nat (length (id_octets x tag)) + 1) else Some (Z.of_nat (length (id_octets x tag)) + 1))
    = Some (Z.of_nat (length (header x tag len)))) as ->.
  { unfold header, der_length. rewrite length_app. destruct (len <? 128) eqn:E; [apply Z.ltb_lt in E|apply Z.ltb_ge in E].
    - rewrite (proj2 (Z.ltb_ge 127 len)) by lia. cbn [length]. f_equal. lia.
    - rewrite (proj2 (Z.ltb_lt 127 len)), count_len by lia. cbn [length]. rewrite length_be. f_equal. lia. }
  cbn [mbind option_bind]. rewrite i32_in by (apply int_bounds; unfold INT_MAX; lia). done.
Qed.

(** ** What is written is in the grammar *)

Lemma group_val_app gs b : group_val (gs ++ [b]) = group_val gs * 128 + b mod 128.
Proof. unfold group_val. by rewrite foldl_app. Qed.

Lemma tag_groups_high f v : 0 <= v < 128 ^ Z.of_nat f -> Forall (fun x => 128 <= x) (groups f v) /\ group_val (groups f v) = v.
Proof.
  revert v. induction f as [|f IH]; intros v Hv; cbn [groups].
  - change (128 ^ Z.of_nat 0) with 1 in Hv. assert (v = 0) as -> by lia. done.
  - rewrite pow_128_S in Hv. destruct (v =? 0) eqn:E; [apply Z.eqb_eq in E as ->; done|]. destruct (IH (v / 128)) as [H1 H2]; [lia|]. split.
    + apply Forall_app. split; [done|]. constructor; [lia|constructor].
    + rewrite group_val_app, H2. lia.
Qed.

Lemma id_octets_identifier x tag : 0 <= x < 256 -> x mod 32 = 0 -> 0 <= tag < 2 ^ 31 -> identifier (id_octets x tag) x tag.
Proof.
  intros Hx Hx32 Ht. unfold id_octets. destruct (tag <? 31) eqn:E; [apply Z.ltb_lt in E|apply Z.ltb_ge in E].
  - pose proof (Low_tag (x + tag) ltac:(lia)) as H. replace ((x + tag) / 32 * 32) with x in H by lia. by replace ((x + tag) mod 32) with tag in H by lia.
  - destruct (tag_groups_high 10 (tag / 128) (proj2 (enough_groups tag Ht))) as [H1 H2].
    pose proof (High_tag (x + 31) (base128 tag) ltac:(lia)) as H. replace ((x + 31) / 32 * 32) with x in H by lia.
    assert (group_val (base128 tag) = tag) as Ev by (unfold base128; rewrite group_val_app, H2; lia). rewrite Ev in H. apply H.
    exists (groups 10 (tag / 128)), (tag mod 128). split; [done|]. split; [done|lia].
Qed.

Lemma der_length_octets n : 0 <= n < 2 ^ 32 -> length_octets (der_length n) n.
Proof.
  intros Hn. unfold der_length. destruct (n <? 128) eqn:E; [apply Z.ltb_lt in E; by constructor|]. pose proof (len_bytes_range n) as Hlb.
  pose proof (Long_length (Z.of_nat (len_bytes n)) (be (len_bytes n) n) ltac:(lia)) as H'. rewrite be_val_be, Z.mod_small in H'.
  - apply H'. by rewrite length_be.
  - pose proof (len_bytes_fit n Hn). lia.
Qed.

Lemma header_bytes x tag n : 0 <= x < 256 -> x mod 32 = 0 -> 0 <= tag < 2 ^ 31 -> 0 <= n -> bytes (header x tag n).
Proof.
  intros Hx Hx32 Ht Hn. apply Forall_app. split; [|by apply der_length_bytes]. unfold id_octets. destruct (tag <? 31) eqn:E.
  - constructor; [unfold in_u; lia|constructor].
  - constructor; [unfold in_u; lia|apply base128_bytes; lia].
Qed.

Lemma groups_length f v : (length (groups f v) <= f)%nat.
Proof. revert v. induction f as [|f IH]; intros v; cbn [groups]; destruct (v =? 0); cbn [length]; try lia. rewrite length_app. specialize (IH (v / 128)). cbn [length]. lia. Qed.

(** A header is never longer than twenty bytes. *)
Lemma header_short x tag n : 0 <= tag < 2 ^ 31 -> 0 <= n < 2 ^ 31 -> Z.of_nat (length (header x tag n)) <= 20.
Proof.
  intros Ht Hn. unfold header, id_octets, der_length. rewrite length_app. pose proof (len_bytes_range n). pose proof (groups_length 10 (tag / 128)).
  destruct (tag <? 31), (n <? 128); cbn [length]; rewrite ?length_be; unfold base128; rewrite ?length_app; cbn [length]; lia.
Qed.
