(* ===== verification/BioPair.v ===== *)
(** * BoringSSL: BIO pairs ([crypto/bio/pair.c], the functions of [bio.c] on them)

    BIOs are in a store by address, each with its half of the pair behind
    [ptr]; the two halves refer to one another through [peer].  An assertion
    that fails has no result.  What [OPENSSL_malloc] returns is an argument.
    The method of every BIO in the store is [methods_biop]. *)
From S2P Require Import Prelude CBuf.

(** [struct bio_bio_st] *)
Record bio_bio : Type := mk_bio_bio {
  peer : option Z; closed : Z; blen : Z; boffset : Z; bsize : Z; bbuf : option (list Z); request : Z }.

(** [struct bio_st] *)
Record bio : Type := mk_bio {
  init : Z; shutdown : Z; flags : Z; retry_reason : Z; references : Z; bptr : option bio_bio; next_bio : option Z;
  num_read : Z; num_write : Z }.

Notation bios := (gmap Z bio).

Definition with_flags (f r : Z) (b : bio) := mk_bio (init b) (shutdown b) f r (references b) (bptr b) (next_bio b) (num_read b) (num_write b).
Definition with_init (i : Z) (b : bio) := mk_bio i (shutdown b) (flags b) (retry_reason b) (references b) (bptr b) (next_bio b) (num_read b) (num_write b).
Definition with_ptr (p : bio_bio) (b : bio) := mk_bio (init b) (shutdown b) (flags b) (retry_reason b) (references b) (Some p) (next_bio b) (num_read b) (num_write b).
Definition with_shutdown (s : Z) (b : bio) := mk_bio (init b) s (flags b) (retry_reason b) (references b) (bptr b) (next_bio b) (num_read b) (num_write b).
Definition with_references (r : Z) (b : bio) := mk_bio (init b) (shutdown b) (flags b) (retry_reason b) r (bptr b) (next_bio b) (num_read b) (num_write b).
Definition with_next (n : option Z) (b : bio) := mk_bio (init b) (shutdown b) (flags b) (retry_reason b) (references b) (bptr b) n (num_read b) (num_write b).
Definition count_read (n : Z) (b : bio) := mk_bio (init b) (shutdown b) (flags b) (retry_reason b) (references b) (bptr b) (next_bio b) (u64 (num_read b + n)) (num_write b).
Definition count_write (n : Z) (b : bio) := mk_bio (init b) (shutdown b) (flags b) (retry_reason b) (references b) (bptr b) (next_bio b) (num_read b) (u64 (num_write b + n)).

Definition with_peer (p : option Z) (h : bio_bio) := mk_bio_bio p (closed h) (blen h) (boffset h) (bsize h) (bbuf h) (request h).
Definition with_closed (c : Z) (h : bio_bio) := mk_bio_bio (peer h) c (blen h) (boffset h) (bsize h) (bbuf h) (request h).
Definition with_len (l : Z) (h : bio_bio) := mk_bio_bio (peer h) (closed h) l (boffset h) (bsize h) (bbuf h) (request h).
Definition with_offset (o : Z) (h : bio_bio) := mk_bio_bio (peer h) (closed h) (blen h) o (bsize h) (bbuf h) (request h).
Definition with_size (s : Z) (h : bio_bio) := mk_bio_bio (peer h) (closed h) (blen h) (boffset h) s (bbuf h) (request h).
Definition with_buf (b : option (list Z)) (h : bio_bio) := mk_bio_bio (peer h) (closed h) (blen h) (boffset h) (bsize h) b (request h).
Definition with_request (r : Z) (h : bio_bio) := mk_bio_bio (peer h) (closed h) (blen h) (boffset h) (bsize h) (bbuf h) r.

Definition assert_ (c : bool) : option unit := if c then Some tt else None.

(** Access through [bio] and through [bio->ptr]. *)
Definition put (w : bios) (a : Z) (f : bio -> bio) : option bios := b ← w !! a; Some (<[a := f b]> w).
Definition half (w : bios) (a : Z) : option bio_bio := b ← w !! a; bptr b.
Definition put_half (w : bios) (a : Z) (h : bio_bio) : option bios := put w a (with_ptr h).

(** ** Flags *)

Definition BIO_FLAGS_READ := 0x01.
Definition BIO_FLAGS_WRITE := 0x02.
Definition BIO_FLAGS_IO_SPECIAL := 0x04.
Definition BIO_FLAGS_RWS := Z.lor (Z.lor BIO_FLAGS_READ BIO_FLAGS_WRITE) BIO_FLAGS_IO_SPECIAL.
Definition BIO_FLAGS_SHOULD_RETRY := 0x08.
Definition kRetryFlags := Z.lor BIO_FLAGS_RWS BIO_FLAGS_SHOULD_RETRY.

Definition BIO_set_flags (f : Z) (b : bio) : bio := with_flags (Z.lor (flags b) f) (retry_reason b) b.
Definition BIO_clear_flags (f : Z) (b : bio) : bio := with_flags (Z.land (flags b) (Z.lnot f)) (retry_reason b) b.
Definition BIO_test_flags (b : bio) (f : Z) : Z := Z.land (flags b) f.
Definition BIO_should_read (b : bio) : Z := BIO_test_flags b BIO_FLAGS_READ.
Definition BIO_should_write (b : bio) : Z := BIO_test_flags b BIO_FLAGS_WRITE.
Definition BIO_should_retry (b : bio) : Z := BIO_test_flags b BIO_FLAGS_SHOULD_RETRY.
Definition BIO_get_retry_flags (b : bio) : Z := Z.land (flags b) kRetryFlags.
Definition BIO_clear_retry_flags (b : bio) : bio := with_flags (Z.land (flags b) (Z.lnot kRetryFlags)) 0 b.
Definition BIO_set_retry_read (b : bio) : bio := BIO_set_flags (Z.lor BIO_FLAGS_READ BIO_FLAGS_SHOULD_RETRY) b.
Definition BIO_set_retry_write (b : bio) : bio := BIO_set_flags (Z.lor BIO_FLAGS_WRITE BIO_FLAGS_SHOULD_RETRY) b.

(** ** Creating and destroying *)

Definition bio_new (ok : bool) (b : bio) : option bio :=
  if ok then Some (with_ptr (mk_bio_bio None 0 0 0 (17 * 1024) None 0) b) else None.

(** The new BIO, not yet in the store; the arguments are the results of the
    two allocations. *)
Definition BIO_new (ok ok_ptr : bool) : option bio :=
  if ok then bio_new ok_ptr (mk_bio 0 1 0 0 1 None None 0 0) else None.

Definition bio_destroy_pair (w : bios) (a : Z) : option bios :=
  b ← w !! a;
  match bptr b with
  | None => Some w
  | Some h =>
      match peer h with
      | None => Some w
      | Some p =>
          ph ← half w p;
          assert_ (bool_decide (peer ph = Some a));;
          w ← put w p (with_init 0);
          assert_ (bool_decide (bbuf ph <> None));;
          w ← put_half w p (with_offset 0 (with_len 0 (with_peer None ph)));
          h ← half w a;
          w ← put w a (with_init 0);
          assert_ (bool_decide (bbuf h <> None));;
          put_half w a (with_offset 0 (with_len 0 (with_peer None h)))
      end
  end.

Definition bio_free (w : bios) (a : Z) : option bios :=
  h ← half w a;
  match peer h with Some _ => bio_destroy_pair w a | None => Some w end.

(** Is the count zero now?  No result if it was zero before. *)
Definition CRYPTO_refcount_dec_and_test_zero (n : Z) : option (bool * Z) :=
  if n =? 0 then None else if n =? 0xffffffff then Some (false, n) else Some (n - 1 =? 0, n - 1).

Fixpoint BIO_free_loop (fuel : nat) (w : bios) (a : option Z) : option (Z * bios) :=
  match a with
  | None => Some (1, w)
  | Some a =>
      match fuel with
      | O => None
      | S fuel' =>
          b ← w !! a;
          r ← CRYPTO_refcount_dec_and_test_zero (references b);
          let w := <[a := with_references r.2 b]> w in
          if negb r.1 then Some (0, w)
          else
            let next := next_bio b in
            w ← put w a (with_next None);
            w ← bio_free w a;
            BIO_free_loop fuel' (delete a w) next
      end
  end.

Definition BIO_free (w : bios) (a : option Z) : option (Z * bios) := BIO_free_loop (S (size (dom w))) w a.

(** A buffer for the half, if it has none: the size asked for and the result of
    the allocation. *)
Definition make_buf (h : bio_bio) (writebuf_len : Z) (malloc : Z -> option (list Z)) : option bio_bio * bio_bio :=
  match bbuf h with
  | Some _ => (Some h, h)
  | None =>
      let h := if negb (writebuf_len =? 0) then with_size writebuf_len h else h in
      match malloc (bsize h) with
      | None => (None, h)
      | Some b => (Some (with_offset 0 (with_len 0 (with_buf (Some b) h))), h)
      end
  end.

Definition bio_make_pair (w : bios) (a1 a2 writebuf1_len writebuf2_len : Z) (malloc1 malloc2 : Z -> option (list Z)) : option (Z * bios) :=
  h1 ← half w a1;
  h2 ← half w a2;
  if bool_decide (peer h1 <> None) || bool_decide (peer h2 <> None) then Some (0, w)
  else
    match make_buf h1 writebuf1_len malloc1 with
    | (None, h1) => w ← put_half w a1 h1; Some (0, w)
    | (Some h1, _) =>
        w ← put_half w a1 h1;
        match make_buf h2 writebuf2_len malloc2 with
        | (None, h2) => w ← put_half w a2 h2; Some (0, w)
        | (Some h2, _) =>
            w ← put_half w a1 (with_request 0 (with_closed 0 (with_peer (Some a2) h1)));
            w ← put_half w a2 (with_request 0 (with_closed 0 (with_peer (Some a1) h2)));
            w ← put w a1 (with_init 1);
            w ← put w a2 (with_init 1);
            Some (1, w)
        end
    end.

(** What the allocations of [BIO_new_bio_pair] give. *)
Record allocs : Type := mk_allocs {
  ok_bio1 : bool; ok_ptr1 : bool; ok_bio2 : bool; ok_ptr2 : bool; get_buf1 : Z -> option (list Z); get_buf2 : Z -> option (list Z) }.

Definition add (w : bios) (a : Z) (b : option bio) : bios * option Z :=
  match b with Some b => (<[a := b]> w, Some a) | None => (w, None) end.

(** [a1] and [a2] are the addresses of the new BIOs. *)
Definition BIO_new_bio_pair (w : bios) (al : allocs) (a1 writebuf1_len a2 writebuf2_len : Z) : option (Z * option Z * option Z * bios) :=
  let '(w, bio1) := add w a1 (BIO_new (ok_bio1 al) (ok_ptr1 al)) in
  let '(w, bio2) := add w a2 (BIO_new (ok_bio2 al) (ok_ptr2 al)) in
  r ← (match bio1, bio2 with
       | Some a1, Some a2 => bio_make_pair w a1 a2 writebuf1_len writebuf2_len (get_buf1 al) (get_buf2 al)
       | _, _ => Some (0, w)
       end);
  let '(ok, w) := r in
  if ok =? 0 then
    r ← BIO_free w bio1; r ← BIO_free r.2 bio2; Some (0, None, None, r.2)
  else Some (1, bio1, bio2, w).

(** ** Reading *)

(** The loop over the pieces; the other half, and the destination from [pos]. *)
Fixpoint read_loop (fuel : nat) (h : bio_bio) (out : list Z) (pos rest : Z) : option (bio_bio * list Z) :=
  match fuel with
  | O => None
  | S fuel' =>
      assert_ (rest <=? blen h);;
      let chunk := if u64 (boffset h + rest) <=? bsize h then rest else u64 (bsize h - boffset h) in
      assert_ (u64 (boffset h + chunk) <=? bsize h);;
      buf ← bbuf h;
      v ← rds buf (boffset h) chunk;
      out ← wrs out pos v;
      let h := with_len (u64 (blen h - chunk)) h in
      r ← (if negb (blen h =? 0) then
             let h := with_offset (u64 (boffset h + chunk)) h in
             assert_ (boffset h <=? bsize h);;
             Some (if boffset h =? bsize h then with_offset 0 h else h, pos + chunk)
           else assert_ (chunk =? rest);; Some (with_offset 0 h, pos));
      let '(h, pos) := r in
      let rest := u64 (rest - chunk) in
      if rest =? 0 then Some (h, out) else read_loop fuel' h out pos rest
  end.

(** The destination is NULL or an array; the result has its new contents. *)
Definition bio_read (w : bios) (a : Z) (buf : option (list Z)) (size_ : Z) : option (Z * option (list Z) * bios) :=
  let size := u64 size_ in
  w ← put w a BIO_clear_retry_flags;
  b ← w !! a;
  if init b =? 0 then Some (0, buf, w)
  else
    h ← bptr b;
    p ← peer h;
    ph ← half w p;
    assert_ (bool_decide (bbuf ph <> None));;
    let ph := with_request 0 ph in
    w ← put_half w p ph;
    match buf with
    | None => Some (0, buf, w)
    | Some out =>
        if size =? 0 then Some (0, buf, w)
        else if blen ph =? 0 then
          if negb (closed ph =? 0) then Some (0, buf, w)
          else
            w ← put w a BIO_set_retry_read;
            w ← put_half w p (with_request (if size <=? bsize ph then size else bsize ph) ph);
            Some (-1, buf, w)
        else
          let size := if blen ph <? size then blen ph else size in
          assert_ (0 <? size);;
          r ← read_loop 2 ph out 0 size;
          w ← put_half w p r.1;
          Some (s32 size, Some r.2, w)
    end.

(** ** Writing *)

Fixpoint write_loop (fuel : nat) (h : bio_bio) (buf : list Z) (pos rest : Z) : option bio_bio :=
  match fuel with
  | O => None
  | S fuel' =>
      assert_ (u64 (blen h + rest) <=? bsize h);;
      let write_offset := u64 (boffset h + blen h) in
      let write_offset := if bsize h <=? write_offset then u64 (write_offset - bsize h) else write_offset in
      let chunk := if u64 (write_offset + rest) <=? bsize h then rest else u64 (bsize h - write_offset) in
      v ← rds buf pos chunk;
      dst ← bbuf h;
      dst ← wrs dst write_offset v;
      let h := with_len (u64 (blen h + chunk)) (with_buf (Some dst) h) in
      assert_ (blen h <=? bsize h);;
      let rest := u64 (rest - chunk) in
      if rest =? 0 then Some h else write_loop fuel' h buf (pos + chunk) rest
  end.

Definition bio_write (w : bios) (a : Z) (buf : option (list Z)) (num_ : Z) : option (Z * bios) :=
  let num := u64 num_ in
  w ← put w a BIO_clear_retry_flags;
  b ← w !! a;
  match buf with
  | None => Some (0, w)
  | Some data =>
      if (init b =? 0) || (num =? 0) then Some (0, w)
      else
        h ← bptr b;
        assert_ (bool_decide (peer h <> None));;
        assert_ (bool_decide (bbuf h <> None));;
        let h := with_request 0 h in
        w ← put_half w a h;
        if negb (closed h =? 0) then Some (-1, w)
        else
          assert_ (blen h <=? bsize h);;
          if blen h =? bsize h then
            w ← put w a BIO_set_retry_write; Some (-1, w)
          else
            let room := u64 (bsize h - blen h) in
            let num := if room <? num then room else num in
            assert_ (0 <? num);;
            h ← write_loop 2 h data 0 num;
            w ← put_half w a h;
            Some (s32 num, w)
  end.

(** ** Control *)

Definition BIO_CTRL_EOF := 2.
Definition BIO_CTRL_GET_CLOSE := 8.
Definition BIO_CTRL_SET_CLOSE := 9.
Definition BIO_CTRL_PENDING := 10.
Definition BIO_CTRL_FLUSH := 11.
Definition BIO_CTRL_WPENDING := 13.
Definition BIO_C_GET_WRITE_BUF_SIZE := 137.
Definition BIO_C_GET_WRITE_GUARANTEE := 140.
Definition BIO_C_GET_READ_REQUEST := 141.
Definition BIO_C_SHUTDOWN_WR := 142.
Definition BIO_C_RESET_READ_REQUEST := 147.

Definition bio_ctrl (w : bios) (a cmd num : Z) (ptr : option Z) : option (Z * bios) :=
  b ← w !! a;
  h ← bptr b;
  if cmd =? BIO_C_GET_WRITE_BUF_SIZE then Some (s64 (bsize h), w)
  else if cmd =? BIO_C_GET_WRITE_GUARANTEE then
    Some (if bool_decide (peer h = None) || negb (closed h =? 0) then 0 else s64 (u64 (bsize h - blen h)), w)
  else if cmd =? BIO_C_GET_READ_REQUEST then Some (s64 (request h), w)
  else if cmd =? BIO_C_RESET_READ_REQUEST then w ← put_half w a (with_request 0 h); Some (1, w)
  else if cmd =? BIO_C_SHUTDOWN_WR then w ← put_half w a (with_closed 1 h); Some (1, w)
  else if cmd =? BIO_CTRL_GET_CLOSE then Some (shutdown b, w)
  else if cmd =? BIO_CTRL_SET_CLOSE then w ← put w a (with_shutdown (s32 num)); Some (1, w)
  else if cmd =? BIO_CTRL_PENDING then
    match peer h with Some p => ph ← half w p; Some (s64 (blen ph), w) | None => Some (0, w) end
  else if cmd =? BIO_CTRL_WPENDING then
    Some (match bbuf h with Some _ => s64 (blen h) | None => 0 end, w)
  else if cmd =? BIO_CTRL_FLUSH then Some (1, w)
  else if cmd =? BIO_CTRL_EOF then
    match ptr with
    | Some other => oh ← half w other; Some (if (blen oh =? 0) && negb (closed oh =? 0) then 1 else 0, w)
    | None => Some (1, w)
    end
  else Some (0, w).

(** ** The functions of [bio.c]; [None] is the null pointer *)

Definition BIO_read (w : bios) (bio : option Z) (buf : option (list Z)) (len : Z) : option (Z * option (list Z) * bios) :=
  match bio with
  | None => Some (-2, buf, w)
  | Some a =>
      b ← w !! a;
      if init b =? 0 then Some (-2, buf, w)
      else if len <=? 0 then Some (0, buf, w)
      else
        r ← bio_read w a buf len;
        let '(ret, buf, w) := r in
        if 0 <? ret then w ← put w a (count_read ret); Some (ret, buf, w) else Some (ret, buf, w)
  end.

Definition BIO_write (w : bios) (bio : option Z) (in_ : option (list Z)) (inl : Z) : option (Z * bios) :=
  match bio with
  | None => Some (-2, w)
  | Some a =>
      b ← w !! a;
      if init b =? 0 then Some (-2, w)
      else if inl <=? 0 then Some (0, w)
      else
        r ← bio_write w a in_ inl;
        let '(ret, w) := r in
        if 0 <? ret then w ← put w a (count_write ret); Some (ret, w) else Some (ret, w)
  end.

Fixpoint write_all_loop (fuel : nat) (w : bios) (bio : option Z) (data : list Z) (pos len : Z) : option (Z * bios) :=
  if 0 <? len then
    match fuel with
    | O => None
    | S fuel' =>
        r ← BIO_write w bio (Some (drop (Z.to_nat pos) data)) (if INT_MAX <? len then INT_MAX else s32 len);
        let '(ret, w) := r in
        if ret <=? 0 then Some (0, w) else write_all_loop fuel' w bio data (pos + ret) (u64 (len - ret))
    end
  else Some (1, w).

Definition BIO_write_all (w : bios) (bio : option Z) (data : list Z) (len : Z) : option (Z * bios) :=
  write_all_loop (S (Z.to_nat len)) w bio data 0 len.

Definition BIO_ctrl (w : bios) (bio : option Z) (cmd larg : Z) (parg : option Z) : option (Z * bios) :=
  match bio with None => Some (0, w) | Some a => bio_ctrl w a cmd larg parg end.

Definition BIO_flush (w : bios) (bio : option Z) : option (Z * bios) := r ← BIO_ctrl w bio BIO_CTRL_FLUSH 0 None; Some (s32 r.1, r.2).
Definition BIO_eof (w : bios) (bio : option Z) : option (Z * bios) := r ← BIO_ctrl w bio BIO_CTRL_EOF 0 None; Some (s32 r.1, r.2).
Definition BIO_set_close (w : bios) (bio : option Z) (close_flag : Z) : option (Z * bios) :=
  r ← BIO_ctrl w bio BIO_CTRL_SET_CLOSE close_flag None; Some (s32 r.1, r.2).

Definition BIO_pending (w : bios) (bio : option Z) : option (Z * bios) :=
  r ← BIO_ctrl w bio BIO_CTRL_PENDING 0 None;
  assert_ (0 <=? r.1);;
  Some (if r.1 <? 0 then 0 else r.1, r.2).

Definition BIO_wpending (w : bios) (bio : option Z) : option (Z * bios) :=
  r ← BIO_ctrl w bio BIO_CTRL_WPENDING 0 None;
  assert_ (0 <=? r.1);;
  Some (if r.1 <? 0 then 0 else r.1, r.2).

Definition BIO_ctrl_get_read_request (w : bios) (bio : option Z) : option (Z * bios) :=
  r ← BIO_ctrl w bio BIO_C_GET_READ_REQUEST 0 None; Some (u64 r.1, r.2).
Definition BIO_ctrl_get_write_guarantee (w : bios) (bio : option Z) : option (Z * bios) :=
  r ← BIO_ctrl w bio BIO_C_GET_WRITE_GUARANTEE 0 None; Some (u64 r.1, r.2).
Definition BIO_shutdown_wr (w : bios) (bio : option Z) : option (Z * bios) :=
  r ← BIO_ctrl w bio BIO_C_SHUTDOWN_WR 0 None; Some (s32 r.1, r.2).
Definition BIO_number_read (b : bio) : Z := num_read b.
Definition BIO_number_written (b : bio) : Z := num_write b.
