(* ===== verification/BioSpec.v ===== *)
(** * BoringSSL: a BIO pair is two bounded queues

    The ring buffer of a half, the calls on queues that the functions
    implement, and the simulation. *)
From S2P Require Import Prelude CBuf BioPair.

(** ** The ring buffer *)

(** Where the bytes of the queue are: in one piece, or around the end. *)
Inductive layout : list Z -> Z -> list Z -> Prop :=
| Straight A q F : layout (A ++ q ++ F) (Z.of_nat (length A)) q
| Wrapped Q1 Q2 F : layout (Q2 ++ F ++ Q1) (Z.of_nat (length (Q2 ++ F))) (Q1 ++ Q2).

Record ring (h : bio_bio) (q : list Z) : Prop := {
  r_size : 0 < bsize h < 2 ^ 62;
  r_offset : 0 <= boffset h < bsize h;
  r_len : blen h = Z.of_nat (length q);
  r_fits : Z.of_nat (length q) <= bsize h;
  r_buf : exists buf, bbuf h = Some buf /\ Z.of_nat (length buf) = bsize h /\ layout buf (boffset h) q }.

(** The members that reading and writing leave alone. *)
Definition same_half (h h' : bio_bio) : Prop :=
  peer h' = peer h /\ closed h' = closed h /\ bsize h' = bsize h /\ request h' = request h.

Lemma same_half_refl h : same_half h h.
Proof. done. Qed.

Lemma same_half_trans h1 h2 h3 : same_half h1 h2 -> same_half h2 h3 -> same_half h1 h3.
Proof. unfold same_half. intuition congruence. Qed.

Lemma layout_read buf off q c : layout buf off q -> (0 < c <= length q)%nat -> off + Z.of_nat c <= Z.of_nat (length buf) ->
  rds buf off (Z.of_nat c) = Some (take c q) /\
  ((c < length q)%nat -> layout buf (if off + Z.of_nat c =? Z.of_nat (length buf) then 0 else off + Z.of_nat c) (drop c q)).
Proof.
  intros H Hc Hfit. destruct H as [A q F|Q1 Q2 F].
  - rewrite !length_app in Hfit |- *. split.
    + rewrite <- (take_drop c q) at 1. rewrite <- !app_assoc. pose proof (rds_at A (take c q) (drop c q ++ F)) as H. rewrite length_take in H.
      replace (c `min` length q)%nat with c in H by lia. exact H.
    + intros Hlt. rewrite (proj2 (Z.eqb_neq _ _)) by lia. pose proof (Straight (A ++ take c q) (drop c q) F) as H. rewrite <- !app_assoc, (app_assoc (take c q)), take_drop in H.
      rewrite length_app, length_take in H. replace (Z.of_nat (length A) + Z.of_nat c) with (Z.of_nat (length A + c `min` length q)) by lia. exact H.
  - rewrite !length_app in Hfit |- *. rewrite length_app in Hc. split.
    + rewrite app_assoc. rewrite <- (take_drop c Q1) at 1. pose proof (rds_at (Q2 ++ F) (take c Q1) (drop c Q1)) as H. rewrite length_take in H.
      replace (c `min` length Q1)%nat with c in H by lia. rewrite length_app in H. rewrite H. f_equal. rewrite take_app. replace (c - length Q1)%nat with 0%nat by lia.
      by rewrite take_0, app_nil_r.
    + intros Hlt. destruct (decide (c = length Q1)) as [->|Hne].
      * rewrite ?length_app, (proj2 (Z.eqb_eq _ _)) by lia. rewrite drop_app_length. exact (Straight [] Q2 (F ++ Q1)).
      * rewrite ?length_app, (proj2 (Z.eqb_neq _ _)) by lia. rewrite drop_app_le by lia. pose proof (Wrapped (drop c Q1) Q2 (F ++ take c Q1)) as H.
        rewrite <- app_assoc, take_drop in H. rewrite !length_app, length_take in H.
        replace (Z.of_nat (length Q2 + length F) + Z.of_nat c) with (Z.of_nat (length Q2 + (length F + c `min` length Q1))) by lia. exact H.
Qed.

Lemma layout_empty buf : layout buf 0 [].
Proof. exact (Straight [] [] buf). Qed.

(** Where the next byte goes. *)
Definition write_at (h : bio_bio) : Z := let o := boffset h + blen h in if bsize h <=? o then o - bsize h else o.

Lemma layout_write buf off q v : layout buf off q -> off < Z.of_nat (length buf) -> (length q + length v <= length buf)%nat -> v <> [] ->
  let o := off + Z.of_nat (length q) in
  let o := if Z.of_nat (length buf) <=? o then o - Z.of_nat (length buf) else o in
  o + Z.of_nat (length v) <= Z.of_nat (length buf) ->
  exists buf', wrs buf o v = Some buf' /\ length buf' = length buf /\ layout buf' off (q ++ v).
Proof.
  cbv zeta. intros H Hoff Hfit Hv. assert (0 < length v)%nat as Hv0 by (destruct v; [done|cbn; lia]). destruct H as [A q F|Q1 Q2 F].
  - rewrite !length_app in *. destruct (decide (F = [])) as [->|HF].
    + rewrite app_nil_r in *. cbn [length] in *. rewrite (proj2 (Z.leb_le _ _)) by lia. intros Ho.
      replace (Z.of_nat (length A) + Z.of_nat (length q) - Z.of_nat (length A + (length q + 0))) with 0 in * by lia.
      exists (v ++ drop (length v) A ++ q). split; [|split].
      * rewrite <- (take_drop (length v) A) at 1. rewrite <- app_assoc. apply (wrs_mid [] (take (length v) A) _ v); [done|]. rewrite length_take. lia.
      * rewrite !length_app, length_drop. lia.
      * pose proof (Wrapped q v (drop (length v) A)) as H. rewrite length_app, length_drop in H. by replace (Z.of_nat (length v + (length A - length v))) with (Z.of_nat (length A)) in H by lia.
    + assert (0 < length F)%nat by (destruct F; [done|cbn; lia]). rewrite (proj2 (Z.leb_gt _ _)) by lia. intros Ho.
      exists (A ++ q ++ v ++ drop (length v) F). split; [|split].
      * rewrite (app_assoc A q F), (app_assoc A q). rewrite <- (take_drop (length v) F) at 1. apply wrs_mid; [rewrite length_app; lia|]. rewrite length_take. lia.
      * rewrite !length_app, length_drop. lia.
      * rewrite (app_assoc q v). apply Straight.
  - rewrite !length_app in *. rewrite (proj2 (Z.leb_le _ _)) by lia. intros _.
    replace (Z.of_nat (length Q2 + length F) + Z.of_nat (length Q1 + length Q2) - Z.of_nat (length Q2 + (length F + length Q1))) with (Z.of_nat (length Q2)) by lia.
    exists (Q2 ++ v ++ drop (length v) F ++ Q1). split; [|split].
    + rewrite <- (take_drop (length v) F) at 1. rewrite <- app_assoc. apply wrs_mid; [done|]. rewrite length_take. lia.
    + rewrite !length_app, length_drop. lia.
    + pose proof (Wrapped Q1 (Q2 ++ v) (drop (length v) F)) as H. rewrite <- !app_assoc in H. rewrite !length_app, length_drop in H.
      replace (Z.of_nat (length Q2 + (length v + (length F - length v)))) with (Z.of_nat (length Q2 + length F)) in H by lia. rewrite <- (app_assoc Q1). exact H.
Qed.

(** ** The loops *)

(** One round of reading. *)
Definition after_read (c : nat) (h : bio_bio) : bio_bio :=
  let h1 := with_len (blen h - Z.of_nat c) h in
  if negb (blen h1 =? 0) then with_offset (if boffset h + Z.of_nat c =? bsize h then 0 else boffset h + Z.of_nat c) h1 else with_offset 0 h1.

Lemma ring_read h q c : ring h q -> (0 < c <= length q)%nat -> boffset h + Z.of_nat c <= bsize h ->
  (buf ← bbuf h; rds buf (boffset h) (Z.of_nat c)) = Some (take c q) /\ ring (after_read c h) (drop c q) /\ same_half h (after_read c h).
Proof.
  intros [Hs Ho Hl Hf (buf & Eb & El & Hlay)] Hc Hfit. rewrite <- El in Hfit. destruct (layout_read buf _ q c Hlay Hc Hfit) as [H1 H2].
  rewrite Eb. cbn [mbind option_bind]. split; [exact H1|]. unfold after_read. cbn [with_len blen].
  destruct (decide (c = length q)) as [->|Hne].
  - rewrite (proj2 (Z.eqb_eq (blen h - _) 0)) by lia. cbn [negb]. rewrite drop_all. split; [|done].
    constructor; cbn; [done|lia|lia|lia|]. exists buf. split; [done|]. split; [done|]. apply layout_empty.
  - rewrite (proj2 (Z.eqb_neq (blen h - _) 0)) by lia. cbn [negb]. rewrite <- El. specialize (H2 ltac:(lia)). split; [|done].
    constructor; cbn; [done| |rewrite length_drop; lia|rewrite length_drop; lia|].
    + destruct (_ =? _) eqn:E; [lia|apply Z.eqb_neq in E; lia].
    + exists buf. split; [done|]. split; [done|exact H2].
Qed.

Lemma read_loop_once fuel h q pre old post rest (c : nat) : ring h q -> 0 < rest <= Z.of_nat (length q) ->
  Z.of_nat c = (if boffset h + rest <=? bsize h then rest else bsize h - boffset h) -> length old = c ->
  read_loop (S fuel) h (pre ++ old ++ post) (Z.of_nat (length pre)) rest =
    (if rest - Z.of_nat c =? 0 then Some (after_read c h, pre ++ take c q ++ post)
     else read_loop fuel (after_read c h) (pre ++ take c q ++ post) (Z.of_nat (length pre + c)) (rest - Z.of_nat c)) /\
  (0 < c <= length q)%nat /\ boffset h + Z.of_nat c <= bsize h.
Proof.
  intros Hr Hrest Hc Hold. pose proof Hr as [Hs Ho Hl Hf _].
  assert ((0 < c <= length q)%nat /\ boffset h + Z.of_nat c <= bsize h) as [Hcq Hcs] by (destruct (boffset h + rest <=? bsize h) eqn:E; [apply Z.leb_le in E|apply Z.leb_gt in E]; lia).
  split; [|done]. assert (Z.of_nat c <= rest) as Hcr by (destruct (boffset h + rest <=? bsize h) eqn:E; [|apply Z.leb_gt in E]; lia).
  destruct (ring_read h q c Hr Hcq Hcs) as (Hrd & _ & _).
  cbn [read_loop]. rewrite (proj2 (Z.leb_le rest (blen h))) by lia. cbn [assert_ mbind option_bind].
  rewrite (wrapu_id 64 (boffset h + rest)), (wrapu_id 64 (bsize h - boffset h)) by (unfold in_u; lia). rewrite <- Hc.
  rewrite (wrapu_id 64 (boffset h + Z.of_nat c)) by (unfold in_u; lia). rewrite (proj2 (Z.leb_le (boffset h + Z.of_nat c) (bsize h)) Hcs). cbn [assert_ mbind option_bind].
  destruct (bbuf h) as [buf|]; [|done]. cbn [mbind option_bind] in Hrd |- *. rewrite Hrd. cbn [mbind option_bind].
  rewrite wrs_mid by (rewrite ?length_take; done || lia). cbn [mbind option_bind].
  rewrite (wrapu_id 64 (blen h - Z.of_nat c)) by (unfold in_u; lia). cbn [with_len blen boffset bsize].
  rewrite (wrapu_id 64 (boffset h + Z.of_nat c)) by (unfold in_u; lia). rewrite (wrapu_id 64 (rest - Z.of_nat c)) by (unfold in_u; lia). unfold after_read. cbn [with_len blen boffset bsize].
  destruct (blen h - Z.of_nat c =? 0) eqn:E0; cbn [negb].
  - apply Z.eqb_eq in E0. assert (rest = Z.of_nat c) as -> by lia. rewrite Z.eqb_refl, Z.sub_diag, Z.eqb_refl. done.
  - cbn [with_offset with_len boffset bsize]. rewrite (proj2 (Z.leb_le (boffset h + Z.of_nat c) (bsize h)) Hcs). cbn [assert_ mbind option_bind].
    destruct (boffset h + Z.of_nat c =? bsize h); replace (Z.of_nat (length pre) + Z.of_nat c) with (Z.of_nat (length pre + c)) by lia; done.
Qed.

Lemma read_loop_spec h q out (n : nat) : ring h q -> (0 < n <= length q)%nat -> (n <= length out)%nat ->
  exists h', read_loop 2 h out 0 (Z.of_nat n) = Some (h', take n q ++ drop n out) /\ ring h' (drop n q) /\ same_half h h'.
Proof.
  intros Hr Hn Hout. pose proof Hr as [Hs Ho Hl Hf _].
  set (c := Z.to_nat (if boffset h + Z.of_nat n <=? bsize h then Z.of_nat n else bsize h - boffset h)).
  assert (Z.of_nat c = (if boffset h + Z.of_nat n <=? bsize h then Z.of_nat n else bsize h - boffset h)) as Hc by (unfold c; destruct (_ <=? _); lia).
  assert (c <= n)%nat as Hcn by (destruct (boffset h + Z.of_nat n <=? bsize h) eqn:E; [|apply Z.leb_gt in E]; lia). clearbody c.
  pose proof (read_loop_once 1 h q [] (take c out) (drop c out) (Z.of_nat n) c Hr ltac:(lia) Hc ltac:(rewrite length_take; lia)) as (H & Hcq & Hcs).
  cbn [app] in H. rewrite take_drop in H. change (Z.of_nat (length [])) with 0 in H. rewrite H. clear H.
  destruct (ring_read h q c Hr Hcq Hcs) as (_ & Hr1 & Hsame). destruct (Z.of_nat n - Z.of_nat c =? 0) eqn:E; [apply Z.eqb_eq in E|apply Z.eqb_neq in E].
  - assert (n = c) as -> by lia. by eexists.
  - set (h1 := after_read c h) in *. assert (boffset h1 = 0) as Ho1.
    { unfold h1, after_read. cbn [with_len blen]. destruct (blen h - Z.of_nat c =? 0); cbn [negb with_offset boffset]; [done|].
      destruct (boffset h + Z.of_nat n <=? bsize h); [lia|]. by rewrite (proj2 (Z.eqb_eq _ _)) by lia. }
    pose proof Hr1 as [Hs1 _ Hl1 Hf1 _]. rewrite length_drop in *.
    pose proof (read_loop_once 0 h1 (drop c q) (take c q) (take (n - c) (drop c out)) (drop (n - c) (drop c out)) (Z.of_nat n - Z.of_nat c) (n - c) Hr1) as (H & Hcq1 & Hcs1).
    { rewrite length_drop. lia. } { rewrite Ho1. rewrite (proj2 (Z.leb_le _ _)) by lia. lia. } { rewrite length_take, length_drop. lia. }
    rewrite take_drop, length_take in H. replace (c `min` length q)%nat with c in H by lia. cbn [length Nat.add app] in H |- *. rewrite H. clear H.
    rewrite (proj2 (Z.eqb_eq _ 0)) by lia. destruct (ring_read h1 (drop c q) (n - c) Hr1) as (_ & Hr2 & Hsame2); [rewrite length_drop; lia|lia|].
    eexists. split; [f_equal; f_equal|split; [|by eapply same_half_trans]].
    + rewrite drop_drop. replace (c + (n - c))%nat with n by lia. rewrite app_assoc. f_equal. rewrite <- (take_drop c (take n q)), take_take, <- skipn_firstn_comm.
      by replace (c `min` n)%nat with c by lia.
    + rewrite drop_drop in Hr2. by replace (c + (n - c))%nat with n in Hr2 by lia.
Qed.

(** One round of writing. *)
Lemma write_loop_once fuel h q pre v post rest : ring h q -> 0 < rest -> Z.of_nat (length q) + rest <= bsize h -> v <> [] ->
  Z.of_nat (length v) = (if write_at h + rest <=? bsize h then rest else bsize h - write_at h) ->
  exists h1, ring h1 (q ++ v) /\ same_half h h1 /\ boffset h1 = boffset h /\
    write_loop (S fuel) h (pre ++ v ++ post) (Z.of_nat (length pre)) rest =
      if rest - Z.of_nat (length v) =? 0 then Some h1
      else write_loop fuel h1 (pre ++ v ++ post) (Z.of_nat (length pre + length v)) (rest - Z.of_nat (length v)).
Proof.
  intros [Hs Ho Hl Hf (buf & Eb & El & Hlay)] Hrest Hfit Hv Hc.
  assert (0 <= write_at h < bsize h) as Hw by (unfold write_at; cbv zeta; destruct (bsize h <=? _) eqn:E; [apply Z.leb_le in E|apply Z.leb_gt in E]; lia).
  assert (0 < Z.of_nat (length v) <= rest /\ write_at h + Z.of_nat (length v) <= bsize h) as [Hvr Hvs].
  { assert (0 < length v)%nat by (destruct v; [done|cbn; lia]). destruct (write_at h + rest <=? bsize h) eqn:E; [apply Z.leb_le in E|apply Z.leb_gt in E]; lia. }
  destruct (layout_write buf (boffset h) q v Hlay) as (buf' & Ew & El' & Hlay'); [lia|lia|done| |].
  { unfold write_at in Hvs. cbv zeta in Hvs. rewrite Hl in Hvs. rewrite El. exact Hvs. }
  rewrite El in Ew. fold (write_at h) in Ew.
  assert ((if bsize h <=? boffset h + Z.of_nat (length q) then boffset h + Z.of_nat (length q) - bsize h else boffset h + Z.of_nat (length q)) = write_at h) as Ewa.
  { unfold write_at. cbv zeta. by rewrite Hl. }
  rewrite Ewa in Ew.
  exists (with_len (blen h + Z.of_nat (length v)) (with_buf (Some buf') h)). split; [|split; [done|split; [done|]]].
  { constructor; cbn; [done|done|rewrite length_app; lia|rewrite length_app; lia|]. exists buf'. split; [done|]. split; [lia|done]. }
  cbn [write_loop]. rewrite (wrapu_id 64 (blen h + rest)) by (unfold in_u; lia). rewrite (proj2 (Z.leb_le (blen h + rest) (bsize h))) by lia. cbn [assert_ mbind option_bind].
  rewrite (wrapu_id 64 (boffset h + blen h)) by (unfold in_u; lia).
  assert ((if bsize h <=? boffset h + blen h then u64 (boffset h + blen h - bsize h) else boffset h + blen h) = write_at h) as ->.
  { unfold write_at in *. cbv zeta in *. destruct (bsize h <=? boffset h + blen h); [|done]. apply wrapu_id. unfold in_u. lia. }
  rewrite (wrapu_id 64 (write_at h + rest)), (wrapu_id 64 (bsize h - write_at h)) by (unfold in_u; lia). rewrite <- Hc.
  rewrite rds_at, Eb. cbn [mbind option_bind]. rewrite Ew. cbn [mbind option_bind].
  rewrite (wrapu_id 64 (blen h + Z.of_nat (length v))) by (unfold in_u; lia). cbn [with_len with_buf blen bsize].
  rewrite (proj2 (Z.leb_le (blen h + Z.of_nat (length v)) (bsize h))) by lia. cbn [assert_ mbind option_bind].
  rewrite (wrapu_id 64 (rest - Z.of_nat (length v))) by (unfold in_u; lia).
  by replace (Z.of_nat (length pre) + Z.of_nat (length v)) with (Z.of_nat (length pre + length v)) by lia.
Qed.

Lemma write_loop_spec h q data (n : nat) : ring h q -> (0 < n <= length data)%nat -> Z.of_nat (length q + n) <= bsize h ->
  exists h', write_loop 2 h data 0 (Z.of_nat n) = Some h' /\ ring h' (q ++ take n data) /\ same_half h h'.
Proof.
  intros Hr Hn Hfit. pose proof Hr as [Hs Ho Hl Hf _].
  assert (0 <= write_at h < bsize h) as Hw by (unfold write_at; cbv zeta; destruct (bsize h <=? _) eqn:E; [apply Z.leb_le in E|apply Z.leb_gt in E]; lia).
  set (c := Z.to_nat (if write_at h + Z.of_nat n <=? bsize h then Z.of_nat n else bsize h - write_at h)).
  assert (Z.of_nat c = (if write_at h + Z.of_nat n <=? bsize h then Z.of_nat n else bsize h - write_at h)) as Hc by (unfold c; destruct (_ <=? _); lia).
  assert (0 < c <= n)%nat as Hcn by (destruct (write_at h + Z.of_nat n <=? bsize h) eqn:E; [|apply Z.leb_gt in E]; lia). clearbody c.
  assert (length (take c data) = c) as Hlc by (rewrite length_take; lia).
  destruct (write_loop_once 1 h q [] (take c data) (drop c data) (Z.of_nat n)) as (h1 & Hr1 & Hsame & Hoff & E1); [done|lia|lia|intros E; rewrite E in Hlc; cbn in Hlc; lia|by rewrite Hlc|].
  rewrite Hlc in E1. cbn [app length Nat.add] in E1. rewrite take_drop in E1. change (Z.of_nat 0) with 0 in E1. rewrite E1. clear E1.
  destruct (Z.of_nat n - Z.of_nat c =? 0) eqn:E; [apply Z.eqb_eq in E; assert (n = c) as -> by lia; by exists h1|apply Z.eqb_neq in E].
  assert (write_at h + Z.of_nat c = bsize h) as Hend by (destruct (write_at h + Z.of_nat n <=? bsize h); lia).
  pose proof Hr1 as [_ Ho1 Hl1 Hf1 _]. assert (bsize h1 = bsize h) as Hs1 by apply Hsame. rewrite length_app, Hlc in Hl1, Hf1.
  assert (write_at h1 = 0) as Hw1.
  { unfold write_at in *. cbv zeta in *. rewrite Hs1, Hoff, Hl1. destruct (bsize h <=? boffset h + blen h) eqn:E2; [apply Z.leb_le in E2; lia|apply Z.leb_gt in E2].
    rewrite (proj2 (Z.leb_le _ _)) by lia. lia. }
  set (v2 := take (n - c) (drop c data)). assert (length v2 = (n - c)%nat) as Hl2 by (unfold v2; rewrite length_take, length_drop; lia).
  destruct (write_loop_once 0 h1 (q ++ take c data) (take c data) v2 (drop (n - c) (drop c data)) (Z.of_nat n - Z.of_nat c)) as (h2 & Hr2 & Hsame2 & _ & E2);
    [done|lia|rewrite length_app, Hlc, Hs1; lia|intros E2; rewrite E2 in Hl2; cbn in Hl2; lia|rewrite Hw1, Hl2; rewrite (proj2 (Z.leb_le _ _)) by lia; lia|].
  unfold v2 in E2 at 1. rewrite take_drop, take_drop, Hlc in E2. rewrite E2, Hl2, (proj2 (Z.eqb_eq _ 0)) by lia.
  exists h2. split; [done|]. split; [|by eapply same_half_trans]. rewrite <- app_assoc in Hr2. unfold v2 in Hr2.
  assert (take c data ++ take (n - c) (drop c data) = take n data) as E3.
  { rewrite <- (take_drop c (take n data)), take_take, <- skipn_firstn_comm. by replace (c `min` n)%nat with c by lia. }
  by rewrite E3 in Hr2.
Qed.

(** ** Two queues *)

(** A side of the pair: what is written to it and not read yet, whether it is
    closed for writing, the read that found it empty; and its own flags, close
    flag and counters. *)
Record side : Type := mk_side {
  s_queue : list Z; s_size : Z; s_closed : bool; s_request : Z; s_flags : Z; s_close : Z; s_read : Z; s_written : Z }.

Definition side_ok (b : bio) (other : Z) (s : side) : Prop :=
  init b = 1 /\ flags b = s_flags s /\ shutdown b = s_close s /\ num_read b = s_read s /\ num_write b = s_written s /\
  exists h, bptr b = Some h /\ ring h (s_queue s) /\ peer h = Some other /\ bsize h = s_size s /\
    closed h = (if s_closed s then 1 else 0) /\ request h = s_request s /\ 0 <= request h <= bsize h.

(** The pair at two addresses; the Boolean says which of the two. *)
Record pair_ok (w : bios) (addr : bool -> Z) (st : bool -> side) : Prop := {
  p_ne : addr true <> addr false;
  p_side : forall e, exists b, w !! addr e = Some b /\ side_ok b (addr (negb e)) (st e) }.

Definition set_flags_of (f : Z) (s : side) := mk_side (s_queue s) (s_size s) (s_closed s) (s_request s) f (s_close s) (s_read s) (s_written s).
Definition set_request_of (r : Z) (s : side) := mk_side (s_queue s) (s_size s) (s_closed s) r (s_flags s) (s_close s) (s_read s) (s_written s).
Definition set_queue_of (q : list Z) (s : side) := mk_side q (s_size s) (s_closed s) (s_request s) (s_flags s) (s_close s) (s_read s) (s_written s).
Definition set_closed_of (c : bool) (s : side) := mk_side (s_queue s) (s_size s) c (s_request s) (s_flags s) (s_close s) (s_read s) (s_written s).
Definition did_read (n : Z) (s : side) := mk_side (s_queue s) (s_size s) (s_closed s) (s_request s) (s_flags s) (s_close s) (u64 (s_read s + n)) (s_written s).
Definition did_write (n : Z) (s : side) := mk_side (s_queue s) (s_size s) (s_closed s) (s_request s) (s_flags s) (s_close s) (s_read s) (u64 (s_written s + n)).
Definition no_retry (s : side) := set_flags_of (Z.land (s_flags s) (Z.lnot 15)) s.
Definition retry (f : Z) (s : side) := set_flags_of (Z.lor (Z.land (s_flags s) (Z.lnot 15)) f) s.

Definition upd (e : bool) (s : side) (st : bool -> side) : bool -> side := fun e' => if eqb e' e then s else st e'.

(** Appending what fits. *)
Definition write_spec (st : bool -> side) (e : bool) (data : list Z) : Z * (bool -> side) :=
  let s := st e in
  if bool_decide (data = []) then (0, st)
  else if s_closed s then (-1, upd e (set_request_of 0 (no_retry s)) st)
  else
    let room := (Z.to_nat (s_size s) - length (s_queue s))%nat in
    if bool_decide (room = 0%nat) then (-1, upd e (set_request_of 0 (retry 10 s)) st)
    else
      let v := take room data in
      (Z.of_nat (length v), upd e (did_write (Z.of_nat (length v)) (set_queue_of (s_queue s ++ v) (set_request_of 0 (no_retry s)))) st).

(** Taking what is there; the destination is [out]. *)
Definition read_spec (st : bool -> side) (e : bool) (out : list Z) : Z * list Z * (bool -> side) :=
  let s := st e in
  let other := st (negb e) in
  if bool_decide (out = []) then (0, out, st)
  else if bool_decide (s_queue other = []) then
    if s_closed other then (0, out, upd e (no_retry s) (upd (negb e) (set_request_of 0 other) st))
    else (-1, out, upd e (retry 9 s) (upd (negb e) (set_request_of (Z.min (Z.of_nat (length out)) (s_size other)) other) st))
  else
    let v := take (length out) (s_queue other) in
    (Z.of_nat (length v), v ++ drop (length v) out,
     upd e (did_read (Z.of_nat (length v)) (no_retry s)) (upd (negb e) (set_queue_of (drop (length v) (s_queue other)) (set_request_of 0 other)) st)).

(** ** The simulation *)

Lemma addr_ne w addr st e : pair_ok w addr st -> addr e <> addr (negb e).
Proof. intros [H _]. destruct e; cbn; congruence. Qed.

Lemma upd_same e s st : upd e s st e = s.
Proof. unfold upd. by rewrite eqb_reflx. Qed.

Lemma upd_other e s st : upd e s st (negb e) = st (negb e).
Proof. unfold upd. by destruct e. Qed.

Lemma pair_ok_one w w' addr st e b s : pair_ok w addr st -> w' !! addr (negb e) = w !! addr (negb e) -> w' !! addr e = Some b ->
  side_ok b (addr (negb e)) s -> pair_ok w' addr (upd e s st).
Proof.
  intros [Hne Hs] Ho He Hok. split; [done|]. intros e'. destruct (Bool.bool_dec e' e) as [->|Hn].
  - exists b. rewrite upd_same. done.
  - assert (e' = negb e) as -> by (by destruct e, e'). rewrite upd_other, Ho. apply Hs.
Qed.

Lemma pair_ok_two w w' addr st e b b2 s s2 : pair_ok w addr st -> w' !! addr e = Some b -> w' !! addr (negb e) = Some b2 ->
  side_ok b (addr (negb e)) s -> side_ok b2 (addr e) s2 -> pair_ok w' addr (upd e s (upd (negb e) s2 st)).
Proof.
  intros [Hne Hs] He Ho Hok Hok2. split; [done|]. intros e'. destruct (Bool.bool_dec e' e) as [->|Hn].
  - exists b. rewrite upd_same. done.
  - assert (e' = negb e) as -> by (by destruct e, e'). rewrite upd_other, upd_same, negb_involutive. by exists b2.
Qed.

Lemma put_eq w a b f : w !! a = Some b -> put w a f = Some (<[a := f b]> w).
Proof. intros E. unfold put. by rewrite E. Qed.

Lemma half_eq w a b : w !! a = Some b -> half w a = bptr b.
Proof. intros E. unfold half. by rewrite E. Qed.

Lemma put_half_eq w a b h : w !! a = Some b -> put_half w a h = Some (<[a := with_ptr h b]> w).
Proof. apply put_eq. Qed.

(** Lookups in a store that was updated at two addresses. *)
Ltac look := repeat first [rewrite lookup_insert_eq | rewrite lookup_insert_ne by congruence].

Ltac side_parts H h := destruct H as (?Hi & ?Hf & ?Hc & ?Hnr & ?Hnw & h & ?Hp & ?Hring & ?Hpeer & ?Hsize & ?Hclosed & ?Hreq & ?Hrb).

Lemma not_15 : Z.lnot kRetryFlags = Z.lnot 15.
Proof. reflexivity. Qed.

Lemma write_sim w addr st e data : pair_ok w addr st -> Z.of_nat (length data) <= INT_MAX ->
  exists w', BIO_write w (Some (addr e)) (Some data) (Z.of_nat (length data)) = Some ((write_spec st e data).1, w') /\ pair_ok w' addr (write_spec st e data).2.
Proof.
  intros Hok Hlen. unfold INT_MAX in Hlen. destruct (p_side _ _ _ Hok e) as (b & Eb & Hs). pose proof Hs as Hs'. side_parts Hs' h. pose proof (addr_ne _ _ _ e Hok) as Hne.
  unfold BIO_write, write_spec. rewrite Eb. cbn [mbind option_bind]. rewrite Hi. cbn [Z.eqb].
  case_bool_decide as Hd; [subst data; cbn; by exists w|]. assert (0 < length data)%nat as Hdl by (destruct data; [done|cbn; lia]).
  rewrite (proj2 (Z.leb_gt _ 0)) by lia. unfold bio_write. rewrite wrapu_id by (unfold in_u; lia).
  rewrite (put_eq _ _ b) by done. cbn [mbind option_bind]. look. cbn [mbind option_bind]. change (init (BIO_clear_retry_flags b)) with (init b). rewrite Hi. cbn [Z.eqb orb].
  rewrite (proj2 (Z.eqb_neq _ 0)) by lia. change (bptr (BIO_clear_retry_flags b)) with (bptr b). rewrite Hp. cbn [mbind option_bind].
  pose proof Hring as [Hsz Hoff Hl Hfit (buf & Ebuf & _)].
  rewrite bool_decide_eq_true_2 by congruence. cbn [assert_ mbind option_bind]. rewrite bool_decide_eq_true_2 by congruence. cbn [assert_ mbind option_bind].
  rewrite (put_half_eq _ _ (BIO_clear_retry_flags b)) by (by look). rewrite insert_insert_eq. cbn [mbind option_bind with_request closed]. rewrite Hclosed.
  destruct (s_closed (st e)) eqn:Ec.
  - cbn [Z.eqb negb fst snd]. eexists. split; [reflexivity|]. eapply pair_ok_one; [done|by look|by look|].
    unfold side_ok. cbn. rewrite Hf. split_and!; try done. eexists. split; [done|]. cbn. rewrite Ec. split_and!; try done; [by destruct Hring|lia..].
  - cbn [Z.eqb negb]. change (blen (with_request 0 h)) with (blen h). change (bsize (with_request 0 h)) with (bsize h). rewrite (proj2 (Z.leb_le (blen h) (bsize h))) by lia. cbn [assert_ mbind option_bind].
    case_bool_decide as Hroom.
    + assert (blen h = bsize h) as Ef by lia. rewrite Ef, Z.eqb_refl. rewrite (put_eq _ _ (with_ptr (with_request 0 h) (BIO_clear_retry_flags b))) by (by look).
      rewrite insert_insert_eq. cbn [mbind option_bind fst snd]. eexists. split; [reflexivity|]. eapply pair_ok_one; [done|by look|by look|].
      unfold side_ok. cbn. rewrite Hf. split_and!; try done. eexists. split; [done|]. cbn. rewrite Ec. split_and!; try done; [by destruct Hring|lia..].
    + rewrite (proj2 (Z.eqb_neq (blen h) (bsize h))) by lia. rewrite wrapu_id by (unfold in_u; lia).
      set (room := (Z.to_nat (s_size (st e)) - length (s_queue (st e)))%nat) in *. assert (bsize h - blen h = Z.of_nat room) as -> by lia.
      set (v := take room data). assert ((if Z.of_nat room <? Z.of_nat (length data) then Z.of_nat room else Z.of_nat (length data)) = Z.of_nat (length v)) as ->.
      { unfold v. rewrite length_take. destruct (Z.of_nat room <? _) eqn:E; [apply Z.ltb_lt in E|apply Z.ltb_ge in E]; lia. }
      assert (0 < length v <= length data)%nat as Hv by (unfold v; rewrite length_take; lia). assert (length v <= room)%nat as Hvr by (unfold v; rewrite length_take; lia).
      rewrite (proj2 (Z.ltb_lt 0 _)) by lia. cbn [assert_ mbind option_bind].
      assert (ring (with_request 0 h) (s_queue (st e))) as Hring' by (by destruct Hring).
      destruct (write_loop_spec (with_request 0 h) (s_queue (st e)) data (length v) Hring' Hv) as (h' & Ew & Hring2 & Hpe & Hcl & Hsi & Hre).
      { change (bsize (with_request 0 h)) with (bsize h). lia. }
      rewrite Ew. cbn [mbind option_bind]. rewrite (put_half_eq _ _ (with_ptr (with_request 0 h) (BIO_clear_retry_flags b))) by (by look). rewrite insert_insert_eq. cbn [mbind option_bind].
      rewrite wraps_id by (unfold in_s; lia). rewrite (proj2 (Z.ltb_lt 0 _)) by lia.
      rewrite (put_eq _ _ (with_ptr h' (with_ptr (with_request 0 h) (BIO_clear_retry_flags b)))) by (by look). rewrite insert_insert_eq. cbn [mbind option_bind fst snd].
      eexists. split; [reflexivity|]. eapply pair_ok_one; [done|by look|by look|]. cbn in Hpe, Hcl, Hsi, Hre.
      assert (take (length v) data = v) as Ev by (unfold v; rewrite length_take; destruct (decide (room <= length data)%nat); [f_equal; lia|rewrite !take_ge by lia; done]). rewrite Ev in Hring2.
      unfold side_ok. cbn. rewrite Hf, Hnw. split_and!; try done. exists h'. rewrite Ec. split_and!; try done; congruence || lia.
Qed.

Lemma read_sim w addr st e out : pair_ok w addr st -> Z.of_nat (length out) <= INT_MAX ->
  exists w', BIO_read w (Some (addr e)) (Some out) (Z.of_nat (length out)) = Some ((read_spec st e out).1.1, Some (read_spec st e out).1.2, w') /\
    pair_ok w' addr (read_spec st e out).2.
Proof.
  intros Hok Hlen. unfold INT_MAX in Hlen. destruct (p_side _ _ _ Hok e) as (b & Eb & Hs). side_parts Hs h. pose proof (addr_ne _ _ _ e Hok) as Hne.
  destruct (p_side _ _ _ Hok (negb e)) as (b2 & Eb2 & Hs2). rewrite negb_involutive in Hs2. destruct Hs2 as (Hi2 & Hf2 & Hc2 & Hnr2 & Hnw2 & h2 & Hp2 & Hring2 & Hpeer2 & Hsize2 & Hclosed2 & Hreq2 & Hrb2).
  unfold BIO_read, read_spec. rewrite Eb. cbn [mbind option_bind]. rewrite Hi. cbn [Z.eqb].
  case_bool_decide as Hd; [subst out; cbn; by exists w|]. assert (0 < length out)%nat as Hdl by (destruct out; [done|cbn; lia]).
  rewrite (proj2 (Z.leb_gt _ 0)) by lia. unfold bio_read. rewrite wrapu_id by (unfold in_u; lia).
  rewrite (put_eq _ _ b) by done. cbn [mbind option_bind]. look. cbn [mbind option_bind]. change (init (BIO_clear_retry_flags b)) with (init b). rewrite Hi. cbn [Z.eqb].
  change (bptr (BIO_clear_retry_flags b)) with (bptr b). rewrite Hp. cbn [mbind option_bind]. rewrite Hpeer. cbn [mbind option_bind].
  rewrite (half_eq _ _ b2) by (by look). rewrite Hp2. cbn [mbind option_bind]. pose proof Hring2 as [Hsz Hoff Hl Hfit (buf & Ebuf & _)].
  rewrite bool_decide_eq_true_2 by congruence. cbn [assert_ mbind option_bind].
  rewrite (put_half_eq _ _ b2) by (by look). cbn [mbind option_bind].
  rewrite (proj2 (Z.eqb_neq (Z.of_nat (length out)) 0)) by lia. change (blen (with_request 0 h2)) with (blen h2). change (closed (with_request 0 h2)) with (closed h2). change (bsize (with_request 0 h2)) with (bsize h2).
  rewrite Hclosed2. set (q := s_queue (st (negb e))) in *. case_bool_decide as Hq.
  - assert (blen h2 = 0) as -> by (rewrite Hl, Hq; done). cbn [Z.eqb]. destruct (s_closed (st (negb e))) eqn:Ec.
    + cbn [Z.eqb negb mbind option_bind fst snd]. eexists. split; [reflexivity|]. eapply pair_ok_two; [done|by look|by look| |].
      * unfold side_ok. cbn. rewrite Hf. split_and!; try done. by exists h.
      * unfold side_ok. cbn. split_and!; try done. eexists. split; [done|]. cbn. rewrite Ec. split_and!; try done; [by destruct Hring2|lia..].
    + cbn [Z.eqb negb]. rewrite (put_eq _ (addr e) (BIO_clear_retry_flags b)) by (by look). cbn [mbind option_bind].
      rewrite (put_half_eq _ (addr (negb e)) (with_ptr (with_request 0 h2) b2)) by (by look). cbn [mbind option_bind fst snd Z.ltb Z.compare].
      eexists. split; [reflexivity|]. eapply pair_ok_two; [done|by look|by look| |].
      * unfold side_ok. cbn. rewrite Hf. split_and!; try done. by exists h.
      * unfold side_ok. cbn. split_and!; try done. eexists. split; [done|]. cbn. rewrite Ec. split_and!; try done; [by destruct Hring2|..];
        rewrite <- ?Hsize2; destruct (Z.of_nat (length out) <=? bsize h2) eqn:E; (apply Z.leb_le in E || apply Z.leb_gt in E); lia.
  - assert (0 < length q)%nat as Hql by (destruct q; [done|cbn; lia]). rewrite (proj2 (Z.eqb_neq (blen h2) 0)) by lia.
    set (v := take (length out) q). assert ((if blen h2 <? Z.of_nat (length out) then blen h2 else Z.of_nat (length out)) = Z.of_nat (length v)) as ->.
    { unfold v. rewrite length_take, Hl. destruct (_ <? _) eqn:E; [apply Z.ltb_lt in E|apply Z.ltb_ge in E]; lia. }
    assert (0 < length v <= length q)%nat as Hv by (unfold v; rewrite length_take; lia). assert (length v <= length out)%nat as Hvo by (unfold v; rewrite length_take; lia).
    rewrite (proj2 (Z.ltb_lt 0 _)) by lia. cbn [assert_ mbind option_bind].
    assert (ring (with_request 0 h2) q) as Hring' by (by destruct Hring2).
    destruct (read_loop_spec (with_request 0 h2) q out (length v) Hring' Hv Hvo) as (h' & Er & Hring3 & Hpe & Hcl & Hsi & Hre).
    rewrite Er. cbn [mbind option_bind fst snd].
    rewrite (put_half_eq _ (addr (negb e)) (with_ptr (with_request 0 h2) b2)) by (by look). cbn [mbind option_bind fst snd].
    rewrite wraps_id by (unfold in_s; lia). rewrite (proj2 (Z.ltb_lt 0 _)) by lia.
    rewrite (put_eq _ (addr e) (BIO_clear_retry_flags b)) by (by look). cbn [mbind option_bind fst snd].
    assert (take (length v) q = v) as Ev by (unfold v; rewrite length_take; destruct (decide (length out <= length q)%nat); [f_equal; lia|rewrite !take_ge by lia; done]).
    rewrite Ev. eexists. split; [reflexivity|]. cbn in Hpe, Hcl, Hsi, Hre. eapply pair_ok_two; [done|by look|by look| |].
    + unfold side_ok. cbn. rewrite Hf, Hnr. split_and!; try done. by exists h.
    + unfold side_ok. cbn. split_and!; try done. exists h'. split_and!; try done; congruence || lia.
Qed.

(** ** Control *)

Definition ctrl_spec (st : bool -> side) (e : bool) (cmd : Z) : Z * (bool -> side) :=
  let s := st e in
  if cmd =? BIO_C_GET_WRITE_BUF_SIZE then (s_size s, st)
  else if cmd =? BIO_C_GET_WRITE_GUARANTEE then (if s_closed s then 0 else s_size s - Z.of_nat (length (s_queue s)), st)
  else if cmd =? BIO_C_GET_READ_REQUEST then (s_request s, st)
  else if cmd =? BIO_C_RESET_READ_REQUEST then (1, upd e (set_request_of 0 s) st)
  else if cmd =? BIO_C_SHUTDOWN_WR then (1, upd e (set_closed_of true s) st)
  else if cmd =? BIO_CTRL_GET_CLOSE then (s_close s, st)
  else if cmd =? BIO_CTRL_PENDING then (Z.of_nat (length (s_queue (st (negb e)))), st)
  else if cmd =? BIO_CTRL_WPENDING then (Z.of_nat (length (s_queue s)), st)
  else if cmd =? BIO_CTRL_FLUSH then (1, st)
  else if cmd =? BIO_CTRL_EOF then (if bool_decide (s_queue (st (negb e)) = []) && s_closed (st (negb e)) then 1 else 0, st)
  else (0, st).

(** Commands without arguments; [BIO_CTRL_EOF] is asked about the other side. *)
Lemma ctrl_sim w addr st e cmd num : pair_ok w addr st -> cmd <> BIO_CTRL_SET_CLOSE ->
  exists w', BIO_ctrl w (Some (addr e)) cmd num (Some (addr (negb e))) = Some ((ctrl_spec st e cmd).1, w') /\ pair_ok w' addr (ctrl_spec st e cmd).2.
Proof.
  intros Hok Hcmd. destruct (p_side _ _ _ Hok e) as (b & Eb & Hs). side_parts Hs h. pose proof (addr_ne _ _ _ e Hok) as Hne.
  destruct (p_side _ _ _ Hok (negb e)) as (b2 & Eb2 & Hs2). rewrite negb_involutive in Hs2. destruct Hs2 as (Hi2 & Hf2 & Hc2 & Hnr2 & Hnw2 & h2 & Hp2 & Hring2 & Hpeer2 & Hsize2 & Hclosed2 & Hreq2 & Hrb2).
  pose proof Hring as [Hsz Hoff Hl Hfit (buf & Ebuf & _)]. pose proof Hring2 as [Hsz2 Hoff2 Hl2 Hfit2 _].
  unfold BIO_ctrl, bio_ctrl, ctrl_spec. rewrite Eb. cbn [mbind option_bind]. rewrite Hp. cbn [mbind option_bind]. rewrite Hpeer.
  assert (forall z, 0 <= z < 2 ^ 62 -> s64 z = z) as Hid by (intros; apply wraps_id; unfold in_s; lia).
  destruct (cmd =? BIO_C_GET_WRITE_BUF_SIZE); [rewrite Hid, Hsize by lia; by exists w|].
  destruct (cmd =? BIO_C_GET_WRITE_GUARANTEE).
  { rewrite Hclosed, bool_decide_eq_false_2 by done. destruct (s_closed (st e)); cbn [Z.eqb negb orb]; [by exists w|].
    rewrite wrapu_id, Hid by (unfold in_u; lia). rewrite Hl, Hsize. by exists w. }
  destruct (cmd =? BIO_C_GET_READ_REQUEST); [rewrite Hid, Hreq by lia; by exists w|].
  destruct (cmd =? BIO_C_RESET_READ_REQUEST).
  { rewrite (put_half_eq _ _ b) by done. cbn [mbind option_bind fst snd]. eexists. split; [reflexivity|]. eapply pair_ok_one; [done|by look|by look|].
    unfold side_ok. cbn. split_and!; try done. eexists. split; [done|]. cbn. split_and!; try done; [by destruct Hring|lia..]. }
  destruct (cmd =? BIO_C_SHUTDOWN_WR).
  { rewrite (put_half_eq _ _ b) by done. cbn [mbind option_bind fst snd]. eexists. split; [reflexivity|]. eapply pair_ok_one; [done|by look|by look|].
    unfold side_ok. cbn. split_and!; try done. eexists. split; [done|]. cbn. split_and!; try done; [by destruct Hring|lia..]. }
  destruct (cmd =? BIO_CTRL_GET_CLOSE); [rewrite Hc; by exists w|].
  rewrite (proj2 (Z.eqb_neq cmd BIO_CTRL_SET_CLOSE)) by done.
  destruct (cmd =? BIO_CTRL_PENDING); [rewrite (half_eq _ _ b2), Hp2 by done; cbn [mbind option_bind]; rewrite Hid, Hl2 by lia; by exists w|].
  destruct (cmd =? BIO_CTRL_WPENDING); [rewrite Ebuf, Hid, Hl by lia; by exists w|].
  destruct (cmd =? BIO_CTRL_FLUSH); [by exists w|].
  destruct (cmd =? BIO_CTRL_EOF); [|by exists w].
  rewrite (half_eq _ _ b2), Hp2 by done. cbn [mbind option_bind]. rewrite Hl2, Hclosed2. exists w. split; [|done]. do 2 f_equal.
  destruct (s_queue (st (negb e))) as [|x q]; [by destruct (s_closed (st (negb e)))|]. by rewrite bool_decide_eq_false_2.
Qed.
