(* ===== verification/BioTheorems.v ===== *)
(** * BoringSSL: what BIO pairs promise

    Creation, any interleaving of calls, delivery of messages, and release. *)
From S2P Require Import Prelude CBuf BioPair BioSpec.

(** ** Sequences of calls *)

Inductive call : Type :=
| CallRead (e : bool) (out : list Z)
| CallWrite (e : bool) (data : list Z)
| CallCtrl (e : bool) (cmd num : Z).

Definition call_ok (c : call) : Prop :=
  match c with
  | CallRead _ out => Z.of_nat (length out) <= INT_MAX
  | CallWrite _ data => Z.of_nat (length data) <= INT_MAX
  | CallCtrl _ cmd _ => cmd <> BIO_CTRL_SET_CLOSE
  end.

(** The return value and what is in the destination of a read. *)
Definition do_call (w : bios) (addr : bool -> Z) (c : call) : option (Z * list Z * bios) :=
  match c with
  | CallRead e out =>
      r ← BIO_read w (Some (addr e)) (Some out) (Z.of_nat (length out));
      let '(ret, buf, w) := r in buf ← buf; Some (ret, buf, w)
  | CallWrite e data => r ← BIO_write w (Some (addr e)) (Some data) (Z.of_nat (length data)); Some (r.1, [], r.2)
  | CallCtrl e cmd num => r ← BIO_ctrl w (Some (addr e)) cmd num (Some (addr (negb e))); Some (r.1, [], r.2)
  end.

Fixpoint do_calls (w : bios) (addr : bool -> Z) (cs : list call) : option (list (Z * list Z) * bios) :=
  match cs with
  | [] => Some ([], w)
  | c :: cs' => r ← do_call w addr c; q ← do_calls r.2 addr cs'; Some (r.1 :: q.1, q.2)
  end.

(** The same on two queues. *)
Definition spec_call (st : bool -> side) (c : call) : Z * list Z * (bool -> side) :=
  match c with
  | CallRead e out => read_spec st e out
  | CallWrite e data => let r := write_spec st e data in (r.1, [], r.2)
  | CallCtrl e cmd _ => let r := ctrl_spec st e cmd in (r.1, [], r.2)
  end.

Fixpoint spec_calls (st : bool -> side) (cs : list call) : list (Z * list Z) * (bool -> side) :=
  match cs with
  | [] => ([], st)
  | c :: cs' => let r := spec_call st c in let q := spec_calls r.2 cs' in (r.1 :: q.1, q.2)
  end.

Lemma call_sim w addr st c : pair_ok w addr st -> call_ok c ->
  exists w', do_call w addr c = Some ((spec_call st c).1, w') /\ pair_ok w' addr (spec_call st c).2.
Proof.
  intros Hok Hc. destruct c as [e out|e data|e cmd num]; cbn [do_call spec_call call_ok] in *.
  - destruct (read_sim w addr st e out Hok Hc) as (w' & E & H). exists w'. rewrite E. destruct (read_spec st e out) as [[r o] st']. done.
  - destruct (write_sim w addr st e data Hok Hc) as (w' & E & H). exists w'. by rewrite E.
  - destruct (ctrl_sim w addr st e cmd num Hok Hc) as (w' & E & H). exists w'. by rewrite E.
Qed.

(** C38. Reads, writes and control calls on both ends of a pair, in any order, are
    defined and return what two bounded queues return: bytes come out in the
    order they went in, nothing is lost or invented, and the retry flags, the
    counters and the pending read request are those of the queues. *)
Theorem bio_pair_refines_queues w addr st cs : pair_ok w addr st -> Forall call_ok cs ->
  exists w', do_calls w addr cs = Some ((spec_calls st cs).1, w') /\ pair_ok w' addr (spec_calls st cs).2.
Proof.
  revert w st. induction cs as [|c cs IH]; intros w st Hok Hcs; [by exists w|]. apply Forall_cons in Hcs as [Hc Hcs].
  destruct (call_sim w addr st c Hok Hc) as (w1 & E1 & H1). destruct (IH w1 _ H1 Hcs) as (w2 & E2 & H2).
  exists w2. cbn [do_calls spec_calls]. rewrite E1. cbn [mbind option_bind snd]. by rewrite E2.
Qed.

(** ** A new pair *)

Definition default_size (l : Z) : Z := if l =? 0 then 17 * 1024 else l.
Definition new_side (l : Z) : side := mk_side [] (default_size l) false 0 0 1 0 0.

(** Both ends, at the addresses [a1] and [a2]. *)
Definition at_ends {A} (x1 x2 : A) (e : bool) : A := if e then x1 else x2.

Lemma free_single w a b h : w !! a = Some b -> references b = 1 -> next_bio b = None -> bptr b = Some h -> peer h = None ->
  BIO_free w (Some a) = Some (1, delete a w).
Proof.
  intros Ea Hr Hn Hp Hpe. unfold BIO_free. cbn [BIO_free_loop]. rewrite Ea. cbn [mbind option_bind]. rewrite Hr. cbn [CRYPTO_refcount_dec_and_test_zero Z.eqb Pos.eqb mbind option_bind fst snd Z.sub Z.add Z.opp Z.pos_sub negb].
  rewrite (put_eq _ _ (with_references 0 b)) by (by look). cbn [mbind option_bind]. unfold bio_free. rewrite (half_eq _ _ (with_next None (with_references 0 b))) by (by look).
  change (bptr (with_next None (with_references 0 b))) with (bptr b). rewrite Hp. cbn [mbind option_bind]. rewrite Hpe, Hn. cbn [mbind option_bind].
  destruct (size (dom w)); cbn [BIO_free_loop]; do 2 f_equal; apply map_eq; intros i; (destruct (decide (i = a)) as [->|Hi]; [by rewrite !lookup_delete_eq|]);
    rewrite !lookup_delete_ne by congruence; by look.
Qed.

Definition fresh_half : bio_bio := mk_bio_bio None 0 0 0 (17 * 1024) None 0.
Definition fresh_bio (h : bio_bio) : bio := mk_bio 0 1 0 0 1 (Some h) None 0 0.

Lemma new_cases ok okp : BIO_new ok okp = if ok && okp then Some (fresh_bio fresh_half) else None.
Proof. by destruct ok, okp. Qed.

Lemma make_buf_fresh l malloc :
  make_buf fresh_half l malloc =
    match malloc (default_size l) with
    | Some b => (Some (mk_bio_bio None 0 0 0 (default_size l) (Some b) 0), mk_bio_bio None 0 0 0 (default_size l) None 0)
    | None => (None, mk_bio_bio None 0 0 0 (default_size l) None 0)
    end.
Proof. unfold make_buf, default_size, fresh_half. cbn [bbuf with_size bsize]. destruct (l =? 0); cbn [negb bsize with_size]; by destruct (malloc _). Qed.

Lemma delete_fresh (w : bios) a b : w !! a = None -> delete a (<[a := b]> w) = w.
Proof.
  intros E. apply map_eq. intros i. destruct (decide (i = a)) as [->|Hi]; [by rewrite lookup_delete_eq|]. rewrite lookup_delete_ne by congruence. by look.
Qed.

(** A new BIO whose half is not connected. *)
Definition lone (b : bio) : Prop :=
  references b = 1 /\ next_bio b = None /\ exists h, bptr b = Some h /\ peer h = None.

(** Releasing two BIOs that are not connected. *)
Lemma free_two (w w1 : bios) a1 a2 b1 b2 : w !! a1 = None -> w !! a2 = None -> a1 <> a2 -> w1 !! a1 = Some b1 -> w1 !! a2 = Some b2 -> lone b1 -> lone b2 ->
  (forall a, a <> a1 -> a <> a2 -> w1 !! a = w !! a) ->
  (r ← BIO_free w1 (Some a1); r ← BIO_free r.2 (Some a2); Some (0, @None Z, @None Z, r.2)) = Some (0, None, None, w).
Proof.
  intros E1 E2 Hne F1 F2 (R1 & N1 & h1 & P1 & Q1) (R2 & N2 & h2 & P2 & Q2) Hw. rewrite (free_single _ a1 b1 h1) by done. cbn [mbind option_bind snd].
  rewrite (free_single _ a2 b2 h2); [|rewrite lookup_delete_ne by done; by look|done..]. cbn [mbind option_bind snd]. do 2 f_equal.
  apply map_eq. intros i. destruct (decide (i = a2)) as [->|H2]; [by rewrite lookup_delete_eq|]. rewrite lookup_delete_ne by congruence.
  destruct (decide (i = a1)) as [->|H1]; [by rewrite lookup_delete_eq|]. rewrite lookup_delete_ne by congruence. by apply Hw.
Qed.

Lemma half_ring l b : 0 <= l < 2 ^ 62 -> Z.of_nat (length b) = default_size l -> forall p, ring (mk_bio_bio p 0 0 0 (default_size l) (Some b) 0) [].
Proof.
  intros Hl Hb p. unfold default_size in *. assert (0 < (if l =? 0 then 17 * 1024 else l) < 2 ^ 62) by (destruct (l =? 0) eqn:E; [lia|apply Z.eqb_neq in E; lia]).
  constructor; cbn; [lia|lia|done|lia|]. exists b. split; [done|]. split; [done|apply layout_empty].
Qed.

Lemma pair_connected (w : bios) a1 a2 l1 l2 b1 b2 : a1 <> a2 -> 0 <= l1 < 2 ^ 62 -> 0 <= l2 < 2 ^ 62 ->
  Z.of_nat (length b1) = default_size l1 -> Z.of_nat (length b2) = default_size l2 ->
  w !! a1 = Some (with_init 1 (fresh_bio (mk_bio_bio (Some a2) 0 0 0 (default_size l1) (Some b1) 0))) ->
  w !! a2 = Some (with_init 1 (fresh_bio (mk_bio_bio (Some a1) 0 0 0 (default_size l2) (Some b2) 0))) ->
  pair_ok w (at_ends a1 a2) (at_ends (new_side l1) (new_side l2)).
Proof.
  intros Hne Hl1 Hl2 Hb1 Hb2 E1 E2. pose proof (half_ring l1 b1 Hl1 Hb1 (Some a2)) as R1. pose proof (half_ring l2 b2 Hl2 Hb2 (Some a1)) as R2.
  split; [done|]. intros e. destruct e; cbn [at_ends negb]; eexists; (split; [done|]); unfold side_ok; cbn; (split_and!; try done; eexists; (split; [done|]); cbn; split_and!; try done);
    [destruct R1 as [? _ _ _ _]|destruct R2 as [? _ _ _ _]]; cbn in *; lia.
Qed.

(** [BIO_new_bio_pair] makes two connected, empty queues of the sizes asked
    for, 17 KiB by default, or returns 0 without leaving anything behind; it
    fails only if an allocation does. *)
Theorem new_bio_pair_exact (w : bios) al a1 l1 a2 l2 :
  w !! a1 = None -> w !! a2 = None -> a1 <> a2 -> 0 <= l1 < 2 ^ 62 -> 0 <= l2 < 2 ^ 62 ->
  (forall n b, get_buf1 al n = Some b \/ get_buf2 al n = Some b -> Z.of_nat (length b) = n) ->
  if ok_bio1 al && ok_ptr1 al && (ok_bio2 al && ok_ptr2 al) && bool_decide (is_Some (get_buf1 al (default_size l1))) && bool_decide (is_Some (get_buf2 al (default_size l2))) then
    exists w', BIO_new_bio_pair w al a1 l1 a2 l2 = Some (1, Some a1, Some a2, w') /\
      pair_ok w' (at_ends a1 a2) (at_ends (new_side l1) (new_side l2)) /\ forall a, a <> a1 -> a <> a2 -> w' !! a = w !! a
  else BIO_new_bio_pair w al a1 l1 a2 l2 = Some (0, None, None, w).
Proof.
  intros E1 E2 Hne Hl1 Hl2 Hbuf. unfold BIO_new_bio_pair. rewrite !new_cases.
  destruct (ok_bio1 al && ok_ptr1 al), (ok_bio2 al && ok_ptr2 al); cbn [andb add]; cbn [mbind option_bind].
  - unfold bio_make_pair. rewrite (half_eq _ a1 (fresh_bio fresh_half)) by (by look). cbn [bptr fresh_bio mbind option_bind].
    rewrite (half_eq _ a2 (fresh_bio fresh_half)) by (by look). cbn [bptr fresh_bio mbind option_bind].
    rewrite !(bool_decide_eq_false_2 (peer fresh_half <> None)) by (intros H; by apply H). cbn [orb]. rewrite !make_buf_fresh.
    destruct (get_buf1 al (default_size l1)) as [b1|] eqn:Eb1.
    + rewrite (put_half_eq _ a1 (fresh_bio fresh_half)) by (by look). cbn [mbind option_bind]. rewrite bool_decide_eq_true_2 by (by eexists). cbn [andb].
      destruct (get_buf2 al (default_size l2)) as [b2|] eqn:Eb2.
      * rewrite bool_decide_eq_true_2 by (by eexists). erewrite put_half_eq by (by look). cbn [mbind option_bind]. erewrite put_half_eq by (by look). cbn [mbind option_bind].
        erewrite put_eq by (by look). cbn [mbind option_bind]. erewrite put_eq by (by look). cbn [mbind option_bind Z.eqb].
        eexists. split; [reflexivity|]. split; [|intros a Ha1 Ha2; by look].
        apply (pair_connected _ a1 a2 l1 l2 b1 b2); try done; [apply Hbuf; by left|apply Hbuf; by right|by look|by look].
      * rewrite bool_decide_eq_false_2 by (by intros []). erewrite put_half_eq by (by look). cbn [mbind option_bind Z.eqb].
        eapply (free_two w _ a1 a2); [done..|by look|by look|by split_and!; [..|eexists]|by split_and!; [..|eexists]|intros a Ha1 Ha2; by look].
    + rewrite bool_decide_eq_false_2 by (by intros []). cbn [andb]. rewrite (put_half_eq _ a1 (fresh_bio fresh_half)) by (by look). cbn [mbind option_bind Z.eqb].
      eapply (free_two w _ a1 a2); [done..|by look|by look|by split_and!; [..|eexists]|by split_and!; [..|eexists]|intros a Ha1 Ha2; by look].
  - cbn [Z.eqb]. rewrite (free_single _ a1 (fresh_bio fresh_half) fresh_half) by (done || by look). cbn [mbind option_bind snd]. cbn. by rewrite delete_fresh.
  - cbn [Z.eqb]. change (BIO_free (<[a2:=fresh_bio fresh_half]> w) None) with (Some (1, <[a2:=fresh_bio fresh_half]> w)). cbn [mbind option_bind snd].
    rewrite (free_single _ a2 (fresh_bio fresh_half) fresh_half) by (done || by look). cbn [mbind option_bind snd]. by rewrite delete_fresh.
  - done.
Qed.

(** ** Delivery *)

(** A client that in each round writes what is left of its message at one end
    and reads up to [k] bytes at the other; what was read. *)
Fixpoint pump (rounds : nat) (w : bios) (addr : bool -> Z) (e : bool) (k : nat) (data : list Z) : option (list Z * bios) :=
  match rounds with
  | O => Some ([], w)
  | S rounds' =>
      r ← BIO_write w (Some (addr e)) (Some data) (Z.of_nat (length data));
      q ← BIO_read r.2 (Some (addr (negb e))) (Some (replicate k 0)) (Z.of_nat (length (replicate k 0)));
      let '(ret, buf, w) := q in
      buf ← buf;
      t ← pump rounds' w addr e k (drop (Z.to_nat r.1) data);
      Some (take (Z.to_nat ret) buf ++ t.1, t.2)
  end.

(** What is in the queue and what is left of the message. *)
Definition in_flight (st : bool -> side) (e : bool) (data : list Z) : list Z := s_queue (st e) ++ data.

Definition writable (s : side) : Prop := s_closed s = false /\ 0 < s_size s.

Lemma write_flight st e data : writable (st e) ->
  let r := write_spec st e data in
  in_flight r.2 e (drop (Z.to_nat r.1) data) = in_flight st e data /\ writable (r.2 e) /\ s_queue (r.2 (negb e)) = s_queue (st (negb e)) /\
  (in_flight st e data <> [] -> s_queue (r.2 e) <> []).
Proof.
  intros [Hc Hs]. unfold write_spec, in_flight, writable. rewrite Hc. case_bool_decide as Hd.
  - subst data. cbn [fst snd Z.to_nat drop]. by rewrite !app_nil_r.
  - case_bool_decide as Hr; cbn [fst snd Z.to_nat drop]; rewrite ?upd_same, ?upd_other; cbn; rewrite ?Hc.
    + split_and!; try done. intros _ E. rewrite E in Hr. cbn in Hr. lia.
    + set (room := (Z.to_nat (s_size (st e)) - length (s_queue (st e)))%nat) in *. split_and!; try done.
      * rewrite <- app_assoc, Nat2Z.id, length_take. f_equal. destruct (decide (room <= length data)%nat).
        -- replace (room `min` length data)%nat with room by lia. apply take_drop.
        -- rewrite take_ge, drop_ge by lia. apply app_nil_r.
      * intros _ E. apply app_eq_nil in E as [_ E]. destruct room, data; done.
Qed.

Lemma read_flight st e data out : writable (st e) -> out <> [] -> s_queue (st e) <> [] \/ in_flight st e data = [] ->
  let r := read_spec st (negb e) out in
  take (Z.to_nat r.1.1) r.1.2 ++ in_flight r.2 e data = in_flight st e data /\ writable (r.2 e) /\ s_queue (r.2 (negb e)) = s_queue (st (negb e)) /\
  (length (in_flight r.2 e data) <= pred (length (in_flight st e data)))%nat.
Proof.
  intros [Hc Hs] Ho Hq. unfold read_spec, in_flight, writable in *. rewrite negb_involutive. rewrite (bool_decide_eq_false_2 (out = [])) by done. case_bool_decide as Hd.
  - destruct Hq as [Hq|Hq]; [done|]. apply app_eq_nil in Hq as [_ ->]. rewrite Hc. cbn [fst snd Z.to_nat take app].
    unfold upd. rewrite !eqb_reflx. replace (eqb e (negb e)) with false by (by destruct e). cbn. by rewrite Hd, Hc.
  - cbn [fst snd]. rewrite Nat2Z.id, take_app_length. unfold upd. rewrite !eqb_reflx. replace (eqb e (negb e)) with false by (by destruct e). cbn.
    rewrite Hc. split_and!; try done.
    + rewrite length_take. destruct (decide (length out <= length (s_queue (st e)))%nat).
      * replace (length out `min` length (s_queue (st e)))%nat with (length out) by lia. by rewrite app_assoc, take_drop.
      * rewrite take_ge by lia. replace (length out `min` length (s_queue (st e)))%nat with (length (s_queue (st e))) by lia. by rewrite drop_all.
    + rewrite !length_app, length_drop, length_take. destruct out; [done|]. destruct (s_queue (st e)); [done|]. cbn. lia.
Qed.

(** C39. Whatever is in the queue and whatever the sizes of the two buffers, writing
    the rest of a message at one end and reading at the other delivers the
    queue and then the whole message, in at most as many rounds as bytes, and
    leaves the queue empty. *)
Theorem message_delivered w addr st e k data rounds : pair_ok w addr st -> s_closed (st e) = false -> (0 < k)%nat -> Z.of_nat k <= INT_MAX ->
  Z.of_nat (length data) <= INT_MAX -> (length (s_queue (st e)) + length data <= rounds)%nat ->
  exists w' st', pump rounds w addr e k data = Some (s_queue (st e) ++ data, w') /\ pair_ok w' addr st' /\
    s_queue (st' e) = [] /\ s_queue (st' (negb e)) = s_queue (st (negb e)).
Proof.
  intros Hok Hc Hk Hk2 Hd Hr. assert (writable (st e)) as Hw.
  { split; [done|]. destruct (p_side _ _ _ Hok e) as (b & _ & Hs). side_parts Hs h. pose proof (r_size _ _ Hring). lia. }
  clear Hc. rewrite <- length_app in Hr. fold (in_flight st e data) in *. revert w st data Hok Hw Hd Hr. induction rounds as [|n IH]; intros w st data Hok Hw Hd Hr.
  - exists w, st. cbn [pump]. unfold in_flight in *. destruct (s_queue (st e)), data; try done; cbn in Hr; lia.
  - cbn [pump]. destruct (write_sim w addr st e data Hok Hd) as (w1 & E1 & H1). rewrite E1. cbn [mbind option_bind fst snd].
    pose proof (write_flight st e data Hw) as (F1 & Hw1 & Q1 & N1). set (st1 := (write_spec st e data).2) in *. set (n1 := (write_spec st e data).1) in *.
    assert (Z.of_nat (length (replicate k 0)) <= INT_MAX) as Hk3 by (by rewrite length_replicate).
    destruct (read_sim w1 addr st1 (negb e) (replicate k 0) H1 Hk3) as (w2 & E2 & H2). rewrite E2. cbn [mbind option_bind fst snd].
    destruct (read_flight st1 e (drop (Z.to_nat n1) data) (replicate k 0)) as (F2 & Hw2 & Q2 & L2); [done|destruct k; [lia|done]| |].
    { destruct (decide (in_flight st e data = [])); [right; congruence|left; auto]. }
    rewrite F1 in F2, L2. destruct (IH w2 (read_spec st1 (negb e) (replicate k 0)).2 (drop (Z.to_nat n1) data)) as (w' & st' & E & H & Hq & Hq2); [done|done|rewrite length_drop; lia|lia|].
    fold (in_flight (read_spec st1 (negb e) (replicate k 0)).2 e (drop (Z.to_nat n1) data)) in E. rewrite E. cbn [mbind option_bind fst snd]. rewrite F2. exists w', st'. split_and!; try done. congruence.
Qed.

(** ** [BIO_write_all] *)

Lemma write_cases st e data : writable (st e) -> data <> [] ->
  let room := (Z.to_nat (s_size (st e)) - length (s_queue (st e)))%nat in
  let r := write_spec st e data in
  r.1 = (if bool_decide (room = 0%nat) then -1 else Z.of_nat (length (take room data))) /\
  s_queue (r.2 e) = s_queue (st e) ++ take room data /\ writable (r.2 e) /\ s_size (r.2 e) = s_size (st e).
Proof.
  intros [Hc Hs] Hd. cbv zeta. unfold write_spec, writable. rewrite Hc, (bool_decide_eq_false_2 (data = [])) by done.
  case_bool_decide as Hr; cbn [fst snd]; rewrite ?upd_same; cbn; rewrite ?Hc; [|done]. by rewrite Hr, take_0, app_nil_r.
Qed.

(** A message that fits is written in one piece and the result is 1; of a
    message that does not fit as much as fits is written and the result is 0. *)
Theorem write_all_exact w addr st e data : pair_ok w addr st -> s_closed (st e) = false -> Z.of_nat (length data) <= INT_MAX ->
  let room := (Z.to_nat (s_size (st e)) - length (s_queue (st e)))%nat in
  exists w' st', BIO_write_all w (Some (addr e)) data (Z.of_nat (length data)) = Some (if bool_decide (length data <= room)%nat then 1 else 0, w') /\
    pair_ok w' addr st' /\ s_queue (st' e) = s_queue (st e) ++ take room data.
Proof.
  intros Hok Hc Hd. cbv zeta. assert (writable (st e)) as Hw.
  { split; [done|]. destruct (p_side _ _ _ Hok e) as (b & _ & Hs). side_parts Hs h. pose proof (r_size _ _ Hring). lia. }
  unfold BIO_write_all. rewrite Nat2Z.id. cbn [write_all_loop]. set (room := (Z.to_nat (s_size (st e)) - length (s_queue (st e)))%nat).
  destruct (decide (data = [])) as [->|Hne]; [cbn; exists w, st; rewrite take_nil, app_nil_r; rewrite bool_decide_eq_true_2 by lia; done|].
  assert (0 < length data)%nat as Hl by (destruct data; [done|cbn; lia]). rewrite (proj2 (Z.ltb_lt 0 _)) by lia. unfold INT_MAX in Hd.
  rewrite (proj2 (Z.ltb_ge INT_MAX _)) by (unfold INT_MAX; lia). rewrite wraps_id by (unfold in_s; lia). change (Z.to_nat 0) with 0%nat. rewrite drop_0.
  destruct (write_sim w addr st e data Hok Hd) as (w1 & E1 & H1). rewrite E1. cbn [mbind option_bind].
  destruct (write_cases st e data Hw Hne) as (R1 & Q1 & Hw1 & S1). fold room in R1, Q1. set (st1 := (write_spec st e data).2) in *. rewrite R1. clear R1 E1.
  case_bool_decide as Hr0.
  { rewrite (bool_decide_eq_false_2 (length data <= room)%nat) by lia. exists w1, st1. cbn [Z.leb Z.compare]. rewrite Q1. done. }
  rewrite length_take. assert (0 < room)%nat by lia. rewrite (proj2 (Z.leb_gt (Z.of_nat (room `min` length data)) 0)) by lia. rewrite wrapu_id by (unfold in_u; lia).
  destruct (length data) as [|n] eqn:El; [lia|]. cbn [write_all_loop]. case_bool_decide as Hfit.
  { rewrite (proj2 (Z.ltb_ge 0 _)) by lia. exists w1, st1. rewrite Q1. done. }
  rewrite (proj2 (Z.ltb_lt 0 _)) by lia. set (m := Z.of_nat (S n) - Z.of_nat (room `min` S n)). rewrite (proj2 (Z.ltb_ge INT_MAX m)) by (unfold INT_MAX; lia).
  rewrite wraps_id by (unfold in_s; lia). replace (Z.to_nat (0 + Z.of_nat (room `min` S n))) with room by lia.
  replace m with (Z.of_nat (length (drop room data))) by (rewrite length_drop; lia).
  assert (drop room data <> []) as Hne2 by (intros E; apply (f_equal length) in E; rewrite length_drop in E; cbn in E; lia).
  destruct (write_sim w1 addr st1 e (drop room data) H1) as (w2 & E2 & H2); [rewrite length_drop; unfold INT_MAX; lia|]. rewrite E2. cbn [mbind option_bind].
  destruct (write_cases st1 e (drop room data) Hw1 Hne2) as (R2 & Q2 & _). rewrite R2. assert (Z.to_nat (s_size (st1 e)) - length (s_queue (st1 e)) = 0)%nat as Hfull by (rewrite S1, Q1, length_app, length_take; lia).
  rewrite Hfull in R2, Q2 |- *. rewrite bool_decide_eq_true_2 by done. cbn [Z.leb Z.compare]. exists w2, (write_spec st1 e (drop room data)).2. split; [done|]. split; [done|]. by rewrite Q2, take_0, app_nil_r, Q1.
Qed.

(** ** Release *)

(** C40. Releasing one end of a pair disconnects the other: reading and writing
    there fail, nothing is pending, and releasing it too leaves neither. *)
Theorem free_pair_exact w addr st e : pair_ok w addr st -> (forall e b, w !! addr e = Some b -> references b = 1 /\ next_bio b = None) ->
  exists w', BIO_free w (Some (addr e)) = Some (1, w') /\ w' !! addr e = None /\
    (forall data n, BIO_write w' (Some (addr (negb e))) data n = Some (-2, w')) /\
    (forall out n, BIO_read w' (Some (addr (negb e))) out n = Some (-2, out, w')) /\
    BIO_pending w' (Some (addr (negb e))) = Some (0, w') /\
    BIO_free w' (Some (addr (negb e))) = Some (1, delete (addr (negb e)) (delete (addr e) w)).
Proof.
  intros Hok Href. destruct (p_side _ _ _ Hok e) as (b & Eb & Hs). side_parts Hs h. pose proof (addr_ne _ _ _ e Hok) as Hne.
  destruct (p_side _ _ _ Hok (negb e)) as (b2 & Eb2 & Hs2). rewrite negb_involutive in Hs2. destruct Hs2 as (Hi2 & Hf2 & Hc2 & Hnr2 & Hnw2 & h2 & Hp2 & Hring2 & Hpeer2 & Hsize2 & Hclosed2 & Hreq2 & Hrb2).
  destruct (Href _ _ Eb) as [Hr Hn]. destruct (Href _ _ Eb2) as [Hr2 Hn2]. destruct Hring as [_ _ _ _ (buf & Ebuf & _)]. destruct Hring2 as [_ _ _ _ (buf2 & Ebuf2 & _)].
  set (b2' := with_ptr (with_offset 0 (with_len 0 (with_peer None h2))) (with_init 0 b2)). exists (<[addr (negb e) := b2']> (delete (addr e) w)). split; [|split_and!].
  - unfold BIO_free. cbn [BIO_free_loop]. rewrite Eb. cbn [mbind option_bind]. rewrite Hr. cbn [CRYPTO_refcount_dec_and_test_zero Z.eqb Pos.eqb mbind option_bind fst snd Z.sub Z.add Z.opp Z.pos_sub negb].
    rewrite (put_eq _ _ (with_references 0 b)) by (by look). rewrite insert_insert_eq. cbn [mbind option_bind]. unfold bio_free. rewrite (half_eq _ _ (with_next None (with_references 0 b))) by (by look).
    change (bptr (with_next None (with_references 0 b))) with (bptr b). rewrite Hp. cbn [mbind option_bind]. rewrite Hpeer. unfold bio_destroy_pair. look. cbn [mbind option_bind].
    change (bptr (with_next None (with_references 0 b))) with (bptr b). rewrite Hp, Hpeer. rewrite (half_eq _ (addr (negb e)) b2) by (by look). rewrite Hp2. cbn [mbind option_bind].
    rewrite (bool_decide_eq_true_2 (peer h2 = _)) by done. cbn [assert_ mbind option_bind]. rewrite (put_eq _ _ b2) by (by look). cbn [mbind option_bind].
    rewrite (bool_decide_eq_true_2 (bbuf h2 <> None)) by congruence. cbn [assert_ mbind option_bind]. rewrite (put_half_eq _ _ (with_init 0 b2)) by (by look). rewrite insert_insert_eq. cbn [mbind option_bind].
    rewrite (half_eq _ _ (with_next None (with_references 0 b))) by (by look). change (bptr (with_next None (with_references 0 b))) with (bptr b). rewrite Hp. cbn [mbind option_bind].
    erewrite put_eq by (by look). cbn [mbind option_bind]. rewrite (bool_decide_eq_true_2 (bbuf h <> None)) by congruence. cbn [assert_ mbind option_bind].
    erewrite put_half_eq by (by look). cbn [mbind option_bind]. rewrite Hn.
    destruct (size (dom w)); cbn [BIO_free_loop]; do 2 f_equal; apply map_eq; intros i; (destruct (decide (i = addr e)) as [->|Hie]; [by rewrite lookup_delete_eq, lookup_insert_ne, lookup_delete_eq by congruence|]);
      rewrite lookup_delete_ne by congruence; destruct (decide (i = addr (negb e))) as [->|Hi2']; look; rewrite ?lookup_delete_ne by congruence; done.
  - rewrite lookup_insert_ne by congruence. by rewrite lookup_delete_eq.
  - intros data n. unfold BIO_write. by look.
  - intros out n. unfold BIO_read. by look.
  - unfold BIO_pending, BIO_ctrl, bio_ctrl. by look.
  - rewrite (free_single _ _ b2' (with_offset 0 (with_len 0 (with_peer None h2)))); [|by look|done|done|done|done]. do 2 f_equal. apply map_eq. intros i. destruct (decide (i = addr (negb e))) as [->|Hie]; [by rewrite !lookup_delete_eq|].
    rewrite !(lookup_delete_ne _ (addr (negb e))) by congruence. by look.
Qed.

(** ** Examples *)

(** Two ends with buffers of four bytes; three bytes wait at the first, around
    the end of its buffer. *)
Definition demo_store : bios :=
  <[1 := mk_bio 1 1 0 0 1 (Some (mk_bio_bio (Some 2) 0 3 2 4 (Some [3; 0; 1; 2]) 0)) None 0 0]>
    (<[2 := mk_bio 1 1 0 0 1 (Some (mk_bio_bio (Some 1) 0 0 0 4 (Some [0; 0; 0; 0]) 0)) None 0 0]> ∅).

Definition demo_sides : bool -> side := at_ends (mk_side [1; 2; 3] 4 false 0 0 1 0 0) (mk_side [] 4 false 0 0 1 0 0).

Lemma demo_ok : pair_ok demo_store (at_ends 1 2) demo_sides.
Proof.
  split; [done|]. intros [|]; (eexists; split; [reflexivity|]); unfold side_ok; cbn; (split_and!; try done); eexists; (split; [done|]); cbn; (split_and!; try done);
    (constructor; cbn; [lia..|]); eexists; (split; [done|]); (split; [done|]).
  - exact (Wrapped [1; 2] [3] [0]).
  - apply layout_empty.
Qed.

Definition demo_calls : list call :=
  [CallWrite true [4; 5]; CallRead false [0; 0; 0]; CallRead true [0]; CallWrite false [9]; CallRead true [0; 0]; CallCtrl true BIO_C_SHUTDOWN_WR 0; CallRead false [0; 0]; CallRead false [0]].

Example bio_pair_refines_queues_witness :
  (spec_calls demo_sides demo_calls).1 = [(1, []); (3, [1; 2; 3]); (-1, [0]); (1, []); (1, [9; 0]); (1, []); (1, [4; 0]); (0, [0])] /\
  exists w', do_calls demo_store (at_ends 1 2) demo_calls = Some ((spec_calls demo_sides demo_calls).1, w') /\ pair_ok w' (at_ends 1 2) (spec_calls demo_sides demo_calls).2.
Proof.
  split; [reflexivity|]. apply (bio_pair_refines_queues demo_store (at_ends 1 2) demo_sides demo_calls demo_ok). repeat constructor; cbn; unfold INT_MAX; (lia || discriminate).
Defined.

Example message_delivered_witness :
  exists w' st', pump 6 demo_store (at_ends 1 2) true 2 [4; 5; 6] = Some (s_queue (demo_sides true) ++ [4; 5; 6], w') /\ pair_ok w' (at_ends 1 2) st' /\
    s_queue (st' true) = [] /\ s_queue (st' (negb true)) = s_queue (demo_sides (negb true)).
Proof.
  refine (message_delivered demo_store (at_ends 1 2) demo_sides true 2 [4; 5; 6] 6 demo_ok _ _ _ _ _); cbn; unfold INT_MAX; (lia || reflexivity).
Defined.

(** One byte fits. *)
Example write_all_exact_witness :
  exists w' st', BIO_write_all demo_store (Some (at_ends 1 2 true)) [4; 5; 6] (Z.of_nat (length [4; 5; 6])) = Some (if bool_decide (length [4; 5; 6] <= Z.to_nat (s_size (demo_sides true)) - length (s_queue (demo_sides true)))%nat then 1 else 0, w') /\
    pair_ok w' (at_ends 1 2) st' /\ s_queue (st' true) = s_queue (demo_sides true) ++ take (Z.to_nat (s_size (demo_sides true)) - length (s_queue (demo_sides true))) [4; 5; 6].
Proof.
  refine (write_all_exact demo_store (at_ends 1 2) demo_sides true [4; 5; 6] demo_ok _ _); cbn; unfold INT_MAX; (lia || reflexivity).
Defined.

Example free_pair_exact_witness :
  exists w', BIO_free demo_store (Some (at_ends 1 2 true)) = Some (1, w') /\ w' !! at_ends 1 2 true = None /\
    (forall data n, BIO_write w' (Some (at_ends 1 2 (negb true))) data n = Some (-2, w')) /\
    (forall out n, BIO_read w' (Some (at_ends 1 2 (negb true))) out n = Some (-2, out, w')) /\
    BIO_pending w' (Some (at_ends 1 2 (negb true))) = Some (0, w') /\
    BIO_free w' (Some (at_ends 1 2 (negb true))) = Some (1, delete (at_ends 1 2 (negb true)) (delete (at_ends 1 2 true) demo_store)).
Proof.
  refine (free_pair_exact demo_store (at_ends 1 2) demo_sides true demo_ok _). intros [|] b E; cbv in E; injection E as <-; split; reflexivity.
Defined.

Definition demo_malloc (n : Z) : option (list Z) := if 0 <=? n then Some (replicate (Z.to_nat n) 0) else None.

Lemma demo_malloc_length n b : demo_malloc n = Some b -> Z.of_nat (length b) = n.
Proof. unfold demo_malloc. destruct (0 <=? n) eqn:E; [|done]. apply Z.leb_le in E. intros [= <-]. rewrite length_replicate. lia. Qed.

(** Buffers of 2 and 4 bytes; then the second allocation fails. *)
Example new_bio_pair_exact_witness :
  (exists w', BIO_new_bio_pair ∅ (mk_allocs true true true true demo_malloc demo_malloc) 1 2 2 4 = Some (1, Some 1, Some 2, w') /\
    pair_ok w' (at_ends 1 2) (at_ends (new_side 2) (new_side 4)) /\ forall a, a <> 1 -> a <> 2 -> w' !! a = @None bio) /\
  BIO_new_bio_pair ∅ (mk_allocs true true true true demo_malloc (fun _ => None)) 1 2 2 4 = Some (0, None, None, ∅).
Proof.
  split.
  - refine (new_bio_pair_exact ∅ (mk_allocs true true true true demo_malloc demo_malloc) 1 2 2 4 eq_refl eq_refl _ _ _ _); [lia..|].
    intros n b [H|H]; exact (demo_malloc_length n b H).
  - refine (new_bio_pair_exact ∅ (mk_allocs true true true true demo_malloc (fun _ => None)) 1 2 2 4 eq_refl eq_refl _ _ _ _); [lia..|].
    intros n b [H|H]; [exact (demo_malloc_length n b H)|discriminate].
Defined.
