(* ===== verification/LHash.v ===== *)
(** * BoringSSL: hash tables ([crypto/lhash/lhash.c])

    Chains of items linked by pointers, in an array of buckets that grows and
    shrinks.  An item is named by its address; a pointer to a pointer is a
    bucket or the [next] member of an item.  The elements, their hash function
    and their comparison are the caller's. *)
From S2P Require Import Prelude CBuf.

Definition kMinNumBuckets : Z := 16.
Definition kMaxAverageChainLength : Z := 2.
Definition kMinAverageChainLength : Z := 1.
Definition UINT_MAX : Z := 2 ^ 32 - 1.

Section LHash.
Context {V : Type} (comp : V -> V -> Z) (hash : V -> Z).

(** [LHASH_ITEM]; the member [hash] is [cached]. *)
Record lhash_item := mk_item { data : V; next : option Z; cached : Z }.

(** [struct lhash_st] and the items in memory; [num_buckets] is the length of
    [buckets]. *)
Record lhash := mk_lhash {
  num_items : Z;
  buckets : list (option Z);
  callback_depth : Z;
  items : gmap Z lhash_item }.

Definition num_buckets (lh : lhash) : Z := Z.of_nat (length (buckets lh)).

Definition set_items (m : gmap Z lhash_item) (lh : lhash) : lhash :=
  mk_lhash (num_items lh) (buckets lh) (callback_depth lh) m.
Definition set_buckets (b : list (option Z)) (lh : lhash) : lhash :=
  mk_lhash (num_items lh) b (callback_depth lh) (items lh).
Definition set_num_items (n : Z) (lh : lhash) : lhash :=
  mk_lhash n (buckets lh) (callback_depth lh) (items lh).
Definition set_depth (d : Z) (lh : lhash) : lhash :=
  mk_lhash (num_items lh) (buckets lh) d (items lh).

(** [LHASH_ITEM **]. *)
Inductive slot := Bucket (i : Z) | NextOf (a : Z).

Definition get_slot (lh : lhash) (s : slot) : option (option Z) :=
  match s with
  | Bucket i => rd (buckets lh) i
  | NextOf a => next <$> items lh !! a
  end.

Definition set_next (p : option Z) (it : lhash_item) : lhash_item := mk_item (data it) p (cached it).

Definition set_slot (s : slot) (p : option Z) (lh : lhash) : option lhash :=
  match s with
  | Bucket i => b ← wr (buckets lh) i p; Some (set_buckets b lh)
  | NextOf a => it ← items lh !! a; Some (set_items (<[a := set_next p it]> (items lh)) lh)
  end.

(** The result of the two allocations. *)
Definition OPENSSL_lh_new (table_ok buckets_ok : bool) : option lhash :=
  if negb table_ok then None
  else if negb buckets_ok then None
  else Some (mk_lhash 0 (replicate (Z.to_nat kMinNumBuckets) None) 0 ∅).

(** Release the items of a chain. *)
Fixpoint free_chain (fuel : nat) (n : option Z) (m : gmap Z lhash_item) : option (gmap Z lhash_item) :=
  match n with
  | None => Some m
  | Some a =>
      match fuel with
      | O => None
      | S fuel' => it ← m !! a; free_chain fuel' (next it) (delete a m)
      end
  end.

Fixpoint free_buckets (bs : list (option Z)) (m : gmap Z lhash_item) : option (gmap Z lhash_item) :=
  match bs with
  | [] => Some m
  | b :: bs' => m ← free_chain (size m) b m; free_buckets bs' m
  end.

(** What is left in memory. *)
Definition OPENSSL_lh_free (lh : lhash) : option (gmap Z lhash_item) := free_buckets (buckets lh) (items lh).

Definition OPENSSL_lh_num_items (lh : lhash) : Z := num_items lh.

(** The loop over a chain, from the pointer [ret]. *)
Fixpoint search (fuel : nat) (found : V -> bool) (lh : lhash) (ret : slot) : option slot :=
  match fuel with
  | O => None
  | S fuel' =>
      cur ← get_slot lh ret;
      match cur with
      | None => Some ret
      | Some a =>
          it ← items lh !! a;
          if found (data it) then Some ret else search fuel' found lh (NextOf a)
      end
  end.

(** Enough rounds for any chain. *)
Definition rounds (lh : lhash) : nat := S (size (items lh)).

Definition get_next_ptr_and_hash (lh : lhash) (d : V) : option (slot * Z) :=
  let h := hash d in
  if num_buckets lh =? 0 then None
  else
    ret ← search (rounds lh) (fun x => comp x d =? 0) lh (Bucket (h mod num_buckets lh));
    Some (ret, h).

Definition get_next_ptr_by_key (lh : lhash) (key_hash : Z) (cmp_key : V -> Z) : option slot :=
  if num_buckets lh =? 0 then None
  else search (rounds lh) (fun x => cmp_key x =? 0) lh (Bucket (key_hash mod num_buckets lh)).

(** [*next_ptr == NULL ? NULL : ( *next_ptr)->data]. *)
Definition deref_slot (lh : lhash) (s : slot) : option (option V) :=
  p ← get_slot lh s;
  match p with
  | None => Some None
  | Some a => it ← items lh !! a; Some (Some (data it))
  end.

Definition OPENSSL_lh_retrieve (lh : lhash) (d : V) : option (option V) :=
  '(s, _) ← get_next_ptr_and_hash lh d; deref_slot lh s.

Definition OPENSSL_lh_retrieve_key (lh : lhash) (key_hash : Z) (cmp_key : V -> Z) : option (option V) :=
  s ← get_next_ptr_by_key lh key_hash cmp_key; deref_slot lh s.

(** Move the items of a chain in front of their new chains. *)
Fixpoint move_chain (fuel : nat) (cur : option Z) (m : gmap Z lhash_item) (new_buckets : list (option Z))
    : option (gmap Z lhash_item * list (option Z)) :=
  match cur with
  | None => Some (m, new_buckets)
  | Some a =>
      match fuel with
      | O => None
      | S fuel' =>
          it ← m !! a;
          let new_bucket := cached it mod Z.of_nat (length new_buckets) in
          p ← rd new_buckets new_bucket;
          nb ← wr new_buckets new_bucket (Some a);
          move_chain fuel' (next it) (<[a := set_next p it]> m) nb
      end
  end.

Fixpoint move_buckets (bs : list (option Z)) (m : gmap Z lhash_item) (new_buckets : list (option Z))
    : option (gmap Z lhash_item * list (option Z)) :=
  match bs with
  | [] => Some (m, new_buckets)
  | b :: bs' => '(m, nb) ← move_chain (size m) b m new_buckets; move_buckets bs' m nb
  end.

Definition lh_rebucket (malloc_ok : bool) (new_num_buckets : Z) (lh : lhash) : option lhash :=
  let alloc_size := u64 (sizeof_pointer * new_num_buckets) in
  if negb (alloc_size / sizeof_pointer =? new_num_buckets) then Some lh
  else if negb malloc_ok then Some lh
  else
    '(m, nb) ← move_buckets (buckets lh) (items lh) (replicate (Z.to_nat new_num_buckets) None);
    Some (mk_lhash (num_items lh) nb (callback_depth lh) m).

Definition lh_maybe_resize (malloc_ok : bool) (lh : lhash) : option lhash :=
  if 0 <? callback_depth lh then Some lh
  else if num_buckets lh <? kMinNumBuckets then None
  else
    let avg_chain_length := num_items lh / num_buckets lh in
    if kMaxAverageChainLength <? avg_chain_length then
      let new_num_buckets := u64 (num_buckets lh * 2) in
      if num_buckets lh <? new_num_buckets then lh_rebucket malloc_ok new_num_buckets lh else Some lh
    else if (avg_chain_length <? kMinAverageChainLength) && (kMinNumBuckets <? num_buckets lh) then
      let new_num_buckets := num_buckets lh / 2 in
      lh_rebucket malloc_ok (if new_num_buckets <? kMinNumBuckets then kMinNumBuckets else new_num_buckets) lh
    else Some lh.

(** The return value, [*old_data] and the table. *)
Definition OPENSSL_lh_insert (item_ok malloc_ok : bool) (d : V) (lh : lhash) : option (bool * option V * lhash) :=
  '(next_ptr, h) ← get_next_ptr_and_hash lh d;
  p ← get_slot lh next_ptr;
  match p with
  | Some a =>
      it ← items lh !! a;
      Some (true, Some (data it), set_items (<[a := mk_item d (next it) (cached it)]> (items lh)) lh)
  | None =>
      if negb item_ok then Some (false, None, lh)
      else
        let item := fresh (dom (items lh)) in
        let lh := set_items (<[item := mk_item d None h]> (items lh)) lh in
        lh ← set_slot next_ptr (Some item) lh;
        lh ← lh_maybe_resize malloc_ok (set_num_items (u64 (num_items lh + 1)) lh);
        Some (true, None, lh)
  end.

(** The element that was removed. *)
Definition OPENSSL_lh_delete (malloc_ok : bool) (d : V) (lh : lhash) : option (option V * lhash) :=
  '(next_ptr, _) ← get_next_ptr_and_hash lh d;
  p ← get_slot lh next_ptr;
  match p with
  | None => Some (None, lh)
  | Some item =>
      it ← items lh !! item;
      lh ← set_slot next_ptr (next it) lh;
      let lh := set_items (delete item (items lh)) lh in
      lh ← lh_maybe_resize malloc_ok (set_num_items (u64 (num_items lh - 1)) lh);
      Some (Some (data it), lh)
  end.

(** The callback gets an element and may change its own state and the table. *)
Section Doall.
Context {T : Type} (func : V -> T * lhash -> option (T * lhash)).

Fixpoint doall_chain (fuel : nat) (cur : option Z) (st : T * lhash) : option (T * lhash) :=
  match cur with
  | None => Some st
  | Some a =>
      match fuel with
      | O => None
      | S fuel' => it ← items st.2 !! a; st ← func (data it) st; doall_chain fuel' (next it) st
      end
  end.

(** [for (size_t i = 0; i < lh->num_buckets; i++)]; resizing is suppressed, so
    that [n] rounds are left. *)
Fixpoint doall_buckets (fuel n : nat) (i : Z) (st : T * lhash) : option (T * lhash) :=
  if i <? num_buckets st.2 then
    match n with
    | O => None
    | S n' => b ← rd (buckets st.2) i; st ← doall_chain fuel b st; doall_buckets fuel n' (i + 1) st
    end
  else Some st.

Definition OPENSSL_lh_doall_arg (malloc_ok : bool) (fuel : nat) (st : T * lhash) : option (T * lhash) :=
  let lh := st.2 in
  let lh := if callback_depth lh <? UINT_MAX then set_depth (callback_depth lh + 1) lh else lh in
  '(t, lh) ← doall_buckets fuel (length (buckets lh)) 0 (st.1, lh);
  let lh := if callback_depth lh <? UINT_MAX then set_depth (callback_depth lh - 1) lh else lh in
  lh ← lh_maybe_resize malloc_ok lh;
  Some (t, lh).
End Doall.
End LHash.

Arguments mk_item {V} data next cached.
Arguments mk_lhash {V} num_items buckets callback_depth items.
