(* ===== verification/LHashSpec.v ===== *)
(** * BoringSSL: a hash table is a finite map

    The chains of the buckets as lists, what the pointer operations do to them,
    and the map from keys to elements they stand for. *)
From S2P Require Import Prelude CBuf LHash.

(** ** Chains *)

Section Chains.
Context {V : Type}.

#[local] Abbreviation store := (gmap Z (lhash_item (V := V))).

(** The chain from the pointer [p]: addresses and elements; [h] is the hash
    function the cached values come from. *)
Fixpoint linked (h : V -> Z) (m : store) (p : option Z) (c : list (Z * V)) : Prop :=
  match c with
  | [] => p = None
  | (a, v) :: c' => p = Some a /\ exists q, m !! a = Some (mk_item v q (h v)) /\ linked h m q c'
  end.

Lemma linked_frame h m m' p c :
  linked h m p c -> (forall a, a ∈ c.*1 -> m' !! a = m !! a) -> linked h m' p c.
Proof.
  revert p. induction c as [|[a v] c IH]; intros p Hl Hm; [done|].
  destruct Hl as (-> & q & Ha & Hl). split; [done|]. exists q. split.
  - rewrite Hm by (cbn; left). done.
  - apply IH; [done|]. intros x Hx. apply Hm. by right.
Qed.

Lemma linked_insert h m p c a it : linked h m p c -> a ∉ c.*1 -> linked h (<[a := it]> m) p c.
Proof.
  intros Hl Ha. eapply linked_frame; [done|]. intros x Hx. apply lookup_insert_ne. by intros ->.
Qed.

Lemma linked_delete h m p c a : linked h m p c -> a ∉ c.*1 -> linked h (delete a m) p c.
Proof.
  intros Hl Ha. eapply linked_frame; [done|]. intros x Hx. apply lookup_delete_ne. by intros ->.
Qed.

Lemma linked_dom h m p c : linked h m p c -> forall a, a ∈ c.*1 -> is_Some (m !! a).
Proof.
  revert p. induction c as [|[a v] c IH]; intros p Hl x Hx; [by apply not_elem_of_nil in Hx|].
  destruct Hl as (-> & q & Ha & Hl). cbn in Hx. apply elem_of_cons in Hx as [->|Hx]; [by eexists|]. by eapply IH.
Qed.

Lemma linked_length h m p c : linked h m p c -> NoDup c.*1 -> (length c <= size m)%nat.
Proof.
  intros Hl Hnd. assert (list_to_set (C := gset Z) c.*1 ⊆ dom m) as Hs.
  { intros x Hx. rewrite elem_of_list_to_set in Hx. apply elem_of_dom. by eapply linked_dom. }
  apply subseteq_size in Hs. rewrite size_list_to_set, size_dom, length_fmap in Hs by done. exact Hs.
Qed.

(** ** All buckets *)

(** The buckets hold the chains [cs], with disjoint addresses. *)
Record linked_all (h : V -> Z) (m : store) (bs : list (option Z)) (cs : list (list (Z * V))) : Prop := {
  la_chains : Forall2 (linked h m) bs cs;
  la_nodup : NoDup (concat cs).*1;
  la_hash : forall i c, cs !! i = Some c -> Forall (fun e => h e.2 mod Z.of_nat (length bs) = Z.of_nat i) c }.

(** Replacing one chain. *)
Lemma concat_split (cs : list (list (Z * V))) i c :
  cs !! i = Some c -> exists r, concat cs ≡ₚ c ++ r /\ forall c', concat (<[i := c']> cs) ≡ₚ c' ++ r.
Proof.
  intros Hi. exists (concat (take i cs) ++ concat (drop (S i) cs)).
  assert (i < length cs)%nat as Hl by by eapply lookup_lt_Some. split.
  - rewrite <- (take_drop_middle cs i c) at 1 by done. rewrite concat_app. cbn [concat]. solve_Permutation.
  - intros c'. rewrite insert_take_drop by done. rewrite concat_app. cbn [concat]. solve_Permutation.
Qed.

Lemma all_dom h m bs cs :
  linked_all h m bs cs -> forall a, a ∈ (concat cs).*1 -> is_Some (m !! a).
Proof.
  intros [Hc _ _] a. induction Hc as [|b c bs' cs' Hl Hc IH]; cbn [concat].
  - intros Hx. by apply not_elem_of_nil in Hx.
  - rewrite fmap_app, elem_of_app. intros [Hx|Hx]; [by eapply linked_dom|by apply IH].
Qed.

Lemma la_update h m m' bs cs i p' c c' :
  linked_all h m bs cs -> cs !! i = Some c ->
  linked h m' p' c' -> NoDup c'.*1 ->
  (forall a, a ∈ c'.*1 -> a ∈ c.*1 \/ a ∉ (concat cs).*1) ->
  (forall a, a ∈ (concat cs).*1 -> a ∉ c.*1 -> m' !! a = m !! a) ->
  Forall (fun e => h e.2 mod Z.of_nat (length bs) = Z.of_nat i) c' ->
  linked_all h m' (<[i := p']> bs) (<[i := c']> cs).
Proof.
  intros Hla Hi Hl Hnd Hnew Hframe Hh. destruct Hla as [Hc Hall Hhash]. destruct (concat_split cs i c Hi) as (r & Hr & Hins).
  assert (NoDup (c.*1 ++ r.*1)) as Hcr by (rewrite <- fmap_app, <- Hr; done).
  apply NoDup_app in Hcr as (_ & Hdis & Hndr).
  assert (forall a, a ∈ r.*1 -> a ∈ (concat cs).*1) as Hin by (intros a Ha; rewrite Hr, fmap_app, elem_of_app; by right).
  constructor.
  - apply Forall2_same_length_lookup_2.
    { rewrite !length_insert. by eapply Forall2_length. }
    intros j b x Hb Hx. destruct (decide (j = i)) as [->|Hne].
    + assert (i < length bs)%nat by (rewrite (Forall2_length _ _ _ Hc); by eapply lookup_lt_Some).
      rewrite list_lookup_insert_eq in Hb by done. rewrite list_lookup_insert_eq in Hx by (by eapply lookup_lt_Some).
      by injection Hb as <-; injection Hx as <-.
    + rewrite list_lookup_insert_ne in Hb by done. rewrite list_lookup_insert_ne in Hx by done. pose proof (Forall2_lookup_lr _ _ _ _ _ _ Hc Hb Hx) as Hlj.
      assert (forall a, a ∈ x.*1 -> a ∈ r.*1) as Hxr.
      { intros a Ha. destruct (concat_split (<[i := []]> cs) j x) as (r' & Hr' & _); [by rewrite list_lookup_insert_ne|].
        specialize (Hins []). rewrite Hr' in Hins. cbn [app] in Hins. rewrite <- Hins, fmap_app, elem_of_app. by left. }
      eapply linked_frame; [exact Hlj|]. intros a Ha. apply Hframe; [by apply Hin, Hxr|].
      intros Hac. by apply (Hdis a Hac), Hxr.
  - rewrite (Hins c'), fmap_app. apply NoDup_app. split; [done|]. split; [|done].
    intros a Ha Har. destruct (Hnew a Ha) as [Hac|Hnone]; [by apply (Hdis a)|].
    by apply Hnone, Hin.
  - intros j x Hx. rewrite length_insert. destruct (decide (j = i)) as [->|Hne].
    + rewrite list_lookup_insert_eq in Hx by (by eapply lookup_lt_Some). by injection Hx as <-.
    + rewrite list_lookup_insert_ne in Hx by done. by apply Hhash.
Qed.

(** ** The pointer that is followed *)

Definition slot_after (i : Z) (c : list (Z * V)) : slot :=
  match last c with None => Bucket i | Some (a, _) => NextOf a end.

Lemma slot_after_snoc i c a v : slot_after i (c ++ [(a, v)]) = NextOf a.
Proof. unfold slot_after. by rewrite last_snoc. Qed.

Definition first (c : list (Z * V)) : option Z := fst <$> head c.

Lemma linked_first h m p c : linked h m p c -> p = first c.
Proof. destruct c as [|[a v] c]; cbn [linked]; [by intros ->|by intros [-> _]]. Qed.

Lemma chain_search_spec h lh i c1 c found fuel :
  get_slot lh (slot_after i c1) = Some (first c) -> linked h (items lh) (first c) c -> (length c < fuel)%nat ->
  exists c2 c3, c = c2 ++ c3 /\ search fuel found lh (slot_after i c1) = Some (slot_after i (c1 ++ c2)) /\
    Forall (fun e => found e.2 = false) c2 /\ get_slot lh (slot_after i (c1 ++ c2)) = Some (first c3) /\
    linked h (items lh) (first c3) c3 /\ match c3 with [] => True | (_, v) :: _ => found v = true end.
Proof.
  revert c1 fuel. induction c as [|[a v] c IH]; intros c1 fuel Hs Hl Hf; (destruct fuel as [|fuel]; [cbn in Hf; lia|]);
    cbn [search]; rewrite Hs; cbn [mbind option_bind first head fmap option_fmap option_map fst].
  - exists [], []. rewrite !app_nil_r. by split_and!.
  - destruct Hl as (_ & q & Ha & Hl). rewrite Ha. cbn [mbind option_bind data].
    destruct (found v) eqn:E.
    + exists [], ((a, v) :: c). rewrite app_nil_r. split_and!; [done|done|done|done|split; [done|by exists q]|done].
    + pose proof (linked_first _ _ _ _ Hl) as ->.
      destruct (IH (c1 ++ [(a, v)]) fuel) as (c2 & c3 & -> & Hse & Hno & Hg & Hl3 & Hm).
      { rewrite slot_after_snoc. cbn [get_slot]. by rewrite Ha. }
      { done. }
      { cbn in Hf. lia. }
      rewrite slot_after_snoc in Hse. exists ((a, v) :: c2), c3.
      rewrite <- app_assoc in Hse, Hg. cbn [app] in Hse, Hg. split_and!; [done|done|by constructor|done|done|done].
Qed.

(** Setting the pointer behind [c1]. *)
Lemma relink h m p c1 c2 q c2' a v :
  linked h m p (c1 ++ (a, v) :: c2) -> linked h m q c2' -> NoDup (c1 ++ [(a, v)]).*1 -> a ∉ c2'.*1 ->
  (forall x, x ∈ c1.*1 -> x ∉ c2'.*1) ->
  exists it, m !! a = Some it /\ linked h (<[a := set_next q it]> m) p (c1 ++ (a, v) :: c2').
Proof.
  revert p. induction c1 as [|[b w] c1 IH]; intros p Hl Hq Hnd Ha Hdis; cbn [app linked] in *.
  - destruct Hl as (-> & q0 & Hm & _). eexists. split; [exact Hm|]. split; [done|]. exists q.
    rewrite lookup_insert_eq. split; [done|]. by apply linked_insert.
  - destruct Hl as (-> & q0 & Hm & Hl). cbn [fmap list_fmap fst] in Hnd. apply NoDup_cons in Hnd as [Hb Hnd].
    destruct (IH q0) as (it & Hit & Hl'); [done|done|done|done|intros x Hx; apply Hdis; by right|].
    exists it. split; [done|]. split; [done|]. exists q0. split; [|done].
    rewrite lookup_insert_ne; [done|]. intros ->. apply Hb. rewrite fmap_app, elem_of_app. right. by left.
Qed.
End Chains.

(** ** Keys *)

(** The comparison decides a key, and the hash function depends on it only. *)
Class Keyed {V K} (comp : V -> V -> Z) (hash : V -> Z) (key : V -> K) : Prop := {
  comp_key x y : comp x y = 0 <-> key x = key y;
  hash_key x y : key x = key y -> hash x = hash y;
  hash_nonneg x : 0 <= hash x }.

Section Maps.
Context {V K : Type} `{Countable K} (key : V -> K).

(** The map from keys to elements. *)
Definition map_of (l : list V) : gmap K V := list_to_map ((fun v => (key v, v)) <$> l).

Lemma map_of_keys l : ((fun v => (key v, v)) <$> l).*1 = key <$> l.
Proof. by rewrite <- list_fmap_compose. Qed.

Lemma map_of_elem l v : NoDup (key <$> l) -> v ∈ l -> map_of l !! key v = Some v.
Proof.
  intros Hnd Hv. apply elem_of_list_to_map_1; [by rewrite map_of_keys|].
  apply list_elem_of_fmap. by exists v.
Qed.

Lemma map_of_None l k : k ∉ key <$> l -> map_of l !! k = None.
Proof. intros Hk. apply not_elem_of_list_to_map_1. by rewrite map_of_keys. Qed.

Lemma map_of_perm l l' : l ≡ₚ l' -> NoDup (key <$> l) -> map_of l = map_of l'.
Proof. intros Hp Hnd. apply list_to_map_proper; [by rewrite map_of_keys|by rewrite Hp]. Qed.

Lemma map_of_cons v l : map_of (v :: l) = <[key v := v]> (map_of l).
Proof. done. Qed.
End Maps.

(** ** Bounds *)

Lemma rd_lookup {A} (l : list A) i : 0 <= i -> rd l i = l !! Z.to_nat i.
Proof. intros Hi. unfold rd. by rewrite bool_decide_eq_true_2. Qed.

Lemma wr_insert {A} (l : list A) i x : 0 <= i < Z.of_nat (length l) -> wr l i x = Some (<[Z.to_nat i := x]> l).
Proof.
  intros Hi. unfold wr, wrs. rewrite bool_decide_eq_true_2 by (cbn [length]; lia). f_equal.
  unfold splice. rewrite insert_take_drop by lia. cbn [length app]. do 3 f_equal. lia.
Qed.

Section Table.
Context {V K : Type} `{Countable K} {comp : V -> V -> Z} {hash : V -> Z} {key : V -> K} `{!Keyed comp hash key}.

#[local] Abbreviation lhash := (lhash (V := V)).

(** The table [lh], with the chains [cs], holds the map [m]. *)
Record table (lh : lhash) (cs : list (list (Z * V))) (m : gmap K V) : Prop := {
  t_all : linked_all hash (items lh) (buckets lh) cs;
  t_dom : dom (items lh) = list_to_set (concat cs).*1;
  t_num : num_items lh = u64 (Z.of_nat (length (concat cs)));
  t_min : kMinNumBuckets <= num_buckets lh < 2 ^ 61;
  t_depth : 0 <= callback_depth lh <= UINT_MAX;
  t_keys : NoDup (key <$> (concat cs).*2);
  t_map : m = map_of key (concat cs).*2 }.

(** What the search for [d] finds: its bucket, the items before the pointer and
    those from it on. *)
Lemma find_spec lh cs m d (found : V -> bool) h :
  table lh cs m -> h = hash d -> (forall x, found x = bool_decide (key x = key d)) ->
  exists c2 c3, cs !! Z.to_nat (h mod num_buckets lh) = Some (c2 ++ c3) /\
    search (rounds lh) found lh (Bucket (h mod num_buckets lh)) = Some (slot_after (h mod num_buckets lh) c2) /\
    get_slot lh (slot_after (h mod num_buckets lh) c2) = Some (first c3) /\
    linked hash (items lh) (first c3) c3 /\
    match c3 with [] => m !! key d = None | (_, v) :: _ => key v = key d /\ m !! key d = Some v end.
Proof.
  intros Ht -> Hfound. destruct Ht as [[Hc Hnd Hh] Hdom _ Hmin _ Hkeys ->].
  pose proof (Z.mod_pos_bound (hash d) (num_buckets lh)) as Hi. unfold kMinNumBuckets, num_buckets in *.
  set (i := hash d mod Z.of_nat (length (buckets lh))) in *. specialize (Hi ltac:(lia)).
  assert (Z.to_nat i < length (buckets lh))%nat as Hlt by lia.
  destruct (lookup_lt_is_Some_2 _ _ Hlt) as [b Hb]. destruct (Forall2_lookup_l _ _ _ _ _ Hc Hb) as (c & Hcs & Hl).
  pose proof (linked_first _ _ _ _ Hl) as ->.
  destruct (concat_split cs _ c Hcs) as (r & Hr & _).
  destruct (chain_search_spec hash lh i [] c found (rounds lh)) as (c2 & c3 & -> & Hs & Hno & Hg & Hl3 & Hm).
  { cbn. by rewrite rd_lookup by lia. }
  { done. }
  { unfold rounds. apply le_n_S. eapply linked_length; [exact Hl|].
    rewrite Hr, fmap_app in Hnd. by apply NoDup_app in Hnd as [Hnd _]. }
  exists c2, c3. split_and!; [done|done|done|done|]. destruct c3 as [|[a v] c3].
  - apply map_of_None. intros Hk. apply list_elem_of_fmap in Hk as (v & Hkv & Hv).
    apply list_elem_of_fmap in Hv as ([a w] & -> & Hv). cbn [snd] in Hkv.
    assert ((a, w) ∈ c2) as Hin.
    { apply list_elem_of_In, in_concat in Hv as (c & Hc1 & Hc2). apply list_elem_of_In in Hc1, Hc2.
      apply list_elem_of_lookup_1 in Hc1 as [j Hj]. pose proof (Hh j c Hj) as Hhj. rewrite Forall_forall in Hhj.
      specialize (Hhj _ Hc2). cbn [snd] in Hhj. rewrite (hash_key (key := key) w d) in Hhj by done.
      fold i in Hhj. assert (j = Z.to_nat i) as -> by lia. rewrite Hcs in Hj. injection Hj as <-.
      by rewrite app_nil_r in Hc2. }
    rewrite Forall_forall in Hno. specialize (Hno _ Hin). cbn [snd] in Hno. rewrite Hfound in Hno.
    by apply bool_decide_eq_false_1 in Hno.
  - rewrite Hfound in Hm. apply bool_decide_eq_true_1 in Hm. split; [done|]. rewrite <- Hm.
    apply map_of_elem; [done|]. rewrite Hr, !fmap_app, !elem_of_app. left. right. cbn. by left.
Qed.

Lemma get_next_spec lh cs m d :
  table lh cs m ->
  let i := hash d mod num_buckets lh in
  exists c2 c3, cs !! Z.to_nat i = Some (c2 ++ c3) /\
    get_next_ptr_and_hash comp hash lh d = Some (slot_after i c2, hash d) /\
    get_slot lh (slot_after i c2) = Some (first c3) /\ linked hash (items lh) (first c3) c3 /\
    match c3 with [] => m !! key d = None | (_, v) :: _ => key v = key d /\ m !! key d = Some v end.
Proof.
  intros Ht i. destruct (find_spec lh cs m d (fun x => comp x d =? 0) (hash d) Ht eq_refl) as (c2 & c3 & Hcs & Hs & Hrest).
  { intros x. apply Bool.eq_iff_eq_true. by rewrite Z.eqb_eq, bool_decide_eq_true, (comp_key (key := key)). }
  exists c2, c3. split; [done|]. split; [|done]. unfold get_next_ptr_and_hash. fold i in Hs |- *.
  pose proof (t_min _ _ _ Ht) as Hmin. unfold kMinNumBuckets in Hmin.
  rewrite (proj2 (Z.eqb_neq (num_buckets lh) 0)) by lia. by rewrite Hs.
Qed.

Lemma deref_first lh s c (o : option V) :
  get_slot lh s = Some (first c) -> linked hash (items lh) (first c) c ->
  match c with [] => o = None | (_, v) :: _ => o = Some v end -> deref_slot lh s = Some o.
Proof.
  intros Hg Hl Ho. unfold deref_slot. rewrite Hg. destruct c as [|[a v] c]; cbn; [by rewrite Ho|].
  destruct Hl as (_ & q & Ha & _). rewrite Ha. cbn. by rewrite Ho.
Qed.

Lemma retrieve_spec lh cs m d : table lh cs m -> OPENSSL_lh_retrieve comp hash lh d = Some (m !! key d).
Proof.
  intros Ht. destruct (get_next_spec lh cs m d Ht) as (c2 & c3 & _ & Hg & Hs & Hl & Hm).
  unfold OPENSSL_lh_retrieve. rewrite Hg. cbn [mbind option_bind]. eapply deref_first; [done|done|].
  destruct c3 as [|[a v] c3]; [done|apply Hm].
Qed.

(** By a key of another type, which stands for [d]. *)
Lemma retrieve_key_spec lh cs m d cmp_key :
  table lh cs m -> (forall x, cmp_key x = 0 <-> key x = key d) ->
  OPENSSL_lh_retrieve_key lh (hash d) cmp_key = Some (m !! key d).
Proof.
  intros Ht Hcmp. destruct (find_spec lh cs m d (fun x => cmp_key x =? 0) (hash d) Ht eq_refl)
    as (c2 & c3 & Hcs & Hs & Hg & Hl & Hm).
  { intros x. apply Bool.eq_iff_eq_true. by rewrite Z.eqb_eq, bool_decide_eq_true, Hcmp. }
  unfold OPENSSL_lh_retrieve_key, get_next_ptr_by_key. pose proof (t_min _ _ _ Ht) as Hmin. unfold kMinNumBuckets in Hmin.
  rewrite (proj2 (Z.eqb_neq (num_buckets lh) 0)) by lia. rewrite Hs. cbn [mbind option_bind].
  eapply deref_first; [done|done|]. destruct c3 as [|[a v] c3]; [done|apply Hm].
Qed.

(** ** Moving items to other buckets *)

Lemma move_chain_spec fuel m cur rest nb ncs :
  linked_all hash m nb ncs -> linked hash m cur rest -> NoDup (rest ++ concat ncs).*1 ->
  (length rest <= fuel)%nat -> (0 < length nb)%nat ->
  exists m' nb' ncs', move_chain fuel cur m nb = Some (m', nb') /\ linked_all hash m' nb' ncs' /\
    length nb' = length nb /\ concat ncs' ≡ₚ rest ++ concat ncs /\ dom m' = dom m /\
    (forall a, a ∉ rest.*1 -> m' !! a = m !! a).
Proof.
  revert fuel m cur nb ncs. induction rest as [|[a v] rest IH]; intros fuel m cur nb ncs Hla Hl Hnd Hf Hpos.
  { cbn in Hl. subst cur. exists m, nb, ncs. by destruct fuel. }
  destruct Hl as (-> & q & Ha & Hl). destruct fuel as [|fuel]; [cbn in Hf; lia|]. cbn [move_chain].
  rewrite Ha. cbn [mbind option_bind cached next].
  pose proof (Z.mod_pos_bound (hash v) (Z.of_nat (length nb)) ltac:(lia)) as Hj.
  set (j := hash v mod Z.of_nat (length nb)) in *.
  assert (Z.to_nat j < length nb)%nat as Hlt by lia.
  destruct (lookup_lt_is_Some_2 _ _ Hlt) as [p Hp]. destruct (Forall2_lookup_l _ _ _ _ _ (la_chains _ _ _ _ Hla) Hp) as (cj & Hcj & Hlj).
  rewrite rd_lookup, Hp by lia. cbn [mbind option_bind]. rewrite wr_insert by lia. cbn [mbind option_bind].
  cbn [app fmap list_fmap fst] in Hnd. apply NoDup_cons in Hnd as [Hna Hnd].
  rewrite fmap_app, elem_of_app in Hna.
  destruct (concat_split ncs _ cj Hcj) as (r & Hr & Hins).
  assert (a ∉ cj.*1) as Hacj.
  { intros Hx. apply Hna. right. rewrite Hr, fmap_app, elem_of_app. by left. }
  set (m1 := <[a := set_next p (mk_item v q (hash v))]> m).
  assert (linked_all hash m1 (<[Z.to_nat j := Some a]> nb) (<[Z.to_nat j := (a, v) :: cj]> ncs)) as Hla1.
  { apply (la_update hash m m1 nb ncs _ (Some a) cj); [done|done| | | | |].
    - split; [done|]. exists p. unfold m1. rewrite lookup_insert_eq. split; [done|]. by apply linked_insert.
    - cbn. apply NoDup_cons. split; [done|]. pose proof (la_nodup _ _ _ _ Hla) as Hn.
      rewrite Hr, fmap_app in Hn. by apply NoDup_app in Hn as [Hn _].
    - intros x Hx. cbn in Hx. apply elem_of_cons in Hx as [->|Hx]; [right|by left]. intros Hx. apply Hna. by right.
    - intros x Hx Hxc. unfold m1. apply lookup_insert_ne. intros ->. apply Hna. by right.
    - constructor; [cbn [snd]; fold j; lia|]. by apply (la_hash _ _ _ _ Hla). }
  destruct (IH fuel m1 q (<[Z.to_nat j := Some a]> nb) (<[Z.to_nat j := (a, v) :: cj]> ncs)) as (m' & nb' & ncs' & E & Hla' & Hlen & Hperm & Hdom & Hfr).
  { done. }
  { apply linked_insert; [done|]. intros Hx. apply Hna. by left. }
  { rewrite (Hins ((a, v) :: cj)). cbn [app]. rewrite <- Permutation_middle, <- Hr. cbn [fmap list_fmap fst].
    apply NoDup_cons. split; [rewrite fmap_app, elem_of_app; exact Hna|done]. }
  { cbn in Hf. lia. }
  { by rewrite length_insert. }
  exists m', nb', ncs'. split; [exact E|]. split; [done|]. split; [by rewrite Hlen, length_insert|]. split; [|split].
  - rewrite Hperm, (Hins ((a, v) :: cj)). cbn [app]. by rewrite <- Permutation_middle, <- Hr.
  - rewrite Hdom. unfold m1. rewrite dom_insert_L. apply subseteq_union_1_L, singleton_subseteq_l, elem_of_dom. by eexists.
  - intros x Hx. cbn in Hx. apply not_elem_of_cons in Hx as [Hxa Hx]. rewrite Hfr by done. unfold m1.
    by rewrite lookup_insert_ne.
Qed.

Lemma move_buckets_spec bs cs m nb ncs :
  Forall2 (linked hash m) bs cs -> linked_all hash m nb ncs -> NoDup (concat cs ++ concat ncs).*1 -> (0 < length nb)%nat ->
  exists m' nb' ncs', move_buckets bs m nb = Some (m', nb') /\ linked_all hash m' nb' ncs' /\
    length nb' = length nb /\ concat ncs' ≡ₚ concat cs ++ concat ncs /\ dom m' = dom m.
Proof.
  intros Hc. revert cs m nb ncs Hc. induction bs as [|b bs IH]; intros cs m nb ncs Hc; inversion Hc as [|? c ? cs' Hl Hc']; subst;
    intros Hla Hnd Hpos; cbn [move_buckets].
  - by exists m, nb, ncs.
  - cbn [concat] in *. rewrite <- app_assoc in Hnd.
    assert (NoDup (c ++ concat ncs).*1 /\ NoDup (concat cs' ++ concat ncs).*1 /\ (forall a, a ∈ c.*1 -> a ∉ (concat cs').*1)) as (Hn1 & Hn2 & Hdis).
    { rewrite !fmap_app in *. apply NoDup_app in Hnd as (H1 & H2 & H3). split; [|split; [done|]].
      - apply NoDup_app. split; [done|]. split; [|by apply NoDup_app in H3 as (_ & _ & H3)].
        intros a Ha Hx. apply (H2 a Ha). rewrite elem_of_app. by right.
      - intros a Ha Hx. apply (H2 a Ha). rewrite elem_of_app. by left. }
    destruct (move_chain_spec (size m) m b c nb ncs Hla Hl Hn1) as (m1 & nb1 & ncs1 & E & Hla1 & Hlen1 & Hp1 & Hd1 & Hfr); [|done|].
    { eapply linked_length; [done|]. rewrite fmap_app in Hn1. by apply NoDup_app in Hn1 as [? _]. }
    rewrite E. cbn [mbind option_bind].
    destruct (IH cs' m1 nb1 ncs1) as (m' & nb' & ncs' & E' & Hla' & Hlen' & Hp' & Hd').
    { clear -Hc' Hfr Hdis. induction Hc' as [|b' c' bs cs' Hl' Hc' IH]; constructor.
      - eapply linked_frame; [done|]. intros a Ha. apply Hfr. intros Hx. apply (Hdis a Hx). cbn.
        rewrite fmap_app, elem_of_app. by left.
      - apply IH. intros a Ha Hx. apply (Hdis a Ha). cbn. rewrite fmap_app, elem_of_app. by right. }
    { done. }
    { rewrite Hp1. rewrite (app_assoc (concat cs')), (Permutation_app_comm (concat cs') c), <- app_assoc. done. }
    { lia. }
    exists m', nb', ncs'. split; [exact E'|]. split; [done|]. split; [lia|]. split; [|congruence].
    rewrite Hp', Hp1. rewrite !app_assoc. by rewrite (Permutation_app_comm (concat cs') c).
Qed.

Lemma rebucket_spec malloc_ok n lh cs m :
  table lh cs m -> kMinNumBuckets <= n < 2 ^ 64 ->
  exists lh' cs', lh_rebucket malloc_ok n lh = Some lh' /\ table lh' cs' m /\ callback_depth lh' = callback_depth lh.
Proof.
  intros Ht Hn. unfold lh_rebucket, kMinNumBuckets, sizeof_pointer in *.
  destruct (u64 (8 * n) / 8 =? n) eqn:E; cbn [negb]; [|by exists lh, cs].
  destruct malloc_ok; cbn [negb]; [|by exists lh, cs].
  assert (n < 2 ^ 61) as Hn61.
  { apply Z.eqb_eq in E. unfold wrapu in E. pose proof (Z.mod_pos_bound (8 * n) (2 ^ 64) ltac:(lia)).
    pose proof (Z.div_lt_upper_bound ((8 * n) mod 2 ^ 64) 8 (2 ^ 61) ltac:(lia)). lia. }
  destruct Ht as [Hla Hdom Hnum Hmin Hdep Hkeys ->]. destruct Hla as [Hc Hnd Hh].
  set (k := Z.to_nat n).
  destruct (move_buckets_spec (buckets lh) cs (items lh) (replicate k None) (replicate k [])) as (m' & nb' & ncs' & E' & Hla' & Hlen & Hp & Hd).
  { done. }
  { assert (concat (replicate k (@nil (Z * V))) = []) as Ec by (clear; by induction k).
    constructor.
    - apply Forall2_replicate. done.
    - rewrite Ec. apply NoDup_nil_2.
    - intros i c Hi. apply lookup_replicate in Hi as [-> _]. done. }
  { assert (concat (replicate k (@nil (Z * V))) = []) as -> by (clear; by induction k). by rewrite app_nil_r. }
  { rewrite length_replicate. lia. }
  assert (concat (replicate k (@nil (Z * V))) = []) as Ec by (clear; by induction k). rewrite Ec, app_nil_r in Hp.
  rewrite E'. cbn [mbind option_bind]. eexists _, ncs'. split; [reflexivity|]. split; [|done].
  rewrite length_replicate in Hlen. constructor; cbn [items buckets num_items].
  - done.
  - rewrite Hd, Hdom. apply set_eq. intros x. rewrite !elem_of_list_to_set. by rewrite Hp.
  - by rewrite Hnum, Hp.
  - unfold num_buckets, kMinNumBuckets. cbn [buckets]. lia.
  - done.
  - by rewrite Hp.
  - symmetry. apply map_of_perm; [by rewrite Hp|by rewrite Hp].
Qed.

Lemma maybe_resize_spec malloc_ok lh cs m :
  table lh cs m -> exists lh' cs', lh_maybe_resize malloc_ok lh = Some lh' /\ table lh' cs' m /\
    callback_depth lh' = callback_depth lh.
Proof.
  intros Ht. pose proof (t_min _ _ _ Ht) as Hmin. unfold lh_maybe_resize, kMinNumBuckets in *.
  destruct (0 <? callback_depth lh); [by exists lh, cs|].
  rewrite (proj2 (Z.ltb_ge (num_buckets lh) 16)) by lia. cbv zeta.
  destruct (kMaxAverageChainLength <? _).
  - rewrite wrapu_id by (unfold in_u; lia). rewrite (proj2 (Z.ltb_lt (num_buckets lh) _)) by lia.
    eapply rebucket_spec; [done|]. unfold kMinNumBuckets. lia.
  - destruct (_ && _); [|by exists lh, cs]. eapply rebucket_spec; [done|]. unfold kMinNumBuckets.
    pose proof (Z.div_lt (num_buckets lh) 2 ltac:(lia) ltac:(lia)). case_match; lia.
Qed.
End Table.
