(* ===== verification/LHashOps.v ===== *)
(** * BoringSSL: the operations of a hash table on its map

    Creating, inserting, deleting, releasing and walking a table, each as what
    it does to the map of [LHashSpec]. *)
From S2P Require Import Prelude CBuf LHash LHashSpec.

Section Slots.
Context {V : Type} (h : V -> Z).

#[local] Abbreviation lhash := (lhash (V := V)).

(** Writing the pointer behind [c2] replaces what the chain goes on with;
    [m1] is the store with what the new rest needs. *)
Lemma set_slot_spec lh m1 cs i c2 c3 p c3' :
  0 <= i -> linked_all h (items lh) (buckets lh) cs -> cs !! Z.to_nat i = Some (c2 ++ c3) ->
  (forall a, a ∈ (concat cs).*1 -> m1 !! a = items lh !! a) ->
  linked h m1 p c3' -> NoDup (c2 ++ c3').*1 ->
  (forall a, a ∈ c3'.*1 -> a ∈ c3.*1 \/ a ∉ (concat cs).*1) ->
  Forall (fun e => h e.2 mod num_buckets lh = i) c3' ->
  exists lh', set_slot (slot_after i c2) p (set_items m1 lh) = Some lh' /\
    linked_all h (items lh') (buckets lh') (<[Z.to_nat i := c2 ++ c3']> cs) /\
    num_items lh' = num_items lh /\ callback_depth lh' = callback_depth lh /\
    length (buckets lh') = length (buckets lh) /\ dom (items lh') = dom m1.
Proof.
  intros Hi Hla Hcs Hm1 Hl Hnd Hnew Hhash. pose proof Hla as [Hc Hall Hh].
  destruct (Forall2_lookup_r _ _ _ _ _ Hc Hcs) as (b & Hb & Hlb).
  assert (Z.to_nat i < length (buckets lh))%nat as Hlt by by eapply lookup_lt_Some.
  assert (forall a, a ∈ (c2 ++ c3).*1 -> a ∈ (concat cs).*1) as Hin.
  { intros a Ha. destruct (concat_split cs _ _ Hcs) as (r & Hr & _). rewrite Hr, fmap_app, elem_of_app. by left. }
  assert (Forall (fun e => h e.2 mod Z.of_nat (length (buckets lh)) = Z.of_nat (Z.to_nat i)) (c2 ++ c3')) as Hh'.
  { apply Forall_app. split; [specialize (Hh _ _ Hcs); by apply Forall_app in Hh as [Hh _]|].
    rewrite Z2Nat.id by lia. exact Hhash. }
  assert (forall a, a ∈ (c2 ++ c3').*1 -> a ∈ (c2 ++ c3).*1 \/ a ∉ (concat cs).*1) as Hnew'.
  { intros a. rewrite !fmap_app, !elem_of_app. intros [Ha|Ha]; [by left; left|].
    destruct (Hnew a Ha) as [?|?]; [by left; right|by right]. }
  pose proof (linked_frame h _ m1 _ _ Hlb (fun a Ha => Hm1 a (Hin a Ha))) as Hlb1.
  destruct c2 as [|[a v] c1 _] using rev_ind.
  - cbn [slot_after last set_slot set_items buckets items]. rewrite wr_insert by lia. cbn [mbind option_bind].
    eexists. split; [reflexivity|]. cbn [buckets items num_items callback_depth set_buckets]. split; [|by rewrite length_insert].
    apply (la_update h (items lh) m1 _ cs _ p c3 c3'); [done|done|done|done|done| |done].
    intros a Ha _. by apply Hm1.
  - rewrite slot_after_snoc. rewrite <- !app_assoc in *. cbn [app] in *.
    rewrite fmap_app in Hnd. cbn [fmap list_fmap fst] in Hnd. pose proof Hnd as Hnd'.
    apply NoDup_app in Hnd' as (Hnd1 & Hdis & Hnd2). apply NoDup_cons in Hnd2 as [Ha2 Hnd2].
    destruct (relink h m1 b c1 c3 p c3' a v Hlb1 Hl) as (it & Hit & Hl').
    { rewrite fmap_app. apply NoDup_app. split; [done|]. split; [|apply NoDup_singleton].
      intros x Hx Hxa. apply (Hdis x Hx). apply list_elem_of_singleton in Hxa as ->. by left. }
    { done. }
    { intros x Hx Hx3. apply (Hdis x Hx). by right. }
    cbn [set_slot set_items items]. rewrite Hit. cbn [mbind option_bind]. eexists. split; [reflexivity|].
    cbn [buckets items num_items callback_depth set_buckets set_items]. split_and!; [|done|done|done|].
    + replace (buckets lh) with (<[Z.to_nat i := b]> (buckets lh)) by by apply list_insert_id.
      apply (la_update h (items lh) _ _ cs _ b (c1 ++ (a, v) :: c3)); [done|done|exact Hl'|by rewrite fmap_app| | |done].
      * intros x. specialize (Hnew' x). rewrite !fmap_app in *. exact Hnew'.
      * intros x Hx Hxc. rewrite lookup_insert_ne; [by apply Hm1|]. intros ->. apply Hxc.
        rewrite fmap_app, elem_of_app. right. by left.
    + rewrite dom_insert_L. apply subseteq_union_1_L, singleton_subseteq_l, elem_of_dom. by eexists.
Qed.

Lemma la_weaken m m' bs cs :
  linked_all h m bs cs -> (forall a, a ∈ (concat cs).*1 -> m' !! a = m !! a) -> linked_all h m' bs cs.
Proof.
  intros [Hc Hnd Hh] Hm. constructor; [|done|done]. clear Hnd Hh. induction Hc as [|b c bs cs Hl Hc IH]; constructor.
  - eapply linked_frame; [done|]. intros a Ha. apply Hm. cbn. rewrite fmap_app, elem_of_app. by left.
  - apply IH. intros a Ha. apply Hm. cbn. rewrite fmap_app, elem_of_app. by right.
Qed.

Lemma linked_at m p c1 a v c2 :
  linked h m p (c1 ++ (a, v) :: c2) -> exists q, m !! a = Some (mk_item v q (h v)) /\ linked h m q c2.
Proof.
  revert p. induction c1 as [|[b w] c1 IH]; intros p Hl; destruct Hl as (_ & q & Hq & Hl); [by exists q|by eapply IH].
Qed.

(** Replacing the data of an item. *)
Lemma set_data m p c1 c2 a v d :
  linked h m p (c1 ++ (a, v) :: c2) -> NoDup (c1 ++ (a, v) :: c2).*1 -> h v = h d ->
  exists q, m !! a = Some (mk_item v q (h v)) /\
    linked h (<[a := mk_item d q (h v)]> m) p (c1 ++ (a, d) :: c2).
Proof.
  revert p. induction c1 as [|[b w] c1 IH]; intros p Hl Hnd Hv; cbn [app linked fmap list_fmap fst] in *;
    apply NoDup_cons in Hnd as [Hb Hnd].
  - destruct Hl as (-> & q & Ha & Hl). exists q. split; [done|]. split; [done|]. exists q.
    rewrite lookup_insert_eq, Hv. split; [done|]. by apply linked_insert.
  - destruct Hl as (-> & q & Hbq & Hl). destruct (IH q Hl Hnd Hv) as (q' & Ha & Hl'). exists q'. split; [done|].
    split; [done|]. exists q. rewrite lookup_insert_ne; [done|]. intros ->. apply Hb.
    rewrite fmap_app, elem_of_app. right. by left.
Qed.
End Slots.

Section Ops.
Context {V K : Type} `{Countable K} {comp : V -> V -> Z} {hash : V -> Z} {key : V -> K} `{!Keyed comp hash key}.

#[local] Abbreviation lhash := (lhash (V := V)).
#[local] Abbreviation table := (table (hash := hash) (key := key)).

Lemma new_table : exists cs, table (mk_lhash 0 (replicate (Z.to_nat kMinNumBuckets) None) 0 ∅) cs ∅.
Proof.
  exists (replicate 16 []). assert (concat (replicate 16 (@nil (Z * V))) = []) as Ec by done.
  constructor; rewrite ?Ec; [|done|done|done|done|apply NoDup_nil_2|done].
  constructor; rewrite ?Ec; [by apply Forall2_replicate|apply NoDup_nil_2|].
  intros i c Hi. by apply lookup_replicate in Hi as [-> _].
Qed.

(** ** Chains that keep the table *)

(** The chains of a table decide its map, and the rest of what a table has. *)
Lemma table_chains lh cs m : table lh cs m -> m = map_of key (concat cs).*2.
Proof. by intros []. Qed.

Lemma table_intro (lh lh' : lhash) cs cs' m :
  table lh cs m -> linked_all hash (items lh') (buckets lh') cs' ->
  dom (items lh') = list_to_set (concat cs').*1 -> num_items lh' = u64 (Z.of_nat (length (concat cs'))) ->
  length (buckets lh') = length (buckets lh) -> callback_depth lh' = callback_depth lh ->
  NoDup (key <$> (concat cs').*2) -> table lh' cs' (map_of key (concat cs').*2).
Proof.
  intros [_ _ _ Hmin Hdep _ _] Hla Hdom Hnum Hlen Hd Hk. unfold num_buckets in Hmin.
  constructor; unfold num_buckets; rewrite ?Hlen, ?Hd; done.
Qed.

(** The elements of a bucket among all. *)
Lemma in_bucket lh cs m i c v :
  table lh cs m -> cs !! i = Some c -> v ∈ c.*2 -> hash v mod num_buckets lh = Z.of_nat i.
Proof.
  intros Ht Hi Hv. apply list_elem_of_fmap in Hv as ([a w] & -> & Hv).
  pose proof (la_hash _ _ _ _ (t_all _ _ _ Ht) _ _ Hi) as Hh. rewrite Forall_forall in Hh. exact (Hh _ Hv).
Qed.

Lemma split_unique {A B} (f : A -> B) l1 x l2 l1' y l2' :
  NoDup (f <$> (l1 ++ x :: l2)) -> l1 ++ x :: l2 = l1' ++ y :: l2' -> f x = f y -> l1 = l1' /\ x = y /\ l2 = l2'.
Proof.
  revert l1'. induction l1 as [|z l1 IH]; intros [|z' l1'] Hnd E Hxy; cbn in *; injection E as <- E;
    apply NoDup_cons in Hnd as [Hz Hnd].
  - done.
  - destruct Hz. rewrite E, Hxy, fmap_app, elem_of_app. right. by left.
  - destruct Hz. rewrite <- Hxy, fmap_app, elem_of_app. right. by left.
  - by destruct (IH _ Hnd E Hxy) as (-> & -> & ->).
Qed.

(** ** Inserting *)

Lemma insert_old (l1 l2 : list V) v d m r :
  key v = key d -> NoDup (key <$> r) -> r ≡ₚ l1 ++ v :: l2 -> m = map_of key r ->
  NoDup (key <$> l1 ++ d :: l2) /\ map_of key (l1 ++ d :: l2) = <[key d := d]> m.
Proof.
  intros Hk Hnd Hr ->. assert (key <$> l1 ++ d :: l2 = key <$> l1 ++ v :: l2) as E by (rewrite !fmap_app; cbn; by rewrite Hk).
  assert (NoDup (key <$> l1 ++ d :: l2)) as Hnd' by (rewrite E, <- Hr; done). split; [done|].
  rewrite (map_of_perm key _ (d :: l1 ++ l2)) by (try done; by rewrite Permutation_middle).
  rewrite (map_of_perm key r (v :: l1 ++ l2)) by (try done; by rewrite Hr, Permutation_middle).
  rewrite !map_of_cons, Hk. by rewrite insert_insert_eq.
Qed.

(** A new item at the end of the bucket of [d]. *)
Lemma insert_new lh cs m d c2 :
  table lh cs m -> m !! key d = None -> let i := hash d mod num_buckets lh in
  cs !! Z.to_nat i = Some c2 ->
  let a := fresh (dom (items lh)) in
  exists lh1, set_slot (slot_after i c2) (Some a) (set_items (<[a := mk_item d None (hash d)]> (items lh)) lh) = Some lh1 /\
    callback_depth lh1 = callback_depth lh /\
    table (set_num_items (u64 (num_items lh1 + 1)) lh1) (<[Z.to_nat i := c2 ++ [(a, d)]]> cs) (<[key d := d]> m).
Proof.
  intros Ht Hm i Hcs a. pose proof Ht as [Hla Hdom Hnum Hmin Hdep Hkeys Hmap].
  destruct (concat_split cs _ _ Hcs) as (r & Hr & Hins).
  assert (0 <= i) as Hi0 by (unfold kMinNumBuckets in Hmin; apply Z.mod_pos_bound; lia).
  set (m1 := <[a := mk_item d None (hash d)]> (items lh)).
  assert (a ∉ (concat cs).*1) as Ha by (rewrite <- (elem_of_list_to_set (C := gset Z)), <- Hdom; apply is_fresh).
  assert (NoDup (c2 ++ [(a, d)]).*1) as Hnd2.
  { pose proof (la_nodup _ _ _ _ Hla) as Hnd. rewrite fmap_app. apply NoDup_app. rewrite Hr, fmap_app in Hnd.
    apply NoDup_app in Hnd as (Hnd & _ & _). split; [done|]. split; [|apply NoDup_singleton].
    intros x Hx Hxa. apply list_elem_of_singleton in Hxa as ->. apply Ha. rewrite Hr, fmap_app, elem_of_app. by left. }
  assert (key d ∉ key <$> (concat cs).*2) as Hkd.
  { intros Hk. apply list_elem_of_fmap in Hk as (w & Hw & Hk). pose proof (map_of_elem key _ w Hkeys Hk) as Hx.
    rewrite <- Hmap, <- Hw in Hx. congruence. }
  destruct (set_slot_spec hash lh m1 cs i c2 [] (Some a) [(a, d)]) as (lh1 & E & Hla1 & Hn1 & Hd1 & Hlen1 & Hdom1);
    [done|done|by rewrite app_nil_r| | |done| |by constructor|].
  { intros x Hx. unfold m1. apply lookup_insert_ne. by intros ->. }
  { split; [done|]. exists None. unfold m1. by rewrite lookup_insert_eq. }
  { intros x Hx. apply list_elem_of_singleton in Hx as ->. by right. }
  assert (concat (<[Z.to_nat i:=c2 ++ [(a, d)]]> cs) ≡ₚ (a, d) :: concat cs) as Hp.
  { rewrite (Hins (c2 ++ [(a, d)])), <- app_assoc. cbn [app]. by rewrite <- Permutation_middle, <- Hr. }
  assert (NoDup (key <$> (concat (<[Z.to_nat i:=c2 ++ [(a, d)]]> cs)).*2)) as Hk' by (rewrite Hp; cbn; by apply NoDup_cons).
  exists lh1. split; [done|]. split; [done|].
  replace (<[key d := d]> m) with (map_of key (concat (<[Z.to_nat i:=c2 ++ [(a, d)]]> cs)).*2).
  - eapply (table_intro lh); [done|done| | |done|done|done].
    + cbn [items set_num_items]. rewrite Hdom1. unfold m1. rewrite dom_insert_L, Hdom. apply set_eq. intros x.
      rewrite elem_of_union, elem_of_singleton, !elem_of_list_to_set, Hp. cbn. by rewrite elem_of_cons.
    + cbn [num_items set_num_items]. rewrite Hn1, Hnum, Hp. cbn [length]. unfold wrapu.
      rewrite Zplus_mod_idemp_l. f_equal. lia.
  - rewrite Hmap. by rewrite (map_of_perm key _ (d :: (concat cs).*2)); [|rewrite Hp|].
Qed.

(** Replacing the data of the item that is found. *)
Lemma insert_found lh cs m d c2 a v c3 :
  table lh cs m -> key v = key d -> let i := hash d mod num_buckets lh in
  cs !! Z.to_nat i = Some (c2 ++ (a, v) :: c3) ->
  exists it, items lh !! a = Some it /\ data it = v /\
    table (set_items (<[a := mk_item d (next it) (cached it)]> (items lh)) lh)
      (<[Z.to_nat i := c2 ++ (a, d) :: c3]> cs) (<[key d := d]> m).
Proof.
  intros Ht Hk i Hcs. pose proof Ht as [Hla Hdom Hnum Hmin Hdep Hkeys Hmap]. pose proof Hla as [Hc Hnd Hh].
  destruct (concat_split cs _ _ Hcs) as (r & Hr & Hins). specialize (Hins (c2 ++ (a, d) :: c3)).
  assert (hash v = hash d) as Hv by by apply (hash_key (key := key)).
  destruct (Forall2_lookup_r _ _ _ _ _ Hc Hcs) as (b & Hb & Hlb).
  assert (NoDup (c2 ++ (a, v) :: c3).*1) as Hndc by (rewrite Hr, fmap_app in Hnd; by apply NoDup_app in Hnd as [Hnd _]).
  destruct (set_data hash (items lh) b c2 c3 a v d Hlb Hndc Hv) as (q & Ha & Hl').
  eexists. split; [exact Ha|]. split; [done|]. cbn [next cached].
  set (cs' := <[Z.to_nat i := c2 ++ (a, d) :: c3]> cs) in *.
  assert ((concat cs').*2 ≡ₚ c2.*2 ++ d :: (c3 ++ r).*2) as Hp by (by rewrite Hins, <- app_assoc, fmap_app).
  assert ((concat cs).*2 ≡ₚ c2.*2 ++ v :: (c3 ++ r).*2) as Hr2 by (by rewrite Hr, <- app_assoc, fmap_app).
  destruct (insert_old c2.*2 (c3 ++ r).*2 v d m _ Hk Hkeys Hr2 Hmap) as [Hnd' <-].
  assert (NoDup (key <$> (concat cs').*2)) as Hkeys' by (by rewrite Hp).
  rewrite <- (map_of_perm key (concat cs').*2 _ Hp) by done.
  assert ((c2 ++ (a, d) :: c3).*1 = (c2 ++ (a, v) :: c3).*1) as E1 by by rewrite !fmap_app.
  eapply (table_intro lh); [done| | | |done|done|done]; cbn [items buckets num_items set_items].
  - replace (buckets lh) with (<[Z.to_nat i := b]> (buckets lh)) by by apply list_insert_id.
    apply (la_update hash (items lh) _ _ cs _ b (c2 ++ (a, v) :: c3)); [done|done|exact Hl'|by rewrite E1| | |].
    + intros x. rewrite E1. by left.
    + intros x _ Hx. apply lookup_insert_ne. intros ->. apply Hx. rewrite fmap_app, elem_of_app. right. by left.
    + specialize (Hh _ _ Hcs). rewrite Forall_app in Hh |- *. destruct Hh as [Hh1 Hh2]. split; [done|].
      inversion Hh2 as [|? ? Hh3 Hh4]; subst. constructor; [|done]. cbn [snd] in *. by rewrite <- Hv.
  - rewrite dom_insert_L, Hdom. apply set_eq. intros x. rewrite elem_of_union, elem_of_singleton, !elem_of_list_to_set, Hr, Hins.
    rewrite !(fmap_app _ _ r), E1, !elem_of_app. split; [|tauto]. intros [->|?]; [|done]. left. rewrite fmap_app, elem_of_app. right. by left.
  - rewrite Hnum, Hr, Hins, !length_app. done.
Qed.

Lemma insert_spec item_ok malloc_ok d lh cs m :
  table lh cs m ->
  let stored := bool_decide (is_Some (m !! key d)) || item_ok in
  exists lh' cs', OPENSSL_lh_insert comp hash item_ok malloc_ok d lh = Some (stored, m !! key d, lh') /\
    table lh' cs' (if stored then <[key d := d]> m else m) /\ callback_depth lh' = callback_depth lh.
Proof.
  intros Ht. destruct (get_next_spec lh cs m d Ht) as (c2 & c3 & Hcs & Hg & Hs & Hl & Hm). cbv zeta.
  unfold OPENSSL_lh_insert. rewrite Hg. cbn [mbind option_bind]. rewrite Hs. cbn [mbind option_bind].
  destruct c3 as [|[a v] c3]; cbn [first head fmap option_fmap option_map fst].
  - rewrite Hm, app_nil_r in *. destruct item_ok; cbn [negb orb bool_decide decide]; [|by exists lh, cs].
    destruct (insert_new lh cs m d c2 Ht Hm Hcs) as (lh1 & E & Hd1 & Ht1). rewrite E. cbn [mbind option_bind].
    destruct (maybe_resize_spec malloc_ok _ _ _ Ht1) as (lh2 & cs2 & E2 & Ht2 & Hd2).
    rewrite E2. exists lh2, cs2. split; [done|]. split; [done|]. by rewrite Hd2.
  - destruct Hm as [Hk Hm]. rewrite Hm. rewrite bool_decide_eq_true_2 by (by eexists).
    destruct (insert_found lh cs m d c2 a v c3 Ht Hk Hcs) as (it & Ha & <- & Ht'). rewrite Ha.
    eexists _, _. split; [reflexivity|]. by split.
Qed.

(** ** Deleting *)

(** Without the item that is found. *)
Lemma delete_found lh cs m d c2 a v c3 :
  table lh cs m -> key v = key d -> let i := hash d mod num_buckets lh in
  cs !! Z.to_nat i = Some (c2 ++ (a, v) :: c3) ->
  exists it lh1, items lh !! a = Some it /\ data it = v /\ set_slot (slot_after i c2) (next it) lh = Some lh1 /\
    callback_depth lh1 = callback_depth lh /\ length (buckets lh1) = length (buckets lh) /\
    table (set_num_items (u64 (num_items lh1 - 1)) (set_items (delete a (items lh1)) lh1))
      (<[Z.to_nat i := c2 ++ c3]> cs) (delete (key d) m).
Proof.
  intros Ht Hk i Hcs. pose proof Ht as [Hla Hdom Hnum Hmin Hdep Hkeys Hmap]. pose proof Hla as [Hc Hnd Hh].
  destruct (concat_split cs _ _ Hcs) as (r & Hr & Hins). specialize (Hins (c2 ++ c3)).
  assert (0 <= i) as Hi0 by (unfold kMinNumBuckets in Hmin; apply Z.mod_pos_bound; lia).
  set (cs' := <[Z.to_nat i := c2 ++ c3]> cs) in *.
  assert (concat cs ≡ₚ (a, v) :: concat cs') as Hp.
  { rewrite Hr, Hins, <- !app_assoc. cbn [app]. by rewrite <- Permutation_middle. }
  assert ((a ∉ (concat cs').*1) /\ NoDup (concat cs').*1) as [Ha Hnd'] by (rewrite Hp in Hnd; by apply NoDup_cons in Hnd).
  assert ((key v ∉ key <$> (concat cs').*2) /\ NoDup (key <$> (concat cs').*2)) as [Hkv Hk'].
  { rewrite Hp in Hkeys. by apply NoDup_cons in Hkeys. }
  destruct (Forall2_lookup_r _ _ _ _ _ Hc Hcs) as (b & _ & Hlb).
  destruct (linked_at _ _ _ _ _ _ _ Hlb) as (q & Hit & Hl3).
  destruct (set_slot_spec hash lh (items lh) cs i c2 ((a, v) :: c3) q c3) as (lh1 & E & Hla1 & Hn1 & Hd1 & Hlen1 & Hdom1);
    [done|done|done|done|done| | | |].
  { rewrite Hins, fmap_app in Hnd'. by apply NoDup_app in Hnd' as [? _]. }
  { intros x Hx. left. by right. }
  { specialize (Hh _ _ Hcs). apply Forall_app in Hh as [_ Hh]. inversion Hh as [|? ? _ Hh3]; subst. rewrite Z2Nat.id in Hh3 by lia. exact Hh3. }
  exists (mk_item v q (hash v)), lh1. cbn [next data].
  replace (set_items (items lh) lh) with lh in E by by destruct lh. split_and!; [done|done|done|done|done|].
  replace (delete (key d) m) with (map_of key (concat cs').*2).
  - eapply (table_intro lh); [done| | | |done|done|done]; cbn [items buckets num_items set_num_items set_items].
    + eapply la_weaken; [exact Hla1|]. intros x Hx. apply lookup_delete_ne. by intros ->.
    + rewrite dom_delete_L, Hdom1, Hdom. apply set_eq. intros x.
      rewrite elem_of_difference, elem_of_singleton, !elem_of_list_to_set, Hp. cbn [fmap list_fmap fst]. rewrite elem_of_cons. split; [tauto|].
      intros Hx. split; [by right|]. by intros ->.
    + rewrite Hn1, Hnum, Hp. cbn [length]. unfold wrapu. rewrite Zminus_mod_idemp_l. f_equal. lia.
  - rewrite Hmap, (map_of_perm key (concat cs).*2 (v :: (concat cs').*2)); [|by rewrite Hp|done].
    rewrite map_of_cons, <- Hk, delete_insert_eq. symmetry. apply delete_id, map_of_None, Hkv.
Qed.

Lemma delete_absent malloc_ok d lh cs m :
  table lh cs m -> m !! key d = None -> OPENSSL_lh_delete comp hash malloc_ok d lh = Some (None, lh).
Proof.
  intros Ht Hd. destruct (get_next_spec lh cs m d Ht) as (c2 & c3 & Hcs & Hg & Hs & Hl & Hm).
  unfold OPENSSL_lh_delete. rewrite Hg. cbn [mbind option_bind]. rewrite Hs. cbn [mbind option_bind].
  destruct c3 as [|[a v] c3]; [done|]. destruct Hm as [_ Hm]. congruence.
Qed.

Lemma delete_spec malloc_ok d lh cs m :
  table lh cs m ->
  exists lh' cs', OPENSSL_lh_delete comp hash malloc_ok d lh = Some (m !! key d, lh') /\
    table lh' cs' (delete (key d) m) /\ callback_depth lh' = callback_depth lh.
Proof.
  intros Ht. destruct (get_next_spec lh cs m d Ht) as (c2 & c3 & Hcs & Hg & Hs & Hl & Hm).
  unfold OPENSSL_lh_delete. rewrite Hg. cbn [mbind option_bind]. rewrite Hs. cbn [mbind option_bind].
  destruct c3 as [|[a v] c3]; cbn [first head fmap option_fmap option_map fst].
  - rewrite Hm. exists lh, cs. by rewrite delete_id.
  - destruct Hm as [Hk Hm]. rewrite Hm.
    destruct (delete_found lh cs m d c2 a v c3 Ht Hk Hcs) as (it & lh1 & Ha & <- & E & Hd1 & _ & Ht1).
    rewrite Ha. cbn [mbind option_bind]. rewrite E. cbn [mbind option_bind].
    destruct (maybe_resize_spec malloc_ok _ _ _ Ht1) as (lh2 & cs2 & E2 & Ht2 & Hd2).
    cbn [set_items num_items items] in E2 |- *. rewrite E2. exists lh2, cs2. split; [done|]. split; [done|]. by rewrite Hd2.
Qed.
End Ops.
