(* ===== verification/LHashWalk.v ===== *)
(** * BoringSSL: walking a hash table, and its load

    Releasing and walking a table, then the bounds of the load factor. *)
From S2P Require Import Prelude CBuf LHash LHashSpec LHashOps.

(** ** BoringSSL: releasing and walking a hash table

    [OPENSSL_lh_free] and [OPENSSL_lh_doall_arg], with a callback that may
    delete the element it is called with. *)

(** ** Releasing *)

Section Free.
Context {V : Type} (h : V -> Z).

#[local] Abbreviation store := (gmap Z (lhash_item (V := V))).

(** [m'] is [m] without the addresses [l]. *)
Definition without (l : list Z) (m m' : store) : Prop :=
  forall a, m' !! a = if bool_decide (a ∈ l) then None else m !! a.

Lemma without_cons a l (m m' : store) : without l (delete a m) m' -> without (a :: l) m m'.
Proof.
  intros Hw x. rewrite Hw. destruct (decide (x = a)) as [->|Hne].
  - rewrite lookup_delete_eq, (bool_decide_eq_true_2 (a ∈ a :: l)) by by left. by case_match.
  - rewrite lookup_delete_ne by done. rewrite (bool_decide_ext (x ∈ l) (x ∈ a :: l)); [done|].
    rewrite elem_of_cons. tauto.
Qed.

Lemma without_app l1 l2 (m m1 m2 : store) : without l1 m m1 -> without l2 m1 m2 -> without (l1 ++ l2) m m2.
Proof.
  intros H1 H2 x. rewrite H2, H1. destruct (decide (x ∈ l1)) as [Hx|Hx].
  - rewrite (bool_decide_eq_true_2 (x ∈ l1)), (bool_decide_eq_true_2 (x ∈ l1 ++ l2)) by (rewrite ?elem_of_app; tauto). by case_match.
  - rewrite (bool_decide_eq_false_2 (x ∈ l1)) by done.
    rewrite (bool_decide_ext (x ∈ l2) (x ∈ l1 ++ l2)); [done|]. rewrite elem_of_app. tauto.
Qed.

Lemma free_chain_spec fuel p c (m : store) :
  linked h m p c -> NoDup c.*1 -> (length c <= fuel)%nat -> exists m', free_chain fuel p m = Some m' /\ without c.*1 m m'.
Proof.
  revert fuel p m. induction c as [|[a v] c IH]; intros fuel p m Hl Hnd Hf.
  - cbn in Hl. subst p. exists m. by destruct fuel.
  - destruct Hl as (-> & q & Ha & Hl). destruct fuel as [|fuel]; [cbn in Hf; lia|]. cbn [free_chain]. rewrite Ha. cbn [mbind option_bind next].
    cbn in Hnd. apply NoDup_cons in Hnd as [Hna Hnd].
    destruct (IH fuel q (delete a m)) as (m' & E & Hw); [by apply linked_delete|done|cbn in Hf; lia|].
    exists m'. split; [exact E|]. by apply without_cons.
Qed.

Lemma free_buckets_spec bs cs (m : store) :
  Forall2 (linked h m) bs cs -> NoDup (concat cs).*1 -> exists m', free_buckets bs m = Some m' /\ without (concat cs).*1 m m'.
Proof.
  intros Hc. revert bs m Hc. induction cs as [|c cs IH]; intros bs m Hc Hnd; inversion Hc as [|b ? bs' ? Hl Hc']; subst.
  - by exists m.
  - cbn [concat free_buckets] in *. rewrite fmap_app in *. apply NoDup_app in Hnd as (Hnd1 & Hdis & Hnd2).
    destruct (free_chain_spec (size m) b c m Hl Hnd1) as (m1 & E1 & Hw1); [by eapply linked_length|]. rewrite E1. cbn [mbind option_bind].
    destruct (IH bs' m1) as (m2 & E2 & Hw2).
    { clear -Hc' Hw1 Hdis. induction Hc' as [|b c' bs cs Hl Hc IH]; constructor.
      - eapply linked_frame; [done|]. intros a Ha. rewrite Hw1, bool_decide_eq_false_2; [done|]. intros Hx.
        apply (Hdis a Hx). cbn. rewrite fmap_app, elem_of_app. by left.
      - apply IH. intros a Ha Hx. apply (Hdis a Ha). cbn. rewrite fmap_app, elem_of_app. by right. }
    { done. }
    exists m2. split; [exact E2|]. by eapply without_app.
Qed.
End Free.

(** ** Walking *)

Section Walk.
Context {V K : Type} `{Countable K} {comp : V -> V -> Z} {hash : V -> Z} {key : V -> K} `{!Keyed comp hash key}.
Context {T : Type} (pick : T -> V -> T * bool).

#[local] Abbreviation lhash := (lhash (V := V)).
#[local] Abbreviation table := (table (hash := hash) (key := key)).

Lemma free_spec lh cs m : table lh cs m -> OPENSSL_lh_free lh = Some ∅.
Proof.
  intros Ht. pose proof (t_all _ _ _ Ht) as [Hc Hnd _]. destruct (free_buckets_spec hash _ _ _ Hc Hnd) as (m' & E & Hw).
  unfold OPENSSL_lh_free. rewrite E. f_equal. apply map_empty. intros a. rewrite Hw.
  destruct (decide (a ∈ (concat cs).*1)); [by rewrite bool_decide_eq_true_2|]. rewrite bool_decide_eq_false_2 by done.
  apply not_elem_of_dom. by rewrite (t_dom _ _ _ Ht), elem_of_list_to_set.
Qed.

(** A callback that keeps or deletes its element, and a state of its own. *)
Definition visit (v : V) (st : T * lhash) : option (T * lhash) :=
  let '(t, del) := pick st.1 v in
  if del then '(_, lh) ← OPENSSL_lh_delete comp hash true v st.2; Some (t, lh) else Some (t, st.2).

Lemma visit_pair v t lh :
  visit v (t, lh) =
  let '(t', del) := pick t v in
  if del then '(_, lh) ← OPENSSL_lh_delete comp hash true v lh; Some (t', lh) else Some (t', lh).
Proof. done. Qed.

(** The same on a list of elements: the last state and the elements kept. *)
Fixpoint visits {A} (elt : A -> V) (l : list A) (t : T) : T * list A :=
  match l with
  | [] => (t, [])
  | v :: l' =>
      let '(t1, del) := pick t (elt v) in
      let '(t2, kept) := visits elt l' t1 in
      (t2, if del then kept else v :: kept)
  end.

Lemma visits_fmap (l : list (Z * V)) t : visits id l.*2 t = ((visits snd l t).1, (visits snd l t).2.*2).
Proof.
  revert t. induction l as [|v l IH]; intros t; [done|]. rewrite fmap_cons. cbn [visits]. unfold id at 1.
  destruct (pick t v.2) as [t1 del]. rewrite IH. destruct (visits snd l t1) as [t2 kept]. by destruct del.
Qed.

Lemma visits_app {A} (elt : A -> V) l1 l2 t :
  visits elt (l1 ++ l2) t = ((visits elt l2 (visits elt l1 t).1).1, (visits elt l1 t).2 ++ (visits elt l2 (visits elt l1 t).1).2).
Proof.
  revert t. induction l1 as [|v l1 IH]; intros t; cbn [app visits fst snd]; [by destruct (visits elt l2 t)|].
  destruct (pick t (elt v)) as [t1 del]. rewrite IH. destruct (visits elt l1 t1) as [t2 kept]. cbn [fst snd]. by destruct del.
Qed.

(** Deleting an element of which the place is known, while no resizing is
    allowed. *)
Lemma delete_at lh cs m i c2 a v c3 :
  table lh cs m -> 0 < callback_depth lh -> cs !! i = Some (c2 ++ (a, v) :: c3) ->
  exists lh', OPENSSL_lh_delete comp hash true v lh = Some (Some v, lh') /\
    table lh' (<[i := c2 ++ c3]> cs) (delete (key v) m) /\
    callback_depth lh' = callback_depth lh /\ length (buckets lh') = length (buckets lh).
Proof.
  intros Ht Hd Hcs. destruct (get_next_spec lh cs m v Ht) as (c2' & c3' & Hcs' & Hg & Hs & Hl & Hm).
  assert (hash v mod num_buckets lh = Z.of_nat i) as Hi.
  { eapply in_bucket; [done|done|]. rewrite fmap_app, elem_of_app. right. by left. }
  rewrite Hi, Nat2Z.id, Hcs in Hcs'. injection Hcs' as Hsame.
  destruct (concat_split cs _ _ Hcs) as (r & Hr & _). pose proof (t_keys _ _ _ Ht) as Hkeys.
  rewrite Hr, fmap_app, fmap_app in Hkeys. apply NoDup_app in Hkeys as (Hkeys & _ & _).
  assert (m !! key v = Some v) as Hmv.
  { rewrite (t_map _ _ _ Ht). apply map_of_elem; [apply (t_keys _ _ _ Ht)|]. rewrite Hr, !fmap_app, !elem_of_app. left. right. by left. }
  destruct c3' as [|[a' v'] c3']; [congruence|]. destruct Hm as [Hk Hm]. rewrite Hmv in Hm. injection Hm as <-.
  destruct (split_unique (fun e => key e.2) c2 (a, v) c3 c2' (a', v) c3') as (<- & E & <-);
    [by rewrite <- list_fmap_compose in Hkeys|done|done|]. injection E as <-.
  destruct (delete_found lh cs m v c2 a v c3 Ht eq_refl) as (it & lh1 & Ha & <- & E & Hd1 & Hlen & Ht1).
  { by rewrite Hi, Nat2Z.id. }
  rewrite Hi, Nat2Z.id in Ht1.
  unfold OPENSSL_lh_delete. rewrite Hg. cbn [mbind option_bind]. rewrite Hs. cbn [mbind option_bind first head fmap option_fmap option_map fst].
  rewrite Ha. cbn [mbind option_bind]. rewrite E. cbn [mbind option_bind]. unfold lh_maybe_resize.
  cbn [callback_depth set_num_items set_items num_items items]. rewrite Hd1, (proj2 (Z.ltb_lt 0 _)) by done.
  eexists. split; [reflexivity|]. split; [exact Ht1|]. by split.
Qed.

Lemma doall_chain_spec fuel c3 lh cs m i c2 t :
  table lh cs m -> 0 < callback_depth lh -> cs !! i = Some (c2 ++ c3) -> (length c3 <= fuel)%nat ->
  exists lh' m', doall_chain visit fuel (first c3) (t, lh) = Some ((visits snd c3 t).1, lh') /\
    table lh' (<[i := c2 ++ (visits snd c3 t).2]> cs) m' /\
    callback_depth lh' = callback_depth lh /\ length (buckets lh') = length (buckets lh).
Proof.
  revert fuel lh cs m c2 t. induction c3 as [|[a v] c3 IH]; intros fuel lh cs m c2 t Ht Hd Hcs Hf.
  - exists lh, m. cbn. rewrite list_insert_id by done. by destruct fuel.
  - destruct fuel as [|fuel]; [cbn in Hf; lia|]. cbn [doall_chain first head fmap option_fmap option_map fst visits snd length] in *.
    destruct (Forall2_lookup_r _ _ _ _ _ (la_chains _ _ _ _ (t_all _ _ _ Ht)) Hcs) as (b & _ & Hlb).
    destruct (linked_at _ _ _ _ _ _ _ Hlb) as (q & Hit & Hl3).
    rewrite Hit. cbn [mbind option_bind data next]. rewrite (linked_first _ _ _ _ Hl3), visit_pair.
    destruct (pick t v) as [t1 del]. destruct del.
    + destruct (delete_at lh cs m i c2 a v c3 Ht Hd Hcs) as (lh1 & E & Ht1 & Hd1 & Hlen1). rewrite E. cbn [mbind option_bind].
      destruct (IH fuel lh1 (<[i := c2 ++ c3]> cs) _ c2 t1 Ht1) as (lh' & m' & E' & Ht' & Hd' & Hlen').
      { by rewrite Hd1. }
      { apply list_lookup_insert_eq. by eapply lookup_lt_Some. }
      { lia. }
      exists lh', m'. destruct (visits snd c3 t1) as [t2 kept]. cbn [fst snd] in *. rewrite list_insert_insert_eq in Ht'.
      split_and!; [done|done|by rewrite Hd'|by rewrite Hlen'].
    + cbn [mbind option_bind]. destruct (IH fuel lh cs m (c2 ++ [(a, v)]) t1 Ht Hd) as (lh' & m' & E' & Ht' & Hd' & Hlen').
      { by rewrite <- app_assoc. }
      { lia. }
      exists lh', m'. destruct (visits snd c3 t1) as [t2 kept]. cbn [fst snd] in *. rewrite <- app_assoc in Ht'.
      by split_and!.
Qed.

Lemma table_length lh cs m : table lh cs m -> length cs = length (buckets lh).
Proof. intros Ht. symmetry. eapply Forall2_length, (la_chains _ _ _ _ (t_all _ _ _ Ht)). Qed.

Lemma doall_buckets_spec fuel n i lh cs m t :
  table lh cs m -> 0 < callback_depth lh -> (i + n = length (buckets lh))%nat -> (length (concat (drop i cs)) <= fuel)%nat ->
  exists lh' cs' m', doall_buckets visit fuel n (Z.of_nat i) (t, lh) = Some ((visits snd (concat (drop i cs)) t).1, lh') /\
    table lh' cs' m' /\ concat cs' = concat (take i cs) ++ (visits snd (concat (drop i cs)) t).2 /\
    callback_depth lh' = callback_depth lh.
Proof.
  revert i lh cs m t. induction n as [|n IH]; intros i lh cs m t Ht Hd Hn Hf; cbn [doall_buckets]; unfold num_buckets;
    cbn [snd]; pose proof (table_length _ _ _ Ht) as Hlen.
  - rewrite (proj2 (Z.ltb_ge _ _)) by lia. exists lh, cs, m.
    rewrite take_ge, drop_ge by lia. cbn. by rewrite app_nil_r.
  - rewrite (proj2 (Z.ltb_lt _ _)) by lia.
    destruct (lookup_lt_is_Some_2 cs i ltac:(lia)) as [c Hc].
    destruct (Forall2_lookup_r _ _ _ _ _ (la_chains _ _ _ _ (t_all _ _ _ Ht)) Hc) as (b & Hb & Hl).
    rewrite rd_lookup, Nat2Z.id, Hb by lia. cbn [mbind option_bind]. rewrite (linked_first _ _ _ _ Hl).
    rewrite (drop_S cs c i Hc) in *. cbn [concat] in *. rewrite length_app in Hf.
    destruct (doall_chain_spec fuel c lh cs m i [] t Ht Hd Hc ltac:(lia)) as (lh1 & m1 & E & Ht1 & Hd1 & Hlen1).
    rewrite E. cbn [mbind option_bind app] in *. rewrite visits_app. set (t1 := (visits snd c t).1) in *.
    set (kept := (visits snd c t).2) in *.
    destruct (IH (S i) lh1 (<[i := kept]> cs) m1 t1 Ht1) as (lh' & cs' & m' & E' & Ht' & Hcs' & Hd'); [lia|lia| |].
    { rewrite drop_insert_lt by lia. lia. }
    rewrite drop_insert_lt in E', Hcs' by lia. exists lh', cs', m'. split; [|split; [done|split; [|lia]]].
    + replace (Z.of_nat i + 1) with (Z.of_nat (S i)) by lia. exact E'.
    + rewrite Hcs'. cbn [fst snd]. rewrite app_assoc. f_equal.
      rewrite (take_S_r _ i kept) by (apply list_lookup_insert_eq; lia). rewrite concat_app, take_insert_ge by lia.
      cbn [concat]. by rewrite app_nil_r.
Qed.

(** The elements of a map. *)
Lemma map_of_list l (m : gmap K V) : NoDup (key <$> l) -> m = map_of key l -> l ≡ₚ (map_to_list m).*2.
Proof.
  intros Hnd ->. unfold map_of. rewrite map_to_list_to_map by by rewrite map_of_keys.
  rewrite <- list_fmap_compose. by rewrite list_fmap_id.
Qed.

Lemma doall_spec malloc_ok fuel lh cs m t :
  table lh cs m -> (size m <= fuel)%nat ->
  exists lh' cs' l, l ≡ₚ (map_to_list m).*2 /\
    OPENSSL_lh_doall_arg visit malloc_ok fuel (t, lh) = Some ((visits id l t).1, lh') /\
    table lh' cs' (map_of key (visits id l t).2).
Proof.
  intros Ht Hf. pose proof (map_of_list _ m (t_keys _ _ _ Ht) (t_map _ _ _ Ht)) as Hl. pose proof (t_depth _ _ _ Ht) as Hdep.
  pose proof (Permutation_length Hl) as Hsz. rewrite !length_fmap, length_map_to_list in Hsz.
  unfold OPENSSL_lh_doall_arg. cbn [fst snd].
  set (lh0 := if callback_depth lh <? UINT_MAX then set_depth (callback_depth lh + 1) lh else lh).
  assert (table lh0 cs m /\ 0 < callback_depth lh0) as [Ht0 Hd0].
  { unfold lh0. destruct (callback_depth lh <? UINT_MAX) eqn:E; [apply Z.ltb_lt in E|apply Z.ltb_ge in E; unfold UINT_MAX in *; split; [done|lia]].
    split; [|cbn; lia]. destruct Ht. constructor; try done. cbn [callback_depth set_depth]. lia. }
  destruct (doall_buckets_spec fuel (length (buckets lh0)) 0 lh0 cs m t Ht0 Hd0) as (lh1 & cs1 & m1 & E & Ht1 & Hcs1 & Hd1).
  { lia. }
  { rewrite drop_0. lia. }
  rewrite drop_0 in E, Hcs1. change (Z.of_nat 0) with 0 in E. rewrite take_0 in Hcs1. rewrite E. cbn [mbind option_bind].
  set (lh2 := if callback_depth lh1 <? UINT_MAX then set_depth (callback_depth lh1 - 1) lh1 else lh1).
  assert (table lh2 cs1 m1) as Ht2.
  { unfold lh2. case_match; [|done]. pose proof (t_depth _ _ _ Ht1). destruct Ht1. constructor; try done. cbn [callback_depth set_depth]. lia. }
  destruct (maybe_resize_spec (key := key) malloc_ok lh2 cs1 m1 Ht2) as (lh3 & cs3 & E3 & Ht3 & _). rewrite E3. cbn [mbind option_bind].
  exists lh3, cs3, (concat cs).*2. split; [done|]. rewrite visits_fmap. cbn [fst snd]. split; [done|].
  cbn [take concat app] in Hcs1. rewrite <- Hcs1, <- (t_map _ _ _ Ht1). done.
Qed.
End Walk.

(** ** BoringSSL: the load of a hash table

    While allocations succeed, a table that is not being walked has fewer than
    three items for each bucket and, above its smallest size, no more buckets
    than items. *)

Lemma div_lt_iff a b k : 0 < b -> a / b < k <-> a < b * k.
Proof. intros Hb. split; [pose proof (Z.mul_succ_div_gt a b Hb); nia|by apply Z.div_lt_upper_bound]. Qed.

Section Load.
Context {V : Type} (comp : V -> V -> Z) (hash : V -> Z).

#[local] Abbreviation lhash := (lhash (V := V)).

Record balanced (lh : lhash) : Prop := {
  bal_min : kMinNumBuckets <= num_buckets lh;
  bal_many : 0 <= num_items lh < 3 * num_buckets lh;
  bal_few : num_buckets lh = kMinNumBuckets \/ num_buckets lh <= num_items lh }.

Lemma move_chain_length fuel cur (m m' : gmap Z (lhash_item (V := V))) nb nb' :
  move_chain fuel cur m nb = Some (m', nb') -> length nb' = length nb.
Proof.
  revert cur m nb. induction fuel as [|fuel IH]; intros [a|] m nb; cbn [move_chain]; try done; [by intros [= _ <-]| |by intros [= _ <-]].
  destruct (m !! a) as [it|]; cbn [mbind option_bind]; [|done]. destruct (rd nb _) as [p|]; cbn [mbind option_bind]; [|done].
  destruct (wr nb _ _) as [nb1|] eqn:E; cbn [mbind option_bind]; [|done]. intros Hm. rewrite (IH _ _ _ Hm). exact (wrs_length _ _ _ _ E).
Qed.

Lemma move_buckets_length bs (m m' : gmap Z (lhash_item (V := V))) nb nb' :
  move_buckets bs m nb = Some (m', nb') -> length nb' = length nb.
Proof.
  revert m nb. induction bs as [|b bs IH]; intros m nb; cbn [move_buckets]; [by intros [= _ <-]|].
  destruct (move_chain _ _ _ _) as [[m1 nb1]|] eqn:E; cbn [mbind option_bind]; [|done]. intros Hm.
  rewrite (IH _ _ Hm). by eapply move_chain_length.
Qed.

Lemma rebucket_size n (lh lh' : lhash) :
  0 <= n < 2 ^ 61 -> lh_rebucket true n lh = Some lh' -> num_buckets lh' = n /\ num_items lh' = num_items lh.
Proof.
  intros Hn. unfold lh_rebucket, sizeof_pointer. rewrite wrapu_id by (unfold in_u; lia).
  rewrite Z.mul_comm, Z.div_mul, Z.eqb_refl by lia. cbn [negb].
  destruct (move_buckets _ _ _) as [[m nb]|] eqn:E; cbn [mbind option_bind]; [|done]. intros [= <-].
  apply move_buckets_length in E. rewrite length_replicate in E. unfold num_buckets. cbn [buckets num_items]. split; [lia|done].
Qed.

(** Resizing restores the balance after one item more or less. *)
Lemma resize_balance (lh lh' : lhash) :
  callback_depth lh = 0 -> kMinNumBuckets <= num_buckets lh -> 0 <= num_items lh <= 3 * num_buckets lh ->
  num_buckets lh = kMinNumBuckets \/ num_buckets lh <= num_items lh + 1 -> num_items lh < 2 ^ 60 ->
  lh_maybe_resize true lh = Some lh' -> balanced lh' /\ num_items lh' = num_items lh.
Proof.
  intros Hd Hmin Hmany Hfew Hbound. unfold lh_maybe_resize, kMinNumBuckets, kMaxAverageChainLength, kMinAverageChainLength in *.
  rewrite Hd. cbn [Z.ltb Z.compare]. rewrite (proj2 (Z.ltb_ge (num_buckets lh) 16)) by lia. cbv zeta.
  pose proof (div_lt_iff (num_items lh) (num_buckets lh) 3 ltac:(lia)) as Hq3.
  pose proof (div_lt_iff (num_items lh) (num_buckets lh) 1 ltac:(lia)) as Hq1.
  pose proof (Z.div_mod (num_buckets lh) 2 ltac:(lia)) as Hh. pose proof (Z.mod_pos_bound (num_buckets lh) 2 ltac:(lia)) as Hm2.
  destruct (2 <? _) eqn:E1; [apply Z.ltb_lt in E1|apply Z.ltb_ge in E1].
  - rewrite wrapu_id by (unfold in_u; lia). rewrite (proj2 (Z.ltb_lt (num_buckets lh) _)) by lia. intros E.
    apply rebucket_size in E as [E2 E3]; [|lia]. split; [|done]. constructor; unfold kMinNumBuckets; rewrite E2, ?E3; lia.
  - destruct (_ && _) eqn:E2.
    + apply andb_prop in E2 as [E2 E4]. apply Z.ltb_lt in E2, E4. intros E.
      apply rebucket_size in E as [E5 E6]; [|case_match; lia].
      split; [|done]. constructor; unfold kMinNumBuckets; rewrite E5, ?E6; destruct (num_buckets lh / 2 <? 16) eqn:E7;
        first [apply Z.ltb_lt in E7|apply Z.ltb_ge in E7]; lia.
    + intros [= <-]. split; [|done]. constructor; unfold kMinNumBuckets; [lia|lia|].
      apply andb_false_iff in E2 as [E2|E2]; apply Z.ltb_ge in E2; lia.
Qed.

Lemma after_count n (lh lh' : lhash) :
  callback_depth lh = 0 -> kMinNumBuckets <= num_buckets lh -> 0 <= n <= 3 * num_buckets lh ->
  num_buckets lh = kMinNumBuckets \/ num_buckets lh <= n + 1 -> n < 2 ^ 60 ->
  lh_maybe_resize true (set_num_items n lh) = Some lh' -> balanced lh' /\ num_items lh' = n.
Proof. intros. by apply (resize_balance (set_num_items n lh)). Qed.

Lemma set_slot_size s p (lh lh' : lhash) :
  set_slot s p lh = Some lh' ->
  num_items lh' = num_items lh /\ num_buckets lh' = num_buckets lh /\ callback_depth lh' = callback_depth lh.
Proof.
  destruct s as [i|a]; cbn [set_slot].
  - destruct (wr _ _ _) as [b|] eqn:E; cbn [mbind option_bind]; [|done]. intros [= <-]. unfold num_buckets. cbn.
    by rewrite (wrs_length _ _ _ _ E).
  - destruct (items lh !! a); cbn [mbind option_bind]; [|done]. by intros [= <-].
Qed.

Lemma insert_balance item_ok d r old (lh lh' : lhash) :
  balanced lh -> callback_depth lh = 0 -> num_items lh + 1 < 2 ^ 60 ->
  OPENSSL_lh_insert comp hash item_ok true d lh = Some (r, old, lh') ->
  balanced lh' /\ num_items lh' <= num_items lh + 1.
Proof.
  intros Hb Hd Hn. pose proof Hb as [Hb1 Hb2 Hb3]. unfold OPENSSL_lh_insert.
  destruct (get_next_ptr_and_hash _ _ _ _) as [[s h]|]; cbn [mbind option_bind]; [|done].
  destruct (get_slot lh s) as [[a|]|]; cbn [mbind option_bind]; [| |done].
  - destruct (items lh !! a); cbn [mbind option_bind]; [|done]. intros [= <- <- <-].
    split; [by destruct Hb; constructor|cbn; lia].
  - destruct item_ok; cbn [negb]; [|intros [= <- <- <-]; split; [done|lia]].
    destruct (set_slot _ _ _) as [lh1|] eqn:E; cbn [mbind option_bind]; [|done].
    apply set_slot_size in E as (E1 & E2 & E3). change (num_items lh1 = num_items lh) in E1.
    change (num_buckets lh1 = num_buckets lh) in E2. change (callback_depth lh1 = callback_depth lh) in E3.
    destruct (lh_maybe_resize _ _) as [lh2|] eqn:E; cbn [mbind option_bind]; [|done]. intros [= <- <- <-].
    rewrite E1, wrapu_id in E by (unfold in_u; lia). apply after_count in E as [Hb' ->]; [by split|lia..].
Qed.

Lemma delete_balance d old (lh lh' : lhash) :
  balanced lh -> callback_depth lh = 0 -> 0 < num_items lh < 2 ^ 60 ->
  OPENSSL_lh_delete comp hash true d lh = Some (old, lh') -> balanced lh' /\ num_items lh' <= num_items lh.
Proof.
  intros Hb Hd Hn. pose proof Hb as [Hb1 Hb2 Hb3]. unfold OPENSSL_lh_delete.
  destruct (get_next_ptr_and_hash _ _ _ _) as [[s h]|]; cbn [mbind option_bind]; [|done].
  destruct (get_slot lh s) as [[a|]|]; cbn [mbind option_bind]; [|intros [= <- <-]; split; [done|lia]|done].
  destruct (items lh !! a); cbn [mbind option_bind]; [|done].
  destruct (set_slot _ _ _) as [lh1|] eqn:E; cbn [mbind option_bind]; [|done].
  apply set_slot_size in E as (E1 & E2 & E3). cbn [num_items set_items items].
  destruct (lh_maybe_resize _ _) as [lh2|] eqn:E; cbn [mbind option_bind]; [|done]. intros [= <- <-].
  rewrite E1, wrapu_id in E by (unfold in_u; lia).
  change (num_buckets lh1) with (num_buckets (set_items (delete a (items lh1)) lh1)) in E2.
  change (callback_depth lh1) with (callback_depth (set_items (delete a (items lh1)) lh1)) in E3.
  apply after_count in E as [Hb' ->]; [split; [done|lia]|lia..].
Qed.
End Load.
