(* ===== verification/LHashTheorems.v ===== *)
(** * BoringSSL: what a hash table promises

    Any sequence of operations on a table agrees with the same operations on a
    finite map, the chains stay short, walking visits every element once and
    releasing leaves nothing in memory. *)
From S2P Require Import Prelude CBuf LHash LHashSpec LHashOps LHashWalk.

(** ** Operations on a table and on a map *)

(** An operation, with the results of the allocations it makes. *)
Inductive lh_op (V : Type) :=
  | LhInsert (d : V) (item_ok malloc_ok : bool)
  | LhDelete (d : V) (malloc_ok : bool)
  | LhRetrieve (d : V)
  | LhNumItems.

Arguments LhInsert {V} d item_ok malloc_ok.
Arguments LhDelete {V} d malloc_ok.
Arguments LhRetrieve {V} d.
Arguments LhNumItems {V}.

(** A returned number, and an element or the null pointer. *)
Definition lh_out (V : Type) : Type := Z * option V.

Section Run.
Context {V K : Type} `{Countable K} (comp : V -> V -> Z) (hash : V -> Z) (key : V -> K).

#[local] Abbreviation lhash := (lhash (V := V)).
#[local] Abbreviation table := (table (hash := hash) (key := key)).

Definition lh_step (o : lh_op V) (lh : lhash) : option (lh_out V * lhash) :=
  match o with
  | LhInsert d item_ok malloc_ok =>
      '(r, old, lh) ← OPENSSL_lh_insert comp hash item_ok malloc_ok d lh; Some (Z.b2z r, old, lh)
  | LhDelete d malloc_ok => '(old, lh) ← OPENSSL_lh_delete comp hash malloc_ok d lh; Some (0, old, lh)
  | LhRetrieve d => r ← OPENSSL_lh_retrieve comp hash lh d; Some (0, r, lh)
  | LhNumItems => Some (OPENSSL_lh_num_items lh, None, lh)
  end.

(** The same on the map. *)
Definition map_step (o : lh_op V) (m : gmap K V) : lh_out V * gmap K V :=
  match o with
  | LhInsert d item_ok _ =>
      let stored := bool_decide (is_Some (m !! key d)) || item_ok in
      (Z.b2z stored, m !! key d, if stored then <[key d := d]> m else m)
  | LhDelete d _ => (0, m !! key d, delete (key d) m)
  | LhRetrieve d => (0, m !! key d, m)
  | LhNumItems => (u64 (Z.of_nat (size m)), None, m)
  end.

Fixpoint lh_run (os : list (lh_op V)) (lh : lhash) : option (list (lh_out V) * lhash) :=
  match os with
  | [] => Some ([], lh)
  | o :: os' => '(r, lh) ← lh_step o lh; '(rs, lh) ← lh_run os' lh; Some (r :: rs, lh)
  end.

Fixpoint map_run (os : list (lh_op V)) (m : gmap K V) : list (lh_out V) * gmap K V :=
  match os with
  | [] => ([], m)
  | o :: os' => let '(r, m) := map_step o m in let '(rs, m) := map_run os' m in (r :: rs, m)
  end.

Context `{!Keyed comp hash key}.

Lemma table_size lh cs m : table lh cs m -> size m = length (concat cs).
Proof.
  intros Ht. pose proof (map_of_list _ m (t_keys _ _ _ Ht) (t_map _ _ _ Ht)) as Hp.
  apply Permutation_length in Hp. rewrite !length_fmap, length_map_to_list in Hp. done.
Qed.

Lemma step_spec o lh cs m :
  table lh cs m -> exists lh' cs', lh_step o lh = Some ((map_step o m).1, lh') /\ table lh' cs' (map_step o m).2 /\
    callback_depth lh' = callback_depth lh.
Proof.
  intros Ht. destruct o as [d item_ok malloc_ok|d malloc_ok|d|]; cbn [lh_step map_step].
  - destruct (insert_spec item_ok malloc_ok d lh cs m Ht) as (lh' & cs' & E & Ht' & Hd). rewrite E. by exists lh', cs'.
  - destruct (delete_spec malloc_ok d lh cs m Ht) as (lh' & cs' & E & Ht' & Hd). rewrite E. by exists lh', cs'.
  - rewrite (retrieve_spec lh cs m d Ht). by exists lh, cs.
  - exists lh, cs. unfold OPENSSL_lh_num_items. by rewrite (t_num _ _ _ Ht), (table_size _ _ _ Ht).
Qed.

Lemma run_spec os lh cs m :
  table lh cs m -> exists lh' cs', lh_run os lh = Some ((map_run os m).1, lh') /\ table lh' cs' (map_run os m).2 /\
    callback_depth lh' = callback_depth lh.
Proof.
  revert lh cs m. induction os as [|o os IH]; intros lh cs m Ht; cbn [lh_run map_run]; [by exists lh, cs|].
  destruct (step_spec o lh cs m Ht) as (lh1 & cs1 & E1 & Ht1 & Hd1). rewrite E1. destruct (map_step o m) as [r m1]. cbn [fst snd mbind option_bind] in *.
  destruct (IH lh1 cs1 m1 Ht1) as (lh2 & cs2 & E2 & Ht2 & Hd2). rewrite E2. destruct (map_run os m1) as [rs m2]. cbn [fst snd mbind option_bind] in *.
  exists lh2, cs2. by rewrite Hd2.
Qed.

(** ** The load *)

(** Operations for which there is memory. *)
Definition lh_memory (o : lh_op V) : Prop :=
  match o with
  | LhInsert _ item_ok malloc_ok => item_ok = true /\ malloc_ok = true
  | LhDelete _ malloc_ok => malloc_ok = true
  | _ => True
  end.

Lemma step_balance o lh cs m r lh' :
  table lh cs m -> balanced lh -> callback_depth lh = 0 -> num_items lh + 1 < 2 ^ 60 -> Z.of_nat (size m) < 2 ^ 60 ->
  lh_memory o -> lh_step o lh = Some (r, lh') -> balanced lh' /\ num_items lh' <= num_items lh + 1.
Proof.
  intros Ht Hb Hd Hn Hsize Ho. pose proof (bal_many _ Hb) as Hmany.
  destruct o as [d item_ok malloc_ok|d malloc_ok|d|]; cbn [lh_step lh_memory] in *.
  - destruct Ho as [-> ->]. destruct (OPENSSL_lh_insert _ _ _ _ _ _) as [[[r' old] lh3]|] eqn:E3; [|done].
    intros [= <- <-]. by eapply insert_balance.
  - subst malloc_ok. destruct (decide (num_items lh = 0)) as [H0|H0].
    + assert (m !! key d = None) as Hnone.
      { rewrite (t_num _ _ _ Ht), <- (table_size _ _ _ Ht), wrapu_id in H0 by (unfold in_u; lia).
        rewrite (map_size_empty_inv m) by lia. apply lookup_empty. }
      rewrite (delete_absent true d lh cs m Ht Hnone). intros [= <- <-]. split; [done|lia].
    + destruct (OPENSSL_lh_delete _ _ _ _ _) as [[old lh3]|] eqn:E3; [|done].
      intros [= <- <-]. apply delete_balance in E3 as [? ?]; [by split; [|lia]|done|done|lia].
  - destruct (OPENSSL_lh_retrieve _ _ _ _); [|done]. intros [= <- <-]. split; [done|lia].
  - intros [= <- <-]. split; [done|lia].
Qed.

Lemma step_size o m : (size (map_step o m).2 <= S (size m))%nat.
Proof.
  destruct o as [d i ok|d ok|d|]; cbn [map_step snd]; [|rewrite map_size_delete; destruct (m !! key d); cbn; lia|lia|lia].
  case_match; [|lia]. rewrite map_size_insert. destruct (m !! key d); cbn; lia.
Qed.

Lemma run_size os m : (size (map_run os m).2 <= size m + length os)%nat.
Proof.
  revert m. induction os as [|o os IH]; intros m; cbn [map_run length]; [cbn; lia|].
  pose proof (step_size o m) as Ho. destruct (map_step o m) as [r m1]. specialize (IH m1). destruct (map_run os m1). cbn [snd] in *. lia.
Qed.

Lemma run_balance os lh cs m rs lh' :
  Forall lh_memory os -> table lh cs m -> balanced lh -> callback_depth lh = 0 ->
  num_items lh + Z.of_nat (length os) < 2 ^ 60 -> Z.of_nat (size m) < 2 ^ 60 ->
  lh_run os lh = Some (rs, lh') -> balanced lh'.
Proof.
  intros Hm. revert lh cs m rs. induction Hm as [|o os Ho Hm IH]; intros lh cs m rs Ht Hb Hd Hn Hs; cbn [lh_run]; [by intros [= _ <-]|].
  destruct (step_spec o lh cs m Ht) as (lh1 & cs1 & E1 & Ht1 & Hd1).
  rewrite E1. cbn [mbind option_bind length] in *.
  destruct (lh_run os lh1) as [[rs' lh2]|] eqn:E2; cbn [mbind option_bind]; [|done]. intros [= _ <-].
  destruct (step_balance o lh cs m _ lh1 Ht Hb Hd ltac:(lia) Hs Ho E1) as [Hb1 Hn1].
  pose proof (bal_many _ Hb1) as Hmany. pose proof (table_size _ _ _ Ht1) as Hsz. pose proof (t_num _ _ _ Ht1) as Hnum.
  eapply (IH lh1 cs1 (map_step o m).2 rs' Ht1 Hb1); [lia|lia| |done].
  pose proof (step_size o m) as Hgrow.
  rewrite Hnum, <- Hsz, wrapu_id in Hn1 by (unfold in_u; lia).
  rewrite (t_num _ _ _ Ht), <- (table_size _ _ _ Ht), wrapu_id in Hn, Hn1 by (unfold in_u; lia). lia.
Qed.
End Run.

(** Forty elements, five of them removed again. *)
Example lhash_forty :
  let comp := fun x y : Z => x - y in
  let hash := fun x : Z => x mod 7 in
  let ins lh x := lh ← lh; '(_, _, lh) ← OPENSSL_lh_insert comp hash true true x lh; Some lh in
  let del lh x := lh ← lh; '(_, lh) ← OPENSSL_lh_delete comp hash true x lh; Some lh in
  match foldl del (foldl ins (OPENSSL_lh_new true true) (seqZ 0 49)) (seqZ 10 5) with
  | Some lh => num_buckets lh = 32 /\ num_items lh = 44 /\
      OPENSSL_lh_retrieve comp hash lh 30 = Some (Some 30) /\ OPENSSL_lh_retrieve comp hash lh 12 = Some None
  | None => False
  end.
Proof. vm_compute. done. Qed.

(** ** The theorems *)

(** C21. Whatever is done to a new hash table, with or without memory for new
    items and for a new array of buckets, every operation is defined and
    returns what it returns on a finite map from keys to elements: an element
    that is stored, replaced or removed is returned, and the count is the size
    of the map.  At the end a key of any type finds its element, and
    [OPENSSL_lh_free] leaves no item in memory. *)
Theorem lhash_refines_map {V K : Type} `{Countable K} (comp : V -> V -> Z) (hash : V -> Z) (key : V -> K)
    (Hkey : Keyed comp hash key) (os : list (lh_op V)) :
  exists lh0 lh, OPENSSL_lh_new true true = Some lh0 /\
    lh_run comp hash os lh0 = Some ((map_run key os ∅).1, lh) /\
    (forall d cmp_key, (forall x, cmp_key x = 0 <-> key x = key d) ->
      OPENSSL_lh_retrieve_key lh (hash d) cmp_key = Some ((map_run key os ∅).2 !! key d)) /\
    OPENSSL_lh_free lh = Some ∅.
Proof.
  destruct (new_table (key := key) (hash := hash)) as [cs Ht]. eexists. 
  destruct (run_spec comp hash key os _ cs ∅ Ht) as (lh & cs' & E & Ht' & _). exists lh.
  split_and!; [done|done| |by eapply free_spec]. intros d cmp_key Hc. by eapply retrieve_key_spec.
Qed.

(** C22. While memory lasts, a table that started empty has fewer than three
    items for each bucket, and more than sixteen buckets only if it has as many
    items: neither the chains nor the array grow without need. *)
Theorem lhash_balanced {V K : Type} `{Countable K} (comp : V -> V -> Z) (hash : V -> Z) (key : V -> K)
    (Hkey : Keyed comp hash key) (os : list (lh_op V)) :
  Forall lh_memory os -> Z.of_nat (length os) < 2 ^ 60 ->
  exists lh0 rs lh, OPENSSL_lh_new true true = Some lh0 /\ lh_run comp hash os lh0 = Some (rs, lh) /\
    OPENSSL_lh_num_items lh = Z.of_nat (size (map_run key os ∅).2) /\
    num_items lh < 3 * num_buckets lh /\
    (num_buckets lh = kMinNumBuckets \/ kMinNumBuckets < num_buckets lh <= num_items lh).
Proof.
  intros Hm Hn. destruct (new_table (key := key) (hash := hash)) as [cs Ht].
  destruct (run_spec comp hash key os _ cs ∅ Ht) as (lh & cs' & E & Ht' & _).
  eexists _, _, lh. split; [done|]. split; [exact E|].
  assert (balanced lh) as [Hb1 Hb2 Hb3].
  { eapply (run_balance comp hash key os _ cs ∅); [done|done| |done|cbn [num_items]; lia|done|exact E].
    constructor; [done|done|by left]. }
  split; [|split; [lia|]].
  - unfold OPENSSL_lh_num_items. rewrite (t_num _ _ _ Ht'), <- (table_size hash key _ _ _ Ht'), wrapu_id; [done|].
    pose proof (run_size key os ∅) as Hs. rewrite map_size_empty in Hs. unfold in_u. lia.
  - unfold kMinNumBuckets in *. lia.
Qed.

(** C23. [OPENSSL_lh_doall_arg] calls its callback once with every element of
    the table, in some order, although the callback may delete the element it
    is called with: nothing is skipped, visited twice or read after it was
    released.  Afterwards the table holds the elements that were kept. *)
Theorem lhash_doall_exact {V K T : Type} `{Countable K} (comp : V -> V -> Z) (hash : V -> Z) (key : V -> K)
    (Hkey : Keyed comp hash key) (os : list (lh_op V)) (pick : T -> V -> T * bool) (malloc_ok : bool) (t : T) (fuel : nat) :
  (size (map_run key os ∅).2 <= fuel)%nat ->
  exists lh0 rs lh lh' l, OPENSSL_lh_new true true = Some lh0 /\ lh_run comp hash os lh0 = Some (rs, lh) /\
    l ≡ₚ (map_to_list (map_run key os ∅).2).*2 /\
    OPENSSL_lh_doall_arg (visit (comp := comp) (hash := hash) pick) malloc_ok fuel (t, lh) = Some ((visits pick id l t).1, lh') /\
    (forall d, OPENSSL_lh_retrieve comp hash lh' d = Some (map_of key (visits pick id l t).2 !! key d)) /\
    OPENSSL_lh_free lh' = Some ∅.
Proof.
  intros Hf. destruct (new_table (key := key) (hash := hash)) as [cs Ht].
  destruct (run_spec comp hash key os _ cs ∅ Ht) as (lh & cs' & E & Ht' & _).
  destruct (doall_spec pick malloc_ok fuel lh cs' _ t Ht' Hf) as (lh' & cs2 & l & Hl & E' & Ht2).
  eexists _, _, lh, lh', l. split_and!; [done|exact E|done|exact E'| |by eapply free_spec].
  intros d. by eapply retrieve_spec.
Qed.

(** ** Witnesses *)

(** Numbers with their remainder by seven as the hash. *)
Definition z_comp (x y : Z) : Z := if x <? y then -1 else if y <? x then 1 else 0.
Definition z_hash (x : Z) : Z := x mod 7.

#[export] Instance z_keyed : Keyed z_comp z_hash (fun x => x).
Proof.
  constructor.
  - intros x y. unfold z_comp. destruct (x <? y) eqn:E1; [apply Z.ltb_lt in E1|apply Z.ltb_ge in E1; destruct (y <? x) eqn:E2];
      [|apply Z.ltb_lt in E2|apply Z.ltb_ge in E2]; split; lia.
  - by intros x y ->.
  - intros x. unfold z_hash. apply Z.mod_pos_bound. lia.
Qed.

Definition z_ops : list (lh_op Z) :=
  [LhInsert 3 true true; LhInsert 10 true true; LhInsert 17 false true; LhInsert 17 true true; LhDelete 10 true; LhRetrieve 10; LhRetrieve 17; LhNumItems].

Lemma lhash_refines_map_witness :
  (map_run (fun x : Z => x) z_ops ∅).1 = [(1, None); (1, None); (0, None); (1, None); (0, Some 10); (0, None); (0, Some 17); (2, None)] /\
  exists lh0 lh, OPENSSL_lh_new true true = Some lh0 /\
    lh_run z_comp z_hash z_ops lh0 = Some ((map_run (fun x => x) z_ops ∅).1, lh) /\
    (forall d cmp_key, (forall x, cmp_key x = 0 <-> x = d) ->
      OPENSSL_lh_retrieve_key lh (z_hash d) cmp_key = Some ((map_run (fun x => x) z_ops ∅).2 !! d)) /\
    OPENSSL_lh_free lh = Some ∅.
Proof. split; [vm_compute; reflexivity|]. exact (lhash_refines_map z_comp z_hash (fun x => x) z_keyed z_ops). Defined.

Lemma lhash_balanced_witness :
  exists lh0 rs lh, OPENSSL_lh_new true true = Some lh0 /\
    lh_run z_comp z_hash [LhInsert 3 true true; LhInsert 10 true true] lh0 = Some (rs, lh) /\
    OPENSSL_lh_num_items lh = Z.of_nat (size (map_run (fun x : Z => x) [LhInsert 3 true true; LhInsert 10 true true] ∅).2) /\
    num_items lh < 3 * num_buckets lh /\
    (num_buckets lh = kMinNumBuckets \/ kMinNumBuckets < num_buckets lh <= num_items lh).
Proof.
  apply (lhash_balanced z_comp z_hash (fun x => x) z_keyed [LhInsert 3 true true; LhInsert 10 true true]).
  - repeat constructor.
  - vm_compute. reflexivity.
Defined.

(** Summing up the elements and deleting the even ones. *)
Lemma lhash_doall_exact_witness :
  exists lh0 rs lh lh' l, OPENSSL_lh_new true true = Some lh0 /\ lh_run z_comp z_hash z_ops lh0 = Some (rs, lh) /\
    l ≡ₚ (map_to_list (map_run (fun x => x) z_ops ∅).2).*2 /\
    let pick := fun (t : Z) x => (t + x, Z.even x) in
    OPENSSL_lh_doall_arg (visit (comp := z_comp) (hash := z_hash) pick) true 5 (0, lh) = Some ((visits pick id l 0).1, lh') /\
    (forall d, OPENSSL_lh_retrieve z_comp z_hash lh' d = Some (map_of (fun x => x) (visits pick id l 0).2 !! d)) /\
    OPENSSL_lh_free lh' = Some ∅.
Proof.
  apply (lhash_doall_exact z_comp z_hash (fun x => x) z_keyed z_ops (fun t x => (t + x, Z.even x)) true 0 5).
  apply Nat.leb_le. vm_compute. reflexivity.
Defined.
