(* ===== verification/Unicode.v ===== *)
(** * BoringSSL: characters ([crypto/bytestring/unicode.c])

    Reading and writing one code point in UTF-8, Latin-1, UCS-2 and UTF-32. *)
From S2P Require Import Prelude CBuf CMem CProc Cbs Cbb.

Definition is_valid_code_point (v : Z) : bool :=
  if (0x10ffff <? v) || (Z.land v 0xfffe =? 0xfffe) || ((0xfdd0 <=? v) && (v <=? 0xfdef)) ||
     ((0xd800 <=? v) && (v <=? 0xdfff))
  then false else true.

Definition BOTTOM_BITS (n : Z) : Z := u8 (Z.shiftl 1 n - 1).
Definition TOP_BITS (n : Z) : Z := u8 (Z.lnot (BOTTOM_BITS (8 - n))).

(** ** Reading *)

(** The value, the number of bytes that follow and the least value, from the
    first byte. *)
Definition utf8_first (c : Z) : option (Z * nat * Z) :=
  if Z.land c (TOP_BITS 3) =? TOP_BITS 2 then Some (Z.land c (BOTTOM_BITS 5), 1%nat, 0x80)
  else if Z.land c (TOP_BITS 4) =? TOP_BITS 3 then Some (Z.land c (BOTTOM_BITS 4), 2%nat, 0x800)
  else if Z.land c (TOP_BITS 5) =? TOP_BITS 4 then Some (Z.land c (BOTTOM_BITS 3), 3%nat, 0x10000)
  else None.

Fixpoint utf8_rest (len : nat) (v : Z) : reader Z :=
  match len with
  | O => mret v
  | S len' =>
      c ← CBS_get_u8;
      if negb (Z.land c (TOP_BITS 2) =? TOP_BITS 1) then return_0
      else utf8_rest len' (Z.lor (u32 (Z.shiftl v 6)) (Z.land c (BOTTOM_BITS 6)))
  end.

Definition cbs_get_utf8 : reader Z :=
  c ← CBS_get_u8;
  if c <=? 0x7f then mret c
  else match utf8_first c with
       | None => return_0
       | Some (v, len, lower_bound) =>
           v ← utf8_rest len v;
           if negb (is_valid_code_point v) || (v <? lower_bound) then return_0 else mret v
       end.

Definition cbs_get_latin1 : reader Z := CBS_get_u8.

Definition cbs_get_ucs2_be : reader Z :=
  c ← CBS_get_u16; if negb (is_valid_code_point c) then return_0 else mret c.

Definition cbs_get_utf32_be : reader Z :=
  out ← CBS_get_u32; if is_valid_code_point out then mret out else return_0.

(** ** Writing *)

Definition cbb_get_utf8_len (u : Z) : Z :=
  if u <=? 0x7f then 1 else if u <=? 0x7ff then 2 else if u <=? 0xffff then 3 else 4.

Section Write.
Context (realloc_ok : Z -> bool).

#[local] Abbreviation CBB_add_u8 := (CBB_add_u8 realloc_ok).

(** [TOP_BITS(1) | ((u >> n) & BOTTOM_BITS(6))]. *)
Definition continuation (u n : Z) : Z := u8 (Z.lor (TOP_BITS 1) (Z.land (Z.shiftr u n) (BOTTOM_BITS 6))).

Definition cbb_add_utf8 (cbb u : Z) : builder unit :=
  if negb (is_valid_code_point u) then return_0
  else if u <=? 0x7f then CBB_add_u8 cbb (u8 u)
  else if u <=? 0x7ff then
    CBB_add_u8 cbb (u8 (Z.lor (TOP_BITS 2) (Z.shiftr u 6)));;
    CBB_add_u8 cbb (continuation u 0)
  else if u <=? 0xffff then
    CBB_add_u8 cbb (u8 (Z.lor (TOP_BITS 3) (Z.shiftr u 12)));;
    CBB_add_u8 cbb (continuation u 6);;
    CBB_add_u8 cbb (continuation u 0)
  else if u <=? 0x10ffff then
    CBB_add_u8 cbb (u8 (Z.lor (TOP_BITS 4) (Z.shiftr u 18)));;
    CBB_add_u8 cbb (continuation u 12);;
    CBB_add_u8 cbb (continuation u 6);;
    CBB_add_u8 cbb (continuation u 0)
  else return_0.

Definition cbb_add_latin1 (cbb u : Z) : builder unit :=
  if u <=? 0xff then CBB_add_u8 cbb (u8 u) else return_0.

Definition cbb_add_ucs2_be (cbb u : Z) : builder unit :=
  if (u <=? 0xffff) && is_valid_code_point u then CBB_add_u16 realloc_ok cbb (u16 u) else return_0.

Definition cbb_add_utf32_be (cbb u : Z) : builder unit :=
  if is_valid_code_point u then CBB_add_u32 realloc_ok cbb u else return_0.
End Write.
