(* ===== verification/Stack.v ===== *)
(** * BoringSSL: stacks ([crypto/stack/stack.c])

    Growing arrays of pointers.  A pointer is an integer, 0 the null pointer; a
    cell of the array that was never written has no value.  The comparison
    functions are known by their addresses and called through
    [call_cmp_func]. *)
From S2P Require Import Prelude CBuf.

Definition kMinSize : Z := 4.
Definition NULL : Z := 0.

(** [struct stack_st]; [num_alloc] is the length of [sk_data]. *)
Record stack := mk_stack { num : Z; sk_data : list (option Z); sorted : bool; sk_comp : Z }.

Definition num_alloc (sk : stack) : Z := Z.of_nat (length (sk_data sk)).

(** [sk->data[i]], if it was written. *)
Definition data_at (sk : stack) (i : Z) : option Z := mjoin (rd (sk_data sk) i).

Definition sk_new (struct_ok data_ok : bool) (comp : Z) : option stack :=
  if negb struct_ok then None
  else if negb data_ok then None
  else Some (mk_stack 0 (replicate (Z.to_nat kMinSize) (Some NULL)) false comp).

Definition sk_new_null (struct_ok data_ok : bool) : option stack := sk_new struct_ok data_ok NULL.

Section Stack.
Context (call_cmp_func : Z -> Z -> Z -> Z) (qsort : (Z -> Z -> Z) -> list Z -> list Z).

(** The functions take a pointer to a stack, which may be null; a function
    that changes the stack returns it, [None] is undefined behaviour. *)
Definition sk_num (sk : option stack) : Z :=
  match sk with None => 0 | Some sk => num sk end.

Definition sk_zero (sk : option stack) : option (option stack) :=
  match sk with
  | None => Some None
  | Some s =>
      if num s =? 0 then Some sk
      else
        d ← wrs (sk_data s) 0 (replicate (Z.to_nat (num s)) (Some NULL));
        Some (Some (mk_stack 0 d false (sk_comp s)))
  end.

Definition sk_value (sk : option stack) (i : Z) : option Z :=
  match sk with
  | None => Some NULL
  | Some s => if num s <=? i then Some NULL else data_at s i
  end.

Definition sk_set (sk : option stack) (i value : Z) : option (Z * option stack) :=
  match sk with
  | None => Some (NULL, sk)
  | Some s =>
      if num s <=? i then Some (NULL, sk)
      else d ← wr (sk_data s) i (Some value); Some (value, Some (mk_stack (num s) d (sorted s) (sk_comp s)))
  end.

(** What is left in memory. *)
Definition sk_free (sk : option stack) : option stack := None.

(** The callbacks change a state of their own. *)
Section Free.
Context {T : Type} (call_free_func : Z -> T -> T).

Fixpoint free_loop (n : nat) (s : stack) (i : Z) (t : T) : option T :=
  match n with
  | O => Some t
  | S n' =>
      p ← data_at s i;
      free_loop n' s (i + 1) (if p =? NULL then t else call_free_func p t)
  end.

Definition sk_pop_free_ex (sk : option stack) (t : T) : option (T * option stack) :=
  match sk with
  | None => Some (t, None)
  | Some s => t ← free_loop (Z.to_nat (num s)) s 0 t; Some (t, sk_free sk)
  end.
End Free.

Definition call_free_func_legacy {T : Type} (func : Z -> T -> T) (ptr : Z) : T -> T := func ptr.

Definition sk_pop_free {T : Type} (sk : option stack) (free_func : Z -> T -> T) (t : T) : option (T * option stack) :=
  sk_pop_free_ex (call_free_func_legacy free_func) sk t.

(** [new_alloc * sizeof(void * )] and the test for its overflow. *)
Definition alloc_overflows (num_alloc new_alloc : Z) : bool :=
  (new_alloc <? num_alloc) || negb (u64 (new_alloc * sizeof_pointer) / sizeof_pointer =? new_alloc).

(** [OPENSSL_realloc]: the cells that are kept and new ones. *)
Definition resize (n : Z) (d : list (option Z)) : list (option Z) :=
  take (Z.to_nat n) d ++ replicate (Z.to_nat n - length d) None.

(** The array with room for one more; [None] is the failure. *)
Definition grow (realloc_ok : Z -> bool) (s : stack) : option (list (option Z)) :=
  if num_alloc s <=? u64 (num s + 1) then
    let new_alloc := u64 (Z.shiftl (num_alloc s) 1) in
    let new_alloc := if alloc_overflows (num_alloc s) new_alloc then u64 (num_alloc s + 1) else new_alloc in
    if alloc_overflows (num_alloc s) new_alloc then None
    else if negb (realloc_ok (u64 (new_alloc * sizeof_pointer))) then None
    else Some (resize new_alloc (sk_data s))
  else Some (sk_data s).

Definition sk_insert (realloc_ok : Z -> bool) (sk : option stack) (p where_ : Z) : option (Z * option stack) :=
  match sk with
  | None => Some (0, None)
  | Some s =>
      match grow realloc_ok s with
      | None => Some (0, sk)
      | Some d =>
          d ← (if num s <=? where_ then wr d (num s) (Some p)
               else v ← rds d where_ (num s - where_); d ← wrs d (where_ + 1) v; wr d where_ (Some p));
          let n := u64 (num s + 1) in
          Some (n, Some (mk_stack n d false (sk_comp s)))
      end
  end.

Definition sk_delete (sk : option stack) (where_ : Z) : option (Z * option stack) :=
  match sk with
  | None => Some (NULL, None)
  | Some s =>
      if num s <=? where_ then Some (NULL, sk)
      else
        ret ← data_at s where_;
        d ← (if negb (where_ =? num s - 1) then v ← rds (sk_data s) (where_ + 1) (num s - where_ - 1); wrs (sk_data s) where_ v
             else Some (sk_data s));
        Some (ret, Some (mk_stack (num s - 1) d (sorted s) (sk_comp s)))
  end.

Fixpoint delete_ptr_loop (n : nat) (s : stack) (p i : Z) : option (Z * option stack) :=
  match n with
  | O => Some (NULL, Some s)
  | S n' => x ← data_at s i; if x =? p then sk_delete (Some s) i else delete_ptr_loop n' s p (i + 1)
  end.

Definition sk_delete_ptr (sk : option stack) (p : Z) : option (Z * option stack) :=
  match sk with
  | None => Some (NULL, None)
  | Some s => delete_ptr_loop (Z.to_nat (num s)) s p 0
  end.

Definition sk_is_sorted (sk : option stack) : bool :=
  match sk with None => true | Some s => sorted s end.

(** The first element from [i] on that [found] accepts. *)
Fixpoint find_loop (found : Z -> bool) (n : nat) (s : stack) (i : Z) : option (option Z) :=
  match n with
  | O => Some None
  | S n' => x ← data_at s i; if found x then Some (Some i) else find_loop found n' s (i + 1)
  end.

(** The interval shrinks in every round. *)
Fixpoint binary_search (fuel : nat) (s : stack) (p lo hi : Z) : option (option Z) :=
  if lo <? hi then
    match fuel with
    | O => None
    | S fuel' =>
        let mid := lo + (hi - lo - 1) / 2 in
        if negb ((lo <=? mid) && (mid <? hi)) then None
        else
          elem ← data_at s mid;
          let r := call_cmp_func (sk_comp s) p elem in
          if 0 <? r then binary_search fuel' s p (mid + 1) hi
          else if r <? 0 then binary_search fuel' s p lo mid
          else if hi - lo =? 1 then Some (Some mid)
          else if negb (mid + 1 <? hi) then None
          else binary_search fuel' s p lo (mid + 1)
    end
  else if negb (lo =? hi) then None else Some None.

(** [Some i] is the return of 1 with [*out_index = i], [Some None] of 0. *)
Definition sk_find (sk : option stack) (p : Z) : option (option Z) :=
  match sk with
  | None => Some None
  | Some s =>
      if sk_comp s =? NULL then find_loop (fun x => x =? p) (Z.to_nat (num s)) s 0
      else if p =? NULL then Some None
      else if negb (sk_is_sorted sk) then
        find_loop (fun x => call_cmp_func (sk_comp s) p x =? 0) (Z.to_nat (num s)) s 0
      else binary_search (Z.to_nat (num s)) s p 0 (num s)
  end.

Definition sk_shift (sk : option stack) : option (Z * option stack) :=
  match sk with
  | None => Some (NULL, None)
  | Some s => if num s =? 0 then Some (NULL, sk) else sk_delete sk 0
  end.

Definition sk_push (realloc_ok : Z -> bool) (sk : option stack) (p : Z) : option (Z * option stack) :=
  match sk with
  | None => None
  | Some s => sk_insert realloc_ok sk p (num s)
  end.

Definition sk_pop (sk : option stack) : option (Z * option stack) :=
  match sk with
  | None => Some (NULL, None)
  | Some s => if num s =? 0 then Some (NULL, sk) else sk_delete sk (num s - 1)
  end.

Definition sk_dup (struct_ok data_ok : bool) (sk : option stack) : option (option stack) :=
  match sk with
  | None => Some None
  | Some s =>
      if negb struct_ok then Some None
      else if negb data_ok then Some None
      else
        v ← rds (sk_data s) 0 (num s);
        d ← wrs (replicate (length (sk_data s)) None) 0 v;
        Some (Some (mk_stack (num s) d (sorted s) (sk_comp s)))
  end.

(** [qsort] of the C library is called with the pointers in the first [num]
    cells. *)
Definition sk_sort (sk : option stack) : option (option stack) :=
  match sk with
  | None => Some None
  | Some s =>
      if (sk_comp s =? NULL) || sorted s then Some sk
      else
        d ← (if 2 <=? num s then
               v ← rds (sk_data s) 0 (num s);
               v ← mapM id v;
               wrs (sk_data s) 0 (Some <$> qsort (call_cmp_func (sk_comp s)) v)
             else Some (sk_data s));
        Some (Some (mk_stack (num s) d true (sk_comp s)))
  end.

Definition sk_set_cmp_func (s : stack) (comp : Z) : Z * stack :=
  (sk_comp s, mk_stack (num s) (sk_data s) (if negb (sk_comp s =? comp) then false else sorted s) comp).

Section Copy.
Context {T : Type} (call_copy_func : Z -> T -> Z * T) (call_free_func : Z -> T -> T).

(** Release the copies before [i]. *)
Fixpoint copy_loop (n : nat) (s : stack) (i : Z) (t : T) : option (option stack * T) :=
  match n with
  | O => Some (Some s, t)
  | S n' =>
      p ← data_at s i;
      if p =? NULL then copy_loop n' s (i + 1) t
      else
        let '(q, t) := call_copy_func p t in
        d ← wr (sk_data s) i (Some q);
        let s := mk_stack (num s) d (sorted s) (sk_comp s) in
        if q =? NULL then
          t ← free_loop call_free_func (Z.to_nat i) s 0 t;
          Some (sk_free (Some s), t)
        else copy_loop n' s (i + 1) t
  end.

Definition sk_deep_copy (struct_ok data_ok : bool) (sk : option stack) (t : T) : option (option stack * T) :=
  ret ← sk_dup struct_ok data_ok sk;
  match ret with
  | None => Some (None, t)
  | Some s => copy_loop (Z.to_nat (num s)) s 0 t
  end.
End Copy.
End Stack.
