(* ===== verification/UnicodeTheorems.v ===== *)
(** * BoringSSL: conversions of characters

    The encodings of characters, and what the conversions promise. *)
From S2P Require Import Prelude CBuf CMem UvIdnaUtf8 CProc Cbs CbsSpec Cbb CbbSpec CbbOps DerInt Unicode.

(** ** BoringSSL: the encodings of characters

    The functions of [Unicode] read and write exactly the encodings of the
    characters that each of the four encodings has. *)

#[local] Ltac Zify.zify_post_hook ::= Z.to_euclidean_division_equations.

(** ** Characters *)

(** Scalar values that are not reserved as noncharacters. *)
Definition character (v : Z) : Prop :=
  scalar v /\ v mod 65536 < 65534 /\ ~ (0xfdd0 <= v <= 0xfdef).

#[global] Instance character_dec v : Decision (character v).
Proof. unfold character. apply _. Defined.

Lemma land_fffe v : Z.land v 0xfffe = v mod 65536 / 2 * 2.
Proof.
  change 0xfffe with (Z.shiftl (Z.ones 15) 1).
  transitivity (Z.shiftl (Z.land (Z.shiftr v 1) (Z.ones 15)) 1).
  - apply Z.bits_inj'. intros i Hi. rewrite Z.land_spec, !Z.shiftl_spec, Z.land_spec by done.
    destruct (decide (i = 0)) as [->|Hne]; [by rewrite !(Z.testbit_neg_r _ (0 - 1)), andb_false_r by lia|].
    rewrite Z.shiftr_spec by lia. by replace (i - 1 + 1) with i by lia.
  - rewrite Z.land_ones, Z.shiftr_div_pow2, Z.shiftl_mul_pow2 by lia. change (2 ^ 1) with 2. change (2 ^ 15) with 32768. lia.
Qed.

Lemma is_valid_spec v : 0 <= v -> is_valid_code_point v = bool_decide (character v).
Proof.
  intros Hv. unfold is_valid_code_point, character, scalar. rewrite land_fffe.
  destruct (_ || _) eqn:E; symmetry; [apply bool_decide_eq_false_2|apply bool_decide_eq_true_2]; lia.
Qed.

(** ** Encodings *)

Inductive charset := Utf8 | Latin1 | Ucs2 | Utf32.

Definition in_charset (cs : charset) (v : Z) : Prop :=
  match cs with
  | Utf8 | Utf32 => character v
  | Latin1 => 0 <= v <= 0xff
  | Ucs2 => character v /\ v <= 0xffff
  end.

Definition encoded (cs : charset) (v : Z) : list Z :=
  match cs with Utf8 => utf8 v | Latin1 => [v] | Ucs2 => be 2 v | Utf32 => be 4 v end.

#[global] Instance in_charset_dec cs v : Decision (in_charset cs v).
Proof. destruct cs; cbn; apply _. Defined.

Definition cbs_get_char (cs : charset) : reader Z :=
  match cs with
  | Utf8 => cbs_get_utf8 | Latin1 => cbs_get_latin1 | Ucs2 => cbs_get_ucs2_be | Utf32 => cbs_get_utf32_be
  end.

Definition cbb_add_char (realloc_ok : Z -> bool) (cs : charset) : Z -> Z -> builder unit :=
  match cs with
  | Utf8 => cbb_add_utf8 realloc_ok | Latin1 => cbb_add_latin1 realloc_ok
  | Ucs2 => cbb_add_ucs2_be realloc_ok | Utf32 => cbb_add_utf32_be realloc_ok
  end.

(** ** Reading *)

Lemma accepts_intro {A} (r : reader A) (dom : A -> Prop) enc cbs :
  (forall v rest, dom v -> cbs = enc v ++ rest -> r cbs = Done v rest) ->
  (forall v rest, r cbs = Done v rest -> dom v /\ cbs = enc v ++ rest) -> r cbs <> Stuck ->
  accepts r dom enc cbs.
Proof.
  intros Hc Hs Hn. destruct (r cbs) as [v rest|rest|] eqn:E; [left|right|done].
  - destruct (Hs v rest eq_refl). eauto.
  - split; [by eexists|]. intros v rest' Hd Hcbs. by specialize (Hc v rest' Hd Hcbs).
Qed.

(** The first byte of a sequence. *)
Lemma utf8_first_spec c :
  in_u 8 c ->
  utf8_first c =
    if bool_decide (0xC0 <= c < 0xE0) then Some (c - 0xC0, 1%nat, 0x80)
    else if bool_decide (0xE0 <= c < 0xF0) then Some (c - 0xE0, 2%nat, 0x800)
    else if bool_decide (0xF0 <= c < 0xF8) then Some (c - 0xF0, 3%nat, 0x10000) else None.
Proof. intros Hc. unfold in_u in Hc. by_byte c. Qed.

Lemma continuation_test c : in_u 8 c -> (Z.land c (TOP_BITS 2) =? TOP_BITS 1) = bool_decide (0x80 <= c < 0xC0).
Proof. intros Hc. unfold in_u in Hc. by_byte c. Qed.

Lemma continuation_bits c : in_u 8 c -> Z.land c (BOTTOM_BITS 6) = c mod 64.
Proof. intros Hc. unfold in_u in Hc. by_byte c. Qed.

(** A further byte of a sequence. *)
Lemma utf8_rest_S n v c cbs :
  in_u 8 c -> 0 <= v < 2 ^ 26 ->
  utf8_rest (S n) v (c :: cbs) = if bool_decide (0x80 <= c < 0xC0) then utf8_rest n (v * 64 + c mod 64) cbs else Bad cbs.
Proof.
  intros Hc Hv. cbn [utf8_rest]. unfold mbind, proc_bind. rewrite get_u8_eq, continuation_test, continuation_bits by done.
  rewrite wrapu_id by (unfold in_u; rewrite Z.shiftl_mul_pow2; lia).
  rewrite Z.lor_comm, lor_shiftl_add by lia. case_bool_decide; cbn [negb]; [f_equal; lia|done].
Qed.

Lemma utf8_rest_nil n v : utf8_rest (S n) v [] = Bad [].
Proof. cbn [utf8_rest]. unfold mbind, proc_bind. by rewrite get_u8_eq. Qed.

Lemma get_utf8_eq cbs :
  cbs_get_utf8 cbs =
  match cbs with
  | [] => Bad []
  | c :: cbs' =>
      if c <=? 0x7f then Done c cbs'
      else match utf8_first c with
           | None => Bad cbs'
           | Some (v, len, lower_bound) =>
               match utf8_rest len v cbs' with
               | Done v rest => if negb (is_valid_code_point v) || (v <? lower_bound) then Bad rest else Done v rest
               | Bad rest => Bad rest
               | Stuck => Stuck
               end
           end
  end.
Proof.
  unfold cbs_get_utf8, mbind, proc_bind. rewrite get_u8_eq. destruct cbs as [|c cbs]; [done|].
  destruct (c <=? 0x7f); [done|]. destruct (utf8_first c) as [[[v len] lower]|]; [|done].
  destruct (utf8_rest len v cbs); [|done|done]. by destruct (_ || _).
Qed.

Lemma utf8_complete v rest : character v -> cbs_get_utf8 (utf8 v ++ rest) = Done v rest.
Proof.
  intros Hv. assert (0 <= v <= 0x10FFFF) as Hr by apply Hv. rewrite get_utf8_eq. unfold utf8.
  destruct (v <? 0x80) eqn:E1; [|destruct (v <? 0x800) eqn:E2; [|destruct (v <? 0x10000) eqn:E3]]; cbn [app].
  - by rewrite (proj2 (Z.leb_le v 0x7f)) by lia.
  - rewrite (proj2 (Z.leb_gt _ _)) by lia. rewrite utf8_first_spec by (unfold in_u; lia).
    rewrite bool_decide_eq_true_2 by lia. rewrite utf8_rest_S by (unfold in_u; lia).
    rewrite bool_decide_eq_true_2 by lia. cbn [utf8_rest mret proc_ret].
    replace ((192 + v / 64 - 192) * 64 + (128 + v mod 64) mod 64) with v by lia.
    rewrite is_valid_spec, bool_decide_eq_true_2 by (done || lia). cbn [negb orb]. by rewrite (proj2 (Z.ltb_ge _ _)) by lia.
  - rewrite (proj2 (Z.leb_gt _ _)) by lia. rewrite utf8_first_spec by (unfold in_u; lia).
    rewrite bool_decide_eq_false_2, bool_decide_eq_true_2 by lia. rewrite !utf8_rest_S by (unfold in_u; lia).
    rewrite !bool_decide_eq_true_2 by lia. cbn [utf8_rest mret proc_ret].
    replace (((224 + v / 4096 - 224) * 64 + (128 + v / 64 mod 64) mod 64) * 64 + (128 + v mod 64) mod 64) with v by lia.
    rewrite is_valid_spec, bool_decide_eq_true_2 by (done || lia). cbn [negb orb]. by rewrite (proj2 (Z.ltb_ge _ _)) by lia.
  - rewrite (proj2 (Z.leb_gt _ _)) by lia. rewrite utf8_first_spec by (unfold in_u; lia).
    rewrite !bool_decide_eq_false_2, bool_decide_eq_true_2 by lia. rewrite !utf8_rest_S by (unfold in_u; lia).
    rewrite !bool_decide_eq_true_2 by lia. cbn [utf8_rest mret proc_ret].
    match goal with |- context [is_valid_code_point ?x] => replace x with v by lia end.
    rewrite is_valid_spec, bool_decide_eq_true_2 by (done || lia). cbn [negb orb]. by rewrite (proj2 (Z.ltb_ge _ _)) by lia.
Qed.

(** What is read is the encoding of the character. *)
Definition sound (enc : Z -> list Z) (dom : Z -> Prop) (cbs : CBS) (r : result CBS Z) : Prop :=
  match r with Done v rest => dom v /\ cbs = enc v ++ rest | Bad _ => True | Stuck => False end.

(** The last test of [cbs_get_utf8]. *)
Lemma utf8_last v lower cbs rest :
  0 <= v -> (character v -> lower <= v -> cbs = utf8 v ++ rest) ->
  sound utf8 character cbs (if negb (is_valid_code_point v) || (v <? lower) then Bad rest else Done v rest).
Proof.
  intros Hv H. rewrite is_valid_spec by done. case_bool_decide as Hc; cbn [negb orb]; [|done].
  destruct (v <? lower) eqn:E; [done|]. split; [done|]. apply H; [done|lia].
Qed.

(** A byte of the rest, or the end. *)
Ltac utf8_byte b cbs Hb Hcbs :=
  destruct cbs as [|b cbs]; [by rewrite utf8_rest_nil|];
  apply Forall_cons in Hcbs as [Hb Hcbs]; rewrite utf8_rest_S by (done || lia);
  unfold in_u in Hb; case_bool_decide; [|done].

Lemma utf8_sound cbs : bytes cbs -> sound utf8 character cbs (cbs_get_utf8 cbs).
Proof.
  intros Hb. rewrite get_utf8_eq. destruct cbs as [|c cbs]; [done|]. apply Forall_cons in Hb as [Hc Hb].
  pose proof Hc as Hc'. unfold in_u in Hc'.
  destruct (c <=? 0x7f) eqn:E.
  { split; [split; [split|]; lia|]. unfold utf8. by rewrite (proj2 (Z.ltb_lt c 0x80)) by lia. }
  rewrite utf8_first_spec by done. repeat case_bool_decide; [..|done].
  - utf8_byte d cbs Hd Hb. cbn [utf8_rest mret proc_ret]. apply utf8_last; [lia|]. intros _ Hl.
    unfold utf8. set (v := _ + _) in *. decide_ltb. cbn [app]. do 2 (apply (f_equal2 cons); [lia|]). done.
  - utf8_byte d cbs Hd Hb. utf8_byte e cbs He Hb. cbn [utf8_rest mret proc_ret]. apply utf8_last; [lia|]. intros _ Hl.
    unfold utf8. set (v := _ + _) in *. decide_ltb. cbn [app]. do 3 (apply (f_equal2 cons); [lia|]). done.
  - utf8_byte d cbs Hd Hb. utf8_byte e cbs He Hb. utf8_byte f cbs Hf Hb. cbn [utf8_rest mret proc_ret].
    apply utf8_last; [lia|]. intros _ Hl.
    unfold utf8. set (v := _ + _) in *. decide_ltb. cbn [app]. do 4 (apply (f_equal2 cons); [lia|]). done.
Qed.

Lemma get_u_sound (k : nat) cbs : bytes cbs -> (k <= 8)%nat ->
  sound (be k) (fun v => 0 <= v < 2 ^ (8 * Z.of_nat k)) cbs (cbs_get_u (Z.of_nat k) cbs).
Proof.
  intros Hb Hk. destruct (cbs_get_u_cases (Z.of_nat k) cbs Hb) as [[_ ->]|(v & rest & -> & Hlen & ->)]; [lia|done|].
  apply Forall_app in Hb as [Hv _]. assert (k = length v) as -> by lia. split; [by apply be_val_bound|]. by rewrite be_be_val.
Qed.

Lemma get_u_complete (k : nat) v rest : (k <= 8)%nat -> 0 <= v < 2 ^ (8 * Z.of_nat k) -> cbs_get_u (Z.of_nat k) (be k v ++ rest) = Done v rest.
Proof.
  intros Hk Hv. pose proof (cbs_get_u_app (be k v) rest (be_bytes k v)) as H. rewrite length_be in H. rewrite H by lia.
  by rewrite be_val_be, Z.mod_small.
Qed.

Lemma get_char_complete cs v rest : in_charset cs v -> cbs_get_char cs (encoded cs v ++ rest) = Done v rest.
Proof.
  destruct cs; cbn [in_charset cbs_get_char encoded]; intros Hv.
  - by apply utf8_complete.
  - unfold cbs_get_latin1. by rewrite get_u8_eq.
  - destruct Hv as [Hv Hl]. assert (0 <= v <= 0x10FFFF) as Hr by apply Hv. unfold cbs_get_ucs2_be, CBS_get_u16, mbind, proc_bind.
    rewrite (get_u_complete 2) by lia. cbn [mret proc_ret]. rewrite wrapu_id by (unfold in_u; lia).
    by rewrite is_valid_spec, bool_decide_eq_true_2 by (done || lia).
  - assert (0 <= v <= 0x10FFFF) as Hr by apply Hv. unfold cbs_get_utf32_be, CBS_get_u32, mbind, proc_bind.
    rewrite (get_u_complete 4) by lia. cbn [mret proc_ret]. rewrite wrapu_id by (unfold in_u; lia).
    by rewrite is_valid_spec, bool_decide_eq_true_2 by (done || lia).
Qed.

Lemma get_char_sound cs cbs : bytes cbs -> sound (encoded cs) (in_charset cs) cbs (cbs_get_char cs cbs).
Proof.
  intros Hb. destruct cs; cbn [in_charset cbs_get_char].
  - by apply utf8_sound.
  - unfold cbs_get_latin1. rewrite get_u8_eq. destruct cbs as [|c cbs]; [done|]. apply Forall_cons in Hb as [Hc _].
    unfold in_u in Hc. split; [cbn; lia|done].
  - pose proof (get_u_sound 2 cbs Hb ltac:(lia)) as H. unfold cbs_get_ucs2_be, CBS_get_u16, mbind, proc_bind.
    change (Z.of_nat 2) with 2 in H. destruct (cbs_get_u 2 cbs) as [v rest|rest|]; [|done|done]. destruct H as [Hv ->].
    cbn [mret proc_ret]. rewrite wrapu_id by (unfold in_u; lia). rewrite is_valid_spec by lia.
    case_bool_decide as Hc; cbn [negb]; [|done]. split; [split; [done|lia]|done].
  - pose proof (get_u_sound 4 cbs Hb ltac:(lia)) as H. unfold cbs_get_utf32_be, CBS_get_u32, mbind, proc_bind.
    change (Z.of_nat 4) with 4 in H. destruct (cbs_get_u 4 cbs) as [v rest|rest|]; [|done|done]. destruct H as [Hv ->].
    cbn [mret proc_ret]. rewrite wrapu_id by (unfold in_u; lia). rewrite is_valid_spec by lia.
    by case_bool_decide as Hc.
Qed.

Lemma get_char_accepts cs cbs : bytes cbs -> accepts (cbs_get_char cs) (in_charset cs) (encoded cs) cbs.
Proof.
  intros Hb. pose proof (get_char_sound cs cbs Hb) as Hs. apply accepts_intro.
  - intros v rest Hv ->. by apply get_char_complete.
  - intros v rest E. by rewrite E in Hs.
  - intros E. by rewrite E in Hs.
Qed.

(** ** Writing *)

Section Write.
Context (realloc_ok : Z -> bool) (resizable : bool) (limit : Z).

#[local] Abbreviation open_at := (open_at resizable limit).
#[local] Abbreviation writes := (writes realloc_ok resizable limit).

(** The bytes of a sequence. *)
Lemma top_bits x :
  0 <= x < 256 ->
  (x < 64 -> u8 (Z.lor (TOP_BITS 1) x) = 0x80 + x) /\ (x < 32 -> u8 (Z.lor (TOP_BITS 2) x) = 0xC0 + x) /\
  (x < 16 -> u8 (Z.lor (TOP_BITS 3) x) = 0xE0 + x) /\ (x < 8 -> u8 (Z.lor (TOP_BITS 4) x) = 0xF0 + x).
Proof. intros Hx. by_byte x. Qed.

Lemma continuation_eq u n : 0 <= u -> 0 <= n -> continuation u n = 0x80 + u / 2 ^ n mod 64.
Proof.
  intros Hu Hn. unfold continuation. change (BOTTOM_BITS 6) with (2 ^ 6 - 1). rewrite (land_ones_mod _ 6) by lia.
  rewrite Z.shiftr_div_pow2 by lia. change (2 ^ 6) with 64. apply top_bits; lia.
Qed.

(** A function of the writer: the encoding of a character or, for other
    values, a return of 0 before anything is written. *)
Lemma add_char_spec cs w pre a bytes u :
  open_at w pre a bytes -> 0 <= u < 2 ^ 32 ->
  if bool_decide (in_charset cs u) then writes (cbb_add_char realloc_ok cs a u) w pre a bytes (encoded cs u)
  else cbb_add_char realloc_ok cs a u w = Bad w.
Proof.
  intros Ho Hu. destruct cs; cbn [in_charset cbb_add_char encoded].
  - unfold cbb_add_utf8. rewrite is_valid_spec by lia. destruct (decide (character u)) as [Hc|Hc]; [rewrite !bool_decide_eq_true_2 by (done || (split; [done|lia]))|rewrite !bool_decide_eq_false_2 by (done || (by intros []))]; cbn [negb]; [|done].
    assert (0 <= u <= 0x10FFFF) as Hr by apply Hc. rewrite !continuation_eq by lia. rewrite Z.pow_0_r, Z.div_1_r, !Z.shiftr_div_pow2 by lia.
    unfold utf8. destruct (u <=? 0x7f) eqn:E1; [|destruct (u <=? 0x7ff) eqn:E2; [|destruct (u <=? 0xffff) eqn:E3]]; decide_ltb.
    + rewrite wrapu_id by (unfold in_u; lia). apply writes_u8; [done|lia].
    + rewrite (proj1 (proj2 (top_bits (u / 2 ^ 6) ltac:(lia)))) by lia.
      apply (writes_seq _ _ _ _ _ _ _ _ _ [_] [_]); [apply writes_u8; [done|lia]|]. intros w1 Ho1. apply writes_u8; [done|lia].
    + rewrite (proj1 (proj2 (proj2 (top_bits (u / 2 ^ 12) ltac:(lia))))) by lia.
      apply (writes_seq _ _ _ _ _ _ _ _ _ [_] [_; _]); [apply writes_u8; [done|lia]|]. intros w1 Ho1.
      apply (writes_seq _ _ _ _ _ _ _ _ _ [_] [_]); [apply writes_u8; [done|lia]|]. intros w2 Ho2. apply writes_u8; [done|lia].
    + rewrite (proj2 (Z.leb_le u 0x10ffff)) by lia. rewrite (proj2 (proj2 (proj2 (top_bits (u / 2 ^ 18) ltac:(lia))))) by lia.
      apply (writes_seq _ _ _ _ _ _ _ _ _ [_] [_; _; _]); [apply writes_u8; [done|lia]|]. intros w1 Ho1.
      apply (writes_seq _ _ _ _ _ _ _ _ _ [_] [_; _]); [apply writes_u8; [done|lia]|]. intros w2 Ho2.
      apply (writes_seq _ _ _ _ _ _ _ _ _ [_] [_]); [apply writes_u8; [done|lia]|]. intros w3 Ho3. apply writes_u8; [done|lia].
  - unfold cbb_add_latin1. destruct (u <=? 0xff) eqn:E; [rewrite bool_decide_eq_true_2 by lia|by rewrite bool_decide_eq_false_2 by lia].
    rewrite wrapu_id by (unfold in_u; lia). apply writes_u8; [done|lia].
  - unfold cbb_add_ucs2_be. rewrite is_valid_spec by lia. destruct (u <=? 0xffff) eqn:E; cbn [andb].
    + destruct (decide (character u)) as [Hc|Hc]; [rewrite !bool_decide_eq_true_2 by (done || (split; [done|lia]))|rewrite !bool_decide_eq_false_2 by (done || (by intros []))]; [|done]. rewrite wrapu_id by (unfold in_u; lia). apply (add_u_spec realloc_ok resizable limit w pre a bytes 2); [done|lia|lia].
    + rewrite bool_decide_eq_false_2 by lia. done.
  - unfold cbb_add_utf32_be. rewrite is_valid_spec by lia. destruct (decide (character u)) as [Hc|Hc]; [rewrite !bool_decide_eq_true_2 by (done || (split; [done|lia]))|rewrite !bool_decide_eq_false_2 by (done || (by intros []))]; [|done].
    apply (add_u_spec realloc_ok resizable limit w pre a bytes 4); [done|lia|lia].
Qed.
End Write.

Lemma utf8_len u : character u -> cbb_get_utf8_len u = Z.of_nat (length (utf8 u)).
Proof.
  intros [Hu _]. unfold scalar in Hu. unfold cbb_get_utf8_len, utf8.
  destruct (u <=? 0x7f) eqn:E1; [|destruct (u <=? 0x7ff) eqn:E2; [|destruct (u <=? 0xffff) eqn:E3]]; decide_ltb; done.
Qed.

#[local] Ltac Zify.zify_post_hook ::= idtac.

(** ** BoringSSL: what the conversions of characters promise *)

(** C25. In each of the four encodings the reader accepts exactly the encodings of
    the characters that the encoding has - scalar values that are no
    noncharacters, in their shortest form -, advances past one of them and
    returns 0 on everything else.  The writer appends that same encoding, or
    returns 0 without writing when the encoding has no such character, or
    because there is no room.  [cbb_get_utf8_len] announces the length. *)
Theorem charset_exact realloc_ok resizable limit cs cbs w pre a bs u :
  Forall (in_u 8) cbs -> open_at resizable limit w pre a bs -> 0 <= u < 2 ^ 32 ->
  accepts (cbs_get_char cs) (in_charset cs) (encoded cs) cbs /\
  (if bool_decide (in_charset cs u) then writes realloc_ok resizable limit (cbb_add_char realloc_ok cs a u) w pre a bs (encoded cs u)
   else cbb_add_char realloc_ok cs a u w = Bad w) /\
  (character u -> cbb_get_utf8_len u = Z.of_nat (length (utf8 u))).
Proof.
  intros Hb Ho Hu. split; [by apply get_char_accepts|]. split; [by apply add_char_spec|by apply utf8_len].
Qed.

(** A builder that holds one byte. *)
Definition small_world : world :=
  mk_world (Some (mk_buffer [Some 9; None; None; None; None] 1 true false)) (<[1 := mk_cbb true None 0 0 false false]> ∅).

(** The euro sign, read and written. *)
Lemma charset_exact_witness :
  accepts (cbs_get_char Utf8) (in_charset Utf8) (encoded Utf8) [0xE2; 0x82; 0xAC; 1] /\
  (if bool_decide (in_charset Utf8 0x20AC)
   then writes (fun _ => true) true 0 (cbb_add_char (fun _ => true) Utf8 1 0x20AC) small_world [] 1 [9] (encoded Utf8 0x20AC)
   else cbb_add_char (fun _ => true) Utf8 1 0x20AC small_world = Bad small_world) /\
  (character 0x20AC -> cbb_get_utf8_len 0x20AC = Z.of_nat (length (utf8 0x20AC))).
Proof.
  apply (charset_exact (fun _ => true) true 0 Utf8 [0xE2; 0x82; 0xAC; 1] small_world [] 1 [9] 0x20AC); [decided| |decided].
  eapply (open_at_intro _ _ small_world _ (mk_cbb true None 0 0 false false)); [reflexivity| |by vm_compute|done|done].
  split; try done. by exists [None; None; None; None].
Defined.
