(* ===== verification/StackSpec.v ===== *)
(** * BoringSSL: a stack is a list

    Arrays and lists, searching and sorting, and the remaining operations. *)
From stdpp Require Import sorting.
From S2P Require Import Prelude CBuf Stack.

(** ** BoringSSL: a stack is a list

    The cells of a stack as a list of pointers, and what the operations do to
    it. *)

#[local] Ltac Zify.zify_post_hook ::= Z.to_euclidean_division_equations.

(** The stack [s] holds the pointers [l]. *)
Record holds (s : stack) (l : list Z) : Prop := {
  h_num : num s = Z.of_nat (length l);
  h_data : exists post, sk_data s = (Some <$> l) ++ post;
  h_alloc : 0 < num_alloc s < 2 ^ 61 }.

Lemma holds_bound s l : holds s l -> Z.of_nat (length l) <= num_alloc s < 2 ^ 61.
Proof.
  intros [_ [post E] Ha]. unfold num_alloc in *. rewrite E, length_app, length_fmap in *. lia.
Qed.

Lemma holds_change s l l' d post b c :
  holds s l -> d = (Some <$> l') ++ post -> length d = length (sk_data s) -> holds (mk_stack (Z.of_nat (length l')) d b c) l'.
Proof.
  intros [_ _ Ha] E Hl. constructor; [done|by exists post|]. unfold num_alloc in *. cbn [sk_data]. by rewrite Hl.
Qed.

Lemma data_at_spec s l i : holds s l -> 0 <= i < Z.of_nat (length l) -> data_at s i = l !! Z.to_nat i.
Proof.
  intros [_ [post E] _] Hi. unfold data_at, rd. rewrite bool_decide_eq_true_2, E by lia.
  rewrite lookup_app_l by (rewrite length_fmap; lia). rewrite list_lookup_fmap. by destruct (l !! Z.to_nat i).
Qed.

Lemma new_holds c : holds (mk_stack 0 (replicate (Z.to_nat kMinSize) (Some NULL)) false c) [].
Proof. constructor; [done|by eexists|done]. Qed.

(** ** Growing *)

Lemma alloc_overflows_spec a n :
  0 < a < 2 ^ 61 -> 0 <= n < 2 ^ 64 -> alloc_overflows a n = negb (bool_decide (a <= n < 2 ^ 61)).
Proof.
  intros Ha Hn. unfold alloc_overflows, sizeof_pointer. unfold wrapu. 
  destruct (n <? a) eqn:E1; [by rewrite bool_decide_eq_false_2 by lia|]. cbn [orb].
  destruct (decide (n < 2 ^ 61)) as [H|H].
  - rewrite bool_decide_eq_true_2 by lia. rewrite Z.mod_small by lia. rewrite Z.div_mul by lia. by rewrite Z.eqb_refl.
  - rewrite bool_decide_eq_false_2 by lia. cbn [negb]. rewrite negb_true_iff. apply Z.eqb_neq. lia.
Qed.

Lemma length_resize n d : 0 <= n -> length (resize n d) = Z.to_nat n.
Proof. intros Hn. unfold resize. rewrite length_app, length_take, length_replicate. lia. Qed.

(** When there is no room, growing fails only for want of memory. *)
Lemma grow_spec realloc_ok s l :
  holds s l ->
  match grow realloc_ok s with
  | Some d => exists post, d = (Some <$> l) ++ post /\ Z.of_nat (length l) < Z.of_nat (length d) < 2 ^ 61
  | None => (exists n, realloc_ok n = false) \/ 2 ^ 61 - 2 <= Z.of_nat (length l)
  end.
Proof.
  intros Hs. pose proof (holds_bound s l Hs) as Hb. destruct Hs as [Hn [post E] Ha]. unfold grow.
  rewrite Hn, (wrapu_id _ (Z.of_nat (length l) + 1)) by (unfold in_u; lia).
  destruct (num_alloc s <=? Z.of_nat (length l) + 1) eqn:E1; [apply Z.leb_le in E1|apply Z.leb_gt in E1].
  - rewrite Z.shiftl_mul_pow2, !wrapu_id by (unfold in_u; lia). change (2 ^ 1) with 2.
    rewrite (alloc_overflows_spec (num_alloc s) (num_alloc s * 2)) by lia.
    set (n := if negb _ then num_alloc s + 1 else num_alloc s * 2).
    assert (num_alloc s < n < 2 ^ 61 \/ n = 2 ^ 61 /\ num_alloc s = 2 ^ 61 - 1) as Hn'.
    { unfold n. case_bool_decide; cbn [negb]; lia. }
    rewrite alloc_overflows_spec by lia. case_bool_decide as Hc; cbn [negb].
    + destruct (negb (realloc_ok _)) eqn:Er; [left; eexists; by apply negb_true_iff|].
      exists (take (Z.to_nat n - length l) post ++ replicate (Z.to_nat n - length (sk_data s)) None).
      rewrite length_resize by lia. split; [|lia]. unfold resize. rewrite E.
      rewrite take_app, take_ge by (rewrite length_fmap; lia). rewrite length_fmap, <- app_assoc. done.
    + right. lia.
  - exists post. split; [done|]. unfold num_alloc in *. lia.
Qed.

(** ** Operations *)

Definition list_insert_at (p i : Z) (l : list Z) : list Z :=
  take (Z.to_nat i) l ++ p :: drop (Z.to_nat i) l.

Lemma length_list_insert_at p i l : length (list_insert_at p i l) = S (length l).
Proof. unfold list_insert_at. rewrite length_app, length_take. cbn [length]. rewrite length_drop. lia. Qed.

Lemma insert_cells l post p w (d : list (option Z)) :
  d = (Some <$> l) ++ post -> (0 < length post)%nat -> 0 <= w ->
  exists d', (if Z.of_nat (length l) <=? w then wr d (Z.of_nat (length l)) (Some p)
              else v ← rds d w (Z.of_nat (length l) - w); d ← wrs d (w + 1) v; wr d w (Some p)) = Some d' /\
    length d' = length d /\ exists post', d' = (Some <$> list_insert_at p w l) ++ post'.
Proof.
  intros -> Hp Hw. destruct post as [|x post]; [cbn in Hp; lia|]. destruct (Z.of_nat (length l) <=? w) eqn:E.
  - apply Z.leb_le in E. eexists. split; [|split].
    + apply (wrs_mid (Some <$> l) [x] post [Some p]); [by rewrite length_fmap|done].
    + rewrite !length_app. done.
    + exists post. unfold list_insert_at. rewrite take_ge, drop_ge by lia. rewrite fmap_app. cbn. by rewrite <- app_assoc.
  - apply Z.leb_gt in E. set (a := take (Z.to_nat w) l). set (b := drop (Z.to_nat w) l).
    assert (l = a ++ b) as El by (symmetry; apply take_drop).
    assert (Z.of_nat (length a) = w) as Ea by (unfold a; rewrite length_take; lia).
    clearbody a b. subst l. destruct b as [|y b]; [rewrite app_nil_r in E; lia|].
    rewrite fmap_app in *. rewrite length_app in *. rewrite <- app_assoc.
    replace (Z.of_nat (length a + length (y :: b)) - w) with (Z.of_nat (length (Some <$> y :: b))) by (rewrite length_fmap; lia).
    assert (rds ((Some <$> a) ++ (Some <$> y :: b) ++ x :: post) w (Z.of_nat (length (Some <$> y :: b))) = Some (Some <$> y :: b)) as ->.
    { rewrite <- Ea, <- (length_fmap Some a). apply rds_at. }
    cbn [mbind option_bind].
    (* one cell to the right *)
    assert (wrs ((Some <$> a) ++ (Some <$> y :: b) ++ x :: post) (w + 1) (Some <$> y :: b)
            = Some (((Some <$> a) ++ [Some y]) ++ (Some <$> y :: b) ++ post)) as ->.
    { replace ((Some <$> a) ++ (Some <$> y :: b) ++ x :: post)
        with (((Some <$> a) ++ [Some y]) ++ ((Some <$> b) ++ [x]) ++ post) by (cbn; by rewrite <- !app_assoc).
      apply wrs_mid; [rewrite length_app, length_fmap; cbn; lia|]. rewrite length_app. cbn. rewrite !length_fmap. lia. }
    cbn [mbind option_bind]. rewrite <- app_assoc. eexists. split; [|split].
    + apply (wrs_mid (Some <$> a) [Some y] _ [Some p]); [rewrite length_fmap; lia|done].
    + rewrite !length_app. cbn. rewrite ?length_app. cbn. lia.
    + exists post. unfold list_insert_at. rewrite take_app_length', drop_app_length' by lia. cbn. rewrite fmap_app. cbn. by rewrite <- !app_assoc.
Qed.

Lemma insert_holds realloc_ok s l p w :
  holds s l -> 0 <= w -> 
  (sk_insert realloc_ok (Some s) p w = Some (0, Some s) /\
    ((exists n, realloc_ok n = false) \/ 2 ^ 61 - 2 <= Z.of_nat (length l))) \/
  exists s', sk_insert realloc_ok (Some s) p w = Some (Z.of_nat (S (length l)), Some s') /\
    holds s' (list_insert_at p w l) /\ sorted s' = false /\ sk_comp s' = sk_comp s.
Proof.
  intros Hs Hw. pose proof (grow_spec realloc_ok s l Hs) as Hg. pose proof (holds_bound s l Hs) as Hb.
  unfold sk_insert. destruct (grow realloc_ok s) as [d|]; [right|left; done]. destruct Hg as (post & E & Hd).
  rewrite (h_num s l Hs).
  assert (0 < length post)%nat as Hp by (rewrite E, length_app, length_fmap in Hd; lia).
  destruct (insert_cells l post p w d E Hp Hw) as (d' & -> & Hl & post' & E'). cbn [mbind option_bind].
  rewrite wrapu_id by (unfold in_u; lia). eexists. split; [do 2 f_equal; lia|]. split; [|done].
  constructor; cbn [num sk_data].
  - rewrite length_list_insert_at. lia.
  - by exists post'.
  - unfold num_alloc. cbn [sk_data]. rewrite Hl. lia.
Qed.

Lemma delete_holds s l i :
  holds s l -> 0 <= i < Z.of_nat (length l) ->
  exists x s', l !! Z.to_nat i = Some x /\ sk_delete (Some s) i = Some (x, Some s') /\
    holds s' (delete (Z.to_nat i) l) /\ sorted s' = sorted s /\ sk_comp s' = sk_comp s.
Proof.
  intros Hs Hi. destruct (lookup_lt_is_Some_2 l (Z.to_nat i) ltac:(lia)) as [x Hx]. exists x.
  pose proof Hs as [Hn [post E] Ha]. unfold sk_delete. rewrite Hn, (proj2 (Z.leb_gt _ _)) by lia.
  rewrite (data_at_spec s l i Hs Hi), Hx. cbn [mbind option_bind].
  set (a := take (Z.to_nat i) l). set (b := drop (S (Z.to_nat i)) l).
  assert (l = a ++ x :: b) as El by (symmetry; by apply take_drop_middle).
  assert (delete (Z.to_nat i) l = a ++ b) as Ed by apply delete_take_drop.
  assert (Z.of_nat (length a) = i) as Ea by (unfold a; rewrite length_take; lia).
  assert (length l = length a + S (length b))%nat as Hl by (rewrite El at 1; by rewrite length_app). rewrite Ed.
  assert (exists d post', (if negb (i =? Z.of_nat (length l) - 1) then v ← rds (sk_data s) (i + 1) (Z.of_nat (length l) - i - 1); wrs (sk_data s) i v
            else Some (sk_data s)) = Some d /\ length d = length (sk_data s) /\ d = (Some <$> a ++ b) ++ post') as (d & post' & -> & Hd & Edd).
  { clearbody a b. destruct (i =? Z.of_nat (length l) - 1) eqn:Ei; cbn [negb].
    - apply Z.eqb_eq in Ei. exists (sk_data s), (Some x :: post). split; [done|]. split; [done|]. rewrite E, El.
      destruct b; [|cbn in Hl; lia]. rewrite app_nil_r, fmap_app. cbn. by rewrite <- app_assoc.
    - apply Z.eqb_neq in Ei. rewrite E, El, fmap_app. cbn [fmap list_fmap].
      replace (((Some <$> a) ++ Some x :: (Some <$> b)) ++ post) with (((Some <$> a) ++ [Some x]) ++ (Some <$> b) ++ post)
        by by rewrite <- !app_assoc.
      replace (i + 1) with (Z.of_nat (length ((Some <$> a) ++ [Some x]))) by (rewrite length_app, length_fmap; cbn; lia).
      replace (Z.of_nat (length (a ++ x :: b)) - i - 1) with (Z.of_nat (length (Some <$> b))) by (rewrite length_app, length_fmap; cbn; lia).
      rewrite rds_at. cbn [mbind option_bind]. rewrite <- app_assoc.
      destruct (last b) as [y|] eqn:Ely; [|apply last_None in Ely; subst b; cbn in Hl; lia].
      apply last_Some in Ely as [b' ->]. exists ((Some <$> a) ++ (Some <$> b' ++ [y]) ++ Some y :: post), (Some y :: post).
      split; [|split].
      + replace ([Some x] ++ (Some <$> b' ++ [y]) ++ post) with ((Some x :: (Some <$> b')) ++ Some y :: post)
          by (rewrite fmap_app; cbn; by rewrite <- app_assoc).
        apply wrs_mid; [rewrite length_fmap; lia|]. rewrite fmap_app, length_app. cbn. lia.
      + repeat (rewrite ?length_app, ?length_fmap; cbn [length app]). lia.
      + by rewrite !fmap_app, <- !app_assoc. }
  cbn [mbind option_bind]. eexists. split; [done|]. split; [done|]. split; [|done].
  replace (Z.of_nat (length l) - 1) with (Z.of_nat (length (a ++ b))) by (rewrite length_app; lia).
  by eapply holds_change.
Qed.

(** ** BoringSSL: searching and sorting a stack

    The loops over the elements of a stack, the binary search and [sk_sort]. *)

(** The first element that [found] accepts. *)
Fixpoint index_of (found : Z -> bool) (l : list Z) : option nat :=
  match l with
  | [] => None
  | x :: l' => if found x then Some O else S <$> index_of found l'
  end.

Lemma index_of_first found l k x :
  l !! k = Some x -> found x = true -> (forall j y, (j < k)%nat -> l !! j = Some y -> found y = false) -> index_of found l = Some k.
Proof.
  revert k. induction l as [|z l IH]; intros [|k] Hk Hx Hb; cbn [index_of]; try done.
  - injection Hk as ->. by rewrite Hx.
  - rewrite (Hb 0%nat z ltac:(lia) eq_refl). rewrite (IH k Hk Hx); [done|]. intros j y Hj Hy. apply (Hb (S j) y); [lia|done].
Qed.

Lemma index_of_none found l : (forall j y, l !! j = Some y -> found y = false) -> index_of found l = None.
Proof.
  induction l as [|z l IH]; intros Hb; cbn [index_of]; [done|].
  rewrite (Hb 0%nat z eq_refl). rewrite IH; [done|]. intros j y Hy. by apply (Hb (S j) y).
Qed.

Lemma index_of_lt found l k : index_of found l = Some k -> (k < length l)%nat.
Proof.
  revert k. induction l as [|z l IH]; intros k; cbn [index_of length]; [done|]. destruct (found z); [intros [= <-]; lia|].
  destruct (index_of found l) as [j|]; [|done]. intros [= <-]. specialize (IH j eq_refl). lia.
Qed.

Section Find.
Context (call_cmp_func : Z -> Z -> Z -> Z).

Lemma find_loop_spec found s l1 l2 :
  holds s (l1 ++ l2) ->
  find_loop found (length l2) s (Z.of_nat (length l1)) = Some ((fun k => Z.of_nat (length l1 + k)) <$> index_of found l2).
Proof.
  revert l1. induction l2 as [|x l2 IH]; intros l1 Hs; cbn [length find_loop index_of]; [done|].
  rewrite (data_at_spec s _ _ Hs) by (rewrite length_app; cbn; lia). rewrite Nat2Z.id, list_lookup_middle by done.
  cbn [mbind option_bind]. destruct (found x); [cbn; by rewrite Nat.add_0_r|].
  replace (Z.of_nat (length l1) + 1) with (Z.of_nat (length (l1 ++ [x]))) by (rewrite length_app; cbn; lia).
  rewrite IH by by rewrite <- app_assoc. rewrite length_app. cbn [length].
  destruct (index_of found l2) as [k|]; [|done]. cbn. f_equal. f_equal. lia.
Qed.

Lemma find_all found s l : holds s l -> find_loop found (Z.to_nat (num s)) s 0 = Some (Z.of_nat <$> index_of found l).
Proof. intros Hs. rewrite (h_num s l Hs), Nat2Z.id. exact (find_loop_spec found s [] l Hs). Qed.

(** A comparison function: the signs of its results are those of an order. *)
Class Ordering (cmp : Z -> Z -> Z) : Prop := {
  cmp_opp x y : Z.sgn (cmp y x) = - Z.sgn (cmp x y);
  cmp_trans x y z : cmp x y <= 0 -> cmp y z <= 0 -> cmp x z <= 0 }.

Definition ascending (cmp : Z -> Z -> Z) (l : list Z) : Prop := StronglySorted (fun x y => cmp x y <= 0) l.

Lemma ascending_le cmp l i j x y :
  ascending cmp l -> l !! i = Some x -> l !! j = Some y -> (i < j)%nat -> cmp x y <= 0.
Proof.
  intros Hs. revert i j. induction Hs as [|z l Hs IH Hz]; intros i j Hx Hy Hij; [done|]. destruct j as [|j]; [lia|].
  destruct i as [|i]; cbn in *; [|eapply IH; [done..|lia]].
  injection Hx as ->. rewrite Forall_forall in Hz. apply Hz. by eapply list_elem_of_lookup_2.
Qed.

(** Binary search always ends inside the stack, whatever the order of the elements. *)
Lemma binary_search_total fuel s l p lo hi :
  holds s l -> 0 <= lo <= hi -> hi <= Z.of_nat (length l) -> hi - lo <= Z.of_nat fuel ->
  exists r, binary_search call_cmp_func fuel s p lo hi = Some r /\
    match r with
    | None => True
    | Some k => exists x, l !! Z.to_nat k = Some x /\ call_cmp_func (sk_comp s) p x = 0 /\ 0 <= k < Z.of_nat (length l)
    end.
Proof.
  intros Hs. revert lo hi. induction fuel as [|fuel IH]; intros lo hi Hlo Hhi Hf; cbn [binary_search].
  - rewrite (proj2 (Z.ltb_ge lo hi)) by lia. rewrite (proj2 (Z.eqb_eq lo hi)) by lia. by exists None.
  - destruct (lo <? hi) eqn:E; [apply Z.ltb_lt in E|apply Z.ltb_ge in E; rewrite (proj2 (Z.eqb_eq lo hi)) by lia; by exists None].
    cbv zeta. set (mid := lo + (hi - lo - 1) / 2). assert (lo <= mid < hi) as Hm by (unfold mid; lia).
    rewrite (proj2 (Z.leb_le lo mid)), (proj2 (Z.ltb_lt mid hi)) by lia. cbn [negb andb].
    rewrite (data_at_spec s l mid Hs) by lia. destruct (lookup_lt_is_Some_2 l (Z.to_nat mid) ltac:(lia)) as [x Hx]. rewrite Hx.
    cbn [mbind option_bind]. destruct (0 <? _) eqn:E1; [apply IH; lia|]. destruct (_ <? 0) eqn:E2; [apply IH; lia|].
    apply Z.ltb_ge in E1, E2. destruct (hi - lo =? 1) eqn:E3.
    + exists (Some mid). split; [done|]. exists x. split; [done|]. lia.
    + apply Z.eqb_neq in E3. assert (mid + 1 < hi) as Hm' by (unfold mid; lia). rewrite (proj2 (Z.ltb_lt _ _)) by done. cbn [negb].
      apply IH; lia.
Qed.

(** What the interval [lo, hi) leaves out. *)
Record narrowed (cmp : Z -> Z -> Z) (p : Z) (l : list Z) (lo hi : Z) : Prop := {
  n_low i x : Z.of_nat i < lo -> l !! i = Some x -> 0 < cmp p x;
  n_high : (forall i x, hi <= Z.of_nat i -> l !! i = Some x -> cmp p x < 0) \/
           (lo < hi /\ exists x, l !! Z.to_nat (hi - 1) = Some x /\ cmp p x = 0) }.

Lemma binary_search_exact fuel s l p lo hi :
  holds s l -> Ordering (call_cmp_func (sk_comp s)) -> ascending (call_cmp_func (sk_comp s)) l ->
  narrowed (call_cmp_func (sk_comp s)) p l lo hi ->
  0 <= lo <= hi -> hi <= Z.of_nat (length l) -> hi - lo <= Z.of_nat fuel ->
  binary_search call_cmp_func fuel s p lo hi =
  Some (Z.of_nat <$> index_of (fun x => call_cmp_func (sk_comp s) p x =? 0) l).
Proof.
  intros Hs Ho Ha. set (cmp := call_cmp_func (sk_comp s)) in *. revert lo hi.
  induction fuel as [|fuel IH]; intros lo hi Hn Hlo Hhi Hf; cbn [binary_search].
  - rewrite (proj2 (Z.ltb_ge lo hi)), (proj2 (Z.eqb_eq lo hi)) by lia. cbn [negb].
    destruct (n_high _ _ _ _ _ Hn) as [Hh|Hh]; [|lia]. rewrite index_of_none; [done|]. intros j y Hy. apply Z.eqb_neq.
    destruct (decide (Z.of_nat j < lo)) as [Hj|Hj]; [pose proof (n_low _ _ _ _ _ Hn j y Hj Hy); lia|].
    pose proof (Hh j y ltac:(lia) Hy). lia.
  - destruct (lo <? hi) eqn:E; [apply Z.ltb_lt in E|apply Z.ltb_ge in E].
    2:{ rewrite (proj2 (Z.eqb_eq lo hi)) by lia. cbn [negb].
        destruct (n_high _ _ _ _ _ Hn) as [Hh|Hh]; [|lia]. rewrite index_of_none; [done|]. intros j y Hy. apply Z.eqb_neq.
        destruct (decide (Z.of_nat j < lo)) as [Hj|Hj]; [pose proof (n_low _ _ _ _ _ Hn j y Hj Hy); lia|].
        pose proof (Hh j y ltac:(lia) Hy). lia. }
    cbv zeta. set (mid := lo + (hi - lo - 1) / 2). assert (lo <= mid < hi) as Hm by (unfold mid; lia).
    rewrite (proj2 (Z.leb_le lo mid)), (proj2 (Z.ltb_lt mid hi)) by lia. cbn [negb andb].
    rewrite (data_at_spec s l mid Hs) by lia. destruct (lookup_lt_is_Some_2 l (Z.to_nat mid) ltac:(lia)) as [x Hx]. rewrite Hx.
    cbn [mbind option_bind]. fold cmp. destruct (0 <? cmp p x) eqn:E1; [apply Z.ltb_lt in E1|apply Z.ltb_ge in E1].
    { apply IH; [|lia..]. constructor.
      - intros i y Hi Hy. destruct (decide (Z.to_nat mid = i)) as [<-|Hne]; [by simplify_eq|].
        destruct (decide (0 < cmp p y)) as [|Hle]; [done|].
        pose proof (ascending_le cmp l i (Z.to_nat mid) y x Ha Hy Hx ltac:(lia)) as Hyx.
        pose proof (cmp_trans (cmp := cmp) p y x ltac:(lia) Hyx). lia.
      - destruct (n_high _ _ _ _ _ Hn) as [Hh|[Hlt (y & Hy & Hy0)]]; [by left|right]. split; [|by exists y].
        destruct (decide (mid = hi - 1)) as [->|]; [simplify_eq; lia|lia]. }
    destruct (cmp p x <? 0) eqn:E2; [apply Z.ltb_lt in E2|apply Z.ltb_ge in E2].
    { apply IH; [|lia..]. constructor; [apply (n_low _ _ _ _ _ Hn)|left]. intros i y Hi Hy.
      destruct (decide (Z.to_nat mid = i)) as [<-|Hne]; [by simplify_eq|].
      destruct (decide (cmp p y < 0)) as [|Hge]; [done|].
      pose proof (ascending_le cmp l (Z.to_nat mid) i x y Ha Hx Hy ltac:(lia)) as Hxy.
      pose proof (cmp_opp (cmp := cmp) p y) as Hop1. pose proof (cmp_opp (cmp := cmp) p x) as Hop2.
      pose proof (cmp_trans (cmp := cmp) x y p Hxy ltac:(lia)). lia. }
    assert (cmp p x = 0) as E0 by lia. destruct (hi - lo =? 1) eqn:E3.
    + apply Z.eqb_eq in E3. assert (mid = lo) as Hml by lia. rewrite (index_of_first _ l (Z.to_nat mid) x); [cbn; do 2 f_equal; lia|done|by apply Z.eqb_eq|].
      intros j y Hj Hy. apply Z.eqb_neq. pose proof (n_low _ _ _ _ _ Hn j y ltac:(lia) Hy). lia.
    + apply Z.eqb_neq in E3. assert (mid + 1 < hi) as Hm' by (unfold mid; lia). rewrite (proj2 (Z.ltb_lt _ _)) by done. cbn [negb].
      apply IH; [|lia..]. constructor; [apply (n_low _ _ _ _ _ Hn)|right]. split; [lia|]. exists x.
      by replace (mid + 1 - 1) with mid by lia.
Qed.

(** What [sk_find] looks for. *)
Definition sk_match (s : stack) (p x : Z) : bool :=
  if sk_comp s =? NULL then x =? p else negb (p =? NULL) && (call_cmp_func (sk_comp s) p x =? 0).

(** The elements are in order if the stack says so. *)
Definition truthful (s : stack) (l : list Z) : Prop :=
  sorted s = true -> sk_comp s <> NULL -> ascending (call_cmp_func (sk_comp s)) l.

Lemma find_exact s l p :
  holds s l -> truthful s l -> (sk_comp s <> NULL -> Ordering (call_cmp_func (sk_comp s))) ->
  sk_find call_cmp_func (Some s) p = Some (Z.of_nat <$> index_of (sk_match s p) l).
Proof.
  intros Hs Ht Ho. unfold sk_find, sk_match. destruct (sk_comp s =? NULL) eqn:E; [by apply find_all|]. apply Z.eqb_neq in E.
  destruct (p =? NULL) eqn:Ep; cbn [negb andb]; [by rewrite index_of_none|].
  cbn [sk_is_sorted]. destruct (sorted s) eqn:Es; cbn [negb]; [|by apply find_all].
  pose proof (h_num s l Hs) as Hn. apply binary_search_exact; [done|by apply Ho|by apply Ht| |lia|lia|lia].
  constructor; [lia|left]. intros i x Hi Hx. apply lookup_lt_Some in Hx. lia.
Qed.

Lemma find_total s l p :
  holds s l -> exists r, sk_find call_cmp_func (Some s) p = Some r /\
    match r with
    | None => True
    | Some k => exists x, l !! Z.to_nat k = Some x /\ sk_match s p x = true /\ 0 <= k < Z.of_nat (length l)
    end.
Proof.
  intros Hs. destruct (decide (sk_comp s <> NULL /\ sorted s = true)) as [[Hc Hf]|Hn].
  - unfold sk_find, sk_match. rewrite (proj2 (Z.eqb_neq _ _)) by done. destruct (p =? NULL); [by exists None|].
    cbn [sk_is_sorted negb andb]. rewrite Hf. cbn [negb]. pose proof (h_num s l Hs) as Hnum.
    destruct (binary_search_total (Z.to_nat (num s)) s l p 0 (num s) Hs) as (r & E & Hr); [lia|lia|lia|]. exists r. split; [done|].
    destruct r as [k|]; [|done]. destruct Hr as (x & Hx & H0 & Hk). exists x. split; [done|]. split; [by apply Z.eqb_eq|done].
  - exists (Z.of_nat <$> index_of (sk_match s p) l). split.
    + unfold sk_find, sk_match. destruct (sk_comp s =? NULL) eqn:E; [by apply find_all|]. apply Z.eqb_neq in E.
      destruct (p =? NULL) eqn:Ep; cbn [negb andb]; [by rewrite index_of_none|].
      cbn [sk_is_sorted]. destruct (sorted s) eqn:Es; [tauto|]. by apply find_all.
    + destruct (index_of (sk_match s p) l) as [k|] eqn:E; cbn; [|done]. pose proof (index_of_lt _ _ _ E) as Hk. rewrite Nat2Z.id.
      destruct (lookup_lt_is_Some_2 l k Hk) as [x Hx]. exists x. split; [done|]. split; [|lia].
      revert k E Hk Hx. clear. induction l as [|z l IH]; intros k; cbn [index_of]; [done|].
      destruct (sk_match s p z) eqn:Ez; [by intros [= <-] _ [= <-]|]. destruct (index_of _ l) as [j|]; [|done].
      intros [= <-] Hk Hx. apply (IH j); [done|cbn in Hk; lia|done].
Qed.

(** ** Sorting *)

Context (qsort : (Z -> Z -> Z) -> list Z -> list Z).

(** What [qsort] promises for a comparison function that is one. *)
Class Sorts : Prop := {
  qsort_perm cmp l : Ordering cmp -> qsort cmp l ≡ₚ l;
  qsort_ascending cmp l : Ordering cmp -> ascending cmp (qsort cmp l) }.

Lemma cells_values (l : list Z) : mapM id (Some <$> l) = Some l.
Proof.
  induction l as [|x l IH]; [done|].
  change (mapM id (Some <$> x :: l)) with (y ← Some x; k ← mapM id (Some <$> l); Some (y :: k)). by rewrite IH.
Qed.

Lemma short_ascending cmp l : (length l < 2)%nat -> ascending cmp l.
Proof. destruct l as [|x [|y l]]; cbn; [constructor|intros _; repeat constructor|lia]. Qed.

Lemma sort_holds `{!Sorts} s l :
  holds s l -> (sk_comp s <> NULL -> Ordering (call_cmp_func (sk_comp s))) ->
  exists s' l', sk_sort call_cmp_func qsort (Some s) = Some (Some s') /\ holds s' l' /\ sk_comp s' = sk_comp s /\ l' ≡ₚ l /\
    (sk_comp s = NULL \/ sorted s = true -> s' = s /\ l' = l) /\
    (sk_comp s <> NULL -> sorted s = false -> sorted s' = true /\ ascending (call_cmp_func (sk_comp s)) l').
Proof.
  intros Hs Ho. unfold sk_sort. destruct ((sk_comp s =? NULL) || sorted s) eqn:E.
  { exists s, l. split_and!; try done. intros Hc Hf. apply orb_true_iff in E as [E|E]; [lia|congruence]. }
  apply orb_false_iff in E as [E1 E2]. apply Z.eqb_neq in E1. specialize (Ho E1). pose proof Hs as [Hn [post Ed] Ha]. rewrite Hn.
  destruct (2 <=? _) eqn:E3.
  - set (l' := qsort (call_cmp_func (sk_comp s)) l). pose proof (qsort_perm _ l Ho) as Hp. fold l' in Hp.
    assert (length l' = length l) as Hl by by rewrite Hp.
    rewrite Ed. replace (Z.of_nat (length l)) with (Z.of_nat (length (Some <$> l))) by by rewrite length_fmap.
    rewrite rds_prefix. cbn [mbind option_bind]. rewrite cells_values. cbn [mbind option_bind]. fold l'.
    assert (wrs ((Some <$> l) ++ post) 0 (Some <$> l') = Some ((Some <$> l') ++ post)) as ->
      by (apply (wrs_mid [] (Some <$> l) post); rewrite ?length_fmap; done).
    cbn [mbind option_bind].
    eexists _, l'. split; [reflexivity|]. rewrite length_fmap, <- Hl. split; [|split_and!; try done].
    + eapply holds_change; [exact Hs|reflexivity|]. by rewrite Ed, !length_app, !length_fmap, Hl.
    + intros [Hc|Hf]; [done|congruence].
    + intros _ _. split; [done|]. by apply qsort_ascending.
  - cbn [mbind option_bind]. eexists _, l. split; [reflexivity|]. apply Z.leb_gt in E3. split_and!; try done.
    + by eapply holds_change.
    + intros [Hc|Hf]; [done|congruence].
    + intros _ _. split; [done|]. apply short_ascending. lia.
Qed.
End Find.

#[local] Ltac Zify.zify_post_hook ::= idtac.

(** ** BoringSSL: the remaining operations of a stack

    Replacing and deleting elements, copying a stack and releasing it. *)

Section Ops.
Context (call_cmp_func : Z -> Z -> Z -> Z).

Lemma sk_value_spec s l i : holds s l -> 0 <= i -> sk_value (Some s) i = Some (default NULL (l !! Z.to_nat i)).
Proof.
  intros Hs Hi. unfold sk_value. rewrite (h_num s l Hs). destruct (_ <=? i) eqn:E; [apply Z.leb_le in E|apply Z.leb_gt in E].
  - by rewrite lookup_ge_None_2 by lia.
  - rewrite (data_at_spec s l i Hs) by lia. by destruct (lookup_lt_is_Some_2 l (Z.to_nat i) ltac:(lia)) as [x ->].
Qed.

Lemma set_holds s l i v :
  holds s l -> 0 <= i ->
  exists s', sk_set (Some s) i v = Some (if bool_decide (i < Z.of_nat (length l)) then v else NULL, Some s') /\
    holds s' (<[Z.to_nat i := v]> l) /\ sorted s' = sorted s /\ sk_comp s' = sk_comp s.
Proof.
  intros Hs Hi. unfold sk_set. rewrite (h_num s l Hs). destruct (_ <=? i) eqn:E; [apply Z.leb_le in E|apply Z.leb_gt in E].
  - rewrite bool_decide_eq_false_2 by lia. exists s. by rewrite list_insert_ge by lia.
  - rewrite bool_decide_eq_true_2 by lia. pose proof Hs as [Hn [post Ed] Ha].
    destruct (lookup_lt_is_Some_2 l (Z.to_nat i) ltac:(lia)) as [x Hx].
    assert (wr (sk_data s) i (Some v) = Some ((Some <$> <[Z.to_nat i := v]> l) ++ post)) as ->.
    { rewrite Ed, insert_take_drop, fmap_app, <- app_assoc by lia. rewrite <- (take_drop_middle l _ x Hx) at 1.
      rewrite fmap_app, <- app_assoc. cbn [fmap list_fmap app].
      apply (wrs_mid _ [Some x] _ [Some v]); [rewrite length_fmap, length_take; lia|done]. }
    cbn [mbind option_bind]. eexists. split; [reflexivity|]. split; [|done].
    rewrite <- (length_insert l (Z.to_nat i) v). eapply holds_change; [exact Hs|reflexivity|].
    by rewrite Ed, !length_app, !length_fmap, length_insert.
Qed.

Lemma zero_holds s l :
  holds s l -> exists s', sk_zero (Some s) = Some (Some s') /\ holds s' [] /\ sk_comp s' = sk_comp s /\
    match l with [] => s' = s | _ => sorted s' = false end.
Proof.
  intros Hs. pose proof Hs as [Hn [post Ed] Ha]. unfold sk_zero. rewrite Hn. destruct (_ =? 0) eqn:E.
  - apply Z.eqb_eq in E. destruct l; [|cbn in E; lia]. by exists s.
  - apply Z.eqb_neq in E. rewrite Nat2Z.id, Ed. assert (wrs ((Some <$> l) ++ post) 0 (replicate (length l) (Some NULL)) = Some (replicate (length l) (Some NULL) ++ post)) as ->
      by (apply (wrs_mid [] (Some <$> l) post); rewrite ?length_replicate, ?length_fmap; done).
    cbn [mbind option_bind]. eexists. split; [reflexivity|]. split; [|by destruct l].
    apply (holds_change s l [] _ (replicate (length l) (Some NULL) ++ post)); [done|done|].
    by rewrite Ed, !length_app, length_replicate, length_fmap.
Qed.

Lemma delete_ptr_loop_spec s l1 l2 p :
  holds s (l1 ++ l2) ->
  delete_ptr_loop (length l2) s p (Z.of_nat (length l1)) =
  match index_of (fun x => x =? p) l2 with
  | None => Some (NULL, Some s)
  | Some k => sk_delete (Some s) (Z.of_nat (length l1 + k))
  end.
Proof.
  revert l1. induction l2 as [|x l2 IH]; intros l1 Hs; cbn [length delete_ptr_loop index_of]; [done|].
  rewrite (data_at_spec s _ _ Hs) by (rewrite length_app; cbn; lia). rewrite Nat2Z.id, list_lookup_middle by done.
  cbn [mbind option_bind]. destruct (x =? p); [by rewrite Nat.add_0_r|].
  replace (Z.of_nat (length l1) + 1) with (Z.of_nat (length (l1 ++ [x]))) by (rewrite length_app; cbn; lia).
  rewrite IH by by rewrite <- app_assoc. rewrite length_app. cbn [length].
  destruct (index_of _ l2) as [k|]; [|done]. cbn [fmap option_fmap option_map]. f_equal. lia.
Qed.

Lemma delete_ptr_spec s l p :
  holds s l ->
  sk_delete_ptr (Some s) p =
  match index_of (fun x => x =? p) l with None => Some (NULL, Some s) | Some k => sk_delete (Some s) (Z.of_nat k) end.
Proof.
  intros Hs. unfold sk_delete_ptr. rewrite (h_num s l Hs), Nat2Z.id. exact (delete_ptr_loop_spec s [] l p Hs).
Qed.

(** ** Copies *)

Lemma dup_holds s l struct_ok data_ok :
  holds s l ->
  exists r, sk_dup struct_ok data_ok (Some s) = Some r /\
    match r with
    | None => struct_ok && data_ok = false
    | Some s' => struct_ok && data_ok = true /\ holds s' l /\ sorted s' = sorted s /\ sk_comp s' = sk_comp s
    end.
Proof.
  intros Hs. pose proof Hs as [Hn [post Ed] Ha]. unfold sk_dup. destruct struct_ok, data_ok; cbn [negb andb]; try by exists None.
  rewrite Hn, Ed.
  assert (rds ((Some <$> l) ++ post) 0 (Z.of_nat (length l)) = Some (Some <$> l)) as ->
    by (rewrite <- (length_fmap Some l); apply rds_prefix).
  cbn [mbind option_bind].
  assert (wrs (replicate (length ((Some <$> l) ++ post)) None) 0 (Some <$> l) = Some ((Some <$> l) ++ replicate (length post) None)) as ->.
  { rewrite length_app, replicate_add. apply (wrs_mid [] _ (replicate (length post) None)); [done|]. by rewrite length_replicate. }
  cbn [mbind option_bind]. eexists. split; [reflexivity|]. cbn beta iota. split; [done|]. split; [|done].
  eapply holds_change; [done|done|]. by rewrite Ed, !length_app, length_replicate.
Qed.

Section Callbacks.
Context {T : Type} (copy : Z -> T -> Z * T) (free : Z -> T -> T).

(** Release what is not null. *)
Definition release (l : list Z) (t : T) : T := foldl (fun t p => if p =? NULL then t else free p t) t l.

(** Copy what is not null; when a copy fails, the copies before it are
    released. *)
Fixpoint copy_list (done l : list Z) (t : T) : option (list Z) * T :=
  match l with
  | [] => (Some done, t)
  | x :: l' =>
      if x =? NULL then copy_list (done ++ [x]) l' t
      else
        let '(q, t) := copy x t in
        if q =? NULL then (None, release done t) else copy_list (done ++ [q]) l' t
  end.

Lemma free_loop_spec s l1 l2 l3 t :
  holds s (l1 ++ l2 ++ l3) -> free_loop free (length l2) s (Z.of_nat (length l1)) t = Some (release l2 t).
Proof.
  revert l1 t. induction l2 as [|x l2 IH]; intros l1 t Hs; cbn [length free_loop release foldl]; [done|]. cbn [app] in Hs.
  rewrite (data_at_spec s _ _ Hs) by (rewrite !length_app; cbn; lia). rewrite Nat2Z.id, list_lookup_middle by done.
  cbn [mbind option_bind].
  replace (Z.of_nat (length l1) + 1) with (Z.of_nat (length (l1 ++ [x]))) by (rewrite length_app; cbn; lia).
  apply IH. by rewrite <- app_assoc.
Qed.

Lemma pop_free_spec s l t : holds s l -> sk_pop_free_ex free (Some s) t = Some (release l t, None).
Proof.
  intros Hs. unfold sk_pop_free_ex. rewrite (h_num s l Hs), Nat2Z.id.
  rewrite <- (app_nil_r l) in Hs. pose proof (free_loop_spec s [] l [] t Hs) as E. change (Z.of_nat (length [])) with 0 in E. by rewrite E.
Qed.

Lemma copy_loop_spec s l1 l2 t :
  holds s (l1 ++ l2) ->
  exists r, copy_loop copy free (length l2) s (Z.of_nat (length l1)) t = Some (r, (copy_list l1 l2 t).2) /\
    match (copy_list l1 l2 t).1, r with
    | None, None => True
    | Some l', Some s' => holds s' l' /\ sorted s' = sorted s /\ sk_comp s' = sk_comp s
    | _, _ => False
    end.
Proof.
  revert s l1 t. induction l2 as [|x l2 IH]; intros s l1 t Hs; cbn [length copy_loop copy_list].
  { rewrite app_nil_r in Hs. by exists (Some s). }
  rewrite (data_at_spec s _ _ Hs) by (rewrite length_app; cbn; lia). rewrite Nat2Z.id, list_lookup_middle by done.
  cbn [mbind option_bind]. destruct (x =? NULL).
  { replace (Z.of_nat (length l1) + 1) with (Z.of_nat (length (l1 ++ [x]))) by (rewrite length_app; cbn; lia).
    apply IH. by rewrite <- app_assoc. }
  destruct (copy x t) as [q t1]. destruct (set_holds s _ (Z.of_nat (length l1)) q Hs ltac:(lia)) as (s1 & E & Hs1 & E1 & E2).
  unfold sk_set in E. rewrite (h_num s _ Hs) in E. rewrite (proj2 (Z.leb_gt _ _)) in E by (rewrite length_app; cbn; lia).
  destruct (wr _ _ _) as [d|]; [|done]. cbn [mbind option_bind] in E |- *. rewrite (h_num s _ Hs).
  injection E as E. subst s1. rewrite Nat2Z.id in Hs1. rewrite insert_app_r_alt, Nat.sub_diag in Hs1 by done. cbn in Hs1.
  destruct (q =? NULL).
  - pose proof (free_loop_spec _ [] l1 (q :: l2) t1 Hs1) as Ef. change (Z.of_nat (length [])) with 0 in Ef. rewrite Ef. by exists None.
  - replace (Z.of_nat (length l1) + 1) with (Z.of_nat (length (l1 ++ [q]))) by (rewrite length_app; cbn; lia).
    refine (IH (mk_stack _ d (sorted s) (sk_comp s)) (l1 ++ [q]) t1 _). by rewrite <- app_assoc.
Qed.

Lemma deep_copy_spec s l t struct_ok data_ok :
  holds s l ->
  exists r, sk_deep_copy copy free struct_ok data_ok (Some s) t =
      Some (r, if struct_ok && data_ok then (copy_list [] l t).2 else t) /\
    match r with
    | Some s' => struct_ok && data_ok = true /\ exists l', (copy_list [] l t).1 = Some l' /\ holds s' l' /\
        sorted s' = sorted s /\ sk_comp s' = sk_comp s
    | None => struct_ok && data_ok = true -> (copy_list [] l t).1 = None
    end.
Proof.
  intros Hs. unfold sk_deep_copy. destruct (dup_holds s l struct_ok data_ok Hs) as (r & -> & Hr). cbn [mbind option_bind].
  destruct r as [s'|]; [|rewrite Hr; by exists None]. destruct Hr as (-> & Hs' & E1 & E2).
  rewrite (h_num s' l Hs'), Nat2Z.id. destruct (copy_loop_spec s' [] l t Hs') as (r & E & Hr). cbn [length] in E.
  change (Z.of_nat 0) with 0 in E. rewrite E. exists r. split; [done|].
  destruct r as [s2|], (copy_list [] l t).1 as [l'|]; try done. split; [done|]. exists l'. destruct Hr as (? & ? & ?).
  split_and!; [done|done|congruence|congruence].
Qed.
End Callbacks.
End Ops.
