(* ===== verification/StackTheorems.v ===== *)
(** * BoringSSL: what a stack promises

    Any sequence of operations on a stack is defined and gives the same results
    as the operations on a list; the [sorted] flag tells the truth, and
    [sk_find] finds the first match.  The exception is [sk_set] on a stack with
    the flag set that breaks the order: the flag stays, and [sk_find] misses
    elements that are there ([set_keeps_the_flag]).  The theorems exclude it. *)
From stdpp Require Import sorting.
From S2P Require Import Prelude CBuf Stack StackSpec.

(** ** Operations on a stack and on a list *)

(** An operation; [ok] says for which sizes a reallocation succeeds. *)
Inductive sk_op :=
  | SkInsert (ok : Z -> bool) (p i : Z)
  | SkPush (ok : Z -> bool) (p : Z)
  | SkDelete (i : Z)
  | SkDeletePtr (p : Z)
  | SkShift
  | SkPop
  | SkSet (i v : Z)
  | SkValue (i : Z)
  | SkNum
  | SkZero
  | SkFind (p : Z)
  | SkSort
  | SkIsSorted
  | SkSetCmp (c : Z).

(** Indices are unsigned. *)
Definition op_ok (o : sk_op) : Prop :=
  match o with SkInsert _ _ i | SkDelete i | SkSet i _ | SkValue i => 0 <= i | _ => True end.

(** The list, the flag and the comparison function. *)
Record sk_list := mk_list { elems : list Z; in_order : bool; order : Z }.

Section Run.
Context (call_cmp_func : Z -> Z -> Z -> Z) (qsort : (Z -> Z -> Z) -> list Z -> list Z).

(** The returned number or pointer; [None] is the return of 0 by [sk_find]. *)
Definition sk_step (o : sk_op) (s : stack) : option (option Z * stack) :=
  let returns (r : option (Z * option stack)) : option (option Z * stack) :=
    '(x, s) ← r; s ← s; Some (Some x, s) in
  match o with
  | SkInsert ok p i => returns (sk_insert ok (Some s) p i)
  | SkPush ok p => returns (sk_push ok (Some s) p)
  | SkDelete i => returns (sk_delete (Some s) i)
  | SkDeletePtr p => returns (sk_delete_ptr (Some s) p)
  | SkShift => returns (sk_shift (Some s))
  | SkPop => returns (sk_pop (Some s))
  | SkSet i v => returns (sk_set (Some s) i v)
  | SkValue i => x ← sk_value (Some s) i; Some (Some x, s)
  | SkNum => Some (Some (sk_num (Some s)), s)
  | SkZero => s ← sk_zero (Some s); s ← s; Some (Some 0, s)
  | SkFind p => r ← sk_find call_cmp_func (Some s) p; Some (r, s)
  | SkSort => s ← sk_sort call_cmp_func qsort (Some s); s ← s; Some (Some 0, s)
  | SkIsSorted => Some (Some (Z.b2z (sk_is_sorted (Some s))), s)
  | SkSetCmp c => let '(old, s) := sk_set_cmp_func s c in Some (Some old, s)
  end.

Definition matches (c p x : Z) : bool :=
  if c =? NULL then x =? p else negb (p =? NULL) && (call_cmp_func c p x =? 0).

Definition true_flag (a : sk_list) : Prop :=
  in_order a = true -> order a <> NULL -> ascending (call_cmp_func (order a)) (elems a).

(** No memory, or an array beyond the address space. *)
Definition full (ok : Z -> bool) (l : list Z) : Prop :=
  (exists n, ok n = false) \/ 2 ^ 61 - 2 <= Z.of_nat (length l).

(** The same operations on a list. *)
Definition sk_spec (o : sk_op) (a : sk_list) (out : option Z) (a' : sk_list) : Prop :=
  let '(mk_list l f c) := a in
  let insert ok p i :=
    (out = Some 0 /\ a' = a /\ full ok l) \/
    (out = Some (Z.of_nat (S (length l))) /\ a' = mk_list (list_insert_at p i l) false c) in
  let remove i := out = Some (default NULL (l !! i)) /\ a' = mk_list (delete i l) f c in
  match o with
  | SkInsert ok p i => insert ok p i
  | SkPush ok p => insert ok p (Z.of_nat (length l))
  | SkDelete i => remove (Z.to_nat i)
  | SkDeletePtr p =>
      match index_of (fun x => x =? p) l with None => out = Some NULL /\ a' = a | Some k => remove k end
  | SkShift => remove O
  | SkPop => remove (pred (length l))
  | SkSet i v => out = Some (if bool_decide (i < Z.of_nat (length l)) then v else NULL) /\ a' = mk_list (<[Z.to_nat i := v]> l) f c
  | SkValue i => out = Some (default NULL (l !! Z.to_nat i)) /\ a' = a
  | SkNum => out = Some (Z.of_nat (length l)) /\ a' = a
  | SkZero => out = Some 0 /\ a' = match l with [] => a | _ => mk_list [] false c end
  | SkFind p => out = Z.of_nat <$> index_of (matches c p) l /\ a' = a
  | SkSort =>
      out = Some 0 /\ elems a' ≡ₚ l /\ order a' = c /\ (c = NULL \/ f = true -> a' = a) /\
      (c <> NULL -> f = false -> in_order a' = true /\ ascending (call_cmp_func c) (elems a'))
  | SkIsSorted => out = Some (Z.b2z f) /\ a' = a
  | SkSetCmp c' => out = Some c /\ a' = mk_list l (f && (c =? c')) c'
  end.

(** An element of a stack with the flag set is only replaced by one that keeps
    the order. *)
Definition may (o : sk_op) (a : sk_list) : Prop :=
  match o with
  | SkSet i v => true_flag (mk_list (<[Z.to_nat i := v]> (elems a)) (in_order a) (order a))
  | _ => True
  end.

Fixpoint allowed (os : list sk_op) (a : sk_list) : Prop :=
  match os with
  | [] => True
  | o :: os' => may o a /\ forall r a1, sk_spec o a r a1 -> allowed os' a1
  end.

Fixpoint sk_run (os : list sk_op) (s : stack) : option (list (option Z) * stack) :=
  match os with
  | [] => Some ([], s)
  | o :: os' => '(r, s) ← sk_step o s; '(rs, s) ← sk_run os' s; Some (r :: rs, s)
  end.

Fixpoint spec_run (os : list sk_op) (a : sk_list) (outs : list (option Z)) (a' : sk_list) : Prop :=
  match os, outs with
  | [], [] => a' = a
  | o :: os', r :: rs => exists a1, sk_spec o a r a1 /\ spec_run os' a1 rs a'
  | _, _ => False
  end.

(** [s] is the list [a]. *)
Definition is_list (s : stack) (a : sk_list) : Prop := holds s (elems a) /\ sorted s = in_order a /\ sk_comp s = order a.

Context `{!Sorts qsort}.
Hypothesis orders : forall c, c <> NULL -> Ordering (call_cmp_func c).

Lemma insert_step ok p i s a :
  is_list s a -> 0 <= i ->
  exists r s' a', ('(x, s) ← sk_insert ok (Some s) p i; s ← s; Some (Some x, s)) = Some (r, s') /\ is_list s' a' /\
    ((r = Some 0 /\ a' = a /\ full ok (elems a)) \/
     (r = Some (Z.of_nat (S (length (elems a)))) /\ a' = mk_list (list_insert_at p i (elems a)) false (order a))).
Proof.
  intros (Hs & Hf & Hc) Hi. destruct (insert_holds ok s (elems a) p i Hs Hi) as [[E Hfull]|(s' & E & Hs' & Hf' & Hc')]; rewrite E; cbn [mbind option_bind].
  - exists (Some 0), s, a. split; [done|]. split; [done|]. by left.
  - eexists _, s', _. split; [reflexivity|]. split; [|right; split; reflexivity]. split_and!; [done|done|by rewrite Hc'].
Qed.

Lemma delete_step s a i :
  is_list s a -> 0 <= i ->
  exists s', ('(x, s) ← sk_delete (Some s) i; s ← s; Some (Some x, s)) = Some (Some (default NULL (elems a !! Z.to_nat i)), s') /\
    is_list s' (mk_list (delete (Z.to_nat i) (elems a)) (in_order a) (order a)).
Proof.
  intros (Hs & Hf & Hc) Hi. destruct (decide (i < Z.of_nat (length (elems a)))) as [Hlt|Hge].
  - destruct (delete_holds s (elems a) i Hs ltac:(lia)) as (x & s' & Hx & E & Hs' & Hf' & Hc'). rewrite E, Hx.
    exists s'. split; [done|]. split_and!; [done|by rewrite Hf'|by rewrite Hc'].
  - unfold sk_delete. rewrite (h_num s _ Hs), (proj2 (Z.leb_le _ _)) by lia. rewrite (lookup_ge_None_2 (elems a)) by lia.
    exists s. split; [done|]. rewrite delete_take_drop, take_ge, drop_ge, app_nil_r by lia. by split_and!.
Qed.

Lemma sk_step_spec o s a :
  op_ok o -> is_list s a ->
  exists r s' a', sk_step o s = Some (r, s') /\ is_list s' a' /\ (true_flag a -> sk_spec o a r a').
Proof.
  intros Ho Hl. cut (exists r s' a', sk_step o s = Some (r, s') /\ (true_flag a -> sk_spec o a r a') /\ is_list s' a').
  { intros (r & s' & a' & ? & ? & ?). by exists r, s', a'. } pose proof Hl as (Hs & Hf & Hc). destruct a as [l f c]. cbn [elems in_order order] in *.
  pose proof (h_num s l Hs) as Hn. destruct o as [ok p i|ok p|i|p| | |i v|i| | |p| | |c']; cbn [sk_step sk_spec op_ok] in *.
  - destruct (insert_step ok p i s _ Hl Ho) as (r & s' & a' & E & Hl' & H). exists r, s', a'. done.
  - unfold sk_push. rewrite Hn. destruct (insert_step ok p (Z.of_nat (length l)) s _ Hl ltac:(lia)) as (r & s' & a' & E & Hl' & H).
    exists r, s', a'. done.
  - destruct (delete_step s _ i Hl Ho) as (s' & E & Hl'). eexists _, s', _. split; [exact E|]. by split; [split|].
  - rewrite (delete_ptr_spec s l p Hs). destruct (index_of _ l) as [k|] eqn:Ek.
    + destruct (delete_step s _ (Z.of_nat k) Hl ltac:(lia)) as (s' & E & Hl'). rewrite Nat2Z.id in *.
      eexists _, s', _. split; [exact E|]. by split; [split|].
    + by eexists _, s, _.
  - unfold sk_shift. destruct (num s =? 0) eqn:E0; [apply Z.eqb_eq in E0; destruct l; [|cbn in Hn; lia]; by eexists _, s, _|].
    destruct (delete_step s _ 0 Hl ltac:(lia)) as (s' & E & Hl'). eexists _, s', _. split; [exact E|]. by split; [split|].
  - unfold sk_pop. destruct (num s =? 0) eqn:E0; [apply Z.eqb_eq in E0; destruct l; [|cbn in Hn; lia]; by eexists _, s, _|].
    apply Z.eqb_neq in E0. destruct (delete_step s _ (num s - 1) Hl ltac:(lia)) as (s' & E & Hl').
    replace (Z.to_nat (num s - 1)) with (pred (length l)) in * by lia. eexists _, s', _. split; [exact E|]. by split; [split|].
  - destruct (set_holds s l i v Hs Ho) as (s' & E & Hs' & Hf' & Hc'). rewrite E. eexists _, s', _. split; [reflexivity|].
    split; [done|]. split_and!; [done|by rewrite Hf'|by rewrite Hc'].
  - rewrite (sk_value_spec s l i Hs Ho). by eexists _, s, _.
  - eexists _, s, _. cbn [sk_num]. rewrite Hn. by split_and!.
  - destruct (zero_holds s l Hs) as (s' & E & Hs' & Hc' & Hz). rewrite E.
    exists (Some 0), s', (match l with [] => mk_list l f c | _ => mk_list [] false c end). split; [done|]. split; [done|].
    destruct l; [by rewrite Hz|]. split_and!; [done|done|by rewrite Hc'].
  - destruct (find_total call_cmp_func s l p Hs) as (r & E & Hr). rewrite E. eexists r, s, _. split; [reflexivity|].
    split; [|exact Hl]. intros Ht. split; [|done]. unfold matches.
    pose proof (find_exact call_cmp_func s l p Hs) as Hex. unfold sk_match in Hex. rewrite Hc in Hex. rewrite Hex in E.
    + by injection E as <-.
    + unfold truthful. rewrite Hf, Hc. exact Ht.
    + by apply orders.
  - destruct (sort_holds call_cmp_func qsort s l Hs) as (s' & l' & E & Hs' & Hc' & Hp & Hsame & Hnew); [rewrite Hc; by apply orders|].
    rewrite E. eexists _, s', (mk_list l' (sorted s') (sk_comp s')). split; [reflexivity|]. rewrite Hc in *.
    split; [|by split_and!]. intros _. split_and!; [done|done|done| |].
    + rewrite <- Hf. intros H. destruct (Hsame H) as [-> ->]. by rewrite Hc.
    + rewrite <- Hf. exact Hnew.
  - eexists _, s, _. cbn [sk_is_sorted]. rewrite Hf. split; [reflexivity|]. by split.
  - eexists _, _, _. split; [reflexivity|]. rewrite Hc. split; [by split|]. unfold is_list. cbn [elems in_order order sorted sk_comp]. split_and!; [| |done].
    + rewrite Hn. pose proof Hs as [_ [post Ed] Ha]. by apply (holds_change s l l _ post).
    + rewrite Hf. destruct (c =? c'); cbn [negb]; by destruct f.
Qed.

(** ** The flag *)

Definition no_set (o : sk_op) : Prop := match o with SkSet _ _ => False | _ => True end.

Lemma delete_ascending cmp i l : ascending cmp l -> ascending cmp (delete i l).
Proof.
  intros Hs. revert i. induction Hs as [|x l Hs IH Hx]; intros i; [by destruct i; constructor|].
  destruct i as [|i]; cbn; [done|]. constructor; [apply IH|]. by apply Forall_delete.
Qed.

Lemma sk_spec_flag o a out a' : may o a -> sk_spec o a out a' -> true_flag a -> true_flag a'.
Proof.
  intros Ho Hsp Ht. destruct a as [l f c]. unfold true_flag in *. cbn [elems in_order order] in *.
  destruct o as [ok p i|ok p|i|p| | |i v|i| | |p| | |c']; cbn [sk_spec may] in *.
  - destruct Hsp as [(_ & -> & _)|(_ & ->)]; done.
  - destruct Hsp as [(_ & -> & _)|(_ & ->)]; done.
  - destruct Hsp as [_ ->]. cbn. intros Hf Hc. by apply delete_ascending, Ht.
  - destruct (index_of _ l); destruct Hsp as [_ ->]; [|done]. cbn [elems in_order order]. intros Hf Hc. by apply delete_ascending, Ht.
  - destruct Hsp as [_ ->]. cbn. intros Hf Hc. by apply (delete_ascending _ 0), Ht.
  - destruct Hsp as [_ ->]. cbn [elems in_order order]. intros Hf Hc. by apply delete_ascending, Ht.
  - by destruct Hsp as [_ ->].
  - by destruct Hsp as [_ ->].
  - by destruct Hsp as [_ ->].
  - destruct Hsp as [_ ->]. by destruct l.
  - by destruct Hsp as [_ ->].
  - destruct Hsp as (_ & _ & Hc & Hsame & Hnew). rewrite Hc. intros Hf Hn. destruct f.
    + rewrite (Hsame (or_intror eq_refl)). by apply Ht.
    + by apply Hnew.
  - by destruct Hsp as [_ ->].
  - destruct Hsp as [_ ->]. cbn [elems in_order order]. intros Hf Hn. apply andb_true_iff in Hf as [Hf E]. apply Z.eqb_eq in E. subst c'. by apply Ht.
Qed.

(** Every sequence of operations is defined and leaves a list; the allowed ones
    return what they return on a list, and the flag tells the truth behind
    them. *)
Lemma sk_run_spec os s a :
  Forall op_ok os -> is_list s a ->
  exists outs s' a', sk_run os s = Some (outs, s') /\ is_list s' a' /\
    (true_flag a -> allowed os a -> spec_run os a outs a' /\ true_flag a').
Proof.
  intros Ho. revert s a. induction Ho as [|o os Ho Hos IH]; intros s a Hl; cbn [sk_run].
  - exists [], s, a. by split_and!.
  - destruct (sk_step_spec o s a Ho Hl) as (r & s1 & a1 & E & Hl1 & Hsp). rewrite E. cbn [mbind option_bind].
    destruct (IH s1 a1 Hl1) as (outs & s' & a' & E' & Hl' & Hrun). rewrite E'. exists (r :: outs), s', a'.
    split; [done|]. split; [done|]. intros Ht [Hm Ha]. specialize (Hsp Ht).
    destruct (Hrun (sk_spec_flag _ _ _ _ Hm Hsp Ht) (Ha _ _ Hsp)) as [Hr Ht']. split; [by exists a1|done].
Qed.

Lemma no_set_allowed os a : Forall no_set os -> allowed os a.
Proof.
  intros Hos. revert a. induction Hos as [|o os Ho Hos IH]; intros a; [done|]. split; [by destruct o|]. intros r a1 _. apply IH.
Qed.
End Run.

Definition new_stack (c : Z) : stack := mk_stack 0 (replicate (Z.to_nat kMinSize) (Some NULL)) false c.

Lemma new_is_list c : is_list (new_stack c) (mk_list [] false c).
Proof. split; [apply new_holds|by split]. Qed.

(** ** The theorems *)

(** C24.  Every sequence of operations on a new stack is defined, with or without
    memory, and leaves a list in a large enough array.  When no element of a
    stack with the [sorted] flag set is replaced by one that breaks the order,
    every operation returns exactly what it returns on a list, and the flag
    tells the truth at the end: elements are inserted, deleted and replaced at
    their index; insertion returns 0 only when there is no memory; sorting
    leaves the elements in ascending order; [sk_find] gives the index of the
    first element that matches, by address, by the comparison function on each
    element or by halves, and 0 only when none does. *)
Theorem sk_refines_list (call_cmp_func : Z -> Z -> Z -> Z) (qsort : (Z -> Z -> Z) -> list Z -> list Z)
    (Hqsort : Sorts qsort) (c : Z) (os : list sk_op) :
  (forall c, c <> NULL -> Ordering (call_cmp_func c)) -> Forall op_ok os ->
  exists s0 outs s a, sk_new true true c = Some s0 /\ sk_run call_cmp_func qsort os s0 = Some (outs, s) /\ is_list s a /\
    (allowed call_cmp_func os (mk_list [] false c) ->
     spec_run call_cmp_func os (mk_list [] false c) outs a /\ true_flag call_cmp_func a).
Proof.
  intros Hord Hos. eexists.
  destruct (sk_run_spec call_cmp_func qsort Hord os (new_stack c) (mk_list [] false c) Hos (new_is_list c)) as (outs & s & a & E & Hl & Hsp).
  exists outs, s, a. split_and!; [done|done|done|]. by apply Hsp.
Qed.

(** As long as no element is replaced, the [sorted] flag tells the truth, and
    [sk_find] returns the first element that matches, or 0 when there is none:
    by the pointer, by the comparison function on each element, or by binary
    search when the stack is sorted. *)
Theorem sk_find_first (call_cmp_func : Z -> Z -> Z -> Z) (qsort : (Z -> Z -> Z) -> list Z -> list Z)
    (Hqsort : Sorts qsort) (c : Z) (os : list sk_op) :
  (forall c, c <> NULL -> Ordering (call_cmp_func c)) -> Forall op_ok os -> Forall no_set os ->
  exists s0 outs s l, sk_new true true c = Some s0 /\ sk_run call_cmp_func qsort os s0 = Some (outs, s) /\
    holds s l /\ (sk_is_sorted (Some s) = true -> sk_comp s <> NULL -> ascending (call_cmp_func (sk_comp s)) l) /\
    forall p, sk_find call_cmp_func (Some s) p = Some (Z.of_nat <$> index_of (matches call_cmp_func (sk_comp s) p) l).
Proof.
  intros Hord Hos Hns. eexists.
  destruct (sk_run_spec call_cmp_func qsort Hord os (new_stack c) (mk_list [] false c) Hos (new_is_list c)) as (outs & s & a & E & Hl & Hsp).
  destruct Hsp as [_ Hflag]; [done|by apply no_set_allowed|]. destruct Hl as (Hs & Hf & Hc).
  assert (truthful call_cmp_func s (elems a)) as Ht by (unfold truthful; rewrite Hf, Hc; exact Hflag).
  exists outs, s, (elems a). split_and!; [done|done|done|exact Ht|].
  intros p. apply (find_exact call_cmp_func s (elems a) p Hs Ht). apply Hord.
Qed.

(** [sk_deep_copy] returns a stack of the copies of all elements, null pointers
    as they are, or the null pointer when a copy fails; then the copies made
    before are released, and nothing else.  [sk_pop_free_ex] releases every
    element that is not null, once, and the stack. *)
Theorem sk_deep_copy_exact {T : Type} (copy : Z -> T -> Z * T) (free : Z -> T -> T) (s : stack) (l : list Z) (t : T)
    (struct_ok data_ok : bool) :
  holds s l ->
  sk_pop_free_ex free (Some s) t = Some (release free l t, None) /\
  exists r, sk_deep_copy copy free struct_ok data_ok (Some s) t =
      Some (r, if struct_ok && data_ok then (copy_list copy free [] l t).2 else t) /\
    match r with
    | Some s' => struct_ok && data_ok = true /\ exists l', (copy_list copy free [] l t).1 = Some l' /\ holds s' l' /\
        sorted s' = sorted s /\ sk_comp s' = sk_comp s
    | None => struct_ok && data_ok = true -> (copy_list copy free [] l t).1 = None
    end.
Proof. intros Hs. split; [by apply pop_free_spec|by apply deep_copy_spec]. Qed.

(** ** Witnesses *)

(** The order of the pointers themselves. *)
Definition by_address (_ x y : Z) : Z := x - y.

#[export] Instance by_address_order c : Ordering (by_address c).
Proof. unfold by_address. constructor; intros; lia. Qed.

(** [qsort] as merge sort. *)
Definition le_dec (cmp : Z -> Z -> Z) : forall x y, Decision (cmp x y <= 0) := fun x y => Z_le_dec (cmp x y) 0.
Definition msort (cmp : Z -> Z -> Z) (l : list Z) : list Z :=
  @merge_sort Z (fun x y => cmp x y <= 0) (le_dec cmp) l.

#[export] Instance msort_sorts : Sorts msort.
Proof.
  constructor; intros cmp l Ho; [apply merge_sort_Permutation|].
  apply StronglySorted_merge_sort.
  - intros x y z. apply cmp_trans.
  - intros x y. pose proof (cmp_opp (cmp := cmp) x y). lia.
Qed.

Definition sample_ops : list sk_op :=
  [SkPush (fun _ => true) 5; SkPush (fun _ => true) 3; SkInsert (fun _ => true) 8 1; SkPush (fun _ => false) 1; SkSort; SkFind 8; SkFind 4; SkPop; SkNum].

(** 3 and 5 in order, then 5 replaced by 4, which is found by halves, and 5 is
    not. *)
Definition set_ops : list sk_op :=
  [SkPush (fun _ => true) 5; SkPush (fun _ => true) 3; SkSort; SkSet 1 4; SkFind 4; SkFind 5].

Lemma push_allowed cmp p os a :
  Z.of_nat (length (elems a)) < 2 ^ 61 - 2 ->
  allowed cmp os (mk_list (list_insert_at p (Z.of_nat (length (elems a))) (elems a)) false (order a)) ->
  allowed cmp (SkPush (fun _ => true) p :: os) a.
Proof.
  intros Hl Ha. destruct a as [l f c]. cbn [elems order] in *. split; [done|]. intros r a1 [(_ & _ & Hfull)|[_ ->]]; [|exact Ha].
  destruct Hfull as [[n Hn]|]; [done|lia].
Qed.

Lemma set_ops_allowed : allowed by_address set_ops (mk_list [] false 7).
Proof.
  apply push_allowed; [vm_compute; done|]. apply push_allowed; [vm_compute; done|]. split; [done|].
  intros r [l f c] (_ & Hp & Hc & _ & Hs). cbn [elems order in_order] in *. subst c.
  destruct (Hs ltac:(done) eq_refl) as [-> Ha]. change (l ≡ₚ [5; 3]) in Hp. assert (l = [3; 5]) as ->.
  { apply Permutation_sym, Permutation_length_2_inv in Hp as [-> | ->]; [|done].
    apply StronglySorted_inv in Ha as [_ Ha]. apply Forall_cons_1 in Ha as [Ha _]. unfold by_address in Ha. lia. }
  split.
  { intros _ _. repeat constructor; cbn; unfold by_address; lia. }
  intros r' a1 [_ ->]. by repeat split.
Qed.

Lemma sk_refines_list_witness :
  exists s0 outs s a, sk_new true true 7 = Some s0 /\ sk_run by_address msort set_ops s0 = Some (outs, s) /\ is_list s a /\
    spec_run by_address set_ops (mk_list [] false 7) outs a /\ true_flag by_address a.
Proof.
  destruct (sk_refines_list by_address msort msort_sorts 7 set_ops) as (s0 & outs & s & a & E0 & E & Hl & Hsp).
  - intros c _. apply by_address_order.
  - repeat constructor; cbn; lia.
  - exists s0, outs, s, a. split_and!; [exact E0|exact E|exact Hl|..]; apply Hsp, set_ops_allowed.
Defined.

Lemma sk_find_first_witness :
  exists s0 outs s l, sk_new true true 7 = Some s0 /\ sk_run by_address msort sample_ops s0 = Some (outs, s) /\
    holds s l /\ (sk_is_sorted (Some s) = true -> sk_comp s <> NULL -> ascending (by_address (sk_comp s)) l) /\
    forall p, sk_find by_address (Some s) p = Some (Z.of_nat <$> index_of (matches by_address (sk_comp s) p) l).
Proof.
  apply (sk_find_first by_address msort msort_sorts 7 sample_ops).
  - intros c _. apply by_address_order.
  - repeat constructor; cbn; lia.
  - repeat constructor.
Defined.

(** Copies are numbered from 100 on; the third one fails. *)
Lemma sk_deep_copy_exact_witness :
  let copy := fun p (t : list Z) => if p =? 9 then (NULL, t) else (100 + p, 100 + p :: t) in
  let free := fun p (t : list Z) => filter (fun q => q <> p) t in
  let s := mk_stack 3 [Some 5; Some 0; Some 9; None] false 0 in
  sk_pop_free_ex free (Some s) [5; 9] = Some (release free [5; 0; 9] [5; 9], None) /\
  exists r, sk_deep_copy copy free true true (Some s) [5; 9] = Some (r, if true && true then (copy_list copy free [] [5; 0; 9] [5; 9]).2 else [5; 9]) /\
    match r with
    | Some s' => true && true = true /\ exists l', (copy_list copy free [] [5; 0; 9] [5; 9]).1 = Some l' /\ holds s' l' /\
        sorted s' = sorted s /\ sk_comp s' = sk_comp s
    | None => true && true = true -> (copy_list copy free [] [5; 0; 9] [5; 9]).1 = None
    end.
Proof.
  intros copy free s. apply (sk_deep_copy_exact copy free s [5; 0; 9]). constructor; [done| |done]. by exists [None].
Defined.

(** Replacing an element of a sorted stack leaves the flag set, so that the
    binary search misses elements that are there. *)
Lemma set_keeps_the_flag :
  (s ← sk_new true true 7; '(_, s) ← sk_run by_address msort
      [SkPush (fun _ => true) 1; SkPush (fun _ => true) 2; SkPush (fun _ => true) 3; SkSort; SkSet 0 9] s;
   r ← sk_find by_address (Some s) 9; Some (sk_is_sorted (Some s), sk_value (Some s) 0, r))
  = Some (true, Some 9, None).
Proof. vm_compute. reflexivity. Qed.
