(* ===== verification/SipHash.v ===== *)
(** * BoringSSL: SipHash

    The model of [siphash.c] with the hash by words, and their equality. *)
From S2P Require Import Prelude CBuf CMem.

(** ** BoringSSL: SipHash-2-4 ([crypto/siphash/siphash.c])

    The keyed hash function, and its definition by words: the input padded to
    whole words with its length in the last byte, one compression for each
    word, and a finalization. *)

(** ** The code *)

(** [uint64_t v[4]]. *)
Record sip := mk_sip { v0 : Z; v1 : Z; v2 : Z; v3 : Z }.

Definition CRYPTO_rotl_u64 (value shift : Z) : Z :=
  Z.lor (u64 (Z.shiftl value shift)) (Z.shiftr value (Z.land (- shift) 63)).

Definition siphash_round (v : sip) : sip :=
  let 'mk_sip v0 v1 v2 v3 := v in
  let v0 := u64 (v0 + v1) in
  let v2 := u64 (v2 + v3) in
  let v1 := CRYPTO_rotl_u64 v1 13 in
  let v3 := CRYPTO_rotl_u64 v3 16 in
  let v1 := Z.lxor v1 v0 in
  let v3 := Z.lxor v3 v2 in
  let v0 := CRYPTO_rotl_u64 v0 32 in
  let v2 := u64 (v2 + v1) in
  let v0 := u64 (v0 + v3) in
  let v1 := CRYPTO_rotl_u64 v1 17 in
  let v3 := CRYPTO_rotl_u64 v3 21 in
  let v1 := Z.lxor v1 v2 in
  let v3 := Z.lxor v3 v0 in
  let v2 := CRYPTO_rotl_u64 v2 32 in
  mk_sip v0 v1 v2 v3.

Definition xor_v3 (m : Z) (v : sip) : sip := mk_sip (v0 v) (v1 v) (v2 v) (Z.lxor (v3 v) m).
Definition xor_v0 (m : Z) (v : sip) : sip := mk_sip (Z.lxor (v0 v) m) (v1 v) (v2 v) (v3 v).
Definition xor_v2 (m : Z) (v : sip) : sip := mk_sip (v0 v) (v1 v) (Z.lxor (v2 v) m) (v3 v).

(** One word of the input. *)
Definition absorb (v : sip) (m : Z) : sip := xor_v0 m (siphash_round (siphash_round (xor_v3 m v))).

(** [while (input_len >= sizeof(uint64_t))]; a word is read little-endian.  The
    state, and where the input is left. *)
Fixpoint words_loop (fuel : nat) (v : sip) (input : list Z) (i input_len : Z) : option (sip * Z * Z) :=
  if 8 <=? input_len then
    match fuel with
    | O => None
    | S fuel' => m ← rds input i 8; words_loop fuel' (absorb v (le_combine m)) input (i + 8) (input_len - 8)
    end
  else Some (v, i, input_len).

Definition SIPHASH_24 (key : Z * Z) (input : list Z) (input_len : Z) : option Z :=
  let orig_input_len := input_len in
  let v := mk_sip (Z.lxor key.1 0x736f6d6570736575) (Z.lxor key.2 0x646f72616e646f6d)
                  (Z.lxor key.1 0x6c7967656e657261) (Z.lxor key.2 0x7465646279746573) in
  '(v, i, input_len) ← words_loop (Z.to_nat (input_len / 8)) v input 0 input_len;
  (* the union [last_block] *)
  rest ← rds input i input_len;
  last_block ← wrs (replicate 8 0) 0 rest;
  last_block ← wr last_block 7 (Z.land orig_input_len 0xff);
  let v := absorb v (le_combine last_block) in
  let v := xor_v2 0xff v in
  let v := siphash_round (siphash_round (siphash_round (siphash_round v))) in
  Some (Z.lxor (Z.lxor (Z.lxor (v0 v) (v1 v)) (v2 v)) (v3 v)).

(** ** The definition *)

(** The words of a padded input. *)
Fixpoint words (n : nat) (bs : list Z) : list Z :=
  match n with
  | O => []
  | S n' => le_combine (take 8 bs) :: words n' (drop 8 bs)
  end.

(** Zeros up to the last byte of a word, which is the length modulo 256. *)
Definition padded (input : list Z) : list Z :=
  let n := Z.of_nat (length input) in
  input ++ replicate (Z.to_nat (7 - n mod 8)) 0 ++ [n mod 256].

Definition rotl (x s : Z) : Z := x * 2 ^ s mod 2 ^ 64 + x / 2 ^ (64 - s).

(** SipRound, with addition modulo 2^64. *)
Definition sip_round (v : sip) : sip :=
  let a := (v0 v + v1 v) mod 2 ^ 64 in
  let c := (v2 v + v3 v) mod 2 ^ 64 in
  let b := Z.lxor (rotl (v1 v) 13) a in
  let d := Z.lxor (rotl (v3 v) 16) c in
  let a := (rotl a 32 + d) mod 2 ^ 64 in
  let c := (c + b) mod 2 ^ 64 in
  mk_sip a (Z.lxor (rotl b 17) c) (rotl c 32) (Z.lxor (rotl d 21) a).

Definition compress (v : sip) (m : Z) : sip := xor_v0 m (sip_round (sip_round (xor_v3 m v))).

Definition siphash_2_4 (k0 k1 : Z) (input : list Z) : Z :=
  let init := mk_sip (Z.lxor k0 0x736f6d6570736575) (Z.lxor k1 0x646f72616e646f6d)
                     (Z.lxor k0 0x6c7967656e657261) (Z.lxor k1 0x7465646279746573) in
  let v := foldl compress init (words (length (padded input) / 8) (padded input)) in
  let v := sip_round (sip_round (sip_round (sip_round (xor_v2 0xff v)))) in
  Z.lxor (Z.lxor (v0 v) (v1 v)) (Z.lxor (v2 v) (v3 v)).

(** ** The rounds *)

Definition sip_ok (v : sip) : Prop := in_u 64 (v0 v) /\ in_u 64 (v1 v) /\ in_u 64 (v2 v) /\ in_u 64 (v3 v).

Lemma in_u_lxor w x y : 0 <= w -> in_u w x -> in_u w y -> in_u w (Z.lxor x y).
Proof.
  unfold in_u. intros Hw Hx Hy.
  assert (Z.lxor x y = Z.land (Z.lxor x y) (2 ^ w - 1)) as ->; [|rewrite land_ones_mod by done; apply Z.mod_pos_bound; lia].
  apply Z.bits_inj'. intros i Hi. replace (2 ^ w - 1) with (Z.ones w) by (rewrite Z.ones_equiv; lia).
  rewrite Z.land_spec, Z.lxor_spec. destruct (decide (i < w)) as [Hlt|Hge].
  - by rewrite Z.ones_spec_low, andb_true_r by lia.
  - by rewrite !(testbit_small _ w i) by lia.
Qed.

Lemma rotl_spec x s : in_u 64 x -> 0 < s < 64 -> CRYPTO_rotl_u64 x s = rotl x s /\ in_u 64 (rotl x s).
Proof.
  unfold in_u, rotl, CRYPTO_rotl_u64. intros Hx Hs.
  assert (Z.land (- s) 63 = 64 - s) as ->.
  { rewrite (land_ones_mod _ 6) by lia. change (2 ^ 6) with 64. rewrite Z.mod_opp_l_nz by (rewrite ?Z.mod_small; lia).
    by rewrite Z.mod_small by lia. }
  rewrite Z.shiftr_div_pow2 by lia. unfold wrapu. rewrite Z.shiftl_mul_pow2 by lia.
  assert (2 ^ 64 = 2 ^ (64 - s) * 2 ^ s) as E by (rewrite <- Z.pow_add_r by lia; f_equal; lia).
  assert (0 < 2 ^ s) by lia. assert (0 < 2 ^ (64 - s)) by lia.
  assert (0 <= x / 2 ^ (64 - s) < 2 ^ s) as Hd by (split; [apply Z.div_pos; lia|apply Z.div_lt_upper_bound; lia]).
  rewrite E, Z.mul_mod_distr_r by lia. set (r := x mod 2 ^ (64 - s)) in *.
  assert (0 <= r < 2 ^ (64 - s)) as Hr by (apply Z.mod_pos_bound; lia).
  rewrite <- Z.shiftl_mul_pow2 by lia. rewrite Z.lor_comm, lor_shiftl_add by lia. rewrite Z.shiftl_mul_pow2 by lia.
  split; [lia|nia].
Qed.

Lemma round_spec v : sip_ok v -> siphash_round v = sip_round v /\ sip_ok (sip_round v).
Proof.
  destruct v as [a b c d]. unfold sip_ok. cbn [v0 v1 v2 v3]. intros (Ha & Hb & Hc & Hd).
  unfold siphash_round, sip_round. cbn [v0 v1 v2 v3]. cbv zeta. unfold wrapu.
  assert (forall x, in_u 64 (x mod 2 ^ 64)) as Hm by (intros x; apply Z.mod_pos_bound; lia).
  set (a1 := (a + b) mod 2 ^ 64). set (c1 := (c + d) mod 2 ^ 64).
  destruct (rotl_spec b 13 Hb ltac:(lia)) as [-> Hrb]. destruct (rotl_spec d 16 Hd ltac:(lia)) as [-> Hrd].
  destruct (rotl_spec a1 32 (Hm _) ltac:(lia)) as [-> Hra].
  set (b1 := Z.lxor (rotl b 13) a1). set (d1 := Z.lxor (rotl d 16) c1).
  assert (in_u 64 b1) as Hb1 by (by apply in_u_lxor; [lia| |apply Hm]).
  assert (in_u 64 d1) as Hd1 by (by apply in_u_lxor; [lia| |apply Hm]).
  destruct (rotl_spec b1 17 Hb1 ltac:(lia)) as [-> Hrb1]. destruct (rotl_spec d1 21 Hd1 ltac:(lia)) as [-> Hrd1].
  destruct (rotl_spec ((c1 + b1) mod 2 ^ 64) 32 (Hm _) ltac:(lia)) as [-> Hrc].
  split; [done|]. cbn [v0 v1 v2 v3].
  split_and!; [apply Hm|apply in_u_lxor; [lia|done|apply Hm]|done|apply in_u_lxor; [lia|done|apply Hm]].
Qed.

Lemma rounds2 v : sip_ok v -> siphash_round (siphash_round v) = sip_round (sip_round v) /\ sip_ok (sip_round (sip_round v)).
Proof.
  intros Hv. destruct (round_spec v Hv) as [-> Hv1]. destruct (round_spec _ Hv1) as [-> Hv2]. by split.
Qed.

Lemma absorb_spec v m : sip_ok v -> in_u 64 m -> absorb v m = compress v m /\ sip_ok (compress v m).
Proof.
  intros (Ha & Hb & Hc & Hd) Hm. unfold absorb, compress.
  destruct (rounds2 (xor_v3 m v)) as [-> H]; [unfold sip_ok; cbn [v0 v1 v2 v3 xor_v3]; split_and!; [done|done|done|by apply in_u_lxor]|].
  generalize dependent (sip_round (sip_round (xor_v3 m v))). intros u (H0 & H1 & H2 & H3).
  split; [done|]. unfold sip_ok. cbn [v0 v1 v2 v3 xor_v0]. split_and!; [by apply in_u_lxor|done..].
Qed.

(** ** The input *)

Lemma word_ok bs : Forall (in_u 8) bs -> (length bs <= 8)%nat -> in_u 64 (le_combine bs).
Proof.
  intros Hb Hl. pose proof (le_combine_bound bs Hb) as H. assert (2 ^ (8 * Z.of_nat (length bs)) <= 2 ^ 64) by (apply Z.pow_le_mono_r; lia).
  unfold in_u in *. lia.
Qed.

Lemma words_app n (bs rest : list Z) : length bs = (8 * n)%nat -> forall k, words (n + k) (bs ++ rest) = words n bs ++ words k rest.
Proof.
  revert bs. induction n as [|n IH]; intros bs Hl k; cbn [words Nat.add app].
  - by destruct bs.
  - rewrite take_app_le, drop_app_le by lia. f_equal. apply IH. rewrite length_drop. lia.
Qed.

Lemma absorb_words_spec n pre bs rest v :
  length bs = (8 * n)%nat -> (length rest < 8)%nat -> Forall (in_u 8) bs -> sip_ok v ->
  words_loop n v (pre ++ bs ++ rest) (Z.of_nat (length pre)) (Z.of_nat (length (bs ++ rest)))
  = Some (foldl compress v (words n bs), Z.of_nat (length (pre ++ bs)), Z.of_nat (length rest)) /\
  sip_ok (foldl compress v (words n bs)).
Proof.
  revert pre bs v. induction n as [|n IH]; intros pre bs v Hl Hr Hb Hv; cbn [words_loop words foldl].
  - destruct bs; [|cbn in Hl; lia]. rewrite app_nil_r. cbn [app]. rewrite (proj2 (Z.leb_gt 8 _)) by lia. done.
  - rewrite (proj2 (Z.leb_le 8 _)) by (rewrite length_app; lia).
    assert (bs = take 8 bs ++ drop 8 bs) as Ebs by by rewrite take_drop.
    assert (length (take 8 bs) = 8%nat) as H8 by (rewrite length_take; lia).
    assert (Forall (in_u 8) (take 8 bs) /\ Forall (in_u 8) (drop 8 bs)) as [Hb1 Hb2] by (rewrite Ebs in Hb; by apply Forall_app in Hb).
    assert (pre ++ bs ++ rest = pre ++ take 8 bs ++ drop 8 bs ++ rest) as Ein by (rewrite (app_assoc (take 8 bs)), take_drop; done).
    rewrite Ein.
    pose proof (rds_at pre (take 8 bs) (drop 8 bs ++ rest)) as E. rewrite H8 in E. change (Z.of_nat 8) with 8 in E. rewrite E.
    cbn [mbind option_bind].
    destruct (absorb_spec v (le_combine (take 8 bs)) Hv) as [-> Hv1]; [apply word_ok; [done|lia]|].
    destruct (IH (pre ++ take 8 bs) (drop 8 bs) _ ltac:(rewrite length_drop; lia) Hr Hb2 Hv1) as [E1 Hv2].
    split; [|done].
    replace (Z.of_nat (length pre) + 8) with (Z.of_nat (length (pre ++ take 8 bs))) by (rewrite length_app; lia).
    replace (Z.of_nat (length (bs ++ rest)) - 8) with (Z.of_nat (length (drop 8 bs ++ rest))) by (rewrite !length_app, length_drop; lia).
    rewrite <- app_assoc in E1. rewrite E1. by rewrite <- app_assoc, take_drop.
Qed.

(** The rest of the input with its padding is one word. *)
Lemma padded_split bs rest :
  (length bs mod 8 = 0)%nat -> (length rest < 8)%nat ->
  padded (bs ++ rest) = bs ++ (rest ++ replicate (7 - length rest) 0 ++ [Z.of_nat (length (bs ++ rest)) mod 256]).
Proof.
  intros Hb Hr. unfold padded. rewrite <- app_assoc. do 3 f_equal.
  assert (Z.of_nat (length (bs ++ rest)) mod 8 = Z.of_nat (length rest)) as ->; [|f_equal; lia].
  rewrite length_app, Nat2Z.inj_add. pose proof (Nat.div_mod_eq (length bs) 8) as E. rewrite Hb, Nat.add_0_r in E.
  rewrite E, Nat2Z.inj_mul. change (Z.of_nat 8) with 8. rewrite Z.add_comm, Z.mul_comm, Z.mod_add by lia.
  apply Z.mod_small. lia.
Qed.

Lemma last_block_spec rest n :
  (length rest < 8)%nat ->
  exists b, wrs (replicate 8 0) 0 rest = Some b /\
    wr b 7 (Z.land n 0xff) = Some (rest ++ replicate (7 - length rest) 0 ++ [n mod 256]).
Proof.
  intros Hr. exists ((rest ++ replicate (7 - length rest) 0) ++ [0]). split.
  - assert (replicate 8 0 = replicate (length rest) 0 ++ (replicate (7 - length rest) 0 ++ [0])) as ->.
    { change [0] with (replicate 1 0). rewrite <- !replicate_add. f_equal. lia. }
    rewrite <- app_assoc. apply (wrs_mid [] (replicate (length rest) 0)); [done|by rewrite length_replicate].
  - rewrite land_FF, app_assoc. apply (wrs_mid _ [0] [] [n mod 256]); [|done]. rewrite length_app, length_replicate. lia.
Qed.

(** The last rounds. *)
Lemma final_spec u :
  sip_ok u ->
  siphash_round (siphash_round (siphash_round (siphash_round (xor_v2 0xff u))))
  = sip_round (sip_round (sip_round (sip_round (xor_v2 0xff u)))).
Proof.
  intros (Ha & Hb & Hc & Hd).
  assert (sip_ok (xor_v2 0xff u)) as Hu by (unfold sip_ok; cbn [v0 v1 v2 v3 xor_v2]; split_and!; [done|done|by apply in_u_lxor|done]).
  destruct (rounds2 _ Hu) as [-> Hu2]. by destruct (rounds2 _ Hu2) as [-> _].
Qed.

Lemma siphash_spec k0 k1 input :
  in_u 64 k0 -> in_u 64 k1 -> Forall (in_u 8) input ->
  SIPHASH_24 (k0, k1) input (Z.of_nat (length input)) = Some (siphash_2_4 k0 k1 input).
Proof.
  intros H0 H1 Hb. set (n := (length input / 8)%nat). set (bs := take (8 * n) input). set (rest := drop (8 * n) input).
  assert (input = bs ++ rest) as Ei by (symmetry; apply take_drop).
  pose proof (Nat.div_mod_eq (length input) 8) as Ed. pose proof (Nat.mod_upper_bound (length input) 8 ltac:(lia)) as Em. fold n in Ed.
  assert (length bs = 8 * n)%nat as Hbl by (unfold bs; rewrite length_take; lia).
  assert (length rest < 8)%nat as Hrl by (unfold rest; rewrite length_drop; lia).
  assert (Forall (in_u 8) bs /\ Forall (in_u 8) rest) as [Hbb Hbr] by (rewrite Ei in Hb; by apply Forall_app in Hb).
  unfold SIPHASH_24, siphash_2_4. cbn [fst snd].
  set (init := mk_sip _ _ _ _).
  assert (sip_ok init) as Hinit by (unfold sip_ok, init; cbn [v0 v1 v2 v3]; split_and!; apply in_u_lxor; first [done|lia|unfold in_u; lia]).
  assert (Z.to_nat (Z.of_nat (length input) / 8) = n) as -> by (rewrite <- (Nat2Z.id n); f_equal; unfold n; by rewrite Nat2Z.inj_div).
  destruct (absorb_words_spec n [] bs rest init Hbl Hrl Hbb Hinit) as [E Hv]. cbn [app length] in E.
  change (Z.of_nat 0) with 0 in E. rewrite <- Ei in E. rewrite E. cbn [mbind option_bind].
  assert (rds input (Z.of_nat (length bs)) (Z.of_nat (length rest)) = Some rest) as ->.
  { rewrite Ei, <- (app_nil_r rest) at 1. apply rds_at. }
  cbn [mbind option_bind]. destruct (last_block_spec rest (Z.of_nat (length input)) Hrl) as (b & -> & Hb2). cbn [mbind option_bind].
  rewrite Hb2. cbn [mbind option_bind]. set (last := rest ++ _) in *.
  assert (length last = 8)%nat as Hll by (unfold last; rewrite !length_app, length_replicate; cbn [length]; lia).
  assert (padded input = bs ++ last) as Hpad.
  { pose proof (padded_split bs rest) as Hp. rewrite <- Ei in Hp. apply Hp; [|done]. rewrite Hbl, Nat.mul_comm. by apply Nat.Div0.mod_mul. }
  assert (words (length (padded input) / 8) (padded input) = words n bs ++ [le_combine last]) as Hw.
  { rewrite Hpad, length_app, Hbl, Hll. replace (8 * n + 8)%nat with ((n + 1) * 8)%nat by lia. rewrite Nat.div_mul by lia.
    rewrite words_app by done. cbn [words]. by rewrite take_ge by lia. }
  rewrite Hw, foldl_snoc. set (v := foldl compress init (words n bs)) in *.
  destruct (absorb_spec v (le_combine last) Hv) as [-> Hu].
  { apply word_ok; [|lia]. unfold last. rewrite !Forall_app. split; [done|]. split; [by apply Forall_replicate|].
    constructor; [|done]. unfold in_u. change (2 ^ 8) with 256. apply Z.mod_pos_bound. lia. }
  rewrite final_spec by done. by rewrite Z.lxor_assoc.
Qed.

(** ** BoringSSL: what SipHash promises *)

(** C26. [SIPHASH_24] is SipHash-2-4 as its authors define it: on every input it
    reads the bytes of the input only and returns the hash of the padded words
    under the key. *)
Theorem siphash_reference k0 k1 input :
  in_u 64 k0 -> in_u 64 k1 -> Forall (in_u 8) input ->
  SIPHASH_24 (k0, k1) input (Z.of_nat (length input)) = Some (siphash_2_4 k0 k1 input).
Proof. apply siphash_spec. Qed.

(** The test vector of the paper: the bytes 0, 1, ..., 14 under the key whose
    bytes are 0, 1, ..., 15. *)
Lemma siphash_reference_witness :
  siphash_2_4 0x0706050403020100 0x0f0e0d0c0b0a0908 (seqZ 0 15) = 0xa129ca6149be45e5 /\
  SIPHASH_24 (0x0706050403020100, 0x0f0e0d0c0b0a0908) (seqZ 0 15) (Z.of_nat (length (seqZ 0 15)))
  = Some (siphash_2_4 0x0706050403020100 0x0f0e0d0c0b0a0908 (seqZ 0 15)).
Proof.
  split; [vm_compute; reflexivity|].
  apply (siphash_reference 0x0706050403020100 0x0f0e0d0c0b0a0908 (seqZ 0 15)); [unfold in_u; lia|unfold in_u; lia|decided].
Defined.
