(* ===== verification/Ber.v ===== *)
(** * BoringSSL: BER conversion ([crypto/bytestring/ber.c])

    A walk that looks for what is not DER, the conversion to DER, and strings
    that may be given in pieces.  Nested elements are read with one unit of fuel
    for each element; every element takes two bytes at least. *)
From S2P Require Import Prelude CBuf CMem CProc Cbs Cbb.

Definition kMaxDepth : Z := 2048.

Definition CBS_ASN1_UTF8STRING : Z := 0xc.
Definition CBS_ASN1_NUMERICSTRING : Z := 0x12.
Definition CBS_ASN1_PRINTABLESTRING : Z := 0x13.
Definition CBS_ASN1_T61STRING : Z := 0x14.
Definition CBS_ASN1_VIDEOTEXSTRING : Z := 0x15.
Definition CBS_ASN1_IA5STRING : Z := 0x16.
Definition CBS_ASN1_GRAPHICSTRING : Z := 0x19.
Definition CBS_ASN1_VISIBLESTRING : Z := 0x1a.
Definition CBS_ASN1_GENERALSTRING : Z := 0x1b.
Definition CBS_ASN1_UNIVERSALSTRING : Z := 0x1c.
Definition CBS_ASN1_BMPSTRING : Z := 0x1e.

(** [tag & CBS_ASN1_CONSTRUCTED] and [tag & ~CBS_ASN1_CONSTRUCTED]. *)
Definition constructed (tag : Z) : bool := negb (Z.land tag CBS_ASN1_CONSTRUCTED =? 0).
Definition clear_constructed (tag : Z) : Z := Z.land tag (u32 (Z.lnot CBS_ASN1_CONSTRUCTED)).

Definition is_string_type (tag : Z) : bool :=
  let t := clear_constructed tag in
  (t =? CBS_ASN1_OCTETSTRING) || (t =? CBS_ASN1_UTF8STRING) || (t =? CBS_ASN1_NUMERICSTRING) ||
  (t =? CBS_ASN1_PRINTABLESTRING) || (t =? CBS_ASN1_T61STRING) || (t =? CBS_ASN1_VIDEOTEXSTRING) ||
  (t =? CBS_ASN1_IA5STRING) || (t =? CBS_ASN1_GRAPHICSTRING) || (t =? CBS_ASN1_VISIBLESTRING) ||
  (t =? CBS_ASN1_GENERALSTRING) || (t =? CBS_ASN1_UNIVERSALSTRING) || (t =? CBS_ASN1_BMPSTRING).

(** ** Looking for BER *)

(** The state is [*ber_found]. *)
Definition enter_find (loop : CBS -> Z -> proc bool unit) (orig_in : CBS) (depth : Z) : proc bool unit :=
  if kMaxDepth <? depth then return_0
  else become false;; loop orig_in depth.

Fixpoint find_loop (fuel : nat) (in_ : CBS) (depth : Z) : proc bool unit :=
  if negb (0 <? CBS_len in_) then mret tt
  else match fuel with
  | O => stuck
  | S fuel' =>
      '((contents, tag, header_len, found), in_) ← on in_ CBS_get_any_ber_asn1_element;
      become found;;
      if found : bool then mret tt
      else if constructed tag then
        if is_string_type tag then become true;; mret tt
        else
          '(_, contents) ← on contents (CBS_skip header_len);
          enter_find (find_loop fuel') contents (depth + 1);;
          find_loop fuel' in_ depth
      else find_loop fuel' in_ depth
  end.

Definition cbs_find_ber (orig_in : CBS) (depth : Z) : proc bool unit :=
  enter_find (find_loop (length orig_in)) orig_in depth.

(** ** Conversion *)

Definition is_eoc (header_len : Z) (contents : CBS) : bool :=
  (header_len =? 2) && (CBS_len contents =? 2) && bool_decide (contents = [0x00; 0x00]).

(** [CBS_data(&contents)[header_len - 1] == 0x80] where that byte exists. *)
Definition is_indefinite (header_len : Z) (contents : CBS) : option bool :=
  if (CBS_len contents =? header_len) && (0 <? header_len) then
    b ← rd contents (header_len - 1); Some (b =? 0x80)
  else Some false.

Section Convert.
Context (realloc_ok : Z -> bool).

#[local] Abbreviation CBB_flush := (CBB_flush realloc_ok).

(** The function returns what is left of [in]; after a return of 0 nobody looks
    at it. *)
Definition converter := CBS -> Z -> Z -> bool -> Z -> builder CBS.

Definition enter_convert (loop : converter) : converter := fun in_ out string_tag looking_for_eoc depth =>
  if constructed string_tag then stuck
  else if kMaxDepth <? depth then return_0
  else loop in_ out string_tag looking_for_eoc depth.

(** The rest of a round, once [out_contents] is known. *)
Definition convert_contents (convert : converter) (in_ : CBS) (out out_contents : Z) (contents : CBS)
    (tag header_len child_string_tag depth : Z) : builder CBS :=
  indefinite ← of_option (is_indefinite header_len contents);
  if indefinite : bool then
    in_ ← convert in_ out_contents child_string_tag true (depth + 1);
    CBB_flush out;;
    mret in_
  else
    '(_, contents) ← on contents (CBS_skip header_len);
    (if constructed tag then convert contents out_contents child_string_tag false (depth + 1);; mret tt
     else CBB_add_bytes realloc_ok out_contents contents);;
    CBB_flush out;;
    mret in_.

(** One round: the element becomes a child of [out], or its contents go to
    [out] if it is a piece of a string. *)
Definition convert_element (convert : converter) (in_ : CBS) (out string_tag : Z) (contents : CBS)
    (tag header_len depth : Z) : builder CBS :=
  if negb (string_tag =? 0) then
    if negb (clear_constructed tag =? string_tag) then return_0
    else convert_contents convert in_ out out contents tag header_len string_tag depth
  else
    let string := constructed tag && is_string_type tag in
    let out_tag := if string then clear_constructed tag else tag in
    let child_string_tag := if string then out_tag else string_tag in
    with_local (fun out_contents_storage =>
      CBB_add_asn1 realloc_ok out out_contents_storage out_tag;;
      convert_contents convert in_ out out_contents_storage contents tag header_len child_string_tag depth).

Fixpoint convert_loop (fuel : nat) : converter := fun in_ out string_tag looking_for_eoc depth =>
  if negb (0 <? CBS_len in_) then (if looking_for_eoc then return_0 else mret in_)
  else match fuel with
  | O => stuck
  | S fuel' =>
      '((contents, tag, header_len, _), in_) ← on in_ CBS_get_any_ber_asn1_element;
      if is_eoc header_len contents then (if looking_for_eoc then mret in_ else return_0)
      else
        in_ ← convert_element (enter_convert (convert_loop fuel')) in_ out string_tag contents tag header_len depth;
        convert_loop fuel' in_ out string_tag looking_for_eoc depth
  end.

Definition cbs_convert_ber : converter := fun in_ =>
  enter_convert (convert_loop (length in_)) in_.

(** [CBB_cleanup(&cbb); return 0;] where [c] fails. *)
Definition or_cleanup {A} (a : Z) (c : builder A) : builder A := fun w =>
  match c w with
  | Bad w' => (CBB_cleanup a;; return_0) w'
  | r => r
  end.

(** The allocations of CBB_init; the result is what is left of [in], [*out] and
    [*out_storage]. *)
Section Alloc.
Context (buf_ok base_ok : bool).

Definition CBS_asn1_ber_to_der (in_ : CBS) : builder (CBS * CBS * option (list Z)) :=
  '(_, conversion_needed) ← on false (cbs_find_ber in_ 0);
  if negb conversion_needed then
    '((out, _, _), in_) ← on in_ CBS_get_any_asn1_element;
    mret (in_, out, None)
  else
    with_local (fun cbb =>
      or_cleanup cbb (
        CBB_init buf_ok base_ok cbb (CBS_len in_);;
        in_ ← cbs_convert_ber in_ cbb 0 false 0;
        storage ← CBB_finish realloc_ok true cbb;
        out_storage ← of_option (mapM id storage);
        mret (in_, CBS_init out_storage, Some out_storage))).

(** The chunks of a constructed string. *)
Fixpoint chunks_loop (fuel : nat) (child : CBS) (result inner_tag : Z) : builder unit :=
  if negb (0 <? CBS_len child) then mret tt
  else match fuel with
  | O => stuck
  | S fuel' =>
      '(chunk, child) ← on child (CBS_get_asn1 inner_tag);
      CBB_add_bytes realloc_ok result chunk;;
      chunks_loop fuel' child result inner_tag
  end.

Definition CBS_get_asn1_implicit_string (in_ : CBS) (outer_tag inner_tag : Z) : builder (CBS * CBS * option (list Z)) :=
  if constructed outer_tag || constructed inner_tag || negb (is_string_type inner_tag) then stuck
  else
    primitive ← of_option (CBS_peek_asn1_tag in_ outer_tag);
    if primitive : bool then
      '(out, in_) ← on in_ (CBS_get_asn1 outer_tag);
      mret (in_, out, None)
    else
      with_local (fun result =>
        or_cleanup result (
          CBB_init buf_ok base_ok result (CBS_len in_);;
          '(child, in_) ← on in_ (CBS_get_asn1 (Z.lor outer_tag CBS_ASN1_CONSTRUCTED));
          chunks_loop (length child) child result inner_tag;;
          storage ← CBB_finish realloc_ok true result;
          data ← of_option (mapM id storage);
          mret (in_, CBS_init data, Some data))).
End Alloc.
End Convert.
