(* ===== verification/BerSpec.v ===== *)
(** * BoringSSL: BER

    The elements the reader accepts, and input as a tree with the walk through it. *)
From S2P Require Import Prelude CBuf CMem CProc Cbs CbsSpec Cbb CbbSpec Ber.

(** ** BoringSSL: elements of BER

    X.690 lets a sender choose the form of the length; the reader of cbs.c
    accepts exactly the elements whose definite length has at most four octets,
    and says whether DER would have written the same header. *)

#[local] Ltac Zify.zify_post_hook ::= Z.to_euclidean_division_equations.

(** ** Length octets *)

Definition ber_length (n : Z) (lf : list Z) : Prop :=
  (0 <= n < 128 /\ lf = [n]) \/
  exists v, bytes v /\ (1 <= length v <= 4)%nat /\ be_val v = n /\ lf = (128 + Z.of_nat (length v)) :: v.

(** What DER writes otherwise. *)
Definition superfluous (n : Z) (lf : list Z) : bool := bool_decide (lf <> der_length n).

Lemma ber_length_der n : 0 <= n < 2 ^ 32 -> ber_length n (der_length n).
Proof.
  intros Hn. unfold der_length. destruct (n <? 128) eqn:E; [left; split; [lia|done]|]. right. exists (be (len_bytes n) n).
  pose proof (len_bytes_range n). pose proof (len_bytes_fit n Hn).
  rewrite length_be, be_val_be, Z.mod_small by lia. split_and!; [apply be_bytes|lia|lia|done|done].
Qed.

Lemma ber_length_range n lf : ber_length n lf -> 0 <= n < 2 ^ 32.
Proof.
  intros [[? _]|(v & Hv & Hl & <- & _)]; [lia|]. pose proof (be_val_bound v Hv).
  assert (2 ^ (8 * Z.of_nat (length v)) <= 2 ^ 32) by (apply Z.pow_le_mono_r; lia). lia.
Qed.

Lemma ber_length_bytes n lf : ber_length n lf -> bytes lf.
Proof. intros [[? ->]|(v & Hv & ? & _ & ->)]; constructor; try done; unfold in_u; lia. Qed.

(** A long form is the shortest if its value needs every byte. *)
Lemma superfluous_long v :
  bytes v -> (1 <= length v <= 4)%nat ->
  superfluous (be_val v) ((128 + Z.of_nat (length v)) :: v)
  = (be_val v <? 128) || (be_val v / 2 ^ ((Z.of_nat (length v) - 1) * 8) =? 0).
Proof.
  intros Hv Hl. pose proof (be_val_bound v Hv) as Hb. unfold superfluous, der_length.
  destruct (be_val v <? 128) eqn:E; cbn [orb]; [apply bool_decide_eq_true_2; intros [= ?]; lia|].
  destruct (_ / _ =? 0) eqn:E2.
  - apply bool_decide_eq_true_2. intros [= El Ev]. assert (len_bytes (be_val v) = length v) as El' by lia.
    rewrite <- El', len_bytes_full in E2 by lia. done.
  - apply bool_decide_eq_false_2. apply Z.eqb_neq in E2. intros H. apply H.
    replace ((Z.of_nat (length v) - 1) * 8) with (8 * (Z.of_nat (length v) - 1)) in E2 by lia.
    assert (len_bytes (be_val v) = length v) as ->; [|by rewrite be_be_val].
    apply len_bytes_minimal; [lia|]. split; [|lia].
    destruct (decide (be_val v < 2 ^ (8 * (Z.of_nat (length v) - 1)))) as [Hs|]; [|lia].
    by rewrite Z.div_small in E2 by lia.
Qed.

Lemma superfluous_der n : superfluous n (der_length n) = false.
Proof. apply bool_decide_eq_false_2. auto. Qed.

Lemma superfluous_short n : 0 <= n < 128 -> superfluous n [n] = false.
Proof. intros Hn. apply bool_decide_eq_false_2. unfold der_length. rewrite (proj2 (Z.ltb_lt n 128)) by lia. auto. Qed.

(** ** Elements *)

Inductive element :=
| Definite (t : Z) (lf body : list Z)
| Indefinite (t : Z).

Definition element_bytes (e : element) : list Z :=
  match e with Definite t lf body => ident t ++ lf ++ body | Indefinite t => ident t ++ [0x80] end.

Definition element_ok (e : element) : Prop :=
  match e with
  | Definite t lf body => asn1_tag t /\ ber_length (Z.of_nat (length body)) lf
  | Indefinite t => asn1_tag t /\ constructed t = true
  end.

(** Contents, tag, length of the header and whether it is not DER. *)
Definition element_out (e : element) : CBS * Z * Z * bool :=
  match e with
  | Definite t lf body =>
      (element_bytes e, t, Z.of_nat (length (ident t)) + Z.of_nat (length lf), superfluous (Z.of_nat (length body)) lf)
  | Indefinite t => (element_bytes e, t, Z.of_nat (length (ident t)) + 1, true)
  end.

Lemma ident_nonempty t : (0 < length (ident t))%nat.
Proof. unfold ident. destruct (tag_num t <? 31); cbn [length]; lia. Qed.

Lemma get_indefinite t rest :
  asn1_tag t -> constructed t = true -> CBS_len (ident t ++ 0x80 :: rest) < 2 ^ 60 ->
  CBS_get_any_ber_asn1_element (ident t ++ 0x80 :: rest) = Done (element_out (Indefinite t)) rest.
Proof.
  intros Ht Hc Hl. unfold constructed in Hc. unfold CBS_get_any_ber_asn1_element, cbs_get_any_asn1_element, mbind, proc_bind, current, on.
  unfold asn1_header, mbind, proc_bind. rewrite parse_tag_complete, get_u8_eq by done. cbn [current].
  change (Z.land 128 128 =? 0) with false. change (Z.land 128 127) with 0. rewrite Hc. cbn [andb Z.eqb].
  unfold CBS_len in *. rewrite length_app in *. cbn [length] in *.
  rewrite !wrapu_id by (unfold in_u; lia).
  unfold mret, proc_ret. cbn [el_len hd_tag hd_len]. unfold CBS_get_bytes, mbind, proc_bind.
  replace (Z.of_nat (length (ident t) + S (length rest)) - Z.of_nat (length rest)) with (Z.of_nat (length (ident t ++ [128])))
    by (rewrite length_app; cbn [length]; lia).
  replace (ident t ++ 128 :: rest) with ((ident t ++ [128]) ++ rest) by by rewrite <- app_assoc.
  rewrite cbs_get_app. unfold mret, proc_ret. rewrite length_app. cbn [length].
  cbn [element_out element_bytes CBS_init hd_tag hd_len Cbs.ber_found]. do 3 f_equal. lia.
Qed.

Lemma definite_header t n lf rest :
  asn1_tag t -> ber_length n lf -> CBS_len (ident t ++ lf ++ rest) < 2 ^ 60 ->
  let hl := Z.of_nat (length (ident t)) + Z.of_nat (length lf) in
  asn1_header true (ident t ++ lf ++ rest) (ident t ++ lf ++ rest)
  = Done (mk_header t hl (n + hl) (superfluous n lf)) rest.
Proof.
  intros Ht Hlf Hl hl. pose proof (ber_length_range _ _ Hlf) as Hn. unfold asn1_header, mbind, proc_bind.
  rewrite parse_tag_complete, get_u8_eq by done. unfold CBS_len in *. rewrite !length_app in *.
  destruct Hlf as [[Hs ->]|(v & Hv & Hvl & <- & ->)]; cbn [app current length] in *.
  - rewrite land_80 by (unfold in_u; lia). rewrite decide_True by lia. cbn [Z.eqb]. rewrite superfluous_short by lia.
    rewrite !wrapu_id by (unfold in_u, CBS_len; try rewrite wrapu_id; unfold in_u; lia).
    unfold mret, proc_ret. do 2 f_equal; unfold hl; cbn [length]; lia.
  - rewrite superfluous_long by done. rewrite land_80 by (unfold in_u; lia). rewrite decide_False by lia.
    rewrite (proj2 (Z.eqb_neq 128 0)), land_7F by lia.
    replace ((128 + Z.of_nat (length v)) mod 128) with (Z.of_nat (length v)) by lia.
    rewrite (proj2 (Z.eqb_neq (Z.of_nat (length v)) 0)), (proj2 (Z.ltb_ge 4 _)) by lia. cbn [andb]. rewrite andb_false_r. cbn [orb].
    rewrite cbs_get_u_app by (done || lia). rewrite Z.shiftr_div_pow2 by lia. cbn [negb]. rewrite andb_false_r.
    unfold CBS_len. rewrite !length_app.
    rewrite (wrapu_id 64 (Z.of_nat _ - _)) by (unfold in_u; lia).
    rewrite (wrapu_id 64 (be_val v + _ + _)) by (unfold in_u; lia). rewrite (proj2 (Z.ltb_ge _ (be_val v))) by lia.
    rewrite (wrapu_id 64 (_ + Z.of_nat (length v))), wrapu_id by (unfold in_u; lia).
    unfold mret, proc_ret. do 2 f_equal; unfold hl; cbn [length]; lia.
Qed.

Lemma get_definite t lf body rest :
  element_ok (Definite t lf body) -> CBS_len (element_bytes (Definite t lf body) ++ rest) < 2 ^ 60 ->
  CBS_get_any_ber_asn1_element (element_bytes (Definite t lf body) ++ rest) = Done (element_out (Definite t lf body)) rest.
Proof.
  intros [Ht Hlf] Hl.
  pose proof (definite_header t (Z.of_nat (length body)) lf (body ++ rest) Ht Hlf) as Hh. cbv zeta in Hh.
  assert (ident t ++ lf ++ body ++ rest = element_bytes (Definite t lf body) ++ rest) as E
    by (cbn [element_bytes]; by rewrite <- !app_assoc).
  rewrite E in Hh. specialize (Hh Hl).
  unfold CBS_get_any_ber_asn1_element, cbs_get_any_asn1_element, mbind, proc_bind, current, on.
  rewrite Hh. cbn [el_len hd_tag hd_len Cbs.ber_found]. unfold CBS_get_bytes, mbind, proc_bind.
  replace (Z.of_nat (length body) + _) with (Z.of_nat (length (element_bytes (Definite t lf body))))
    by (cbn [element_bytes]; rewrite !length_app; lia).
  by rewrite cbs_get_app.
Qed.

Lemma get_ber_complete e rest :
  element_ok e -> CBS_len (element_bytes e ++ rest) < 2 ^ 60 ->
  CBS_get_any_ber_asn1_element (element_bytes e ++ rest) = Done (element_out e) rest.
Proof.
  destruct e as [t lf body|t]; [apply get_definite|]. intros [Ht Hc]. cbn [element_bytes]. rewrite <- app_assoc. by apply get_indefinite.
Qed.

(** The header is defined and accepts nothing else. *)
Lemma ber_header_cases cbs :
  bytes cbs -> CBS_len cbs < 2 ^ 60 ->
  (exists rest, asn1_header true cbs cbs = Bad rest) \/
  (exists t rest, asn1_tag t /\ constructed t = true /\ cbs = ident t ++ 0x80 :: rest) \/
  exists t n lf rest, asn1_tag t /\ ber_length n lf /\ cbs = ident t ++ lf ++ rest.
Proof.
  intros Hb Hl. unfold asn1_header. unfold mbind at 1, proc_bind at 1.
  destruct (parse_tag_cases cbs Hb) as [[rest ->]|(t & r & Ht & -> & ->)]; [left; by exists rest|].
  unfold mbind, proc_bind. rewrite get_u8_eq. apply Forall_app in Hb as [_ Hb].
  destruct Hb as [|b r Hb Hr]; [left; by exists []|]. unfold in_u in Hb. cbn [current].
  rewrite land_80 by (unfold in_u; lia). destruct (decide (b < 128)) as [Hlt|Hge].
  { right; right. exists t, b, [b], r. split; [done|]. split; [left; split; [lia|done]|done]. }
  change (128 =? 0) with false. rewrite land_7F. replace (b mod 128) with (b - 128) by lia. cbn [andb].
  destruct (b - 128 =? 0) eqn:E0; cbn [orb].
  { destruct (Z.land t CBS_ASN1_CONSTRUCTED =? 0) eqn:Ec; cbn [negb andb]; [left; by exists r|].
    right; left. exists t, r. unfold constructed. rewrite Ec. replace b with 128 by lia. done. }
  rewrite andb_false_r. destruct (4 <? b - 128) eqn:E4; [left; by exists r|].
  destruct (cbs_get_u_cases (b - 128) r Hr) as [[_ ->]|(v & rest & -> & Hk & ->)]; [lia|left; by exists r|].
  apply Forall_app in Hr as [Hv _]. right; right. exists t, (be_val v), (b :: v), rest. split; [done|].
  split; [|done]. right. exists v. split_and!; [done|lia|lia|done|f_equal; lia].
Qed.

Lemma get_ber_cases cbs :
  bytes cbs -> CBS_len cbs < 2 ^ 60 ->
  CBS_get_any_ber_asn1_element cbs = Bad cbs \/
  exists e rest, element_ok e /\ cbs = element_bytes e ++ rest.
Proof.
  intros Hb Hl.
  destruct (ber_header_cases cbs Hb Hl) as [[rest E]|[(t & r & Ht & Hc & ->)|(t & n & lf & r & Ht & Hlf & ->)]].
  - left. unfold CBS_get_any_ber_asn1_element, cbs_get_any_asn1_element, mbind, proc_bind, current, on. by rewrite E.
  - right. exists (Indefinite t), r. split; [done|]. cbn [element_bytes]. by rewrite <- app_assoc.
  - pose proof (ber_length_range _ _ Hlf) as Hn. destruct (decide (CBS_len r < n)) as [Hlt|Hge].
    + left. unfold CBS_get_any_ber_asn1_element, cbs_get_any_asn1_element, mbind, proc_bind, current, on.
      rewrite (definite_header _ n) by done. cbn [el_len]. unfold CBS_get_bytes, mbind, proc_bind, cbs_get.
      rewrite (proj2 (Z.ltb_lt _ _)); [done|]. unfold CBS_len in *. rewrite !length_app. lia.
    + right. unfold CBS_len in Hge. exists (Definite t lf (take (Z.to_nat n) r)), (drop (Z.to_nat n) r).
      assert (Z.of_nat (length (take (Z.to_nat n) r)) = n) as En by (rewrite length_take; lia).
      split; [split; [done|by rewrite En]|]. cbn [element_bytes]. by rewrite <- !app_assoc, take_drop.
Qed.

(** The bytes of two elements are different. *)
Lemma element_inj e e' rest rest' :
  element_ok e -> element_ok e' -> CBS_len (element_bytes e ++ rest) < 2 ^ 60 ->
  element_bytes e ++ rest = element_bytes e' ++ rest' -> element_out e = element_out e' /\ rest = rest'.
Proof.
  intros He He' Hl E. pose proof (get_ber_complete e rest He Hl) as H. rewrite E in H, Hl.
  rewrite (get_ber_complete e' rest' He' Hl) in H. by injection H as -> ->.
Qed.

Lemma element_length e : element_ok e -> (2 <= length (element_bytes e))%nat.
Proof.
  pose proof ident_nonempty. destruct e as [t lf body|t]; cbn [element_bytes element_ok]; intros [_ He]; rewrite !length_app;
    specialize (H t); [|cbn [length]; lia].
  destruct He as [[_ ->]|(v & _ & _ & _ & ->)]; cbn [length]; lia.
Qed.

(** Two elements with the same bytes are the same. *)
Lemma element_eq e e' :
  element_ok e -> element_ok e' -> element_out e = element_out e' -> e = e'.
Proof.
  destruct e as [t lf body|t], e' as [t' lf' body'|t']; cbn [element_out element_bytes element_ok]; intros [_ He] [_ He'].
  - intros [= E <- El _]. apply app_inj_1 in E as [_ E]; [|done]. apply app_inj_1 in E as [-> ->]; [done|lia].
  - intros [= E <- _ _]. apply app_inj_1 in E as [_ E]; [|done]. exfalso.
    destruct He as [[? ->]|(v & _ & ? & _ & ->)]; cbn in E; [injection E as E1 _; lia|injection E as _ E; apply app_nil in E as [-> _]; cbn in *; lia].
  - intros [= E <- _ _]. apply app_inj_1 in E as [_ E]; [|done]. exfalso.
    destruct He' as [[? ->]|(v & _ & ? & _ & ->)]; cbn in E; [injection E as E1 _; lia|injection E as _ E; symmetry in E; apply app_nil in E as [-> _]; cbn in *; lia].
  - by intros [= _ <- _].
Qed.

Lemma element_inv e e' rest rest' :
  element_ok e -> element_ok e' -> CBS_len (element_bytes e ++ rest) < 2 ^ 60 ->
  element_bytes e ++ rest = element_bytes e' ++ rest' -> e = e' /\ rest = rest'.
Proof.
  intros He He' Hl E. destruct (element_inj e e' rest rest' He He' Hl E) as [Eo Er]. split; [by apply element_eq|done].
Qed.

(** ** End of contents *)

Definition eoc : element := Definite 0 [0] [].

Lemma eoc_ok : element_ok eoc.
Proof. split; [unfold asn1_tag; lia|]. left. split; [cbn; lia|done]. Qed.

Lemma is_eoc_spec e :
  element_ok e ->
  (let '(contents, _, header_len, _) := element_out e in is_eoc header_len contents) = bool_decide (element_bytes e = [0; 0]).
Proof.
  intros He. destruct e as [t lf body|t]; cbn [element_out element_ok] in *; unfold is_eoc.
  - destruct (decide (element_bytes (Definite t lf body) = [0; 0])) as [E|E]; [|by rewrite !bool_decide_eq_false_2, andb_false_r].
    rewrite !bool_decide_eq_true_2, E by done. cbn [element_bytes] in E. pose proof (ident_nonempty t) as Hi.
    destruct He as [_ [[_ ->]|(v & _ & Hv & _ & ->)]].
    + destruct (ident t) as [|x [|y l]]; cbn in *; [lia| |].
      * done.
      * destruct l; cbn in E; done.
    + destruct (ident t) as [|x [|y [|z l]]]; cbn in *; [lia| | |done]; injection E; intros; subst; try lia. all: destruct v; cbn in *; done || lia.
  - cbn [element_bytes]. destruct (decide (ident t ++ [128] = [0; 0])) as [E|E]; [|by rewrite !bool_decide_eq_false_2, andb_false_r].
    exfalso. apply (f_equal last) in E. by rewrite last_snoc in E.
Qed.

Lemma eoc_bytes e : element_ok e -> element_bytes e = [0; 0] -> e = eoc.
Proof.
  intros He E. assert (element_bytes eoc = [0; 0]) as E0 by (vm_compute; reflexivity).
  destruct (element_inv e eoc [] [] He eoc_ok) as [-> _]; [by rewrite E, app_nil_r|by rewrite E, E0|done].
Qed.

(** The header of an indefinite length ends with 80, no other header does
    before empty contents. *)
Lemma is_indefinite_spec e :
  element_ok e ->
  (let '(contents, _, header_len, _) := element_out e in is_indefinite header_len contents)
  = Some (match e with Indefinite _ => true | Definite _ _ _ => false end).
Proof.
  intros He. destruct e as [t lf body|t]; cbn [element_out element_ok] in *; destruct He as [_ He]; unfold is_indefinite, CBS_len.
  - cbn [element_bytes]. destruct body as [|y body].
    2: { rewrite (proj2 (Z.eqb_neq _ _)); [done|]. rewrite !length_app. cbn [length]. lia. }
    rewrite app_nil_r. rewrite (proj2 (Z.eqb_eq _ _)) by (rewrite length_app; lia).
    assert (exists lf', lf = lf' ++ [0]) as [lf' ->].
    { cbn [length] in He. destruct He as [[_ ->]|(v & Hv & Hl & E & ->)]; [by exists []|].
      destruct v as [|y v] using rev_ind; [cbn in Hl; lia|]. rewrite be_val_snoc in E. apply Forall_app in Hv as [Hv Hy].
      apply Forall_inv in Hy. unfold in_u in Hy. pose proof (be_val_bound v Hv). assert (y = 0) as -> by lia.
      by exists ((128 + Z.of_nat (length (v ++ [0]))) :: v). }
    rewrite length_app. cbn [length]. rewrite (proj2 (Z.ltb_lt _ _)) by lia. cbn [andb].
    replace (_ - 1) with (Z.of_nat (length (ident t ++ lf'))) by (rewrite length_app; lia). by rewrite app_assoc, rd_app.
  - cbn [element_bytes]. rewrite (proj2 (Z.eqb_eq _ _)) by (rewrite length_app; cbn [length]; lia).
    rewrite (proj2 (Z.ltb_lt _ _)) by lia. cbn [andb]. rewrite Z.add_simpl_r. by rewrite rd_app.
Qed.

#[local] Ltac Zify.zify_post_hook ::= idtac.

(** ** BoringSSL: BER as a tree, and the walk through it

    Input of elements within elements is the printed form of a tree, first child
    and next sibling.  Trees and their bytes determine each other, and the walk
    of [cbs_find_ber] has a simple answer on every tree. *)

(** ** Trees *)

(** An element with what is inside it, and the elements behind it. *)
Inductive bers :=
| BNil
| BCons (e : element) (inner next : bers).

Definition tag_of (e : element) : Z := match e with Definite t _ _ => t | Indefinite t => t end.

Fixpoint ber_bytes (b : bers) : list Z :=
  match b with
  | BNil => []
  | BCons e inner next =>
      element_bytes e ++ match e with Definite _ _ _ => [] | Indefinite _ => ber_bytes inner ++ [0x00; 0x00] end ++
      ber_bytes next
  end.

(** Elements with the constructed bit consist of elements. *)
Fixpoint ber_ok (b : bers) : Prop :=
  match b with
  | BNil => True
  | BCons e inner next =>
      element_ok e /\ ber_ok inner /\ ber_ok next /\
      match e with
      | Definite t _ body => if constructed t then body = ber_bytes inner else inner = BNil
      | Indefinite _ => True
      end
  end.

(** How deep constructed elements are nested. *)
Fixpoint height (b : bers) : Z :=
  match b with
  | BNil => 0
  | BCons e inner next => Z.max (if constructed (tag_of e) then 1 + height inner else 0) (height next)
  end.

(** The end-of-contents octets occur only at the end of contents. *)
Fixpoint no_eoc (b : bers) : Prop :=
  match b with
  | BNil => True
  | BCons e inner next => e <> eoc /\ no_eoc inner /\ no_eoc next
  end.

(** DER, as far as ber.c looks at it: definite lengths in the shortest form, and
    the strings of [is_string_type] in one piece.  A BIT STRING in pieces is left
    alone on purpose, and the contents of primitive elements are the caller's. *)
Fixpoint is_der (b : bers) : Prop :=
  match b with
  | BNil => True
  | BCons e inner next =>
      match e with
      | Definite t lf body => superfluous (Z.of_nat (length body)) lf = false /\ constructed t && is_string_type t = false
      | Indefinite _ => False
      end /\ is_der inner /\ is_der next
  end.

Lemma height_nonneg b : 0 <= height b.
Proof. induction b as [|e inner IHi next IHn]; cbn [height]; lia. Qed.

(** ** From bytes to trees *)

Lemma ber_nonempty b : ber_ok b -> ber_bytes b = [] -> b = BNil.
Proof.
  destruct b as [|e inner next]; [done|]. cbn [ber_ok ber_bytes]. intros (He & _) E. exfalso.
  pose proof (element_length e He). apply (f_equal length) in E. rewrite length_app in E. cbn [length] in E. lia.
Qed.

(** The first element of a tree that is printed in front of something. *)
Lemma ber_view b tail e rest :
  ber_ok b -> element_ok e -> CBS_len (element_bytes e ++ rest) < 2 ^ 60 ->
  ber_bytes b ++ tail = element_bytes e ++ rest ->
  (b = BNil /\ tail = element_bytes e ++ rest) \/
  exists inner next, b = BCons e inner next /\
    rest = match e with Definite _ _ _ => [] | Indefinite _ => ber_bytes inner ++ [0x00; 0x00] end ++ ber_bytes next ++ tail.
Proof.
  intros Hb He Hl E. destruct b as [|e' inner next]; [by left|right]. cbn [ber_ok ber_bytes] in Hb, E.
  destruct Hb as (He' & _). rewrite <- app_assoc in E. symmetry in E.
  destruct (element_inv _ _ _ _ He He' Hl E) as [<- ->]. exists inner, next. by rewrite app_assoc.
Qed.

Lemma ber_view_nil b e rest :
  ber_ok b -> element_ok e -> CBS_len (element_bytes e ++ rest) < 2 ^ 60 -> ber_bytes b = element_bytes e ++ rest ->
  exists inner next, b = BCons e inner next /\
    rest = match e with Definite _ _ _ => [] | Indefinite _ => ber_bytes inner ++ [0x00; 0x00] end ++ ber_bytes next.
Proof.
  intros Hb He Hl E. destruct (ber_view b [] e rest Hb He Hl) as [[-> Et]|(inner & next & -> & Er)]; [by rewrite app_nil_r| |].
  - exfalso. pose proof (element_length e He) as Hle. apply (f_equal length) in Et. rewrite length_app in Et. cbn [length] in Et. lia.
  - exists inner, next. by rewrite app_nil_r in Er.
Qed.

Lemma element_split e rest cbs :
  bytes cbs -> CBS_len cbs < 2 ^ 60 -> cbs = element_bytes e ++ rest -> element_ok e ->
  bytes rest /\ CBS_len rest < 2 ^ 60 /\ (length rest + 2 <= length cbs)%nat /\
  match e with Definite _ _ body => bytes body /\ CBS_len body < 2 ^ 60 /\ (length body + 2 <= length cbs)%nat | Indefinite _ => True end.
Proof.
  intros Hb Hl -> He. pose proof (element_length e He) as Hle. pose proof (ident_nonempty (tag_of e)) as Hi. apply Forall_app in Hb as [Hbe Hbr].
  unfold CBS_len in *. rewrite length_app in *. split_and!; [done|lia|lia|].
  destruct e as [t lf body|t]; [|done]. cbn [element_bytes element_ok tag_of] in *. rewrite !Forall_app in Hbe. rewrite !length_app in *.
  assert (0 < length lf)%nat by (destruct He as [_ [[_ ->]|(v & _ & _ & _ & ->)]]; cbn [length]; lia).
  split_and!; [apply Hbe|lia|lia].
Qed.

Lemma skip_element_header t lf body :
  CBS_skip (Z.of_nat (length (ident t)) + Z.of_nat (length lf)) (element_bytes (Definite t lf body)) = Done tt body.
Proof.
  unfold CBS_skip, mbind, proc_bind. cbn [element_bytes]. rewrite app_assoc, <- Nat2Z.inj_add, <- length_app. by rewrite cbs_get_app.
Qed.

Lemma positive_len {A} (cbs : list A) : cbs <> [] -> (0 <? Z.of_nat (length cbs)) = true.
Proof. intros H. apply Z.ltb_lt. destruct cbs; cbn [length]; done || lia. Qed.

(** ** The walk *)

(** What [*ber_found] holds after the walk of [b], if it held [f] before.  It is
    overwritten by the walk of an element and by what is behind it: this is what
    the code computes, not whether [b] has BER ([BerTheorems.shown]). *)
Fixpoint finds (f : bool) (b : bers) : bool :=
  match b with
  | BNil => f
  | BCons e inner next =>
      match e with
      | Indefinite _ => true
      | Definite t lf body =>
          if superfluous (Z.of_nat (length body)) lf then true
          else if constructed t then is_string_type t || finds (finds false inner) next
          else finds false next
      end
  end.

(** DER is not taken for anything else. *)
Lemma finds_der b : is_der b -> finds false b = false.
Proof.
  induction b as [|e inner IHi next IHn]; [done|]. cbn [is_der finds]. intros (He & Hi & Hn).
  destruct e as [t lf body|t]; [|done]. destruct He as [-> Hs]. destruct (constructed t); cbn [andb] in Hs.
  - rewrite Hs, (IHi Hi). by apply IHn.
  - by apply IHn.
Qed.

Definition find_post (in_ : CBS) (depth : Z) (f : bool) (r : result bool unit) : Prop :=
  triple r
    (fun _ f' => forall b, ber_ok b -> in_ = ber_bytes b -> f' = finds f b)
    (fun _ => forall b, ber_ok b -> in_ = ber_bytes b -> kMaxDepth < depth + height b).

(** The walk of the contents of an element, from the walks of smaller input. *)
Lemma enter_find_spec loop in_ depth f :
  (depth <= kMaxDepth -> find_post in_ depth false (loop in_ depth false)) ->
  find_post in_ depth false (enter_find loop in_ depth f).
Proof.
  intros H. unfold enter_find. destruct (kMaxDepth <? depth) eqn:E.
  - cbn. intros b _ _. pose proof (height_nonneg b). lia.
  - apply H. lia.
Qed.

(** One element: it ends the walk, or nothing comes of it, or the walk of its
    contents is followed by the walk of the rest. *)
Lemma walk_stops e rest depth f :
  element_ok e -> CBS_len (element_bytes e ++ rest) < 2 ^ 60 -> (forall inner next, finds f (BCons e inner next) = true) ->
  find_post (element_bytes e ++ rest) depth f (Done tt true).
Proof.
  intros He Hl H. cbn. intros b Hok E. symmetry in E. destruct (ber_view_nil b e rest Hok He Hl E) as (inner & next & -> & _). by rewrite H.
Qed.

Lemma walk_skips t lf body rest depth f r :
  element_ok (Definite t lf body) -> CBS_len (element_bytes (Definite t lf body) ++ rest) < 2 ^ 60 ->
  superfluous (Z.of_nat (length body)) lf = false -> constructed t = false -> find_post rest depth false r ->
  find_post (element_bytes (Definite t lf body) ++ rest) depth f r.
Proof.
  intros He Hl Hs Hc Hr. eapply triple_weaken; [exact Hr| |].
  - intros x f' H b Hok E. symmetry in E. destruct (ber_view_nil b _ rest Hok He Hl E) as (inner & next & -> & Er). cbn [finds]. rewrite Hs, Hc.
    apply H; [apply Hok|done].
  - intros f' H b Hok E. symmetry in E. destruct (ber_view_nil b _ rest Hok He Hl E) as (inner & next & -> & Er). cbn [height].
    enough (kMaxDepth < depth + height next) by lia. apply H; [apply Hok|done].
Qed.

Lemma walk_enters t lf body rest depth f (c k : proc bool unit) :
  element_ok (Definite t lf body) -> CBS_len (element_bytes (Definite t lf body) ++ rest) < 2 ^ 60 ->
  superfluous (Z.of_nat (length body)) lf = false -> constructed t = true -> is_string_type t = false ->
  find_post body (depth + 1) false (c false) -> (forall f1, find_post rest depth f1 (k f1)) ->
  find_post (element_bytes (Definite t lf body) ++ rest) depth f ((c;; k) false).
Proof.
  intros He Hl Hs Hc Ht Hbody Hrest.
  assert (forall b, ber_ok b -> element_bytes (Definite t lf body) ++ rest = ber_bytes b ->
     exists inner next, b = BCons (Definite t lf body) inner next /\ rest = ber_bytes next /\ body = ber_bytes inner /\ ber_ok inner /\ ber_ok next) as Hview.
  { intros b Hok E. symmetry in E. destruct (ber_view_nil b _ rest Hok He Hl E) as (inner & next & -> & Er). exists inner, next.
    cbn [ber_ok] in Hok. rewrite Hc in Hok. split_and!; [done|done|apply Hok..]. }
  unfold mbind, proc_bind. unfold find_post at 1, triple in Hbody. destruct (c false) as [[] f1|f1|]; [| |done].
  - eapply triple_weaken; [exact (Hrest f1)| |].
    + intros x f' H b Hok E. destruct (Hview b Hok E) as (inner & next & -> & Er & Eb & Hoi & Hon). cbn [finds]. rewrite Hs, Hc, Ht.
      cbn [orb]. rewrite <- (Hbody inner Hoi Eb). by apply H.
    + intros f' H b Hok E. destruct (Hview b Hok E) as (inner & next & -> & Er & Eb & Hoi & Hon). cbn [height].
      enough (kMaxDepth < depth + height next) by lia. by apply H.
  - cbn. intros b Hok E. destruct (Hview b Hok E) as (inner & next & -> & Er & Eb & Hoi & Hon). cbn [height tag_of]. rewrite Hc.
    pose proof (Hbody inner Hoi Eb). lia.
Qed.

Lemma find_walk_spec fuel in_ depth f :
  bytes in_ -> CBS_len in_ < 2 ^ 60 -> (length in_ <= fuel)%nat -> find_post in_ depth f (find_loop fuel in_ depth f).
Proof.
  revert in_ depth f. induction fuel as [|fuel IH]; intros in_ depth f Hb Hl Hf;
    (destruct (decide (in_ = [])) as [->|Hne]; [cbn; intros b Hok E; by rewrite (ber_nonempty b Hok (eq_sym E))|]);
    [destruct in_; done || (cbn in Hf; lia)|].
  cbn [find_loop]. unfold CBS_len at 1. rewrite positive_len by done. cbn [negb].
  destruct (get_ber_cases in_ Hb Hl) as [E|(e & rest & He & ->)].
  { unfold mbind, proc_bind, on. rewrite E. cbn. intros b Hok ->. exfalso. destruct b as [|e inner next]; [done|].
    cbn [ber_bytes ber_ok] in *. rewrite get_ber_complete in E by (done || apply Hok). done. }
  destruct (element_split e rest _ Hb Hl eq_refl He) as (Hbr & Hlr & Hfr & Hbody).
  unfold mbind at 1, proc_bind at 1. unfold on. rewrite get_ber_complete by done.
  destruct e as [t lf body|t]; cbn [element_out]; [|by apply walk_stops].
  unfold mbind at 1, proc_bind at 1. cbn [become]. destruct (superfluous (Z.of_nat (length body)) lf) eqn:Es.
  { apply walk_stops; [done..|]. intros inner next. cbn [finds]. by rewrite Es. }
  destruct (constructed t) eqn:Ec; [|by apply walk_skips; [done..|apply IH; [done|done|lia]]].
  destruct (is_string_type t) eqn:Et.
  { apply walk_stops; [done..|]. intros inner next. cbn [finds]. by rewrite Es, Ec, Et. }
  destruct Hbody as (Hbb & Hlb & Hfb). unfold mbind at 1, proc_bind at 1. rewrite skip_element_header.
  apply (walk_enters t lf body rest depth f (enter_find (find_loop fuel) body (depth + 1))); try done.
  - apply enter_find_spec. intros _. apply IH; done || lia.
  - intros f1. apply IH; done || lia.
Qed.

Lemma find_ber_spec in_ f : bytes in_ -> CBS_len in_ < 2 ^ 60 -> find_post in_ 0 false (cbs_find_ber in_ 0 f).
Proof. intros Hb Hl. apply enter_find_spec. intros _. by apply find_walk_spec. Qed.
