(* ===== verification/BerConvert.v ===== *)
(** * BoringSSL: converting BER

    The DER form of a tree, and the loop that writes it. *)
From S2P Require Import Prelude CBuf CMem CProc Cbs CbsSpec Cbb CbbSpec CbbOps CbbDoc CbbKeep Ber BerSpec.

(** ** BoringSSL: the conversion of BER

    What DER says for a tree of BER, and that [cbs_convert_ber] writes exactly
    this, for every tree within the depth limit and no other input. *)

(** ** DER *)

Definition is_pieces (t : Z) : bool := constructed t && is_string_type t.

(** The tag an element has in DER. *)
Definition out_tag (t : Z) : Z := if is_pieces t then clear_constructed t else t.

(** The string whose pieces are inside an element, 0 if there is none; [s] is
    the string that the element itself is a piece of. *)
Definition child_tag (s t : Z) : Z := if s =? 0 then (if is_pieces t then clear_constructed t else 0) else s.

(** An element, or a piece of the string [s], with contents [c]. *)
Definition emit (s t : Z) (c : list Z) : option (list Z) :=
  if s =? 0 then p ← length_prefix Asn1 (Z.of_nat (length c)); Some (ident (out_tag t) ++ p ++ c)
  else if clear_constructed t =? s then Some c else None.

Fixpoint to_der (s : Z) (b : bers) : option (list Z) :=
  match b with
  | BNil => Some []
  | BCons e inner next =>
      c ← match e with
          | Definite t _ body => if constructed t then to_der (child_tag s t) inner else Some body
          | Indefinite t => to_der (child_tag s t) inner
          end;
      d ← emit s (tag_of e) c;
      n ← to_der s next;
      Some (d ++ n)
  end.

(** ** What the converter reads *)

(** [in_] is [b] up to the end of contents, or to its end. *)
Definition reads (looking : bool) (depth : Z) (in_ : CBS) (b : bers) (rest : CBS) : Prop :=
  ber_ok b /\ no_eoc b /\ depth + height b <= kMaxDepth /\
  in_ = ber_bytes b ++ (if looking then 0x00 :: 0x00 :: rest else []) /\ (looking = false -> rest = []).

(** The same for what is inside [e], which is in front of [in_]. *)
Definition reads_inner (e : element) (depth : Z) (in_ : CBS) (inner : bers) (rest : CBS) : Prop :=
  match e with
  | Definite t _ body => rest = in_ /\ if constructed t then reads false (depth + 1) body inner [] else inner = BNil
  | Indefinite _ => reads true (depth + 1) in_ inner rest
  end.

Definition contents_of (s : Z) (e : element) (inner : bers) : option (list Z) :=
  match e with
  | Definite t _ body => if constructed t then to_der (child_tag s t) inner else Some body
  | Indefinite t => to_der (child_tag s t) inner
  end.

Lemma reads_cons looking depth e in_ inner next rest x :
  element_ok e -> e <> eoc -> depth <= kMaxDepth ->
  reads_inner e depth in_ inner x -> reads looking depth x next rest ->
  reads looking depth (element_bytes e ++ in_) (BCons e inner next) rest.
Proof.
  intros He Hne Hd Hi (Hon & Hnn & Hdn & -> & Hr). unfold reads. cbn [ber_ok no_eoc height ber_bytes].
  destruct e as [t lf body|t]; cbn [reads_inner tag_of] in *.
  - destruct Hi as [<- Hi]. destruct (constructed t) eqn:Ec.
    + destruct Hi as (Hoi & Hni & Hdi & -> & _). rewrite app_nil_r in *. pose proof (height_nonneg inner).
      split_and!; try done; [lia|]. cbn [app]. by rewrite !app_assoc.
    + subst inner. pose proof (height_nonneg next). split_and!; try done; [lia|]. cbn [app]. by rewrite !app_assoc.
  - destruct Hi as (Hoi & Hni & Hdi & -> & _). destruct He as [Ht Hc]. rewrite Hc. pose proof (height_nonneg inner).
    split_and!; try done; [lia|]. by rewrite <- !app_assoc.
Qed.

(** What has been read starts with the first element. *)
Lemma reads_inv looking depth e in_ b rest :
  element_ok e -> e <> eoc -> CBS_len (element_bytes e ++ in_) < 2 ^ 60 -> reads looking depth (element_bytes e ++ in_) b rest ->
  exists inner next x, b = BCons e inner next /\ reads_inner e depth in_ inner x /\ reads looking depth x next rest.
Proof.
  intros He Hne Hl (Hok & Hno & Hd & E & Hr). destruct (ber_view b _ e in_ Hok He Hl (eq_sym E)) as [[-> Et]|(inner & next & -> & Er)].
  - exfalso. destruct looking.
    + destruct (element_inv e eoc in_ rest He eoc_ok Hl) as [? _]; [|done]. rewrite <- Et. vm_compute (element_bytes eoc). done.
    + pose proof (element_length e He). apply (f_equal length) in Et. rewrite length_app in Et. cbn [length] in Et. lia.
  - cbn [ber_ok no_eoc height] in *. destruct Hok as (_ & Hoi & Hon & Hm). destruct Hno as (_ & Hni & Hnn).
    exists inner, next, (ber_bytes next ++ (if looking then 0 :: 0 :: rest else [])). split; [done|].
    destruct e as [t lf body|t]; cbn [reads_inner tag_of element_ok] in *.
    + cbn [app] in Er. split.
      * split; [done|]. destruct (constructed t); [|done]. split_and!; try done; [lia|]. by rewrite app_nil_r.
      * split_and!; try done. lia.
    + destruct He as [_ Hc]. rewrite Hc in Hd. rewrite <- app_assoc in Er. cbn [app] in Er. split; [|split_and!; try done; lia].
      split_and!; try done. lia.
Qed.

Lemma reads_length looking depth in_ b rest : reads looking depth in_ b rest -> (length rest <= length in_)%nat.
Proof. intros (_ & _ & _ & -> & Hr). destruct looking; [|rewrite Hr by done; cbn [length]; lia]. rewrite length_app. cbn [length]. lia. Qed.

(** Input is read in one way only. *)
Lemma reads_inj looking depth in_ b b' rest rest' :
  CBS_len in_ < 2 ^ 60 -> reads looking depth in_ b rest -> reads looking depth in_ b' rest' -> b = b' /\ rest = rest'.
Proof.
  revert looking depth in_ b' rest rest'. induction b as [|e inner IHi next IHn]; intros looking depth in_ b' rest rest' Hl H H'.
  - destruct b' as [|e' inner' next'].
    + split; [done|]. destruct H as (_ & _ & _ & -> & Hr), H' as (_ & _ & _ & E & Hr'). cbn [ber_bytes app] in E.
      destruct looking; [by injection E|by rewrite Hr, Hr'].
    + exfalso. pose proof H' as (Hok & Hno & _ & E & _). cbn [ber_ok no_eoc ber_bytes] in *. rewrite <- app_assoc in E.
      destruct (reads_inv looking depth e' _ BNil rest ltac:(apply Hok) ltac:(apply Hno) ltac:(by rewrite <- E) ltac:(by rewrite <- E)) as (? & ? & ? & ? & _). done.
  - pose proof H as (Hok & Hno & _ & E & _). cbn [ber_ok no_eoc ber_bytes] in *. destruct Hok as (He & _). destruct Hno as (Hne & _).
    rewrite <- app_assoc in E. set (in' := _ ++ _) in E at 2. subst in_.
    destruct (reads_inv _ _ _ _ _ _ He Hne Hl H) as (inner0 & next0 & x & [= <- <-] & Hi & Hn).
    destruct (reads_inv _ _ _ _ _ _ He Hne Hl H') as (inner' & next' & x' & -> & Hi' & Hn').
    assert (inner = inner' /\ x = x') as [<- <-].
    { clearbody in'. destruct e as [t lf body|t]; cbn [reads_inner element_bytes] in *.
      - destruct Hi as [-> Hi], Hi' as [-> Hi']. split; [|done]. destruct (constructed t); [|congruence].
        eapply IHi; [|exact Hi|exact Hi']. unfold CBS_len in *. rewrite !length_app in Hl. lia.
      - eapply IHi; [|exact Hi|exact Hi']. unfold CBS_len in *. rewrite !length_app in Hl. lia. }
    assert (CBS_len x < 2 ^ 60) as Hlx.
    { clearbody in'. destruct e as [t lf body|t]; cbn [reads_inner element_bytes] in *; unfold CBS_len in *; rewrite !length_app in Hl.
      - destruct Hi as [-> _]. lia.
      - apply reads_length in Hi. lia. }
    destruct (IHn _ _ _ _ _ _ Hlx Hn Hn') as [-> ->]. done.
Qed.

(** ** Tags *)

Lemma constructed_clear t : constructed (clear_constructed t) = false.
Proof.
  unfold constructed, clear_constructed. rewrite <- Z.land_assoc.
  replace (Z.land (u32 (Z.lnot CBS_ASN1_CONSTRUCTED)) CBS_ASN1_CONSTRUCTED) with 0 by (vm_compute; reflexivity).
  by rewrite Z.land_0_r.
Qed.

Lemma clear_tag t : asn1_tag t -> asn1_tag (clear_constructed t).
Proof.
  unfold asn1_tag, clear_constructed. intros Ht.
  assert (Z.land t (u32 (Z.lnot CBS_ASN1_CONSTRUCTED)) = Z.land (Z.land t (u32 (Z.lnot CBS_ASN1_CONSTRUCTED))) (2 ^ 32 - 1)) as ->.
  { rewrite <- Z.land_assoc. by replace (Z.land (u32 (Z.lnot CBS_ASN1_CONSTRUCTED)) (2 ^ 32 - 1)) with (u32 (Z.lnot CBS_ASN1_CONSTRUCTED)) by (vm_compute; reflexivity). }
  rewrite (land_ones_mod _ 32) by lia. apply Z.mod_pos_bound. lia.
Qed.

Lemma out_tag_ok t : asn1_tag t -> asn1_tag (out_tag t).
Proof. unfold out_tag. case_match; [apply clear_tag|done]. Qed.

Lemma child_tag_ok s t : constructed s = false -> constructed (child_tag s t) = false.
Proof. intros Hs. unfold child_tag. repeat case_match; [apply constructed_clear|done|done]. Qed.

Lemma element_tag e : element_ok e -> asn1_tag (tag_of e).
Proof. destruct e; by intros [? _]. Qed.

(** ** The converter *)

Section Convert.
Context (realloc_ok : Z -> bool) (resizable : bool) (limit : Z).

#[local] Abbreviation open_at := (open_at resizable limit).
#[local] Abbreviation appends := (appends resizable limit).
#[local] Abbreviation hopeless := (hopeless realloc_ok resizable limit).

(** A builder that appends what [P] says of its result, and fails only when [P]
    can be had in a buffer that cannot grow. *)
Definition yields {A} (P : A -> list Z -> Prop) (c : builder A) (w : world) (pre : list Z) (a : Z) (bs : list Z) : Prop :=
  triple (c w)
    (fun x w' => exists v, P x v /\ appends w pre a bs v w')
    (fun _ => forall x v, P x v -> hopeless (Z.of_nat (length pre + length bs + length v))).

Definition read_as (s : Z) (looking : bool) (depth : Z) (in_ : CBS) (rest : CBS) (v : list Z) : Prop :=
  exists b, reads looking depth in_ b rest /\ to_der s b = Some v.

(** [convert] is right on inputs of at most [n] bytes. *)
Definition converts (n : nat) (convert : converter) : Prop := forall in_ out s looking depth w pre bs,
  bytes in_ -> CBS_len in_ < 2 ^ 60 -> (length in_ <= n)%nat -> constructed s = false -> open_at w pre out bs ->
  yields (read_as s looking depth in_) (convert in_ out s looking depth) w pre out bs.

(** What is inside [e] is written to [oc]; the result is the input behind it. *)
Definition inside (convert : converter) (e : element) (in_ : CBS) (oc s depth : Z) : builder CBS :=
  match e with
  | Indefinite _ => convert in_ oc s true (depth + 1)
  | Definite t _ body =>
      (if constructed t then convert body oc s false (depth + 1);; mret tt else CBB_add_bytes realloc_ok oc body);; mret in_
  end.

Lemma convert_contents_eq convert e in_ out oc s depth w :
  element_ok e ->
  (let '(contents, tag, header_len, _) := element_out e in
   convert_contents realloc_ok convert in_ out oc contents tag header_len s depth w)
  = (x ← inside convert e in_ oc s depth; CBB_flush realloc_ok out;; mret x) w.
Proof.
  intros He. pose proof (is_indefinite_spec e He) as Hi. destruct e as [t lf body|t]; cbn [element_out] in *; unfold convert_contents;
    rewrite Hi; cbn [inside].
  - unfold mbind at 1, proc_bind at 1. cbn [of_option]. unfold mbind at 1, proc_bind at 1. unfold on. rewrite skip_element_header.
    by rewrite proc_bind_assoc.
  - done.
Qed.

(** The contents of [e] for the string [s]. *)
Definition inner_as (s' : Z) (e : element) (depth : Z) (in_ : CBS) (x : CBS) (v : list Z) : Prop :=
  exists inner, reads_inner e depth in_ inner x /\
    match e with
    | Definite t _ body => if constructed t then to_der s' inner = Some v else v = body
    | Indefinite _ => to_der s' inner = Some v
    end.

Lemma yields_weaken {A} (P P' : A -> list Z -> Prop) c w pre a bs :
  yields P c w pre a bs -> (forall x v, P x v <-> P' x v) -> yields P' c w pre a bs.
Proof.
  intros H E. eapply triple_weaken; [exact H| |].
  - intros x w' (v & Hv & Ha). exists v. by rewrite <- E.
  - intros w' Hb x v Hv. apply (Hb x v). by rewrite E.
Qed.

Lemma inside_spec n convert e in_ oc s depth w pre bs :
  converts n convert -> element_ok e -> bytes (element_bytes e ++ in_) -> CBS_len (element_bytes e ++ in_) < 2 ^ 60 ->
  (length (element_bytes e ++ in_) <= S n)%nat -> constructed s = false -> open_at w pre oc bs ->
  yields (inner_as s e depth in_) (inside convert e in_ oc s depth) w pre oc bs.
Proof.
  intros Hc He Hb Hl Hn Hs Ho. destruct (element_split e in_ _ Hb Hl eq_refl He) as (Hbr & Hlr & Hfr & Hbody).
  unfold inner_as. destruct e as [t lf body|t]; cbn [inside reads_inner].
  - destruct Hbody as (Hbb & Hlb & Hfb). destruct (constructed t) eqn:Et.
    + specialize (Hc body oc s false (depth + 1) w pre bs Hbb Hlb ltac:(lia) Hs Ho).
      unfold yields in *. rewrite proc_bind_assoc. unfold triple, mbind, proc_bind, mret, proc_ret in *.
      destruct (convert body oc s false (depth + 1) w) as [x w'|w'|]; [| |done].
      * destruct Hc as (v & (b & Hr & Hv) & Ha). exists v. split; [|done]. exists b. split; [|done]. split; [done|].
        pose proof Hr as (_ & _ & _ & _ & Hx). by rewrite Hx in Hr.
      * intros x v (b & [_ Hr] & Hv). apply (Hc [] v). by exists b.
    + pose proof (add_bytes_spec realloc_ok resizable limit w pre oc bs body Ho ltac:(unfold CBS_len in Hlb; lia)) as H.
      unfold yields, triple, mbind, proc_bind, mret, proc_ret in *. destruct (CBB_add_bytes realloc_ok oc body w) as [x w'|w'|]; [| |done].
      * exists body. split; [|exact H]. by exists BNil.
      * intros x v (b & _ & ->). by destruct H.
  - eapply yields_weaken; [apply (Hc in_ oc s true (depth + 1)); try done; lia|]. done.
Qed.

Lemma inner_as_inj s e depth in_ x x' v v' :
  element_ok e -> bytes (element_bytes e ++ in_) -> CBS_len (element_bytes e ++ in_) < 2 ^ 60 ->
  inner_as s e depth in_ x v -> inner_as s e depth in_ x' v' -> x = x' /\ v = v'.
Proof.
  intros He Hb Hl (i & Hi & Hv) (i' & Hi' & Hv'). destruct (element_split e in_ _ Hb Hl eq_refl He) as (_ & Hlr & _ & Hbody).
  destruct e as [t lf body|t]; cbn [reads_inner] in *.
  - destruct Hi as [-> Hi], Hi' as [-> Hi']. split; [done|]. destruct (constructed t); [|congruence].
    destruct Hbody as (_ & Hlb & _). destruct (reads_inj _ _ _ _ _ _ _ Hlb Hi Hi') as [<- _]. congruence.
  - destruct (reads_inj _ _ _ _ _ _ _ Hlr Hi Hi') as [<- <-]. split; [done|congruence].
Qed.

(** The element [e] as DER writes it. *)
Definition element_as (s : Z) (e : element) (depth : Z) (in_ : CBS) (x : CBS) (v : list Z) : Prop :=
  exists c, inner_as (child_tag s (tag_of e)) e depth in_ x c /\ emit s (tag_of e) c = Some v.

Lemma yields_bind {A B} (P : A -> list Z -> Prop) (Q : A -> B -> list Z -> Prop) c k w pre a bs :
  (forall x x' v v', P x v -> P x' v' -> x = x' /\ v = v') ->
  yields P c w pre a bs ->
  (forall x v w', P x v -> open_at w' pre a (bs ++ v) -> yields (Q x) (k x) w' pre a (bs ++ v)) ->
  yields (fun y u => exists x v n, P x v /\ Q x y n /\ u = v ++ n) (x ← c; k x) w pre a bs.
Proof.
  intros Hinj Hc Hk. eapply triple_bind.
  - eapply triple_weaken; [exact Hc|intros x w' H; exact H|]. intros w' H y u (x & v & n & Hx & Hy & ->).
    eapply hopeless_mono; [exact (H x v Hx)|]. rewrite length_app. lia.
  - intros x w' (v & Hx & Ha). 
    eapply triple_weaken; [exact (Hk x v w' Hx (proj1 Ha))| |].
    + intros y w'' (n & Hy & Ha'). exists (v ++ n). split; [by exists x, v, n|]. by eapply appends_trans.
    + intros w'' H y u (x' & v' & n & Hx' & Hy & ->). destruct (Hinj _ _ _ _ Hx Hx') as [<- <-].
      eapply hopeless_mono; [exact (H y n Hy)|]. rewrite !length_app. lia.
Qed.

(** A piece of a string, or a child. *)
Lemma piece_spec n convert e in_ out s depth w pre bs :
  converts n convert -> element_ok e -> bytes (element_bytes e ++ in_) -> CBS_len (element_bytes e ++ in_) < 2 ^ 60 ->
  (length (element_bytes e ++ in_) <= S n)%nat -> constructed s = false -> open_at w pre out bs ->
  yields (inner_as s e depth in_) (x ← inside convert e in_ out s depth; CBB_flush realloc_ok out;; mret x) w pre out bs.
Proof.
  intros Hc He Hb Hl Hn Hs Ho. pose proof (inside_spec n convert e in_ out s depth w pre bs Hc He Hb Hl Hn Hs Ho) as H.
  unfold yields, triple in *. unfold mbind at 1, proc_bind at 1. destruct (inside convert e in_ out s depth w) as [x w'|w'|]; [|done..].
  destruct H as (v & Hv & Ha). rewrite (flush_open _ _ _ _ _ _ _ _ (proj1 Ha)). by exists v.
Qed.

Lemma child_element_spec n convert e in_ out depth w pre bs :
  converts n convert -> element_ok e -> bytes (element_bytes e ++ in_) -> CBS_len (element_bytes e ++ in_) < 2 ^ 60 ->
  (length (element_bytes e ++ in_) <= S n)%nat -> open_at w pre out bs ->
  yields (element_as 0 e depth in_)
    (with_local (fun ch => CBB_add_asn1 realloc_ok out ch (out_tag (tag_of e));;
       x ← inside convert e in_ ch (child_tag 0 (tag_of e)) depth; CBB_flush realloc_ok out;; mret x)) w pre out bs.
Proof.
  intros Hc He Hb Hl Hn Ho. set (t := tag_of e). set (hd := ident (out_tag t)). set (s' := child_tag 0 t).
  assert (forall x v, element_as 0 e depth in_ x v <-> exists c p, inner_as s' e depth in_ x c /\ length_prefix Asn1 (Z.of_nat (length c)) = Some p /\ v = hd ++ p ++ c) as Has.
  { intros x v. unfold element_as, emit. cbn [Z.eqb]. fold t s' hd. split.
    - intros (c & Hi & E). destruct (length_prefix _ _) as [p|] eqn:Ep; [|done]. injection E as <-. by exists c, p.
    - intros (c & p & Hi & Ep & ->). exists c. by rewrite Ep. }
  eapply yields_weaken; [|intros x v; symmetry; apply Has].
  apply (local_child_spec resizable limit w pre out bs _ _ _ Ho); [|done]. intros ch ca0 Hch Ha0 Hc0.
  assert (forall x v, (exists c p, inner_as s' e depth in_ x c /\ length_prefix Asn1 (Z.of_nat (length c)) = Some p /\ v = hd ++ p ++ c) ->
    exists c, inner_as s' e depth in_ x c /\ (length hd + 1 + length c <= length v)%nat) as Hle.
  { intros x v (c & p & Hi & Hp & ->). exists c. split; [done|]. apply (plen_prefix realloc_ok) in Hp. rewrite !length_app. cbn [plen] in Hp. lia. }
  eapply triple_bind.
  { eapply triple_weaken; [apply (add_asn1_spec realloc_ok resizable limit w pre out bs); [done|by apply out_tag_ok, element_tag|done]|intros x w' H; exact H|].
    intros w' [_ Hh] x v Hv. destruct (Hle x v Hv) as (c & _ & Hcv). eapply hopeless_mono; [exact Hh|]. fold hd. rewrite length_app. cbn. lia. }
  intros y0 w1 Hw1. fold hd in Hw1. set (pre1 := pre ++ (bs ++ hd) ++ hole Asn1).
  pose proof (inside_spec n convert e in_ ch s' depth w1 pre1 [] Hc He Hb Hl Hn ltac:(by apply child_tag_ok) (opened_child _ _ _ _ _ _ _ _ _ Hw1)) as Hin.
  unfold yields in Hin. eapply triple_bind; [eapply triple_weaken; [exact Hin|intros x w' H; exact H|]|].
  { intros w' H x v Hv. destruct (Hle x v Hv) as (c & Hi & Hcv). eapply hopeless_mono; [exact (H x c Hi)|]. unfold pre1. rewrite !length_app. cbn. lia. }
  intros x w2 (c & Hi & Ha). pose proof (flush_child_spec realloc_ok resizable limit w pre out bs hd Asn1 c ch ca0 w1 w2 Ha0 Hc0 Hw1 Ha) as Hf.
  eapply triple_bind; [eapply triple_weaken; [exact Hf|intros y w' H; exact H|]|].
  - intros w' [_ Hno] x' v (c' & p & Hi' & Hp & ->). destruct (inner_as_inj _ _ _ _ _ _ _ _ He Hb Hl Hi Hi') as [_ <-]. by rewrite Hp in Hno.
  - intros y w3 (p & Hp & H3). cbn. exists (hd ++ p ++ c). split; [by exists c, p|exact H3].
Qed.
End Convert.

(** ** BoringSSL: the loop of the conversion

    [cbs_convert_ber] as a whole: it writes the DER form of what it reads, or
    there is nothing that could be read or no room for it; the [CBB]s can
    always be released. *)

Section Loop.
Context (realloc_ok : Z -> bool) (resizable : bool) (limit : Z).

#[local] Abbreviation open_at := (open_at resizable limit).
#[local] Abbreviation hopeless := (hopeless realloc_ok resizable limit).
#[local] Abbreviation yields := (yields realloc_ok resizable limit).
#[local] Abbreviation converts := (converts realloc_ok resizable limit).

Definition run_element (convert : converter) (in_ : CBS) (out s : Z) (e : element) (depth : Z) : builder CBS :=
  let '(contents, tag, header_len, _) := element_out e in
  convert_element realloc_ok convert in_ out s contents tag header_len depth.

Lemma run_element_spec n convert e in_ out s depth w pre bs :
  converts n convert -> element_ok e -> bytes (element_bytes e ++ in_) -> CBS_len (element_bytes e ++ in_) < 2 ^ 60 ->
  (length (element_bytes e ++ in_) <= S n)%nat -> constructed s = false -> open_at w pre out bs ->
  yields (element_as s e depth in_) (run_element convert in_ out s e depth) w pre out bs.
Proof.
  intros Hc He Hb Hl Hn Hs Ho. destruct (element_out e) as [[[contents tag] header_len] found] eqn:Eo.
  assert (tag = tag_of e) as -> by (destruct e; by injection Eo).
  assert (forall oc s' w', convert_contents realloc_ok convert in_ out oc contents (tag_of e) header_len s' depth w'
     = (x ← inside realloc_ok convert e in_ oc s' depth; CBB_flush realloc_ok out;; mret x) w') as Hcc.
  { intros oc s' w'. pose proof (convert_contents_eq realloc_ok convert e in_ out oc s' depth w' He) as H. by rewrite Eo in H. }
  unfold yields, run_element. rewrite Eo. unfold convert_element. destruct (s =? 0) eqn:E0; cbn [negb].
  - apply Z.eqb_eq in E0. subst s. fold (is_pieces (tag_of e)). fold (out_tag (tag_of e)).
    pose proof (child_element_spec realloc_ok resizable limit n convert e in_ out depth w pre bs Hc He Hb Hl Hn Ho) as H.
    unfold yields, with_local in *. set (ch := fresh _) in *. unfold mbind at 1, proc_bind at 1. unfold mbind at 1, proc_bind at 1 in H.
    destruct (CBB_add_asn1 realloc_ok out ch (out_tag (tag_of e)) w) as [y w1|w1|]; [|exact H..]. rewrite <- Hcc in H.
    assert ((if is_pieces (tag_of e) then out_tag (tag_of e) else 0) = child_tag 0 (tag_of e)) as ->; [|exact H].
    unfold child_tag, out_tag. cbn [Z.eqb]. by destruct (is_pieces _).
  - assert (child_tag s (tag_of e) = s) as Ect by (unfold child_tag; by rewrite E0).
    unfold element_as, emit. rewrite E0, Ect. destruct (clear_constructed (tag_of e) =? s) eqn:Es; cbn [negb].
    + rewrite Hcc. pose proof (piece_spec realloc_ok resizable limit n convert e in_ out s depth w pre bs Hc He Hb Hl Hn Hs Ho) as H.
      eapply triple_weaken; [exact H| |].
      * intros x w' (v & Hv & Ha). exists v. split; [by exists v|done].
      * intros w' H1 x v (c & Hi & [= <-]). by apply (H1 x).
    + cbn. by intros x v (c & _ & ?).
Qed.

(** Reading an element and the rest is reading all. *)
Lemma read_as_cons s looking depth e in_ rest v :
  element_ok e -> e <> eoc -> depth <= kMaxDepth -> CBS_len (element_bytes e ++ in_) < 2 ^ 60 ->
  (exists x d n, element_as s e depth in_ x d /\ read_as s looking depth x rest n /\ v = d ++ n) <->
  read_as s looking depth (element_bytes e ++ in_) rest v.
Proof.
  intros He Hne Hd Hl. unfold element_as, inner_as, read_as. split.
  - intros (x & d & n & (c & (inner & Hi & Hc) & Em) & (next & Hr & Hn) & ->). exists (BCons e inner next).
    split; [by eapply reads_cons|]. cbn [to_der]. rewrite Hn.
    destruct e as [t lf body|t]; cbn [tag_of] in *; [destruct (constructed t)|]; [rewrite Hc|subst c|rewrite Hc]; cbn [mbind option_bind];
      rewrite Em; done.
  - intros (b & Hr & Hb). destruct (reads_inv _ _ _ _ _ _ He Hne Hl Hr) as (inner & next & x & -> & Hi & Hn). cbn [to_der] in Hb.
    destruct (match e with Definite t _ body => _ | Indefinite t => _ end) as [c|] eqn:Ec; [|done]. cbn [mbind option_bind] in Hb.
    destruct (emit s (tag_of e) c) as [d|] eqn:Em; [|done]. cbn [mbind option_bind] in Hb.
    destruct (to_der s next) as [n|] eqn:En; [|done]. injection Hb as <-.
    exists x, d, n. split; [|split; [by exists next|done]]. exists c. split; [|done]. exists inner. split; [done|].
    destruct e as [t lf body|t]; cbn [tag_of] in *; [destruct (constructed t); [done|congruence]|done].
Qed.

Lemma element_as_inj s e depth in_ x x' v v' :
  element_ok e -> bytes (element_bytes e ++ in_) -> CBS_len (element_bytes e ++ in_) < 2 ^ 60 ->
  element_as s e depth in_ x v -> element_as s e depth in_ x' v' -> x = x' /\ v = v'.
Proof.
  intros He Hb Hl (c & Hc & Ev) (c' & Hc' & Ev'). destruct (inner_as_inj _ _ _ _ _ _ _ _ He Hb Hl Hc Hc') as [<- <-].
  split; [done|congruence].
Qed.

(** What the contents of an element leave is shorter than the element and what
    is behind it. *)
Lemma element_as_rest s e depth in_ x v :
  element_ok e -> bytes (element_bytes e ++ in_) -> CBS_len (element_bytes e ++ in_) < 2 ^ 60 ->
  element_as s e depth in_ x v -> bytes x /\ CBS_len x < 2 ^ 60 /\ (length x < length (element_bytes e ++ in_))%nat.
Proof.
  intros He Hb Hl (c & (inner & Hi & _) & _). destruct (element_split e in_ _ Hb Hl eq_refl He) as (Hbr & Hlr & Hfr & _).
  destruct e as [t lf body|t]; cbn [reads_inner] in Hi.
  - destruct Hi as [-> _]. split_and!; [done|done|lia].
  - pose proof (reads_length _ _ _ _ _ Hi) as Hx. unfold CBS_len in *. split_and!; [|lia|lia].
    destruct Hi as (_ & _ & _ & -> & _). apply Forall_app in Hbr as [_ Hbr]. by do 2 apply Forall_inv_tail in Hbr.
Qed.

(** The end of what is read. *)
Lemma read_as_nil s depth : depth <= kMaxDepth -> read_as s false depth [] [] [].
Proof. intros Hd. exists BNil. split; [|done]. unfold reads. cbn. split_and!; done || lia. Qed.

Lemma read_as_eoc s depth rest : depth <= kMaxDepth -> read_as s true depth (0x00 :: 0x00 :: rest) rest [].
Proof. intros Hd. exists BNil. split; [|done]. unfold reads. cbn. split_and!; done || lia. Qed.

Lemma reads_eoc looking depth rest b x :
  CBS_len (0x00 :: 0x00 :: rest) < 2 ^ 60 -> reads looking depth (0x00 :: 0x00 :: rest) b x -> looking = true /\ b = BNil /\ x = rest.
Proof.
  intros Hl (Hok & Hno & _ & E & Hr). destruct b as [|e inner next].
  - destruct looking; [|done]. by injection E as ->.
  - exfalso. cbn [ber_ok no_eoc ber_bytes] in *. rewrite <- app_assoc in E.
    change (0 :: 0 :: rest) with (element_bytes eoc ++ rest) in E, Hl.
    destruct (element_inv eoc e rest _ eoc_ok ltac:(apply Hok) Hl E) as [<- _]. by destruct Hno.
Qed.

Lemma enter_convert_spec n loop :
  (forall in_ out s looking depth w pre bs, bytes in_ -> CBS_len in_ < 2 ^ 60 -> (length in_ <= n)%nat -> constructed s = false ->
     depth <= kMaxDepth -> open_at w pre out bs -> yields (read_as s looking depth in_) (loop in_ out s looking depth) w pre out bs) ->
  converts n (enter_convert loop).
Proof.
  intros H in_ out s looking depth w pre bs Hb Hl Hn Hs Ho. unfold yields, enter_convert. rewrite Hs.
  destruct (kMaxDepth <? depth) eqn:Ed; [|apply H; try done; lia]. cbn.
  intros x v (b & (_ & _ & Hd & _) & _). pose proof (height_nonneg b). lia.
Qed.

Lemma convert_loop_spec fuel in_ out s looking depth w pre bs :
  bytes in_ -> CBS_len in_ < 2 ^ 60 -> (length in_ <= fuel)%nat -> constructed s = false -> depth <= kMaxDepth -> open_at w pre out bs ->
  yields (read_as s looking depth in_) (convert_loop realloc_ok fuel in_ out s looking depth) w pre out bs.
Proof.
  revert in_ out s looking depth w pre bs. induction fuel as [fuel IH0] using lt_wf_ind. intros in_ out s looking depth w pre bs Hb Hl Hf Hs Hd Ho.
  destruct (decide (in_ = [])) as [->|Hne].
  { assert (convert_loop realloc_ok fuel [] out s looking depth w = (if looking then return_0 else mret []) w) as E by by destruct fuel.
    unfold yields. rewrite E. destruct looking; cbn.
    - intros x v (b & (Hok & _ & _ & Eb & _) & _). destruct (app_nil (ber_bytes b) (0 :: 0 :: x)) as [H _]. by destruct (H (eq_sym Eb)).
    - exists []. split; [by apply read_as_nil|by apply appends_nil]. }
  destruct fuel as [|fuel]; [destruct in_; done || (cbn in Hf; lia)|].
  unfold yields. cbn [convert_loop]. unfold CBS_len at 1. rewrite positive_len by done. cbn [negb].
  destruct (get_ber_cases in_ Hb Hl) as [E|(e & rest & He & ->)].
  { unfold mbind, proc_bind, on. rewrite E. cbn. intros x v (b & (Hok & _ & _ & Eb & _) & _). exfalso. destruct b as [|e inner next].
    - destruct looking; [|done]. cbn in Eb. subst in_. change (0 :: 0 :: x) with (element_bytes eoc ++ x) in E, Hl.
      rewrite get_ber_complete in E by (done || apply eoc_ok). done.
    - cbn [ber_bytes ber_ok] in *. rewrite <- app_assoc in Eb. subst in_. rewrite get_ber_complete in E by (done || apply Hok). done. }
  unfold mbind at 1, proc_bind at 1. unfold on. rewrite get_ber_complete by done.
  pose proof (is_eoc_spec e He) as Heoc. destruct (element_out e) as [[[contents tag] header_len] found] eqn:Eo. rewrite Heoc.
  case_bool_decide as Ee.
  { apply eoc_bytes in Ee; [|done]. subst e. change (element_bytes eoc ++ rest) with (0 :: 0 :: rest) in *. destruct looking; cbn.
    - exists []. split; [by apply read_as_eoc|by apply appends_nil].
    - intros x v (b & H & _). by destruct (reads_eoc _ _ _ _ _ Hl H). }
  assert (e <> eoc) as Hee by (intros ->; by apply Ee).
  destruct (element_split e rest _ Hb Hl eq_refl He) as (Hbr & Hlr & Hfr & _).
  assert (converts fuel (enter_convert (convert_loop realloc_ok fuel))) as Hconv.
  { apply enter_convert_spec. intros. apply IH0; done || lia. }
  pose proof (run_element_spec fuel _ e rest out s depth w pre bs Hconv He Hb Hl Hf Hs Ho) as Hrun.
  unfold run_element in Hrun. rewrite Eo in Hrun.
  eapply yields_weaken; [|intros x v; by apply read_as_cons].
  apply (yields_bind realloc_ok resizable limit (element_as s e depth rest) (fun x rest' n => read_as s looking depth x rest' n)
           (convert_element realloc_ok _ rest out s contents tag header_len depth)
           (fun x => convert_loop realloc_ok fuel x out s looking depth)); [intros *; by apply element_as_inj|exact Hrun|].
  intros x v w' Hx Ho'. destruct (element_as_rest _ _ _ _ _ _ He Hb Hl Hx) as (Hbx & Hlx & Hfx). apply IH0; done || lia.
Qed.

Lemma convert_ber_spec in_ out s looking w pre bs :
  bytes in_ -> CBS_len in_ < 2 ^ 60 -> constructed s = false -> open_at w pre out bs ->
  yields (read_as s looking 0 in_) (cbs_convert_ber realloc_ok in_ out s looking 0) w pre out bs.
Proof.
  intros Hb Hl Hs Ho. unfold cbs_convert_ber. apply (enter_convert_spec (length in_)); try done. intros. by apply convert_loop_spec.
Qed.
End Loop.

(** ** Releasing what has been written *)

#[local] Hint Resolve keeping_flush keeping_add_bytes : keep.

Section Keep.
Context (realloc_ok : Z -> bool).

Lemma keeping_convert_contents (convert : converter) in_ out oc contents tag hl s depth :
  (forall in_ out s looking depth, keeping (convert in_ out s looking depth)) ->
  keeping (convert_contents realloc_ok convert in_ out oc contents tag hl s depth).
Proof. intros Hc. unfold convert_contents. keeping. Qed.

Lemma keeping_convert_element (convert : converter) in_ out s contents tag hl depth :
  (forall in_ out s looking depth, keeping (convert in_ out s looking depth)) ->
  keeping (convert_element realloc_ok convert in_ out s contents tag hl depth).
Proof.
  intros Hc. unfold convert_element. destruct (negb (s =? 0)).
  - destruct (negb _); [by apply keeping_base, base_only_return_0|by apply keeping_convert_contents].
  - apply (keeping_child realloc_ok (Element _) out (fun ch => convert_contents realloc_ok convert in_ out ch contents tag hl _ depth)).
    intros ch. by apply keeping_convert_contents.
Qed.

Lemma keeping_convert_loop fuel in_ out s looking depth : keeping (convert_loop realloc_ok fuel in_ out s looking depth).
Proof.
  revert in_ out s looking depth. induction fuel as [|fuel IH]; intros in_ out s looking depth; cbn [convert_loop]; [keeping|].
  assert (forall in_ out s looking depth, keeping (enter_convert (convert_loop realloc_ok fuel) in_ out s looking depth)) as Hc
    by (intros *; unfold enter_convert; keeping).
  assert (forall in_ contents tag hl, keeping (convert_element realloc_ok (enter_convert (convert_loop realloc_ok fuel)) in_ out s contents tag hl depth))
    by (intros *; by apply keeping_convert_element).
  keeping.
Qed.

Lemma keeping_convert_ber in_ out s looking depth : keeping (cbs_convert_ber realloc_ok in_ out s looking depth).
Proof. unfold cbs_convert_ber, enter_convert. pose proof keeping_convert_loop. keeping. Qed.
End Keep.
