(* ===== verification/BerString.v ===== *)
(** * BoringSSL: the functions of ber.c as a whole

    Results are DER and builders are released; strings in pieces. *)
From S2P Require Import Prelude CBuf CMem CProc Cbs CbsSpec Cbb CbbSpec CbbOps DerInt CbbDoc CbbKeep Ber BerSpec BerConvert.

(** ** BoringSSL: the functions of ber.c as a whole

    The converted bytes are DER again; a function that collects its result in a
    builder of its own releases it on every error; the chunks of a string. *)

(** ** The result is DER *)

Lemma is_pieces_clear t : is_pieces (clear_constructed t) = false.
Proof. unfold is_pieces. by rewrite constructed_clear. Qed.

Lemma is_pieces_out t : is_pieces (out_tag t) = false.
Proof. unfold out_tag. destruct (is_pieces t) eqn:E; [apply is_pieces_clear|done]. Qed.

Lemma prefix_der n p : 0 <= n -> length_prefix Asn1 n = Some p -> n < 2 ^ 32 /\ p = der_length n.
Proof. intros Hn. cbn. destruct (n <=? _) eqn:E; [|done]. intros [= <-]. split; [lia|done]. Qed.

(** An element of DER with the given contents. *)
Lemma der_element t c inner next :
  asn1_tag t -> is_pieces t = false -> Z.of_nat (length c) < 2 ^ 32 ->
  (if constructed t then c = ber_bytes inner else inner = BNil) -> ber_ok inner -> is_der inner -> ber_ok next -> is_der next ->
  let b := BCons (Definite t (der_length (Z.of_nat (length c))) c) inner next in
  ber_ok b /\ is_der b /\ ber_bytes b = ident t ++ der_length (Z.of_nat (length c)) ++ c ++ ber_bytes next.
Proof.
  intros Ht Hp Hc Hi Hoi Hdi Hon Hdn b. unfold b. cbn [ber_ok is_der ber_bytes element_bytes element_ok]. split_and!; try done.
  - apply ber_length_der. lia.
  - apply superfluous_der.
  - cbn [app]. by rewrite <- !app_assoc.
Qed.

(** The conversion makes DER, no deeper than the input. *)
Lemma to_der_is_der b d :
  ber_ok b -> to_der 0 b = Some d -> exists b', ber_ok b' /\ is_der b' /\ ber_bytes b' = d /\ height b' <= height b.
Proof.
  revert d. induction b as [|e inner IHi next IHn]; intros d; cbn [ber_ok to_der height].
  { intros _ [= <-]. by exists BNil. }
  intros (He & Hoi & Hon & Hm) H.
  destruct (match e with Definite t _ body => _ | Indefinite t => _ end) as [c|] eqn:Ec; [|done]. cbn [mbind option_bind] in H.
  unfold emit in H. cbn [Z.eqb] in H. set (t := tag_of e) in *.
  destruct (length_prefix Asn1 _) as [p|] eqn:Ep; [|done]. cbn [mbind option_bind] in H.
  destruct (to_der 0 next) as [n|]; [|done]. injection H as <-. apply prefix_der in Ep as [Hc ->]; [|lia].
  destruct (IHn n Hon eq_refl) as (next' & Hon' & Hdn & <- & Hhn). pose proof (out_tag_ok t (element_tag e He)) as Ht.
  assert (exists inner', ber_ok inner' /\ is_der inner' /\ (if constructed (out_tag t) then c = ber_bytes inner' else inner' = BNil) /\
            (if constructed (out_tag t) then 1 + height inner' else 0) <= (if constructed t then 1 + height inner else 0)) as (inner' & Hoi' & Hdi & Hci & Hhi).
  { pose proof (height_nonneg inner) as H0. destruct (is_pieces t) eqn:Epc.
    { exists BNil. unfold out_tag. rewrite Epc, constructed_clear. split_and!; try done. destruct (constructed t); lia. }
    assert (out_tag t = t) as -> by (unfold out_tag; by rewrite Epc).
    destruct (constructed t) eqn:Ect; [|exists BNil; by split_and!].
    assert (to_der 0 inner = Some c) as Hin.
    { assert (child_tag 0 t = 0) as E0 by (unfold child_tag; cbn [Z.eqb]; by rewrite Epc).
      unfold t in *. destruct e as [t' lf body|t']; cbn [tag_of] in *; rewrite E0 in Ec; [by rewrite Ect in Ec|done]. }
    destruct (IHi c Hoi Hin) as (inner' & ? & ? & <- & ?). exists inner'. split_and!; done || lia. }
  exists (BCons (Definite (out_tag t) (der_length (Z.of_nat (length c))) c) inner' next').
  destruct (der_element (out_tag t) c inner' next' Ht (is_pieces_out t) Hc Hci Hoi' Hdi Hon' Hdn) as (H1 & H2 & H3).
  split_and!; [done|done| |].
  - rewrite H3. by rewrite <- !app_assoc.
  - cbn [height tag_of]. lia.
Qed.

(** ** Collecting bytes in a local builder *)

Lemma or_cleanup_spec {A} a (c : builder A) w P (B : Prop) :
  triple (c w) P (fun _ => B) ->
  match c w with Bad w' => exists w'', CBB_cleanup a w' = Done tt w'' | _ => True end ->
  triple (or_cleanup a c w) P (fun _ => B).
Proof.
  intros Ht Hc. unfold or_cleanup. destruct (c w) as [x w'|w'|]; [done| |done]. destruct Hc as [w'' E].
  by rewrite (bind_Done _ _ _ _ _ E).
Qed.

(** Why there is no memory for [n] bytes. *)
Definition no_memory (realloc_ok : Z -> bool) (buf_ok base_ok : bool) (n : Z) : Prop :=
  buf_ok = false \/ base_ok = false \/ (exists m, realloc_ok m = false) \/ 2 ^ 64 <= n.

Section Collect.
Context (realloc_ok : Z -> bool) (buf_ok base_ok : bool).

Lemma init_cases a n w :
  ((buf_ok = false \/ base_ok = false) /\
     exists w' w'', CBB_init buf_ok base_ok a n w = Bad w' /\ CBB_cleanup a w' = Done tt w'') \/
  CBB_init buf_ok base_ok a n w = CBB_init true true a n w.
Proof.
  unfold CBB_init, CBB_zero. rewrite !set_cbb_bind. rewrite !andb_false_r. set (w0 := mk_world _ _).
  destruct (cleanup_spec a w0 zero_cbb) as (w'' & E & _); [cbn [w0 cbbs]; by rewrite lookup_insert_eq|done|].
  unfold cbb_init. destruct buf_ok; cbn [negb andb]; rewrite ?andb_false_r, ?andb_true_r.
  - destruct base_ok; cbn [negb]; [by right|left; split; [tauto|by eexists _, w'']].
  - destruct (0 <? n); [left; split; [tauto|by eexists _, w'']|]. destruct base_ok; cbn [negb]; [by right|left; split; [tauto|by eexists _, w'']].
Qed.

Lemma collect_spec {A C} (body : Z -> builder A) (ret : A -> list Z -> C) n w (P : A -> list Z -> Prop) :
  (forall a, keeping (body a)) ->
  (forall a w', open_at true n w' [] a [] -> yields realloc_ok true n P (body a) w' [] a []) ->
  triple (with_local (fun a => or_cleanup a (
            CBB_init buf_ok base_ok a n;; x ← body a; storage ← CBB_finish realloc_ok true a;
            data ← of_option (mapM id storage); mret (ret x data))) w)
    (fun c w' => exists x v, P x v /\ c = ret x v /\ w' = mk_world None (cbbs w))
    (fun _ => forall x v, P x v -> no_memory realloc_ok buf_ok base_ok (Z.of_nat (length v))).
Proof.
  intros Hk Hy. unfold with_local. set (a := fresh (dom (cbbs w))).
  assert (cbbs w !! a = None) as Ha by (apply not_elem_of_dom, is_fresh).
  set (rest := x ← body a; storage ← CBB_finish realloc_ok true a; data ← of_option (mapM id storage); mret (ret x data)).
  assert (triple (or_cleanup a (CBB_init buf_ok base_ok a n;; rest) w)
    (fun c w' => exists x v, P x v /\ c = ret x v /\ w' = mk_world None (<[a := zero_cbb]> (cbbs w)))
    (fun _ => forall x v, P x v -> no_memory realloc_ok buf_ok base_ok (Z.of_nat (length v)))) as H.
  2: { unfold triple in *. destruct (or_cleanup a (CBB_init buf_ok base_ok a n;; rest) w) as [c w'|w'|]; [|done..].
       destruct H as (x & v & Hx & -> & ->). exists x, v. cbn [base cbbs]. by rewrite delete_insert_id. }
  clearbody a. destruct (init_cases a n w) as [(Hno & w' & w'' & E & Hcl)|E].
  { apply or_cleanup_spec; rewrite (bind_Bad _ _ _ _ E); [|by exists w'']. cbn. intros x v _. unfold no_memory. tauto. }
  destruct (builder_start (Growing n) a w) as (b & Es & Hg). cbn [start growing room_of] in *. rewrite <- E in Es.
  set (w0 := mk_world (Some b) (<[a:=root]> (cbbs w))) in *.
  assert (cbbs w0 !! a = Some root) as Hroot by (cbn [w0 cbbs]; by rewrite lookup_insert_eq).
  assert (keeping rest) as Hkr.
  { unfold rest. apply keeping_bind; [apply Hk|]. intros x. apply keeping_bind; [apply keeping_finish|]. keeping. }
  apply or_cleanup_spec; rewrite (bind_Done _ _ _ _ _ Es).
  2: { pose proof (kept_cleanup a w0 _ root (Hkr w0) Hroot eq_refl) as Hcl. by destruct (rest w0). }
  assert (open_at true n w0 [] a []) as Ho by (by apply (open_at_intro _ _ _ b root)).
  unfold rest. eapply triple_bind; [eapply triple_weaken; [exact (Hy a w0 Ho)|intros x w' H; exact H|]|].
  { intros w' H x v Hx. destruct (H x v Hx) as [[? _]|[?|?]]; [done|right; right; by left|right; right; right; done]. }
  intros x w1 (v & Hx & Ha1). cbn [app] in Ha1. destruct Ha1 as [Ho1 Hc1].
  pose proof (finish_spec realloc_ok (Growing n) w1 a v) as Hf. cbn [growing room_of] in Hf.
  rewrite (bind_Done _ _ _ _ _ (Hf Ho1 ltac:(by rewrite Hc1))). unfold mbind, proc_bind, of_option. rewrite mapM_Some. cbn.
  exists x, v. rewrite Hc1. cbn [w0 cbbs]. by rewrite insert_insert_eq.
Qed.
End Collect.

(** ** BoringSSL: strings in pieces

    [CBS_get_asn1_implicit_string] reads a string in one element or in
    primitive chunks within one element. *)

(** ** Looking at the tag *)

Lemma peek_spec cbs t :
  asn1_tag t -> bytes cbs ->
  exists p, CBS_peek_asn1_tag cbs t = Some p /\ (p = true <-> exists rest, cbs = ident t ++ rest).
Proof.
  intros Ht Hb. pose proof (ident_nonempty t) as Hi. unfold CBS_peek_asn1_tag, CBS_len. destruct (Z.of_nat (length cbs) <? 1) eqn:E.
  - exists false. split; [done|]. split; [done|]. intros [rest ->]. apply Z.ltb_lt in E. rewrite length_app in E. lia.
  - destruct (parse_tag_cases cbs Hb) as [[rest E1]|(t' & rest & Ht' & -> & E1)]; rewrite E1.
    + exists false. split; [done|]. split; [done|]. intros [r ->]. by rewrite parse_tag_complete in E1.
    + exists (t =? t'). split; [done|]. rewrite Z.eqb_eq. split; [intros ->; by exists rest|].
      intros [r Er]. rewrite Er, parse_tag_complete in E1 by done. congruence.
Qed.

(** ** Chunks *)

Definition chunk_ok (c : list Z) : Prop := Z.of_nat (length c) < 2 ^ 32.
Definition chunks_bytes (t : Z) (cs : list (list Z)) : list Z := concat (der t <$> cs).

Lemma chunks_bytes_cons t c cs : chunks_bytes t (c :: cs) = der t c ++ chunks_bytes t cs.
Proof. done. Qed.

Section Chunks.
Context (realloc_ok : Z -> bool) (resizable : bool) (limit : Z).

Definition chunks_as (t : Z) (child : list Z) (v : list Z) : Prop :=
  exists cs, Forall chunk_ok cs /\ child = chunks_bytes t cs /\ v = concat cs.

Lemma chunks_loop_spec fuel child a t w pre bs :
  asn1_tag t -> bytes child -> CBS_len child < 2 ^ 60 -> (length child <= fuel)%nat -> open_at resizable limit w pre a bs ->
  yields realloc_ok resizable limit (fun _ v => chunks_as t child v) (chunks_loop realloc_ok fuel child a t) w pre a bs.
Proof.
  intros Ht. revert child w bs. induction fuel as [|fuel IH]; intros child w bs Hb Hl Hf Ho;
    (destruct (decide (child = [])) as [->|Hne];
      [exists []; split; [by exists []|by apply appends_nil]|]); [destruct child; done || (cbn in Hf; lia)|].
  unfold yields. cbn [chunks_loop]. unfold CBS_len at 1. rewrite positive_len by done. cbn [negb].
  unfold mbind at 1, proc_bind at 1. unfold on. destruct (get_asn1_cases t child Hb Hl) as [[r E]|(c & rest & Hok & ->)].
  { rewrite E. cbn. intros _ v (cs & Hcs & Ec & _). exfalso. destruct Hcs as [|c cs Hc Hcs]; [done|]. subst child.
    unfold chunks_bytes in *. cbn [fmap list_fmap concat] in *. rewrite get_asn1_complete in E by done. done. }
  rewrite get_asn1_complete by done. pose proof (proj1 (Forall_app _ _ _) Hb) as [Hbd Hbr].
  assert (Hlc := der_length_app t c rest). assert (0 < der_header_len t c) as Hh by (pose proof (ident_nonempty t); unfold der_header_len; lia).
  assert (CBS_len rest < 2 ^ 60 /\ (length rest <= fuel)%nat /\ Z.of_nat (length c) < 2 ^ 64) as (Hlr & Hfr & Hc64) by (unfold CBS_len in *; lia).
  eapply yields_weaken; [eapply (yields_bind realloc_ok resizable limit (fun (_ : unit) v => v = c) (fun _ _ n => chunks_as t rest n)
      (CBB_add_bytes realloc_ok a c) (fun _ => chunks_loop realloc_ok fuel rest a t))|].
  - by intros [] [] v v' -> ->.
  - eapply triple_weaken; [by apply (add_bytes_spec realloc_ok resizable limit w pre a bs c)| |].
    + intros x w' H. by exists c.
    + by intros w' [_ Hh'] x v ->.
  - intros [] v w' -> Ho'. by apply IH.
  - intros [] u. split.
    + intros ([] & v & n & -> & (cs & Hcs & -> & ->) & ->). exists (c :: cs). split_and!; [|done|done]. constructor; [apply Hok|done].
    + intros (cs & Hcs & E & ->). destruct Hcs as [|c' cs Hc' Hcs].
      { exfalso. apply (f_equal CBS_len) in E. unfold CBS_len in *. cbn [chunks_bytes fmap list_fmap concat length] in E. lia. }
      rewrite chunks_bytes_cons in E. destruct (der_inj t t c c' rest (chunks_bytes t cs) Hok) as (_ & <- & ->); [by split|done|done|].
      exists tt, c, (concat cs). split_and!; [done|by exists cs|done].
Qed.
End Chunks.

Lemma keeping_chunks realloc_ok fuel child a t : keeping (chunks_loop realloc_ok fuel child a t).
Proof. revert child. induction fuel as [|fuel IH]; intros child; cbn [chunks_loop]; [keeping|]. pose proof keeping_add_bytes. keeping. Qed.

(** ** The function *)

(** A string in chunks, with something behind it. *)
Definition in_chunks (outer inner : Z) (chunks : list (list Z)) (rest : list Z) (in_ : CBS) : Prop :=
  Forall chunk_ok chunks /\ der_ok (Z.lor outer CBS_ASN1_CONSTRUCTED) (chunks_bytes inner chunks) /\
  in_ = der (Z.lor outer CBS_ASN1_CONSTRUCTED) (chunks_bytes inner chunks) ++ rest.

Lemma or_cleanup_ext {A} a (c d : builder A) w : c w = d w -> or_cleanup a c w = or_cleanup a d w.
Proof. intros H. unfold or_cleanup. by rewrite H. Qed.

Lemma lor_constructed t :
  asn1_tag t -> constructed t = false ->
  asn1_tag (Z.lor t CBS_ASN1_CONSTRUCTED) /\ constructed (Z.lor t CBS_ASN1_CONSTRUCTED) = true.
Proof.
  unfold asn1_tag, constructed. intros Ht Hc. apply negb_false_iff, Z.eqb_eq in Hc. split.
  - assert (Z.lor t CBS_ASN1_CONSTRUCTED = Z.lor t CBS_ASN1_CONSTRUCTED mod 2 ^ 32) as ->; [|apply Z.mod_pos_bound; lia].
    rewrite <- land_ones_mod, Z.land_lor_distr_l by lia. rewrite land_ones_mod, Z.mod_small by lia. done.
  - by rewrite Z.land_lor_distr_l, Hc.
Qed.

Section String.
Context (realloc_ok : Z -> bool) (buf_ok base_ok : bool).

(** The constructed form. *)
Definition chunks_body (in_ : CBS) (outer inner result : Z) : builder CBS :=
  '(child, in_) ← on in_ (CBS_get_asn1 (Z.lor outer CBS_ASN1_CONSTRUCTED));
  chunks_loop realloc_ok (length child) child result inner;; mret in_.

Lemma chunks_body_spec n in_ outer inner a w pre bs :
  asn1_tag outer -> constructed outer = false -> asn1_tag inner -> bytes in_ -> CBS_len in_ < 2 ^ 60 -> open_at true n w pre a bs ->
  yields realloc_ok true n (fun rest v => exists cs, in_chunks outer inner cs rest in_ /\ v = concat cs)
    (chunks_body in_ outer inner a) w pre a bs.
Proof.
  intros Ht Hc Hi Hb Hl Ho. destruct (lor_constructed outer Ht Hc) as [Ht' _]. set (t := Z.lor outer CBS_ASN1_CONSTRUCTED) in *.
  unfold yields, chunks_body. fold t. unfold mbind at 1, proc_bind at 1. unfold on.
  destruct (get_asn1_cases t in_ Hb Hl) as [[r E]|(c & rest & Hok & ->)].
  { rewrite E. cbn. intros rest v (cs & (_ & Hok & ->) & _). fold t in Hok, Hl, E. by rewrite get_asn1_complete in E. }
  rewrite get_asn1_complete by done. pose proof (der_bytes_body _ _ _ Hb) as Hbc. pose proof (der_length_app t c rest) as Hdl.
  assert (CBS_len c < 2 ^ 60) as Hlc by (unfold CBS_len, der_header_len in *; lia).
  pose proof (chunks_loop_spec realloc_ok true n (length c) c a inner w pre bs Hi Hbc Hlc ltac:(done) Ho) as H.
  unfold yields, triple, mbind, proc_bind in *. destruct (chunks_loop realloc_ok (length c) c a inner w) as [[] w'|w'|]; [| |done].
  - destruct H as (v & (cs & Hcs & -> & ->) & Ha). exists (concat cs). split; [by exists cs|done].
  - intros r v (cs & (Hcs & Hok' & E) & ->). destruct (der_inj _ _ _ _ _ _ Hok Hok' Hl E) as (_ & -> & ->). apply (H tt). by exists cs.
Qed.

Lemma keeping_chunks_body in_ outer inner a : keeping (chunks_body in_ outer inner a).
Proof. unfold chunks_body. pose proof keeping_chunks. keeping. Qed.

(** The string in one element or in chunks, and nothing else. *)
Lemma implicit_string_spec in_ outer inner w :
  bytes in_ -> CBS_len in_ < 2 ^ 60 -> asn1_tag outer -> asn1_tag inner ->
  constructed outer = false -> constructed inner = false -> is_string_type inner = true ->
  triple (CBS_get_asn1_implicit_string realloc_ok buf_ok base_ok in_ outer inner w)
    (fun '(rest, out, storage) w' =>
       match storage with
       | None => der_ok outer out /\ in_ = der outer out ++ rest /\ w' = w
       | Some s => s = out /\ w' = mk_world None (cbbs w) /\ exists chunks, in_chunks outer inner chunks rest in_ /\ out = concat chunks
       end)
    (fun _ => (forall out rest, der_ok outer out -> in_ <> der outer out ++ rest) /\
       forall chunks rest, in_chunks outer inner chunks rest in_ ->
         no_memory realloc_ok buf_ok base_ok (Z.of_nat (length (concat chunks)))).
Proof.
  intros Hb Hl Ht Hi Hc Hci Hs. destruct (lor_constructed outer Ht Hc) as [Ht' Hct]. set (t := Z.lor outer CBS_ASN1_CONSTRUCTED) in *.
  unfold CBS_get_asn1_implicit_string. rewrite Hc, Hci, Hs. cbn [orb negb].
  destruct (peek_spec in_ outer Ht Hb) as (p & -> & Hp). unfold mbind at 1, proc_bind at 1. cbn [of_option].
  assert (forall chunks rest, in_chunks outer inner chunks rest in_ -> p = false) as Hpf.
  { intros chunks rest (_ & _ & E). fold t in E. destruct p; [|done]. destruct (proj1 Hp eq_refl) as [r Er]. exfalso. rewrite E in Er. unfold der in Er.
    rewrite <- app_assoc in Er. pose proof (fun l => parse_tag_complete t l Ht') as E1. specialize (E1 (der_length (Z.of_nat (length (chunks_bytes inner chunks))) ++ chunks_bytes inner chunks ++ rest)).
    rewrite <- app_assoc in Er. rewrite Er, parse_tag_complete in E1 by done. congruence. }
  destruct p.
  - unfold mbind, proc_bind, on. destruct (get_asn1_cases outer in_ Hb Hl) as [[r E]|(c & rest & Hok & ->)].
    + rewrite E. cbn. split; [|intros chunks rest H; by specialize (Hpf chunks rest H)].
      intros out rest Hok ->. by rewrite get_asn1_complete in E.
    + rewrite get_asn1_complete by done. cbn. done.
  - rewrite (with_local_ext _ (fun a => or_cleanup a (CBB_init buf_ok base_ok a (CBS_len in_);; x ← chunks_body in_ outer inner a;
        storage ← CBB_finish realloc_ok true a; data ← of_option (mapM id storage); mret (x, CBS_init data, Some data)))).
    2: { intros a. apply or_cleanup_ext. unfold chunks_body, mbind, proc_bind, mret, proc_ret, on. destruct (CBB_init _ _ _ _ _) as [x w1| |]; [|done..].
         destruct (CBS_get_asn1 _ in_); [|done..]. by destruct (chunks_loop _ _ _ _ _ _). }
    eapply triple_weaken; [apply (collect_spec realloc_ok buf_ok base_ok (chunks_body in_ outer inner) (fun x data => (x, CBS_init data, Some data)) (CBS_len in_) w
       (fun rest v => exists cs, in_chunks outer inner cs rest in_ /\ v = concat cs))| |].
    + intros a. apply keeping_chunks_body.
    + intros a w' Ho. by apply chunks_body_spec.
    + intros c w' (x & v & (cs & Hcs & ->) & -> & ->). split_and!; try done. by exists cs.
    + intros w2 H. split.
      * intros out rest Hok ->. enough (false = true) by done. apply Hp. unfold der. rewrite <- app_assoc. by eexists.
      * intros chunks rest Hcs. apply (H rest (concat chunks)). by exists chunks.
Qed.
End String.
