(* ===== verification/BerTheorems.v ===== *)
(** * BoringSSL: what the conversion of BER promises

    DER is returned as it is, BER that the walk shows is converted, and every
    other input is dealt with safely; and the examples of what the code does
    not do. *)
From S2P Require Import Prelude CBuf CMem CProc Cbs CbsSpec Cbb CbbSpec CbbOps DerInt CbbDoc CbbKeep Ber BerSpec BerConvert BerString.

(** Input in which the walk finds nothing starts with DER. *)
Lemma finds_first e inner next :
  ber_ok (BCons e inner next) -> finds false (BCons e inner next) = false ->
  exists body, element_bytes e = der (tag_of e) body /\ der_ok (tag_of e) body /\ ber_bytes (BCons e inner next) = der (tag_of e) body ++ ber_bytes next.
Proof.
  cbn [ber_ok finds ber_bytes]. intros (He & _) H. destruct e as [t lf body|t]; [|done]. exists body. cbn [tag_of].
  destruct (superfluous _ lf) eqn:E; [done|]. unfold superfluous in E. apply bool_decide_eq_false in E.
  destruct (decide (lf = der_length (Z.of_nat (length body)))) as [->|]; [|done]. destruct He as [Ht Hlf].
  split_and!; [done|split; [done|apply ber_length_range in Hlf; lia]|done].
Qed.

(** ** BER that needs a conversion

    By internal.h these are the elements of indefinite length and the strings
    in pieces.  The walk of the code goes on behind the contents of an element
    and then forgets what it has found inside ([nested_ber_is_missed]).  A tree
    shows that it is not DER if one of them is not inside an element that
    another one follows; for the first element itself that is always so. *)
Fixpoint shown (b : bers) : bool :=
  match b with
  | BNil => false
  | BCons e inner next =>
      match e with
      | Indefinite _ => true
      | Definite t _ _ =>
          constructed t && (is_string_type t || shown inner && match next with BNil => true | BCons _ _ _ => false end)
          || shown next
      end
  end.

Lemma finds_shown b f : shown b = true -> finds f b = true.
Proof.
  revert f. induction b as [|e inner IHi next IHn]; intros f; [done|]. cbn [shown finds]. destruct e as [t lf body|t]; [|done].
  destruct (superfluous _ lf); [done|]. destruct (constructed t); cbn [andb orb]; [|apply IHn].
  intros H. apply orb_true_iff in H as [H|H].
  - apply orb_true_iff in H as [->|H]; [done|]. apply andb_true_iff in H as [Hi Hn]. destruct next; [|done].
    cbn [finds]. by rewrite IHi, orb_true_r.
  - by rewrite IHn, orb_true_r.
Qed.

Section Whole.
Context (realloc_ok : Z -> bool) (buf_ok base_ok : bool).

#[local] Abbreviation ber_to_der := (CBS_asn1_ber_to_der realloc_ok buf_ok base_ok).

(** What the function does once it knows whether a conversion is needed. *)
Lemma convert_needed in_ w :
  bytes in_ -> CBS_len in_ < 2 ^ 60 ->
  triple (with_local (fun cbb => or_cleanup cbb (
            CBB_init buf_ok base_ok cbb (CBS_len in_);; in_ ← cbs_convert_ber realloc_ok in_ cbb 0 false 0;
            storage ← CBB_finish realloc_ok true cbb; out_storage ← of_option (mapM id storage);
            mret (in_, CBS_init out_storage, Some out_storage))) w)
    (fun '(rest, out, storage) w' => storage = Some out /\ rest = [] /\ w' = mk_world None (cbbs w) /\
       exists b, reads false 0 in_ b [] /\ to_der 0 b = Some out)
    (fun _ => forall b d, ber_ok b -> no_eoc b -> height b <= kMaxDepth -> in_ = ber_bytes b -> to_der 0 b = Some d ->
       no_memory realloc_ok buf_ok base_ok (Z.of_nat (length d))).
Proof.
  intros Hb Hl. eapply triple_weaken;
    [apply (collect_spec realloc_ok buf_ok base_ok (fun a => cbs_convert_ber realloc_ok in_ a 0 false 0)
              (fun x data => (x, CBS_init data, Some data)) (CBS_len in_) w (read_as 0 false 0 in_))| |].
  - intros a. apply keeping_convert_ber.
  - intros a w' Ho. by apply convert_ber_spec.
  - intros c w' (x & v & (b & Hr & Hv) & -> & ->). pose proof Hr as (_ & _ & _ & _ & Hx). rewrite (Hx eq_refl) in *.
    split_and!; [done..|by exists b].
  - intros w' H b d Hok Hno Hh -> Hd. apply (H [] d). exists b. split; [|done]. unfold reads. rewrite app_nil_r. split_and!; done || lia.
Qed.

Lemma ber_to_der_spec in_ w :
  bytes in_ -> CBS_len in_ < 2 ^ 60 ->
  triple (ber_to_der in_ w)
    (fun '(rest, out, storage) w' =>
       match storage with
       | None => (exists t body, der_ok t body /\ out = der t body /\ in_ = out ++ rest) /\ w' = w /\
           forall b, ber_ok b -> in_ = ber_bytes b -> finds false b = false
       | Some s => s = out /\ rest = [] /\ w' = mk_world None (cbbs w) /\
           exists b, reads false 0 in_ b [] /\ finds false b = true /\ to_der 0 b = Some out
       end)
    (fun _ => forall b, ber_ok b -> height b <= kMaxDepth -> in_ = ber_bytes b ->
       if finds false b then no_eoc b -> forall d, to_der 0 b = Some d -> no_memory realloc_ok buf_ok base_ok (Z.of_nat (length d))
       else b = BNil).
Proof.
  intros Hb Hl. pose proof (find_ber_spec in_ false Hb Hl) as Hf. unfold CBS_asn1_ber_to_der. unfold mbind at 1, proc_bind at 1. unfold on at 1.
  unfold find_post, triple in Hf. destruct (cbs_find_ber in_ 0 false) as [[] f|f|]; [| |done].
  2: { cbn. intros b Hok Hh E. specialize (Hf b Hok E). lia. }
  destruct f; cbn [negb].
  - eapply triple_weaken; [by apply convert_needed| |].
    + intros [[rest out] storage] w' (-> & -> & -> & b & Hr & Hd). split_and!; [done..|].
      exists b. split_and!; try done. destruct Hr as (Hok & _ & _ & E & _). rewrite app_nil_r in E. by rewrite <- (Hf b Hok E).
    + intros w' H b Hok Hh E. rewrite <- (Hf b Hok E). intros Hno d Hd. by apply (H b).
  - unfold mbind, proc_bind, on. destruct (any_element_cases in_ Hb Hl) as [E|(t & body & rest & Hok & ->)].
    + rewrite E. cbn. intros b Hok Hh Eb. rewrite <- (Hf b Hok Eb). destruct b as [|e inner next]; [done|]. exfalso.
      destruct (finds_first e inner next Hok (eq_sym (Hf _ Hok Eb))) as (body & _ & Hdo & Ed). rewrite Ed in Eb. subst in_. by rewrite any_element_complete in E.
    + rewrite any_element_complete by done. cbn. split_and!; [by exists t, body|done|]. intros b Hok' Eb. symmetry. by apply Hf.
Qed.

Lemma der_unchanged_spec e inner next w :
  let b := BCons e inner next in
  ber_ok b -> is_der b -> height b <= kMaxDepth -> bytes (ber_bytes b) -> CBS_len (ber_bytes b) < 2 ^ 60 ->
  ber_to_der (ber_bytes b) w = Done (ber_bytes next, element_bytes e, None) w.
Proof.
  intros b Hok Hd Hh Hb Hl. pose proof (ber_to_der_spec (ber_bytes b) w Hb Hl) as H. pose proof (finds_der b Hd) as Hf.
  unfold triple in H. destruct (ber_to_der (ber_bytes b) w) as [[[rest out] storage] w'|w'|]; [| |done].
  - destruct (finds_first e inner next Hok Hf) as (body & Ee & Hde & Eb). fold b in Eb. destruct storage as [s|].
    + destruct H as (_ & _ & _ & b' & (Hok' & _ & _ & E & _) & Hf' & _). exfalso. rewrite app_nil_r in E.
      pose proof (find_ber_spec (ber_bytes b) false Hb Hl) as H. unfold find_post, triple in H.
      destruct (cbs_find_ber (ber_bytes b) 0 false) as [[] f|f|]; [|by specialize (H b Hok eq_refl); lia|done].
      rewrite <- (H b' Hok' E) in Hf'. rewrite <- (H b Hok eq_refl) in Hf. congruence.
    + destruct H as ((t & body' & Hdo & -> & E) & -> & _). rewrite Eb in E, Hl. destruct (der_inj _ _ _ _ _ _ Hde Hdo Hl E) as (<- & <- & <-).
      by rewrite Ee.
  - specialize (H b Hok Hh eq_refl). rewrite Hf in H. done.
Qed.

(** One element that shows its BER is converted. *)
Lemma shown_converted e inner in_ w :
  let b := BCons e inner BNil in
  bytes in_ -> CBS_len in_ < 2 ^ 60 -> in_ = ber_bytes b -> ber_ok b -> no_eoc b -> height b <= kMaxDepth -> shown b = true ->
  triple (ber_to_der in_ w)
    (fun '(rest, out, storage) w' => to_der 0 b = Some out /\ storage = Some out /\ rest = [] /\ w' = mk_world None (cbbs w))
    (fun _ => forall d, to_der 0 b = Some d -> no_memory realloc_ok buf_ok base_ok (Z.of_nat (length d))).
Proof.
  intros b Hb Hl E Hok Hno Hh Hs. pose proof (finds_shown b false Hs) as Hf. eapply triple_weaken; [by apply ber_to_der_spec| |].
  - intros [[rest out] [s|]] w'; [|intros (_ & _ & Hn); rewrite (Hn b Hok E) in Hf; done].
    intros (-> & -> & -> & b' & Hr & _ & Hd). assert (reads false 0 in_ b []) as Hr0 by (split_and!; [done|done|lia|by rewrite app_nil_r|done]).
    destruct (reads_inj _ _ _ _ _ _ _ Hl Hr0 Hr) as [<- _]. done.
  - intros w' H. specialize (H b Hok Hh E). rewrite Hf in H. by apply H.
Qed.

(** On every input: the first element, or DER. *)
Lemma ber_to_der_safe in_ w :
  bytes in_ -> CBS_len in_ < 2 ^ 60 ->
  triple (ber_to_der in_ w)
    (fun '(rest, out, storage) w' =>
       match storage with
       | None => in_ = out ++ rest /\ w' = w
       | Some s => s = out /\ w' = mk_world None (cbbs w) /\ exists d, ber_ok d /\ is_der d /\ out = ber_bytes d
       end)
    (fun _ => True).
Proof.
  intros Hb Hl. eapply triple_weaken; [by apply ber_to_der_spec| |done].
  intros [[rest out] [s|]] w'.
  - intros (-> & _ & -> & b & (Hok & _) & _ & Hd). split_and!; [done..|].
    destruct (to_der_is_der b out Hok Hd) as (d & Hokd & Hdd & <- & _). by exists d.
  - intros ((t & body & _ & _ & E) & -> & _). done.
Qed.
End Whole.

(** ** The theorems *)

(** C27. CBS_asn1_ber_to_der.  Of input that is DER, elements nested at most
    [kMaxDepth] deep, it returns the first element as it is and leaves the
    others, without allocating; DER is meant as in the file ([is_der]): lengths,
    and strings in one piece, of the types that it converts.  Of one element of BER that shows an indefinite
    length or a string in pieces, it returns exactly what DER says for it -
    definite lengths in the shortest form, strings in one piece - in memory of
    its own and consumes it; it returns 0 only when pieces of another type or a
    length that does not fit leave no DER, or when there is no memory.  On every
    other input it is defined too, what it gives without allocating is the
    beginning of the input, and what it gives in memory of its own is DER. *)
Theorem ber_to_der_exact realloc_ok buf_ok base_ok in_ w :
  bytes in_ -> CBS_len in_ < 2 ^ 60 ->
  let run := CBS_asn1_ber_to_der realloc_ok buf_ok base_ok in_ w in
  (forall e inner next, let b := BCons e inner next in
     in_ = ber_bytes b -> ber_ok b -> is_der b -> height b <= kMaxDepth -> run = Done (ber_bytes next, element_bytes e, None) w) /\
  (forall e inner, let b := BCons e inner BNil in
     in_ = ber_bytes b -> ber_ok b -> no_eoc b -> height b <= kMaxDepth -> shown b = true ->
     triple run
       (fun '(rest, out, storage) w' => to_der 0 b = Some out /\ storage = Some out /\ rest = [] /\ w' = mk_world None (cbbs w))
       (fun _ => forall d, to_der 0 b = Some d -> no_memory realloc_ok buf_ok base_ok (Z.of_nat (length d)))) /\
  triple run
    (fun '(rest, out, storage) w' =>
       match storage with
       | None => in_ = out ++ rest /\ w' = w
       | Some s => s = out /\ w' = mk_world None (cbbs w) /\ exists d, ber_ok d /\ is_der d /\ out = ber_bytes d
       end)
    (fun _ => True).
Proof.
  intros Hb Hl run. split_and!.
  - intros e inner next b -> Hok Hd Hh. by apply der_unchanged_spec.
  - intros e inner b E Hok Hno Hh Hs. by apply shown_converted.
  - by apply ber_to_der_safe.
Qed.

(** What the conversion makes is DER, of elements nested no deeper; and DER, the
    result of a conversion included, is returned unchanged, one element at a
    time, without allocating. *)
Theorem ber_to_der_idempotent realloc_ok buf_ok base_ok b d w :
  ber_ok b -> height b <= kMaxDepth -> to_der 0 b = Some d -> bytes d -> CBS_len d < 2 ^ 60 ->
  exists b', ber_ok b' /\ is_der b' /\ d = ber_bytes b' /\
    forall e inner next, b' = BCons e inner next ->
      CBS_asn1_ber_to_der realloc_ok buf_ok base_ok d w = Done (ber_bytes next, element_bytes e, None) w.
Proof.
  intros Hok Hh Hd Hb Hl. destruct (to_der_is_der b d Hok Hd) as (b' & Hok' & Hd' & <- & Hh'). exists b'. split_and!; [done..|].
  intros e inner next ->. apply der_unchanged_spec; done || lia.
Qed.

(** CBS_get_asn1_implicit_string accepts exactly a DER element with the outer tag
    and, with the constructed bit, a DER element that consists of DER elements
    with the inner tag; it returns the contents or the contents of the chunks
    joined in memory of its own, and 0 for everything else or for want of
    memory. *)
Theorem implicit_string_exact realloc_ok buf_ok base_ok in_ outer inner w :
  bytes in_ -> CBS_len in_ < 2 ^ 60 -> asn1_tag outer -> asn1_tag inner ->
  constructed outer = false -> constructed inner = false -> is_string_type inner = true ->
  triple (CBS_get_asn1_implicit_string realloc_ok buf_ok base_ok in_ outer inner w)
    (fun '(rest, out, storage) w' =>
       match storage with
       | None => der_ok outer out /\ in_ = der outer out ++ rest /\ w' = w
       | Some s => s = out /\ w' = mk_world None (cbbs w) /\ exists chunks, in_chunks outer inner chunks rest in_ /\ out = concat chunks
       end)
    (fun _ => (forall out rest, der_ok outer out -> in_ <> der outer out ++ rest) /\
       forall chunks rest, in_chunks outer inner chunks rest in_ ->
         no_memory realloc_ok buf_ok base_ok (Z.of_nat (length (concat chunks)))).
Proof. apply implicit_string_spec. Qed.

(** ** Witnesses *)

Definition no_cbbs : world := mk_world None ∅.

(** A SEQUENCE of indefinite length with a string in two pieces and an
    INTEGER, as a tree. *)
Definition sample_tree : bers :=
  BCons (Indefinite 0x20000010)
    (BCons (Indefinite 0x20000004) (BCons (Definite 4 [1] [7]) BNil (BCons (Definite 4 [1] [8]) BNil BNil))
       (BCons (Definite 2 [1] [5]) BNil BNil)) BNil.

Definition sample_ber : list Z := [0x30; 0x80; 0x24; 0x80; 4; 1; 7; 4; 1; 8; 0; 0; 2; 1; 5; 0; 0].
Definition sample_der : list Z := [0x30; 7; 4; 2; 7; 8; 2; 1; 5].

Lemma sample_ok : ber_ok sample_tree.
Proof.
  assert (forall n, 0 <= n < 128 -> ber_length n [n]) as Hd by (intros n Hn; by left).
  cbn [sample_tree ber_ok element_ok length]. change (constructed 4) with false. change (constructed 2) with false.
  split_and!; try done; try (apply Hd; lia); unfold asn1_tag; lia.
Qed.

(** The DER of the sample, as a tree. *)
Definition sample_der_tree : bers :=
  BCons (Definite 0x20000010 [7] [4; 2; 7; 8; 2; 1; 5])
    (BCons (Definite 4 [2] [7; 8]) BNil (BCons (Definite 2 [1] [5]) BNil BNil)) BNil.

Lemma sample_der_ok : ber_ok sample_der_tree.
Proof.
  assert (forall n, 0 <= n < 128 -> ber_length n [n]) as Hd by (intros n Hn; by left).
  cbn [sample_der_tree ber_ok element_ok length]. change (constructed 4) with false. change (constructed 2) with false.
  split_and!; try done; try (apply Hd; lia); unfold asn1_tag; lia.
Qed.

(** The sample is converted, and its DER returned as it is. *)
Lemma ber_to_der_exact_witness :
  triple (CBS_asn1_ber_to_der (fun _ => true) true true sample_ber no_cbbs)
    (fun '(rest, out, storage) w' => to_der 0 sample_tree = Some out /\ storage = Some out /\ rest = [] /\ w' = mk_world None (cbbs no_cbbs))
    (fun _ => forall d, to_der 0 sample_tree = Some d -> no_memory (fun _ => true) true true (Z.of_nat (length d))) /\
  to_der 0 sample_tree = Some sample_der /\
  CBS_asn1_ber_to_der (fun _ => true) true true sample_der no_cbbs = Done ([], sample_der, None) no_cbbs.
Proof.
  destruct (ber_to_der_exact (fun _ => true) true true sample_ber no_cbbs) as (_ & Hber & _); [decided|vm_compute; reflexivity|].
  destruct (ber_to_der_exact (fun _ => true) true true sample_der no_cbbs) as (Hder & _); [decided|vm_compute; reflexivity|].
  specialize (Hber (Indefinite 0x20000010)
    (BCons (Indefinite 0x20000004) (BCons (Definite 4 [1] [7]) BNil (BCons (Definite 4 [1] [8]) BNil BNil))
       (BCons (Definite 2 [1] [5]) BNil BNil))).
  specialize (Hder (Definite 0x20000010 [7] [4; 2; 7; 8; 2; 1; 5])
    (BCons (Definite 4 [2] [7; 8]) BNil (BCons (Definite 2 [1] [5]) BNil BNil)) BNil).
  split; [|split; [vm_compute; reflexivity|]].
  - refine (Hber _ sample_ok _ _ _); [vm_compute; reflexivity|cbn; split_and!; done|vm_compute; discriminate|vm_compute; reflexivity].
  - refine (Hder _ sample_der_ok _ _); [vm_compute; reflexivity|cbn; split_and!; done|vm_compute; discriminate].
Defined.

Lemma ber_to_der_idempotent_witness :
  to_der 0 sample_tree = Some sample_der /\
  exists b', ber_ok b' /\ is_der b' /\ sample_der = ber_bytes b' /\
    forall e inner next, b' = BCons e inner next ->
      CBS_asn1_ber_to_der (fun _ => true) true true sample_der no_cbbs = Done (ber_bytes next, element_bytes e, None) no_cbbs.
Proof.
  split; [vm_compute; reflexivity|].
  apply (ber_to_der_idempotent (fun _ => true) true true sample_tree sample_der no_cbbs);
    [apply sample_ok|vm_compute; discriminate|vm_compute; reflexivity|decided|vm_compute; reflexivity].
Defined.

(** [[1] IMPLICIT OCTET STRING] in two chunks, and something behind it. *)
Definition sample_chunks : list Z := [0xa1; 6; 4; 1; 7; 4; 1; 8; 3].

Lemma implicit_string_exact_witness :
  CBS_get_asn1_implicit_string (fun _ => true) true true sample_chunks 0x80000001 4 no_cbbs = Done ([3], [7; 8], Some [7; 8]) no_cbbs /\
  triple (CBS_get_asn1_implicit_string (fun _ => true) true true sample_chunks 0x80000001 4 no_cbbs)
    (fun '(rest, out, storage) w' =>
       match storage with
       | None => der_ok 0x80000001 out /\ sample_chunks = der 0x80000001 out ++ rest /\ w' = no_cbbs
       | Some s => s = out /\ w' = mk_world None (cbbs no_cbbs) /\ exists chunks, in_chunks 0x80000001 4 chunks rest sample_chunks /\ out = concat chunks
       end)
    (fun _ => (forall out rest, der_ok 0x80000001 out -> sample_chunks <> der 0x80000001 out ++ rest) /\
       forall chunks rest, in_chunks 0x80000001 4 chunks rest sample_chunks ->
         no_memory (fun _ => true) true true (Z.of_nat (length (concat chunks)))).
Proof.
  split; [vm_compute; reflexivity|].
  apply (implicit_string_exact (fun _ => true) true true sample_chunks 0x80000001 4 no_cbbs);
    [decided|vm_compute; reflexivity|unfold asn1_tag; lia|unfold asn1_tag; lia|vm_compute; reflexivity..].
Defined.

(** ** What the code does not do *)

(** The walk goes on after the walk of a child has found BER, so that the next
    element overwrites the answer: a string in pieces two levels down in front
    of an INTEGER is returned as it is.  Without the INTEGER it is converted. *)
Lemma nested_ber_is_missed :
  CBS_asn1_ber_to_der (fun _ => true) true true [0x30; 10; 0x30; 5; 0x24; 3; 4; 1; 7; 2; 1; 5] no_cbbs
    = Done ([], [0x30; 10; 0x30; 5; 0x24; 3; 4; 1; 7; 2; 1; 5], None) no_cbbs /\
  CBS_asn1_ber_to_der (fun _ => true) true true [0x30; 7; 0x30; 5; 0x24; 3; 4; 1; 7] no_cbbs
    = Done ([], [0x30; 5; 0x30; 3; 4; 1; 7], Some [0x30; 5; 0x30; 3; 4; 1; 7]) no_cbbs.
Proof. split; vm_compute; reflexivity. Qed.

(** A conversion takes all of the input, not the first element of it. *)
Lemma trailing_elements_are_converted :
  CBS_asn1_ber_to_der (fun _ => true) true true [0x24; 0x80; 4; 1; 7; 0; 0; 2; 1; 9] no_cbbs
    = Done ([], [4; 1; 7; 2; 1; 9], Some [4; 1; 7; 2; 1; 9]) no_cbbs.
Proof. vm_compute. reflexivity. Qed.

(** A length that is not in the shortest form is converted as well. *)
Lemma superfluous_length_is_converted :
  CBS_asn1_ber_to_der (fun _ => true) true true [4; 0x81; 1; 7] no_cbbs = Done ([], [4; 1; 7], Some [4; 1; 7]) no_cbbs.
Proof. vm_compute. reflexivity. Qed.
