(* ===== verification/Asn1Theorems.v ===== *)
(** * BoringSSL: what the ASN.1 strings, integers, bit strings and times promise

    The arithmetic of the calendar, the grammar of times, the round trips
    through text and contents octets, and examples of what the code does at the
    edges. *)
From S2P Require Import Prelude CBuf CMem CProc Cbs CbsSpec Bn BnSpec DerInt Asn1String Asn1Int Asn1IntSpec Asn1Bits Calendar Asn1Time Asn1TimeSpec Asn1TimeText Asn1TimePrint Asn1Object.

#[local] Ltac Zify.zify_post_hook ::= Z.to_euclidean_division_equations.

(** An allocator of the examples: the new bytes hold a pattern. *)
Definition patterned (n : Z) : option (list Z) := if n <? 0 then None else Some (replicate (Z.to_nat n) 170).

Lemma patterned_size n b : patterned n = Some b -> Z.of_nat (length b) = n.
Proof. unfold patterned. destruct (n <? 0) eqn:E; [done|]. intros H. injection H as <-. rewrite length_replicate. lia. Qed.

(** Setting one bit after another; the list has what the calls return. *)
Record bit_op : Type := mk_bit_op { op_malloc : Z -> option (list Z); op_bit : Z; op_value : bool }.

Definition op_ok (op : bit_op) : Prop := 0 <= op_bit op /\ forall n b, op_malloc op n = Some b -> Z.of_nat (length b) = n.

Fixpoint set_bits (s : asn1_string) (ops : list bit_op) : option (list bool * asn1_string) :=
  match ops with
  | [] => Some ([], s)
  | op :: ops' =>
      r ← ASN1_BIT_STRING_set_bit (op_malloc op) (Some s) (op_bit op) (op_value op);
      s ← r.2;
      q ← set_bits s ops';
      Some (r.1 :: q.1, q.2)
  end.

(** The same on a set of numbers: the calls that failed change nothing. *)
Fixpoint bits_after (f : Z -> bool) (ops : list bit_op) (oks : list bool) : Z -> bool :=
  match ops, oks with
  | op :: ops', ok :: oks' => bits_after (fun n => if (ok : bool) && (n =? op_bit op) then op_value op else f n) ops' oks'
  | _, _ => f
  end.

Lemma bits_after_ext ops oks f g n : (forall n, 0 <= n -> f n = g n) -> 0 <= n -> bits_after f ops oks n = bits_after g ops oks n.
Proof.
  revert oks f g. induction ops as [|op ops IH]; intros [|ok oks] f g H Hn; cbn [bits_after]; try by apply H.
  apply IH; [|done]. intros m Hm. by rewrite H.
Qed.

Lemma set_bits_spec ops s bs : bit_string s bs -> Forall op_ok ops ->
  exists oks s' bs', set_bits s ops = Some (oks, s') /\ bit_string s' bs' /\ stype s' = stype s /\
    Forall2 (fun op ok => ok = false -> op_malloc op (op_bit op / 8 + 1) = None) ops oks /\
    forall n, 0 <= n -> bit bs' n = bits_after (bit bs) ops oks n.
Proof.
  revert s bs. induction ops as [|op ops IH]; intros s bs Hs Ho; cbn [set_bits].
  { exists [], s, bs. split_and!; [done|done|done|constructor|done]. }
  apply Forall_cons in Ho as [[Hn Hm] Ho].
  destruct (set_bit_spec (op_malloc op) Hm s bs (op_bit op) (op_value op) Hs Hn) as (ok & s1 & bs1 & E & Hs1 & _ & Ht & Hv).
  rewrite E. cbn [mbind option_bind fst snd]. destruct (IH s1 bs1 Hs1 Ho) as (oks & s' & bs' & E' & Hs' & Ht' & Hf & Hb). rewrite E'. cbn [mbind option_bind fst snd].
  exists (ok :: oks), s', bs'. split; [done|]. split; [done|]. split; [congruence|]. split.
  - constructor; [|done]. intros ->. by destruct Hv.
  - intros n Hn'. rewrite Hb by done. cbn [bits_after]. apply bits_after_ext; [|done]. intros m Hm'. destruct ok; [by rewrite Hv|by destruct Hv as [_ ->]].
Qed.

(** ** Times *)

(** C31. Adding days and seconds to a broken-down time is addition on the time line:
    the Julian day of the code is that of the calendar, and the result is the
    calendar date of the sum, refused outside the years 1900 to 9999. *)
Theorem gmtime_adj_exact t od os : tm_ok t -> offset_ok od os ->
  OPENSSL_gmtime_adj t od os = Some (in_years 1900 9999 (OPENSSL_gmtime (seconds t + SECS_PER_DAY * od + os))) /\
  forall t', OPENSSL_gmtime_adj t od os = Some (Some t') ->
    tm_ok t' /\ valid_date (tm_date t') /\ seconds t' = seconds t + SECS_PER_DAY * od + os.
Proof.
  intros Ht Ho. rewrite (gmtime_adj_spec t od os Ht Ho). split; [reflexivity|]. generalize (seconds t + SECS_PER_DAY * od + os). intros x t' E. apply (inj Some) in E. unfold in_years in E.
  destruct (OPENSSL_gmtime x) as [r|] eqn:Eg; [|discriminate]. cbn [mbind option_bind] in E. destruct ((1900 <=? _) && _) eqn:Ey; [|discriminate]. apply (inj Some) in E. subst t'.
  apply andb_true_iff in Ey as [Ey1 Ey2]. apply Z.leb_le in Ey1, Ey2. destruct (gmtime_ok x r Eg ltac:(lia)) as (H1 & _ & H2 & H3). exact (conj H1 (conj H2 H3)).
Qed.

Lemma gmtime_adj_exact_witness :
  OPENSSL_gmtime_adj (mk_tm 59 59 23 28 1 124) 0 1 = Some (Some (mk_tm 0 0 0 29 1 124)).
Proof.
  assert (tm_ok (mk_tm 59 59 23 28 1 124)) as Hok by (constructor; cbn; lia). assert (offset_ok 0 1) as Ho by (unfold offset_ok; lia).
  rewrite (proj1 (gmtime_adj_exact _ 0 1 Hok Ho)). vm_compute. reflexivity.
Defined.

(** The grammar of RFC 5280 and X.680 as the code has it. *)
Definition time_grammar (type : Z) (bs : list Z) : Prop :=
  type = V_ASN1_UTCTIME /\ (exists vs z, stamp utc_bounds vs z /\ bs = fields_text vs ++ zone_text z) \/
  type = V_ASN1_GENERALIZEDTIME /\ (exists vs f z, gen_stamp vs f z /\ bs = fields_text vs ++ fraction_text f ++ zone_text z).

Lemma accepts_grammar type bs : accepts type bs = true <-> time_grammar type bs.
Proof.
  unfold accepts, time_grammar. destruct (Z.eqb_spec type V_ASN1_GENERALIZEDTIME) as [->|Hg]; [|destruct (Z.eqb_spec type V_ASN1_UTCTIME) as [->|Hu]].
  - rewrite bool_decide_eq_true. split.
    + intros [[[vs f] z] E]. right. split; [done|]. exists vs, f, z. by apply parse_gen_spec.
    + intros [[H _]|[_ (vs & f & z & H)]]; [done|]. apply parse_gen_spec in H. by exists (vs, f, z).
  - rewrite bool_decide_eq_true. split.
    + intros [[vs z] E]. left. split; [done|]. exists vs, z. by apply parse_utc_spec.
    + intros [[_ (vs & z & H)]|[H _]]; [|done]. apply parse_utc_spec in H. by exists (vs, z).
  - split; [done|]. by intros [[H _]|[H _]].
Qed.

(** C32. A text is accepted exactly if it is in the grammar, and the structure then
    has the fields of the text moved by the offset; the text of any other
    string is refused, and no text is read past its end. *)
Theorem time_text_exact s type bs : time_string s type bs ->
  (exists b, ASN1_TIME_check s = Some b /\ (b = true <-> time_grammar type bs)) /\
  forall now u,
    match text_tm type bs with
    | Some t => asn1_time_to_tm now (Some s) (Some u) = Done tt (Some t) /\ tm_ok t
    | None => exists st, asn1_time_to_tm now (Some s) (Some u) = Bad st
    end.
Proof.
  intros Hs. split; [exists (accepts type bs); split; [by apply time_check_spec|apply accepts_grammar]|]. intros now u.
  pose proof (time_to_tm_ref now s type bs u Hs) as H. destruct (text_tm type bs) as [t|] eqn:E; [|done]. split; [done|]. by eapply text_tm_ok.
Qed.

(** 6 May 1945, 23:45:40, in the zone one hour behind. *)
Definition gen_example : list Z := [49; 57; 52; 53; 48; 53; 48; 54; 50; 51; 52; 53; 52; 48; 46; 53; 45; 48; 49; 48; 48].
Definition text_object (type : Z) (bs : list Z) : asn1_string := mk_string (Z.of_nat (length bs)) type (Some (bs ++ [0])) 0.

Lemma text_object_ok type bs : bytes bs -> time_string (text_object type bs) type bs.
Proof. intros Hb. split; [done|]. split; [done|]. split; [done|]. by exists []. Qed.

Lemma gen_example_bytes : bytes gen_example.
Proof. apply plain_bytes. repeat (constructor; [unfold in_u; lia|]). constructor. Qed.

Lemma gen_example_value : text_tm V_ASN1_GENERALIZEDTIME gen_example = Some (mk_tm 40 45 0 7 4 45).
Proof. vm_compute. reflexivity. Qed.

Lemma time_text_exact_witness :
  asn1_time_to_tm 0 (Some (text_object V_ASN1_GENERALIZEDTIME gen_example)) (Some (mk_tm 0 0 0 0 0 0)) = Done tt (Some (mk_tm 40 45 0 7 4 45)).
Proof.
  pose proof (proj2 (time_text_exact _ _ _ (text_object_ok V_ASN1_GENERALIZEDTIME gen_example gen_example_bytes)) 0 (mk_tm 0 0 0 0 0 0)) as H.
  rewrite gen_example_value in H. exact (proj1 H).
Defined.

(** C33. The text of a time that [ASN1_TIME_adj] writes is read back as that very
    time, whichever of the two types it chooses; it returns 0 only if the time
    is out of range or memory runs out, and leaves the string as it was. *)
Theorem time_adj_roundtrip malloc s t od os t0 :
  (forall n b, malloc n = Some b -> Z.of_nat (length b) = n) ->
  sized_opt s -> OPENSSL_gmtime t = Some t0 -> 0 <= tm_year t0 + 1900 <= 1000000 -> offset_ok od os ->
  exists ok r, ASN1_TIME_adj malloc s t od os = Some (ok, r) /\
    if ok : bool then
      exists str ts, r = Some str /\ reads_as str ts /\ seconds ts = t + SECS_PER_DAY * od + os /\ tm_ok ts
    else r = s /\ forall ts, OPENSSL_gmtime (t + SECS_PER_DAY * od + os) = Some ts -> 1900 <= tm_year ts + 1900 <= 9999 -> no_memory malloc.
Proof.
  intros Hm Hs Et Hy Ho. pose proof (time_adj_spec malloc Hm s t od os t0 Hs Et Hy Ho) as H.
  destruct (moved t od os) as [ts|] eqn:Em.
  - destruct (moved_ok t od os ts t0 Et Hy Em) as (Hok & _ & Hsec & Hg). destruct H as [(str & E & Hr & _)|[E Hn]].
    + exists true, (Some str). split; [done|]. by exists str, ts.
    + exists false, s. split; [done|]. split; [done|]. intros ts' Hg' Hy'. destruct Hn as [Hn|Hn]; [done|]. rewrite Hg in Hg'. apply (inj Some) in Hg'. subst ts'. clear -Hn Hy'. lia.
  - exists false, s. split; [done|]. split; [done|]. intros ts Hg Hy'. exfalso. unfold moved in Em.
    destruct ((od =? 0) && (os =? 0)) eqn:E0.
    + apply andb_true_iff in E0 as [E1 E2]. apply Z.eqb_eq in E1 as ->. apply Z.eqb_eq in E2 as ->. rewrite Et in Em. discriminate.
    + unfold in_years in Em. rewrite Hg in Em. cbn [mbind option_bind] in Em. by rewrite (proj2 (Z.leb_le 1900 _)), (proj2 (Z.leb_le _ 9999)) in Em by lia.
Qed.

(** 1 March 2050 from the last second of February. *)
Lemma time_adj_roundtrip_witness :
  exists ok r, ASN1_TIME_adj patterned None 2529791999 0 1 = Some (ok, r) /\
    if ok : bool then
      exists str ts, r = Some str /\ reads_as str ts /\ seconds ts = 2529791999 + SECS_PER_DAY * 0 + 1 /\ tm_ok ts
    else r = None /\ forall ts, OPENSSL_gmtime (2529791999 + SECS_PER_DAY * 0 + 1) = Some ts -> 1900 <= tm_year ts + 1900 <= 9999 -> no_memory patterned.
Proof.
  apply (time_adj_roundtrip patterned None 2529791999 0 1 (mk_tm 59 59 23 1 2 150)); [exact patterned_size|exact I|vm_compute; reflexivity|cbn; lia|unfold offset_ok; lia].
Defined.

(** [ASN1_TIME_diff] and [ASN1_UTCTIME_cmp_time_t] work on the seconds of the
    times: the whole days and the rest, both with the sign of the difference,
    and the sign alone; a time that cannot be read gives the error value. *)
Theorem time_diff_exact undef now from to rf rt :
  is_time now from rf -> is_time now to rt ->
  match rf, rt with
  | Some f, Some t =>
      exists day sec, ASN1_TIME_diff undef now from to = Some (Some (day, sec)) /\
        seconds t - seconds f = SECS_PER_DAY * day + sec /\ Z.abs sec < SECS_PER_DAY /\ 0 <= day * sec
  | _, _ => ASN1_TIME_diff undef now from to = Some None
  end /\
  forall s bs t t0, time_string s V_ASN1_UTCTIME bs -> OPENSSL_gmtime t = Some t0 -> 0 <= tm_year t0 + 1900 <= 1000000 ->
    ASN1_UTCTIME_cmp_time_t undef s t =
      Some (match text_tm V_ASN1_UTCTIME bs with Some ts => Z.sgn (seconds ts - t) | None => -2 end).
Proof.
  intros Hf Ht. split; [|by intros; eapply cmp_time_t_spec]. pose proof (time_diff_spec undef now from to rf rt Hf Ht) as E.
  destruct rf as [f|]; [|exact E]. destruct rt as [t|]; [|exact E]. do 2 eexists. split; [exact E|].
  apply day_split.
Qed.

(** 1 January 1950 and 31 December 2049, 23:59:59. *)
Definition utc_first_text : list Z := [53; 48; 48; 49; 48; 49; 48; 48; 48; 48; 90].
Definition utc_last_text : list Z := [52; 57; 49; 50; 51; 49; 50; 51; 53; 57; 53; 57; 90].

Lemma utc_texts_bytes : bytes utc_first_text /\ bytes utc_last_text.
Proof. split; apply plain_bytes; repeat (constructor; [unfold in_u; lia|]); constructor. Qed.

Lemma utc_text_time now bs : bytes bs -> is_time now (Some (text_object V_ASN1_UTCTIME bs)) (text_tm V_ASN1_UTCTIME bs).
Proof. intros H. exists V_ASN1_UTCTIME, bs. split; [by apply text_object_ok|reflexivity]. Qed.

Lemma utc_text_values :
  text_tm V_ASN1_UTCTIME utc_first_text = Some (mk_tm 0 0 0 1 0 50) /\
  text_tm V_ASN1_UTCTIME utc_last_text = Some (mk_tm 59 59 23 31 11 149).
Proof. vm_compute. split; reflexivity. Qed.

Lemma time_diff_exact_witness :
  exists day sec,
    ASN1_TIME_diff (mk_tm 0 0 0 0 0 0) 0 (Some (text_object V_ASN1_UTCTIME utc_last_text)) (Some (text_object V_ASN1_UTCTIME utc_first_text)) = Some (Some (day, sec)) /\
    -3155759999 = SECS_PER_DAY * day + sec /\ Z.abs sec < SECS_PER_DAY /\ 0 <= day * sec.
Proof.
  assert (is_time 0 (Some (text_object V_ASN1_UTCTIME utc_last_text)) (Some (mk_tm 59 59 23 31 11 149))) as Hf.
  { rewrite <- (proj2 utc_text_values). apply utc_text_time, (proj2 utc_texts_bytes). }
  assert (is_time 0 (Some (text_object V_ASN1_UTCTIME utc_first_text)) (Some (mk_tm 0 0 0 1 0 50))) as Ht.
  { rewrite <- (proj1 utc_text_values). apply utc_text_time, (proj1 utc_texts_bytes). }
  destruct (proj1 (time_diff_exact (mk_tm 0 0 0 0 0 0) 0 _ _ _ _ Hf Ht)) as (day & sec & E & Hs & H). exists day, sec. split; [exact E|]. split; [|exact H].
  rewrite <- Hs. vm_compute. reflexivity.
Defined.

(** [ASN1_TIME_to_generalizedtime] gives a GeneralizedTime that stands for the
    same time, offset and fraction kept; it returns 0 exactly for a text outside the grammar
    or without memory, and then the caller's string is as it was. *)
Theorem to_generalizedtime_exact malloc t type bs out :
  (forall n b, malloc n = Some b -> Z.of_nat (length b) = n) ->
  time_string t type bs -> Z.of_nat (length bs) + 3 < INT_MAX ->
  match out with Some o => sized o /\ stype o = V_ASN1_GENERALIZEDTIME | None => True end ->
  exists ok r, ASN1_TIME_to_generalizedtime malloc t out = Some (ok, r) /\
    if ok : bool then
      time_grammar type bs /\ exists g bs', r = Some g /\ time_string g V_ASN1_GENERALIZEDTIME bs' /\ time_grammar V_ASN1_GENERALIZEDTIME bs' /\
        forall now u, match text_tm type bs with
                      | Some tm => asn1_time_to_tm now (Some g) (Some u) = Done tt (Some tm) /\ asn1_time_to_tm now (Some t) (Some u) = Done tt (Some tm)
                      | None => exists st, asn1_time_to_tm now (Some g) (Some u) = Bad st
                      end
    else r = out /\ (time_grammar type bs -> no_room malloc t).
Proof.
  intros Hm Hs Hl Ho. pose proof (to_generalizedtime_spec malloc Hm t type bs out Hs Hl Ho) as H. pose proof (accepts_grammar type bs) as Ha.
  destruct (accepts type bs) eqn:Ea; [|exists false, out; split; [exact H|]; split; [done|]; intros Hg; by apply Ha in Hg].
  destruct H as [(g & E & Hg)|[Hn E]]; [|by exists false, out].
  exists true, (Some g). split; [exact E|]. split; [by apply Ha|]. exists g, (generalized type bs). split; [done|]. split; [done|].
  pose proof (generalized_text type bs Ea) as Et. split; [apply accepts_grammar; by apply generalized_accepted|].
  intros now u. pose proof (time_to_tm_ref now g _ _ u Hg) as H1. pose proof (time_to_tm_ref now t _ _ u Hs) as H2. rewrite Et in H1.
  by destruct (text_tm type bs).
Qed.

Lemma to_generalizedtime_exact_witness :
  exists ok r, ASN1_TIME_to_generalizedtime patterned (text_object V_ASN1_UTCTIME utc_last_text) None = Some (ok, r) /\
    if ok : bool then
      time_grammar V_ASN1_UTCTIME utc_last_text /\ exists g bs', r = Some g /\ time_string g V_ASN1_GENERALIZEDTIME bs' /\ time_grammar V_ASN1_GENERALIZEDTIME bs' /\
        forall now u, match text_tm V_ASN1_UTCTIME utc_last_text with
                      | Some tm => asn1_time_to_tm now (Some g) (Some u) = Done tt (Some tm) /\ asn1_time_to_tm now (Some (text_object V_ASN1_UTCTIME utc_last_text)) (Some u) = Done tt (Some tm)
                      | None => exists st, asn1_time_to_tm now (Some g) (Some u) = Bad st
                      end
    else r = None /\ (time_grammar V_ASN1_UTCTIME utc_last_text -> no_room patterned (text_object V_ASN1_UTCTIME utc_last_text)).
Proof.
  apply (to_generalizedtime_exact patterned _ V_ASN1_UTCTIME utc_last_text None patterned_size); [apply text_object_ok, (proj2 utc_texts_bytes)|cbn; unfold INT_MAX; lia|exact I].
Defined.

(** ** Integers *)

(** C34. [i2c_ASN1_INTEGER] writes the shortest two's complement form of the value,
    in exactly the room it announces, and [c2i_ASN1_INTEGER] reads it back as
    the same value; of any other contents it makes the integer they denote. *)
Theorem integer_octets_roundtrip malloc a s0 s v :
  (forall n b, malloc n = Some b -> Z.of_nat (length b) = n) ->
  target malloc a = Some s0 -> is_int s v -> Z.of_nat (length (int_body v)) <= INT_MAX / 2 ->
  i2c_ASN1_INTEGER (Some s) None = Some (Z.of_nat (length (int_body v)), None) /\
  (forall pre old post, length old = length (int_body v) ->
    i2c_ASN1_INTEGER (Some s) (Some (pre ++ old ++ post, Z.of_nat (length pre)))
    = Some (Z.of_nat (length (int_body v)), Some (pre ++ int_body v ++ post, Z.of_nat (length pre) + Z.of_nat (length (int_body v))))) /\
  forall bs rest, bytes bs -> Z.of_nat (length bs) <= INT_MAX / 2 -> malloc (Z.of_nat (length bs) + 1) <> None ->
    exists s' neg ds, c2i_ASN1_INTEGER malloc a (bs ++ rest) (Z.of_nat (length bs)) = Some (Some s') /\
      int_string s' neg ds /\ signed neg ds = int_val bs /\ (bs = int_body v -> is_int s' v).
Proof.
  intros Hm Ht Hi Hz. destruct (i2c_spec s v Hi) as [H1 H2]. split; [exact H1|]. split; [exact H2|]. intros bs rest Hb Hl Hn.
  destruct (malloc (Z.of_nat (length bs) + 1)) as [buf|] eqn:Em; [|done].
  destruct (c2i_read malloc Hm a s0 buf bs rest Hb Hl Ht Em) as (s' & neg & ds & E & Hr & His & _).
  exists s', neg, ds. split; [exact E|]. split; [done|]. pose proof (read_as_val bs neg ds Hr Hb) as Hv. split; [done|].
  intros Ebs. exists neg, ds. split; [done|]. split.
  - apply (read_as_canonical bs neg ds Hr Hb). rewrite Ebs. apply valid_body.
  - rewrite Hv, Ebs. by rewrite int_val_body.
Qed.

(** The integer -2^16, whose form is longer than that of its magnitude less one. *)
Definition int_example : asn1_string := mk_string 3 V_ASN1_NEG_INTEGER (Some [1; 0; 0; 170]) 0.

Lemma int_example_is : is_int int_example (-65536).
Proof.
  exists true, [1; 0; 0]. split; [|split; [reflexivity|vm_compute; reflexivity]].
  constructor; [split; [reflexivity|by exists [170]]|repeat constructor; unfold in_u; lia|reflexivity|cbn; lia].
Qed.

Lemma int_example_body : int_body (-65536) = [255; 0; 0].
Proof. vm_compute. reflexivity. Qed.

Lemma integer_octets_roundtrip_witness :
  i2c_ASN1_INTEGER (Some int_example) None = Some (3, None) /\
  exists s' neg ds, c2i_ASN1_INTEGER patterned None ([255; 0; 0] ++ [7]) 3 = Some (Some s') /\
    int_string s' neg ds /\ signed neg ds = -65536 /\ ([255; 0; 0] = int_body (-65536) -> is_int s' (-65536)).
Proof.
  assert (Z.of_nat (length (int_body (-65536))) <= INT_MAX / 2) as Hl by (rewrite int_example_body; unfold INT_MAX; cbn; lia).
  destruct (integer_octets_roundtrip patterned None _ int_example (-65536) patterned_size eq_refl int_example_is Hl) as (H1 & _ & H3).
  rewrite int_example_body in H1. split; [exact H1|].
  apply (H3 [255; 0; 0] [7]); [repeat constructor; unfold in_u; lia|unfold INT_MAX; cbn; lia|discriminate].
Defined.




(** A failure of [BN_to_ASN1_INTEGER] leaves the sign of the BIGNUM in the
    caller's object: of 0 it makes a negative zero, which is why only the
    integers that are returned are among them. *)
Lemma bn_failure_changes_the_sign :
  BN_to_ASN1_INTEGER (fun _ => None) (mk_bn [1] 1 1 BN_FLG_MALLOCED) (Some (mk_string 1 V_ASN1_INTEGER (Some [0]) 0))
  = Some (false, Some (mk_string 1 V_ASN1_NEG_INTEGER (Some [0]) 0)).
Proof. vm_compute. reflexivity. Qed.


(** 5, as it is read from three octets, two of them superfluous. *)
Definition int_read : asn1_string := mk_string 2 V_ASN1_INTEGER (Some [0; 5; 170; 170]) 0.



(** A BIGNUM becomes the integer of its value, in the caller's object or a new
    one, unless there is no memory; and that integer is read back into any
    BIGNUM as the same value, unless there is no room for the words. *)
Theorem bn_integer_roundtrip malloc alloc w x bn ws sg ai r R sr :
  (forall n b, malloc n = Some b -> Z.of_nat (length b) = n) -> (forall n v, alloc n = Some v -> Z.of_nat (length v) = n /\ words v) ->
  BnSpec.holds w x ws sg -> w !! x = Some bn -> (forall a, ai = Some a -> usable a) -> BnSpec.holds w r R sr ->
  (exists s, BN_to_ASN1_INTEGER malloc bn ai = Some (true, Some s) /\ is_int s (signed_val sg ws) /\
     exists n, result alloc w r R n (fun C c => signed_val c C = signed_val sg ws) (ASN1_INTEGER_to_BN alloc w s r)) \/
  ((exists o, BN_to_ASN1_INTEGER malloc bn ai = Some (false, o)) /\ exists n, malloc n = None).
Proof.
  intros Hm Ha Hx Ex Hu Hr. destruct (bn_to_integer_spec malloc Hm w x bn ws sg ai Hx Ex Hu) as [(s & E & Hi)|H]; [left|by right].
  exists s. split; [exact E|]. split; [exact Hi|]. destruct Hi as (neg & ds & Hi & Hc & ->). eexists.
  apply (integer_to_bn_spec alloc w r R sr s neg ds Ha Hr Hi); [by intros ->|]. intros ->. by apply canonical_positive; [apply (i_bytes _ _ _ Hi)|].
Qed.

(** -(2^64 + 1) into the object of an integer and back into 7. *)
Lemma bn_integer_roundtrip_witness :
  let w : bns := {[ 1 := mk_bn [1; 1] 2 1 BN_FLG_MALLOCED; 2 := mk_bn [7] 1 0 BN_FLG_MALLOCED ]} in
  let alloc n := if n <? 0 then None else Some (replicate (Z.to_nat n) 5) in
  exists s, BN_to_ASN1_INTEGER patterned (mk_bn [1; 1] 2 1 BN_FLG_MALLOCED) (Some int_read) = Some (true, Some s) /\ is_int s (- 2 ^ 64 - 1) /\
    exists n, result alloc w 2 [7] n (fun C c => signed_val c C = - 2 ^ 64 - 1) (ASN1_INTEGER_to_BN alloc w s 2).
Proof.
  intros w alloc.
  assert (BnSpec.holds w 1 [1; 1] 1 /\ BnSpec.holds w 2 [7] 0) as [H1 H2].
  { split; eexists; (split; [reflexivity|]); split_and!; first [done|by left|by right|repeat constructor; unfold in_u; cbn; lia]. }
  destruct (bn_integer_roundtrip patterned alloc w 1 (mk_bn [1; 1] 2 1 BN_FLG_MALLOCED) [1; 1] 1 (Some int_read) 2 [7] 0 patterned_size) as [H|[[o E] _]].
  - intros n v. unfold alloc. destruct (n <? 0) eqn:E; [done|]. apply Z.ltb_ge in E. intros [= <-]. rewrite length_replicate.
    split; [lia|]. apply Forall_replicate. unfold in_u. lia.
  - exact H1.
  - reflexivity.
  - intros a [= <-] H. cbn in H. lia.
  - exact H2.
  - exact H.
  - exfalso. vm_compute in E. discriminate E.
Defined.

(** [ASN1_INTEGER_set] stores any [long], [ASN1_INTEGER_get] returns any value
    of at most 63 bits and -1 for all others, and the sign of
    [ASN1_INTEGER_cmp] is the order of the numbers. *)
Theorem integer_values_exact malloc :
  (forall n b, malloc n = Some b -> Z.of_nat (length b) = n) ->
  (forall a v, in_s 64 v ->
     match malloc 8 with
     | None => ASN1_INTEGER_set malloc a v = Some (false, a)
     | Some _ => exists s, ASN1_INTEGER_set malloc a v = Some (true, s) /\ is_int s v
     end) /\
  (forall s v, is_int s v -> ASN1_INTEGER_get (Some s) = Some (if bool_decide (Z.abs v < 2 ^ 63) then v else -1)) /\
  (forall x y v w, is_int x v -> is_int y w -> exists r, ASN1_INTEGER_cmp x y = Some r /\ Z.sgn r = Z.sgn (v - w)).
Proof. intros Hm. split_and!; [apply (set_spec malloc Hm)|apply get_spec|apply cmp_spec]. Qed.

Lemma integer_values_exact_witness :
  (exists s, ASN1_INTEGER_set patterned int_example (-300) = Some (true, s) /\ is_int s (-300)) /\
  ASN1_INTEGER_get (Some int_example) = Some (-65536).
Proof.
  destruct (integer_values_exact patterned patterned_size) as (H1 & H2 & _). split.
  - apply (H1 int_example (-300)). unfold in_s. lia.
  - apply (H2 int_example (-65536) int_example_is).
Defined.

(** The smallest [long] is stored, but reading it back gives the error value. *)
Lemma long_min_is_not_read :
  exists s, ASN1_INTEGER_set patterned int_example (- 2 ^ 63) = Some (true, s) /\ is_int s (- 2 ^ 63) /\ ASN1_INTEGER_get (Some s) = Some (-1).
Proof.
  destruct (set_spec patterned patterned_size int_example (- 2 ^ 63) ltac:(unfold in_s; lia)) as (s & E & Hi).
  exists s. split; [exact E|]. split; [exact Hi|]. by rewrite (get_spec s _ Hi).
Qed.

(** ** Bit strings *)

(** C36. Any sequence of [ASN1_BIT_STRING_set_bit], with or without memory, is the
    same sequence of updates of a set of numbers, except for the calls that
    return 0, which only happens when memory runs out. *)
Theorem bit_string_refines_set s bs ops :
  bit_string s bs -> Forall op_ok ops ->
  exists oks s', set_bits s ops = Some (oks, s') /\ stype s' = stype s /\
    Forall2 (fun op ok => ok = false -> op_malloc op (op_bit op / 8 + 1) = None) ops oks /\
    forall n, 0 <= n -> ASN1_BIT_STRING_get_bit (Some s') n = Some (bits_after (bit bs) ops oks n).
Proof.
  intros Hs Ho. destruct (set_bits_spec ops s bs Hs Ho) as (oks & s' & bs' & E & Hs' & Ht & Hf & Hb).
  exists oks, s'. split; [exact E|]. split; [exact Ht|]. split; [exact Hf|]. intros n Hn. by rewrite (get_bit_spec s' bs' n Hs' Hn), Hb.
Qed.

Definition empty_bits : asn1_string := mk_string 0 V_ASN1_BIT_STRING None 0.

Lemma empty_bits_ok : bit_string empty_bits [].
Proof. constructor; [reflexivity|constructor|reflexivity]. Qed.

Definition example_ops : list bit_op :=
  [mk_bit_op patterned 9 true; mk_bit_op patterned 2 true; mk_bit_op (fun _ => None) 100 true; mk_bit_op patterned 9 false].

Lemma example_ops_ok : Forall op_ok example_ops.
Proof. repeat (constructor; [split; [cbn; lia|first [exact patterned_size|discriminate]]|]). constructor. Qed.

Lemma bit_string_refines_set_witness :
  exists oks s', set_bits empty_bits example_ops = Some (oks, s') /\ stype s' = V_ASN1_BIT_STRING /\
    Forall2 (fun op ok => ok = false -> op_malloc op (op_bit op / 8 + 1) = None) example_ops oks /\
    forall n, 0 <= n -> ASN1_BIT_STRING_get_bit (Some s') n = Some (bits_after (bit []) example_ops oks n).
Proof. apply (bit_string_refines_set empty_bits [] example_ops empty_bits_ok example_ops_ok). Defined.

(** Without the flag for padding bits a bit string is written as the DER
    encoding of a named bit list, and reading it back gives the same bits;
    contents with a wrong count of padding bits, or padding that is not zero, are refused. *)
Theorem bit_string_octets_roundtrip malloc a s0 s bs :
  (forall n b, malloc n = Some b -> Z.of_nat (length b) = n) -> (forall n, 0 < n < Z.of_nat (length bs) + 1 -> malloc n <> None) ->
  (match a with None => ASN1_STRING_type_new malloc V_ASN1_BIT_STRING | Some _ => a end) = Some s0 ->
  bit_string s bs -> Z.land (sflags s) ASN1_STRING_FLAG_BITS_LEFT = 0 -> Z.of_nat (length bs) < INT_MAX ->
  (exists c, valid_bits c = true /\ i2c_ASN1_BIT_STRING (Some s) None = Some (Z.of_nat (length c), None) /\
    (forall pre old post, length old = length c ->
       i2c_ASN1_BIT_STRING (Some s) (Some (pre ++ old ++ post, Z.of_nat (length pre)))
       = Some (Z.of_nat (length c), Some (pre ++ c ++ post, Z.of_nat (length pre) + Z.of_nat (length c)))) /\
    forall rest, exists s', c2i_ASN1_BIT_STRING malloc a (c ++ rest) (Z.of_nat (length c)) = Some (true, Some s') /\ stype s' = V_ASN1_BIT_STRING /\
      forall n, 0 <= n -> ASN1_BIT_STRING_get_bit (Some s') n = ASN1_BIT_STRING_get_bit (Some s) n) /\
  (forall c rest, bytes c -> Z.of_nat (length c) <= Z.of_nat (length bs) + 1 -> valid_bits c = false ->
     c2i_ASN1_BIT_STRING malloc a (c ++ rest) (Z.of_nat (length c)) = Some (false, a)).
Proof.
  intros Hm Hn Ha Hs Hf Hl.
  pose proof (fun c rest Hb Hz => c2i_bits_spec malloc Hm a s0 c rest Hb Hz Ha) as Hread. cbv beta in Hread.
  assert (forall n c, 0 < n < Z.of_nat (length (c : list Z)) -> Z.of_nat (length c) <= Z.of_nat (length bs) + 1 -> malloc n <> None) as Hmem by (intros; apply Hn; lia).
  split; [|intros c rest Hb Hc Hv; specialize (Hread c rest Hb ltac:(unfold INT_MAX in *; lia) (fun n H => Hmem n c H Hc)); by rewrite Hv in Hread].
  destruct (i2c_named_bits s bs Hs Hf Hl) as (bs' & _ & Hbit & Hv & Hb & Hlen & H1 & H2). exists (named_bits bs').
  split; [exact Hv|]. split; [exact H1|]. split; [exact H2|]. intros rest. specialize (Hread (named_bits bs') rest Hb ltac:(unfold INT_MAX in *; lia) (fun n H => Hmem n _ H Hlen)). rewrite Hv in Hread.
  destruct Hread as (s' & E & Hs' & Ht & _). exists s'. split; [exact E|]. split; [exact Ht|]. intros n H0.
  rewrite (get_bit_spec s' _ n Hs' H0), (get_bit_spec s bs n Hs H0). f_equal. rewrite <- Hbit.
  unfold named_bits. destruct bs' as [|x bs' _] using rev_ind; [done|]. by rewrite last_snoc.
Qed.

Lemma bit_string_octets_roundtrip_witness :
  exists c, valid_bits c = true /\ i2c_ASN1_BIT_STRING (Some (mk_string 3 V_ASN1_BIT_STRING (Some [5; 64; 0]) 0)) None = Some (Z.of_nat (length c), None).
Proof.
  assert (bit_string (mk_string 3 V_ASN1_BIT_STRING (Some [5; 64; 0]) 0) [5; 64; 0]) as Hs.
  { constructor; [reflexivity|repeat constructor; unfold in_u; lia|by exists []]. }
  destruct (bit_string_octets_roundtrip patterned None _ _ _ patterned_size (fun n H => ltac:(unfold patterned; rewrite (proj2 (Z.ltb_ge n 0)) by (destruct H; lia); discriminate)) eq_refl Hs eq_refl ltac:(unfold INT_MAX; cbn; lia)) as [(c & H1 & H2 & _) _].
  by exists c.
Defined.

(** ** Headers of elements *)

(** Is [bs] the header [ids ++ ls] in front of at least [n] more bytes? *)
Definition is_header (bs ids ls : list Z) (x tag n : Z) : Prop :=
  exists rest, bs = ids ++ ls ++ rest /\ identifier ids x tag /\ length_octets ls n /\ tag <= INT_MAX /\ n <= INT_MAX / 2 /\
    n <= Z.of_nat (length rest) /\ (Z.land x V_ASN1_PRIVATE = 0 -> tag <= V_ASN1_MAX_UNIVERSAL).

Lemma header_ref_spec bs x tag n r : bytes bs ->
  header_ref bs = Some (x, tag, n, r) <-> exists ids ls, is_header bs ids ls x tag n /\ bs = ids ++ ls ++ r.
Proof.
  intros Hb. unfold header_ref, is_header. split.
  - destruct (id_ref bs) as [[[x' tag'] r']|] eqn:Ei; [|done]. cbn [mbind option_bind]. apply id_ref_spec in Ei as (Hr & ids & -> & Hi & Hm).
    destruct ((Z.land x' V_ASN1_PRIVATE =? 0) && (V_ASN1_MAX_UNIVERSAL <? tag')) eqn:Eu; [done|].
    destruct (len_ref r') as [[n' r'']|] eqn:El; [|done]. cbn [mbind option_bind]. apply Forall_app in Hb as [_ Hb].
    apply len_ref_spec in El as (ls & -> & Hls & Hn); [|done]. destruct (Z.of_nat (length r'') <? n') eqn:Er; [done|]. apply Z.ltb_ge in Er.
    intros E. injection E as <- <- <- <-. exists ids, ls. split; [|done]. exists r''. split_and!; try done; [unfold INT_MAX in *; lia|].
    intros E0. rewrite E0 in Eu. cbn [Z.eqb andb] in Eu. by apply Z.ltb_ge in Eu.
  - intros (ids & ls & (rest & E & Hi & Hls & Hm & Hn & Hrest & Hu) & E'). assert (rest = r) as -> by (rewrite E in E'; by do 2 apply app_inv_head in E'). subst bs.
    assert (ls ++ r <> []) as Hne by (by destruct Hls).
    rewrite (proj2 (id_ref_spec (ids ++ ls ++ r) x tag (ls ++ r))) by (split; [done|]; exists ids; split_and!; try done; by left). cbn [mbind option_bind].
    apply Forall_app in Hb as [_ Hb]. rewrite (proj2 (len_ref_spec (ls ++ r) n r Hb)) by (exists ls; done). cbn [mbind option_bind].
    rewrite (proj2 (Z.ltb_ge _ n)) by done. destruct (Z.land x V_ASN1_PRIVATE =? 0) eqn:E0; [|done]. apply Z.eqb_eq in E0. cbn [andb].
    by rewrite (proj2 (Z.ltb_ge V_ASN1_MAX_UNIVERSAL tag)) by (by apply Hu).
Qed.

(** C37. On the bytes that are there, [ASN1_get_object] reads nothing behind them
    and accepts exactly the headers of definite length whose contents fit; a
    universal tag is at most 255 and no value exceeds an [int]. *)
Theorem get_object_exact bs : bytes bs -> Z.of_nat (length bs) < 2 ^ 62 ->
  exists g, ASN1_get_object bs (Z.of_nat (length bs)) = Some g /\
    (got_ret g = 0x80 /\ got_pos g = 0 /\ (forall ids ls x tag n, ~ is_header bs ids ls x tag n) \/
     exists ids ls x tag n, is_header bs ids ls x tag n /\
       g = mk_got (Z.land x V_ASN1_CONSTRUCTED) (Z.of_nat (length (ids ++ ls))) (Some (tag, Z.land x V_ASN1_PRIVATE)) (Some n)).
Proof.
  intros Hb Hl. destruct (get_object_ref bs Hb Hl) as (g & E & Hg). exists g. split; [exact E|].
  destruct (header_ref bs) as [[[[x tag] n] r]|] eqn:Eh.
  - right. apply header_ref_spec in Eh as (ids & ls & Hh & Ebs); [|done]. exists ids, ls, x, tag, n. split; [exact Hh|]. rewrite Hg. f_equal.
    rewrite Ebs, !length_app. lia.
  - left. split; [apply Hg|]. split; [apply Hg|]. intros ids ls x tag n Hh. pose proof Hh as (rest & Ebs & _).
    rewrite (proj2 (header_ref_spec bs x tag n rest Hb)) in Eh by (by exists ids, ls). done.
Qed.

Lemma get_object_exact_witness :
  exists g, ASN1_get_object [0x3f; 0x81; 0x00; 0x02; 5; 0] 6 = Some g /\
    (got_ret g = 0x80 /\ got_pos g = 0 /\ (forall ids ls x tag n, ~ is_header [0x3f; 0x81; 0x00; 0x02; 5; 0] ids ls x tag n) \/
     exists ids ls x tag n, is_header [0x3f; 0x81; 0x00; 0x02; 5; 0] ids ls x tag n /\
       g = mk_got (Z.land x V_ASN1_CONSTRUCTED) (Z.of_nat (length (ids ++ ls))) (Some (tag, Z.land x V_ASN1_PRIVATE)) (Some n)).
Proof. apply (get_object_exact [0x3f; 0x81; 0x00; 0x02; 5; 0]); [repeat constructor; unfold in_u; lia|cbn; lia]. Defined.

(** [ASN1_put_object] writes a header of exactly the size [ASN1_object_size]
    counts, [ASN1_get_object] reads it back, and it is the header the byte
    strings of cbs.c read for the tag. *)
Theorem put_object_roundtrip c len tag xclass :
  c = 0 \/ c = 1 -> 0 <= tag < 2 ^ 31 -> 0 <= len <= INT_MAX / 2 -> (Z.land xclass V_ASN1_PRIVATE = 0 -> tag <= V_ASN1_MAX_UNIVERSAL) ->
  exists h, ASN1_object_size c len tag = Some (Z.of_nat (length h) + len) /\
    (forall pre old post, length old = length h ->
       ASN1_put_object (pre ++ old ++ post) (Z.of_nat (length pre)) c len tag xclass = Some (pre ++ h ++ post, Z.of_nat (length pre) + Z.of_nat (length old))) /\
    (forall body, bytes body -> len <= Z.of_nat (length body) -> Z.of_nat (length (h ++ body)) < 2 ^ 62 ->
       ASN1_get_object (h ++ body) (Z.of_nat (length (h ++ body)))
       = Some (mk_got (c * V_ASN1_CONSTRUCTED) (Z.of_nat (length h)) (Some (tag, Z.land xclass V_ASN1_PRIVATE)) (Some len))) /\
    (tag < 2 ^ 29 -> h = ident (header_bits c xclass * 2 ^ 24 + tag) ++ der_length len).
Proof.
  intros Hc Ht Hl Hu. assert (c <> 2) as Hc2 by lia. unfold INT_MAX in Hl. destruct (bits_lor c xclass) as (_ & Hx & Hx32 & _).
  set (x := header_bits c xclass) in *. assert (Z.land x V_ASN1_PRIVATE = Z.land xclass V_ASN1_PRIVATE /\ Z.land x V_ASN1_CONSTRUCTED = c * V_ASN1_CONSTRUCTED) as [Hpriv Hcons].
  { unfold x, header_bits. destruct (class_bits xclass) as (k & Hk & ->).
    assert (k = 0 \/ k = 1 \/ k = 2 \/ k = 3) as H4 by lia. destruct Hc as [-> | ->]; destruct H4 as [->|[->|[->| ->]]]; by split. }
  exists (header x tag len). split; [|split; [|split]].
  - rewrite (object_size_spec c len tag Hc2 Ht ltac:(lia) x). cbv zeta. pose proof (header_short x tag len Ht ltac:(lia)) as Hs.
    by rewrite (proj2 (Z.leb_gt _ _)) by (unfold INT_MAX; lia).
  - intros pre old post Hold. apply put_object_spec; [done|done|lia|done].
  - intros body Hb Hlen Hz. assert (bytes (header x tag len ++ body)) as Hbytes by (apply Forall_app; split; [by apply header_bytes; try lia|done]).
    destruct (get_object_ref _ Hbytes Hz) as (g & E & Hg). rewrite (proj2 (header_ref_spec _ x tag len body Hbytes)) in Hg.
    + rewrite E, Hg, Hpriv, Hcons. do 2 f_equal. rewrite length_app. lia.
    + exists (id_octets x tag), (der_length len). split; [|unfold header; by rewrite app_assoc]. exists body.
      split; [unfold header; by rewrite app_assoc|]. split; [by apply id_octets_identifier|]. split; [apply der_length_octets; lia|]. split; [unfold INT_MAX; lia|].
      split; [unfold INT_MAX; lia|]. split; [done|]. by rewrite Hpriv.
  - intros Ht29. unfold header. f_equal. unfold ident, id_octets, tag_bits, tag_num.
    replace ((x * 2 ^ 24 + tag) / 2 ^ 29 * 32) with x by lia. by replace ((x * 2 ^ 24 + tag) mod 2 ^ 29) with tag by lia.
Qed.

Lemma put_object_roundtrip_witness :
  exists h, ASN1_object_size 1 300 1000 = Some (Z.of_nat (length h) + 300) /\
    h = ident (header_bits 1 0x80 * 2 ^ 24 + 1000) ++ der_length 300.
Proof.
  destruct (put_object_roundtrip 1 300 1000 0x80) as (h & H1 & _ & _ & H4); [by right|lia|unfold INT_MAX; lia|discriminate|].
  exists h. split; [exact H1|]. apply H4. lia.
Defined.

(** ** At the edges *)

(** The number of seconds of whole days is computed as an [int]. *)
Lemma offset_of_68_years_overflows t : OPENSSL_gmtime_adj t 0 2147558400 = None.
Proof. reflexivity. Qed.

(** A text may end without a zone, and the day is not checked against the month. *)
Definition no_zone_text : list Z := [50; 49; 48; 50; 51; 49; 49; 50; 48; 48; 48; 48].

Lemma missing_zone_is_accepted : accepts V_ASN1_UTCTIME no_zone_text = true.
Proof. vm_compute. reflexivity. Qed.

Lemma day_31_of_february_is_read : text_tm V_ASN1_UTCTIME no_zone_text = Some (mk_tm 0 0 12 31 1 121).
Proof. vm_compute. reflexivity. Qed.
