(* ===== verification/BnTheorems.v ===== *)
(** * BoringSSL: what the multiple-precision integers promise

    Sums, differences, products, shifts and the order of numbers of any size,
    with the result wherever the caller wants it, their bytes, and any sequence
    of operations as the same sequence on integers. *)
From S2P Require Import Prelude CBuf CMem Cbs CbsSpec Base64 Bn BnSpec.

#[local] Ltac Zify.zify_post_hook ::= Z.to_euclidean_division_equations.

(** ** Operations as a caller makes them *)

(** [OPENSSL_malloc] gives as many words as it was asked for. *)
Definition allocates (malloc : Z -> option (list Z)) : Prop := forall n v, malloc n = Some v -> Z.of_nat (length v) = n /\ words v.

Inductive bn_op : Type :=
  | Add (r a b : Z) | Sub (r a b : Z) | Lshift (r a n : Z) | Rshift (r a n : Z)
  | AddWord (r x : Z) | SubWord (r x : Z) | MulWord (r x : Z) | FromBytes (r : Z) (bs : list Z)
  | Cmp (a b : Z) | Equal (a b : Z).

(** The BIGNUM that is written. *)
Definition target (op : bn_op) : option Z :=
  match op with
  | Add r _ _ | Sub r _ _ | Lshift r _ _ | Rshift r _ _ | AddWord r _ | SubWord r _ | MulWord r _ | FromBytes r _ => Some r
  | Cmp _ _ | Equal _ _ => None
  end.

Definition silent (res : option (bool * bns)) : option (bool * bns * list Z) := q ← res; Some (q.1, q.2, []).

Definition bn_exec (malloc : Z -> option (list Z)) (w : bns) (op : bn_op) : option (bool * bns * list Z) :=
  match op with
  | Add r a b => silent (BN_add malloc w r a b)
  | Sub r a b => silent (BN_sub malloc w r a b)
  | Lshift r a n => silent (BN_lshift malloc w r a n)
  | Rshift r a n => silent (BN_rshift malloc w r a n)
  | AddWord a x => silent (BN_add_word malloc w a x)
  | SubWord a x => silent (BN_sub_word malloc w a x)
  | MulWord a x => silent (BN_mul_word malloc w a x)
  | FromBytes r bs => silent (BN_bin2bn malloc w bs (Z.of_nat (length bs)) r)
  | Cmp a b => c ← BN_cmp (w !! a) (w !! b); Some (true, w, [c])
  | Equal a b => x ← w !! a; y ← w !! b; e ← BN_equal_consttime x y; Some (true, w, [if e : bool then 1 else 0])
  end.

(** Until one of them fails; each with the memory there is at the time. *)
Fixpoint bn_run (w : bns) (ops : list ((Z -> option (list Z)) * bn_op)) : option (bool * bns * list Z) :=
  match ops with
  | [] => Some (true, w, [])
  | (m, op) :: ops' =>
      q ← bn_exec m w op;
      let '(ok, w, o) := q in
      if negb ok then Some (false, w, o) else q ← bn_run w ops'; Some (q.1, o ++ q.2)
  end.

(** ** The same on integers *)

Definition put (st : gmap Z Z) (r v : Z) : option (gmap Z Z * list Z) := _ ← st !! r; Some (<[r := v]> st, []).

Definition z_exec (st : gmap Z Z) (op : bn_op) : option (gmap Z Z * list Z) :=
  match op with
  | Add r a b => x ← st !! a; y ← st !! b; put st r (x + y)
  | Sub r a b => x ← st !! a; y ← st !! b; put st r (x - y)
  | Lshift r a n => if bool_decide (0 <= n <= INT_MAX) then x ← st !! a; put st r (x * 2 ^ n) else None
  | Rshift r a n => if bool_decide (0 <= n <= INT_MAX) then x ← st !! a; put st r (Z.quot x (2 ^ n)) else None
  | AddWord a x => if bool_decide (in_u 64 x) then v ← st !! a; put st a (v + x) else None
  | SubWord a x => if bool_decide (in_u 64 x) then v ← st !! a; put st a (v - x) else None
  | MulWord a x => if bool_decide (in_u 64 x) then v ← st !! a; put st a (v * x) else None
  | FromBytes r bs => if bool_decide (bytes bs /\ bs <> []) then put st r (be_val bs) else None
  | Cmp a b => x ← st !! a; y ← st !! b; Some (st, [Z.sgn (x - y)])
  | Equal a b => x ← st !! a; y ← st !! b; Some (st, [if x =? y then 1 else 0])
  end.

Fixpoint z_run (st : gmap Z Z) (ops : list bn_op) : option (gmap Z Z * list Z) :=
  match ops with
  | [] => Some (st, [])
  | op :: ops' => q ← z_exec st op; q' ← z_run q.1 ops'; Some (q'.1, q.2 ++ q'.2)
  end.

(** Every number is in its BIGNUM, and zero is not negative. *)
Definition represents (w : bns) (st : gmap Z Z) : Prop := forall a v, st !! a = Some v -> exists A s, holds w a A s /\ signed_val s A = v /\ plain s A.

(** Words that an operation may need. *)
Definition width_at (w : bns) (a : Z) : Z := match w !! a with Some b => width b | None => 0 end.

Definition words_needed (w : bns) (op : bn_op) : Z :=
  match op with
  | Add _ a b | Sub _ a b => Z.max (width_at w a) (width_at w b) + 1
  | Lshift _ a n => width_at w a + n / 64 + 1
  | Rshift _ a _ => width_at w a
  | AddWord a _ | SubWord a _ | MulWord a _ => width_at w a + 1
  | FromBytes _ bs => Z.of_nat (words_for (length bs))
  | Cmp _ _ | Equal _ _ => 0
  end.

(** An operation that fails found no room for its result, which is still a
    BIGNUM; the others are as they were. *)
Definition out_of_room (m : Z -> option (list Z)) (w w' : bns) (st : gmap Z Z) (op : bn_op) : Prop :=
  exists r C s n, target op = Some r /\ n <= words_needed w op /\ no_room m w r n /\ holds w' r C s /\ represents w' (delete r st).

(** *** One operation *)

Lemma represents_write w w' r C s st : represents w st -> holds w' r C s -> plain s C -> same_but r w w' -> represents w' (<[r := signed_val s C]> st).
Proof.
  intros Hrep HC Hp Hs a v. destruct (decide (a = r)) as [->|Hne].
  - rewrite lookup_insert_eq. intros [= <-]. by exists C, s.
  - rewrite lookup_insert_ne by done. intros Ha. destruct (Hrep a v Ha) as (A & sa & HA & H). exists A, sa. split; [by eapply holds_same|done].
Qed.

Lemma represents_lost w w' r st : represents w st -> same_but r w w' -> represents w' (delete r st).
Proof.
  intros Hrep Hs a v Ha. apply lookup_delete_Some in Ha as [Hne Ha]. destruct (Hrep a v Ha) as (A & sa & HA & H). exists A, sa. split; [by eapply holds_same|done].
Qed.

Definition step_ok (m : Z -> option (list Z)) (w : bns) (st st' : gmap Z Z) (op : bn_op) (o : list Z) : Prop :=
  exists ok w' o', bn_exec m w op = Some (ok, w', o') /\ if ok : bool then o' = o /\ represents w' st' else o' = [] /\ out_of_room m w w' st op.

Lemma step_result m w st op r R n v P res : represents w st -> target op = Some r -> n <= words_needed w op -> bn_exec m w op = silent res ->
  result m w r R n P res -> (forall C s, P C s -> signed_val s C = v /\ plain s C) -> step_ok m w st (<[r := v]> st) op [].
Proof.
  intros Hrep Ht Hn Hex (ok & w' & C & s & -> & HC & Hs & H) HP. exists ok, w', []. split; [by rewrite Hex|]. destruct ok.
  - split; [done|]. destruct (HP C s H) as [<- Hp]. by eapply represents_write.
  - split; [done|]. destruct H as (_ & k & Hk & Hno). exists r, C, s, k. split_and!; try done; [lia|by eapply represents_lost].
Qed.

Lemma step_changed m w st op r n v P res : represents w st -> target op = Some r -> n <= words_needed w op -> bn_exec m w op = silent res ->
  changed m w r n P res -> (forall C s, P C s -> signed_val s C = v /\ plain s C) -> step_ok m w st (<[r := v]> st) op [].
Proof.
  intros Hrep Ht Hn Hex (ok & w' & C & s & -> & HC & Hs & H) HP. exists ok, w', []. split; [by rewrite Hex|]. destruct ok.
  - split; [done|]. destruct (HP C s H) as [<- Hp]. by eapply represents_write.
  - split; [done|]. destruct H as (k & Hk & Hno). exists r, C, s, k. split_and!; try done; [lia|by eapply represents_lost].
Qed.

Lemma width_at_holds w a A s : holds w a A s -> width_at w a = Z.of_nat (length A).
Proof. intros (b & Eb & Hw & _). unfold width_at. by rewrite Eb. Qed.

(** The operands of an operation on integers are in their BIGNUMs. *)
Ltac operand st a Hrep v A s H Hv Hp E :=
  destruct (st !! a) as [v|] eqn:E; [cbn [mbind option_bind]|done]; destruct (Hrep a v E) as (A & s & H & Hv & Hp).

Ltac finish := let E1 := fresh in let E2 := fresh in intros E1; injection E1 as E1 E2; rewrite <- E1, <- E2.

Lemma step_sound m w st st' op o : allocates m -> represents w st -> z_exec st op = Some (st', o) -> step_ok m w st st' op o.
Proof.
  intros Hm Hrep. destruct op as [r a b|r a b|r a n|r a n|r x|r x|r x|r bs|a b|a b]; cbn [z_exec]; unfold put.
  - operand st a Hrep va A sa Ha Hva Hpa Ea. operand st b Hrep vb B sb Hb Hvb Hpb Eb. operand st r Hrep vr R sr Hr Hvr Hpr Er. finish. subst va vb.
    eapply step_result; [done|done| |done|exact (bn_add_spec m Hm w r a b A B R sa sb sr Ha Hb Hr Hpa Hpb)|]; [cbn [words_needed]; rewrite (width_at_holds _ _ _ _ Ha), (width_at_holds _ _ _ _ Hb); lia|]. by intros C s (Hv & _ & Hp).
  - operand st a Hrep va A sa Ha Hva Hpa Ea. operand st b Hrep vb B sb Hb Hvb Hpb Eb. operand st r Hrep vr R sr Hr Hvr Hpr Er. finish. subst va vb.
    eapply step_result; [done|done| |done|exact (bn_sub_spec m Hm w r a b A B R sa sb sr Ha Hb Hr Hpa Hpb)|]; [cbn [words_needed]; rewrite (width_at_holds _ _ _ _ Ha), (width_at_holds _ _ _ _ Hb); lia|]. by intros C s (Hv & _ & Hp).
  - case_bool_decide as Hn; [|done]. operand st a Hrep va A sa Ha Hva Hpa Ea. operand st r Hrep vr R sr Hr Hvr Hpr Er. finish. subst va.
    eapply step_result; [done|done| |done|exact (lshift_spec m Hm w r a A R sa sr n Ha Hr Hn)|]; [cbn [words_needed]; rewrite (width_at_holds _ _ _ _ Ha); lia|]. by intros C s (Hv & _ & Hp).
  - case_bool_decide as Hn; [|done]. operand st a Hrep va A sa Ha Hva Hpa Ea. operand st r Hrep vr R sr Hr Hvr Hpr Er. finish. subst va.
    eapply step_result; [done|done| |done|exact (rshift_spec m Hm w r a A R sa sr n Ha Hr (proj1 Hn))|]; [cbn [words_needed]; rewrite (width_at_holds _ _ _ _ Ha); lia|]. by intros C s (Hv & _ & Hp).
  - case_bool_decide as Hx; [|done]. operand st r Hrep va A sa Ha Hva Hpa Ea. finish. subst va.
    eapply step_changed; [done|done| |done|exact (bn_add_word_spec m Hm w r A sa x Ha Hx Hpa)|done]. cbn [words_needed]. by rewrite (width_at_holds _ _ _ _ Ha).
  - case_bool_decide as Hx; [|done]. operand st r Hrep va A sa Ha Hva Hpa Ea. finish. subst va.
    eapply step_changed; [done|done| |done|exact (bn_sub_word_spec m Hm w r A sa x Ha Hx Hpa)|done]. cbn [words_needed]. by rewrite (width_at_holds _ _ _ _ Ha).
  - case_bool_decide as Hx; [|done]. operand st r Hrep va A sa Ha Hva Hpa Ea. finish. subst va.
    eapply step_changed; [done|done| |done|exact (bn_mul_word_spec m Hm w r A sa x Ha Hx Hpa)|done]. cbn [words_needed]. by rewrite (width_at_holds _ _ _ _ Ha).
  - case_bool_decide as Hb; [|done]. destruct Hb as [Hb Hne]. operand st r Hrep vr R sr Hr Hvr Hpr Er. finish.
    eapply step_result; [done|done|reflexivity|done|exact (bin2bn_spec m Hm w r R sr bs Hr Hb Hne)|]. intros C s (-> & _ & Hv). by unfold signed_val, plain.
  - operand st a Hrep va A sa Ha Hva Hpa Ea. operand st b Hrep vb B sb Hb Hvb Hpb Eb. finish. subst va vb. exists true, w. eexists. cbn [bn_exec]. rewrite (bn_cmp_spec w a b A B sa sb Ha Hb Hpa Hpb). by split.
  - operand st a Hrep va A sa Ha Hva Hpa Ea. operand st b Hrep vb B sb Hb Hvb Hpb Eb. finish. subst va vb. destruct (equal_spec w a b A B sa sb Ha Hb Hpa Hpb) as (x & y & Ex & Ey & E).
    exists true, w. eexists. cbn [bn_exec]. rewrite Ex, Ey. cbn [mbind option_bind]. rewrite E. by split.
Qed.

(** ** The theorems *)

(** C28. Any sequence of sums, differences, shifts, additions, subtractions and
    multiplications of words, conversions from bytes and comparisons, on BIGNUMs
    that may be operand and result at once and with or without memory, is
    defined and is the same sequence on integers, comparisons included; it stops
    early only at an operation that found no room for the words it needs, after
    which that result is still a BIGNUM and all others have their numbers. *)
Theorem bn_refines_integers w st ops st' o : Forall (fun q => allocates q.1) ops -> represents w st -> z_run st ops.*2 = Some (st', o) ->
  exists ok w' o', bn_run w ops = Some (ok, w', o') /\
    if ok : bool then o' = o /\ represents w' st'
    else exists k m op wk stk, ops !! k = Some (m, op) /\ bn_run w (take k ops) = Some (true, wk, o') /\ z_run st (take k ops.*2) = Some (stk, o') /\
      represents wk stk /\ out_of_room m wk w' stk op.
Proof.
  intros Hm. revert w st o. induction Hm as [|[m op] ops Hm _ IH]; intros w st o Hrep Hz; cbn [fmap list_fmap z_run] in Hz; [injection Hz as <- <-; by exists true, w, []|].
  cbn [snd] in Hz. destruct (z_exec st op) as [[st1 o1]|] eqn:E1; [|done]. cbn [mbind option_bind fst snd] in Hz. destruct (z_run st1 ops.*2) as [[st2 o2]|] eqn:E2; [|done]. cbn [mbind option_bind fst snd] in Hz. injection Hz as <- <-.
  destruct (step_sound m w st st1 op o1 Hm Hrep E1) as (ok & w1 & o1' & Ex & H). cbn [bn_run]. rewrite Ex. cbn [mbind option_bind]. destruct ok; cbn [negb]; destruct H as [-> H].
  - destruct (IH w1 st1 o2 H E2) as (ok & w' & o' & -> & H'). cbn [mbind option_bind fst snd]. exists ok, w', (o1 ++ o'). split; [done|]. destruct ok; [destruct H' as [-> H']; by split|].
    destruct H' as (k & m' & op' & wk & stk & Ek & Er & Ez & Hrk & Hout). exists (S k), m', op', wk, stk. split; [done|]. cbn [take fmap list_fmap bn_run z_run fst snd]. rewrite Ex, E1. cbn [mbind option_bind negb fst snd]. rewrite Er, Ez. cbn [mbind option_bind fst snd]. done.
  - exists false, w1, []. split; [done|]. exists 0%nat, m, op, w, st. by split_and!.
Qed.

(** Memory that is there for up to [limit] words. *)
Definition some_memory (limit n : Z) : option (list Z) := if (n <? 0) || (limit <? n) then None else Some (replicate (Z.to_nat n) 7).

Lemma some_memory_ok limit : allocates (some_memory limit).
Proof.
  intros n v. unfold some_memory. destruct (n <? 0) eqn:E; cbn [orb]; [done|apply Z.ltb_ge in E]. destruct (limit <? n); [done|]. intros [= <-]. rewrite length_replicate. split; [lia|]. apply Forall_replicate. unfold in_u. lia.
Qed.

(** Three numbers: 2^64 - 1 with a word above it that is not counted, -3 and 0. *)
Definition some_bns : bns := {[ 1 := mk_bn [2 ^ 64 - 1; 5] 1 0 BN_FLG_MALLOCED; 2 := mk_bn [3; 0] 2 1 BN_FLG_MALLOCED; 3 := mk_bn [] 0 0 BN_FLG_MALLOCED ]}.

Definition some_values (x y : Z) : gmap Z Z := {[ 1 := 2 ^ 64 - 1; 2 := x; 3 := y ]}.

Lemma some_bns_represent : represents some_bns (some_values (-3) 0).
Proof.
  intros a v. unfold some_values. rewrite !lookup_insert_Some, lookup_singleton_Some. intros [[<- <-]|[_ [[<- <-]|[_ [<- <-]]]]].
  - exists [2 ^ 64 - 1], 0. split; [|done]. eexists. split; [reflexivity|]. split_and!; first [done|by left|repeat constructor; unfold in_u; cbn; lia].
  - exists [3; 0], 1. split; [|done]. eexists. split; [reflexivity|]. split_and!; first [done|by right|repeat constructor; unfold in_u; cbn; lia].
  - exists [], 0. split; [|done]. eexists. split; [reflexivity|]. split_and!; first [done|by left|constructor].
Qed.

(** The last shift needs three words. *)
Definition some_ops (limit : Z) : list ((Z -> option (list Z)) * bn_op) :=
  (fun op => (some_memory limit, op)) <$> [Add 3 1 2; Add 3 3 3; MulWord 2 5; Cmp 3 2; Equal 1 1; Rshift 3 3 1; Lshift 3 3 70; SubWord 3 1].

Lemma some_ops_allocate limit : Forall (fun q => allocates q.1) (some_ops limit).
Proof. apply Forall_fmap, Forall_forall. intros op _. apply some_memory_ok. Qed.

Example bn_refines_integers_witness :
  (exists w', bn_run some_bns (some_ops 9) = Some (true, w', [1; 1]) /\ represents w' (some_values (-15) ((2 ^ 64 - 4) * 2 ^ 70 - 1))) /\
  (exists w' k m op wk stk, bn_run some_bns (some_ops 2) = Some (false, w', [1; 1]) /\ some_ops 2 !! k = Some (m, op) /\ z_run (some_values (-3) 0) (take k (some_ops 2).*2) = Some (stk, [1; 1]) /\ represents wk stk /\ out_of_room m wk w' stk op).
Proof.
  pose proof (fun limit => bn_refines_integers some_bns (some_values (-3) 0) (some_ops limit) (some_values (-15) ((2 ^ 64 - 4) * 2 ^ 70 - 1)) [1; 1] (some_ops_allocate limit) some_bns_represent ltac:(vm_compute; reflexivity)) as H. split.
  - destruct (H 9) as (ok & w' & o' & E & Hr). assert (Some ok = Some true) as Eo by (etransitivity; [symmetry; exact (f_equal (option_map (fun q => q.1.1)) E)|vm_compute; reflexivity]). injection Eo as ->. destruct Hr as [-> Hr]. exists w'. split; [exact E|exact Hr].
  - destruct (H 2) as (ok & w' & o' & E & Hr). assert (Some (ok, o') = Some (false, [1; 1])) as Eo by (etransitivity; [symmetry; exact (f_equal (option_map (fun q => (q.1.1, q.2))) E)|vm_compute; reflexivity]). injection Eo as -> ->.
    destruct Hr as (k & m & op & wk & stk & Ek & Er & Ez & Hr & Ho). exists w', k, m, op, wk, stk. split; [exact E|]. split; [exact Ek|]. split; [exact Ez|]. split; [exact Hr|exact Ho].
Defined.

(** C29. bn_mul_normal writes the product of two arrays of words of any sizes,
    as many words as both have, into an array that is neither of them, and
    changes nothing else. *)
Theorem bn_mul_normal_exact w r a b A B : words A -> words B -> Z.of_nat (length A) < 2 ^ 62 -> Z.of_nat (length B) < 2 ^ 62 -> r.1 <> a.1 -> r.1 <> b.1 ->
  words_at w a A -> words_at w b B -> room w r (Z.of_nat (length A + length B)) ->
  exists C, bn_mul_normal w r a (Z.of_nat (length A)) b (Z.of_nat (length B)) = Some (store_at w r C) /\ words C /\ length C = (length A + length B)%nat /\ val C = val A * val B.
Proof. exact (mul_normal_spec w r a b A B). Qed.

(** Factors behind other words, the largest there are, and a product in the
    middle of an array. *)
Definition some_factors : bns := {[ 1 := mk_bn [7; 2 ^ 64 - 1; 2 ^ 64 - 1] 3 0 BN_FLG_MALLOCED; 2 := mk_bn [2 ^ 64 - 1; 2 ^ 64 - 1; 3] 3 0 BN_FLG_MALLOCED; 3 := mk_bn (replicate 8 9) 0 0 BN_FLG_MALLOCED ]}.

Example bn_mul_normal_exact_witness :
  exists C, bn_mul_normal some_factors (3, 1) (1, 1) 2 (2, 0) 3 = Some (store_at some_factors (3, 1) C) /\ words C /\ length C = 5%nat /\ val C = (2 ^ 128 - 1) * (2 ^ 128 - 1 + 3 * 2 ^ 128).
Proof.
  refine (bn_mul_normal_exact some_factors (3, 1) (1, 1) (2, 0) [2 ^ 64 - 1; 2 ^ 64 - 1] [2 ^ 64 - 1; 2 ^ 64 - 1; 3] _ _ _ _ _ _ _ _ _); try (cbn; lia).
  - repeat constructor; unfold in_u; lia.
  - repeat constructor; unfold in_u; lia.
  - eexists. split; vm_compute; reflexivity.
  - eexists. split; vm_compute; reflexivity.
  - eexists. split; [vm_compute; reflexivity|]. split_and!; vm_compute; discriminate.
Defined.

(** C30. The bytes of the absolute value of a number: BN_bn2bin writes the
    shortest big-endian form, the padded functions write exactly as many bytes
    as they are asked for or return 0 without writing, if the number does not
    fit; what is around is left alone.  From at least one byte BN_bin2bn reads
    the number back into any BIGNUM, and BN_le2bn into one that is not negative
    ([le2bn_negative] is the other case), unless there is no room for the words,
    which changes nothing. *)
Theorem bn_bytes_roundtrip malloc w a A sa b r R sr pre old post : allocates malloc -> holds w a A sa -> w !! a = Some b -> holds w r R sr ->
  (Z.of_nat (length old) = bytes_of (val A) -> BN_bn2bin b (pre ++ old ++ post) (Z.of_nat (length pre)) = Some (bytes_of (val A), pre ++ be (length old) (val A) ++ post)) /\
  (val A = 0 \/ hd 0 (be (Z.to_nat (bytes_of (val A))) (val A)) <> 0) /\
  BN_bn2bin_padded (pre ++ old ++ post) (Z.of_nat (length pre)) (Z.of_nat (length old)) b =
    Some (if val A <? 2 ^ (8 * Z.of_nat (length old)) then (true, pre ++ be (length old) (val A) ++ post) else (false, pre ++ old ++ post)) /\
  BN_bn2le_padded (pre ++ old ++ post) (Z.of_nat (length pre)) (Z.of_nat (length old)) b =
    Some (if val A <? 2 ^ (8 * Z.of_nat (length old)) then (true, pre ++ le_split (length old) (val A) ++ post) else (false, pre ++ old ++ post)) /\
  (old <> [] -> val A < 2 ^ (8 * Z.of_nat (length old)) ->
    result malloc w r R (Z.of_nat (words_for (length old))) (fun C s => s = 0 /\ length C = words_for (length old) /\ val C = val A) (BN_bin2bn malloc w (be (length old) (val A)) (Z.of_nat (length old)) r) /\
    (sr = 0 -> result malloc w r R (Z.of_nat (words_for (length old))) (fun C s => s = 0 /\ length C = words_for (length old) /\ val C = val A) (BN_le2bn malloc w (le_split (length old) (val A)) (Z.of_nat (length old)) r))).
Proof.
  intros Hm Ha Eb Hr. pose proof (holds_words _ _ _ _ Ha) as HA. pose proof (holds_length _ _ _ _ Ha) as Hl. pose proof (val_bound _ HA) as Hv. destruct Ha as (b' & Eb' & Hwd & Hrd & _). assert (b' = b) as -> by congruence.
  split; [by apply bn2bin_spec|]. split; [|split; [by apply bn2bin_padded_spec|split; [by apply bn2le_padded_spec|]]].
  - destruct (decide (val A = 0)) as [H0|H0]; [by left|right]. destruct (be_bytes_of (val A) ltac:(lia)) as [H1 H2]. destruct (be _ _) as [|x l]; [|exact H2]. by cbn in H1.
  - intros Hne Hlt. split.
    + pose proof (bin2bn_spec malloc Hm w r R sr (be (length old) (val A)) Hr (be_bytes _ _)) as H. rewrite length_be in H. rewrite be_val_be, Z.mod_small in H by lia. apply H. intros E. apply (f_equal length) in E. rewrite length_be in E. by destruct old.
    + intros ->. pose proof (le2bn_spec malloc Hm w r R 0 (le_split (length old) (val A)) Hr (le_split_bytes _ _)) as H. rewrite length_le_split in H. rewrite le_combine_split, Z.mod_small in H by lia. apply H. intros E. apply (f_equal length) in E. rewrite length_le_split in E. by destruct old.
Qed.

(** 2^64 - 1 into five bytes, twelve bytes, and read back, big-endian into a
    negative number and little-endian into zero. *)
Example bn_bytes_roundtrip_witness :
  BN_bn2bin_padded [1; 0; 0; 0; 0; 0; 2] 1 5 (mk_bn [2 ^ 64 - 1; 5] 1 0 BN_FLG_MALLOCED) = Some (false, [1; 0; 0; 0; 0; 0; 2]) /\
  BN_bn2le_padded (1 :: replicate 12 9 ++ [2]) 1 12 (mk_bn [2 ^ 64 - 1; 5] 1 0 BN_FLG_MALLOCED) = Some (true, 1 :: replicate 8 255 ++ replicate 4 0 ++ [2]) /\
  result (some_memory 2) some_bns 2 [3; 0] 2 (fun C s => s = 0 /\ length C = 2%nat /\ val C = 2 ^ 64 - 1) (BN_bin2bn (some_memory 2) some_bns (replicate 4 0 ++ replicate 8 255) 12 2) /\
  result (some_memory 2) some_bns 3 [] 2 (fun C s => s = 0 /\ length C = 2%nat /\ val C = 2 ^ 64 - 1) (BN_le2bn (some_memory 2) some_bns (replicate 8 255 ++ replicate 4 0) 12 3).
Proof.
  assert (holds some_bns 1 [2 ^ 64 - 1] 0 /\ holds some_bns 2 [3; 0] 1 /\ holds some_bns 3 [] 0) as (H1 & H2 & H3).
  { split_and!; eexists; (split; [reflexivity|]); split_and!; first [done|by left|by right|repeat constructor; unfold in_u; cbn; lia]. }
  destruct (bn_bytes_roundtrip (some_memory 2) some_bns 1 [2 ^ 64 - 1] 0 (mk_bn [2 ^ 64 - 1; 5] 1 0 BN_FLG_MALLOCED) 2 [3; 0] 1 [1] [0; 0; 0; 0; 0] [2] (some_memory_ok 2) H1 eq_refl H2) as (_ & _ & E1 & _).
  destruct (bn_bytes_roundtrip (some_memory 2) some_bns 1 [2 ^ 64 - 1] 0 (mk_bn [2 ^ 64 - 1; 5] 1 0 BN_FLG_MALLOCED) 2 [3; 0] 1 [1] (replicate 12 9) [2] (some_memory_ok 2) H1 eq_refl H2) as (_ & _ & _ & E2 & E3).
  destruct (bn_bytes_roundtrip (some_memory 2) some_bns 1 [2 ^ 64 - 1] 0 (mk_bn [2 ^ 64 - 1; 5] 1 0 BN_FLG_MALLOCED) 3 [] 0 [1] (replicate 12 9) [2] (some_memory_ok 2) H1 eq_refl H3) as (_ & _ & _ & _ & E4).
  destruct (E3 ltac:(discriminate) ltac:(vm_compute; reflexivity)) as [E5 _].
  destruct (E4 ltac:(discriminate) ltac:(vm_compute; reflexivity)) as [_ E6].
  split; [exact E1|]. split; [exact E2|]. split; [exact E5|exact (E6 eq_refl)].
Defined.

(** BN_le2bn of a positive number into a BIGNUM that was negative is negative. *)
Lemma le2bn_negative malloc w r R bs : allocates malloc -> holds w r R 1 -> bytes bs -> bs <> [] ->
  result malloc w r R (Z.of_nat (words_for (length bs))) (fun C s => signed_val s C = - le_combine bs) (BN_le2bn malloc w bs (Z.of_nat (length bs)) r).
Proof.
  intros Hm Hr Hb Hne. destruct (le2bn_spec malloc Hm w r R 1 bs Hr Hb Hne) as (ok & w' & C & s & E & HC & Hs & H). exists ok, w', C, s. split_and!; try done. destruct ok; [|done]. destruct H as (-> & _ & <-). done.
Qed.

(** No bytes make a negative BIGNUM a negative zero, which is less than zero. *)
Lemma bin2bn_empty malloc w r R in_ a : holds w r R 1 -> holds w a [] 0 ->
  exists w', BN_bin2bn malloc w in_ 0 r = Some (true, w') /\ holds w' r [] 1 /\ BN_cmp (w' !! r) (w' !! a) = Some (-1).
Proof.
  intros Hr Ha. assert (a <> r) as Hne by (intros ->; by destruct (holds_fun _ _ _ _ _ _ Hr Ha)). unfold BN_bin2bn. cbn [Z.eqb]. destruct (holds_shorter w r [] R 1 0 Hr eq_refl) as (w' & -> & Hr' & Hs). cbn [mbind option_bind]. exists w'. split; [done|]. split; [done|].
  rewrite (Hs a Hne). destruct Hr' as (x & -> & _ & _ & Hnx & _), Ha as (y & -> & _ & _ & Hny & _). unfold BN_cmp. by rewrite Hnx, Hny.
Qed.
